(* ===== verification/_CoqProject ===== *)
-Q . S2P
Prelude.v
Bits.v
Varint.v
Base32.v
Base85.v
Base64.v
Pct.v
CrcTables.v
Crc.v
Serial.v
Snappy.v
Timer.v
Resp.v
Xxh.v
DsBase.v
Ix.v
MSet.v
BiMap.v
MMap.v
Gc.v
GcFree.v
RefCount.v
Shapes.v
ShapeTables.v
ShapeHeap.v
ShapeOps.v
ShapeProps.v
Dns.v
Ac.v
AcTrie.v
AcBuild.v
AcDense.v
AcCompact.v
AcPack.v
AcRun.v
AcProps.v
Dict.v
DictProps.v
Strings.v
AtomNames.v
StrHash.v
StrBuf.v
Ropes.v
RopeProps.v
Atoms.v
AtomTable.v
AtomOps.v
AtomProps.v
AtomFree.v
AtomInit.v
Doubles.v
MapKeys.v
Maps.v
MapTable.v
MapSpec.v
MapInv.v
MapOps.v
MapIter.v
MapProps.v
MapForEach.v
RSet.v
GapVec.v
RSetProps.v
MMHeap.v
MMHeapOrder.v
MMHeapProps.v
BTree.v
BTreeTree.v
BTreeOrder.v
BTreeHeap.v
BTreeSplit.v
BTreeOps.v
BTreeWalk.v
BTreeProps.v
