(* ===== verification/Prelude.v ===== *)
(** * DynaJS: the core library and the memory of the engine

    DynaJS is a JavaScript engine with a runtime library of its own.  The
    engine (src/dynajs.c and its fragments) exposes native modules to scripts;
    the modules sit on a library of plain C under src/core, which knows nothing
    of the engine, and on tables of array kernels (src/dyna-simd-scalar.c and
    its vector variants).  This development verifies parts of that library (the
    codecs, checksums and hashes, the record format, the block compressor, the
    timers behind the event loop, the wire protocols of the Redis and DNS
    clients, the indexed containers, the multi-pattern search and the
    dictionary compressor built on it) and, of the engine, the reference counts
    and the cycle collector that every object lives under, the shapes that
    hold the properties of objects, strings, and the table of names.

    ** Files and the code they model

    - [Prelude]: fixed-width integers ([wrap], [swrap], [fits]), bytes and
      strings, bit-level rewriting (database [testbit], tactic [bits_simpl]),
      and loops whose body goes on or returns ([turns]).
    - [Bits]: src/core/dyn-bits.h, all of it.
    - [Varint], [Base32], [Base85], [Base64]: src/core/dyn-codec.c and .h; the
      hex and base64 entry points call the kernels of src/dyna-simd-scalar.c,
      which are modelled with them.
    - [Pct]: src/core/dyn-pct.h.
    - [CrcTables], [Crc]: the CRC-32 part of src/core/dyn-hash.c, with its
      sixteen lookup tables and its two tables of powers copied entry by entry.
    - [Serial]: src/core/dyn-serial.c, the DYNS record format (writer
      dyn_ser_t, reader dyn_de_t).  It calls the checksum through the class
      [Checksum], a number of 32 bits; dyn_crc32c of [Crc] is the instance, and
      damage is detected with it.
    - [Snappy]: src/core/dyn-snappy.c, compressor and decompressor.
    - [Timer]: src/core/dyn-timer.c, the indexed binary heap of timers.
    - [Resp]: src/core/dyn-resp.c, scanner, reader and command encoder.
    - [Xxh]: xxh64, xxh32 and its incremental form, the mixer of
      src/core/dyn-hash.c, and the key hash of src/core/dyn-ds.c built on them.
    - [DsBase], [Ix]: the growth of arrays and the key index of
      src/core/dyn-ds.c: open addressing with backward-shift deletion.  The
      index takes its hash through the class [KeyHash]; [ix_hash_KeyHash] is
      the instance.
    - [MSet], [BiMap], [MMap]: the multiset, the bidirectional map and the
      multimap of src/core/dyn-ds.c, each an array of records under one or two
      indexes.
    - [Gc]: the heap of the engine and the marking passes of the collector
      (mark_children, gc_decref, gc_scan of src/object/shapes_objects_gc.inc.c,
      JS_MarkContext of src/mm/js_malloc.inc.c, js_mark_module_def of
      src/parser/parser.inc.c).
    - [GcFree]: the functions that give up references and free objects
      (JS_FreeValueRT, js_free_shape, free_var_ref, JS_FreeContext,
      free_object, free_function_bytecode, __async_func_free,
      js_free_module_def, free_zero_refcount), gc_free_cycles and
      JS_RunGCInternal.
    - [RefCount]: what JS_FreeValue does outside of a collection.
    - [Shapes]: the shapes of src/object/shapes_objects_gc.inc.c with
      add_property and delete_property of src/object/property_get.inc.c and
      js_shape_prepare_update and js_update_property_flags of
      src/object/property_set_convert.inc.c; [ShapeTables] has the hash table of
      one shape, [ShapeHeap] the shapes of a runtime with their counts,
      [ShapeOps] what the operations do, [ShapeProps] new objects, caches and the
      theorems.
    - [Dns]: src/core/dyn-dns.c, messages with compressed names.
    - [Ac]: src/core/dyn-ac.c, Aho-Corasick automata; [AcTrie] has what a run
      must report and the trie of the inserted patterns, [AcBuild] the order in
      which states are visited, [AcDense] the full table of transitions,
      [AcCompact] and [AcPack] the packed one, [AcRun] the runs and [AcProps] the
      theorems.
    - [Dict], [DictProps]: src/core/dyn-dict.c, compression with a dictionary of
      phrases, which runs the automaton of [Ac], writes the varints of [Varint]
      and names the dictionary by a checksum of the class [Checksum].
    - [Strings]: the strings of the engine, flat and ropes, and their comparison
      (memcmp16 to js_string_rope_compare of src/runtime/class.inc.c);
      [StrHash]: the string hashes and is_num_string of src/value/atoms.inc.c;
      [StrBuf]: the string buffer, string_buffer_init2 to string_buffer_end;
      [Ropes] and [RopeProps]: JS_ConcatString, js_new_string_rope,
      js_rebalancee_string_rope and js_linearize_string_rope.
    - [Atoms], [AtomNames]: the table of names and symbols of
      src/value/atoms.inc.c with the texts of src/dyna-atom.h, and
      js_free_string; [AtomTable] has its chains, [AtomOps] its invariant and the
      steps of interning, [AtomProps] and [AtomFree] interning and freeing,
      [AtomInit] the predefined atoms and the theorems.
    - [Doubles]: doubles as their bits, with the comparisons of C.
    - [MapKeys]: values as keys, js_strict_eq2 of
      src/object/property_set_convert.inc.c and the hashes of
      src/builtins/symbol.inc.c; the class [MapKey] is what a table asks of its
      keys.  [Maps]: Map and Set of src/builtins/symbol.inc.c, with iterators and
      forEach; [MapTable] has the chains, [MapSpec] the list of entries that a
      map stands for, [MapInv] the invariant and the counts of references,
      [MapOps] and [MapIter] the operations, [MapProps] and [MapForEach] the
      theorems.
    - [RSet]: the arrays with a gap and the sets of ranges of src/core/dyn-ds.c;
      [GapVec] has what splicing does, [RSetProps] the theorems.
    - [MMHeap]: the min-max heap of src/core/dyn-ds.c; [MMHeapOrder] has its order
      and the steps that restore it, [MMHeapProps] the theorem.
    - [BTree]: the B+ tree of src/core/dyn-ds.c; [BTreeTree] and [BTreeOrder] have
      the tree that a heap of nodes stands for and its order, [BTreeHeap] and
      [BTreeSplit] what changes of nodes and splits do to it, [BTreeOps] and
      [BTreeWalk] the operations and the walks, [BTreeProps] the theorem.

    A definition has the name of the C function, type or macro it translates;
    a loop or a branch that is a definition of its own is named after the
    function it belongs to.

    ** How C is rendered

    A w-bit integer is a [Z] with every wrap-around written out.  A buffer of
    known length is the list of its bytes, and an output buffer the list of the
    bytes written; where a theorem says that accesses stay inside ([Snappy],
    [Dict], [Dns], [Ac], [Strings], [StrBuf], the containers) a read or a write
    outside of an array is [None] ([aread], [awrite], [aslice]), and the theorem
    is that the result is not [None].  NULL, negative codes and
    SIZE_MAX results are [None] or the left of a sum.  State is passed
    explicitly: [dyn_ser_t], [dyn_de_t], [dyn_outbuf_t], [dyn_timers_t],
    [dyn_resp_scan_t], [dyn_xxh32_ctx_t], [dyn_ix], [dyn_mset_t],
    [dyn_bimap_t], [dyn_mmap_t] and [JSRuntime] are records with the fields of
    the structs.  Memory allocation may fail at any call: a state carries the
    list of the answers still to come, and the theorems hold for every list
    unless they say otherwise.  Tests of pointer arguments for NULL have no
    counterpart.  Counts of references are numbers without a bound where the code
    has ints: no theorem covers two billion references to one block.  memcmp
    answers the difference of the first bytes that differ, of which callers use
    the sign.

    The heap of the engine maps addresses to objects; the header of a block
    (count and mark) and the three lists of the runtime are kept apart, as the
    code does.  A mark function is the list of the headers it visits, a free
    function the list of the references it gives up, both in the order of the
    code, and the passes fold over them.  A failed assertion, a call of abort
    or an access to a freed block is [None].

    What is not in the sources is a parameter.  The CRC instruction of the CPU
    is the class [CrcInsn] with the law of its manual ([CrcInsnLaws]), and
    [soft_insn] is an instance.  Timer callbacks are a function on the timers
    and a world of the caller; [callback] are those that add and cancel timers.  The conversion of decimal text to a double in
    the RESP reader belongs to another component (src/dtoa.c) and is an argument
    of [dyn_resp_next]; no theorem depends on it.  Object classes of other
    files come with the references they hold ([class_other]).

    ** What the theorems show

    - Gc, GcFree, RefCount: the marking passes find exactly the objects that
      cannot be reached from outside ([gc_finds_garbage]); a collection frees
      these and nothing else, without a failed assertion or an access to a
      freed block ([gc_collects_garbage]), and leaves a heap that is well typed
      and well counted ([gc_keeps_heap_typed]); giving up a reference keeps the
      counts exact and frees what drops to zero ([free_value_exact]).  The
      hypotheses [gc_ready] and [gc_typed] are the invariant that both keep.
    - ShapeProps: adding and deleting properties does to the one object what a
      program expects and nothing to those that share its shape
      ([add_property_refines], [delete_property_refines]); a cache of a
      property's position stays right whatever happens to objects
      ([prop_cache_sound]).  The steps between are those of [op_step]: objects
      made, properties added, deleted, changed and written.  From an empty runtime
      without contexts and caches they count shapes exactly ([shapes_reachable]).
    - Ix, MSet, BiMap, MMap: every operation refines one on a finite map,
      failures of the allocator included, and the probing and shifting loops
      end; [ds_reserve_terminates] says when growing an array does.
    - Dns: decoding a name ends for every message
      ([dns_name_decode_terminates]), inside it and its buffer, and returns what the labels spell
      ([dns_name_decode_grammar]); queries and answers round trip; records stay
      inside the message.
    - AcProps: after the patterns were inserted and the automaton built, a run
      reports exactly their occurrences, with either table
      ([dyn_ac_run_exact]); building fails for want of memory only, because every
      row finds a place in a table whose size is bounded
      ([dyn_ac_build_succeeds]).
    - DictProps: what is compressed with a dictionary is decompressed to the
      same text ([dict_roundtrip]), and decompressing is safe on any bytes
      ([dict_decompress_safe]).
    - Strings, StrHash, StrBuf, RopeProps: comparing is comparing texts
      ([rope_compare_exact]); equal texts hash alike, but for a few keys
      ([string_hash_representation]); a buffer gives the text that was written
      ([string_buffer_exact]); flattening keeps the text
      ([linearize_rope_exact]), and so does concatenation below 2178309 units or
      where nothing is rebalanced ([concat_string_exact]); rebalancing a longer
      rope need not end ([rope_rebalance_diverges]).
    - AtomInit: a text of a type has one number, which interning finds or makes
      ([new_atom_interns]) and freeing gives back ([free_atom_exact]); the
      predefined atoms have the numbers of their constants, whatever the seed
      ([init_atoms_numbered]).
    - MapKeys, MapProps, MapForEach: sameness of keys and the hashes agree
      ([map_keys_consistent]); a Map or Set answers a program as the list of
      ECMAScript does, whatever is deleted while iterators stand on it
      ([map_ops_refine]), and forEach visits the entries as they are when their
      turn comes ([map_forEach_refines]).  Three limits: the seed of the hash is
      not next to the prime; clear is not called while an iterator stands on a
      deleted entry and one is in the map, and a function of forEach returns no
      iterator, because both can reach a freed record
      ([clear_uses_freed_record], [forEach_uses_freed_record]); and other objects
      hold no iterators of the map.
    - RSetProps: adding, removing and complementing are those of sets of doubles
      ([rset_updates_refine]), and queries answer from the set
      ([rset_queries_exact]).
    - MMHeapProps: the heap is a multiset whose least and greatest are found at
      once ([mmheap_refines]), as long as no priority is NaN ([nan_misorders]).
    - BTreeProps: the tree is a sorted map from doubles, for updates, searches,
      iterators and walks ([btree_refines]).
    - Xxh: hashing by parts gives the hash of the whole
      ([xxh32_incremental]); the mixer is injective ([mix64_injective]).
    - Serial: whatever is written is read back ([record_roundtrip]); a damaged
      record is refused ([record_damage_detected]); a reader never leaves its
      payload ([reader_stays_inside]).
    - Crc: the table-driven and the interleaved instruction-based routines
      compute the bit-serial checksum ([crc32_slice8_bitwise],
      [crc32_hw_bitwise]), which detects bursts ([crc32_detects_burst]).
    - Snappy: the decoder implements the format ([snappy_decodes_format]), is
      safe on any input ([snappy_decode_bounded]) and inverts the compressor
      ([snappy_roundtrip]), which emits no copies ([snappy_never_compresses]).
    - Timer: every operation keeps the heap, the slot table and the free chain
      consistent and refines an operation on the set of active timers; timers
      fire in order whatever the callbacks add for later or cancel, and a run ends
      ([timer_run_order]).
    - Resp: the scanner accepts exactly the reply grammar ([resp_scan_grammar]),
      gives the same answer however the stream is cut ([resp_scan_streaming]),
      never takes a verdict back ([resp_scan_final]) and stays inside its
      buffers ([resp_scan_safe]); commands round trip.
    - Codecs: every encoding decodes to its source, decoders stay within the
      stated capacity, and varints reject overflow and truncation; ascii85's
      declared capacity is too small ([base85_decode_cap_too_small]).
    - Bits: reversal, and the two-word arithmetic, are exact.

    ** Fuel

    Loops that are not structural take a number of turns that the code cannot
    exceed, and the theorems prove it: ten groups for a 64-bit varint, 42
    doublings of a capacity in [Serial] and 33 in [DsBase], one turn per byte
    for decoders and for the RESP scanner ([scan_loop_total]), 32 pops for a
    stack of 32, one turn per level of a heap, 64 bits of a shift count, one
    turn per slot of an index, one turn per object for the loops of the
    collector and of free_zero_refcount, one turn per entry of a shape for its
    chains and 32 doublings or halvings of its table, one turn per state and per
    slot for the builds of [Ac], and for a DNS name one turn per byte
    before it and per byte of its text; comparing ropes takes one turn per flat
    string, and 44 buckets bound the loops of rebalancing; a walk along a chain of
    atoms takes one turn per entry of the array, and the loops of a map one turn
    per record, those of forEach per entry of the final list;
    the binary search of a range set takes 33 turns and its other loops one per
    range; the loops of a B+ tree take one turn per node, and a chain of 16 full
    nodes is never reached below 2^60 nodes.  Where a loop may run on (the timer run,
    whose callbacks may add timers, ds_reserve at 2^31 elements, and rebalancing
    inside rebalancing, where [fuel] counts the nested calls) the result
    is an option and termination is a theorem with the condition it needs.

    ** What is not modelled

    Clocks, sockets, threads and system calls; the vector kernels; the engine
    but for its memory, ordinary properties, strings, atoms, Map and Set: parser,
    bytecode, interpreter, the other builtins, and the weak maps that
    gc_remove_weak_objects walks before a collection; regular
    expressions, Unicode tables and number conversion, which come from
    upstream; message digests, Deflate, LZ4 and the other containers of
    dyn-ds.c (tables, range maps, interval trees, sketches and filters), the path and string-search parts of src/core and the random
    numbers. *)
From Stdlib Require Import ZArith Lia Btauto Ascii.
From stdpp Require Import base numbers list option strings.

#[global] Set Warnings "-notation-overridden".

(** ** Fixed-width integers

    A C integer of width [w] is a [Z]; the conversion C performs on
    assignment or on unsigned arithmetic is written out as [wrap w]. *)

Declare Scope cint_scope.
Delimit Scope cint_scope with C.

Open Scope Z_scope.

Definition wrap (w x : Z) : Z := x `mod` 2 ^ w.

Abbreviation u8 := (wrap 8) (only parsing).
Abbreviation u16 := (wrap 16) (only parsing).
Abbreviation u32 := (wrap 32) (only parsing).
Abbreviation u64 := (wrap 64) (only parsing).

(** Two's-complement reading of the low [w] bits: the value of a signed
    [w]-bit object holding them. *)
Definition swrap (w x : Z) : Z :=
  let y := wrap w x in if y <? 2 ^ (w - 1) then y else y - 2 ^ w.

Abbreviation i32 := (swrap 32) (only parsing).
Abbreviation i64 := (swrap 64) (only parsing).

Notation "a << b" := (Z.shiftl a b) (at level 44, left associativity) : cint_scope.
Notation "a >> b" := (Z.shiftr a b) (at level 44, left associativity) : cint_scope.
Notation "a & b" := (Z.land a b) (at level 46, left associativity) : cint_scope.
Notation "a ^^ b" := (Z.lxor a b) (at level 47, left associativity) : cint_scope.
Notation "a .| b" := (Z.lor a b) (at level 48, left associativity) : cint_scope.
Open Scope cint_scope.

Definition UINT32_MAX : Z := 2 ^ 32 - 1.
Definition UINT64_MAX : Z := 2 ^ 64 - 1.
Definition INT64_MAX : Z := 2 ^ 63 - 1.
Definition INT64_MIN : Z := - 2 ^ 63.
(** [size_t] is 64 bits wide on every platform the build supports. *)
Definition SIZE_MAX : Z := UINT64_MAX.

(** A value that fits an unsigned [w]-bit object. *)
Definition fits (w x : Z) : Prop := 0 <= x < 2 ^ w.
(** A value that fits a signed [w]-bit object. *)
Definition sfits (w x : Z) : Prop := - 2 ^ (w - 1) <= x < 2 ^ (w - 1).

#[export] Instance fits_dec w x : Decision (fits w x).
Proof. unfold fits. apply _. Defined.
#[export] Instance sfits_dec w x : Decision (sfits w x).
Proof. unfold sfits. apply _. Defined.

(** A byte string: the [uint8_t] (or [char]) elements a pointer and a
    length describe. *)
Abbreviation bytes := (list Z).
Definition bytesb (l : bytes) : bool := forallb (fun b => (0 <=? b) && (b <? 256)) l.
Abbreviation is_bytes l := (Forall (fits 8) l).

(** The character constants of the source. *)
Definition ch (a : ascii) : Z := Z.of_nat (nat_of_ascii a).
Definition str (s : string) : bytes := ch <$> String.list_ascii_of_string s.

Arguments ch _%_char_scope.
Arguments str _%_string_scope.

(** ** Hint databases and tactics *)

Create HintDb cint.
Create Rewrite HintDb testbit.

Ltac deex :=
  repeat match goal with
         | H : exists x, _ |- _ => let y := fresh x in destruct H as [y H]
         | H : _ /\ _ |- _ => destruct H
         end.

(** Turns the boolean tests of the code, in the hypotheses and the goal,
    into the propositions they decide. *)
Ltac bprop :=
  repeat match goal with
         | H : (_ && _)%bool = true |- _ => apply andb_true_iff in H as [? ?]
         | H : (_ && _)%bool = false |- _ => apply andb_false_iff in H
         | H : (_ || _)%bool = true |- _ => apply orb_true_iff in H
         | H : (_ || _)%bool = false |- _ => apply orb_false_iff in H as [? ?]
         | H : negb _ = true |- _ => apply negb_true_iff in H
         | H : negb _ = false |- _ => apply negb_false_iff in H
         | H : (_ <? _) = true |- _ => apply Z.ltb_lt in H
         | H : (_ <? _) = false |- _ => apply Z.ltb_ge in H
         | H : (_ <=? _) = true |- _ => apply Z.leb_le in H
         | H : (_ <=? _) = false |- _ => apply Z.leb_gt in H
         | H : (_ =? _) = true |- _ => apply Z.eqb_eq in H
         | H : (_ =? _) = false |- _ => apply Z.eqb_neq in H
         | H : (_ <? _)%nat = true |- _ => apply Nat.ltb_lt in H
         | H : (_ <? _)%nat = false |- _ => apply Nat.ltb_ge in H
         | H : (_ <=? _)%nat = true |- _ => apply Nat.leb_le in H
         | H : (_ <=? _)%nat = false |- _ => apply Nat.leb_gt in H
         | H : (_ =? _)%nat = true |- _ => apply Nat.eqb_eq in H
         | H : (_ =? _)%nat = false |- _ => apply Nat.eqb_neq in H
         end.

(** Linear arithmetic with division and modulo by constants. *)
Ltac zdm := Z.to_euclidean_division_equations; lia.

(** Splits on the innermost [if] or [match] of the goal, keeping the equation. *)
Ltac case_if :=
  match goal with
  | |- context [if ?b then _ else _] =>
      lazymatch b with context [if _ then _ else _] => fail | _ => idtac end;
      let E := fresh "E" in destruct b eqn:E
  end.
Ltac case_ifs := repeat (case_if; bprop).

Ltac case_if_in H :=
  match type of H with
  | context [if ?b then _ else _] =>
      lazymatch b with context [if _ then _ else _] => fail | _ => idtac end;
      let E := fresh "E" in destruct b eqn:E
  end.

(** ** Wrap-around *)

Lemma wrap_fits w x : 0 <= w -> fits w (wrap w x).
Proof. intros. apply Z.mod_pos_bound. lia. Qed.

Lemma wrap_id w x : fits w x -> wrap w x = x.
Proof. intros. by apply Z.mod_small. Qed.

Lemma wrap_wrap w x : 0 <= w -> wrap w (wrap w x) = wrap w x.
Proof. intros. by apply wrap_id, wrap_fits. Qed.

Lemma wrap_le w v x : 0 <= w <= v -> wrap w (wrap v x) = wrap w x.
Proof.
  intros. unfold wrap. replace v with (w + (v - w)) by lia.
  rewrite Z.pow_add_r, Z.rem_mul_r by lia.
  rewrite (Z.mul_comm (2 ^ w)), Z.mod_add by lia.
  apply Z.mod_mod; lia.
Qed.

Lemma wrap_add_l w x y : 0 <= w -> wrap w (wrap w x + y) = wrap w (x + y).
Proof. intros. apply Z.add_mod_idemp_l. lia. Qed.
Lemma wrap_add_r w x y : 0 <= w -> wrap w (x + wrap w y) = wrap w (x + y).
Proof. intros. apply Z.add_mod_idemp_r. lia. Qed.
Lemma wrap_mul_l w x y : 0 <= w -> wrap w (wrap w x * y) = wrap w (x * y).
Proof. intros. apply Z.mul_mod_idemp_l. lia. Qed.
Lemma wrap_mul_r w x y : 0 <= w -> wrap w (x * wrap w y) = wrap w (x * y).
Proof. intros. apply Z.mul_mod_idemp_r. lia. Qed.
Lemma wrap_sub_l w x y : 0 <= w -> wrap w (wrap w x - y) = wrap w (x - y).
Proof. intros. unfold wrap. apply Zminus_mod_idemp_l. Qed.
Lemma wrap_sub_r w x y : 0 <= w -> wrap w (x - wrap w y) = wrap w (x - y).
Proof. intros. unfold wrap. apply Zminus_mod_idemp_r. Qed.

Lemma wrap_land w x : 0 <= w -> wrap w x = x & Z.ones w.
Proof. intros. unfold wrap. by rewrite Z.land_ones. Qed.

Lemma fits_weaken w v x : 0 <= w <= v -> fits w x -> fits v x.
Proof.
  unfold fits. intros. pose proof (Z.pow_le_mono_r 2 w v). lia.
Qed.

Lemma swrap_sfits w x : 0 < w -> sfits w (swrap w x).
Proof.
  intros. unfold sfits, swrap. pose proof (wrap_fits w x) as [? ?]; [lia|].
  assert (2 ^ w = 2 * 2 ^ (w - 1)).
  { rewrite <- Z.pow_succ_r by lia. f_equal. lia. }
  case_ifs; lia.
Qed.

Lemma swrap_id w x : 0 < w -> sfits w x -> swrap w x = x.
Proof.
  intros Hw [? ?]. unfold swrap.
  assert (2 ^ w = 2 * 2 ^ (w - 1)).
  { rewrite <- Z.pow_succ_r by lia. f_equal. lia. }
  destruct (Z_lt_le_dec x 0).
  - replace (wrap w x) with (x + 2 ^ w).
    + case_ifs; lia.
    + unfold wrap. rewrite <- (Z.mod_add _ 1) by lia.
      rewrite Z.mul_1_l. symmetry. apply Z.mod_small. lia.
  - rewrite wrap_id by (unfold fits; lia). case_ifs; lia.
Qed.

#[export] Hint Resolve wrap_fits swrap_sfits : cint.

(** ** Bits *)

Lemma testbit_wrap w x i :
  0 <= w -> 0 <= i -> Z.testbit (wrap w x) i = (i <? w) && Z.testbit x i.
Proof.
  intros. unfold wrap. destruct (Z.ltb_spec i w).
  - by rewrite Z.mod_pow2_bits_low by lia.
  - by rewrite Z.mod_pow2_bits_high by lia.
Qed.

Lemma testbit_ones w i : 0 <= w -> 0 <= i -> Z.testbit (Z.ones w) i = (i <? w).
Proof.
  intros. destruct (Z.ltb_spec i w).
  - by rewrite Z.ones_spec_low by lia.
  - by rewrite Z.ones_spec_high by lia.
Qed.

Lemma testbit_fits w x i : fits w x -> 0 <= w <= i -> Z.testbit x i = false.
Proof.
  intros Hf ?. rewrite <- (wrap_id w x) by done.
  rewrite testbit_wrap by lia. destruct (Z.ltb_spec i w); [lia|done].
Qed.

Lemma fits_testbit w x :
  0 <= w -> 0 <= x -> (forall i, w <= i -> Z.testbit x i = false) -> fits w x.
Proof.
  intros Hw Hx Hb. enough (x = wrap w x) as -> by by apply wrap_fits.
  apply Z.bits_inj'. intros i Hi. rewrite testbit_wrap by lia.
  destruct (Z.ltb_spec i w); [done|]. by rewrite Hb by lia.
Qed.

Lemma land_fits w x y : 0 <= w -> fits w x -> 0 <= y -> fits w (x & y).
Proof.
  intros Hw Hx Hy. apply fits_testbit; [lia| |].
  - apply Z.land_nonneg. lia.
  - intros. by rewrite Z.land_spec, (testbit_fits w) by (done || lia).
Qed.

Lemma lor_fits w x y : 0 <= w -> fits w x -> fits w y -> fits w (x .| y).
Proof.
  intros Hw Hx Hy. apply fits_testbit; [lia| |].
  - apply Z.lor_nonneg. unfold fits in *. lia.
  - intros. by rewrite Z.lor_spec, !(testbit_fits w) by (done || lia).
Qed.

Lemma lxor_fits w x y : 0 <= w -> fits w x -> fits w y -> fits w (x ^^ y).
Proof.
  intros Hw Hx Hy. apply fits_testbit; [lia| |].
  - apply Z.lxor_nonneg. unfold fits in *. lia.
  - intros. by rewrite Z.lxor_spec, !(testbit_fits w) by (done || lia).
Qed.

Lemma shiftr_fits w x k : 0 <= w -> 0 <= k -> fits (w + k) x -> fits w (x >> k).
Proof.
  intros Hw Hk [? Hx]. unfold fits. rewrite Z.shiftr_div_pow2 by lia.
  rewrite Z.pow_add_r, Z.mul_comm in Hx by lia.
  split; [apply Z.div_pos; lia|]. by apply Z.div_lt_upper_bound; lia.
Qed.

Lemma shiftr_fits_same w x k : 0 <= w -> 0 <= k -> fits w x -> fits w (x >> k).
Proof. intros. apply shiftr_fits; [lia..|]. by eapply (fits_weaken w); [lia|]. Qed.

#[export] Hint Resolve land_fits lor_fits lxor_fits : cint.

(** Rewrites [Z.testbit] through the bit operations; side conditions by [lia]. *)
#[export] Hint Rewrite
  Z.lor_spec Z.land_spec Z.lxor_spec Z.testbit_0_l : testbit.
#[export] Hint Rewrite
  Z.shiftr_spec Z.shiftl_spec testbit_wrap testbit_ones Z.testbit_neg_r
  using lia : testbit.

Lemma ltb_true x y : x < y -> (x <? y) = true.
Proof. apply Z.ltb_lt. Qed.
Lemma ltb_false x y : y <= x -> (x <? y) = false.
Proof. apply Z.ltb_ge. Qed.
#[export] Hint Rewrite ltb_true ltb_false using lia : testbit.

(** Proves an equation between words bit by bit: the bit position is split at
    the boundaries given by the caller, the bits above a word are dropped with
    the [fits] hypotheses of the context. *)
Ltac bits_drop :=
  repeat match goal with
         | H : fits ?w ?x |- context [Z.testbit ?x ?i] =>
             rewrite (testbit_fits w x i H) by lia
         end.
Ltac bits_simpl :=
  repeat (progress (autorewrite with testbit; bits_drop;
    rewrite ?andb_true_l, ?andb_true_r, ?andb_false_l, ?andb_false_r,
      ?orb_true_l, ?orb_true_r, ?orb_false_l, ?orb_false_r,
      ?xorb_false_l, ?xorb_false_r)).
Ltac bits_eq := repeat (f_equal; try lia); try btauto.

(** Case analysis on a bounded integer: one goal per value. *)
Lemma Z_range_ind (P : Z -> Prop) (n : nat) :
  Forall P (seqZ 0 (Z.of_nat n)) -> forall i, 0 <= i < Z.of_nat n -> P i.
Proof.
  intros H i Hi. rewrite Forall_forall in H. apply H.
  apply elem_of_seqZ. lia.
Qed.

(** Case analysis over the 256 values of a byte. *)
Lemma byte_cases (P : Z -> bool) :
  forallb P (seqZ 0 256) = true -> forall c, fits 8 c -> P c = true.
Proof. intros H c Hc. rewrite forallb_forall in H. apply H, list_elem_of_In, elem_of_seqZ. unfold fits in Hc. lia. Qed.

Lemma land_shift_disjoint hi lo w : 0 <= w -> fits w lo -> (hi << w) & lo = 0.
Proof.
  intros Hw Hlo. apply Z.bits_inj'. intros i Hi. autorewrite with testbit.
  destruct (Z_lt_le_dec i w); [by autorewrite with testbit|].
  by rewrite (testbit_fits w lo), andb_false_r by (done || lia).
Qed.

(** Or-ing a shifted word above a word that stays below it is addition. *)
Lemma lor_shiftl_add acc b s : fits s acc -> 0 <= s -> acc .| (b << s) = acc + b * 2 ^ s.
Proof.
  intros Hacc Hs. pose proof (land_shift_disjoint b acc s Hs Hacc) as E.
  rewrite <- Z.shiftl_mul_pow2, Z.lor_comm by lia.
  rewrite <- Z.lxor_lor, <- Z.add_nocarry_lxor by done. lia.
Qed.

(** ** Lists *)

Lemma fold_left_cons {A B} (f : A -> B -> A) b l a : fold_left f (b :: l) a = fold_left f l (f a b).
Proof. reflexivity. Qed.

(** Writing one element of a list exchanges it, up to order. *)
Lemma insert_perm {A} (l : list A) i x y : l !! i = Some x ->
  exists rest, l ≡ₚ x :: rest /\ <[i := y]> l ≡ₚ y :: rest.
Proof.
  intros H. exists (take i l ++ drop (S i) l). split.
  - by rewrite <- (take_drop_middle l i x H) at 1; rewrite Permutation_middle.
  - rewrite insert_take_drop by (by eapply lookup_lt_Some). by rewrite Permutation_middle.
Qed.

(** ** Powers of two *)

Lemma land_pow2_mask (n k : nat) : Nat.land n (2 ^ k - 1) = (n `mod` 2 ^ k)%nat.
Proof. rewrite <- Nat.land_ones. f_equal. by rewrite Nat.ones_equiv, Nat.sub_1_r. Qed.

(** ** Loops that run until they return *)

(** [for (;;)] whose body goes on with a new state or returns. *)
Section Turns.
Context {S R : Type}.

Fixpoint turns (turn : S -> S + R) (fuel : nat) (s : S) : option R :=
  match fuel with
  | O => None
  | Datatypes.S fuel => match turn s with inr r => Some r | inl s => turns turn fuel s end
  end.

Lemma turns_mono turn fuel fuel' s r :
  (fuel <= fuel')%nat -> turns turn fuel s = Some r -> turns turn fuel' s = Some r.
Proof.
  revert fuel' s. induction fuel as [|fuel IH]; intros fuel' s Hle H; [done|]. destruct fuel' as [|fuel']; [lia|].
  cbn [turns] in *. destruct (turn s); [|done]. apply IH; [lia|done].
Qed.

(** A measure that every turn lowers bounds the number of turns. *)
Lemma turns_total turn (I : S -> Prop) (mu : S -> nat) (Q : R -> Prop) :
  (forall s, I s -> match turn s with inl s' => I s' /\ (mu s' < mu s)%nat | inr r => Q r end) ->
  forall fuel s, I s -> (mu s < fuel)%nat -> exists r, turns turn fuel s = Some r /\ Q r.
Proof.
  intros Hturn. induction fuel as [|fuel IH]; intros s Hs Hf; [lia|]. cbn [turns]. specialize (Hturn s Hs).
  destruct (turn s) as [s'|r]; [|by exists r]. destruct Hturn. apply IH; [done|lia].
Qed.

(** What the states keep holds of the result, and what the result has goes back
    to the first state. *)
Lemma turns_forward turn (I : S -> Prop) (Q : R -> Prop) :
  (forall s, I s -> match turn s with inl s' => I s' | inr r => Q r end) ->
  forall fuel s r, I s -> turns turn fuel s = Some r -> Q r.
Proof.
  intros Hturn. induction fuel as [|fuel IH]; intros s r Hs H; [done|]. cbn [turns] in H. specialize (Hturn s Hs).
  destruct (turn s) as [s'|r']; [by apply (IH s')|]. by injection H as ->.
Qed.

Lemma turns_backward turn (P : S -> R -> Prop) :
  (forall s s' r, turn s = inl s' -> P s' r -> P s r) -> (forall s r, turn s = inr r -> P s r) ->
  forall fuel s r, turns turn fuel s = Some r -> P s r.
Proof.
  intros Hgo Hret. induction fuel as [|fuel IH]; intros s r H; [done|]. cbn [turns] in H.
  destruct (turn s) as [s'|r'] eqn:E; [by eapply Hgo, IH|]. injection H as ->. by apply Hret.
Qed.

(** Two bodies that agree but for where the first one pauses: what it returned
    as final is what the second returns, and from a pause the second goes on as
    it would have. *)
Lemma turns_ext turn turn' (I : S -> Prop) (pause : R -> option S) :
  (forall s, I s -> match turn s with
    | inl s' => I s' /\ turn' s = inl s'
    | inr r => match pause r with Some s' => turn' s = turn' s' | None => turn' s = inr r end
    end) ->
  forall fuel s r, I s -> turns turn fuel s = Some r ->
    match pause r with
    | Some s' => exists k, (k < fuel)%nat /\ forall n, (0 < n)%nat -> turns turn' (k + n) s = turns turn' n s'
    | None => turns turn' fuel s = Some r
    end.
Proof.
  intros Hturn. induction fuel as [|fuel IH]; intros s r Hs H; [done|]. cbn [turns] in H. specialize (Hturn s Hs).
  destruct (turn s) as [s1|r1].
  - destruct Hturn as [Hs1 E]. specialize (IH s1 r Hs1 H). destruct (pause r).
    + destruct IH as (k & Hk & IH). exists (Datatypes.S k). split; [lia|]. intros n Hn.
      cbn [Nat.add turns]. rewrite E. by apply IH.
    + cbn [turns]. by rewrite E.
  - injection H as ->. destruct (pause r).
    + exists 0%nat. split; [lia|]. intros [|n] Hn; [lia|]. cbn [Nat.add turns]. by rewrite Hturn.
    + cbn [turns]. by rewrite Hturn.
Qed.

End Turns.

(** ** Calls one after the other, until one fails *)

Fixpoint each {A S : Type} (f : S -> A -> option S) (l : list A) (s : S) : option S :=
  match l with
  | [] => Some s
  | x :: l => s ← f s x; each f l s
  end.

Lemma each_app {A S} (f : S -> A -> option S) l1 l2 s : each f (l1 ++ l2) s = (s ← each f l1 s; each f l2 s).
Proof. revert s. induction l1 as [|x l1 IH]; intros s; [done|]. cbn [app each]. destruct (f s x); [apply IH|done]. Qed.

(** An invariant of what is done and what is left. *)
Lemma each_inv {A S} (f : S -> A -> option S) (I : list A -> S -> Prop) l :
  (forall pre x post s, l = pre ++ x :: post -> I pre s -> exists s', f s x = Some s' /\ I (pre ++ [x]) s') ->
  forall s, I [] s -> exists s', each f l s = Some s' /\ I l s'.
Proof.
  intros Hstep. assert (H : forall post pre s, l = pre ++ post -> I pre s -> exists s', each f post s = Some s' /\ I l s').
  { induction post as [|x post IH]; intros pre s E Hs; [exists s; rewrite app_nil_r in E; by subst|]. destruct (Hstep pre x post s E Hs) as (s' & E' & Hs').
    destruct (IH (pre ++ [x]) s') as (s2 & E2 & H2); [by rewrite <- app_assoc|done|]. exists s2. cbn [each]. by rewrite E'. }
  intros s Hs. by apply (H l []).
Qed.

(** ** Arrays: a read or write outside of them is a fault *)

Definition aread {A} (l : list A) (i : Z) : option A := if i <? 0 then None else l !! Z.to_nat i.
Definition awrite {A} (l : list A) (i : Z) (x : A) : option (list A) :=
  if (0 <=? i) && (i <? Z.of_nat (length l)) then Some (<[Z.to_nat i := x]> l) else None.

(** The [n] elements from [i] on. *)
Definition aslice {A} (l : list A) (i n : nat) : option (list A) := if (length l <? i + n)%nat then None else Some (take n (drop i l)).

Lemma aslice_in {A} (l : list A) i n : (i + n <= length l)%nat -> aslice l i n = Some (take n (drop i l)).
Proof. intros H. unfold aslice. by rewrite (proj2 (Nat.ltb_ge _ _)). Qed.

Lemma aslice_front {A} (l1 l2 : list A) n : n = length l1 -> aslice (l1 ++ l2) 0 n = Some l1.
Proof. intros ->. rewrite aslice_in by (rewrite length_app; lia). by rewrite drop_0, take_app_length. Qed.

Lemma aread_nat {A} (l : list A) (i : nat) : aread l (Z.of_nat i) = l !! i.
Proof. unfold aread. rewrite (proj2 (Z.ltb_ge _ _)) by lia. by rewrite Nat2Z.id. Qed.

Lemma awrite_nat {A} (l : list A) (i : nat) x : (i < length l)%nat -> awrite l (Z.of_nat i) x = Some (<[i := x]> l).
Proof. intros Hi. unfold awrite. rewrite (proj2 (Z.leb_le _ _)), (proj2 (Z.ltb_lt _ _)) by lia. cbn [andb]. by rewrite Nat2Z.id. Qed.

Lemma awrite_in {A} (l : list A) (i : Z) x : 0 <= i < Z.of_nat (length l) -> awrite l i x = Some (<[Z.to_nat i := x]> l).
Proof. intros Hi. unfold awrite. by rewrite (proj2 (Z.leb_le _ _)), (proj2 (Z.ltb_lt _ _)) by lia. Qed.

(** A write inside the array changes that entry. *)
Lemma awrite_spec {A} (l : list A) (i : Z) x : 0 <= i < Z.of_nat (length l) ->
  exists l', awrite l i x = Some l' /\ length l' = length l /\ aread l' i = Some x /\ forall j, j <> i -> aread l' j = aread l j.
Proof.
  intros Hi. exists (<[Z.to_nat i := x]> l). rewrite awrite_in, length_insert by done. unfold aread. split_and!; [done|done| |].
  - rewrite (proj2 (Z.ltb_ge _ _)) by lia. apply list_lookup_insert_eq. lia.
  - intros j Hj. destruct (Z.ltb_spec j 0); [done|]. apply list_lookup_insert_ne. lia.
Qed.

Lemma aread_some {A} (l : list A) (i : Z) x : aread l i = Some x -> 0 <= i < Z.of_nat (length l).
Proof. unfold aread. destruct (Z.ltb_spec i 0); [done|]. intros E%lookup_lt_Some. lia. Qed.
