(* ===== verification/Bits.v ===== *)
(** * Machine-word primitives: [src/core/dyn-bits.h]

    Every inline function of the header, over [Z] with the C conversions
    written out, and the facts the callers rely on: the exact meaning of bit
    reversal and rotation, and that the carry, borrow, widening-multiply and
    two-word division primitives compute the exact integers they stand for. *)
From Stdlib Require Import ZArith Lia.
From stdpp Require Import base numbers list.
From S2P Require Import Prelude.

(** ** Compiler builtins the header uses *)

(** [__builtin_clzll], [x] not zero. *)
Definition builtin_clzll (x : Z) : Z := 63 - Z.log2 x.
(** [__builtin_ctzll], [x] not zero: the lowest set bit isolated. *)
Definition builtin_ctzll (x : Z) : Z := Z.log2 (x & - x).
(** [__builtin_popcountll]. *)
Definition builtin_popcountll (x : Z) : Z :=
  foldr (fun i acc => Z.b2z (Z.testbit x i) + acc) 0 (seqZ 0 64).
Definition builtin_bswap16 (x : Z) : Z := ((x & 255) << 8) .| ((x >> 8) & 255).
Definition builtin_bswap32 (x : Z) : Z :=
  ((x & 255) << 24) .| (((x >> 8) & 255) << 16)
  .| (((x >> 16) & 255) << 8) .| ((x >> 24) & 255).
Definition builtin_bswap64 (x : Z) : Z :=
  ((x & 255) << 56) .| (((x >> 8) & 255) << 48) .| (((x >> 16) & 255) << 40)
  .| (((x >> 24) & 255) << 32) .| (((x >> 32) & 255) << 24)
  .| (((x >> 40) & 255) << 16) .| (((x >> 48) & 255) << 8) .| ((x >> 56) & 255).

(** ** The header *)

Inductive dyn_bits_status := DYN_BITS_OK | DYN_BITS_DIV_ZERO | DYN_BITS_OVERFLOW.

Definition dyn_bits_len64 (x : Z) : Z :=
  if x =? 0 then 0 else 64 - builtin_clzll x.

Definition dyn_bits_leading_zeros (x width : Z) : Z := width - dyn_bits_len64 x.

Definition dyn_bits_trailing_zeros (x width : Z) : Z :=
  if x =? 0 then width else builtin_ctzll x.

Definition dyn_bits_ones_count (x : Z) : Z := builtin_popcountll x.

(** The statement [x = ((x >> k) & m) | ((x & m) << k)] the function repeats. *)
Definition swap_step (k m x : Z) : Z := ((x >> k) & m) .| u64 ((x & m) << k).

Definition dyn_bits_reverse64 (x : Z) : Z :=
  let x := swap_step 1 0x5555555555555555 x in
  let x := swap_step 2 0x3333333333333333 x in
  let x := swap_step 4 0x0F0F0F0F0F0F0F0F x in
  builtin_bswap64 x.

Definition dyn_bits_reverse (x width : Z) : Z := dyn_bits_reverse64 x >> (64 - width).

Definition dyn_bits_bswap16 (x : Z) : Z := builtin_bswap16 x.
Definition dyn_bits_bswap32 (x : Z) : Z := builtin_bswap32 x.
Definition dyn_bits_bswap64 (x : Z) : Z := builtin_bswap64 x.

Definition dyn_bits_rotate_left (x k width : Z) : Z :=
  let s := u32 k & (u32 (width - 1)) in
  if s =? 0 then x else
  let x := u64 (x << s) .| (x >> (width - s)) in
  if width =? 64 then x else x & ((1 << width) - 1).

Definition dyn_bits_rotl32 (x n : Z) : Z :=
  let s := u32 n & 31 in
  if s =? 0 then x else u32 (x << s) .| (x >> (32 - s)).

Definition dyn_bits_rotr32 (x n : Z) : Z :=
  let s := u32 n & 31 in
  if s =? 0 then x else (x >> s) .| u32 (x << (32 - s)).

Definition dyn_bits_rotl64 (x n : Z) : Z :=
  let s := u32 n & 63 in
  if s =? 0 then x else u64 (x << s) .| (x >> (64 - s)).

Definition dyn_bits_rotr64 (x n : Z) : Z :=
  let s := u32 n & 63 in
  if s =? 0 then x else (x >> s) .| u64 (x << (64 - s)).

(** The out-parameter [carry_out] is the second component. *)
Definition dyn_bits_add32 (a b carry_in : Z) : Z * Z :=
  let s := u64 (a + b + carry_in) in (u32 s, u32 (s >> 32)).

Definition dyn_bits_add64 (a b carry_in : Z) : Z * Z :=
  let s := wrap 128 (a + b + carry_in) in (u64 s, u64 (s >> 64)).

Definition dyn_bits_sub32 (a b borrow_in : Z) : Z * Z :=
  let sub := u64 (b + borrow_in) in
  (u32 (u64 (a - sub)), if a <? sub then 1 else 0).

Definition dyn_bits_sub64 (a b borrow_in : Z) : Z * Z :=
  let sub := wrap 128 (b + borrow_in) in
  (u64 (wrap 128 (a - sub)), if a <? sub then 1 else 0).

(** The pair is [(hi, lo)]. *)
Definition dyn_bits_mul32 (a b : Z) : Z * Z :=
  let p := u64 (a * b) in (u32 (p >> 32), u32 p).

Definition dyn_bits_mul64 (a b : Z) : Z * Z :=
  let p := wrap 128 (a * b) in (u64 (p >> 64), u64 p).

(** [inl] is the error status, [inr (quo, rem)] the two out-parameters. *)
Definition dyn_bits_div32 (hi lo y : Z) : dyn_bits_status + Z * Z :=
  if y =? 0 then inl DYN_BITS_DIV_ZERO else
  if y <=? hi then inl DYN_BITS_OVERFLOW else
  let d := u64 (hi << 32) .| lo in
  inr (u32 (d `div` y), u32 (d `mod` y)).

Definition dyn_bits_div64 (hi lo y : Z) : dyn_bits_status + Z * Z :=
  if y =? 0 then inl DYN_BITS_DIV_ZERO else
  if y <=? hi then inl DYN_BITS_OVERFLOW else
  let d := wrap 128 (hi << 64) .| lo in
  inr (u64 (d `div` y), u64 (d `mod` y)).

Definition dyn_bits_rem32 (hi lo y : Z) : dyn_bits_status + Z :=
  if y =? 0 then inl DYN_BITS_DIV_ZERO
  else inr (u32 ((u64 (hi << 32) .| lo) `mod` y)).

Definition dyn_bits_rem64 (hi lo y : Z) : dyn_bits_status + Z :=
  if y =? 0 then inl DYN_BITS_DIV_ZERO
  else inr (u64 ((wrap 128 (hi << 64) .| lo) `mod` y)).

(** ** Facts *)

(** A permutation of the bit positions of a word, given by exclusive-or with a
    constant: what each line of the reversal does. *)
Definition permutes (f : Z -> Z) (k : Z) : Prop :=
  forall x i, 0 <= i < 64 -> Z.testbit (f x) i = Z.testbit x (Z.lxor i k).

Ltac permute_bits :=
  intros x; apply (Z_range_ind _ 64); repeat constructor; autorewrite with testbit; cbn;
  rewrite ?andb_true_r, ?andb_false_r, ?orb_false_r; reflexivity.

Lemma swap_step_1 : permutes (swap_step 1 0x5555555555555555) 1.
Proof. unfold permutes, swap_step. permute_bits. Qed.
Lemma swap_step_2 : permutes (swap_step 2 0x3333333333333333) 2.
Proof. unfold permutes, swap_step. permute_bits. Qed.
Lemma swap_step_4 : permutes (swap_step 4 0x0F0F0F0F0F0F0F0F) 4.
Proof. unfold permutes, swap_step. permute_bits. Qed.
Lemma builtin_bswap64_56 : permutes builtin_bswap64 56.
Proof. unfold permutes, builtin_bswap64. permute_bits. Qed.

Lemma permutes_compose f g k l :
  fits 6 k -> permutes f k -> permutes g l -> permutes (fun x => f (g x)) (Z.lxor k l).
Proof.
  intros Hk Hf Hg x i Hi. rewrite Hf, Hg by (done || by apply (lxor_fits 6)).
  by rewrite Z.lxor_assoc.
Qed.

Lemma dyn_bits_reverse64_spec x i :
  0 <= i < 64 -> Z.testbit (dyn_bits_reverse64 x) i = Z.testbit x (63 - i).
Proof.
  intros Hi. unfold dyn_bits_reverse64.
  rewrite builtin_bswap64_56, swap_step_4, swap_step_2, swap_step_1
    by (done || by repeat apply (lxor_fits 6)).
  f_equal. rewrite !Z.lxor_assoc. cbn. revert i Hi. apply (Z_range_ind _ 64). by repeat constructor.
Qed.

Lemma dyn_bits_reverse64_fits x : fits 64 (dyn_bits_reverse64 x).
Proof.
  unfold dyn_bits_reverse64. generalize (swap_step 4 0x0F0F0F0F0F0F0F0F
    (swap_step 2 0x3333333333333333 (swap_step 1 0x5555555555555555 x))) as y. intros y.
  unfold builtin_bswap64.
  assert (H : forall k, 0 <= k <= 56 -> fits 64 ((y >> (56 - k) & 255) << k)).
  { intros k Hk. apply fits_testbit; [lia| |].
    - apply Z.shiftl_nonneg, Z.land_nonneg. lia.
    - intros i Hi. rewrite Z.shiftl_spec, Z.land_spec by lia.
      by rewrite (testbit_fits 8 255), andb_false_r by (done || lia). }
  pose proof (H 0) as H0. rewrite Z.shiftl_0_r in H0.
  repeat apply lor_fits; try lia; try (apply H0; lia);
    match goal with |- fits 64 (_ << ?k) => apply (H k); lia end.
Qed.

Lemma div_wrap w x : 0 <= w -> fits (w + w) x -> wrap w (x >> w) = x / 2 ^ w.
Proof.
  intros Hw Hx. rewrite Z.shiftr_div_pow2 by lia. apply wrap_id.
  rewrite <- Z.shiftr_div_pow2 by lia. by apply shiftr_fits.
Qed.

Lemma lor_shift_add hi lo w :
  0 <= w -> fits w hi -> fits w lo -> wrap (w + w) (hi << w) .| lo = hi * 2 ^ w + lo.
Proof.
  intros Hw Hhi Hlo. rewrite wrap_id.
  2: { unfold fits in *. rewrite Z.shiftl_mul_pow2, Z.pow_add_r by lia. nia. }
  rewrite Z.lor_comm, lor_shiftl_add by done. lia.
Qed.

(** The two-word quotient and remainder, on every branch. *)
Lemma dyn_bits_div64_spec hi lo y :
  fits 64 hi -> fits 64 lo -> fits 64 y ->
  match dyn_bits_div64 hi lo y with
  | inl DYN_BITS_DIV_ZERO => y = 0
  | inl DYN_BITS_OVERFLOW => 0 < y /\ y * 2 ^ 64 <= hi * 2 ^ 64 + lo
  | inl DYN_BITS_OK => False
  | inr (q, r) => fits 64 q /\ 0 <= r < y /\ hi * 2 ^ 64 + lo = q * y + r
  end.
Proof.
  unfold fits. intros Hhi Hlo Hy. unfold dyn_bits_div64.
  case_ifs; [done|nia|]. change (wrap 128) with (wrap (64 + 64)).
  rewrite (lor_shift_add hi lo 64) by (done || lia).
  set (d := hi * 2 ^ 64 + lo). assert (Hd : 0 <= d < y * 2 ^ 64) by nia.
  pose proof (Z.div_mod d y ltac:(lia)). pose proof (Z.mod_pos_bound d y ltac:(lia)).
  assert (0 <= d `div` y < 2 ^ 64).
  { split; [apply Z.div_pos; lia|apply Z.div_lt_upper_bound; lia]. }
  rewrite !wrap_id by (unfold fits; lia). lia.
Qed.

Lemma dyn_bits_add64_spec a b c :
  fits 64 a -> fits 64 b -> fits 1 c ->
  let '(s, co) := dyn_bits_add64 a b c in
  fits 64 s /\ fits 1 co /\ s + co * 2 ^ 64 = a + b + c.
Proof.
  unfold fits, dyn_bits_add64. intros. rewrite (wrap_id 128) by (unfold fits; lia).
  pose proof (wrap_fits 64 (a + b + c) ltac:(lia)) as Hw. unfold fits in Hw.
  rewrite div_wrap by (unfold fits; lia).
  pose proof (Z.div_mod (a + b + c) (2 ^ 64) ltac:(lia)).
  unfold wrap in *. lia.
Qed.

Lemma dyn_bits_sub64_spec a b c :
  fits 64 a -> fits 64 b -> fits 1 c ->
  let '(d, bo) := dyn_bits_sub64 a b c in
  fits 64 d /\ fits 1 bo /\ d - bo * 2 ^ 64 = a - b - c.
Proof.
  unfold fits, dyn_bits_sub64. intros. rewrite (wrap_id 128 (b + c)) by (unfold fits; lia).
  rewrite wrap_le by lia.
  pose proof (wrap_fits 64 (a - (b + c)) ltac:(lia)) as Hw. unfold fits in Hw.
  pose proof (Z.div_mod (a - (b + c)) (2 ^ 64) ltac:(lia)). unfold wrap in *.
  case_ifs; lia.
Qed.

Lemma dyn_bits_mul64_spec a b :
  fits 64 a -> fits 64 b ->
  let '(hi, lo) := dyn_bits_mul64 a b in
  fits 64 hi /\ fits 64 lo /\ hi * 2 ^ 64 + lo = a * b.
Proof.
  unfold dyn_bits_mul64. intros Ha Hb.
  assert (Hp : fits 128 (a * b)) by (unfold fits in *; nia).
  rewrite (wrap_id 128) by done. rewrite div_wrap by (done || lia).
  pose proof (wrap_fits 64 (a * b) ltac:(lia)).
  pose proof (Z.div_mod (a * b) (2 ^ 64) ltac:(lia)).
  split; [|split; [done|]].
  - rewrite <- Z.shiftr_div_pow2 by lia. by apply shiftr_fits.
  - unfold wrap. lia.
Qed.

(** ** Properties *)
Module Bits_props.

(** dyn_bits_reverse64 moves bit [i] to bit [63 - i]: applied twice it is the
    identity on 64-bit words. *)
Theorem dyn_bits_reverse64_exact x :
  fits 64 x ->
  (forall i, 0 <= i < 64 -> Z.testbit (dyn_bits_reverse64 x) i = Z.testbit x (63 - i)) /\
  fits 64 (dyn_bits_reverse64 x) /\
  dyn_bits_reverse64 (dyn_bits_reverse64 x) = x.
Proof.
  intros Hx. split; [apply dyn_bits_reverse64_spec|].
  split; [apply dyn_bits_reverse64_fits|].
  apply Z.bits_inj'. intros i Hi. destruct (Z_lt_le_dec i 64).
  - rewrite !dyn_bits_reverse64_spec by lia. f_equal. lia.
  - by rewrite !(testbit_fits 64) by (done || lia || apply dyn_bits_reverse64_fits).
Qed.

Lemma dyn_bits_reverse64_exact_witness :
  fits 64 0xDEADBEEF /\ dyn_bits_reverse64 (dyn_bits_reverse64 0xDEADBEEF) = 0xDEADBEEF.
Proof.
  split; [by vm_compute|]. apply (dyn_bits_reverse64_exact 0xDEADBEEF). by vm_compute.
Defined.

(** The two-word division is exact and total for [hi < y]: multiplying its
    quotient back with dyn_bits_mul64 and adding the remainder through the
    dyn_bits_add64 carry chain restores the dividend [(hi, lo)]. *)
Theorem dyn_bits_div64_recompose hi lo y :
  fits 64 hi -> fits 64 lo -> fits 64 y -> hi < y ->
  exists q r, dyn_bits_div64 hi lo y = inr (q, r) /\ 0 <= r < y /\
    let '(h, l) := dyn_bits_mul64 q y in
    let '(l', c) := dyn_bits_add64 l r 0 in
    let '(h', c') := dyn_bits_add64 h 0 c in
    h' = hi /\ l' = lo /\ c' = 0.
Proof.
  intros Hhi Hlo Hy Hlt. pose proof (dyn_bits_div64_spec hi lo y Hhi Hlo Hy) as HD.
  destruct (dyn_bits_div64 hi lo y) as [[]|[q r]]; unfold fits in *; [nia..|].
  destruct HD as (Hq & Hr & Heq). exists q, r. split; [done|]. split; [done|].
  pose proof (dyn_bits_mul64_spec q y Hq Hy) as HM.
  destruct (dyn_bits_mul64 q y) as [h l]. destruct HM as (Hh & Hl & HM).
  pose proof (dyn_bits_add64_spec l r 0 Hl ltac:(unfold fits; lia) ltac:(done)) as HA.
  destruct (dyn_bits_add64 l r 0) as [l' c]. destruct HA as (Hl' & Hc & HA).
  pose proof (dyn_bits_add64_spec h 0 c Hh ltac:(done) Hc) as HB.
  destruct (dyn_bits_add64 h 0 c) as [h' c']. unfold fits in *. lia.
Qed.

Lemma dyn_bits_div64_recompose_witness :
  exists q r, dyn_bits_div64 7 12345 (2 ^ 60) = inr (q, r) /\ 0 <= r < 2 ^ 60.
Proof.
  destruct (dyn_bits_div64_recompose 7 12345 (2 ^ 60)) as (q & r & H1 & H2 & _);
    [by vm_compute..|]. by exists q, r.
Defined.

End Bits_props.
