(* ===== verification/Varint.v ===== *)
(** * Varint codec: [src/core/dyn-codec.c], the LEB128 functions

    An output buffer is the list of bytes written to it; [*out] of a decoder is
    an [option]: [None] where the C code returns without storing through the
    pointer. *)
From Stdlib Require Import ZArith Lia.
From stdpp Require Import base numbers list option.
From S2P Require Import Prelude.

Definition DYN_CODEC_VARINT_MAX : Z := 10.

(** ** Definitions *)

(** The [while (x >= 0x80)] loop; [None] only when the fuel runs out. *)
Fixpoint put_uvarint_loop (fuel : nat) (x : Z) : option bytes :=
  match fuel with
  | O => None
  | S fuel =>
      if 0x80 <=? x then
        out ← put_uvarint_loop fuel (x >> 7);
        Some (u8 (x .| 0x80) :: out)
      else Some [u8 x]
  end.

Definition dyn_codec_put_uvarint (x : Z) : option bytes := put_uvarint_loop 10 x.

Fixpoint uvarint_loop (buf : bytes) (i s x : Z) : Z * option Z :=
  match buf with
  | [] => (0, Some 0)
  | b :: buf =>
      if i =? DYN_CODEC_VARINT_MAX then (- (i + 1), None) else
      if b <? 0x80 then
        if (i =? DYN_CODEC_VARINT_MAX - 1) && (1 <? b) then (- (i + 1), None)
        else (i + 1, Some (x .| u64 (b << s)))
      else uvarint_loop buf (i + 1) (s + 7) (x .| u64 ((b & 0x7f) << s))
  end.

Definition dyn_codec_uvarint (buf : bytes) : Z * option Z := uvarint_loop buf 0 0 0.

Definition dyn_codec_put_varint (x : Z) : option bytes :=
  let ux := u64 (u64 x << 1) in
  let ux := if x <? 0 then u64 (Z.lnot ux) else ux in
  dyn_codec_put_uvarint ux.

Definition dyn_codec_varint (buf : bytes) : Z * option Z :=
  match dyn_codec_uvarint buf with
  | (nb, ux) =>
      if nb <=? 0 then (nb, Some 0) else
      match ux with
      | Some ux =>
          let x := i64 (ux >> 1) in
          (nb, Some (if ux & 1 =? 0 then x else Z.lnot x))
      | None => (nb, None)
      end
  end.

(** ** Lemmas *)

Lemma byte_continuation x :
  0 <= x -> u8 (x .| 0x80) = x `mod` 128 + 128 /\ u8 (x .| 0x80) & 0x7f = x `mod` 128.
Proof.
  intros Hx. assert (Hm : fits 7 (wrap 7 x)) by by apply wrap_fits.
  assert (Hb : u8 (x .| 0x80) = wrap 7 x .| (1 << 7)).
  { change 0x80 with (1 << 7). apply Z.bits_inj'. intros i Hi.
    destruct (Z_lt_le_dec i 7); [|destruct (decide (i = 7)) as [->|]];
      bits_simpl; [done..|]. rewrite (testbit_fits 1 1) by (done || lia). bits_simpl.
    by rewrite andb_false_r || done. }
  split; rewrite Hb.
  - by rewrite lor_shiftl_add by (done || lia).
  - change 0x7f with (Z.ones 7). rewrite <- wrap_land by lia.
    change (x `mod` 128) with (wrap 7 x).
    rewrite lor_shiftl_add by (done || lia). unfold wrap at 1.
    rewrite Z.mod_add by lia. by apply wrap_wrap.
Qed.

(** The continuation bit of the byte written, set and clear. *)
Lemma cont_bit_set x : (u8 (x .| 0x80) & 0x80 =? 0) = false.
Proof.
  apply Z.eqb_neq. intros E. apply (f_equal (fun z => Z.testbit z 7)) in E. rewrite Z.land_spec, Z.bits_0 in E.
  rewrite testbit_wrap, Z.lor_spec in E by lia. change (Z.testbit 128 7) with true in E.
  by rewrite orb_true_r in E.
Qed.

Lemma last_byte x : 0 <= x < 0x80 -> x & 0x7f = x /\ x & 0x80 = 0.
Proof.
  intros Hx. split.
  - rewrite (Z.land_ones _ 7) by lia. by apply Z.mod_small.
  - change 0x80 with (1 << 7). rewrite Z.land_comm. apply land_shift_disjoint; [lia|]. unfold fits. lia.
Qed.

(** Placing a 7-bit group (or the last, shorter one) above the accumulator. *)
Lemma group_add w acc d i :
  fits (7 * i) acc -> 0 <= i -> 0 <= w -> 0 <= d -> d * 2 ^ (7 * i) < 2 ^ w ->
  acc .| wrap w (d << (7 * i)) = acc + d * 2 ^ (7 * i).
Proof.
  intros Hacc Hi Hw Hd Hlt. rewrite wrap_id, lor_shiftl_add; [done|done|lia|].
  unfold fits. rewrite Z.shiftl_mul_pow2 by lia. lia.
Qed.

Lemma put_uvarint_total fuel x :
  0 <= x < 2 ^ (7 * Z.of_nat fuel) -> 0 < Z.of_nat fuel ->
  exists out, put_uvarint_loop fuel x = Some out.
Proof.
  revert x. induction fuel as [|fuel IH]; intros x Hx Hf; [lia|]. cbn [put_uvarint_loop].
  case_ifs; [|eauto]. destruct (IH (x >> 7)) as [out Hout].
  - apply shiftr_fits; [lia..|]. unfold fits.
    replace (7 * Z.of_nat fuel + 7) with (7 * Z.of_nat (S fuel)) by lia. done.
  - destruct fuel; [|lia]. change (2 ^ (7 * Z.of_nat 1)) with 128 in Hx. lia.
  - rewrite Hout. cbn. eauto.
Qed.

Lemma put_uvarint_loop_spec fuel x out :
  put_uvarint_loop fuel x = Some out -> 0 <= x ->
  is_bytes out /\ (0 < length out <= fuel)%nat.
Proof.
  revert x out. induction fuel as [|fuel IH]; intros x out H Hx; [done|].
  cbn [put_uvarint_loop] in H. case_if_in H; bprop;
    [apply bind_Some in H as (o & Ho & [= <-])|injection H as <-].
  - apply IH in Ho as [? ?]; [|by apply Z.shiftr_nonneg]. split; [|cbn; lia].
    constructor; [by apply wrap_fits|done].
  - split; [|cbn; lia]. by repeat constructor; apply wrap_fits.
Qed.

Lemma uvarint_put fuel x out rest i acc :
  put_uvarint_loop fuel x = Some out ->
  0 <= x -> 0 <= i -> i + Z.of_nat fuel <= 10 -> fits (7 * i) acc ->
  acc + x * 2 ^ (7 * i) < 2 ^ 64 ->
  uvarint_loop (out ++ rest) i (7 * i) acc =
    (i + Z.of_nat (length out), Some (acc + x * 2 ^ (7 * i))).
Proof.
  revert x out i acc. induction fuel as [|fuel IH]; intros x out i acc H Hx Hi Hf Hacc Hb; [done|].
  assert (0 < 2 ^ (7 * i)) by lia. unfold fits in Hacc.
  cbn [put_uvarint_loop] in H. case_if_in H; bprop;
    [apply bind_Some in H as (o & Ho & [= <-])|injection H as <-];
    cbn [app uvarint_loop length].
  - destruct (byte_continuation x Hx) as [H1 H2]. pose proof (Z.mod_pos_bound x 128 ltac:(lia)).
    unfold DYN_CODEC_VARINT_MAX.
    rewrite ltb_false by lia. replace (i =? 10) with false by lia. rewrite H2.
    assert (Hdm : x = 128 * (x >> 7) + x `mod` 128)
      by (rewrite Z.shiftr_div_pow2 by lia; apply Z.div_mod; lia).
    assert (Hx7 : 0 <= x >> 7) by by apply Z.shiftr_nonneg.
    rewrite wrap_id, lor_shiftl_add.
    2, 3: unfold fits; lia.
    2: { unfold fits. rewrite Z.shiftl_mul_pow2 by lia. nia. }
    assert (Hp : 2 ^ (7 * (i + 1)) = 128 * 2 ^ (7 * i)).
    { replace (7 * (i + 1)) with (7 + 7 * i) by lia. by rewrite Z.pow_add_r by lia. }
    replace (7 * i + 7) with (7 * (i + 1)) by lia.
    rewrite (IH (x >> 7)); [|done|lia|lia|lia| |].
    + f_equal; [lia|]. f_equal. rewrite Hp. nia.
    + unfold fits. rewrite Hp. nia.
    + rewrite Hp. nia.
  - rewrite (wrap_id 8) by (unfold fits; lia). unfold DYN_CODEC_VARINT_MAX.
    rewrite ltb_true by lia. replace (i =? 10) with false by lia.
    replace ((i =? 10 - 1) && (1 <? x)) with false.
    2: { symmetry. destruct (Z.eqb_spec i (10 - 1)); [|done]. subst i. apply Z.ltb_ge.
         change (2 ^ (7 * (10 - 1))) with (2 ^ 63) in Hb. lia. }
    rewrite wrap_id, lor_shiftl_add; [done|unfold fits; lia|lia|].
    unfold fits. rewrite Z.shiftl_mul_pow2 by lia. nia.
Qed.

(** The number a sequence of 7-bit groups denotes, least significant first. *)
Fixpoint groups7 (l : bytes) : Z :=
  match l with
  | [] => 0
  | b :: l => b `mod` 128 + 128 * groups7 l
  end.

(** [l] is one encoded number: continuation bytes, then a byte below 0x80. *)
Fixpoint terminated (l : bytes) : bool :=
  match l with
  | [] => false
  | [b] => b <? 0x80
  | b :: l => (0x80 <=? b) && terminated l
  end.

Lemma terminated_cons b l : 0x80 <= b -> terminated l = true -> terminated (b :: l) = true.
Proof.
  intros Hb Hl. destruct l as [|b' l]; [done|].
  change ((0x80 <=? b) && terminated (b' :: l) = true). rewrite Hl, andb_true_r. lia.
Qed.

Lemma uvarint_loop_sound buf i acc n v :
  is_bytes buf -> 0 <= i <= 10 -> (i <= 9 -> fits (7 * i) acc) ->
  uvarint_loop buf i (7 * i) acc = (n, v) ->
  (0 < n -> exists k : nat, n = i + Z.of_nat k /\ (0 < k <= length buf)%nat /\ n <= 10 /\
     terminated (take k buf) = true /\
     v = Some (acc + groups7 (take k buf) * 2 ^ (7 * i)) /\
     acc + groups7 (take k buf) * 2 ^ (7 * i) < 2 ^ 64) /\
  (n = 0 -> v = Some 0) /\ (n < 0 -> v = None).
Proof.
  revert i acc. induction buf as [|b buf IH]; intros i acc Hbuf Hi Hacc H; cbn [uvarint_loop] in H.
  { injection H as <- <-. split_and!; [lia|done|lia]. }
  apply Forall_cons_iff in Hbuf as [Hb Hbuf]. unfold fits in Hb. unfold DYN_CODEC_VARINT_MAX in H.
  repeat case_if_in H; bprop; try (injection H as <- <-; split_and!; [lia|lia|done]).
  - injection H as <- <-. split_and!; [|lia|lia]. intros _.
    specialize (Hacc ltac:(lia)). exists 1%nat.
    cbn [take groups7 terminated]. rewrite take_0. cbn [groups7].
    rewrite Z.mod_small by lia.
    assert (Hlim : acc + (b + 128 * 0) * 2 ^ (7 * i) < 2 ^ 64).
    { assert (2 ^ (7 * i) <= 2 ^ 63) by (apply Z.pow_le_mono_r; lia).
      unfold fits in Hacc. destruct (decide (i = 9)) as [->|]; [|].
      - change (7 * 9) with 63 in *. destruct E1; bprop; lia.
      - assert (2 ^ (7 * i) <= 2 ^ 56) by (apply Z.pow_le_mono_r; lia). nia. }
    rewrite wrap_id, lor_shiftl_add; [|done|lia|].
    + replace (b + 128 * 0) with b in * by lia.
      split_and!; cbn [length]; first [done|lia].
    + unfold fits in *. rewrite Z.shiftl_mul_pow2 by lia. nia.
  - replace (7 * i + 7) with (7 * (i + 1)) in H by lia.
    assert (Hp : 2 ^ (7 * (i + 1)) = 128 * 2 ^ (7 * i)).
    { replace (7 * (i + 1)) with (7 + 7 * i) by lia. by rewrite Z.pow_add_r by lia. }
    assert (Hm : b & 0x7f = b `mod` 128) by by rewrite (Z.land_ones _ 7).
    pose proof (Z.mod_pos_bound b 128 ltac:(lia)).
    assert (Hstep : i <= 8 -> acc .| u64 ((b & 0x7f) << (7 * i)) = acc + (b `mod` 128) * 2 ^ (7 * i)
                              /\ fits (7 * (i + 1)) (acc + (b `mod` 128) * 2 ^ (7 * i))).
    { intros Hi8. specialize (Hacc ltac:(lia)). unfold fits in *.
      assert (2 ^ (7 * i) <= 2 ^ 56) by (apply Z.pow_le_mono_r; lia).
      rewrite Hm, wrap_id, lor_shiftl_add; [|done|lia|].
      - split; [done|]. rewrite Hp. nia.
      - unfold fits. rewrite Z.shiftl_mul_pow2 by lia. nia. }
    apply IH in H as (Hpos & Hzero & Hneg); [|done|lia|].
    2: { intros. destruct Hstep as [-> ?]; [lia|done]. }
    split_and!; try done. intros Hn. destruct (Hpos Hn) as (k & -> & Hk & Hn10 & Ht & Hv & Hlt).
    destruct Hstep as [Hs _]; [lia|]. rewrite Hs, Hp in Hv, Hlt.
    exists (S k). cbn [take groups7 length]. split_and!; [lia|lia|lia|lia|apply terminated_cons; [lia|done]| |].
    + rewrite Hv. f_equal. lia.
    + lia.
Qed.

Lemma zigzag_fits x :
  sfits 64 x ->
  (if x <? 0 then u64 (Z.lnot (u64 (u64 x << 1))) else u64 (u64 x << 1)) =
  (if x <? 0 then - 2 * x - 1 else 2 * x).
Proof.
  unfold sfits. intros Hx. change (2 ^ (64 - 1)) with (2 ^ 63) in Hx.
  rewrite Z.shiftl_mul_pow2 by lia. rewrite wrap_mul_l by lia. unfold Z.lnot, wrap.
  case_ifs; zdm.
Qed.

(** ** Properties *)
Module Varint_props.

(** Every 64-bit value encodes, in at most DYN_CODEC_VARINT_MAX bytes, and
    dyn_codec_uvarint reads it back from the front of any buffer, consuming
    exactly the bytes written. *)
Theorem uvarint_roundtrip x rest :
  fits 64 x ->
  exists out, dyn_codec_put_uvarint x = Some out /\ is_bytes out /\
    Z.of_nat (length out) <= DYN_CODEC_VARINT_MAX /\
    dyn_codec_uvarint (out ++ rest) = (Z.of_nat (length out), Some x).
Proof.
  intros Hx. unfold dyn_codec_put_uvarint, dyn_codec_uvarint.
  destruct (put_uvarint_total 10 x) as [out Hout]; [unfold fits in Hx; lia|lia|].
  exists out. pose proof (put_uvarint_loop_spec _ _ _ Hout) as [Hb Hl]; [unfold fits in Hx; lia|].
  split_and!; [done|done|unfold DYN_CODEC_VARINT_MAX; lia|].
  unfold fits in Hx. change 0 with (7 * 0) at 2.
  rewrite (uvarint_put 10 x); try done; try lia. f_equal. f_equal. lia.
Qed.

Lemma uvarint_roundtrip_witness :
  exists out, dyn_codec_put_uvarint (2 ^ 64 - 1) = Some out /\
    dyn_codec_uvarint (out ++ [7; 7]) = (10, Some (2 ^ 64 - 1)).
Proof.
  destruct (uvarint_roundtrip (2 ^ 64 - 1) [7; 7]) as (out & H1 & _ & _ & H2); [by vm_compute|].
  exists out. split; [done|]. rewrite H2. vm_compute in H1. injection H1 as <-. done.
Defined.

(** Decoding untrusted bytes never truncates: a positive result consumes one
    terminated group sequence of at most ten bytes and stores exactly the number
    those groups denote, which fits 64 bits; longer or larger encodings are
    refused without storing, and a cut-off one reports 0. *)
Theorem uvarint_sound buf n v :
  is_bytes buf -> dyn_codec_uvarint buf = (n, v) ->
  (0 < n -> n <= Z.of_nat (length buf) /\ n <= DYN_CODEC_VARINT_MAX /\
     terminated (take (Z.to_nat n) buf) = true /\
     v = Some (groups7 (take (Z.to_nat n) buf)) /\ groups7 (take (Z.to_nat n) buf) < 2 ^ 64) /\
  (n = 0 -> v = Some 0) /\ (n < 0 -> v = None).
Proof.
  intros Hb H. unfold dyn_codec_uvarint in H. change 0 with (7 * 0) in H at 2.
  apply uvarint_loop_sound in H as (Hp & H0 & Hn); [|done|lia|intros; split; cbn; lia].
  split_and!; try done. intros Hn0. destruct (Hp Hn0) as (k & -> & Hk & H10 & Ht & Hv & Hlt).
  replace (Z.to_nat (0 + Z.of_nat k)) with k by lia. change (2 ^ (7 * 0)) with 1 in *.
  rewrite Z.mul_1_r, Z.add_0_l in *. unfold DYN_CODEC_VARINT_MAX. split_and!; try done; lia.
Qed.

Lemma uvarint_sound_witness :
  dyn_codec_uvarint [0xe5; 0x8e; 0x26; 9] = (3, Some 624485) /\
  Some 624485 = Some (groups7 (take (Z.to_nat 3) [0xe5; 0x8e; 0x26; 9])).
Proof.
  split; [reflexivity|].
  destruct (uvarint_sound [0xe5; 0x8e; 0x26; 9] 3 (Some 624485)) as (H & _).
  - repeat constructor; by vm_compute.
  - reflexivity.
  - destruct H as (_ & _ & _ & H & _); [lia|]. exact H.
Defined.

(** The zig-zag pair dyn_codec_put_varint / dyn_codec_varint round-trips every
    int64_t, INT64_MIN included. *)
Theorem varint_roundtrip x rest :
  sfits 64 x ->
  exists out, dyn_codec_put_varint x = Some out /\
    dyn_codec_varint (out ++ rest) = (Z.of_nat (length out), Some x).
Proof.
  intros Hx. unfold dyn_codec_put_varint. rewrite zigzag_fits by done.
  unfold sfits in Hx. change (2 ^ (64 - 1)) with (2 ^ 63) in Hx.
  set (ux := if x <? 0 then _ else _).
  assert (Hux : 0 <= ux < 2 ^ 64) by (subst ux; case_ifs; lia).
  destruct (put_uvarint_total 10 ux) as [out Hout]; [lia|lia|].
  exists out. split; [done|].
  pose proof (put_uvarint_loop_spec _ _ _ Hout) as [_ Hl]; [lia|].
  unfold dyn_codec_varint, dyn_codec_uvarint. change 0 with (7 * 0) at 2.
  rewrite (uvarint_put 10 ux); try done; try lia.
  replace (0 + Z.of_nat (length out) <=? 0) with false by lia.
  change (2 ^ (7 * 0)) with 1. rewrite Z.add_0_l, Z.mul_1_r, Z.add_0_l.
  f_equal. f_equal. rewrite (Z.land_ones _ 1) by lia. rewrite Z.shiftr_div_pow2 by lia.
  change (2 ^ 1) with 2. unfold Z.lnot. subst ux.
  destruct (Z.ltb_spec x 0).
  - replace ((- 2 * x - 1) `mod` 2) with 1 by zdm.
    replace ((- 2 * x - 1) `div` 2) with (- x - 1) by zdm.
    cbn [Z.eqb Pos.eqb]. rewrite swrap_id by (unfold sfits; lia). lia.
  - replace ((2 * x) `mod` 2) with 0 by zdm. replace ((2 * x) `div` 2) with x by zdm.
    by rewrite swrap_id by (unfold sfits; lia).
Qed.

Lemma varint_roundtrip_witness :
  exists out, dyn_codec_put_varint (- 2 ^ 63) = Some out /\
    dyn_codec_varint (out ++ [1]) = (10, Some (- 2 ^ 63)).
Proof.
  destruct (varint_roundtrip (- 2 ^ 63) [1]) as (out & H1 & H2); [by vm_compute|].
  exists out. split; [done|]. rewrite H2. vm_compute in H1. injection H1 as <-. done.
Defined.

End Varint_props.
