(* ===== verification/Base32.v ===== *)
(** * Base32: [src/core/dyn-codec.c]

    The table-driven RFC 4648 encoder and decoder. A caller's buffer is the list
    of bytes written to it; [None] is DYN_CODEC_BAD. The source walks the input
    with an index; here the input still to be read is the list argument. *)
From Stdlib Require Import ZArith Lia Ascii.
From stdpp Require Import base numbers list option strings.
From S2P Require Import Prelude.

(** ** Tables *)

Definition dyn_b32_std_alpha : bytes := str "ABCDEFGHIJKLMNOPQRSTUVWXYZ234567".
Definition dyn_b32_hex_alpha : bytes := str "0123456789ABCDEFGHIJKLMNOPQRSTUV".

Definition dyn_b32_std_rev : list Z := [
   (-1); (-1); (-1); (-1); (-1); (-1); (-1); (-1); (-1); (-1); (-1); (-1); (-1); (-1); (-1); (-1);
   (-1); (-1); (-1); (-1); (-1); (-1); (-1); (-1); (-1); (-1); (-1); (-1); (-1); (-1); (-1); (-1);
   (-1); (-1); (-1); (-1); (-1); (-1); (-1); (-1); (-1); (-1); (-1); (-1); (-1); (-1); (-1); (-1);
   (-1); (-1); 26; 27; 28; 29; 30; 31; (-1); (-1); (-1); (-1); (-1); (-1); (-1); (-1);
   (-1); 0; 1; 2; 3; 4; 5; 6; 7; 8; 9; 10; 11; 12; 13; 14;
   15; 16; 17; 18; 19; 20; 21; 22; 23; 24; 25; (-1); (-1); (-1); (-1); (-1);
   (-1); (-1); (-1); (-1); (-1); (-1); (-1); (-1); (-1); (-1); (-1); (-1); (-1); (-1); (-1); (-1);
   (-1); (-1); (-1); (-1); (-1); (-1); (-1); (-1); (-1); (-1); (-1); (-1); (-1); (-1); (-1); (-1);
   (-1); (-1); (-1); (-1); (-1); (-1); (-1); (-1); (-1); (-1); (-1); (-1); (-1); (-1); (-1); (-1);
   (-1); (-1); (-1); (-1); (-1); (-1); (-1); (-1); (-1); (-1); (-1); (-1); (-1); (-1); (-1); (-1);
   (-1); (-1); (-1); (-1); (-1); (-1); (-1); (-1); (-1); (-1); (-1); (-1); (-1); (-1); (-1); (-1);
   (-1); (-1); (-1); (-1); (-1); (-1); (-1); (-1); (-1); (-1); (-1); (-1); (-1); (-1); (-1); (-1);
   (-1); (-1); (-1); (-1); (-1); (-1); (-1); (-1); (-1); (-1); (-1); (-1); (-1); (-1); (-1); (-1);
   (-1); (-1); (-1); (-1); (-1); (-1); (-1); (-1); (-1); (-1); (-1); (-1); (-1); (-1); (-1); (-1);
   (-1); (-1); (-1); (-1); (-1); (-1); (-1); (-1); (-1); (-1); (-1); (-1); (-1); (-1); (-1); (-1);
   (-1); (-1); (-1); (-1); (-1); (-1); (-1); (-1); (-1); (-1); (-1); (-1); (-1); (-1); (-1); (-1)
  ].

Definition dyn_b32_hex_rev : list Z := [
   (-1); (-1); (-1); (-1); (-1); (-1); (-1); (-1); (-1); (-1); (-1); (-1); (-1); (-1); (-1); (-1);
   (-1); (-1); (-1); (-1); (-1); (-1); (-1); (-1); (-1); (-1); (-1); (-1); (-1); (-1); (-1); (-1);
   (-1); (-1); (-1); (-1); (-1); (-1); (-1); (-1); (-1); (-1); (-1); (-1); (-1); (-1); (-1); (-1);
   0; 1; 2; 3; 4; 5; 6; 7; 8; 9; (-1); (-1); (-1); (-1); (-1); (-1);
   (-1); 10; 11; 12; 13; 14; 15; 16; 17; 18; 19; 20; 21; 22; 23; 24;
   25; 26; 27; 28; 29; 30; 31; (-1); (-1); (-1); (-1); (-1); (-1); (-1); (-1); (-1);
   (-1); (-1); (-1); (-1); (-1); (-1); (-1); (-1); (-1); (-1); (-1); (-1); (-1); (-1); (-1); (-1);
   (-1); (-1); (-1); (-1); (-1); (-1); (-1); (-1); (-1); (-1); (-1); (-1); (-1); (-1); (-1); (-1);
   (-1); (-1); (-1); (-1); (-1); (-1); (-1); (-1); (-1); (-1); (-1); (-1); (-1); (-1); (-1); (-1);
   (-1); (-1); (-1); (-1); (-1); (-1); (-1); (-1); (-1); (-1); (-1); (-1); (-1); (-1); (-1); (-1);
   (-1); (-1); (-1); (-1); (-1); (-1); (-1); (-1); (-1); (-1); (-1); (-1); (-1); (-1); (-1); (-1);
   (-1); (-1); (-1); (-1); (-1); (-1); (-1); (-1); (-1); (-1); (-1); (-1); (-1); (-1); (-1); (-1);
   (-1); (-1); (-1); (-1); (-1); (-1); (-1); (-1); (-1); (-1); (-1); (-1); (-1); (-1); (-1); (-1);
   (-1); (-1); (-1); (-1); (-1); (-1); (-1); (-1); (-1); (-1); (-1); (-1); (-1); (-1); (-1); (-1);
   (-1); (-1); (-1); (-1); (-1); (-1); (-1); (-1); (-1); (-1); (-1); (-1); (-1); (-1); (-1); (-1);
   (-1); (-1); (-1); (-1); (-1); (-1); (-1); (-1); (-1); (-1); (-1); (-1); (-1); (-1); (-1); (-1)
  ].

Inductive dyn_base32_alphabet := DYN_BASE32_STD | DYN_BASE32_HEX.

Definition dyn_codec_b32_alpha (magic : dyn_base32_alphabet) : bytes :=
  match magic with
  | DYN_BASE32_HEX => dyn_b32_hex_alpha
  | DYN_BASE32_STD => dyn_b32_std_alpha
  end.

(** ** Encoder *)

Definition b32_nchars_tab : list nat := [0; 2; 4; 5; 7; 8]%nat.

(** [alpha[(v >> k) & 0x1F]] *)
Definition b32_char (alpha : bytes) (v k : Z) : Z :=
  nth (Z.to_nat ((v >> k) & 0x1F)) alpha 0.

(** The five bytes as one 40-bit word. *)
Definition b32_word (a b c d e : Z) : Z :=
  (a << 32) .| (b << 24) .| (c << 16) .| (d << 8) .| e.

(** One iteration of the second loop, for the [nb] bytes that are left. *)
Definition b32_encode_tail (alpha : bytes) (data : bytes) : bytes :=
  let nb := length data in
  let chunk j := nth j data 0 in
  let v := b32_word (chunk 0%nat) (chunk 1%nat) (chunk 2%nat) (chunk 3%nat) (chunk 4%nat) in
  let nc := nth nb b32_nchars_tab 0%nat in
  map (fun j => b32_char alpha v (35 - 5 * Z.of_nat j)) (seq 0 nc)
  ++ replicate (8 - nc) (ch "=").

Fixpoint b32_encode_tab (data : bytes) (alpha : bytes) : bytes :=
  match data with
  | [] => []
  | d0 :: d1 :: d2 :: d3 :: d4 :: data =>
      let v := b32_word d0 d1 d2 d3 d4 in
      [b32_char alpha v 35; b32_char alpha v 30; b32_char alpha v 25; b32_char alpha v 20;
       b32_char alpha v 15; b32_char alpha v 10; b32_char alpha v 5; b32_char alpha v 0]
      ++ b32_encode_tab data alpha
  | data => b32_encode_tail alpha data
  end.

(** ** Decoder *)

Definition b32_nbytes_tab : list Z := [-1; -1; 1; -1; 2; 3; -1; 4; 5].

(** [rev = (alpha == dyn_b32_hex_alpha) ? ...]: the pointer comparison. *)
Definition b32_rev (magic : dyn_base32_alphabet) : list Z :=
  match magic with
  | DYN_BASE32_HEX => dyn_b32_hex_rev
  | DYN_BASE32_STD => dyn_b32_std_rev
  end.

Definition b32_val (rev : list Z) (c : Z) : Z := nth (Z.to_nat c) rev (-1).

(** The bytes [v >> 32], ..., [v] cut to 8 bits. *)
Definition b32_bytes (v : Z) : bytes :=
  [u8 (v >> 32); u8 (v >> 24); u8 (v >> 16); u8 (v >> 8); u8 v].

(** The [for (j = 7; j >= 0; j--)] scan: '=' signs at the end of the group. *)
Fixpoint count_pad (revgroup : bytes) : nat :=
  match revgroup with
  | c :: l => if c =? ch "=" then S (count_pad l) else O
  | [] => O
  end.

(** The values of the first [nreal] characters, or DYN_CODEC_BAD. *)
Fixpoint b32_vals (rev : list Z) (cs : bytes) : option (list Z) :=
  match cs with
  | [] => Some []
  | c :: cs =>
      let val := b32_val rev c in
      if val <? 0 then None else l ← b32_vals rev cs; Some (val :: l)
  end.

(** One iteration of the second decoding loop on the eight characters [g]. *)
Definition b32_decode_group (rev : list Z) (g : bytes) (last_group : bool) : option bytes :=
  let pad := count_pad (reverse g) in
  if (0 <? pad)%nat && negb last_group then None else
  let nreal := (8 - pad)%nat in
  let nbytes := nth nreal b32_nbytes_tab (-1) in
  if nbytes <? 0 then None else
  vals ← b32_vals rev (take nreal g);
  let c := vals ++ replicate (8 - nreal) 0 in
  let v := foldl (fun v cj => u64 (v << 5) .| cj) 0 c in
  Some (take (Z.to_nat nbytes) (b32_bytes v)).

(** One iteration of the unrolled first loop. *)
Definition b32_decode_full (rev : list Z) (c0 c1 c2 c3 c4 c5 c6 c7 : Z) : option bytes :=
  let a0 := b32_val rev c0 in let a1 := b32_val rev c1 in
  let a2 := b32_val rev c2 in let a3 := b32_val rev c3 in
  let a4 := b32_val rev c4 in let a5 := b32_val rev c5 in
  let a6 := b32_val rev c6 in let a7 := b32_val rev c7 in
  if (a0 .| a1 .| a2 .| a3 .| a4 .| a5 .| a6 .| a7) <? 0 then None else
  Some (b32_bytes ((a0 << 35) .| (a1 << 30) .| (a2 << 25) .| (a3 << 20)
                   .| (a4 << 15) .| (a5 << 10) .| (a6 << 5) .| a7)).

(** Both loops: the first runs while more than one group is left, the second
    takes what remains. *)
Fixpoint b32_decode_loop (rev : list Z) (s : bytes) : option bytes :=
  match s with
  | c0 :: c1 :: c2 :: c3 :: c4 :: c5 :: c6 :: c7 :: s =>
      match s with
      | [] => b32_decode_group rev [c0; c1; c2; c3; c4; c5; c6; c7] true
      | _ =>
          g ← b32_decode_full rev c0 c1 c2 c3 c4 c5 c6 c7;
          o ← b32_decode_loop rev s;
          Some (g ++ o)
      end
  | _ => Some []
  end.

Definition b32_decode_tab (s : bytes) (magic : dyn_base32_alphabet) : option bytes :=
  if (length s `mod` 8 =? 0)%nat then b32_decode_loop (b32_rev magic) s else None.

Definition dyn_codec_base32_encode (data : bytes) (alpha : dyn_base32_alphabet) : bytes :=
  b32_encode_tab data (dyn_codec_b32_alpha alpha).

Definition dyn_codec_base32_decode (s : bytes) (alpha : dyn_base32_alphabet) : option bytes :=
  b32_decode_tab s alpha.

(** [dyn-codec.h]: the buffer sizes callers allocate. *)
Definition dyn_codec_base32_encode_cap (n : Z) : Z := ((n + 4) `div` 5) * 8.
Definition dyn_codec_base32_decode_cap (n : Z) : Z := ((n + 7) `div` 8) * 5.

Example rfc4648_foobar :
  dyn_codec_base32_encode (str "foobar") DYN_BASE32_STD = str "MZXW6YTBOI======".
Proof. reflexivity. Qed.
Example rfc4648_hex_fooba :
  dyn_codec_base32_decode (str "CPNMUOJ1") DYN_BASE32_HEX = Some (str "fooba").
Proof. reflexivity. Qed.

(** ** Lemmas *)

Lemma digit_fits v k : fits 5 ((v >> k) & 0x1F).
Proof. change 0x1F with (Z.ones 5). rewrite <- wrap_land by lia. by apply wrap_fits. Qed.

Lemma char_table magic d :
  0 <= d < 32 ->
  let c := nth (Z.to_nat d) (dyn_codec_b32_alpha magic) 0 in
  b32_val (b32_rev magic) c = d /\ c <> ch "=" /\ fits 8 c.
Proof.
  revert d. apply (Z_range_ind _ 32). destruct magic; repeat constructor; by vm_compute.
Qed.

Lemma b32_val_char magic v k :
  b32_val (b32_rev magic) (b32_char (dyn_codec_b32_alpha magic) v k) = (v >> k) & 0x1F.
Proof. apply char_table, digit_fits. Qed.

Lemma b32_char_not_pad magic v k :
  (b32_char (dyn_codec_b32_alpha magic) v k =? ch "=") = false.
Proof. apply Z.eqb_neq, char_table, digit_fits. Qed.

Lemma digit_nonneg v k : ((v >> k) & 0x1F <? 0) = false.
Proof. apply Z.ltb_ge, digit_fits. Qed.

Lemma digit_join v k k' :
  0 <= k -> k' = k + 5 ->
  ((v >> k') << k') .| (((v >> k) & 0x1F) << k) = (v >> k) << k.
Proof.
  intros Hk ->. change 0x1F with (Z.ones 5). apply Z.bits_inj'. intros i Hi.
  destruct (Z_lt_le_dec i k); [bits_simpl; done|].
  destruct (Z_lt_le_dec i (k + 5)); bits_simpl; bits_eq.
Qed.

Lemma digit_push v k k' :
  0 <= k -> k' = k + 5 -> fits 40 v ->
  u64 ((v >> k') << 5) .| ((v >> k) & 0x1F) = v >> k.
Proof.
  intros Hk -> Hv. rewrite wrap_id.
  - change 0x1F with (Z.ones 5). apply Z.bits_inj'. intros i Hi.
    destruct (Z_lt_le_dec i 5); bits_simpl; bits_eq.
  - apply (fits_weaken 45); [lia|]. destruct (shiftr_fits_same 40 v (k + 5)); [lia..|done|].
    unfold fits. rewrite Z.shiftl_mul_pow2 by lia. lia.
Qed.

Lemma b32_word_add a b c d e :
  fits 8 a -> fits 8 b -> fits 8 c -> fits 8 d -> fits 8 e ->
  b32_word a b c d e = a * 2 ^ 32 + b * 2 ^ 24 + c * 2 ^ 16 + d * 2 ^ 8 + e.
Proof.
  intros. unfold b32_word.
  replace ((a << 32) .| (b << 24) .| (c << 16) .| (d << 8) .| e)
    with (((((a << 8) .| b) << 8 .| c) << 8 .| d) << 8 .| e)
    by by rewrite !Z.shiftl_lor, !Z.shiftl_shiftl by lia.
  repeat (rewrite Z.lor_comm, lor_shiftl_add by (done || lia)). lia.
Qed.

Lemma b32_word_fits a b c d e :
  fits 8 a -> fits 8 b -> fits 8 c -> fits 8 d -> fits 8 e -> fits 40 (b32_word a b c d e).
Proof. intros. rewrite b32_word_add by done. unfold fits in *. lia. Qed.

Lemma b32_bytes_word a b c d e :
  fits 8 a -> fits 8 b -> fits 8 c -> fits 8 d -> fits 8 e ->
  b32_bytes (b32_word a b c d e) = [a; b; c; d; e].
Proof.
  intros. rewrite b32_word_add by done. unfold b32_bytes, wrap, fits in *.
  rewrite !Z.shiftr_div_pow2 by lia. repeat f_equal; zdm.
Qed.

(** A digit all of whose bits lie below the zero tail of [v] is zero. *)
Lemma digit_zero v m k : 0 <= k -> k + 5 <= m -> wrap m v = 0 -> (v >> k) & 0x1F = 0.
Proof.
  intros Hk Hm Hz. change 0x1F with (Z.ones 5). rewrite <- wrap_land by lia.
  apply Z.bits_inj'. intros i Hi. rewrite testbit_wrap, Z.testbit_0_l by lia.
  destruct (Z.ltb_spec i 5); [|done]. rewrite Z.shiftr_spec by lia.
  assert (Hb : Z.testbit (wrap m v) (i + k) = false) by by rewrite Hz, Z.testbit_0_l.
  rewrite testbit_wrap, ltb_true in Hb by lia. done.
Qed.

Lemma b32_full_digits magic v :
  fits 40 v ->
  let c k := b32_char (dyn_codec_b32_alpha magic) v k in
  b32_decode_full (b32_rev magic) (c 35) (c 30) (c 25) (c 20) (c 15) (c 10) (c 5) (c 0)
  = Some (b32_bytes v).
Proof.
  intros Hv. cbn zeta. unfold b32_decode_full. rewrite !b32_val_char.
  rewrite ltb_false.
  2: { rewrite !Z.lor_nonneg. repeat split; apply digit_fits. }
  do 2 f_equal.
  replace (((v >> 35) & 31) << 35) with ((v >> 35) << 35).
  2: { f_equal. change 31 with (Z.ones 5). rewrite <- wrap_land by lia. symmetry. apply wrap_id.
       by apply (shiftr_fits 5). }
  rewrite (digit_join v 30 35), (digit_join v 25 30), (digit_join v 20 25), (digit_join v 15 20),
    (digit_join v 10 15), (digit_join v 5 10) by lia.
  pose proof (digit_join v 0 5 ltac:(lia) ltac:(lia)) as H0.
  rewrite !Z.shiftl_0_r, Z.shiftr_0_r in H0. by rewrite Z.shiftr_0_r.
Qed.

(** Folding the eight digits of [v] back gives [v]. *)
Lemma b32_fold_digits v :
  fits 40 v ->
  foldl (fun v cj => u64 (v << 5) .| cj) 0
    (map (fun j => (v >> (35 - 5 * Z.of_nat j)) & 0x1F) (seq 0 8)) = v.
Proof.
  intros Hv. cbn [foldl map seq].
  replace 0 with (v >> 40) at 1.
  2: { rewrite Z.shiftr_div_pow2 by lia. by apply Z.div_small. }
  repeat (rewrite digit_push by (done || lia)). by rewrite Z.shiftr_0_r.
Qed.

Lemma count_pad_tail (n : nat) c l :
  (c =? ch "=") = false -> count_pad (replicate n (ch "=") ++ c :: l) = n.
Proof. intros Hc. induction n as [|n IH]; cbn [replicate app count_pad]; [by rewrite Hc|]. by rewrite IH. Qed.

Section group.
Context (magic : dyn_base32_alphabet) (v : Z).
Abbreviation chr j := (b32_char (dyn_codec_b32_alpha magic) v (35 - 5 * Z.of_nat j)).
Abbreviation dig j := ((v >> (35 - 5 * Z.of_nat j)) & 0x1F).

Lemma count_pad_group (n m : nat) :
  count_pad (reverse (map (fun j => chr j) (seq 0 (S n)) ++ replicate m (ch "="))) = m.
Proof.
  rewrite seq_S, map_app, !reverse_app, reverse_replicate. cbn [map].
  rewrite reverse_singleton. apply count_pad_tail, b32_char_not_pad.
Qed.

Lemma b32_vals_map js :
  b32_vals (b32_rev magic) (map (fun j => chr j) js) = Some (map (fun j => dig j) js).
Proof.
  induction js as [|j js IH]; [done|]. cbn [map b32_vals].
  by rewrite b32_val_char, digit_nonneg, IH.
Qed.

(** The last group: [nc] characters of [v], '=' signs after them, for the word
    of [nb] bytes. *)
Lemma b32_group_digits (nb nc : nat) :
  fits 40 v -> (nb, nc) ∈ [(1, 2); (2, 4); (3, 5); (4, 7); (5, 8)]%nat ->
  wrap (8 * (5 - Z.of_nat nb)) v = 0 ->
  b32_decode_group (b32_rev magic)
    (map (fun j => chr j) (seq 0 nc) ++ replicate (8 - nc) (ch "=")) true
  = Some (take nb (b32_bytes v)).
Proof.
  intros Hv Hn Hz.
  assert (Hd : forall k, 0 <= k -> k + 5 <= 8 * (5 - Z.of_nat nb) -> (v >> k) & 0x1F = 0).
  { intros k Hk Hm. by apply (digit_zero v (8 * (5 - Z.of_nat nb))). }
  assert (Hnc : (0 < nc <= 8)%nat /\ nth nc b32_nbytes_tab (-1) = Z.of_nat nb /\
    map (fun j => dig j) (seq 0 nc) ++ replicate (8 - nc) 0 = map (fun j => dig j) (seq 0 8)).
  { rewrite !elem_of_cons in Hn.
    destruct Hn as [[= -> ->]|[[= -> ->]|[[= -> ->]|[[= -> ->]|[[= -> ->]|Hn%elem_of_nil]]]]];
      [..|done]; (split; [lia|]; split; [done|]; cbn [map seq app replicate Nat.sub];
                  repeat f_equal; symmetry; apply Hd; lia). }
  destruct Hnc as (Hpos & Htab & Hdig). unfold b32_decode_group.
  destruct nc as [|nc]; [lia|]. rewrite count_pad_group, andb_false_r.
  replace (8 - (8 - S nc))%nat with (S nc) by lia. rewrite Htab, ltb_false by lia.
  rewrite take_app_le, take_ge by (rewrite length_map, length_seq; lia).
  rewrite b32_vals_map. cbn [option_bind mbind]. rewrite Hdig, b32_fold_digits by done.
  by rewrite Nat2Z.id.
Qed.
End group.

Lemma b32_word_low a b c d e (m : Z) :
  fits 8 a -> fits 8 b -> fits 8 c -> fits 8 d -> fits 8 e ->
  m = 0 \/ m = 8 /\ e = 0 \/ m = 16 /\ d = 0 /\ e = 0 \/ m = 24 /\ c = 0 /\ d = 0 /\ e = 0
  \/ m = 32 /\ b = 0 /\ c = 0 /\ d = 0 /\ e = 0 ->
  wrap m (b32_word a b c d e) = 0.
Proof.
  intros ? ? ? ? ? Hm. rewrite b32_word_add by done. unfold wrap.
  destruct Hm as [->|[[-> ->]|[(-> & -> & ->)|[(-> & -> & -> & ->)|(-> & -> & -> & -> & ->)]]]]; zdm.
Qed.

Lemma b32_tail_group magic data :
  is_bytes data -> (0 < length data <= 5)%nat ->
  b32_decode_group (b32_rev magic) (b32_encode_tail (dyn_codec_b32_alpha magic) data) true
  = Some data.
Proof.
  intros Hb Hl.
  assert (H0 : fits 8 0) by by vm_compute.
  assert (Hn : exists a b c d e, fits 8 a /\ fits 8 b /\ fits 8 c /\ fits 8 d /\ fits 8 e /\
    take (length data) [a; b; c; d; e] = data /\ wrap (8 * (5 - Z.of_nat (length data))) (b32_word a b c d e) = 0
    /\ b32_word (nth 0 data 0) (nth 1 data 0) (nth 2 data 0) (nth 3 data 0) (nth 4 data 0) = b32_word a b c d e
    /\ (length data, nth (length data) b32_nchars_tab 0%nat) ∈ [(1, 2); (2, 4); (3, 5); (4, 7); (5, 8)]%nat).
  { repeat (destruct data as [|? data]; [|apply Forall_cons_iff in Hb as [? Hb]]; cbn [length] in Hl; try lia);
    match goal with
    | |- context [length [?a; ?b; ?c; ?d; ?e]] => exists a, b, c, d, e
    | |- context [length [?a; ?b; ?c; ?d]] => exists a, b, c, d, 0
    | |- context [length [?a; ?b; ?c]] => exists a, b, c, 0, 0
    | |- context [length [?a; ?b]] => exists a, b, 0, 0, 0
    | |- context [length [?a]] => exists a, 0, 0, 0, 0
    end;
    (split_and!; [done..| | |]; [apply b32_word_low; try done; cbn; tauto|done|cbn; rewrite !elem_of_cons; tauto]). }
  destruct Hn as (a & b & c & d & e & ? & ? & ? & ? & ? & Ht & Hz & Hw & Hin).
  unfold b32_encode_tail. rewrite Hw.
  rewrite (b32_group_digits magic _ (length data)); [|by apply b32_word_fits|done|done].
  by rewrite b32_bytes_word, Ht.
Qed.

Lemma b32_encode_tail_length magic data :
  (0 < length data <= 5)%nat -> length (b32_encode_tail (dyn_codec_b32_alpha magic) data) = 8%nat.
Proof.
  intros Hl. unfold b32_encode_tail. rewrite length_app, length_map, length_seq, length_replicate.
  destruct (length data) as [|[|[|[|[|[|]]]]]]; cbn; lia.
Qed.

(** The encoder five bytes at a time. *)
Lemma b32_encode_cases magic data :
  b32_encode_tab data (dyn_codec_b32_alpha magic) =
  match data with
  | [] => []
  | _ => b32_encode_tail (dyn_codec_b32_alpha magic) (take 5 data)
         ++ b32_encode_tab (drop 5 data) (dyn_codec_b32_alpha magic)
  end.
Proof. by destruct data as [|? [|? [|? [|? [|? ?]]]]]. Qed.

Lemma b32_encode_length magic data :
  Z.of_nat (length (b32_encode_tab data (dyn_codec_b32_alpha magic)))
  = dyn_codec_base32_encode_cap (Z.of_nat (length data)).
Proof.
  unfold dyn_codec_base32_encode_cap.
  induction data as [data IH] using (induction_ltof1 _ (@length Z)). unfold ltof in IH.
  rewrite b32_encode_cases. destruct data as [|a data]; [done|].
  rewrite length_app, b32_encode_tail_length by (rewrite length_take; cbn [length]; lia).
  rewrite Nat2Z.inj_add, IH, length_drop by (rewrite length_drop; cbn [length]; lia).
  cbn [length]. zdm.
Qed.

Lemma b32_decode_loop_full rev g s :
  length g = 8%nat -> s <> [] ->
  b32_decode_loop rev (g ++ s) =
  (x ← b32_decode_full rev (nth 0 g 0) (nth 1 g 0) (nth 2 g 0) (nth 3 g 0)
                        (nth 4 g 0) (nth 5 g 0) (nth 6 g 0) (nth 7 g 0);
   o ← b32_decode_loop rev s; Some (x ++ o)).
Proof.
  intros Hg Hs. do 8 (destruct g as [|? g]; [done|]). destruct g; [|done].
  by destruct s.
Qed.

Lemma b32_decode_loop_last rev g :
  length g = 8%nat -> b32_decode_loop rev g = b32_decode_group rev g true.
Proof. intros Hg. do 8 (destruct g as [|? g]; [done|]). by destruct g. Qed.

Lemma b32_decode_encode magic data :
  is_bytes data ->
  b32_decode_loop (b32_rev magic) (b32_encode_tab data (dyn_codec_b32_alpha magic)) = Some data.
Proof.
  induction data as [data IH] using (induction_ltof1 _ (@length Z)). unfold ltof in IH.
  intros Hb. destruct (decide (length data <= 5)%nat) as [Hle|Hgt].
  - rewrite b32_encode_cases. destruct data as [|a data]; [done|].
    rewrite take_ge, drop_ge by done. cbn [b32_encode_tab]. rewrite app_nil_r.
    rewrite b32_decode_loop_last by (apply b32_encode_tail_length; cbn in *; lia).
    by rewrite b32_tail_group by (done || cbn in *; lia).
  - do 5 (destruct data as [|? data]; [cbn in Hgt; lia|]).
    pose proof Hb as Hb'. repeat (apply Forall_cons_iff in Hb as [? Hb]).
    rewrite b32_encode_cases. cbn [take drop]. rewrite take_0, drop_0.
    rewrite b32_decode_loop_full.
    + cbn [nth map seq b32_encode_tail length b32_nchars_tab app].
      pose proof (b32_full_digits magic) as Hf. cbn zeta in Hf. unfold b32_encode_tail.
      cbn [length nth b32_nchars_tab seq map app Nat.sub replicate].
      change (35 - 5 * Z.of_nat 0) with 35. change (35 - 5 * Z.of_nat 1) with 30.
      change (35 - 5 * Z.of_nat 2) with 25. change (35 - 5 * Z.of_nat 3) with 20.
      change (35 - 5 * Z.of_nat 4) with 15. change (35 - 5 * Z.of_nat 5) with 10.
      change (35 - 5 * Z.of_nat 6) with 5. change (35 - 5 * Z.of_nat 7) with 0.
      rewrite Hf by by apply b32_word_fits. cbn [option_bind mbind].
      rewrite IH by (done || cbn; lia). cbn [option_bind mbind]. by rewrite b32_bytes_word.
    + by apply b32_encode_tail_length; cbn; lia.
    + intros E. apply (f_equal length) in E. pose proof (b32_encode_length magic data) as HL.
      rewrite E in HL. unfold dyn_codec_base32_encode_cap in HL.
      destruct data; [cbn in Hgt; lia|]. cbn [length] in HL. zdm.
Qed.

(** ** Properties *)
Module Base32_props.

(** Base32 round-trips every byte string under both alphabets; the encoder
    writes exactly the dyn_codec_base32_encode_cap bytes the caller allocates,
    a multiple of eight. *)
Theorem base32_roundtrip data alpha :
  is_bytes data ->
  dyn_codec_base32_decode (dyn_codec_base32_encode data alpha) alpha = Some data /\
  Z.of_nat (length (dyn_codec_base32_encode data alpha))
  = dyn_codec_base32_encode_cap (Z.of_nat (length data)).
Proof.
  intros Hb. pose proof (b32_encode_length alpha data) as HL. split; [|done].
  unfold dyn_codec_base32_decode, b32_decode_tab, dyn_codec_base32_encode.
  rewrite b32_decode_encode by done. unfold dyn_codec_base32_encode_cap in HL.
  case_ifs; [done|]. exfalso. apply E, Nat2Z.inj.
  rewrite Nat2Z.inj_mod, HL. apply Z.mod_mul. lia.
Qed.

Lemma base32_roundtrip_witness :
  dyn_codec_base32_decode (dyn_codec_base32_encode [0; 255; 16; 7; 9; 200; 1] DYN_BASE32_HEX)
    DYN_BASE32_HEX = Some [0; 255; 16; 7; 9; 200; 1].
Proof. apply base32_roundtrip. repeat constructor; by vm_compute. Defined.

End Base32_props.
