(* ===== verification/Base85.v ===== *)
(** * Base85 (Ascii85): [src/core/dyn-codec.c]

    The encoder, the streaming decoder (whitespace skipped, 'z' for four zero
    bytes) and their round trip; the bound on the decoder's output that its
    callers rely on, and the header's own capacity function, which is smaller. *)
From Stdlib Require Import ZArith Lia Ascii.
From stdpp Require Import base numbers list option strings.
From S2P Require Import Prelude.

(** ** Definitions *)

Definition dyn_codec_is_ascii85_space (c : Z) : bool :=
  (c =? ch " ") || (c =? 9) || (c =? 10) || (c =? 11) || (c =? 12) || (c =? 13).

(** [for (j = 0; j < nb; j++) v |= (uint32_t)data[i + j] << (24 - 8 * j)] *)
Fixpoint b85_word (data : bytes) (k v : Z) : Z :=
  match data with
  | [] => v
  | b :: data => b85_word data (k - 8) (v .| u32 (b << k))
  end.

(** [for (j = 0; j < 5; j++) { c[4 - j] = '!' + v % 85; v /= 85; }]: the
    characters [c] is filled with, from its end. *)
Fixpoint b85_chars (j : nat) (v : Z) (c : bytes) : bytes :=
  match j with
  | O => c
  | S j => b85_chars j (v `div` 85) (ch "!" + v `mod` 85 :: c)
  end.

(** One iteration: the next [nb <= 4] bytes. *)
Definition b85_encode_chunk (data : bytes) : bytes :=
  let nb := length data in
  let v := b85_word data 24 0 in
  if (nb =? 4)%nat && (v =? 0) then [ch "z"] else
  let m := if (nb <? 4)%nat then S nb else 5%nat in
  take m (b85_chars 5 v []).

Fixpoint dyn_codec_base85_encode (data : bytes) : bytes :=
  match data with
  | [] => []
  | d0 :: d1 :: d2 :: d3 :: data =>
      b85_encode_chunk [d0; d1; d2; d3] ++ dyn_codec_base85_encode data
  | data => b85_encode_chunk data
  end.

Definition be32_bytes (v : Z) : bytes := [u8 (v >> 24); u8 (v >> 16); u8 (v >> 8); u8 v].

(** [for (k = nb; k < 5; k++) v = v * 85 + 84] *)
Fixpoint b85_pad (n : nat) (v : Z) : Z :=
  match n with
  | O => v
  | S n => b85_pad n (u64 (v * 85 + 84))
  end.

(** What follows the loop, in state [(v, nb)]. *)
Definition b85_finish (v : Z) (nb : nat) : option bytes :=
  if (nb =? 1)%nat then None else
  if (1 <? nb)%nat then
    let v := b85_pad (5 - nb) v in
    if 0xFFFFFFFF <? v then None else Some (take (nb - 1) (be32_bytes v))
  else Some [].

(** The loop over the characters; [(v, nb)] is the group being read. *)
Fixpoint b85_decode_loop (s : bytes) (v : Z) (nb : nat) : option bytes :=
  match s with
  | [] => b85_finish v nb
  | b :: s =>
      if dyn_codec_is_ascii85_space b then b85_decode_loop s v nb else
      if (b =? ch "z") && (nb =? 0)%nat then
        o ← b85_decode_loop s v nb; Some ([0; 0; 0; 0] ++ o) else
      if (b <? ch "!") || (ch "u" <? b) then None else
      let v := u64 (v * 85 + (b - ch "!")) in
      let nb := S nb in
      if (nb =? 5)%nat then
        if 0xFFFFFFFF <? v then None else
        o ← b85_decode_loop s 0 0%nat; Some (be32_bytes v ++ o)
      else b85_decode_loop s v nb
  end.

Definition dyn_codec_base85_decode (s : bytes) : option bytes := b85_decode_loop s 0 0.

Definition dyn_codec_base85_encode_cap (n : Z) : Z := ((n + 3) `div` 4) * 5.
Definition dyn_codec_base85_decode_cap (n : Z) : Z := ((n + 4) `div` 5) * 4.

Example ascii85_hello :
  dyn_codec_base85_encode (str "hello") = str "BOu!rDZ" /\
  dyn_codec_base85_decode (str "BOu!r DZ") = Some (str "hello").
Proof. split; reflexivity. Qed.

(** ** Lemmas *)

Lemma be32_bytes_word a b c d :
  fits 8 a -> fits 8 b -> fits 8 c -> fits 8 d ->
  be32_bytes (a * 2 ^ 24 + b * 2 ^ 16 + c * 2 ^ 8 + d) = [a; b; c; d].
Proof.
  intros. unfold be32_bytes, wrap, fits in *.
  rewrite !Z.shiftr_div_pow2 by lia. repeat f_equal; zdm.
Qed.

Section step.
Context (d : Z) (Hd : 0 <= d < 85) (s : bytes) (v : Z).

Lemma char_tests :
  dyn_codec_is_ascii85_space (33 + d) = false /\ (33 + d =? ch "z") = false /\
  (33 + d <? ch "!") || (ch "u" <? 33 + d) = false.
Proof.
  change (ch "!") with 33. change (ch "u") with 117. change (ch "z") with 122.
  unfold dyn_codec_is_ascii85_space. change (ch " ") with 32.
  repeat (rewrite (proj2 (Z.eqb_neq _ _)) by lia). rewrite !ltb_false by lia. done.
Qed.

Lemma b85_loop_digit (nb : nat) :
  (nb < 4)%nat -> 0 <= v < 85 ^ 3 ->
  b85_decode_loop (33 + d :: s) v nb = b85_decode_loop s (v * 85 + d) (S nb).
Proof.
  intros Hn Hv. cbn [b85_decode_loop]. destruct char_tests as (-> & -> & ->).
  change (ch "!") with 33. replace (33 + d - 33) with d by lia.
  rewrite wrap_id by (unfold fits; lia). by destruct nb as [|[|[|[|]]]]; try lia.
Qed.

Lemma b85_loop_digit5 :
  0 <= v -> v * 85 + d <= 0xFFFFFFFF ->
  b85_decode_loop (33 + d :: s) v 4 =
  (o ← b85_decode_loop s 0 0%nat; Some (be32_bytes (v * 85 + d) ++ o)).
Proof.
  intros Hv Hle. cbn [b85_decode_loop]. destruct char_tests as (-> & -> & ->).
  change (ch "!") with 33. replace (33 + d - 33) with d by lia.
  rewrite wrap_id by (unfold fits; lia). rewrite ltb_false by lia. done.
Qed.
End step.

Lemma b85_chars_5 v :
  b85_chars 5 v [] =
  [33 + (v `div` 85 ^ 4) `mod` 85; 33 + (v `div` 85 ^ 3) `mod` 85;
   33 + (v `div` 85 ^ 2) `mod` 85; 33 + (v `div` 85) `mod` 85; 33 + v `mod` 85].
Proof.
  cbn [b85_chars]. change (ch "!") with 33.
  by rewrite !Z.div_div by lia.
Qed.

(** Reading the first [m] of the five characters of a 32-bit word. *)
Lemma b85_read_full v s :
  0 <= v <= 0xFFFFFFFF ->
  b85_decode_loop (b85_chars 5 v [] ++ s) 0 0 =
  (o ← b85_decode_loop s 0 0%nat; Some (be32_bytes v ++ o)).
Proof.
  intros Hv. rewrite b85_chars_5. cbn [app].
  do 4 (rewrite b85_loop_digit; [|apply Z.mod_pos_bound; lia|lia|zdm]).
  rewrite b85_loop_digit5; [|apply Z.mod_pos_bound; lia|zdm|zdm].
  match goal with |- context [be32_bytes (?x * 85 + ?d)] => replace (x * 85 + d) with v by zdm end.
  done.
Qed.

Lemma b85_read_partial v (m : nat) :
  0 <= v <= 0xFFFFFFFF -> (2 <= m <= 4)%nat ->
  b85_decode_loop (take m (b85_chars 5 v [])) 0 0 =
  b85_finish (v `div` 85 ^ (5 - Z.of_nat m)) m.
Proof.
  intros Hv Hm. rewrite b85_chars_5.
  assert (m = 2 \/ m = 3 \/ m = 4)%nat as [-> | [-> | -> ]] by lia; cbn [take];
    rewrite !b85_loop_digit; try (apply Z.mod_pos_bound; lia); try lia; try zdm;
    cbn [b85_decode_loop]; f_equal; cbn -[Z.mul Z.add Z.div]; zdm.
Qed.

Lemma b85_word_add data :
  is_bytes data -> (length data <= 4)%nat ->
  b85_word data 24 0 =
  nth 0 data 0 * 2 ^ 24 + nth 1 data 0 * 2 ^ 16 + nth 2 data 0 * 2 ^ 8 + nth 3 data 0.
Proof.
  intros Hb Hl.
  assert (Hstep : forall b k v, 0 <= k <= 24 -> fits 8 b -> v `mod` (256 * 2 ^ k) = 0 -> 0 <= v ->
            v .| u32 (b << k) = v + b * 2 ^ k).
  { intros b k v Hk Hf Hz Hv. assert (2 ^ k <= 2 ^ 24) by (apply Z.pow_le_mono_r; lia).
    replace (256 * 2 ^ k) with (2 ^ (k + 8)) in Hz by (rewrite Z.pow_add_r by lia; lia).
    assert (H2 : fits (k + 8) (b * 2 ^ k)).
    { unfold fits in *. rewrite Z.pow_add_r by lia. nia. }
    rewrite Z.shiftl_mul_pow2, (wrap_id 32) by (lia || eapply fits_weaken, H2; lia).
    apply Z.div_exact in Hz; [|lia]. rewrite Hz, Z.mul_comm, <- Z.shiftl_mul_pow2 by lia.
    rewrite Z.lor_comm, lor_shiftl_add by (done || lia). rewrite Z.shiftl_mul_pow2 by lia. lia. }
  do 5 (try (destruct data as [|? data]; [|apply Forall_cons_iff in Hb as [? Hb]]));
    try (cbn in Hl; lia); cbn [b85_word nth]; change (24 - 8 - 8 - 8) with 0; change (24 - 8 - 8) with 8; change (24 - 8) with 16;
    try (rewrite (Hstep _ 24); [|lia|done|done|lia]);
    try (rewrite (Hstep _ 16); [|lia|done|unfold fits in *; zdm|unfold fits in *; lia]);
    try (rewrite (Hstep _ 8); [|lia|done|unfold fits in *; zdm|unfold fits in *; lia]);
    try (rewrite (Hstep _ 0); [|lia|done|unfold fits in *; zdm|unfold fits in *; lia]); lia.
Qed.

Lemma b85_pad_eq (n : nat) v :
  (n <= 3)%nat -> 0 <= v < 2 ^ 32 ->
  b85_pad n v = v * 85 ^ Z.of_nat n + (85 ^ Z.of_nat n - 1).
Proof.
  intros Hn Hv. assert (n = 0 \/ n = 1 \/ n = 2 \/ n = 3)%nat as [-> | [-> | [-> | -> ]]] by lia;
    cbn [b85_pad]; rewrite ?(wrap_id 64 (v * 85 + 84)) by (unfold fits; lia);
    rewrite ?(wrap_id 64 ((v * 85 + 84) * 85 + 84)) by (unfold fits; lia);
    rewrite ?wrap_id by (unfold fits; lia); lia.
Qed.

Lemma same_high v v' k j :
  0 <= k <= j -> v `mod` 2 ^ k = 0 -> v <= v' < v + 2 ^ k -> v' >> j = v >> j.
Proof.
  intros Hk Hz Hv. rewrite !Z.shiftr_div_pow2 by lia. replace j with (k + (j - k)) by lia.
  rewrite Z.pow_add_r by lia. rewrite <- !Z.div_div by lia. f_equal.
  apply Z.div_exact in Hz; [|lia]. symmetry. apply (Z.div_unique _ _ _ (v' - v)); lia.
Qed.

(** Padding the first [m] digits of a word with 84s rounds it up, by less than
    the bytes that were not encoded. *)
Lemma b85_finish_word v (nb : nat) :
  0 <= v <= 0xFFFFFFFF -> (1 <= nb <= 3)%nat -> v `mod` 2 ^ (8 * (4 - Z.of_nat nb)) = 0 ->
  b85_finish (v `div` 85 ^ (5 - Z.of_nat (S nb))) (S nb) = Some (take nb (be32_bytes v)).
Proof.
  intros Hv Hn Hz. unfold b85_finish.
  assert (nb = 1 \/ nb = 2 \/ nb = 3)%nat as [-> | [-> | -> ]] by lia;
    cbn [Nat.eqb Nat.ltb Nat.leb Nat.sub];
    [ change (2 ^ (8 * (4 - Z.of_nat 1))) with (2 ^ 24) in Hz;
      change (85 ^ (5 - Z.of_nat 2)) with (85 ^ 3)
    | change (2 ^ (8 * (4 - Z.of_nat 2))) with (2 ^ 16) in Hz;
      change (85 ^ (5 - Z.of_nat 3)) with (85 ^ 2)
    | change (2 ^ (8 * (4 - Z.of_nat 3))) with (2 ^ 8) in Hz;
      change (85 ^ (5 - Z.of_nat 4)) with (85 ^ 1) ];
    rewrite b85_pad_eq by (lia || zdm);
    (rewrite ltb_false by zdm); f_equal; unfold be32_bytes; cbn [take];
    repeat match goal with
           | |- _ :: _ = _ :: _ => f_equal
           | |- wrap _ _ = wrap _ _ => f_equal
           end;
    (eapply same_high; [|exact Hz|]; [lia|zdm]).
Qed.

Lemma b85_chunk_decode data s :
  is_bytes data -> length data = 4%nat ->
  b85_decode_loop (b85_encode_chunk data ++ s) 0 0 =
  (o ← b85_decode_loop s 0 0%nat; Some (data ++ o)).
Proof.
  intros Hb Hl. unfold b85_encode_chunk. rewrite b85_word_add, Hl by (done || lia).
  do 4 (destruct data as [|? data]; [done|apply Forall_cons_iff in Hb as [? Hb]]).
  destruct data; [|done]. cbn [nth Nat.eqb Nat.ltb Nat.leb andb].
  destruct (Z.eqb_spec (z * 2 ^ 24 + z0 * 2 ^ 16 + z1 * 2 ^ 8 + z2) 0) as [E|E].
  - unfold fits in *. assert (z = 0 /\ z0 = 0 /\ z1 = 0 /\ z2 = 0) as (-> & -> & -> & ->) by lia.
    done.
  - rewrite take_ge by by rewrite b85_chars_5. rewrite b85_read_full by (unfold fits in *; lia).
    by rewrite be32_bytes_word.
Qed.

Lemma b85_tail_decode data :
  is_bytes data -> (length data < 4)%nat -> data <> [] ->
  b85_decode_loop (b85_encode_chunk data) 0 0 = Some data.
Proof.
  intros Hb Hl Hne. unfold b85_encode_chunk. rewrite b85_word_add by (done || lia).
  replace (length data =? 4)%nat with false by (symmetry; apply Nat.eqb_neq; lia).
  replace (length data <? 4)%nat with true by (symmetry; apply Nat.ltb_lt; lia).
  destruct data as [|a [|b [|c [|]]]]; try done; [..|cbn in Hl; lia];
    repeat (apply Forall_cons_iff in Hb as [? Hb]); cbn [andb length nth];
    (rewrite b85_read_partial, b85_finish_word;
      [|unfold fits in *; lia|lia|unfold fits in *; cbn -[Z.pow Z.modulo]; zdm|unfold fits in *; lia|lia]);
    by rewrite be32_bytes_word.
Qed.

(** ** Properties *)
Module Base85_props.

(** Ascii85 round-trips every byte string, zero runs and partial groups
    included. *)
Theorem base85_roundtrip data :
  is_bytes data -> dyn_codec_base85_decode (dyn_codec_base85_encode data) = Some data.
Proof.
  unfold dyn_codec_base85_decode.
  induction data as [data IH] using (induction_ltof1 _ (@length Z)). unfold ltof in IH.
  intros Hb. destruct data as [|a [|b [|c [|d data]]]]; [done|..|].
  1-3: by apply b85_tail_decode; [done|cbn; lia|].
  change (dyn_codec_base85_encode (a :: b :: c :: d :: data))
    with (b85_encode_chunk [a; b; c; d] ++ dyn_codec_base85_encode data).
  pose proof Hb as Hb'. apply (Forall_app _ [a; b; c; d] data) in Hb' as [H4 Hd].
  by rewrite b85_chunk_decode, IH by (done || cbn; lia).
Qed.

Lemma base85_roundtrip_witness :
  dyn_codec_base85_decode (dyn_codec_base85_encode [0; 0; 0; 0; 255; 7]) = Some [0; 0; 0; 0; 255; 7].
Proof. apply base85_roundtrip. repeat constructor; by vm_compute. Defined.

(** On any input the decoder writes at most four bytes per character, the size
    Base85Decode allocates and base85DecodeInto demands. *)
Theorem base85_decode_bound s out :
  dyn_codec_base85_decode s = Some out -> (length out <= 4 * length s)%nat.
Proof.
  unfold dyn_codec_base85_decode.
  assert (H : forall v nb, (nb <= 4)%nat -> b85_decode_loop s v nb = Some out ->
            (length out <= 4 * length s + nb)%nat); [|intros E; apply H in E; lia].
  revert out. induction s as [|b s IH]; intros out v nb Hnb E; cbn [b85_decode_loop] in E.
  { unfold b85_finish in E. repeat case_if_in E; bprop; try done; injection E as <-; cbn; [|lia].
    rewrite length_take. lia. }
  cbn [length]. repeat case_if_in E; bprop; try done;
    try (apply bind_Some in E as (o & Ho & [= <-]); apply IH in Ho; [|lia]; cbn; lia);
    apply IH in E; lia.
Qed.

Lemma base85_decode_bound_witness :
  dyn_codec_base85_decode (str "zz") = Some [0; 0; 0; 0; 0; 0; 0; 0] /\
  (length ([0; 0; 0; 0; 0; 0; 0; 0]%Z : bytes) <= 4 * length (str "zz"))%nat.
Proof. split; [reflexivity|]. apply base85_decode_bound. reflexivity. Defined.

(** dyn_codec_base85_decode_cap understates what the decoder writes: a run of
    [n] 'z' characters decodes to [4 * n] bytes, above the capacity for
    every [n >= 2]. *)
Theorem base85_decode_cap_too_small (n : nat) :
  (2 <= n)%nat ->
  exists out, dyn_codec_base85_decode (replicate n (ch "z")) = Some out /\
    dyn_codec_base85_decode_cap (Z.of_nat n) < Z.of_nat (length out).
Proof.
  intros Hn. exists (replicate (4 * n) 0). split.
  - unfold dyn_codec_base85_decode. clear Hn. induction n as [|n IH]; [done|].
    change (replicate (S n) (ch "z")) with (ch "z" :: replicate n (ch "z")).
    cbn [b85_decode_loop]. change (dyn_codec_is_ascii85_space (ch "z")) with false.
    change ((ch "z" =? ch "z") && (0 =? 0)%nat) with true. cbn iota. rewrite IH.
    replace (4 * S n)%nat with (4 + 4 * n)%nat by lia. done.
  - rewrite length_replicate. unfold dyn_codec_base85_decode_cap. zdm.
Qed.

Lemma base85_decode_cap_too_small_witness :
  exists out, dyn_codec_base85_decode (replicate 5 (ch "z")) = Some out /\
    dyn_codec_base85_decode_cap 5 < Z.of_nat (length out).
Proof. apply (base85_decode_cap_too_small 5). lia. Defined.

End Base85_props.
