(* ===== verification/Base64.v ===== *)
(** * Hex and base64: [src/core/dyn-codec.c] over the scalar kernels of
    [src/dyna-simd-scalar.c]

    dyn-codec dispatches through the [simd] table; the scalar entries the table
    always has are modelled here. [None] is SIZE_MAX / DYN_CODEC_BAD. *)
From Stdlib Require Import ZArith Lia Ascii.
From stdpp Require Import base numbers list option strings.
From S2P Require Import Prelude.

(** ** Tables *)

Definition simd_b64_alphabet : bytes :=
  str "ABCDEFGHIJKLMNOPQRSTUVWXYZabcdefghijklmnopqrstuvwxyz0123456789+/".

Definition simd_b64_dec : list Z := [
   (-1); (-1); (-1); (-1); (-1); (-1); (-1); (-1); (-1); (-1); (-1); (-1); (-1); (-1); (-1); (-1);
   (-1); (-1); (-1); (-1); (-1); (-1); (-1); (-1); (-1); (-1); (-1); (-1); (-1); (-1); (-1); (-1);
   (-1); (-1); (-1); (-1); (-1); (-1); (-1); (-1); (-1); (-1); (-1); 62; (-1); (-1); (-1); 63;
   52; 53; 54; 55; 56; 57; 58; 59; 60; 61; (-1); (-1); (-1); (-1); (-1); (-1);
   (-1); 0; 1; 2; 3; 4; 5; 6; 7; 8; 9; 10; 11; 12; 13; 14;
   15; 16; 17; 18; 19; 20; 21; 22; 23; 24; 25; (-1); (-1); (-1); (-1); (-1);
   (-1); 26; 27; 28; 29; 30; 31; 32; 33; 34; 35; 36; 37; 38; 39; 40;
   41; 42; 43; 44; 45; 46; 47; 48; 49; 50; 51; (-1); (-1); (-1); (-1); (-1);
   (-1); (-1); (-1); (-1); (-1); (-1); (-1); (-1); (-1); (-1); (-1); (-1); (-1); (-1); (-1); (-1);
   (-1); (-1); (-1); (-1); (-1); (-1); (-1); (-1); (-1); (-1); (-1); (-1); (-1); (-1); (-1); (-1);
   (-1); (-1); (-1); (-1); (-1); (-1); (-1); (-1); (-1); (-1); (-1); (-1); (-1); (-1); (-1); (-1);
   (-1); (-1); (-1); (-1); (-1); (-1); (-1); (-1); (-1); (-1); (-1); (-1); (-1); (-1); (-1); (-1);
   (-1); (-1); (-1); (-1); (-1); (-1); (-1); (-1); (-1); (-1); (-1); (-1); (-1); (-1); (-1); (-1);
   (-1); (-1); (-1); (-1); (-1); (-1); (-1); (-1); (-1); (-1); (-1); (-1); (-1); (-1); (-1); (-1);
   (-1); (-1); (-1); (-1); (-1); (-1); (-1); (-1); (-1); (-1); (-1); (-1); (-1); (-1); (-1); (-1);
   (-1); (-1); (-1); (-1); (-1); (-1); (-1); (-1); (-1); (-1); (-1); (-1); (-1); (-1); (-1); (-1)
  ].

Definition simd_hex_lut : bytes := str "0123456789abcdef".

(** ** Hex *)

Definition simd_scalar_hex_encode (src : bytes) : bytes :=
  src ≫= fun b => [nth (Z.to_nat (b >> 4)) simd_hex_lut 0; nth (Z.to_nat (b & 0x0F)) simd_hex_lut 0].

Definition simd_hex_val (c : Z) : Z :=
  if (ch "0" <=? c) && (c <=? ch "9") then c - ch "0" else
  if (ch "a" <=? c) && (c <=? ch "f") then c - ch "a" + 10 else
  if (ch "A" <=? c) && (c <=? ch "F") then c - ch "A" + 10 else -1.

Fixpoint hex_decode_loop (src : bytes) : option bytes :=
  match src with
  | c0 :: c1 :: src =>
      let hi := simd_hex_val c0 in
      let lo := simd_hex_val c1 in
      if (hi <? 0) || (lo <? 0) then None else
      o ← hex_decode_loop src; Some (u8 ((hi << 4) .| lo) :: o)
  | _ => Some []
  end.

Definition simd_scalar_hex_decode (src : bytes) : option bytes :=
  if (length src `mod` 2 =? 0)%nat then hex_decode_loop src else None.

Definition dyn_codec_hex_encode (data : bytes) : bytes := simd_scalar_hex_encode data.
Definition dyn_codec_hex_decode (s : bytes) : option bytes :=
  if (length s `mod` 2 =? 0)%nat then simd_scalar_hex_decode s else None.

(** ** Base64 *)

Definition b64_char (x k : Z) : Z := nth (Z.to_nat ((x >> k) & 0x3F)) simd_b64_alphabet 0.

Fixpoint simd_scalar_base64_encode (src : bytes) : bytes :=
  match src with
  | [] => []
  | [s0] =>
      let x := s0 << 16 in
      [b64_char x 18; b64_char x 12; ch "="; ch "="]
  | [s0; s1] =>
      let x := (s0 << 16) .| (s1 << 8) in
      [b64_char x 18; b64_char x 12; b64_char x 6; ch "="]
  | s0 :: s1 :: s2 :: src =>
      let x := (s0 << 16) .| (s1 << 8) .| s2 in
      [b64_char x 18; b64_char x 12; b64_char x 6; b64_char x 0] ++ simd_scalar_base64_encode src
  end.

Definition b64_val (c : Z) : Z := nth (Z.to_nat c) simd_b64_dec (-1).

(** One iteration: [v2], [v3] and [pad] from the third and fourth characters. *)
Definition b64_group (c0 c1 c2 c3 : Z) (last : bool) : option bytes :=
  let v0 := b64_val c0 in
  let v1 := b64_val c1 in
  if (v0 <? 0) || (v1 <? 0) then None else
  '(pad, v2, v3) ←
    (if c2 =? ch "=" then
       if negb last || negb (c3 =? ch "=") then None else Some (2, 0, 0)
     else
       let v2 := b64_val c2 in
       if v2 <? 0 then None else
       if c3 =? ch "=" then
         if negb last then None else Some (1, v2, 0)
       else
         let v3 := b64_val c3 in
         if v3 <? 0 then None else Some (0, v2, v3));
  let x := (v0 << 18) .| (v1 << 12) .| (v2 << 6) .| v3 in
  Some (((x >> 16) & 0xFF)
        :: (if pad <? 2 then [(x >> 8) & 0xFF] else [])
        ++ (if pad <? 1 then [x & 0xFF] else [])).

Fixpoint b64_decode_loop (src : bytes) : option bytes :=
  match src with
  | c0 :: c1 :: c2 :: c3 :: src =>
      g ← b64_group c0 c1 c2 c3 (match src with [] => true | _ => false end);
      o ← b64_decode_loop src;
      Some (g ++ o)
  | _ => Some []
  end.

Definition simd_scalar_base64_decode (src : bytes) : option bytes :=
  if (length src `mod` 4 =? 0)%nat then b64_decode_loop src else None.

Definition dyn_codec_base64_encode (data : bytes) : bytes := simd_scalar_base64_encode data.
Definition dyn_codec_base64_decode (s : bytes) : option bytes := simd_scalar_base64_decode s.

(** The in-place pass of dyn_codec_base64url_encode: stop at the first '='. *)
Fixpoint b64url_translate (s : bytes) : bytes :=
  match s with
  | [] => []
  | c :: s =>
      if c =? ch "=" then []
      else (if c =? ch "+" then ch "-" else if c =? ch "/" then ch "_" else c)
           :: b64url_translate s
  end.

Definition dyn_codec_base64url_encode (data : bytes) : bytes :=
  b64url_translate (simd_scalar_base64_encode data).

Fixpoint b64url_scratch (s : bytes) : option bytes :=
  match s with
  | [] => Some []
  | c :: s =>
      c' ← (if c =? ch "-" then Some (ch "+")
            else if c =? ch "_" then Some (ch "/")
            else if (c =? ch "+") || (c =? ch "/") then None
            else Some c);
      o ← b64url_scratch s; Some (c' :: o)
  end.

Definition dyn_codec_base64url_decode (s : bytes) : option bytes :=
  let n := length s in
  let rem := (n `mod` 4)%nat in
  if (rem =? 1)%nat then None else
  let padlen := if (rem =? 0)%nat then 0%nat else (4 - rem)%nat in
  scratch ← b64url_scratch s;
  simd_scalar_base64_decode (scratch ++ replicate padlen (ch "=")).

Definition dyn_codec_base64_encode_cap (n : Z) : Z := 4 * ((n + 2) `div` 3).
Definition dyn_codec_base64_decode_cap (n : Z) : Z := 3 * (n `div` 4).

Example rfc4648_base64 :
  dyn_codec_base64_encode (str "foobar") = str "Zm9vYmFy" /\
  dyn_codec_base64_encode (str "fo") = str "Zm8=" /\
  dyn_codec_base64url_decode (str "Zm8") = Some (str "fo") /\
  dyn_codec_hex_encode [0xDE; 0xAD] = str "dead".
Proof. repeat split. Qed.

(** ** Lemmas *)

Lemma hex_digit_table d :
  0 <= d < 16 -> simd_hex_val (nth (Z.to_nat d) simd_hex_lut 0) = d.
Proof. revert d. apply (Z_range_ind _ 16). repeat constructor. Qed.

Lemma hex_decode_encode data :
  is_bytes data -> hex_decode_loop (simd_scalar_hex_encode data) = Some data.
Proof.
  induction data as [|b data IH]; intros Hb; [done|]. apply Forall_cons_iff in Hb as [Hf Hb].
  unfold simd_scalar_hex_encode. rewrite bind_cons. cbn [app hex_decode_loop].
  assert (H1 : fits 4 (b >> 4)) by by apply (shiftr_fits 4).
  assert (H2 : b & 0x0F = wrap 4 b) by by rewrite wrap_land.
  rewrite H2, !hex_digit_table by (done || by apply wrap_fits).
  rewrite !ltb_false by (apply H1 || by apply (wrap_fits 4 b)). cbn [orb].
  fold (simd_scalar_hex_encode data). rewrite IH by done. cbn. do 2 f_equal.
  rewrite Z.lor_comm, lor_shiftl_add by (done || by apply wrap_fits).
  unfold wrap. rewrite Z.shiftr_div_pow2 by lia. unfold fits in Hf. zdm.
Qed.

Lemma b64_table d :
  0 <= d < 64 ->
  let c := nth (Z.to_nat d) simd_b64_alphabet 0 in
  b64_val c = d /\ (c =? ch "=") = false /\ (c =? ch "-") = false /\ (c =? ch "_") = false.
Proof. revert d. apply (Z_range_ind _ 64). repeat constructor. Qed.

Lemma sextet x k : (x >> k) & 0x3F = wrap 6 (x >> k).
Proof. by rewrite wrap_land. Qed.

Lemma b64_val_char x k : b64_val (b64_char x k) = wrap 6 (x >> k).
Proof. unfold b64_char. rewrite sextet. apply b64_table, wrap_fits. lia. Qed.

Lemma b64_char_not_pad x k : (b64_char x k =? ch "=") = false.
Proof. unfold b64_char. rewrite sextet. apply b64_table, wrap_fits. lia. Qed.

Lemma wrap_nonneg w x : 0 <= w -> (wrap w x <? 0) = false.
Proof. intros. apply Z.ltb_ge, wrap_fits. lia. Qed.

Lemma b64_join v0 v1 v2 v3 :
  fits 6 v0 -> fits 6 v1 -> fits 6 v2 -> fits 6 v3 ->
  (v0 << 18) .| (v1 << 12) .| (v2 << 6) .| v3 = v0 * 2 ^ 18 + v1 * 2 ^ 12 + v2 * 2 ^ 6 + v3.
Proof.
  intros. replace ((v0 << 18) .| (v1 << 12) .| (v2 << 6) .| v3)
    with ((((v0 << 6) .| v1) << 6 .| v2) << 6 .| v3)
    by by rewrite !Z.shiftl_lor, !Z.shiftl_shiftl by lia.
  repeat (rewrite Z.lor_comm, lor_shiftl_add by (done || lia)). lia.
Qed.

Lemma b64_word a b c :
  fits 8 b -> fits 8 c -> (a << 16) .| (b << 8) .| c = a * 2 ^ 16 + b * 2 ^ 8 + c.
Proof.
  intros. replace ((a << 16) .| (b << 8) .| c) with (((a << 8) .| b) << 8 .| c)
    by by rewrite !Z.shiftl_lor, !Z.shiftl_shiftl by lia.
  repeat (rewrite Z.lor_comm, lor_shiftl_add by (done || lia)). lia.
Qed.

Lemma byte_mask x k : (x >> k) & 0xFF = wrap 8 (x >> k).
Proof. by rewrite wrap_land. Qed.

(** The bytes of a 24-bit word, from its four sextets. *)
Lemma b64_sextets a b c :
  fits 8 a -> fits 8 b -> fits 8 c ->
  let x := a * 2 ^ 16 + b * 2 ^ 8 + c in
  (wrap 6 (x >> 18) << 18) .| (wrap 6 (x >> 12) << 12) .| (wrap 6 (x >> 6) << 6) .| wrap 6 x = x.
Proof.
  intros Ha Hb Hc x. rewrite b64_join by by apply wrap_fits.
  unfold wrap, x, fits in *. rewrite !Z.shiftr_div_pow2 by lia. zdm.
Qed.

Lemma b64_unpack a b c :
  fits 8 a -> fits 8 b -> fits 8 c ->
  let x := a * 2 ^ 16 + b * 2 ^ 8 + c in
  wrap 8 (x >> 16) = a /\ wrap 8 (x >> 8) = b /\ wrap 8 x = c.
Proof.
  intros Ha Hb Hc x. unfold wrap, x, fits in *. rewrite !Z.shiftr_div_pow2 by lia.
  split_and!; zdm.
Qed.

Lemma b64_group_3 a b c last :
  fits 8 a -> fits 8 b -> fits 8 c ->
  let x := a * 2 ^ 16 + b * 2 ^ 8 + c in
  b64_group (b64_char x 18) (b64_char x 12) (b64_char x 6) (b64_char x 0) last = Some [a; b; c].
Proof.
  intros Ha Hb Hc x. unfold b64_group.
  rewrite !b64_char_not_pad, !b64_val_char, !wrap_nonneg by lia. cbn [orb mbind option_bind].
  rewrite Z.shiftr_0_r. subst x. rewrite b64_sextets by done.
  pose proof (byte_mask (a * 2 ^ 16 + b * 2 ^ 8 + c) 0) as H0. rewrite Z.shiftr_0_r in H0.
  rewrite !byte_mask, H0. by destruct (b64_unpack a b c) as (-> & -> & ->).
Qed.

Lemma b64_group_2 a b :
  fits 8 a -> fits 8 b ->
  let x := a * 2 ^ 16 + b * 2 ^ 8 in
  b64_group (b64_char x 18) (b64_char x 12) (b64_char x 6) (ch "=") true = Some [a; b].
Proof.
  intros Ha Hb x. unfold b64_group.
  rewrite !b64_char_not_pad, !b64_val_char, !wrap_nonneg by lia.
  change (ch "=" =? ch "=") with true. cbn [orb negb mbind option_bind].
  assert (H0 : fits 8 0) by by vm_compute.
  pose proof (b64_sextets a b 0 Ha Hb H0) as Hs. cbn zeta in Hs. rewrite Z.add_0_r in Hs. fold x in Hs.
  replace (wrap 6 x) with 0 in Hs by (unfold wrap, x; zdm). rewrite Hs, !byte_mask.
  destruct (b64_unpack a b 0) as (H1 & H2 & _); [done..|]. rewrite Z.add_0_r in H1, H2.
  fold x in H1, H2. by rewrite H1, H2.
Qed.

Lemma b64_group_1 a :
  fits 8 a ->
  let x := a * 2 ^ 16 in
  b64_group (b64_char x 18) (b64_char x 12) (ch "=") (ch "=") true = Some [a].
Proof.
  intros Ha x. unfold b64_group. rewrite !b64_val_char, !wrap_nonneg by lia.
  change (ch "=" =? ch "=") with true. cbn [orb negb mbind option_bind].
  assert (H0 : fits 8 0) by by vm_compute.
  pose proof (b64_sextets a 0 0 Ha H0 H0) as Hs. cbn zeta in Hs. rewrite !Z.add_0_r in Hs. fold x in Hs.
  replace (wrap 6 x) with 0 in Hs by (unfold wrap, x; zdm).
  replace (wrap 6 (x >> 6)) with 0 in Hs
    by (unfold wrap, x; rewrite Z.shiftr_div_pow2 by lia; zdm).
  rewrite Hs, byte_mask. destruct (b64_unpack a 0 0) as (H1 & _); [done..|].
  rewrite !Z.add_0_r in H1. fold x in H1. by rewrite H1.
Qed.

(** The encoder in arithmetic form. *)
Definition b64_chunk (data : bytes) : bytes :=
  match data with
  | [a] => let x := a * 2 ^ 16 in [b64_char x 18; b64_char x 12; ch "="; ch "="]
  | [a; b] => let x := a * 2 ^ 16 + b * 2 ^ 8 in [b64_char x 18; b64_char x 12; b64_char x 6; ch "="]
  | [a; b; c] =>
      let x := a * 2 ^ 16 + b * 2 ^ 8 + c in
      [b64_char x 18; b64_char x 12; b64_char x 6; b64_char x 0]
  | _ => []
  end.

Lemma b64_encode_cases data :
  is_bytes data ->
  simd_scalar_base64_encode data =
  match data with
  | [] => []
  | _ => b64_chunk (take 3 data) ++ simd_scalar_base64_encode (drop 3 data)
  end.
Proof.
  intros Hb. destruct data as [|a [|b [|c data]]]; [done|..];
    repeat (apply Forall_cons_iff in Hb as [? Hb]);
    cbn [take drop b64_chunk simd_scalar_base64_encode app]; rewrite ?take_0, ?drop_0; cbn [b64_chunk app].
  - by rewrite Z.shiftl_mul_pow2 by lia.
  - rewrite <- (Z.lor_0_r (_ .| _)). rewrite b64_word by (done || by vm_compute). by rewrite Z.add_0_r.
  - by rewrite b64_word.
Qed.

Lemma b64_chunk_length data : (0 < length data <= 3)%nat -> length (b64_chunk data) = 4%nat.
Proof. destruct data as [|a [|b [|c [|]]]]; cbn; lia. Qed.

Lemma b64_encode_length data :
  is_bytes data ->
  Z.of_nat (length (simd_scalar_base64_encode data))
  = dyn_codec_base64_encode_cap (Z.of_nat (length data)).
Proof.
  unfold dyn_codec_base64_encode_cap.
  induction data as [data IH] using (induction_ltof1 _ (@length Z)). unfold ltof in IH. intros Hb.
  rewrite b64_encode_cases by done. destruct data as [|a data]; [done|].
  rewrite length_app, b64_chunk_length by (rewrite length_take; cbn [length]; lia).
  rewrite Nat2Z.inj_add, IH, length_drop; [|rewrite length_drop; cbn [length]; lia|by apply Forall_drop].
  cbn [length]. zdm.
Qed.

Lemma b64_encode_nil data : is_bytes data -> simd_scalar_base64_encode data = [] -> data = [].
Proof.
  intros Hb E. rewrite b64_encode_cases in E by done. destruct data as [|a data]; [done|].
  apply app_eq_nil in E as [E _]. apply (f_equal length) in E.
  rewrite b64_chunk_length in E; [done|]. rewrite length_take. cbn [length]. lia.
Qed.

Lemma b64_decode_app g s :
  length g = 4%nat ->
  b64_decode_loop (g ++ s) =
  (x ← b64_group (nth 0 g 0) (nth 1 g 0) (nth 2 g 0) (nth 3 g 0)
        (match s with [] => true | _ => false end);
   o ← b64_decode_loop s; Some (x ++ o)).
Proof. intros Hg. do 4 (destruct g as [|? g]; [done|]). by destruct g. Qed.

Lemma b64_decode_encode data :
  is_bytes data -> b64_decode_loop (simd_scalar_base64_encode data) = Some data.
Proof.
  induction data as [data IH] using (induction_ltof1 _ (@length Z)). unfold ltof in IH. intros Hb.
  rewrite b64_encode_cases by done. destruct data as [|a data]; [done|].
  rewrite b64_decode_app by (apply b64_chunk_length; rewrite length_take; cbn [length]; lia).
  rewrite IH; [|rewrite length_drop; cbn [length]; lia|by apply Forall_drop].
  destruct data as [|b [|c data]]; repeat (apply Forall_cons_iff in Hb as [? Hb]);
    cbn [take drop b64_chunk nth simd_scalar_base64_encode]; rewrite ?take_0, ?drop_0; cbn [b64_chunk nth].
  - by rewrite b64_group_1.
  - by rewrite b64_group_2.
  - by rewrite b64_group_3.
Qed.

(** An encoded text: alphabet characters, then at most two '=' signs. *)
Lemma b64_encode_shape data :
  is_bytes data ->
  exists core n, simd_scalar_base64_encode data = core ++ replicate n (ch "=") /\
    Forall (fun c => exists x k, c = b64_char x k) core /\ (n <= 2)%nat /\
    ((length core + n) `mod` 4 = 0)%nat.
Proof.
  induction data as [data IH] using (induction_ltof1 _ (@length Z)). unfold ltof in IH. intros Hb.
  rewrite b64_encode_cases by done. destruct data as [|a [|b [|c data]]].
  - exists [], 0%nat. split_and!; [done|done|lia|done].
  - exists [b64_char (a * 2 ^ 16) 18; b64_char (a * 2 ^ 16) 12], 2%nat.
    split_and!; [done|repeat constructor; eauto|lia|done].
  - set (x := a * 2 ^ 16 + b * 2 ^ 8). exists [b64_char x 18; b64_char x 12; b64_char x 6], 1%nat.
    split_and!; [done|repeat constructor; eauto|lia|done].
  - cbn [take drop b64_chunk]. rewrite take_0, drop_0. cbn [b64_chunk].
    destruct (IH data) as (core & n & -> & Hc & Hn & Hm).
    { cbn. lia. }
    { by repeat (apply Forall_cons_iff in Hb as [_ Hb]). }
    eexists (_ :: _ :: _ :: _ :: core), n. split_and!; [done|by repeat constructor; eauto|done|].
    cbn [length]. replace (S (S (S (S (length core)))) + n)%nat with (length core + n + 1 * 4)%nat by lia.
    by rewrite Nat.Div0.mod_add.
Qed.

Definition b64url_char (c : Z) : Z :=
  if c =? ch "+" then ch "-" else if c =? ch "/" then ch "_" else c.

Lemma b64url_translate_core core n :
  Forall (fun c => exists x k, c = b64_char x k) core ->
  b64url_translate (core ++ replicate n (ch "=")) = map b64url_char core.
Proof.
  induction 1 as [|c core (x & k & ->) Hc IH]; [by destruct n|].
  cbn [app b64url_translate map]. by rewrite b64_char_not_pad, IH.
Qed.

Lemma b64url_scratch_core core :
  Forall (fun c => exists x k, c = b64_char x k) core ->
  b64url_scratch (map b64url_char core) = Some core.
Proof.
  induction 1 as [|c core (x & k & ->) Hc IH]; [done|].
  cbn [map b64url_scratch]. rewrite IH.
  destruct (b64_table (wrap 6 (x >> k)) (wrap_fits 6 _ ltac:(lia))) as (_ & _ & Hd & Hu).
  unfold b64_char at 1. unfold b64_char. rewrite sextet. set (c := nth _ _ _) in *.
  unfold b64url_char. destruct (Z.eqb_spec c (ch "+")) as [->|]; [done|].
  destruct (Z.eqb_spec c (ch "/")) as [->|]; [done|]. rewrite Hd, Hu. 
  by rewrite (proj2 (Z.eqb_neq _ _)), (proj2 (Z.eqb_neq _ _)).
Qed.

Lemma b64_length_mod4 data :
  is_bytes data -> (length (simd_scalar_base64_encode data) `mod` 4 = 0)%nat.
Proof.
  intros Hb. apply Nat2Z.inj. rewrite Nat2Z.inj_mod, b64_encode_length by done.
  unfold dyn_codec_base64_encode_cap. rewrite Z.mul_comm. by apply Z.mod_mul.
Qed.

(** ** Properties *)
Module Base64_props.

(** Hex round-trips every byte string; the output is twice the input. *)
Theorem hex_roundtrip data :
  is_bytes data ->
  dyn_codec_hex_decode (dyn_codec_hex_encode data) = Some data /\
  length (dyn_codec_hex_encode data) = (2 * length data)%nat.
Proof.
  intros Hb. unfold dyn_codec_hex_decode, simd_scalar_hex_decode, dyn_codec_hex_encode.
  assert (HL : length (simd_scalar_hex_encode data) = (2 * length data)%nat).
  { clear Hb. unfold simd_scalar_hex_encode. induction data as [|b data IH]; [done|].
    rewrite bind_cons, length_app, IH. cbn. lia. }
  rewrite HL, Nat.mul_comm, Nat.Div0.mod_mul. by rewrite hex_decode_encode.
Qed.

Lemma hex_roundtrip_witness :
  dyn_codec_hex_decode (dyn_codec_hex_encode [0; 171; 255]) = Some [0; 171; 255].
Proof. apply hex_roundtrip. repeat constructor; by vm_compute. Defined.

(** Base64 round-trips every byte string and fills exactly the
    dyn_codec_base64_encode_cap bytes its callers allocate. *)
Theorem base64_roundtrip data :
  is_bytes data ->
  dyn_codec_base64_decode (dyn_codec_base64_encode data) = Some data /\
  Z.of_nat (length (dyn_codec_base64_encode data))
  = dyn_codec_base64_encode_cap (Z.of_nat (length data)).
Proof.
  intros Hb. split; [|by apply b64_encode_length].
  unfold dyn_codec_base64_decode, simd_scalar_base64_decode, dyn_codec_base64_encode.
  by rewrite b64_length_mod4, b64_decode_encode.
Qed.

Lemma base64_roundtrip_witness :
  dyn_codec_base64_decode (dyn_codec_base64_encode [1; 2; 3; 254]) = Some [1; 2; 3; 254].
Proof. apply base64_roundtrip. repeat constructor; by vm_compute. Defined.

(** The unpadded URL alphabet round-trips: the decoder's translation and
    re-padding rebuild exactly the base64 text the encoder started from. *)
Theorem base64url_roundtrip data :
  is_bytes data -> dyn_codec_base64url_decode (dyn_codec_base64url_encode data) = Some data.
Proof.
  intros Hb. unfold dyn_codec_base64url_decode, dyn_codec_base64url_encode.
  pose proof (b64_length_mod4 data Hb) as HL.
  destruct (b64_encode_shape data Hb) as (core & n & E & Hc & Hn & Hm).
  rewrite E, b64url_translate_core, b64url_scratch_core, length_map by done. cbn [mbind option_bind].
  assert (Hpad : (if (length core `mod` 4 =? 0)%nat then 0%nat else (4 - length core `mod` 4)%nat) = n
                 /\ (length core `mod` 4 =? 1)%nat = false).
  { pose proof (Nat.div_mod_eq (length core) 4). pose proof (Nat.div_mod_eq (length core + n) 4).
    pose proof (Nat.mod_upper_bound (length core) 4 ltac:(lia)).
    split; [case_ifs; lia|apply Nat.eqb_neq; lia]. }
  destruct Hpad as [-> ->]. rewrite <- E. unfold simd_scalar_base64_decode.
  by rewrite HL, b64_decode_encode.
Qed.

Lemma base64url_roundtrip_witness :
  dyn_codec_base64url_decode (dyn_codec_base64url_encode [251; 239; 190; 255]) = Some [251; 239; 190; 255].
Proof. apply base64url_roundtrip. repeat constructor; by vm_compute. Defined.

(** On any text the base64 decoder writes at most
    dyn_codec_base64_decode_cap bytes. *)
Theorem base64_decode_bound s out :
  dyn_codec_base64_decode s = Some out ->
  Z.of_nat (length out) <= dyn_codec_base64_decode_cap (Z.of_nat (length s)).
Proof.
  unfold dyn_codec_base64_decode, simd_scalar_base64_decode, dyn_codec_base64_decode_cap.
  case_ifs; [|done]. clear E. revert out.
  induction s as [s IH] using (induction_ltof1 _ (@length Z)). unfold ltof in IH. intros out H.
  destruct s as [|c0 [|c1 [|c2 [|c3 s]]]]; cbn [b64_decode_loop] in H; try (injection H as <-; cbn [length]; zdm).
  apply bind_Some in H as (g & Hg & H). apply bind_Some in H as (o & Ho & [= <-]).
  apply IH in Ho; [|cbn; lia]. rewrite length_app.
  assert (length g <= 3)%nat.
  { unfold b64_group in Hg. case_if_in Hg; [done|].
    apply bind_Some in Hg as ([[pad v2] v3] & _ & [= <-]). cbn [length app].
    rewrite length_app. case_ifs; cbn; lia. }
  cbn [length]. zdm.
Qed.

Lemma base64_decode_bound_witness :
  dyn_codec_base64_decode (str "Zm8=") = Some (str "fo") /\
  Z.of_nat (length (str "fo")) <= dyn_codec_base64_decode_cap (Z.of_nat (length (str "Zm8="))).
Proof. split; [reflexivity|]. apply base64_decode_bound. reflexivity. Defined.

End Base64_props.
