(* ===== verification/Pct.v ===== *)
(** * Percent encoding

    The encoder and decoder of src/core/dyn-pct.h.  The sink callback of the
    source appends to its target, so an encoder is the list of bytes it hands
    to the sink.  [form] selects the set of characters kept as they are: 0 is
    encodeURIComponent's set, 4 the query set, every other value the form set
    in which a space becomes a plus sign. *)
From Stdlib Require Import ZArith Lia Ascii.
From stdpp Require Import base numbers list option strings.
From S2P Require Import Prelude.

Definition in_range (a b : Z) (c : Z) : bool := (a <=? c) && (c <=? b).

Definition pct_alnum (c : Z) : bool :=
  in_range (ch "a") (ch "z") c || in_range (ch "A") (ch "Z") c || in_range (ch "0") (ch "9") c.

Definition dyn_pct_safe_0 (c : Z) : bool :=
  pct_alnum c || (c =? ch "*") || (c =? ch "-") || (c =? ch ".") || (c =? ch "_")
  || (c =? ch "~") || (c =? ch "!") || (c =? ch "'") || (c =? ch "(") || (c =? ch ")").

Definition dyn_pct_safe_1 (c : Z) : bool :=
  pct_alnum c || (c =? ch "*") || (c =? ch "-") || (c =? ch ".") || (c =? ch "_").

Definition dyn_pct_safe_2 (c : Z) : bool := dyn_pct_safe_1 c || (c =? ch "~").

Definition pct_HEX : bytes := str "0123456789ABCDEF".

(** One turn of the encoder's loop: the bytes it sends to the sink for [c]. *)
Definition pct_encode_byte (form c : Z) : bytes :=
  let safe := if form =? 0 then dyn_pct_safe_0 c
              else if form =? 4 then dyn_pct_safe_1 c else dyn_pct_safe_2 c in
  if safe then [c]
  else if negb (form =? 0) && negb (form =? 4) && (c =? ch " ") then str "+"
  else [ch "%"; nth (Z.to_nat (c >> 4)) pct_HEX 0; nth (Z.to_nat (c & 15)) pct_HEX 0].

Fixpoint dyn_pct_encode_core (s : bytes) (form : Z) : bytes :=
  match s with
  | [] => []
  | c :: s => pct_encode_byte form c ++ dyn_pct_encode_core s form
  end.

Definition dyn_pct_hexval (c : Z) : Z :=
  if in_range (ch "0") (ch "9") c then c - ch "0"
  else if in_range (ch "a") (ch "f") c then c - ch "a" + 10
  else if in_range (ch "A") (ch "F") c then c - ch "A" + 10
  else -1.

(** The two hex digits after a percent sign, when both are there and valid. *)
Definition pct_escape (a b : Z) : option Z :=
  let h := dyn_pct_hexval a in let l := dyn_pct_hexval b in
  if (0 <=? h) && (0 <=? l) then Some (u8 ((h << 4) .| l)) else None.

Definition pct_plain (plus_space : bool) (c : Z) : Z :=
  if plus_space && (c =? ch "+") then ch " " else c.

Fixpoint dyn_pct_decode_core (s : bytes) (plus_space : bool) : bytes :=
  match s with
  | [] => []
  | c :: rest =>
      match rest with
      | a :: ((b :: tail) as _r) =>
          match (if c =? ch "%" then pct_escape a b else None) with
          | Some v => v :: dyn_pct_decode_core tail plus_space
          | None => pct_plain plus_space c :: dyn_pct_decode_core rest plus_space
          end
      | _ => pct_plain plus_space c :: dyn_pct_decode_core rest plus_space
      end
  end.

(** [form] leaves a plus sign for a space exactly when the decoder must be
    told to undo it. *)
Definition pct_form_plus (form : Z) : bool := negb (form =? 0) && negb (form =? 4).

(** Induction on texts in the decoder's strides of one and of three bytes. *)
Lemma pct_ind (P : bytes -> Prop) :
  P [] ->
  (forall c s, P s -> (forall a b t, s = a :: b :: t -> P t) -> P (c :: s)) ->
  forall s, P s.
Proof.
  intros H0 H1 s.
  enough (P s /\ (forall a s', s = a :: s' -> P s') /\ (forall a b t, s = a :: b :: t -> P t)) by naive_solver.
  induction s as [|c s (Hs & H2 & H3)]; [by repeat split|].
  repeat split; naive_solver.
Qed.

(** What the decoder needs to know about the encoding of one byte: it is
    either the byte itself, not a character the decoder treats specially, a
    plus for a space, or an escape that decodes to the byte. *)
Definition pct_byte_ok (form : Z) (plus : bool) (c : Z) : bool :=
  match pct_encode_byte form c with
  | [x] => (negb (x =? ch "%")) && (pct_plain plus x =? c)
  | [p; a; b] => (p =? ch "%") && match pct_escape a b with Some v => v =? c | None => false end
  | _ => false
  end.

Lemma pct_form_byte_ok form plus c :
  fits 8 c -> pct_form_plus form = true -> plus = true -> pct_byte_ok form plus c = true.
Proof.
  intros Hc Hf ->. unfold pct_byte_ok, pct_encode_byte. unfold pct_form_plus in Hf. bprop.
  rewrite (proj2 (Z.eqb_neq form 0)), (proj2 (Z.eqb_neq form 4)) by done. cbn [negb andb].
  revert c Hc. apply byte_cases. by vm_compute.
Qed.

Lemma pct_plain_byte_ok form plus c :
  fits 8 c -> pct_form_plus form = false -> pct_byte_ok form plus c = true.
Proof.
  intros Hc Hf. unfold pct_byte_ok, pct_encode_byte. unfold pct_form_plus in Hf.
  assert (form = 0 \/ form = 4) as [-> | ->] by (destruct (form =? 0) eqn:?, (form =? 4) eqn:?; bprop; try done; lia);
    revert c Hc; apply byte_cases; by destruct plus; vm_compute.
Qed.

Lemma pct_decode_plain c s plus :
  c <> ch "%" -> dyn_pct_decode_core (c :: s) plus = pct_plain plus c :: dyn_pct_decode_core s plus.
Proof.
  intros Hc. cbn [dyn_pct_decode_core]. rewrite (proj2 (Z.eqb_neq _ _) Hc).
  by destruct s as [|a [|b s]].
Qed.

Lemma pct_decode_encode form plus s :
  Forall (fun c => pct_byte_ok form plus c = true) s ->
  dyn_pct_decode_core (dyn_pct_encode_core s form) plus = s.
Proof.
  induction 1 as [|c s Hc _ IH]; [done|]. cbn [dyn_pct_encode_core].
  unfold pct_byte_ok in Hc.
  destruct (pct_encode_byte form c) as [|x [|a [|b [|? ?]]]]; try done; bprop.
  - cbn [app]. rewrite pct_decode_plain by done. by rewrite IH; f_equal.
  - cbn [app dyn_pct_decode_core]. subst x. rewrite Z.eqb_refl.
    destruct (pct_escape a b) eqn:E; [|done]. bprop. by subst; rewrite IH.
Qed.

Lemma pct_encode_byte_length form c : (1 <= length (pct_encode_byte form c) <= 3)%nat.
Proof. unfold pct_encode_byte. case_ifs; cbn; lia. Qed.

Module Pct_props.

(** Every text is recovered from its encoding in every form, by the decoder
    with the plus flag the form calls for (a form that never writes a plus
    decodes under either flag); the encoding is at most three times as long as
    the text, which is what the callers reserve. *)
Theorem pct_roundtrip form plus s :
  is_bytes s -> (pct_form_plus form = true -> plus = true) ->
  dyn_pct_decode_core (dyn_pct_encode_core s form) plus = s /\
  (length s <= length (dyn_pct_encode_core s form) <= 3 * length s)%nat.
Proof.
  intros Hs Hp. split.
  - apply pct_decode_encode. eapply Forall_impl; [exact Hs|]. intros c Hc. cbn in Hc.
    destruct (pct_form_plus form) eqn:Hf; [by apply pct_form_byte_ok; auto|by apply pct_plain_byte_ok].
  - clear Hs Hp. induction s as [|c s IH]; [done|]. cbn [dyn_pct_encode_core]. rewrite length_app.
    pose proof (pct_encode_byte_length form c). cbn [length]. lia.
Qed.

Lemma pct_roundtrip_witness :
  dyn_pct_encode_core (str "a b%+") 1 = str "a+b%25%2B" /\
  dyn_pct_decode_core (dyn_pct_encode_core (str "a b%+") 1) true = str "a b%+".
Proof.
  split; [reflexivity|].
  apply pct_roundtrip; [repeat constructor; by vm_compute|done].
Defined.

(** The decoder never writes more bytes than it reads and never fails: an
    incomplete or malformed escape is copied as it is. *)
Theorem pct_decode_total s plus :
  is_bytes s ->
  (length (dyn_pct_decode_core s plus) <= length s)%nat /\
  is_bytes (dyn_pct_decode_core s plus) /\
  (ch "%" ∉ s -> dyn_pct_decode_core s plus = pct_plain plus <$> s).
Proof.
  induction s as [|c s IH IH3] using pct_ind; [by repeat constructor|].
  intros [Hc Hs]%Forall_cons_iff. destruct (IH Hs) as (IHl & IHb & IHp).
  assert (Hp : fits 8 (pct_plain plus c)).
  { unfold pct_plain. case_ifs; [by vm_compute|done]. }
  repeat split.
  - cbn [dyn_pct_decode_core]. destruct s as [|a [|b t]]; cbn [length] in *; try lia.
    apply Forall_cons_iff in Hs as [_ [_ Hs]%Forall_cons_iff].
    destruct (IH3 a b t eq_refl Hs) as [? _]. destruct (if c =? _ then _ else _); cbn [length] in *; lia.
  - cbn [dyn_pct_decode_core]. destruct s as [|a [|b t]]; try by constructor.
    pose proof Hs as Hs'. apply Forall_cons_iff in Hs' as [_ [_ Hs']%Forall_cons_iff].
    destruct (IH3 a b t eq_refl Hs') as (_ & Ht & _). case_if; [|by constructor].
    destruct (pct_escape a b) eqn:E'; [|by constructor]. constructor; [|done].
    unfold pct_escape in E'. case_if_in E'; [|done]. injection E' as <-. by apply wrap_fits.
  - intros Hn. apply not_elem_of_cons in Hn as [Hn1 Hn2]. rewrite pct_decode_plain by congruence.
    rewrite fmap_cons. by rewrite IHp.
Qed.

Lemma pct_decode_total_witness :
  dyn_pct_decode_core (str "%4") true = str "%4" /\
  (length (dyn_pct_decode_core (str "%4") true) <= 2)%nat.
Proof.
  split; [reflexivity|].
  apply (pct_decode_total (str "%4")). repeat constructor; by vm_compute.
Defined.

End Pct_props.
