(* ===== verification/Crc.v ===== *)
(** * CRC-32

    The checksum routines of src/core/dyn-hash.c: the bit-serial reference
    dyn_crc32_bitwise, the slicing-by-eight routine over the tables of
    [CrcTables], and the three-way interleaved routines that use the CPU's CRC
    instruction and recombine the three partial checksums with a carry-less
    multiplication.  The theorems show that all of them compute the same
    function, and that this function detects every burst of up to four bytes.

    A pointer and a length are the list of the bytes they delimit. *)
From Stdlib Require Import ZArith Lia.
From stdpp Require Import base numbers list option.
From S2P Require Import Prelude CrcTables.

Definition DYN_CRC32_POLY : Z := 0xEDB88320.
Definition DYN_CRC32C_POLY : Z := 0x82F63B78.

(** ** The routines *)

(** [(crc >> 1) ^ (poly & (0u - (crc & 1u)))]: multiplication by x. *)
Definition crc_x (poly crc : Z) : Z := (crc >> 1) ^^ (poly & u32 (0 - (crc & 1))).

(** [n] turns of the bit loop: multiplication by x^n. *)
Definition Xn (poly : Z) (n : nat) (crc : Z) : Z := Nat.iter n (crc_x poly) crc.

(** The inner loop of eight turns on one byte. *)
Definition crc_byte (poly crc d : Z) : Z := Xn poly 8 (crc ^^ d).

Definition dyn_crc32_bitwise (data : bytes) (poly : Z) : Z :=
  fold_left (crc_byte poly) data 0xFFFFFFFF ^^ 0xFFFFFFFF.

Definition load_le32 (b0 b1 b2 b3 : Z) : Z :=
  b0 .| u32 (b1 << 8) .| u32 (b2 << 16) .| u32 (b3 << 24).

(** [t[k][i & 0xFF]] *)
Definition crc_at (t : list (list Z)) (k : nat) (i : Z) : Z :=
  nth (Z.to_nat (i & 0xFF)) (nth k t []) 0.

(** The byte-at-a-time loop that finishes the input. *)
Definition slice8_tail_step (t : list (list Z)) (crc d : Z) : Z :=
  crc_at t 0 (crc ^^ d) ^^ (crc >> 8).

(** One turn of the eight-byte loop, on the two words it loads. *)
Definition slice8_step (t : list (list Z)) (crc lo0 hi : Z) : Z :=
  let lo := lo0 ^^ crc in
  crc_at t 7 lo ^^ crc_at t 6 (lo >> 8) ^^ crc_at t 5 (lo >> 16) ^^ crc_at t 4 (lo >> 24)
  ^^ crc_at t 3 hi ^^ crc_at t 2 (hi >> 8) ^^ crc_at t 1 (hi >> 16) ^^ crc_at t 0 (hi >> 24).

Fixpoint slice8_loop (t : list (list Z)) (data : bytes) (crc : Z) : Z :=
  match data with
  | b0 :: b1 :: b2 :: b3 :: b4 :: b5 :: b6 :: b7 :: rest =>
      slice8_loop t rest (slice8_step t crc (load_le32 b0 b1 b2 b3) (load_le32 b4 b5 b6 b7))
  | _ => fold_left (slice8_tail_step t) data crc
  end.

Definition dyn_crc32_slice8 (data : bytes) (t : list (list Z)) : Z :=
  slice8_loop t data 0xFFFFFFFF ^^ 0xFFFFFFFF.

(** [crc32_gf_mul]: [n] is the number of turns left of its 32. *)
Fixpoint gf_mul_loop (poly : Z) (n : nat) (r a b : Z) : Z :=
  match n with
  | O => r
  | S n =>
      let r := if negb ((b & 0x80000000) =? 0) then r ^^ a else r in
      gf_mul_loop poly n r (crc_x poly a) (u32 (b << 1))
  end.

Definition crc32_gf_mul (a b poly : Z) : Z := gf_mul_loop poly 32 0 a b.

(** [crc32_shift]'s loop on the 64-bit bit count [k]; at most 64 turns. *)
Fixpoint crc32_shift_loop (fuel : nat) (pow : list Z) (poly r k : Z) (i : nat) : Z :=
  match fuel with
  | O => r
  | S fuel =>
      if k =? 0 then r else
      let r := if negb ((k & 1) =? 0) then crc32_gf_mul r (nth i pow 0) poly else r in
      crc32_shift_loop fuel pow poly r (k >> 1) (S i)
  end.

Definition crc32_shift (crc : Z) (bytes : nat) (pow : list Z) (poly : Z) : Z :=
  let k := u64 (Z.of_nat bytes * 8) in
  crc32_gf_mul crc (crc32_shift_loop 64 pow poly 0x80000000 k 0) poly.

(** The CRC instruction of the CPU (SSE 4.2 [crc32], ARMv8 [crc32c*] and
    [crc32*]) in its four operand sizes. *)
Class CrcInsn := {
  insn_u64 : Z -> Z -> Z;
  insn_u32 : Z -> Z -> Z;
  insn_u16 : Z -> Z -> Z;
  insn_u8 : Z -> Z -> Z
}.

(** The little-endian value memcpy loads. *)
Fixpoint load_le (l : bytes) : Z :=
  match l with [] => 0 | b :: l => b .| (load_le l << 8) end.

Section Hardware.
Context `{CrcInsn} (pow : list Z) (poly : Z).

(** The eight-byte loop over one stream; [n] is the number of words. *)
Fixpoint hw_words (n : nat) (d : bytes) (c : Z) : Z :=
  match n with
  | O => c
  | S n => hw_words n (drop 8 d) (insn_u64 c (load_le (take 8 d)))
  end.

(** The interleaved loop: three streams advance in step. *)
Fixpoint hw_words3 (n : nat) (p0 p1 p2 : bytes) (c0 c1 c2 : Z) : Z * Z * Z :=
  match n with
  | O => (c0, c1, c2)
  | S n =>
      let v0 := load_le (take 8 p0) in
      let v1 := load_le (take 8 p1) in
      let v2 := load_le (take 8 p2) in
      hw_words3 n (drop 8 p0) (drop 8 p1) (drop 8 p2) (insn_u64 c0 v0) (insn_u64 c1 v1) (insn_u64 c2 v2)
  end.

(** The [if (n >= 3 * 64)] block: the checksum so far and the rest. *)
Definition hw_triple (d : bytes) : Z * bytes :=
  let c0 := 0xFFFFFFFF in
  if (3 * 64 <=? length d)%nat then
    let third := (length d / 3 / 8 * 8)%nat in
    let '(c0, c1, c2) := hw_words3 (third / 8) d (drop third d) (drop (2 * third) d) c0 0 0 in
    let c0 := crc32_shift (u32 c0) third pow poly ^^ c1 in
    let c0 := crc32_shift (u32 c0) third pow poly ^^ c2 in
    (c0, drop (3 * third) d)
  else (c0, d).

Definition crc32_hw (d : bytes) : Z :=
  let '(c0, d) := hw_triple d in
  let c0 := hw_words (length d / 8) d c0 in
  let d := drop (length d / 8 * 8) d in
  let '(c0, d) := if (4 <=? length d)%nat then (insn_u32 c0 (load_le (take 4 d)), drop 4 d) else (c0, d) in
  let '(c0, d) := if (2 <=? length d)%nat then (insn_u16 c0 (load_le (take 2 d)), drop 2 d) else (c0, d) in
  let c0 := match d with [] => c0 | b :: _ => insn_u8 c0 b end in
  u32 c0 ^^ 0xFFFFFFFF.

End Hardware.

Definition crc32c_hw `{CrcInsn} (d : bytes) : Z := crc32_hw crc32c_pow DYN_CRC32C_POLY d.
Definition crc32_ieee_hw `{CrcInsn} (d : bytes) : Z := crc32_hw crc32_ieee_pow DYN_CRC32_POLY d.

Definition DYN_CRC32C_HW_MIN : nat := 8.

(** The exported functions.  [hw_ok] is crc32c_hw_ok(): whether the CPU has
    the Castagnoli instruction; [ieee_hw] whether the build has the IEEE one. *)
Definition dyn_crc32c `{CrcInsn} (hw_ok : bool) (data : bytes) : Z :=
  if (DYN_CRC32C_HW_MIN <=? length data)%nat && hw_ok then crc32c_hw data
  else dyn_crc32_slice8 data crc32c_s8.

Definition dyn_crc32 `{CrcInsn} (ieee_hw : bool) (data : bytes) : Z :=
  if ieee_hw && (DYN_CRC32C_HW_MIN <=? length data)%nat then crc32_ieee_hw data
  else dyn_crc32_slice8 data crc32_ieee_s8.

Definition dyn_crc32_poly `{CrcInsn} (hw_ok : bool) (data : bytes) (poly : Z) : Z :=
  if poly =? DYN_CRC32_POLY then dyn_crc32_slice8 data crc32_ieee_s8
  else if poly =? DYN_CRC32C_POLY then dyn_crc32c hw_ok data
  else dyn_crc32_bitwise data poly.

(** ** Multiplication by x is linear and injective *)

Section Algebra.
Context (poly : Z) (Hpoly : fits 32 poly).
Local Abbreviation X := (crc_x poly).

Lemma crc_x_eq a : X a = (a >> 1) ^^ (if Z.testbit a 0 then poly else 0).
Proof.
  unfold crc_x. f_equal. change (a & 1) with (a & Z.ones 1). rewrite Z.land_ones by lia. change (2 ^ 1) with 2.
  rewrite Zmod_odd, <- Z.bit0_odd. destruct (Z.testbit a 0).
  - change (u32 (0 - 1)) with (Z.ones 32). rewrite Z.land_ones by lia. by apply wrap_id.
  - by rewrite Z.land_0_r.
Qed.

Lemma crc_x_lxor a b : X (a ^^ b) = X a ^^ X b.
Proof.
  rewrite !crc_x_eq, Z.shiftr_lxor, Z.lxor_spec. apply Z.bits_inj'. intros n Hn.
  rewrite !Z.lxor_spec. destruct (Z.testbit a 0), (Z.testbit b 0); cbn; rewrite ?Z.bits_0;
    repeat (destruct (Z.testbit _ _)); done.
Qed.

Lemma crc_x_0 : X 0 = 0.
Proof. by rewrite crc_x_eq. Qed.

Lemma crc_x_fits a : fits 32 a -> fits 32 (X a).
Proof.
  intros Ha. rewrite crc_x_eq. apply lxor_fits; [lia| |by case_if].
  apply shiftr_fits_same; [lia..|done].
Qed.

Local Abbreviation Xn := (Xn poly).

Lemma Xn_succ n a : Xn (S n) a = X (Xn n a).
Proof. reflexivity. Qed.

Lemma Xn_O a : Xn 0 a = a.
Proof. reflexivity. Qed.

Lemma Xn_1 a : Xn 1 a = X a.
Proof. reflexivity. Qed.

Lemma Xn_S n a : Xn (S n) a = Xn n (X a).
Proof. unfold Crc.Xn. by rewrite <- Nat.iter_succ_r. Qed.

Lemma Xn_add n m a : Xn (n + m) a = Xn n (Xn m a).
Proof. apply Nat.iter_add. Qed.

Lemma Xn_lxor n a b : Xn n (a ^^ b) = Xn n a ^^ Xn n b.
Proof. induction n as [|n IH]; [done|]. by rewrite !Xn_succ, IH, crc_x_lxor. Qed.

Lemma Xn_0 n : Xn n 0 = 0.
Proof. induction n as [|n IH]; [done|]. by rewrite Xn_succ, IH, crc_x_0. Qed.

Lemma Xn_fits n a : fits 32 a -> fits 32 (Xn n a).
Proof. intros. induction n; [done|]. by apply crc_x_fits. Qed.

(** Multiplying by x^n a value whose low [n] bits are zero is a shift. *)
Lemma Xn_shiftl n a : 0 <= a -> Xn n (a << Z.of_nat n) = a.
Proof.
  intros Ha. revert a Ha. induction n as [|n IH]; intros a Ha; [apply Z.shiftl_0_r|].
  rewrite Xn_S, crc_x_eq, Z.shiftl_spec_low, Z.lxor_0_r by lia.
  rewrite Z.shiftr_shiftl_l by lia. replace (Z.of_nat (S n) - 1) with (Z.of_nat n) by lia. by apply IH.
Qed.

Context (Htop : Z.testbit poly 31 = true).

Lemma crc_x_inj a b : fits 32 a -> fits 32 b -> X a = X b -> a = b.
Proof.
  rewrite !crc_x_eq. intros Ha Hb E.
  assert (Hbit : forall c, fits 32 c -> Z.testbit ((c >> 1) ^^ (if Z.testbit c 0 then poly else 0)) 31 = Z.testbit c 0).
  { intros c Hc. rewrite Z.lxor_spec, Z.shiftr_spec by lia.
    rewrite (testbit_fits 32 c (31 + 1)) by (done || lia).
    by destruct (Z.testbit c 0); rewrite ?Htop, ?Z.bits_0. }
  assert (E0 : Z.testbit a 0 = Z.testbit b 0) by (rewrite <- (Hbit a), <- (Hbit b), E; done).
  rewrite E0 in E. apply (f_equal (fun z => Z.lxor z (if Z.testbit b 0 then poly else 0))) in E.
  rewrite !Z.lxor_assoc, Z.lxor_nilpotent, !Z.lxor_0_r in E.
  rewrite (Z.div2_odd a), (Z.div2_odd b), <- !Z.bit0_odd, E0, !Z.div2_spec.
  by rewrite E.
Qed.

Lemma Xn_inj n a b : fits 32 a -> fits 32 b -> Xn n a = Xn n b -> a = b.
Proof.
  induction n as [|n IH]; [done|]. rewrite !Xn_succ. intros Ha Hb E%crc_x_inj; try by apply Xn_fits. by apply IH.
Qed.

End Algebra.

#[local] Opaque Xn.

(** ** The carry-less product modulo the polynomial *)

Lemma testbit_land_top b : fits 32 b -> negb ((b & 0x80000000) =? 0) = Z.testbit b 31.
Proof.
  intros Hb. destruct (Z.eqb_spec (b & 0x80000000) 0) as [E|E]; cbn [negb].
  - symmetry. apply (f_equal (fun z => Z.testbit z 31)) in E. rewrite Z.land_spec in E.
    by rewrite andb_true_r in E.
  - symmetry. apply not_false_is_true. intros E'. apply E. change 0x80000000 with (2 ^ 31).
    apply Z.bits_inj'. intros i Hi. rewrite Z.land_spec, Z.pow2_bits_eqb, Z.bits_0 by lia.
    destruct (Z.eqb_spec 31 i); [subst; by rewrite E'|by rewrite andb_false_r].
Qed.

Section Product.
Context (poly : Z) (Hpoly : fits 32 poly).
Local Abbreviation X := (crc_x poly).
Local Abbreviation Xn := (Xn poly).

(** The sum [gf_mul_loop] accumulates, most significant bit of [b] first. *)
Fixpoint gf_sum (n : nat) (a b : Z) : Z :=
  match n with
  | O => 0
  | S n => (if Z.testbit b 31 then a else 0) ^^ gf_sum n (X a) (u32 (b << 1))
  end.

Lemma gf_sum_S n a b :
  gf_sum (S n) a b = (if Z.testbit b 31 then a else 0) ^^ gf_sum n (X a) (u32 (b << 1)).
Proof. reflexivity. Qed.

Lemma gf_mul_loop_sum n r a b : fits 32 b -> gf_mul_loop poly n r a b = r ^^ gf_sum n a b.
Proof.
  revert r a b. induction n as [|n IH]; intros r a b Hb; cbn [gf_mul_loop gf_sum]; [by rewrite Z.lxor_0_r|].
  rewrite IH, testbit_land_top by (done || by apply wrap_fits).
  destruct (Z.testbit b 31); [by rewrite Z.lxor_assoc|by rewrite Z.lxor_0_l].
Qed.

Lemma gf_mul_sum a b : fits 32 b -> crc32_gf_mul a b poly = gf_sum 32 a b.
Proof. intros. unfold crc32_gf_mul. by rewrite gf_mul_loop_sum, Z.lxor_0_l. Qed.

Lemma lxor_4 a b c d : (a ^^ b) ^^ (c ^^ d) = (a ^^ c) ^^ (b ^^ d).
Proof. rewrite !Z.lxor_assoc. f_equal. rewrite <- !Z.lxor_assoc. f_equal. apply Z.lxor_comm. Qed.

Lemma gf_sum_lxor_l n a a' b : gf_sum n (a ^^ a') b = gf_sum n a b ^^ gf_sum n a' b.
Proof.
  revert a a' b. induction n as [|n IH]; intros; cbn [gf_sum]; [done|].
  rewrite crc_x_lxor, IH, lxor_4 by done. f_equal. by destruct (Z.testbit b 31).
Qed.

Lemma gf_sum_lxor_r n a b b' : gf_sum n a (b ^^ b') = gf_sum n a b ^^ gf_sum n a b'.
Proof.
  revert a b b'. induction n as [|n IH]; intros; cbn [gf_sum]; [done|].
  assert (E : u32 ((b ^^ b') << 1) = u32 (b << 1) ^^ u32 (b' << 1)).
  { rewrite !wrap_land, Z.shiftl_lxor by lia. apply Z.bits_inj'. intros i Hi. rewrite !Z.land_spec, !Z.lxor_spec, !Z.land_spec.
    by destruct (Z.testbit (Z.ones 32) i); rewrite ?andb_true_r, ?andb_false_r. }
  rewrite E, IH, lxor_4. f_equal. rewrite Z.lxor_spec.
  destruct (Z.testbit b 31), (Z.testbit b' 31); cbn; by rewrite ?Z.lxor_nilpotent, ?Z.lxor_0_r, ?Z.lxor_0_l.
Qed.

Lemma gf_sum_0_l n b : gf_sum n 0 b = 0.
Proof. revert b. induction n as [|n IH]; intros; cbn; [done|]. rewrite crc_x_0, IH by done. by case_if. Qed.

Lemma gf_sum_0_r n a : gf_sum n a 0 = 0.
Proof. revert a. induction n as [|n IH]; intros; cbn [gf_sum]; [done|]. change (u32 (0 << 1)) with 0. by rewrite IH. Qed.

Lemma gf_sum_x n a b : gf_sum n (X a) b = X (gf_sum n a b).
Proof.
  revert a b. induction n as [|n IH]; intros; cbn [gf_sum]; [by rewrite crc_x_0|].
  rewrite crc_x_lxor, IH by done. f_equal. destruct (Z.testbit b 31); [done|by rewrite crc_x_0].
Qed.

(** The last turn looks at the lowest bit not yet shifted out. *)
Lemma gf_sum_snoc n a b : (n <= 31)%nat ->
  gf_sum (S n) a b = gf_sum n a b ^^ (if Z.testbit b (31 - Z.of_nat n) then Xn n a else 0).
Proof.
  revert a b. induction n as [|n IH]; intros a b Hn; [cbn; by rewrite Z.lxor_0_r, Z.lxor_0_l|].
  change (gf_sum (S (S n)) a b) with ((if Z.testbit b 31 then a else 0) ^^ gf_sum (S n) (X a) (u32 (b << 1))).
  rewrite IH by lia. cbn [gf_sum]. rewrite Z.lxor_assoc. do 2 f_equal.
  rewrite testbit_wrap, Z.shiftl_spec, Xn_S by lia. rewrite (proj2 (Z.ltb_lt _ _)) by lia.
  by replace (31 - Z.of_nat n - 1) with (31 - Z.of_nat (S n)) by lia.
Qed.

Lemma gf_sum_ext n a b b' :
  (forall i, 31 - Z.of_nat n < i <= 31 -> 0 <= i -> Z.testbit b i = Z.testbit b' i) ->
  (n <= 32)%nat -> gf_sum n a b = gf_sum n a b'.
Proof.
  induction n as [|n IH]; intros H Hn; [done|].
  rewrite !gf_sum_snoc by lia. rewrite IH, (H (31 - Z.of_nat n)) by (lia || intros; apply H; lia). done.
Qed.

(** 0x80000000 is the unit. *)
Lemma gf_sum_one b : fits 32 b -> gf_sum 32 0x80000000 b = b.
Proof.
  intros Hb. enough (H : forall n, (1 <= n <= 32)%nat -> forall b, fits 32 b ->
    gf_sum n (2 ^ (Z.of_nat n - 1)) b = b >> (32 - Z.of_nat n)).
  { by rewrite (H 32%nat), Z.shiftr_0_r by (done || lia). }
  clear b Hb. induction n as [|n IH]; intros Hn b Hb; [lia|].
  destruct (decide (n = 0%nat)) as [->|Hn0].
  - cbn [gf_sum]. rewrite Z.lxor_0_r. change (32 - Z.of_nat 1) with 31. change (2 ^ (Z.of_nat 1 - 1)) with 1.
    apply Z.bits_inj'. intros i Hi. rewrite Z.shiftr_spec by lia.
    destruct (decide (i = 0)) as [->|Hi0].
    + by destruct (Z.testbit b 31) eqn:E; rewrite Z.add_0_l, E.
    + rewrite (testbit_fits 32 b (i + 31)) by (done || lia).
      destruct (Z.testbit b 31); [|apply Z.bits_0]. by rewrite (testbit_fits 1 1) by (done || lia).
  - cbn [gf_sum]. replace (Z.of_nat (S n) - 1) with (Z.of_nat n) by lia.
    replace (X (2 ^ Z.of_nat n)) with (2 ^ (Z.of_nat n - 1)).
    2: { rewrite crc_x_eq by done. rewrite Z.pow2_bits_eqb, (proj2 (Z.eqb_neq _ _)), Z.lxor_0_r by lia.
         rewrite Z.shiftr_div_pow2 by lia. change (2 ^ 1) with 2.
         replace (Z.of_nat n) with (Z.of_nat n - 1 + 1) at 2 by lia. rewrite Z.pow_add_r by lia.
         by rewrite Z.div_mul by lia. }
    rewrite IH by (lia || by apply wrap_fits).
    apply Z.bits_inj'. intros i Hi. autorewrite with testbit.
    destruct (Z.testbit b 31) eqn:E; rewrite ?Z.bits_0, ?Z.pow2_bits_eqb by lia.
    all: destruct (Z.eqb_spec (Z.of_nat n) i), (Z.ltb_spec (i + (32 - Z.of_nat n)) 32); try lia; cbn.
    all: try (replace (i + (32 - Z.of_nat (S n))) with 31 by lia; by rewrite E).
    all: try (by rewrite (testbit_fits 32 b (i + (32 - Z.of_nat (S n)))) by (done || lia)).
    all: replace (i + (32 - Z.of_nat n) - 1) with (i + (32 - Z.of_nat (S n))) by lia; by destruct (Z.testbit b _).
Qed.

Lemma gf_sum_one_r a : gf_sum 32 a 0x80000000 = a.
Proof.
  rewrite gf_sum_S. change (u32 (0x80000000 << 1)) with 0. by rewrite gf_sum_0_r, Z.lxor_0_r.
Qed.

(** Two linear maps that commute with x and agree on [a] agree on every
    combination of its multiples. *)
Lemma gf_sum_transfer (F G : Z -> Z) n a b :
  (forall x y, F (x ^^ y) = F x ^^ F y) -> (forall x y, G (x ^^ y) = G x ^^ G y) ->
  (forall x, F (X x) = X (F x)) -> (forall x, G (X x) = X (G x)) -> F 0 = 0 -> G 0 = 0 ->
  F a = G a -> F (gf_sum n a b) = G (gf_sum n a b).
Proof.
  intros HF HG CF CG F0 G0. revert a b. induction n as [|n IH]; intros a b E; cbn [gf_sum]; [congruence|].
  rewrite HF, HG, IH by (rewrite CF, CG; congruence). f_equal. case_if; congruence.
Qed.

Lemma Xn_x n a : Xn n (X a) = X (Xn n a).
Proof. by rewrite <- Xn_S. Qed.

(** The polynomial is x^32. *)
Lemma gf_sum_poly a : fits 32 a -> gf_sum 32 a poly = Xn 32 a.
Proof.
  intros Ha. rewrite <- (gf_sum_one a) by done.
  apply (gf_sum_transfer (fun a => gf_sum 32 a poly) (Xn 32)).
  - intros. apply gf_sum_lxor_l.
  - intros. by apply Xn_lxor.
  - intros. apply gf_sum_x.
  - intros. apply Xn_x.
  - apply gf_sum_0_l.
  - by apply Xn_0.
  - rewrite gf_sum_one by done. change 32%nat with (1 + 31)%nat. rewrite Xn_add.
    change 0x80000000 with (1 << Z.of_nat 31). rewrite Xn_shiftl by done.
    rewrite Xn_1, crc_x_eq by done. symmetry. apply Z.lxor_0_l.
Qed.

Lemma gf_sum_x_r a c : fits 32 a -> fits 32 c -> gf_sum 32 a (X c) = X (gf_sum 32 a c).
Proof.
  intros Ha Hc. rewrite <- gf_sum_x, crc_x_eq, gf_sum_lxor_r by done.
  rewrite (gf_sum_snoc 31 (X a) c) by lia. change (31 - Z.of_nat 31) with 0. f_equal.
  - change (gf_sum 32 a (c >> 1)) with ((if Z.testbit (c >> 1) 31 then a else 0) ^^ gf_sum 31 (X a) (u32 ((c >> 1) << 1))).
    rewrite Z.shiftr_spec, (testbit_fits 32 c) by (done || lia). rewrite Z.lxor_0_l.
    apply gf_sum_ext; [|lia]. intros i Hi _. autorewrite with testbit. cbn. f_equal. lia.
  - destruct (Z.testbit c 0); [|apply gf_sum_0_r]. rewrite gf_sum_poly by done. by rewrite <- Xn_S.
Qed.

Lemma gf_sum_fits n a b : fits 32 a -> fits 32 (gf_sum n a b).
Proof.
  revert a b. induction n as [|n IH]; intros a b Ha; cbn [gf_sum]; [done|].
  apply lxor_fits; [lia|by case_if|]. by apply IH, crc_x_fits.
Qed.

(** Associativity: multiplying by a product is multiplying twice. *)
Lemma gf_sum_assoc n a r p : fits 32 a -> fits 32 r ->
  gf_sum 32 a (gf_sum n r p) = gf_sum n (gf_sum 32 a r) p.
Proof.
  intros Ha. revert r p. induction n as [|n IH]; intros r p Hr; [apply gf_sum_0_r|].
  rewrite !(gf_sum_S n), gf_sum_lxor_r, IH, gf_sum_x_r by (done || by apply crc_x_fits). f_equal.
  case_if; [done|apply gf_sum_0_r].
Qed.

End Product.

(** ** [crc32_shift] *)

(** Entry [i] of the power table is x^(2^i): the first is x, each is the
    square of the one before. *)
Fixpoint chained (sq : Z -> Z) (l : list Z) : bool :=
  match l with
  | p :: ((q :: _) as t) => (sq p =? q) && chained sq t
  | _ => true
  end.

Definition pow_table_ok (poly : Z) (pow : list Z) : bool :=
  (hd 0 pow =? 0x40000000) && chained (fun p => crc32_gf_mul p p poly) pow && (length pow =? 64)%nat
  && forallb (fun p => (0 <=? p) && (p <? 2 ^ 32)) pow.

Lemma chained_nth sq l i : chained sq l = true -> (S i < length l)%nat ->
  nth (S i) l 0 = sq (nth i l 0).
Proof.
  revert i. induction l as [|p [|q t] IH]; intros i Hl Hi; cbn [length] in Hi; [lia..|].
  cbn [chained] in Hl. apply andb_true_iff in Hl as [E%Z.eqb_eq Hl].
  destruct i as [|i]; [by symmetry|]. apply (IH i Hl). cbn [length]. lia.
Qed.

Section Shift.
Context (poly : Z) (pow : list Z) (Hpoly : fits 32 poly) (Hpow : pow_table_ok poly pow = true).
Local Abbreviation Xn := (Xn poly).

Lemma pow_fits i : fits 32 (nth i pow 0).
Proof.
  unfold pow_table_ok in Hpow. bprop.
  destruct (nth_in_or_default i pow 0) as [Hi| ->]; [|done].
  match goal with H : forallb _ _ = true |- _ => rewrite forallb_forall in H; specialize (H _ Hi) end.
  bprop. done.
Qed.

(** Multiplication by entry [i] is 2^i multiplications by x. *)
Lemma pow_nth i a : (i < 64)%nat -> fits 32 a ->
  gf_sum poly 32 a (nth i pow 0) = Xn (Z.to_nat (2 ^ Z.of_nat i)) a.
Proof.
  intros Hi. revert a. pose proof Hpow as Hp. unfold pow_table_ok in Hp.
  apply andb_true_iff in Hp as [[[H0%Z.eqb_eq Hsq]%andb_true_iff Hl%Nat.eqb_eq]%andb_true_iff _].
  induction i as [|i IH]; intros a Ha.
  - assert (E : nth 0 pow 0 = crc_x poly 0x80000000).
    { rewrite crc_x_eq by exact Hpoly. change (nth 0 pow 0 = 0x40000000). by destruct pow. }
    rewrite E, gf_sum_x_r by (exact Hpoly || exact Ha || by vm_compute).
    by rewrite gf_sum_one_r, <- Xn_1.
  - rewrite (chained_nth _ _ _ Hsq) by lia. rewrite gf_mul_sum by apply pow_fits.
    rewrite gf_sum_assoc by (exact Ha || exact Hpoly || apply pow_fits).
    rewrite !IH by (lia || exact Ha || apply gf_sum_fits; assumption). rewrite <- Xn_add. f_equal.
    rewrite Nat2Z.inj_succ, Z.pow_succ_r by lia. lia.
Qed.

(** The loop multiplies [r] by x^(2^i * k). *)
Lemma shift_loop_spec fuel r k i a :
  fits 32 a -> fits 32 r -> 0 <= k < 2 ^ Z.of_nat fuel -> (i + fuel <= 64)%nat ->
  fits 32 (crc32_shift_loop fuel pow poly r k i) /\
  gf_sum poly 32 a (crc32_shift_loop fuel pow poly r k i)
  = Xn (Z.to_nat (2 ^ Z.of_nat i * k)) (gf_sum poly 32 a r).
Proof.
  intros Ha. revert r k i. induction fuel as [|fuel IH]; intros r k i Hr Hk Hi; cbn [crc32_shift_loop].
  { split; [exact Hr|]. replace k with 0 by (change (2 ^ Z.of_nat 0) with 1 in Hk; lia).
    by rewrite Z.mul_0_r. }
  destruct (Z.eqb_spec k 0) as [->|Hk0]; [split; [exact Hr|by rewrite Z.mul_0_r]|].
  rewrite Nat2Z.inj_succ, Z.pow_succ_r in Hk by lia.
  assert (Hk2 : 0 <= k >> 1 < 2 ^ Z.of_nat fuel).
  { rewrite Z.shiftr_div_pow2 by lia. change (2 ^ 1) with 2. zdm. }
  assert (Hd : k = 2 * (k >> 1) + (if negb ((k & 1) =? 0) then 1 else 0)).
  { change 1 with (Z.ones 1) at 2. rewrite Z.shiftr_div_pow2, Z.land_ones by lia. change (2 ^ 1) with 2.
    destruct (Z.eqb_spec (k `mod` 2) 0); cbn [negb]; zdm. }
  assert (Hp : Z.to_nat (2 ^ Z.of_nat i * k) =
    (Z.to_nat (2 ^ Z.of_nat (S i) * (k >> 1)) + (if negb ((k & 1) =? 0)%Z then Z.to_nat (2 ^ Z.of_nat i) else 0))%nat).
  { rewrite Hd at 1. rewrite Nat2Z.inj_succ, Z.pow_succ_r by lia. destruct (negb _); nia. }
  rewrite Hp, Xn_add. destruct (negb ((k & 1) =? 0)).
  - rewrite gf_mul_sum by apply pow_fits.
    destruct (IH (gf_sum poly 32 r (nth i pow 0)) (k >> 1) (S i)) as [Hf ->];
      [by apply gf_sum_fits|done|lia|]. split; [exact Hf|].
    f_equal. rewrite gf_sum_assoc by (exact Hpoly || exact Ha || exact Hr).
    apply pow_nth; [lia|by apply gf_sum_fits].
  - destruct (IH r (k >> 1) (S i)) as [Hf ->]; [done|done|lia|]. by split.
Qed.

Lemma crc32_shift_spec crc n : fits 32 crc -> Z.of_nat n * 8 < 2 ^ 64 ->
  crc32_shift crc n pow poly = Xn (8 * n) crc.
Proof.
  intros Hc Hn. unfold crc32_shift. rewrite wrap_id by (unfold fits; lia).
  destruct (shift_loop_spec 64 0x80000000 (Z.of_nat n * 8) 0 crc) as [Hf E]; [done|done|lia|lia|].
  rewrite gf_mul_sum by exact Hf. rewrite E, gf_sum_one_r. f_equal. lia.
Qed.

End Shift.

(** ** The tables hold what they should *)

Lemma crc32c_pow_ok : pow_table_ok DYN_CRC32C_POLY crc32c_pow = true.
Proof. by vm_compute. Qed.
Lemma crc32_ieee_pow_ok : pow_table_ok DYN_CRC32_POLY crc32_ieee_pow = true.
Proof. by vm_compute. Qed.

(** [crc_x] as a checker evaluates it fast. *)
Definition crc_x_fast (poly a : Z) : Z := if Z.odd a then Z.lxor (Z.div2 a) poly else Z.div2 a.

Lemma crc_x_fast_ok poly a : fits 32 poly -> crc_x_fast poly a = crc_x poly a.
Proof.
  intros Hp. rewrite crc_x_eq by done. unfold crc_x_fast. rewrite <- Z.bit0_odd, Z.div2_spec.
  case_if; [done|by rewrite Z.lxor_0_r].
Qed.

Lemma iter_crc_x_fast poly n a : fits 32 poly -> Nat.iter n (crc_x_fast poly) a = Xn poly n a.
Proof.
  intros Hp. induction n as [|n IH]; [done|]. rewrite Xn_succ, <- IH. by apply crc_x_fast_ok.
Qed.

(** Table [k] maps a byte to eight times (k+1) multiplications by x. *)
Fixpoint zlist_eqb (l m : list Z) : bool :=
  match l, m with
  | [], [] => true
  | x :: l, y :: m => (x =? y) && zlist_eqb l m
  | _, _ => false
  end.

Lemma zlist_eqb_eq l m : zlist_eqb l m = true -> l = m.
Proof.
  revert m. induction l as [|x l IH]; intros [|y m]; try done. cbn [zlist_eqb]. intros H. bprop.
  f_equal; auto.
Qed.

Fixpoint slice_tables_ok (poly : Z) (prev : list Z) (t : list (list Z)) : bool :=
  match t with
  | [] => true
  | r :: t => zlist_eqb r (Nat.iter 8 (crc_x_fast poly) <$> prev) && slice_tables_ok poly r t
  end.

Lemma crc32_ieee_s8_ok : slice_tables_ok DYN_CRC32_POLY (seqZ 0 256) crc32_ieee_s8 = true.
Proof. by vm_compute. Qed.
Lemma crc32c_s8_ok : slice_tables_ok DYN_CRC32C_POLY (seqZ 0 256) crc32c_s8 = true.
Proof. by vm_compute. Qed.

Lemma slice_tables_nth poly n prev t k b :
  fits 32 poly ->
  (forall b, (b < 256)%nat -> prev !! b = Some (Xn poly (8 * n) (Z.of_nat b))) ->
  slice_tables_ok poly prev t = true -> (k < length t)%nat -> (b < 256)%nat ->
  nth k t [] !! b = Some (Xn poly (8 * (n + S k)) (Z.of_nat b)).
Proof.
  intros Hpoly. revert n prev k. induction t as [|r t IH]; intros n prev k Hp Ht Hk Hb; cbn [length] in Hk; [lia|].
  cbn [slice_tables_ok] in Ht. apply andb_true_iff in Ht as [Hr%zlist_eqb_eq Ht].
  assert (Hr' : forall b, (b < 256)%nat -> r !! b = Some (Xn poly (8 * S n) (Z.of_nat b))).
  { intros c Hc. rewrite Hr, list_lookup_fmap, Hp by done. cbn [fmap option_fmap option_map]. f_equal.
    replace (8 * S n)%nat with (8 + 8 * n)%nat by lia. rewrite Xn_add.
    by apply iter_crc_x_fast. }
  destruct k as [|k]; cbn [nth].
  - rewrite Hr' by done. do 2 f_equal. lia.
  - rewrite (IH (S n) r k) by (done || lia). do 2 f_equal. lia.
Qed.

(** A lookup of the eight tables, through the mask. *)
Lemma crc_at_spec poly t k i :
  fits 32 poly -> slice_tables_ok poly (seqZ 0 256) t = true -> (k < length t)%nat -> 0 <= i ->
  crc_at t k i = Xn poly (8 * S k) (i & 0xFF).
Proof.
  intros Hpoly Ht Hk Hi. unfold crc_at.
  assert (Hb : 0 <= i & 255 < 256).
  { change 255 with (Z.ones 8). rewrite Z.land_ones by lia. by apply Z.mod_pos_bound. }
  pose proof (slice_tables_nth poly 0 (seqZ 0 256) t k (Z.to_nat (i & 255))) as E.
  rewrite <- (Z2Nat.id (i & 255)) at 2 by lia.
  apply nth_lookup_Some, E; [done| |done|done|lia]. intros b Hlt.
  rewrite Nat.mul_0_r. apply lookup_seqZ. rewrite Xn_O. lia.
Qed.

Section Slice8.
Context (poly : Z) (Hpoly : fits 32 poly).
Local Abbreviation Xn := (Xn poly).

Lemma crc_byte_Xn crc d : crc_byte poly crc d = Xn 8 (crc ^^ d).
Proof. reflexivity. Qed.

(** A word splits into its low byte and the rest. *)
Lemma byte_split x : 0 <= x -> x = (x & 0xFF) ^^ ((x >> 8) << 8).
Proof.
  intros Hx. apply Z.bits_inj'. intros i Hi. change 0xFF with (Z.ones 8).
  rewrite Z.lxor_spec, Z.land_spec, testbit_ones, Z.shiftl_spec by lia.
  destruct (Z.ltb_spec i 8).
  - rewrite (Z.testbit_neg_r _ (i - 8)) by lia. by rewrite andb_true_r, xorb_false_r.
  - rewrite Z.shiftr_spec by lia. rewrite andb_false_r, xorb_false_l. f_equal. lia.
Qed.

(** Peels the low byte off a multiple of x. *)
Lemma Xn_peel m n x : m = (8 + n)%nat -> 0 <= x -> Xn m x = Xn m (x & 0xFF) ^^ Xn n (x >> 8).
Proof.
  intros -> Hx. rewrite (byte_split x) at 1 by done. rewrite Xn_lxor by done. f_equal.
  replace (8 + n)%nat with (n + 8)%nat by lia. rewrite Xn_add. f_equal.
  apply (Xn_shiftl poly Hpoly 8). by apply Z.shiftr_nonneg.
Qed.

(** Four multiplications by x^8 of a word, as table lookups. *)
Lemma Xn_word n x : fits 32 x ->
  Xn (32 + n) x = Xn (32 + n) (x & 0xFF) ^^ Xn (24 + n) ((x >> 8) & 0xFF)
                  ^^ Xn (16 + n) ((x >> 16) & 0xFF) ^^ Xn (8 + n) ((x >> 24) & 0xFF).
Proof.
  intros [Hx Hx']. assert (forall k, 0 <= x >> k) by (intros; by apply Z.shiftr_nonneg).
  rewrite (Xn_peel (32 + n) (24 + n) x) by (done || lia).
  rewrite (Xn_peel (24 + n) (16 + n) (x >> 8)) by (done || lia). rewrite (Z.shiftr_shiftr x 8 8) by lia.
  rewrite (Xn_peel (16 + n) (8 + n) (x >> (8 + 8))) by (done || lia). rewrite (Z.shiftr_shiftr x (8 + 8) 8) by lia.
  rewrite (Xn_peel (8 + n) n (x >> (8 + 8 + 8))) by (done || lia). rewrite (Z.shiftr_shiftr x (8 + 8 + 8) 8) by lia.
  replace (x >> (8 + 8 + 8 + 8)) with 0; [by rewrite Xn_0, Z.lxor_0_r, !Z.lxor_assoc|].
  symmetry. rewrite Z.shiftr_div_pow2 by lia. by apply Z.div_small.
Qed.

Lemma load_le_nonneg l : is_bytes l -> 0 <= load_le l.
Proof.
  induction 1 as [|b l [Hb _] _ IH]; cbn [load_le]; [done|]. apply Z.lor_nonneg. split; [done|].
  by apply Z.shiftl_nonneg.
Qed.

Lemma load_le_fits l : is_bytes l -> fits (8 * Z.of_nat (length l)) (load_le l).
Proof.
  induction 1 as [|b l Hb _ IH]; cbn [load_le length]; [done|]. apply lor_fits; [lia| |].
  - by apply (fits_weaken 8); [lia|].
  - unfold fits in *. rewrite Z.shiftl_mul_pow2 by lia.
    replace (8 * Z.of_nat (S (length l))) with (8 * Z.of_nat (length l) + 8) by lia.
    rewrite Z.pow_add_r by lia. lia.
Qed.

(** The first byte of a word and the rest, after a multiplication by x^8. *)
Lemma Xn_load_cons b l : fits 8 b -> is_bytes l -> Xn 8 (load_le (b :: l)) = Xn 8 b ^^ load_le l.
Proof.
  intros Hb Hl. cbn [load_le]. rewrite <- Z.lxor_lor by (rewrite Z.land_comm; by apply land_shift_disjoint).
  rewrite Xn_lxor by done. f_equal. apply (Xn_shiftl poly Hpoly 8). by apply load_le_nonneg.
Qed.

(** Folding in the bytes of a word is xoring the word and multiplying. *)
Lemma crc_bytes_load crc l : is_bytes l ->
  fold_left (crc_byte poly) l crc = Xn (8 * length l) (crc ^^ load_le l).
Proof.
  intros Hl. revert crc. induction Hl as [|b l Hb Hl IH]; intros crc.
  { cbn [fold_left load_le length]. by rewrite Z.lxor_0_r, Xn_O. }
  rewrite fold_left_cons, IH, crc_byte_Xn. replace (8 * length (b :: l))%nat with (8 * length l + 8)%nat by (cbn [length]; lia).
  rewrite Xn_add. f_equal. rewrite !(Xn_lxor poly Hpoly 8), Xn_load_cons by assumption. apply Z.lxor_assoc.
Qed.

Lemma load_le32_load b0 b1 b2 b3 : is_bytes [b0; b1; b2; b3] -> load_le32 b0 b1 b2 b3 = load_le [b0; b1; b2; b3].
Proof.
  intros [H0 [H1 [H2 [H3 _]%Forall_cons_iff]%Forall_cons_iff]%Forall_cons_iff]%Forall_cons_iff.
  unfold load_le32. cbn [load_le]. unfold fits in *.
  rewrite !wrap_id by (unfold fits; rewrite Z.shiftl_mul_pow2 by lia; lia).
  rewrite !Z.shiftl_lor, !Z.shiftl_shiftl, Z.shiftl_0_l, Z.lor_0_r by lia. by rewrite !Z.lor_assoc.
Qed.

Context (t : list (list Z)).
Context (Ht : slice_tables_ok poly (seqZ 0 256) t = true) (Hlen : length t = 8%nat).

Lemma slice8_tail_step_ok crc d : fits 32 crc -> fits 8 d -> slice8_tail_step t crc d = crc_byte poly crc d.
Proof.
  intros Hc Hd. assert (0 <= crc ^^ d) by (apply Z.lxor_nonneg; unfold fits in *; lia).
  unfold slice8_tail_step. rewrite crc_byte_Xn, (crc_at_spec poly) by (assumption || lia).
  rewrite (Xn_peel 8 0 (crc ^^ d)) by done.
  f_equal. change (crc >> 8 = (crc ^^ d) >> 8). rewrite Z.shiftr_lxor.
  replace (d >> 8) with 0; [by rewrite Z.lxor_0_r|].
  rewrite Z.shiftr_div_pow2 by lia. symmetry. by apply Z.div_small.
Qed.

Lemma slice8_step_ok crc b0 b1 b2 b3 b4 b5 b6 b7 :
  fits 32 crc -> is_bytes [b0; b1; b2; b3] -> is_bytes [b4; b5; b6; b7] ->
  slice8_step t crc (load_le32 b0 b1 b2 b3) (load_le32 b4 b5 b6 b7)
  = fold_left (crc_byte poly) [b0; b1; b2; b3; b4; b5; b6; b7] crc.
Proof.
  intros Hc Hl Hh. rewrite !load_le32_load by done.
  change [b0; b1; b2; b3; b4; b5; b6; b7] with ([b0; b1; b2; b3] ++ [b4; b5; b6; b7]).
  rewrite fold_left_app, !crc_bytes_load by done. change (8 * length [b0; b1; b2; b3])%nat with 32%nat. change (8 * length [b4; b5; b6; b7])%nat with 32%nat.
  pose proof (load_le_fits _ Hl) as Fl. pose proof (load_le_fits _ Hh) as Fh. cbn [length] in Fl, Fh.
  set (lo := load_le [b0; b1; b2; b3]) in *. set (hi := load_le [b4; b5; b6; b7]) in *.
  assert (Fx : fits 32 (lo ^^ crc)) by (apply lxor_fits; [lia|done..]).
  rewrite Xn_lxor, <- Xn_add by done. rewrite (Z.lxor_comm crc). 
  change (Xn 32 hi) with (Xn (32 + 0) hi). rewrite (Xn_word 32), (Xn_word 0 hi) by done. unfold slice8_step.
  assert (forall k, 0 <= (lo ^^ crc) >> k) by (intros; apply Z.shiftr_nonneg, Fx).
  assert (forall k, 0 <= hi >> k) by (intros; apply Z.shiftr_nonneg, Fh).
  rewrite !(crc_at_spec poly) by (assumption || rewrite ?Hlen; lia || apply Fx || apply Fh || auto).
  by rewrite !Z.lxor_assoc.
Qed.

End Slice8.

(** ** Sequences of bytes *)

Section Folds.
Context (poly : Z) (Hpoly : fits 32 poly).
Local Abbreviation Xn := (Xn poly).
Local Abbreviation crc_fold := (fold_left (crc_byte poly)).

Lemma crc_byte_fits c d : fits 32 c -> fits 8 d -> fits 32 (crc_byte poly c d).
Proof.
  intros. apply Xn_fits; [done|]. apply lxor_fits; [lia|done|]. by apply (fits_weaken 8); [lia|].
Qed.

Lemma crc_fold_fits l c : is_bytes l -> fits 32 c -> fits 32 (crc_fold l c).
Proof.
  intros Hl. revert c. induction Hl as [|b l Hb _ IH]; intros c Hc; [done|].
  rewrite fold_left_cons. by apply IH, crc_byte_fits.
Qed.

(** The checksum is affine in its start value. *)
Lemma crc_fold_split l c : is_bytes l -> crc_fold l c = Xn (8 * length l) c ^^ crc_fold l 0.
Proof.
  intros Hl. rewrite !crc_bytes_load by done. by rewrite Xn_lxor, Z.lxor_0_l.
Qed.

Lemma slice8_loop_ok t data crc :
  slice_tables_ok poly (seqZ 0 256) t = true -> length t = 8%nat ->
  is_bytes data -> fits 32 crc -> slice8_loop t data crc = crc_fold data crc.
Proof.
  intros Ht Hlen. revert crc.
  assert (Htail : forall l crc, is_bytes l -> fits 32 crc -> fold_left (slice8_tail_step t) l crc = crc_fold l crc).
  { intros l crc Hl. revert crc. induction Hl as [|b l Hb _ IH]; intros crc Hc; [done|].
    rewrite !fold_left_cons, (slice8_tail_step_ok poly) by done. by apply IH, crc_byte_fits. }
  induction data as [data IH] using (induction_ltof1 _ (@length Z)). unfold ltof in IH. intros crc Hd Hc.
  destruct data as [|b0 [|b1 [|b2 [|b3 [|b4 [|b5 [|b6 [|b7 rest]]]]]]]];
    cbn [slice8_loop]; try by apply Htail.
  change (b0 :: b1 :: b2 :: b3 :: b4 :: b5 :: b6 :: b7 :: rest)
    with ([b0; b1; b2; b3; b4; b5; b6; b7] ++ rest) in *.
  apply Forall_app in Hd as [H8 Hr]. rewrite fold_left_app.
  pose proof H8 as H8'. change [b0; b1; b2; b3; b4; b5; b6; b7] with ([b0; b1; b2; b3] ++ [b4; b5; b6; b7]) in H8'.
  apply Forall_app in H8' as [Hl Hh].
  rewrite (slice8_step_ok poly) by done. apply IH; [rewrite length_app; cbn [length]; lia|done|].
  by apply crc_fold_fits.
Qed.

(** The instruction folds the bytes of its operand, least significant first,
    into the checksum: its documented behaviour. *)
Class CrcInsnLaws `{CrcInsn} : Prop := {
  insn_u64_law c l : is_bytes l -> length l = 8%nat -> fits 32 c -> insn_u64 c (load_le l) = crc_fold l c;
  insn_u32_law c l : is_bytes l -> length l = 4%nat -> fits 32 c -> insn_u32 c (load_le l) = crc_fold l c;
  insn_u16_law c l : is_bytes l -> length l = 2%nat -> fits 32 c -> insn_u16 c (load_le l) = crc_fold l c;
  insn_u8_law c b : fits 8 b -> fits 32 c -> insn_u8 c b = crc_byte poly c b
}.

(** A software instruction that satisfies them. *)
Definition soft_insn : CrcInsn := {|
  insn_u64 c v := Xn 64 (c ^^ v);
  insn_u32 c v := Xn 32 (c ^^ v);
  insn_u16 c v := Xn 16 (c ^^ v);
  insn_u8 c v := Xn 8 (c ^^ v)
|}.

Lemma soft_insn_laws : @CrcInsnLaws soft_insn.
Proof.
  split; [| | |reflexivity]; intros c l Hl Hlen _; rewrite crc_bytes_load, Hlen by done; reflexivity.
Qed.

Context `{CrcInsnLaws} (pow : list Z) (Hpow : pow_table_ok poly pow = true).

Lemma hw_words_ok n d c : is_bytes d -> fits 32 c -> (8 * n <= length d)%nat ->
  hw_words n d c = crc_fold (take (8 * n) d) c.
Proof.
  revert d c. induction n as [|n IH]; intros d c Hd Hc Hn; [by rewrite Nat.mul_0_r|].
  cbn [hw_words]. pose proof (Forall_take _ 8 _ Hd). pose proof (Forall_drop _ 8 _ Hd).
  rewrite insn_u64_law by (done || rewrite length_take; lia).
  rewrite IH by (done || (rewrite length_drop; lia) || by apply crc_fold_fits).
  rewrite <- fold_left_app, take_take_drop. do 2 f_equal. lia.
Qed.

Lemma hw_words3_ok n p0 p1 p2 c0 c1 c2 :
  hw_words3 n p0 p1 p2 c0 c1 c2 = (hw_words n p0 c0, hw_words n p1 c1, hw_words n p2 c2).
Proof. revert p0 p1 p2 c0 c1 c2. induction n as [|n IH]; intros; cbn; [done|]. apply IH. Qed.

(** The recombination of two streams. *)
Lemma shift_combine n s s' c : length s' = n -> is_bytes s -> is_bytes s' -> fits 32 c ->
  Z.of_nat n < 2 ^ 61 -> crc32_shift (u32 (crc_fold s c)) n pow poly ^^ crc_fold s' 0 = crc_fold (s ++ s') c.
Proof.
  intros <- Hs Hs' Hc Hn. pose proof (crc_fold_fits s c Hs Hc) as Hf. rewrite wrap_id by exact Hf.
  rewrite (crc32_shift_spec poly pow Hpoly Hpow) by (exact Hf || lia).
  rewrite fold_left_app. symmetry. by apply crc_fold_split.
Qed.

Lemma hw_triple_ok d : is_bytes d -> Z.of_nat (length d) < 2 ^ 61 ->
  fits 32 (hw_triple pow poly d).1 /\ is_bytes (hw_triple pow poly d).2 /\
  crc_fold (hw_triple pow poly d).2 (hw_triple pow poly d).1 = crc_fold d 0xFFFFFFFF.
Proof.
  intros Hd Hlen. unfold hw_triple. destruct (3 * 64 <=? length d)%nat; [|done].
  set (k := (length d / 3 / 8)%nat). set (third := (k * 8)%nat).
  assert (H3 : (3 * third <= length d)%nat).
  { pose proof (Nat.Div0.mul_div_le (length d / 3) 8). pose proof (Nat.Div0.mul_div_le (length d) 3). subst third k. lia. }
  rewrite hw_words3_ok. assert (Ek : (third / 8)%nat = k) by (apply Nat.div_mul; lia). rewrite Ek.
  pose proof (Forall_drop _ third _ Hd) as Hd1. pose proof (Forall_drop _ (2 * third) _ Hd) as Hd2.
  rewrite !hw_words_ok by (done || rewrite ?length_drop; lia).
  replace (8 * k)%nat with third by (subst third; lia).
  set (s0 := take third d). set (s1 := take third (drop third d)). set (s2 := take third (drop (2 * third) d)).
  assert (is_bytes s0) by by apply Forall_take. assert (is_bytes s1) by by apply Forall_take.
  assert (is_bytes s2) by by apply Forall_take. assert (is_bytes (s0 ++ s1)) by by apply Forall_app.
  assert (L1 : length s1 = third) by (subst s1; rewrite length_take, length_drop; lia).
  assert (L2 : length s2 = third) by (subst s2; rewrite length_take, length_drop; lia).
  rewrite (shift_combine third s0 s1), (shift_combine third (s0 ++ s1) s2) by (done || lia). cbn [fst snd].
  split; [apply crc_fold_fits; [by apply Forall_app|done]|]. split; [by apply Forall_drop|].
  rewrite <- fold_left_app. f_equal. subst s0 s1 s2. rewrite !take_take_drop.
  replace (third + third)%nat with (2 * third)%nat by lia. rewrite take_take_drop.
  replace (2 * third + third)%nat with (3 * third)%nat by lia. apply take_drop.
Qed.

Lemma crc_fold_take_drop n d c : crc_fold (drop n d) (crc_fold (take n d) c) = crc_fold d c.
Proof. by rewrite <- fold_left_app, take_drop. Qed.

Lemma crc32_hw_ok d : is_bytes d -> Z.of_nat (length d) < 2 ^ 61 ->
  crc32_hw pow poly d = dyn_crc32_bitwise d poly.
Proof.
  intros Hd Hlen. unfold crc32_hw, dyn_crc32_bitwise.
  destruct (hw_triple_ok d Hd Hlen) as (F0 & B0 & <-). destruct (hw_triple pow poly d) as [c0 e].
  cbn [fst snd] in *. clear d Hd Hlen.
  rewrite hw_words_ok by (done || apply Nat.Div0.mul_div_le). rewrite (Nat.mul_comm _ 8).
  rewrite <- (crc_fold_take_drop (8 * (length e / 8)) e).
  set (c1 := crc_fold (take _ e) c0). set (d1 := drop _ e).
  assert (F1 : fits 32 c1) by by apply crc_fold_fits; [apply Forall_take|].
  assert (B1 : is_bytes d1) by by apply Forall_drop.
  assert (L1 : (length d1 < 8)%nat).
  { subst d1. rewrite length_drop. pose proof (Nat.div_mod_eq (length e) 8).
    pose proof (Nat.mod_upper_bound (length e) 8). lia. }
  clearbody c1 d1. clear c0 e F0 B0.
  set (p1 := if (4 <=? length d1)%nat then _ else _).
  assert (H1 : fits 32 p1.1 /\ is_bytes p1.2 /\ (length p1.2 < 4)%nat /\ crc_fold p1.2 p1.1 = crc_fold d1 c1).
  { subst p1. destruct (Nat.leb_spec 4 (length d1)); [|done]. cbn [fst snd].
    pose proof (Forall_take _ 4 _ B1). pose proof (Forall_drop _ 4 _ B1).
    rewrite insn_u32_law, crc_fold_take_drop by (done || rewrite length_take; lia).
    repeat split; [by apply crc_fold_fits..|done|rewrite length_drop; lia]. }
  destruct p1 as [c2 d2]. cbn [fst snd] in H1. destruct H1 as (F2 & B2 & L2 & <-).
  clear c1 d1 F1 B1 L1. set (p2 := if (2 <=? length d2)%nat then _ else _).
  assert (H2 : fits 32 p2.1 /\ is_bytes p2.2 /\ (length p2.2 < 2)%nat /\ crc_fold p2.2 p2.1 = crc_fold d2 c2).
  { subst p2. destruct (Nat.leb_spec 2 (length d2)); [|done]. cbn [fst snd].
    pose proof (Forall_take _ 2 _ B2). pose proof (Forall_drop _ 2 _ B2).
    rewrite insn_u16_law, crc_fold_take_drop by (done || rewrite length_take; lia).
    repeat split; [by apply crc_fold_fits..|done|rewrite length_drop; lia]. }
  destruct p2 as [c3 d3]. cbn [fst snd] in H2. destruct H2 as (F3 & B3 & L3 & <-).
  f_equal. destruct d3 as [|b [|? ?]]; cbn [length] in L3; [by apply wrap_id| |lia].
  apply Forall_cons_iff in B3 as [Hb _]. rewrite insn_u8_law by done.
  by apply wrap_id, crc_byte_fits.
Qed.

End Folds.

Lemma slice8_bitwise t data poly : fits 32 poly ->
  slice_tables_ok poly (seqZ 0 256) t = true -> length t = 8%nat ->
  is_bytes data -> dyn_crc32_slice8 data t = dyn_crc32_bitwise data poly.
Proof.
  intros Hp Ht Hl Hd. unfold dyn_crc32_slice8, dyn_crc32_bitwise. f_equal.
  by apply (slice8_loop_ok poly Hp t).
Qed.

Lemma crc32_ieee_slice8 data : is_bytes data ->
  dyn_crc32_slice8 data crc32_ieee_s8 = dyn_crc32_bitwise data DYN_CRC32_POLY.
Proof. apply slice8_bitwise; [by vm_compute|apply crc32_ieee_s8_ok|reflexivity]. Qed.

Lemma crc32c_slice8 data : is_bytes data ->
  dyn_crc32_slice8 data crc32c_s8 = dyn_crc32_bitwise data DYN_CRC32C_POLY.
Proof. apply slice8_bitwise; [by vm_compute|apply crc32c_s8_ok|reflexivity]. Qed.

(** Two inputs that differ only within four bytes: their checksums stay
    different through any common tail. *)
Lemma crc_fold_inj poly l c c' : fits 32 poly -> Z.testbit poly 31 = true -> is_bytes l ->
  fits 32 c -> fits 32 c' ->
  fold_left (crc_byte poly) l c = fold_left (crc_byte poly) l c' -> c = c'.
Proof.
  intros Hp Ht Hl Hc Hc' E. rewrite (crc_fold_split poly Hp l c), (crc_fold_split poly Hp l c') in E by done.
  apply (f_equal (fun z => z ^^ fold_left (crc_byte poly) l 0)) in E.
  rewrite !Z.lxor_assoc, Z.lxor_nilpotent, !Z.lxor_0_r in E. cbv beta in E. exact (Xn_inj poly Hp Ht _ c c' Hc Hc' E).
Qed.

Lemma load_le_inj l l' : is_bytes l -> is_bytes l' -> length l = length l' -> load_le l = load_le l' -> l = l'.
Proof.
  intros Hl. revert l'. induction Hl as [|b l Hb Hl IH]; intros [|b' l'] Hl' Hlen E; try done.
  apply Forall_cons_iff in Hl' as [Hb' Hl']. cbn [load_le] in E.
  rewrite !lor_shiftl_add in E by (done || lia). unfold fits in *.
  assert (b = b') as -> by lia. f_equal. apply IH; [done|by injection Hlen|lia].
Qed.

Lemma crc_burst poly pre w w' post : fits 32 poly -> Z.testbit poly 31 = true ->
  is_bytes pre -> is_bytes post -> is_bytes w -> is_bytes w' ->
  length w = length w' -> (length w <= 4)%nat -> w <> w' ->
  dyn_crc32_bitwise (pre ++ w ++ post) poly <> dyn_crc32_bitwise (pre ++ w' ++ post) poly.
Proof.
  intros Hp Ht Hpre Hpost Hw Hw' Hlen H4 Hne E. apply Hne. unfold dyn_crc32_bitwise in E.
  apply (f_equal (fun z => z ^^ 0xFFFFFFFF)) in E. rewrite !Z.lxor_assoc, Z.lxor_nilpotent, !Z.lxor_0_r in E.
  rewrite !fold_left_app in E. set (c := fold_left _ pre _) in E.
  assert (Hc : fits 32 c) by (apply crc_fold_fits; done).
  apply crc_fold_inj in E; [|done..|by apply crc_fold_fits|by apply crc_fold_fits].
  rewrite !crc_bytes_load, Hlen in E by done.
  assert (Hf : forall l, is_bytes l -> (length l <= 4)%nat -> fits 32 (load_le l)).
  { intros l Hl ?. apply (fits_weaken (8 * Z.of_nat (length l))); [lia|by apply load_le_fits]. }
  apply Xn_inj in E; [|done..|by apply lxor_fits; [lia|done|apply Hf]|apply lxor_fits; [lia|done|apply Hf; [done|lia]]].
  apply (f_equal (Z.lxor c)) in E. rewrite <- !Z.lxor_assoc, Z.lxor_nilpotent, !Z.lxor_0_l in E.
  by apply load_le_inj.
Qed.

(** A byte string that ends in its own checksum leaves a fixed residue. *)
Lemma crc_residue poly d t : fits 32 poly -> Z.testbit poly 31 = true -> is_bytes d -> is_bytes t -> length t = 4%nat ->
  load_le t = dyn_crc32_bitwise d poly <->
  fold_left (crc_byte poly) (d ++ t) 0xFFFFFFFF = Xn poly 32 0xFFFFFFFF.
Proof.
  intros Hp Hb Hd Ht Hl. unfold dyn_crc32_bitwise. rewrite fold_left_app.
  assert (Hc : fits 32 (fold_left (crc_byte poly) d 0xFFFFFFFF)) by (by apply crc_fold_fits).
  set (c := fold_left _ d _) in *. rewrite (crc_bytes_load poly Hp c t Ht), Hl. change (8 * 4)%nat with 32%nat.
  pose proof (load_le_fits t Ht) as Hf. rewrite Hl in Hf. change (8 * Z.of_nat 4) with 32 in Hf.
  split.
  - intros ->. f_equal. by rewrite <- Z.lxor_assoc, Z.lxor_nilpotent, Z.lxor_0_l.
  - intros E. apply Xn_inj in E; [|done|done|by apply lxor_fits; [lia|..]|done].
    rewrite <- E, <- Z.lxor_assoc, Z.lxor_nilpotent. by rewrite Z.lxor_0_l.
Qed.

(** So no burst of up to four bytes keeps a checked string checked, even when
    it reaches into the checksum. *)
Lemma crc_residue_burst poly pre w w' post : fits 32 poly -> Z.testbit poly 31 = true ->
  is_bytes pre -> is_bytes post -> is_bytes w -> is_bytes w' ->
  length w = length w' -> (length w <= 4)%nat -> w <> w' ->
  fold_left (crc_byte poly) (pre ++ w ++ post) 0xFFFFFFFF
  <> fold_left (crc_byte poly) (pre ++ w' ++ post) 0xFFFFFFFF.
Proof.
  intros Hp Ht Hpre Hpost Hw Hw' Hlen H4 Hne E.
  apply (crc_burst poly pre w w' post); try done. unfold dyn_crc32_bitwise. by rewrite E.
Qed.

Module Crc_props.

(** The slicing-by-eight routine computes the bit-serial checksum, with either
    table set, on every byte string. *)
Theorem crc32_slice8_bitwise data :
  is_bytes data ->
  dyn_crc32_slice8 data crc32_ieee_s8 = dyn_crc32_bitwise data DYN_CRC32_POLY /\
  dyn_crc32_slice8 data crc32c_s8 = dyn_crc32_bitwise data DYN_CRC32C_POLY.
Proof. split; [by apply crc32_ieee_slice8|by apply crc32c_slice8]. Qed.

Lemma crc32_slice8_bitwise_witness :
  dyn_crc32_slice8 [49; 50; 51; 52; 53; 54; 55; 56; 57] crc32_ieee_s8 = 0xCBF43926 /\
  dyn_crc32_slice8 [49; 50; 51; 52; 53; 54; 55; 56; 57] crc32c_s8
  = dyn_crc32_bitwise [49; 50; 51; 52; 53; 54; 55; 56; 57] DYN_CRC32C_POLY.
Proof. split; [by vm_compute|]. apply crc32_slice8_bitwise. repeat constructor; by vm_compute. Defined.

(** C15. Whatever the CPU offers, dyn_crc32c returns the Castagnoli checksum and
    dyn_crc32 the IEEE one: the interleaved hardware routine, whose three
    partial checksums are recombined by multiplications by powers of x,
    computes the bit-serial reference as well.  The instruction is only assumed
    to fold its operand's bytes, as documented. *)
Theorem crc32_hw_bitwise (insn_c insn_i : CrcInsn) hw_ok ieee_hw data :
  @CrcInsnLaws DYN_CRC32C_POLY insn_c -> @CrcInsnLaws DYN_CRC32_POLY insn_i ->
  is_bytes data -> Z.of_nat (length data) < 2 ^ 61 ->
  @dyn_crc32c insn_c hw_ok data = dyn_crc32_bitwise data DYN_CRC32C_POLY /\
  @dyn_crc32 insn_i ieee_hw data = dyn_crc32_bitwise data DYN_CRC32_POLY.
Proof.
  intros Hc Hi Hd Hlen. split.
  - unfold dyn_crc32c. case_if; [|by apply crc32c_slice8].
    apply crc32_hw_ok; [by vm_compute|exact Hc|apply crc32c_pow_ok|exact Hd|exact Hlen].
  - unfold dyn_crc32. case_if; [|by apply crc32_ieee_slice8].
    apply crc32_hw_ok; [by vm_compute|exact Hi|apply crc32_ieee_pow_ok|exact Hd|exact Hlen].
Qed.

Lemma crc32_hw_bitwise_witness :
  @dyn_crc32c (soft_insn DYN_CRC32C_POLY) true (seqZ 0 200)
  = dyn_crc32_bitwise (seqZ 0 200) DYN_CRC32C_POLY.
Proof.
  apply (crc32_hw_bitwise (soft_insn DYN_CRC32C_POLY) (soft_insn DYN_CRC32_POLY) true true (seqZ 0 200)).
  - by apply soft_insn_laws.
  - by apply soft_insn_laws.
  - apply Forall_seqZ. intros. unfold fits. lia.
  - vm_compute. done.
Defined.

(** Every corruption confined to four consecutive bytes changes the checksum,
    for both polynomials. *)
Theorem crc32_detects_burst poly pre w w' post :
  poly = DYN_CRC32_POLY \/ poly = DYN_CRC32C_POLY ->
  is_bytes pre -> is_bytes post -> is_bytes w -> is_bytes w' ->
  length w = length w' -> (length w <= 4)%nat -> w <> w' ->
  dyn_crc32_bitwise (pre ++ w ++ post) poly <> dyn_crc32_bitwise (pre ++ w' ++ post) poly.
Proof. intros [-> | ->]; by apply crc_burst. Qed.

Lemma crc32_detects_burst_witness :
  dyn_crc32_bitwise ([1; 2] ++ [3; 4] ++ [5]) DYN_CRC32C_POLY
  <> dyn_crc32_bitwise ([1; 2] ++ [7; 4] ++ [5]) DYN_CRC32C_POLY.
Proof.
  apply crc32_detects_burst; [by right|repeat constructor; by vm_compute..|reflexivity|cbn; lia|done].
Defined.

End Crc_props.
