(* ===== verification/Serial.v ===== *)
(** * The DYNS record format

    The writer dyn_ser_t and the reader dyn_de_t of src/core/dyn-serial.c: a
    20-byte header, a payload of little-endian scalars, varints and blobs, and
    a CRC-32C trailer.  The checksum is used through the interface [Checksum],
    which [Crc] implements.

    The writer's buffer is the list of the [len] bytes written.  [heap] answers
    the calls to realloc still to come, one boolean each; when it is used up
    they succeed.  The reader's [p] is the payload, so [len] is its length; a
    pointer it returns is the bytes it points to, [None] is NULL. *)
From Stdlib Require Import ZArith Lia.
From stdpp Require Import base numbers list option strings.
From S2P Require Import Prelude Varint CrcTables Crc.

Definition DYN_SER_MAGIC : bytes := str "DYNS".
Definition DYN_SER_VERSION : Z := 1.
Definition DYN_SER_HEADER : nat := 20.
Definition DYN_SER_TRAILER : nat := 4.
Definition DYN_SER_DEFAULT_MAX : Z := 2 ^ 28.
Definition DYN_DE_BUDGET_MULT : Z := 64.
Definition DYN_DE_BUDGET_BASE : Z := 2 ^ 29.

(** ** The checksum interface *)

(** What the writer and the reader need of a checksum: a number of 32 bits. *)
Class Checksum (sum : bytes -> Z) : Prop := {
  sum_fits d : is_bytes d -> Z.of_nat (length d) < 2 ^ 61 -> fits 32 (sum d)
}.

(** The last four bytes are the checksum of the bytes before. *)
Definition checked (sum : bytes -> Z) (l : bytes) : Prop :=
  load_le (drop (length l - 4) l) = sum (take (length l - 4) l).

(** ** The writer *)

Record dyn_ser_t := mk_ser { buf : bytes; cap : Z; err : bool; heap : list bool }.

Definition dyn_ser_init (heap : list bool) : dyn_ser_t := mk_ser [] 0 false heap.

(** Hands the bytes over and leaves an empty writer; [err] is kept. *)
Definition dyn_ser_take (w : dyn_ser_t) : bytes * dyn_ser_t :=
  (buf w, mk_ser [] 0 (err w) (heap w)).

Definition dyn_ser_free (w : dyn_ser_t) : dyn_ser_t := dyn_ser_init (heap w).

Definition ser_fail (w : dyn_ser_t) : dyn_ser_t := mk_ser (buf w) (cap w) true (heap w).

(** The doubling loop; [None] is its error exit.  A capacity is at least 1 and
    the loop gives up above 2^40, so it makes at most 42 turns. *)
Fixpoint ser_grow_loop (fuel : nat) (nc want : Z) : option Z :=
  if nc <? want then
    match fuel with
    | O => None
    | S fuel => if 2 ^ 40 <? nc then None else ser_grow_loop fuel (u64 (nc * 2)) want
    end
  else Some nc.

Definition ser_len (w : dyn_ser_t) : Z := Z.of_nat (length (buf w)).

Definition ser_grow (w : dyn_ser_t) (need : Z) : dyn_ser_t * bool :=
  let nc := if negb (cap w =? 0) then cap w else 256 in
  if err w then (w, false) else
  if u64 (ser_len w + need) <=? cap w then (w, true) else
  match ser_grow_loop 42 nc (u64 (ser_len w + need)) with
  | None => (ser_fail w, false)
  | Some nc =>
      if hd true (heap w) then (mk_ser (buf w) nc (err w) (tl (heap w)), true)
      else (mk_ser (buf w) (cap w) true (tl (heap w)), false)
  end.

Definition dyn_ser_raw (p : bytes) (w : dyn_ser_t) : dyn_ser_t * bool :=
  let '(w, ok) := ser_grow w (Z.of_nat (length p)) in
  if ok then (mk_ser (buf w ++ p) (cap w) (err w) (heap w), true) else (w, false).

(** [if (f(w) < 0) return -1; return g(w);] *)
Definition ser_then (f g : dyn_ser_t -> dyn_ser_t * bool) (w : dyn_ser_t) : dyn_ser_t * bool :=
  let '(w, ok) := f w in if ok then g w else (w, false).
Notation "f ;;; g" := (ser_then f g) (at level 70, right associativity) : cint_scope.

Definition le_bytes (v : Z) (nbytes : nat) : bytes :=
  map (fun i => u8 (v >> (Z.of_nat i * 8))) (seq 0 nbytes).

Definition ser_le (v : Z) (nbytes : nat) : dyn_ser_t -> dyn_ser_t * bool := dyn_ser_raw (le_bytes v nbytes).

Definition dyn_ser_u8 (v : Z) := ser_le v 1.
Definition dyn_ser_u16 (v : Z) := ser_le v 2.
Definition dyn_ser_u32 (v : Z) := ser_le v 4.
Definition dyn_ser_u64 (v : Z) := ser_le v 8.
Definition dyn_ser_i64 (v : Z) := ser_le (u64 v) 8.
(** A double travels as its 64 bits. *)
Definition dyn_ser_f64 (bits : Z) := ser_le bits 8.

Definition dyn_ser_blob (p : bytes) (w : dyn_ser_t) : dyn_ser_t * bool :=
  if 0xFFFFFFFF <? Z.of_nat (length p) then (ser_fail w, false)
  else (dyn_ser_u32 (u32 (Z.of_nat (length p))) ;;; dyn_ser_raw p) w.

Fixpoint varint_len_loop (fuel : nat) (v : Z) (k : nat) : nat :=
  match fuel with
  | O => k
  | S fuel => let v := v >> 7 in if v =? 0 then k else varint_len_loop fuel v (S k)
  end.
Definition dyn_varint_len (v : Z) : nat := varint_len_loop 10 v 1.

(** The do-while loop of dyn_ser_uvarint; a 64-bit value takes at most ten
    turns. *)
Fixpoint ser_uvarint_loop (fuel : nat) (v : Z) (w : dyn_ser_t) : dyn_ser_t * bool :=
  match fuel with
  | O => (w, true)
  | S fuel =>
      let b := u8 (v & 0x7f) in
      let v := v >> 7 in
      let b := if negb (v =? 0) then b .| 0x80 else b in
      let '(w, ok) := dyn_ser_u8 b w in
      if ok then if v =? 0 then (w, true) else ser_uvarint_loop fuel v w else (w, false)
  end.
Definition dyn_ser_uvarint (v : Z) : dyn_ser_t -> dyn_ser_t * bool := ser_uvarint_loop 10 v.

Definition dyn_ser_svarint (v : Z) : dyn_ser_t -> dyn_ser_t * bool :=
  dyn_ser_uvarint (u64 (u64 v << 1) ^^ u64 (v >> 63)).

Definition dyn_ser_begin (type_id flags : Z) : dyn_ser_t -> dyn_ser_t * bool :=
  dyn_ser_raw DYN_SER_MAGIC ;;; dyn_ser_u16 DYN_SER_VERSION ;;; dyn_ser_u16 type_id ;;;
  dyn_ser_u32 flags ;;; dyn_ser_u64 0.

Definition dyn_ser_finish (sum : bytes -> Z) (w : dyn_ser_t) : dyn_ser_t * bool :=
  if err w || (length (buf w) <? DYN_SER_HEADER)%nat then (ser_fail w, false) else
  let payload := Z.of_nat (length (buf w) - DYN_SER_HEADER) in
  let b := take 12 (buf w) ++ le_bytes payload 8 ++ drop 20 (buf w) in
  dyn_ser_u32 (sum b) (mk_ser b (cap w) (err w) (heap w)).

(** ** The reader *)

Record dyn_de_t := mk_de { p : bytes; pos : nat; de_err : bool; budget : Z }.

Inductive de_code := DYN_DE_OK | DYN_DE_BAD_MAGIC | DYN_DE_BAD_VERSION | DYN_DE_TRUNCATED
  | DYN_DE_BAD_CRC | DYN_DE_TOO_LARGE.

Definition dyn_de_strerror (code : de_code) : string :=
  match code with
  | DYN_DE_OK => "ok"
  | DYN_DE_BAD_MAGIC => "not a DYNS record"
  | DYN_DE_BAD_VERSION => "unsupported DYNS format version"
  | DYN_DE_TRUNCATED => "truncated DYNS record"
  | DYN_DE_BAD_CRC => "DYNS checksum mismatch"
  | DYN_DE_TOO_LARGE => "DYNS payload exceeds maxBytes"
  end.

(** The little-endian accumulation of de_le over the bytes from [i] on. *)
Fixpoint de_le_loop (l : bytes) (i v : Z) : Z :=
  match l with [] => v | b :: l => de_le_loop l (i + 1) (v .| (b << (i * 8))) end.
Definition de_le (l : bytes) (off nbytes : nat) : Z := de_le_loop (take nbytes (drop off l)) 0 0.

Definition de_closed : dyn_de_t := mk_de [] 0 true 0.

(** Code, reader, and what is stored through [type_id] and [flags]. *)
Definition dyn_de_open (sum : bytes -> Z) (b : bytes) (max_payload : Z) : de_code * dyn_de_t * option (Z * Z) :=
  let len := length b in
  let max_payload := if max_payload =? 0 then DYN_SER_DEFAULT_MAX else max_payload in
  if (len <? DYN_SER_HEADER + DYN_SER_TRAILER)%nat then (DYN_DE_TRUNCATED, de_closed, None) else
  if negb (bool_decide (take 4 b = DYN_SER_MAGIC)) then (DYN_DE_BAD_MAGIC, de_closed, None) else
  if negb (de_le b 4 2 =? DYN_SER_VERSION) then (DYN_DE_BAD_VERSION, de_closed, None) else
  let payload := de_le b 12 8 in
  if max_payload <? payload then (DYN_DE_TOO_LARGE, de_closed, None) else
  if negb (payload =? Z.of_nat (len - DYN_SER_HEADER - DYN_SER_TRAILER)) then (DYN_DE_TRUNCATED, de_closed, None) else
  let want := de_le b (len - DYN_SER_TRAILER) 4 in
  let got := sum (take (len - DYN_SER_TRAILER) b) in
  if negb (want =? got) then (DYN_DE_BAD_CRC, de_closed, None) else
  (DYN_DE_OK,
   mk_de (take (len - DYN_SER_HEADER - DYN_SER_TRAILER) (drop DYN_SER_HEADER b)) 0 false
     (DYN_DE_BUDGET_BASE + DYN_DE_BUDGET_MULT * payload),
   Some (de_le b 6 2, de_le b 8 4)).

Definition de_left (r : dyn_de_t) : Z := Z.of_nat (length (p r)) - Z.of_nat (pos r).
Definition de_fail (r : dyn_de_t) : dyn_de_t := mk_de (p r) (pos r) true (budget r).

Definition de_take (r : dyn_de_t) (n : Z) : option bytes * dyn_de_t :=
  if de_err r || (de_left r <? n) then (None, de_fail r)
  else (Some (take (Z.to_nat n) (drop (pos r) (p r))),
        mk_de (p r) (pos r + Z.to_nat n) (de_err r) (budget r)).

(** [p ? de_le(p, n) : 0] *)
Definition de_scalar (n : nat) (r : dyn_de_t) : Z * dyn_de_t :=
  let '(q, r) := de_take r (Z.of_nat n) in
  (match q with Some q => de_le q 0 n | None => 0 end, r).

Definition dyn_de_u8 := de_scalar 1.
Definition dyn_de_u16 := de_scalar 2.
Definition dyn_de_u32 := de_scalar 4.
Definition dyn_de_u64 := de_scalar 8.
Definition dyn_de_i64 (r : dyn_de_t) : Z * dyn_de_t := let '(v, r) := dyn_de_u64 r in (i64 v, r).
Definition dyn_de_f64 := dyn_de_u64.
Definition dyn_de_raw := de_take.

(** The bytes and the length stored through [n]. *)
Definition dyn_de_blob (r : dyn_de_t) : option bytes * Z * dyn_de_t :=
  let '(len, r) := dyn_de_u32 r in
  if de_err r || (de_left r <? len) then (None, 0, de_fail r) else
  let '(q, r) := de_take r len in
  (q, match q with Some _ => len | None => 0 end, r).

Definition dyn_de_count (elem_size : Z) (r : dyn_de_t) : option Z * dyn_de_t :=
  let '(n, r) := dyn_de_u32 r in
  if de_err r then (None, r) else
  if negb (elem_size =? 0) then
    if de_left r <? u64 (n * elem_size) then (None, de_fail r) else (Some n, r)
  else if de_left r <? n then (None, de_fail r) else (Some n, r).

Definition dyn_de_charge (r : dyn_de_t) (b : Z) : dyn_de_t * bool :=
  if budget r <? b then (de_fail r, false) else (mk_de (p r) (pos r) (de_err r) (budget r - b), true).

Definition dyn_de_ok (r : dyn_de_t) : bool := negb (de_err r).
Definition dyn_de_left (r : dyn_de_t) : Z := if de_err r then 0 else de_left r.

(** The loop of dyn_de_uvarint; [shift] is 0, 7, ..., 63, so ten turns. *)
Fixpoint de_uvarint_loop (fuel : nat) (shift v : Z) (r : dyn_de_t) : option Z * dyn_de_t :=
  match fuel with
  | O => (None, r)
  | S fuel =>
      let '(b, r) := dyn_de_u8 r in
      if negb (dyn_de_ok r) then (None, r) else
      if (shift =? 63) && (1 <? (b & 0x7f)) then (None, r) else
      let v := v .| u64 ((b & 0x7f) << shift) in
      if (b & 0x80) =? 0 then (Some v, r) else
      let shift := shift + 7 in
      if 64 <=? shift then (None, r) else de_uvarint_loop fuel shift v r
  end.
Definition dyn_de_uvarint (r : dyn_de_t) : option Z * dyn_de_t := de_uvarint_loop 10 0 0 r.

Definition dyn_de_svarint (r : dyn_de_t) : option Z * dyn_de_t :=
  let '(z, r) := dyn_de_uvarint r in
  (match z with Some z => Some (Z.lxor (i64 (z >> 1)) (- i64 (z & 1))) | None => None end, r).

(** ** The writer's growth loop *)

Lemma ser_grow_loop_some fuel nc want nc' :
  1 <= nc <= 2 ^ 41 -> want <= 2 ^ 64 -> ser_grow_loop fuel nc want = Some nc' ->
  want <= nc' /\ nc <= nc' <= 2 ^ 41.
Proof.
  revert nc. induction fuel as [|fuel IH]; intros nc Hnc Hw H; cbn [ser_grow_loop] in H.
  - case_if_in H; [done|]. injection H as <-. bprop. lia.
  - repeat case_if_in H; bprop; try done; [|injection H as <-; lia].
    rewrite wrap_id in H by (unfold fits; lia). apply IH in H; [lia..|done].
Qed.

(** With a capacity of at least [2^(41-fuel)] the fuel is never what stops the
    loop: it ends with a large enough capacity, or at the source's limit. *)
Lemma ser_grow_loop_total fuel nc want :
  2 ^ 41 <= nc * 2 ^ Z.of_nat fuel -> 1 <= nc <= 2 ^ 41 -> want <= 2 ^ 40 ->
  exists nc', ser_grow_loop fuel nc want = Some nc'.
Proof.
  revert nc. induction fuel as [|fuel IH]; intros nc Hf Hnc Hw; cbn [ser_grow_loop].
  - change (2 ^ Z.of_nat 0) with 1 in Hf. rewrite ltb_false by lia. eauto.
  - destruct (Z.ltb_spec nc want); [|eauto]. rewrite ltb_false by lia. rewrite wrap_id by (unfold fits; lia).
    apply IH; [|lia|lia]. rewrite Nat2Z.inj_succ, Z.pow_succ_r in Hf by lia. lia.
Qed.

(** ** What a writer operation does *)

Definition ser_inv (w : dyn_ser_t) : Prop :=
  (cap w = 0 \/ 256 <= cap w <= 2 ^ 41) /\ ser_len w <= cap w.

(** The memory answers every request. *)
Definition ser_mem (w : dyn_ser_t) : Prop := Forall (fun b => b = true) (heap w).

(** [emits f s]: [f] appends exactly [s], or fails with [err] set after
    appending only a prefix of [s]; it cannot fail while the memory answers and
    the buffer stays within 2^40 bytes. *)
Definition emits (f : dyn_ser_t -> dyn_ser_t * bool) (s : bytes) : Prop :=
  forall w, ser_inv w ->
    ser_inv (f w).1 /\
    (exists s1 s2, s = s1 ++ s2 /\ buf (f w).1 = buf w ++ s1 /\ ((f w).2 = true -> s2 = [])) /\
    ((f w).2 = true -> err w = false) /\
    err (f w).1 = negb (f w).2 /\
    (ser_mem w -> err w = false -> ser_len w + Z.of_nat (length s) <= 2 ^ 40 ->
     (f w).2 = true /\ ser_mem (f w).1).

Lemma emits_raw s : Z.of_nat (length s) < 2 ^ 63 -> emits (dyn_ser_raw s) s.
Proof.
  intros Hs w [Hcap Hlen]. unfold dyn_ser_raw, ser_grow. unfold ser_len in *.
  assert (0 <= cap w <= 2 ^ 41) by lia. rewrite wrap_id by (unfold fits; lia).
  assert (Hfail : forall e h, ser_inv (mk_ser (buf w) (cap w) e h)) by (intros; split; [exact Hcap|exact Hlen]).
  assert (Hpre : exists s1 s2, s = s1 ++ s2 /\ buf w = buf w ++ s1 /\ (false = true -> s2 = []))
    by (exists [], s; by rewrite app_nil_r).
  assert (Hall : exists s1 s2, s = s1 ++ s2 /\ buf w ++ s = buf w ++ s1 /\ (true = true -> s2 = []))
    by (exists s, []; by rewrite app_nil_r).
  destruct (err w) eqn:Ee; cbn [fst snd].
  { rewrite Ee. by split_and!. }
  destruct (_ <=? cap w) eqn:Ec; bprop; cbn [fst snd buf cap heap err].
  { split_and!; try done. unfold ser_inv, ser_len. cbn [buf cap]. rewrite length_app. lia. }
  set (nc := if negb (cap w =? 0) then cap w else 256).
  assert (Hnc : 256 <= nc <= 2 ^ 41) by (subst nc; destruct (Z.eqb_spec (cap w) 0); cbn; lia).
  destruct (ser_grow_loop 42 nc _) as [nc'|] eqn:Eg; cbn [fst snd buf cap heap err].
  - apply ser_grow_loop_some in Eg; [|lia..].
    destruct (hd true (heap w)) eqn:Eh; cbn [fst snd buf cap heap err]; split_and!; try done.
    + unfold ser_inv, ser_len. cbn [buf cap]. rewrite length_app. lia.
    + intros Hm _ _. split; [done|]. unfold ser_mem in *. cbn [heap].
      destruct (heap w); [done|]. by apply Forall_cons_iff in Hm as [_ ?].
    + intros Hm _ _. exfalso. unfold ser_mem in Hm. destruct (heap w); [done|].
      apply Forall_cons_iff in Hm as [-> _]. done.
  - split_and!; try done. intros _ _ Hl. exfalso.
    destruct (ser_grow_loop_total 42 nc (Z.of_nat (length (buf w)) + Z.of_nat (length s))) as [nc' E]; [lia..|congruence].
Qed.

Lemma emits_then f g s s' : emits f s -> emits g s' -> emits (f ;;; g) (s ++ s').
Proof.
  intros Hf Hg w Hw. unfold ser_then. destruct (Hf w Hw) as (Hi & (s1 & s2 & -> & Eb & Et) & Hok & He & Hm).
  destruct (f w) as [w1 []]; cbn [fst snd negb] in *.
  - rewrite (Et eq_refl), app_nil_r in *. clear Et.
    destruct (Hg w1 Hi) as (Hi' & (t1 & t2 & -> & Eb' & Et') & Hok' & He' & Hm').
    split_and!; try done.
    + exists (s1 ++ t1), t2. by rewrite Eb', Eb, !app_assoc.
    + by intros; apply Hok.
    + intros Hmem Herr Hl. rewrite !length_app in Hl. destruct (Hm Hmem Herr) as [_ Hm1]; [lia|].
      apply Hm'; [done|done|]. unfold ser_len in *. rewrite Eb, !length_app. lia.
  - split_and!; try done.
    + exists s1, (s2 ++ s'). by rewrite app_assoc.
    + intros Hmem Herr Hl. rewrite length_app in Hl. destruct (Hm Hmem Herr); [lia|done].
Qed.

Lemma emits_ext f g s : (forall w, f w = g w) -> emits f s -> emits g s.
Proof. intros E H w. rewrite <- E. apply H. Qed.

(** ** Little-endian scalars *)

Lemma le_bytes_length v n : length (le_bytes v n) = n.
Proof. unfold le_bytes. by rewrite length_map, length_seq. Qed.

Lemma le_bytes_bytes v n : is_bytes (le_bytes v n).
Proof. unfold le_bytes. apply Forall_map, Forall_forall. intros. by apply wrap_fits. Qed.

Lemma le_bytes_S v n : le_bytes v (S n) = u8 v :: le_bytes (v >> 8) n.
Proof.
  unfold le_bytes. cbn [seq map]. change (Z.of_nat 0 * 8) with 0. rewrite Z.shiftr_0_r. f_equal.
  rewrite <- seq_shift, map_map. apply map_ext. intros i. rewrite Z.shiftr_shiftr by lia. do 2 f_equal. lia.
Qed.

Lemma load_le_bytes v n : 0 <= v -> load_le (le_bytes v n) = wrap (8 * Z.of_nat n) v.
Proof.
  revert v. induction n as [|n IH]; intros v Hv; [symmetry; apply Z.mod_1_r|].
  rewrite le_bytes_S. cbn [load_le]. rewrite IH by by apply Z.shiftr_nonneg.
  rewrite lor_shiftl_add by (by apply wrap_fits || lia). unfold wrap.
  replace (8 * Z.of_nat (S n)) with (8 + 8 * Z.of_nat n) by lia.
  rewrite Z.pow_add_r, Z.rem_mul_r, Z.shiftr_div_pow2 by lia. lia.
Qed.

Lemma load_le_bytes_id v n : fits (8 * Z.of_nat n) v -> load_le (le_bytes v n) = v.
Proof. intros H. rewrite load_le_bytes by apply H. by apply wrap_id. Qed.

Lemma de_le_loop_load l i v : is_bytes l -> 0 <= i -> fits (i * 8) v ->
  de_le_loop l i v = v .| (load_le l << (i * 8)).
Proof.
  intros Hl. revert i v. induction Hl as [|b l Hb Hl IH]; intros i v Hi Hv; cbn [de_le_loop load_le].
  { by rewrite Z.shiftl_0_l, Z.lor_0_r. }
  rewrite IH; [|lia|].
  - rewrite Z.shiftl_lor, Z.shiftl_shiftl by lia. rewrite <- Z.lor_assoc. do 3 f_equal. lia.
  - rewrite lor_shiftl_add by (done || lia). unfold fits in *.
    replace ((i + 1) * 8) with (i * 8 + 8) by lia. rewrite Z.pow_add_r by lia. nia.
Qed.

Lemma de_le_load l off n : is_bytes l -> de_le l off n = load_le (take n (drop off l)).
Proof.
  intros Hl. unfold de_le. rewrite de_le_loop_load by (done || by apply Forall_take, Forall_drop).
  by rewrite Z.shiftl_0_r.
Qed.

(** ** Varints *)

Lemma shr7_zero v : 0 <= v -> (v >> 7 =? 0) = negb (0x80 <=? v).
Proof.
  intros Hv. rewrite Z.shiftr_div_pow2 by lia. change (2 ^ 7) with 128.
  destruct (Z.eqb_spec (v / 128) 0), (Z.leb_spec 0x80 v); cbn [negb]; try done; exfalso; zdm.
Qed.

Lemma varint_byte v : 0 <= v ->
  le_bytes (if negb (v >> 7 =? 0) then u8 (v & 0x7f) .| 0x80 else u8 (v & 0x7f)) 1
  = [if 0x80 <=? v then u8 (v .| 0x80) else u8 v].
Proof.
  intros Hv. rewrite le_bytes_S. cbn [le_bytes seq map]. f_equal.
  assert (Hm : v & 0x7f = v `mod` 128) by by rewrite (Z.land_ones _ 7).
  pose proof (Z.mod_pos_bound v 128 ltac:(lia)) as Hb.
  rewrite shr7_zero, negb_involutive, Hm, (wrap_id 8 (v `mod` 128)) by (unfold fits; lia).
  destruct (Z.leb_spec 0x80 v).
  - rewrite (proj1 (byte_continuation v Hv)).
    assert (E : v `mod` 128 .| 0x80 = v `mod` 128 + 128) by (apply (lor_shiftl_add _ 1 7); [done|lia]).
    rewrite E. apply wrap_id. unfold fits. lia.
  - f_equal. by apply Z.mod_small.
Qed.

Lemma emits_uvarint_loop fuel v out : 0 <= v ->
  put_uvarint_loop fuel v = Some out -> emits (ser_uvarint_loop fuel v) out.
Proof.
  revert v out. induction fuel as [|fuel IH]; intros v out Hv H; [done|]. cbn [put_uvarint_loop] in H.
  pose proof (varint_byte v Hv) as Hb.
  assert (He : forall b x, le_bytes b 1 = [x] -> emits (dyn_ser_u8 b) [x]).
  { intros b x <-. apply emits_raw. rewrite le_bytes_length. lia. }
  destruct (Z.leb_spec 0x80 v).
  - apply bind_Some in H as (o & Ho & [= <-]). apply IH in Ho; [|by apply Z.shiftr_nonneg].
    pose proof (emits_then _ _ _ _ (He _ _ Hb) Ho) as Hc. revert Hc. apply emits_ext.
    intros w. cbn [ser_uvarint_loop]. unfold ser_then. destruct (dyn_ser_u8 _ w) as [w' []]; [|done].
    by rewrite shr7_zero, (proj2 (Z.leb_le 0x80 v)).
  - injection H as <-. pose proof (He _ _ Hb) as Hc. revert Hc. apply emits_ext.
    intros w. cbn [ser_uvarint_loop]. destruct (dyn_ser_u8 _ w) as [w' []]; [|done].
    by rewrite shr7_zero, (proj2 (Z.leb_gt 0x80 v)).
Qed.

(** The zig-zag mapping, in the form the writer computes it. *)
Lemma svarint_zigzag v : sfits 64 v ->
  u64 (u64 v << 1) ^^ u64 (v >> 63) = if v <? 0 then - 2 * v - 1 else 2 * v.
Proof.
  unfold sfits. change (2 ^ (64 - 1)) with (2 ^ 63). intros Hv.
  rewrite Z.shiftl_mul_pow2, wrap_mul_l, Z.shiftr_div_pow2 by lia. change (2 ^ 1) with 2.
  destruct (Z.ltb_spec v 0).
  - replace (v / 2 ^ 63) with (-1) by zdm. change (u64 (-1)) with (Z.ones 64).
    assert (E : forall x, fits 64 x -> x ^^ Z.ones 64 = 2 ^ 64 - 1 - x).
    { intros x Hx. rewrite (Z.sub_nocarry_ldiff (2 ^ 64 - 1) x).
      - change (2 ^ 64 - 1) with (Z.ones 64). apply Z.bits_inj'. intros i Hi.
        rewrite Z.lxor_spec, Z.ldiff_spec, testbit_ones by lia.
        destruct (Z.ltb_spec i 64); [by destruct (Z.testbit x i)|].
        by rewrite (testbit_fits 64 x) by (done || lia).
      - change (2 ^ 64 - 1) with (Z.ones 64). apply Z.bits_inj'. intros i Hi.
        rewrite Z.ldiff_spec, testbit_ones, Z.bits_0 by lia.
        destruct (Z.ltb_spec i 64); [by rewrite andb_false_r|].
        by rewrite (testbit_fits 64 x) by (done || lia). }
    rewrite E by by apply wrap_fits. unfold wrap. zdm.
  - replace (v / 2 ^ 63) with 0 by zdm. rewrite Z.lxor_0_r, Z.mul_comm. apply wrap_id. unfold fits. lia.
Qed.

Lemma svarint_unzigzag v : sfits 64 v ->
  let z := if v <? 0 then - 2 * v - 1 else 2 * v in
  fits 64 z /\ Z.lxor (i64 (z >> 1)) (- i64 (z & 1)) = v.
Proof.
  intros Hv z. unfold sfits in Hv. change (2 ^ (64 - 1)) with (2 ^ 63) in Hv.
  assert (Hz : fits 64 z) by (unfold fits; subst z; case_ifs; lia). split; [done|]. unfold fits in Hz.
  change 1 with (Z.ones 1) at 2. rewrite Z.land_ones, Z.shiftr_div_pow2 by lia. change (2 ^ 1) with 2.
  rewrite !swrap_id by (lia || (unfold sfits; change (2 ^ (64 - 1)) with (2 ^ 63); zdm)).
  subst z. destruct (Z.ltb_spec v 0).
  - replace ((-2 * v - 1) `mod` 2) with 1 by zdm. change (- (1)) with (-1). rewrite Z.lxor_m1_r.
    unfold Z.lnot. zdm.
  - replace ((2 * v) `mod` 2) with 0 by zdm. rewrite Z.lxor_0_r. zdm.
Qed.

(** ** What a reader operation does *)

(** [reads g s v]: on a payload where [s] comes next, [g] returns [v] and
    advances past [s]. *)
Definition reads {A} (g : dyn_de_t -> A * dyn_de_t) (s : bytes) (v : A) : Prop :=
  forall pre post bud,
    g (mk_de (pre ++ s ++ post) (length pre) false bud)
    = (v, mk_de (pre ++ s ++ post) (length pre + length s) false bud).

Lemma reads_raw s : reads (fun r => de_take r (Z.of_nat (length s))) s (Some s).
Proof.
  intros pre post bud. unfold de_take, de_left. cbn [p pos de_err budget].
  rewrite !length_app, ltb_false by lia. cbn [orb]. rewrite Nat2Z.id, drop_app_length.
  by rewrite take_app_length.
Qed.

Lemma reads_scalar n v : fits (8 * Z.of_nat n) v -> reads (de_scalar n) (le_bytes v n) v.
Proof.
  intros Hv pre post bud. unfold de_scalar.
  pose proof (reads_raw (le_bytes v n) pre post bud) as E. rewrite le_bytes_length in *. rewrite E.
  rewrite de_le_load by apply le_bytes_bytes. rewrite drop_0, take_ge by by rewrite le_bytes_length.
  by rewrite load_le_bytes_id.
Qed.

Lemma reads_byte b : fits 8 b -> reads dyn_de_u8 [b] b.
Proof.
  intros Hb. pose proof (reads_scalar 1 b Hb) as H. unfold le_bytes in H. cbn [seq map] in H.
  change (Z.of_nat 0 * 8) with 0 in H. by rewrite Z.shiftr_0_r, wrap_id in H.
Qed.

Lemma reads_uvarint_loop fuel x out i acc :
  put_uvarint_loop fuel x = Some out -> 0 <= x -> 0 <= i -> i + Z.of_nat fuel <= 10 ->
  fits (7 * i) acc -> acc + x * 2 ^ (7 * i) < 2 ^ 64 ->
  reads (de_uvarint_loop fuel (7 * i) acc) out (Some (acc + x * 2 ^ (7 * i))).
Proof.
  revert x out i acc. induction fuel as [|fuel IH]; intros x out i acc H Hx Hi Hf Hacc Hb pre post bud; [done|].
  assert (0 < 2 ^ (7 * i)) by lia. pose proof Hacc as Hacc'. unfold fits in Hacc'.
  cbn [put_uvarint_loop] in H. destruct (Z.leb_spec 0x80 x).
  - apply bind_Some in H as (o & Ho & [= <-]). cbn [de_uvarint_loop].
    destruct (byte_continuation x Hx) as [_ Hlow]. pose proof (Z.mod_pos_bound x 128 ltac:(lia)).
    set (b := u8 (x .| 128)) in *.
    change ((b :: o) ++ post) with ([b] ++ (o ++ post)). rewrite (reads_byte b) by by apply wrap_fits.
    unfold dyn_de_ok. cbn [de_err negb]. rewrite Hlow.
    assert (Hfuel : (1 <= fuel)%nat) by (destruct fuel; [done|lia]).
    replace (7 * i =? 63) with false by lia. cbn [andb].
    assert (Hdm : x = 128 * (x >> 7) + x `mod` 128) by (rewrite Z.shiftr_div_pow2 by lia; apply Z.div_mod; lia).
    assert (Hx7 : 0 <= x >> 7) by by apply Z.shiftr_nonneg.
    rewrite group_add by (done || lia || nia).
    assert (Hc : (b & 0x80 =? 0) = false) by apply cont_bit_set.
    rewrite Hc. replace (64 <=? 7 * i + 7) with false by lia.
    assert (Hp : 2 ^ (7 * (i + 1)) = 128 * 2 ^ (7 * i)).
    { replace (7 * (i + 1)) with (7 + 7 * i) by lia. by rewrite Z.pow_add_r by lia. }
    replace (7 * i + 7) with (7 * (i + 1)) by lia.
    pose proof (IH (x >> 7) o (i + 1) (acc + x `mod` 128 * 2 ^ (7 * i)) Ho) as Hr.
    specialize (Hr Hx7 ltac:(lia) ltac:(lia)).
    assert (Hr1 : fits (7 * (i + 1)) (acc + x `mod` 128 * 2 ^ (7 * i))) by (unfold fits; rewrite Hp; nia).
    specialize (Hr Hr1 ltac:(rewrite Hp; nia) (pre ++ [b]) post bud).
    rewrite <- !app_assoc, length_app in Hr. cbn [length app] in Hr |- *. rewrite Hr. f_equal; [f_equal; rewrite Hp; nia|].
    f_equal. cbn [length]. lia.
  - injection H as <-. cbn [de_uvarint_loop]. rewrite (reads_byte (u8 x)) by by apply wrap_fits.
    unfold dyn_de_ok. cbn [de_err negb]. rewrite (wrap_id 8) by (unfold fits; lia).
    destruct (last_byte x ltac:(lia)) as [Hm Hc].
    rewrite Hm, Hc, Z.eqb_refl. replace ((7 * i =? 63) && (1 <? x)) with false.
    2: { symmetry. destruct (Z.eqb_spec (7 * i) 63) as [E|]; [|done]. apply Z.ltb_ge. rewrite E in Hb. lia. }
    by rewrite group_add by (done || lia || nia).
Qed.

(** ** Whole payloads *)

(** The values a client writes, and the types it reads them back at. *)
Inductive item :=
  | I_u8 (v : Z) | I_u16 (v : Z) | I_u32 (v : Z) | I_u64 (v : Z) | I_i64 (v : Z) | I_f64 (bits : Z)
  | I_uvarint (v : Z) | I_svarint (v : Z) | I_blob (s : bytes).

Inductive ty := T_u8 | T_u16 | T_u32 | T_u64 | T_i64 | T_f64 | T_uvarint | T_svarint | T_blob.

Definition item_ty (i : item) : ty :=
  match i with
  | I_u8 _ => T_u8 | I_u16 _ => T_u16 | I_u32 _ => T_u32 | I_u64 _ => T_u64 | I_i64 _ => T_i64
  | I_f64 _ => T_f64 | I_uvarint _ => T_uvarint | I_svarint _ => T_svarint | I_blob _ => T_blob
  end.

Definition item_ok (i : item) : Prop :=
  match i with
  | I_u8 v => fits 8 v | I_u16 v => fits 16 v | I_u32 v => fits 32 v
  | I_u64 v | I_f64 v | I_uvarint v => fits 64 v
  | I_i64 v | I_svarint v => sfits 64 v
  | I_blob s => is_bytes s /\ Z.of_nat (length s) < 2 ^ 32
  end.

Definition ser_item (i : item) : dyn_ser_t -> dyn_ser_t * bool :=
  match i with
  | I_u8 v => dyn_ser_u8 v | I_u16 v => dyn_ser_u16 v | I_u32 v => dyn_ser_u32 v
  | I_u64 v => dyn_ser_u64 v | I_i64 v => dyn_ser_i64 v | I_f64 b => dyn_ser_f64 b
  | I_uvarint v => dyn_ser_uvarint v | I_svarint v => dyn_ser_svarint v | I_blob s => dyn_ser_blob s
  end.

Definition de_item (t : ty) (r : dyn_de_t) : option item * dyn_de_t :=
  match t with
  | T_u8 => let '(v, r) := dyn_de_u8 r in (Some (I_u8 v), r)
  | T_u16 => let '(v, r) := dyn_de_u16 r in (Some (I_u16 v), r)
  | T_u32 => let '(v, r) := dyn_de_u32 r in (Some (I_u32 v), r)
  | T_u64 => let '(v, r) := dyn_de_u64 r in (Some (I_u64 v), r)
  | T_i64 => let '(v, r) := dyn_de_i64 r in (Some (I_i64 v), r)
  | T_f64 => let '(v, r) := dyn_de_f64 r in (Some (I_f64 v), r)
  | T_uvarint => let '(v, r) := dyn_de_uvarint r in (I_uvarint <$> v, r)
  | T_svarint => let '(v, r) := dyn_de_svarint r in (I_svarint <$> v, r)
  | T_blob => let '(s, _, r) := dyn_de_blob r in (I_blob <$> s, r)
  end.

Fixpoint ser_items (l : list item) : dyn_ser_t -> dyn_ser_t * bool :=
  match l with
  | [] => fun w => (w, negb (err w))
  | i :: l => ser_item i ;;; ser_items l
  end.

Fixpoint de_items (l : list ty) (r : dyn_de_t) : option (list item) * dyn_de_t :=
  match l with
  | [] => (Some [], r)
  | t :: l =>
      match de_item t r with
      | (Some i, r) => let '(o, r) := de_items l r in (cons i <$> o, r)
      | (None, r) => (None, r)
      end
  end.

(** A complete record, as a client writes one. *)
Definition ser_record (sum : bytes -> Z) (type_id flags : Z) (l : list item) (heap : list bool) : dyn_ser_t * bool :=
  (dyn_ser_begin type_id flags ;;; ser_items l ;;; dyn_ser_finish sum) (dyn_ser_init heap).

(** The bytes an item occupies. *)
Definition item_bytes (i : item) : bytes :=
  match i with
  | I_u8 v => le_bytes v 1 | I_u16 v => le_bytes v 2 | I_u32 v => le_bytes v 4
  | I_u64 v => le_bytes v 8 | I_i64 v => le_bytes (u64 v) 8 | I_f64 b => le_bytes b 8
  | I_uvarint v => default [] (put_uvarint_loop 10 v)
  | I_svarint v => default [] (put_uvarint_loop 10 (if v <? 0 then - 2 * v - 1 else 2 * v))
  | I_blob s => le_bytes (Z.of_nat (length s)) 4 ++ s
  end.

Definition items_bytes (l : list item) : bytes := l ≫= item_bytes.

Lemma put_uvarint_64 v : fits 64 v -> exists out, put_uvarint_loop 10 v = Some out.
Proof. intros [? ?]. apply put_uvarint_total; [|lia]. change (2 ^ (7 * Z.of_nat 10)) with (2 ^ 70). lia. Qed.

Lemma emits_le v n : (n <= 8)%nat -> emits (ser_le v n) (le_bytes v n).
Proof. intros. apply emits_raw. rewrite le_bytes_length. lia. Qed.

Lemma emits_uvarint v : fits 64 v -> emits (dyn_ser_uvarint v) (default [] (put_uvarint_loop 10 v)).
Proof.
  intros Hv. destruct (put_uvarint_64 v Hv) as [out E]. rewrite E. apply emits_uvarint_loop; [apply Hv|done].
Qed.

Lemma emits_item i : item_ok i -> emits (ser_item i) (item_bytes i).
Proof.
  destruct i as [v|v|v|v|v|v|v|v|s]; cbn [item_ok ser_item item_bytes]; intros Hi.
  1-6: by apply emits_le; lia.
  - by apply emits_uvarint.
  - unfold dyn_ser_svarint. rewrite svarint_zigzag by done. by apply emits_uvarint, svarint_unzigzag.
  - destruct Hi as [_ Hl]. eapply emits_ext; [|apply (emits_then _ _ _ _ (emits_le _ 4 ltac:(lia)) (emits_raw s ltac:(lia)))].
    intros w. unfold dyn_ser_blob. rewrite ltb_false by lia. by rewrite (wrap_id 32) by (unfold fits; lia).
Qed.

Lemma emits_items l : Forall item_ok l -> emits (ser_items l) (items_bytes l).
Proof.
  induction 1 as [|i l Hi _ IH]; cbn [ser_items].
  - intros w Hw. cbn [fst snd]. split_and!; try done.
    + exists [], []. split_and!; [done|by rewrite app_nil_r|done].
    + by destruct (err w).
    + by rewrite negb_involutive.
    + by intros ? ->.
  - apply emits_then; [by apply emits_item|exact IH].
Qed.

Lemma reads_uvarint v : fits 64 v ->
  reads dyn_de_uvarint (default [] (put_uvarint_loop 10 v)) (Some v).
Proof.
  intros Hv. destruct (put_uvarint_64 v Hv) as [out E]. rewrite E. cbn [default from_option].
  pose proof (reads_uvarint_loop 10 v out 0 0 E) as H. unfold fits in *.
  change (2 ^ (7 * 0)) with 1 in H. replace (0 + v * 1) with v in H by lia.
  apply H; lia.
Qed.

Lemma reads_map {A B} (f : A -> B) g s v :
  reads g s v -> reads (fun r => let '(v, r) := g r in (f v, r)) s (f v).
Proof. intros H pre post bud. by rewrite H. Qed.

Lemma reads_blob s : is_bytes s -> Z.of_nat (length s) < 2 ^ 32 ->
  reads (fun r => let '(o, _, r) := dyn_de_blob r in (o, r)) (le_bytes (Z.of_nat (length s)) 4 ++ s) (Some s).
Proof.
  intros Hs Hl pre post bud. unfold dyn_de_blob. rewrite <- app_assoc.
  unfold dyn_de_u32. rewrite (reads_scalar 4) by (unfold fits; lia).
  cbn [de_err orb]. unfold de_left. cbn [p pos].
  rewrite ltb_false by (rewrite !length_app; lia).
  pose proof (reads_raw s (pre ++ le_bytes (Z.of_nat (length s)) 4) post bud) as E.
  rewrite <- app_assoc, length_app in E. cbn beta in E. rewrite E. do 2 f_equal. rewrite length_app. lia.
Qed.

Lemma reads_item i : item_ok i -> reads (de_item (item_ty i)) (item_bytes i) (Some i).
Proof.
  destruct i as [v|v|v|v|v|v|v|v|s]; cbn [item_ok item_ty de_item item_bytes]; intros Hi.
  - apply (reads_map (fun v => Some (I_u8 v))). by apply reads_scalar.
  - apply (reads_map (fun v => Some (I_u16 v))). by apply reads_scalar.
  - apply (reads_map (fun v => Some (I_u32 v))). by apply reads_scalar.
  - apply (reads_map (fun v => Some (I_u64 v))). by apply reads_scalar.
  - apply (reads_map (fun v => Some (I_i64 v))). replace v with (i64 (u64 v)) at 2.
    + apply (reads_map i64). apply reads_scalar. by apply wrap_fits.
    + unfold swrap. rewrite wrap_wrap by lia. fold (swrap 64 v). by apply swrap_id.
  - apply (reads_map (fun v => Some (I_f64 v))). by apply reads_scalar.
  - intros pre post bud. cbn [de_item]. by rewrite (reads_uvarint v Hi).
  - intros pre post bud. cbn [de_item]. unfold dyn_de_svarint.
    destruct (svarint_unzigzag v Hi) as [Hz Hd]. rewrite (reads_uvarint _ Hz). by rewrite Hd.
  - destruct Hi as [Hs Hl]. intros pre post bud.
    pose proof (reads_blob s Hs Hl pre post bud) as E. cbn beta in E.
    cbn [de_item]. destruct (dyn_de_blob _) as [[o n] r]. by injection E as -> ->.
Qed.

Lemma reads_items l : Forall item_ok l -> reads (de_items (map item_ty l)) (items_bytes l) (Some l).
Proof.
  induction 1 as [|i l Hi _ IH]; intros pre post bud; cbn [map de_items].
  - unfold items_bytes. cbn [mbind list_bind length]. by rewrite Nat.add_0_r.
  - change (items_bytes (i :: l)) with (item_bytes i ++ items_bytes l). rewrite <- app_assoc.
    rewrite (reads_item i Hi). pose proof (IH (pre ++ item_bytes i) post bud) as E.
    rewrite <- app_assoc, length_app in E. rewrite E. cbn [fmap option_fmap option_map]. do 2 f_equal.
    rewrite length_app. lia.
Qed.

(** ** Records *)

Definition header (type_id flags payload : Z) : bytes :=
  DYN_SER_MAGIC ++ le_bytes DYN_SER_VERSION 2 ++ le_bytes type_id 2 ++ le_bytes flags 4 ++ le_bytes payload 8.

Lemma header_length type_id flags n : length (header type_id flags n) = 20%nat.
Proof. unfold header. by rewrite !length_app, !le_bytes_length. Qed.

Lemma header_bytes type_id flags n : is_bytes (header type_id flags n).
Proof. unfold header. rewrite !Forall_app. split_and!; try apply le_bytes_bytes.
  repeat constructor; by vm_compute.
Qed.

Lemma emits_begin type_id flags : emits (dyn_ser_begin type_id flags) (header type_id flags 0).
Proof.
  unfold dyn_ser_begin, header.
  repeat apply emits_then; try (apply emits_le; lia). apply emits_raw. vm_compute. done.
Qed.

(** The fields of the header, whatever follows it. *)
Lemma header_fields type_id flags n rest :
  fits 16 type_id -> fits 32 flags -> fits 64 n -> is_bytes rest ->
  let b := header type_id flags n ++ rest in
  take 4 b = DYN_SER_MAGIC /\ de_le b 4 2 = DYN_SER_VERSION /\ de_le b 6 2 = type_id /\
  de_le b 8 4 = flags /\ de_le b 12 8 = n /\
  take 12 b = DYN_SER_MAGIC ++ le_bytes DYN_SER_VERSION 2 ++ le_bytes type_id 2 ++ le_bytes flags 4 /\
  drop 20 b = rest.
Proof.
  intros Ht Hf Hn Hr b. assert (Hb : is_bytes b) by (apply Forall_app; split; [apply header_bytes|done]).
  rewrite !de_le_load by done. subst b. unfold header. rewrite <- !app_assoc.
  pose proof (load_le_bytes_id DYN_SER_VERSION 2 ltac:(done)). pose proof (load_le_bytes_id type_id 2 Ht).
  pose proof (load_le_bytes_id flags 4 Hf). pose proof (load_le_bytes_id n 8 Hn).
  by split_and!.
Qed.

(** The layout of a finished record. *)
Definition record_bytes (sum : bytes -> Z) (type_id flags : Z) (payload : bytes) : bytes :=
  let b := header type_id flags (Z.of_nat (length payload)) ++ payload in b ++ le_bytes (sum b) 4.

Lemma finish_ok sum type_id flags payload w :
  fits 16 type_id -> fits 32 flags -> is_bytes payload -> ser_inv w -> ser_mem w -> err w = false ->
  buf w = header type_id flags 0 ++ payload -> ser_len w <= 2 ^ 40 - 4 ->
  exists w', dyn_ser_finish sum w = (w', true) /\ buf w' = record_bytes sum type_id flags payload /\ err w' = false.
Proof.
  intros Ht Hf Hp Hi Hm He Hb Hl. unfold dyn_ser_finish.
  assert (Hlen : length (buf w) = (20 + length payload)%nat) by (by rewrite Hb, length_app, header_length).
  rewrite He, Hlen. destruct (Nat.ltb_spec (20 + length payload) DYN_SER_HEADER); [unfold DYN_SER_HEADER in *; lia|].
  cbn [orb]. rewrite Hb. destruct (header_fields type_id flags 0 payload) as (_ & _ & _ & _ & _ & -> & ->); [done..|].
  replace (20 + length payload - DYN_SER_HEADER)%nat with (length payload) by (unfold DYN_SER_HEADER; lia).
  set (b := _ ++ le_bytes (Z.of_nat (length payload)) 8 ++ payload).
  assert (Eb : b = header type_id flags (Z.of_nat (length payload)) ++ payload).
  { subst b. unfold header. by rewrite <- !app_assoc. }
  assert (Lb : length b = length (buf w)) by by rewrite Eb, length_app, header_length, Hlen.
  destruct (emits_le (sum b) 4 ltac:(lia) (mk_ser b (cap w) false (heap w))) as (_ & (s1 & s2 & Es & Ebuf & Et) & _ & Ee & Hok).
  { destruct Hi. split; [done|]. unfold ser_len in *. cbn [buf cap]. by rewrite Lb. }
  destruct Hok as [Hok _]; [done|done|rewrite le_bytes_length; unfold ser_len in *; cbn [buf]; rewrite Lb; lia|].
  unfold dyn_ser_u32. destruct (ser_le (sum b) 4 _) as [w' ok]. cbn [fst snd] in *. subst ok.
  exists w'. rewrite (Et eq_refl), app_nil_r in Es. split_and!; [done| |done].
  rewrite Ebuf, <- Es. unfold record_bytes. by rewrite Eb.
Qed.

Lemma items_bytes_bytes l : Forall item_ok l -> is_bytes (items_bytes l).
Proof.
  assert (Hv : forall v, fits 64 v -> is_bytes (default [] (put_uvarint_loop 10 v))).
  { intros v Hv. destruct (put_uvarint_64 v Hv) as [out E]. rewrite E. eapply put_uvarint_loop_spec; [done|apply Hv]. }
  induction 1 as [|i l Hi _ IH]; [done|]. change (items_bytes (i :: l)) with (item_bytes i ++ items_bytes l).
  apply Forall_app. split; [|done].
  destruct i; cbn [item_ok item_bytes] in *; try apply le_bytes_bytes.
  - by apply Hv.
  - by apply Hv, svarint_unzigzag.
  - apply Forall_app. split; [apply le_bytes_bytes|apply Hi].
Qed.

(** A record the writer finished opens, with its header fields and payload. *)
Lemma open_record sum type_id flags payload max :
  Checksum sum -> fits 16 type_id -> fits 32 flags -> is_bytes payload ->
  Z.of_nat (length payload) <= 2 ^ 40 ->
  Z.of_nat (length payload) <= (if max =? 0 then DYN_SER_DEFAULT_MAX else max) ->
  dyn_de_open sum (record_bytes sum type_id flags payload) max
  = (DYN_DE_OK,
     mk_de payload 0 false (DYN_DE_BUDGET_BASE + DYN_DE_BUDGET_MULT * Z.of_nat (length payload)),
     Some (type_id, flags)).
Proof.
  intros Hs Ht Hf Hp Hl Hmax. unfold record_bytes. set (n := Z.of_nat (length payload)) in *.
  set (b := header type_id flags n ++ payload).
  assert (Bb : is_bytes b) by (apply Forall_app; split; [apply header_bytes|done]).
  assert (Lb : length b = (20 + length payload)%nat) by (subst b; by rewrite length_app, header_length).
  assert (Fs : fits 32 (sum b)) by (apply sum_fits; [done|lia]).
  destruct (header_fields type_id flags n (payload ++ le_bytes (sum b) 4)) as (E0 & E1 & E2 & E3 & E4 & _ & E5);
    [done..|unfold fits; lia|by apply Forall_app; split; [|apply le_bytes_bytes]|].
  cbn zeta in E0, E1, E2, E3, E4, E5. rewrite app_assoc in E0, E1, E2, E3, E4, E5. fold b in E0, E1, E2, E3, E4, E5.
  assert (Lr : length (b ++ le_bytes (sum b) 4) = (24 + length payload)%nat)
    by (rewrite length_app, le_bytes_length; lia).
  unfold dyn_de_open. rewrite Lr, E0, E1, E2, E3, E4. unfold DYN_SER_HEADER, DYN_SER_TRAILER.
  destruct (Nat.ltb_spec (24 + length payload) (20 + 4)); [lia|].
  rewrite bool_decide_true by done. cbn [negb]. rewrite Z.eqb_refl. cbn [negb].
  rewrite ltb_false by done.
  replace (24 + length payload - 20 - 4)%nat with (length payload) by lia.
  rewrite Z.eqb_refl. cbn [negb].
  replace (24 + length payload - 4)%nat with (length b) by lia.
  rewrite de_le_load, drop_app_length, take_app_length, (take_ge (le_bytes _ _)), load_le_bytes_id, Z.eqb_refl
    by (done || (by rewrite le_bytes_length) || (apply Forall_app; split; [done|apply le_bytes_bytes])).
  cbn [negb]. by rewrite E5, take_app_length.
Qed.

(** ** The implementation of the interface *)

Lemma split_tail (l : bytes) : (4 <= length l)%nat ->
  take (length l - 4) l ++ drop (length l - 4) l = l /\ length (drop (length l - 4) l) = 4%nat.
Proof. intros H. split; [apply take_drop|rewrite length_drop; lia]. Qed.

Lemma checked_residue poly l : fits 32 poly -> Z.testbit poly 31 = true -> is_bytes l -> (4 <= length l)%nat ->
  checked (fun d => dyn_crc32_bitwise d poly) l <->
  fold_left (crc_byte poly) l 0xFFFFFFFF = Xn poly 32 0xFFFFFFFF.
Proof.
  intros Hp Ht Hl H4. destruct (split_tail l H4) as [E Ht4]. unfold checked.
  rewrite (crc_residue poly) by (done || by apply Forall_take || by apply Forall_drop). by rewrite E.
Qed.

(** Two checked strings do not differ within four bytes only: the residue of the
    whole tells them apart. *)
Lemma crc32_bitwise_burst poly pre w w' post : fits 32 poly -> Z.testbit poly 31 = true ->
  is_bytes (pre ++ w ++ post) -> is_bytes w' -> length w' = length w -> (length w <= 4)%nat -> w <> w' ->
  (4 <= length (pre ++ w ++ post))%nat ->
  checked (fun d => dyn_crc32_bitwise d poly) (pre ++ w ++ post) ->
  ~ checked (fun d => dyn_crc32_bitwise d poly) (pre ++ w' ++ post).
Proof.
  intros Hp Ht Hb Hw' Hlen H4 Hne Hl4 Hc Hc'.
  assert (Hl' : length (pre ++ w' ++ post) = length (pre ++ w ++ post)) by (rewrite !length_app; lia).
  pose proof Hb as Hb'. rewrite !Forall_app in Hb'. destruct Hb' as (Hpre & Hw & Hpost).
  rewrite (checked_residue poly) in Hc, Hc' by (done || lia || by rewrite !Forall_app).
  apply (crc_residue_burst poly pre w w' post); try done. congruence.
Qed.

Section Crc32c.
Context {insn : CrcInsn} (hw_ok : bool) `{!CrcInsnLaws DYN_CRC32C_POLY}.

(** With or without the instruction the checksum is the bitwise one. *)
Lemma dyn_crc32c_bitwise d : is_bytes d -> Z.of_nat (length d) < 2 ^ 61 ->
  dyn_crc32c hw_ok d = dyn_crc32_bitwise d DYN_CRC32C_POLY.
Proof.
  intros Hd Hl. unfold dyn_crc32c. case_if; [|by apply crc32c_slice8].
  by apply crc32_hw_ok; [| |apply crc32c_pow_ok|..].
Qed.

Lemma dyn_crc32c_checked l : is_bytes l -> Z.of_nat (length l) < 2 ^ 61 ->
  checked (dyn_crc32c hw_ok) l <-> checked (fun d => dyn_crc32_bitwise d DYN_CRC32C_POLY) l.
Proof.
  intros Hl Hn. unfold checked. rewrite dyn_crc32c_bitwise; [done|by apply Forall_take|rewrite length_take; lia].
Qed.

#[export] Instance dyn_crc32c_checksum : Checksum (dyn_crc32c hw_ok).
Proof.
  split. intros d Hd Hl. rewrite dyn_crc32c_bitwise by done. apply lxor_fits; [lia| |done]. by apply crc_fold_fits.
Qed.

Lemma dyn_crc32c_burst pre w w' post :
  is_bytes (pre ++ w ++ post) -> is_bytes w' -> length w' = length w -> (length w <= 4)%nat -> w <> w' ->
  (4 <= length (pre ++ w ++ post))%nat -> Z.of_nat (length (pre ++ w ++ post)) < 2 ^ 61 ->
  checked (dyn_crc32c hw_ok) (pre ++ w ++ post) -> ~ checked (dyn_crc32c hw_ok) (pre ++ w' ++ post).
Proof.
  intros Hb Hw' Hlen H4 Hne Hl4 Hl. rewrite !dyn_crc32c_checked; [by apply crc32_bitwise_burst| |..|done|done].
  - rewrite !Forall_app in Hb |- *. by destruct Hb as (? & ? & ?).
  - rewrite !length_app in Hl |- *. lia.
Qed.

End Crc32c.

(** ** Reader requests *)

Inductive req := R_scalar (n : nat) | R_raw (n : Z) | R_blob | R_count (elem_size : Z) | R_charge (n : Z)
  | R_uvarint | R_svarint.

Definition de_run (r : dyn_de_t) (q : req) : dyn_de_t :=
  match q with
  | R_scalar n => (de_scalar n r).2
  | R_raw n => (dyn_de_raw r n).2
  | R_blob => (dyn_de_blob r).2
  | R_count s => (dyn_de_count s r).2
  | R_charge n => (dyn_de_charge r n).1
  | R_uvarint => (dyn_de_uvarint r).2
  | R_svarint => (dyn_de_svarint r).2
  end.

(** [r'] is a later state of the reader [r]. *)
Definition de_later (r r' : dyn_de_t) : Prop :=
  p r' = p r /\ (pos r <= pos r' <= length (p r))%nat /\
  (de_err r = true -> de_err r' = true /\ pos r' = pos r) /\ budget r' <= budget r.

Definition req_ok (q : req) : Prop :=
  match q with R_raw n => 0 <= n | R_charge n => 0 <= n | _ => True end.

Lemma de_later_refl r : (pos r <= length (p r))%nat -> de_later r r.
Proof. intros. unfold de_later. split_and!; auto with lia. Qed.

Lemma de_later_trans r r' r'' : de_later r r' -> de_later r' r'' -> de_later r r''.
Proof.
  intros (E1 & H1 & F1 & B1) (E2 & H2 & F2 & B2). unfold de_later. rewrite E1 in *.
  split_and!; [congruence|lia|lia| |lia]. intros He. destruct (F1 He) as [He' ?].
  destruct (F2 He') as [? ?]. split; congruence.
Qed.

Lemma de_later_fail r : (pos r <= length (p r))%nat -> de_later r (de_fail r).
Proof. intros. unfold de_later, de_fail. cbn. split_and!; auto with lia. Qed.

Lemma de_take_later r n : 0 <= n -> (pos r <= length (p r))%nat -> de_later r (de_take r n).2.
Proof.
  intros Hn Hp. unfold de_take, de_left. case_if; [by apply de_later_fail|]. bprop.
  unfold de_later. cbn [fst snd p pos de_err budget]. split_and!; [done|lia|lia| |lia]. congruence.
Qed.

Lemma de_scalar_later n r : (pos r <= length (p r))%nat -> de_later r (de_scalar n r).2.
Proof.
  intros Hp. pose proof (de_take_later r (Z.of_nat n) ltac:(lia) Hp) as H. unfold de_scalar.
  by destruct (de_take _ _).
Qed.

Lemma de_later_pos r r' : de_later r r' -> (pos r' <= length (p r'))%nat.
Proof. intros (-> & H & _). lia. Qed.

Lemma de_uvarint_later fuel shift v r : (pos r <= length (p r))%nat -> de_later r (de_uvarint_loop fuel shift v r).2.
Proof.
  revert shift v r. induction fuel as [|fuel IH]; intros shift v r Hp; cbn [de_uvarint_loop]; [by apply de_later_refl|].
  pose proof (de_scalar_later 1 r Hp) as H1. unfold dyn_de_u8. destruct (de_scalar 1 r) as [b r1]. cbn [snd] in H1.
  repeat case_if; try exact H1. eapply de_later_trans; [exact H1|]. apply IH. by eapply de_later_pos.
Qed.

Lemma de_scalar_nonneg n r : is_bytes (p r) -> 0 <= (de_scalar n r).1.
Proof.
  intros Hb. unfold de_scalar, de_take. case_if; cbn [fst]; [done|].
  rewrite de_le_load by by apply Forall_take, Forall_drop.
  by apply load_le_nonneg, Forall_take, Forall_drop, Forall_take, Forall_drop.
Qed.

Lemma de_run_later r q : req_ok q -> is_bytes (p r) -> (pos r <= length (p r))%nat -> de_later r (de_run r q).
Proof.
  intros Hq Hb Hp. destruct q as [n|n| |es|n| |]; cbn [req_ok de_run] in *.
  - by apply de_scalar_later.
  - by apply de_take_later.
  - unfold dyn_de_blob, dyn_de_u32. pose proof (de_scalar_later 4 r Hp) as H1.
    pose proof (de_scalar_nonneg 4 r Hb) as Hn.
    destruct (de_scalar 4 r) as [len r1]. cbn [fst snd] in *. pose proof (de_later_pos _ _ H1) as Hp1.
    case_if; bprop; cbn [snd]; [eapply de_later_trans; [exact H1|by apply de_later_fail]|].
    pose proof (de_take_later r1 len Hn Hp1) as H2. destruct (de_take r1 len). by eapply de_later_trans.
  - unfold dyn_de_count, dyn_de_u32. pose proof (de_scalar_later 4 r Hp) as H1.
    destruct (de_scalar 4 r) as [n r1]. cbn [snd] in *. pose proof (de_later_pos _ _ H1) as Hp1.
    repeat case_if; cbn [snd]; try exact H1; (eapply de_later_trans; [exact H1|by apply de_later_fail]).
  - unfold dyn_de_charge. case_if; cbn [fst]; [by apply de_later_fail|].
    unfold de_later. cbn [p pos de_err budget]. split_and!; [done|lia|lia|done|lia].
  - by apply de_uvarint_later.
  - unfold dyn_de_svarint. pose proof (de_uvarint_later 10 0 0 r Hp) as H. unfold dyn_de_uvarint.
    by destruct (de_uvarint_loop _ _ _ _).
Qed.

Lemma open_ok sum b max r tf : is_bytes b -> dyn_de_open sum b max = (DYN_DE_OK, r, tf) ->
  (24 <= length b)%nat /\ checked sum b /\ is_bytes (p r) /\ pos r = 0%nat /\ de_err r = false /\
  p r = take (length b - 24) (drop 20 b) /\ budget r = DYN_DE_BUDGET_BASE + DYN_DE_BUDGET_MULT * Z.of_nat (length b - 24).
Proof.
  intros Hb. unfold dyn_de_open, DYN_SER_HEADER, DYN_SER_TRAILER. intros H.
  set (mx := if max =? 0 then _ else _) in H. clearbody mx.
  repeat case_if_in H; try done. bprop. injection H as <- _. cbn [p pos de_err budget].
  replace (length b - 20 - 4)%nat with (length b - 24)%nat in * by lia.
  split_and!; try done; [|by apply Forall_take, Forall_drop|congruence].
  unfold checked. rewrite de_le_load in * by done.
  match goal with H : load_le (take 4 _) = _ |- _ => rewrite take_ge in H by (rewrite length_drop; lia); exact H end.
Qed.

Module Serial_props.

(** C3. Any record a client writes, with whatever sequence of scalars, varints and
    blobs, is read back by the matching sequence of reads: the writer succeeds
    when memory does, the bytes it hands over open without error under any
    limit the payload respects, the header fields come back, every value comes
    back, no error is raised and nothing is left unread. *)
Theorem record_roundtrip sum type_id flags items mem max :
  Checksum sum -> Forall item_ok items -> fits 16 type_id -> fits 32 flags ->
  Forall (fun b => b = true) mem -> Z.of_nat (length (items_bytes items)) <= 2 ^ 40 - 24 ->
  Z.of_nat (length (items_bytes items)) <= (if max =? 0 then DYN_SER_DEFAULT_MAX else max) ->
  exists w r r',
    ser_record sum type_id flags items mem = (w, true) /\
    dyn_de_open sum (dyn_ser_take w).1 max = (DYN_DE_OK, r, Some (type_id, flags)) /\
    de_items (map item_ty items) r = (Some items, r') /\
    dyn_de_ok r' = true /\ dyn_de_left r' = 0.
Proof.
  intros Hs Hi Ht Hf Hm Hl Hmax. set (s := items_bytes items) in *.
  assert (Hp : is_bytes s) by by apply items_bytes_bytes.
  pose proof (emits_then _ _ _ _ (emits_begin type_id flags) (emits_items items Hi)) as He.
  destruct (He (dyn_ser_init mem)) as (Hinv & (s1 & s2 & Es & Eb & Et) & _ & Herr & Hok).
  { split; [by left|done]. }
  destruct Hok as [Hok Hmem]; [done|done|rewrite length_app, header_length; change (ser_len _) with 0; fold s; lia|].
  set (w1 := (dyn_ser_begin type_id flags ;;; ser_items items) (dyn_ser_init mem)) in *.
  rewrite (Et Hok), app_nil_r in Es. subst s1. rewrite Hok in Herr. cbn [negb] in Herr.
  destruct (finish_ok sum type_id flags s w1.1) as (w & Ew & Ewb & Ewe); try done.
  { unfold ser_len. rewrite Eb, !length_app, header_length. fold s. cbn. lia. }
  exists w. eexists _, _. split.
  { unfold ser_record. unfold ser_then at 1. subst w1. unfold ser_then at 1 in Hok.
    unfold ser_then at 1 in Ew.
    destruct (dyn_ser_begin _ _ _) as [w0 []]; [|done]. unfold ser_then.
    destruct (ser_items items w0) as [w2 ok]. cbn [fst snd] in *. by subst ok. }
  unfold dyn_ser_take. cbn [fst]. rewrite Ewb, (open_record sum type_id flags s max) by (done || lia).
  split; [done|]. pose proof (reads_items items Hi [] [] (DYN_DE_BUDGET_BASE + DYN_DE_BUDGET_MULT * Z.of_nat (length s))) as Hr.
  rewrite app_nil_r, app_nil_l in Hr. fold s in Hr. cbn [length Nat.add] in Hr. split; [exact Hr|].
  split; [done|]. unfold dyn_de_left, de_left. cbn. lia.
Qed.

Lemma record_roundtrip_witness :
  let items := [I_u16 513; I_svarint (-5); I_blob (str "ab"); I_i64 (-1); I_uvarint 300] in
  let sum := @dyn_crc32c (soft_insn DYN_CRC32C_POLY) false in
  exists w r r',
    ser_record sum 7 9 items [] = (w, true) /\
    dyn_de_open sum (dyn_ser_take w).1 0 = (DYN_DE_OK, r, Some (7, 9)) /\
    de_items (map item_ty items) r = (Some items, r') /\ dyn_de_ok r' = true /\ dyn_de_left r' = 0.
Proof.
  intros items sum. apply record_roundtrip.
  - apply dyn_crc32c_checksum. by apply soft_insn_laws.
  - repeat constructor; by vm_compute.
  - by vm_compute.
  - by vm_compute.
  - done.
  - by vm_compute.
  - by vm_compute.
Defined.

(** C29. A record damaged anywhere, header and checksum included, within four
    consecutive bytes no longer opens, whatever the size limit.  The checksum is
    dyn_crc32c, with the instruction or without. *)
Theorem record_damage_detected (insn : CrcInsn) hw_ok pre w w' post max max' r tf :
  @CrcInsnLaws DYN_CRC32C_POLY insn -> is_bytes (pre ++ w ++ post) -> is_bytes w' ->
  length w' = length w -> (length w <= 4)%nat -> w <> w' ->
  Z.of_nat (length (pre ++ w ++ post)) < 2 ^ 61 ->
  dyn_de_open (dyn_crc32c hw_ok) (pre ++ w ++ post) max = (DYN_DE_OK, r, tf) ->
  (dyn_de_open (dyn_crc32c hw_ok) (pre ++ w' ++ post) max').1.1 <> DYN_DE_OK.
Proof.
  intros Hs Hb Hw' Hl H4 Hne Hlen Ho Ho'. apply open_ok in Ho as (L & C & _); [|done].
  destruct (dyn_de_open _ (pre ++ w' ++ post) max') as [[c r'] tf'] eqn:E. cbn [fst] in Ho'. subst c.
  apply open_ok in E as (_ & C' & _).
  - eapply (dyn_crc32c_burst hw_ok pre w w' post); try done. lia.
  - rewrite !Forall_app in Hb |- *. by destruct Hb as (? & ? & ?).
Qed.

Lemma record_damage_detected_witness :
  let sum := @dyn_crc32c (soft_insn DYN_CRC32C_POLY) false in
  let b := record_bytes sum 7 9 [1; 2] in
  dyn_de_open sum (take 20 b ++ [1] ++ drop 21 b) 0 = dyn_de_open sum b 0 /\
  (dyn_de_open sum (take 20 b ++ [3] ++ drop 21 b) 0).1.1 <> DYN_DE_OK.
Proof.
  intros sum b. split; [by vm_compute|].
  apply (record_damage_detected (soft_insn DYN_CRC32C_POLY) false (take 20 b) [1] [3] (drop 21 b) 0 0
    (mk_de [1; 2] 0 false 536871040) (Some (7, 9))).
  - by apply soft_insn_laws.
  - repeat constructor; by vm_compute.
  - repeat constructor; by vm_compute.
  - done.
  - cbn. lia.
  - done.
  - by vm_compute.
  - by vm_compute.
Defined.

(** C40. On any opened record and under any sequence of reads, counts and budget
    charges, the reader stays within the payload, never moves back, never
    regains budget, and once an error is raised stays put with the error. *)
Theorem reader_stays_inside sum b max r tf (qs : list req) :
  is_bytes b -> dyn_de_open sum b max = (DYN_DE_OK, r, tf) -> Forall req_ok qs ->
  let r' := fold_left de_run qs r in
  de_later r r' /\ p r' = take (length b - 24) (drop 20 b) /\
  budget r' <= DYN_DE_BUDGET_BASE + DYN_DE_BUDGET_MULT * Z.of_nat (length b).
Proof.
  intros Hb Ho Hq r'. apply open_ok in Ho as (L & _ & Bp & P0 & E0 & Ep & Eb); [|done].
  assert (H : de_later r r').
  { subst r'. clear -Hq Bp P0. assert (Hp : (pos r <= length (p r))%nat) by lia. clear P0.
    revert r Bp Hp. induction Hq as [|q qs Hq _ IH]; intros r Bp Hp; [by apply de_later_refl|].
    rewrite fold_left_cons. pose proof (de_run_later r q Hq Bp Hp) as H.
    eapply de_later_trans; [exact H|]. apply IH; [by destruct H as [-> _]|by eapply de_later_pos]. }
  split; [done|]. destruct H as (-> & _ & _ & H). split; [done|].
  unfold DYN_DE_BUDGET_MULT in *. lia.
Qed.

Lemma reader_stays_inside_witness :
  let sum := @dyn_crc32c (soft_insn DYN_CRC32C_POLY) false in
  let b := record_bytes sum 7 9 [1; 2; 0; 0; 0] in
  exists r, dyn_de_open sum b 0 = (DYN_DE_OK, r, Some (7, 9)) /\
    de_later r (fold_left de_run [R_uvarint; R_count 8; R_blob] r).
Proof.
  intros sum b. exists (mk_de [1; 2; 0; 0; 0] 0 false 536871232). split; [by vm_compute|].
  apply (reader_stays_inside sum b 0 (mk_de [1; 2; 0; 0; 0] 0 false 536871232) (Some (7, 9))).
  - repeat constructor; by vm_compute.
  - by vm_compute.
  - repeat constructor.
Defined.

End Serial_props.
