(* ===== verification/Snappy.v ===== *)
(** * Snappy

    The block compressor and decompressor of src/core/dyn-snappy.c.  The input
    still to be read (from [src + p] to [src + len]) is a list; the growing
    output is the list of the bytes written.  [ob_heap] answers the realloc
    calls still to come, one boolean each; when it is used up they succeed.  In the
    decompressor an access outside of the input, of the bytes written or of the
    allocated output is [None]; the compressor's [None] is its -1. *)
From Stdlib Require Import ZArith Lia.
From stdpp Require Import base numbers list option gmap.
From S2P Require Import Prelude Varint CrcTables Crc.

Record dyn_outbuf_t := mk_out { ob_buf : bytes; ob_cap : Z; ob_exceeded : bool; ob_heap : list bool }.

Definition ob_len (o : dyn_outbuf_t) : Z := Z.of_nat (length (ob_buf o)).

(** The doubling loop: [nc] at least 1 is doubled at most 64 times. *)
Fixpoint sn_grow_loop (fuel : nat) (nc need cap : Z) : Z :=
  match fuel with
  | O => nc
  | S fuel =>
      if nc <? need then
        if cap / 2 <? nc then cap else sn_grow_loop fuel (u64 (nc * 2)) need cap
      else nc
  end.

Definition sn_grow (o : dyn_outbuf_t) (extra cap : Z) : dyn_outbuf_t * bool :=
  if u64 (cap - ob_len o) <? extra then (o, false) else
  let need := u64 (ob_len o + extra) in
  if need <=? ob_cap o then (o, true) else
  let nc := sn_grow_loop 64 (if negb (ob_cap o =? 0) then ob_cap o else 256) need cap in
  let nc := if nc <? need then need else nc in
  if hd true (ob_heap o) then (mk_out (ob_buf o) nc (ob_exceeded o) (tl (ob_heap o)), true)
  else (mk_out (ob_buf o) (ob_cap o) (ob_exceeded o) (tl (ob_heap o)), false).

(** The output with [out] in its array. *)
Definition ob_write (o : dyn_outbuf_t) (out : bytes) : option dyn_outbuf_t :=
  if ob_cap o <? Z.of_nat (length out) then None else Some (mk_out out (ob_cap o) (ob_exceeded o) (ob_heap o)).

(** [None] is the return of -1; otherwise the value and the rest. *)
Fixpoint sn_varint (src : bytes) (shift v : Z) : option (Z * bytes) :=
  match src with
  | [] => None
  | b :: src =>
      if shift <? 35 then
        if (shift =? 28) && (0x0F <? b) then None else
        let v := v .| u32 ((b & 0x7f) << shift) in
        if (b & 0x80) =? 0 then Some (v, src) else sn_varint src (shift + 7) v
      else None
  end.

(** The byte-by-byte copy of an overlapping match. *)
Fixpoint sn_copy_bytes (n off : nat) (out : bytes) : option bytes :=
  match n with
  | O => Some out
  | S n => b ← aread out (Z.of_nat (length out) - Z.of_nat off); sn_copy_bytes n off (out ++ [b])
  end.

(** What the copy branch leaves in the buffer: memcpy, or the loop when source
    and target overlap. *)
Definition sn_copy (off llen : Z) (out : bytes) : option bytes :=
  let n := Z.to_nat llen in
  let k := Z.to_nat off in
  if llen <=? off then
    if (length out <? k)%nat then None else
    s ← aslice out (length out - k) n;
    Some (out ++ s)
  else sn_copy_bytes n k out.

(** The length field of a literal element and the rest; the inner [None] is the
    return of -1. *)
Definition sn_literal_args (tag : Z) (src : bytes) : option (option (Z * bytes)) :=
  let llen := tag >> 2 in
  if 60 <=? llen then
    let nb := Z.to_nat (llen - 59) in
    if (length src <? nb)%nat then Some None else
    x ← aslice src 0 nb;
    Some (Some (load_le x, drop nb src))
  else Some (Some (llen, src)).

(** The state on failure is kept, as the caller sees it. *)
Definition sn_literal (tag : Z) (src : bytes) (cap : Z) (o : dyn_outbuf_t) : option (dyn_outbuf_t * option bytes) :=
  args ← sn_literal_args tag src;
  match args with
  | None => Some (o, None)
  | Some (llen, src) =>
      let need := llen + 1 in
      if Z.of_nat (length src) <? need then Some (o, None) else
      let '(o, ok) := sn_grow o need cap in
      if negb ok then Some (o, None) else
      s ← aslice src 0 (Z.to_nat need);
      o ← ob_write o (ob_buf o ++ s);
      Some (o, Some (drop (Z.to_nat need) src))
  end.

(** Length, offset and rest of a copy element. *)
Definition sn_copy_args (tag : Z) (src : bytes) : option (option (Z * Z * bytes)) :=
  if (tag & 3) =? 1 then
    if (length src <=? 0)%nat then Some None else
    b ← aread src 0;
    Some (Some (4 + ((tag >> 2) & 7), ((tag >> 5) << 8) .| b, drop 1 src))
  else
    let nb := if (tag & 3) =? 2 then 2%nat else 4%nat in
    if (length src <? nb)%nat then Some None else
    x ← aslice src 0 nb;
    Some (Some ((tag >> 2) + 1, load_le x, drop nb src)).

Definition sn_match (tag : Z) (src : bytes) (cap : Z) (o : dyn_outbuf_t) : option (dyn_outbuf_t * option bytes) :=
  args ← sn_copy_args tag src;
  match args with
  | None => Some (o, None)
  | Some (llen, off, src) =>
      if (off =? 0) || (ob_len o <? off) then Some (o, None) else
      let '(o, ok) := sn_grow o llen cap in
      if negb ok then Some (o, None) else
      out ← sn_copy off llen (ob_buf o);
      o ← ob_write o out;
      Some (o, Some src)
  end.

(** The element loop; every turn consumes the tag, so the input length is
    enough fuel. *)
Fixpoint sn_elements (fuel : nat) (src : bytes) (cap : Z) (o : dyn_outbuf_t) : option (dyn_outbuf_t * bool) :=
  match src with
  | [] => Some (o, true)
  | tag :: src =>
      match fuel with
      | O => None
      | S fuel =>
          r ← (if (tag & 3) =? 0 then sn_literal tag src cap o else sn_match tag src cap o);
          match r with
          | (o, None) => Some (o, false)
          | (o, Some src) => sn_elements fuel src cap o
          end
      end
  end.

Definition dyn_snappy_decompress (src : bytes) (cap : Z) (o : dyn_outbuf_t) : option (dyn_outbuf_t * bool) :=
  match sn_varint src 0 0 with
  | None => Some (o, false)
  | Some (declared, rest) =>
      if cap <? declared then Some (mk_out (ob_buf o) (ob_cap o) true (ob_heap o), false) else
      r ← sn_elements (length src) rest cap o;
      Some (r.1, r.2 && (ob_len r.1 =? declared))
  end.

(** ** The compressor *)

Definition SN_HASH_BITS : Z := 16.

(** Four bytes at [src + i]. *)
Definition sn_word (src : bytes) (i : nat) : Z := load_le (take 4 (drop i src)).

Definition sn_hash (src : bytes) (i : nat) : Z := u32 (sn_word src i * 0x1e35a7bd) >> (32 - SN_HASH_BITS).

Fixpoint sn_write_varint (fuel : nat) (v : Z) : bytes :=
  match fuel with
  | O => []
  | S fuel => if 0x80 <=? v then u8 (v .| 0x80) :: sn_write_varint fuel (v >> 7) else [u8 v]
  end.

(** [while ((x >> (8 * nb)) != 0) nb++], from 1; [x] has 32 bits. *)
Fixpoint sn_lit_bytes (fuel : nat) (x : Z) (nb : nat) : nat :=
  match fuel with
  | O => nb
  | S fuel => if (x >> (8 * Z.of_nat nb)) =? 0 then nb else sn_lit_bytes fuel x (S nb)
  end.

(** [x] written low byte first. *)
Fixpoint sn_le (x : Z) (nb : nat) : bytes :=
  match nb with O => [] | S nb => u8 (x & 0xff) :: sn_le (x >> 8) nb end.

(** [None] when the output does not fit [cap]. *)
Definition sn_flush_lit (out : bytes) (cap : nat) (lit : bytes) : option bytes :=
  let litn := length lit in
  let o := length out in
  if (litn <=? 60)%nat then
    if (cap <? o + 1 + litn)%nat then None
    else Some (out ++ [u8 ((Z.of_nat litn - 1) << 2)] ++ lit)
  else
    let x := u32 (Z.of_nat litn - 1) in
    let nb := sn_lit_bytes 4 x 1 in
    if (cap <? o + 1 + nb + litn)%nat then None
    else Some (out ++ [u8 ((59 + Z.of_nat nb) << 2)] ++ sn_le x nb ++ lit).

Record sn_state := mk_sn { sn_i : nat; sn_out : bytes; sn_tab : gmap Z Z; sn_lit : bytes }.

(** [while (i + mlen < len && src[i + mlen] == src[i + mlen - off]) mlen++] *)
Fixpoint sn_match_len (fuel : nat) (src : bytes) (i off mlen : nat) : nat :=
  match fuel with
  | O => mlen
  | S fuel =>
      if (i + mlen <? length src)%nat && (nth (i + mlen) src 0 =? nth (i + mlen - off) src 0)
      then sn_match_len fuel src i off (S mlen) else mlen
  end.

(** The copy elements of one match, at most 64 bytes each. *)
Fixpoint sn_emit_copies (fuel : nat) (out : bytes) (cap : nat) (off : Z) (mlen i : nat) : option (bytes * nat) :=
  match fuel with
  | O => Some (out, i)
  | S fuel =>
      if (mlen =? 0)%nat then Some (out, i) else
      let n := if (64 <? mlen)%nat then 64%nat else mlen in
      if (cap <? length out + 3)%nat then None else
      sn_emit_copies fuel
        (out ++ [u8 ((Z.of_nat n - 1) << 2) .| 2; u8 (off & 0xff); u8 ((off >> 8) & 0xff)])
        cap off (mlen - n) (i + n)
  end.

Definition sn_flush_pending (out : bytes) (cap : nat) (lit : bytes) : option bytes :=
  match lit with [] => Some out | _ => sn_flush_lit out cap lit end.

(** [lit] is full: flushed and emptied. *)
Definition sn_literal_step (src : bytes) (cap : nat) (s : sn_state) : option sn_state :=
  let lit := sn_lit s ++ [nth (sn_i s) src 0] in
  if (length lit =? 256)%nat then
    out ← sn_flush_lit (sn_out s) cap lit; Some (mk_sn (S (sn_i s)) out (sn_tab s) [])
  else Some (mk_sn (S (sn_i s)) (sn_out s) (sn_tab s) lit).

Definition sn_match_step (src : bytes) (cap : nat) (cand : Z) (s : sn_state) : option sn_state :=
  let i := sn_i s in
  let off := u32 (Z.of_nat i - cand + 1) in
  let mlen := sn_match_len (length src) src i (Z.to_nat off) 4 in
  out ← sn_flush_pending (sn_out s) cap (sn_lit s);
  '(out, i) ← sn_emit_copies mlen out cap off mlen i;
  Some (mk_sn i out (sn_tab s) []).

Definition sn_cand (src : bytes) (s : sn_state) : Z :=
  if (sn_i s + 4 <=? length src)%nat then default 0 (sn_tab s !! sn_hash src (sn_i s)) else 0.

Definition sn_is_match (src : bytes) (i : nat) (cand : Z) : bool :=
  negb (cand =? 0) && (cand <=? Z.of_nat i) && (Z.of_nat i - cand <=? 65534)
  && (sn_word src i =? sn_word src (Z.to_nat (cand - 1))).

(** The table store that ends a turn. *)
Definition sn_record (src : bytes) (s : sn_state) : sn_state :=
  if (sn_i s + 4 <=? length src)%nat
  then mk_sn (sn_i s) (sn_out s) (<[sn_hash src (sn_i s) := u32 (Z.of_nat (sn_i s) + 1)]> (sn_tab s)) (sn_lit s)
  else s.

Definition sn_turn (src : bytes) (cap : nat) (s : sn_state) : option sn_state :=
  let cand := sn_cand src s in
  s ← (if sn_is_match src (sn_i s) cand then sn_match_step src cap cand s else sn_literal_step src cap s);
  Some (sn_record src s).

(** The main loop; every turn advances [i], so the input length is enough. *)
Fixpoint sn_loop (fuel : nat) (src : bytes) (cap : nat) (s : sn_state) : option sn_state :=
  match fuel with
  | O => Some s
  | S fuel =>
      if (sn_i s <? length src)%nat then s ← sn_turn src cap s; sn_loop fuel src cap s else Some s
  end.

(** [None] is -1: no memory ([mem], one answer per allocation) or no room. *)
Definition dyn_snappy_compress (src : bytes) (mem_out mem_tab : bool) : option bytes :=
  let cap := (length src + length src / 50 + 16)%nat in
  if negb mem_out then None else
  if negb mem_tab then None else
  let out := sn_write_varint 5 (u32 (Z.of_nat (length src))) in
  s ← sn_loop (length src) src cap (mk_sn 0 out ∅ []);
  sn_flush_pending (sn_out s) cap (sn_lit s).

(** ** Growing the output *)

(** The loop stops with room enough, before its fuel does. *)
Lemma sn_grow_loop_enough fuel nc need cap :
  1 <= nc -> need <= cap < 2 ^ 64 -> cap < nc * 2 ^ Z.of_nat fuel -> need <= sn_grow_loop fuel nc need cap.
Proof.
  revert nc. induction fuel as [|fuel IH]; intros nc Hnc Hn Hf; cbn [sn_grow_loop].
  - change (2 ^ Z.of_nat 0) with 1 in Hf. lia.
  - case_ifs; [lia| |lia]. assert (nc * 2 <= cap) by zdm. rewrite wrap_id by (unfold fits; lia).
    apply IH; [lia|lia|]. rewrite Nat2Z.inj_succ, Z.pow_succ_r in Hf by lia. lia.
Qed.

(** The output stays within its allocation and within the caller's limit. *)
Definition ob_inv (cap : Z) (o : dyn_outbuf_t) : Prop :=
  ob_len o <= ob_cap o /\ ob_len o <= cap.

(** After a successful growth there is room for [extra] more bytes. *)
Lemma sn_grow_spec o extra cap :
  ob_inv cap o -> 0 <= extra -> 0 <= cap < 2 ^ 63 ->
  let '(o', ok) := sn_grow o extra cap in
  ob_buf o' = ob_buf o /\ ob_exceeded o' = ob_exceeded o /\ ob_inv cap o' /\
  (ok = true -> ob_len o' + extra <= ob_cap o' /\ ob_len o' + extra <= cap) /\
  (Forall (fun b => b = true) (ob_heap o) ->
   Forall (fun b => b = true) (ob_heap o') /\ (ob_len o + extra <= cap -> ok = true)).
Proof.
  intros [Hc Hl] He Hcap. unfold sn_grow, ob_inv.
  assert (0 <= ob_len o) by (unfold ob_len; lia). rewrite wrap_id by (unfold fits; lia).
  destruct (Z.ltb_spec (cap - ob_len o) extra); [split_and!; try done; split; [done|lia]|].
  rewrite wrap_id by (unfold fits; lia).
  destruct (Z.leb_spec (ob_len o + extra) (ob_cap o)); [split_and!; (done || lia)|].
  destruct (hd true (ob_heap o)) eqn:Eh; unfold ob_len in *; cbn [ob_buf ob_cap ob_exceeded ob_heap].
  - split_and!; try done; [case_ifs; lia|intros _; case_ifs; lia|].
    destruct (ob_heap o); [done|]. by intros [_ ?]%Forall_cons_iff.
  - split_and!; try done. destruct (ob_heap o); [done|]. intros [-> ?]%Forall_cons_iff. done.
Qed.

(** ** Copies *)

(** [n] times the byte [off] places back. *)
Fixpoint back_copy (n off : nat) (out : bytes) : bytes :=
  match n with
  | O => out
  | S n => back_copy n off (out ++ [nth (length out - off) out 0])
  end.

Lemma back_copy_length n off out : length (back_copy n off out) = (length out + n)%nat.
Proof.
  revert out. induction n as [|n IH]; intros out; cbn [back_copy]; [lia|].
  rewrite IH, length_app. cbn. lia.
Qed.

Lemma back_copy_prefix n off out : out `prefix_of` back_copy n off out.
Proof.
  revert out. induction n as [|n IH]; intros out; cbn [back_copy]; [done|].
  etrans; [|apply IH]. by apply prefix_app_r.
Qed.

(** Where source and target do not overlap the memcpy is the byte loop. *)
Lemma back_copy_memcpy n m k out :
  (m + n <= k <= length out)%nat ->
  back_copy n k (out ++ take m (drop (length out - k) out)) = out ++ take (m + n) (drop (length out - k) out).
Proof.
  revert m. induction n as [|n IH]; intros m Hk; cbn [back_copy]; [by rewrite Nat.add_0_r|].
  assert (Hlt : length (take m (drop (length out - k) out)) = m) by (rewrite length_take, length_drop; lia).
  rewrite length_app, Hlt. rewrite app_nth1 by lia. rewrite <- app_assoc.
  replace (take m (drop (length out - k) out) ++ [nth (length out + m - k) out 0])
    with (take (S m) (drop (length out - k) out)); [rewrite IH by lia; do 2 f_equal; lia|].
  assert (Hx : drop (length out - k) out !! m = Some (nth (length out + m - k) out 0)).
  { rewrite lookup_drop. replace (length out - k + m)%nat with (length out + m - k)%nat by lia.
    rewrite nth_lookup. destruct (lookup_lt_is_Some_2 out (length out + m - k)) as [x Hx]; [lia|].
    by rewrite Hx. }
  by rewrite (take_S_r _ _ _ Hx).
Qed.

(** The loop of the code reads written bytes only. *)
Lemma sn_copy_bytes_back n k out : (1 <= k <= length out)%nat -> sn_copy_bytes n k out = Some (back_copy n k out).
Proof.
  revert out. induction n as [|n IH]; intros out Hk; cbn [sn_copy_bytes back_copy]; [done|].
  replace (Z.of_nat (length out) - Z.of_nat k) with (Z.of_nat (length out - k)) by lia. rewrite aread_nat.
  destruct (lookup_lt_is_Some_2 out (length out - k)) as [x Hx]; [lia|]. rewrite Hx. cbn [mbind option_bind].
  rewrite nth_lookup, Hx. apply IH. rewrite length_app. cbn [length]. lia.
Qed.

Lemma sn_copy_back off llen out :
  0 <= llen -> 1 <= off <= Z.of_nat (length out) ->
  sn_copy off llen out = Some (back_copy (Z.to_nat llen) (Z.to_nat off) out).
Proof.
  intros Hl Ho. unfold sn_copy. destruct (Z.leb_spec llen off); [|apply sn_copy_bytes_back; lia].
  destruct (Nat.ltb_spec (length out) (Z.to_nat off)); [lia|]. rewrite aslice_in by lia. cbn [mbind option_bind].
  pose proof (back_copy_memcpy (Z.to_nat llen) 0 (Z.to_nat off) out) as E.
  rewrite take_0, app_nil_r in E. rewrite E by lia. done.
Qed.

(** ** The format

    The elements of a snappy block and the output each stands for: the
    abstract contract of the decompressor. *)

Inductive sn_elem :=
  | SN_lit (s : bytes)                   (* length in the tag *)
  | SN_lit_ext (nb : nat) (s : bytes)    (* length in [nb] bytes after the tag *)
  | SN_copy1 (off llen : Z)              (* 11-bit offset *)
  | SN_copy2 (off llen : Z)              (* 16-bit offset *)
  | SN_copy4 (off llen : Z).             (* 32-bit offset *)

Definition elem_bytes (e : sn_elem) : bytes :=
  match e with
  | SN_lit s => ((Z.of_nat (length s) - 1) * 4) :: s
  | SN_lit_ext nb s => ((59 + Z.of_nat nb) * 4) :: sn_le (Z.of_nat (length s) - 1) nb ++ s
  | SN_copy1 off llen => [off / 256 * 32 + (llen - 4) * 4 + 1; off `mod` 256]
  | SN_copy2 off llen => ((llen - 1) * 4 + 2) :: sn_le off 2
  | SN_copy4 off llen => ((llen - 1) * 4 + 3) :: sn_le off 4
  end.

Definition elem_size (e : sn_elem) : Z :=
  match e with
  | SN_lit s | SN_lit_ext _ s => Z.of_nat (length s)
  | SN_copy1 _ llen | SN_copy2 _ llen | SN_copy4 _ llen => llen
  end.

Definition elem_ok (out : bytes) (e : sn_elem) : Prop :=
  match e with
  | SN_lit s => is_bytes s /\ (1 <= length s <= 60)%nat
  | SN_lit_ext nb s => is_bytes s /\ (1 <= length s)%nat /\ (1 <= nb <= 4)%nat /\
      Z.of_nat (length s) <= 2 ^ (8 * Z.of_nat nb)
  | SN_copy1 off llen => 4 <= llen <= 11 /\ 1 <= off < 2 ^ 11 /\ off <= Z.of_nat (length out)
  | SN_copy2 off llen => 1 <= llen <= 64 /\ 1 <= off < 2 ^ 16 /\ off <= Z.of_nat (length out)
  | SN_copy4 off llen => 1 <= llen <= 64 /\ 1 <= off < 2 ^ 32 /\ off <= Z.of_nat (length out)
  end.

(** A copy repeats the last [off] bytes, byte after byte. *)
Definition elem_expand (out : bytes) (e : sn_elem) : bytes :=
  match e with
  | SN_lit s | SN_lit_ext _ s => out ++ s
  | SN_copy1 off llen | SN_copy2 off llen | SN_copy4 off llen => back_copy (Z.to_nat llen) (Z.to_nat off) out
  end.

Fixpoint elems_ok (out : bytes) (l : list sn_elem) : Prop :=
  match l with [] => True | e :: l => elem_ok out e /\ elems_ok (elem_expand out e) l end.

Definition elems_expand (l : list sn_elem) (out : bytes) : bytes := fold_left elem_expand l out.
Definition elems_bytes (l : list sn_elem) : bytes := l ≫= elem_bytes.

(** ** Tags *)

Lemma land_mod x k : 0 <= k -> Z.land x (Z.ones k) = x `mod` 2 ^ k.
Proof. intros. by apply Z.land_ones. Qed.

Lemma tag_type x : x & 3 = x `mod` 4.
Proof. by apply (land_mod x 2). Qed.
Lemma tag_len3 x : (x >> 2) & 7 = (x / 4) `mod` 8.
Proof. rewrite Z.shiftr_div_pow2 by lia. by apply (land_mod (x / 4) 3). Qed.
Lemma shr2 x : x >> 2 = x / 4.
Proof. by rewrite Z.shiftr_div_pow2. Qed.
Lemma shr5 x : x >> 5 = x / 32.
Proof. by rewrite Z.shiftr_div_pow2. Qed.

Lemma sn_le_length x nb : length (sn_le x nb) = nb.
Proof. revert x. induction nb as [|nb IH]; intros; cbn; [done|]. by rewrite IH. Qed.

Lemma load_sn_le x nb : fits (8 * Z.of_nat nb) x -> load_le (sn_le x nb) = x.
Proof.
  revert x. induction nb as [|nb IH]; intros x Hx; [unfold fits in Hx; cbn in *; lia|]. cbn [sn_le load_le].
  assert (Hm : x & 0xff = x `mod` 256) by by apply (land_mod x 8).
  rewrite Hm, wrap_id by (unfold fits; zdm). rewrite IH.
  - rewrite lor_shiftl_add, Z.shiftr_div_pow2 by (unfold fits; zdm). change (2 ^ 8) with 256. zdm.
  - apply shiftr_fits; [lia..|]. unfold fits in *. by replace (8 * Z.of_nat nb + 8) with (8 * Z.of_nat (S nb)) by lia.
Qed.

Lemma sn_le_bytes x nb : is_bytes (sn_le x nb).
Proof. revert x. induction nb as [|nb IH]; intros; cbn [sn_le]; constructor; [by apply wrap_fits|apply IH]. Qed.

(** A decompressor step on one encoded element. *)
Definition sn_step (tag : Z) (src : bytes) (cap : Z) (o : dyn_outbuf_t) : option (dyn_outbuf_t * option bytes) :=
  if (tag & 3) =? 0 then sn_literal tag src cap o else sn_match tag src cap o.

(** [elem_does e f]: with room and memory for it, [f] appends what [e] stands
    for and leaves the rest of the input. *)
Definition ob_ready (cap : Z) (o : dyn_outbuf_t) : Prop :=
  ob_inv cap o /\ Forall (fun b => b = true) (ob_heap o).

Lemma ob_write_ok o out : Z.of_nat (length out) <= ob_cap o -> ob_write o out = Some (mk_out out (ob_cap o) (ob_exceeded o) (ob_heap o)).
Proof. intros H. unfold ob_write. by rewrite ltb_false by lia. Qed.

Lemma sn_copy_step tag src rest cap o llen off :
  sn_copy_args tag src = Some (Some (llen, off, rest)) ->
  ob_ready cap o -> 0 <= cap < 2 ^ 63 -> 0 <= llen -> 1 <= off <= ob_len o -> ob_len o + llen <= cap ->
  exists o', sn_match tag src cap o = Some (o', Some rest) /\ ob_ready cap o' /\ ob_exceeded o' = ob_exceeded o /\
    ob_buf o' = back_copy (Z.to_nat llen) (Z.to_nat off) (ob_buf o).
Proof.
  intros Ea [Hi Hh] Hc Hl Ho Hr. unfold sn_match. rewrite Ea. cbn [mbind option_bind].
  replace (off =? 0) with false by lia. rewrite ltb_false by lia. cbn [orb].
  pose proof (sn_grow_spec o llen cap Hi Hl Hc) as Hg. destruct (sn_grow o llen cap) as [o1 ok].
  destruct Hg as (Eb & Ex & Hi1 & Hok & Hh1). destruct (Hh1 Hh) as [Hh' Hok']. specialize (Hok' Hr). subst ok.
  specialize (Hok eq_refl). unfold ob_inv, ob_len in *. cbn [negb]. rewrite sn_copy_back by (rewrite ?Eb; lia). cbn [mbind option_bind].
  rewrite ob_write_ok by (rewrite back_copy_length; lia). eexists. split; [reflexivity|]. cbn [ob_exceeded ob_buf]. split_and!; [|done|by rewrite Eb].
  split; [|done]. unfold ob_inv, ob_len. cbn [ob_buf ob_cap]. rewrite back_copy_length. lia.
Qed.

Lemma sn_literal_step_ok tag src s rest cap o :
  sn_literal_args tag src = Some (Some (Z.of_nat (length s) - 1, s ++ rest)) ->
  ob_ready cap o -> 0 <= cap < 2 ^ 63 -> ob_len o + Z.of_nat (length s) <= cap ->
  exists o', sn_literal tag src cap o = Some (o', Some rest) /\ ob_ready cap o' /\
    ob_exceeded o' = ob_exceeded o /\ ob_buf o' = ob_buf o ++ s.
Proof.
  intros Ea [Hi Hh] Hc Hr. unfold sn_literal. rewrite Ea. cbn [mbind option_bind].
  replace (Z.of_nat (length s) - 1 + 1) with (Z.of_nat (length s)) by lia.
  rewrite length_app, ltb_false by lia.
  pose proof (sn_grow_spec o (Z.of_nat (length s)) cap Hi ltac:(lia) Hc) as Hg.
  destruct (sn_grow o _ cap) as [o1 ok].
  destruct Hg as (Eb & Ex & Hi1 & Hok & Hh1). destruct (Hh1 Hh) as [Hh' Hok']. specialize (Hok' Hr). subst ok.
  specialize (Hok eq_refl). unfold ob_inv, ob_len in *. cbn [negb]. rewrite Nat2Z.id, aslice_front, drop_app_length by done. cbn [mbind option_bind].
  rewrite ob_write_ok by (rewrite length_app; lia). eexists. split; [reflexivity|].
  cbn [ob_exceeded ob_buf]. split_and!; [|done|by rewrite Eb].
  split; [|done]. unfold ob_inv, ob_len. cbn [ob_buf ob_cap]. rewrite length_app. lia.
Qed.

(** The fields of the two- and four-byte copies. *)
Lemma sn_copy_args_le t off llen rest n :
  t = 2 /\ n = 2%nat \/ t = 3 /\ n = 4%nat -> 1 <= llen <= 64 -> 1 <= off < 2 ^ (8 * Z.of_nat n) ->
  sn_copy_args ((llen - 1) * 4 + t) (sn_le off n ++ rest) = Some (Some (llen, off, rest)).
Proof.
  intros Ht Hl Ho. unfold sn_copy_args. rewrite tag_type, shr2, Z.add_comm, Z.mod_add, Z.div_add by lia.
  assert (Hlen : (length (sn_le off n ++ rest) <? n)%nat = false)
    by (apply Nat.ltb_ge; rewrite length_app, sn_le_length; lia).
  assert (Ht4 : t `mod` 4 = t /\ t / 4 = 0) by (destruct Ht as [[-> _]|[-> _]]; done).
  destruct Ht4 as [-> ->]. replace (0 + (llen - 1) + 1) with llen by lia.
  assert (E : (x ← aslice (sn_le off n ++ rest) 0 n; Some (Some (llen, load_le x, drop n (sn_le off n ++ rest)))) = Some (Some (llen, off, rest))).
  { rewrite aslice_front by by rewrite sn_le_length. cbn [mbind option_bind]. rewrite drop_app_length' by by rewrite sn_le_length. by rewrite load_sn_le by (unfold fits; lia). }
  destruct Ht as [[-> ->]|[-> ->]]; cbn [Z.eqb Pos.eqb]; rewrite Hlen; exact E.
Qed.

(** Each kind of element is decoded to what it stands for. *)
Lemma sn_step_elem e rest cap o tag src :
  elem_ok (ob_buf o) e -> elem_bytes e ++ rest = tag :: src ->
  ob_ready cap o -> 0 <= cap < 2 ^ 63 -> ob_len o + elem_size e <= cap ->
  exists o', sn_step tag src cap o = Some (o', Some rest) /\ ob_ready cap o' /\
    ob_exceeded o' = ob_exceeded o /\ ob_buf o' = elem_expand (ob_buf o) e.
Proof.
  intros Hok Hb Hr Hc Hs. unfold sn_step. rewrite tag_type.
  destruct e as [s|nb s|off llen|off llen|off llen]; cbn [elem_bytes elem_ok elem_expand elem_size app] in *;
    injection Hb as <- <-.
  - destruct Hok as [Hs8 Hl]. rewrite Z.mod_mul, Z.eqb_refl by lia.
    apply sn_literal_step_ok; [|done..]. unfold sn_literal_args. rewrite shr2, Z.div_mul by lia.
    by replace (60 <=? Z.of_nat (length s) - 1) with false by lia.
  - destruct Hok as (Hs8 & Hl & Hnb & Hl2). rewrite Z.mod_mul, Z.eqb_refl by lia.
    apply sn_literal_step_ok; [|done..]. unfold sn_literal_args. rewrite shr2, Z.div_mul by lia.
    replace (60 <=? 59 + Z.of_nat nb) with true by lia.
    replace (Z.to_nat (59 + Z.of_nat nb - 59)) with nb by lia.
    destruct (Nat.ltb_spec (length ((sn_le (Z.of_nat (length s) - 1) nb ++ s) ++ rest)) nb) as [Hlt|_].
    { rewrite !length_app, sn_le_length in Hlt. lia. }
    rewrite <- app_assoc, aslice_front, drop_app_length' by by rewrite sn_le_length. cbn [mbind option_bind].
    rewrite load_sn_le; [done|]. unfold fits. lia.
  - destruct Hok as (Hl & Ho & Ho'). replace ((_ `mod` 4 =? 0)) with false by (symmetry; apply Z.eqb_neq; zdm).
    apply sn_copy_step; [|done|done|lia|unfold ob_len; lia|done].
    unfold sn_copy_args. rewrite tag_type, tag_len3, shr5.
    replace ((off / 256 * 32 + (llen - 4) * 4 + 1) `mod` 4 =? 1) with true by (symmetry; apply Z.eqb_eq; zdm).
    replace ((off / 256 * 32 + (llen - 4) * 4 + 1) / 32) with (off / 256) by zdm.
    replace (4 + ((off / 256 * 32 + (llen - 4) * 4 + 1) / 4) `mod` 8) with llen by zdm.
    change (aread (off `mod` 256 :: rest) 0) with (Some (off `mod` 256)). cbn [length Nat.leb mbind option_bind drop].
    rewrite Z.lor_comm, lor_shiftl_add by (unfold fits; zdm). do 4 f_equal. zdm.
  - destruct Hok as (Hl & Ho & Ho'). replace ((_ `mod` 4 =? 0)) with false by (symmetry; apply Z.eqb_neq; zdm).
    apply sn_copy_step; [|done|done|lia|unfold ob_len; lia|done].
    by apply (sn_copy_args_le 2 off llen rest 2 (or_introl (conj eq_refl eq_refl))).
  - destruct Hok as (Hl & Ho & Ho'). replace ((_ `mod` 4 =? 0)) with false by (symmetry; apply Z.eqb_neq; zdm).
    apply sn_copy_step; [|done|done|lia|unfold ob_len; lia|done].
    by apply (sn_copy_args_le 3 off llen rest 4 (or_intror (conj eq_refl eq_refl))).
Qed.

Lemma sn_write_varint_put fuel v : 0 <= v < 2 ^ (7 * Z.of_nat fuel) ->
  (0 < fuel)%nat -> put_uvarint_loop fuel v = Some (sn_write_varint fuel v).
Proof.
  revert v. induction fuel as [|fuel IH]; intros v Hv Hf; [lia|]. cbn [put_uvarint_loop sn_write_varint].
  destruct (Z.leb_spec 0x80 v); [|done]. rewrite IH; [done| |].
  - apply shiftr_fits; [lia..|]. unfold fits. by replace (7 * Z.of_nat fuel + 7) with (7 * Z.of_nat (S fuel)) by lia.
  - destruct fuel; [|lia]. change (2 ^ (7 * Z.of_nat 1)) with 128 in Hv. lia.
Qed.

Lemma sn_varint_put fuel v out rest i acc :
  put_uvarint_loop fuel v = Some out -> 0 <= v -> 0 <= i -> i + Z.of_nat fuel <= 5 ->
  fits (7 * i) acc -> acc + v * 2 ^ (7 * i) < 2 ^ 32 ->
  sn_varint (out ++ rest) (7 * i) acc = Some (acc + v * 2 ^ (7 * i), rest).
Proof.
  revert v out i acc. induction fuel as [|fuel IH]; intros v out i acc H Hv Hi Hf Hacc Hb; [done|].
  assert (0 < 2 ^ (7 * i)) by lia. pose proof Hacc as Hacc'. unfold fits in Hacc'.
  cbn [put_uvarint_loop] in H. destruct (Z.leb_spec 0x80 v).
  - apply bind_Some in H as (o & Ho & [= <-]). cbn [app sn_varint].
    destruct (byte_continuation v Hv) as [Hb1 Hlow]. pose proof (Z.mod_pos_bound v 128 ltac:(lia)).
    assert (Hfuel : (1 <= fuel)%nat) by (destruct fuel; [done|lia]).
    rewrite ltb_true by lia. replace (7 * i =? 28) with false by lia. cbn [andb].
    rewrite cont_bit_set, Hlow.
    assert (Hdm : v = 128 * (v >> 7) + v `mod` 128) by (rewrite Z.shiftr_div_pow2 by lia; apply Z.div_mod; lia).
    assert (Hx7 : 0 <= v >> 7) by by apply Z.shiftr_nonneg.
    rewrite group_add by (done || lia || nia).
    assert (Hp : 2 ^ (7 * (i + 1)) = 128 * 2 ^ (7 * i)).
    { replace (7 * (i + 1)) with (7 + 7 * i) by lia. by rewrite Z.pow_add_r by lia. }
    replace (7 * i + 7) with (7 * (i + 1)) by lia.
    rewrite (IH (v >> 7)); [|done|lia|lia|lia| |].
    + f_equal. f_equal. rewrite Hp. nia.
    + unfold fits. rewrite Hp. nia.
    + rewrite Hp. nia.
  - injection H as <-. cbn [app sn_varint]. rewrite (wrap_id 8) by (unfold fits; lia). rewrite ltb_true by lia.
    destruct (last_byte v ltac:(lia)) as [Hm Hc].
    rewrite Hm, Hc, Z.eqb_refl. replace ((7 * i =? 28) && (0x0F <? v)) with false.
    2: { symmetry. destruct (Z.eqb_spec (7 * i) 28) as [E|]; [|done]. apply Z.ltb_ge. rewrite E in Hb. lia. }
    by rewrite group_add by (done || lia || nia).
Qed.

Lemma sn_varint_write v rest : fits 32 v -> sn_varint (sn_write_varint 5 v ++ rest) 0 0 = Some (v, rest).
Proof.
  intros Hv. unfold fits in Hv.
  pose proof (sn_write_varint_put 5 v ltac:(change (2 ^ (7 * Z.of_nat 5)) with (2 ^ 35); lia) ltac:(lia)) as H.
  pose proof (sn_varint_put 5 v _ rest 0 0 H) as E. change (2 ^ (7 * 0)) with 1 in E.
  replace (0 + v * 1) with v in E by lia. apply E; unfold fits; lia.
Qed.

Lemma elem_bytes_cons e : exists tag src, elem_bytes e = tag :: src.
Proof. destruct e; cbn [elem_bytes]; eauto. Qed.

Lemma elem_expand_length out e : elem_ok out e ->
  Z.of_nat (length (elem_expand out e)) = Z.of_nat (length out) + elem_size e.
Proof.
  destruct e; cbn [elem_ok elem_expand elem_size]; intros; rewrite ?length_app, ?back_copy_length; lia.
Qed.

Lemma elems_expand_grows l out : elems_ok out l -> (length out <= length (elems_expand l out))%nat.
Proof.
  revert out. induction l as [|e l IH]; intros out H; [done|]. destruct H as [He Hl]. apply IH in Hl.
  change (elems_expand (e :: l) out) with (elems_expand l (elem_expand out e)).
  pose proof (elem_expand_length out e He). destruct e; cbn [elem_ok elem_size] in *; lia.
Qed.

(** A stream of elements is decoded to its expansion. *)
Lemma sn_elements_ok l fuel cap o :
  elems_ok (ob_buf o) l -> ob_ready cap o -> 0 <= cap < 2 ^ 63 ->
  Z.of_nat (length (elems_expand l (ob_buf o))) <= cap -> (length (elems_bytes l) <= fuel)%nat ->
  exists o', sn_elements fuel (elems_bytes l) cap o = Some (o', true) /\ ob_exceeded o' = ob_exceeded o /\
    ob_buf o' = elems_expand l (ob_buf o).
Proof.
  revert fuel o. induction l as [|e l IH]; intros fuel o Hok Hr Hc Hcap Hf.
  { exists o. by destruct fuel. }
  destruct Hok as [He Hl]. change (elems_bytes (e :: l)) with (elem_bytes e ++ elems_bytes l) in *.
  change (elems_expand (e :: l) (ob_buf o)) with (elems_expand l (elem_expand (ob_buf o) e)) in *.
  destruct (elem_bytes_cons e) as (tag & src & Eb). pose proof (elems_expand_grows l _ Hl) as Hg.
  pose proof (elem_expand_length _ _ He) as Hlen.
  rewrite Eb in Hf |- *. cbn [app length] in Hf |- *. destruct fuel as [|fuel]; [lia|]. cbn [sn_elements].
  fold (sn_step tag (src ++ elems_bytes l) cap o).
  destruct (sn_step_elem e (elems_bytes l) cap o tag (src ++ elems_bytes l)) as (o1 & -> & Hr1 & Ex & E1); try done; cbn [mbind option_bind].
  { by rewrite Eb. }
  { unfold ob_len. lia. }
  rewrite length_app in Hf. rewrite <- E1 in *.
  destruct (IH fuel o1) as (o2 & -> & Ex2 & E2); [done..|lia|]. exists o2. by rewrite Ex2, Ex.
Qed.

(** ** Any input at all *)

Lemma sn_varint_rest src shift v d rest : is_bytes src -> sn_varint src shift v = Some (d, rest) -> is_bytes rest /\ (length rest <= length src)%nat.
Proof.
  intros Hs. revert shift v. induction Hs as [|b src Hb Hs IH]; intros shift v H; cbn [sn_varint] in H; [done|].
  repeat case_if_in H; try done; [injection H as <- <-; split; [done|cbn; lia]|]. destruct (IH _ _ H) as [? ?]. split; [done|cbn; lia].
Qed.

Lemma sn_copy_args_spec tag src : fits 8 tag -> is_bytes src ->
  exists r, sn_copy_args tag src = Some r /\ forall llen off rest, r = Some (llen, off, rest) -> 0 <= llen /\ 0 <= off /\ is_bytes rest /\ (length rest <= length src)%nat.
Proof.
  intros Ht Hs. unfold fits in Ht. pose proof (Z.shiftr_nonneg tag 2) as T2. pose proof (Z.shiftr_nonneg tag 5) as T5.
  unfold sn_copy_args. case_if.
  - destruct src as [|b src]; [by exists None|]. cbn. eexists. split; [done|]. intros ? ? ? [= <- <- <-]. apply Forall_cons_iff in Hs as [Hb Hs].
    rewrite tag_len3. unfold fits in Hb. split_and!; [zdm| |done|rewrite drop_0; cbn; lia].
    apply Z.lor_nonneg. split; [apply Z.shiftl_nonneg, T5; lia|lia].
  - set (nb := if _ : bool then 2%nat else 4%nat). destruct (Nat.ltb_spec (length src) nb); [by exists None|]. rewrite aslice_in by lia. cbn [mbind option_bind].
    eexists. split; [done|]. intros ? ? ? [= <- <- <-]. rewrite drop_0, length_drop. split_and!; [lia|by apply load_le_nonneg, Forall_take|by apply Forall_drop|lia].
Qed.

Lemma sn_literal_args_spec tag src : fits 8 tag -> is_bytes src ->
  exists r, sn_literal_args tag src = Some r /\ forall llen rest, r = Some (llen, rest) -> 0 <= llen /\ is_bytes rest /\ (length rest <= length src)%nat.
Proof.
  intros Ht Hs. unfold fits in Ht. pose proof (Z.shiftr_nonneg tag 2) as T2.
  unfold sn_literal_args. case_if; [|eexists; split; [done|]; intros ? ? [= <- <-]; split_and!; [lia|done|lia]].
  set (nb := Z.to_nat _). destruct (Nat.ltb_spec (length src) nb); [by exists None|]. rewrite aslice_in by lia. cbn [mbind option_bind].
  eexists. split; [done|]. intros ? ? [= <- <-]. rewrite drop_0, length_drop. split_and!; [by apply load_le_nonneg, Forall_take|by apply Forall_drop|lia].
Qed.

(** One element, whatever the input: no access is outside, the output stays
    within its bounds and only grows, and no input comes back. *)
Lemma sn_step_inv tag src cap o : fits 8 tag -> is_bytes src -> ob_inv cap o -> 0 <= cap < 2 ^ 63 ->
  exists o' r, sn_step tag src cap o = Some (o', r) /\ ob_inv cap o' /\ ob_buf o `prefix_of` ob_buf o' /\
  (forall rest, r = Some rest -> is_bytes rest /\ (length rest <= length src)%nat).
Proof.
  intros Ht Hs Hi Hc. unfold sn_step. case_if.
  - unfold sn_literal. destruct (sn_literal_args_spec tag src Ht Hs) as (args & -> & Ha). cbn [mbind option_bind].
    destruct args as [[llen rest]|]; [|by exists o, None]. destruct (Ha _ _ eq_refl) as (Hl & Hr & Hlen). case_if; bprop; [by exists o, None|].
    pose proof (sn_grow_spec o (llen + 1) cap Hi ltac:(lia) Hc) as Hg. destruct (sn_grow o _ cap) as [o1 ok].
    destruct Hg as (Eb & _ & Hi1 & Hok & _). destruct ok; cbn [negb]; [|exists o1, None; by rewrite Eb].
    specialize (Hok eq_refl). unfold ob_inv, ob_len in *. rewrite aslice_in by lia. cbn [mbind option_bind]. rewrite drop_0.
    rewrite ob_write_ok by (rewrite length_app, length_take; lia). eexists _, _. split; [done|]. cbn [ob_buf ob_cap].
    split_and!; [rewrite length_app, length_take; lia..|rewrite Eb; by apply prefix_app_r|].
    intros ? [= <-]. rewrite length_drop. split; [by apply Forall_drop|lia].
  - unfold sn_match. destruct (sn_copy_args_spec tag src Ht Hs) as (args & -> & Ha). cbn [mbind option_bind].
    destruct args as [[[llen off] rest]|]; [|by exists o, None]. destruct (Ha _ _ _ eq_refl) as (Hl & Ho & Hr & Hlen).
    case_if; bprop; [by exists o, None|].
    pose proof (sn_grow_spec o llen cap Hi ltac:(lia) Hc) as Hg. destruct (sn_grow o _ cap) as [o1 ok].
    destruct Hg as (Eb & _ & Hi1 & Hok & _). destruct ok; cbn [negb]; [|exists o1, None; by rewrite Eb].
    specialize (Hok eq_refl). unfold ob_inv, ob_len in *. rewrite sn_copy_back by (rewrite ?Eb; lia). cbn [mbind option_bind].
    rewrite ob_write_ok by (rewrite back_copy_length; lia). eexists _, _. split; [done|]. cbn [ob_buf ob_cap].
    split_and!; [rewrite back_copy_length; lia..|rewrite Eb; apply back_copy_prefix|]. intros ? [= <-]. by split.
Qed.

Lemma sn_elements_inv fuel src cap o : is_bytes src -> (length src <= fuel)%nat -> ob_inv cap o -> 0 <= cap < 2 ^ 63 ->
  exists o' ok, sn_elements fuel src cap o = Some (o', ok) /\ ob_inv cap o' /\ ob_buf o `prefix_of` ob_buf o'.
Proof.
  revert src o. induction fuel as [|fuel IH]; intros [|tag src] o Hs Hf Hi Hc; try (by exists o, true); [cbn in Hf; lia|].
  apply Forall_cons_iff in Hs as [Ht Hs]. cbn [sn_elements]. fold (sn_step tag src cap o).
  destruct (sn_step_inv tag src cap o Ht Hs Hi Hc) as (o1 & r & -> & Hi1 & Hp1 & Hr). cbn [mbind option_bind].
  destruct r as [rest|]; [|by exists o1, false]. destruct (Hr _ eq_refl) as [Hb Hl]. cbn [length] in Hf.
  destruct (IH rest o1) as (o2 & ok & -> & Hi2 & Hp2); [done|lia|done..|]. exists o2, ok. split_and!; [done|done|by etrans].
Qed.

(** ** The compressor writes literals only *)

Definition lit_elem (s : bytes) : sn_elem := if (length s <=? 60)%nat then SN_lit s else SN_lit_ext 1 s.

(** A flush of at most 256 bytes is one literal element. *)
Lemma sn_flush_lit_ok out cap s :
  (1 <= length s <= 256)%nat -> (length out + length s + 2 <= cap)%nat ->
  sn_flush_lit out cap s = Some (out ++ elem_bytes (lit_elem s)).
Proof.
  intros Hs Hc. unfold sn_flush_lit, lit_elem. destruct (Nat.leb_spec (length s) 60).
  - destruct (Nat.ltb_spec cap (length out + 1 + length s)); [lia|]. do 2 f_equal. cbn [elem_bytes app].
    rewrite Z.shiftl_mul_pow2, wrap_id by (unfold fits; lia). done.
  - rewrite (wrap_id 32) by (unfold fits; lia).
    assert (Enb : sn_lit_bytes 4 (Z.of_nat (length s) - 1) 1 = 1%nat).
    { cbn [sn_lit_bytes]. replace ((Z.of_nat (length s) - 1) >> (8 * Z.of_nat 1)) with 0; [done|].
      rewrite Z.shiftr_div_pow2 by lia. symmetry. apply Z.div_small. lia. }
    rewrite Enb. destruct (Nat.ltb_spec cap (length out + 1 + 1 + length s)); [lia|]. by cbn [elem_bytes app].
Qed.

(** The loop state after [i] bytes: [k] full literals written, the bytes since
    pending, and the table slot of the next position naming that very
    position. *)
Definition sn_inv (src hdr : bytes) (s : sn_state) : Prop :=
  exists chunks : list bytes,
    Forall (fun c => length c = 256%nat) chunks /\
    sn_out s = hdr ++ (chunks ≫= (fun c => elem_bytes (lit_elem c))) /\
    concat chunks ++ sn_lit s = take (sn_i s) src /\
    (length (sn_lit s) < 256)%nat /\ (sn_i s <= length src)%nat /\
    (sn_i s = 0%nat \/ (length src < sn_i s + 4)%nat \/
     sn_tab s !! sn_hash src (sn_i s) = Some (u32 (Z.of_nat (sn_i s) + 1))) /\
    (sn_i s = 0%nat -> sn_tab s = ∅).

(** So no position ever has an earlier candidate. *)
Lemma sn_no_match src hdr s : Z.of_nat (length src) < 2 ^ 32 - 1 -> sn_inv src hdr s ->
  sn_is_match src (sn_i s) (sn_cand src s) = false.
Proof.
  intros Hlen (chunks & _ & _ & _ & _ & Hi & Ht & Ht0). unfold sn_cand.
  destruct (Nat.leb_spec (sn_i s + 4) (length src)); [|done].
  destruct Ht as [E0|[?|Ht]]; [|lia|].
  - by rewrite (Ht0 E0), lookup_empty.
  - rewrite Ht. cbn [from_option id]. rewrite wrap_id by (unfold fits; lia). unfold sn_is_match.
    assert (E : (Z.of_nat (sn_i s) + 1 <=? Z.of_nat (sn_i s)) = false) by lia.
    rewrite E, andb_false_r. done.
Qed.

Lemma chunks_bytes_length chunks : Forall (fun c => length c = 256%nat) chunks ->
  length (chunks ≫= (fun c => elem_bytes (lit_elem c))) = (258 * length chunks)%nat /\
  length (concat chunks) = (256 * length chunks)%nat.
Proof.
  induction 1 as [|c chunks Hc _ [IH1 IH2]]; [done|]. rewrite bind_cons, length_app. cbn [concat length].
  rewrite length_app, IH1, IH2. unfold lit_elem. rewrite Hc. cbn [Nat.leb elem_bytes length].
  rewrite length_app, sn_le_length. lia.
Qed.

Lemma sn_room src hdr chunks lit i : (length hdr <= 5)%nat ->
  Forall (fun c => length c = 256%nat) chunks -> concat chunks ++ lit = take i src ->
  (length (hdr ++ (chunks ≫= (fun c => elem_bytes (lit_elem c)))) + length lit + 2
   <= length src + length src / 50 + 16)%nat.
Proof.
  intros Hh Hc E. destruct (chunks_bytes_length chunks Hc) as [L1 L2].
  apply (f_equal length) in E. rewrite length_app, length_take, L2 in E. rewrite length_app, L1.
  pose proof (Nat.div_mod_eq (length src) 50). pose proof (Nat.mod_upper_bound (length src) 50). lia.
Qed.

Lemma sn_record_inv src hdr s : (0 < sn_i s)%nat ->
  (exists chunks : list bytes,
    Forall (fun c => length c = 256%nat) chunks /\
    sn_out s = hdr ++ (chunks ≫= (fun c => elem_bytes (lit_elem c))) /\
    concat chunks ++ sn_lit s = take (sn_i s) src /\
    (length (sn_lit s) < 256)%nat /\ (sn_i s <= length src)%nat) ->
  sn_inv src hdr (sn_record src s).
Proof.
  intros Hi (chunks & H1 & H2 & H3 & H4 & H5). exists chunks. unfold sn_record.
  destruct (Nat.leb_spec (sn_i s + 4) (length src)); cbn [sn_i sn_out sn_tab sn_lit].
  - split_and!; try done; [right; right; apply lookup_insert_eq|lia].
  - split_and!; try done; [auto|lia].
Qed.

Lemma sn_turn_inv src hdr s : (length hdr <= 5)%nat -> Z.of_nat (length src) < 2 ^ 32 - 1 ->
  sn_inv src hdr s -> (sn_i s < length src)%nat ->
  exists s', sn_turn src (length src + length src / 50 + 16) s = Some s' /\ sn_inv src hdr s' /\ sn_i s' = S (sn_i s).
Proof.
  intros Hh Hlen Hinv Hi. unfold sn_turn. rewrite (sn_no_match src hdr s Hlen Hinv).
  destruct Hinv as (chunks & Hc & Ho & He & Hl & _ & _). unfold sn_literal_step.
  assert (Hx : src !! sn_i s = Some (nth (sn_i s) src 0)).
  { rewrite nth_lookup. by destruct (lookup_lt_is_Some_2 src (sn_i s) Hi) as [x ->]. }
  pose proof (take_S_r src _ _ Hx) as Et. rewrite <- He in Et. set (b := nth (sn_i s) src 0) in *.
  rewrite length_app. cbn [length]. destruct (Nat.eqb_spec (length (sn_lit s) + 1) 256) as [E256|Hne].
  - assert (Hlit : length (sn_lit s ++ [b]) = 256%nat) by (rewrite length_app; cbn; lia).
    rewrite sn_flush_lit_ok; [|lia|].
    2: { rewrite Ho. rewrite <- app_assoc in Et. pose proof (sn_room src hdr chunks (sn_lit s ++ [b]) (S (sn_i s)) Hh Hc (eq_sym Et)). lia. }
    cbn [mbind option_bind]. eexists. split; [reflexivity|]. split; [|unfold sn_record; by case_if].
    apply sn_record_inv; [cbn; lia|]. exists (chunks ++ [sn_lit s ++ [b]]). cbn [sn_i sn_out sn_lit].
    rewrite bind_app, concat_app, Ho, <- !app_assoc. cbn [mbind list_bind concat]. rewrite !app_nil_r.
    split_and!; [by apply Forall_app; split; [|constructor]|done| |cbn; lia|lia].
    by rewrite Et, app_assoc.
  - cbn [mbind option_bind]. eexists. split; [reflexivity|]. split; [|unfold sn_record; by case_if].
    apply sn_record_inv; [cbn; lia|]. exists chunks. cbn [sn_i sn_out sn_lit].
    split_and!; try done; [by rewrite Et, app_assoc|rewrite length_app; cbn; lia].
Qed.

Lemma sn_loop_inv src hdr fuel s : (length hdr <= 5)%nat -> Z.of_nat (length src) < 2 ^ 32 - 1 ->
  sn_inv src hdr s -> (length src <= sn_i s + fuel)%nat ->
  exists s', sn_loop fuel src (length src + length src / 50 + 16) s = Some s' /\ sn_inv src hdr s' /\
    sn_i s' = length src.
Proof.
  intros Hh Hlen. revert s. induction fuel as [|fuel IH]; intros s Hinv Hf; cbn [sn_loop].
  { exists s. split_and!; [done..|]. destruct Hinv as (? & _ & _ & _ & _ & ? & _). lia. }
  destruct (Nat.ltb_spec (sn_i s) (length src)).
  - destruct (sn_turn_inv src hdr s Hh Hlen Hinv) as (s1 & -> & Hi1 & E1); [done|]. cbn [mbind option_bind].
    apply IH; [done|lia].
  - exists s. split_and!; [done..|]. destruct Hinv as (? & _ & _ & _ & _ & ? & _). lia.
Qed.

Lemma sn_write_varint_length fuel v : (length (sn_write_varint fuel v) <= fuel)%nat.
Proof. revert v. induction fuel as [|fuel IH]; intros v; cbn; [done|]. case_if; cbn [length]; [specialize (IH (v >> 7))|]; lia. Qed.

(** What the compressor returns: the length and literal elements. *)
Lemma sn_compress_shape src : Z.of_nat (length src) < 2 ^ 32 - 1 ->
  exists chunks : list bytes, dyn_snappy_compress src true true
    = Some (sn_write_varint 5 (Z.of_nat (length src)) ++ (chunks ≫= (fun c => elem_bytes (lit_elem c)))) /\
    concat chunks = src /\ Forall (fun c => (1 <= length c <= 256)%nat) chunks.
Proof.
  intros Hlen. unfold dyn_snappy_compress. cbn [negb]. rewrite wrap_id by (unfold fits; lia).
  set (hdr := sn_write_varint 5 (Z.of_nat (length src))).
  assert (Hh : (length hdr <= 5)%nat) by apply sn_write_varint_length.
  destruct (sn_loop_inv src hdr (length src) (mk_sn 0 hdr ∅ [])) as (s & -> & Hinv & Ei); [done|done| |cbn; lia|].
  { exists []. cbn [sn_i sn_out sn_tab sn_lit mbind list_bind concat app]. rewrite app_nil_r, take_0.
    split_and!; try done; [cbn; lia|lia|by left]. }
  destruct Hinv as (chunks & Hc & Ho & He & Hl & _). rewrite Ei, take_ge in He by lia. cbn [mbind option_bind].
  assert (Hc' : Forall (fun c : bytes => (1 <= length c <= 256)%nat) chunks)
    by (eapply Forall_impl; [exact Hc|]; cbn; lia).
  destruct (sn_lit s) as [|b lit] eqn:El; cbn [sn_flush_pending].
  - exists chunks. rewrite app_nil_r in He. by rewrite Ho.
  - rewrite <- El in *. exists (chunks ++ [sn_lit s]). rewrite sn_flush_lit_ok.
    + rewrite Ho, bind_app, concat_app, <- app_assoc. cbn [mbind list_bind concat]. rewrite !app_nil_r.
      split_and!; [done|done|]. apply Forall_app. split; [done|].
      apply Forall_singleton. rewrite El in Hl |- *. cbn [length] in *. lia.
    + rewrite El in *. cbn [length] in *. lia.
    + rewrite Ho. pose proof (sn_room src hdr chunks (sn_lit s) (length src) Hh Hc) as Hr. rewrite take_ge in Hr by lia.
      specialize (Hr He). lia.
Qed.

Lemma chunks_elems chunks out : Forall (fun c : bytes => (1 <= length c <= 256)%nat) chunks -> is_bytes (concat chunks) ->
  elems_ok out (map lit_elem chunks) /\ elems_expand (map lit_elem chunks) out = out ++ concat chunks /\
  elems_bytes (map lit_elem chunks) = chunks ≫= (fun c => elem_bytes (lit_elem c)).
Proof.
  intros Hc. revert out. induction Hc as [|c chunks Hc _ IH]; intros out Hb; [by rewrite app_nil_r|].
  cbn [concat] in Hb. apply Forall_app in Hb as [Hb1 Hb2]. cbn [map elems_ok].
  assert (Ee : elem_ok out (lit_elem c) /\ elem_expand out (lit_elem c) = out ++ c).
  { unfold lit_elem. destruct (Nat.leb_spec (length c) 60); cbn [elem_ok elem_expand]; split; try done; [split; [done|lia]|].
    split_and!; try done; try lia. }
  destruct Ee as [Ek Ee]. destruct (IH (out ++ c) Hb2) as (H1 & H2 & H3). rewrite Ee. split_and!; [done|done| |].
  - unfold elems_expand in *. rewrite fold_left_cons, Ee, H2. cbn [concat]. by rewrite app_assoc.
  - unfold elems_bytes in *. rewrite !bind_cons. by rewrite H3.
Qed.

Definition ob_empty (heap : list bool) : dyn_outbuf_t := mk_out [] 0 false heap.

Lemma decompress_ok l cap heap : elems_ok [] l -> Forall (fun b => b = true) heap -> 0 <= cap < 2 ^ 63 ->
  let out := elems_expand l [] in
  Z.of_nat (length out) < 2 ^ 32 -> Z.of_nat (length out) <= cap ->
  exists o, dyn_snappy_decompress (sn_write_varint 5 (Z.of_nat (length out)) ++ elems_bytes l) cap (ob_empty heap) = Some (o, true)
    /\ ob_buf o = out /\ ob_exceeded o = false.
Proof.
  intros Hok Hh Hc out H32 Hcap. unfold dyn_snappy_decompress. rewrite sn_varint_write by (unfold fits; lia).
  rewrite ltb_false by lia.
  destruct (sn_elements_ok l (length (sn_write_varint 5 (Z.of_nat (length out)) ++ elems_bytes l)) cap (ob_empty heap))
    as (o & -> & Ex & Eb).
  - done.
  - split; [|done]. split; [done|]. change (ob_len (ob_empty heap)) with 0. lia.
  - done.
  - done.
  - rewrite length_app. lia.
  - exists o. split_and!; [|done|done]. cbn [mbind option_bind fst snd]. unfold ob_len. rewrite Eb. cbn [ob_buf ob_empty]. fold out.
    by rewrite Z.eqb_refl.
Qed.

Module Snappy_props.

(** C19. The decompressor honours the block format: any stream of literals (short
    or with one to four length bytes) and back-references (with one, two or
    four offset bytes, overlapping or not) preceded by its length is decoded to
    exactly the bytes it stands for, within the caller's limit. *)
Theorem snappy_decodes_format l cap heap :
  elems_ok [] l -> Forall (fun b => b = true) heap -> 0 <= cap < 2 ^ 63 ->
  Z.of_nat (length (elems_expand l [])) < 2 ^ 32 -> Z.of_nat (length (elems_expand l [])) <= cap ->
  exists o,
    dyn_snappy_decompress (sn_write_varint 5 (Z.of_nat (length (elems_expand l []))) ++ elems_bytes l)
      cap (ob_empty heap) = Some (o, true) /\
    ob_buf o = elems_expand l [] /\ ob_exceeded o = false.
Proof. intros. by apply decompress_ok. Qed.

Lemma snappy_decodes_format_witness :
  exists o, dyn_snappy_decompress [11; 4; 97; 98; 33; 2; 1; 1] 100 (ob_empty []) = Some (o, false) /\
  exists o, dyn_snappy_decompress (sn_write_varint 5 14 ++ elems_bytes [SN_lit [97; 98]; SN_copy1 2 7; SN_copy2 3 5])
    100 (ob_empty []) = Some (o, true) /\
    ob_buf o = [97; 98; 97; 98; 97; 98; 97; 98; 97; 97; 98; 97; 97; 98] /\ ob_exceeded o = false.
Proof.
  eexists. split; [by vm_compute|].
  apply (snappy_decodes_format [SN_lit [97; 98]; SN_copy1 2 7; SN_copy2 3 5] 100 []).
  - cbn. split_and!; try lia; repeat constructor; by vm_compute.
  - done.
  - lia.
  - by vm_compute.
  - by vm_compute.
Defined.

(** C38. Whatever the input, the decompressor ends with an answer: it reads inside
    the input and the bytes it has written, writes inside its allocation and not
    past the caller's limit, and a success means exactly as many bytes as the
    block declared. *)
Theorem snappy_decode_bounded src cap heap :
  is_bytes src -> 0 <= cap < 2 ^ 63 ->
  exists o ok, dyn_snappy_decompress src cap (ob_empty heap) = Some (o, ok) /\
  ob_len o <= ob_cap o /\ ob_len o <= cap /\
  (ok = true -> exists rest, sn_varint src 0 0 = Some (ob_len o, rest)).
Proof.
  intros Hs Hc. unfold dyn_snappy_decompress.
  assert (Hi : ob_inv cap (ob_empty heap)) by (split; [done|]; change (ob_len (ob_empty heap)) with 0; lia).
  destruct (sn_varint src 0 0) as [[d rest]|] eqn:Ev; [|eexists _, _; split; [done|]; by destruct Hi].
  case_if; bprop; [eexists _, _; split; [done|]; split_and!; [done|apply Hi|done]|].
  destruct (sn_varint_rest src 0 0 d rest Hs Ev) as [Hr Hl].
  destruct (sn_elements_inv (length src) rest cap (ob_empty heap) Hr Hl Hi Hc) as (o1 & ok1 & -> & [H1 H2] & _).
  eexists _, _. split; [done|]. cbn [fst snd]. split_and!; [done|done|]. intros Hok. bprop. exists rest. congruence.
Qed.

Lemma snappy_decode_bounded_witness :
  exists o ok, dyn_snappy_decompress [5; 0; 97; 255] 3 (ob_empty []) = Some (o, ok) /\
  ob_len o <= ob_cap o /\ ob_len o <= 3 /\ (ok = true -> exists rest, sn_varint [5; 0; 97; 255] 0 0 = Some (ob_len o, rest)).
Proof. apply (snappy_decode_bounded [5; 0; 97; 255] 3 []); [repeat constructor; by vm_compute|lia]. Defined.

(** C37. Every input below 2^32 - 1 bytes compresses (the reserved capacity always
    suffices) and decompresses to itself. *)
Theorem snappy_roundtrip src cap heap :
  is_bytes src -> Z.of_nat (length src) < 2 ^ 32 - 1 -> Z.of_nat (length src) <= cap < 2 ^ 63 ->
  Forall (fun b => b = true) heap ->
  exists z o, dyn_snappy_compress src true true = Some z /\
    dyn_snappy_decompress z cap (ob_empty heap) = Some (o, true) /\ ob_buf o = src.
Proof.
  intros Hs Hlen Hcap Hh. destruct (sn_compress_shape src Hlen) as (chunks & Ez & Ec & Hc).
  destruct (chunks_elems chunks [] Hc) as (H1 & H2 & H3); [by rewrite Ec|].
  rewrite app_nil_l, Ec in H2. eexists. rewrite Ez, <- H3.
  destruct (decompress_ok (map lit_elem chunks) cap heap H1 Hh) as (o & Eo & Eb & _); rewrite ?H2 in *; [lia..|].
  exists o. split; [reflexivity|]. by rewrite Eo.
Qed.

Lemma snappy_roundtrip_witness :
  exists z o, dyn_snappy_compress [1; 2; 3; 1; 2; 3; 1; 2; 3] true true = Some z /\
    dyn_snappy_decompress z 100 (ob_empty []) = Some (o, true) /\ ob_buf o = [1; 2; 3; 1; 2; 3; 1; 2; 3].
Proof. apply snappy_roundtrip; [repeat constructor; by vm_compute|by vm_compute|cbn; lia|done]. Defined.

(** The compressor never finds a match: the slot it looks up was written for
    the same position at the end of the previous turn, so the output is always
    literals and never shorter than the input. *)
Theorem snappy_never_compresses src z :
  Z.of_nat (length src) < 2 ^ 32 - 1 -> dyn_snappy_compress src true true = Some z ->
  (length src < length z)%nat.
Proof.
  intros Hlen Hz. destruct (sn_compress_shape src Hlen) as (chunks & Ez & Ec & Hc).
  rewrite Ez in Hz. apply (inj Some) in Hz. rewrite <- Hz, length_app.
  assert (Hh : forall n v, (1 <= length (sn_write_varint (S n) v))%nat) by (intros; cbn; case_if; cbn; lia).
  pose proof (Hh 4%nat (Z.of_nat (length src))).
  enough (length (concat chunks) <= length (chunks ≫= (fun c => elem_bytes (lit_elem c))))%nat by (rewrite Ec in *; lia).
  clear. induction chunks as [|c chunks IH]; [done|]. rewrite bind_cons, length_app. cbn [concat]. rewrite length_app.
  unfold lit_elem at 1. case_if; cbn [elem_bytes length]; rewrite ?length_app; lia.
Qed.

Lemma snappy_never_compresses_witness :
  exists z, dyn_snappy_compress (replicate 12 97) true true = Some z /\ (length (replicate 12 97) < length z)%nat.
Proof.
  destruct (sn_compress_shape (replicate 12 97)) as (chunks & Ez & _); [by vm_compute|].
  eexists. split; [exact Ez|]. apply (snappy_never_compresses (replicate 12 97)); [by vm_compute|exact Ez].
Defined.

End Snappy_props.
