(* ===== verification/Timer.v ===== *)
(** * Timers

    The timer set of src/core/dyn-timer.c: a binary heap of nodes ordered by
    deadline and, among equal deadlines, by order of creation, and a table of
    slots that maps a timer's identifier to the node's position, with free
    slots chained and a generation count that makes old identifiers stale.

    [h] is the live part of the array (its length is [n]), [slots] the slots
    handed out so far (its length is [nslots]).  [mem] answers the realloc
    calls still to come, one boolean each; when it is used up they succeed.
    Callbacks are code of the caller: [dyn_timer_run] takes their effect on the
    timers as a parameter. *)
From Stdlib Require Import ZArith Lia Permutation.
From stdpp Require Import base numbers list option sorting.
From S2P Require Import Prelude.

Record tnode_t := mk_node { deadline : Z; seq_no : Z; cb : Z; arg : Z; id : Z }.
Record tslot_t := mk_slot { spos : Z; gen : Z; next_free : Z }.

Definition NO_POS : Z := 0xffffffff.
Definition DYN_TIMER_NONE : Z := 0.

Record dyn_timers_t := mk_timers {
  h : list tnode_t; hcap : nat;
  slots : list tslot_t; slot_cap : nat; free_head : Z;
  tseq : Z; mem : list bool }.

Definition ID_MAKE (idx gen : Z) : Z := u64 (u32 gen << 32) .| u32 (idx + 1).
Definition ID_INDEX (id : Z) : Z := u32 ((id & 0xffffffff) - 1).
Definition ID_GEN (id : Z) : Z := u32 (id >> 32).

Definition DYN_TIMER_MAX_SLOTS : Z := 2 ^ 20 - 1.

Definition dyn_timers_new (mem : list bool) : dyn_timers_t := mk_timers [] 0 [] 0 NO_POS 0 mem.

Definition dyn_timers_count (t : dyn_timers_t) : nat := length (h t).

Definition node_less (a b : tnode_t) : bool :=
  if negb (deadline a =? deadline b) then deadline a <? deadline b else seq_no a <? seq_no b.

(** The slot a node's identifier names. *)
Definition nslot (v : tnode_t) : nat := Z.to_nat (ID_INDEX (id v)).

Definition set_pos (p : Z) (s : tslot_t) : tslot_t := mk_slot p (gen s) (next_free s).

Definition place (i : nat) (v : tnode_t) (t : dyn_timers_t) : dyn_timers_t :=
  mk_timers (<[i := v]> (h t)) (hcap t)
    (alter (set_pos (u32 (Z.of_nat i))) (nslot v) (slots t)) (slot_cap t) (free_head t) (tseq t) (mem t).

(** A read of [t->h[i]]; the callers stay below [n]. *)
Definition node0 : tnode_t := mk_node 0 0 0 0 0.
Definition hget (t : dyn_timers_t) (i : nat) : tnode_t := nth i (h t) node0.

(** [v] is the node being moved; the loop leaves when its place is found.
    Every turn at least halves [i], so [i] turns are enough. *)
Fixpoint sift_up_loop (fuel : nat) (v : tnode_t) (i : nat) (t : dyn_timers_t) : dyn_timers_t :=
  match fuel with
  | O => place i v t
  | S fuel =>
      if (0 <? i)%nat then
        let p := ((i - 1) / 2)%nat in
        if negb (node_less v (hget t p)) then place i v t
        else sift_up_loop fuel v p (place i (hget t p) t)
      else place i v t
  end.
Definition sift_up (t : dyn_timers_t) (i : nat) : dyn_timers_t := sift_up_loop i (hget t i) i t.

(** The index [m] one turn of sift_down picks: a child smaller than [v], the
    smaller one if both are, else [i] itself. *)
Definition sift_child (v : tnode_t) (i : nat) (t : dyn_timers_t) : nat :=
  let n := length (h t) in
  let l := (2 * i + 1)%nat in
  let r := (l + 1)%nat in
  let m := if (l <? n)%nat && node_less (hget t l) v then l else i in
  if (r <? n)%nat && node_less (hget t r) (if (m =? i)%nat then v else hget t l) then r else m.

(** Every turn moves down one level, so [n] turns are enough. *)
Fixpoint sift_down_loop (fuel : nat) (v : tnode_t) (i : nat) (t : dyn_timers_t) : dyn_timers_t :=
  match fuel with
  | O => place i v t
  | S fuel =>
      let m := sift_child v i t in
      if (m =? i)%nat then place i v t
      else sift_down_loop fuel v m (place i (hget t m) t)
  end.
Definition sift_down (t : dyn_timers_t) (i : nat) : dyn_timers_t :=
  sift_down_loop (length (h t)) (hget t i) i t.

Definition grow_heap (t : dyn_timers_t) : option dyn_timers_t :=
  let nc := if negb (hcap t =? 0)%nat then (hcap t * 2)%nat else 16%nat in
  if hd true (mem t) then
    Some (mk_timers (h t) nc (slots t) (slot_cap t) (free_head t) (tseq t) (tl (mem t)))
  else None.

(** The index handed out ([NO_POS] when there is none) and the new state; a
    slot taken for the first time is the zeroed one. *)
Definition slot_alloc (t : dyn_timers_t) : Z * dyn_timers_t :=
  if negb (free_head t =? NO_POS) then
    let idx := free_head t in
    let s := nth (Z.to_nat idx) (slots t) (mk_slot 0 0 0) in
    (idx, mk_timers (h t) (hcap t) (slots t) (slot_cap t) (next_free s) (tseq t) (mem t))
  else if DYN_TIMER_MAX_SLOTS <=? Z.of_nat (length (slots t)) then (NO_POS, t)
  else
    let take_slot sc mem :=
      (Z.of_nat (length (slots t)),
       mk_timers (h t) (hcap t) (slots t ++ [mk_slot 0 0 0]) sc (free_head t) (tseq t) mem) in
    if (length (slots t) =? slot_cap t)%nat then
      let nc := if negb (slot_cap t =? 0)%nat then (slot_cap t * 2)%nat else 16%nat in
      if hd true (mem t) then take_slot nc (tl (mem t))
      else (NO_POS, mk_timers (h t) (hcap t) (slots t) (slot_cap t) (free_head t) (tseq t) (tl (mem t)))
    else take_slot (slot_cap t) (mem t).

Definition slot_release (t : dyn_timers_t) (idx : nat) : dyn_timers_t :=
  mk_timers (h t) (hcap t)
    (alter (fun s => mk_slot NO_POS (u32 (gen s + 1)) (free_head t)) idx (slots t))
    (slot_cap t) (Z.of_nat idx) (tseq t) (mem t).

Definition timer_deadline (now delay_ms : Z) : Z :=
  if u64 (now + delay_ms) <? now then UINT64_MAX else u64 (now + delay_ms).

(** The identifier returned and the new state.  The array is extended by the
    new node before it is sifted. *)
Definition dyn_timer_add (t : dyn_timers_t) (now delay_ms cb arg : Z) : Z * dyn_timers_t :=
  if cb =? 0 then (DYN_TIMER_NONE, t) else
  match (if (length (h t) =? hcap t)%nat then grow_heap t else Some t) with
  | None => (DYN_TIMER_NONE, mk_timers (h t) (hcap t) (slots t) (slot_cap t) (free_head t) (tseq t) (tl (mem t)))
  | Some t =>
      let '(idx, t) := slot_alloc t in
      if idx =? NO_POS then (DYN_TIMER_NONE, t) else
      let s := nth (Z.to_nat idx) (slots t) (mk_slot 0 0 0) in
      let v := mk_node (timer_deadline now delay_ms) (tseq t) cb arg (ID_MAKE idx (gen s)) in
      let n := length (h t) in
      let t := mk_timers (h t ++ [v]) (hcap t) (slots t) (slot_cap t) (free_head t) (u64 (tseq t + 1)) (mem t) in
      (id v, sift_up (place n v t) n)
  end.

(** [n--] drops the last node from the live part before it is reinserted. *)
Definition heap_remove_at (t : dyn_timers_t) (i : nat) : dyn_timers_t :=
  let n := (length (h t) - 1)%nat in
  let last := hget t n in
  let t := slot_release t (nslot (hget t i)) in
  let t := mk_timers (take n (h t)) (hcap t) (slots t) (slot_cap t) (free_head t) (tseq t) (mem t) in
  if (i =? n)%nat then t else
  let t := sift_down (place i last t) i in
  if spos (nth (nslot (hget t i)) (slots t) (mk_slot 0 0 0)) =? Z.of_nat i then sift_up t i else t.

Definition dyn_timer_cancel (t : dyn_timers_t) (tid : Z) : bool * dyn_timers_t :=
  if tid =? DYN_TIMER_NONE then (false, t) else
  let idx := ID_INDEX tid in
  if Z.of_nat (length (slots t)) <=? idx then (false, t) else
  let s := nth (Z.to_nat idx) (slots t) (mk_slot 0 0 0) in
  if spos s =? NO_POS then (false, t) else
  if negb (gen s =? ID_GEN tid) then (false, t) else
  (true, heap_remove_at t (Z.to_nat (spos s))).

Definition dyn_timer_next_timeout (t : dyn_timers_t) (now : Z) : Z :=
  match h t with
  | [] => -1
  | v :: _ =>
      if deadline v <=? now then 0 else
      let d := deadline v - now in
      if 2 ^ 31 - 1 <? d then 2 ^ 31 - 1 else d
  end.

(** The number of callbacks run and the final state; [fire cb arg] is what a
    callback does to the timers and to the rest of the world.  The loop ends
    when no timer is due: [None] when [fuel] turns were not enough (a callback
    may add due timers for ever). *)
Fixpoint dyn_timer_run {W} (fire : Z -> Z -> W * dyn_timers_t -> W * dyn_timers_t) (fuel : nat)
    (now : Z) (w : W) (t : dyn_timers_t) (ran : Z) : option (Z * (W * dyn_timers_t)) :=
  match h t with
  | [] => Some (ran, (w, t))
  | v :: _ =>
      if deadline v <=? now then
        match fuel with
        | O => None
        | S fuel =>
            let '(w, t) := fire (cb v) (arg v) (w, heap_remove_at t 0) in
            dyn_timer_run fire fuel now w t (ran + 1)
        end
      else Some (ran, (w, t))
  end.

(** ** Order *)

(** Deadline first, creation second, as one number. *)
Definition key (v : tnode_t) : Z := deadline v * 2 ^ 64 + seq_no v.

Definition node_ok (v : tnode_t) : Prop := fits 64 (deadline v) /\ fits 64 (seq_no v).

Lemma node_less_key a b : node_ok a -> node_ok b -> node_less a b = (key a <? key b).
Proof.
  unfold node_ok, fits, node_less, key. intros [? ?] [? ?].
  destruct (Z.eqb_spec (deadline a) (deadline b)) as [E|E]; cbn [negb].
  - destruct (Z.ltb_spec (seq_no a) (seq_no b)), (Z.ltb_spec (deadline a * 2 ^ 64 + seq_no a) (deadline b * 2 ^ 64 + seq_no b)); nia.
  - destruct (Z.ltb_spec (deadline a) (deadline b)), (Z.ltb_spec (deadline a * 2 ^ 64 + seq_no a) (deadline b * 2 ^ 64 + seq_no b)); nia.
Qed.

Definition key_at (l : list tnode_t) (i : nat) : Z := key (nth i l node0).

Lemma key_at_insert l i j v : (i < length l)%nat ->
  key_at (<[i:=v]> l) j = if (j =? i)%nat then key v else key_at l j.
Proof.
  intros Hi. unfold key_at. rewrite !nth_lookup. destruct (Nat.eqb_spec j i) as [->|Hj].
  - by rewrite list_lookup_insert_eq.
  - by rewrite list_lookup_insert_ne.
Qed.

Definition par (j : nat) : nat := ((j - 1) / 2)%nat.

Lemma par_spec j : (0 < j)%nat -> (par j < j)%nat /\ (j = 2 * par j + 1 \/ j = 2 * par j + 2)%nat.
Proof.
  intros Hj. unfold par. pose proof (Nat.div_mod_eq (j - 1) 2). pose proof (Nat.mod_upper_bound (j - 1) 2). lia.
Qed.

Lemma par_child i j : (0 < j)%nat -> par j = i <-> (j = 2 * i + 1 \/ j = 2 * i + 2)%nat.
Proof. intros Hj. pose proof (par_spec j Hj). lia. Qed.

(** The heap condition at [j]: no smaller than its parent. *)
Definition heap_at (l : list tnode_t) (j : nat) : Prop := key_at l (par j) <= key_at l j.
Definition heap (l : list tnode_t) : Prop := forall j, (0 < j < length l)%nat -> heap_at l j.

(** Exchange of two elements, as two assignments. *)
Definition swap_at (l : list tnode_t) (i j : nat) : list tnode_t :=
  <[j := nth i l node0]> (<[i := nth j l node0]> l).

Lemma key_at_swap l i j k : (i < length l)%nat -> (j < length l)%nat ->
  key_at (swap_at l i j) k = if (k =? j)%nat then key_at l i else if (k =? i)%nat then key_at l j else key_at l k.
Proof.
  intros Hi Hj. unfold swap_at. rewrite !key_at_insert by (rewrite ?length_insert; lia). done.
Qed.

Lemma nth_Some (l : list tnode_t) i : (i < length l)%nat -> l !! i = Some (nth i l node0).
Proof. intros Hi. rewrite nth_lookup. by destruct (lookup_lt_is_Some_2 l i Hi) as [x ->]. Qed.

Lemma swap_perm l i j : (i < length l)%nat -> (j < length l)%nat -> swap_at l i j ≡ₚ l.
Proof. intros Hi Hj. apply Permutation_insert_swap; by apply nth_Some. Qed.

Lemma swap_length l i j : length (swap_at l i j) = length l.
Proof. unfold swap_at. by rewrite !length_insert. Qed.

(** The heap condition everywhere but between [i] and its parent. *)
Definition up_inv (l : list tnode_t) (i : nat) : Prop :=
  (forall j, (0 < j < length l)%nat -> j <> i -> heap_at l j) /\
  (forall j, (0 < j < length l)%nat -> par j = i -> (0 < i)%nat -> key_at l (par i) <= key_at l j).

(** Everywhere but below [i] and, while nothing has moved yet, at [i0]. *)
Definition down_inv (l : list tnode_t) (i0 i : nat) : Prop :=
  (i0 <= i)%nat /\
  (forall j, (0 < j < length l)%nat -> par j <> i -> j <> i0 -> heap_at l j) /\
  (forall j, (0 < j < length l)%nat -> par j = i -> (0 < i)%nat -> key_at l (par i) <= key_at l j) /\
  (i <> i0 -> (0 < i0)%nat -> heap_at l i0).

Ltac heap_cases :=
  unfold heap_at in *; rewrite ?key_at_swap by lia;
  repeat match goal with |- context [(?a =? ?b)%nat] => destruct (Nat.eqb_spec a b) end.

Lemma up_swap l i : (0 < i < length l)%nat -> up_inv l i -> key_at l i < key_at l (par i) ->
  up_inv (swap_at l i (par i)) (par i).
Proof.
  intros Hi [H1 H2] Hlt. pose proof (par_spec i ltac:(lia)) as [Hp _]. unfold up_inv. rewrite swap_length. split.
  - intros j Hj Hne. pose proof (par_spec j ltac:(lia)) as [Hpj _].
    destruct (decide (j = i)) as [->|Hji]; [heap_cases; lia|].
    pose proof (H1 j Hj Hji) as Hj1. destruct (decide (par j = i)) as [E|Hpi].
    + pose proof (H2 j Hj E ltac:(lia)). heap_cases; lia.
    + destruct (decide (par j = par i)) as [E|Hpp]; heap_cases; try lia.
      rewrite E in Hj1. lia.
  - intros j Hj E Hp0. pose proof (par_spec j ltac:(lia)) as [Hpj _].
    pose proof (par_spec (par i) Hp0) as [Hpp _]. pose proof (H1 (par i) ltac:(lia) ltac:(lia)) as Hh.
    destruct (decide (j = i)) as [->|Hji]; heap_cases; try lia.
    pose proof (H1 j Hj Hji) as Hj1. unfold heap_at in Hj1. rewrite E in Hj1. lia.
Qed.

Lemma up_done l i : up_inv l i -> ((0 < i)%nat -> key_at l (par i) <= key_at l i) -> heap l.
Proof. intros [H1 _] H j Hj. destruct (decide (j = i)) as [->|]; [by apply H; lia|by apply H1]. Qed.

Lemma down_swap l i0 i m : (m < length l)%nat -> (m = 2 * i + 1 \/ m = 2 * i + 2)%nat ->
  down_inv l i0 i -> key_at l m < key_at l i ->
  (forall j, (0 < j < length l)%nat -> par j = i -> key_at l m <= key_at l j) ->
  down_inv (swap_at l i m) i0 m.
Proof.
  intros Hm Hc (H0 & H1 & H2 & H3) Hlt Hmin. assert (Hpm : par m = i) by (apply par_child; lia).
  unfold down_inv. rewrite swap_length. split_and!; [lia|..].
  - intros j Hj Hpj Hji. pose proof (par_spec j ltac:(lia)) as [Hpj' _].
    destruct (decide (par j = i)) as [E|Hpi].
    + pose proof (Hmin j Hj E). heap_cases; try lia.
    + destruct (decide (j = i)) as [->|Hne].
      * pose proof (H2 m ltac:(lia) Hpm ltac:(lia)). heap_cases; lia.
      * pose proof (H1 j Hj Hpi Hji). assert (j <> m) by congruence. heap_cases; lia.
  - intros j Hj E Hm0. assert (j <> m /\ j <> i /\ j <> i0) as (? & ? & ?) by (pose proof (par_spec j ltac:(lia)); lia).
    pose proof (H1 j Hj ltac:(lia) ltac:(lia)) as Hj1. unfold heap_at in Hj1. rewrite E in Hj1. rewrite Hpm. heap_cases; lia.
  - intros Hne Hi0. pose proof (par_spec i0 Hi0) as [Hp0 _]. destruct (decide (i = i0)) as [->|Hii].
    + pose proof (H2 m ltac:(lia) Hpm Hi0). heap_cases; lia.
    + specialize (H3 Hii Hi0). heap_cases; lia.
Qed.

Lemma down_done l i0 i : down_inv l i0 i ->
  (forall j, (0 < j < length l)%nat -> par j = i -> key_at l i <= key_at l j) -> up_inv l i0.
Proof.
  intros (H0 & H1 & H2 & H3) Hmin.
  assert (Ha : forall j, (0 < j < length l)%nat -> j <> i0 -> heap_at l j).
  { intros j Hj Hne. destruct (decide (par j = i)) as [E|]; [unfold heap_at; rewrite E; by apply Hmin|by apply H1]. }
  split; [exact Ha|]. intros j Hj E Hi0. destruct (decide (i = i0)) as [->|Hne]; [by apply H2|].
  pose proof (H3 Hne Hi0) as Hh. pose proof (Ha j Hj ltac:(pose proof (par_spec j ltac:(lia)); lia)) as Hj1.
  unfold heap_at in *. rewrite E in Hj1. lia.
Qed.

Lemma heap_min l j : heap l -> (j < length l)%nat -> key_at l 0 <= key_at l j.
Proof.
  intros Hh. induction j as [j IH] using lt_wf_ind. intros Hj. destruct (decide (j = 0%nat)) as [->|]; [lia|].
  pose proof (par_spec j ltac:(lia)) as [Hp _]. specialize (IH (par j) Hp ltac:(lia)).
  specialize (Hh j ltac:(lia)). unfold heap_at in Hh. lia.
Qed.

(** ** Moving a node through a hole *)

(** Every node but the one at [i] is where its slot says. *)
Definition coh_except (i : nat) (l : list tnode_t) (ss : list tslot_t) : Prop :=
  forall j v, l !! j = Some v -> j <> i -> exists s, ss !! nslot v = Some s /\ spos s = Z.of_nat j.

(** Slots changed only in the positions of the nodes of [l]. *)
Definition slots_kept (l : list tnode_t) (ss0 ss : list tslot_t) : Prop :=
  length ss = length ss0 /\
  forall k s0, ss0 !! k = Some s0 -> exists s, ss !! k = Some s /\ gen s = gen s0 /\ next_free s = next_free s0 /\
    (k ∉ nslot <$> l -> spos s = spos s0).

(** [moving t0 t i v]: a sift started in [t0] has a hole at [i] in [t], to be
    filled with [v] in the end. *)
Record moving (l0 : list tnode_t) (t0 t : dyn_timers_t) (i : nat) (v : tnode_t) : Prop := {
  mv_i : (i < length (h t))%nat;
  mv_small : Z.of_nat (length (h t)) < 2 ^ 32;
  mv_perm : <[i := v]> (h t) ≡ₚ l0;
  mv_nodup : NoDup (nslot <$> l0);
  mv_range : Forall (fun w => (nslot w < length (slots t0))%nat) l0;
  mv_coh : coh_except i (<[i := v]> (h t)) (slots t);
  mv_slots : slots_kept l0 (slots t0) (slots t);
  mv_rest : hcap t = hcap t0 /\ slot_cap t = slot_cap t0 /\ free_head t = free_head t0 /\ tseq t = tseq t0 /\ mem t = mem t0
}.

(** What a finished sift leaves. *)
Record moved (l0 : list tnode_t) (t0 t : dyn_timers_t) : Prop := {
  md_perm : h t ≡ₚ l0;
  md_coh : forall j v, h t !! j = Some v -> exists s, slots t !! nslot v = Some s /\ spos s = Z.of_nat j;
  md_slots : slots_kept l0 (slots t0) (slots t);
  md_rest : hcap t = hcap t0 /\ slot_cap t = slot_cap t0 /\ free_head t = free_head t0 /\ tseq t = tseq t0 /\ mem t = mem t0
}.

Lemma nodup_nslot l i j a b : NoDup (nslot <$> l) -> l !! i = Some a -> l !! j = Some b -> nslot a = nslot b -> i = j.
Proof.
  intros Hn Ha Hb E. eapply (NoDup_lookup (nslot <$> l) i j (nslot a)); [done|..]; rewrite list_lookup_fmap.
  - by rewrite Ha.
  - by rewrite Hb, E.
Qed.

Lemma place_slots l ss i v p : slots_kept l ss p -> nslot v ∈ nslot <$> l ->
  slots_kept l ss (alter (set_pos (u32 (Z.of_nat i))) (nslot v) p).
Proof.
  intros [Hl Hk] Hv. split; [by rewrite length_alter|]. intros k s0 Hs. destruct (Hk k s0 Hs) as (s & E & Eg & En & Ep).
  destruct (decide (k = nslot v)) as [->|Hne].
  - exists (set_pos (u32 (Z.of_nat i)) s). rewrite list_lookup_alter_eq, E. by split_and!.
  - exists s. by rewrite list_lookup_alter_ne by done.
Qed.

(** Writing the node [w] of the list at [i] keeps or fixes its coherence. *)
Lemma place_coh l ss i i' w : NoDup (nslot <$> l) -> Forall (fun w => (nslot w < length ss)%nat) l ->
  (i < length l)%nat -> Z.of_nat (length l) < 2 ^ 32 -> l !! i = Some w ->
  (forall j v, l !! j = Some v -> j <> i -> j <> i' -> exists s, ss !! nslot v = Some s /\ spos s = Z.of_nat j) ->
  coh_except i' l (alter (set_pos (u32 (Z.of_nat i))) (nslot w) ss).
Proof.
  intros Hn Hr Hi Hsm Hw Hc j v Hj Hji'. destruct (decide (j = i)) as [->|Hne].
  - replace v with w in * by congruence. rewrite Forall_forall in Hr.
    pose proof (Hr w ltac:(by eapply list_elem_of_lookup_2)) as Hlt.
    destruct (lookup_lt_is_Some_2 ss (nslot w) Hlt) as [s Es].
    exists (set_pos (u32 (Z.of_nat i)) s). rewrite list_lookup_alter_eq, Es. split; [done|].
    apply wrap_id. unfold fits. lia.
  - destruct (Hc j v Hj Hne Hji') as (s & Es & Ep). exists s. split; [|done].
    rewrite list_lookup_alter_ne; [done|]. intros E. apply Hne. by eapply nodup_nslot.
Qed.

Lemma swap_hole l i j v : (i < length l)%nat -> (j < length l)%nat -> i <> j ->
  <[j := v]> (<[i := nth j l node0]> l) = swap_at (<[i := v]> l) i j.
Proof.
  intros Hi Hj Hne. unfold swap_at. rewrite !nth_lookup.
  rewrite list_lookup_insert_eq, list_lookup_insert_ne by done. cbn [from_option Datatypes.id]. by rewrite list_insert_insert_eq.
Qed.

Lemma moving_step l0 t0 t i j v : moving l0 t0 t i v -> (j < length (h t))%nat -> i <> j ->
  moving l0 t0 (place i (hget t j) t) j v /\
  <[j := v]> (h (place i (hget t j) t)) = swap_at (<[i := v]> (h t)) i j.
Proof.
  intros [Hi Hsm Hp Hn Hr Hc Hs Hrest] Hj Hne. unfold hget.
  assert (Esw : <[j := v]> (h (place i (nth j (h t) node0) t)) = swap_at (<[i := v]> (h t)) i j)
    by by apply swap_hole.
  split; [|exact Esw].
  assert (Hperm : swap_at (<[i := v]> (h t)) i j ≡ₚ l0).
  { rewrite <- Hp. apply swap_perm; rewrite length_insert; lia. }
  assert (Hw : swap_at (<[i := v]> (h t)) i j !! i = Some (nth j (h t) node0)).
  { rewrite <- Esw. unfold place. cbn [h]. rewrite list_lookup_insert_ne by done. by apply list_lookup_insert_eq. }
  pose proof Hs as [Hlen _].
  constructor; try done.
  - unfold place. cbn [h]. by rewrite length_insert.
  - unfold place. cbn [h]. by rewrite length_insert.
  - by rewrite Esw.
  - rewrite Esw. unfold place. cbn [slots]. apply place_coh.
    + by rewrite Hperm.
    + rewrite Hperm, Hlen. done.
    + rewrite swap_length, length_insert. done.
    + rewrite swap_length, length_insert. done.
    + done.
    + intros k w Hk Hki Hkj. apply (Hc k w); [|done].
      revert Hk. unfold swap_at. rewrite !list_lookup_insert_ne by done. done.
  - unfold place. cbn [slots]. apply place_slots; [done|]. rewrite <- Hperm. apply list_elem_of_fmap.
    exists (nth j (h t) node0). split; [done|]. by eapply list_elem_of_lookup_2.
Qed.

Lemma moving_done l0 t0 t i v : moving l0 t0 t i v -> moved l0 t0 (place i v t) /\ h (place i v t) = <[i := v]> (h t).
Proof.
  intros [Hi Hsm Hp Hn Hr Hc Hs Hrest]. split; [|done]. pose proof Hs as [Hlen _].
  assert (Hv : <[i := v]> (h t) !! i = Some v) by by apply list_lookup_insert_eq.
  constructor; unfold place; cbn [h slots hcap slot_cap free_head tseq mem]; [done| | |done].
  - intros j w Hj.
    eapply (place_coh (<[i := v]> (h t)) (slots t) i (length (<[i := v]> (h t))) v); [by rewrite Hp|..|exact Hj|].
    + rewrite Hp, Hlen. done.
    + by rewrite length_insert.
    + by rewrite length_insert.
    + done.
    + intros k u Hk Hki _. by apply (Hc k u).
    + apply lookup_lt_Some in Hj. lia.
  - apply place_slots; [done|]. rewrite <- Hp. apply list_elem_of_fmap. exists v. split; [done|].
    by eapply list_elem_of_lookup_2.
Qed.

(** Comparisons of the code, on the list with the hole filled. *)
Lemma moving_less l0 t0 t i v j : Forall node_ok l0 -> moving l0 t0 t i v -> (j < length (h t))%nat -> j <> i ->
  key_at (<[i := v]> (h t)) i = key v /\ key_at (<[i := v]> (h t)) j = key (hget t j) /\
  node_ok v /\ node_ok (hget t j).
Proof.
  intros Hok [Hi Hsm Hp Hn Hr Hc Hs Hrest] Hj Hne. rewrite !key_at_insert by done.
  rewrite Nat.eqb_refl. destruct (Nat.eqb_spec j i); [done|]. split_and!; [done|done|..];
    rewrite <- Hp, Forall_forall in Hok; apply Hok.
  - apply list_elem_of_lookup_2 with i. by apply list_lookup_insert_eq.
  - apply list_elem_of_lookup_2 with j. rewrite list_lookup_insert_ne by done. by apply nth_Some.
Qed.

Lemma sift_up_loop_ok l0 t0 fuel v i t : Forall node_ok l0 ->
  moving l0 t0 t i v -> up_inv (<[i := v]> (h t)) i -> (i <= fuel)%nat ->
  moved l0 t0 (sift_up_loop fuel v i t) /\ heap (h (sift_up_loop fuel v i t)).
Proof.
  intros Hok. revert i t. induction fuel as [|fuel IH]; intros i t Hm Hu Hf; cbn [sift_up_loop].
  - destruct (moving_done _ _ _ _ _ Hm) as [Hd Eh]. split; [done|]. rewrite Eh. eapply up_done; [exact Hu|lia].
  - destruct (Nat.ltb_spec 0 i) as [Hi|Hi].
    + fold (par i). pose proof (par_spec i Hi) as [Hp _]. pose proof (mv_i _ _ _ _ _ Hm) as Hil.
      destruct (moving_less l0 t0 t i v (par i) Hok Hm ltac:(lia) ltac:(lia)) as (E1 & E2 & O1 & O2).
      rewrite node_less_key by done. destruct (Z.ltb_spec (key v) (key (hget t (par i)))); cbn [negb].
      * destruct (moving_step l0 t0 t i (par i) v Hm ltac:(lia) ltac:(lia)) as [Hm' Esw].
        apply IH; [done| |lia]. rewrite Esw. apply up_swap; [rewrite length_insert; lia|done|lia].
      * destruct (moving_done _ _ _ _ _ Hm) as [Hd Eh]. split; [done|]. rewrite Eh. eapply up_done; [exact Hu|lia].
    + destruct (moving_done _ _ _ _ _ Hm) as [Hd Eh]. split; [done|]. rewrite Eh. eapply up_done; [exact Hu|lia].
Qed.

(** The child the loop picks, in terms of keys. *)
Lemma down_choice l0 t0 t i v m : Forall node_ok l0 -> moving l0 t0 t i v ->
  m = sift_child v i t ->
  let l := <[i := v]> (h t) in
  (m = i /\ forall j, (0 < j < length l)%nat -> par j = i -> key_at l i <= key_at l j) \/
  ((m = 2 * i + 1 \/ m = 2 * i + 2)%nat /\ (m < length l)%nat /\ key_at l m < key_at l i /\
   forall j, (0 < j < length l)%nat -> par j = i -> key_at l m <= key_at l j).
Proof.
  intros Hok Hm Em. unfold sift_child in Em. cbn zeta in Em |- *. rewrite !length_insert. set (l := <[i := v]> (h t)).
  assert (Hj : forall j, (0 < j)%nat -> par j = i -> j = (2 * i + 1)%nat \/ j = (2 * i + 1 + 1)%nat)
    by (intros j Hj E; apply par_child in E; lia).
  assert (HL : (2 * i + 1 < length (h t))%nat ->
    node_less (hget t (2 * i + 1)) v = (key_at l (2 * i + 1) <? key_at l i)).
  { intros Hlt. destruct (moving_less l0 t0 t i v (2 * i + 1) Hok Hm Hlt ltac:(lia)) as (E1 & E2 & O1 & O2).
    subst l. by rewrite E1, E2, node_less_key. }
  assert (HR : (2 * i + 1 + 1 < length (h t))%nat ->
    node_less (hget t (2 * i + 1 + 1)) v = (key_at l (2 * i + 1 + 1) <? key_at l i) /\
    node_less (hget t (2 * i + 1 + 1)) (hget t (2 * i + 1)) = (key_at l (2 * i + 1 + 1) <? key_at l (2 * i + 1))).
  { intros Hlt. destruct (moving_less l0 t0 t i v (2 * i + 1) Hok Hm ltac:(lia) ltac:(lia)) as (E1 & E2 & O1 & O2).
    destruct (moving_less l0 t0 t i v (2 * i + 1 + 1) Hok Hm Hlt ltac:(lia)) as (_ & E3 & _ & O3).
    subst l. by rewrite E1, E2, E3, !node_less_key. }
  destruct (Nat.ltb_spec (2 * i + 1) (length (h t))) as [Hl|Hl]; cbn [andb] in Em.
  - rewrite (HL Hl) in Em. destruct (Nat.ltb_spec (2 * i + 1 + 1) (length (h t))) as [Hr|Hr]; cbn [andb] in Em.
    + destruct (HR Hr) as [HR1 HR2]. destruct (Z.ltb_spec (key_at l (2 * i + 1)) (key_at l i)).
      * destruct (Nat.eqb_spec (2 * i + 1) i); [lia|]. rewrite HR2 in Em.
        right. destruct (Z.ltb_spec (key_at l (2 * i + 1 + 1)) (key_at l (2 * i + 1))); subst m;
          (split_and!; [lia|lia|lia|]; intros j Hjl E; destruct (Hj j ltac:(lia) E) as [-> | -> ]; lia).
      * rewrite Nat.eqb_refl, HR1 in Em. destruct (Z.ltb_spec (key_at l (2 * i + 1 + 1)) (key_at l i)); subst m.
        -- right. split_and!; [lia|lia|lia|]. intros j Hjl E; destruct (Hj j ltac:(lia) E) as [-> | -> ]; lia.
        -- left. split; [done|]. intros j Hjl E; destruct (Hj j ltac:(lia) E) as [-> | -> ]; lia.
    + destruct (Z.ltb_spec (key_at l (2 * i + 1)) (key_at l i)); subst m.
      * right. split_and!; [lia|lia|lia|]. intros j Hjl E; destruct (Hj j ltac:(lia) E) as [-> | -> ]; lia.
      * left. split; [done|]. intros j Hjl E; destruct (Hj j ltac:(lia) E) as [-> | -> ]; lia.
  - destruct (Nat.ltb_spec (2 * i + 1 + 1) (length (h t))); [lia|]. cbn [andb] in Em.
    left. split; [done|]. intros j Hjl E; destruct (Hj j ltac:(lia) E) as [-> | -> ]; lia.
Qed.

Lemma sift_down_loop_ok l0 t0 i0 fuel v i t : Forall node_ok l0 ->
  moving l0 t0 t i v -> down_inv (<[i := v]> (h t)) i0 i -> (length (h t) <= i + fuel)%nat ->
  moved l0 t0 (sift_down_loop fuel v i t) /\ up_inv (h (sift_down_loop fuel v i t)) i0.
Proof.
  intros Hok. revert i t. induction fuel as [|fuel IH]; intros i t Hm Hd Hf; cbn [sift_down_loop].
  { pose proof (mv_i _ _ _ _ _ Hm). lia. }
  destruct (down_choice l0 t0 t i v _ Hok Hm eq_refl) as [[E Hmin]|(Hc & Hml & Hlt & Hmin)].
  - rewrite E, Nat.eqb_refl. destruct (moving_done _ _ _ _ _ Hm) as [Hdn Eh]. split; [done|]. rewrite Eh.
    by eapply down_done.
  - set (m := sift_child v i t) in *.
    destruct (Nat.eqb_spec m i); [lia|]. rewrite length_insert in Hml.
    destruct (moving_step l0 t0 t i m v Hm Hml ltac:(lia)) as [Hm' Esw].
    apply IH; [done| |unfold place; cbn [h]; rewrite length_insert; lia].
    rewrite Esw. apply down_swap; [by rewrite length_insert|done..].
Qed.

(** ** Well-formed timer sets *)

(** The free slots, in the order the chain links them. *)
Fixpoint chain (ss : list tslot_t) (head : Z) (fl : list nat) : Prop :=
  match fl with
  | [] => head = NO_POS
  | k :: fl => head = Z.of_nat k /\ exists s, ss !! k = Some s /\ chain ss (next_free s) fl
  end.

(** Everything but the order of the heap and the positions: [l] are the nodes
    that own a slot. *)
Record owned (l : list tnode_t) (t : dyn_timers_t) : Prop := {
  ow_nodes : Forall node_ok l;
  ow_ids : forall v, v ∈ l -> exists s, slots t !! nslot v = Some s /\ id v = ID_MAKE (Z.of_nat (nslot v)) (gen s);
  ow_nodup : NoDup (nslot <$> l);
  ow_free : exists fl, chain (slots t) (free_head t) fl /\ NoDup fl /\
    forall k, k ∈ fl <-> (k < length (slots t))%nat /\ k ∉ nslot <$> l;
  ow_nopos : forall k s, slots t !! k = Some s -> k ∉ nslot <$> l -> spos s = NO_POS;
  ow_gen : Forall (fun s => fits 32 (gen s)) (slots t);
  ow_max : Z.of_nat (length (slots t)) <= DYN_TIMER_MAX_SLOTS;
  ow_cap : (length l <= hcap t)%nat /\ (length (slots t) <= slot_cap t)%nat;
  ow_seq : fits 64 (tseq t)
}.

Record wf (t : dyn_timers_t) : Prop := {
  wf_owned : owned (h t) t;
  wf_coh : forall j v, h t !! j = Some v -> exists s, slots t !! nslot v = Some s /\ spos s = Z.of_nat j;
  wf_heap : heap (h t)
}.

Lemma owned_range l t : owned l t -> Forall (fun w => (nslot w < length (slots t))%nat) l.
Proof.
  intros Ho. apply Forall_forall. intros v Hv. destruct (ow_ids _ _ Ho v Hv) as (s & Hs & _).
  by apply lookup_lt_Some in Hs.
Qed.

Lemma owned_length l t : owned l t -> (length l <= length (slots t))%nat.
Proof.
  intros Ho. rewrite <- (length_fmap nslot l), <- (length_seq (length (slots t)) 0).
  apply submseteq_length, NoDup_submseteq; [apply Ho|]. intros k (v & -> & Hv)%list_elem_of_fmap.
  apply elem_of_seq. pose proof (owned_range l t Ho) as Hr. rewrite Forall_forall in Hr. specialize (Hr v Hv). lia.
Qed.

Lemma owned_full l t : owned l t -> free_head t = NO_POS -> (length (slots t) <= length l)%nat.
Proof.
  intros Ho Hf. destruct (ow_free _ _ Ho) as (fl & Hc & _ & Hiff).
  assert (fl = []) as ->.
  { destruct fl as [|k fl]; [done|]. exfalso. destruct Hc as [E _]. pose proof (proj1 (Hiff k) ltac:(left)) as [Hk _].
    pose proof (ow_max _ _ Ho). unfold NO_POS, DYN_TIMER_MAX_SLOTS in *. lia. }
  rewrite <- (length_fmap nslot l), <- (length_seq (length (slots t)) 0).
  apply submseteq_length, NoDup_submseteq; [apply NoDup_seq|]. intros k [_ Hk]%elem_of_seq.
  destruct (decide (k ∈ nslot <$> l)); [done|]. exfalso. apply (not_elem_of_nil k), Hiff. split; [lia|done].
Qed.

Lemma owned_perm l l' t : l ≡ₚ l' -> owned l t -> owned l' t.
Proof.
  intros Hp [H1 H2 H3 (fl & H4 & H5 & H6) H7 H8 H9 H10 H11]. constructor; try done.
  - by rewrite <- Hp.
  - intros v. rewrite <- Hp. apply H2.
  - by rewrite <- Hp.
  - exists fl. split_and!; [done..|]. intros k. rewrite <- Hp. apply H6.
  - intros k s. rewrite <- Hp. apply H7.
  - by rewrite <- Hp.
Qed.

Lemma chain_kept l ss0 ss head fl : slots_kept l ss0 ss -> chain ss0 head fl -> chain ss head fl.
Proof.
  intros [_ Hk]. revert head. induction fl as [|k fl IH]; intros head; [done|].
  intros [-> (s0 & Hs & Hc)]. split; [done|]. destruct (Hk k s0 Hs) as (s & Es & _ & En & _).
  exists s. split; [done|]. rewrite En. by apply IH.
Qed.

(** A finished sift of owned nodes leaves a well-formed set. *)
Lemma owned_kept l t0 t : owned l t0 -> slots_kept l (slots t0) (slots t) ->
  hcap t = hcap t0 /\ slot_cap t = slot_cap t0 /\ free_head t = free_head t0 /\ tseq t = tseq t0 /\ mem t = mem t0 ->
  owned l t.
Proof.
  intros [H1 H2 H3 (fl & H4 & H5 & H6) H7 H8 H9 H10 H11] Hk (E1 & E2 & E3 & E4 & E5). pose proof Hk as [Hlen Hkk].
  assert (Hback : forall k s, slots t !! k = Some s -> exists s0, slots t0 !! k = Some s0 /\ gen s = gen s0 /\
    (k ∉ nslot <$> l -> spos s = spos s0)).
  { intros k s Hs. pose proof (lookup_lt_Some _ _ _ Hs) as Hlt. rewrite Hlen in Hlt.
    destruct (lookup_lt_is_Some_2 _ _ Hlt) as [s0 Hs0]. destruct (Hkk k s0 Hs0) as (s' & Hs' & Eg & _ & Ep).
    exists s0. assert (s' = s) as -> by congruence. done. }
  constructor; try done.
  - intros v Hv. destruct (H2 v Hv) as (s0 & Hs0 & Eid). destruct (Hkk _ _ Hs0) as (s & Hs & Eg & _).
    exists s. by rewrite Eg.
  - exists fl. rewrite E3, Hlen. split_and!; [by eapply chain_kept|done|done].
  - intros k s Hs Hnk. destruct (Hback k s Hs) as (s0 & Hs0 & _ & Ep). rewrite Ep by done. by eapply H7.
  - apply Forall_lookup. intros k s Hs. destruct (Hback k s Hs) as (s0 & Hs0 & -> & _).
    rewrite Forall_lookup in H8. by eapply H8.
  - by rewrite Hlen.
  - by rewrite E1, E2, Hlen.
  - by rewrite E4.
Qed.

Lemma moved_wf l0 t0 t : owned l0 t0 -> moved l0 t0 t -> heap (h t) -> wf t.
Proof.
  intros Ho [Hp Hc Hs Hr] Hh. constructor; [|done|done].
  apply (owned_perm l0); [by symmetry|]. by eapply owned_kept.
Qed.

Lemma wf_new m : wf (dyn_timers_new m).
Proof.
  constructor; [constructor| |]; cbn [h slots dyn_timers_new]; try done; try (by constructor).
  - by intros v Hv%elem_of_nil.
  - exists []. split_and!; [done|constructor|]. intros k. split; [by intros ?%elem_of_nil|cbn; lia].
  - intros j Hj. cbn in Hj. lia.
Qed.

(** ** Identifiers *)

Lemma id_fields idx g : 0 <= idx < 2 ^ 32 - 1 -> fits 32 g ->
  ID_INDEX (ID_MAKE idx g) = idx /\ ID_GEN (ID_MAKE idx g) = g /\ ID_MAKE idx g <> DYN_TIMER_NONE.
Proof.
  intros Hi Hg. unfold fits in Hg. unfold ID_INDEX, ID_GEN, ID_MAKE, DYN_TIMER_NONE.
  rewrite (wrap_id 32 g) by done. rewrite (wrap_id 32 (idx + 1)) by (unfold fits; lia).
  rewrite (wrap_id 64) by (unfold fits; rewrite Z.shiftl_mul_pow2 by lia; lia).
  rewrite Z.lor_comm, lor_shiftl_add by (unfold fits; lia).
  change 0xffffffff with (Z.ones 32). rewrite Z.land_ones, Z.shiftr_div_pow2, Z.mod_add, Z.div_add by lia.
  rewrite Z.mod_small, Z.div_small by lia. rewrite !wrap_id by (unfold fits; lia). split_and!; lia.
Qed.

(** An identifier is determined by its index and generation. *)
Lemma id_unique tid idx : fits 64 tid -> ID_INDEX tid = idx -> 0 <= idx < 2 ^ 32 - 1 ->
  ID_MAKE idx (ID_GEN tid) = tid.
Proof.
  intros Ht. unfold ID_INDEX, ID_GEN, ID_MAKE. change 0xffffffff with (Z.ones 32).
  rewrite Z.land_ones, Z.shiftr_div_pow2 by lia. intros E Hi. unfold fits in Ht.
  rewrite (wrap_id 32 (tid / 2 ^ 32)) by (unfold fits; zdm).
  rewrite (wrap_id 32 (tid / 2 ^ 32)) by (unfold fits; zdm).
  rewrite (wrap_id 32 (idx + 1)) by (unfold fits; lia).
  rewrite (wrap_id 64) by (unfold fits; rewrite Z.shiftl_mul_pow2 by lia; zdm).
  rewrite Z.lor_comm, lor_shiftl_add by (unfold fits; lia). unfold wrap in E. zdm.
Qed.

(** ** Taking and releasing slots *)

(** After a successful slot_alloc: slot [k] is free of nodes and off the
    chain; everything else is as before. *)
Definition alloc_ok (l : list tnode_t) (k : nat) (t : dyn_timers_t) : Prop :=
  forall v, node_ok v -> nslot v = k ->
    (exists s, slots t !! k = Some s /\ id v = ID_MAKE (Z.of_nat k) (gen s)) ->
    (length l < hcap t)%nat -> owned (v :: l) t.

Lemma chain_app ss x head fl : chain ss head fl -> chain (ss ++ [x]) head fl.
Proof.
  revert head. induction fl as [|k fl IH]; intros head; [done|]. intros [-> (s & Hs & Hc)]. split; [done|].
  exists s. split; [|by apply IH]. by apply lookup_app_l_Some.
Qed.

(** [k] is a slot in range that no node owns, and a node that names it may be
    added. *)
Definition alloc_result (t t' : dyn_timers_t) (k : nat) : Prop :=
  exists s, slots t' !! k = Some s /\ fits 32 (gen s) /\ (k ∉ (nslot <$> h t)) /\
    Z.of_nat k < DYN_TIMER_MAX_SLOTS /\ alloc_ok (h t) k t' /\
    (forall k' s', k' <> k -> slots t !! k' = Some s' -> slots t' !! k' = Some s').

Lemma alloc_fresh t sc m :
  owned (h t) t -> free_head t = NO_POS -> Z.of_nat (length (slots t)) < DYN_TIMER_MAX_SLOTS ->
  (length (slots t) + 1 <= sc)%nat ->
  alloc_result t (mk_timers (h t) (hcap t) (slots t ++ [mk_slot 0 0 0]) sc (free_head t) (tseq t) m) (length (slots t)).
Proof.
  intros Ho Ef Hmax Hsc. pose proof (owned_full _ _ Ho Ef) as Hfull. pose proof (owned_range _ _ Ho) as Hr.
  pose proof Ho as [H1 H2 H3 (fl & H4 & H5 & H6) H7 H8 H9 H10 H11]. rewrite Forall_forall in Hr.
  assert (Hk : length (slots t) ∉ (nslot <$> h t)).
  { intros (v & E & Hv)%list_elem_of_fmap. specialize (Hr v Hv). lia. }
  assert (Hall : forall k, (k < length (slots t))%nat -> k ∈ (nslot <$> h t)).
  { intros k Hlt. destruct (decide (k ∈ (nslot <$> h t))) as [|Hn]; [done|]. exfalso.
    pose proof (proj2 (H6 k) (conj Hlt Hn)) as Hin. destruct fl as [|k0 fl]; [by apply elem_of_nil in Hin|].
    destruct H4 as [E _]. pose proof (proj1 (H6 k0) ltac:(left)) as [? _].
    unfold NO_POS, DYN_TIMER_MAX_SLOTS in *. lia. }
  exists (mk_slot 0 0 0). cbn [slots]. split_and!; [by apply lookup_snoc_Some; right|done|done|done| |].
  - intros v Hv Ev Hs Hcap. cbn [slots hcap] in *.
    constructor; cbn [slots free_head hcap slot_cap tseq]; try done.
    + by constructor.
    + intros w [->|Hw]%elem_of_cons; [by rewrite Ev|]. destruct (H2 w Hw) as (s0 & Hs0 & E0).
      exists s0. split; [|done]. by apply lookup_app_l_Some.
    + rewrite fmap_cons, Ev. by constructor.
    + exists []. split_and!; [done|constructor|]. intros k. rewrite fmap_cons, Ev, length_app, not_elem_of_cons. cbn [length].
      split; [by intros ?%elem_of_nil|]. intros (Hlt & Hne & Hn). exfalso. apply Hn, Hall. lia.
    + intros k s0 Hs0. rewrite fmap_cons, Ev, not_elem_of_cons. intros [Hne Hn]. exfalso. apply Hn, Hall.
      apply lookup_lt_Some in Hs0. rewrite length_app in Hs0. cbn [length] in Hs0. lia.
    + apply Forall_app. split; [done|]. apply Forall_singleton. by vm_compute.
    + rewrite length_app. cbn [length]. lia.
    + rewrite length_app. cbn [length]. lia.
  - intros k' s' Hne Hs. by apply lookup_app_l_Some.
Qed.

Lemma alloc_chained t : owned (h t) t -> free_head t <> NO_POS ->
  exists k, free_head t = Z.of_nat k /\
  alloc_result t (mk_timers (h t) (hcap t) (slots t) (slot_cap t)
    (next_free (nth (Z.to_nat (free_head t)) (slots t) (mk_slot 0 0 0))) (tseq t) (mem t)) k.
Proof.
  intros [H1 H2 H3 (fl & H4 & H5 & H6) H7 H8 H9 H10 H11] Ef.
  destruct fl as [|k fl]; [done|]. destruct H4 as [Ek (s & Hs & Hc)].
  pose proof (proj1 (H6 k) ltac:(left)) as [Hk Hkn]. apply NoDup_cons in H5 as [Hkf H5].
  exists k. split; [done|]. exists s. rewrite Ek, Nat2Z.id, nth_lookup, Hs. cbn [from_option Datatypes.id slots].
  pose proof H8 as H8'. rewrite Forall_lookup in H8'.
  split_and!; try done; [by eapply H8'|lia|].
  intros v Hv Ev Hs' Hcap. constructor; cbn [slots free_head hcap slot_cap tseq] in *; try done.
  - by constructor.
  - intros w [->|Hw]%elem_of_cons; [by rewrite Ev|by apply H2].
  - rewrite fmap_cons, Ev. by constructor.
  - exists fl. split_and!; [done..|]. intros k'. rewrite fmap_cons, Ev, not_elem_of_cons.
    specialize (H6 k'). rewrite elem_of_cons in H6. split.
    + intros Hin. destruct (proj1 H6 (or_intror Hin)) as [? ?]. split_and!; try done. by intros ->.
    + intros (? & ? & ?). destruct (proj2 H6) as [-> |?]; done.
  - intros k' s0 Hs0. rewrite fmap_cons, not_elem_of_cons. intros [_ Hn]. by eapply H7.
  - cbn [length]. lia.
Qed.

Lemma slot_alloc_spec t idx t' : owned (h t) t -> slot_alloc t = (idx, t') ->
  (h t' = h t /\ hcap t' = hcap t /\ tseq t' = tseq t) /\
  (idx = NO_POS -> slots t' = slots t /\ free_head t' = free_head t /\ slot_cap t' = slot_cap t /\
     (Forall (fun b => b = true) (mem t) -> DYN_TIMER_MAX_SLOTS <= Z.of_nat (length (h t)))) /\
  (idx <> NO_POS -> exists k, idx = Z.of_nat k /\ alloc_result t t' k).
Proof.
  intros Ho. unfold slot_alloc. destruct (Z.eqb_spec (free_head t) NO_POS) as [Ef|Ef]; cbn [negb].
  - pose proof (owned_full _ _ Ho Ef) as Hfull. pose proof (ow_cap _ _ Ho) as [_ Hcap].
    destruct (Z.leb_spec DYN_TIMER_MAX_SLOTS (Z.of_nat (length (slots t)))) as [Hmax|Hmax].
    { intros [= <- <-]. split_and!; try done. intros _. split_and!; try done. intros _. lia. }
    assert (Hne : Z.of_nat (length (slots t)) <> NO_POS) by (unfold NO_POS, DYN_TIMER_MAX_SLOTS in *; lia).
    destruct (Nat.eqb_spec (length (slots t)) (slot_cap t)) as [Ec|Ec].
    + destruct (hd true (mem t)) eqn:Eh; intros [= <- <-]; cbn [h hcap tseq slots free_head slot_cap]; split_and!; try done.
      * intros _. eexists. split; [reflexivity|]. apply alloc_fresh; try done.
        destruct (Nat.eqb_spec (slot_cap t) 0); cbn [negb]; lia.
      * intros _. split_and!; try done. intros Hm. destruct (mem t); [done|].
        apply Forall_cons_iff in Hm as [-> _]. done.
    + intros [= <- <-]. cbn [h hcap tseq slots free_head slot_cap]. split_and!; try done.
      intros _. eexists. split; [reflexivity|]. apply alloc_fresh; [done..|lia].
  - intros [= <- <-]. cbn [h hcap tseq slots free_head slot_cap]. split_and!; try done. intros _. by apply alloc_chained.
Qed.

(** ** Operations *)

Lemma heap_snoc_up l v : heap l -> up_inv (<[length l := v]> (l ++ [v])) (length l).
Proof.
  intros Hh. assert (E : <[length l := v]> (l ++ [v]) = l ++ [v]).
  { apply list_insert_id. by apply lookup_snoc_Some; right. }
  rewrite E. unfold up_inv. rewrite length_app. cbn [length]. split.
  - intros j Hj Hne. specialize (Hh j ltac:(lia)). pose proof (par_spec j ltac:(lia)) as [Hp _].
    unfold heap_at, key_at in *. rewrite !app_nth1 by lia. done.
  - intros j Hj Ep _. pose proof (par_spec j ltac:(lia)). lia.
Qed.

(** Appending an owned node and sifting it up. *)
Lemma push_ok t v : owned (v :: h t) t -> heap (h t) ->
  (forall j w, h t !! j = Some w -> exists s, slots t !! nslot w = Some s /\ spos s = Z.of_nat j) ->
  let t2 := mk_timers (h t ++ [v]) (hcap t) (slots t) (slot_cap t) (free_head t) (tseq t) (mem t) in
  let t' := sift_up (place (length (h t)) v t2) (length (h t)) in
  wf t' /\ h t' ≡ₚ v :: h t /\ tseq t' = tseq t /\ mem t' = mem t.
Proof.
  intros Ho Hh Hc t2 t'. set (n := length (h t)).
  assert (Hp : h t ++ [v] ≡ₚ v :: h t) by (rewrite Permutation_app_comm; done).
  assert (Ho2 : owned (h t ++ [v]) t2).
  { apply (owned_perm (v :: h t)); [by symmetry|]. by destruct Ho; constructor. }
  pose proof (owned_length _ _ Ho2) as Hlen. pose proof (ow_max _ _ Ho2) as Hmax. rewrite length_app in Hlen. cbn [length] in Hlen.
  assert (Hv : (h t ++ [v]) !! n = Some v) by (by apply lookup_snoc_Some; right).
  assert (Eins : <[n := v]> (h t ++ [v]) = h t ++ [v]) by by apply list_insert_id.
  assert (Hm : moving (h t ++ [v]) t2 (place n v t2) n v).
  { constructor; unfold place; cbn [h slots hcap slot_cap free_head tseq mem t2].
    - rewrite length_insert, length_app. cbn [length]. lia.
    - rewrite length_insert, length_app. cbn [length]. unfold DYN_TIMER_MAX_SLOTS in *. lia.
    - by rewrite !Eins.
    - apply Ho2.
    - exact (owned_range _ _ Ho2).
    - rewrite !Eins. apply place_coh.
      + apply Ho2.
      + apply (owned_range _ _ Ho2).
      + rewrite length_app. cbn [length]. lia.
      + rewrite length_app. cbn [length]. unfold DYN_TIMER_MAX_SLOTS in *. lia.
      + done.
      + intros j w Hj Hjn _. apply Hc. apply lookup_app_Some in Hj as [?|[? Hj]]; [done|].
        apply list_lookup_singleton_Some in Hj as [? _]. subst n. lia.
    - apply place_slots.
      + split; [done|]. intros k s0 Hs. by exists s0.
      + rewrite fmap_app. apply elem_of_app. right. cbn. by left.
    - done. }
  destruct (sift_up_loop_ok (h t ++ [v]) t2 n v n (place n v t2)) as [Hmd Hhp].
  - apply Ho2.
  - done.
  - unfold place. cbn [h t2]. rewrite Eins. by apply heap_snoc_up.
  - done.
  - assert (E' : t' = sift_up_loop n v n (place n v t2)).
    { subst t'. unfold sift_up, hget. fold n. f_equal. unfold place. cbn [h t2]. rewrite Eins, nth_lookup, Hv. done. }
    rewrite E'. split; [by eapply moved_wf|]. destruct Hmd as [Hpm _ _ (_ & _ & _ & E4 & E5)].
    split_and!; [by rewrite Hpm, Hp|done|done].
Qed.

Lemma deadline_fits now d : fits 64 now -> fits 64 d -> timer_deadline now d = Z.min (now + d) UINT64_MAX.
Proof.
  unfold fits, timer_deadline, UINT64_MAX. intros Hn Hd. unfold wrap.
  destruct (Z_lt_le_dec (now + d) (2 ^ 64)).
  - rewrite Z.mod_small by lia. rewrite ltb_false by lia. lia.
  - replace ((now + d) `mod` 2 ^ 64) with (now + d - 2 ^ 64) by zdm. rewrite ltb_true by lia. lia.
Qed.

Definition new_node (t : dyn_timers_t) (now delay cb arg : Z) (tid : Z) : tnode_t :=
  mk_node (Z.min (now + delay) UINT64_MAX) (tseq t) cb arg tid.

Lemma owned_irrel l t t' : slots t' = slots t -> free_head t' = free_head t -> slot_cap t' = slot_cap t ->
  (hcap t <= hcap t')%nat -> fits 64 (tseq t') -> owned l t -> owned l t'.
Proof.
  intros E1 E2 E3 E4 E5 [H1 H2 H3 H4 H5 H6 H7 H8 H9]. constructor; rewrite ?E1, ?E2, ?E3; try done. lia.
Qed.

Lemma add_ok t now delay cb_ arg_ tid t' :
  wf t -> fits 64 now -> fits 64 delay -> dyn_timer_add t now delay cb_ arg_ = (tid, t') ->
  wf t' /\
  ((tid = DYN_TIMER_NONE /\ h t' = h t /\
    (cb_ <> 0 -> Forall (fun b => b = true) (mem t) -> DYN_TIMER_MAX_SLOTS <= Z.of_nat (length (h t)))) \/
   (tid <> DYN_TIMER_NONE /\ (tid ∉ (id <$> h t)) /\ h t' ≡ₚ new_node t now delay cb_ arg_ tid :: h t /\
    tseq t' = u64 (tseq t + 1))).
Proof.
  intros [Ho Hc Hh] Hnow Hd. unfold dyn_timer_add.
  destruct (Z.eqb_spec cb_ 0) as [Ecb|Ecb]; [intros [= <- <-]; split; [done|]; left; split_and!; congruence|].
  pose proof (ow_seq _ _ Ho) as Hseq.
  assert (Hg : exists o, (if (length (h t) =? hcap t)%nat then grow_heap t else Some t) = o /\
    match o with
    | None => ~ Forall (fun b => b = true) (mem t)
    | Some t1 => h t1 = h t /\ slots t1 = slots t /\ free_head t1 = free_head t /\ slot_cap t1 = slot_cap t /\
        tseq t1 = tseq t /\ (length (h t) < hcap t1)%nat /\ (hcap t <= hcap t1)%nat /\
        (Forall (fun b => b = true) (mem t) -> Forall (fun b => b = true) (mem t1))
    end).
  { eexists. split; [reflexivity|]. pose proof (ow_cap _ _ Ho) as [Hcap _]. unfold grow_heap.
    destruct (Nat.eqb_spec (length (h t)) (hcap t)) as [En|En]; [|by split_and!; try lia].
    destruct (hd true (mem t)) eqn:Eh; cbn.
    - split_and!; try done; try (destruct (Nat.eqb_spec (hcap t) 0); cbn [negb]; lia).
      destruct (mem t); [done|]. by intros [_ ?]%Forall_cons_iff.
    - intros Hm. destruct (mem t); [done|]. apply Forall_cons_iff in Hm as [-> _]. done. }
  destruct Hg as ([t1|] & -> & Hg).
  2: { intros [= <- <-]. split; [|by left]. constructor; try done. by eapply owned_irrel; [..|exact Ho]. }
  destruct Hg as (E1 & E2 & E3 & E4 & E5 & Hlt & Hle & Hm1).
  assert (Ho1 : owned (h t1) t1) by (rewrite E1; eapply owned_irrel; [..|exact Ho]; try done; by rewrite E5).
  destruct (slot_alloc t1) as [idx t2] eqn:Ea. pose proof (slot_alloc_spec t1 idx t2 Ho1 Ea) as ((F1 & F2 & F3) & Hno & Hyes).
  destruct (Z.eqb_spec idx NO_POS) as [En|En].
  - destruct (Hno En) as (G1 & G2 & G3 & G4). intros [= <- <-]. rewrite F1, E1 in *. split.
    + constructor; rewrite ?F1, ?E1; [eapply owned_irrel; [..|exact Ho1]; try done; [lia|by rewrite F3, E5]| |done].
      intros j v Hj. rewrite G1, E2. by apply Hc.
    + left. split_and!; try done. intros _ Hm. apply G4. by apply Hm1.
  - destruct (Hyes En) as (k & -> & s & Hs & Hgen & Hk & Hkmax & Hal & Hold). rewrite E1 in *.
    rewrite Nat2Z.id, nth_lookup, Hs. cbn [from_option Datatypes.id].
    destruct (id_fields (Z.of_nat k) (gen s)) as (I1 & I2 & I3); [unfold DYN_TIMER_MAX_SLOTS in *; lia|done|].
    rewrite deadline_fits, F3, E5, F1 by done. set (v := mk_node _ _ _ _ _).
    assert (Hvk : nslot v = k) by (unfold nslot; subst v; cbn [id]; rewrite I1; lia).
    set (t3 := mk_timers (h t) (hcap t2) (slots t2) (slot_cap t2) (free_head t2) (u64 (tseq t + 1)) (mem t2)).
    assert (Hov : owned (v :: h t3) t3).
    { unfold alloc_ok in Hal. apply (owned_irrel _ t2); try done; [by apply wrap_fits|]. apply (Hal v); try done.
      - split; [|done]. unfold fits, UINT64_MAX in *. cbn [deadline v]. lia.
      - by exists s.
      - by rewrite F2. }
    destruct (push_ok t3 v Hov Hh) as (Hw & Hp & Hts & _).
    { intros j w Hj. destruct (Hc j w Hj) as (s0 & Hs0 & Ep). exists s0. split; [|done]. cbn [slots t3].
      apply Hold; [|by rewrite E2]. intros Ew. apply Hk. apply list_elem_of_fmap. exists w. split; [done|].
      by eapply list_elem_of_lookup_2. }
    intros [= <- <-]. split; [exact Hw|]. right. cbn [id v] in *. split_and!; try done.
    intros (w & Ew & Hw')%list_elem_of_fmap. destruct (ow_ids _ _ Ho w Hw') as (s1 & Hs1 & Eid).
    apply Hk. apply list_elem_of_fmap. exists w. split; [|done].
    unfold nslot. rewrite <- Ew. subst v. cbn [id]. rewrite I1. lia.
Qed.

Lemma chain_alter f k ss head fl : k ∉ fl -> chain ss head fl -> chain (alter f k ss) head fl.
Proof.
  revert head. induction fl as [|k' fl IH]; intros head Hk; [done|]. apply not_elem_of_cons in Hk as [Hne Hk].
  intros [-> (s & Hs & Hc)]. split; [done|]. exists s. split; [|by apply IH].
  by rewrite list_lookup_alter_ne.
Qed.

Lemma release_owned v l t : owned (v :: l) t -> owned l (slot_release t (nslot v)).
Proof.
  intros [H1 H2 H3 (fl & H4 & H5 & H6) H7 H8 H9 H10 H11]. set (k := nslot v).
  rewrite fmap_cons in H3. apply NoDup_cons in H3 as [Hk H3].
  destruct (H2 v ltac:(left)) as (s & Hs & _). fold k in Hs, Hk.
  assert (Hkf : k ∉ fl) by (rewrite H6, fmap_cons; intros [_ Hn]; apply Hn; left).
  assert (Hlk : forall k' s', k' <> k -> alter (fun s => mk_slot NO_POS (u32 (gen s + 1)) (free_head t)) k (slots t) !! k' = Some s' ->
    slots t !! k' = Some s') by (intros k' s' Hne; by rewrite list_lookup_alter_ne).
  apply Forall_cons_iff in H1 as [_ H1].
  constructor; cbn [slots free_head hcap slot_cap tseq slot_release]; rewrite ?length_alter; try done.
  - intros w Hw. destruct (H2 w ltac:(by right)) as (s0 & Hs0 & E0). exists s0. split; [|done].
    rewrite list_lookup_alter_ne; [done|]. intros E. apply Hk. fold k. rewrite E. apply list_elem_of_fmap. eauto.
  - exists (k :: fl). split_and!.
    + split; [done|]. exists (mk_slot NO_POS (u32 (gen s + 1)) (free_head t)).
      rewrite list_lookup_alter_eq, Hs. split; [done|]. cbn [next_free]. by apply chain_alter.
    + by constructor.
    + intros k'. rewrite elem_of_cons, H6, fmap_cons, not_elem_of_cons. fold k. apply lookup_lt_Some in Hs.
      split; [by intros [-> |(? & ? & ?)]|]. intros [? ?].
      destruct (decide (k' = k)); [by left|by right].
  - intros k' s' Hs' Hn. destruct (decide (k' = k)) as [->|Hne].
    + rewrite list_lookup_alter_eq, Hs in Hs'. by injection Hs' as <-.
    + eapply H7; [by apply Hlk|]. rewrite fmap_cons, not_elem_of_cons. done.
  - apply Forall_lookup. intros k' s' Hs'. rewrite Forall_lookup in H8. destruct (decide (k' = k)) as [->|Hne].
    + rewrite list_lookup_alter_eq, Hs in Hs'. injection Hs' as <-. cbn [gen]. by apply wrap_fits.
    + eapply H8. by apply Hlk.
  - cbn [length] in H10. lia.
Qed.

(** The last node moved to [i] leaves the others. *)
Lemma last_perm (l : list tnode_t) i x y : (i < length l)%nat -> l !! i = Some x ->
  <[i := y]> l ≡ₚ delete i (l ++ [y]).
Proof.
  intros Hi Hx. apply list_elem_of_split_length in Hx as (l1 & l2 & -> & ->).
  rewrite <- app_assoc. cbn [app].
  rewrite insert_app_r_alt, Nat.sub_diag by lia. cbn. rewrite delete_middle.
  rewrite <- Permutation_middle, app_assoc. symmetry. rewrite Permutation_app_comm. done.
Qed.

Lemma remove_ok t i v : wf t -> h t !! i = Some v ->
  wf (heap_remove_at t i) /\ h t ≡ₚ v :: h (heap_remove_at t i) /\ mem (heap_remove_at t i) = mem t /\
  tseq (heap_remove_at t i) = tseq t.
Proof.
  intros [Ho Hc Hh] Hi. pose proof (lookup_lt_Some _ _ _ Hi) as Hil. unfold heap_remove_at.
  set (n := (length (h t) - 1)%nat).
  assert (Hgi : hget t i = v) by (unfold hget; by rewrite nth_lookup, Hi). rewrite Hgi.
  set (last := hget t n).
  assert (El : h t = take n (h t) ++ [last]).
  { rewrite <- (take_S_r (h t) n last); [rewrite take_ge by lia; done|]. subst last. apply nth_Some. lia. }
  assert (Hp : h t ≡ₚ v :: delete i (h t)) by by apply delete_Permutation.
  set (t0 := mk_timers (take n (h t)) (hcap t) (slots (slot_release t (nslot v))) (slot_cap t)
    (free_head (slot_release t (nslot v))) (tseq t) (mem t)).
  change (mk_timers (take n (h (slot_release t (nslot v)))) _ _ _ _ _ _) with t0.
  assert (Ho0 : owned (delete i (h t)) t0).
  { pose proof (release_owned v (delete i (h t)) t (owned_perm _ _ _ Hp Ho)) as [? ? ? ? ? ? ? ? ?]. by constructor. }
  (* positions of the other nodes are untouched by the release *)
  assert (Hc0 : forall j w, h t !! j = Some w -> j <> i -> exists s, slots t0 !! nslot w = Some s /\ spos s = Z.of_nat j).
  { intros j w Hj Hne. destruct (Hc j w Hj) as (s & Hs & Ep). exists s. split; [|done].
    cbn [t0 slots slot_release]. rewrite list_lookup_alter_ne; [done|]. intros E. apply Hne.
    eapply nodup_nslot; [apply Ho|done|done|done]. }
  destruct (Nat.eqb_spec i n) as [->|Hin].
  - assert (Ed : delete n (h t) = take n (h t)).
    { rewrite delete_take_drop, drop_ge by lia. by rewrite app_nil_r. }
    rewrite Ed in *. split_and!; try done. constructor; [done| |].
    + intros j w Hj. cbn [t0 h] in Hj. apply lookup_take_Some in Hj as [Hj Hlt]. apply Hc0; [done|lia].
    + intros j Hj. cbn [t0 h] in *. rewrite length_take in Hj. specialize (Hh j ltac:(lia)).
      pose proof (par_spec j ltac:(lia)) as [Hpj _]. unfold heap_at, key_at in *. rewrite El in Hh.
      rewrite !app_nth1 in Hh by (rewrite length_take; lia). done.
  - assert (Hlt : (i < n)%nat) by lia.
    assert (Hl : length (take n (h t)) = n) by (rewrite length_take; lia).
    assert (Hx : take n (h t) !! i = Some v) by (by rewrite lookup_take_lt).
    assert (Hpm : <[i := last]> (take n (h t)) ≡ₚ delete i (h t)).
    { rewrite El at 2. apply (last_perm _ i v); [lia|done]. }
    assert (Hmv : moving (delete i (h t)) t0 (place i last t0) i last).
    { pose proof (owned_length _ _ Ho) as Hlen. pose proof (ow_max _ _ Ho) as Hmax. unfold DYN_TIMER_MAX_SLOTS in Hmax.
      constructor; unfold place; cbn [h slots hcap slot_cap free_head tseq mem t0]; rewrite ?length_insert, ?Hl; try done; [lia| | | | |].
      - by rewrite list_insert_insert_eq.
      - apply Ho0.
      - exact (owned_range _ _ Ho0).
      - rewrite list_insert_insert_eq. apply place_coh.
        + rewrite Hpm. apply Ho0.
        + rewrite Hpm. exact (owned_range _ _ Ho0).
        + rewrite length_insert. lia.
        + rewrite length_insert. lia.
        + apply list_lookup_insert_eq. lia.
        + intros j w Hj Hji _. rewrite list_lookup_insert_ne in Hj by done.
          apply lookup_take_Some in Hj as [Hj _]. by apply Hc0.
      - apply place_slots.
        + split; [done|]. intros k s0 Hs. by exists s0.
        + rewrite <- Hpm. apply list_elem_of_fmap. exists last. split; [done|]. apply list_elem_of_lookup_2 with i.
          apply list_lookup_insert_eq. lia. }
    assert (Hka : forall j, (j < n)%nat -> key_at (<[i := last]> (take n (h t))) j = if (j =? i)%nat then key last else key_at (h t) j).
    { intros j Hj. rewrite key_at_insert by lia. destruct (Nat.eqb_spec j i); [done|].
      unfold key_at. rewrite El at 2. by rewrite app_nth1 by lia. }
    assert (Hdn : down_inv (<[i := last]> (h (place i last t0))) i i).
    { unfold place. cbn [h t0]. rewrite list_insert_insert_eq. unfold down_inv. rewrite length_insert, Hl.
      split_and!; [lia| | |done].
      - intros j Hj Hpj Hji. pose proof (par_spec j ltac:(lia)) as [Hp' _]. specialize (Hh j ltac:(lia)).
        unfold heap_at in *. rewrite !Hka by lia.
        destruct (Nat.eqb_spec (par j) i), (Nat.eqb_spec j i); try lia; done.
      - intros j Hj Hpj Hi0. pose proof (par_spec j ltac:(lia)) as [Hp' _]. pose proof (par_spec i Hi0) as [Hp'' _].
        pose proof (Hh j ltac:(lia)) as Hj1. pose proof (Hh i ltac:(lia)) as Hi1. unfold heap_at in *. rewrite !Hka by lia.
        destruct (Nat.eqb_spec (par i) i), (Nat.eqb_spec j i); try lia. rewrite Hpj in Hj1. lia. }
    destruct (sift_down_loop_ok (delete i (h t)) t0 i (length (h (place i last t0))) last i (place i last t0)) as [Hmd Hup];
      [apply Ho0|done|done|lia|].
    assert (Esd : sift_down (place i last t0) i = sift_down_loop (length (h (place i last t0))) last i (place i last t0)).
    { unfold sift_down. f_equal. unfold hget, place. cbn [h t0]. rewrite nth_lookup, list_lookup_insert_eq by lia. done. }
    rewrite Esd. set (t2 := sift_down_loop _ last i (place i last t0)) in *.
    pose proof Hmd as [Hpm2 Hc2 Hs2 Hr2].
    assert (Hl2 : length (h t2) = n).
    { rewrite Hpm2, <- Hpm, length_insert. done. }
    assert (Hw2 : h t2 !! i = Some (hget t2 i)) by (apply nth_Some; lia).
    destruct (Hc2 i _ Hw2) as (s & Hs & Eps). rewrite nth_lookup, Hs. cbn [from_option Datatypes.id].
    rewrite Eps, Z.eqb_refl.
    destruct (sift_up_loop_ok (delete i (h t)) t0 i (hget t2 i) i t2) as [Hmd3 Hhp3].
    + apply Ho0.
    + pose proof (mv_small _ _ _ _ _ Hmv) as Hsm. unfold place in Hsm. cbn [h t0] in Hsm. rewrite length_insert, Hl in Hsm.
      constructor; rewrite ?(list_insert_id _ _ _ Hw2); try done; [lia|lia|apply Ho0|exact (owned_range _ _ Ho0)|].
      intros j w Hj _. by apply Hc2.
    + by rewrite (list_insert_id _ _ _ Hw2).
    + done.
    + change (sift_up t2 i) with (sift_up_loop i (hget t2 i) i t2).
      destruct Hmd3 as [Hpm3 Hc3 Hs3 Hr3]. pose proof Hr3 as (_ & _ & _ & E4 & E5).
      split_and!; [|by rewrite Hpm3|done|done]. eapply moved_wf; [exact Ho0|by constructor|done].
Qed.

(** The slot test of dyn_timer_cancel finds exactly the active timer. *)
Lemma cancel_ok t tid : wf t -> fits 64 tid ->
  (exists i v, h t !! i = Some v /\ id v = tid /\ dyn_timer_cancel t tid = (true, heap_remove_at t i)) \/
  ((tid ∉ (id <$> h t)) /\ dyn_timer_cancel t tid = (false, t)).
Proof.
  intros Hwf Ht. pose proof Hwf as [Ho Hc Hh]. unfold dyn_timer_cancel.
  assert (Hact : forall v, v ∈ h t -> id v = tid -> exists j s, h t !! j = Some v /\
    ID_INDEX tid = Z.of_nat (nslot v) /\ slots t !! nslot v = Some s /\ spos s = Z.of_nat j /\ gen s = ID_GEN tid /\
    tid <> DYN_TIMER_NONE).
  { intros v Hv E. destruct (ow_ids _ _ Ho v Hv) as (s & Hs & Eid). apply list_elem_of_lookup in Hv as [j Hj].
    destruct (Hc j v Hj) as (s' & Hs' & Ep). assert (s' = s) as -> by congruence.
    pose proof (ow_gen _ _ Ho) as Hg. rewrite Forall_lookup in Hg. pose proof (ow_max _ _ Ho) as Hm.
    pose proof (lookup_lt_Some _ _ _ Hs) as Hlt. unfold DYN_TIMER_MAX_SLOTS in *.
    destruct (id_fields (Z.of_nat (nslot v)) (gen s)) as (I1 & I2 & I3); [lia|by eapply Hg|].
    exists j, s. rewrite <- E, Eid. split_and!; try done. }
  assert (Hlt : Z.of_nat (length (h t)) < NO_POS).
  { pose proof (owned_length _ _ Ho). pose proof (ow_max _ _ Ho). unfold NO_POS, DYN_TIMER_MAX_SLOTS in *. lia. }
  destruct (decide (tid ∈ (id <$> h t))) as [Hin|Hn].
  - left. apply list_elem_of_fmap in Hin as (v & Ev & Hv).
    destruct (Hact v Hv (eq_sym Ev)) as (j & s & Hj & Ei & Hs & Ep & Eg & Hne). exists j, v. split_and!; [done|done|].
    rewrite (proj2 (Z.eqb_neq _ _) Hne), Ei, Nat2Z.id, nth_lookup, Hs. cbn [from_option Datatypes.id].
    apply lookup_lt_Some in Hs, Hj. destruct (Z.leb_spec (Z.of_nat (length (slots t))) (Z.of_nat (nslot v))); [lia|].
    rewrite Ep, Eg, Z.eqb_refl. destruct (Z.eqb_spec (Z.of_nat j) NO_POS); [lia|]. cbn [negb]. by rewrite Nat2Z.id.
  - right. split; [done|]. destruct (tid =? DYN_TIMER_NONE); [done|].
    destruct (Z.leb_spec (Z.of_nat (length (slots t))) (ID_INDEX tid)) as [|Hidx]; [done|].
    assert (H0 : 0 <= ID_INDEX tid) by by apply wrap_fits.
    destruct (lookup_lt_is_Some_2 (slots t) (Z.to_nat (ID_INDEX tid))) as [s Hs]; [lia|].
    rewrite nth_lookup, Hs. cbn [from_option Datatypes.id].
    destruct (Z.eqb_spec (spos s) NO_POS) as [|Hnp]; [done|].
    destruct (Z.eqb_spec (gen s) (ID_GEN tid)) as [Eg|]; [|done]. exfalso. apply Hn.
    assert (Hown : Z.to_nat (ID_INDEX tid) ∈ (nslot <$> h t)).
    { destruct (decide (Z.to_nat (ID_INDEX tid) ∈ (nslot <$> h t))) as [|Hk]; [done|].
      exfalso. apply Hnp. by eapply (ow_nopos _ _ Ho). }
    apply list_elem_of_fmap in Hown as (v & Ek & Hv). apply list_elem_of_fmap. exists v. split; [|done].
    destruct (ow_ids _ _ Ho v Hv) as (s' & Hs' & ->). rewrite <- Ek in *. assert (s' = s) as -> by congruence.
    rewrite Eg, Z2Nat.id by done. symmetry. apply id_unique; [done|done|].
    pose proof (ow_max _ _ Ho). unfold DYN_TIMER_MAX_SLOTS in *. lia.
Qed.

(** ** Running *)

Definition due (now : Z) (v : tnode_t) : Prop := deadline v <= now.
#[export] Instance due_dec now v : Decision (due now v).
Proof. unfold due. apply _. Defined.

(** The number of timers due. *)
Definition due_count (now : Z) (t : dyn_timers_t) : nat := length (filter (due now) (h t)).

Lemma heap_head_min v l w : heap (v :: l) -> w ∈ v :: l -> key v <= key w.
Proof.
  intros Hh Hw. apply list_elem_of_lookup in Hw as [j Hj]. pose proof (lookup_lt_Some _ _ _ Hj) as Hlt.
  pose proof (heap_min _ j Hh Hlt) as H. unfold key_at in H. change (nth 0 (v :: l) node0) with v in H. rewrite nth_lookup, Hj in H. exact H.
Qed.

Lemma key_deadline a b : node_ok a -> node_ok b -> key a <= key b -> deadline a <= deadline b.
Proof. unfold node_ok, fits, key. intros [? ?] [? ?]. nia. Qed.

Lemma head_not_due now t v l : wf t -> h t = v :: l -> now < deadline v -> filter (due now) (h t) = [].
Proof.
  intros Hwf E Hd.
  pose proof (wf_heap _ Hwf) as Hh. pose proof (ow_nodes _ _ (wf_owned _ Hwf)) as Hok. rewrite Forall_forall in Hok.
  assert (Hall : Forall (fun w => ~ due now w) (h t)).
  { apply Forall_forall. intros w Hw Hdue. unfold due in Hdue. rewrite E in Hh, Hw.
    pose proof (heap_head_min v l w Hh Hw) as Hk.
    apply key_deadline in Hk; [lia|apply Hok; rewrite E; left|apply Hok; by rewrite E]. }
  clear -Hall. induction Hall as [|w l' Hw _ IH]; [done|]. by rewrite filter_cons_False.
Qed.

(** One turn of the loop: the least node leaves, everything else stays. *)
Lemma run_turn now t v l : wf t -> h t = v :: l -> deadline v <= now ->
  wf (heap_remove_at t 0) /\ h t ≡ₚ v :: h (heap_remove_at t 0) /\
  due_count now t = S (due_count now (heap_remove_at t 0)).
Proof.
  intros Hwf E Hd. destruct (remove_ok t 0 v Hwf) as (Hw & Hp & _); [by rewrite E|]. split_and!; [done|done|].
  unfold due_count. rewrite Hp at 1. by rewrite filter_cons_True.
Qed.

(** ** Callbacks *)

(** What a callback does to the timers: it adds and cancels some, each time
    looking at the answer, and leaves a new world. *)
Inductive callback (W : Type) :=
  | CDone (w : W)
  | CAdd (now delay cb arg : Z) (k : Z -> callback W)
  | CCancel (tid : Z) (k : bool -> callback W).
Arguments CDone {W}.
Arguments CAdd {W}.
Arguments CCancel {W}.

Fixpoint run_callback {W} (c : callback W) (t : dyn_timers_t) : W * dyn_timers_t :=
  match c with
  | CDone w => (w, t)
  | CAdd now delay cb arg k => let '(tid, t) := dyn_timer_add t now delay cb arg in run_callback (k tid) t
  | CCancel tid k => let '(ok, t) := dyn_timer_cancel t tid in run_callback (k ok) t
  end.

Definition firing {W} (fire : Z -> Z -> W -> callback W) (c a : Z) (wt : W * dyn_timers_t) : W * dyn_timers_t :=
  run_callback (fire c a wt.1) wt.2.

(** The timers it adds are due after [now]. *)
Fixpoint later {W} (now : Z) (c : callback W) : Prop :=
  match c with
  | CDone _ => True
  | CAdd n d _ _ k => fits 64 n /\ fits 64 d /\ now < Z.min (n + d) UINT64_MAX /\ forall tid, later now (k tid)
  | CCancel tid k => fits 64 tid /\ forall ok, later now (k ok)
  end.

(** What a run is meant to be: as long as a timer is due, the one with the least
    deadline, and the oldest of those, is taken out and its callback runs;
    [fired] is what was taken out. *)
Inductive timer_turns {W} (fire : Z -> Z -> W -> callback W) (now : Z) : W -> dyn_timers_t -> list tnode_t -> W -> dyn_timers_t -> Prop :=
  | turns_end w t : Forall (fun v => ~ due now v) (h t) -> timer_turns fire now w t [] w t
  | turns_fire w t v t1 w2 t2 fired w' t' :
      due now v -> (forall u, u ∈ h t -> key v <= key u) -> h t ≡ₚ v :: h t1 -> wf t1 ->
      firing fire (cb v) (arg v) (w, t1) = (w2, t2) -> timer_turns fire now w2 t2 fired w' t' ->
      timer_turns fire now w t (v :: fired) w' t'.

Lemma due_count_perm now t v l : h t ≡ₚ v :: l -> ~ due now v -> due_count now t = length (filter (due now) l).
Proof. intros Hp Hv. unfold due_count. rewrite Hp. by rewrite filter_cons_False. Qed.

(** A callback keeps the timers well formed and makes no more of them due. *)
Lemma run_callback_ok {W} now (c : callback W) t : wf t -> later now c -> wf (run_callback c t).2 /\ (due_count now (run_callback c t).2 <= due_count now t)%nat.
Proof.
  revert t. induction c as [w|n d cb_ arg_ k IH|tid k IH]; intros t Hwf Hl; cbn [run_callback].
  - done.
  - destruct Hl as (Hn & Hd & Hlt & Hk). destruct (dyn_timer_add t n d cb_ arg_) as [tid t1] eqn:E.
    destruct (add_ok t n d cb_ arg_ tid t1 Hwf Hn Hd E) as [Hw1 Hr]. destruct (IH tid t1 Hw1 (Hk tid)) as [Hw2 Hc]. split; [done|].
    destruct Hr as [(_ & Eh & _)|(_ & _ & Hp & _)]; [unfold due_count in *; by rewrite Eh in Hc|].
    rewrite (due_count_perm now t1 _ _ Hp) in Hc; [exact Hc|]. unfold due. cbn. lia.
  - destruct Hl as [Ht Hk]. destruct (cancel_ok t tid Hwf Ht) as [(i & v & Hi & _ & ->)|[_ ->]]; [|by apply IH].
    destruct (remove_ok t i v Hwf Hi) as (Hw1 & Hp & _). destruct (IH true _ Hw1 (Hk true)) as [Hw2 Hc]. split; [done|].
    assert (due_count now (heap_remove_at t i) <= due_count now t)%nat; [|lia]. unfold due_count. rewrite Hp, filter_cons. case_decide; cbn [length]; lia.
Qed.

Module Timer_props.

(** The empty set is well formed and dyn_timer_add keeps the set well formed:
    it either fails without changing the active timers (no callback, no
    memory, or a million timers already) or adds exactly one timer, with the
    saturated deadline and the next sequence number, under an identifier that
    no active timer has. *)
Theorem timer_add_refines t now delay cb_ arg_ tid t' :
  wf t -> fits 64 now -> fits 64 delay -> dyn_timer_add t now delay cb_ arg_ = (tid, t') ->
  wf t' /\
  ((tid = DYN_TIMER_NONE /\ h t' = h t /\
    (cb_ <> 0 -> Forall (fun b => b = true) (mem t) -> DYN_TIMER_MAX_SLOTS <= Z.of_nat (length (h t)))) \/
   (tid <> DYN_TIMER_NONE /\ (tid ∉ (id <$> h t)) /\
    h t' ≡ₚ mk_node (Z.min (now + delay) UINT64_MAX) (tseq t) cb_ arg_ tid :: h t /\
    tseq t' = u64 (tseq t + 1))).
Proof. intros. by eapply add_ok. Qed.

Lemma timer_add_refines_witness :
  let '(tid, t') := dyn_timer_add (dyn_timers_new []) 5 10 1 0 in
  tid = 1 /\ wf t' /\ h t' = [mk_node 15 0 1 0 1].
Proof.
  destruct (dyn_timer_add (dyn_timers_new []) 5 10 1 0) as [tid t'] eqn:E.
  destruct (timer_add_refines (dyn_timers_new []) 5 10 1 0 tid t') as [Hw _];
    [apply wf_new|by vm_compute|by vm_compute|exact E|].
  vm_compute in E. injection E as <- <-. done.
Defined.

(** dyn_timer_cancel removes the timer an identifier names when it is active,
    reports so, and otherwise changes nothing: an identifier whose timer has
    fired or was cancelled does not cancel the timer that reuses its slot, as
    long as that one has another identifier (generations count modulo 2^32). *)
Theorem timer_cancel_exact t tid :
  wf t -> fits 64 tid ->
  let '(ok, t') := dyn_timer_cancel t tid in
  wf t' /\ (ok = true <-> tid ∈ (id <$> h t)) /\
  (ok = true -> exists v, id v = tid /\ h t ≡ₚ v :: h t') /\ (ok = false -> t' = t).
Proof.
  intros Hwf Ht. destruct (cancel_ok t tid Hwf Ht) as [(i & v & Hi & Ev & E)|[Hn E]]; rewrite E.
  - destruct (remove_ok t i v Hwf Hi) as (Hw & Hp & _). split_and!; try done.
    + split; [|done]. intros _. apply list_elem_of_fmap. exists v. split; [done|]. by eapply list_elem_of_lookup_2.
    + intros _. eauto.
  - by split_and!.
Qed.

Lemma timer_cancel_exact_witness :
  let t := (dyn_timer_add (dyn_timer_add (dyn_timers_new []) 0 9 1 0).2 0 3 1 0).2 in
  let t1 := (dyn_timer_cancel t 1).2 in
  wf (dyn_timer_cancel t 1).2 /\ (dyn_timer_cancel t 1).1 = true /\ (dyn_timer_cancel t1 1).1 = false.
Proof.
  intros t t1.
  assert (Hwf : wf t).
  { destruct (add_ok (dyn_timers_new []) 0 9 1 0 _ _ (wf_new []) ltac:(by vm_compute) ltac:(by vm_compute) (surjective_pairing _)) as [H1 _].
    by destruct (add_ok _ 0 3 1 0 _ _ H1 ltac:(by vm_compute) ltac:(by vm_compute) (surjective_pairing _)) as [H2 _]. }
  pose proof (timer_cancel_exact t 1 Hwf ltac:(by vm_compute)) as H.
  assert (E : (dyn_timer_cancel t 1).1 = true) by by vm_compute.
  split_and!; [|exact E|by vm_compute].
  destruct (dyn_timer_cancel t 1) as [ok t']. apply H.
Defined.

(** dyn_timer_next_timeout: -1 exactly when no timer is active, 0 exactly when
    one is due, and otherwise the time to the earliest deadline, capped to an
    int. *)
Theorem timer_next_timeout_exact t now :
  wf t -> fits 64 now ->
  (dyn_timer_next_timeout t now = -1 <-> h t = []) /\
  (dyn_timer_next_timeout t now = 0 <-> exists v, v ∈ h t /\ due now v) /\
  (forall v, v ∈ h t -> now < deadline v -> dyn_timer_next_timeout t now <= deadline v - now) /\
  (0 < dyn_timer_next_timeout t now < 2 ^ 31 - 1 ->
   exists v, v ∈ h t /\ deadline v = now + dyn_timer_next_timeout t now).
Proof.
  intros Hwf Hnow. unfold dyn_timer_next_timeout. pose proof (wf_heap _ Hwf) as Hh.
  pose proof (ow_nodes _ _ (wf_owned _ Hwf)) as Hok. rewrite Forall_forall in Hok.
  destruct (h t) as [|v l] eqn:E.
  { split_and!; [done| |by intros v Hv%elem_of_nil|lia]. split; [done|]. by intros (v & Hv%elem_of_nil & _). }
  assert (Hmin : forall w, w ∈ v :: l -> deadline v <= deadline w).
  { intros w Hw. pose proof (heap_head_min v l w Hh Hw) as Hk. apply key_deadline in Hk; [done|apply Hok; left|by apply Hok]. }
  destruct (Z.leb_spec (deadline v) now) as [Hle|Hgt].
  - split_and!; [done| |intros; lia|lia]. split; [|done]. intros _. exists v. split; [left|done].
  - assert (Hd : forall d, d = (if 2 ^ 31 - 1 <? deadline v - now then 2 ^ 31 - 1 else deadline v - now) ->
      0 < d <= deadline v - now /\ (d < 2 ^ 31 - 1 -> d = deadline v - now)) by (intros d ->; case_ifs; lia).
    specialize (Hd _ eq_refl). set (d := if 2 ^ 31 - 1 <? deadline v - now then _ else _) in *. clearbody d.
    split_and!.
    + split; [lia|done].
    + split; [lia|]. intros (w & Hw & Hdue). unfold due in Hdue. specialize (Hmin w Hw). lia.
    + intros w Hw _. specialize (Hmin w Hw). lia.
    + intros Hr. exists v. split; [left|lia].
Qed.

Lemma timer_next_timeout_exact_witness :
  let t := (dyn_timer_add (dyn_timers_new []) 5 10 1 0).2 in
  dyn_timer_next_timeout t 8 = 7 /\ (dyn_timer_next_timeout t 8 = -1 <-> h t = []).
Proof.
  intros t. split; [by vm_compute|]. apply (timer_next_timeout_exact t 8); [|by vm_compute].
  by destruct (add_ok (dyn_timers_new []) 5 10 1 0 _ _ (wf_new []) ltac:(by vm_compute) ltac:(by vm_compute) (surjective_pairing _)) as [H1 _].
Defined.

(** When callbacks leave the timers well formed and add none that is already
    due (they may cancel, and add later ones), dyn_timer_run ends after at most
    as many callbacks as there were due timers, and then none is due. *)
Theorem timer_run_terminates {W} (fire : Z -> Z -> W * dyn_timers_t -> W * dyn_timers_t) now w t ran :
  (forall c a w t, wf t -> wf (fire c a (w, t)).2 /\ (due_count now (fire c a (w, t)).2 <= due_count now t)%nat) ->
  wf t ->
  exists k w' t', dyn_timer_run fire (due_count now t) now w t ran = Some (ran + Z.of_nat k, (w', t')) /\
    (k <= due_count now t)%nat /\ wf t' /\ filter (due now) (h t') = [].
Proof.
  intros Hf. remember (due_count now t) as n eqn:En.
  assert (Hn : (due_count now t <= n)%nat) by lia. clear En. revert w t ran Hn.
  induction n as [|n IH]; intros w t ran Hn Hwf; cbn [dyn_timer_run].
  - destruct (h t) as [|v l] eqn:E; [exists 0%nat, w, t; rewrite Z.add_0_r, E; by split_and!|].
    destruct (Z.leb_spec (deadline v) now) as [Hd|Hd].
    + destruct (run_turn now t v l Hwf E Hd) as (_ & _ & Ec). lia.
    + exists 0%nat, w, t. rewrite Z.add_0_r. split_and!; try done. by eapply head_not_due.
  - destruct (h t) as [|v l] eqn:E; [exists 0%nat, w, t; rewrite Z.add_0_r, E; split_and!; try done; lia|].
    destruct (Z.leb_spec (deadline v) now) as [Hd|Hd].
    + destruct (run_turn now t v l Hwf E Hd) as (Hw1 & _ & Ec).
      destruct (Hf (cb v) (arg v) w _ Hw1) as [Hw2 Hc2]. destruct (fire _ _ _) as [w2 t2]. cbn [snd] in *.
      destruct (IH w2 t2 (ran + 1)) as (k & w' & t' & -> & Hk & Hw' & Hd'); [lia|done|].
      exists (S k), w', t'. split_and!; try done; [|lia]. do 2 f_equal. lia.
    + exists 0%nat, w, t. rewrite Z.add_0_r. split_and!; try done; [lia|]. by eapply head_not_due.
Qed.

Lemma timer_run_terminates_witness :
  let t := (dyn_timer_add (dyn_timer_add (dyn_timers_new []) 0 9 7 70 ).2 0 3 8 80).2 in
  let fire c a '(w, t) := (w ++ [(c, a)], t) in
  exists k w' t', dyn_timer_run fire (due_count 10 t) 10 [] t 0 = Some (0 + Z.of_nat k, (w', t')) /\
    (k <= due_count 10 t)%nat /\ wf t' /\ filter (due 10) (h t') = [].
Proof.
  intros t fire. apply (timer_run_terminates fire 10 [] t 0).
  - intros c a w u Hu. split; [exact Hu|]. done.
  - destruct (add_ok (dyn_timers_new []) 0 9 7 70 _ _ (wf_new []) ltac:(by vm_compute) ltac:(by vm_compute) (surjective_pairing _)) as [H1 _].
    by destruct (add_ok _ 0 3 8 80 _ _ H1 ltac:(by vm_compute) ltac:(by vm_compute) (surjective_pairing _)) as [H2 _].
Defined.

(** C26. The order of a run, with callbacks that add timers which are due later and
    cancel any, also due ones, by what they are answered.  The run ends, and as long as a
    timer was due the one with the least deadline, and of those the oldest, was
    taken out and its callback called, which saw the timers without it; the answer
    is how many were called, and none is due in the end. *)
Theorem timer_run_order {W} (fire : Z -> Z -> W -> callback W) now w t ran :
  (forall c a w, later now (fire c a w)) -> wf t ->
  exists fired w' t', dyn_timer_run (firing fire) (due_count now t) now w t ran = Some (ran + Z.of_nat (length fired), (w', t')) /\
    timer_turns fire now w t fired w' t' /\ wf t'.
Proof.
  intros Hf. remember (due_count now t) as n eqn:En.
  assert (Hn : (due_count now t <= n)%nat) by lia. clear En. revert w t ran Hn.
  assert (Hend : forall w t, filter (due now) (h t) = [] -> timer_turns fire now w t [] w t).
  { intros w t Hnil. constructor. apply Forall_forall. intros v Hv Hd. apply (not_elem_of_nil v). rewrite <- Hnil. by apply list_elem_of_filter. }
  induction n as [|n IH]; intros w t ran Hn Hwf; cbn [dyn_timer_run].
  - assert (Hnil : filter (due now) (h t) = []) by (apply length_zero_iff_nil; unfold due_count in Hn; lia).
    exists [], w, t. rewrite Z.add_0_r. split; [|by split; [apply Hend|]]. destruct (h t) as [|v l] eqn:E; [done|].
    destruct (Z.leb_spec (deadline v) now) as [Hd|Hd]; [|done]. by rewrite filter_cons_True in Hnil.
  - destruct (h t) as [|v l] eqn:E.
    { exists [], w, t. rewrite Z.add_0_r. split; [done|]. split; [|done]. apply Hend. by rewrite E. }
    destruct (Z.leb_spec (deadline v) now) as [Hd|Hd].
    2: { exists [], w, t. rewrite Z.add_0_r. split; [done|]. split; [|done]. by eapply Hend, head_not_due. }
    destruct (run_turn now t v l Hwf E Hd) as (Hw1 & Hp1 & Ec).
    destruct (run_callback_ok now (fire (cb v) (arg v) w) _ Hw1 (Hf _ _ _)) as [Hw2 Hc2].
    change (run_callback (fire (cb v) (arg v) w) (heap_remove_at t 0)) with (firing fire (cb v) (arg v) (w, heap_remove_at t 0)) in *.
    destruct (firing fire (cb v) (arg v) (w, heap_remove_at t 0)) as [w2 t2] eqn:Ef. cbn [snd] in *.
    destruct (IH w2 t2 (ran + 1)) as (fired & w' & t' & -> & Ht & Hw'); [lia|done|].
    exists (v :: fired), w', t'. split; [cbn [length]; do 2 f_equal; lia|]. split; [|done].
    econstructor; [exact Hd| |exact Hp1|exact Hw1|exact Ef|exact Ht]. intros u Hu.
    pose proof (wf_heap _ Hwf) as Hh. rewrite E in Hh, Hu. by apply (heap_head_min v l u Hh).
Qed.

(** Two timers; the callback of the first cancels the second, which is due too,
    and adds one for later. *)
Lemma timer_run_order_witness :
  let t := (dyn_timer_add (dyn_timer_add (dyn_timers_new []) 0 9 7 70).2 0 3 8 80).2 in
  let fire c a (w : list Z) := CCancel 1 (fun _ => CAdd 10 5 7 70 (fun _ => CDone (w ++ [a]))) in
  exists fired w' t', dyn_timer_run (firing fire) (due_count 10 t) 10 [] t 0 = Some (0 + Z.of_nat (length fired), (w', t')) /\
    timer_turns fire 10 [] t fired w' t' /\ w' = [80].
Proof.
  intros t fire. destruct (timer_run_order fire 10 [] t 0) as (fired & w' & t' & E & Ht & _).
  - intros c a w. repeat split; unfold fits; lia.
  - destruct (add_ok (dyn_timers_new []) 0 9 7 70 _ _ (wf_new []) ltac:(by vm_compute) ltac:(by vm_compute) (surjective_pairing _)) as [H1 _].
    by destruct (add_ok _ 0 3 8 80 _ _ H1 ltac:(by vm_compute) ltac:(by vm_compute) (surjective_pairing _)) as [H2 _].
  - exists fired, w', t'. split; [exact E|]. split; [exact Ht|]. vm_compute in E. by injection E as _ <- _.
Defined.

End Timer_props.
