(* ===== verification/Resp.v ===== *)
(** * RESP: the Redis wire protocol

    The incremental scanner, the reply reader and the command encoder of
    src/core/dyn-resp.c.  A buffer is the list of its [len] bytes and a
    position an index into it.  Number conversion of doubles (js_atod) is
    another component: the reader takes it as a parameter. *)
From Stdlib Require Import ZArith Lia Ascii.
From stdpp Require Import base numbers list option strings.
From S2P Require Import Prelude.

Definition CR : Z := 13.
Definition LF : Z := 10.

Definition DYN_RESP_SIMPLE : Z := ch "+".
Definition DYN_RESP_ERROR : Z := ch "-".
Definition DYN_RESP_INT : Z := ch ":".
Definition DYN_RESP_BULK : Z := ch "$".
Definition DYN_RESP_ARRAY : Z := ch "*".
Definition DYN_RESP_NULL : Z := ch "_".
Definition DYN_RESP_DOUBLE : Z := ch ",".
Definition DYN_RESP_BOOL : Z := ch "#".
Definition DYN_RESP_BLOBERR : Z := ch "!".
Definition DYN_RESP_VERB : Z := ch "=".
Definition DYN_RESP_BIGNUM : Z := ch "(".
Definition DYN_RESP_MAP : Z := ch "%".
Definition DYN_RESP_SET : Z := ch "~".
Definition DYN_RESP_ATTR : Z := ch "|".
Definition DYN_RESP_PUSH : Z := ch ">".

Definition DYN_RESP_MAX_DEPTH : Z := 32.
Definition DYN_RESP_MAX_LINE : Z := 65536.
Definition RESP_DEFAULT_MAXBULK : Z := 64 * 1024 * 1024.
Definition RESP_MIN_VALUE_LEN : Z := 3.

Inductive resp_code := DYN_RESP_OK | DYN_RESP_INCOMPLETE | DYN_RESP_E_TYPE | DYN_RESP_E_SYNTAX
  | DYN_RESP_E_DEPTH | DYN_RESP_E_TOOBIG | DYN_RESP_E_COUNT | DYN_RESP_E_INT.

#[export] Instance resp_code_eq_dec : EqDecision resp_code.
Proof. solve_decision. Defined.

Definition dyn_resp_strerror (code : resp_code) : string :=
  match code with
  | DYN_RESP_OK => "ok"
  | DYN_RESP_INCOMPLETE => "reply incomplete"
  | DYN_RESP_E_TYPE => "unknown RESP type byte"
  | DYN_RESP_E_SYNTAX => "malformed RESP: bad number or terminator"
  | DYN_RESP_E_DEPTH => "RESP nesting past its limit"
  | DYN_RESP_E_TOOBIG => "RESP length past its limit"
  | DYN_RESP_E_INT => "RESP integer out of range"
  | DYN_RESP_E_COUNT => "RESP element count exceeds the message"
  end.

Definition at_ (b : bytes) (i : nat) : Z := nth i b 0.

Definition dyn_resp_looks_like_tls (b : bytes) : bool :=
  (3 <=? length b)%nat && ((at_ b 0 =? 0x16) || (at_ b 0 =? 0x15)) && (at_ b 1 =? 0x03) && (at_ b 2 <=? 0x04).

(** The scan for the end of a line, [n] turns from [i]: the index of the CR,
    or the code returned. *)
Fixpoint resp_line_loop (n : nat) (b : bytes) (i : nat) (stop : nat) : resp_code + nat :=
  match n with
  | O => inl (if (stop <? length b)%nat then DYN_RESP_E_TOOBIG else DYN_RESP_INCOMPLETE)
  | S n =>
      if at_ b i =? LF then inl DYN_RESP_E_SYNTAX else
      if at_ b i =? CR then
        if (length b <=? i + 1)%nat then inl DYN_RESP_INCOMPLETE else
        if negb (at_ b (i + 1) =? LF) then inl DYN_RESP_E_SYNTAX else inr i
      else resp_line_loop n b (i + 1) stop
  end.

Definition resp_line (b : bytes) (pos : nat) : resp_code + nat :=
  let stop := Z.to_nat (Z.min (Z.of_nat pos + DYN_RESP_MAX_LINE) (Z.of_nat (length b))) in
  resp_line_loop (stop - pos) b pos stop.

Definition is_digit (c : Z) : bool := (ch "0" <=? c) && (c <=? ch "9").

(** The two accumulation loops of resp_int, over the digits left. *)
Fixpoint resp_int_neg (l : bytes) (v : Z) : resp_code + Z :=
  match l with
  | [] => inr v
  | c :: l =>
      if negb (is_digit c) then inl DYN_RESP_E_SYNTAX else
      let d := c - ch "0" in
      if v <? Z.quot INT64_MIN 10 then inl DYN_RESP_E_INT else
      let v := v * 10 in
      if v <? INT64_MIN + d then inl DYN_RESP_E_INT else resp_int_neg l (v - d)
  end.

Fixpoint resp_int_pos (l : bytes) (v : Z) : resp_code + Z :=
  match l with
  | [] => inr v
  | c :: l =>
      if negb (is_digit c) then inl DYN_RESP_E_SYNTAX else
      let d := c - ch "0" in
      if Z.quot (INT64_MAX - d) 10 <? v then inl DYN_RESP_E_INT else resp_int_pos l (v * 10 + d)
  end.

(** [resp_int(b, s, e)] on the bytes from [s] to [e]. *)
Definition resp_int (l : bytes) : resp_code + Z :=
  match l with
  | [] => inl DYN_RESP_E_SYNTAX
  | c :: l' =>
      let neg := c =? ch "-" in
      let rest := if neg then l' else if c =? ch "+" then l' else l in
      match rest with
      | [] => inl DYN_RESP_E_SYNTAX
      | _ => if neg then resp_int_neg rest 0 else resp_int_pos rest 0
      end
  end.

Definition slice (b : bytes) (s e : nat) : bytes := take (e - s) (drop s b).

Definition is_line_type (t : Z) : bool :=
  existsb (Z.eqb t) [DYN_RESP_SIMPLE; DYN_RESP_ERROR; DYN_RESP_INT; DYN_RESP_NULL; DYN_RESP_DOUBLE;
    DYN_RESP_BOOL; DYN_RESP_BIGNUM].
Definition is_bulk_type (t : Z) : bool := existsb (Z.eqb t) [DYN_RESP_BULK; DYN_RESP_BLOBERR; DYN_RESP_VERB].
Definition is_agg_type (t : Z) : bool :=
  existsb (Z.eqb t) [DYN_RESP_ARRAY; DYN_RESP_SET; DYN_RESP_PUSH; DYN_RESP_MAP; DYN_RESP_ATTR].

(** The three branches of resp_one after the line was found to end at [e]:
    the code, or the number of elements announced and the new position. *)
Definition resp_one_line (b : bytes) (t : Z) (p e : nat) : resp_code + Z * nat :=
  if t =? DYN_RESP_INT then
    match resp_int (slice b (p + 1) e) with inl rc => inl rc | inr _ => inr (0, (e + 2)%nat) end
  else if t =? DYN_RESP_NULL then
    if negb (e =? p + 1)%nat then inl DYN_RESP_E_SYNTAX else inr (0, (e + 2)%nat)
  else if t =? DYN_RESP_BOOL then
    if negb (e =? p + 2)%nat || (negb (at_ b (p + 1) =? ch "t") && negb (at_ b (p + 1) =? ch "f"))
    then inl DYN_RESP_E_SYNTAX else inr (0, (e + 2)%nat)
  else inr (0, (e + 2)%nat).

Definition resp_one_bulk (b : bytes) (t : Z) (p e : nat) (maxbulk : Z) : resp_code + Z * nat :=
  match resp_int (slice b (p + 1) e) with
  | inl rc => inl rc
  | inr n =>
      if n <? 0 then
        if negb (n =? -1) || negb (t =? DYN_RESP_BULK) then inl DYN_RESP_E_SYNTAX else inr (0, (e + 2)%nat)
      else if maxbulk <? n then inl DYN_RESP_E_TOOBIG
      else if Z.of_nat (length b) <? Z.of_nat e + 2 + n + 2 then inl DYN_RESP_INCOMPLETE
      else
        let k := Z.to_nat n in
        if negb (at_ b (e + 2 + k) =? CR) || negb (at_ b (e + 3 + k) =? LF) then inl DYN_RESP_E_SYNTAX
        else inr (0, (e + 2 + k + 2)%nat)
  end.

Definition resp_one_agg (b : bytes) (t : Z) (p e : nat) (maxbulk : Z) : resp_code + Z * nat :=
  match resp_int (slice b (p + 1) e) with
  | inl rc => inl rc
  | inr n =>
      if n <? 0 then
        if negb (n =? -1) || negb (t =? DYN_RESP_ARRAY) then inl DYN_RESP_E_SYNTAX else inr (0, (e + 2)%nat)
      else
        let double := (t =? DYN_RESP_MAP) || (t =? DYN_RESP_ATTR) in
        if double && (Z.quot INT64_MAX 2 <? n) then inl DYN_RESP_E_TOOBIG else
        let n := if double then n * 2 else n in
        if Z.quot maxbulk RESP_MIN_VALUE_LEN <? n then inl DYN_RESP_E_COUNT
        else inr (n, (e + 2)%nat)
  end.

(** The code, or the type, the number of elements and the new position. *)
Definition resp_one (b : bytes) (p : nat) (maxbulk : Z) : resp_code + Z * Z * nat :=
  if (length b <=? p)%nat then inl DYN_RESP_INCOMPLETE else
  let t := at_ b p in
  let finish (k : nat -> resp_code + Z * nat) :=
    match resp_line b (p + 1) with
    | inl rc => inl rc
    | inr e => match k e with inl rc => inl rc | inr (n, pos) => inr (t, n, pos) end
    end in
  if is_line_type t then finish (resp_one_line b t p)
  else if is_bulk_type t then finish (fun e => resp_one_bulk b t p e maxbulk)
  else if is_agg_type t then finish (fun e => resp_one_agg b t p e maxbulk)
  else inl DYN_RESP_E_TYPE.

(** [want[0..sp]] counts the values still expected at each nesting level. *)
Record dyn_resp_scan_t := mk_scan { want : list Z; sp : Z; spos_ : nat }.

Definition dyn_resp_scan_init : dyn_resp_scan_t := mk_scan (1 :: replicate 31 0) 0 0.

Definition want_at (st : dyn_resp_scan_t) : Z := nth (Z.to_nat (sp st)) (want st) 0.

(** [while (st->sp >= 0 && st->want[st->sp] == 0) st->sp--]; [sp] is below 32. *)
Fixpoint scan_pop (fuel : nat) (st : dyn_resp_scan_t) : dyn_resp_scan_t :=
  match fuel with
  | O => st
  | S fuel =>
      if (0 <=? sp st) && (want_at st =? 0) then scan_pop fuel (mk_scan (want st) (sp st - 1) (spos_ st))
      else st
  end.

(** One turn of the scanner after the finished levels were popped: it goes on,
    or returns a code, the bytes consumed and the state it leaves. *)
Definition scan_value (b : bytes) (maxbulk : Z) (st : dyn_resp_scan_t)
    : dyn_resp_scan_t + resp_code * nat * dyn_resp_scan_t :=
  if sp st <? 0 then inr (DYN_RESP_OK, spos_ st, dyn_resp_scan_init) else
  match resp_one b (spos_ st) maxbulk with
  | inl DYN_RESP_INCOMPLETE => inr (DYN_RESP_INCOMPLETE, 0%nat, st)
  | inl rc => inr (rc, 0%nat, dyn_resp_scan_init)
  | inr (type, n, pos) =>
      let w := <[Z.to_nat (sp st) := want_at st - 1]> (want st) in
      let n := if type =? DYN_RESP_ATTR then n + 1 else n in
      if 0 <? n then
        if DYN_RESP_MAX_DEPTH <=? sp st + 1 then inr (DYN_RESP_E_DEPTH, 0%nat, dyn_resp_scan_init)
        else inl (mk_scan (<[Z.to_nat (sp st + 1) := n]> w) (sp st + 1) pos)
      else inl (mk_scan w (sp st) pos)
  end.

Definition scan_turn (b : bytes) (maxbulk : Z) (st : dyn_resp_scan_t)
    : dyn_resp_scan_t + resp_code * nat * dyn_resp_scan_t := scan_value b maxbulk (scan_pop 32 st).

Definition scan_loop (fuel : nat) (b : bytes) (maxbulk : Z) (st : dyn_resp_scan_t)
    : option (resp_code * nat * dyn_resp_scan_t) := turns (scan_turn b maxbulk) fuel st.

Definition scan_max (maxbulk : Z) : Z := if maxbulk =? 0 then RESP_DEFAULT_MAXBULK else maxbulk.

(** Every turn but the last consumes input, so one more turn than there are
    bytes is enough. *)
Definition dyn_resp_scan_resume (st : dyn_resp_scan_t) (b : bytes) (maxbulk : Z)
    : option (resp_code * nat * dyn_resp_scan_t) :=
  scan_loop (S (length b)) b (scan_max maxbulk) st.

Definition dyn_resp_scan (b : bytes) (maxbulk : Z) : option (resp_code * nat * dyn_resp_scan_t) :=
  dyn_resp_scan_resume dyn_resp_scan_init b maxbulk.

(** ** The reader *)

Record dyn_resp_item_t := mk_item {
  it_str : option bytes; it_ival : Z; it_dval : option Z; it_count : Z; it_type : Z; it_isnull : bool }.

Definition item0 (t : Z) : dyn_resp_item_t := mk_item None 0 None 0 t false.

(** Bits of the doubles the source computes as overflows of 1e308 * 10. *)
Definition DBL_INF : Z := 0x7FF0000000000000.
Definition DBL_NINF : Z := 0xFFF0000000000000.
Definition DBL_NAN : Z := 0x7FF8000000000000.

(** [atod s] is js_atod on the whole text: its bits, or [None] when it does not
    end at the end of the text or is a NaN. *)
Section Reader.
Context (atod : bytes -> option Z).

Definition dyn_resp_parse_double (s : bytes) : resp_code + Z :=
  match s with
  | [] => inl DYN_RESP_E_SYNTAX
  | _ => match atod s with Some v => inr v | None => inl DYN_RESP_E_SYNTAX end
  end.

(** The code, the item and the new position of the reader. *)
Definition dyn_resp_next (b : bytes) (p : nat) : resp_code * dyn_resp_item_t * nat :=
  if (length b <=? p)%nat then (DYN_RESP_INCOMPLETE, item0 0, p) else
  let t := at_ b p in
  match resp_line b (p + 1) with
  | inl rc => (rc, item0 t, p)
  | inr e =>
      let s := slice b (p + 1) e in
      let pos := (e + 2)%nat in
      let text := mk_item (Some s) 0 None 0 t false in
      let null := mk_item None 0 None 0 t true in
      if (t =? DYN_RESP_SIMPLE) || (t =? DYN_RESP_ERROR) || (t =? DYN_RESP_BIGNUM) then (DYN_RESP_OK, text, pos)
      else if t =? DYN_RESP_NULL then (DYN_RESP_OK, null, pos)
      else if t =? DYN_RESP_BOOL then
        (DYN_RESP_OK, mk_item (Some s) (if (length s =? 1)%nat && (nth 0 s 0 =? ch "t") then 1 else 0) None 0 t false, pos)
      else if t =? DYN_RESP_INT then
        match resp_int s with
        | inl rc => (rc, text, pos)
        | inr v => (DYN_RESP_OK, mk_item (Some s) v None 0 t false, pos)
        end
      else if t =? DYN_RESP_DOUBLE then
        let dbl v := mk_item (Some s) 0 (Some v) 0 t false in
        if bool_decide (s = str "inf") then (DYN_RESP_OK, dbl DBL_INF, pos)
        else if bool_decide (s = str "-inf") then (DYN_RESP_OK, dbl DBL_NINF, pos)
        else if bool_decide (s = str "nan") then (DYN_RESP_OK, dbl DBL_NAN, pos)
        else match dyn_resp_parse_double s with
             | inl rc => (rc, text, pos)
             | inr v => (DYN_RESP_OK, dbl v, pos)
             end
      else if is_bulk_type t then
        match resp_int s with
        | inl rc => (rc, text, pos)
        | inr n =>
            if n <? 0 then (DYN_RESP_OK, null, pos)
            else if Z.of_nat (length b) <? Z.of_nat e + 2 + n + 2 then (DYN_RESP_INCOMPLETE, text, pos)
            else (DYN_RESP_OK, mk_item (Some (take (Z.to_nat n) (drop (e + 2) b))) 0 None 0 t false,
                  (e + 2 + Z.to_nat n + 2)%nat)
        end
      else if is_agg_type t then
        match resp_int s with
        | inl rc => (rc, text, pos)
        | inr n =>
            if n <? 0 then (DYN_RESP_OK, null, pos)
            else (DYN_RESP_OK, mk_item None 0 None n t false, pos)
        end
      else (DYN_RESP_E_TYPE, text, pos)
  end.

End Reader.

(** ** The command encoder *)

(** [while (v >= 10)]: a size_t has at most 20 digits. *)
Fixpoint declen_loop (fuel : nat) (v : Z) (n : nat) : nat :=
  match fuel with
  | O => n
  | S fuel => if 10 <=? v then declen_loop fuel (v / 10) (S n) else n
  end.
Definition resp_declen (v : Z) : nat := declen_loop 20 v 1.

(** The digits of [tmp], least significant first. *)
Fixpoint dec_digits (fuel : nat) (v : Z) : bytes :=
  match fuel with
  | O => []
  | S fuel => (ch "0" + v `mod` 10) :: (if v / 10 =? 0 then [] else dec_digits fuel (v / 10))
  end.
Definition resp_put_dec (v : Z) : bytes := rev (dec_digits 20 v).

Definition dyn_resp_cmd_size (argv : list bytes) : nat :=
  fold_left (fun total a => (total + (1 + resp_declen (Z.of_nat (length a)) + 2 + length a + 2))%nat)
    argv (1 + resp_declen (Z.of_nat (length argv)) + 2)%nat.

Definition resp_put_arg (a : bytes) : bytes :=
  [ch "$"] ++ resp_put_dec (Z.of_nat (length a)) ++ [CR; LF] ++ a ++ [CR; LF].

(** The bytes written with the [int] returned for their number, or the code;
    the size stored through [need]. *)
Definition dyn_resp_cmd_encode (outcap : nat) (argv : list bytes) : (resp_code + bytes * Z) * option nat :=
  match argv with
  | [] => (inl DYN_RESP_E_SYNTAX, None)
  | _ =>
      let total := dyn_resp_cmd_size argv in
      if (outcap <? total)%nat then (inl DYN_RESP_E_TOOBIG, Some total)
      else
        let out := [ch "*"] ++ resp_put_dec (Z.of_nat (length argv)) ++ [CR; LF] ++ (argv ≫= resp_put_arg) in
        (inr (out, swrap 32 (Z.of_nat (length out))), Some total)
  end.

Example scan_ping : (dyn_resp_scan (str "*1" ++ [CR; LF] ++ str "$4" ++ [CR; LF] ++ str "PING" ++ [CR; LF; 1]) 0)
  = Some (DYN_RESP_OK, 14%nat, dyn_resp_scan_init).
Proof. reflexivity. Qed.

(** ** A verdict on a prefix is final *)

Lemma at_app b m i : (i < length b)%nat -> at_ (b ++ m) i = at_ b i.
Proof. intros. unfold at_. by apply app_nth1. Qed.

(** A result that more input cannot change. *)
Definition settled {A} (r : resp_code + A) : Prop := r <> inl DYN_RESP_INCOMPLETE.

Lemma resp_line_loop_ext n n' b m i stop stop' :
  (i + n = stop)%nat -> (i + n' = stop')%nat -> (stop <= length b)%nat -> (stop <= stop')%nat ->
  (stop' <= length (b ++ m))%nat -> (stop < length b -> stop' = stop)%nat ->
  settled (resp_line_loop n b i stop) -> resp_line_loop n' (b ++ m) i stop' = resp_line_loop n b i stop.
Proof.
  revert n' i. induction n as [|n IH]; intros n' i H1 H2 H3 H4 H5 H6 Hs; cbn [resp_line_loop] in Hs |- *.
  - destruct (Nat.ltb_spec stop (length b)) as [Hlt|]; [|done]. specialize (H6 Hlt).
    assert (n' = 0%nat) as -> by lia. cbn [resp_line_loop]. rewrite length_app.
    destruct (Nat.ltb_spec stop' (length b + length m)); [done|lia].
  - destruct n' as [|n']; [lia|]. cbn [resp_line_loop]. rewrite (at_app b m i) by lia.
    destruct (at_ b i =? LF); [done|]. destruct (at_ b i =? CR).
    + destruct (Nat.leb_spec (length b) (i + 1)); [done|].
      destruct (Nat.leb_spec (length (b ++ m)) (i + 1)) as [Hx|]; [rewrite length_app in Hx; lia|].
      by rewrite (at_app b m) by lia.
    + apply IH; [lia..|done|lia|done|done].
Qed.

Lemma resp_line_ext b m pos : (pos <= length b)%nat -> settled (resp_line b pos) ->
  resp_line (b ++ m) pos = resp_line b pos.
Proof.
  intros Hp Hs. unfold resp_line in *. unfold DYN_RESP_MAX_LINE in *.
  apply resp_line_loop_ext; rewrite ?length_app; try lia. done.
Qed.

Lemma resp_line_loop_end n b i stop e : resp_line_loop n b i stop = inr e -> (i <= e)%nat /\ (e + 1 < length b)%nat.
Proof.
  revert i. induction n as [|n IH]; intros i; cbn [resp_line_loop]; [done|].
  destruct (at_ b i =? LF); [done|]. destruct (at_ b i =? CR).
  - destruct (Nat.leb_spec (length b) (i + 1)); [done|]. destruct (negb _); [done|]. intros [= <-]. lia.
  - intros H. apply IH in H. lia.
Qed.

Lemma resp_line_end b pos e : resp_line b pos = inr e -> (pos <= e)%nat /\ (e + 1 < length b)%nat.
Proof. apply resp_line_loop_end. Qed.

Lemma slice_app b m s e : (e <= length b)%nat -> slice (b ++ m) s e = slice b s e.
Proof.
  intros He. unfold slice. destruct (decide (s <= length b)%nat) as [Hs|Hs].
  - rewrite drop_app_le by done. apply take_app_le. rewrite length_drop. lia.
  - replace (e - s)%nat with 0%nat by lia. by rewrite !take_0.
Qed.

Lemma resp_one_ext b m p maxbulk : settled (resp_one b p maxbulk) ->
  resp_one (b ++ m) p maxbulk = resp_one b p maxbulk.
Proof.
  unfold resp_one. intros Hs. destruct (Nat.leb_spec (length b) p) as [|Hp]; [done|].
  destruct (Nat.leb_spec (length (b ++ m)) p) as [Hx|_]; [rewrite length_app in Hx; lia|].
  rewrite (at_app b m p) by done.
  assert (Hfin : forall k k',
    settled (match resp_line b (p + 1) with inl rc => inl rc
             | inr e => match k e with inl rc => inl rc | inr (n, pos) => inr (at_ b p, n, pos) end end) ->
    (forall e, resp_line b (p + 1) = inr e -> settled (k e) -> k' e = k e) ->
    (match resp_line (b ++ m) (p + 1) with inl rc => inl rc
     | inr e => match k' e with inl rc => inl rc | inr (n, pos) => inr (at_ b p, n, pos) end end)
    = (match resp_line b (p + 1) with inl rc => inl rc
       | inr e => match k e with inl rc => inl rc | inr (n, pos) => inr (at_ b p, n, pos) end end : resp_code + Z * Z * nat)).
  { intros k k' Hset Hk. rewrite resp_line_ext; [|lia|].
    - destruct (resp_line b (p + 1)) as [rc|e] eqn:El; [done|]. rewrite Hk; [done|done|].
      intros E. apply Hset. by rewrite E.
    - intros E. apply Hset. by rewrite E. }
  destruct (is_line_type (at_ b p)); [|destruct (is_bulk_type (at_ b p)); [|destruct (is_agg_type (at_ b p)); [|done]]];
    apply Hfin; try done; intros e [He1 He2]%resp_line_end.
  - intros _. unfold resp_one_line. rewrite slice_app by lia. destruct (at_ b p =? DYN_RESP_INT); [done|].
    destruct (at_ b p =? DYN_RESP_NULL); [done|]. destruct (at_ b p =? DYN_RESP_BOOL); [|done].
    by rewrite (at_app b m) by lia.
  - unfold resp_one_bulk. rewrite slice_app by lia. destruct (resp_int _) as [rc|n]; [done|].
    destruct (n <? 0) eqn:En; [done|]. destruct (maxbulk <? n); [done|]. rewrite length_app.
    destruct (Z.ltb_spec (Z.of_nat (length b)) (Z.of_nat e + 2 + n + 2)); [done|]. intros _. bprop.
    rewrite ltb_false by lia. by rewrite !(at_app b m) by lia.
  - intros _. unfold resp_one_agg. by rewrite slice_app by lia.
Qed.

(** An accepted value lies within the buffer and is at least three bytes. *)
Lemma resp_one_pos b p maxbulk t n pos : resp_one b p maxbulk = inr (t, n, pos) ->
  (p + 3 <= pos <= length b)%nat /\ 0 <= n /\ t = at_ b p.
Proof.
  unfold resp_one. destruct (Nat.leb_spec (length b) p) as [|Hp]; [done|]. intros H.
  assert (Hfin : forall k, (match resp_line b (p + 1) with inl rc => inl rc
      | inr e => match k e with inl rc => inl rc | inr (n, pos) => inr (at_ b p, n, pos) end end : resp_code + Z * Z * nat)
      = inr (t, n, pos) ->
    (forall e n pos, (p + 1 <= e)%nat -> (e + 1 < length b)%nat -> k e = inr (n, pos) -> (p + 3 <= pos <= length b)%nat /\ 0 <= n) ->
    (p + 3 <= pos <= length b)%nat /\ 0 <= n /\ t = at_ b p).
  { intros k Hk Hb. destruct (resp_line b (p + 1)) as [|e] eqn:El; [done|]. apply resp_line_end in El as [El1 El2].
    destruct (k e) as [|[n' pos']] eqn:Ek; [done|]. injection Hk as <- <- <-. destruct (Hb e n' pos' El1 El2 Ek). done. }
  destruct (is_line_type (at_ b p)); [|destruct (is_bulk_type (at_ b p)); [|destruct (is_agg_type (at_ b p)); [|done]]];
    (apply (Hfin _ H); clear H Hfin; intros e n' pos' He1 He2).
  - unfold resp_one_line. intros H. repeat case_if_in H; try (destruct (resp_int _)); try done; injection H as <- <-; lia.
  - unfold resp_one_bulk. destruct (resp_int _) as [rc|k]; [done|]. intros H. repeat case_if_in H; try done; injection H as <- <-; bprop; lia.
  - unfold resp_one_agg. destruct (resp_int _) as [rc|k]; [done|]. intros H. cbn zeta in H.
    destruct (k <? 0) eqn:Ek; [repeat case_if_in H; try done; injection H as <- <-; lia|]. bprop.
    destruct ((at_ b p =? DYN_RESP_MAP) || (at_ b p =? DYN_RESP_ATTR)); repeat case_if_in H; try done; injection H as <- <-; lia.
Qed.

(** ** Scanner states *)

(** The stack pointer stays inside the array and the counts are sensible. *)
Record scan_inv (len : nat) (st : dyn_resp_scan_t) : Prop := {
  si_len : length (want st) = 32%nat;
  si_sp : -1 <= sp st < 32;
  si_want : Forall (fun x => 0 <= x) (want st);
  si_pos : (spos_ st <= len)%nat
}.

Lemma scan_init_inv len : scan_inv len dyn_resp_scan_init.
Proof. split; cbn; [done|lia|by repeat constructor|lia]. Qed.

Lemma scan_inv_len len len' st : (len <= len')%nat -> scan_inv len st -> scan_inv len' st.
Proof. intros ? [? ? ? ?]. split; try done. lia. Qed.

Lemma scan_pop_spec fuel len st : scan_inv len st -> (sp st < Z.of_nat fuel) ->
  scan_inv len (scan_pop fuel st) /\ want (scan_pop fuel st) = want st /\ spos_ (scan_pop fuel st) = spos_ st /\
  (0 <= sp (scan_pop fuel st) -> 0 < want_at (scan_pop fuel st)).
Proof.
  revert st. induction fuel as [|fuel IH]; intros st Hi Hf; cbn [scan_pop].
  - split_and!; [done..|]. lia.
  - pose proof Hi as [H1 H2 H3 H4]. destruct (Z.leb_spec 0 (sp st)); cbn [andb].
    + destruct (Z.eqb_spec (want_at st) 0) as [E|E].
      * apply (IH (mk_scan (want st) (sp st - 1) (spos_ st))); cbn [sp]; [|lia]. split; cbn; try done. lia.
      * split_and!; [done..|]. intros _. unfold want_at in *. rewrite Forall_forall in H3.
        pose proof (H3 (nth (Z.to_nat (sp st)) (want st) 0)) as Hx.
        assert (0 <= nth (Z.to_nat (sp st)) (want st) 0); [|lia]. apply Hx.
        apply list_elem_of_In, nth_In. lia.
    + split_and!; [done..|]. lia.
Qed.

(** Popping twice is popping once. *)
Lemma scan_pop_stop fuel st : ~ (0 <= sp st /\ want_at st = 0) -> scan_pop fuel st = st.
Proof.
  intros H. destruct fuel as [|fuel]; cbn [scan_pop]; [done|].
  destruct (Z.leb_spec 0 (sp st)), (Z.eqb_spec (want_at st) 0); cbn [andb]; try done. exfalso. auto.
Qed.

Lemma scan_pop_idem len st : scan_inv len st -> scan_pop 32 (scan_pop 32 st) = scan_pop 32 st.
Proof.
  intros Hi. destruct (scan_pop_spec 32 len st Hi ltac:(destruct Hi; lia)) as (_ & _ & _ & H).
  apply scan_pop_stop. intros [H1 H2]. specialize (H H1). lia.
Qed.

Lemma scan_turn_inv b maxbulk st : scan_inv (length b) st ->
  match scan_turn b maxbulk st with
  | inl st' => scan_inv (length b) st' /\ (spos_ st < spos_ st')%nat
  | inr (rc, consumed, st') => scan_inv (length b) st' /\ (consumed <= length b)%nat /\
      (rc = DYN_RESP_INCOMPLETE -> st' = scan_pop 32 st) /\ (rc <> DYN_RESP_INCOMPLETE -> st' = dyn_resp_scan_init) /\
      (rc <> DYN_RESP_OK -> consumed = 0%nat)
  end.
Proof.
  intros Hi. unfold scan_turn. destruct (scan_pop_spec 32 _ st Hi ltac:(destruct Hi; lia)) as (Hp & Ew & Epos & Hw).
  revert Hp Hw. rewrite <- Epos. clear Ew Epos Hi. generalize (scan_pop 32 st) as s. clear st. intros s Hp Hw.
  pose proof Hp as [H1 H2 H3 H4]. unfold scan_value.
  destruct (Z.ltb_spec (sp s) 0) as [Hsp|Hsp]; [split_and!; try done; apply scan_init_inv|].
  specialize (Hw Hsp).
  destruct (resp_one b (spos_ s) maxbulk) as [rc|[[t n] pos]] eqn:E.
  { destruct rc; split_and!; try done; try lia; apply scan_init_inv. }
  apply resp_one_pos in E as (Hpos & Hn & _).
  assert (Hw' : Forall (fun x => 0 <= x) (<[Z.to_nat (sp s) := want_at s - 1]> (want s))).
  { apply Forall_insert; [done|lia]. }
  set (n' := if t =? DYN_RESP_ATTR then n + 1 else n). destruct (Z.ltb_spec 0 n').
  - destruct (Z.leb_spec DYN_RESP_MAX_DEPTH (sp s + 1)); [split_and!; try done; try lia; apply scan_init_inv|].
    unfold DYN_RESP_MAX_DEPTH in *. split; [|cbn; lia]. split; cbn [want sp spos_]; rewrite ?length_insert; try done; [lia| |lia].
    apply Forall_insert; [done|lia].
  - split; [|cbn; lia]. split; cbn [want sp spos_]; rewrite ?length_insert; try done. lia.
Qed.

Lemma scan_loop_total fuel b maxbulk st : scan_inv (length b) st -> (length b - spos_ st < fuel)%nat ->
  exists rc consumed st', scan_loop fuel b maxbulk st = Some (rc, consumed, st') /\ scan_inv (length b) st' /\
    (consumed <= length b)%nat /\ (rc <> DYN_RESP_INCOMPLETE -> st' = dyn_resp_scan_init) /\
    (rc <> DYN_RESP_OK -> consumed = 0%nat).
Proof.
  intros Hi Hf. unfold scan_loop.
  destruct (turns_total (scan_turn b maxbulk) (scan_inv (length b)) (fun s => length b - spos_ s)%nat
    (fun '(rc, consumed, st') => scan_inv (length b) st' /\ (consumed <= length b)%nat /\
      (rc <> DYN_RESP_INCOMPLETE -> st' = dyn_resp_scan_init) /\ (rc <> DYN_RESP_OK -> consumed = 0%nat))
    ) with (fuel := fuel) (s := st) as ([[rc c] st'] & E & H); [|assumption..|by exists rc, c, st'].
  intros s Hs. pose proof (scan_turn_inv b maxbulk s Hs) as Ht.
  destruct (scan_turn b maxbulk s) as [s1|[[rc c] s1]].
  - destruct Ht as [Hi1 Hlt]. pose proof (si_pos _ _ Hi1). split; [assumption|lia].
  - destruct Ht as (H1 & H2 & _ & H3 & H4). by split_and!.
Qed.

Lemma scan_loop_mono fuel fuel' b maxbulk st r :
  (fuel <= fuel')%nat -> scan_loop fuel b maxbulk st = Some r -> scan_loop fuel' b maxbulk st = Some r.
Proof. apply turns_mono. Qed.

(** A turn on a prefix is the same turn on the whole. *)
Lemma scan_value_ext b m maxbulk s :
  match scan_value b maxbulk s with
  | inl st' => scan_value (b ++ m) maxbulk s = inl st'
  | inr (rc, c, st') => if decide (rc = DYN_RESP_INCOMPLETE) then st' = s
                        else scan_value (b ++ m) maxbulk s = inr (rc, c, st')
  end.
Proof.
  unfold scan_value. destruct (sp s <? 0); [done|].
  destruct (resp_one b (spos_ s) maxbulk) as [rc|[[t n] pos]] eqn:E.
  - destruct (decide (rc = DYN_RESP_INCOMPLETE)) as [->|Hne]; [done|].
    rewrite (resp_one_ext b m), E by (unfold settled; congruence). by destruct rc.
  - rewrite (resp_one_ext b m), E by (unfold settled; congruence).
    destruct (0 <? _); [|done]. by destruct (DYN_RESP_MAX_DEPTH <=? _).
Qed.

Lemma scan_turn_ext b m maxbulk st : scan_inv (length b) st ->
  match scan_turn b maxbulk st with
  | inl st' => scan_turn (b ++ m) maxbulk st = inl st'
  | inr (rc, c, st') =>
      if decide (rc = DYN_RESP_INCOMPLETE) then scan_turn (b ++ m) maxbulk st = scan_turn (b ++ m) maxbulk st'
      else scan_turn (b ++ m) maxbulk st = inr (rc, c, st')
  end.
Proof.
  intros Hi. pose proof (scan_pop_idem _ st Hi) as Hidem. unfold scan_turn. revert Hidem.
  generalize (scan_pop 32 st) as s. clear st Hi. intros s Hidem.
  pose proof (scan_value_ext b m maxbulk s) as H.
  destruct (scan_value b maxbulk s) as [st1|[[rc c] st1]]; [assumption|].
  destruct (decide _); [|assumption]. rewrite H, Hidem. reflexivity.
Qed.

(** Stopping for more input and starting over from the state left is going
    on; any other verdict stands. *)
Lemma scan_loop_ext fuel b m maxbulk st rc c st' : scan_inv (length b) st ->
  scan_loop fuel b maxbulk st = Some (rc, c, st') ->
  if decide (rc = DYN_RESP_INCOMPLETE)
  then exists k, (k < fuel)%nat /\
    forall n, (0 < n)%nat -> scan_loop (k + n) (b ++ m) maxbulk st = scan_loop n (b ++ m) maxbulk st'
  else scan_loop fuel (b ++ m) maxbulk st = Some (rc, c, st').
Proof.
  unfold scan_loop. intros Hi H.
  pose proof (turns_ext (scan_turn b maxbulk) (scan_turn (b ++ m) maxbulk) (scan_inv (length b))
    (fun '(rc, c, st') => if decide (rc = DYN_RESP_INCOMPLETE) then Some st' else None)) as G.
  apply G with (s := st) in H; [|clear|assumption].
  - destruct (decide _); assumption.
  - intros s Hs. pose proof (scan_turn_ext b m maxbulk s Hs) as He. pose proof (scan_turn_inv b maxbulk s Hs) as Ht.
    destruct (scan_turn b maxbulk s) as [s1|[[rc c] s1]]; [by destruct Ht|]. by destruct (decide _).
Qed.

(** ** The reply grammar *)

(** A reply is a tree of heads: a line, a counted string, a null written with
    the length -1, or an aggregate with its count.  [num] is the text of a
    number as it stands in the message. *)
Inductive head :=
  | HLine (t : Z) (s : bytes)
  | HBulk (t : Z) (num s : bytes)
  | HNull (t : Z) (num : bytes)
  | HAgg (t : Z) (num : bytes).

#[warnings="-register-all"]
Inductive reply := Node (h : head) (kids : list reply).

Definition head_type (h : head) : Z :=
  match h with HLine t _ => t | HBulk t _ _ => t | HNull t _ => t | HAgg t _ => t end.
(** The line of a head, and what follows it. *)
Definition head_line (h : head) : bytes :=
  match h with HLine _ s => s | HBulk _ num _ => num | HNull _ num => num | HAgg _ num => num end.
Definition head_tail (h : head) : bytes :=
  match h with HBulk _ _ s => s ++ [CR; LF] | _ => [] end.
Definition head_print (h : head) : bytes := head_type h :: head_line h ++ [CR; LF] ++ head_tail h.

Fixpoint print_reply (v : reply) : bytes :=
  match v with Node h kids => head_print h ++ flat_map print_reply kids end.

Definition clean (s : bytes) : Prop := Forall (fun c => c <> CR /\ c <> LF) s /\ Z.of_nat (length s) < DYN_RESP_MAX_LINE.

(** What a head must satisfy to announce [n] values. *)
Definition head_ok (maxbulk : Z) (h : head) (n : Z) : Prop :=
  clean (head_line h) /\
  match h with
  | HLine t s => is_line_type t = true /\ n = 0 /\
      (t = DYN_RESP_INT -> exists v, resp_int s = inr v) /\ (t = DYN_RESP_NULL -> s = []) /\
      (t = DYN_RESP_BOOL -> s = str "t" \/ s = str "f")
  | HBulk t num s => is_bulk_type t = true /\ n = 0 /\
      resp_int num = inr (Z.of_nat (length s)) /\ Z.of_nat (length s) <= maxbulk
  | HNull t num => (t = DYN_RESP_BULK \/ t = DYN_RESP_ARRAY) /\ n = 0 /\ resp_int num = inr (-1)
  | HAgg t num => is_agg_type t = true /\ exists c, resp_int num = inr c /\ 0 <= c /\
      n = (if (t =? DYN_RESP_MAP) || (t =? DYN_RESP_ATTR) then 2 * c else c) /\ n <= maxbulk / RESP_MIN_VALUE_LEN
  end.

(** An attribute is followed by the value it annotates, one level deeper. *)
Definition head_kids (h : head) (n : Z) : Z := if head_type h =? DYN_RESP_ATTR then n + 1 else n.

(** A reply of at most [d] levels of non-empty aggregates. *)
Fixpoint reply_ok (maxbulk : Z) (d : nat) (v : reply) {struct d} : Prop :=
  match v with
  | Node h kids =>
      (exists n, head_ok maxbulk h n /\ Z.of_nat (length kids) = head_kids h n) /\
      match kids with
      | [] => True
      | _ => match d with O => False | S d => Forall (reply_ok maxbulk d) kids end
      end
  end.

(** *** Lines *)

Lemma drop_cons_at b i c r : drop i b = c :: r -> at_ b i = c /\ drop (i + 1) b = r /\ (i < length b)%nat.
Proof.
  intros H. assert (Hl : (i < length b)%nat). { apply (f_equal length) in H. rewrite length_drop in H. cbn in H. lia. }
  split_and!; [| |done].
  - unfold at_. rewrite <- (firstn_skipn i b). change (skipn i b) with (drop i b). rewrite H, app_nth2; rewrite length_firstn.
    + by replace (i - Init.Nat.min i (length b))%nat with 0%nat by lia.
    + lia.
  - rewrite <- drop_drop, H. done.
Qed.

Lemma drop_nil_len (b : bytes) i : drop i b = [] -> (length b <= i)%nat.
Proof. intros H. apply (f_equal length) in H. rewrite length_drop in H. cbn in H. lia. Qed.

(** No line runs past a CR or LF. *)
Lemma clean_head (s : bytes) c r r' : (c = CR \/ c = LF) -> Forall (fun c => c <> CR /\ c <> LF) s ->
  c :: r = s ++ r' -> s = [].
Proof. intros Hc F E. destruct s as [|c' s]; [done|]. injection E as <- _. inversion F as [|? ? []]. by destruct Hc. Qed.

Lemma resp_line_loop_iff n b i stop e : (i + n <= stop)%nat -> (stop <= length b)%nat ->
  resp_line_loop n b i stop = inr e <->
  exists s r, drop i b = s ++ CR :: LF :: r /\ e = (i + length s)%nat /\ (length s < n)%nat /\
    Forall (fun c => c <> CR /\ c <> LF) s.
Proof.
  revert i. induction n as [|n IH]; intros i H1 H2; cbn [resp_line_loop].
  { split; [done|]. intros (s & r & _ & _ & ? & _). lia. }
  destruct (drop i b) as [|c rest] eqn:Hd; [apply drop_nil_len in Hd; lia|].
  apply drop_cons_at in Hd as (-> & Hd & Hl). destruct (Z.eqb_spec c LF) as [->|HLF].
  { split; [done|]. intros (s & r & E & _ & _ & F). pose proof (clean_head s _ _ _ (or_intror eq_refl) F E) as ->. done. }
  destruct (Z.eqb_spec c CR) as [->|HCR].
  - destruct rest as [|c2 r2].
    + apply drop_nil_len in Hd. rewrite (proj2 (Nat.leb_le _ _)) by lia. split; [done|].
      intros (s & r & E & _ & _ & F). pose proof (clean_head s _ _ _ (or_introl eq_refl) F E) as ->. done.
    + apply drop_cons_at in Hd as (-> & _ & Hl2). rewrite (proj2 (Nat.leb_gt _ _)) by done.
      destruct (Z.eqb_spec c2 LF) as [->|Hn]; cbn [negb].
      * split.
        -- intros [= <-]. exists [], r2. cbn. split_and!; [done|lia|lia|done].
        -- intros (s & r & E & -> & _ & F). pose proof (clean_head s _ _ _ (or_introl eq_refl) F E) as ->. cbn. by rewrite Nat.add_0_r.
      * split; [done|]. intros (s & r & E & _ & _ & F). pose proof (clean_head s _ _ _ (or_introl eq_refl) F E) as ->.
        by injection E.
  - rewrite IH, Hd by lia. split.
    + intros (s & r & -> & -> & ? & ?). exists (c :: s), r. cbn. split_and!; [done|lia|lia|by constructor].
    + intros ([|c' s] & r & E & -> & Hl' & F); [by injection E|]. injection E as <- ->.
      inversion F. exists s, r. cbn in *. split_and!; [done|lia|lia|done].
Qed.

Lemma resp_line_iff b p e : resp_line b p = inr e <->
  exists s r, drop p b = s ++ CR :: LF :: r /\ e = (p + length s)%nat /\ clean s.
Proof.
  unfold resp_line, clean, DYN_RESP_MAX_LINE. destruct (le_lt_dec p (length b)) as [Hp|Hp].
  - rewrite resp_line_loop_iff by lia. split; intros (s & r & E & -> & H); exists s, r.
    + destruct H. split_and!; try done. lia.
    + destruct H. split_and!; try done. apply (f_equal length) in E. rewrite length_drop, length_app in E. cbn in E. lia.
  - replace (_ - p)%nat with 0%nat by lia. split; [done|]. intros (s & r & E & _). rewrite drop_ge in E by lia.
    by destruct s.
Qed.

(** *** Heads *)

Lemma at_slice b p s r : drop p b = s ++ r -> slice b p (p + length s) = s.
Proof. intros E. unfold slice. rewrite Nat.add_comm, Nat.add_sub, E. by apply take_app_length'. Qed.

Lemma bool_text b p s r : drop (p + 1) b = s ++ CR :: LF :: r ->
  negb (p + 1 + length s =? p + 2)%nat || negb (at_ b (p + 1) =? ch "t") && negb (at_ b (p + 1) =? ch "f") = false
  <-> s = str "t" \/ s = str "f".
Proof.
  intros Hd. destruct s as [|c [|c' s]];
    [split; [cbn; by rewrite (proj2 (Nat.eqb_neq _ _)) by lia|by intros []]| |
     split; [cbn [length]; by rewrite (proj2 (Nat.eqb_neq _ _)) by lia|by intros []]].
  apply drop_cons_at in Hd as (-> & _). cbn [length]. rewrite (proj2 (Nat.eqb_eq _ _)) by lia. cbn [negb orb].
  destruct (Z.eqb_spec c (ch "t")) as [->|]; [split; auto|]. destruct (Z.eqb_spec c (ch "f")) as [->|]; [split; auto|].
  split; [done|]. intros [[=]|[=]]; done.
Qed.

Lemma resp_one_line_iff b t p s r maxbulk n pos : drop (p + 1) b = s ++ CR :: LF :: r -> clean s -> is_line_type t = true ->
  resp_one_line b t p (p + 1 + length s) = inr (n, pos) <->
  pos = (p + 1 + length s + 2)%nat /\ head_ok maxbulk (HLine t s) n.
Proof.
  intros Hd Hc Ht. unfold resp_one_line. rewrite (at_slice _ _ _ _ Hd). unfold head_ok. cbn [head_line].
  destruct (Z.eqb_spec t DYN_RESP_INT) as [->|H1].
  { destruct (resp_int s) as [rc|v].
    - split; [done|]. intros (_ & _ & _ & _ & H1 & _). destruct (H1 eq_refl) as [? [=]].
    - split; [intros [= <- <-]; split_and!; try done; by exists v|]. by intros (-> & _ & _ & -> & _). }
  destruct (Z.eqb_spec t DYN_RESP_NULL) as [->|H2].
  { destruct (Nat.eqb_spec (p + 1 + length s) (p + 1)) as [E|E]; cbn [negb].
    - assert (s = []) as -> by (destruct s; [done|cbn in E; lia]).
      split; [by intros [= <- <-]|]. by intros (-> & _ & _ & -> & _).
    - split; [done|]. intros (_ & _ & _ & _ & _ & H2 & _). rewrite H2 in E by done. cbn in E. lia. }
  destruct (Z.eqb_spec t DYN_RESP_BOOL) as [->|H3].
  { pose proof (bool_text b p s r Hd) as Hb. destruct (_ || _).
    - split; [done|]. intros (_ & _ & _ & _ & _ & _ & H3). by apply Hb, eq_sym in H3.
    - apply proj1 in Hb. split; [intros [= <- <-]; split_and!; try done; auto|]. by intros (-> & _ & _ & -> & _). }
  split; [by intros [= <- <-]|]. by intros (-> & _ & _ & -> & _).
Qed.

Lemma resp_one_bulk_iff b t p num r maxbulk n pos : drop (p + 1) b = num ++ CR :: LF :: r -> clean num ->
  is_bulk_type t = true ->
  resp_one_bulk b t p (p + 1 + length num) maxbulk = inr (n, pos) <->
  (t = DYN_RESP_BULK /\ pos = (p + 1 + length num + 2)%nat /\ head_ok maxbulk (HNull t num) n) \/
  (exists s r', r = s ++ CR :: LF :: r' /\ pos = (p + 1 + length num + 2 + length s + 2)%nat /\
    head_ok maxbulk (HBulk t num s) n).
Proof.
  intros Hd Hc Ht. unfold resp_one_bulk. rewrite (at_slice _ _ _ _ Hd). unfold head_ok. cbn [head_line].
  destruct (resp_int num) as [rc|k].
  { split; [done|]. intros [(_ & _ & _ & _ & _ & [=])|(s & r' & _ & _ & _ & _ & _ & [=] & _)]. }
  destruct (Z.ltb_spec k 0) as [Hk|Hk].
  - assert (Hno : forall s r', r = s ++ CR :: LF :: r' -> (inr k : resp_code + Z) <> inr (Z.of_nat (length s))) by (intros s r' _ [=]; lia).
    destruct (Z.eqb_spec k (-1)) as [->|Hk1]; cbn [negb orb].
    + destruct (Z.eqb_spec t DYN_RESP_BULK) as [->|Hb]; cbn [negb].
      * split; [intros [= <- <-]; left; by split_and!; auto|]. intros [(_ & -> & _ & _ & -> & _)|(s & r' & E & _ & _ & _ & _ & E2 & _)]; [done|].
        by destruct (Hno _ _ E).
      * split; [done|]. intros [(? & _)|(s & r' & E & _ & _ & _ & _ & E2 & _)]; [done|]. by destruct (Hno _ _ E).
    + split; [done|]. intros [(_ & _ & _ & _ & _ & [=])|(s & r' & E & _ & _ & _ & _ & E2 & _)]; [done|]. by destruct (Hno _ _ E).
  - rewrite (or_comm (_ /\ _)).
    assert (Hnull : forall P : Prop, (P \/ t = DYN_RESP_BULK /\ pos = (p + 1 + length num + 2)%nat /\ clean num /\
      (t = DYN_RESP_BULK \/ t = DYN_RESP_ARRAY) /\ n = 0 /\ (inr k : resp_code + Z) = inr (-1)) <-> P).
    { intros P. split; [|by left]. intros [?|(_ & _ & _ & _ & _ & [=])]; [done|lia]. }
    rewrite Hnull. clear Hnull.
    assert (Hr : drop (p + 1 + length num + 2) b = r).
    { rewrite <- (drop_drop b 2), <- (drop_drop b _ (p + 1)), Hd, drop_app_length'; done. }
    assert (Hlb : (length b = p + 1 + length num + 2 + length r)%nat).
    { apply (f_equal length) in Hd. rewrite length_drop, length_app in Hd. cbn in Hd. lia. }
    destruct (Z.ltb_spec maxbulk k); [split; [done|]; intros (s & r' & _ & _ & _ & _ & _ & [=] & ?); lia|].
    destruct (Z.ltb_spec (Z.of_nat (length b)) (Z.of_nat (p + 1 + length num) + 2 + k + 2)).
    { split; [done|]. intros (s & r' & -> & _ & _ & _ & _ & [=] & ?). rewrite length_app in Hlb. cbn in Hlb. lia. }
    destruct (drop (Z.to_nat k) r) as [|c1 [|c2 r']] eqn:Er;
      [apply drop_nil_len in Er; lia|apply (f_equal length) in Er; rewrite length_drop in Er; cbn in Er; lia|].
    pose proof Er as Er0. rewrite <- Hr, drop_drop in Er. apply drop_cons_at in Er as (-> & Er & _).
    apply drop_cons_at in Er as (Ec2 & _). replace (p + 1 + length num + 3 + Z.to_nat k)%nat with (p + 1 + length num + 2 + Z.to_nat k + 1)%nat by lia.
    rewrite Ec2. clear Ec2.
    assert (Hsplit : forall s r2, r = s ++ CR :: LF :: r2 -> k = Z.of_nat (length s) -> c1 = CR /\ c2 = LF).
    { intros s r2 -> ->. rewrite Nat2Z.id, drop_app_length' in Er0 by done. by injection Er0. }
    destruct (Z.eqb_spec c1 CR) as [->|]; cbn [negb orb]; [destruct (Z.eqb_spec c2 LF) as [->|]; cbn [negb]|].
    + split.
      * intros [= <- <-]. exists (take (Z.to_nat k) r), r'. rewrite <- Er0, take_drop, length_take.
        split_and!; try done; [lia|do 2 f_equal; lia|lia].
      * intros (s & r2 & E & -> & _ & _ & -> & [=] & _). do 2 f_equal. lia.
    + split; [done|]. intros (s & r2 & E & _ & _ & _ & _ & [=] & _). by destruct (Hsplit _ _ E).
    + split; [done|]. intros (s & r2 & E & _ & _ & _ & _ & [=] & _). by destruct (Hsplit _ _ E).
Qed.

Lemma resp_one_agg_iff b t p num r maxbulk n pos : drop (p + 1) b = num ++ CR :: LF :: r -> clean num ->
  is_agg_type t = true -> 0 <= maxbulk < 2 ^ 63 ->
  resp_one_agg b t p (p + 1 + length num) maxbulk = inr (n, pos) <->
  pos = (p + 1 + length num + 2)%nat /\
  ((t = DYN_RESP_ARRAY /\ head_ok maxbulk (HNull t num) n) \/ head_ok maxbulk (HAgg t num) n).
Proof.
  intros Hd Hc Ht Hmb. unfold resp_one_agg. rewrite (at_slice _ _ _ _ Hd). unfold head_ok. cbn [head_line].
  destruct (resp_int num) as [rc|k].
  { split; [done|]. intros (_ & [(_ & _ & _ & _ & [=])|(_ & _ & c & [=] & _)]). }
  destruct (Z.ltb_spec k 0) as [Hk|Hk].
  - destruct (Z.eqb_spec k (-1)) as [->|Hk1]; cbn [negb orb].
    + destruct (Z.eqb_spec t DYN_RESP_ARRAY) as [->|Hb]; cbn [negb].
      * split; [intros [= <- <-]; split; [done|]; left; by split_and!; auto|].
        intros (-> & [(_ & _ & _ & -> & _)|(_ & _ & c & [=] & ? & _)]); [done|lia].
      * split; [done|]. intros (_ & [(? & _)|(_ & _ & c & [=] & ? & _)]); [done|lia].
    + split; [done|]. intros (_ & [(_ & _ & _ & _ & [=])|(_ & _ & c & [=] & ? & _)]); [done|lia].
  - change (Z.quot INT64_MAX 2) with (2 ^ 62 - 1). rewrite Z.quot_div_nonneg by (unfold RESP_MIN_VALUE_LEN; lia). cbv zeta.
    assert (Hdiv : maxbulk / RESP_MIN_VALUE_LEN <= maxbulk) by (apply Z.div_le_upper_bound; unfold RESP_MIN_VALUE_LEN; lia).
    destruct ((t =? DYN_RESP_MAP) || (t =? DYN_RESP_ATTR)); cbn [andb].
    + destruct (Z.ltb_spec (2 ^ 62 - 1) k).
      { split; [done|]. intros (_ & [(_ & _ & _ & _ & [=])|(_ & _ & c & [=] & ? & -> & ?)]); [lia|]. exfalso. lia. }
      destruct (Z.ltb_spec (maxbulk / RESP_MIN_VALUE_LEN) (k * 2)).
      { split; [done|]. intros (_ & [(_ & _ & _ & _ & [=])|(_ & _ & c & [=] & ? & -> & ?)]); lia. }
      split; [intros [= <- <-]; split; [done|]; right; split_and!; try done; exists k; split_and!; try done; lia|].
      intros (-> & [(_ & _ & _ & _ & [=])|(_ & _ & c & [=] & ? & -> & ?)]); [lia|]. do 2 f_equal. lia.
    + destruct (Z.ltb_spec (maxbulk / RESP_MIN_VALUE_LEN) k).
      { split; [done|]. intros (_ & [(_ & _ & _ & _ & [=])|(_ & _ & c & [=] & ? & -> & ?)]); lia. }
      split; [intros [= <- <-]; split; [done|]; right; split_and!; try done; by exists k|].
      intros (-> & [(_ & _ & _ & _ & [=])|(_ & _ & c & [=] & ? & -> & ?)]); [lia|]. do 2 f_equal. lia.
Qed.

Lemma types_disjoint t :
  (is_line_type t = true -> is_bulk_type t = false /\ is_agg_type t = false) /\
  (is_bulk_type t = true -> is_line_type t = false /\ is_agg_type t = false) /\
  (is_agg_type t = true -> is_line_type t = false /\ is_bulk_type t = false).
Proof.
  assert (Hin : forall l, existsb (Z.eqb t) l = true -> In t l).
  { intros l (x & ? & ->%Z.eqb_eq)%existsb_exists. done. }
  split_and!; intros H; apply Hin in H; repeat destruct H as [<-|H]; done.
Qed.

Lemma head_print_len h : length (head_print h) = (1 + length (head_line h) + 2 + length (head_tail h))%nat.
Proof. unfold head_print. cbn [length]. rewrite length_app. cbn. lia. Qed.

(** [h] is a head of type [t] on the line [s], followed by [r'] in [r]. *)
Definition head_at (h : head) (t : Z) (s r r' : bytes) : Prop :=
  head_type h = t /\ head_line h = s /\ r = head_tail h ++ r'.

Lemma clean_unique (s s' r r' : bytes) :
  Forall (fun c => c <> CR /\ c <> LF) s -> Forall (fun c => c <> CR /\ c <> LF) s' ->
  s ++ CR :: LF :: r = s' ++ CR :: LF :: r' -> s = s' /\ r = r'.
Proof.
  revert s'. induction s as [|c s IH]; intros [|c' s'] F F' E; [by injection E|..].
  - injection E as <- _. by inversion F' as [|? ? []].
  - injection E as -> _. by inversion F as [|? ? []].
  - injection E as <- E. inversion F; inversion F'. by destruct (IH s') as [-> ->].
Qed.

Lemma head_print_at h t s r r' maxbulk n : head_ok maxbulk h n -> clean s ->
  t :: s ++ CR :: LF :: r = head_print h ++ r' <-> head_at h t s r r'.
Proof.
  intros [[Hc _] _] [Hs _]. unfold head_print, head_at. cbn [app]. split.
  - intros E. injection E as <- E. rewrite <- app_assoc in E. cbn [app] in E.
    apply clean_unique in E as [-> ->]; done.
  - intros (<- & <- & ->). by rewrite <- app_assoc.
Qed.

(** The heads that each branch of resp_one takes. *)
Lemma line_heads b t p s r maxbulk n pos : drop (p + 1) b = s ++ CR :: LF :: r -> clean s -> is_line_type t = true ->
  resp_one_line b t p (p + 1 + length s) = inr (n, pos) <->
  exists h r', head_at h t s r r' /\ pos = (p + length (head_print h))%nat /\ head_ok maxbulk h n.
Proof.
  intros Hd Hc Ht. destruct (proj1 (types_disjoint t) Ht) as [Tb Ta].
  rewrite (resp_one_line_iff b t p s r maxbulk) by done. split.
  - intros (-> & Hok). exists (HLine t s), r. rewrite head_print_len. split_and!; try done. cbn. lia.
  - intros (h & r' & (Et & Es & Er) & -> & Hok). rewrite head_print_len. destruct h; cbn in Et, Es; subst;
      cbn [head_line head_tail length] in *; [split; [lia|done]|destruct Hok as [_ [H _]]..]; try congruence.
    by destruct H as [->| ->].
Qed.

Lemma bulk_heads b t p s r maxbulk n pos : drop (p + 1) b = s ++ CR :: LF :: r -> clean s -> is_bulk_type t = true ->
  resp_one_bulk b t p (p + 1 + length s) maxbulk = inr (n, pos) <->
  exists h r', head_at h t s r r' /\ pos = (p + length (head_print h))%nat /\ head_ok maxbulk h n.
Proof.
  intros Hd Hc Ht. destruct (proj1 (proj2 (types_disjoint t)) Ht) as [Tl Ta].
  rewrite (resp_one_bulk_iff b t p s r maxbulk) by done. split.
  - intros [(-> & -> & Hok)|(s2 & r2 & -> & -> & Hok)].
    + exists (HNull DYN_RESP_BULK s), r. rewrite head_print_len. split_and!; try done. cbn. lia.
    + exists (HBulk t s s2), r2. rewrite head_print_len. cbn [head_line head_tail]. rewrite length_app. cbn [length].
      split_and!; [|lia|done]. split_and!; try done. cbn. by rewrite <- app_assoc.
  - intros (h & r' & (Et & Es & Er) & -> & Hok). rewrite head_print_len. destruct h; cbn in Et, Es; subst;
      cbn [head_line head_tail length] in *.
    + destruct Hok as [_ [H _]]. congruence.
    + right. eexists _, _. rewrite length_app, <- app_assoc. cbn. split_and!; [done|lia|done].
    + pose proof Hok as [_ [H _]]. left. destruct H as [->| ->]; [|done]. split_and!; [done|lia|done].
    + destruct Hok as [_ [H _]]. congruence.
Qed.

Lemma agg_heads b t p s r maxbulk n pos : drop (p + 1) b = s ++ CR :: LF :: r -> clean s -> is_agg_type t = true ->
  0 <= maxbulk < 2 ^ 63 ->
  resp_one_agg b t p (p + 1 + length s) maxbulk = inr (n, pos) <->
  exists h r', head_at h t s r r' /\ pos = (p + length (head_print h))%nat /\ head_ok maxbulk h n.
Proof.
  intros Hd Hc Ht Hmb. destruct (proj2 (proj2 (types_disjoint t)) Ht) as [Tl Tb].
  rewrite (resp_one_agg_iff b t p s r maxbulk) by done. split.
  - intros (-> & [(-> & Hok)|Hok]); [exists (HNull DYN_RESP_ARRAY s), r|exists (HAgg t s), r];
      rewrite head_print_len; split_and!; try done; cbn; lia.
  - intros (h & r' & (Et & Es & Er) & -> & Hok). rewrite head_print_len. destruct h; cbn in Et, Es; subst;
      cbn [head_line head_tail length] in *.
    + destruct Hok as [_ [H _]]. congruence.
    + destruct Hok as [_ [H _]]. congruence.
    + split; [lia|]. left. pose proof Hok as [_ [H _]]. by destruct H as [->| ->].
    + split; [lia|]. by right.
Qed.

(** A head is what one step of the scanner takes. *)
Lemma resp_one_iff b p maxbulk t n pos : 0 <= maxbulk < 2 ^ 63 ->
  resp_one b p maxbulk = inr (t, n, pos) <->
  exists h r, drop p b = head_print h ++ r /\ pos = (p + length (head_print h))%nat /\ t = head_type h /\
    head_ok maxbulk h n.
Proof.
  intros Hmb. unfold resp_one. destruct (drop p b) as [|t' rest] eqn:Ed.
  { rewrite (proj2 (Nat.leb_le _ _)) by (by apply drop_nil_len). split; [done|]. intros (h & r & E & _). done. }
  apply drop_cons_at in Ed as (-> & Ed & Hp). rewrite (proj2 (Nat.leb_gt _ _)) by done.
  destruct (resp_line b (p + 1)) as [rc|e] eqn:El.
  { split; [by repeat case_if|]. intros (h & r & E & _ & _ & Hok).
    enough (resp_line b (p + 1) = inr (p + 1 + length (head_line h))%nat) by congruence.
    apply resp_line_iff. exists (head_line h), (head_tail h ++ r). split_and!; [|done|apply Hok].
    unfold head_print in E. injection E as _ ->. rewrite Ed. by rewrite <- app_assoc. }
  apply resp_line_iff in El as (s & r & E & -> & Hc). rewrite Ed in E. revert Ed. subst rest. intros Ed.
  assert (Hk : forall k, (k = (inr (n, pos) : resp_code + Z * nat) <->
      exists h r', head_at h t' s r r' /\ pos = (p + length (head_print h))%nat /\ head_ok maxbulk h n) ->
    match k with inl rc => inl rc | inr (n0, pos0) => inr (t', n0, pos0) end = inr (t, n, pos) <->
    exists h r', t' :: s ++ CR :: LF :: r = head_print h ++ r' /\ pos = (p + length (head_print h))%nat /\
      t = head_type h /\ head_ok maxbulk h n).
  { intros k Hk. transitivity (t = t' /\ k = inr (n, pos)).
    { destruct k as [?|[n0 pos0]]; (split; [by intros [=]; subst|]); by intros [-> [=]]; subst. }
    rewrite Hk. split.
    - intros (-> & h & r' & Ha & -> & Hok). exists h, r'. rewrite (head_print_at _ _ _ _ _ _ _ Hok Hc). split_and!; try done. symmetry. apply Ha.
    - intros (h & r' & Ha & -> & -> & Hok). rewrite (head_print_at _ _ _ _ _ _ _ Hok Hc) in Ha. split; [apply Ha|]. by exists h, r'. }
  destruct (is_line_type t') eqn:Tl; [apply Hk, line_heads; assumption|].
  destruct (is_bulk_type t') eqn:Tb; [apply Hk, bulk_heads; assumption|].
  destruct (is_agg_type t') eqn:Ta; [apply Hk, agg_heads; assumption|].
  split; [done|]. intros (h & r' & Ha & _ & -> & Hok). rewrite (head_print_at _ _ _ _ _ _ _ Hok Hc) in Ha.
  destruct Ha as [Ht _]. destruct h; cbn in Ht; subst; destruct Hok as [_ [H _]]; try congruence. by destruct H as [->| ->].
Qed.

(** *** Stacks *)

(** The counts from the innermost level out. *)
Definition stack (st : dyn_resp_scan_t) : list Z := rev (take (Z.to_nat (sp st + 1)) (want st)).

Lemma stack_nil st : sp st < 0 -> stack st = [].
Proof. intros. unfold stack. by replace (Z.to_nat (sp st + 1)) with 0%nat by lia. Qed.

Lemma stack_len len st : scan_inv len st -> Z.of_nat (length (stack st)) = sp st + 1.
Proof. intros [? ? ? ?]. unfold stack. rewrite length_rev, length_take. lia. Qed.

Lemma rev_take_S (l : list Z) i : (i < length l)%nat -> rev (take (S i) l) = nth i l 0 :: rev (take i l).
Proof.
  intros Hi. destruct (nth_lookup_or_length l i 0) as [H|]; [|lia].
  by rewrite (take_S_r _ _ _ H), rev_app_distr.
Qed.

Lemma stack_cons len st : scan_inv len st -> 0 <= sp st ->
  stack st = want_at st :: stack (mk_scan (want st) (sp st - 1) (spos_ st)).
Proof.
  intros [H1 H2 _ _] Hs. unfold stack, want_at. cbn [sp want].
  replace (Z.to_nat (sp st + 1)) with (S (Z.to_nat (sp st))) by lia. rewrite rev_take_S by lia.
  do 3 f_equal. lia.
Qed.

(** Writing the count on top, with anything below or above it. *)
Lemma rev_take_insert (l : list Z) i w : (i < length l)%nat -> rev (take (S i) (<[i := w]> l)) = w :: rev (take i l).
Proof.
  intros Hi. rewrite rev_take_S by (by rewrite length_insert). f_equal.
  - by rewrite nth_lookup, list_lookup_insert_eq by done.
  - by rewrite take_insert_ge by lia.
Qed.

Lemma stack_set len st w pos : scan_inv len st -> 0 <= sp st ->
  stack (mk_scan (<[Z.to_nat (sp st) := w]> (want st)) (sp st) pos) = w :: stack (mk_scan (want st) (sp st - 1) (spos_ st)).
Proof.
  intros [H1 H2 _ _] Hs. unfold stack. cbn [sp want].
  replace (Z.to_nat (sp st + 1)) with (S (Z.to_nat (sp st))) by lia. rewrite rev_take_insert by lia.
  do 3 f_equal. lia.
Qed.

Lemma stack_push len st w n pos : scan_inv len st -> 0 <= sp st -> sp st + 1 < 32 ->
  stack (mk_scan (<[Z.to_nat (sp st + 1) := n]> (<[Z.to_nat (sp st) := w]> (want st))) (sp st + 1) pos) =
  n :: w :: stack (mk_scan (want st) (sp st - 1) (spos_ st)).
Proof.
  intros Hi Hs Hd. pose proof Hi as [H1 H2 _ _]. rewrite <- (stack_set len st w (spos_ st)) by done.
  unfold stack. cbn [sp want]. replace (Z.to_nat (sp st + 1 + 1)) with (S (Z.to_nat (sp st + 1))) by lia.
  by rewrite rev_take_insert by (rewrite length_insert; lia).
Qed.

(** The bytes that a stack of counts still stands for: so many replies at each
    level, the innermost first. *)
Inductive owed (maxbulk : Z) : list Z -> bytes -> Prop :=
  | owed_nil : owed maxbulk [] []
  | owed_zero stk bs : owed maxbulk stk bs -> owed maxbulk (0 :: stk) bs
  | owed_reply w stk v bs : 0 < w -> reply_ok maxbulk (31 - length stk) v -> owed maxbulk (w - 1 :: stk) bs ->
      owed maxbulk (w :: stk) (print_reply v ++ bs).

Lemma owed_zero_iff maxbulk stk bs : owed maxbulk (0 :: stk) bs <-> owed maxbulk stk bs.
Proof. split; [|apply owed_zero]. inversion 1; subst; [done|lia]. Qed.

Lemma owed_kids maxbulk n stk bs : owed maxbulk (n :: stk) bs <->
  exists l bs', Z.of_nat (length l) = n /\ Forall (reply_ok maxbulk (31 - length stk)) l /\
    bs = flat_map print_reply l ++ bs' /\ owed maxbulk stk bs'.
Proof.
  split.
  - intros H. remember (n :: stk) as s eqn:E. revert n E.
    induction H as [|stk' bs H IH|w stk' v bs Hw Hv H IH]; intros n E; [done|injection E as <- ->..].
    + by exists [], bs.
    + destruct (IH (w - 1) eq_refl) as (l & bs' & Hl & Hf & -> & Ho). exists (v :: l), bs'.
      split_and!; [cbn; lia|by constructor| |done]. cbn. by rewrite app_assoc.
  - intros (l & bs' & <- & Hf & -> & Ho). induction Hf as [|v l Hv Hf IH]; cbn; [by apply owed_zero|].
    rewrite <- app_assoc. apply owed_reply; [lia|done|]. replace (_ - 1) with (Z.of_nat (length l)) by lia. done.
Qed.

Lemma scan_pop_owed fuel len st maxbulk bs : scan_inv len st ->
  owed maxbulk (stack (scan_pop fuel st)) bs <-> owed maxbulk (stack st) bs.
Proof.
  revert st. induction fuel as [|fuel IH]; intros st Hi; cbn [scan_pop]; [done|].
  destruct (Z.leb_spec 0 (sp st)); cbn [andb]; [|done]. destruct (Z.eqb_spec (want_at st) 0) as [E|E]; [|done].
  rewrite IH.
  - by rewrite (stack_cons len st), E, owed_zero_iff by done.
  - destruct Hi as [? ? ? ?]. split; cbn; try done. lia.
Qed.

Lemma drop_after {A} (b : list A) p (s r : list A) : drop p b = s ++ r -> drop (p + length s) b = r.
Proof. intros H. rewrite <- drop_drop, H. by apply drop_app_length'. Qed.

Lemma reply_ok_unfold maxbulk d h kids : reply_ok maxbulk d (Node h kids) =
  ((exists n, head_ok maxbulk h n /\ Z.of_nat (length kids) = head_kids h n) /\
   match kids with
   | [] => True
   | _ => match d with O => False | S d => Forall (reply_ok maxbulk d) kids end
   end).
Proof. by destruct d. Qed.

(** The levels a reply may use below the current one. *)
Lemma reply_ok_node maxbulk h n l w stk : head_ok maxbulk h n -> Z.of_nat (length l) = head_kids h n ->
  (0 < head_kids h n -> (S (length stk) < 32)%nat /\ Forall (reply_ok maxbulk (31 - length ((w : Z) :: stk))) l) ->
  reply_ok maxbulk (31 - length stk) (Node h l).
Proof.
  intros Hok Hl Hk. rewrite reply_ok_unfold. split; [by exists n|]. destruct l as [|v l]; [done|].
  destruct Hk as [Hd Hf]; [cbn [length] in Hl; lia|]. cbn [length] in Hf.
  by replace (31 - length stk)%nat with (S (31 - S (length stk))) by lia.
Qed.

Section Turn.
Context (b : bytes) (maxbulk : Z) (Hmb : 0 <= maxbulk < 2 ^ 63).
Context (s : dyn_resp_scan_t) (Hi : scan_inv (length b) s) (Hw : 0 <= sp s -> 0 < want_at s).

Let below := stack (mk_scan (want s) (sp s - 1) (spos_ s)).

Lemma below_len : 0 <= sp s -> Z.of_nat (length below) = sp s.
Proof. intros Hs. pose proof (stack_len _ _ Hi) as H. rewrite (stack_cons _ _ Hi Hs) in H. cbn [length] in H. unfold below. lia. Qed.

(** A turn that goes on has taken a head and owes its kids. *)
Lemma scan_value_sound s' bs' r' : scan_value b maxbulk s = inl s' ->
  owed maxbulk (stack s') bs' -> drop (spos_ s') b = bs' ++ r' ->
  exists bs, owed maxbulk (stack s) bs /\ drop (spos_ s) b = bs ++ r' /\
    (spos_ s' + length bs' = spos_ s + length bs)%nat.
Proof.
  unfold scan_value. destruct (Z.ltb_spec (sp s) 0) as [|Hs]; [done|]. specialize (Hw Hs).
  destruct (resp_one b (spos_ s) maxbulk) as [rc|[[t n] pos]] eqn:E; [by destruct rc|].
  apply (resp_one_pos b) in E as Hn. destruct Hn as (_ & Hn & _).
  apply resp_one_iff in E as (h & r & Hd & -> & -> & Hok); [|done].
  pose proof (drop_after _ _ _ _ Hd) as Hd'. rewrite (stack_cons _ _ Hi Hs). fold below.
  change (if head_type h =? DYN_RESP_ATTR then n + 1 else n) with (head_kids h n).
  pose proof (below_len Hs) as Hb.
  assert (Hfin : forall l bs'', bs' = flat_map print_reply l ++ bs'' -> owed maxbulk (want_at s - 1 :: below) bs'' ->
    r = bs' ++ r' -> reply_ok maxbulk (31 - length below) (Node h l) ->
    exists bs, owed maxbulk (want_at s :: below) bs /\ drop (spos_ s) b = bs ++ r' /\
      (spos_ s + length (head_print h) + length bs' = spos_ s + length bs)%nat).
  { intros l bs'' -> Ho -> Hv. exists (print_reply (Node h l) ++ bs'').
    split_and!; [by apply owed_reply|cbn [print_reply]; by rewrite Hd, <- !app_assoc|]. cbn [print_reply]. rewrite !length_app. lia. }
  destruct (Z.ltb_spec 0 (head_kids h n)) as [Hk|Hk].
  - destruct (Z.leb_spec DYN_RESP_MAX_DEPTH (sp s + 1)) as [|Hdep]; [done|]. unfold DYN_RESP_MAX_DEPTH in Hdep.
    intros Es%(inj inl). subst s'. cbn [spos_]. rewrite (stack_push _ _ _ _ _ Hi) by lia. fold below.
    intros (l & bs'' & Hl & Hf & -> & Ho)%owed_kids Hr. rewrite Hd' in Hr.
    apply (Hfin l bs''); try done. apply (reply_ok_node _ _ n _ (want_at s - 1)); [done..|]. split; [lia|done].
  - intros Es%(inj inl). subst s'. cbn [spos_]. rewrite (stack_set _ _ _ _ Hi) by lia. fold below. intros Ho Hr. rewrite Hd' in Hr.
    apply (Hfin [] bs'); try done. apply (reply_ok_node _ _ n _ (want_at s - 1)); [done| |lia].
    unfold head_kids in *. cbn [length]. destruct (_ =? _); lia.
Qed.

(** A turn where replies are owed takes the head of the first. *)
Lemma scan_value_complete bs r : owed maxbulk (stack s) bs -> drop (spos_ s) b = bs ++ r ->
  (bs = [] /\ scan_value b maxbulk s = inr (DYN_RESP_OK, spos_ s, dyn_resp_scan_init)) \/
  (exists s' bs', scan_value b maxbulk s = inl s' /\ owed maxbulk (stack s') bs' /\ drop (spos_ s') b = bs' ++ r /\
    (spos_ s' + length bs' = spos_ s + length bs)%nat).
Proof.
  unfold scan_value. destruct (Z.ltb_spec (sp s) 0) as [Hs|Hs].
  { rewrite stack_nil by done. intros Ho _. left. split; [|done]. by inversion Ho. }
  specialize (Hw Hs). pose proof (below_len Hs) as Hb. rewrite (stack_cons _ _ Hi Hs). fold below. intros Ho Hd. right.
  inversion Ho as [|? ? _ E|w stk [h l] bs1 _ Hv Ho1]; [lia|]; subst.
  cbn [print_reply] in Hd. rewrite <- !app_assoc in Hd. rewrite reply_ok_unfold in Hv. destruct Hv as ((n & Hok & Hl) & Hkids).
  assert (E : resp_one b (spos_ s) maxbulk = inr (head_type h, n, (spos_ s + length (head_print h))%nat)).
  { apply resp_one_iff; [done|]. by eexists h, _. }
  rewrite E. change (if head_type h =? DYN_RESP_ATTR then n + 1 else n) with (head_kids h n).
  pose proof (drop_after _ _ _ _ Hd) as Hd'. cbn [print_reply]. rewrite !length_app.
  destruct (Z.ltb_spec 0 (head_kids h n)) as [Hk|Hk].
  - destruct l as [|v l]; [cbn in Hl; lia|]. destruct (31 - length below)%nat as [|d] eqn:Ed; [done|].
    destruct (Z.leb_spec DYN_RESP_MAX_DEPTH (sp s + 1)) as [Hx|Hdep]; unfold DYN_RESP_MAX_DEPTH in *; [lia|].
    eexists _, (flat_map print_reply (v :: l) ++ bs1). split; [reflexivity|]. cbn [spos_].
    rewrite (stack_push _ _ _ _ _ Hi), Hd', length_app by lia. fold below. split_and!; [|by rewrite app_assoc|lia].
    apply owed_kids. exists (v :: l), bs1. split_and!; try done. cbn [length]. by replace (31 - S (length below))%nat with d by lia.
  - destruct l as [|v l]; [|cbn in Hl; lia]. eexists _, bs1. split; [reflexivity|]. cbn [spos_].
    rewrite (stack_set _ _ _ _ Hi), Hd' by lia. fold below. split_and!; [done..|]. cbn. lia.
Qed.

End Turn.

Lemma scan_turn_sound b maxbulk st st' bs' r : 0 <= maxbulk < 2 ^ 63 -> scan_inv (length b) st ->
  scan_turn b maxbulk st = inl st' -> owed maxbulk (stack st') bs' -> drop (spos_ st') b = bs' ++ r ->
  exists bs, owed maxbulk (stack st) bs /\ drop (spos_ st) b = bs ++ r /\
    (spos_ st' + length bs' = spos_ st + length bs)%nat.
Proof.
  intros Hmb Hi. unfold scan_turn. destruct (scan_pop_spec 32 _ st Hi ltac:(destruct Hi; lia)) as (Hp & _ & Epos & Hw).
  pose proof (fun bs => scan_pop_owed 32 _ st maxbulk bs Hi) as Hpop. revert Hp Epos Hw Hpop.
  generalize (scan_pop 32 st) as s. intros s Hp Epos Hw Hpop E Ho Hd.
  destruct (scan_value_sound b maxbulk Hmb s Hp Hw _ _ _ E Ho Hd) as (bs & H1 & H2 & H3).
  exists bs. rewrite <- Hpop, <- Epos. by split_and!.
Qed.

Lemma scan_turn_complete b maxbulk st bs r : 0 <= maxbulk < 2 ^ 63 -> scan_inv (length b) st ->
  owed maxbulk (stack st) bs -> drop (spos_ st) b = bs ++ r ->
  (bs = [] /\ scan_turn b maxbulk st = inr (DYN_RESP_OK, spos_ st, dyn_resp_scan_init)) \/
  (exists st' bs', scan_turn b maxbulk st = inl st' /\ owed maxbulk (stack st') bs' /\ drop (spos_ st') b = bs' ++ r /\
    (spos_ st' + length bs' = spos_ st + length bs)%nat).
Proof.
  intros Hmb Hi. unfold scan_turn. destruct (scan_pop_spec 32 _ st Hi ltac:(destruct Hi; lia)) as (Hp & _ & Epos & Hw).
  rewrite <- (scan_pop_owed 32 _ st maxbulk bs Hi), <- Epos. revert Hp Hw. generalize (scan_pop 32 st) as s.
  intros s Hp Hw. by apply scan_value_complete.
Qed.

(** No error is the code for success. *)
Lemma resp_line_loop_not_ok n b i stop : resp_line_loop n b i stop <> inl DYN_RESP_OK.
Proof. revert i. induction n as [|n IH]; intros i; cbn [resp_line_loop]; repeat case_if; done. Qed.

Lemma resp_int_not_ok s : resp_int s <> inl DYN_RESP_OK.
Proof.
  assert (Hneg : forall l v, resp_int_neg l v <> inl DYN_RESP_OK).
  { induction l as [|c l IH]; intros v; cbn [resp_int_neg]; [done|]. cbv zeta. repeat case_if; done. }
  assert (Hpos : forall l v, resp_int_pos l v <> inl DYN_RESP_OK).
  { induction l as [|c l IH]; intros v; cbn [resp_int_pos]; [done|]. cbv zeta. repeat case_if; done. }
  destruct s as [|c l]; [done|]. unfold resp_int. cbv zeta. destruct (if c =? ch "-" then _ else _); [done|]. by case_if.
Qed.

Lemma resp_one_not_ok b p maxbulk : resp_one b p maxbulk <> inl DYN_RESP_OK.
Proof.
  unfold resp_one. case_if; [done|]. pose proof (resp_line_loop_not_ok) as Hl. unfold resp_line.
  pose proof resp_int_not_ok as Hint.
  assert (Hk : forall k, (forall e, k e <> (inl DYN_RESP_OK : resp_code + Z * nat)) -> forall (r : resp_code + nat) t, r <> inl DYN_RESP_OK ->
    match r with inl rc => inl rc | inr e => match k e with inl rc => inl rc | inr (n, pos) => inr (t, n, pos) end end
    <> (inl DYN_RESP_OK : resp_code + Z * Z * nat)).
  { intros k Hk [rc|e] t Hr; [congruence|]. specialize (Hk e). destruct (k e) as [|[]]; congruence. }
  cbv zeta. case_if; [|case_if; [|case_if; [|done]]]; (apply Hk; [|apply Hl]); intros e;
    unfold resp_one_line, resp_one_bulk, resp_one_agg; cbv zeta.
  - specialize (Hint (slice b (p + 1) e)). destruct (resp_int _); repeat case_if; congruence.
  - specialize (Hint (slice b (p + 1) e)). destruct (resp_int _); repeat case_if; congruence.
  - specialize (Hint (slice b (p + 1) e)). destruct (resp_int _); [congruence|].
    destruct (z <? 0); [by destruct (_ || _)|]. destruct (_ && _); [done|]. by destruct (_ <? _).
Qed.

(** The scanner ends only with an empty stack. *)
Lemma scan_turn_ok b maxbulk st c st' : scan_inv (length b) st ->
  scan_turn b maxbulk st = inr (DYN_RESP_OK, c, st') -> c = spos_ st /\ owed maxbulk (stack st) [].
Proof.
  intros Hi. unfold scan_turn. destruct (scan_pop_spec 32 _ st Hi ltac:(destruct Hi; lia)) as (_ & _ & Epos & _).
  rewrite <- (scan_pop_owed 32 _ st maxbulk [] Hi), <- Epos. generalize (scan_pop 32 st) as s. intros s. unfold scan_value.
  destruct (Z.ltb_spec (sp s) 0) as [Hs|Hs].
  - intros [= <- _]. rewrite stack_nil by done. split; [done|constructor].
  - pose proof (resp_one_not_ok b (spos_ s) maxbulk).
    destruct (resp_one b (spos_ s) maxbulk) as [rc|[[t n] pos]]; [by destruct rc|].
    destruct (0 <? _); [|done]. by destruct (DYN_RESP_MAX_DEPTH <=? _).
Qed.

Lemma scan_max_range maxbulk : 0 <= maxbulk < 2 ^ 63 -> 0 <= scan_max maxbulk < 2 ^ 63.
Proof. unfold scan_max, RESP_DEFAULT_MAXBULK. case_if; lia. Qed.

Lemma init_owed maxbulk bs : owed maxbulk (stack dyn_resp_scan_init) bs <->
  exists v, reply_ok maxbulk 31 v /\ bs = print_reply v.
Proof.
  change (stack dyn_resp_scan_init) with [1]. rewrite owed_kids. split.
  - intros (l & bs' & Hl & Hf & -> & Ho). destruct l as [|v [|? ?]]; cbn [length] in Hl; try lia.
    inversion Ho; subst. inversion Hf. exists v. cbn [flat_map]. by rewrite !app_nil_r.
  - intros (v & Hv & ->). exists [v], []. cbn [flat_map]. rewrite !app_nil_r. split_and!; [done|by constructor|done|constructor].
Qed.

(** The states a client can hold after feeding the bytes [b] in pieces: it
    scans again with the grown buffer as long as the verdict is "incomplete". *)
Inductive fed (maxbulk : Z) : bytes -> dyn_resp_scan_t -> Prop :=
  | fed_start : fed maxbulk [] dyn_resp_scan_init
  | fed_more b m st c st' : fed maxbulk b st ->
      dyn_resp_scan_resume st (b ++ m) maxbulk = Some (DYN_RESP_INCOMPLETE, c, st') -> fed maxbulk (b ++ m) st'.

Lemma resume_total st b maxbulk : scan_inv (length b) st ->
  exists rc consumed st', dyn_resp_scan_resume st b maxbulk = Some (rc, consumed, st') /\ scan_inv (length b) st' /\
    (consumed <= length b)%nat /\ (rc <> DYN_RESP_INCOMPLETE -> st' = dyn_resp_scan_init) /\
    (rc <> DYN_RESP_OK -> consumed = 0%nat).
Proof. intros Hi. apply scan_loop_total; [done|lia]. Qed.

Lemma fed_inv maxbulk b st : fed maxbulk b st -> scan_inv (length b) st.
Proof.
  induction 1 as [|b m st c st' _ IH H]; [apply scan_init_inv|].
  destruct (resume_total st (b ++ m) maxbulk) as (rc & c' & st2 & E & Hi & _).
  - apply (scan_inv_len (length b)); [rewrite length_app; lia|done].
  - rewrite E in H. apply (inj Some) in H. by injection H as _ _ <-.
Qed.

(** Going on from the state left, on any longer buffer. *)
Lemma scan_loop_resume n n' b m maxbulk st rc c st' r : scan_inv (length b) st -> (n <= n')%nat ->
  scan_loop n b maxbulk st = Some (rc, c, st') -> scan_loop n' (b ++ m) maxbulk st = Some r ->
  Some r = if decide (rc = DYN_RESP_INCOMPLETE) then scan_loop n' (b ++ m) maxbulk st' else Some (rc, c, st').
Proof.
  intros Hi Hn H H'. pose proof (scan_loop_ext _ b m _ st rc c st' Hi H) as Hx. destruct (decide _).
  - destruct Hx as (k & ? & Hx). rewrite <- Hx by lia. symmetry. eapply scan_loop_mono, H'. lia.
  - rewrite <- H'. by apply (scan_loop_mono n).
Qed.

Lemma resume_ext st b m maxbulk rc c st' : scan_inv (length b) st ->
  dyn_resp_scan_resume st b maxbulk = Some (rc, c, st') ->
  dyn_resp_scan_resume st (b ++ m) maxbulk =
  if decide (rc = DYN_RESP_INCOMPLETE) then dyn_resp_scan_resume st' (b ++ m) maxbulk else Some (rc, c, st').
Proof.
  intros Hi H. destruct (resume_total st (b ++ m) maxbulk) as (rc2 & c2 & st2 & E2 & _);
    [apply (scan_inv_len (length b)); [rewrite length_app; lia|done]|].
  rewrite E2. assert (Hn : (S (length b) <= S (length (b ++ m)))%nat) by (rewrite length_app; lia).
  revert H E2 Hn. unfold dyn_resp_scan_resume. generalize (S (length b)), (S (length (b ++ m))), (scan_max maxbulk).
  intros n n' mb H E2 Hn. by apply (scan_loop_resume n n' b m mb st).
Qed.

Lemma fed_resume maxbulk b st : fed maxbulk b st ->
  forall m, dyn_resp_scan_resume st (b ++ m) maxbulk = dyn_resp_scan (b ++ m) maxbulk.
Proof.
  induction 1 as [|b m st c st' Hf IH H]; intros m2; [done|]. rewrite <- app_assoc, <- IH, app_assoc.
  assert (Hi : scan_inv (length (b ++ m)) st).
  { apply (scan_inv_len (length b)); [rewrite length_app; lia|by eapply fed_inv]. }
  rewrite (resume_ext st (b ++ m) m2 _ _ _ _ Hi H).
  by rewrite decide_True by done.
Qed.

(** The verdict "complete" and the grammar. *)
Lemma scan_accepts b maxbulk c st : 0 <= maxbulk < 2 ^ 63 ->
  dyn_resp_scan b maxbulk = Some (DYN_RESP_OK, c, st) ->
  exists v m, reply_ok (scan_max maxbulk) 31 v /\ b = print_reply v ++ m /\ c = length (print_reply v).
Proof.
  intros Hmb%scan_max_range H. unfold dyn_resp_scan, dyn_resp_scan_resume, scan_loop in H.
  set (P := fun s (r : resp_code * nat * dyn_resp_scan_t) => forall c' st', r = (DYN_RESP_OK, c', st') -> scan_inv (length b) s ->
    exists bs m, owed (scan_max maxbulk) (stack s) bs /\ drop (spos_ s) b = bs ++ m /\ c' = (spos_ s + length bs)%nat).
  assert (Hgo : forall s s' r, scan_turn b (scan_max maxbulk) s = inl s' -> P s' r -> P s r).
  { clear H. intros s s' r E IH c' st' -> Hi. pose proof (scan_turn_inv b (scan_max maxbulk) s Hi) as Ht. rewrite E in Ht.
    destruct (IH c' st' eq_refl (proj1 Ht)) as (bs' & m & Ho & Hd & ->).
    destruct (scan_turn_sound _ _ _ _ _ _ Hmb Hi E Ho Hd) as (bs & Ho' & Hd' & El). exists bs, m. by rewrite El. }
  assert (Hret : forall s r, scan_turn b (scan_max maxbulk) s = inr r -> P s r).
  { clear H. intros s r E c' st' -> Hi. apply scan_turn_ok in E as [-> Ho]; [|done].
    exists [], (drop (spos_ s) b). split_and!; (done || cbn; lia). }
  destruct (turns_backward _ P Hgo Hret _ _ _ H c st eq_refl (scan_init_inv _)) as (bs & m & Ho & Hd & ->).
  apply init_owed in Ho as (v & Hv & ->). by exists v, m.
Qed.

Lemma scan_complete v m maxbulk : 0 <= maxbulk < 2 ^ 63 -> reply_ok (scan_max maxbulk) 31 v ->
  dyn_resp_scan (print_reply v ++ m) maxbulk = Some (DYN_RESP_OK, length (print_reply v), dyn_resp_scan_init).
Proof.
  intros Hmb%scan_max_range Hv. set (b := print_reply v ++ m).
  destruct (resume_total dyn_resp_scan_init b maxbulk (scan_init_inv _)) as (rc & c & st' & E & _).
  unfold dyn_resp_scan. rewrite E. f_equal. unfold dyn_resp_scan_resume, scan_loop in E.
  apply (turns_forward (scan_turn b (scan_max maxbulk)) (fun s => scan_inv (length b) s /\
    exists bs, owed (scan_max maxbulk) (stack s) bs /\ drop (spos_ s) b = bs ++ m /\
      (spos_ s + length bs)%nat = length (print_reply v))
    (fun r => r = (DYN_RESP_OK, length (print_reply v), dyn_resp_scan_init))) in E; [assumption|clear E..].
  - intros s (Hi & bs & Ho & Hd & El). pose proof (scan_turn_inv b (scan_max maxbulk) s Hi) as Ht.
    destruct (scan_turn_complete b _ s bs m Hmb Hi Ho Hd) as [[-> E]|(s' & bs' & E & Ho' & Hd' & El')]; rewrite E in Ht |- *.
    + rewrite <- El. cbn [length]. by rewrite Nat.add_0_r.
    + split; [apply Ht|]. exists bs'. split_and!; try done. lia.
  - split; [apply scan_init_inv|]. exists (print_reply v). rewrite init_owed. split_and!; [by exists v|done|done].
Qed.

(** ** Commands *)

Lemma dec_digits_len fuel v n : 0 <= v < 10 ^ Z.of_nat (S fuel) ->
  declen_loop (S fuel) v (S n) = (n + length (dec_digits (S fuel) v))%nat.
Proof.
  revert v n. induction fuel as [|fuel IH]; intros v n Hv.
  - cbn [declen_loop dec_digits]. destruct (Z.leb_spec 10 v); [lia|]. rewrite Z.div_small by lia. cbn. lia.
  - remember (S fuel) as f. cbn [declen_loop dec_digits].
    assert (v / 10 < 10 ^ Z.of_nat f) by (apply Z.div_lt_upper_bound; [lia|]; rewrite <- Z.pow_succ_r by lia; f_equal; lia).
    destruct (Z.leb_spec 10 v).
    + assert (1 <= v / 10) by (apply Z.div_le_lower_bound; lia).
      destruct (Z.eqb_spec (v / 10) 0); [lia|]. rewrite (IH _ (S n)) by lia. cbn. lia.
    + rewrite Z.div_small by lia. cbn. lia.
Qed.

Lemma put_dec_len v : fits 64 v -> length (resp_put_dec v) = resp_declen v.
Proof.
  intros Hv. unfold resp_put_dec, resp_declen. rewrite length_rev, (dec_digits_len 19 v 0); [done|].
  unfold fits in Hv. change (Z.of_nat 20) with 20. lia.
Qed.

Lemma dec_digits_range fuel v : 0 <= v -> Forall (fun c => ch "0" <= c <= ch "9") (dec_digits fuel v).
Proof.
  revert v. induction fuel as [|fuel IH]; intros v Hv; cbn [dec_digits]; constructor.
  - change (ch "0") with 48. change (ch "9") with 57. pose proof (Z.mod_pos_bound v 10). lia.
  - case_if; [constructor|]. apply IH. by apply Z.div_pos.
Qed.

Lemma put_dec_range v : 0 <= v -> Forall (fun c => ch "0" <= c <= ch "9") (resp_put_dec v).
Proof. intros Hv. apply Forall_rev. by apply dec_digits_range. Qed.

Lemma resp_int_pos_app l1 l2 v : resp_int_pos (l1 ++ l2) v =
  match resp_int_pos l1 v with inl rc => inl rc | inr v => resp_int_pos l2 v end.
Proof.
  revert v. induction l1 as [|c l1 IH]; intros v; cbn [resp_int_pos app]; [done|]. cbv zeta. repeat case_if; done.
Qed.

Lemma dec_digits_value fuel v : 0 <= v <= INT64_MAX -> v < 10 ^ Z.of_nat fuel ->
  resp_int_pos (rev (dec_digits fuel v)) 0 = inr v.
Proof.
  revert v. induction fuel as [|fuel IH]; intros v Hv Hf; [cbn in *; f_equal; lia|]. cbn [dec_digits rev].
  pose proof (Z.mod_pos_bound v 10 ltac:(lia)). pose proof (Z.div_mod v 10 ltac:(lia)).
  assert (0 <= v / 10) by (apply Z.div_pos; lia).
  rewrite resp_int_pos_app.
  replace (resp_int_pos (rev _) 0) with (inr (v / 10) : resp_code + Z).
  - cbn [resp_int_pos]. unfold is_digit. change (ch "0") with 48. change (ch "9") with 57.
    rewrite !(proj2 (Z.leb_le _ _)) by lia. cbn [andb negb]. cbv zeta. replace (48 + v `mod` 10 - 48) with (v `mod` 10) by lia.
    rewrite Z.quot_div_nonneg by (unfold INT64_MAX in *; lia).
    assert (v / 10 <= (INT64_MAX - v `mod` 10) / 10) by (apply Z.div_le_lower_bound; lia).
    rewrite ltb_false by lia. f_equal. lia.
  - destruct (Z.eqb_spec (v / 10) 0) as [->|]; [done|]. symmetry. apply IH; [lia|].
    apply Z.div_lt_upper_bound; [lia|]. rewrite <- Z.pow_succ_r by lia. rewrite Nat2Z.inj_succ in Hf. done.
Qed.

Lemma resp_int_digits l : Forall (fun c => ch "0" <= c <= ch "9") l -> l <> [] -> resp_int l = resp_int_pos l 0.
Proof.
  intros F Hl. destruct l as [|c l]; [done|]. inversion F as [|? ? Hc]. unfold resp_int.
  change (ch "0") with 48 in Hc. change (ch "-") with 45. change (ch "+") with 43.
  destruct (Z.eqb_spec c 45); [lia|]. destruct (Z.eqb_spec c 43); [lia|]. done.
Qed.

Lemma put_dec_value v : 0 <= v <= INT64_MAX -> resp_int (resp_put_dec v) = inr v.
Proof.
  intros Hv. rewrite resp_int_digits.
  - apply dec_digits_value; [done|]. unfold INT64_MAX in Hv. change (Z.of_nat 20) with 20. lia.
  - apply put_dec_range. lia.
  - unfold resp_put_dec. cbn [dec_digits rev]. by intros [_ [=]]%app_eq_nil.
Qed.

Lemma dec_digits_short fuel v : (length (dec_digits fuel v) <= fuel)%nat.
Proof.
  revert v. induction fuel as [|fuel IH]; intros v; cbn [dec_digits]; [done|]. rewrite length_cons.
  specialize (IH (v / 10)). destruct (v / 10 =? 0); cbn; lia.
Qed.

Lemma put_dec_clean v : 0 <= v -> clean (resp_put_dec v).
Proof.
  intros Hv. split.
  - eapply Forall_impl; [by apply put_dec_range|]. intros c Hc. cbn beta in Hc. change (ch "0") with 48 in Hc. unfold CR, LF. lia.
  - unfold resp_put_dec. rewrite length_rev. pose proof (dec_digits_short 20 v). unfold DYN_RESP_MAX_LINE. lia.
Qed.

(** A command as a reply tree: an array of counted strings. *)
Definition arg_reply (a : bytes) : reply := Node (HBulk DYN_RESP_BULK (resp_put_dec (Z.of_nat (length a))) a) [].
Definition cmd_reply (argv : list bytes) : reply :=
  Node (HAgg DYN_RESP_ARRAY (resp_put_dec (Z.of_nat (length argv)))) (arg_reply <$> argv).

Lemma arg_print a : print_reply (arg_reply a) = resp_put_arg a.
Proof. cbn [print_reply arg_reply flat_map]. unfold head_print, resp_put_arg. cbn. rewrite app_nil_r. done. Qed.

Lemma cmd_print argv : print_reply (cmd_reply argv) =
  [ch "*"] ++ resp_put_dec (Z.of_nat (length argv)) ++ [CR; LF] ++ (argv ≫= resp_put_arg).
Proof.
  unfold cmd_reply. cbn [print_reply]. unfold head_print. cbn [head_type head_line head_tail]. rewrite app_nil_r. cbn [app].
  f_equal. rewrite <- app_assoc. f_equal. cbn. do 2 f_equal. induction argv as [|a l IH]; [done|].
  cbn [fmap list_fmap flat_map]. by rewrite IH, arg_print, bind_cons.
Qed.

Lemma cmd_size_len argv : fits 64 (Z.of_nat (length argv)) -> Forall (fun a => fits 64 (Z.of_nat (length a))) argv ->
  dyn_resp_cmd_size argv = length (print_reply (cmd_reply argv)).
Proof.
  intros Hn Hf. rewrite cmd_print. unfold dyn_resp_cmd_size. rewrite !length_app, put_dec_len by done. cbn [length].
  set (f := fun total a => _). assert (Hg : forall t, fold_left f argv t = (t + length (argv ≫= resp_put_arg))%nat); [|rewrite Hg; lia].
  induction Hf as [|a l Ha Hf IH]; intros t; [cbn; lia|]. cbn [fold_left]. rewrite IH.
  - rewrite bind_cons, length_app. unfold resp_put_arg at 2. rewrite !length_app, put_dec_len by done. unfold f. cbn [length]. lia.
  - unfold fits in *. cbn [length] in Hn. lia.
Qed.

Lemma cmd_reply_ok argv maxbulk : Z.of_nat (length argv) <= maxbulk / 3 -> 0 <= maxbulk < 2 ^ 63 ->
  Forall (fun a => Z.of_nat (length a) <= maxbulk) argv -> reply_ok maxbulk 31 (cmd_reply argv).
Proof.
  intros Hn Hmb Hf. assert (maxbulk / 3 <= maxbulk) by (apply Z.div_le_upper_bound; lia).
  unfold cmd_reply. rewrite reply_ok_unfold. split.
  - exists (Z.of_nat (length argv)). unfold head_ok, head_kids. cbn [head_line head_type]. rewrite length_fmap.
    split_and!; [apply put_dec_clean; lia|done| |done]. eexists. rewrite put_dec_value by (unfold INT64_MAX; lia).
    split_and!; [done|lia|done|done].
  - destruct argv as [|a0 argv]; [done|]. revert Hf. generalize (a0 :: argv) as l. intros l Hf.
    assert (Forall (reply_ok maxbulk 30) (arg_reply <$> l)); [|by destruct (arg_reply <$> l)].
    apply Forall_fmap. eapply Forall_impl; [exact Hf|]. intros a Ha. cbn beta in Ha. unfold compose, arg_reply. rewrite reply_ok_unfold.
    split; [|done]. exists 0. unfold head_ok, head_kids. cbn [head_line head_type].
    rewrite put_dec_value by (unfold INT64_MAX; lia). split_and!; try done. apply put_dec_clean. lia.
Qed.

(** ** Reading a command back *)

Section ReadBack.
Context (atod : bytes -> option Z).

(** [n] calls of dyn_resp_next that all succeed. *)
Fixpoint read_items (n : nat) (b : bytes) (p : nat) : option (list dyn_resp_item_t * nat) :=
  match n with
  | O => Some ([], p)
  | S n =>
      match dyn_resp_next atod b p with
      | (DYN_RESP_OK, it, p) => match read_items n b p with Some (l, p) => Some (it :: l, p) | None => None end
      | _ => None
      end
  end.

Lemma next_line b p t s r : drop p b = t :: s ++ CR :: LF :: r -> clean s ->
  (length b <=? p)%nat = false /\ at_ b p = t /\ resp_line b (p + 1) = inr (p + 1 + length s)%nat /\
  slice b (p + 1) (p + 1 + length s) = s /\ drop (p + 1 + length s + 2) b = r.
Proof.
  intros Hd Hc. apply drop_cons_at in Hd as (Ht & Hd & Hp). split_and!.
  - by apply Nat.leb_gt.
  - done.
  - apply resp_line_iff. by exists s, r.
  - by eapply at_slice.
  - rewrite <- (drop_drop b 2), <- (drop_drop b _ (p + 1)), Hd, drop_app_length'; done.
Qed.

Definition bulk_item (a : bytes) : dyn_resp_item_t := mk_item (Some a) 0 None 0 DYN_RESP_BULK false.
Definition array_item (n : nat) : dyn_resp_item_t := mk_item None 0 None (Z.of_nat n) DYN_RESP_ARRAY false.

Lemma next_arg b p a r : Z.of_nat (length a) <= INT64_MAX -> drop p b = resp_put_arg a ++ r ->
  dyn_resp_next atod b p = (DYN_RESP_OK, bulk_item a, (p + length (resp_put_arg a))%nat).
Proof.
  intros Ha Hd. set (num := resp_put_dec (Z.of_nat (length a))).
  assert (Hd0 : drop p b = DYN_RESP_BULK :: num ++ CR :: LF :: (a ++ CR :: LF :: r)).
  { rewrite Hd. unfold resp_put_arg. fold num. cbn. rewrite <- !app_assoc. cbn. by rewrite <- app_assoc. }
  assert (Hl : length (resp_put_arg a) = (1 + length num + 2 + length a + 2)%nat).
  { unfold resp_put_arg. rewrite !length_app. fold num. cbn. lia. }
  apply next_line in Hd0 as (H1 & H2 & H3 & H4 & H5); [|apply put_dec_clean; lia].
  assert (Hv : resp_int num = inr (Z.of_nat (length a))) by (apply put_dec_value; lia). clearbody num.
  rewrite Hl. unfold dyn_resp_next. rewrite H1, H2, H3. cbv zeta. rewrite H4. cbn -[resp_int take drop Z.add].
  rewrite Hv, ltb_false by lia. rewrite ltb_false.
  - rewrite Nat2Z.id, H5, take_app_length'; [|done]. f_equal. lia.
  - apply (f_equal length) in H5. rewrite length_drop, length_app in H5. cbn in H5. lia.
Qed.

Lemma read_args argv b p r : Forall (fun a => Z.of_nat (length a) <= INT64_MAX) argv ->
  drop p b = (argv ≫= resp_put_arg) ++ r ->
  read_items (length argv) b p = Some (bulk_item <$> argv, (p + length (argv ≫= resp_put_arg))%nat).
Proof.
  intros Hf. revert p. induction Hf as [|a argv Ha Hf IH]; intros p Hd.
  - cbn. by rewrite Nat.add_0_r.
  - rewrite bind_cons in Hd |- *. rewrite <- app_assoc in Hd. cbn [length read_items].
    rewrite (next_arg b p a _ Ha Hd), (IH _ (drop_after _ _ _ _ Hd)). rewrite length_app, Nat.add_assoc. done.
Qed.

Lemma read_command argv b r : Forall (fun a => Z.of_nat (length a) <= INT64_MAX) argv ->
  Z.of_nat (length argv) <= INT64_MAX -> b = print_reply (cmd_reply argv) ++ r ->
  read_items (S (length argv)) b 0 = Some (array_item (length argv) :: (bulk_item <$> argv), length (print_reply (cmd_reply argv))).
Proof.
  intros Hf Hn ->. set (b := _ ++ r). set (num := resp_put_dec (Z.of_nat (length argv))).
  assert (Hd : drop 0 b = DYN_RESP_ARRAY :: num ++ CR :: LF :: ((argv ≫= resp_put_arg) ++ r)).
  { unfold b. rewrite cmd_print. fold num. cbn. by rewrite <- app_assoc. }
  apply next_line in Hd as (H1 & H2 & H3 & H4 & H5); [|apply put_dec_clean; lia].
  assert (Hv : resp_int num = inr (Z.of_nat (length argv))) by (apply put_dec_value; lia).
  assert (Hnext : dyn_resp_next atod b 0 = (DYN_RESP_OK, array_item (length argv), (3 + length num)%nat)).
  { clearbody num. unfold dyn_resp_next. rewrite H1, H2, H3. cbv zeta. rewrite H4. cbn -[resp_int take drop Z.add Nat.add].
    rewrite Hv, ltb_false by lia. f_equal. lia. }
  cbn [read_items]. rewrite Hnext. replace (0 + 1 + length num + 2)%nat with (3 + length num)%nat in H5 by lia.
  rewrite (read_args argv b _ r Hf H5). rewrite cmd_print, !length_app. fold num. do 2 f_equal. cbn [length]. lia.
Qed.

End ReadBack.

Module Resp_props.

(** C9. The scanner accepts exactly the reply grammar: it returns "ok" with [c]
    bytes consumed if and only if the buffer starts with [c] bytes that print a
    well-formed reply of at most 31 nested non-empty aggregates, with every
    count and length within the limit. *)
Theorem resp_scan_grammar b maxbulk c : 0 <= maxbulk < 2 ^ 63 ->
  dyn_resp_scan b maxbulk = Some (DYN_RESP_OK, c, dyn_resp_scan_init) <->
  exists v m, reply_ok (scan_max maxbulk) 31 v /\ b = print_reply v ++ m /\ c = length (print_reply v).
Proof.
  intros Hmb. split; [by apply scan_accepts|]. intros (v & m & Hv & -> & ->). by apply scan_complete.
Qed.

(** Bytes of "%1\r\n+k\r\n*2\r\n:7\r\n$-1\r\n" and a byte of the next reply. *)
Lemma resp_scan_grammar_witness : exists v m,
  reply_ok (scan_max 1024) 31 v /\
  str "%1" ++ [CR; LF] ++ str "+k" ++ [CR; LF] ++ str "*2" ++ [CR; LF] ++ str ":7" ++ [CR; LF] ++ str "$-1" ++ [CR; LF; 43]
    = print_reply v ++ m /\ 21%nat = length (print_reply v).
Proof. apply (resp_scan_grammar _ 1024 21); [lia|vm_compute; reflexivity]. Defined.

(** C30. However the bytes of a stream arrive, resuming from the state left by the
    pieces scanned so far gives what one scan of the whole buffer gives. *)
Theorem resp_scan_streaming maxbulk b st m : fed maxbulk b st ->
  dyn_resp_scan_resume st (b ++ m) maxbulk = dyn_resp_scan (b ++ m) maxbulk.
Proof. intros H. by apply fed_resume. Qed.

Lemma resp_scan_streaming_witness :
  exists st, dyn_resp_scan_resume st ((str "*1" ++ [CR; LF] ++ str "$4") ++ ([CR; LF] ++ str "PING" ++ [CR; LF])) 0
    = dyn_resp_scan ((str "*1" ++ [CR; LF] ++ str "$4") ++ ([CR; LF] ++ str "PING" ++ [CR; LF])) 0.
Proof.
  exists (mk_scan (0 :: 1 :: replicate 30 0) 1 4). apply resp_scan_streaming.
  refine (fed_more 0 [] (str "*1" ++ [CR; LF] ++ str "$4") dyn_resp_scan_init 0 _ (fed_start 0) _). vm_compute. reflexivity.
Defined.

(** A verdict other than "incomplete" is final: no bytes that arrive later
    change it or the number of bytes consumed. *)
Theorem resp_scan_final maxbulk b m rc c st : dyn_resp_scan b maxbulk = Some (rc, c, st) ->
  rc <> DYN_RESP_INCOMPLETE -> dyn_resp_scan (b ++ m) maxbulk = Some (rc, c, st).
Proof.
  intros H Hrc. unfold dyn_resp_scan. rewrite (resume_ext _ b m _ _ _ _ (scan_init_inv _) H). by rewrite decide_False.
Qed.

Lemma resp_scan_final_witness : dyn_resp_scan ((str ":12x" ++ [CR; LF]) ++ str "+OK") 0 = Some (DYN_RESP_E_SYNTAX, 0%nat, dyn_resp_scan_init).
Proof. apply resp_scan_final; [vm_compute; reflexivity|discriminate]. Defined.

(** Every scan returns, from any state a client can hold and on any bytes: it
    consumes no more than the buffer, keeps the stack pointer inside the array
    of counts, consumes nothing unless it accepts, and leaves a fresh state
    unless it asks for more input. *)
Theorem resp_scan_safe maxbulk b st m : fed maxbulk b st ->
  exists rc consumed st', dyn_resp_scan_resume st (b ++ m) maxbulk = Some (rc, consumed, st') /\
    (consumed <= length (b ++ m))%nat /\ length (want st') = 32%nat /\ -1 <= sp st' < 32 /\ (spos_ st' <= length (b ++ m))%nat /\
    (rc <> DYN_RESP_OK -> consumed = 0%nat) /\ (rc <> DYN_RESP_INCOMPLETE -> st' = dyn_resp_scan_init).
Proof.
  intros Hf%fed_inv. destruct (resume_total st (b ++ m) maxbulk) as (rc & c & st' & E & [? ? ? ?] & ? & ? & ?).
  - apply (scan_inv_len (length b)); [rewrite length_app; lia|done].
  - by exists rc, c, st'.
Qed.

Lemma resp_scan_safe_witness : exists rc consumed st',
  dyn_resp_scan_resume dyn_resp_scan_init ([] ++ str "*3") 0 = Some (rc, consumed, st') /\
    (consumed <= 2)%nat /\ length (want st') = 32%nat /\ -1 <= sp st' < 32 /\ (spos_ st' <= 2)%nat /\
    (rc <> DYN_RESP_OK -> consumed = 0%nat) /\ (rc <> DYN_RESP_INCOMPLETE -> st' = dyn_resp_scan_init).
Proof. exact (resp_scan_safe 0 [] dyn_resp_scan_init (str "*3") (fed_start 0)). Defined.

(** Commands round trip: encoding refuses a buffer that is too small and says
    how much it needs; otherwise it writes exactly that many bytes, which the
    scanner accepts whole and the reader takes apart into the array header and
    the arguments. *)
Theorem resp_command_roundtrip atod outcap argv maxbulk m :
  argv <> [] -> 0 <= maxbulk < 2 ^ 63 -> Z.of_nat (length argv) <= scan_max maxbulk / 3 ->
  Forall (fun a => Z.of_nat (length a) <= scan_max maxbulk) argv ->
  let size := dyn_resp_cmd_size argv in
  if (outcap <? size)%nat then dyn_resp_cmd_encode outcap argv = (inl DYN_RESP_E_TOOBIG, Some size)
  else exists out, dyn_resp_cmd_encode outcap argv = (inr (out, swrap 32 (Z.of_nat size)), Some size) /\
    length out = size /\
    dyn_resp_scan (out ++ m) maxbulk = Some (DYN_RESP_OK, size, dyn_resp_scan_init) /\
    read_items atod (S (length argv)) (out ++ m) 0 = Some (array_item (length argv) :: (bulk_item <$> argv), size).
Proof.
  intros Hne Hmb Hn Hf size. pose proof (scan_max_range _ Hmb) as Hm.
  assert (scan_max maxbulk / 3 <= scan_max maxbulk) by (apply Z.div_le_upper_bound; lia).
  assert (Hsize : size = length (print_reply (cmd_reply argv))).
  { apply cmd_size_len; [unfold fits; lia|]. eapply Forall_impl; [exact Hf|]. intros a Ha. unfold fits. cbn beta in Ha. lia. }
  assert (He : dyn_resp_cmd_encode outcap argv = if (outcap <? size)%nat then (inl DYN_RESP_E_TOOBIG, Some size)
    else (inr (print_reply (cmd_reply argv), swrap 32 (Z.of_nat size)), Some size)).
  { unfold dyn_resp_cmd_encode. destruct argv as [|a argv]; [done|]. cbv zeta. fold size. rewrite Hsize, cmd_print. done. }
  rewrite He. destruct (outcap <? size)%nat; [done|]. exists (print_reply (cmd_reply argv)). rewrite Hsize. split_and!; [done..| |].
  - apply scan_complete; [done|]. by apply cmd_reply_ok.
  - apply (read_command atod argv _ m); [|unfold INT64_MAX; lia|done]. eapply Forall_impl; [exact Hf|].
    intros a Ha. unfold INT64_MAX. cbn beta in Ha. lia.
Qed.

Lemma resp_command_roundtrip_witness :
  exists out, dyn_resp_cmd_encode 64 [str "GET"; str "key"] = (inr (out, swrap 32 22), Some 22%nat) /\ length out = 22%nat /\
    dyn_resp_scan (out ++ []) 0 = Some (DYN_RESP_OK, 22%nat, dyn_resp_scan_init) /\
    read_items (fun _ => None) 3 (out ++ []) 0 = Some ([array_item 2; bulk_item (str "GET"); bulk_item (str "key")], 22%nat).
Proof.
  refine (resp_command_roundtrip (fun _ => None) 64 [str "GET"; str "key"] 0 [] _ _ _ _).
  - discriminate.
  - lia.
  - vm_compute. discriminate.
  - repeat constructor; vm_compute; discriminate.
Defined.

End Resp_props.
