(* ===== verification/Xxh.v ===== *)
(** * Hash functions

    The non-cryptographic hashes of src/core/dyn-hash.c: dyn_xxh64, dyn_xxh32
    with its incremental interface, and the finaliser dyn_mix64; and ix_hash of
    src/core/dyn-ds.c, which the hash tables use.

    A context holds the [memn] live bytes of [mem] as a list. *)
From Stdlib Require Import ZArith Lia.
From stdpp Require Import base numbers list option strings.
From S2P Require Import Prelude CrcTables Crc.

(** ** Loops over fixed-size blocks *)

(** [while (end - p >= k) { ...; p += k; }]: [step] sees the block. *)
Fixpoint blocks {A} (k : nat) (step : A -> bytes -> A) (fuel : nat) (a : A) (d : bytes) : A * bytes :=
  match fuel with
  | O => (a, d)
  | S fuel => if (k <=? length d)%nat then blocks k step fuel (step a (take k d)) (drop k d) else (a, d)
  end.
Definition while_blocks {A} (k : nat) (step : A -> bytes -> A) (a : A) (d : bytes) : A * bytes :=
  blocks k step (length d) a d.

(** ** dyn_xxh64 *)

Definition XXH_P1 : Z := 0x9E3779B185EBCA87.
Definition XXH_P2 : Z := 0xC2B2AE3D27D4EB4F.
Definition XXH_P3 : Z := 0x165667B19E3779F9.
Definition XXH_P4 : Z := 0x85EBCA77C2B2AE63.
Definition XXH_P5 : Z := 0x27D4EB2F165667C5.

Definition xxh_rotl (x r : Z) : Z := u64 (x << r) .| (x >> (64 - r)).
Definition xxh_read64 (p : bytes) : Z := load_le (take 8 p).
Definition xxh_read32 (p : bytes) : Z := load_le (take 4 p).

Definition xxh_round (acc input : Z) : Z :=
  u64 (xxh_rotl (u64 (acc + u64 (input * XXH_P2))) 31 * XXH_P1).
Definition xxh_merge (acc val : Z) : Z :=
  u64 ((acc ^^ xxh_round 0 val) * XXH_P1 + XXH_P4).

(** One turn of the 32-byte loop on the four lanes. *)
Definition xxh64_stripe (v : Z * Z * Z * Z) (p : bytes) : Z * Z * Z * Z :=
  let '(v1, v2, v3, v4) := v in
  (xxh_round v1 (xxh_read64 p), xxh_round v2 (xxh_read64 (drop 8 p)),
   xxh_round v3 (xxh_read64 (drop 16 p)), xxh_round v4 (xxh_read64 (drop 24 p))).

Definition xxh64_word (h : Z) (p : bytes) : Z :=
  u64 (xxh_rotl (h ^^ xxh_round 0 (xxh_read64 p)) 27 * XXH_P1 + XXH_P4).
Definition xxh64_half (h : Z) (p : bytes) : Z :=
  u64 (xxh_rotl (h ^^ u64 (xxh_read32 p * XXH_P1)) 23 * XXH_P2 + XXH_P3).
Definition xxh64_byte (h b : Z) : Z := u64 (xxh_rotl (h ^^ u64 (b * XXH_P5)) 11 * XXH_P1).
Definition xxh64_final (h : Z) : Z :=
  let h := h ^^ (h >> 33) in
  let h := u64 (h * XXH_P2) in
  let h := h ^^ (h >> 29) in
  let h := u64 (h * XXH_P3) in
  h ^^ (h >> 32).

Definition dyn_xxh64 (data : bytes) (seed : Z) : Z :=
  let len := length data in
  let '(h, p) :=
    if (32 <=? len)%nat then
      let '(v1, v2, v3, v4, p) := while_blocks 32 xxh64_stripe
        (u64 (seed + XXH_P1 + XXH_P2), u64 (seed + XXH_P2), seed, u64 (seed - XXH_P1)) data in
      let h := u64 (xxh_rotl v1 1 + xxh_rotl v2 7 + xxh_rotl v3 12 + xxh_rotl v4 18) in
      (xxh_merge (xxh_merge (xxh_merge (xxh_merge h v1) v2) v3) v4, p)
    else (u64 (seed + XXH_P5), data) in
  let h := u64 (h + Z.of_nat len) in
  let '(h, p) := while_blocks 8 xxh64_word h p in
  let '(h, p) := if (4 <=? length p)%nat then (xxh64_half h (take 4 p), drop 4 p) else (h, p) in
  xxh64_final (fold_left xxh64_byte p h).

(** ** dyn_xxh32 *)

Definition XXH32_P1 : Z := 2654435761.
Definition XXH32_P2 : Z := 2246822519.
Definition XXH32_P3 : Z := 3266489917.
Definition XXH32_P4 : Z := 668265263.
Definition XXH32_P5 : Z := 374761393.

Definition xxh32_rotl (x r : Z) : Z := u32 (x << r) .| (x >> (32 - r)).
Definition xxh32_round (acc input : Z) : Z :=
  u32 (xxh32_rotl (u32 (acc + u32 (input * XXH32_P2))) 13 * XXH32_P1).

Definition xxh32_stripe (v : Z * Z * Z * Z) (p : bytes) : Z * Z * Z * Z :=
  let '(v1, v2, v3, v4) := v in
  (xxh32_round v1 (xxh_read32 p), xxh32_round v2 (xxh_read32 (drop 4 p)),
   xxh32_round v3 (xxh_read32 (drop 8 p)), xxh32_round v4 (xxh_read32 (drop 12 p))).

Definition xxh32_lanes (seed : Z) : Z * Z * Z * Z :=
  (u32 (seed + XXH32_P1 + XXH32_P2), u32 (seed + XXH32_P2), seed, u32 (seed - XXH32_P1)).
Definition xxh32_join (v : Z * Z * Z * Z) : Z :=
  let '(v1, v2, v3, v4) := v in
  u32 (xxh32_rotl v1 1 + xxh32_rotl v2 7 + xxh32_rotl v3 12 + xxh32_rotl v4 18).

Definition xxh32_word (h : Z) (p : bytes) : Z :=
  u32 (xxh32_rotl (u32 (h + u32 (xxh_read32 p * XXH32_P3))) 17 * XXH32_P4).
Definition xxh32_byte (h b : Z) : Z := u32 (xxh32_rotl (u32 (h + u32 (b * XXH32_P5))) 11 * XXH32_P1).
(** What both interfaces do with the bytes after the last stripe. *)
Definition xxh32_tail (h : Z) (p : bytes) : Z :=
  let '(h, p) := while_blocks 4 xxh32_word h p in
  let h := fold_left xxh32_byte p h in
  let h := h ^^ (h >> 15) in
  let h := u32 (h * XXH32_P2) in
  let h := h ^^ (h >> 13) in
  let h := u32 (h * XXH32_P3) in
  h ^^ (h >> 16).

Definition dyn_xxh32 (data : bytes) (seed : Z) : Z :=
  let len := length data in
  let '(h, p) :=
    if (16 <=? len)%nat then
      let '(v, p) := while_blocks 16 xxh32_stripe (xxh32_lanes seed) data in (xxh32_join v, p)
    else (u32 (seed + XXH32_P5), data) in
  xxh32_tail (u32 (h + u32 (Z.of_nat len))) p.

Record dyn_xxh32_ctx_t := mk_xxh32 { lanes : Z * Z * Z * Z; total : Z; xmem : bytes }.

Definition dyn_xxh32_init (seed : Z) : dyn_xxh32_ctx_t := mk_xxh32 (xxh32_lanes seed) 0 [].

(** The loop over whole stripes, and what is kept for the next call. *)
Definition xxh32_absorb (total : Z) (v : Z * Z * Z * Z) (p : bytes) : dyn_xxh32_ctx_t :=
  let '(v, p) := while_blocks 16 xxh32_stripe v p in mk_xxh32 v total p.

Definition dyn_xxh32_update (c : dyn_xxh32_ctx_t) (data : bytes) : dyn_xxh32_ctx_t :=
  let total := u64 (total c + Z.of_nat (length data)) in
  match xmem c with
  | [] => xxh32_absorb total (lanes c) data
  | mem =>
      let fill := if (16 - length mem <? length data)%nat then (16 - length mem)%nat else length data in
      let mem := mem ++ take fill data in
      let p := drop fill data in
      if (length mem <? 16)%nat then mk_xxh32 (lanes c) total mem
      else xxh32_absorb total (xxh32_stripe (lanes c) mem) p
  end.

Definition dyn_xxh32_digest (c : dyn_xxh32_ctx_t) : Z :=
  let h := if 16 <=? total c then xxh32_join (lanes c) else let '(_, _, v3, _) := lanes c in u32 (v3 + XXH32_P5) in
  xxh32_tail (u32 (h + u32 (total c))) (xmem c).

(** ** dyn_mix64 *)

Definition dyn_mix64 (x : Z) : Z :=
  let x := x ^^ (x >> 30) in
  let x := u64 (x * 0xBF58476D1CE4E5B9) in
  let x := x ^^ (x >> 27) in
  let x := u64 (x * 0x94D049BB133111EB) in
  x ^^ (x >> 31).

(** ** The hash of the tables *)

Definition ix_mix (a b : Z) : Z :=
  let r := a * b in u64 r ^^ u64 (r >> 64).

(** [seed0] and [seed1] are the process-wide seeds. *)
Definition ix_hash (seed0 seed1 : Z) (k : bytes) : Z :=
  let n := length k in
  if (16 <=? n)%nat then
    let h := dyn_xxh64 k seed1 in if h =? 0 then 1 else h
  else
    let '(a, b) :=
      if (8 <=? n)%nat then (load_le (take 8 k), load_le (drop (n - 8) k))
      else if (4 <=? n)%nat then (load_le (take 4 k), load_le (drop (n - 4) k))
      else if (0 <? n)%nat then ((nth 0 k 0 << 16) .| (nth (n / 2) k 0 << 8) .| nth (n - 1) k 0, 0)
      else (0, 0) in
    let h := ix_mix (a ^^ seed0) (b ^^ seed1 ^^ Z.of_nat n) in
    if h =? 0 then 1 else h.

(** Reference values of the algorithm's specification. *)
Example xxh64_empty : dyn_xxh64 [] 0 = 0xEF46DB3751D8E999. Proof. vm_compute. reflexivity. Qed.
Example xxh64_abc : dyn_xxh64 (str "abc") 0 = 0x44BC2CF5AD770999. Proof. vm_compute. reflexivity. Qed.
Example xxh32_empty : dyn_xxh32 [] 0 = 0x02CC5D05. Proof. vm_compute. reflexivity. Qed.
Example xxh32_abc : dyn_xxh32 (str "abc") 0 = 0x32D153FF. Proof. vm_compute. reflexivity. Qed.
Example xxh64_long : dyn_xxh64 (str "Nobody inspects the spammish repetition") 0 = 0xFBCEA83C8A378BF1. Proof. vm_compute. reflexivity. Qed.
Example xxh32_long : dyn_xxh32 (str "Nobody inspects the spammish repetition") 0 = 0xE2293B2F. Proof. vm_compute. reflexivity. Qed.

(** ** Facts about the block loop *)

Section Blocks.
Context {A : Type} (k : nat) (step : A -> bytes -> A) (Hk : (0 < k)%nat).

Lemma blocks_fuel fuel fuel' a d : (length d <= fuel)%nat -> (length d <= fuel')%nat ->
  blocks k step fuel a d = blocks k step fuel' a d.
Proof.
  revert fuel' a d. induction fuel as [|fuel IH]; intros fuel' a d H H'; cbn [blocks].
  - destruct fuel' as [|fuel']; cbn [blocks]; [done|]. by rewrite (proj2 (Nat.leb_gt _ _)) by lia.
  - destruct fuel' as [|fuel']; cbn [blocks]; [by rewrite (proj2 (Nat.leb_gt _ _)) by lia|].
    destruct (Nat.leb_spec k (length d)); [|done]. apply IH; rewrite length_drop; lia.
Qed.

Lemma while_blocks_short a d : (length d < k)%nat -> while_blocks k step a d = (a, d).
Proof.
  intros H. unfold while_blocks. destruct (length d) eqn:E; cbn [blocks]; [done|]. by rewrite E, (proj2 (Nat.leb_gt _ _)) by lia.
Qed.

Lemma while_blocks_turn a d : (k <= length d)%nat ->
  while_blocks k step a d = while_blocks k step (step a (take k d)) (drop k d).
Proof.
  intros H. unfold while_blocks. destruct (length d) as [|n] eqn:E; [lia|]. cbn [blocks].
  rewrite E, (proj2 (Nat.leb_le _ _)) by lia. apply blocks_fuel; rewrite length_drop; lia.
Qed.

(** Input that arrives later is read after what was left over. *)
Lemma while_blocks_app a d m : let '(a', r) := while_blocks k step a d in
  (length r < k)%nat /\ while_blocks k step a (d ++ m) = while_blocks k step a' (r ++ m).
Proof.
  remember (length d) as n eqn:En. revert a d En. induction n as [n IH] using lt_wf_ind. intros a d ->.
  destruct (le_lt_dec k (length d)) as [H|H].
  - rewrite while_blocks_turn by done. specialize (IH (length (drop k d)) ltac:(rewrite length_drop; lia) (step a (take k d)) _ eq_refl).
    destruct (while_blocks _ _ _ (drop k d)) as [a' r]. destruct IH as [Hr <-]. split; [done|].
    rewrite (while_blocks_turn a) by (rewrite length_app; lia). by rewrite take_app_le, drop_app_le by done.
  - by rewrite (while_blocks_short a d) by done.
Qed.

End Blocks.

(** ** Incremental xxh32 *)

(** The context after the bytes [d]. *)
Definition absorbed (seed : Z) (c : dyn_xxh32_ctx_t) (d : bytes) : Prop :=
  while_blocks 16 xxh32_stripe (xxh32_lanes seed) d = (lanes c, xmem c) /\ total c = u64 (Z.of_nat (length d)).

Lemma absorb_spec seed t d v y : t = u64 (Z.of_nat (length d)) ->
  while_blocks 16 xxh32_stripe (xxh32_lanes seed) d = while_blocks 16 xxh32_stripe v y ->
  absorbed seed (xxh32_absorb t v y) d.
Proof.
  intros -> E. unfold absorbed, xxh32_absorb. rewrite E. by destruct (while_blocks 16 xxh32_stripe v y).
Qed.

Lemma update_absorbed seed c d x : absorbed seed c d -> absorbed seed (dyn_xxh32_update c x) (d ++ x).
Proof.
  intros [Hw Ht]. destruct c as [v t r]. cbn [lanes xmem total] in *.
  assert (Happ : (length r < 16)%nat /\
    forall m, while_blocks 16 xxh32_stripe (xxh32_lanes seed) (d ++ m) = while_blocks 16 xxh32_stripe v (r ++ m)).
  { pose proof (fun m => while_blocks_app 16 xxh32_stripe ltac:(lia) (xxh32_lanes seed) d m) as H. rewrite Hw in H.
    split; [apply (H [])|apply H]. }
  destruct Happ as [Hr Happ].
  assert (Ht' : u64 (t + Z.of_nat (length x)) = u64 (Z.of_nat (length (d ++ x)))).
  { rewrite Ht, wrap_add_l, length_app, Nat2Z.inj_add by lia. done. }
  unfold dyn_xxh32_update. cbn [lanes xmem total]. destruct r as [|b r].
  { apply absorb_spec; [done|apply Happ]. }
  set (mem := b :: r) in *. set (fill := if (16 - length mem <? length x)%nat then _ else _).
  assert (Hf : fill = Nat.min (16 - length mem) (length x)) by (unfold fill; case_ifs; lia). clearbody fill. subst fill.
  destruct (Nat.ltb_spec (length (mem ++ take (Nat.min (16 - length mem) (length x)) x)) 16) as [Hs|Hs];
    rewrite length_app, length_take in Hs.
  - rewrite take_ge by lia. split; cbn [lanes xmem total]; [|done]. rewrite Happ.
    apply while_blocks_short; [lia|]. rewrite length_app. lia.
  - replace (Nat.min (16 - length mem) (length x)) with (16 - length mem)%nat by lia.
    apply absorb_spec; [done|]. rewrite Happ.
    rewrite while_blocks_turn by (rewrite ?length_app; lia).
    by rewrite take_app_ge, drop_app_ge by lia.
Qed.

Lemma updates_absorbed seed chunks : absorbed seed (fold_left dyn_xxh32_update chunks (dyn_xxh32_init seed)) (concat chunks).
Proof.
  enough (forall c d, absorbed seed c d -> absorbed seed (fold_left dyn_xxh32_update chunks c) (d ++ concat chunks)) as H.
  { by apply (H _ []). }
  induction chunks as [|x l IH]; intros c d H; cbn [fold_left concat]; [by rewrite app_nil_r|].
  rewrite app_assoc. by apply IH, update_absorbed.
Qed.

Lemma digest_absorbed seed c d : absorbed seed c d -> Z.of_nat (length d) < 2 ^ 64 ->
  dyn_xxh32_digest c = dyn_xxh32 d seed.
Proof.
  intros [Hw Ht] Hd. unfold dyn_xxh32_digest, dyn_xxh32. rewrite Ht, (wrap_id 64) by (unfold fits; lia).
  destruct (Nat.leb_spec 16 (length d)) as [H|H].
  - rewrite Hw, (proj2 (Z.leb_le _ _)) by lia. done.
  - rewrite while_blocks_short in Hw by lia. injection Hw as <- <-. by rewrite (proj2 (Z.leb_gt _ _)) by lia.
Qed.

(** ** Injectivity of the finaliser *)

Lemma xorshift_inj s x y : 0 < s -> 0 <= x -> 0 <= y -> x ^^ (x >> s) = y ^^ (y >> s) -> x = y.
Proof.
  intros Hs Hx Hy E. apply Z.lxor_eq.
  assert (H : (x ^^ y) >> s = x ^^ y).
  { rewrite Z.shiftr_lxor. apply Z.bits_inj'. intros i Hi. apply (f_equal (fun z => Z.testbit z i)) in E.
    rewrite !Z.lxor_spec in *. destruct (Z.testbit x i), (Z.testbit y i), (Z.testbit (x >> s) i), (Z.testbit (y >> s) i); done. }
  assert (Hz : 0 <= x ^^ y) by (apply Z.lxor_nonneg; lia). rewrite Z.shiftr_div_pow2 in H by lia.
  assert (2 <= 2 ^ s) by (change 2 with (2 ^ 1) at 1; apply Z.pow_le_mono_r; lia).
  destruct (Z.eq_dec (x ^^ y) 0) as [|Hne]; [done|]. pose proof (Z.div_lt (x ^^ y) (2 ^ s)). lia.
Qed.

Lemma mul_odd_inj c c' x y : u64 (c * c') = 1 -> fits 64 x -> fits 64 y -> u64 (x * c) = u64 (y * c) -> x = y.
Proof.
  intros Hc Hx Hy E. assert (H : forall z, fits 64 z -> u64 (u64 (z * c) * c') = z).
  { intros z Hz. rewrite wrap_mul_l, <- Z.mul_assoc, <- wrap_mul_r, Hc, Z.mul_1_r by lia. by apply wrap_id. }
  rewrite <- (H x Hx), <- (H y Hy). by rewrite E.
Qed.

Lemma xorshift_fits s x : 0 <= s -> fits 64 x -> fits 64 (x ^^ (x >> s)).
Proof. intros. apply lxor_fits; [lia|done|]. by apply shiftr_fits_same. Qed.

(** ** The range of the table's hash *)

Lemma xxh64_fits k seed : fits 64 (dyn_xxh64 k seed).
Proof.
  unfold dyn_xxh64. destruct (if _ : bool then _ else _) as [h p]. destruct (while_blocks _ _ _ p) as [h' p'].
  destruct (if _ : bool then _ else _) as [h2 p2]. unfold xxh64_final. apply xorshift_fits; [lia|]. apply wrap_fits. lia.
Qed.

Lemma ix_mix_fits a b : fits 64 (ix_mix a b).
Proof. apply lxor_fits; [lia|apply wrap_fits; lia..]. Qed.

Lemma ix_hash_range s0 s1 k : 0 < ix_hash s0 s1 k < 2 ^ 64.
Proof.
  assert (H : forall h, fits 64 h -> 0 < (if h =? 0 then 1 else h) < 2 ^ 64) by (unfold fits; intros; case_ifs; lia).
  unfold ix_hash. destruct (16 <=? length k)%nat; [apply H, xxh64_fits|].
  destruct (if _ : bool then _ else _) as [a b]. apply H, ix_mix_fits.
Qed.

Module Xxh_props.

(** The incremental xxh32 equals the one-shot function: however the data is
    cut into updates, empty ones included, the digest is dyn_xxh32 of the
    whole. *)
Theorem xxh32_incremental seed chunks : Z.of_nat (length (concat chunks)) < 2 ^ 64 ->
  dyn_xxh32_digest (fold_left dyn_xxh32_update chunks (dyn_xxh32_init seed)) = dyn_xxh32 (concat chunks) seed.
Proof. intros H. apply digest_absorbed; [apply updates_absorbed|exact H]. Qed.

Lemma xxh32_incremental_witness :
  dyn_xxh32_digest (fold_left dyn_xxh32_update [str "Nobody"; []; str " inspects the spammish"; str " repetition"] (dyn_xxh32_init 0))
    = 0xE2293B2F.
Proof.
  rewrite (xxh32_incremental 0 [str "Nobody"; []; str " inspects the spammish"; str " repetition"]); [|vm_compute; reflexivity].
  vm_compute. reflexivity.
Defined.

(** dyn_mix64 maps different 64-bit words to different 64-bit words. *)
Theorem mix64_injective x y : fits 64 x -> fits 64 y ->
  fits 64 (dyn_mix64 x) /\ (dyn_mix64 x = dyn_mix64 y -> x = y).
Proof.
  intros Hx Hy. unfold dyn_mix64. split; [apply xorshift_fits; [lia|]; apply wrap_fits; lia|]. intros E.
  apply xorshift_inj in E; [|lia|apply wrap_fits; lia..].
  apply (mul_odd_inj _ 0x319642b2d24d8ec3) in E; [|by vm_compute|apply xorshift_fits; [lia|apply wrap_fits; lia]..].
  apply xorshift_inj in E; [|lia|apply wrap_fits; lia..].
  apply (mul_odd_inj _ 0x96de1b173f119089) in E; [|by vm_compute|by apply xorshift_fits; [lia|]..].
  apply xorshift_inj in E; [done|lia|apply Hx|apply Hy].
Qed.

Lemma mix64_injective_witness : fits 64 (dyn_mix64 1) /\ (dyn_mix64 1 = dyn_mix64 2 -> 1 = 2).
Proof. apply mix64_injective; by vm_compute. Defined.

End Xxh_props.
