(* ===== verification/DsBase.v ===== *)
(** * Arrays of the containers

    What the containers of src/core/dyn-ds.c share: the growth of their arrays
    (ds_reserve), owned copies of keys (ds_key) and saturating addition.

    [mem] answers the calls to the allocator still to come, one boolean each;
    when it is used up they succeed.  A loop that does not end in C runs out of
    fuel here, and the result is the outer [None]. *)
From Stdlib Require Import ZArith Lia.
From stdpp Require Import base numbers list option.
From S2P Require Import Prelude.

Definition DS_MIN_CAP : Z := 8.

(** ** Growing arrays *)

Definition u64_sat_add (a b : Z) : Z :=
  let s := u64 (a + b) in if s <? a then UINT64_MAX else s.

(** [while (nc < need)]: the inner [None] is the return of -1. *)
Fixpoint ds_reserve_loop (fuel : nat) (nc need : Z) : option (option Z) :=
  match fuel with
  | O => None
  | S fuel =>
      if nc <? need then
        if 0x40000000 <? nc then Some None else ds_reserve_loop fuel (u32 (nc * 2)) need
      else Some (Some nc)
  end.

(** Success, the capacity, and the answers left. *)
Definition ds_reserve (mem : list bool) (cap need esz : Z) : option (bool * Z * list bool) :=
  if need <=? cap then Some (true, cap, mem) else
  if SIZE_MAX / esz <? need then Some (false, cap, mem) else
  let nc := if negb (cap =? 0) then u32 (cap * 2) else DS_MIN_CAP in
  match ds_reserve_loop 33 nc need with
  | None => None
  | Some None => Some (false, cap, mem)
  | Some (Some nc) => if hd true mem then Some (true, nc, tl mem) else Some (false, cap, tl mem)
  end.

Record ds_key := mk_key { kp : bytes; kh : Z }.

(** The key's copy, or [None] when malloc fails; the answers left. *)
Definition key_init (mem : list bool) (k : bytes) (h : Z) : option ds_key * list bool :=
  (if hd true mem then Some (mk_key k h) else None, tl mem).

(** ** Facts *)

Lemma u64_sat_add_min a b : fits 64 a -> fits 64 b -> u64_sat_add a b = Z.min (a + b) UINT64_MAX.
Proof.
  unfold fits, u64_sat_add, UINT64_MAX. intros Ha Hb. destruct (Z_lt_le_dec (a + b) (2 ^ 64)).
  - rewrite wrap_id by (unfold fits; lia). rewrite ltb_false by lia. lia.
  - assert (u64 (a + b) = a + b - 2 ^ 64) as ->.
    { unfold wrap. rewrite <- (Z_mod_plus_full (a + b) (-1)). apply Z.mod_small. lia. }
    rewrite ltb_true by lia. lia.
Qed.

(** Capacities: none, or eight doubled some times. *)
Definition cap_ok (cap : Z) : Prop := cap = 0 \/ exists j, (j <= 26)%nat /\ cap = 8 * 2 ^ Z.of_nat j.

Lemma cap_ok_bound cap : cap_ok cap -> 0 <= cap <= 2 ^ 29.
Proof.
  intros [->|(j & Hj & ->)]; [lia|]. assert (2 ^ Z.of_nat j <= 2 ^ 26) by (apply Z.pow_le_mono_r; lia).
  assert (0 < 2 ^ Z.of_nat j) by (apply Z.pow_pos_nonneg; lia). lia.
Qed.

(** One more record than fit now: the array doubles. *)
Lemma reserve_spec mem cap len esz : cap_ok cap -> Z.of_nat len <= cap -> Z.of_nat len <= 375809640 -> 0 < esz <= 4096 ->
  exists ok cap' mem', ds_reserve mem cap (u32 (Z.of_nat len + 1)) esz = Some (ok, cap', mem') /\ cap_ok cap' /\
    (mem' = mem \/ mem' = tl mem) /\
    if ok then Z.of_nat len + 1 <= cap' else cap' = cap /\ hd true mem = false.
Proof.
  intros Hc Hl Hmax Hesz. pose proof (cap_ok_bound cap Hc). unfold ds_reserve. rewrite wrap_id by (unfold fits; lia).
  destruct (Z.leb_spec (Z.of_nat len + 1) cap).
  { exists true, cap, mem. split_and!; auto. }
  assert (2 ^ 32 <= SIZE_MAX / esz) by (apply Z.div_le_lower_bound; unfold SIZE_MAX, UINT64_MAX; lia).
  rewrite ltb_false by lia.
  assert (Hnc : exists nc, (if negb (cap =? 0) then u32 (cap * 2) else DS_MIN_CAP) = nc /\ cap_ok nc /\ Z.of_nat len + 1 <= nc).
  { destruct Hc as [->|(j & Hj & ->)]; cbn [negb Z.eqb].
    - exists 8. split_and!; [done| |lia]. right. exists 0%nat. split; [lia|done].
    - assert (0 < 2 ^ Z.of_nat j) by (apply Z.pow_pos_nonneg; lia). rewrite (proj2 (Z.eqb_neq _ _)) by lia. cbn [negb].
      rewrite wrap_id by (unfold fits; lia). eexists. split_and!; [done| |lia]. right. exists (S j). split.
      + destruct (decide (j = 26%nat)) as [->|]; [|lia]. change (2 ^ Z.of_nat 26) with (2 ^ 26) in *. lia.
      + rewrite Nat2Z.inj_succ, Z.pow_succ_r by lia. lia. }
  destruct Hnc as (nc & -> & Hok & Hge). cbv zeta. cbn [ds_reserve_loop]. rewrite ltb_false by lia.
  destruct (hd true mem) eqn:E; [exists true, nc, (tl mem)|exists false, cap, (tl mem)]; split_and!; auto.
Qed.

Lemma hd_false l : hd true l = false -> false ∈ l.
Proof. destruct l as [|b l]; cbn; [done|]. intros ->. left. Qed.

Lemma tl_elem (l l' : list bool) b : (l' = l \/ l' = tl l) -> b ∈ l' -> b ∈ l.
Proof. intros [->| ->]; [done|]. destruct l; [done|]. by right. Qed.

(** ** Loops of ds_reserve *)

Lemma reserve_loop_total fuel nc need : 0 < nc <= 2 ^ 31 -> need <= 2 ^ 32 -> nc * 2 ^ Z.of_nat fuel >= 2 ^ 32 ->
  exists r, ds_reserve_loop fuel nc need = Some r /\ (forall c, r = Some c -> need <= c <= 2 ^ 31).
Proof.
  revert nc. induction fuel as [|fuel IH]; intros nc Hnc Hneed Hf; cbn [ds_reserve_loop]; [cbn in Hf; lia|].
  destruct (Z.ltb_spec nc need).
  - destruct (Z.ltb_spec 0x40000000 nc); [by exists None|]. rewrite wrap_id by (unfold fits; lia). apply IH; [lia..|].
    rewrite Nat2Z.inj_succ, Z.pow_succ_r in Hf by lia. lia.
  - exists (Some nc). split; [done|]. intros c [= <-]. lia.
Qed.

Lemma reserve_loop_stuck fuel need : 0 < need -> ds_reserve_loop fuel 0 need = None.
Proof.
  intros Hn. induction fuel as [|fuel IH]; cbn [ds_reserve_loop]; [done|]. rewrite ltb_true by done. exact IH.
Qed.

Module DsBase_props.

(** ds_reserve ends for every capacity an array can have, and then the capacity
    it reports has room, except when an array of 2^31 elements has to grow: the
    doubled capacity wraps to zero and the loop never ends, however many turns
    it is given. *)
Theorem ds_reserve_terminates l cap need esz : cap = 0 \/ (exists j, (j <= 28)%nat /\ cap = 8 * 2 ^ Z.of_nat j) ->
  fits 32 need -> 0 < esz <= 4096 ->
  if (need <=? cap) || (cap <? 2 ^ 31)
  then exists ok cap' l', ds_reserve l cap need esz = Some (ok, cap', l') /\ (ok = true -> need <= cap' <= 2 ^ 31) /\ (ok = false -> cap' = cap)
  else ds_reserve l cap need esz = None /\ forall fuel, ds_reserve_loop fuel (u32 (cap * 2)) need = None.
Proof.
  unfold fits. intros Hc Hn Hesz.
  assert (Hb : cap = 0 \/ 8 <= cap <= 2 ^ 31).
  { destruct Hc as [->|(j & Hj & ->)]; [by left|right]. assert (2 ^ Z.of_nat j <= 2 ^ 28) by (apply Z.pow_le_mono_r; lia).
    assert (0 < 2 ^ Z.of_nat j) by (apply Z.pow_pos_nonneg; lia). lia. }
  unfold ds_reserve. destruct (Z.leb_spec need cap); cbn [orb].
  { exists true, cap, l. split_and!; try done. intros. lia. }
  assert (2 ^ 32 <= SIZE_MAX / esz) by (apply Z.div_le_lower_bound; unfold SIZE_MAX, UINT64_MAX; lia). rewrite (ltb_false _ need) by lia.
  destruct (Z.ltb_spec cap (2 ^ 31)).
  - set (nc := if negb (cap =? 0) then _ else _). assert (Hnc : 8 <= nc <= 2 ^ 32 - 2).
    { unfold nc. destruct (Z.eqb_spec cap 0); cbn [negb]; [unfold DS_MIN_CAP; lia|]. rewrite wrap_id; unfold fits; lia. }
    assert (Hl : exists r, ds_reserve_loop 33 nc need = Some r /\ (forall c, r = Some c -> need <= c /\ (c <= 2 ^ 31 \/ c = nc))).
    { destruct (Z_le_gt_dec nc (2 ^ 31)).
      - destruct (reserve_loop_total 33 nc need) as (r & E & Hr); [lia..| |].
        + change (2 ^ Z.of_nat 33) with (2 ^ 33). lia.
        + exists r. split; [done|]. intros c Ec. specialize (Hr c Ec). lia.
      - cbn [ds_reserve_loop]. destruct (Z.ltb_spec nc need); [rewrite ltb_true by lia; by exists None|].
        exists (Some nc). split; [done|]. intros c [= <-]. auto. }
    destruct Hl as (r & -> & Hr). destruct r as [c|]; [|exists false, cap, l; done].
    destruct (Hr c eq_refl) as [Hge Hle]. destruct (hd true l); [exists true, c, (tl l)|exists false, cap, (tl l)]; split_and!; try done.
    intros _. split; [done|]. destruct Hle as [|Ec]; [done|]. subst c. unfold nc in *. destruct Hc as [->|(j & Hj & Ej)]; [cbn; unfold DS_MIN_CAP; lia|].
    rewrite (proj2 (Z.eqb_neq _ _)) in * by lia. cbn [negb] in *. rewrite wrap_id by (unfold fits; lia).
    destruct (decide (j = 28%nat)) as [->|]; [change (2 ^ Z.of_nat 28) with (2 ^ 28) in Ej; lia|].
    assert (2 ^ Z.of_nat j <= 2 ^ 27) by (apply Z.pow_le_mono_r; lia). lia.
  - assert (cap = 2 ^ 31) as -> by lia. change (u32 (2 ^ 31 * 2)) with 0. cbn [negb Z.eqb]. change (2 ^ 31 =? 0) with false. cbn [negb].
    rewrite reserve_loop_stuck by lia. split; [done|]. intros fuel. apply reserve_loop_stuck. lia.
Qed.

Lemma ds_reserve_terminates_witness : ds_reserve [] (2 ^ 31) (2 ^ 31 + 1) 24 = None.
Proof.
  refine (proj1 (ds_reserve_terminates [] (2 ^ 31) (2 ^ 31 + 1) 24 _ _ _)).
  - right. exists 28%nat. split; [lia|reflexivity].
  - by vm_compute.
  - lia.
Defined.

End DsBase_props.
