(* ===== verification/Ix.v ===== *)
(** * The key index of the containers

    dyn_ix of src/core/dyn-ds.c: an open-addressing table of [cap] slots with
    linear probing and deletion by backward shift, which maps a key to the
    index of its record in the container's array.  A slot whose hash is zero is
    empty.  [used] counts the others.

    A position is a [nat] below [cap], the length of the slot array; [None] as
    a position is UINT32_MAX.  A search or a shift that meets no empty slot does
    not end in C; here it runs out of fuel and the result is the outer [None].
    A key is compared by its bytes, and the pointers a slot holds stand for
    them.  [mem] answers the calls to the allocator still to come, one boolean
    each; when it is used up they succeed. *)
From Stdlib Require Import ZArith Lia Sorted.
From stdpp Require Import base numbers list option gmap.
From S2P Require Import Prelude CrcTables Crc Xxh DsBase.

(** ** Data *)

Record dyn_ixslot := mk_slot { sh : Z; skey : bytes; sidx : nat }.
Record dyn_ix := mk_ix { slot : list dyn_ixslot; used : Z }.

Definition slot0 : dyn_ixslot := mk_slot 0 [] 0.
Definition sget (sl : list dyn_ixslot) (i : nat) : dyn_ixslot := nth i sl slot0.
Definition cap (ix : dyn_ix) : Z := Z.of_nat (length (slot ix)).

(** [slot[i].h = 0] leaves the other fields. *)
Definition slot_clear (s : dyn_ixslot) : dyn_ixslot := mk_slot 0 (skey s) (sidx s).
Definition slot_set_idx (s : dyn_ixslot) (idx : nat) : dyn_ixslot := mk_slot (sh s) (skey s) idx.

(** ** Operations *)

Definition ix_free : dyn_ix := mk_ix [] 0.

(** [(uint32_t)h & mask] and [(i + 1) & mask]. *)
Definition ix_home (mask h : Z) : nat := Z.to_nat (u32 h & mask).
Definition ix_next (mask : Z) (i : nat) : nat := Z.to_nat (u32 (Z.of_nat i + 1) & mask).

Fixpoint ix_probe (fuel : nat) (sl : list dyn_ixslot) (mask : Z) (i : nat) : option nat :=
  match fuel with
  | O => None
  | S fuel => if sh (sget sl i) =? 0 then Some i else ix_probe fuel sl mask (ix_next mask i)
  end.

Definition ix_put_raw (sl : list dyn_ixslot) (mask h : Z) (k : bytes) (idx : nat) : option (list dyn_ixslot) :=
  match ix_probe (length sl) sl mask (ix_home mask h) with
  | Some i => Some (<[i := mk_slot h k idx]> sl)
  | None => None
  end.

(** The loop of ix_grow over the old slots. *)
Fixpoint ix_rehash (old : list dyn_ixslot) (ns : list dyn_ixslot) (mask : Z) : option (list dyn_ixslot) :=
  match old with
  | [] => Some ns
  | s :: old =>
      if sh s =? 0 then ix_rehash old ns mask
      else match ix_put_raw ns mask (sh s) (skey s) (sidx s) with
           | Some ns => ix_rehash old ns mask
           | None => None
           end
  end.

(** Result, whether it succeeded, and the answers left. *)
Definition ix_grow (mem : list bool) (ix : dyn_ix) : option (bool * dyn_ix * list bool) :=
  let nc := if negb (cap ix =? 0) then u32 (cap ix * 2) else DS_MIN_CAP in
  if 0x40000000 <? cap ix then Some (false, ix, mem) else
  if negb (hd true mem) then Some (false, ix, tl mem) else
  match ix_rehash (slot ix) (replicate (Z.to_nat nc) slot0) (nc - 1) with
  | Some ns => Some (true, mk_ix ns (used ix), tl mem)
  | None => None
  end.

Fixpoint ix_find_loop (fuel : nat) (sl : list dyn_ixslot) (mask h : Z) (k : bytes) (i : nat) : option (option nat) :=
  match fuel with
  | O => None
  | S fuel =>
      if sh (sget sl i) =? 0 then Some None
      else if (sh (sget sl i) =? h) && bool_decide (skey (sget sl i) = k) then Some (Some i)
      else ix_find_loop fuel sl mask h k (ix_next mask i)
  end.

Definition ix_find (ix : dyn_ix) (h : Z) (k : bytes) : option (option nat) :=
  if cap ix =? 0 then Some None
  else ix_find_loop (length (slot ix)) (slot ix) (cap ix - 1) h k (ix_home (cap ix - 1) h).

Definition ix_reserve (mem : list bool) (ix : dyn_ix) : option (bool * dyn_ix * list bool) :=
  if u32 (cap ix * 7) <=? u32 (u32 (used ix + 1) * 10) then ix_grow mem ix else Some (true, ix, mem).

Definition ix_insert (mem : list bool) (ix : dyn_ix) (h : Z) (k : bytes) (idx : nat) : option (bool * dyn_ix * list bool) :=
  match ix_reserve mem ix with
  | None => None
  | Some (false, ix, mem) => Some (false, ix, mem)
  | Some (true, ix, mem) =>
      match ix_put_raw (slot ix) (cap ix - 1) h k idx with
      | Some sl => Some (true, mk_ix sl (used ix + 1), mem)
      | None => None
      end
  end.

(** One turn looks at the slot after [j]; [i] is the hole. *)
Fixpoint ix_erase_loop (fuel : nat) (sl : list dyn_ixslot) (mask : Z) (i j : nat) : option (list dyn_ixslot) :=
  match fuel with
  | O => None
  | S fuel =>
      let j := ix_next mask j in
      if sh (sget sl j) =? 0 then Some sl else
      let k := ix_home mask (sh (sget sl j)) in
      if (if (i <? j)%nat then (k <=? i)%nat || (j <? k)%nat else (k <=? i)%nat && (j <? k)%nat)
      then ix_erase_loop fuel (<[j := slot_clear (sget sl j)]> (<[i := sget sl j]> sl)) mask j j
      else ix_erase_loop fuel sl mask i j
  end.

Definition ix_erase (ix : dyn_ix) (pos : nat) : option dyn_ix :=
  match ix_erase_loop (length (slot ix)) (<[pos := slot_clear (sget (slot ix) pos)]> (slot ix)) (cap ix - 1) pos pos with
  | Some sl => Some (mk_ix sl (used ix - 1))
  | None => None
  end.

Definition ix_move (ix : dyn_ix) (h : Z) (k : bytes) (idx : nat) : option dyn_ix :=
  match ix_find ix h k with
  | Some (Some pos) => Some (mk_ix (<[pos := slot_set_idx (sget (slot ix) pos) idx]> (slot ix)) (used ix))
  | Some None => Some ix
  | None => None
  end.

(** ** Circular positions *)

(** Steps forward from [a] to [b] around a table of [n] slots. *)
Definition dist (n a b : nat) : nat := if (a <=? b)%nat then (b - a)%nat else (n + b - a)%nat.

Lemma dist_spec n a b : (a < n)%nat -> (b < n)%nat ->
  (dist n a b < n)%nat /\ (b = a + dist n a b \/ b + n = a + dist n a b)%nat.
Proof. intros. unfold dist. destruct (Nat.leb_spec a b); lia. Qed.

(** Arithmetic on circular distances: every distance is replaced by what
    [dist_spec] says of it. *)
Ltac circ_dist n a b :=
  let d := fresh "d" in let H := fresh "Hd" in
  assert (H : (dist n a b < n)%nat /\ (b = a + dist n a b \/ b + n = a + dist n a b)%nat)
    by (apply dist_spec; lia);
  set (d := dist n a b) in *; clearbody d.
Ltac circ :=
  repeat match goal with
  | |- context [dist ?n ?a ?b] => circ_dist n a b
  | Hx : context [dist ?n ?a ?b] |- _ => circ_dist n a b
  end; lia.

Lemma dist_refl n a : (a < n)%nat -> dist n a a = 0%nat.
Proof. intros. circ. Qed.

Lemma dist_pos n a b : (a < n)%nat -> (b < n)%nat -> a <> b -> (0 < dist n a b)%nat.
Proof. intros. circ. Qed.

Definition nxt (n i : nat) : nat := if (S i =? n)%nat then 0%nat else S i.

Lemma nxt_lt n i : (i < n)%nat -> (nxt n i < n)%nat.
Proof. unfold nxt. destruct (Nat.eqb_spec (S i) n); lia. Qed.

Lemma dist_nxt n a i : (a < n)%nat -> (i < n)%nat -> (S (dist n a i) < n)%nat -> dist n a (nxt n i) = S (dist n a i).
Proof.
  intros. unfold nxt. destruct (Nat.eqb_spec (S i) n); circ.
Qed.

Lemma nxt_dist n i e : (i < n)%nat -> (e < n)%nat -> i <> e -> dist n i e = S (dist n (nxt n i) e).
Proof. intros. unfold nxt. destruct (Nat.eqb_spec (S i) n); circ. Qed.

(** Tables have a power of two of slots, up to 2^31. *)
Definition pow2_len (n : nat) : Prop := exists k, (k <= 31)%nat /\ n = (2 ^ k)%nat.

Lemma mask_land n x : pow2_len n -> 0 <= x -> x & (Z.of_nat n - 1) = x `mod` Z.of_nat n.
Proof.
  intros (k & _ & ->) Hx. rewrite Nat2Z.inj_pow. change (Z.of_nat 2) with 2.
  rewrite <- Z.land_ones, Z.ones_equiv by lia. done.
Qed.

Lemma pow2_pos n : pow2_len n -> (0 < n)%nat.
Proof. intros (k & _ & ->). pose proof (Nat.pow_nonzero 2 k). lia. Qed.

Lemma pow2_bound n : pow2_len n -> Z.of_nat n <= 2 ^ 31.
Proof.
  intros (k & Hk & ->). rewrite Nat2Z.inj_pow. change (Z.of_nat 2) with 2. apply Z.pow_le_mono_r; lia.
Qed.

Lemma home_lt n h : pow2_len n -> (ix_home (Z.of_nat n - 1) h < n)%nat.
Proof.
  intros Hn. unfold ix_home. pose proof (wrap_fits 32 h ltac:(lia)) as [H _]. rewrite mask_land by done.
  pose proof (pow2_pos n Hn). pose proof (Z.mod_pos_bound (wrap 32 h) (Z.of_nat n)). lia.
Qed.

Lemma next_nxt n i : pow2_len n -> (i < n)%nat -> ix_next (Z.of_nat n - 1) i = nxt n i.
Proof.
  intros Hn Hi. pose proof (pow2_bound n Hn). unfold ix_next. rewrite wrap_id by (unfold fits; lia).
  rewrite mask_land by (done || lia). unfold nxt. destruct (Nat.eqb_spec (S i) n) as [<-|].
  - replace (Z.of_nat i + 1) with (Z.of_nat (S i)) by lia. by rewrite Z.mod_same by lia.
  - rewrite Z.mod_small by lia. lia.
Qed.

(** ** Entries *)

Definition occ (s : dyn_ixslot) : Prop := sh s <> 0.
#[export] Instance occ_dec s : Decision (occ s).
Proof. unfold occ. apply _. Defined.

Definition entries (sl : list dyn_ixslot) : list dyn_ixslot := filter occ sl.
Definition kv (s : dyn_ixslot) : bytes * nat := (skey s, sidx s).

Lemma sget_insert sl i x j : (i < length sl)%nat -> sget (<[i := x]> sl) j = if decide (i = j) then x else sget sl j.
Proof.
  intros Hi. unfold sget. rewrite !nth_lookup. destruct (decide (i = j)) as [->|].
  - by rewrite list_lookup_insert_eq by done.
  - by rewrite list_lookup_insert_ne by done.
Qed.

Lemma sget_lookup sl i : (i < length sl)%nat -> sl !! i = Some (sget sl i).
Proof. intros Hi. destruct (nth_lookup_or_length sl i slot0); [done|lia]. Qed.

Lemma sget_out sl i : (length sl <= i)%nat -> sget sl i = slot0.
Proof. apply nth_overflow. Qed.

(** Writing one slot exchanges its entry. *)
Lemma entries_insert sl i x : (i < length sl)%nat ->
  exists rest, entries sl ≡ₚ (if decide (occ (sget sl i)) then [sget sl i] else []) ++ rest /\
    entries (<[i := x]> sl) ≡ₚ (if decide (occ x) then [x] else []) ++ rest.
Proof.
  intros Hi. exists (entries (take i sl) ++ entries (drop (S i) sl)). unfold entries. split.
  - rewrite <- (take_drop_middle _ _ _ (sget_lookup _ _ Hi)) at 1. rewrite filter_app, filter_cons.
    destruct (decide _); cbn [app]; [by rewrite Permutation_middle|done].
  - rewrite insert_take_drop by done. rewrite filter_app, filter_cons.
    destruct (decide _); cbn [app]; [by rewrite Permutation_middle|done].
Qed.

Lemma entries_fill sl i x : (i < length sl)%nat -> ~ occ (sget sl i) -> occ x -> entries (<[i := x]> sl) ≡ₚ x :: entries sl.
Proof. intros Hi H Hx. destruct (entries_insert sl i x Hi) as (r & -> & ->). by rewrite (decide_True _ _ Hx), (decide_False _ _ H). Qed.

Lemma entries_clear sl i x : (i < length sl)%nat -> occ (sget sl i) -> ~ occ x -> entries sl ≡ₚ sget sl i :: entries (<[i := x]> sl).
Proof. intros Hi H Hx. destruct (entries_insert sl i x Hi) as (r & -> & ->). by rewrite (decide_True _ _ H), (decide_False _ _ Hx). Qed.

Lemma elem_entries sl s : s ∈ entries sl <-> exists p, (p < length sl)%nat /\ occ s /\ sget sl p = s.
Proof.
  unfold entries. rewrite list_elem_of_filter, list_elem_of_lookup. split.
  - intros [Ho [p Hp]]. pose proof (lookup_lt_Some _ _ _ Hp). exists p. split_and!; try done.
    rewrite sget_lookup in Hp by done. by injection Hp.
  - intros (p & Hp & Ho & <-). split; [done|]. exists p. by apply sget_lookup.
Qed.

Lemma entries_len sl : (length (entries sl) <= length sl)%nat.
Proof. apply length_filter. Qed.

(** Fewer entries than slots leave an empty slot. *)
Lemma empty_slot sl : (length (entries sl) < length sl)%nat -> exists e, (e < length sl)%nat /\ ~ occ (sget sl e).
Proof.
  induction sl as [|s sl IH]; cbn [length]; [lia|]. unfold entries. rewrite filter_cons.
  destruct (decide (occ s)) as [Hs|Hs]; [|exists 0%nat; split; [lia|done]]. cbn [length]. intros H.
  destruct IH as (e & He & Ho); [unfold entries; lia|]. exists (S e). split; [lia|done].
Qed.

(** ** The interface of the hash *)

(** What the index needs of its hash function: a non-zero 64-bit word. *)
Class KeyHash := {
  key_hash : bytes -> Z;
  key_hash_range k : 0 < key_hash k < 2 ^ 64
}.

#[refine] Instance ix_hash_KeyHash (seed0 seed1 : Z) : KeyHash := {| key_hash := ix_hash seed0 seed1 |}.
Proof. apply ix_hash_range. Defined.

Lemma not_occ_eqb s : (sh s =? 0) = true <-> ~ occ s.
Proof. unfold occ. rewrite Z.eqb_eq. lia. Qed.

Section Index.
Context `{KeyHash}.

(** ** The invariant *)

(** The slots between an entry's home and the entry are taken. *)
Definition home (sl : list dyn_ixslot) (p : nat) : nat := ix_home (Z.of_nat (length sl) - 1) (sh (sget sl p)).
Definition reachable (sl : list dyn_ixslot) : Prop := forall p x,
  (p < length sl)%nat -> (x < length sl)%nat -> occ (sget sl p) ->
  (dist (length sl) (home sl p) x < dist (length sl) (home sl p) p)%nat -> occ (sget sl x).

Record table_ok (sl : list dyn_ixslot) : Prop := {
  ok_len : pow2_len (length sl);
  ok_hash : Forall (fun s => sh s = key_hash (skey s)) (entries sl);
  ok_keys : NoDup (skey <$> entries sl);
  ok_reach : reachable sl
}.

Lemma home_range sl p : pow2_len (length sl) -> (home sl p < length sl)%nat.
Proof. apply home_lt. Qed.

(** ** Searches *)

Section Search.
Context (sl : list dyn_ixslot) (Hlen : pow2_len (length sl)) (e : nat) (He : (e < length sl)%nat) (Hempty : ~ occ (sget sl e)).
Abbreviation n := (length sl).
Abbreviation mask := (Z.of_nat n - 1).

Lemma probe_spec fuel i : (i < n)%nat -> (dist n i e < fuel)%nat ->
  exists q, ix_probe fuel sl mask i = Some q /\ (q < n)%nat /\ ~ occ (sget sl q) /\
    forall x, (x < n)%nat -> (dist n i x < dist n i q)%nat -> occ (sget sl x).
Proof.
  revert i. induction fuel as [|fuel IH]; intros i Hi Hf; [lia|]. cbn [ix_probe].
  destruct (sh (sget sl i) =? 0) eqn:E.
  - apply not_occ_eqb in E. exists i. split_and!; try done. intros x Hx. rewrite dist_refl; lia.
  - assert (Ho : occ (sget sl i)) by (apply Z.eqb_neq in E; done). rewrite next_nxt by done.
    assert (i <> e) by (intros ->; done). rewrite (nxt_dist n i e) in Hf by done. pose proof (nxt_lt n i Hi).
    destruct (IH (nxt n i)) as (q & E' & Hq & Hoq & Hx); [done|lia|]. exists q. split_and!; try done. intros x Hxn Hd.
    destruct (decide (x = i)) as [->|Hxi]; [done|]. apply Hx; [done|]. assert (i <> q) by (intros ->; done).
    rewrite (nxt_dist n i x), (nxt_dist n i q) in Hd by done. lia.
Qed.

Lemma find_loop_spec fuel k i : Forall (fun s => sh s = key_hash (skey s)) (entries sl) -> (i < n)%nat -> (dist n i e < fuel)%nat ->
  exists r, ix_find_loop fuel sl mask (key_hash k) k i = Some r /\
    match r with
    | Some p => (p < n)%nat /\ occ (sget sl p) /\ skey (sget sl p) = k
    | None => exists q, (q < n)%nat /\ ~ occ (sget sl q) /\
        forall x, (x < n)%nat -> (dist n i x < dist n i q)%nat -> skey (sget sl x) <> k
    end.
Proof.
  intros Hh. revert i. induction fuel as [|fuel IH]; intros i Hi Hf; [lia|]. cbn [ix_find_loop].
  destruct (sh (sget sl i) =? 0) eqn:E.
  { apply not_occ_eqb in E. exists None. split; [done|]. exists i. split_and!; try done. intros x Hx. rewrite dist_refl; lia. }
  assert (Ho : occ (sget sl i)) by (apply Z.eqb_neq in E; done).
  assert (Hhi : sh (sget sl i) = key_hash (skey (sget sl i))).
  { rewrite Forall_forall in Hh. apply Hh, elem_entries. by exists i. }
  rewrite Hhi. destruct (decide (skey (sget sl i) = k)) as [Hk|Hk].
  { rewrite Hk, Z.eqb_refl, bool_decide_true by done. cbn [andb]. by exists (Some i). }
  rewrite (bool_decide_false _ Hk), andb_false_r. rewrite next_nxt by done.
  assert (i <> e) by (intros ->; done). rewrite (nxt_dist n i e) in Hf by done. pose proof (nxt_lt n i Hi).
  destruct (IH (nxt n i)) as (r & E' & Hr); [done|lia|]. exists r. split; [done|]. destruct r as [p|]; [done|].
  destruct Hr as (q & Hq & Hoq & Hx). exists q. split_and!; try done. intros x Hxn Hd.
  destruct (decide (x = i)) as [->|Hxi]; [done|]. apply Hx; [done|]. assert (i <> q) by (intros ->; done).
  rewrite (nxt_dist n i x), (nxt_dist n i q) in Hd by done. lia.
Qed.

End Search.

(** ** Insertion into the slots *)

Lemma put_raw_spec sl k idx : table_ok sl -> (length (entries sl) < length sl)%nat -> k ∉ skey <$> entries sl ->
  exists sl', ix_put_raw sl (Z.of_nat (length sl) - 1) (key_hash k) k idx = Some sl' /\ length sl' = length sl /\
    table_ok sl' /\ entries sl' ≡ₚ mk_slot (key_hash k) k idx :: entries sl.
Proof.
  intros [Hlen Hh Hk Hr] Hroom Hnew. destruct (empty_slot sl Hroom) as (e & He & Hoe).
  unfold ix_put_raw. set (a := ix_home _ (key_hash k)). assert (Ha : (a < length sl)%nat) by (by apply home_lt).
  destruct (probe_spec sl Hlen e He Hoe (length sl) a Ha) as (q & -> & Hq & Hoq & Hbefore); [by apply dist_spec|].
  set (s := mk_slot (key_hash k) k idx). assert (Hs : occ s). { unfold occ. cbn. pose proof (key_hash_range k). lia. }
  pose proof (entries_fill sl q s Hq Hoq Hs) as Hp. exists (<[q := s]> sl).
  split_and!; [done|apply length_insert| |done]. split.
  - by rewrite length_insert.
  - rewrite Hp. by constructor.
  - rewrite Hp. cbn. by constructor.
  - intros p x. unfold home. rewrite !length_insert. intros Hpn Hxn. rewrite !sget_insert by done.
    destruct (decide (q = p)) as [<-|Hne].
    + intros _ Hd. destruct (decide (q = x)) as [<-|]; [done|]. by apply Hbefore.
    + intros Hop Hd. destruct (decide (q = x)) as [<-|]; [done|]. by apply (Hr p x).
Qed.

Lemma entries_replicate n : entries (replicate n slot0) = [].
Proof. unfold entries. induction n as [|n IH]; [done|]. cbn [replicate]. rewrite filter_cons_False by (unfold occ; cbn; lia). done. Qed.

Lemma table_ok_empty n : pow2_len n -> table_ok (replicate n slot0).
Proof.
  intros Hn. split; rewrite ?entries_replicate, ?length_replicate; try done; [constructor|].
  intros p x _ _ Ho. exfalso. apply Ho. unfold sget. destruct (nth_in_or_default p (replicate n slot0) slot0) as [Hi| ->]; [|done].
  apply list_elem_of_In, elem_of_replicate in Hi as [-> _]. done.
Qed.

Lemma rehash_spec old ns : table_ok ns -> Forall (fun s => sh s = key_hash (skey s)) (entries old) ->
  NoDup (skey <$> entries old ++ entries ns) -> (length (entries old) + length (entries ns) < length ns)%nat ->
  exists ns', ix_rehash old ns (Z.of_nat (length ns) - 1) = Some ns' /\ length ns' = length ns /\ table_ok ns' /\
    entries ns' ≡ₚ entries old ++ entries ns.
Proof.
  revert ns. induction old as [|s old IH]; intros ns Hok Hh Hk Hroom; cbn [ix_rehash]; [by exists ns|].
  unfold entries in Hh, Hk, Hroom |- *. rewrite filter_cons in Hh, Hk, Hroom |- *. fold (entries old) (entries ns) in *.
  destruct (decide (occ s)) as [Ho|Ho].
  - assert ((sh s =? 0) = false) as -> by (by apply Z.eqb_neq). inversion Hh as [|? ? Hs Hh']; subst.
    cbn [app length fmap list_fmap] in *. apply NoDup_cons in Hk as [Hs1 Hk].
    destruct (put_raw_spec ns (skey s) (sidx s) Hok) as (ns1 & E & Hl1 & Hok1 & Hp1); [lia| |].
    { intros Hin. apply Hs1. rewrite fmap_app, elem_of_app. by right. }
    rewrite Hs, E. destruct (IH ns1 Hok1 Hh') as (ns2 & E2 & Hl2 & Hok2 & Hp2).
    + rewrite Hp1, fmap_app, fmap_cons. cbn [skey]. rewrite <- Permutation_middle, <- fmap_app. by constructor.
    + rewrite Hp1, Hl1. cbn [length]. lia.
    + rewrite Hl1 in E2. exists ns2. split_and!; [done|congruence|done|]. rewrite Hp2, Hp1.
      replace (mk_slot _ _ _) with s; [by rewrite <- Permutation_middle|]. destruct s; cbn in *. by subst.
  - rewrite (proj2 (not_occ_eqb s) Ho). by apply IH.
Qed.

(** ** Deletion by backward shift *)

(** While the hole at [i] is carried forward and the slots up to [j] have been
    looked at, an entry is cut off from its home by the hole only if it lies
    beyond [j]; [e] is an empty slot still ahead. *)
Record shifting (sl : list dyn_ixslot) (i j e : nat) : Prop := {
  sh_i : (i < length sl)%nat;
  sh_j : (j < length sl)%nat;
  sh_e : (e < length sl)%nat;
  sh_hole : ~ occ (sget sl i);
  sh_stop : ~ occ (sget sl e);
  sh_ahead : (dist (length sl) i j < dist (length sl) i e)%nat;
  sh_between : forall x, (x < length sl)%nat -> (0 < dist (length sl) i x <= dist (length sl) i j)%nat -> occ (sget sl x);
  sh_reach : forall p x, (p < length sl)%nat -> (x < length sl)%nat -> occ (sget sl p) ->
    (dist (length sl) (home sl p) x < dist (length sl) (home sl p) p)%nat ->
    occ (sget sl x) \/ (x = i /\ (dist (length sl) i j < dist (length sl) i p)%nat)
}.

(** The test of the source: the hole lies between the entry's home and the
    entry. *)
Lemma shift_test n i j k : (i < n)%nat -> (j < n)%nat -> (k < n)%nat -> i <> j ->
  (if (i <? j)%nat then (k <=? i)%nat || (j <? k)%nat else (k <=? i)%nat && (j <? k)%nat) = true <->
  (dist n k i < dist n k j)%nat.
Proof.
  intros. destruct (Nat.ltb_spec i j), (Nat.leb_spec k i), (Nat.ltb_spec j k); cbn [orb andb];
    (split; [|try done]); intros; circ.
Qed.

Section Shift.
Context (sl : list dyn_ixslot) (Hlen : pow2_len (length sl)) (i j e : nat) (Hs : shifting sl i j e).
Abbreviation n := (length sl).
Let j' := nxt n j.

Lemma shift_ahead : (j' < n)%nat /\ j' <> i /\ dist n i j' = S (dist n i j) /\ dist n j e = S (dist n j' e) /\
  (dist n i j' <= dist n i e)%nat.
Proof.
  destruct Hs as [Hi Hj He Ho1 Ho2 Ha _ _]. pose proof (nxt_lt n j Hj) as Hj'. fold j' in Hj'.
  assert (E : dist n i j' = S (dist n i j)). { apply dist_nxt; try done. circ. }
  assert (j <> e). { intros ->. lia. }
  split_and!; try done.
  - intros E'. rewrite E', dist_refl in E by done. lia.
  - by apply nxt_dist.
  - lia.
Qed.

Lemma shift_done : ~ occ (sget sl j') -> reachable sl.
Proof.
  intros Hj' p x Hp Hx Hop Hd. destruct shift_ahead as (Hj'n & Hne & E & _ & _).
  destruct (sh_reach _ _ _ _ Hs p x Hp Hx Hop Hd) as [|[-> Hb]]; [done|]. exfalso.
  pose proof (home_range sl p Hlen) as Hhome. pose proof (sh_i _ _ _ _ Hs). pose proof (sh_j _ _ _ _ Hs).
  assert (p <> j') by (intros ->; done).
  destruct (sh_reach _ _ _ _ Hs p j' Hp Hj'n Hop) as [|[? _]]; [circ|done|done].
Qed.

Lemma shift_keep : occ (sget sl j') -> ~ (dist n (home sl j') i < dist n (home sl j') j')%nat -> shifting sl i j' e.
Proof.
  intros Hoj Hk. destruct shift_ahead as (Hj'n & Hne & E & Ee & Hle). destruct Hs as [Hi Hj He Ho1 Ho2 Ha Hb Hr].
  assert (j' <> e) by (intros ->; done). split; try done.
  - circ.
  - intros x Hx Hd. destruct (decide (x = j')) as [->|]; [done|]. apply Hb; [done|]. circ.
  - intros p x Hp Hx Hop Hd. destruct (Hr p x Hp Hx Hop Hd) as [|[-> Hbey]]; [by left|]. right. split; [done|].
    destruct (decide (p = j')) as [->|]; [done|]. circ.
Qed.

Lemma shift_move : occ (sget sl j') -> (dist n (home sl j') i < dist n (home sl j') j')%nat ->
  let sl' := <[j' := slot_clear (sget sl j')]> (<[i := sget sl j']> sl) in
  shifting sl' j' j' e /\ entries sl' ≡ₚ entries sl.
Proof.
  intros Hoj Hk sl'. destruct shift_ahead as (Hj'n & Hne & _). destruct Hs as [Hi Hj He Ho1 Ho2 Ha _ Hr].
  pose proof (home_range sl j' Hlen) as Hhj. assert (Hje : j' <> e) by (intros ->; done).
  assert (Hie : i <> e). { intros ->. rewrite dist_refl in Ha by done. lia. }
  assert (Hl : length sl' = n) by (unfold sl'; by rewrite !length_insert).
  assert (Hget : forall x, sget sl' x = if decide (j' = x) then slot_clear (sget sl j') else if decide (i = x) then sget sl j' else sget sl x).
  { intros x. unfold sl'. rewrite !sget_insert by (rewrite ?length_insert; done). done. }
  assert (Hclear : ~ occ (slot_clear (sget sl j'))) by (unfold occ; cbn; lia).
  split.
  - split; unfold home; rewrite ?Hl; try done.
    + rewrite Hget, decide_True by done. done.
    + rewrite Hget, !decide_False by done. done.
    + rewrite dist_refl by done. by apply dist_pos.
    + intros x Hx. rewrite (dist_refl n j' Hj'n). lia.
    + intros p x Hp Hx. rewrite !Hget. destruct (decide (j' = p)) as [->|Hpj]; [by intros|].
      destruct (decide (i = p)) as [<-|Hpi].
      * intros _ Hd. left. destruct (decide (j' = x)) as [<-|]; [unfold home in Hk; exfalso; lia|].
        destruct (decide (i = x)) as [|Hix]; [done|]. destruct (Hr j' x Hj'n Hx Hoj) as [|[-> _]]; [|done|done].
        unfold home in *. lia.
      * intros Hop Hd. destruct (decide (j' = x)) as [<-|Hxj].
        -- right. split; [done|]. rewrite dist_refl by done. by apply dist_pos.
        -- left. destruct (decide (i = x)) as [|Hix]; [done|]. destruct (Hr p x Hp Hx Hop Hd) as [|[-> _]]; done.
  - unfold sl'. pose proof (entries_fill sl i (sget sl j') Hi Ho1 Hoj) as Hp1.
    pose proof (entries_clear (<[i := sget sl j']> sl) j' (slot_clear (sget sl j'))) as Hp2.
    rewrite length_insert, sget_insert, decide_False in Hp2 by done. specialize (Hp2 Hj'n Hoj Hclear).
    rewrite Hp1 in Hp2. by apply Permutation_cons_inv in Hp2.
Qed.

End Shift.

Lemma erase_loop_spec fuel sl i j e : pow2_len (length sl) -> shifting sl i j e -> (dist (length sl) j e <= fuel)%nat ->
  exists sl', ix_erase_loop fuel sl (Z.of_nat (length sl) - 1) i j = Some sl' /\ length sl' = length sl /\
    reachable sl' /\ entries sl' ≡ₚ entries sl.
Proof.
  revert sl i j. induction fuel as [|fuel IH]; intros sl i j Hlen Hs Hf;
    destruct (shift_ahead sl i j e Hs) as (Hj' & Hne & E & Ee & _); [lia|].
  cbn [ix_erase_loop]. rewrite next_nxt by (done || apply Hs). set (j' := nxt (length sl) j) in *.
  destruct (sh (sget sl j') =? 0) eqn:Eo.
  { apply not_occ_eqb in Eo. exists sl. split_and!; try done. by eapply shift_done. }
  assert (Ho : occ (sget sl j')) by (by apply Z.eqb_neq in Eo). fold (home sl j').
  pose proof (shift_test (length sl) i j' (home sl j') (sh_i _ _ _ _ Hs) Hj' (home_range _ _ Hlen) (not_eq_sym Hne)) as Ht.
  destruct (if (i <? j')%nat then _ else _).
  - destruct (shift_move sl Hlen i j e Hs Ho (proj1 Ht eq_refl)) as [Hs' Hp]. fold j' in Hs', Hp.
    set (sl1 := <[j' := _]> _) in *. assert (Hl1 : length sl1 = length sl) by (unfold sl1; by rewrite !length_insert).
    destruct (IH sl1 j' j') as (sl2 & E2 & Hl2 & Hr2 & Hp2); rewrite ?Hl1; [done..|lia|].
    rewrite Hl1 in E2. exists sl2. split_and!; [done|congruence|done|by rewrite Hp2].
  - apply IH; [done| |lia]. apply shift_keep; try done. intros Hx. by apply Ht in Hx.
Qed.

(** ** The index as a map *)

(** The 32-bit products of ix_reserve do not overflow below these counts. *)
Definition load_ok (cap used : Z) : Prop :=
  (used * 10 < cap * 7 \/ (cap = 0 /\ used = 0)) /\ (cap <= 2 ^ 30 -> used <= 375809639) /\ used <= 375809640.

Record ix_repr (ix : dyn_ix) (m : gmap bytes nat) : Prop := {
  ir_table : slot ix = [] \/ table_ok (slot ix);
  ir_map : kv <$> entries (slot ix) ≡ₚ map_to_list m;
  ir_used : used ix = Z.of_nat (length (entries (slot ix)));
  ir_load : load_ok (cap ix) (used ix)
}.

Lemma ix_repr_empty : ix_repr ix_free ∅.
Proof. split; [by left|by rewrite map_to_list_empty|done|]. unfold load_ok, cap, ix_free. cbn [slot used length]. lia. Qed.

Lemma repr_lookup ix m k v : ix_repr ix m -> m !! k = Some v <-> exists s, s ∈ entries (slot ix) /\ skey s = k /\ sidx s = v.
Proof.
  intros [_ Hm _ _]. rewrite <- elem_of_map_to_list, <- Hm, list_elem_of_fmap. unfold kv. split.
  - intros (s & [= -> ->] & Hs). by exists s.
  - intros (s & Hs & <- & <-). by exists s.
Qed.

Lemma repr_fresh ix m k : ix_repr ix m -> m !! k = None -> k ∉ skey <$> entries (slot ix).
Proof.
  intros Hr Hk (s & -> & Hs)%list_elem_of_fmap. enough (m !! skey s = Some (sidx s)) by congruence.
  apply (repr_lookup ix); [done|]. by exists s.
Qed.

Lemma repr_room ix m : ix_repr ix m -> table_ok (slot ix) -> (length (entries (slot ix)) < length (slot ix))%nat.
Proof.
  intros [_ _ Hu [Hl _]] [Hlen _ _ _]. pose proof (pow2_pos _ Hlen). unfold cap in Hl. lia.
Qed.

Lemma find_spec ix m k : ix_repr ix m -> exists r, ix_find ix (key_hash k) k = Some r /\
  match r with
  | Some p => (p < length (slot ix))%nat /\ occ (sget (slot ix) p) /\ skey (sget (slot ix) p) = k /\
      m !! k = Some (sidx (sget (slot ix) p))
  | None => m !! k = None
  end.
Proof.
  intros Hr. pose proof (repr_lookup ix m) as Hlk. unfold ix_find. destruct (ir_table _ _ Hr) as [E|Hok].
  { unfold cap. rewrite E. cbn. exists None. split; [done|]. destruct (m !! k) as [v|] eqn:Ek; [|done].
    apply Hlk in Ek as (s & Hs & _); [|done]. rewrite E in Hs. by apply elem_of_nil in Hs. }
  pose proof (repr_room ix m Hr Hok) as Hroom. destruct Hok as [Hlen Hh Hk Hreach]. set (sl := slot ix) in *.
  unfold cap. fold sl. pose proof (pow2_pos _ Hlen). rewrite (proj2 (Z.eqb_neq _ _)) by lia.
  destruct (empty_slot sl Hroom) as (e & He & Hoe). pose proof (home_lt (length sl) (key_hash k) Hlen) as Ha.
  destruct (find_loop_spec sl Hlen e He Hoe (length sl) k _ Hh Ha) as (r & -> & Hres); [by apply dist_spec|].
  exists r. split; [done|]. destruct r as [p|].
  - destruct Hres as (Hp & Ho & Ek). split_and!; try done. apply Hlk; [done|]. exists (sget sl p). split_and!; try done.
    apply elem_entries. by exists p.
  - destruct (m !! k) as [v|] eqn:Ek; [exfalso|done]. apply Hlk in Ek as (s & Hs & Hks & _); [|done].
    pose proof (proj1 (Forall_forall _ _) Hh s Hs) as Hsh. apply elem_entries in Hs as (p & Hp & Ho & Eps).
    destruct Hres as (q & Hq & Hoq & Hx). cbn beta in Hsh. rewrite Hks in Hsh.
    assert (Hhome : home sl p = ix_home (Z.of_nat (length sl) - 1) (key_hash k)) by (unfold home; by rewrite Eps, Hsh).
    rewrite <- Hhome in Ha, Hx. assert (p <> q) by (intros ->; by rewrite Eps in Hoq).
    destruct (le_lt_dec (dist (length sl) (home sl p) q) (dist (length sl) (home sl p) p)) as [Hle|Hlt].
    + apply Hoq, (Hreach p q Hp Hq); [by rewrite Eps|]. fold sl. circ.
    + apply (Hx p Hp Hlt). by rewrite Eps.
Qed.

Lemma repr_rekey ix m k idx sl' : ix_repr ix m -> m !! k = None ->
  entries sl' ≡ₚ mk_slot (key_hash k) k idx :: entries (slot ix) -> table_ok sl' ->
  load_ok (Z.of_nat (length sl')) (used ix + 1) -> ix_repr (mk_ix sl' (used ix + 1)) (<[k := idx]> m).
Proof.
  intros [_ Hm Hu _] Hk Hp Hok Hl. split; cbn [slot used]; [by right| |rewrite Hp, Hu; cbn [length]; lia|done].
  rewrite Hp, map_to_list_insert by done. cbn. by rewrite Hm.
Qed.

Lemma pow2_cases n : pow2_len n -> Z.of_nat n <= 2 ^ 29 \/ Z.of_nat n = 2 ^ 30 \/ Z.of_nat n = 2 ^ 31.
Proof.
  intros (k & Hk & ->). rewrite Nat2Z.inj_pow. change (Z.of_nat 2) with 2.
  destruct (decide (k = 30%nat)) as [->|]; [by right; left|]. destruct (decide (k = 31%nat)) as [->|]; [by right; right|].
  left. apply Z.pow_le_mono_r; lia.
Qed.

Lemma pow2_double n : pow2_len n -> Z.of_nat n <= 2 ^ 30 -> pow2_len (2 * n).
Proof.
  intros (k & Hk & ->) Hn. exists (S k). split; [|done]. destruct (decide (k = 31%nat)) as [->|]; [|lia].
  rewrite Nat2Z.inj_pow in Hn. change (Z.of_nat 2 ^ Z.of_nat 31) with (2 ^ 31) in Hn. lia.
Qed.

(** Growing keeps the entries and leaves room for one more. *)
Lemma grow_spec mem ix m : ix_repr ix m -> exists ok ix', ix_grow mem ix = Some (ok, ix', if 0x40000000 <? cap ix then mem else tl mem) /\
  if ok then table_ok (slot ix') /\ entries (slot ix') ≡ₚ entries (slot ix) /\ used ix' = used ix /\ load_ok (cap ix') (used ix + 1)
  else ix' = ix /\ (2 ^ 30 < cap ix \/ hd true mem = false).
Proof.
  intros Hr. pose proof Hr as [Ht Hm Hu Hl]. unfold ix_grow. destruct (Z.ltb_spec 0x40000000 (cap ix)) as [|Hc].
  { exists false, ix. split; [done|]. split; [done|]. by left. }
  destruct (hd true mem) eqn:Emem; cbn [negb]; [|exists false, ix; auto].
  set (nc := if negb (cap ix =? 0) then _ else _).
  assert (Hnc : pow2_len (Z.to_nat nc) /\ 0 <= nc /\ load_ok nc (used ix + 1)).
  { unfold load_ok in *. unfold nc, cap in *. destruct Ht as [E|[Hlen _ _ _]].
    - rewrite E in *. cbn [length] in *. change (negb (Z.of_nat 0 =? 0)) with false. unfold DS_MIN_CAP.
      split; [exists 3%nat; split; [lia|reflexivity]|lia].
    - pose proof (pow2_pos _ Hlen). rewrite (proj2 (Z.eqb_neq _ _)) by lia. cbn [negb].
      rewrite wrap_id by (unfold fits; lia). destruct (pow2_cases _ Hlen) as [?|[?|?]]; (split; [|lia]);
        (replace (Z.to_nat _) with (2 * length (slot ix))%nat by lia); (apply pow2_double; [done|lia]). }
  destruct Hnc as (Hnc & Hnc0 & Hload). clearbody nc.
  assert (Hold : Forall (fun s => sh s = key_hash (skey s)) (entries (slot ix)) /\ NoDup (skey <$> entries (slot ix))).
  { destruct Ht as [->|[_ ? ? _]]; [|done]. split; constructor. }
  destruct (rehash_spec (slot ix) (replicate (Z.to_nat nc) slot0)) as (ns & E & Hlen & Hok & Hp).
  - by apply table_ok_empty.
  - apply Hold.
  - rewrite entries_replicate, app_nil_r. apply Hold.
  - rewrite entries_replicate, length_replicate. cbn [length]. destruct Hload as [[?|?] _]; lia.
  - rewrite length_replicate, Z2Nat.id in E by done. rewrite length_replicate in Hlen. rewrite E.
    exists true, (mk_ix ns (used ix)). split; [done|]. cbn [slot used]. split_and!; try done.
    + by rewrite Hp, entries_replicate, app_nil_r.
    + unfold cap. cbn [slot]. by rewrite Hlen, Z2Nat.id.
Qed.

(** The test of ix_reserve, in 32-bit arithmetic. *)
Lemma reserve_no_wrap ix m : ix_repr ix m -> (u32 (cap ix * 7) <=? u32 (u32 (used ix + 1) * 10)) = false ->
  table_ok (slot ix) /\ load_ok (cap ix) (used ix + 1).
Proof.
  intros [Ht _ Hu [Hl1 [Hl2 Hl3]]] E%Z.leb_gt. rewrite (wrap_id 32 (used ix + 1)) in E by (unfold fits; lia).
  rewrite (wrap_id 32 (_ * 10)) in E by (unfold fits; lia). unfold load_ok. destruct Ht as [Es|Hok].
  { unfold cap in E. rewrite Es, wrap_id in E by (unfold fits; cbn; lia). cbn [length] in E. lia. }
  split; [done|]. unfold cap in *. destruct (pow2_cases _ (ok_len _ Hok)) as [H1|[H1|H1]].
  - rewrite wrap_id in E by (unfold fits; lia). lia.
  - rewrite H1 in E. change (u32 (2 ^ 30 * 7)) with 3221225472 in E. lia.
  - rewrite H1 in E. change (u32 (2 ^ 31 * 7)) with 2147483648 in E. lia.
Qed.

Lemma insert_spec mem ix m k idx : ix_repr ix m -> m !! k = None ->
  exists ok ix' mem', ix_insert mem ix (key_hash k) k idx = Some (ok, ix', mem') /\ (mem' = mem \/ mem' = tl mem) /\
    if ok then ix_repr ix' (<[k := idx]> m) else ix' = ix /\ (2 ^ 31 <= used ix * 10 + 10 \/ hd true mem = false).
Proof.
  intros Hr Hk. unfold ix_insert, ix_reserve. pose proof (repr_fresh _ _ _ Hr Hk) as Hfresh.
  assert (Hput : forall ix1, table_ok (slot ix1) -> entries (slot ix1) ≡ₚ entries (slot ix) -> used ix1 = used ix ->
    load_ok (cap ix1) (used ix + 1) -> exists sl, ix_put_raw (slot ix1) (cap ix1 - 1) (key_hash k) k idx = Some sl /\
      ix_repr (mk_ix sl (used ix1 + 1)) (<[k := idx]> m)).
  { intros ix1 Hok Hp Hu Hl. pose proof (ir_used _ _ Hr) as Hu0.
    destruct (put_raw_spec (slot ix1) k idx Hok) as (sl & E & Hlen & Hok' & Hp').
    - rewrite Hp. pose proof (pow2_pos _ (ok_len _ Hok)). destruct Hl as [[Hl|Hl] _]; unfold cap in Hl; lia.
    - by rewrite Hp.
    - exists sl. split; [done|]. rewrite Hu. apply repr_rekey; [done|done|by rewrite Hp', Hp|done|]. by rewrite Hlen. }
  destruct (u32 (cap ix * 7) <=? u32 (u32 (used ix + 1) * 10)) eqn:E.
  - destruct (grow_spec mem ix m Hr) as (ok & ix1 & Eg & Hg). rewrite Eg.
    assert (Hmem : forall b : bool, (if b then mem else tl mem) = mem \/ (if b then mem else tl mem) = tl mem) by (intros []; auto).
    destruct ok.
    + destruct Hg as (Hok & Hp & Hu & Hl). destruct (Hput ix1 Hok Hp Hu Hl) as (sl & -> & Hr').
      eexists true, _, _. split; [done|]. split; [apply Hmem|done].
    + destruct Hg as [-> Hwhy]. eexists false, ix, _. split; [done|]. split; [apply Hmem|]. split; [done|].
      destruct Hwhy as [Hc|]; [left|by right]. destruct Hr as [[Es|Hok] _ Hu [Hl1 [_ Hl3]]]; unfold cap in *; [rewrite Es in Hc; cbn in Hc; lia|].
      destruct (pow2_cases _ (ok_len _ Hok)) as [?|[?|H1]]; [lia..|]. rewrite H1 in E. apply Z.leb_le in E.
      change (u32 (2 ^ 31 * 7)) with 2147483648 in E. rewrite !wrap_id in E by (unfold fits; rewrite ?wrap_id; unfold fits; lia). lia.
  - destruct (reserve_no_wrap ix m Hr E) as [Hok Hl]. destruct (Hput ix Hok (Permutation_refl _) eq_refl Hl) as (sl & -> & Hr').
    eexists true, _, mem. split; [done|]. split; [by left|done].
Qed.

Lemma table_ok_perm sl sl' l : table_ok sl -> length sl' = length sl -> reachable sl' -> entries sl ≡ₚ l ++ entries sl' -> table_ok sl'.
Proof.
  intros [H1 H2 H3 _] Hl Hr Hp. rewrite Hp in H2, H3. apply Forall_app in H2 as [_ H2].
  rewrite fmap_app in H3. apply NoDup_app in H3 as (_ & _ & H3). split; [by rewrite Hl|done..].
Qed.

Lemma erase_spec ix m p : ix_repr ix m -> (p < length (slot ix))%nat -> occ (sget (slot ix) p) ->
  exists ix', ix_erase ix p = Some ix' /\ ix_repr ix' (delete (skey (sget (slot ix) p)) m).
Proof.
  intros Hr Hp Ho. destruct (ir_table _ _ Hr) as [E|Hok]; [rewrite E in Hp; cbn in Hp; lia|].
  pose proof (repr_room ix m Hr Hok) as Hroom. destruct (empty_slot _ Hroom) as (e & He & Hoe).
  set (sl := slot ix) in *. set (s := sget sl p) in *. set (sl0 := <[p := slot_clear s]> sl).
  assert (Hl0 : length sl0 = length sl) by apply length_insert. pose proof (ok_len _ Hok) as Hlen.
  assert (Hclear : ~ occ (slot_clear s)) by (unfold occ; cbn; lia).
  pose proof (entries_clear sl p (slot_clear s) Hp Ho Hclear) as Hent. fold sl0 s in Hent.
  assert (Hpe : p <> e) by (intros ->; done).
  assert (Hs : shifting sl0 p p e).
  { split; rewrite ?Hl0, ?(dist_refl _ p) by done; try done; unfold sl0.
    - by rewrite sget_insert, decide_True by done.
    - by rewrite sget_insert, decide_False by done.
    - by apply dist_pos.
    - intros; lia.
    - intros q x Hq Hx. unfold home. rewrite length_insert, !sget_insert by done.
      destruct (decide (p = q)) as [<-|]; [done|]. intros Hoq Hd. destruct (decide (p = x)) as [<-|].
      + right. split; [done|]. by apply dist_pos.
      + left. by apply (ok_reach _ Hok q x). }
  unfold ix_erase, cap. fold sl s sl0. rewrite <- Hl0 in Hlen.
  destruct (erase_loop_spec (length sl) sl0 p p e Hlen Hs) as (sl' & E & Hl' & Hr' & Hp').
  { rewrite Hl0. pose proof (dist_spec (length sl) p e Hp He). lia. }
  rewrite Hl0 in E. rewrite E. eexists. split; [done|]. pose proof Hr as [_ Hm Hu [Hl1 Hl2]].
  split; cbn [slot used]; fold sl in Hm, Hu.
  - right. apply (table_ok_perm sl _ [s]); [done|congruence|done|]. by rewrite Hent, Hp'.
  - rewrite Hp'. rewrite Hent in Hm. assert (Hk : m !! skey s = Some (sidx s)).
    { apply (repr_lookup ix); [done|]. exists s. split_and!; try done. apply elem_entries. by exists p. }
    rewrite <- (map_to_list_delete m _ _ Hk) in Hm. cbn [fmap list_fmap kv] in Hm. by apply Permutation_cons_inv in Hm.
  - rewrite Hp', Hu, Hent. cbn [length]. lia.
  - unfold load_ok, cap in *. cbn [slot]. rewrite Hl', Hl0. fold sl in Hl1, Hl2. lia.
Qed.

Lemma move_spec ix m k v idx : ix_repr ix m -> m !! k = Some v ->
  exists ix', ix_move ix (key_hash k) k idx = Some ix' /\ ix_repr ix' (<[k := idx]> m).
Proof.
  intros Hr Hk. unfold ix_move. destruct (find_spec ix m k Hr) as (r & -> & Hres). destruct r as [p|]; [|congruence].
  destruct Hres as (Hp & Ho & Ek & Em). eexists. split; [done|]. destruct (ir_table _ _ Hr) as [E|Hok]; [rewrite E in Hp; cbn in Hp; lia|].
  set (sl := slot ix) in *. set (s := sget sl p) in *. assert (Ho' : occ (slot_set_idx s idx)) by done.
  destruct (entries_insert sl p (slot_set_idx s idx) Hp) as (rest & H1 & H2). fold s in H1.
  rewrite (decide_True _ _ Ho) in H1. rewrite (decide_True _ _ Ho') in H2. cbn [app] in H1, H2.
  pose proof Hr as [_ Hm Hu Hl]. split; cbn [slot used]; fold sl in Hm, Hu.
  - right. destruct Hok as [Hlen Hh Hn Hreach]. rewrite H1 in Hh, Hn. split.
    + by rewrite length_insert.
    + rewrite H2. inversion Hh; subst. by constructor.
    + rewrite H2. done.
    + intros q x. unfold home. rewrite length_insert, !sget_insert by done. intros Hq Hx Hoq Hd.
      destruct (decide (p = x)) as [<-|]; [done|]. destruct (decide (p = q)) as [<-|]; exact (Hreach _ x Hq Hx Hoq Hd).
  - rewrite H2. rewrite H1 in Hm. rewrite <- (map_to_list_delete m _ _ Em) in Hm. cbn [fmap list_fmap kv] in *. fold s in Hm.
    rewrite <- (insert_delete_eq m k idx), map_to_list_insert by apply lookup_delete_eq.
    unfold kv at 1 in Hm. rewrite Ek in Hm. apply Permutation_cons_inv in Hm. unfold kv at 1. cbn [skey sidx slot_set_idx].
    rewrite Ek. by constructor.
  - by rewrite Hu, H1, H2.
  - unfold cap in *. cbn [slot]. by rewrite length_insert.
Qed.

End Index.

(** ** Indexed arrays

    The containers keep their records in an array without holes and index it by
    key: a record is removed by moving the last one into its place. *)

Definition indexes (im : gmap bytes nat) (ks : list bytes) : Prop := forall k i, im !! k = Some i <-> ks !! i = Some k.

Definition swap_remove {A} (i : nat) (l : list A) : list A :=
  let n := (length l - 1)%nat in
  match l !! n with
  | Some last => if decide (i = n) then take n l else take n (<[i := last]> l)
  | None => l
  end.

Lemma indexes_fresh im ks k : indexes im ks -> im !! k = None <-> k ∉ ks.
Proof.
  intros H. split.
  - intros Hk [i Hi]%list_elem_of_lookup. apply H in Hi. congruence.
  - intros Hk. destruct (im !! k) as [i|] eqn:E; [|done]. apply H in E. destruct Hk. by eapply list_elem_of_lookup_2.
Qed.

Lemma indexes_NoDup im ks : indexes im ks -> NoDup ks.
Proof. intros H. apply NoDup_alt. intros i j k Hi Hj. apply H in Hi, Hj. congruence. Qed.

Lemma indexes_snoc im ks k : indexes im ks -> k ∉ ks -> indexes (<[k := length ks]> im) (ks ++ [k]).
Proof.
  unfold indexes. intros H Hk k' i. destruct (decide (k = k')) as [<-|Hne].
  - rewrite lookup_insert_eq. split.
    + intros [= <-]. by rewrite lookup_app_r, Nat.sub_diag by done.
    + intros [Hi|[Hi Hx]]%lookup_app_Some; [destruct Hk; by eapply list_elem_of_lookup_2|].
      apply list_lookup_singleton_Some in Hx as [? _]. f_equal. lia.
  - rewrite lookup_insert_ne, H by done. split.
    + intros Hi. by apply lookup_app_l_Some.
    + intros [Hi|[_ Hx]]%lookup_app_Some; [done|]. by apply list_lookup_singleton_Some in Hx as [_ ->].
Qed.

Lemma swap_remove_last {A} (l : list A) x : swap_remove (length l) (l ++ [x]) = l.
Proof.
  unfold swap_remove. rewrite length_app. cbn [length]. rewrite Nat.add_sub, lookup_app_r, Nat.sub_diag by done. cbn.
  rewrite decide_True by done. by apply take_app_length'.
Qed.

Lemma swap_remove_inner {A} (l : list A) x i : (i < length l)%nat -> swap_remove i (l ++ [x]) = <[i := x]> l.
Proof.
  intros Hi. unfold swap_remove. rewrite length_app. cbn [length]. rewrite Nat.add_sub, lookup_app_r, Nat.sub_diag by done. cbn.
  rewrite decide_False by lia. rewrite insert_app_l by done. apply take_app_length'. by rewrite length_insert.
Qed.

Lemma list_snoc_cases {A} (l : list A) i : (i < length l)%nat -> exists l' x, l = l' ++ [x].
Proof. intros Hi. destruct l as [|y l] using rev_ind; [cbn in Hi; lia|eauto]. Qed.

Lemma swap_remove_perm {A} (l : list A) i x : l !! i = Some x -> l ≡ₚ x :: swap_remove i l.
Proof.
  intros H. pose proof (lookup_lt_Some _ _ _ H) as Hi. destruct (list_snoc_cases l i Hi) as (l' & y & ->).
  rewrite length_app in Hi. cbn in Hi. destruct (decide (i = length l')) as [->|].
  - rewrite swap_remove_last. rewrite lookup_app_r, Nat.sub_diag in H by done. injection H as ->. by rewrite Permutation_app_comm.
  - rewrite swap_remove_inner by lia. rewrite lookup_app_l in H by lia. rewrite Permutation_app_comm. cbn [app].
    rewrite insert_take_drop by lia. rewrite <- Permutation_middle, perm_swap. constructor.
    rewrite Permutation_middle. by rewrite take_drop_middle.
Qed.

(** The map after a removal: the removed key is gone and the last key, if it
    was moved, has the new place. *)
Lemma indexes_swap_remove im ks i k : indexes im ks -> ks !! i = Some k ->
  indexes (match ks !! (length ks - 1)%nat with
           | Some last => if decide (i = length ks - 1)%nat then delete k im else <[last := i]> (delete k im)
           | None => im end) (swap_remove i ks).
Proof.
  intros H Hk. pose proof (indexes_NoDup _ _ H) as Hnd. unfold indexes in *. pose proof (lookup_lt_Some _ _ _ Hk) as Hi.
  destruct (list_snoc_cases ks i Hi) as (l & last & ->). rewrite length_app in *. cbn [length] in *. rewrite Nat.add_sub.
  rewrite (lookup_app_r l [last] (length l)), Nat.sub_diag by done. cbn [lookup list_lookup].
  apply NoDup_app in Hnd as (Hl & Hlast & _). specialize (fun x => Hlast x). destruct (decide (i = length l)) as [->|Hne].
  - rewrite swap_remove_last. rewrite lookup_app_r, Nat.sub_diag in Hk by done. injection Hk as ->. intros k' j.
    destruct (decide (k = k')) as [<-|].
    + rewrite lookup_delete_eq. split; [done|]. intros Hj. destruct (Hlast k); [by eapply list_elem_of_lookup_2|left].
    + rewrite lookup_delete_ne, H, lookup_app_Some by done. split; [|by left].
      intros [|[_ [_ ->]%list_lookup_singleton_Some]]; done.
  - rewrite swap_remove_inner by lia. rewrite lookup_app_l in Hk by lia. intros k' j.
    assert (Hkl : k <> last). { intros ->. destruct (Hlast last); [by eapply list_elem_of_lookup_2|left]. }
    rewrite list_lookup_insert_Some. destruct (decide (last = k')) as [<-|Hn'].
    + rewrite lookup_insert_eq. split; [intros [= <-]; left; split_and!; [done..|lia]|].
      intros [(-> & _)|[_ Hj]]; [done|]. destruct (Hlast last); [by eapply list_elem_of_lookup_2|left].
    + rewrite lookup_insert_ne by done. destruct (decide (k = k')) as [<-|].
      * rewrite lookup_delete_eq. split; [done|]. intros [(_ & ? & _)|[Hij Hj]]; [done|]. destruct Hij. by eapply NoDup_lookup.
      * rewrite lookup_delete_ne, H, lookup_app_Some by done. split.
        -- intros [Hj|[_ [_ ?]%list_lookup_singleton_Some]]; [|done]. right. split; [|done]. intros ->. congruence.
        -- intros [(_ & ? & _)|[_ Hj]]; [done|by left].
Qed.

Lemma swap_remove_fmap {A B} (f : A -> B) i (l : list A) : f <$> swap_remove i l = swap_remove i (f <$> l).
Proof.
  unfold swap_remove. rewrite length_fmap, list_lookup_fmap. destruct (l !! (length l - 1)%nat); [|done].
  cbn [fmap option_fmap option_map]. destruct (decide _); rewrite fmap_take; [done|]. by rewrite list_fmap_insert.
Qed.

Lemma swap_remove_len {A} (l : list A) i : (i < length l)%nat -> length (swap_remove i l) = (length l - 1)%nat.
Proof.
  intros Hi. destruct (lookup_lt_is_Some_2 _ _ Hi) as [x Hx]. pose proof (Permutation_length (swap_remove_perm l i x Hx)) as H.
  cbn [length] in H. lia.
Qed.

(** Another key for the record at [i]. *)
Lemma indexes_replace im ks i k k' : indexes im ks -> ks !! i = Some k -> k' ∉ ks ->
  indexes (<[k' := i]> (delete k im)) (<[i := k']> ks).
Proof.
  intros H Hk Hk'. pose proof (indexes_NoDup _ _ H) as Hnd. unfold indexes in *. pose proof (lookup_lt_Some _ _ _ Hk) as Hi.
  intros x j. rewrite list_lookup_insert_Some. destruct (decide (k' = x)) as [<-|Hx].
  - rewrite lookup_insert_eq. split; [intros [= <-]; by left|]. intros [(-> & _ & _)|[_ Hj]]; [done|].
    destruct Hk'. by eapply list_elem_of_lookup_2.
  - rewrite lookup_insert_ne by done. destruct (decide (k = x)) as [<-|].
    + rewrite lookup_delete_eq. split; [done|]. intros [(_ & ? & _)|[Hij Hj]]; [done|]. destruct Hij. by eapply NoDup_lookup.
    + rewrite lookup_delete_ne, H by done. split.
      * intros Hj. right. split; [|done]. intros ->. congruence.
      * intros [(_ & ? & _)|[_ Hj]]; done.
Qed.

Lemma indexes_size (im : gmap bytes nat) ks : indexes im ks -> size im = length ks.
Proof.
  intros Hi. rewrite <- size_dom. replace (dom im) with (list_to_set ks : gset bytes).
  - apply size_list_to_set. by eapply indexes_NoDup.
  - apply set_eq. intros k. rewrite elem_of_list_to_set, elem_of_dom, list_elem_of_lookup. unfold is_Some.
    split; intros [i Hk]; exists i; by apply Hi.
Qed.

Section Indexed.
Context `{KeyHash}.

(** The table indexes the keys of an array. *)
Definition indexed (ix : dyn_ix) (ks : list bytes) : Prop := exists im, ix_repr ix im /\ indexes im ks.

Lemma indexed_nil : indexed ix_free [].
Proof. exists ∅. split; [apply ix_repr_empty|]. intros k i. by rewrite lookup_empty, lookup_nil. Qed.

Lemma indexed_NoDup ix ks : indexed ix ks -> NoDup ks.
Proof. intros (im & _ & Hi). by eapply indexes_NoDup. Qed.

Lemma indexed_used ix ks : indexed ix ks -> used ix = Z.of_nat (length ks) /\ Z.of_nat (length ks) <= 375809640.
Proof.
  intros (im & Hr & Hi). rewrite <- (indexes_size _ _ Hi). destruct Hr as [_ Hm Hu [_ [_ Hl]]].
  apply Permutation_length in Hm. rewrite length_fmap, length_map_to_list in Hm. lia.
Qed.

(** The slot at [p] holds the key [k] of the record [i]. *)
Definition slot_for (ix : dyn_ix) (p : nat) (k : bytes) (i : nat) : Prop :=
  (p < length (slot ix))%nat /\ occ (sget (slot ix) p) /\ skey (sget (slot ix) p) = k /\ sidx (sget (slot ix) p) = i.

Lemma indexed_find ix ks k : indexed ix ks -> exists r, ix_find ix (key_hash k) k = Some r /\
  match r with
  | Some p => exists i, slot_for ix p k i /\ ks !! i = Some k
  | None => k ∉ ks
  end.
Proof.
  intros (im & Hr & Hi). destruct (find_spec ix im k Hr) as (r & -> & Hres). exists r. split; [done|]. destruct r as [p|].
  - destruct Hres as (? & ? & ? & Hk). eexists. split; [by split_and!|]. by apply Hi.
  - by eapply indexes_fresh.
Qed.

(** The position is found again for a key known to be there. *)
Lemma indexed_find_at ix ks k i : indexed ix ks -> ks !! i = Some k ->
  exists p, ix_find ix (key_hash k) k = Some (Some p) /\ slot_for ix p k i.
Proof.
  intros Hx Hk. destruct (indexed_find ix ks k Hx) as (r & -> & Hres). destruct r as [p|].
  - destruct Hres as (j & Hs & Hj). pose proof (NoDup_lookup _ _ _ _ (indexed_NoDup _ _ Hx) Hj Hk) as ->. by exists p.
  - destruct Hres. by eapply list_elem_of_lookup_2.
Qed.

Lemma indexed_insert mem ix ks k : indexed ix ks -> k ∉ ks ->
  exists ok ix' mem', ix_insert mem ix (key_hash k) k (length ks) = Some (ok, ix', mem') /\ (mem' = mem \/ mem' = tl mem) /\
    if ok then indexed ix' (ks ++ [k]) else ix' = ix /\ (2 ^ 31 <= Z.of_nat (length ks) * 10 + 10 \/ hd true mem = false).
Proof.
  intros Hx Hk. pose proof (indexed_used _ _ Hx) as [Hu _]. destruct Hx as (im & Hr & Hi).
  assert (Him : im !! k = None) by (by eapply indexes_fresh).
  destruct (insert_spec mem ix im k (length ks) Hr Him) as (ok & ix' & mem' & E & Hm & Hres). exists ok, ix', mem'.
  split_and!; try done. destruct ok; [|by rewrite <- Hu]. exists (<[k := length ks]> im). split; [done|]. by apply indexes_snoc.
Qed.

(** Removing the record [i]: its slot is erased, and the slot of the record
    that takes its place is redirected. *)
Lemma indexed_remove ix ks p k i last : indexed ix ks -> slot_for ix p k i -> ks !! i = Some k ->
  ks !! (length ks - 1)%nat = Some last ->
  exists ix1, ix_erase ix p = Some ix1 /\
    if decide (i = length ks - 1)%nat then indexed ix1 (swap_remove i ks)
    else exists ix2, ix_move ix1 (key_hash last) last i = Some ix2 /\ indexed ix2 (swap_remove i ks).
Proof.
  intros (im & Hr & Hi) (Hp & Ho & Ek & Ei) Hk Hlast. destruct (erase_spec ix im p Hr Hp Ho) as (ix1 & E1 & Hr1). rewrite Ek in Hr1.
  exists ix1. split; [done|]. pose proof (indexes_swap_remove im ks i k Hi Hk) as Hs. rewrite Hlast in Hs.
  destruct (decide (i = length ks - 1)%nat) as [|Hne]; [by exists (delete k im)|].
  assert (Hlk : delete k im !! last = Some (length ks - 1)%nat).
  { rewrite lookup_delete_ne; [by apply Hi|]. intros ->. apply Hi in Hlast, Hk. congruence. }
  destruct (move_spec ix1 _ last _ i Hr1 Hlk) as (ix2 & E2 & Hr2). exists ix2. split; [done|]. by eexists.
Qed.

(** *** Room set aside before a change that must not fail *)

(** One more entry fits without growing. *)
Definition ready (ix : dyn_ix) : Prop := (u32 (cap ix * 7) <=? u32 (u32 (used ix + 1) * 10)) = false.

Lemma ready_small ix ks : indexed ix ks -> 10 * Z.of_nat (length ks) + 10 < 2 ^ 31 ->
  load_ok (cap ix) (used ix + 1) -> table_ok (slot ix) -> ready ix.
Proof.
  intros Hx Hs [Hl _] Hok. destruct (indexed_used _ _ Hx) as [Hu _]. unfold ready. rewrite Hu in *.
  rewrite (wrap_id 32 (_ + 1)) by (unfold fits; lia). rewrite (wrap_id 32 (_ * 10)) by (unfold fits; lia). apply Z.leb_gt.
  unfold cap in *. destruct (pow2_cases _ (ok_len _ Hok)) as [H1|[H1|H1]].
  - rewrite wrap_id by (unfold fits; lia). lia.
  - rewrite H1. change (u32 (2 ^ 30 * 7)) with 3221225472. lia.
  - rewrite H1. change (u32 (2 ^ 31 * 7)) with 2147483648. lia.
Qed.

Lemma indexed_reserve mem ix ks : indexed ix ks -> 10 * Z.of_nat (length ks) + 10 < 2 ^ 31 ->
  exists ok ix' mem', ix_reserve mem ix = Some (ok, ix', mem') /\ indexed ix' ks /\ (mem' = mem \/ mem' = tl mem) /\
    if ok then ready ix' else hd true mem = false.
Proof.
  intros Hx Hs. pose proof (indexed_used _ _ Hx) as [Hu _]. pose proof Hx as (im & Hr & Hi). unfold ix_reserve.
  destruct (u32 (cap ix * 7) <=? u32 (u32 (used ix + 1) * 10)) eqn:E.
  - destruct (grow_spec mem ix im Hr) as (ok & ix1 & -> & Hg). exists ok, ix1, (if 0x40000000 <? cap ix then mem else tl mem).
    destruct ok.
    + destruct Hg as (Hok & Hp & Hu1 & Hl1). assert (Hr1 : ix_repr ix1 im).
      { destruct Hr as [_ Hm Hu0 _]. split; [by right|by rewrite Hp|by rewrite Hu1, Hp|]. unfold load_ok in *. rewrite Hu1. lia. }
      split_and!; [done|by exists im|destruct (_ <? _); auto|]. apply (ready_small ix1 ks); [by exists im|done|by rewrite Hu1|done].
    + destruct Hg as [-> Hwhy]. split_and!; [done|done|destruct (_ <? _); auto|]. destruct Hwhy as [Hc|]; [exfalso|done].
      destruct (ir_table _ _ Hr) as [Es|Hok]; unfold cap in *; [rewrite Es in Hc; cbn in Hc; lia|].
      destruct (pow2_cases _ (ok_len _ Hok)) as [?|[?|H1]]; [lia..|]. rewrite H1, Hu in E. apply Z.leb_le in E.
      change (u32 (2 ^ 31 * 7)) with 2147483648 in E. rewrite !wrap_id in E by (unfold fits; rewrite ?wrap_id; unfold fits; lia). lia.
  - exists true, ix, mem. split_and!; auto.
Qed.

Lemma ready_insert mem ix im k i : ix_repr ix im -> im !! k = None -> ready ix ->
  exists ix', ix_insert mem ix (key_hash k) k i = Some (true, ix', mem) /\ ix_repr ix' (<[k := i]> im).
Proof.
  intros Hr Hk Hready. unfold ix_insert, ix_reserve. rewrite Hready. destruct (reserve_no_wrap ix im Hr Hready) as [Hok Hl].
  destruct (put_raw_spec (slot ix) k i Hok) as (sl & E & Hlen & Hok' & Hp); [by eapply repr_room|by eapply repr_fresh|].
  unfold cap. rewrite E. eexists. split; [done|]. apply repr_rekey; try done. by rewrite Hlen.
Qed.

Lemma erase_loop_len fuel sl mask i j sl' : ix_erase_loop fuel sl mask i j = Some sl' -> length sl' = length sl.
Proof.
  revert sl i j. induction fuel as [|fuel IH]; intros sl i j; cbn [ix_erase_loop]; [done|]. cbv zeta.
  destruct (_ =? 0); [by intros [= ->]|]. destruct (if (i <? _)%nat then _ else _); [|apply IH].
  intros E. apply IH in E. by rewrite !length_insert in E.
Qed.

Lemma erase_shape ix p ix' : ix_erase ix p = Some ix' -> cap ix' = cap ix /\ used ix' = used ix - 1.
Proof.
  unfold ix_erase, cap. destruct (ix_erase_loop _ _ _ _ _) as [sl|] eqn:E; [|done]. intros [= <-]. apply erase_loop_len in E.
  rewrite length_insert in E. cbn [slot used]. by rewrite E.
Qed.

Lemma erase_ready ix p ix' im : ix_erase ix p = Some ix' -> ix_repr ix im -> ready ix -> ready ix'.
Proof.
  intros [Ec Eu]%erase_shape [_ _ Hu [_ [_ Hl]]]. unfold ready. rewrite Ec, Eu, !Z.leb_gt.
  rewrite (wrap_id 32 (used ix + 1)), (wrap_id 32 ((used ix + 1) * 10)) by (unfold fits; lia).
  rewrite (wrap_id 32 (used ix - 1 + 1)), (wrap_id 32 ((used ix - 1 + 1) * 10)) by (unfold fits; lia). lia.
Qed.

Lemma move_ready ix h k i ix' : ix_move ix h k i = Some ix' -> ready ix -> ready ix'.
Proof.
  unfold ix_move, ready, cap. destruct (ix_find ix h k) as [[p|]|]; [|by intros [= <-]|done].
  intros [= <-]. cbn [slot used]. by rewrite length_insert.
Qed.

(** Giving the record [i] the key [k'] in place of [k], with room for it. *)
Lemma indexed_replace mem ix ks p k k' i : indexed ix ks -> slot_for ix p k i -> ks !! i = Some k -> k' ∉ ks -> ready ix ->
  exists ix1 ix2, ix_erase ix p = Some ix1 /\ ix_insert mem ix1 (key_hash k') k' i = Some (true, ix2, mem) /\
    indexed ix2 (<[i := k']> ks).
Proof.
  intros (im & Hr & Hi) (Hp & Ho & Ek & Ei) Hk Hk' Hready. destruct (erase_spec ix im p Hr Hp Ho) as (ix1 & E1 & Hr1). rewrite Ek in Hr1.
  pose proof (erase_ready ix p ix1 im E1 Hr Hready) as Hready1.
  assert (Hfresh : delete k im !! k' = None) by (rewrite lookup_delete_ne; [by eapply indexes_fresh|intros <-; destruct Hk'; by eapply list_elem_of_lookup_2]).
  destruct (ready_insert mem ix1 _ k' i Hr1 Hfresh Hready1) as (ix2 & E2 & Hr2). exists ix1, ix2. split_and!; try done.
  exists (<[k' := i]> (delete k im)). split; [done|]. by apply indexes_replace.
Qed.

(** An entry just appended can be taken back. *)
Lemma indexed_undo ix ks k p : indexed ix (ks ++ [k]) -> slot_for ix p k (length ks) ->
  exists ix1, ix_erase ix p = Some ix1 /\ indexed ix1 ks.
Proof.
  intros Hx Hs. assert (Hk : (ks ++ [k]) !! length ks = Some k) by (by rewrite lookup_app_r, Nat.sub_diag).
  assert (Hn : (length (ks ++ [k]) - 1)%nat = length ks) by (rewrite length_app; cbn; lia).
  destruct (indexed_remove ix (ks ++ [k]) p k (length ks) k Hx Hs Hk) as (ix1 & E & Hrm); [by rewrite Hn|].
  rewrite decide_True in Hrm by done. rewrite swap_remove_last in Hrm. by exists ix1.
Qed.

Lemma indexed_insert_ready mem ix ks k : indexed ix ks -> k ∉ ks -> ready ix ->
  exists ix', ix_insert mem ix (key_hash k) k (length ks) = Some (true, ix', mem) /\ indexed ix' (ks ++ [k]).
Proof.
  intros (im & Hr & Hi) Hk Hready. destruct (ready_insert mem ix im k (length ks) Hr) as (ix' & E & Hr'); [by eapply indexes_fresh|done|].
  exists ix'. split; [done|]. exists (<[k := length ks]> im). split; [done|]. by apply indexes_snoc.
Qed.

End Indexed.
