(* ===== verification/MSet.v ===== *)
(** * Multisets

    dyn_mset of src/core/dyn-ds.c: records of a key and a count in an array,
    indexed by key with the table of [Ix].

    [rec] is the live part of the array (its length is [len]).  [mem] answers
    the calls to the allocator still to come, one boolean each; when it is used
    up they succeed.  The outer [None] of an operation is a loop that does not
    end; the theorems show that it does not happen to a well-formed multiset. *)
From Stdlib Require Import ZArith Lia.
From stdpp Require Import base numbers list option gmap.
From S2P Require Import Prelude CrcTables Crc Xxh DsBase Ix.

(** ** Data *)

Record mset_rec := mk_rec { rkey : ds_key; rcount : Z }.
Record dyn_mset_t := mk_mset { rec : list mset_rec; rcap : Z; mix : dyn_ix; mtotal : Z; mem : list bool }.

Definition sizeof_mset_rec : Z := 32.

Definition rec0 : mset_rec := mk_rec (mk_key [] 0) 0.
Definition mlen (m : dyn_mset_t) : nat := length (rec m).
(** The record that the slot at [pos] of the index names. *)
Definition slot_idx (m : dyn_mset_t) (pos : nat) : nat := sidx (sget (slot (mix m)) pos).
Definition rec_at (m : dyn_mset_t) (i : nat) : mset_rec := nth i (rec m) rec0.
Definition set_count (r : mset_rec) (c : Z) : mset_rec := mk_rec (rkey r) c.

(** ** Operations *)

Definition dyn_mset_new (mem : list bool) : dyn_mset_t := mk_mset [] 0 ix_free 0 mem.

Definition dyn_mset_clear (m : dyn_mset_t) : dyn_mset_t := mk_mset [] (rcap m) ix_free 0 (mem m).

Definition mset_erase (m : dyn_mset_t) (i pos : nat) : option dyn_mset_t :=
  match ix_erase (mix m) pos with
  | None => None
  | Some ix =>
      let len := (mlen m - 1)%nat in
      if negb (i =? len)%nat then
        let r := rec_at m len in
        match ix_move ix (kh (rkey r)) (kp (rkey r)) i with
        | None => None
        | Some ix => Some (mk_mset (take len (<[i := r]> (rec m))) (rcap m) ix (mtotal m) (mem m))
        end
      else Some (mk_mset (take len (rec m)) (rcap m) ix (mtotal m) (mem m))
  end.

(** A new record with the count [c] at the end of the array. *)
Definition mset_append (m : dyn_mset_t) (k : bytes) (h c : Z) : option (bool * dyn_mset_t) :=
  match ds_reserve (mem m) (rcap m) (u32 (Z.of_nat (mlen m) + 1)) sizeof_mset_rec with
  | None => None
  | Some (false, cap, mem) => Some (false, mk_mset (rec m) cap (mix m) (mtotal m) mem)
  | Some (true, cap, mem) =>
      match key_init mem k h with
      | (None, mem) => Some (false, mk_mset (rec m) cap (mix m) (mtotal m) mem)
      | (Some key, mem) =>
          match ix_insert mem (mix m) h k (mlen m) with
          | None => None
          | Some (false, ix, mem) => Some (false, mk_mset (rec m) cap ix (mtotal m) mem)
          | Some (true, ix, mem) => Some (true, mk_mset (rec m ++ [mk_rec key c]) cap ix (u64_sat_add (mtotal m) c) mem)
          end
      end
  end.

Section Ops.
Context `{KeyHash}.

Definition with_total (m : dyn_mset_t) (t : Z) : dyn_mset_t := mk_mset (rec m) (rcap m) (mix m) t (mem m).
Definition with_count (m : dyn_mset_t) (i : nat) (c : Z) : dyn_mset_t :=
  mk_mset (<[i := set_count (rec_at m i) c]> (rec m)) (rcap m) (mix m) (mtotal m) (mem m).

(** Whether it succeeded, the count stored through [out] when it did, and the
    new state. *)
Definition dyn_mset_add (m : dyn_mset_t) (k : bytes) (delta : Z) : option (bool * Z * dyn_mset_t) :=
  let h := key_hash k in
  match ix_find (mix m) h k with
  | None => None
  | Some pos =>
      let cur := match pos with Some pos => rcount (rec_at m (slot_idx m pos)) | None => 0 end in
      if delta <? 0 then
        let sub := u64 (u64 (- (delta + 1)) + 1) in
        let nv := if cur <=? sub then 0 else u64 (cur - sub) in
        let m := with_total m (u64 (mtotal m - u64 (cur - nv))) in
        match pos with
        | Some pos =>
            let idx := slot_idx m pos in
            if nv =? 0 then match mset_erase m idx pos with Some m => Some (true, nv, m) | None => None end
            else Some (true, nv, with_count m idx nv)
        | None => Some (true, nv, m)
        end
      else if delta =? 0 then Some (true, cur, m)
      else match pos with
           | Some pos =>
               let idx := slot_idx m pos in
               let nc := u64_sat_add cur delta in
               Some (true, nc, with_count (with_total m (u64_sat_add (mtotal m) (u64 (nc - cur)))) idx nc)
           | None =>
               match mset_append m k h delta with
               | None => None
               | Some (ok, m) => Some (ok, delta, m)
               end
           end
  end.

Definition dyn_mset_set_count (m : dyn_mset_t) (k : bytes) (c : Z) : option (bool * dyn_mset_t) :=
  let h := key_hash k in
  match ix_find (mix m) h k with
  | None => None
  | Some (Some pos) =>
      let idx := slot_idx m pos in
      let m := with_total m (u64_sat_add (u64 (mtotal m - rcount (rec_at m idx))) c) in
      if c =? 0 then match mset_erase m idx pos with Some m => Some (true, m) | None => None end
      else Some (true, with_count m idx c)
  | Some None => if c =? 0 then Some (true, m) else mset_append m k h c
  end.

Definition dyn_mset_count (m : dyn_mset_t) (k : bytes) : option Z :=
  match ix_find (mix m) (key_hash k) k with
  | None => None
  | Some None => Some 0
  | Some (Some pos) => Some (rcount (rec_at m (slot_idx m pos)))
  end.

Definition dyn_mset_total (m : dyn_mset_t) : Z := mtotal m.
Definition dyn_mset_distinct (m : dyn_mset_t) : nat := mlen m.
Definition dyn_mset_at (m : dyn_mset_t) (i : nat) : option (bytes * Z) :=
  if (mlen m <=? i)%nat then None else Some (kp (rkey (rec_at m i)), rcount (rec_at m i)).

End Ops.

(** *** Sums of counts *)

Definition zsum (l : list Z) : Z := foldr Z.add 0 l.
Definition msum (c : gmap bytes Z) : Z := zsum (map_to_list c).*2.
Definition mcount (c : gmap bytes Z) (k : bytes) : Z := default 0 (c !! k).
(** The multiset where [k] has the count [v]. *)
Definition mput (k : bytes) (v : Z) (c : gmap bytes Z) : gmap bytes Z := if v =? 0 then delete k c else <[k := v]> c.

#[export] Instance zsum_proper : Proper (Permutation ==> eq) zsum.
Proof. intros l l' H. unfold zsum. induction H; cbn [foldr]; lia. Qed.

Lemma msum_delete k c : msum (delete k c) = msum c - mcount c k.
Proof.
  unfold mcount, msum. destruct (c !! k) as [v|] eqn:E; cbn [default from_option].
  - rewrite <- (map_to_list_delete c k v E). unfold zsum. cbn. unfold Datatypes.id. lia.
  - rewrite delete_id by done. lia.
Qed.

Lemma msum_insert k v c : msum (<[k := v]> c) = msum c - mcount c k + v.
Proof.
  rewrite <- insert_delete_eq. rewrite <- msum_delete. unfold msum.
  rewrite map_to_list_insert by apply lookup_delete_eq. unfold zsum. cbn. lia.
Qed.

Lemma msum_mput k v c : msum (mput k v c) = msum c - mcount c k + v.
Proof. unfold mput. destruct (Z.eqb_spec v 0) as [->|]; [rewrite msum_delete; lia|apply msum_insert]. Qed.

(** ** What a multiset stands for *)

Section Repr.
Context `{KeyHash}.

Definition keys (m : dyn_mset_t) : list bytes := (fun r => kp (rkey r)) <$> rec m.
Definition rec_kv (r : mset_rec) : bytes * Z := (kp (rkey r), rcount r).
Definition rec_ok (r : mset_rec) : Prop := kh (rkey r) = key_hash (kp (rkey r)) /\ 0 < rcount r < 2 ^ 64.

Record mset_repr (m : dyn_mset_t) (c : gmap bytes Z) : Prop := {
  mr_index : indexed (mix m) (keys m);
  mr_map : (rec_kv <$> rec m) ≡ₚ map_to_list c;
  mr_recs : Forall rec_ok (rec m);
  mr_cap : cap_ok (rcap m) /\ Z.of_nat (mlen m) <= rcap m;
  mr_total : fits 64 (mtotal m)
}.

Lemma repr_len m c : mset_repr m c -> used (mix m) = Z.of_nat (mlen m) /\ Z.of_nat (mlen m) <= 375809640.
Proof. intros Hr. pose proof (indexed_used _ _ (mr_index _ _ Hr)) as Hu. unfold keys in Hu. by rewrite length_fmap in Hu. Qed.

Lemma repr_key m c i k : mset_repr m c -> keys m !! i = Some k ->
  exists r, rec m !! i = Some r /\ rec_at m i = r /\ kp (rkey r) = k /\ c !! k = Some (rcount r) /\ rec_ok r.
Proof.
  intros [_ Hm Hr _ _] (r & -> & Hi)%list_lookup_fmap_Some. exists r. split_and!; try done.
  - unfold rec_at. rewrite nth_lookup, Hi. done.
  - apply elem_of_map_to_list. rewrite <- Hm. apply list_elem_of_fmap. exists r. split; [done|]. by eapply list_elem_of_lookup_2.
  - by eapply Forall_lookup.
Qed.

(** Finding a key finds its record, or says that there is none. *)
Definition found (m : dyn_mset_t) (c : gmap bytes Z) (k : bytes) (r : option nat) : Prop :=
  match r with
  | Some p => slot_for (mix m) p k (slot_idx m p) /\ keys m !! slot_idx m p = Some k
  | None => (k ∉ keys m) /\ c !! k = None
  end.

Lemma mfind_spec m c k : mset_repr m c -> exists r, ix_find (mix m) (key_hash k) k = Some r /\ found m c k r.
Proof.
  intros Hr. pose proof Hr as [Hx Hm _ _ _]. destruct (indexed_find _ _ k Hx) as (r & -> & Hres).
  exists r. split; [done|]. destruct r as [p|]; unfold found.
  - destruct Hres as (i & Hs & Hk). replace (slot_idx m p) with i; [done|]. symmetry. apply Hs.
  - split; [done|]. destruct (c !! k) as [v|] eqn:E; [|done]. destruct Hres. apply elem_of_map_to_list in E. rewrite <- Hm in E.
    apply list_elem_of_fmap in E as (r & [= -> ->] & Hin). apply list_elem_of_fmap. by exists r.
Qed.

Lemma mset_repr_new l : mset_repr (dyn_mset_new l) ∅.
Proof. split; cbn; [apply indexed_nil|by rewrite map_to_list_empty|constructor|split; [by left|done]|by split]. Qed.

Lemma with_total_repr m c t : mset_repr m c -> fits 64 t -> mset_repr (with_total m t) c.
Proof. intros [? ? ? ? ?] Ht. by split. Qed.

Lemma with_count_repr m c i k v : mset_repr m c -> keys m !! i = Some k -> 0 < v < 2 ^ 64 ->
  mset_repr (with_count m i v) (<[k := v]> c).
Proof.
  intros Hr Hk Hv. destruct (repr_key m c i k Hr Hk) as (r & Hi & Er & Ekp & Ec & Hrok).
  pose proof Hr as [Hix Hm Hrs Hc Ht]. unfold with_count. rewrite Er.
  split; unfold keys, mlen in *; cbn [rec mix rcap mtotal]; rewrite ?length_insert; try done.
  - rewrite list_fmap_insert. cbn [set_count rkey]. rewrite list_insert_id; [done|]. by rewrite list_lookup_fmap, Hi.
  - destruct (insert_perm (rec m) i r (set_count r v) Hi) as (rest & H1 & H2). rewrite H1 in Hm. rewrite H2.
    rewrite <- (map_to_list_delete c _ _ Ec) in Hm. cbn [fmap list_fmap] in *. unfold rec_kv at 1 in Hm. rewrite Ekp in Hm.
    apply Permutation_cons_inv in Hm. rewrite <- (insert_delete_eq c k v), map_to_list_insert by apply lookup_delete_eq.
    unfold rec_kv at 1. cbn [set_count rkey rcount]. rewrite Ekp. by constructor.
  - apply Forall_insert; [done|]. split; [apply Hrok|done].
Qed.

(** Removing a record: the last one takes its place, in the array and in the
    index. *)
Lemma mset_erase_spec m c k p : mset_repr m c -> found m c k (Some p) ->
  exists m', mset_erase m (slot_idx m p) p = Some m' /\ mset_repr m' (delete k c) /\ mtotal m' = mtotal m /\
    rec m' = swap_remove (slot_idx m p) (rec m).
Proof.
  intros Hr [Hs Hk]. set (i := slot_idx m p) in *. destruct (repr_key m c i k Hr Hk) as (r & Hi & _ & Ekp & Ec & Hrok).
  pose proof Hr as [Hx Hm Hrs [Hc1 Hc2] Ht]. pose proof (lookup_lt_Some _ _ _ Hi) as Hil.
  destruct (lookup_lt_is_Some_2 (rec m) (length (rec m) - 1)) as [last Hlast]; [lia|].
  assert (Hlk : keys m !! (length (keys m) - 1)%nat = Some (kp (rkey last))) by (unfold keys; by rewrite length_fmap, list_lookup_fmap, Hlast).
  destruct (indexed_remove _ _ p k i _ Hx Hs Hk Hlk) as (ix1 & E1 & Hrm).
  assert (Hfin : forall ix', indexed ix' (swap_remove i (keys m)) ->
    mset_repr (mk_mset (swap_remove i (rec m)) (rcap m) ix' (mtotal m) (mem m)) (delete k c)).
  { intros ix' Hx'. pose proof (swap_remove_perm (rec m) i r Hi) as Hperm. rewrite Hperm in Hm, Hrs.
    split; unfold keys, mlen in *; cbn [rec mix rcap mtotal]; try done.
    - by rewrite swap_remove_fmap.
    - rewrite <- (map_to_list_delete c _ _ Ec) in Hm. cbn [fmap list_fmap] in Hm. unfold rec_kv at 1 in Hm. rewrite Ekp in Hm.
      by apply Permutation_cons_inv in Hm.
    - by inversion Hrs.
    - split; [done|]. rewrite swap_remove_len by done. lia. }
  unfold mset_erase. rewrite E1. unfold mlen, rec_at. rewrite (nth_lookup_Some _ _ _ _ Hlast).
  unfold keys in Hrm. rewrite length_fmap in Hrm. fold (keys m) in Hrm.
  assert (Hrec : swap_remove i (rec m) = if decide (i = length (rec m) - 1)%nat then take (length (rec m) - 1) (rec m)
    else take (length (rec m) - 1) (<[i := last]> (rec m))) by (unfold swap_remove; by rewrite Hlast).
  destruct (Nat.eqb_spec i (length (rec m) - 1)), (decide (i = length (rec m) - 1)%nat); try done; cbn [negb]; rewrite <- Hrec.
  - eexists. split_and!; [done|by apply Hfin|done|done].
  - destruct Hrm as (ix2 & E2 & Hx2). assert (Hlr : rec_ok last) by (by eapply Forall_lookup). rewrite (proj1 Hlr), E2.
    eexists. split_and!; [done|by apply Hfin|done|done].
Qed.

(** The allocator refused a request, or the index is full. *)
Definition exhausted (m : dyn_mset_t) : Prop := false ∈ mem m \/ 2 ^ 31 <= 10 * Z.of_nat (mlen m) + 10.

Lemma mset_append_spec m c k v : mset_repr m c -> c !! k = None -> k ∉ keys m -> 0 < v < 2 ^ 64 ->
  exists ok m', mset_append m k (key_hash k) v = Some (ok, m') /\
    if ok then mset_repr m' (<[k := v]> c) /\ mtotal m' = u64_sat_add (mtotal m) v
    else mset_repr m' c /\ mtotal m' = mtotal m /\ exhausted m.
Proof.
  intros Hr Hck Hk Hv. pose proof Hr as [Hx Hm Hrs [Hc1 Hc2] Ht].
  destruct (repr_len m c Hr) as [Hu Hmax]. unfold mset_append, key_init, exhausted.
  assert (Hsame : forall cap' mem', cap_ok cap' -> Z.of_nat (mlen m) <= cap' ->
    mset_repr (mk_mset (rec m) cap' (mix m) (mtotal m) mem') c).
  { intros cap' mem' ? ?. by split. }
  destruct (reserve_spec (mem m) (rcap m) (mlen m) sizeof_mset_rec Hc1 Hc2 Hmax ltac:(unfold sizeof_mset_rec; lia))
    as (ok1 & cap1 & mem1 & -> & Hcap1 & Hmem1 & Hres1).
  destruct ok1; [|destruct Hres1 as [-> Hf]; eexists _, _; split; [done|]; split_and!; [by apply Hsame|done|left; by apply hd_false]].
  destruct (hd true mem1) eqn:Emem1; [|eexists _, _; split; [done|]; split_and!;
    [apply Hsame; [done|lia]|done|left; by eapply tl_elem, hd_false]].
  destruct (indexed_insert (tl mem1) (mix m) (keys m) k Hx Hk) as (ok2 & ix2 & mem2 & E2 & _ & Hres2).
  assert (Hlen : length (keys m) = mlen m) by (unfold keys; by rewrite length_fmap). rewrite Hlen in E2, Hres2. rewrite E2.
  destruct ok2.
  - eexists _, _. split; [done|]. split; [|done]. unfold keys, mlen in *. split; unfold keys, mlen; cbn [rec mix rcap mtotal].
    + by rewrite fmap_app.
    + rewrite fmap_app, map_to_list_insert, Permutation_app_comm by done. cbn. by rewrite Hm.
    + apply Forall_app. split; [done|]. apply Forall_singleton. by split.
    + split; [done|]. rewrite length_app. cbn. lia.
    + rewrite u64_sat_add_min by (unfold fits in *; lia). unfold fits, UINT64_MAX in *. lia.
  - destruct Hres2 as [-> Hwhy]. eexists _, _. split; [done|]. split_and!; [apply Hsame; [done|lia]|done|].
    destruct Hwhy as [Hfull|Hf]; [right; lia|left]. apply (tl_elem (mem m) mem1); [done|].
    apply (tl_elem mem1 (tl mem1)); [by right|by apply hd_false].
Qed.

(** The count that dyn_mset_add gives a key. *)
Definition madd (cur delta : Z) : Z := if delta <? 0 then Z.max 0 (cur + delta) else Z.min (cur + delta) UINT64_MAX.

Lemma repr_count_pos m c k v : mset_repr m c -> c !! k = Some v -> 0 < v < 2 ^ 64.
Proof.
  intros [_ Hm Hrs _ _] E. apply elem_of_map_to_list in E. rewrite <- Hm in E.
  apply list_elem_of_fmap in E as (r & [= -> ->] & Hin). rewrite Forall_forall in Hrs. by destruct (Hrs r Hin).
Qed.

Lemma mcount_range m c k : mset_repr m c -> 0 <= mcount c k < 2 ^ 64.
Proof.
  intros Hr. unfold mcount. destruct (c !! k) as [v|] eqn:E; [|cbn; lia]. pose proof (repr_count_pos _ _ _ _ Hr E). cbn. unfold Datatypes.id. lia.
Qed.

Lemma mput_same m c k : mset_repr m c -> mput k (mcount c k) c = c.
Proof.
  intros Hr. unfold mput, mcount. destruct (c !! k) as [v|] eqn:E; cbn; [|by apply delete_id].
  pose proof (repr_count_pos _ _ _ _ Hr E). unfold Datatypes.id. rewrite (proj2 (Z.eqb_neq _ _)) by lia. by apply insert_id.
Qed.

Lemma msum_ge m c k : mset_repr m c -> mcount c k <= msum c.
Proof.
  intros Hr. pose proof (msum_delete k c) as E. enough (0 <= msum (delete k c)) by lia. clear E.
  assert (Hpos : forall l : list (bytes * Z), Forall (fun p => 0 <= p.2) l -> 0 <= zsum l.*2).
  { intros l. unfold zsum. induction 1; cbn in *; lia. }
  unfold msum. apply Hpos. apply Forall_forall. intros [k' v] Hin%elem_of_map_to_list. cbn.
  apply lookup_delete_Some in Hin as [_ Hk']. pose proof (mcount_range m c k' Hr) as Hc. unfold mcount in Hc. rewrite Hk' in Hc. cbn in Hc.
  unfold Datatypes.id in Hc. lia.
Qed.

Lemma mput_absent (c : gmap bytes Z) k : c !! k = None -> mput k 0 c = c.
Proof. intros. unfold mput. cbn. by apply delete_id. Qed.

(** The whole of an update that finds the key: erase or rewrite its record. *)
Lemma mset_update_spec m c k p v t : mset_repr m c -> found m c k (Some p) -> 0 <= v < 2 ^ 64 -> fits 64 t ->
  exists m', (if v =? 0 then mset_erase (with_total m t) (slot_idx m p) p else Some (with_count (with_total m t) (slot_idx m p) v)) = Some m' /\
    mset_repr m' (mput k v c) /\ mtotal m' = t.
Proof.
  intros Hr Hf Hv Ht. pose proof (with_total_repr m c t Hr Ht) as Hr'. unfold mput. destruct (Z.eqb_spec v 0).
  - destruct (mset_erase_spec (with_total m t) c k p Hr' Hf) as (m' & E & Hm' & Ht' & _). by exists m'.
  - eexists. split; [done|]. split; [|done]. apply with_count_repr; [done|apply Hf|lia].
Qed.

End Repr.

Section OpsSpec.
Context `{KeyHash}.
Context (m : dyn_mset_t) (c : gmap bytes Z) (Hr : mset_repr m c).

(** The count the operations read after the search. *)
Lemma cur_spec k r : found m c k r ->
  match r with Some pos => rcount (rec_at m (slot_idx m pos)) | None => 0 end = mcount c k.
Proof.
  intros Hres. unfold mcount. destruct r as [p|]; [|by destruct Hres as [_ ->]]. destruct Hres as [_ Hk].
  by destruct (repr_key m c _ k Hr Hk) as (r & _ & -> & _ & -> & _).
Qed.

(** Saturating sums of totals are exact below 2^64. *)
Lemma total_raised t k v : t = msum c -> 0 <= v < 2 ^ 64 -> msum (mput k v c) < 2 ^ 64 ->
  u64_sat_add (u64 (t - mcount c k)) v = msum (mput k v c).
Proof.
  intros -> Hv. rewrite msum_mput. pose proof (msum_ge m c k Hr). pose proof (mcount_range m c k Hr). intros Hs.
  rewrite wrap_id by (unfold fits; lia). rewrite u64_sat_add_min by (unfold fits; lia). unfold UINT64_MAX. lia.
Qed.

Lemma total_lowered t k v : fits 64 t -> t = msum c -> 0 <= v <= mcount c k -> u64 (t - (mcount c k - v)) = msum (mput k v c).
Proof.
  intros Ht E Hv. rewrite msum_mput. pose proof (msum_ge m c k Hr). pose proof (mcount_range m c k Hr). unfold fits in Ht.
  rewrite wrap_id by (unfold fits; lia). lia.
Qed.

Lemma total_added t k v : fits 64 t -> t = msum c -> mcount c k <= v < 2 ^ 64 -> msum (mput k v c) < 2 ^ 64 ->
  u64_sat_add t (u64 (v - mcount c k)) = msum (mput k v c).
Proof.
  intros Ht E Hv. rewrite msum_mput. pose proof (mcount_range m c k Hr). intros Hs. unfold fits in Ht.
  rewrite wrap_id by (unfold fits; lia). rewrite u64_sat_add_min by (unfold fits; lia). unfold UINT64_MAX. lia.
Qed.

Definition add_result (k : bytes) (delta : Z) (res : option (bool * Z * dyn_mset_t)) : Prop :=
  exists ok out m', res = Some (ok, out, m') /\
    let new := madd (mcount c k) delta in
    let c' := if ok then mput k new c else c in
    mset_repr m' c' /\ (ok = true -> out = new) /\
    (ok = false -> 0 < delta /\ c !! k = None /\ exhausted m) /\
    (mtotal m = msum c -> msum c' < 2 ^ 64 -> mtotal m' = msum c').

Lemma add_lower k delta : - 2 ^ 63 <= delta < 0 -> add_result k delta (dyn_mset_add m k delta).
Proof.
  intros Hd. pose proof (mcount_range m c k Hr) as Hcur. pose proof (mr_total _ _ Hr) as Htot. unfold dyn_mset_add.
  destruct (mfind_spec m c k Hr) as (r & -> & Hres). rewrite (cur_spec k r Hres). rewrite ltb_true by lia.
  unfold add_result, madd. rewrite ltb_true by lia. set (cur := mcount c k) in *.
  assert (u64 (u64 (- (delta + 1)) + 1) = - delta) as -> by (rewrite !wrap_id; unfold fits; rewrite ?wrap_id; unfold fits; lia).
  assert ((if cur <=? - delta then 0 else u64 (cur - - delta)) = Z.max 0 (cur + delta)) as ->.
  { destruct (Z.leb_spec cur (- delta)); [lia|]. rewrite wrap_id by (unfold fits; lia). lia. }
  set (nv := Z.max 0 (cur + delta)). assert (Hnv : 0 <= nv <= cur) by lia. cbv zeta.
  rewrite (wrap_id 64 (cur - nv)) by (unfold fits; lia).
  pose proof (total_lowered (mtotal m) k nv Htot) as Hto. fold cur in Hto.
  assert (Hft : fits 64 (u64 (mtotal m - (cur - nv)))) by (apply wrap_fits; lia). destruct r as [p|].
  - destruct (mset_update_spec m c k p nv _ Hr Hres ltac:(lia) Hft) as (m' & E & Hr' & Ht').
    exists true, nv, m'. split; [|split_and!; try done; intros; rewrite Ht'; auto].
    change (slot_idx (with_total m _) p) with (slot_idx m p). destruct (nv =? 0); [by rewrite E|by injection E as ->].
  - destruct Hres as [_ Hck]. assert (Hcur0 : cur = 0) by (unfold cur, mcount; by rewrite Hck).
    eexists true, nv, _. split; [done|]. assert (nv = 0) as Hnv0 by lia. rewrite Hnv0 in Hto, Hft |- *. rewrite mput_absent in Hto |- * by done.
    split_and!; try done; [by apply with_total_repr|]. intros. cbn. apply Hto; [done|lia].
Qed.

Lemma add_raise k delta : 0 <= delta < 2 ^ 63 -> add_result k delta (dyn_mset_add m k delta).
Proof.
  intros Hd. pose proof (mcount_range m c k Hr) as Hcur. pose proof (mr_total _ _ Hr) as Htot. unfold dyn_mset_add.
  destruct (mfind_spec m c k Hr) as (r & -> & Hres). rewrite (cur_spec k r Hres). rewrite ltb_false by lia.
  unfold add_result, madd. rewrite ltb_false by lia. destruct (Z.eqb_spec delta 0) as [->|Hnz].
  { exists true, (mcount c k), m. split; [done|]. cbv zeta.
    replace (Z.min _ UINT64_MAX) with (mcount c k) by (unfold UINT64_MAX; lia). rewrite (mput_same m) by done. by split_and!. }
  set (cur := mcount c k) in *. assert (Hnew : u64_sat_add cur delta = Z.min (cur + delta) UINT64_MAX) by (apply u64_sat_add_min; unfold fits; lia).
  rewrite Hnew. set (nc := Z.min (cur + delta) UINT64_MAX) in *. assert (Hnc : cur <= nc < 2 ^ 64 /\ 0 < nc) by (unfold nc, UINT64_MAX; lia).
  destruct r as [p|].
  - set (t := u64_sat_add _ _).
    assert (Hft : fits 64 t). { unfold t. rewrite u64_sat_add_min; unfold UINT64_MAX, fits in *; pose proof (wrap_fits 64 (nc - cur)) as [? ?]; lia. }
    destruct (mset_update_spec m c k p nc t Hr Hres ltac:(lia) Hft) as (m' & E & Hr' & Ht').
    rewrite (proj2 (Z.eqb_neq _ _)) in E by lia. injection E as E.
    exists true, nc, m'. split; [by rewrite <- E|]. split_and!; try done. intros. rewrite Ht'. apply total_added; [done..|lia|done].
  - destruct Hres as [Hk Hck]. assert (Hcur0 : cur = 0) by (unfold cur, mcount; by rewrite Hck).
    assert (nc = delta) as -> by (unfold nc, UINT64_MAX; lia).
    destruct (mset_append_spec m c k delta Hr Hck Hk ltac:(lia)) as (ok & m' & -> & Hm'). exists ok, delta, m'. split; [done|].
    cbv zeta. destruct ok.
    + destruct Hm' as [Hr' Ht']. assert (mput k delta c = <[k := delta]> c) as Emp by (unfold mput; by rewrite (proj2 (Z.eqb_neq _ _)) by lia).
      rewrite Emp. split_and!; try done. intros E Hs. rewrite Ht', <- Emp. rewrite <- Emp in Hs.
      rewrite <- (total_added (mtotal m) k delta) by (done || fold cur; lia). fold cur. rewrite Hcur0, Z.sub_0_r, (wrap_id 64 delta) by (unfold fits; lia). done.
    + destruct Hm' as (Hr' & Ht' & Hex). split_and!; try done; [by intros _; split_and!; [lia|done|done]|]. intros E _. by rewrite Ht'.
Qed.

End OpsSpec.

Module MSet_props.

(** C10. Adding to a multiset refines adding in the map of counts: the count is
    raised, or lowered and stopped at zero, saturating at 2^64 - 1; a key whose
    count becomes zero is gone; the call fails only for a key that is not in
    the multiset when memory or the index is exhausted, and then nothing
    changes.  The operation ends, and the total stays the sum of the counts as
    long as the sum fits 64 bits. *)
Theorem mset_add_refines `{KeyHash} m c k delta : mset_repr m c -> sfits 64 delta ->
  exists ok out m', dyn_mset_add m k delta = Some (ok, out, m') /\
    let new := madd (mcount c k) delta in
    let c' := if ok then mput k new c else c in
    mset_repr m' c' /\ (ok = true -> out = new) /\
    (ok = false -> 0 < delta /\ c !! k = None /\ exhausted m) /\
    (mtotal m = msum c -> msum c' < 2 ^ 64 -> mtotal m' = msum c').
Proof.
  intros Hr Hd. unfold sfits in Hd. destruct (Z_lt_le_dec delta 0); [apply add_lower|apply add_raise]; (done || lia).
Qed.

Lemma mset_add_refines_witness : exists ok out m',
  @dyn_mset_add (ix_hash_KeyHash 1 2) (dyn_mset_new []) [97] 3 = Some (ok, out, m') /\
    @mset_repr (ix_hash_KeyHash 1 2) m' (if ok then mput [97] 3 ∅ else ∅).
Proof.
  destruct (@mset_add_refines (ix_hash_KeyHash 1 2) (dyn_mset_new []) ∅ [97] 3 (mset_repr_new []) ltac:(by vm_compute))
    as (ok & out & m' & E & H & _). by exists ok, out, m'.
Defined.

(** Setting a count refines setting it in the map of counts, a count of zero
    removing the key; the same failures, and the total stays exact. *)
Theorem mset_set_count_refines `{KeyHash} m c k v : mset_repr m c -> fits 64 v ->
  exists ok m', dyn_mset_set_count m k v = Some (ok, m') /\
    let c' := if ok then mput k v c else c in
    mset_repr m' c' /\ (ok = false -> 0 < v /\ c !! k = None /\ exhausted m) /\
    (mtotal m = msum c -> msum c' < 2 ^ 64 -> mtotal m' = msum c').
Proof.
  intros Hr Hv. unfold fits in Hv. pose proof (mr_total _ _ Hr) as Htot. unfold dyn_mset_set_count.
  destruct (mfind_spec m c k Hr) as (r & -> & Hres). pose proof (cur_spec m c Hr k r Hres) as Hcur. destruct r as [p|].
  - rewrite Hcur. set (t := u64_sat_add _ _).
    assert (Hft : fits 64 t).
    { unfold t. pose proof (wrap_fits 64 (mtotal m - mcount c k)) as [? ?]; [lia|]. rewrite u64_sat_add_min; unfold UINT64_MAX, fits in *; lia. }
    destruct (mset_update_spec m c k p v t Hr Hres Hv Hft) as (m' & E & Hr' & Ht'). exists true, m'.
    split; [destruct (v =? 0); [by rewrite E|by injection E as ->]|]. split_and!; try done.
    intros. rewrite Ht'. by apply (total_raised m).
  - destruct Hres as [Hk Hck]. destruct (Z.eqb_spec v 0) as [->|Hnz].
    { exists true, m. split; [done|]. cbv zeta. by rewrite mput_absent. }
    destruct (mset_append_spec m c k v Hr Hck Hk ltac:(lia)) as (ok & m' & -> & Hm'). exists ok, m'. split; [done|]. cbv zeta.
    assert (Emp : mput k v c = <[k := v]> c) by (unfold mput; by rewrite (proj2 (Z.eqb_neq _ _))).
    destruct ok; rewrite ?Emp.
    + destruct Hm' as [Hr' Ht']. split_and!; try done. intros E Hs. rewrite Ht'. rewrite <- Emp in Hs |- *.
      rewrite <- (total_raised m c Hr (mtotal m) k v) by done. unfold mcount. rewrite Hck. cbn. by rewrite Z.sub_0_r, wrap_id.
    + destruct Hm' as (Hr' & Ht' & Hex). split_and!; try done; [by intros _; split_and!; [lia|done|done]|]. intros E _. by rewrite Ht'.
Qed.

Lemma mset_set_count_refines_witness : exists ok m',
  @dyn_mset_set_count (ix_hash_KeyHash 1 2) (dyn_mset_new [false]) [97] 3 = Some (ok, m') /\
    @mset_repr (ix_hash_KeyHash 1 2) m' (if ok then mput [97] 3 ∅ else ∅).
Proof.
  destruct (@mset_set_count_refines (ix_hash_KeyHash 1 2) (dyn_mset_new [false]) ∅ [97] 3 (mset_repr_new _) ltac:(by vm_compute))
    as (ok & m' & E & H & _). by exists ok, m'.
Defined.

(** Reading: the count of every key is the one in the map, the number of
    distinct keys is its size, and walking the positions gives every key with
    its count exactly once. *)
Theorem mset_reads `{KeyHash} m c : mset_repr m c ->
  (forall k, dyn_mset_count m k = Some (mcount c k)) /\ dyn_mset_distinct m = size c /\
  omap (dyn_mset_at m) (seq 0 (dyn_mset_distinct m)) ≡ₚ map_to_list c /\
  (forall i, (dyn_mset_distinct m <= i)%nat -> dyn_mset_at m i = None).
Proof.
  intros Hr. pose proof (mr_map _ _ Hr) as Hm. split_and!.
  - intros k. unfold dyn_mset_count. destruct (mfind_spec m c k Hr) as (r & -> & Hres).
    pose proof (cur_spec m c Hr k r Hres) as Hcur. destruct r; by rewrite <- Hcur.
  - unfold dyn_mset_distinct, mlen. apply Permutation_length in Hm. by rewrite length_fmap, length_map_to_list in Hm.
  - rewrite <- Hm. unfold dyn_mset_distinct, mlen. replace (omap _ _) with (rec_kv <$> rec m); [done|].
    assert (Hg : forall pre l, rec m = pre ++ l -> rec_kv <$> l = omap (dyn_mset_at m) (seq (length pre) (length l))); [|by apply (Hg [])].
    intros pre l. revert pre. induction l as [|r l IH]; intros pre E; [done|]. cbn [length seq].
    assert (Hat : dyn_mset_at m (length pre) = Some (rec_kv r)).
    { unfold dyn_mset_at, mlen, rec_at. rewrite E, length_app. cbn [length]. rewrite (proj2 (Nat.leb_gt _ _)) by lia.
      by rewrite nth_middle. }
    cbn [omap list_omap]. rewrite Hat, fmap_cons. f_equal. rewrite (IH (pre ++ [r])) by (by rewrite E, <- app_assoc).
    rewrite length_app. cbn [length]. by rewrite Nat.add_comm.
  - intros i Hi. unfold dyn_mset_at. unfold dyn_mset_distinct in Hi. by rewrite (proj2 (Nat.leb_le _ _)).
Qed.

Lemma mset_reads_witness : @dyn_mset_count (ix_hash_KeyHash 1 2) (dyn_mset_new []) [97] = Some 0 /\ dyn_mset_distinct (dyn_mset_new []) = 0%nat.
Proof. destruct (@mset_reads (ix_hash_KeyHash 1 2) (dyn_mset_new []) ∅ (mset_repr_new [])) as (H1 & H2 & _). split; [apply (H1 [97])|exact H2]. Defined.

(** Past 2^64 the total saturates when it is raised but not when it is lowered:
    here it is zero with a key of count five left. *)
Example mset_total_drifts :
  (let set k v r := match r with Some (true, m) => @dyn_mset_set_count (ix_hash_KeyHash 1 2) m k v | r => r end in
   match set [97] 0 (set [98] 5 (set [97] (2 ^ 64 - 1) (Some (true, dyn_mset_new [])))) with
   | Some (true, m) => Some (dyn_mset_total m, @dyn_mset_count (ix_hash_KeyHash 1 2) m [98])
   | _ => None
   end) = Some (0, Some 5).
Proof. by vm_compute. Qed.

End MSet_props.
