(* ===== verification/BiMap.v ===== *)
(** * Bidirectional maps

    dyn_bimap of src/core/dyn-ds.c: records of a key and a value, indexed by
    key ([fwd]) and by value ([rev]), so that values are unique as well.

    [brec] is the live part of the array.  The outer [None] of an operation is
    a loop that does not end or an access to the slot UINT32_MAX; the theorems
    show that neither happens. *)
From Stdlib Require Import ZArith Lia.
From stdpp Require Import base numbers list option gmap.
From S2P Require Import Prelude CrcTables Crc Xxh DsBase Ix.

Record bimap_rec := mk_brec { bkey : ds_key; bval : ds_key }.
Record dyn_bimap_t := mk_bimap { brec : list bimap_rec; bcap : Z; fwd : dyn_ix; rev : dyn_ix; bmem : list bool }.

Definition sizeof_bimap_rec : Z := 48.
Definition DYN_BIMAP_VALUE_TAKEN : Z := 1.

Definition brec0 : bimap_rec := mk_brec (mk_key [] 0) (mk_key [] 0).
Definition blen (b : dyn_bimap_t) : nat := length (brec b).
Definition brec_at (b : dyn_bimap_t) (i : nat) : bimap_rec := nth i (brec b) brec0.
Definition idx_of (ix : dyn_ix) (pos : nat) : nat := sidx (sget (slot ix) pos).

Definition dyn_bimap_new (mem : list bool) : dyn_bimap_t := mk_bimap [] 0 ix_free ix_free mem.
Definition dyn_bimap_clear (b : dyn_bimap_t) : dyn_bimap_t := mk_bimap [] (bcap b) ix_free ix_free (bmem b).

(** [if (pos != UINT32_MAX) ix_erase(ix, pos)] *)
Definition erase_if (ix : dyn_ix) (pos : option nat) : option dyn_ix :=
  match pos with Some p => ix_erase ix p | None => Some ix end.

Definition find_key (ix : dyn_ix) (k : ds_key) : option (option nat) := ix_find ix (kh k) (kp k).
Definition move_key (ix : dyn_ix) (k : ds_key) (i : nat) : option dyn_ix := ix_move ix (kh k) (kp k) i.

Definition bimap_erase (b : dyn_bimap_t) (idx : nat) : option dyn_bimap_t :=
  let r := brec_at b idx in
  fp ← find_key (fwd b) (bkey r);
  rp ← find_key (rev b) (bval r);
  f ← erase_if (fwd b) fp;
  v ← erase_if (rev b) rp;
  let len := (blen b - 1)%nat in
  if negb (idx =? len)%nat then
    let last := brec_at b len in
    f ← move_key f (bkey last) idx;
    v ← move_key v (bval last) idx;
    Some (mk_bimap (take len (<[idx := last]> (brec b))) (bcap b) f v (bmem b))
  else Some (mk_bimap (take len (brec b)) (bcap b) f v (bmem b)).

Section Ops.
Context `{KeyHash}.

(** The record [idx] gets the value [nv]; the old value leaves the index. *)
Definition bimap_set_value (b : dyn_bimap_t) (idx : nat) (nv : ds_key) : option dyn_bimap_t :=
  let r := brec_at b idx in
  op ← find_key (rev b) (bval r);
  v ← erase_if (rev b) op;
  match ix_insert (bmem b) v (kh nv) (kp nv) idx with
  | Some (_, v, mem) => Some (mk_bimap (<[idx := mk_brec (bkey r) nv]> (brec b)) (bcap b) (fwd b) v mem)
  | None => None
  end.

(** The key has another value and the value another key: the value's record
    goes and the key's record takes the value. *)
Definition bimap_put_both (b : dyn_bimap_t) (k v : bytes) : option (Z * dyn_bimap_t) :=
  match ix_reserve (bmem b) (rev b) with
  | None => None
  | Some (false, rv, mem) => Some (-1, mk_bimap (brec b) (bcap b) (fwd b) rv mem)
  | Some (true, rv, mem) =>
      match key_init mem v (key_hash v) with
      | (None, mem) => Some (-1, mk_bimap (brec b) (bcap b) (fwd b) rv mem)
      | (Some nv, mem) =>
          let b := mk_bimap (brec b) (bcap b) (fwd b) rv mem in
          vp ← ix_find (rev b) (key_hash v) v;
          vp ← vp;
          b ← bimap_erase b (idx_of (rev b) vp);
          kp ← ix_find (fwd b) (key_hash k) k;
          kp ← kp;
          b ← bimap_set_value b (idx_of (fwd b) kp) nv;
          Some (0, b)
      end
  end.

(** Only the value is there: its record goes and a new one is appended. *)
Definition bimap_put_steal (b : dyn_bimap_t) (k v : bytes) : option (Z * dyn_bimap_t) :=
  match ds_reserve (bmem b) (bcap b) (u32 (Z.of_nat (blen b) + 1)) sizeof_bimap_rec with
  | None => None
  | Some (false, cap, mem) => Some (-1, mk_bimap (brec b) cap (fwd b) (rev b) mem)
  | Some (true, cap, mem) =>
      match key_init mem k (key_hash k) with
      | (None, mem) => Some (-1, mk_bimap (brec b) cap (fwd b) (rev b) mem)
      | (Some nk, mem) =>
          match key_init mem v (key_hash v) with
          | (None, mem) => Some (-1, mk_bimap (brec b) cap (fwd b) (rev b) mem)
          | (Some nv, mem) =>
              match ix_reserve mem (fwd b) with
              | None => None
              | Some (false, f, mem) => Some (-1, mk_bimap (brec b) cap f (rev b) mem)
              | Some (true, f, mem) =>
                  match ix_reserve mem (rev b) with
                  | None => None
                  | Some (false, rv, mem) => Some (-1, mk_bimap (brec b) cap f rv mem)
                  | Some (true, rv, mem) =>
                      vp ← ix_find rv (key_hash v) v;
                      vp ← vp;
                      b ← bimap_erase (mk_bimap (brec b) cap f rv mem) (idx_of rv vp);
                      match ix_insert (bmem b) (fwd b) (key_hash k) k (blen b) with
                      | None => None
                      | Some (_, f, mem) =>
                          match ix_insert mem (rev b) (key_hash v) v (blen b) with
                          | None => None
                          | Some (_, rv, mem) => Some (0, mk_bimap (brec b ++ [mk_brec nk nv]) (bcap b) f rv mem)
                          end
                      end
                  end
              end
          end
      end
  end.

(** Only the key is there: its record takes the value. *)
Definition bimap_put_value (b : dyn_bimap_t) (idx : nat) (v : bytes) : option (Z * dyn_bimap_t) :=
  _ ← find_key (rev b) (bval (brec_at b idx));
  match ix_reserve (bmem b) (rev b) with
  | None => None
  | Some (false, rv, mem) => Some (-1, mk_bimap (brec b) (bcap b) (fwd b) rv mem)
  | Some (true, rv, mem) =>
      match key_init mem v (key_hash v) with
      | (None, mem) => Some (-1, mk_bimap (brec b) (bcap b) (fwd b) rv mem)
      | (Some nv, mem) =>
          b ← bimap_set_value (mk_bimap (brec b) (bcap b) (fwd b) rv mem) idx nv;
          Some (0, b)
      end
  end.

(** Neither is there. *)
Definition bimap_put_new (b : dyn_bimap_t) (k v : bytes) : option (Z * dyn_bimap_t) :=
  match ds_reserve (bmem b) (bcap b) (u32 (Z.of_nat (blen b) + 1)) sizeof_bimap_rec with
  | None => None
  | Some (false, cap, mem) => Some (-1, mk_bimap (brec b) cap (fwd b) (rev b) mem)
  | Some (true, cap, mem) =>
      match key_init mem k (key_hash k) with
      | (None, mem) => Some (-1, mk_bimap (brec b) cap (fwd b) (rev b) mem)
      | (Some nk, mem) =>
          match key_init mem v (key_hash v) with
          | (None, mem) => Some (-1, mk_bimap (brec b) cap (fwd b) (rev b) mem)
          | (Some nv, mem) =>
              match ix_insert mem (fwd b) (key_hash k) k (blen b) with
              | None => None
              | Some (false, f, mem) => Some (-1, mk_bimap (brec b) cap f (rev b) mem)
              | Some (true, f, mem) =>
                  match ix_insert mem (rev b) (key_hash v) v (blen b) with
                  | None => None
                  | Some (false, rv, mem) =>
                      fp ← ix_find f (key_hash k) k;
                      f ← erase_if f fp;
                      Some (-1, mk_bimap (brec b) cap f rv mem)
                  | Some (true, rv, mem) => Some (0, mk_bimap (brec b ++ [mk_brec nk nv]) cap f rv mem)
                  end
              end
          end
      end
  end.

(** The code returned (0, 1 when the value is taken, -1 when memory ran out)
    and the new state. *)
Definition dyn_bimap_put (b : dyn_bimap_t) (k v : bytes) (force : bool) : option (Z * dyn_bimap_t) :=
  kp ← ix_find (fwd b) (key_hash k) k;
  vp ← ix_find (rev b) (key_hash v) v;
  match kp, vp with
  | Some kp, Some vp =>
      if (idx_of (fwd b) kp =? idx_of (rev b) vp)%nat then Some (0, b)
      else if negb force then Some (DYN_BIMAP_VALUE_TAKEN, b)
      else bimap_put_both b k v
  | None, Some _ => if negb force then Some (DYN_BIMAP_VALUE_TAKEN, b) else bimap_put_steal b k v
  | Some kp, None => bimap_put_value b (idx_of (fwd b) kp) v
  | None, None => bimap_put_new b k v
  end.

Definition dyn_bimap_get (b : dyn_bimap_t) (k : bytes) : option (option bytes) :=
  pos ← ix_find (fwd b) (key_hash k) k;
  match pos with
  | None => Some None
  | Some pos => Some (Some (kp (bval (brec_at b (idx_of (fwd b) pos)))))
  end.

Definition dyn_bimap_key_for (b : dyn_bimap_t) (v : bytes) : option (option bytes) :=
  pos ← ix_find (rev b) (key_hash v) v;
  match pos with
  | None => Some None
  | Some pos => Some (Some (kp (bkey (brec_at b (idx_of (rev b) pos)))))
  end.

Definition dyn_bimap_remove (b : dyn_bimap_t) (k : bytes) : option (bool * dyn_bimap_t) :=
  pos ← ix_find (fwd b) (key_hash k) k;
  match pos with
  | None => Some (false, b)
  | Some pos => b ← bimap_erase b (idx_of (fwd b) pos); Some (true, b)
  end.

Definition dyn_bimap_remove_value (b : dyn_bimap_t) (v : bytes) : option (bool * dyn_bimap_t) :=
  pos ← ix_find (rev b) (key_hash v) v;
  match pos with
  | None => Some (false, b)
  | Some pos => b ← bimap_erase b (idx_of (rev b) pos); Some (true, b)
  end.

Definition dyn_bimap_size (b : dyn_bimap_t) : nat := blen b.
Definition dyn_bimap_at (b : dyn_bimap_t) (i : nat) : option (bytes * bytes) :=
  if (blen b <=? i)%nat then None else Some (kp (bkey (brec_at b i)), kp (bval (brec_at b i))).

End Ops.

(** ** What a bidirectional map stands for *)

Section Repr.
Context `{KeyHash}.

Definition bkeys (b : dyn_bimap_t) : list bytes := (fun r => kp (bkey r)) <$> brec b.
Definition bvals (b : dyn_bimap_t) : list bytes := (fun r => kp (bval r)) <$> brec b.
Definition brec_kv (r : bimap_rec) : bytes * bytes := (kp (bkey r), kp (bval r)).
Definition key_ok (k : ds_key) : Prop := kh k = key_hash (kp k).
Definition brec_ok (r : bimap_rec) : Prop := key_ok (bkey r) /\ key_ok (bval r).

Record bimap_repr (b : dyn_bimap_t) (m : gmap bytes bytes) : Prop := {
  br_fwd : indexed (fwd b) (bkeys b);
  br_rev : indexed (rev b) (bvals b);
  br_map : (brec_kv <$> brec b) ≡ₚ map_to_list m;
  br_recs : Forall brec_ok (brec b);
  br_cap : cap_ok (bcap b) /\ Z.of_nat (blen b) <= bcap b
}.

Lemma bimap_repr_new l : bimap_repr (dyn_bimap_new l) ∅.
Proof. split; cbn; [apply indexed_nil..|by rewrite map_to_list_empty|constructor|split; [by left|done]]. Qed.

(** Allocation and growth change the bookkeeping only. *)
Lemma bimap_repr_same b m cap f v l : bimap_repr b m -> indexed f (bkeys b) -> indexed v (bvals b) -> cap_ok cap ->
  Z.of_nat (blen b) <= cap -> bimap_repr (mk_bimap (brec b) cap f v l) m.
Proof. intros [? ? ? ? ?] ? ? ? ?. by split. Qed.

Lemma bkeys_len b : length (bkeys b) = blen b.
Proof. apply length_fmap. Qed.
Lemma bvals_len b : length (bvals b) = blen b.
Proof. apply length_fmap. Qed.

Lemma brec_lookup b m i r : bimap_repr b m -> brec b !! i = Some r ->
  brec_at b i = r /\ bkeys b !! i = Some (kp (bkey r)) /\ bvals b !! i = Some (kp (bval r)) /\
  m !! kp (bkey r) = Some (kp (bval r)) /\ brec_ok r.
Proof.
  intros [_ _ Hm Hr _] Hi. split_and!.
  - by apply nth_lookup_Some.
  - unfold bkeys. by rewrite list_lookup_fmap, Hi.
  - unfold bvals. by rewrite list_lookup_fmap, Hi.
  - apply elem_of_map_to_list. rewrite <- Hm. apply list_elem_of_fmap. exists r. split; [done|]. by eapply list_elem_of_lookup_2.
  - by eapply Forall_lookup.
Qed.

Lemma map_brec b m k v : bimap_repr b m -> m !! k = Some v -> exists i r, brec b !! i = Some r /\ kp (bkey r) = k /\ kp (bval r) = v.
Proof.
  intros [_ _ Hm _ _] E. apply elem_of_map_to_list in E. rewrite <- Hm in E.
  apply list_elem_of_fmap in E as (r & [= -> ->] & [i Hi]%list_elem_of_lookup). by exists i, r.
Qed.

(** Values are unique. *)
Lemma bimap_inj b m k1 k2 v : bimap_repr b m -> m !! k1 = Some v -> m !! k2 = Some v -> k1 = k2.
Proof.
  intros Hr (i & r & Hi & <- & <-)%(map_brec b) (j & r' & Hj & <- & E)%(map_brec b); try done.
  destruct (brec_lookup _ _ _ _ Hr Hi) as (_ & _ & Hvi & _ & _). destruct (brec_lookup _ _ _ _ Hr Hj) as (_ & _ & Hvj & _ & _).
  rewrite E in Hvj. pose proof (NoDup_lookup _ _ _ _ (indexed_NoDup _ _ (br_rev _ _ Hr)) Hvi Hvj) as ->. congruence.
Qed.

Lemma not_value b m v : bimap_repr b m -> v ∉ bvals b <-> forall k, m !! k <> Some v.
Proof.
  intros Hr. split.
  - intros Hv k (i & r & Hi & _ & <-)%(map_brec b); [|done]. apply Hv. apply list_elem_of_fmap. exists r. split; [done|].
    by eapply list_elem_of_lookup_2.
  - intros Hv (r & -> & [i Hi]%list_elem_of_lookup)%list_elem_of_fmap. destruct (brec_lookup _ _ _ _ Hr Hi) as (_ & _ & _ & E & _). by eapply Hv.
Qed.

Lemma not_key b m k : bimap_repr b m -> k ∉ bkeys b <-> m !! k = None.
Proof.
  intros Hr. split.
  - intros Hk. destruct (m !! k) as [v|] eqn:E; [|done]. apply (map_brec b) in E as (i & r & Hi & <- & _); [|done].
    destruct Hk. apply list_elem_of_fmap. exists r. split; [done|]. by eapply list_elem_of_lookup_2.
  - intros Hk (r & -> & [i Hi]%list_elem_of_lookup)%list_elem_of_fmap. destruct (brec_lookup _ _ _ _ Hr Hi) as (_ & _ & _ & E & _). congruence.
Qed.

(** ** Removing a record *)

(** One index of bimap_erase: find, erase, and redirect the last record. *)
Lemma drop_key ix ks i k last : indexed ix ks -> ks !! i = Some k -> ks !! (length ks - 1)%nat = Some last ->
  exists p ix1, ix_find ix (key_hash k) k = Some (Some p) /\ ix_erase ix p = Some ix1 /\
    if decide (i = length ks - 1)%nat then indexed ix1 (swap_remove i ks) /\ (ready ix -> ready ix1)
    else exists ix2, ix_move ix1 (key_hash last) last i = Some ix2 /\ indexed ix2 (swap_remove i ks) /\ (ready ix -> ready ix2).
Proof.
  intros Hx Hk Hl. destruct (indexed_find_at ix ks k i Hx Hk) as (p & E & Hs). exists p.
  destruct (indexed_remove ix ks p k i last Hx Hs Hk Hl) as (ix1 & E1 & Hrm). exists ix1. split_and!; try done.
  assert (Hre : ready ix -> ready ix1) by (destruct Hx as (im & Hr & _); by eapply erase_ready).
  destruct (decide _); [done|]. destruct Hrm as (ix2 & E2 & Hx2). exists ix2. split_and!; try done.
  intros. eapply move_ready; eauto.
Qed.

Lemma bimap_erase_spec b m i r : bimap_repr b m -> brec b !! i = Some r ->
  exists b', bimap_erase b i = Some b' /\ bimap_repr b' (delete (kp (bkey r)) m) /\ brec b' = swap_remove i (brec b) /\
    bmem b' = bmem b /\ bcap b' = bcap b /\ (ready (fwd b) -> ready (fwd b')) /\ (ready (rev b) -> ready (rev b')).
Proof.
  intros Hr Hi. pose proof Hr as [Hf Hv Hm Hrs [Hc1 Hc2]]. pose proof (lookup_lt_Some _ _ _ Hi) as Hil.
  destruct (brec_lookup _ _ _ _ Hr Hi) as (Hat & Hki & Hvi & Hmi & Hok).
  destruct (lookup_lt_is_Some_2 (brec b) (length (brec b) - 1)) as [last Hlast]; [lia|].
  destruct (brec_lookup _ _ _ _ Hr Hlast) as (Hatl & Hkl & Hvl & _ & Hokl).
  destruct (drop_key _ _ i _ (kp (bkey last)) Hf Hki) as (fp & f1 & Ef1 & Ef2 & Hf3); [by rewrite bkeys_len|].
  destruct (drop_key _ _ i _ (kp (bval last)) Hv Hvi) as (vp & v1 & Ev1 & Ev2 & Hv3); [by rewrite bvals_len|].
  rewrite bkeys_len in Hf3. rewrite bvals_len in Hv3. unfold blen in *.
  assert (Hfin : forall f v, indexed f (swap_remove i (bkeys b)) -> indexed v (swap_remove i (bvals b)) ->
    bimap_repr (mk_bimap (swap_remove i (brec b)) (bcap b) f v (bmem b)) (delete (kp (bkey r)) m)).
  { intros f v Hf' Hv'. pose proof (swap_remove_perm (brec b) i r Hi) as Hp. rewrite Hp in Hm, Hrs.
    split; unfold bkeys, bvals, blen in *; cbn [brec fwd rev bcap].
    - by rewrite swap_remove_fmap.
    - by rewrite swap_remove_fmap.
    - rewrite <- (map_to_list_delete m _ _ Hmi) in Hm. cbn [fmap list_fmap] in Hm. unfold brec_kv at 1 in Hm. by apply Permutation_cons_inv in Hm.
    - by inversion Hrs.
    - split; [done|]. rewrite swap_remove_len by done. lia. }
  unfold bimap_erase, find_key, move_key. rewrite Hat, (proj1 Hok), (proj2 Hok), Ef1, Ev1. cbn [mbind option_bind erase_if].
  rewrite Ef2, Ev2. cbn [mbind option_bind]. unfold blen. rewrite Hatl, (proj1 Hokl), (proj2 Hokl).
  assert (Hrec : swap_remove i (brec b) = if decide (i = length (brec b) - 1)%nat then take (length (brec b) - 1) (brec b)
    else take (length (brec b) - 1) (<[i := last]> (brec b))) by (unfold swap_remove; by rewrite Hlast).
  destruct (Nat.eqb_spec i (length (brec b) - 1)), (decide (i = length (brec b) - 1)%nat); try done; cbn [negb]; rewrite <- Hrec.
  - destruct Hf3, Hv3. eexists. split_and!; [done|by apply Hfin|done..].
  - destruct Hf3 as (f2 & -> & ? & ?), Hv3 as (v2 & -> & ? & ?). cbn [mbind option_bind]. eexists. split_and!; [done|by apply Hfin|done..].
Qed.

(** ** Changing a value *)

Lemma bimap_set_value_spec b m i r nv : bimap_repr b m -> brec b !! i = Some r -> key_ok nv -> kp nv ∉ bvals b -> ready (rev b) ->
  exists b', bimap_set_value b i nv = Some b' /\ bimap_repr b' (<[kp (bkey r) := kp nv]> m).
Proof.
  intros Hr Hi Hnv Hfresh Hready. pose proof Hr as [Hf Hv Hm Hrs [Hc1 Hc2]].
  destruct (brec_lookup _ _ _ _ Hr Hi) as (Hat & Hki & Hvi & Hmi & Hok). pose proof (lookup_lt_Some _ _ _ Hi) as Hil.
  destruct (indexed_find_at _ _ _ i Hv Hvi) as (p & Ep & Hs).
  destruct (indexed_replace (bmem b) _ _ p _ (kp nv) i Hv Hs Hvi Hfresh Hready) as (v1 & v2 & E1 & E2 & Hx2).
  unfold bimap_set_value, find_key. rewrite Hat, (proj2 Hok), Ep. cbn [mbind option_bind erase_if]. rewrite E1. cbn [mbind option_bind].
  rewrite Hnv, E2. eexists. split; [done|]. split; unfold bkeys, bvals, blen in *; cbn [brec fwd rev bcap]; rewrite ?list_fmap_insert, ?length_insert; try done.
  - cbn [bkey]. by rewrite list_insert_id.
  - destruct (insert_perm (brec b) i r (mk_brec (bkey r) nv) Hi) as (rest & H1 & H2).
    rewrite <- list_fmap_insert, H2. rewrite H1, <- (map_to_list_delete m _ _ Hmi) in Hm. cbn [fmap list_fmap] in *.
    unfold brec_kv at 1 in Hm. apply Permutation_cons_inv in Hm. rewrite <- (insert_delete_eq m), map_to_list_insert by apply lookup_delete_eq. by constructor.
  - apply Forall_insert; [done|]. split; [apply Hok|done].
Qed.

(** ** The cases of dyn_bimap_put *)

(** The map where [k] has the value [v] and no other key has it. *)
Definition bput (k v : bytes) (m : gmap bytes bytes) : gmap bytes bytes := <[k := v]> (filter (fun kv => kv.2 <> v) m).

Lemma bput_taken b m k v k' : bimap_repr b m -> m !! k' = Some v -> bput k v m = <[k := v]> (delete k' m).
Proof.
  intros Hr Hk'. unfold bput. f_equal. apply map_eq. intros x. apply option_eq. intros y.
  rewrite map_lookup_filter_Some, lookup_delete_Some. cbn. split.
  - intros [Hx Hy]. split; [|done]. intros ->. congruence.
  - intros [Hx Hy]. split; [done|]. intros ->. apply Hx. by eapply bimap_inj.
Qed.

Lemma bput_free m k v : (forall k', m !! k' <> Some v) -> bput k v m = <[k := v]> m.
Proof.
  intros Hv. unfold bput. f_equal. apply map_eq. intros x. apply option_eq. intros y.
  rewrite map_lookup_filter_Some. cbn. split; [by intros []|]. intros Hx. split; [done|]. intros ->. by eapply Hv.
Qed.

(** What a put that does not fail early returns: success, or failure of the
    allocator with nothing changed. *)
Definition put_result (b : dyn_bimap_t) (m m' : gmap bytes bytes) (res : option (Z * dyn_bimap_t)) : Prop :=
  exists rc b', res = Some (rc, b') /\
    ((rc = 0 /\ bimap_repr b' m') \/ (rc = -1 /\ bimap_repr b' m /\ false ∈ bmem b)).

Lemma put_fail b m m' b' : bimap_repr b' m -> false ∈ bmem b -> put_result b m m' (Some (-1, b')).
Proof. intros. exists (-1), b'. split; [done|]. by right. Qed.

Lemma put_done b m m' b' : bimap_repr b' m' -> put_result b m m' (Some (0, b')).
Proof. intros. exists 0, b'. split; [done|]. by left. Qed.

(** A new record at the end. *)
Lemma bimap_snoc b m k v cap f rv l : bimap_repr b m -> k ∉ bkeys b -> indexed f (bkeys b ++ [k]) -> indexed rv (bvals b ++ [v]) ->
  cap_ok cap -> Z.of_nat (blen b) + 1 <= cap ->
  bimap_repr (mk_bimap (brec b ++ [mk_brec (mk_key k (key_hash k)) (mk_key v (key_hash v))]) cap f rv l) (<[k := v]> m).
Proof.
  intros Hr Hk Hf Hv Hc1 Hc2. pose proof Hr as [_ _ Hm Hrs _]. split; unfold bkeys, bvals, blen in *; cbn [brec fwd rev bcap].
  - by rewrite fmap_app.
  - by rewrite fmap_app.
  - rewrite fmap_app, map_to_list_insert, Permutation_app_comm by (by apply (not_key b)). cbn. by rewrite Hm.
  - apply Forall_app. split; [done|]. by apply Forall_singleton.
  - split; [done|]. rewrite length_app. cbn. lia.
Qed.

Context (b : dyn_bimap_t) (m : gmap bytes bytes) (Hr : bimap_repr b m) (Hsmall : 10 * Z.of_nat (blen b) + 10 < 2 ^ 31).

Lemma put_both_spec k v i j r r' : brec b !! i = Some r -> kp (bkey r) = k -> brec b !! j = Some r' -> kp (bval r') = v -> i <> j ->
  put_result b m (<[k := v]> (delete (kp (bkey r')) m)) (bimap_put_both b k v).
Proof.
  intros Hi Ek Hj Ev Hij. pose proof Hr as [Hf Hv _ _ [Hc1 Hc2]]. unfold bimap_put_both.
  destruct (indexed_reserve (bmem b) (rev b) (bvals b) Hv) as (ok & rv & mem & -> & Hrv & Hmem & Hok); [by rewrite bvals_len|].
  destruct ok; [|apply put_fail; [by apply bimap_repr_same|by apply hd_false]].
  unfold key_init. destruct (hd true mem) eqn:Emem; [|apply put_fail; [by apply bimap_repr_same|by eapply tl_elem, hd_false]].
  set (b0 := mk_bimap (brec b) (bcap b) (fwd b) rv (tl mem)). assert (Hr0 : bimap_repr b0 m) by (by apply bimap_repr_same).
  destruct (brec_lookup b0 m j r' Hr0 Hj) as (_ & Hkj & Hvj & Hmj & Hokr'). rewrite Ev in Hvj.
  destruct (indexed_find_at _ _ _ j (br_rev _ _ Hr0) Hvj) as (vp & Evp & Hsv). cbn [rev b0]. fold b0.
  change rv with (rev b0). rewrite Evp. cbn [mbind option_bind].
  replace (idx_of (rev b0) vp) with j by (symmetry; apply Hsv).
  destruct (bimap_erase_spec b0 m j r' Hr0 Hj) as (b1 & -> & Hr1 & Hrec1 & _ & _ & _ & Hready1). cbn [mbind option_bind].
  assert (Hi1 : exists i1, brec b1 !! i1 = Some r).
  { rewrite Hrec1. apply list_elem_of_lookup. pose proof (swap_remove_perm (brec b) j r' Hj) as Hp.
    assert (Hin : r ∈ brec b) by (by eapply list_elem_of_lookup_2). rewrite Hp in Hin. apply elem_of_cons in Hin as [->|]; [|done].
    exfalso. apply Hij. destruct (brec_lookup b m i r' Hr Hi) as (_ & Hki & _).
    by eapply NoDup_lookup; [eapply indexed_NoDup, Hf|done|]. }
  destruct Hi1 as [i1 Hi1]. destruct (brec_lookup b1 _ i1 r Hr1 Hi1) as (_ & Hk1 & Hv1 & _ & _). rewrite Ek in Hk1.
  destruct (indexed_find_at _ _ _ i1 (br_fwd _ _ Hr1) Hk1) as (kp' & Ekp & Hsk). rewrite Ekp. cbn [mbind option_bind].
  replace (idx_of (fwd b1) kp') with i1 by (symmetry; apply Hsk).
  destruct (bimap_set_value_spec b1 _ i1 r (mk_key v (key_hash v)) Hr1 Hi1) as (b2 & -> & Hr2); [done| |by apply Hready1|].
  - cbn [kp]. apply (not_value b1 _ _ Hr1). intros x Hx. apply lookup_delete_Some in Hx as [Hne Hx].
    apply Hne. rewrite <- Ev in Hx. exact (bimap_inj b m _ _ _ Hr Hmj Hx).
  - cbn [mbind option_bind]. apply put_done. cbn [kp] in Hr2. by rewrite Ek in Hr2.
Qed.

Lemma put_value_spec k v i r : brec b !! i = Some r -> kp (bkey r) = k -> v ∉ bvals b ->
  put_result b m (<[k := v]> m) (bimap_put_value b i v).
Proof.
  intros Hi Ek Hv'. pose proof Hr as [Hf Hv _ _ [Hc1 Hc2]]. destruct (brec_lookup b m i r Hr Hi) as (Hat & _ & Hvi & _ & Hok).
  unfold bimap_put_value, find_key. rewrite Hat, (proj2 Hok). destruct (indexed_find_at _ _ _ i Hv Hvi) as (p & -> & _). cbn [mbind option_bind].
  destruct (indexed_reserve (bmem b) (rev b) (bvals b) Hv) as (ok & rv & mem & -> & Hrv & Hmem & Hres); [by rewrite bvals_len|].
  destruct ok; [|apply put_fail; [by apply bimap_repr_same|by apply hd_false]].
  unfold key_init. destruct (hd true mem) eqn:Emem; [|apply put_fail; [by apply bimap_repr_same|by eapply tl_elem, hd_false]].
  destruct (bimap_set_value_spec (mk_bimap (brec b) (bcap b) (fwd b) rv (tl mem)) m i r (mk_key v (key_hash v))) as (b2 & -> & Hr2);
    [by apply bimap_repr_same|done..|]. cbn [mbind option_bind]. apply put_done. cbn [kp] in Hr2. by rewrite Ek in Hr2.
Qed.

Lemma put_new_spec k v : k ∉ bkeys b -> v ∉ bvals b -> put_result b m (<[k := v]> m) (bimap_put_new b k v).
Proof.
  intros Hk Hv'. pose proof Hr as [Hf Hv _ _ [Hc1 Hc2]]. unfold bimap_put_new. pose proof (indexed_used _ _ Hf) as [_ Hmax]. rewrite bkeys_len in Hmax.
  destruct (reserve_spec (bmem b) (bcap b) (blen b) sizeof_bimap_rec Hc1 Hc2 Hmax) as (ok & cap & mem & -> & Hcap & Hmem & Hres);
    [unfold sizeof_bimap_rec; lia|].
  destruct ok; [|destruct Hres as [-> ?]; apply put_fail; [by apply bimap_repr_same|by apply hd_false]].
  assert (Hcl : Z.of_nat (blen b) <= cap) by lia. pose proof (fun x => tl_elem _ _ x Hmem) as Hin.
  unfold key_init. destruct (hd true mem) eqn:E1; [|apply put_fail; [by apply bimap_repr_same|by apply Hin, hd_false]].
  destruct (hd true (tl mem)) eqn:E2; [|apply put_fail; [by apply bimap_repr_same|by apply Hin, (tl_elem _ (tl mem)), hd_false; [right|]]].
  assert (Hin2 : forall x, x ∈ tl (tl mem) -> x ∈ bmem b) by (intros x Hx; apply Hin, (tl_elem _ (tl mem)), (tl_elem _ (tl (tl mem))); auto).
  destruct (indexed_insert (tl (tl mem)) _ _ k Hf Hk) as (ok1 & f & mem1 & Ef & Hmem1 & Hres1). rewrite bkeys_len in Ef, Hres1. rewrite Ef.
  destruct ok1; [|destruct Hres1 as [-> [?|?]]; [lia|]; apply put_fail; [by apply bimap_repr_same|by apply Hin2, hd_false]].
  destruct (indexed_insert mem1 _ _ v Hv Hv') as (ok2 & rv & mem2 & Ev & Hmem2 & Hres2). rewrite bvals_len in Ev, Hres2. rewrite Ev.
  destruct ok2.
  - apply put_done. by apply bimap_snoc.
  - destruct Hres2 as [-> [?|?]]; [lia|].
    destruct (indexed_find_at f (bkeys b ++ [k]) k (blen b) Hres1) as (p & -> & Hs).
    { by rewrite <- bkeys_len, lookup_app_r, Nat.sub_diag. }
    cbn [mbind option_bind erase_if]. rewrite <- bkeys_len in Hs. destruct (indexed_undo f (bkeys b) k p Hres1 Hs) as (f1 & -> & Hf1).
    cbn [mbind option_bind]. apply put_fail; [by apply bimap_repr_same|]. apply Hin2, (tl_elem _ mem1); [done|]. by apply hd_false.
Qed.

Lemma put_steal_spec k v j r' : k ∉ bkeys b -> brec b !! j = Some r' -> kp (bval r') = v ->
  put_result b m (<[k := v]> (delete (kp (bkey r')) m)) (bimap_put_steal b k v).
Proof.
  intros Hk Hj Ev. pose proof Hr as [Hf Hv _ _ [Hc1 Hc2]]. unfold bimap_put_steal. pose proof (indexed_used _ _ Hf) as [_ Hmax]. rewrite bkeys_len in Hmax.
  destruct (reserve_spec (bmem b) (bcap b) (blen b) sizeof_bimap_rec Hc1 Hc2 Hmax) as (ok & cap & mem & -> & Hcap & Hmem & Hres);
    [unfold sizeof_bimap_rec; lia|].
  destruct ok; [|destruct Hres as [-> ?]; apply put_fail; [by apply bimap_repr_same|by apply hd_false]].
  assert (Hcl : Z.of_nat (blen b) <= cap) by lia. pose proof (fun x => tl_elem _ _ x Hmem) as Hin.
  unfold key_init. destruct (hd true mem) eqn:E1; [|apply put_fail; [by apply bimap_repr_same|by apply Hin, hd_false]].
  destruct (hd true (tl mem)) eqn:E2; [|apply put_fail; [by apply bimap_repr_same|by apply Hin, (tl_elem _ (tl mem)), hd_false; [right|]]].
  assert (Hin2 : forall x, x ∈ tl (tl mem) -> x ∈ bmem b) by (intros x Hx; apply Hin, (tl_elem _ (tl mem)), (tl_elem _ (tl (tl mem))); auto).
  destruct (indexed_reserve (tl (tl mem)) _ _ Hf) as (ok1 & f & mem1 & -> & Hf1 & Hmem1 & Hres1); [by rewrite bkeys_len|].
  destruct ok1; [|apply put_fail; [by apply bimap_repr_same|by apply Hin2, hd_false]].
  destruct (indexed_reserve mem1 _ _ Hv) as (ok2 & rv & mem2 & -> & Hv1 & Hmem2 & Hres2); [by rewrite bvals_len|].
  destruct ok2; [|apply put_fail; [by apply bimap_repr_same|by apply Hin2, (tl_elem _ mem1), hd_false]].
  set (b0 := mk_bimap (brec b) cap f rv mem2). assert (Hr0 : bimap_repr b0 m) by (by apply bimap_repr_same).
  destruct (brec_lookup b0 m j r' Hr0 Hj) as (_ & _ & Hvj & Hmj & _). rewrite Ev in Hvj.
  destruct (indexed_find_at _ _ _ j (br_rev _ _ Hr0) Hvj) as (vp & Evp & Hsv). change (rev b0) with rv in Evp, Hsv. rewrite Evp. cbn [mbind option_bind].
  replace (idx_of rv vp) with j by (symmetry; apply Hsv).
  destruct (bimap_erase_spec b0 m j r' Hr0 Hj) as (b1 & -> & Hr1 & Hrec1 & _ & Hcap1 & Hready1 & Hready2). cbn [mbind option_bind].
  assert (Hk1 : k ∉ bkeys b1) by (apply (not_key b1 _ _ Hr1); rewrite lookup_delete_None; right; by apply (not_key b)).
  assert (Hv2 : v ∉ bvals b1).
  { apply (not_value b1 _ _ Hr1). intros x [Hne Hx]%lookup_delete_Some. apply Hne. rewrite <- Ev in Hx. exact (bimap_inj b m _ _ _ Hr Hmj Hx). }
  destruct (indexed_insert_ready (bmem b1) _ _ k (br_fwd _ _ Hr1) Hk1) as (f2 & Ef2 & Hf2); [by apply Hready1|].
  rewrite bkeys_len in Ef2. rewrite Ef2.
  destruct (indexed_insert_ready (bmem b1) _ _ v (br_rev _ _ Hr1) Hv2) as (v2 & Ev2 & Hx2); [by apply Hready2|].
  rewrite bvals_len in Ev2. rewrite Ev2. apply put_done. apply bimap_snoc; try done; rewrite Hcap1; [done|].
  pose proof (lookup_lt_Some _ _ _ Hj). unfold blen. rewrite Hrec1, swap_remove_len by done. cbn [bcap b0 brec]. unfold blen in Hcl. lia.
Qed.

End Repr.

Module BiMap_props.

(** C20. Putting a pair refines the abstract operation: afterwards [k] has the value
    [v], no other key has it and every other pair is kept; without [force] a
    value that belongs to another key is refused and nothing changes; when the
    allocator fails, the map is what it was.  The two indexes stay consistent
    in every case, the ignored failures of the source included, for maps of up
    to two hundred million pairs. *)
Theorem bimap_put_refines `{KeyHash} b m k v force : bimap_repr b m -> 10 * Z.of_nat (dyn_bimap_size b) + 10 < 2 ^ 31 ->
  exists rc b', dyn_bimap_put b k v force = Some (rc, b') /\
    ((rc = 0 /\ bimap_repr b' (bput k v m)) \/
     (rc = DYN_BIMAP_VALUE_TAKEN /\ force = false /\ b' = b /\ exists k', k' <> k /\ m !! k' = Some v) \/
     (rc = -1 /\ bimap_repr b' m /\ false ∈ bmem b)).
Proof.
  intros Hr Hs. unfold dyn_bimap_put.
  assert (Hput : forall m' res, put_result b m m' res -> bput k v m = m' -> exists rc b', res = Some (rc, b') /\
    ((rc = 0 /\ bimap_repr b' (bput k v m)) \/
     (rc = DYN_BIMAP_VALUE_TAKEN /\ force = false /\ b' = b /\ exists k', k' <> k /\ m !! k' = Some v) \/
     (rc = -1 /\ bimap_repr b' m /\ false ∈ bmem b))).
  { intros m' res (rc & b' & -> & [[-> H1]|H1]) Em; exists rc, b' || exists 0, b'; (split; [done|]); [left; by rewrite Em|by right; right]. }
  destruct (indexed_find _ _ k (br_fwd _ _ Hr)) as (kp' & -> & Hkp). destruct (indexed_find _ _ v (br_rev _ _ Hr)) as (vp & -> & Hvp).
  cbn [mbind option_bind]. destruct kp' as [kp'|], vp as [vp|].
  - destruct Hkp as (i & (_ & _ & _ & Ei) & (r & Er & Hi)%list_lookup_fmap_Some), Hvp as (j & (_ & _ & _ & Ej) & (r' & Er' & Hj)%list_lookup_fmap_Some).
    destruct (brec_lookup b m i r Hr Hi) as (_ & _ & _ & Hmi & _). destruct (brec_lookup b m j r' Hr Hj) as (_ & _ & _ & Hmj & _).
    rewrite <- Er' in Hmj. unfold idx_of. rewrite Ei, Ej. destruct (Nat.eqb_spec i j) as [<-|Hij].
    + exists 0, b. split; [done|]. left. split; [done|]. rewrite Hi in Hj. injection Hj as <-. rewrite <- Er in Hmj.
      rewrite (bput_taken b m k v k) by done. by rewrite insert_delete_eq, insert_id.
    + assert (Hne : kp (bkey r') <> k).
      { intros E. apply Hij. destruct (brec_lookup b m i r Hr Hi) as (_ & Hki & _). destruct (brec_lookup b m j r' Hr Hj) as (_ & Hkj & _).
        rewrite E in Hkj. rewrite <- Er in Hki. by eapply NoDup_lookup; [eapply indexed_NoDup, (br_fwd _ _ Hr)|..]. }
      destruct force; cbn [negb].
      * eapply Hput; [by eapply (put_both_spec b m Hr Hs k v i j r r')|by eapply bput_taken].
      * exists DYN_BIMAP_VALUE_TAKEN, b. split; [done|]. right. left. split_and!; try done. by exists (kp (bkey r')).
  - destruct Hkp as (i & (_ & _ & _ & Ei) & (r & Er & Hi)%list_lookup_fmap_Some). unfold idx_of. rewrite Ei.
    eapply Hput; [by apply (put_value_spec b m Hr Hs k v i r)|]. apply bput_free. by apply (not_value b).
  - destruct Hvp as (j & _ & (r' & Er' & Hj)%list_lookup_fmap_Some). destruct (brec_lookup b m j r' Hr Hj) as (_ & _ & _ & Hmj & _).
    rewrite <- Er' in Hmj. destruct force; cbn [negb].
    + eapply Hput; [by apply (put_steal_spec b m Hr Hs k v j r')|by eapply bput_taken].
    + exists DYN_BIMAP_VALUE_TAKEN, b. split; [done|]. right. left. split_and!; try done. exists (kp (bkey r')). split; [|done].
      intros <-. apply Hkp. apply list_elem_of_fmap. exists r'. split; [done|]. by eapply list_elem_of_lookup_2.
  - eapply Hput; [by apply put_new_spec|]. apply bput_free. by apply (not_value b).
Qed.

Lemma bimap_put_refines_witness : exists rc b',
  @dyn_bimap_put (ix_hash_KeyHash 1 2) (dyn_bimap_new []) [107] [118] false = Some (rc, b') /\
    ((rc = 0 /\ @bimap_repr (ix_hash_KeyHash 1 2) b' (bput [107] [118] ∅)) \/ rc <> 0).
Proof.
  destruct (@bimap_put_refines (ix_hash_KeyHash 1 2) (dyn_bimap_new []) ∅ [107] [118] false (bimap_repr_new []) ltac:(by vm_compute))
    as (rc & b' & E & [H|[(-> & _)|(-> & _)]]); (eexists _, b'; split; [exact E|]); [by left|by right..].
Defined.

(** Looking up by key and by value are inverse to each other and both agree
    with the map; removing by either takes exactly that pair out. *)
Theorem bimap_lookup_remove `{KeyHash} b m : bimap_repr b m ->
  (forall k, dyn_bimap_get b k = Some (m !! k)) /\
  (forall v, exists r, dyn_bimap_key_for b v = Some r /\ forall k, r = Some k <-> m !! k = Some v) /\
  (forall k, exists b', dyn_bimap_remove b k = Some (bool_decide (is_Some (m !! k)), b') /\ bimap_repr b' (delete k m)) /\
  (forall v, exists ok b', dyn_bimap_remove_value b v = Some (ok, b') /\ (ok = true <-> exists k, m !! k = Some v) /\
     bimap_repr b' (filter (fun kv => kv.2 <> v) m)).
Proof.
  intros Hr. split_and!.
  - intros k. unfold dyn_bimap_get. destruct (indexed_find _ _ k (br_fwd _ _ Hr)) as (r & -> & Hres). cbn [mbind option_bind].
    destruct r as [p|]; [|by rewrite (proj1 (not_key b m k Hr) Hres)].
    destruct Hres as (i & (_ & _ & _ & Ei) & (r & Er & Hi)%list_lookup_fmap_Some). unfold idx_of. rewrite Ei.
    destruct (brec_lookup b m i r Hr Hi) as (-> & _ & _ & Hmi & _). by rewrite Er, Hmi.
  - intros v. unfold dyn_bimap_key_for. destruct (indexed_find _ _ v (br_rev _ _ Hr)) as (r & -> & Hres). cbn [mbind option_bind].
    destruct r as [p|].
    + destruct Hres as (i & (_ & _ & _ & Ei) & (r & Er & Hi)%list_lookup_fmap_Some). unfold idx_of. rewrite Ei.
      destruct (brec_lookup b m i r Hr Hi) as (-> & _ & _ & Hmi & _). eexists. split; [done|]. intros k. rewrite <- Er in Hmi. split; [by intros [= <-]|].
      intros Hk. f_equal. by eapply bimap_inj.
    + exists None. split; [done|]. intros k. split; [done|]. intros Hk. by eapply (not_value b m v Hr) in Hk.
  - intros k. unfold dyn_bimap_remove. destruct (indexed_find _ _ k (br_fwd _ _ Hr)) as (r & -> & Hres). cbn [mbind option_bind].
    destruct r as [p|].
    + destruct Hres as (i & (_ & _ & _ & Ei) & (r & Er & Hi)%list_lookup_fmap_Some). unfold idx_of. rewrite Ei.
      destruct (bimap_erase_spec b m i r Hr Hi) as (b' & -> & Hr' & _). destruct (brec_lookup b m i r Hr Hi) as (_ & _ & _ & Hmi & _).
      cbn [mbind option_bind]. exists b'. rewrite Er, bool_decide_true by (by eexists). done.
    + apply (not_key b m k Hr) in Hres. exists b. rewrite Hres, bool_decide_false by (by intros []). by rewrite delete_id.
  - intros v. unfold dyn_bimap_remove_value. destruct (indexed_find _ _ v (br_rev _ _ Hr)) as (r & -> & Hres). cbn [mbind option_bind].
    destruct r as [p|].
    + destruct Hres as (i & (_ & _ & _ & Ei) & (r & Er & Hi)%list_lookup_fmap_Some). unfold idx_of. rewrite Ei.
      destruct (bimap_erase_spec b m i r Hr Hi) as (b' & -> & Hr' & _). destruct (brec_lookup b m i r Hr Hi) as (_ & _ & _ & Hmi & _).
      rewrite <- Er in Hmi. cbn [mbind option_bind]. exists true, b'. split_and!; [done|split; [by eexists|done]|].
      assert (Hd : filter (fun kv => kv.2 <> v) m = delete (kp (bkey r)) m); [|by rewrite Hd].
      apply map_eq. intros x. apply option_eq. intros y. rewrite map_lookup_filter_Some, lookup_delete_Some. cbn.
      split; intros [H1 H2]; (split; [|]; try done); [intros <-; congruence|intros ->; apply H1; exact (bimap_inj b m _ _ _ Hr Hmi H2)].
    + pose proof (proj1 (not_value b m v Hr) Hres) as Hno. exists false, b. split_and!; [done| |].
      * split; [done|]. intros [k Hk]. by destruct (Hno k).
      * rewrite map_filter_id; [done|]. intros k x Hx. cbn. intros ->. by eapply Hno.
Qed.

Lemma bimap_lookup_remove_witness : @dyn_bimap_get (ix_hash_KeyHash 1 2) (dyn_bimap_new []) [107] = Some None.
Proof. destruct (@bimap_lookup_remove (ix_hash_KeyHash 1 2) (dyn_bimap_new []) ∅ (bimap_repr_new [])) as (H & _). exact (H [107]). Defined.

End BiMap_props.
