(* ===== verification/MMap.v ===== *)
(** * Multimaps

    dyn_mmap of src/core/dyn-ds.c: per key an array of cells in insertion
    order; a key whose last cell goes is removed.

    [mrec] is the live part of the record array and [vals] that of a record's
    cells.  The callback of dyn_mmap_remove_key is the list of the cells it is
    given. *)
From Stdlib Require Import ZArith Lia.
From stdpp Require Import base numbers list option gmap.
From S2P Require Import Prelude CrcTables Crc Xxh DsBase Ix.

Record dyn_cell_t := mk_cell { w0 : Z; w1 : Z }.
Record mmap_rec := mk_mrec { mkey : ds_key; vals : list dyn_cell_t; vcap : Z }.
Record dyn_mmap_t := mk_mmap { mrec : list mmap_rec; mcap : Z; mmix : dyn_ix; mmtotal : Z; mmem : list bool }.

Definition sizeof_mmap_rec : Z := 40.
Definition sizeof_cell : Z := 16.

Definition mrec0 : mmap_rec := mk_mrec (mk_key [] 0) [] 0.
Definition mrec_at (m : dyn_mmap_t) (i : nat) : mmap_rec := nth i (mrec m) mrec0.
Definition mmlen (m : dyn_mmap_t) : nat := length (mrec m).
Definition midx (m : dyn_mmap_t) (pos : nat) : nat := sidx (sget (slot (mmix m)) pos).

Definition dyn_mmap_new (mem : list bool) : dyn_mmap_t := mk_mmap [] 0 ix_free 0 mem.

Section Ops.
Context `{KeyHash}.

Definition mmap_lookup (m : dyn_mmap_t) (k : bytes) : option (option mmap_rec) :=
  pos ← ix_find (mmix m) (key_hash k) k;
  Some (match pos with None => None | Some pos => Some (mrec_at m (midx m pos)) end).

(** A new record with one cell. *)
Definition mmap_put_new (m : dyn_mmap_t) (k : bytes) (v : dyn_cell_t) : option (bool * dyn_mmap_t) :=
  let fail cap mem := Some (false, mk_mmap (mrec m) cap (mmix m) (mmtotal m) mem) in
  match ds_reserve (mmem m) (mcap m) (u32 (Z.of_nat (mmlen m) + 1)) sizeof_mmap_rec with
  | None => None
  | Some (false, cap, mem) => fail cap mem
  | Some (true, cap, mem) =>
      match key_init mem k (key_hash k) with
      | (None, mem) => fail cap mem
      | (Some key, mem) =>
          match ds_reserve mem 0 1 sizeof_cell with
          | None => None
          | Some (false, _, mem) => fail cap mem
          | Some (true, vc, mem) =>
              match ix_insert mem (mmix m) (key_hash k) k (mmlen m) with
              | None => None
              | Some (false, ix, mem) => Some (false, mk_mmap (mrec m) cap ix (mmtotal m) mem)
              | Some (true, ix, mem) =>
                  Some (true, mk_mmap (mrec m ++ [mk_mrec key [v] vc]) cap ix (u64 (mmtotal m + 1)) mem)
              end
          end
      end
  end.

(** One more cell for the record [i]. *)
Definition mmap_push (m : dyn_mmap_t) (i : nat) (v : dyn_cell_t) : option (bool * dyn_mmap_t) :=
  let r := mrec_at m i in
  match ds_reserve (mmem m) (vcap r) (u32 (Z.of_nat (length (vals r)) + 1)) sizeof_cell with
  | None => None
  | Some (false, _, mem) => Some (false, mk_mmap (mrec m) (mcap m) (mmix m) (mmtotal m) mem)
  | Some (true, vc, mem) =>
      Some (true, mk_mmap (<[i := mk_mrec (mkey r) (vals r ++ [v]) vc]> (mrec m)) (mcap m) (mmix m) (u64 (mmtotal m + 1)) mem)
  end.

Definition dyn_mmap_put (m : dyn_mmap_t) (k : bytes) (v : dyn_cell_t) : option (bool * dyn_mmap_t) :=
  pos ← ix_find (mmix m) (key_hash k) k;
  match pos with
  | None => mmap_put_new m k v
  | Some pos => mmap_push m (midx m pos) v
  end.

Definition dyn_mmap_count (m : dyn_mmap_t) (k : bytes) : option nat :=
  r ← mmap_lookup m k;
  Some (match r with Some r => length (vals r) | None => 0%nat end).

Definition dyn_mmap_at (m : dyn_mmap_t) (k : bytes) (i : nat) : option (option dyn_cell_t) :=
  r ← mmap_lookup m k;
  Some (match r with Some r => vals r !! i | None => None end).

(** The cells and their number; NULL is the empty list. *)
Definition dyn_mmap_cells_for (m : dyn_mmap_t) (k : bytes) : option (list dyn_cell_t) :=
  r ← mmap_lookup m k;
  Some (match r with Some r => vals r | None => [] end).

Definition mmap_erase (m : dyn_mmap_t) (idx pos : nat) : option dyn_mmap_t :=
  ix ← ix_erase (mmix m) pos;
  let len := (mmlen m - 1)%nat in
  if negb (idx =? len)%nat then
    let r := mrec_at m len in
    ix ← ix_move ix (kh (mkey r)) (kp (mkey r)) idx;
    Some (mk_mmap (take len (<[idx := r]> (mrec m))) (mcap m) ix (mmtotal m) (mmem m))
  else Some (mk_mmap (take len (mrec m)) (mcap m) ix (mmtotal m) (mmem m)).

(** The cell stored through [out], or [None] for the return of 0. *)
Definition dyn_mmap_remove_at (m : dyn_mmap_t) (k : bytes) (i : nat) : option (option dyn_cell_t * dyn_mmap_t) :=
  pos ← ix_find (mmix m) (key_hash k) k;
  match pos with
  | None => Some (None, m)
  | Some pos =>
      let idx := midx m pos in
      let r := mrec_at m idx in
      match vals r !! i with
      | None => Some (None, m)
      | Some out =>
          let vs := take i (vals r) ++ drop (S i) (vals r) in
          let m := mk_mmap (<[idx := mk_mrec (mkey r) vs (vcap r)]> (mrec m)) (mcap m) (mmix m) (u64 (mmtotal m - 1)) (mmem m) in
          if (length vs =? 0)%nat then m ← mmap_erase m idx pos; Some (Some out, m) else Some (Some out, m)
      end
  end.

(** The cells handed to the callback; their number is returned. *)
Definition dyn_mmap_remove_key (m : dyn_mmap_t) (k : bytes) : option (list dyn_cell_t * dyn_mmap_t) :=
  pos ← ix_find (mmix m) (key_hash k) k;
  match pos with
  | None => Some ([], m)
  | Some pos =>
      let idx := midx m pos in
      let vs := vals (mrec_at m idx) in
      m ← mmap_erase (mk_mmap (mrec m) (mcap m) (mmix m) (u64 (mmtotal m - Z.of_nat (length vs))) (mmem m)) idx pos;
      Some (vs, m)
  end.

Definition dyn_mmap_keys (m : dyn_mmap_t) : nat := mmlen m.
Definition dyn_mmap_size (m : dyn_mmap_t) : Z := mmtotal m.
Definition dyn_mmap_key_at (m : dyn_mmap_t) (i : nat) : option (bytes * nat) :=
  if (mmlen m <=? i)%nat then None else Some (kp (mkey (mrec_at m i)), length (vals (mrec_at m i))).
Definition dyn_mmap_cells_at (m : dyn_mmap_t) (i : nat) : list dyn_cell_t :=
  if (mmlen m <=? i)%nat then [] else vals (mrec_at m i).

End Ops.

(** ** What a multimap stands for *)

Section Repr.
Context `{KeyHash}.

Definition mkeys (m : dyn_mmap_t) : list bytes := (fun r => kp (mkey r)) <$> mrec m.
Definition mrec_kv (r : mmap_rec) : bytes * list dyn_cell_t := (kp (mkey r), vals r).
Definition mrec_ok (r : mmap_rec) : Prop :=
  kh (mkey r) = key_hash (kp (mkey r)) /\ vals r <> [] /\ cap_ok (vcap r) /\ Z.of_nat (length (vals r)) <= vcap r.

Definition cells (c : gmap bytes (list dyn_cell_t)) : Z := foldr (fun p n => Z.of_nat (length p.2) + n) 0 (map_to_list c).

Record mmap_repr (m : dyn_mmap_t) (c : gmap bytes (list dyn_cell_t)) : Prop := {
  mm_index : indexed (mmix m) (mkeys m);
  mm_map : (mrec_kv <$> mrec m) ≡ₚ map_to_list c;
  mm_recs : Forall mrec_ok (mrec m);
  mm_cap : cap_ok (mcap m) /\ Z.of_nat (mmlen m) <= mcap m;
  mm_total : mmtotal m = u64 (cells c)
}.

(** Cells of a key in the map. *)
Definition at_key (c : gmap bytes (list dyn_cell_t)) (k : bytes) : list dyn_cell_t := default [] (c !! k).

Lemma cells_perm l l' : l ≡ₚ l' -> foldr (fun (p : bytes * list dyn_cell_t) n => Z.of_nat (length p.2) + n) 0 l = foldr (fun p n => Z.of_nat (length p.2) + n) 0 l'.
Proof. induction 1; cbn [foldr] in *; lia. Qed.

Lemma cells_insert k vs c : cells (<[k := vs]> c) = cells c - Z.of_nat (length (at_key c k)) + Z.of_nat (length vs).
Proof.
  unfold cells, at_key. rewrite <- insert_delete_eq. rewrite (cells_perm _ _ (map_to_list_insert _ k vs (lookup_delete_eq c k))). cbn [foldr].
  destruct (c !! k) as [v|] eqn:E; cbn [default from_option].
  - rewrite <- (cells_perm _ _ (map_to_list_delete c k v E)). cbn. unfold Datatypes.id. lia.
  - rewrite delete_id by done. cbn. lia.
Qed.

Lemma cells_delete k c : cells (delete k c) = cells c - Z.of_nat (length (at_key c k)).
Proof.
  unfold cells, at_key. destruct (c !! k) as [v|] eqn:E; cbn [default from_option].
  - rewrite <- (cells_perm _ _ (map_to_list_delete c k v E)). cbn. unfold Datatypes.id. lia.
  - rewrite delete_id by done. cbn. lia.
Qed.

Lemma mmap_repr_new l : mmap_repr (dyn_mmap_new l) ∅.
Proof. split; cbn; [apply indexed_nil|by rewrite map_to_list_empty|constructor|split; [by left|done]|done]. Qed.

Lemma mkeys_len m : length (mkeys m) = mmlen m.
Proof. apply length_fmap. Qed.

Lemma mrec_lookup m c i r : mmap_repr m c -> mrec m !! i = Some r ->
  mrec_at m i = r /\ mkeys m !! i = Some (kp (mkey r)) /\ c !! kp (mkey r) = Some (vals r) /\ mrec_ok r.
Proof.
  intros [_ Hm Hr _ _] Hi. split_and!.
  - by apply nth_lookup_Some.
  - unfold mkeys. by rewrite list_lookup_fmap, Hi.
  - apply elem_of_map_to_list. rewrite <- Hm. apply list_elem_of_fmap. exists r. split; [done|]. by eapply list_elem_of_lookup_2.
  - by eapply Forall_lookup.
Qed.

(** Searching finds the record of a key that has cells. *)
Definition mfound (m : dyn_mmap_t) (c : gmap bytes (list dyn_cell_t)) (k : bytes) (r : option nat) : Prop :=
  match r with
  | Some p => slot_for (mmix m) p k (midx m p) /\ mkeys m !! midx m p = Some k /\
      exists r, mrec m !! midx m p = Some r /\ kp (mkey r) = k
  | None => (k ∉ mkeys m) /\ c !! k = None
  end.

Lemma mmfind_spec m c k : mmap_repr m c -> exists r, ix_find (mmix m) (key_hash k) k = Some r /\ mfound m c k r.
Proof.
  intros Hr. pose proof Hr as [Hx Hm _ _ _]. destruct (indexed_find _ _ k Hx) as (r & -> & Hres).
  exists r. split; [done|]. destruct r as [p|]; unfold mfound.
  - destruct Hres as (i & Hs & Hk). replace (midx m p) with i by (symmetry; apply Hs). split_and!; try done.
    apply list_lookup_fmap_Some in Hk as (r & -> & Hi). by exists r.
  - split; [done|]. destruct (c !! k) as [v|] eqn:E; [|done]. destruct Hres. apply elem_of_map_to_list in E. rewrite <- Hm in E.
    apply list_elem_of_fmap in E as (r & [= -> ->] & Hin). apply list_elem_of_fmap. by exists r.
Qed.

(** Rewriting the cells of one record. *)
Lemma mmap_set_repr m c i r r' t l : mmap_repr m c -> mrec m !! i = Some r -> mkey r' = mkey r -> mrec_ok r' ->
  t = u64 (cells (<[kp (mkey r) := vals r']> c)) ->
  mmap_repr (mk_mmap (<[i := r']> (mrec m)) (mcap m) (mmix m) t l) (<[kp (mkey r) := vals r']> c).
Proof.
  intros Hr Hi Ek Hok ->. pose proof Hr as [Hx Hm Hrs Hc Ht]. destruct (mrec_lookup _ _ _ _ Hr Hi) as (_ & Hki & Hci & _).
  split; unfold mkeys, mmlen in *; cbn [mrec mmix mcap mmtotal]; rewrite ?length_insert; try done.
  - rewrite list_fmap_insert, list_insert_id; [done|]. by rewrite Ek.
  - destruct (insert_perm (mrec m) i r r' Hi) as (rest & H1 & H2). rewrite H2. rewrite H1, <- (map_to_list_delete c _ _ Hci) in Hm.
    cbn [fmap list_fmap] in *. unfold mrec_kv at 1 in Hm. apply Permutation_cons_inv in Hm.
    rewrite <- (insert_delete_eq c), map_to_list_insert by apply lookup_delete_eq. unfold mrec_kv at 1. rewrite Ek. by constructor.
  - by apply Forall_insert.
Qed.

Lemma mmap_erase_spec m c k p r : indexed (mmix m) (mkeys m) -> (mrec_kv <$> mrec m) ≡ₚ map_to_list c ->
  Forall (fun r => kh (mkey r) = key_hash (kp (mkey r))) (mrec m) -> cap_ok (mcap m) -> Z.of_nat (mmlen m) <= mcap m ->
  slot_for (mmix m) p k (midx m p) -> mrec m !! midx m p = Some r -> kp (mkey r) = k ->
  Forall mrec_ok (swap_remove (midx m p) (mrec m)) -> mmtotal m = u64 (cells (delete k c)) ->
  exists m', mmap_erase m (midx m p) p = Some m' /\ mmap_repr m' (delete k c).
Proof.
  intros Hx Hm Hrs Hc1 Hc2 Hs Hi Ek Hok Ht. set (i := midx m p) in *. pose proof (lookup_lt_Some _ _ _ Hi) as Hil.
  assert (Hk : mkeys m !! i = Some k) by (unfold mkeys; rewrite list_lookup_fmap, Hi; cbn; by rewrite Ek).
  assert (Hck : c !! k = Some (vals r)).
  { apply elem_of_map_to_list. rewrite <- Hm. apply list_elem_of_fmap. exists r. split; [unfold mrec_kv; by rewrite Ek|]. by eapply list_elem_of_lookup_2. }
  destruct (lookup_lt_is_Some_2 (mrec m) (length (mrec m) - 1)) as [last Hlast]; [lia|].
  assert (Hlk : mkeys m !! (length (mkeys m) - 1)%nat = Some (kp (mkey last))) by (rewrite mkeys_len; unfold mkeys, mmlen; by rewrite list_lookup_fmap, Hlast).
  destruct (indexed_remove _ _ p k i _ Hx Hs Hk Hlk) as (ix1 & E1 & Hrm). rewrite mkeys_len in Hrm. unfold mmlen in *.
  assert (Hfin : forall ix', indexed ix' (swap_remove i (mkeys m)) ->
    mmap_repr (mk_mmap (swap_remove i (mrec m)) (mcap m) ix' (mmtotal m) (mmem m)) (delete k c)).
  { intros ix' Hx'. pose proof (swap_remove_perm (mrec m) i r Hi) as Hp. rewrite Hp in Hm.
    split; unfold mkeys, mmlen in *; cbn [mrec mmix mcap mmtotal]; try done.
    - by rewrite swap_remove_fmap.
    - rewrite <- (map_to_list_delete c _ _ Hck) in Hm. cbn [fmap list_fmap] in Hm. unfold mrec_kv at 1 in Hm. rewrite Ek in Hm.
      by apply Permutation_cons_inv in Hm.
    - split; [done|]. rewrite swap_remove_len by done. lia. }
  unfold mmap_erase. rewrite E1. cbn [mbind option_bind]. unfold mmlen, mrec_at. rewrite (nth_lookup_Some _ _ _ _ Hlast).
  assert (Hrec : swap_remove i (mrec m) = if decide (i = length (mrec m) - 1)%nat then take (length (mrec m) - 1) (mrec m)
    else take (length (mrec m) - 1) (<[i := last]> (mrec m))) by (unfold swap_remove; by rewrite Hlast).
  destruct (Nat.eqb_spec i (length (mrec m) - 1)), (decide (i = length (mrec m) - 1)%nat); try done; cbn [negb]; rewrite <- Hrec.
  - eexists. split; [done|by apply Hfin].
  - destruct Hrm as (ix2 & E2 & Hx2). pose proof (proj1 (Forall_lookup _ _) Hrs _ _ Hlast) as Hlr. cbn beta in Hlr. rewrite Hlr, E2.
    eexists. split; [done|by apply Hfin].
Qed.

Definition mexhausted (m : dyn_mmap_t) : Prop := false ∈ mmem m \/ 2 ^ 31 <= 10 * Z.of_nat (mmlen m) + 10.

Lemma mmap_put_new_spec m c k v : mmap_repr m c -> c !! k = None -> (k ∉ mkeys m) ->
  exists ok m', mmap_put_new m k v = Some (ok, m') /\
    if ok then mmap_repr m' (<[k := [v]]> c) else mmap_repr m' c /\ mexhausted m.
Proof.
  intros Hr Hck Hk. pose proof Hr as [Hx Hm Hrs [Hc1 Hc2] Ht].
  destruct (indexed_used _ _ Hx) as [_ Hmax]. rewrite mkeys_len in Hmax. unfold mmap_put_new, key_init, mexhausted.
  assert (Hsame : forall cap' mem', cap_ok cap' -> Z.of_nat (mmlen m) <= cap' ->
    mmap_repr (mk_mmap (mrec m) cap' (mmix m) (mmtotal m) mem') c).
  { intros cap' mem' ? ?. by split. }
  destruct (reserve_spec (mmem m) (mcap m) (mmlen m) sizeof_mmap_rec Hc1 Hc2 Hmax ltac:(unfold sizeof_mmap_rec; lia))
    as (ok1 & cap1 & mem1 & -> & Hcap1 & Hmem1 & Hres1).
  destruct ok1; [|destruct Hres1 as [-> Hf]; eexists _, _; split; [done|]; split; [by apply Hsame|left; by apply hd_false]].
  assert (Hin1 : forall l, (l = mem1 \/ l = tl mem1) -> false ∈ l -> false ∈ mmem m).
  { intros l Hl Hf. apply (tl_elem _ mem1); [done|]. by apply (tl_elem _ l). }
  destruct (hd true mem1) eqn:Emem1; [|eexists _, _; split; [done|]; split;
    [apply Hsame; [done|lia]|left; apply (Hin1 mem1); [by left|by apply hd_false]]].
  destruct (reserve_spec (tl mem1) 0 0 sizeof_cell ltac:(by left) ltac:(lia) ltac:(lia) ltac:(unfold sizeof_cell; lia))
    as (ok2 & cap2 & mem2 & E2 & Hcap2 & Hmem2 & Hres2). change (u32 (Z.of_nat 0 + 1)) with 1 in E2. rewrite E2.
  destruct ok2; [|destruct Hres2 as [_ Hf]; eexists _, _; split; [done|]; split;
    [apply Hsame; [done|lia]|left; apply (Hin1 (tl mem1)); [by right|by apply hd_false]]].
  destruct (indexed_insert mem2 (mmix m) (mkeys m) k Hx Hk) as (ok3 & ix3 & mem3 & E3 & _ & Hres3).
  rewrite mkeys_len in E3, Hres3. rewrite E3. destruct ok3.
  - eexists _, _. split; [done|]. unfold mkeys, mmlen in *. split; unfold mkeys, mmlen; cbn [mrec mmix mcap mmtotal].
    + by rewrite fmap_app.
    + rewrite fmap_app, map_to_list_insert, Permutation_app_comm by done. cbn. by rewrite Hm.
    + apply Forall_app. split; [done|]. apply Forall_singleton. split_and!; [done..|cbn; lia].
    + split; [done|]. rewrite length_app. cbn. lia.
    + rewrite cells_insert. unfold at_key. rewrite Hck, Ht. cbn. rewrite wrap_add_l by lia. f_equal. lia.
  - destruct Hres3 as [-> Hwhy]. eexists _, _. split; [done|]. split; [apply Hsame; [done|lia]|].
    destruct Hwhy as [Hfull|Hf]; [right; lia|left]. apply (Hin1 (tl mem1)); [by right|].
    by apply (tl_elem _ mem2), hd_false.
Qed.

Lemma mmap_push_spec m c i r v : mmap_repr m c -> mrec m !! i = Some r -> Z.of_nat (length (vals r)) <= 375809640 ->
  exists ok m', mmap_push m i v = Some (ok, m') /\
    if ok then mmap_repr m' (<[kp (mkey r) := vals r ++ [v]]> c) else mmap_repr m' c /\ mexhausted m.
Proof.
  intros Hr Hi Hmax. destruct (mrec_lookup _ _ _ _ Hr Hi) as (Er & _ & Hci & Hk & Hne & Hc1 & Hc2).
  unfold mmap_push. rewrite Er.
  destruct (reserve_spec (mmem m) (vcap r) (length (vals r)) sizeof_cell Hc1 Hc2 Hmax ltac:(unfold sizeof_cell; lia))
    as (ok & cap' & mem' & -> & Hcap & _ & Hres). destruct ok; eexists _, _; (split; [done|]).
  - apply (mmap_set_repr m c i r (mk_mrec (mkey r) (vals r ++ [v]) cap')); try done.
    + split_and!; cbn [mkey vals vcap]; [done|by destruct (vals r)|done|]. rewrite length_app. cbn. lia.
    + cbn [vals]. rewrite cells_insert, (mm_total _ _ Hr), wrap_add_l by lia. unfold at_key. rewrite Hci, length_app. cbn. f_equal. unfold Datatypes.id. lia.
  - split; [destruct Hr; by split|]. left. by apply hd_false, Hres.
Qed.

(** The cells of a key replaced; a key without cells is not in the map. *)
Definition mmput (k : bytes) (vs : list dyn_cell_t) (c : gmap bytes (list dyn_cell_t)) : gmap bytes (list dyn_cell_t) :=
  match vs with [] => delete k c | _ => <[k := vs]> c end.

Lemma delete_nowhere {A} (l : list A) i : (length l <= i)%nat -> delete i l = l.
Proof. intros. rewrite delete_take_drop, take_ge, drop_ge by lia. apply app_nil_r. Qed.

Lemma mmput_same m c k : mmap_repr m c -> mmput k (at_key c k) c = c.
Proof.
  intros Hr. unfold at_key. destruct (c !! k) as [vs|] eqn:E; cbn; [|by rewrite delete_id]. unfold Datatypes.id.
  destruct vs as [|x vs]; [|exact (insert_id _ _ _ E)]. exfalso. apply elem_of_map_to_list in E. rewrite <- (mm_map _ _ Hr) in E.
  apply list_elem_of_fmap in E as (r & [= _ Hv] & Hin). pose proof (mm_recs _ _ Hr) as Hrs. rewrite Forall_forall in Hrs.
  by destruct (Hrs r Hin) as (_ & Hne & _).
Qed.

Lemma mmap_hashes m c : mmap_repr m c -> Forall (fun r => kh (mkey r) = key_hash (kp (mkey r))) (mrec m).
Proof. intros [_ _ Hrs _ _]. eapply Forall_impl; [done|]. by intros r [? _]. Qed.

(** Erasing the record of a key, whatever its cells have become. *)
Lemma mmap_drop_spec m c k p r r' t : mmap_repr m c -> slot_for (mmix m) p k (midx m p) -> mrec m !! midx m p = Some r ->
  kp (mkey r) = k -> mkey r' = mkey r -> t = u64 (cells (delete k c)) ->
  exists m', mmap_erase (mk_mmap (<[midx m p := r']> (mrec m)) (mcap m) (mmix m) t (mmem m)) (midx m p) p = Some m' /\ mmap_repr m' (delete k c).
Proof.
  intros Hr Hs Hi Ek Ek' Ht. pose proof Hr as [Hx Hm Hrs [Hc1 Hc2] _]. destruct (mrec_lookup _ _ _ _ Hr Hi) as (_ & Hki & Hci & Hok).
  set (m0 := mk_mmap _ _ _ _ _). assert (Hkeys : mkeys m0 = mkeys m).
  { unfold m0, mkeys. cbn [mrec]. rewrite list_fmap_insert, Ek'. by apply list_insert_id. }
  pose proof (lookup_lt_Some _ _ _ Hi) as Hil.
  destruct (insert_perm (mrec m) (midx m p) r r' Hi) as (rest & H1 & H2).
  assert (Hd : delete k (<[k := vals r']> c) = delete k c) by apply delete_insert_eq.
  rewrite <- Hd. rewrite <- Hd in Ht. apply (mmap_erase_spec m0 (<[k := vals r']> c) k p r'); unfold mmlen; cbn [m0 mrec mmix mcap mmtotal]; try done.
  - by rewrite Hkeys.
  - rewrite H2. rewrite H1, <- (map_to_list_delete c _ _ Hci) in Hm. cbn [fmap list_fmap] in *. unfold mrec_kv at 1 in Hm.
    apply Permutation_cons_inv in Hm. rewrite <- (insert_delete_eq c), map_to_list_insert by apply lookup_delete_eq.
    unfold mrec_kv at 1. rewrite Ek', <- Ek. by constructor.
  - apply Forall_insert; [by eapply mmap_hashes|]. rewrite Ek'. apply Hok.
  - by rewrite length_insert.
  - apply list_lookup_insert_eq, Hil.
  - by rewrite Ek'.
  - pose proof (swap_remove_perm _ _ r' (list_lookup_insert_eq (mrec m) (midx m p) r' Hil)) as Hp.
    change (midx m0 p) with (midx m p). pose proof (Permutation_cons_inv (transitivity (symmetry Hp) H2)) as Hp'. rewrite Hp'.
    rewrite H1 in Hrs. by inversion Hrs.
Qed.

Lemma mmap_lookup_spec m c k : mmap_repr m c ->
  exists r, mmap_lookup m k = Some r /\ match r with Some r => vals r | None => [] end = at_key c k.
Proof.
  intros Hr. unfold mmap_lookup. destruct (mmfind_spec m c k Hr) as (r & -> & Hres). cbn [mbind option_bind]. eexists. split; [done|].
  unfold at_key. destruct r as [p|]; [|by destruct Hres as [_ ->]]. destruct Hres as (_ & _ & r & Hi & <-).
  by destruct (mrec_lookup _ _ _ _ Hr Hi) as (-> & _ & -> & _).
Qed.

End Repr.

Module MMap_props.

(** Putting a cell refines appending it to the cells of its key: the other
    keys keep theirs, a new key starts with this cell; the call fails only
    when memory or the index is exhausted, and then nothing changes.  It ends
    on every multimap with at most 375809640 cells for the key. *)
Theorem mmap_put_refines `{KeyHash} m c k v : mmap_repr m c -> Z.of_nat (length (at_key c k)) <= 375809640 ->
  exists ok m', dyn_mmap_put m k v = Some (ok, m') /\
    mmap_repr m' (if ok then <[k := at_key c k ++ [v]]> c else c) /\ (ok = false -> mexhausted m).
Proof.
  intros Hr Hmax. unfold dyn_mmap_put. destruct (mmfind_spec m c k Hr) as (r & -> & Hres). cbn [mbind option_bind]. unfold at_key in *. destruct r as [p|].
  - destruct Hres as (_ & _ & r & Hi & <-). destruct (mrec_lookup _ _ _ _ Hr Hi) as (_ & _ & Hci & _). rewrite Hci in *.
    destruct (mmap_push_spec m c _ r v Hr Hi Hmax) as (ok & m' & -> & Hm'). exists ok, m'. split; [done|]. by destruct ok; [split|destruct Hm'].
  - destruct Hres as [Hk Hck]. rewrite Hck. destruct (mmap_put_new_spec m c k v Hr Hck Hk) as (ok & m' & -> & Hm').
    exists ok, m'. split; [done|]. by destruct ok; [split|destruct Hm'].
Qed.

Lemma mmap_put_refines_witness : exists ok m',
  @dyn_mmap_put (ix_hash_KeyHash 1 2) (dyn_mmap_new []) [97] (mk_cell 1 2) = Some (ok, m') /\
    @mmap_repr (ix_hash_KeyHash 1 2) m' (if ok then <[[97] := [mk_cell 1 2]]> ∅ else ∅).
Proof.
  destruct (@mmap_put_refines (ix_hash_KeyHash 1 2) (dyn_mmap_new []) ∅ [97] (mk_cell 1 2) (mmap_repr_new []) ltac:(by vm_compute))
    as (ok & m' & E & H & _). exists ok, m'. split; [exact E|exact H].
Defined.

(** Removing refines removing in the map: dyn_mmap_remove_at gives the [i]-th
    cell of the key and leaves the others in order, the key being gone with
    its last cell, and changes nothing when there is no such cell;
    dyn_mmap_remove_key hands over every cell of the key and removes it.  Both
    end, and both keep the number of cells exact modulo 2^64. *)
Theorem mmap_remove_refines `{KeyHash} m c k : mmap_repr m c ->
  (forall i, exists m', dyn_mmap_remove_at m k i = Some (at_key c k !! i, m') /\ mmap_repr m' (mmput k (delete i (at_key c k)) c)) /\
  (exists m', dyn_mmap_remove_key m k = Some (at_key c k, m') /\ mmap_repr m' (delete k c)).
Proof.
  intros Hr. pose proof (mmput_same m c k Hr) as Hsame. destruct (mmfind_spec m c k Hr) as (r & Ef & Hres).
  unfold dyn_mmap_remove_at, dyn_mmap_remove_key. rewrite Ef. cbn [mbind option_bind]. destruct r as [p|].
  2:{ destruct Hres as [_ Hck]. unfold at_key. rewrite Hck. assert (Ed : delete k c = c) by (by apply delete_id).
    split; [intros i|]; exists m; (split; [done|]); [rewrite delete_nowhere by (cbn; lia); cbn|]; by rewrite Ed. }
  destruct Hres as (Hs & _ & r & Hi & Ek). destruct (mrec_lookup _ _ _ _ Hr Hi) as (Er & _ & Hci & Hkh & Hne & Hc1 & Hc2).
  rewrite Er. assert (Hat : at_key c k = vals r) by (unfold at_key; by rewrite <- Ek, Hci). rewrite Hat in *. split.
  - intros i. destruct (vals r !! i) as [v|] eqn:Ev.
    2:{ exists m. split; [done|]. rewrite delete_nowhere; [by rewrite Hsame|by apply lookup_ge_None]. }
    rewrite <- delete_take_drop. pose proof (length_delete (vals r) i ltac:(by eexists)) as Hlen.
    pose proof (lookup_lt_Some _ _ _ Ev) as Hlt. set (vs := delete i (vals r)) in *. cbv zeta.
    assert (Htot : u64 (mmtotal m - 1) = u64 (cells c - Z.of_nat (length (vals r)) + Z.of_nat (length vs))).
    { rewrite (mm_total _ _ Hr), wrap_sub_l by lia. f_equal. lia. }
    destruct (Nat.eqb_spec (length vs) 0) as [H0|H0].
    + destruct (mmap_drop_spec m c k p r (mk_mrec (mkey r) vs (vcap r)) (u64 (mmtotal m - 1)) Hr Hs Hi Ek eq_refl) as (m' & E & Hr').
      { rewrite Htot, cells_delete, Hat, H0. f_equal. lia. }
      exists m'. rewrite E. split; [done|]. apply nil_length_inv in H0. by rewrite H0.
    + eexists. split; [done|]. replace (mmput k vs c) with (<[k := vs]> c) by (by destruct vs). rewrite <- Ek.
      apply (mmap_set_repr m c _ r (mk_mrec (mkey r) vs (vcap r))); try done.
      * split_and!; cbn [mkey vals vcap]; [done|by destruct vs|done|lia].
      * cbn [vals]. by rewrite cells_insert, Ek, Hat.
  - destruct (mmap_drop_spec m c k p r r (u64 (mmtotal m - Z.of_nat (length (vals r)))) Hr Hs Hi Ek eq_refl) as (m' & E & Hr').
    { rewrite cells_delete, Hat, (mm_total _ _ Hr), wrap_sub_l by lia. done. }
    rewrite list_insert_id in E by done. exists m'. by rewrite E.
Qed.

Lemma mmap_remove_refines_witness : exists m',
  @dyn_mmap_remove_key (ix_hash_KeyHash 1 2) (dyn_mmap_new []) [97] = Some ([], m') /\ @mmap_repr (ix_hash_KeyHash 1 2) m' ∅.
Proof. destruct (@mmap_remove_refines (ix_hash_KeyHash 1 2) (dyn_mmap_new []) ∅ [97] (mmap_repr_new [])) as [_ (m' & E & H)]. exists m'. split; [exact E|exact H]. Defined.

(** Reading: the number of cells of a key, each of them by position and all of
    them in insertion order are those of the map, and the number of cells in
    all is the sum over the keys modulo 2^64. *)
Theorem mmap_reads `{KeyHash} m c : mmap_repr m c ->
  (forall k, dyn_mmap_count m k = Some (length (at_key c k)) /\ dyn_mmap_cells_for m k = Some (at_key c k)) /\
  (forall k i, dyn_mmap_at m k i = Some (at_key c k !! i)) /\
  dyn_mmap_keys m = size c /\ dyn_mmap_size m = u64 (cells c) /\
  (forall i k n, dyn_mmap_key_at m i = Some (k, n) -> c !! k = Some (dyn_mmap_cells_at m i) /\ n = length (dyn_mmap_cells_at m i)).
Proof.
  intros Hr. unfold dyn_mmap_count, dyn_mmap_cells_for, dyn_mmap_at. split_and!; [intros k|intros k i| |apply Hr|].
  - destruct (mmap_lookup_spec m c k Hr) as (r & -> & <-). by destruct r.
  - destruct (mmap_lookup_spec m c k Hr) as (r & -> & <-). by destruct r.
  - pose proof (Permutation_length (mm_map _ _ Hr)) as Hl. by rewrite length_fmap, length_map_to_list in Hl.
  - intros i k n. unfold dyn_mmap_key_at, dyn_mmap_cells_at, mmlen. destruct (Nat.leb_spec (length (mrec m)) i); [done|]. intros [= <- <-].
    destruct (lookup_lt_is_Some_2 (mrec m) i) as [r Hi]; [lia|]. by destruct (mrec_lookup _ _ _ _ Hr Hi) as (-> & _ & -> & _).
Qed.

Lemma mmap_reads_witness : @dyn_mmap_count (ix_hash_KeyHash 1 2) (dyn_mmap_new []) [97] = Some 0%nat.
Proof. destruct (@mmap_reads (ix_hash_KeyHash 1 2) (dyn_mmap_new []) ∅ (mmap_repr_new [])) as (H1 & _). apply (H1 [97]). Defined.

End MMap_props.
