(* ===== verification/Gc.v ===== *)
(** * The cycle collector: finding the garbage

    gc_decref and gc_scan of src/object/shapes_objects_gc.inc.c with
    mark_children and the mark functions it calls (JS_MarkContext of
    src/mm/js_malloc.inc.c, js_mark_module_def of src/parser/parser.inc.c, and
    those of the classes of shapes_objects_gc.inc.c).

    The runtime is the heap (what the objects refer to), the block headers
    (reference count and mark bit) and the lists that link the objects.  A
    mark function calls its argument on the headers it finds, one after the
    other, and none of the three arguments it gets changes what the objects
    refer to: a mark function is the list of the headers it visits, and
    mark_children with a given argument is the loop over that list.

    Of an object only what the mark functions read is kept.  The properties of
    an object are its JSProperty entries with the atoms of its shape, the
    union by its tag in the flags of the shape.  A class whose mark function
    is elsewhere gives the references that function visits and the finalizer of
    the class gives up.

    [None] stands for a failed assertion or a fault: a header that does not
    exist, a link followed from an object that is not in the list. *)
From Stdlib Require Import ZArith Lia.
From stdpp Require Import base numbers list option gmap.
From S2P Require Import Prelude.

(** ** Values and objects *)

Abbreviation ptr := positive.

Definition JS_TAG_FIRST : Z := -9.
Definition JS_TAG_MODULE : Z := -3.
Definition JS_TAG_FUNCTION_BYTECODE : Z := -2.
Definition JS_TAG_OBJECT : Z := -1.
Definition JS_TAG_UNDEFINED : Z := 3.

Inductive JSValue :=
| JS_MKPTR (tag : Z) (p : ptr)
| JS_MKVAL (tag : Z) (val : Z).

Definition JS_UNDEFINED : JSValue := JS_MKVAL JS_TAG_UNDEFINED 0.

Definition JS_VALUE_GET_TAG (v : JSValue) : Z := match v with JS_MKPTR tag _ | JS_MKVAL tag _ => tag end.
Definition JS_VALUE_GET_PTR (v : JSValue) : option ptr := match v with JS_MKPTR _ p => Some p | JS_MKVAL _ _ => None end.
Definition JS_VALUE_HAS_REF_COUNT (v : JSValue) : bool := u32 JS_TAG_FIRST <=? u32 (JS_VALUE_GET_TAG v).

Definition JS_ATOM_NULL : Z := 0.

Inductive JSProperty :=
| prop_value (value : JSValue)
| prop_getset (getter setter : option ptr)
| prop_var_ref (var_ref : ptr)
| prop_init (realm : ptr).

(** A counted reference, by the function that gives it up: JS_FreeValueRT,
    js_free_shape, free_var_ref, async_func_free or JS_FreeContext. *)
Inductive gref :=
| to_value (p : ptr)
| to_shape (p : ptr)
| to_var_ref (p : ptr)
| to_async (p : ptr)
| to_context (p : ptr).
Definition target (r : gref) : ptr := match r with to_value p | to_shape p | to_var_ref p | to_async p | to_context p => p end.

Inductive class_payload :=
| class_none
| class_array (values : list JSValue)
| class_object_data (object_data : JSValue)
| class_c_function (realm : option ptr)
| class_bytecode_function (home_object function_bytecode : option ptr) (var_refs : option (list (option ptr)))
| class_bound_function (func_obj this_val : JSValue) (argv : list JSValue)
| class_for_in_iterator (obj : JSValue)
| class_other (held : list gref).

Record JSObject := mk_object { shape : ptr; prop : list (Z * JSProperty); payload : class_payload; weakref_count : Z }.

Record JSFunctionBytecode := mk_bytecode {
  cpool : list JSValue; brealm : option ptr; ctor_presize : option (option ptr); obj_presize : option (list (option ptr)) }.

Inductive JSVarRef :=
| var_ref_detached (value : JSValue)
| var_ref_attached (async_func : option ptr).

Record JSAsyncFunctionState := mk_async {
  is_completed : bool; cur_func : JSValue; this_val : JSValue; stack : option (list JSValue); aresolving0 : JSValue; aresolving1 : JSValue }.

Record JSContext := mk_context {
  loaded_modules : list ptr;
  global_obj : JSValue; global_var_obj : JSValue; throw_type_error : JSValue; eval_obj : JSValue;
  array_proto_values : JSValue; native_error_proto : list JSValue; class_proto : list JSValue;
  iterator_ctor : JSValue; async_iterator_proto : JSValue; promise_ctor : JSValue; array_ctor : JSValue; regexp_ctor : JSValue;
  regexp_legacy_input : JSValue; regexp_legacy_subject : JSValue; function_ctor : JSValue; function_proto : JSValue;
  array_shape : option ptr; arguments_shape : option ptr; mapped_arguments_shape : option ptr; regexp_shape : option ptr;
  regexp_result_shape : option ptr; iterator_result_shape : option ptr; native_func_shape : option ptr }.

Inductive JSExportEntry :=
| export_local (var_ref : option ptr)
| export_indirect.

Record JSModuleDef := mk_module {
  req_attributes : list JSValue; export_entries : list JSExportEntry;
  module_ns : JSValue; func_obj : JSValue; eval_exception : JSValue; meta_obj : JSValue; promise : JSValue;
  mresolving0 : JSValue; mresolving1 : JSValue; private_value : JSValue }.

(** An object with its JSGCObjectTypeEnum. *)
Inductive gc_obj :=
| JS_GC_OBJ_TYPE_JS_OBJECT (p : JSObject)
| JS_GC_OBJ_TYPE_FUNCTION_BYTECODE (b : JSFunctionBytecode)
| JS_GC_OBJ_TYPE_SHAPE (proto : option ptr)
| JS_GC_OBJ_TYPE_VAR_REF (var_ref : JSVarRef)
| JS_GC_OBJ_TYPE_ASYNC_FUNCTION (s : JSAsyncFunctionState)
| JS_GC_OBJ_TYPE_JS_CONTEXT (ctx : JSContext)
| JS_GC_OBJ_TYPE_MODULE (m : JSModuleDef).

(** ** Marking *)

(** [if (p) mark_func(rt, &p->header)] *)
Definition mark_ptr (p : option ptr) : list ptr := match p with Some p => [p] | None => [] end.

Definition JS_MarkValue (val : JSValue) : list ptr :=
  if JS_VALUE_HAS_REF_COUNT val then
    let tag := JS_VALUE_GET_TAG val in
    if (tag =? JS_TAG_OBJECT) || (tag =? JS_TAG_FUNCTION_BYTECODE) || (tag =? JS_TAG_MODULE)
    then mark_ptr (JS_VALUE_GET_PTR val) else []
  else [].

Definition JS_MarkValues (l : list JSValue) : list ptr := l ≫= JS_MarkValue.

Definition mark_property (pr : Z * JSProperty) : list ptr :=
  if pr.1 =? JS_ATOM_NULL then [] else
  match pr.2 with
  | prop_getset getter setter => mark_ptr getter ++ mark_ptr setter
  | prop_var_ref var_ref => [var_ref]
  | prop_init realm => [realm]
  | prop_value value => JS_MarkValue value
  end.

Definition js_array_mark (values : list JSValue) : list ptr := JS_MarkValues values.
Definition js_object_data_mark (object_data : JSValue) : list ptr := JS_MarkValue object_data.
Definition js_c_function_mark (realm : option ptr) : list ptr := mark_ptr realm.
Definition js_bytecode_function_mark (home_object b : option ptr) (var_refs : option (list (option ptr))) : list ptr :=
  mark_ptr home_object ++
  match b with
  | Some b => (match var_refs with Some l => l ≫= mark_ptr | None => [] end) ++ JS_MarkValue (JS_MKPTR JS_TAG_FUNCTION_BYTECODE b)
  | None => []
  end.
Definition js_bound_function_mark (func_obj this_val : JSValue) (argv : list JSValue) : list ptr :=
  JS_MarkValue func_obj ++ JS_MarkValue this_val ++ JS_MarkValues argv.
Definition js_for_in_iterator_mark (obj : JSValue) : list ptr := JS_MarkValue obj.

(** [rt->class_array[p->class_id].gc_mark] *)
Definition gc_mark (c : class_payload) : list ptr :=
  match c with
  | class_none => []
  | class_array values => js_array_mark values
  | class_object_data v => js_object_data_mark v
  | class_c_function realm => js_c_function_mark realm
  | class_bytecode_function home b vr => js_bytecode_function_mark home b vr
  | class_bound_function f t argv => js_bound_function_mark f t argv
  | class_for_in_iterator obj => js_for_in_iterator_mark obj
  | class_other held => target <$> held
  end.

Definition JS_MarkContext (ctx : JSContext) : list ptr :=
  (loaded_modules ctx ≫= fun m => JS_MarkValue (JS_MKPTR JS_TAG_MODULE m)) ++
  JS_MarkValue (global_obj ctx) ++ JS_MarkValue (global_var_obj ctx) ++
  JS_MarkValue (throw_type_error ctx) ++ JS_MarkValue (eval_obj ctx) ++
  JS_MarkValue (array_proto_values ctx) ++ JS_MarkValues (native_error_proto ctx) ++ JS_MarkValues (class_proto ctx) ++
  JS_MarkValue (iterator_ctor ctx) ++ JS_MarkValue (async_iterator_proto ctx) ++ JS_MarkValue (promise_ctor ctx) ++
  JS_MarkValue (array_ctor ctx) ++ JS_MarkValue (regexp_ctor ctx) ++ JS_MarkValue (regexp_legacy_input ctx) ++
  JS_MarkValue (regexp_legacy_subject ctx) ++ JS_MarkValue (function_ctor ctx) ++ JS_MarkValue (function_proto ctx) ++
  mark_ptr (array_shape ctx) ++ mark_ptr (arguments_shape ctx) ++ mark_ptr (mapped_arguments_shape ctx) ++
  mark_ptr (regexp_shape ctx) ++ mark_ptr (regexp_result_shape ctx) ++ mark_ptr (iterator_result_shape ctx) ++
  mark_ptr (native_func_shape ctx).

Definition mark_export (me : JSExportEntry) : list ptr :=
  match me with export_local var_ref => mark_ptr var_ref | export_indirect => [] end.

Definition js_mark_module_def (m : JSModuleDef) : list ptr :=
  JS_MarkValues (req_attributes m) ++ (export_entries m ≫= mark_export) ++
  JS_MarkValue (module_ns m) ++ JS_MarkValue (func_obj m) ++ JS_MarkValue (eval_exception m) ++ JS_MarkValue (meta_obj m) ++
  JS_MarkValue (promise m) ++ JS_MarkValue (mresolving0 m) ++ JS_MarkValue (mresolving1 m) ++ JS_MarkValue (private_value m).

Definition mark_children (gp : gc_obj) : list ptr :=
  match gp with
  | JS_GC_OBJ_TYPE_JS_OBJECT p => shape p :: (prop p ≫= mark_property) ++ gc_mark (payload p)
  | JS_GC_OBJ_TYPE_FUNCTION_BYTECODE b =>
      JS_MarkValues (cpool b) ++ mark_ptr (brealm b) ++
      (match ctor_presize b with Some cached_shape => mark_ptr cached_shape | None => [] end) ++
      (match obj_presize b with Some sites => sites ≫= mark_ptr | None => [] end)
  | JS_GC_OBJ_TYPE_VAR_REF (var_ref_detached value) => JS_MarkValue value
  | JS_GC_OBJ_TYPE_VAR_REF (var_ref_attached async_func) => mark_ptr async_func
  | JS_GC_OBJ_TYPE_ASYNC_FUNCTION s =>
      (if negb (is_completed s) then
         JS_MarkValue (cur_func s) ++ JS_MarkValue (this_val s) ++ match stack s with Some l => JS_MarkValues l | None => [] end
       else []) ++
      JS_MarkValue (aresolving0 s) ++ JS_MarkValue (aresolving1 s)
  | JS_GC_OBJ_TYPE_SHAPE proto => mark_ptr proto
  | JS_GC_OBJ_TYPE_JS_CONTEXT ctx => JS_MarkContext ctx
  | JS_GC_OBJ_TYPE_MODULE m => js_mark_module_def m
  end.

(** ** The runtime *)

Record rc_header := mk_rc { ref_count : Z; mark : bool }.

Inductive JSGCPhaseEnum := JS_GC_PHASE_NONE | JS_GC_PHASE_DECREF | JS_GC_PHASE_REMOVE_CYCLES.

(** A block whose contents have been given up and that is not freed yet. *)
Inductive torn_block := torn_object (weakref_count : Z) | torn_other.

Record JSRuntime := mk_rt {
  heap : gmap ptr gc_obj; rc : gmap ptr rc_header; torn : gmap ptr torn_block;
  gc_obj_list : list ptr; tmp_obj_list : list ptr; gc_zero_ref_count_list : list ptr; gc_phase : JSGCPhaseEnum }.

Definition js_rc (rt : JSRuntime) (p : ptr) : option rc_header := rc rt !! p.
Definition set_rc (rt : JSRuntime) (p : ptr) (h : rc_header) : JSRuntime :=
  mk_rt (heap rt) (<[p := h]> (rc rt)) (torn rt) (gc_obj_list rt) (tmp_obj_list rt) (gc_zero_ref_count_list rt) (gc_phase rt).
Definition set_lists (rt : JSRuntime) (gl tl zl : list ptr) : JSRuntime := mk_rt (heap rt) (rc rt) (torn rt) gl tl zl (gc_phase rt).

(** An object is in one list through its link: [list_del] takes it out of it. *)
Definition unlink (p : ptr) (l : list ptr) : list ptr := filter (fun q => q <> p) l.
Definition list_del (rt : JSRuntime) (p : ptr) : JSRuntime :=
  set_lists rt (unlink p (gc_obj_list rt)) (unlink p (tmp_obj_list rt)) (unlink p (gc_zero_ref_count_list rt)).
Definition add_tail_gc (rt : JSRuntime) (p : ptr) : JSRuntime :=
  set_lists rt (gc_obj_list rt ++ [p]) (tmp_obj_list rt) (gc_zero_ref_count_list rt).
Definition add_tail_tmp (rt : JSRuntime) (p : ptr) : JSRuntime :=
  set_lists rt (gc_obj_list rt) (tmp_obj_list rt ++ [p]) (gc_zero_ref_count_list rt).
Definition add_tail_zero (rt : JSRuntime) (p : ptr) : JSRuntime :=
  set_lists rt (gc_obj_list rt) (tmp_obj_list rt) (gc_zero_ref_count_list rt ++ [p]).

(** [el->next] for an element of the list: [Some None] is the list head. *)
Fixpoint list_next (l : list ptr) (p : ptr) : option (option ptr) :=
  match l with
  | [] => None
  | x :: l => if (x =? p)%positive then Some (head l) else list_next l p
  end.

(** [mark_children(rt, p, mark_func)] *)
Definition mark_children_with (mark_func : JSRuntime -> ptr -> option JSRuntime) (rt : JSRuntime) (p : ptr) : option JSRuntime :=
  gp ← heap rt !! p; each mark_func (mark_children gp) rt.

Definition gc_decref_child (rt : JSRuntime) (p : ptr) : option JSRuntime :=
  h ← js_rc rt p;
  if negb (0 <? ref_count h) then None else
  let h := mk_rc (ref_count h - 1) (mark h) in
  let rt := set_rc rt p h in
  if (ref_count h =? 0) && mark h then Some (add_tail_tmp (list_del rt p) p) else Some rt.

Definition gc_decref_body (rt : JSRuntime) (p : ptr) : option JSRuntime :=
  h ← js_rc rt p;
  if mark h then None else
  rt ← mark_children_with gc_decref_child rt p;
  h ← js_rc rt p;
  let rt := set_rc rt p (mk_rc (ref_count h) true) in
  if ref_count h =? 0 then Some (add_tail_tmp (list_del rt p) p) else Some rt.

(** [list_for_each_safe]: the successor is read before the body runs. *)
Fixpoint gc_decref_loop (fuel : nat) (el el1 : option ptr) (rt : JSRuntime) : option JSRuntime :=
  match el with
  | None => Some rt
  | Some p =>
      match fuel with
      | O => None
      | S fuel =>
          rt ← gc_decref_body rt p;
          el2 ← match el1 with Some q => list_next (gc_obj_list rt) q | None => Some None end;
          gc_decref_loop fuel el1 el2 rt
      end
  end.

Definition gc_decref (rt : JSRuntime) : option JSRuntime :=
  let rt := set_lists rt (gc_obj_list rt) [] (gc_zero_ref_count_list rt) in
  let l := gc_obj_list rt in
  gc_decref_loop (length l) (head l) (head (tail l)) rt.

Definition gc_scan_incref_child (rt : JSRuntime) (p : ptr) : option JSRuntime :=
  h ← js_rc rt p;
  let h := mk_rc (ref_count h + 1) (mark h) in
  if ref_count h =? 1
  then Some (set_rc (add_tail_gc (list_del rt p) p) p (mk_rc (ref_count h) false))
  else Some (set_rc rt p h).

Definition gc_scan_incref_child2 (rt : JSRuntime) (p : ptr) : option JSRuntime :=
  h ← js_rc rt p;
  Some (set_rc rt p (mk_rc (ref_count h + 1) (mark h))).

Definition gc_scan_body (rt : JSRuntime) (p : ptr) : option JSRuntime :=
  h ← js_rc rt p;
  if negb (0 <? ref_count h) then None else
  mark_children_with gc_scan_incref_child (set_rc rt p (mk_rc (ref_count h) false)) p.

(** [list_for_each]: the successor is read after the body, so objects the body
    appends are visited as well. *)
Fixpoint gc_scan_loop (fuel : nat) (el : option ptr) (rt : JSRuntime) : option JSRuntime :=
  match el with
  | None => Some rt
  | Some p =>
      match fuel with
      | O => None
      | S fuel =>
          rt ← gc_scan_body rt p;
          el ← list_next (gc_obj_list rt) p;
          gc_scan_loop fuel el rt
      end
  end.

Fixpoint gc_scan_loop2 (fuel : nat) (el : option ptr) (rt : JSRuntime) : option JSRuntime :=
  match el with
  | None => Some rt
  | Some p =>
      match fuel with
      | O => None
      | S fuel =>
          rt ← mark_children_with gc_scan_incref_child2 rt p;
          el ← list_next (tmp_obj_list rt) p;
          gc_scan_loop2 fuel el rt
      end
  end.

(** No list is longer than the number of headers. *)
Definition gc_scan (rt : JSRuntime) : option JSRuntime :=
  rt ← gc_scan_loop (size (rc rt)) (head (gc_obj_list rt)) rt;
  gc_scan_loop2 (size (rc rt)) (head (tmp_obj_list rt)) rt.

(** ** Counting references *)

Definition nrefs (cs : list ptr) (x : ptr) : Z := Z.of_nat (count_occ Pos.eq_dec cs x).

Lemma nrefs_app cs cs' x : nrefs (cs ++ cs') x = nrefs cs x + nrefs cs' x.
Proof. unfold nrefs. rewrite count_occ_app. lia. Qed.

Lemma nrefs_cons c cs x : nrefs (c :: cs) x = (if decide (c = x) then 1 else 0) + nrefs cs x.
Proof. unfold nrefs. cbn. destruct (Pos.eq_dec c x), (decide (c = x)); try done; lia. Qed.

Lemma nrefs_nonneg cs x : 0 <= nrefs cs x.
Proof. unfold nrefs. lia. Qed.

Lemma nrefs_pos cs x : 0 < nrefs cs x <-> x ∈ cs.
Proof. unfold nrefs. rewrite list_elem_of_In, (count_occ_In Pos.eq_dec). lia. Qed.

Lemma nrefs_perm cs cs' x : cs ≡ₚ cs' -> nrefs cs x = nrefs cs' x.
Proof. intros Hp. unfold nrefs. f_equal. by apply Permutation_count_occ. Qed.

(** The two passes leave the other parts of the runtime alone. *)
Definition rest (tn : gmap ptr torn_block) (rt : JSRuntime) : Prop := torn rt = tn /\ gc_zero_ref_count_list rt = [].

Create HintDb gc.

Lemma rest_set_rc tn rt p h : rest tn rt -> rest tn (set_rc rt p h).
Proof. done. Qed.
Lemma rest_tmp tn rt p : rest tn rt -> rest tn (add_tail_tmp (list_del rt p) p).
Proof. intros [? Hz]. split; [done|]. cbn. by rewrite Hz. Qed.
Lemma rest_gc tn rt p : rest tn rt -> rest tn (add_tail_gc (list_del rt p) p).
Proof. intros [? Hz]. split; [done|]. cbn. by rewrite Hz. Qed.
#[export] Hint Resolve rest_set_rc rest_tmp rest_gc : gc.

Section Marking.
Variable hp : gmap ptr gc_obj.

Definition children (p : ptr) : list ptr := match hp !! p with Some gp => mark_children gp | None => [] end.
Definition refs (l : list ptr) (x : ptr) : Z := nrefs (l ≫= children) x.

Lemma refs_app l l' x : refs (l ++ l') x = refs l x + refs l' x.
Proof. unfold refs. by rewrite bind_app, nrefs_app. Qed.

Lemma refs_snoc l p x : refs (l ++ [p]) x = refs l x + nrefs (children p) x.
Proof. rewrite refs_app. unfold refs. cbn. by rewrite app_nil_r. Qed.

Lemma refs_nonneg l x : 0 <= refs l x.
Proof. apply nrefs_nonneg. Qed.

Lemma refs_pos l x : 0 < refs l x <-> exists p, p ∈ l /\ x ∈ children p.
Proof. unfold refs. rewrite nrefs_pos, list_elem_of_bind. split; intros (p & ? & ?); by exists p. Qed.

Lemma refs_perm l l' x : l ≡ₚ l' -> refs l x = refs l' x.
Proof. intros Hp. unfold refs. apply nrefs_perm. by rewrite Hp. Qed.

Lemma elem_mid (p : ptr) l r : p ∈ l ++ p :: r.
Proof. apply elem_of_app. right. left. Qed.

(** The objects that something outside the heap refers to, and those they
    lead to. *)
Variable all : list ptr.
Variable ext : ptr -> Z.
Variable rc0 : gmap ptr rc_header.
Variable tn : gmap ptr torn_block.
Inductive live : ptr -> Prop :=
| live_root p : p ∈ all -> 0 < ext p -> live p
| live_step p q : live p -> q ∈ children p -> live q.

Lemma elem_unlink p x l : x ∈ unlink p l <-> x ∈ l /\ x <> p.
Proof. unfold unlink. rewrite list_elem_of_filter. split; intros [? ?]; by split. Qed.

Lemma unlink_NoDup p l : NoDup l -> NoDup (unlink p l).
Proof. apply NoDup_filter. Qed.

Lemma unlink_app p l l' : unlink p (l ++ l') = unlink p l ++ unlink p l'.
Proof. apply filter_app. Qed.

Lemma unlink_absent p l : p ∉ l -> unlink p l = l.
Proof.
  unfold unlink. induction l as [|x l IH]; intros Hp; [done|]. apply not_elem_of_cons in Hp as [? ?].
  by rewrite filter_cons_True, IH.
Qed.

Lemma next_mid l p l' : p ∉ l -> list_next (l ++ p :: l') p = Some (head l').
Proof.
  induction l as [|x l IH]; intros Hp; cbn [app list_next].
  - by rewrite Pos.eqb_refl.
  - apply not_elem_of_cons in Hp as [? ?]. rewrite (proj2 (Pos.eqb_neq _ _)) by done. by apply IH.
Qed.

Hypothesis all_NoDup : NoDup all.
Hypothesis all_heap : forall p, p ∈ all -> is_Some (hp !! p).
Hypothesis all_closed : forall p q, p ∈ all -> q ∈ children p -> q ∈ all.
Hypothesis ext_nonneg : forall p, p ∈ all -> 0 <= ext p.

(** *** gc_decref *)

(** In the middle of gc_decref: [V] has been visited, [R] has not, and [cs] are
    the children already visited of the first of [R]. *)
Definition dcount (V cs : list ptr) (x : ptr) : Z := ext x + refs all x - refs V x - nrefs cs x.

Record dstate (V R cs L : list ptr) (rt : JSRuntime) : Prop := {
  ds_heap : heap rt = hp;
  ds_all : V ++ R ≡ₚ all;
  ds_list : gc_obj_list rt = L ++ R;
  ds_NoDup : NoDup L /\ NoDup (tmp_obj_list rt);
  ds_L : forall x, x ∈ L <-> x ∈ V /\ 0 < dcount V cs x;
  ds_tmp : forall x, x ∈ tmp_obj_list rt <-> x ∈ V /\ dcount V cs x = 0;
  ds_rc : forall x, x ∈ all -> rc rt !! x = Some (mk_rc (dcount V cs x) (bool_decide (x ∈ V)));
  ds_frame : forall x, x ∉ all -> rc rt !! x = rc0 !! x;
  ds_rest : rest tn rt
}.

Lemma ds_split V R cs L rt x : dstate V R cs L rt -> x ∈ all <-> x ∈ V \/ x ∈ R.
Proof. intros [_ Ha _ _ _ _ _ _ _]. rewrite <- Ha. apply elem_of_app. Qed.

Lemma ds_disj V R cs L rt x : dstate V R cs L rt -> x ∈ V -> x ∉ R.
Proof.
  intros [_ Ha _ _ _ _ _ _ _] HV HR. pose proof all_NoDup as Hn. rewrite <- Ha in Hn. apply NoDup_app in Hn as (_ & Hd & _). by apply (Hd x).
Qed.

(** What is left to visit bounds the count from below. *)
Lemma dcount_left V R cs L rt p r cs' x : dstate V R cs L rt -> R = p :: r -> children p = cs ++ cs' -> x ∈ all ->
  nrefs cs' x <= dcount V cs x.
Proof.
  intros [_ Ha _ _ _ _ _ _ _] -> Hc Hx. unfold dcount. rewrite <- (refs_perm _ _ x Ha), refs_app.
  assert (refs (p :: r) x = nrefs (children p) x + refs r x) as -> by (unfold refs; cbn; by rewrite nrefs_app).
  rewrite Hc, nrefs_app. pose proof (refs_nonneg r x). pose proof (ext_nonneg x Hx). lia.
Qed.

Lemma decref_child_step V R cs L rt p r c cs' : dstate V R cs L rt -> R = p :: r -> children p = cs ++ c :: cs' ->
  exists L' rt', gc_decref_child rt c = Some rt' /\ dstate V R (cs ++ [c]) L' rt'.
Proof.
  intros Hs HR Hc.
  assert (Hp : p ∈ all) by (rewrite (ds_split _ _ _ _ _ _ Hs), HR; right; left).
  assert (Hca : c ∈ all) by (apply (all_closed p); [done|]; rewrite Hc; apply elem_mid).
  pose proof (dcount_left _ _ _ _ _ _ _ _ c Hs HR Hc Hca) as Hleft. rewrite nrefs_cons, decide_True in Hleft by done.
  pose proof (nrefs_nonneg cs' c). pose proof Hs as [Hh Ha Hl [HnL HnT] HL HT Hrc Hfr Hre].
  assert (Hd : forall x, dcount V (cs ++ [c]) x = if decide (c = x) then dcount V cs x - 1 else dcount V cs x).
  { intros x. unfold dcount. rewrite nrefs_app, nrefs_cons. change (nrefs [] x) with 0. destruct (decide (c = x)); lia. }
  assert (Hd' : forall x, x <> c -> dcount V (cs ++ [c]) x = dcount V cs x) by (intros x Hx; rewrite Hd; by rewrite decide_False).
  specialize (Hd c) as Hdc. rewrite decide_True in Hdc by done.
  assert (Hrc' : forall x, x ∈ all -> <[c := mk_rc (dcount V (cs ++ [c]) c) (bool_decide (c ∈ V))]> (rc rt) !! x =
    Some (mk_rc (dcount V (cs ++ [c]) x) (bool_decide (x ∈ V)))).
  { intros x Hx. destruct (decide (x = c)) as [->|Hne]; [by rewrite lookup_insert_eq|]. rewrite lookup_insert_ne, Hd' by done. by apply Hrc. }
  assert (Hfr' : forall x h, x ∉ all -> <[c := h]> (rc rt) !! x = rc0 !! x).
  { intros x h Hx. rewrite lookup_insert_ne; [by apply Hfr|]. by intros ->. }
  unfold gc_decref_child, js_rc. rewrite (Hrc c Hca). cbn [mbind option_bind ref_count mark]. rewrite (proj2 (Z.ltb_lt _ _)) by lia.
  cbn [negb]. rewrite <- Hdc. case_bool_decide as HcV.
  - rewrite andb_true_r. destruct (Z.eqb_spec (dcount V (cs ++ [c]) c) 0) as [H0|H0].
    + assert (HcL : c ∈ L) by (apply HL; split; [done|lia]).
      exists (unlink c L). eexists. split; [done|]. split; try (by auto with gc); cbn [add_tail_tmp list_del set_lists set_rc heap rc gc_obj_list tmp_obj_list]; try done.
      * rewrite Hl, unlink_app, (unlink_absent c R); [done|]. by eapply ds_disj.
      * split; [by apply unlink_NoDup|]. apply NoDup_app. split_and!; [by apply unlink_NoDup| |apply NoDup_singleton].
        intros x [_ Hx]%elem_unlink ->%list_elem_of_singleton. done.
      * intros x. rewrite elem_unlink, HL. destruct (decide (x = c)) as [->|Hne]; [intuition lia|]. rewrite Hd' by done. intuition congruence.
      * intros x. rewrite elem_of_app, elem_unlink, HT, list_elem_of_singleton.
        destruct (decide (x = c)) as [->|Hne]; [intuition lia|]. rewrite Hd' by done. intuition congruence.
      * by intros x; apply Hfr'.
    + exists L. eexists. split; [done|]. split; try (by auto with gc); cbn [set_rc heap rc gc_obj_list tmp_obj_list]; try done; intros x.
      * rewrite HL. destruct (decide (x = c)) as [->|Hne]; [|by rewrite Hd']. split; (intros [? ?]; split; [done|lia]).
      * rewrite HT. destruct (decide (x = c)) as [->|Hne]; [|by rewrite Hd']. split; (intros [? ?]; split; [done|lia]).
      * by apply Hfr'.
  - rewrite andb_false_r. exists L. eexists. split; [done|]. split; try (by auto with gc); cbn [set_rc heap rc gc_obj_list tmp_obj_list]; try done; intros x.
    + rewrite HL. destruct (decide (x = c)) as [->|Hne]; [intuition congruence|by rewrite Hd'].
    + rewrite HT. destruct (decide (x = c)) as [->|Hne]; [intuition congruence|by rewrite Hd'].
    + by apply Hfr'.
Qed.

Lemma decref_children V R L rt p r : dstate V R [] L rt -> R = p :: r ->
  exists L' rt', mark_children_with gc_decref_child rt p = Some rt' /\ dstate V R (children p) L' rt'.
Proof.
  intros Hs HR. assert (Hp : p ∈ all) by (rewrite (ds_split _ _ _ _ _ _ Hs), HR; right; left).
  unfold mark_children_with. rewrite (ds_heap _ _ _ _ _ Hs). destruct (all_heap p Hp) as [gp Egp].
  rewrite Egp. cbn [mbind option_bind].
  assert (Hg : forall cs' cs L rt, children p = cs ++ cs' -> dstate V R cs L rt ->
    exists L' rt', each gc_decref_child cs' rt = Some rt' /\ dstate V R (children p) L' rt').
  { clear Hs. intros cs'. induction cs' as [|c cs' IH]; intros cs L0 rt0 Ec Hs; cbn [each].
    - exists L0, rt0. rewrite app_nil_r in Ec. by rewrite Ec.
    - destruct (decref_child_step _ _ _ _ _ _ _ _ _ Hs HR Ec) as (L1 & rt1 & -> & Hs1). cbn [mbind option_bind].
      rewrite (cons_middle c cs cs'), app_assoc in Ec. by apply (IH (cs ++ [c]) L1 rt1). }
  apply (Hg _ [] L); [|done]. unfold children. by rewrite Egp.
Qed.

Lemma decref_body_step V R L rt p r : dstate V R [] L rt -> R = p :: r ->
  exists L' rt', gc_decref_body rt p = Some rt' /\ dstate (V ++ [p]) r [] L' rt'.
Proof.
  intros Hs HR. assert (Hp : p ∈ all) by (rewrite (ds_split _ _ _ _ _ _ Hs), HR; right; left).
  assert (HpV : p ∉ V) by (intros HV; apply (ds_disj _ _ _ _ _ _ Hs HV); rewrite HR; left).
  unfold gc_decref_body, js_rc. rewrite (ds_rc _ _ _ _ _ Hs p Hp), bool_decide_false by done. cbn [mbind option_bind mark].
  destruct (decref_children _ _ _ _ _ _ Hs HR) as (L1 & rt1 & -> & Hs1). cbn [mbind option_bind].
  pose proof Hs1 as [Hh Ha Hl [HnL HnT] HL HT Hrc Hfr Hre]. rewrite (Hrc p Hp). cbn [mbind option_bind ref_count].
  assert (Hd : forall x, dcount (V ++ [p]) [] x = dcount V (children p) x).
  { intros x. unfold dcount. rewrite refs_snoc. change (nrefs [] x) with 0. lia. }
  assert (Hpr : p ∉ r).
  { intros Hin. pose proof all_NoDup as Hn. rewrite <- Ha, HR in Hn. apply NoDup_app in Hn as (_ & _ & Hn). by inversion Hn. }
  assert (Ha' : (V ++ [p]) ++ r ≡ₚ all) by (rewrite <- Ha, HR; by rewrite <- app_assoc).
  assert (Hin : forall x, x ∈ V ++ [p] <-> x ∈ V \/ x = p) by (intros x; by rewrite elem_of_app, list_elem_of_singleton).
  assert (Hrc' : forall x, x ∈ all -> <[p := mk_rc (dcount V (children p) p) true]> (rc rt1) !! x =
    Some (mk_rc (dcount (V ++ [p]) [] x) (bool_decide (x ∈ V ++ [p])))).
  { intros x Hx. rewrite Hd. destruct (decide (x = p)) as [->|Hne].
    - rewrite lookup_insert_eq, bool_decide_true; [done|]. apply Hin. by right.
    - rewrite lookup_insert_ne, Hrc by done. do 2 f_equal. apply bool_decide_ext. rewrite Hin. intuition congruence. }
  assert (Hfr' : forall x, x ∉ all -> <[p := mk_rc (dcount V (children p) p) true]> (rc rt1) !! x = rc0 !! x).
  { intros x Hx. rewrite lookup_insert_ne; [by apply Hfr|]. by intros ->. }
  pose proof (dcount_left V R (children p) L1 rt1 p r [] p Hs1 HR ltac:(by rewrite app_nil_r) Hp) as Hpos. change (nrefs [] p) with 0 in Hpos.
  assert (HpL : p ∉ L1) by (rewrite HL; intuition). assert (HpT : p ∉ tmp_obj_list rt1) by (rewrite HT; intuition).
  destruct (Z.eqb_spec (dcount V (children p) p) 0) as [H0|H0].
  - exists L1. eexists. split; [done|]. split; try (by auto with gc); cbn [add_tail_tmp list_del set_lists set_rc heap rc gc_obj_list tmp_obj_list]; try done.
    + rewrite Hl, HR, unlink_app. unfold unlink at 2. rewrite filter_cons_False by (intros Hn; done). fold (unlink p r).
      by rewrite !unlink_absent.
    + split; [done|]. rewrite unlink_absent by done. apply NoDup_app. split_and!; [done| |apply NoDup_singleton].
      intros x Hx ->%list_elem_of_singleton. done.
    + intros x. rewrite Hin, Hd, HL. destruct (decide (x = p)) as [->|]; intuition lia.
    + intros x. rewrite unlink_absent by done. rewrite elem_of_app, list_elem_of_singleton, Hin, Hd, HT. destruct (decide (x = p)) as [->|]; intuition.
  - exists (L1 ++ [p]). eexists. split; [done|]. split; try (by auto with gc); cbn [set_rc heap rc gc_obj_list tmp_obj_list]; try done.
    + rewrite Hl, HR. by rewrite <- app_assoc.
    + split; [|done]. apply NoDup_app. split_and!; [done| |apply NoDup_singleton]. intros x Hx ->%list_elem_of_singleton. done.
    + intros x. rewrite elem_of_app, list_elem_of_singleton, Hin, Hd, HL. destruct (decide (x = p)) as [->|]; intuition lia.
    + intros x. rewrite Hin, Hd, HT. destruct (decide (x = p)) as [->|]; intuition.
Qed.

Lemma dstate_done V L rt : dstate V [] [] L rt -> dstate all [] [] L rt.
Proof.
  intros [Hh Ha Hl Hn HL HT Hrc Hfr Hre]. rewrite app_nil_r in Ha.
  assert (Hd : forall x, dcount all [] x = dcount V [] x) by (intros x; unfold dcount; by rewrite (refs_perm V all x Ha)).
  split; try done; try (by rewrite app_nil_r); intros x; rewrite ?Hd, <- ?Ha; [by apply HL|by apply HT|].
  intros Hx. rewrite Hrc by done. do 2 f_equal. apply bool_decide_ext. by rewrite Ha.
Qed.

Lemma decref_loop_spec fuel V R L rt : dstate V R [] L rt -> (length R <= fuel)%nat ->
  exists L' rt', gc_decref_loop fuel (head R) (head (tail R)) rt = Some rt' /\ dstate all [] [] L' rt'.
Proof.
  revert V R L rt. induction fuel as [|fuel IH]; intros V R L rt Hs Hf; (destruct R as [|p r]; [|]); cbn [length] in Hf; try lia; cbn [head tail].
  1,2: exists L, rt; split; [done|by eapply dstate_done].
  cbn [gc_decref_loop]. destruct (decref_body_step _ _ _ _ p r Hs eq_refl) as (L1 & rt1 & -> & Hs1). cbn [mbind option_bind].
  destruct r as [|q r]; cbn [head tail].
  - cbn [mbind option_bind]. by apply (IH (V ++ [p]) [] L1); [|cbn; lia].
  - rewrite (ds_list _ _ _ _ _ Hs1), next_mid.
    + cbn [mbind option_bind]. apply (IH (V ++ [p]) (q :: r) L1); [done|]. cbn in *. lia.
    + intros Hq. apply (ds_L _ _ _ _ _ Hs1) in Hq as [Hq _]. apply (ds_disj _ _ _ _ _ _ Hs1 Hq). left.
Qed.

(** *** gc_scan *)

(** In the middle of the first loop of gc_scan: [S] has been scanned, [R] is to
    be scanned, [cs] are the children already counted of the first of [R], and
    the mark bits of [F] have been cleared. *)
Definition scount (S cs : list ptr) (x : ptr) : Z := ext x + refs S x + nrefs cs x.

Record sstate (S R cs F : list ptr) (rt : JSRuntime) : Prop := {
  ss_heap : heap rt = hp;
  ss_list : gc_obj_list rt = S ++ R;
  ss_NoDup : NoDup (S ++ R) /\ NoDup (tmp_obj_list rt);
  ss_in : forall x, x ∈ S ++ R <-> x ∈ all /\ 0 < scount S cs x;
  ss_tmp : forall x, x ∈ tmp_obj_list rt <-> x ∈ all /\ scount S cs x = 0;
  ss_live : forall x, x ∈ S ++ R -> live x;
  ss_rc : forall x, x ∈ all -> exists m, rc rt !! x = Some (mk_rc (scount S cs x) m) /\
    (x ∈ F -> m = false) /\ (x ∈ tmp_obj_list rt -> m = true);
  ss_frame : forall x, x ∉ all -> rc rt !! x = rc0 !! x;
  ss_rest : rest tn rt
}.

Lemma scount_nonneg S cs x : x ∈ all -> 0 <= scount S cs x.
Proof. intros Hx. unfold scount. pose proof (ext_nonneg x Hx). pose proof (refs_nonneg S x). pose proof (nrefs_nonneg cs x). lia. Qed.

Lemma scount_snoc S cs c x : scount S (cs ++ [c]) x = (if decide (c = x) then 1 else 0) + scount S cs x.
Proof. unfold scount. rewrite nrefs_app, nrefs_cons. change (nrefs [] x) with 0. lia. Qed.

Lemma sstate_start L rt : dstate all [] [] L rt -> sstate [] L [] [] rt.
Proof.
  intros [Hh Ha Hl [HnL HnT] HL HT Hrc Hfr Hre]. rewrite app_nil_r in Hl.
  assert (Hd : forall x, dcount all [] x = scount [] [] x) by (intros x; unfold dcount, scount; change (refs [] x) with 0; change (nrefs [] x) with 0; lia).
  split; try done; try (by intros x; rewrite <- Hd; auto); cbn [app].
  - intros x Hx. apply HL in Hx as [Hx H0]. apply live_root; [done|]. unfold dcount in H0. change (nrefs [] x) with 0 in H0. lia.
  - intros x Hx. exists true. rewrite Hrc, bool_decide_true, Hd by done. split_and!; [done| |done]. by intros ?%not_elem_of_nil.
Qed.

Lemma incref_child_step S R cs F rt p r c cs' : sstate S R cs F rt -> R = p :: r -> children p = cs ++ c :: cs' -> F ⊆ S ++ R ->
  exists r' rt', gc_scan_incref_child rt c = Some rt' /\ sstate S (p :: r') (cs ++ [c]) F rt' /\ F ⊆ S ++ p :: r'.
Proof.
  intros Hs HR Hc HF. pose proof Hs as [Hh Hl [HnL HnT] HL HT Hlv Hrc Hfr Hre].
  assert (HpR : p ∈ S ++ R) by (rewrite HR; apply elem_mid). pose proof (proj1 (proj1 (HL p) HpR)) as Hp.
  assert (Hcc : c ∈ children p) by (rewrite Hc; apply elem_mid).
  assert (Hca : c ∈ all) by (by apply (all_closed p)). pose proof (scount_nonneg S cs c Hca) as H0.
  destruct (Hrc c Hca) as (m & Em & HmF & HmT). unfold gc_scan_incref_child, js_rc. rewrite Em. cbn [mbind option_bind ref_count mark].
  assert (Hd : forall x, x <> c -> scount S (cs ++ [c]) x = scount S cs x) by (intros x Hx; by rewrite scount_snoc, decide_False).
  assert (Hdc : scount S (cs ++ [c]) c = scount S cs c + 1) by (rewrite scount_snoc, decide_True by done; lia). rewrite <- Hdc.
  assert (Hfr' : forall x h, x ∉ all -> <[c := h]> (rc rt) !! x = rc0 !! x).
  { intros x h Hx. rewrite lookup_insert_ne; [by apply Hfr|]. by intros ->. }
  destruct (Z.eqb_spec (scount S (cs ++ [c]) c) 1) as [H1|H1].
  - assert (HcT : c ∈ tmp_obj_list rt) by (apply HT; split; [done|lia]).
    assert (HcL : c ∉ S ++ R) by (rewrite HL; intuition lia).
    exists (r ++ [c]). eexists. split; [done|]. subst R. rewrite app_comm_cons, app_assoc.
    split; [|by etrans; [|apply list_subseteq_app_l]]. split; try (by auto with gc); cbn [add_tail_gc list_del set_lists set_rc heap rc gc_obj_list tmp_obj_list]; try done.
    + rewrite Hl, unlink_absent by done. by rewrite app_assoc.
    + rewrite app_assoc. split; [|by apply unlink_NoDup]. apply NoDup_app. split_and!; [done| |apply NoDup_singleton].
      intros x Hx ->%list_elem_of_singleton. done.
    + intros x. rewrite app_assoc, elem_of_app, list_elem_of_singleton, HL.
      destruct (decide (x = c)) as [->|Hne]; [intuition lia|rewrite Hd by done; intuition].
    + intros x. rewrite elem_unlink, HT. destruct (decide (x = c)) as [->|Hne]; [intuition lia|rewrite Hd by done; intuition].
    + intros x. rewrite app_assoc, elem_of_app, list_elem_of_singleton. intros [Hx| ->]; [by apply Hlv|].
      apply (live_step p); [by apply Hlv|done].
    + intros x Hx. destruct (decide (x = c)) as [->|Hne].
      * exists false. rewrite lookup_insert_eq. split_and!; [done..|]. by intros [_ ?]%elem_unlink.
      * rewrite lookup_insert_ne, Hd by done. destruct (Hrc x Hx) as (m' & E' & H2 & H3). exists m'. split_and!; [done..|].
        by intros [? _]%elem_unlink; apply H3.
    + by intros x; apply Hfr'.
  - exists r. eexists. split; [done|]. subst R. split; [|done].
    split; try (by auto with gc); cbn [set_rc heap rc gc_obj_list tmp_obj_list]; try done; intros x.
    + rewrite HL. destruct (decide (x = c)) as [->|Hne]; [intuition lia|rewrite Hd by done; intuition].
    + rewrite HT. destruct (decide (x = c)) as [->|Hne]; [intuition lia|rewrite Hd by done; intuition].
    + intros Hx. destruct (decide (x = c)) as [->|Hne].
      * exists m. by rewrite lookup_insert_eq.
      * rewrite lookup_insert_ne, Hd by done. by apply Hrc.
    + by apply Hfr'.
Qed.

Lemma incref_children S R F rt p r : sstate S R [] F rt -> R = p :: r -> F ⊆ S ++ R ->
  exists r' rt', mark_children_with gc_scan_incref_child rt p = Some rt' /\ sstate S (p :: r') (children p) F rt'.
Proof.
  intros Hs -> HF. assert (Hp : p ∈ all) by (apply (ss_in _ _ _ _ _ Hs); apply elem_mid).
  unfold mark_children_with. rewrite (ss_heap _ _ _ _ _ Hs). destruct (all_heap p Hp) as [gp Egp].
  rewrite Egp. cbn [mbind option_bind].
  assert (Hg : forall cs' cs r rt, children p = cs ++ cs' -> sstate S (p :: r) cs F rt -> F ⊆ S ++ p :: r ->
    exists r' rt', each gc_scan_incref_child cs' rt = Some rt' /\ sstate S (p :: r') (children p) F rt').
  { clear Hs HF. intros cs'. induction cs' as [|c cs' IH]; intros cs r0 rt0 Ec Hs HF; cbn [each].
    - exists r0, rt0. rewrite app_nil_r in Ec. by rewrite Ec.
    - destruct (incref_child_step _ _ _ _ _ _ _ _ _ Hs eq_refl Ec HF) as (r1 & rt1 & -> & Hs1 & HF1). cbn [mbind option_bind].
      rewrite (cons_middle c cs cs'), app_assoc in Ec. by apply (IH (cs ++ [c]) r1 rt1). }
  apply (Hg _ [] r); [|done..]. unfold children. by rewrite Egp.
Qed.

Lemma scan_body_step S p r rt : sstate S (p :: r) [] S rt ->
  exists r' rt', gc_scan_body rt p = Some rt' /\ sstate (S ++ [p]) r' [] (S ++ [p]) rt' /\ gc_obj_list rt' = S ++ p :: r'.
Proof.
  intros Hs. pose proof Hs as [Hh Hl [HnL HnT] HL HT Hlv Hrc Hfr Hre].
  pose proof (elem_mid p S r) as HpR. pose proof (proj1 (HL p) HpR) as [Hp Hpos].
  destruct (Hrc p Hp) as (m & Em & _ & HmT). unfold gc_scan_body, js_rc. rewrite Em. cbn [mbind option_bind ref_count].
  rewrite (proj2 (Z.ltb_lt _ _)) by done. cbn [negb].
  assert (Hs1 : sstate S (p :: r) [] (S ++ [p]) (set_rc rt p (mk_rc (scount S [] p) false))).
  { split; try (by auto with gc); cbn [set_rc heap rc gc_obj_list tmp_obj_list]; try done; intros x Hx.
    - destruct (decide (x = p)) as [->|Hne].
      + exists false. rewrite lookup_insert_eq. split_and!; [done..|]. intros Ht%HT. lia.
      + rewrite lookup_insert_ne by done. destruct (Hrc x Hx) as (m' & E' & H1 & H2). exists m'. split_and!; [done| |done].
        intros [?| ->%list_elem_of_singleton]%elem_of_app; [by apply H1|done].
    - rewrite lookup_insert_ne; [by apply Hfr|]. by intros ->. }
  destruct (incref_children _ _ _ _ p r Hs1 eq_refl) as (r' & rt' & E & Hs2).
  { intros x. rewrite !elem_of_app, !elem_of_cons, elem_of_nil. tauto. } exists r', rt'. split; [done|].
  destruct Hs2 as [Hh' Hl' Hn' HL' HT' Hlv' Hrc' Hfr' Hre']. split; [|done].
  assert (Hd : forall x, scount (S ++ [p]) [] x = scount S (children p) x).
  { intros x. unfold scount. rewrite refs_snoc. change (nrefs [] x) with 0. lia. }
  split; try done; rewrite <- ?app_assoc; try done; intros x; rewrite Hd; auto.
Qed.

Lemma scan_loop_spec fuel S R rt : sstate S R [] S rt -> (length all - length S <= fuel)%nat ->
  exists S' rt', gc_scan_loop fuel (head R) rt = Some rt' /\ sstate S' [] [] S' rt'.
Proof.
  revert S R rt. induction fuel as [|fuel IH]; intros S R rt Hs Hf; (destruct R as [|p r]; [by exists S, rt|]); cbn [head gc_scan_loop].
  all: assert (Hlen : (length (S ++ p :: r) <= length all)%nat) by
    (apply submseteq_length, NoDup_submseteq; [apply Hs|intros x Hx; exact (proj1 (proj1 (ss_in _ _ _ _ _ Hs x) Hx))]);
    rewrite length_app in Hlen; cbn [length] in Hlen.
  { lia. }
  destruct (scan_body_step _ _ _ _ Hs) as (r' & rt' & -> & Hs' & Hl'). cbn [mbind option_bind]. rewrite Hl', next_mid.
  - cbn [mbind option_bind]. apply (IH (S ++ [p])); [done|]. rewrite length_app. cbn. lia.
  - intros Hin. destruct (ss_NoDup _ _ _ _ _ Hs) as [Hn _]. apply NoDup_app in Hn as (_ & Hn & _). apply (Hn p Hin). left.
Qed.

(** When nothing is left to scan, the scanned objects are the live ones. *)
Lemma scan_live S F rt x : sstate S [] [] F rt -> x ∈ S <-> live x.
Proof.
  intros [Hh Hl Hn HL HT Hlv Hrc Hfr Hre]. rewrite app_nil_r in *. split; [by apply Hlv|].
  induction 1 as [p Hp He|p q Hp IH Hq]; apply HL; unfold scount; change (nrefs [] ?y) with 0.
  - pose proof (refs_nonneg S p). split; [done|lia].
  - pose proof (proj1 (proj1 (HL p) IH)) as Hpa. assert (Hqa : q ∈ all) by (by apply (all_closed p)). split; [done|].
    pose proof (ext_nonneg q Hqa). assert (0 < refs S q) by (apply refs_pos; by exists p). lia.
Qed.

(** *** The second loop of gc_scan *)

(** The counts of [rt0] plus the references of [T] and [cs]; nothing else has
    changed. *)
Definition bump (T cs : list ptr) (x : ptr) (h : rc_header) : rc_header := mk_rc (ref_count h + refs T x + nrefs cs x) (mark h).

Record tstate (rt0 : JSRuntime) (T cs : list ptr) (rt : JSRuntime) : Prop := {
  ts_heap : heap rt = hp;
  ts_rest : rest tn rt;
  ts_list : gc_obj_list rt = gc_obj_list rt0 /\ tmp_obj_list rt = tmp_obj_list rt0;
  ts_rc : forall x, rc rt !! x = bump T cs x <$> rc rt0 !! x
}.

Lemma incref2_children rt0 T rt p : (forall x, x ∈ all -> is_Some (rc rt0 !! x)) -> tstate rt0 T [] rt -> p ∈ all ->
  exists rt', mark_children_with gc_scan_incref_child2 rt p = Some rt' /\ tstate rt0 (T ++ [p]) [] rt'.
Proof.
  intros Hall Hs Hp. unfold mark_children_with. rewrite (ts_heap _ _ _ _ Hs). destruct (all_heap p Hp) as [gp Egp].
  rewrite Egp. cbn [mbind option_bind].
  assert (Hg : forall cs' cs rt, children p = cs ++ cs' -> tstate rt0 T cs rt ->
    exists rt', each gc_scan_incref_child2 cs' rt = Some rt' /\ tstate rt0 T (children p) rt').
  { clear Hs. intros cs'. induction cs' as [|c cs' IH]; intros cs rt1 Ec Hs; cbn [each].
    - exists rt1. rewrite app_nil_r in Ec. by rewrite Ec.
    - assert (Hc : c ∈ all) by (apply (all_closed p); [done|]; rewrite Ec; apply elem_mid).
      destruct (Hall c Hc) as [h Eh]. pose proof Hs as [Hh Hre Hl Hrc].
      assert (gc_scan_incref_child2 rt1 c = Some (set_rc rt1 c (mk_rc (ref_count (bump T cs c h) + 1) (mark h)))) as ->.
      { unfold gc_scan_incref_child2, js_rc. by rewrite (Hrc c), Eh. }
      cbn [mbind option_bind].
      rewrite (cons_middle c cs cs'), app_assoc in Ec. apply (IH (cs ++ [c])); [done|].
      split; try (by auto with gc); cbn [set_rc heap rc gc_obj_list tmp_obj_list]; [done..|]. intros x. destruct (decide (x = c)) as [->|Hne].
      + rewrite lookup_insert_eq, Eh. cbn. unfold bump. do 2 f_equal. rewrite nrefs_app, nrefs_cons, decide_True by done.
        change (nrefs [] c) with 0. lia.
      + rewrite lookup_insert_ne, Hrc by done. destruct (rc rt0 !! x); [|done]. cbn. unfold bump. do 2 f_equal.
        rewrite nrefs_app, nrefs_cons, decide_False by done. change (nrefs [] x) with 0. lia. }
  destruct (Hg (mark_children gp) [] rt) as (rt' & E & [Hh Hre Hl Hrc]); [unfold children; by rewrite Egp|done|].
  exists rt'. split; [done|]. split; [done..|]. intros x. rewrite Hrc. destruct (rc rt0 !! x); [|done]. cbn. unfold bump. do 2 f_equal.
  rewrite refs_snoc. change (nrefs [] x) with 0. lia.
Qed.

Lemma scan_loop2_spec fuel rt0 T1 T2 rt : (forall x, x ∈ all -> is_Some (rc rt0 !! x)) -> tstate rt0 T1 [] rt ->
  tmp_obj_list rt0 = T1 ++ T2 -> NoDup (T1 ++ T2) -> (forall x, x ∈ T1 ++ T2 -> x ∈ all) -> (length T2 <= fuel)%nat ->
  exists rt', gc_scan_loop2 fuel (head T2) rt = Some rt' /\ tstate rt0 (T1 ++ T2) [] rt'.
Proof.
  intros Hall. revert T1 T2 rt. induction fuel as [|fuel IH]; intros T1 T2 rt Hs Ht Hn Hin Hf;
    (destruct T2 as [|p r]; [exists rt; by rewrite app_nil_r|]); cbn [length] in Hf; [lia|].
  cbn [head gc_scan_loop2]. destruct (incref2_children _ _ _ p Hall Hs) as (rt' & -> & Hs'); [apply Hin, elem_mid|].
  cbn [mbind option_bind]. destruct (ts_list _ _ _ _ Hs') as [_ Etmp]. rewrite Etmp, Ht, next_mid.
  - cbn [mbind option_bind]. rewrite (cons_middle p T1 r), app_assoc in Ht, Hn, Hin |- *. apply IH; try done. lia.
  - intros Hp. apply NoDup_app in Hn as (_ & Hd & _). apply (Hd p Hp). left.
Qed.

Lemma size_all {V} (m : gmap ptr V) : (forall x, x ∈ all -> is_Some (m !! x)) -> (length all <= size m)%nat.
Proof.
  intros H1. rewrite <- size_dom, <- (size_list_to_set (C := gset ptr) all) by done. apply subseteq_size. intros x.
  rewrite elem_of_list_to_set, elem_of_dom. apply H1.
Qed.

(** ** Both passes *)

(** What a collection starts from: the objects are those of gc_obj_list, with
    clear marks, and the count of each is the number of references to it from
    objects and from outside. *)
Definition collects (rt : JSRuntime) : Prop :=
  heap rt = hp /\ gc_obj_list rt = all /\ rest tn rt /\
  (forall x, x ∈ all -> rc rt !! x = Some (mk_rc (ext x + refs all x) false)) /\ (forall x, x ∉ all -> rc rt !! x = rc0 !! x).

Lemma decref_spec rt : collects rt -> exists L rt', gc_decref rt = Some rt' /\ dstate all [] [] L rt'.
Proof.
  intros (Hh & Hl & Hre & Hrc & Hfr). unfold gc_decref. cbn [set_lists gc_obj_list gc_zero_ref_count_list]. rewrite Hl.
  apply (decref_loop_spec _ [] all []); [|done]. split; try (by auto with gc); cbn [set_lists heap rc gc_obj_list tmp_obj_list app]; try done.
  - split; constructor.
  - intros x. rewrite elem_of_nil. intuition.
  - intros x. rewrite elem_of_nil. intuition.
  - intros x Hx. rewrite Hrc, bool_decide_false by (done || by intros ?%not_elem_of_nil). do 2 f_equal. unfold dcount.
    change (refs [] x) with 0. change (nrefs [] x) with 0. lia.
Qed.

Lemma scan_spec L rt : dstate all [] [] L rt -> exists rt', gc_scan rt = Some rt' /\ heap rt' = hp /\ rest tn rt' /\
  (forall x, x ∈ gc_obj_list rt' <-> live x) /\ (forall x, x ∈ tmp_obj_list rt' <-> x ∈ all /\ ~ live x) /\
  NoDup (gc_obj_list rt' ++ tmp_obj_list rt') /\
  (forall x, x ∈ all -> rc rt' !! x = Some (mk_rc (ext x + refs all x) (bool_decide (x ∈ tmp_obj_list rt')))) /\
  (forall x, x ∉ all -> rc rt' !! x = rc0 !! x).
Proof.
  intros Hd. pose proof (sstate_start _ _ Hd) as Hs. unfold gc_scan.
  pose proof (size_all (rc rt) ltac:(intros x Hx; by rewrite (ds_rc _ _ _ _ _ Hd x Hx))).
  rewrite (ss_list _ _ _ _ _ Hs). cbn [app].
  destruct (scan_loop_spec (size (rc rt)) [] L rt Hs) as (S & rt1 & -> & Hs1); [cbn; lia|]. cbn [mbind option_bind].
  pose proof (scan_live S S rt1) as Hlive. pose proof Hs1 as [Hh1 Hl1 [HnS HnT] HL1 HT1 _ Hrc1 Hfr1 Hre1]. rewrite app_nil_r in Hl1, HnS, HL1.
  assert (Hall : forall x, x ∈ all -> is_Some (rc rt1 !! x)) by (intros x Hx; destruct (Hrc1 x Hx) as (m & -> & _); done).
  pose proof (size_all (rc rt1) Hall).
  assert (HTall : forall x, x ∈ tmp_obj_list rt1 -> x ∈ all) by (intros x Hx; exact (proj1 (proj1 (HT1 x) Hx))).
  destruct (scan_loop2_spec (size (rc rt1)) rt1 [] (tmp_obj_list rt1) rt1) as (rt2 & -> & [Hh2 Hre2 [Hl2 Ht2] Hrc2]); try done.
  { split; [done..|]. intros x. destruct (rc rt1 !! x) as [[c m]|]; [|done]. cbn. unfold bump. cbn. do 2 f_equal.
    change (refs [] x) with 0. change (nrefs [] x) with 0. lia. }
  { etrans; [by apply submseteq_length, NoDup_submseteq|done]. }
  cbn [app] in Hrc2. rewrite Hl1 in Hl2. exists rt2. split; [done|]. split; [done|]. split; [done|].
  assert (HST : forall x, x ∈ S -> x ∉ tmp_obj_list rt1).
  { intros x Hx1 Hx2. apply HL1 in Hx1. apply HT1 in Hx2. lia. }
  assert (Hperm : S ++ tmp_obj_list rt1 ≡ₚ all).
  { apply NoDup_Permutation; [by apply NoDup_app|done|]. intros x. rewrite elem_of_app, HL1, HT1.
    split; [tauto|]. intros Hx. pose proof (scount_nonneg S [] x Hx). destruct (decide (scount S [] x = 0)); [by right|left; split; [done|lia]]. }
  rewrite Hl2, Ht2. split_and!.
  - intros x. by apply Hlive.
  - intros x. split; [intros Hx; split; [by apply HTall|]|].
    + intros Hlx. apply Hlive in Hlx; [|done]. by apply (HST x).
    + intros [Hx Hnl]. rewrite <- Hperm, elem_of_app in Hx. destruct Hx as [Hx|]; [|done]. destruct Hnl. by apply Hlive.
  - by apply NoDup_app.
  - intros x Hx. rewrite Hrc2. destruct (Hrc1 x Hx) as (m & -> & HmF & HmT). cbn. unfold bump. cbn. do 2 f_equal.
    + rewrite <- (refs_perm _ _ x Hperm), refs_app. unfold scount. change (nrefs [] x) with 0. lia.
    + rewrite <- Hperm, elem_of_app in Hx. case_bool_decide as Ht; [by apply HmT|]. apply HmF. tauto.
  - intros x Hx. rewrite Hrc2, Hfr1 by done. destruct (rc0 !! x) as [[c m]|]; [|done]. cbn. unfold bump. cbn. do 2 f_equal.
    change (nrefs [] x) with 0. pose proof (refs_nonneg (tmp_obj_list rt1) x). destruct (decide (0 < refs (tmp_obj_list rt1) x)) as [Hr|]; [|lia].
    apply refs_pos in Hr as (p & Hp & Hc). destruct Hx. apply (all_closed p); [by apply HTall|done].
Qed.

End Marking.

(** What the collector relies on: the objects of gc_obj_list are distinct, their
    marks are clear and their counts positive, they refer to objects of the list
    only, and no object has fewer references counted than there are from
    objects. *)
Definition obj_ready (rt : JSRuntime) (p : ptr) : bool :=
  match heap rt !! p, rc rt !! p with
  | Some gp, Some h =>
      negb (mark h) && (0 <? ref_count h) && (refs (heap rt) (gc_obj_list rt) p <=? ref_count h) &&
      forallb (fun q => bool_decide (q ∈ gc_obj_list rt)) (mark_children gp)
  | _, _ => false
  end.
Definition gc_ready (rt : JSRuntime) : Prop := NoDup (gc_obj_list rt) /\ forallb (obj_ready rt) (gc_obj_list rt) = true.

(** References from outside the heap: the stack, handles, the runtime. *)
Definition external (rt : JSRuntime) (p : ptr) : Z :=
  match rc rt !! p with Some h => ref_count h - refs (heap rt) (gc_obj_list rt) p | None => 0 end.

(** The objects a program can still reach. *)
Definition in_use (rt : JSRuntime) : ptr -> Prop := live (heap rt) (gc_obj_list rt) (external rt).

Lemma ready_obj rt p : gc_ready rt -> p ∈ gc_obj_list rt -> exists gp c,
  heap rt !! p = Some gp /\ rc rt !! p = Some (mk_rc c false) /\ 0 < c /\ refs (heap rt) (gc_obj_list rt) p <= c /\
  forall q, q ∈ mark_children gp -> q ∈ gc_obj_list rt.
Proof.
  intros [_ Hf] Hp. rewrite forallb_forall in Hf. specialize (Hf p (proj1 (list_elem_of_In _ _) Hp)). unfold obj_ready in Hf.
  destruct (heap rt !! p) as [gp|]; [|done]. destruct (rc rt !! p) as [[c m]|]; [|done]. cbn in Hf.
  apply andb_true_iff in Hf as [[[Hm H0%Z.ltb_lt]%andb_true_iff Hc%Z.leb_le]%andb_true_iff Hq]. exists gp, c. destruct m; [done|]. split_and!; try done.
  intros q Hin%list_elem_of_In. rewrite forallb_forall in Hq. specialize (Hq q Hin). by apply bool_decide_eq_true in Hq.
Qed.

Lemma mark_passes rt : gc_ready rt -> gc_zero_ref_count_list rt = [] -> exists rt1 rt2, gc_decref rt = Some rt1 /\ gc_scan rt1 = Some rt2 /\ heap rt2 = heap rt /\ torn rt2 = torn rt /\ gc_zero_ref_count_list rt2 = [] /\
  (forall x, x ∈ gc_obj_list rt2 <-> in_use rt x) /\ (forall x, x ∈ tmp_obj_list rt2 <-> x ∈ gc_obj_list rt /\ ~ in_use rt x) /\
  NoDup (gc_obj_list rt2 ++ tmp_obj_list rt2) /\
  (forall x, rc rt2 !! x = (if decide (x ∈ tmp_obj_list rt2) then (fun h => mk_rc (ref_count h) true) else id) <$> rc rt !! x).
Proof.
  intros Hr Hz. pose proof Hr as [Hn _].
  assert (H1 : forall p, p ∈ gc_obj_list rt -> is_Some (heap rt !! p)) by (intros p Hp; by destruct (ready_obj rt p Hr Hp) as (gp & _ & -> & _)).
  assert (H2 : forall p q, p ∈ gc_obj_list rt -> q ∈ children (heap rt) p -> q ∈ gc_obj_list rt).
  { intros p q Hp. unfold children. destruct (ready_obj rt p Hr Hp) as (gp & _ & -> & _ & _ & _ & Hc). apply Hc. }
  assert (H3 : forall p, p ∈ gc_obj_list rt -> 0 <= external rt p).
  { intros p Hp. unfold external. destruct (ready_obj rt p Hr Hp) as (_ & c & _ & -> & _ & ? & _). cbn. lia. }
  assert (H4 : forall p, p ∈ gc_obj_list rt -> rc rt !! p = Some (mk_rc (external rt p + refs (heap rt) (gc_obj_list rt) p) false)).
  { intros p Hp. unfold external. destruct (ready_obj rt p Hr Hp) as (_ & c & _ & -> & _). cbn. do 2 f_equal. lia. }
  destruct (decref_spec (heap rt) (gc_obj_list rt) (external rt) (rc rt) (torn rt) Hn H1 H2 H3 rt) as (L & rt1 & E1 & Hd); [by split_and!|].
  destruct (scan_spec (heap rt) (gc_obj_list rt) (external rt) (rc rt) (torn rt) Hn H1 H2 H3 L rt1 Hd) as (rt2 & E2 & Hh & [Htn Hz2] & Hg & Ht & Hnd & Hrc & Hfr).
  exists rt1, rt2. split_and!; try done. intros x. destruct (decide (x ∈ gc_obj_list rt)) as [Hx|Hx].
  - rewrite Hrc, H4 by done. cbn. case_bool_decide as Hb; [by rewrite decide_True|]. by rewrite decide_False.
  - rewrite Hfr by done. rewrite decide_False by (rewrite Ht; tauto). by destruct (rc rt !! x).
Qed.

Module Gc_props.

(** C14. The two passes find the garbage exactly: whatever the references between
    the objects, gc_decref and gc_scan end without a failed assertion and
    leave in gc_obj_list the objects that something outside the heap leads to
    and in tmp_obj_list all the others; every reference count is back to what
    it was, and the marks tell the two apart. *)
Theorem gc_finds_garbage rt : gc_ready rt -> gc_zero_ref_count_list rt = [] ->
  exists rt1 rt2, gc_decref rt = Some rt1 /\ gc_scan rt1 = Some rt2 /\
    (forall p, p ∈ gc_obj_list rt2 <-> in_use rt p) /\
    (forall p, p ∈ tmp_obj_list rt2 <-> p ∈ gc_obj_list rt /\ ~ in_use rt p) /\
    (forall p h, rc rt !! p = Some h -> exists h', rc rt2 !! p = Some h' /\ ref_count h' = ref_count h /\
      (p ∈ gc_obj_list rt -> mark h' = bool_decide (p ∈ tmp_obj_list rt2))).
Proof.
  intros Hr Hz. destruct (mark_passes rt Hr Hz) as (rt1 & rt2 & E1 & E2 & _ & _ & _ & Hlv & Hgb & _ & Hrc).
  exists rt1, rt2. split_and!; try done. intros p h Eh. rewrite Hrc, Eh. destruct (decide (p ∈ tmp_obj_list rt2)) as [Hp|Hp].
  - eexists. split; [done|]. split; [done|]. by rewrite bool_decide_true.
  - exists h. split_and!; try done. intros Hpl. rewrite bool_decide_false by done.
    destruct (ready_obj rt p Hr Hpl) as (_ & c & _ & Ec & _). rewrite Eh in Ec. by injection Ec as ->.
Qed.

(** An object 1 held from outside, an object 2 it refers to, and a cycle of two
    objects 3 and 4, all of shape 5. *)
Definition obj_to (p : ptr) : gc_obj :=
  JS_GC_OBJ_TYPE_JS_OBJECT (mk_object 5 [(1, prop_value (JS_MKPTR JS_TAG_OBJECT p))] class_none 0).
Definition two_cycle : JSRuntime :=
  mk_rt (list_to_map [(1%positive, obj_to 2); (2%positive, JS_GC_OBJ_TYPE_JS_OBJECT (mk_object 5 [] class_none 0)); (3%positive, obj_to 4);
      (4%positive, obj_to 3); (5%positive, JS_GC_OBJ_TYPE_SHAPE None)])
    (list_to_map [(1%positive, mk_rc 1 false); (2%positive, mk_rc 1 false); (3%positive, mk_rc 1 false); (4%positive, mk_rc 1 false);
      (5%positive, mk_rc 4 false)])
    ∅ [1; 2; 3; 4; 5]%positive [] [] JS_GC_PHASE_NONE.

Lemma two_cycle_ready : gc_ready two_cycle.
Proof. split; [|by vm_compute]. apply (bool_decide_unpack _). by vm_compute. Qed.

Lemma gc_finds_garbage_witness : exists rt1 rt2, gc_decref two_cycle = Some rt1 /\ gc_scan rt1 = Some rt2 /\
  (3%positive ∈ tmp_obj_list rt2 <-> 3%positive ∈ gc_obj_list two_cycle /\ ~ in_use two_cycle 3).
Proof.
  destruct (gc_finds_garbage two_cycle two_cycle_ready eq_refl) as (rt1 & rt2 & H1 & H2 & _ & H3 & _). exists rt1, rt2.
  split; [exact H1|]. split; [exact H2|]. apply H3.
Defined.

(** On the example the lists are these. *)
Example two_cycle_lists : (rt ← gc_decref two_cycle; rt ← gc_scan rt; Some (gc_obj_list rt, tmp_obj_list rt)) = Some ([1; 5; 2], [3; 4])%positive.
Proof. by vm_compute. Qed.

End Gc_props.
