(* ===== verification/GcFree.v ===== *)
(** * The cycle collector: freeing the garbage

    gc_free_cycles of src/object/shapes_objects_gc.inc.c with what it calls:
    free_gc_object (free_object, free_function_bytecode, __async_func_free,
    js_free_module_def), the finalizers of the classes of that file, and the
    functions that give up one reference: JS_FreeValueRT, js_free_shape,
    free_var_ref, async_func_free and JS_FreeContext; and free_zero_refcount,
    which frees the objects whose count has dropped to zero outside of a
    collection.

    As a mark function is the list of the headers it visits, a free function is
    the list of the references it gives up, in order; [release] is what giving
    one up does.  A free function touches strings, atoms and buffers as well:
    they hold no reference to an object and are left out.  Freeing a block takes
    its header away, so a later access to it is a fault, [None].

    JS_FreeContext of the last context runs the shutdown callbacks of native
    modules, which are not modelled. *)
From Stdlib Require Import ZArith Lia.
From stdpp Require Import base numbers list option gmap.
From S2P Require Import Prelude Gc.

(** ** References given up *)

Definition free_ptr (to : ptr -> gref) (p : option ptr) : list gref := match p with Some p => [to p] | None => [] end.

(** JS_FreeValueRT: a value whose tag is not that of a collected object gives
    up no reference to one. *)
Definition free_value (v : JSValue) : list gref :=
  if JS_VALUE_HAS_REF_COUNT v then
    let tag := JS_VALUE_GET_TAG v in
    if (tag =? JS_TAG_OBJECT) || (tag =? JS_TAG_FUNCTION_BYTECODE) || (tag =? JS_TAG_MODULE)
    then free_ptr to_value (JS_VALUE_GET_PTR v) else []
  else [].
Definition free_values (l : list JSValue) : list gref := l ≫= free_value.

Definition free_property (pr : JSProperty) : list gref :=
  match pr with
  | prop_getset getter setter => free_ptr to_value getter ++ free_ptr to_value setter
  | prop_var_ref var_ref => [to_var_ref var_ref]
  | prop_init realm => [to_context realm]
  | prop_value value => free_value value
  end.

Definition js_array_finalizer (values : list JSValue) : list gref := free_values values.
Definition js_object_data_finalizer (object_data : JSValue) : list gref := free_value object_data.
Definition js_c_function_finalizer (realm : option ptr) : list gref := free_ptr to_context realm.
Definition js_bytecode_function_finalizer (home_object b : option ptr) (var_refs : option (list (option ptr))) : list gref :=
  free_ptr to_value home_object ++
  match b with
  | Some b => (match var_refs with Some l => l ≫= free_ptr to_var_ref | None => [] end) ++ free_value (JS_MKPTR JS_TAG_FUNCTION_BYTECODE b)
  | None => []
  end.
Definition js_bound_function_finalizer (func_obj this_val : JSValue) (argv : list JSValue) : list gref :=
  free_value func_obj ++ free_value this_val ++ free_values argv.
Definition js_for_in_iterator_finalizer (obj : JSValue) : list gref := free_value obj.

(** [rt->class_array[p->class_id].finalizer] *)
Definition finalizer (c : class_payload) : list gref :=
  match c with
  | class_none => []
  | class_array values => js_array_finalizer values
  | class_object_data v => js_object_data_finalizer v
  | class_c_function realm => js_c_function_finalizer realm
  | class_bytecode_function home b vr => js_bytecode_function_finalizer home b vr
  | class_bound_function f t argv => js_bound_function_finalizer f t argv
  | class_for_in_iterator obj => js_for_in_iterator_finalizer obj
  | class_other held => held
  end.

Definition free_object_refs (p : JSObject) : list gref :=
  (prop p ≫= fun pr => free_property pr.2) ++ [to_shape (shape p)] ++ finalizer (payload p).

Definition free_function_bytecode_refs (b : JSFunctionBytecode) : list gref :=
  free_values (cpool b) ++ free_ptr to_context (brealm b) ++
  (match ctor_presize b with Some cached_shape => free_ptr to_shape cached_shape | None => [] end) ++
  (match obj_presize b with Some sites => sites ≫= free_ptr to_shape | None => [] end).

Definition async_func_free_frame (s : JSAsyncFunctionState) : list gref :=
  (match stack s with Some l => free_values l | None => [] end) ++ free_value (cur_func s) ++ free_value (this_val s).
Definition async_func_free_refs (s : JSAsyncFunctionState) : list gref :=
  (if negb (is_completed s) then async_func_free_frame s else []) ++ free_value (aresolving0 s) ++ free_value (aresolving1 s).

Definition free_export (me : JSExportEntry) : list gref :=
  match me with export_local var_ref => free_ptr to_var_ref var_ref | export_indirect => [] end.
Definition js_free_module_def_refs (m : JSModuleDef) : list gref :=
  free_values (req_attributes m) ++ (export_entries m ≫= free_export) ++
  free_value (module_ns m) ++ free_value (func_obj m) ++ free_value (eval_exception m) ++ free_value (meta_obj m) ++
  free_value (promise m) ++ free_value (mresolving0 m) ++ free_value (mresolving1 m) ++ free_value (private_value m).

Definition JS_FreeContext_refs (ctx : JSContext) : list gref :=
  (loaded_modules ctx ≫= fun m => free_value (JS_MKPTR JS_TAG_MODULE m)) ++
  free_value (global_obj ctx) ++ free_value (global_var_obj ctx) ++
  free_value (throw_type_error ctx) ++ free_value (eval_obj ctx) ++
  free_value (array_proto_values ctx) ++ free_values (native_error_proto ctx) ++ free_values (class_proto ctx) ++
  free_value (iterator_ctor ctx) ++ free_value (async_iterator_proto ctx) ++ free_value (promise_ctor ctx) ++
  free_value (array_ctor ctx) ++ free_value (regexp_ctor ctx) ++ free_value (regexp_legacy_input ctx) ++
  free_value (regexp_legacy_subject ctx) ++ free_value (function_ctor ctx) ++ free_value (function_proto ctx) ++
  free_ptr to_shape (array_shape ctx) ++ free_ptr to_shape (arguments_shape ctx) ++ free_ptr to_shape (mapped_arguments_shape ctx) ++
  free_ptr to_shape (regexp_shape ctx) ++ free_ptr to_shape (regexp_result_shape ctx) ++ free_ptr to_shape (iterator_result_shape ctx) ++
  free_ptr to_shape (native_func_shape ctx).

(** The value of a detached variable, the function of an attached one. *)
Definition free_var_ref_refs (var_ref : JSVarRef) : list gref :=
  match var_ref with
  | var_ref_detached value => free_value value
  | var_ref_attached async_func => free_ptr to_async async_func
  end.

Definition free_refs (gp : gc_obj) : list gref :=
  match gp with
  | JS_GC_OBJ_TYPE_JS_OBJECT p => free_object_refs p
  | JS_GC_OBJ_TYPE_FUNCTION_BYTECODE b => free_function_bytecode_refs b
  | JS_GC_OBJ_TYPE_SHAPE proto => free_ptr to_value proto
  | JS_GC_OBJ_TYPE_VAR_REF var_ref => free_var_ref_refs var_ref
  | JS_GC_OBJ_TYPE_ASYNC_FUNCTION s => async_func_free_refs s
  | JS_GC_OBJ_TYPE_JS_CONTEXT ctx => JS_FreeContext_refs ctx
  | JS_GC_OBJ_TYPE_MODULE m => js_free_module_def_refs m
  end.

(** ** Giving up a reference *)

Definition set_phase (rt : JSRuntime) (ph : JSGCPhaseEnum) : JSRuntime :=
  mk_rt (heap rt) (rc rt) (torn rt) (gc_obj_list rt) (tmp_obj_list rt) (gc_zero_ref_count_list rt) ph.
Definition add_head_zero (rt : JSRuntime) (p : ptr) : JSRuntime :=
  set_lists rt (gc_obj_list rt) (tmp_obj_list rt) (p :: gc_zero_ref_count_list rt).
Definition js_free_rt (rt : JSRuntime) (p : ptr) : JSRuntime :=
  mk_rt (delete p (heap rt)) (delete p (rc rt)) (delete p (torn rt)) (gc_obj_list rt) (tmp_obj_list rt) (gc_zero_ref_count_list rt) (gc_phase rt).
Definition tear (rt : JSRuntime) (p : ptr) (t : torn_block) : JSRuntime :=
  mk_rt (delete p (heap rt)) (rc rt) (<[p := t]> (torn rt)) (gc_obj_list rt) (tmp_obj_list rt) (gc_zero_ref_count_list rt) (gc_phase rt).

(** What follows in the phase NONE: free_zero_refcount at the top, nothing
    inside of it, where the phase is another one. *)
Section Release.
Variable free_zero : JSRuntime -> option JSRuntime.

(** The three tags of collected objects. *)
Definition __JS_FreeValueRT (rt : JSRuntime) (p : ptr) : option JSRuntime :=
  match gc_phase rt with
  | JS_GC_PHASE_REMOVE_CYCLES => Some rt
  | ph =>
      h ← js_rc rt p;
      let rt := set_rc (add_head_zero (list_del rt p) p) p (mk_rc (ref_count h) true) in
      match ph with JS_GC_PHASE_NONE => free_zero rt | _ => Some rt end
  end.

Definition JS_FreeValueRT (rt : JSRuntime) (p : ptr) : option JSRuntime :=
  h ← js_rc rt p;
  let c := ref_count h - 1 in
  let rt := set_rc rt p (mk_rc c (mark h)) in
  if c <=? 0 then __JS_FreeValueRT rt p else Some rt.

Definition async_func_free (rt : JSRuntime) (p : ptr) : option JSRuntime :=
  h ← js_rc rt p;
  let c := ref_count h - 1 in
  let rt := set_rc rt p (mk_rc c (mark h)) in
  if c =? 0 then
    match gc_phase rt with
    | JS_GC_PHASE_REMOVE_CYCLES => Some rt
    | ph =>
        let rt := add_head_zero (list_del rt p) p in
        match ph with JS_GC_PHASE_NONE => free_zero rt | _ => Some rt end
    end
  else Some rt.

Definition release0 (rt : JSRuntime) (r : gref) : option JSRuntime :=
  match r with
  | to_value p => JS_FreeValueRT rt p
  | to_async p => async_func_free rt p
  | _ => None
  end.

(** The references of a shape, variable or context go, then its block. *)
Definition free_cell (release : JSRuntime -> gref -> option JSRuntime) (rt : JSRuntime) (p : ptr) (l : list gref) : option JSRuntime :=
  rt ← each release l rt;
  Some (js_free_rt (list_del rt p) p).

Definition js_free_shape0 (rt : JSRuntime) (sh : ptr) : option JSRuntime :=
  h ← js_rc rt sh;
  if negb (ref_count h =? 0) then None else
  match heap rt !! sh with
  | Some (JS_GC_OBJ_TYPE_SHAPE proto) => free_cell release0 rt sh (free_ptr to_value proto)
  | _ => None
  end.

Definition js_free_shape (rt : JSRuntime) (sh : ptr) : option JSRuntime :=
  h ← js_rc rt sh;
  let c := ref_count h - 1 in
  let rt := set_rc rt sh (mk_rc c (mark h)) in
  if c <=? 0 then js_free_shape0 rt sh else Some rt.

Definition free_var_ref (rt : JSRuntime) (p : ptr) : option JSRuntime :=
  h ← js_rc rt p;
  if negb (0 <? ref_count h) then None else
  let c := ref_count h - 1 in
  let rt := set_rc rt p (mk_rc c (mark h)) in
  if c =? 0 then
    match heap rt !! p with
    | Some (JS_GC_OBJ_TYPE_VAR_REF var_ref) => free_cell release0 rt p (free_var_ref_refs var_ref)
    | _ => None
    end
  else Some rt.

Definition release1 (rt : JSRuntime) (r : gref) : option JSRuntime :=
  match r with
  | to_shape p => js_free_shape rt p
  | to_var_ref p => free_var_ref rt p
  | r => release0 rt r
  end.

Definition JS_FreeContext (rt : JSRuntime) (p : ptr) : option JSRuntime :=
  h ← js_rc rt p;
  let c := ref_count h - 1 in
  let rt := set_rc rt p (mk_rc c (mark h)) in
  if 0 <? c then Some rt else
  if negb (c =? 0) then None else
  match heap rt !! p with
  | Some (JS_GC_OBJ_TYPE_JS_CONTEXT ctx) => free_cell release1 rt p (JS_FreeContext_refs ctx)
  | _ => None
  end.

Definition release (rt : JSRuntime) (r : gref) : option JSRuntime :=
  match r with
  | to_context p => JS_FreeContext rt p
  | r => release1 rt r
  end.

(** [if (m->link.next) list_del(&m->link)]: the module leaves the list of its
    context. *)
Definition without_module (m : ptr) (gp : gc_obj) : gc_obj :=
  match gp with
  | JS_GC_OBJ_TYPE_JS_CONTEXT (mk_context ms v1 v2 v3 v4 v5 l1 l2 v6 v7 v8 v9 v10 v11 v12 v13 v14 s1 s2 s3 s4 s5 s6 s7) =>
      JS_GC_OBJ_TYPE_JS_CONTEXT (mk_context (unlink m ms) v1 v2 v3 v4 v5 l1 l2 v6 v7 v8 v9 v10 v11 v12 v13 v14 s1 s2 s3 s4 s5 s6 s7)
  | gp => gp
  end.
Definition module_unlink (rt : JSRuntime) (m : ptr) : JSRuntime :=
  mk_rt (without_module m <$> heap rt) (rc rt) (torn rt) (gc_obj_list rt) (tmp_obj_list rt) (gc_zero_ref_count_list rt) (gc_phase rt).

Definition is_remove_cycles (rt : JSRuntime) : bool := match gc_phase rt with JS_GC_PHASE_REMOVE_CYCLES => true | _ => false end.

(** [rt->gc_phase == JS_GC_PHASE_REMOVE_CYCLES && js_rc(p)->ref_count != 0]:
    somebody may still give up a reference to the block. *)
Definition free_block (rt : JSRuntime) (p : ptr) : option JSRuntime :=
  let rt := list_del rt p in
  h ← js_rc rt p;
  if is_remove_cycles rt && negb (ref_count h =? 0) then Some (add_tail_zero (tear rt p torn_other) p) else Some (js_free_rt rt p).

Definition free_object (rt : JSRuntime) (p : ptr) (o : JSObject) : option JSRuntime :=
  rt ← each release (free_object_refs o) rt;
  let rt := list_del rt p in
  h ← js_rc rt p;
  if is_remove_cycles rt then
    if (ref_count h =? 0) && (weakref_count o =? 0) then Some (js_free_rt rt p)
    else Some (add_tail_zero (tear rt p (torn_object (weakref_count o))) p)
  else if weakref_count o =? 0 then Some (js_free_rt rt p)
  else Some (set_rc (tear rt p (torn_object (weakref_count o))) p (mk_rc (ref_count h) false)).

Definition free_function_bytecode (rt : JSRuntime) (p : ptr) (b : JSFunctionBytecode) : option JSRuntime :=
  rt ← each release (free_function_bytecode_refs b) rt; free_block rt p.
Definition __async_func_free (rt : JSRuntime) (p : ptr) (s : JSAsyncFunctionState) : option JSRuntime :=
  rt ← each release (async_func_free_refs s) rt; free_block rt p.
Definition js_free_module_def (rt : JSRuntime) (p : ptr) (m : JSModuleDef) : option JSRuntime :=
  rt ← each release (js_free_module_def_refs m) rt; free_block (module_unlink rt p) p.

Definition free_gc_object (rt : JSRuntime) (p : ptr) : option JSRuntime :=
  gp ← heap rt !! p;
  match gp with
  | JS_GC_OBJ_TYPE_JS_OBJECT o => free_object rt p o
  | JS_GC_OBJ_TYPE_FUNCTION_BYTECODE b => free_function_bytecode rt p b
  | JS_GC_OBJ_TYPE_ASYNC_FUNCTION s => __async_func_free rt p s
  | JS_GC_OBJ_TYPE_MODULE m => js_free_module_def rt p m
  | _ => None
  end.

End Release.

(** ** Objects whose count is zero *)

Fixpoint free_zero_refcount_loop (fuel : nat) (rt : JSRuntime) : option JSRuntime :=
  match gc_zero_ref_count_list rt with
  | [] => Some rt
  | p :: _ =>
      match fuel with
      | O => None
      | S fuel =>
          h ← js_rc rt p;
          if negb (ref_count h =? 0) then None else
          rt ← free_gc_object (fun _ => None) rt p;
          free_zero_refcount_loop fuel rt
      end
  end.

(** Every round frees an object. *)
Definition free_zero_refcount (rt : JSRuntime) : option JSRuntime :=
  rt ← free_zero_refcount_loop (size (heap rt)) (set_phase rt JS_GC_PHASE_DECREF);
  Some (set_phase rt JS_GC_PHASE_NONE).

(** JS_FreeValue of a reference held outside of the heap. *)
Definition JS_FreeValue (rt : JSRuntime) (p : ptr) : option JSRuntime := JS_FreeValueRT free_zero_refcount rt p.

(** ** Cycles *)

Definition gc_free_cycles_body (rt : JSRuntime) (p : ptr) : option JSRuntime :=
  gp ← heap rt !! p;
  match gp with
  | JS_GC_OBJ_TYPE_JS_OBJECT _ | JS_GC_OBJ_TYPE_FUNCTION_BYTECODE _ | JS_GC_OBJ_TYPE_ASYNC_FUNCTION _ | JS_GC_OBJ_TYPE_MODULE _ =>
      free_gc_object (fun _ => None) rt p
  | _ => Some (add_tail_zero (list_del rt p) p)
  end.

Fixpoint gc_free_cycles_loop (fuel : nat) (rt : JSRuntime) : option JSRuntime :=
  match tmp_obj_list rt with
  | [] => Some rt
  | p :: _ =>
      match fuel with
      | O => None
      | S fuel => rt ← gc_free_cycles_body rt p; gc_free_cycles_loop fuel rt
      end
  end.

(** The second loop: what is left in the list is the block of an object, a
    bytecode function, an asynchronous function or a module. *)
Definition gc_free_cycles_end (rt : JSRuntime) (p : ptr) : option JSRuntime :=
  t ← torn rt !! p;
  h ← js_rc rt p;
  match t with
  | torn_object weakref_count =>
      if negb (weakref_count =? 0) then Some (set_rc rt p (mk_rc (ref_count h) false)) else Some (js_free_rt rt p)
  | torn_other => Some (js_free_rt rt p)
  end.

Definition gc_free_cycles (rt : JSRuntime) : option JSRuntime :=
  rt ← gc_free_cycles_loop (length (tmp_obj_list rt)) (set_phase rt JS_GC_PHASE_REMOVE_CYCLES);
  let rt := set_phase rt JS_GC_PHASE_NONE in
  rt ← each gc_free_cycles_end (gc_zero_ref_count_list rt) rt;
  Some (set_lists rt (gc_obj_list rt) (tmp_obj_list rt) []).

(** A collection, the weak references apart. *)
Definition JS_RunGCInternal (rt : JSRuntime) : option JSRuntime :=
  rt ← gc_decref rt;
  rt ← gc_scan rt;
  gc_free_cycles rt.

(** ** Types of references *)

(** The object that a reference leads to has the type its function expects. *)
Definition points (r : gref) (gp : gc_obj) : bool :=
  match r, gp with
  | to_value _, (JS_GC_OBJ_TYPE_JS_OBJECT _ | JS_GC_OBJ_TYPE_FUNCTION_BYTECODE _ | JS_GC_OBJ_TYPE_MODULE _) => true
  | to_shape _, JS_GC_OBJ_TYPE_SHAPE _ => true
  | to_var_ref _, JS_GC_OBJ_TYPE_VAR_REF _ => true
  | to_async _, JS_GC_OBJ_TYPE_ASYNC_FUNCTION _ => true
  | to_context _, JS_GC_OBJ_TYPE_JS_CONTEXT _ => true
  | _, _ => false
  end.

(** Shapes, variables and contexts are freed with the last reference to them. *)
Definition cell (gp : gc_obj) : bool :=
  match gp with JS_GC_OBJ_TYPE_SHAPE _ | JS_GC_OBJ_TYPE_VAR_REF _ | JS_GC_OBJ_TYPE_JS_CONTEXT _ => true | _ => false end.
Definition leaf (r : gref) : bool := match r with to_value _ | to_async _ => true | _ => false end.
Definition no_context (r : gref) : bool := match r with to_context _ => false | _ => true end.

Lemma points_cell r gp : points r gp = true -> cell gp = negb (leaf r).
Proof. by destruct r, gp. Qed.

Section Bind.
Context {A B : Type} (f : A -> list B) (Q : B -> Prop).
Lemma Forall_bind_all l : (forall a, Forall Q (f a)) -> Forall Q (l ≫= f).
Proof. intros Hf. induction l; cbn; [constructor|]. by apply Forall_app. Qed.
End Bind.

Lemma free_value_leaf v : Forall (fun r => leaf r = true) (free_value v).
Proof. unfold free_value. destruct (JS_VALUE_GET_PTR v); cbv zeta; repeat case_match; repeat constructor. Qed.

Lemma free_ptr_Forall (Q : gref -> Prop) to p : (forall p, Q (to p)) -> Forall Q (free_ptr to p).
Proof. intros HQ. destruct p; repeat constructor. apply HQ. Qed.

(** A shape or variable holds references to objects only, a context to objects
    and shapes. *)
Lemma cell_refs gp : cell gp = true -> Forall (fun r => no_context r = true /\ (leaf r = true \/ exists ctx, gp = JS_GC_OBJ_TYPE_JS_CONTEXT ctx)) (free_refs gp).
Proof.
  assert (Hv : forall v, Forall (fun r => no_context r = true /\ (leaf r = true \/ exists ctx, gp = JS_GC_OBJ_TYPE_JS_CONTEXT ctx)) (free_value v)).
  { intros v. eapply Forall_impl; [apply free_value_leaf|]. intros r Hr. split; [by destruct r|by left]. }
  destruct gp; try done; intros _; cbn [free_refs].
  - apply free_ptr_Forall. intros ?. split; [done|by left].
  - destruct var_ref; cbn [free_var_ref_refs]; [apply Hv|]. apply free_ptr_Forall. intros ?. split; [done|by left].
  - unfold JS_FreeContext_refs. repeat (apply Forall_app; split); try apply Hv; try (apply Forall_bind_all; intros; apply Hv);
      apply free_ptr_Forall; intros ?; (split; [done|right; by eexists]).
Qed.

(** ** Marking and freeing agree *)

(** A deleted property holds no reference. *)
Definition props_ok (gp : gc_obj) : bool :=
  match gp with
  | JS_GC_OBJ_TYPE_JS_OBJECT p => forallb (fun pr => negb (pr.1 =? JS_ATOM_NULL) || (length (free_property pr.2) =? 0)%nat) (prop p)
  | _ => true
  end.

Lemma target_value v : target <$> free_value v = JS_MarkValue v.
Proof. unfold free_value, JS_MarkValue. destruct (JS_VALUE_GET_PTR v); cbv zeta; by repeat case_match. Qed.

Lemma target_ptr to p : (forall p, target (to p) = p) -> target <$> free_ptr to p = mark_ptr p.
Proof. intros Ht. destruct p; [|done]. cbn. by rewrite Ht. Qed.

Lemma target_bind {A} (f : A -> list gref) (g : A -> list ptr) l : (forall a, target <$> f a = g a) -> target <$> (l ≫= f) = l ≫= g.
Proof. intros Hf. induction l as [|a l IH]; [done|]. cbn. by rewrite fmap_app, IH, Hf. Qed.

Lemma target_values l : target <$> free_values l = JS_MarkValues l.
Proof. apply target_bind, target_value. Qed.

Create Rewrite HintDb refs.
#[export] Hint Rewrite @fmap_app target_value target_values : refs.

(** The references an object gives up when it is freed are those marking
    visits. *)
Lemma free_refs_mark gp : props_ok gp = true -> target <$> free_refs gp ≡ₚ mark_children gp.
Proof.
  intros Hok. destruct gp as [p|b|proto|vr|s|ctx|m]; cbn [free_refs mark_children].
  - unfold free_object_refs. rewrite !fmap_app. cbn [fmap list_fmap target app].
    assert (Hp : target <$> (prop p ≫= fun pr => free_property pr.2) = prop p ≫= mark_property).
    { cbn [props_ok] in Hok. induction (prop p) as [|[at_ pr] l IH]; [done|]. cbn [forallb] in Hok. apply andb_true_iff in Hok as [H1 H2].
      cbn. rewrite fmap_app, IH by done. f_equal. unfold mark_property. cbn [fst snd] in *. destruct (at_ =? JS_ATOM_NULL).
      - cbn in H1. apply Nat.eqb_eq, nil_length_inv in H1. by rewrite H1.
      - destruct pr; cbn [free_property]; autorewrite with refs; [done|by rewrite !target_ptr|done|done]. }
    rewrite Hp. assert (target <$> finalizer (payload p) = gc_mark (payload p)) as ->.
    { destruct (payload p) as [| | |r|h b vr| | |held]; cbn [finalizer gc_mark]; unfold js_array_finalizer, js_object_data_finalizer,
        js_c_function_finalizer, js_bytecode_function_finalizer, js_bound_function_finalizer, js_for_in_iterator_finalizer;
        autorewrite with refs; try done; [by rewrite target_ptr|]. rewrite target_ptr by done. unfold js_bytecode_function_mark. f_equal.
      destruct b; [|done]. rewrite fmap_app, target_value. f_equal. destruct vr; [|done]. apply target_bind. intros ?. by apply target_ptr. }
    symmetry. apply Permutation_middle.
  - unfold free_function_bytecode_refs. autorewrite with refs. rewrite target_ptr by done. do 2 f_equiv. f_equiv.
    + destruct (ctor_presize b); [by rewrite target_ptr|done].
    + destruct (obj_presize b); [|done]. rewrite (target_bind _ mark_ptr); [done|]. intros ?. by apply target_ptr.
  - by rewrite target_ptr.
  - destruct vr; cbn [free_var_ref_refs]; [by rewrite target_value|by rewrite target_ptr].
  - unfold async_func_free_refs. autorewrite with refs. f_equiv. destruct (is_completed s); [done|]. cbn [negb]. unfold async_func_free_frame.
    autorewrite with refs. rewrite Permutation_app_comm, <- app_assoc. do 2 f_equiv. destruct (stack s); [by rewrite target_values|done].
  - unfold JS_FreeContext_refs, JS_MarkContext. autorewrite with refs. rewrite !target_ptr by done.
    rewrite (target_bind _ (fun m => JS_MarkValue (JS_MKPTR JS_TAG_MODULE m))); [done|]. intros ?. apply target_value.
  - unfold js_free_module_def_refs, js_mark_module_def. autorewrite with refs. rewrite (target_bind _ mark_export); [done|].
    intros [vr|]; [by apply target_ptr|done].
Qed.

(** ** The invariant of freeing *)

Section Freeing.
Variables (livel garb : list ptr) (ext : ptr -> Z) (rt0 : JSRuntime).

Definition frefs (hp : gmap ptr gc_obj) (p : ptr) : list gref := match hp !! p with Some gp => free_refs gp | None => [] end.
Definition holds (hp : gmap ptr gc_obj) (A : list ptr) (x : ptr) : Z := nrefs (A ≫= fun p => target <$> frefs hp p) x.

(** The references to [x] that are still to be given up: those the objects [A]
    hold and [W]. *)
Definition owed (hp : gmap ptr gc_obj) (A : list ptr) (W : list gref) (x : ptr) : Z := holds hp A x + nrefs (target <$> W) x.

Lemma owed_nonneg hp A W x : 0 <= owed hp A W x.
Proof. unfold owed, holds. pose proof (nrefs_nonneg (A ≫= fun p => target <$> frefs hp p) x). pose proof (nrefs_nonneg (target <$> W) x). lia. Qed.

Lemma owed_cons hp A r W x : owed hp A (r :: W) x = (if decide (target r = x) then 1 else 0) + owed hp A W x.
Proof. unfold owed. cbn. rewrite nrefs_cons. lia. Qed.

Lemma unlink_perm (p : ptr) l : NoDup l -> p ∈ l -> l ≡ₚ p :: unlink p l.
Proof.
  intros Hn Hp. apply NoDup_Permutation; [done|constructor; [by intros [_ ?]%elem_unlink|by apply unlink_NoDup]|].
  intros x. rewrite elem_of_cons, elem_unlink. destruct (decide (x = p)) as [->|]; tauto.
Qed.

Lemma owed_move hp A W p x : NoDup A -> p ∈ A -> owed hp (unlink p A) (frefs hp p ++ W) x = owed hp A W x.
Proof.
  intros Hn Hp. unfold owed, holds. rewrite (nrefs_perm (A ≫= _) ((p :: unlink p A) ≫= fun p => target <$> frefs hp p) x) by (by rewrite <- unlink_perm).
  cbn. rewrite fmap_app, !nrefs_app. lia.
Qed.

Lemma owed_ext hp hp' A W x : (forall p, p ∈ A -> hp !! p = hp' !! p) -> owed hp A W x = owed hp' A W x.
Proof.
  intros Heq. unfold owed, holds. f_equal. f_equal. induction A as [|p A IH]; [done|]. cbn. f_equal.
  - unfold frefs. by rewrite Heq by left.
  - apply IH. intros q Hq. apply Heq. by right.
Qed.

Lemma owed_pos hp A W x : 0 < owed hp A W x -> (exists p r, p ∈ A /\ r ∈ frefs hp p /\ target r = x) \/ exists r, r ∈ W /\ target r = x.
Proof.
  unfold owed, holds. intros Hpos. destruct (decide (0 < nrefs (target <$> W) x)) as [Hw|Hw].
  - right. apply nrefs_pos, list_elem_of_fmap in Hw as (r & -> & Hr). by exists r.
  - left. assert (Ha : 0 < nrefs (A ≫= fun p => target <$> frefs hp p) x) by lia.
    apply nrefs_pos, list_elem_of_bind in Ha as (p & Hx & Hp). apply list_elem_of_fmap in Hx as (r & -> & Hr). by exists p, r.
Qed.

Lemma owed_zero_A hp A W x p r : owed hp A W x = 0 -> p ∈ A -> r ∈ frefs hp p -> target r <> x.
Proof.
  intros H0 Hp Hr <-. assert (0 < nrefs (A ≫= fun p => target <$> frefs hp p) (target r)).
  { apply nrefs_pos, list_elem_of_bind. exists p. split; [|done]. apply list_elem_of_fmap. by exists r. }
  unfold owed, holds in H0. pose proof (nrefs_nonneg (target <$> W) (target r)). lia.
Qed.

Lemma owed_zero_W hp A W x r : owed hp A W x = 0 -> r ∈ W -> target r <> x.
Proof.
  intros H0 Hr <-. assert (0 < nrefs (target <$> W) (target r)) by (apply nrefs_pos, list_elem_of_fmap; by exists r).
  unfold owed, holds in H0. pose proof (nrefs_nonneg (A ≫= fun p => target <$> frefs hp p) (target r)). lia.
Qed.

(** [A]: the objects not given up yet.  [P]: those being given up, innermost
    first.  [W]: the references they still have to give up. *)
Definition kept (P : list ptr) (rt : JSRuntime) (p : ptr) : Prop := p ∈ P \/ p ∈ garb /\ is_Some (torn rt !! p).

Definition ref_ok (A P : list ptr) (rt : JSRuntime) (r : gref) : Prop :=
  (target r ∈ A /\ exists gp, heap rt !! target r = Some gp /\ points r gp = true) \/ (leaf r = true /\ kept P rt (target r)).

Record finv (T A : list ptr) (W : list gref) (P : list ptr) (rt : JSRuntime) : Prop := {
  fi_phase : gc_phase rt = JS_GC_PHASE_REMOVE_CYCLES;
  fi_NoDup : NoDup A /\ NoDup P;
  fi_live : forall x, x ∈ livel -> x ∈ A /\ heap rt !! x = heap rt0 !! x /\ torn rt !! x = torn rt0 !! x;
  fi_A : forall x, x ∈ A -> (x ∈ livel \/ x ∈ garb) /\ is_Some (heap rt !! x);
  fi_P : forall x, x ∈ P -> x ∈ garb /\ (x ∉ A) /\ is_Some (heap rt !! x) /\ torn rt !! x = None;
  fi_dom : forall x, x ∈ garb -> is_Some (heap rt !! x) -> x ∈ A \/ x ∈ P;
  fi_torn : forall x, x ∈ garb -> is_Some (torn rt !! x) -> (x ∉ A) /\ x ∈ gc_zero_ref_count_list rt;
  fi_refs : forall p r, p ∈ A -> r ∈ frefs (heap rt) p -> ref_ok A P rt r;
  fi_work : forall r, r ∈ W -> ref_ok A P rt r;
  fi_count : forall x, x ∈ A -> exists m, rc rt !! x = Some (mk_rc (ext x + owed (heap rt) A W x) m) /\ (x ∈ livel -> m = false);
  fi_kept : forall x, kept P rt x -> exists h, rc rt !! x = Some h /\ owed (heap rt) A W x <= ref_count h;
  fi_gone : forall x, x ∈ garb -> is_Some (rc rt !! x) -> x ∈ A \/ kept P rt x;
  fi_list : gc_obj_list rt = gc_obj_list rt0 /\ NoDup (tmp_obj_list rt) /\ NoDup (gc_zero_ref_count_list rt) /\ tmp_obj_list rt ⊆ T;
  fi_tmp : forall x, x ∈ tmp_obj_list rt -> x ∈ garb /\ (x ∈ A \/ x ∈ P);
  fi_zero : forall x, x ∈ gc_zero_ref_count_list rt -> x ∈ garb /\
    (is_Some (torn rt !! x) \/ x ∈ P \/ x ∈ A /\ exists gp, heap rt !! x = Some gp /\ cell gp = true);
  fi_pend : forall x, x ∈ A -> x ∈ garb -> x ∈ tmp_obj_list rt \/ x ∈ gc_zero_ref_count_list rt;
  fi_frame : forall x, x ∉ livel -> x ∉ garb -> rc rt !! x = rc rt0 !! x /\ torn rt !! x = torn rt0 !! x;
  fi_weak : forall x, x ∈ garb -> (forall o, heap rt !! x = Some (JS_GC_OBJ_TYPE_JS_OBJECT o) -> heap rt0 !! x = Some (JS_GC_OBJ_TYPE_JS_OBJECT o)) /\
    (forall w, torn rt !! x = Some (torn_object w) -> exists o, heap rt0 !! x = Some (JS_GC_OBJ_TYPE_JS_OBJECT o) /\ weakref_count o = w)
}.

(** Cells not given up yet have references. *)
Definition cells_counted (A : list ptr) (W : list gref) (rt : JSRuntime) : Prop :=
  forall x gp, x ∈ A -> heap rt !! x = Some gp -> cell gp = true -> 0 < ext x + owed (heap rt) A W x.

Hypothesis disj : forall x, x ∈ livel -> x ∉ garb.
Hypothesis ext_garb : forall x, x ∈ garb -> ext x = 0.
Hypothesis ext_live : forall x, x ∈ livel -> 0 <= ext x.
Hypothesis live_refs : forall p r, p ∈ livel -> r ∈ frefs (heap rt0) p -> target r ∈ livel.
Hypothesis live_count : forall x, x ∈ livel -> 0 < ext x + holds (heap rt0) livel x.
Hypothesis live_NoDup : NoDup livel.
Hypothesis live_list : forall x, x ∈ gc_obj_list rt0 -> x ∈ livel.

Lemma ref_header T A r W P rt : finv T A (r :: W) P rt ->
  exists h, rc rt !! target r = Some h /\ owed (heap rt) A (r :: W) (target r) <= ref_count h + (if decide (target r ∈ A) then - ext (target r) else 0) /\
    (target r ∈ A -> ref_count h = ext (target r) + owed (heap rt) A (r :: W) (target r)).
Proof.
  intros Hi. destruct (decide (target r ∈ A)) as [Ha|Ha].
  - destruct (fi_count _ _ _ _ _ Hi _ Ha) as (m & Em & _). eexists. split; [done|]. cbn. split; [lia|done].
  - destruct (fi_work _ _ _ _ _ Hi r) as [[? _]|[_ Hk]]; [left|done|]. destruct (fi_kept _ _ _ _ _ Hi _ Hk) as (h & Eh & Hle).
    exists h. split; [done|]. split; [lia|done].
Qed.

(** One reference given up: its count is decremented. *)
Lemma finv_dec T A r W P rt h : finv T A (r :: W) P rt -> rc rt !! target r = Some h ->
  finv T A W P (set_rc rt (target r) (mk_rc (ref_count h - 1) (mark h))).
Proof.
  intros Hi Eh. destruct (ref_header _ _ _ _ _ _ Hi) as (h' & Eh' & Hle & Heq). rewrite Eh in Eh'. injection Eh' as <-.
  assert (Hin : target r ∈ livel \/ target r ∈ garb).
  { destruct (fi_work _ _ _ _ _ Hi r) as [[Ha _]|[_ [Hp|[Hg _]]]]; [left|by apply (fi_A _ _ _ _ _ Hi)|right; by apply (fi_P _ _ _ _ _ Hi)|by right]. }
  rewrite owed_cons, decide_True in Hle, Heq by done.
  assert (Hne : forall x, x <> target r -> owed (heap rt) A (r :: W) x = owed (heap rt) A W x).
  { intros x Hx. rewrite owed_cons, decide_False; [lia|]. congruence. }
  destruct Hi as [H1 H2 H3 H4 H5 H6 H7 H8 H9 H10 H11 H12 H13 H14 H15 H16 H17 H18].
  split; cbn [set_rc heap rc torn gc_obj_list tmp_obj_list gc_zero_ref_count_list gc_phase]; try done.
  - intros r' Hr'. apply H9. by right.
  - intros x Hx. destruct (decide (x = target r)) as [->|Hxr].
    + rewrite lookup_insert_eq. exists (mark h). specialize (Heq Hx). split; [do 2 f_equal; lia|]. intros Hl.
      destruct (H10 _ Hx) as (m & Em & Hm). rewrite Eh in Em. injection Em as ->. by apply Hm.
    + rewrite lookup_insert_ne, <- Hne by done. by apply H10.
  - intros x Hx. destruct (decide (x = target r)) as [->|Hxr].
    + rewrite lookup_insert_eq. eexists. split; [done|]. cbn. destruct (H11 _ Hx) as (h2 & E2 & Hle2). rewrite Eh in E2. injection E2 as <-.
      rewrite owed_cons, decide_True in Hle2 by done. lia.
    + rewrite lookup_insert_ne, <- Hne by done. by apply H11.
  - intros x Hx [h2 Hh2]. destruct (decide (x = target r)) as [->|Hxr]; [apply H12; [done|by rewrite Eh]|].
    rewrite lookup_insert_ne in Hh2 by done. apply H12; [done|by rewrite Hh2].
  - intros x Hl Hg. rewrite lookup_insert_ne; [by apply H17|]. intros <-. tauto.
Qed.

(** An object starts to be given up: a cell when no reference to it is left,
    another object at any time. *)
Lemma finv_enter T A W P rt p gp : finv T A W P rt -> p ∈ A -> p ∈ garb -> heap rt !! p = Some gp ->
  (cell gp = true -> owed (heap rt) A W p = 0) ->
  finv T (unlink p A) (free_refs gp ++ W) (p :: P) rt.
Proof.
  intros Hi Hp Hg Egp Hcell. destruct Hi as [H1 [HnA HnP] H3 H4 H5 H6 H7 H8 H9 H10 H11 H12 H13 H14 H15 H16 H17 H18].
  assert (Efr : frefs (heap rt) p = free_refs gp) by (unfold frefs; by rewrite Egp).
  assert (HpP : p ∉ P) by (intros Hin; by apply H5 in Hin as (_ & ? & _)).
  assert (Htn : torn rt !! p = None).
  { destruct (torn rt !! p) eqn:E; [|done]. destruct (H7 p Hg) as [? _]; [by rewrite E|done]. }
  assert (How : forall x, owed (heap rt) (unlink p A) (free_refs gp ++ W) x = owed (heap rt) A W x).
  { intros x. rewrite <- Efr. by apply owed_move. }
  assert (Hok : forall r, ref_ok A P rt r -> (cell gp = true -> target r <> p) -> ref_ok (unlink p A) (p :: P) rt r).
  { intros r [(Ha & gp' & E' & Hpt)|[Hl Hk]] Hne.
    - destruct (decide (target r = p)) as [Heq|]; [|left; split; [by apply elem_unlink|by exists gp']].
      right. rewrite Heq in *. rewrite Egp in E'. injection E' as <-. rewrite (points_cell r gp Hpt) in Hne.
      destruct (leaf r); [split; [done|left; left]|]. by destruct Hne.
    - right. split; [done|]. destruct Hk as [?|?]; [left; by right|by right]. }
  assert (Hkp : forall x, kept (p :: P) rt x <-> kept P rt x \/ x = p) by (intros x; unfold kept; rewrite elem_of_cons; tauto).
  split; try done.
  - split; [by apply unlink_NoDup|by constructor].
  - intros x Hx. destruct (H3 x Hx) as [? ?]. split; [|done]. apply elem_unlink. split; [done|]. intros ->. by apply (disj p).
  - intros x [Hx _]%elem_unlink. by apply H4.
  - intros x. rewrite elem_of_cons, elem_unlink. intros [->|Hx]; [split_and!; [done|tauto|by rewrite Egp|done]|].
    destruct (H5 x Hx) as (? & ? & ? & ?). split_and!; tauto.
  - intros x Hx Hs. rewrite elem_unlink, elem_of_cons. destruct (decide (x = p)); [tauto|]. destruct (H6 x Hx Hs); tauto.
  - intros x Hx Ht. destruct (H7 x Hx Ht) as [? ?]. rewrite elem_unlink. tauto.
  - intros q r [Hq _]%elem_unlink Hr. apply Hok; [by apply (H8 q)|]. intros Hc. by eapply owed_zero_A; [apply Hcell| |].
  - intros r [Hr|Hr]%elem_of_app; (apply Hok; [|intros Hc]).
    + apply (H8 p); [done|by rewrite Efr].
    + eapply owed_zero_A; [by apply Hcell|exact Hp|by rewrite Efr].
    + by apply H9.
    + by eapply owed_zero_W; [apply Hcell|].
  - intros x [Hx _]%elem_unlink. rewrite How. by apply H10.
  - intros x [Hx| ->]%Hkp; rewrite How; [by apply H11|]. destruct (H10 p Hp) as (m & Em & _). eexists. split; [done|]. cbn.
    rewrite ext_garb by done. lia.
  - intros x Hx Hr. rewrite elem_unlink, Hkp. destruct (decide (x = p)); [tauto|]. destruct (H12 x Hx Hr); tauto.
  - intros x Hx. destruct (H14 x Hx) as [? ?]. rewrite elem_unlink, elem_of_cons. destruct (decide (x = p)); tauto.
  - intros x Hx. destruct (H15 x Hx) as [? Hz]. split; [done|]. rewrite elem_of_cons, elem_unlink. destruct (decide (x = p)); tauto.
  - intros x [Hx _]%elem_unlink. by apply H16.
Qed.

(** The block of an object that nothing refers to any more is freed. *)
Lemma finv_free T A W P rt p : finv T A W (p :: P) rt -> owed (heap rt) A W p = 0 -> finv T A W P (js_free_rt (list_del rt p) p).
Proof.
  intros [H1 [HnA HnP] H3 H4 H5 H6 H7 H8 H9 H10 H11 H12 [H13a [H13b [H13c H13d]]] H14 H15 H16 H17 H18] H0.
  destruct (H5 p ltac:(left)) as (Hg & HpA & _ & Htn). apply NoDup_cons in HnP as [HpP HnP].
  assert (Hpl : p ∉ livel) by (intros Hl; by apply (disj p)).
  assert (Hh : forall x, x <> p -> delete p (heap rt) !! x = heap rt !! x) by (intros x Hx; by rewrite lookup_delete_ne).
  assert (HhA : forall x, x ∈ A -> delete p (heap rt) !! x = heap rt !! x) by (intros x Hx; apply Hh; by intros ->).
  assert (How : forall x, owed (delete p (heap rt)) A W x = owed (heap rt) A W x) by (intros x; by apply owed_ext).
  assert (Hfr : forall q, q ∈ A -> frefs (delete p (heap rt)) q = frefs (heap rt) q) by (intros q Hq; unfold frefs; by rewrite HhA).
  pose (rt' := js_free_rt (list_del rt p) p).
  assert (Hkp : forall x, kept P rt' x -> kept (p :: P) rt x /\ x <> p).
  { intros x [Hx|[Hx Ht]]; unfold kept; cbn [rt' js_free_rt list_del set_lists torn] in *; (destruct (decide (x = p)) as [->|Hxp]).
    - done.
    - split; [left; by right|done].
    - rewrite lookup_delete_eq in Ht. by destruct Ht.
    - rewrite lookup_delete_ne in Ht by done. split; [by right|done]. }
  assert (Hkp' : forall x, kept (p :: P) rt x -> x <> p -> kept P rt' x).
  { intros x Hk Hx. unfold kept in *. cbn [rt' js_free_rt list_del set_lists torn]. rewrite lookup_delete_ne by done.
    rewrite elem_of_cons in Hk. tauto. }
  assert (Hok : forall r, ref_ok A (p :: P) rt r -> target r <> p -> ref_ok A P rt' r).
  { intros r [(Ha & gp' & E' & Hpt)|[Hl Hk]] Hne; [left|right; split; [done|by apply Hkp']].
    split; [done|]. exists gp'. split; [|done]. unfold rt'. cbn [js_free_rt list_del set_lists heap]. by rewrite HhA. }
  split; cbn [js_free_rt list_del set_lists heap rc torn gc_obj_list tmp_obj_list gc_zero_ref_count_list gc_phase]; try done.
  - intros x Hx. destruct (H3 x Hx) as (? & ? & ?). assert (x <> p) by (by intros ->). rewrite HhA, ?lookup_delete_ne, ?lookup_insert_ne by done. done.
  - intros x Hx. rewrite HhA by done. by apply H4.
  - intros x Hx. destruct (H5 x ltac:(by right)) as (? & ? & ? & ?). assert (x <> p) by (by intros ->). rewrite Hh, lookup_delete_ne by done. by split_and!.
  - intros x Hx [gp Ex]. destruct (decide (x = p)) as [->|Hxp]; [by rewrite lookup_delete_eq in Ex|]. rewrite Hh in Ex by done.
    destruct (H6 x Hx) as [?|Hin]; [by rewrite Ex|by left|]. apply elem_of_cons in Hin as [?|?]; [done|by right].
  - intros x Hx Ht. destruct (decide (x = p)) as [->|Hxp]; [rewrite lookup_delete_eq in Ht; by destruct Ht|]. rewrite lookup_delete_ne in Ht by done.
    destruct (H7 x Hx Ht). split; [done|by apply elem_unlink].
  - intros q r Hq. rewrite Hfr by done. intros Hr. apply Hok; [by apply (H8 q)|]. by eapply owed_zero_A.
  - intros r Hr. apply Hok; [by apply H9|]. by eapply owed_zero_W.
  - intros x Hx. rewrite How, lookup_delete_ne; [by apply H10|]. by intros ->.
  - intros x Hx. apply Hkp in Hx as [Hx Hxp]. rewrite How, lookup_delete_ne by done. by apply H11.
  - intros x Hx Hr. destruct (decide (x = p)) as [->|Hxp]; [rewrite lookup_delete_eq in Hr; by destruct Hr|]. rewrite lookup_delete_ne in Hr by done.
    destruct (H12 x Hx Hr); [by left|right; by apply Hkp'].
  - split_and!; [|by apply unlink_NoDup|by apply unlink_NoDup|].
    + rewrite <- H13a. apply unlink_absent. rewrite H13a. intros Hin. by apply Hpl, live_list.
    + intros x [Hx _]%elem_unlink. by apply H13d.
  - intros x [Hx Hxp]%elem_unlink. destruct (H14 x Hx) as [? Hor]. rewrite elem_of_cons in Hor. tauto.
  - intros x [Hx Hxp]%elem_unlink. destruct (H15 x Hx) as [? Hz]. split; [done|]. rewrite lookup_delete_ne by done. rewrite Hh by done.
    rewrite elem_of_cons in Hz. tauto.
  - intros x Hx Hxg. rewrite !elem_unlink. assert (x <> p) by (by intros ->). destruct (H16 x Hx Hxg); tauto.
  - intros x Hl Hg'. assert (x <> p) by (by intros ->). rewrite !lookup_delete_ne by done. by apply H17.
  - intros x Hx. destruct (decide (x = p)) as [->|Hxp]; [by rewrite !lookup_delete_eq|]. rewrite !lookup_delete_ne by done. by apply H18.
Qed.

(** The block of another object stays, in the list of blocks to free. *)
Lemma finv_tear T A W P rt p t : finv T A W (p :: P) rt ->
  (forall w, t = torn_object w -> exists o, heap rt !! p = Some (JS_GC_OBJ_TYPE_JS_OBJECT o) /\ weakref_count o = w) ->
  finv T A W P (add_tail_zero (tear (list_del rt p) p t) p).
Proof.
  intros [H1 [HnA HnP] H3 H4 H5 H6 H7 H8 H9 H10 H11 H12 [H13a [H13b [H13c H13d]]] H14 H15 H16 H17 H18] Hw.
  destruct (H5 p ltac:(left)) as (Hg & HpA & _ & Htn). apply NoDup_cons in HnP as [HpP HnP].
  assert (Hpl : p ∉ livel) by (intros Hl; by apply (disj p)).
  assert (Hh : forall x, x <> p -> delete p (heap rt) !! x = heap rt !! x) by (intros x Hx; by rewrite lookup_delete_ne).
  assert (HhA : forall x, x ∈ A -> delete p (heap rt) !! x = heap rt !! x) by (intros x Hx; apply Hh; by intros ->).
  assert (How : forall x, owed (delete p (heap rt)) A W x = owed (heap rt) A W x) by (intros x; by apply owed_ext).
  assert (Hfr : forall q, q ∈ A -> frefs (delete p (heap rt)) q = frefs (heap rt) q) by (intros q Hq; unfold frefs; by rewrite HhA).
  pose (rt' := add_tail_zero (tear (list_del rt p) p t) p).
  assert (Htr : forall x, is_Some (torn rt' !! x) <-> x = p \/ is_Some (torn rt !! x)).
  { intros x. cbn [rt' add_tail_zero tear list_del set_lists torn]. destruct (decide (x = p)) as [->|Hxp].
    - rewrite lookup_insert_eq. split; [by left|done].
    - rewrite lookup_insert_ne by done. tauto. }
  assert (Hkp : forall x, kept P rt' x <-> kept (p :: P) rt x).
  { intros x. unfold kept. rewrite Htr, elem_of_cons. destruct (decide (x = p)) as [->|Hxp]; tauto. }
  assert (Hok : forall r, ref_ok A (p :: P) rt r -> ref_ok A P rt' r).
  { intros r [(Ha & gp' & E' & Hpt)|[Hl Hk]]; [left|right; split; [done|by apply Hkp]].
    split; [done|]. exists gp'. split; [|done]. unfold rt'. cbn [add_tail_zero tear list_del set_lists heap]. by rewrite HhA. }
  assert (Hz : forall x, x ∈ unlink p (gc_zero_ref_count_list rt) ++ [p] <-> x ∈ gc_zero_ref_count_list rt \/ x = p).
  { intros x. rewrite elem_of_app, list_elem_of_singleton, elem_unlink. destruct (decide (x = p)); tauto. }
  split; cbn [add_tail_zero tear list_del set_lists heap rc torn gc_obj_list tmp_obj_list gc_zero_ref_count_list gc_phase]; try done.
  - intros x Hx. destruct (H3 x Hx) as (? & ? & ?). assert (x <> p) by (by intros ->). rewrite HhA, ?lookup_delete_ne, ?lookup_insert_ne by done. done.
  - intros x Hx. rewrite HhA by done. by apply H4.
  - intros x Hx. destruct (H5 x ltac:(by right)) as (? & ? & ? & ?). assert (x <> p) by (by intros ->).
    rewrite Hh, lookup_insert_ne by done. by split_and!.
  - intros x Hx [gp Ex]. destruct (decide (x = p)) as [->|Hxp]; [by rewrite lookup_delete_eq in Ex|]. rewrite Hh in Ex by done.
    destruct (H6 x Hx) as [?|Hin]; [by rewrite Ex|by left|]. apply elem_of_cons in Hin as [?|?]; [done|by right].
  - intros x Hx Ht. rewrite Hz. apply Htr in Ht as [->|Ht]; [tauto|]. destruct (H7 x Hx Ht). tauto.
  - intros q r Hq. rewrite Hfr by done. intros Hr. apply Hok. by apply (H8 q).
  - intros r Hr. apply Hok. by apply H9.
  - intros x Hx. rewrite How. by apply H10.
  - intros x Hx. apply Hkp in Hx. rewrite How. by apply H11.
  - intros x Hx Hr. destruct (H12 x Hx Hr); [by left|right; by apply Hkp].
  - split_and!; [|by apply unlink_NoDup| |].
    + rewrite <- H13a. apply unlink_absent. rewrite H13a. intros Hin. by apply Hpl, live_list.
    + apply NoDup_app. split_and!; [by apply unlink_NoDup| |apply NoDup_singleton]. intros x [_ ?]%elem_unlink ->%list_elem_of_singleton. done.
    + intros x [Hx _]%elem_unlink. by apply H13d.
  - intros x [Hx Hxp]%elem_unlink. destruct (H14 x Hx) as [? Hor]. rewrite elem_of_cons in Hor. tauto.
  - intros x [Hx| ->]%Hz.
    + destruct (H15 x Hx) as [? Hor]. split; [done|]. destruct (decide (x = p)) as [->|Hxp]; [left; by rewrite lookup_insert_eq|].
      rewrite lookup_insert_ne, Hh by done. rewrite elem_of_cons in Hor. tauto.
    + split; [done|]. left. by rewrite lookup_insert_eq.
  - intros x Hx Hxg. rewrite Hz, elem_unlink. assert (x <> p) by (by intros ->). destruct (H16 x Hx Hxg); tauto.
  - intros x Hl Hg'. assert (x <> p) by (by intros ->). rewrite lookup_insert_ne by done. by apply H17.
  - intros x Hx. destruct (decide (x = p)) as [->|Hxp].
    + rewrite lookup_delete_eq, lookup_insert_eq. split; [done|]. intros w [= Ew]. destruct (Hw w Ew) as (o & Eo & <-). exists o. split; [|done].
      by apply H18.
    + rewrite lookup_delete_ne, lookup_insert_ne by done. by apply H18.
Qed.

(** A cell at the front of the list of garbage waits for its last reference. *)
Lemma finv_wait T A rt p gp : finv T A [] [] rt -> p ∈ tmp_obj_list rt -> heap rt !! p = Some gp -> cell gp = true ->
  finv T A [] [] (add_tail_zero (list_del rt p) p).
Proof.
  intros [H1 H2 H3 H4 H5 H6 H7 H8 H9 H10 H11 H12 [H13a [H13b [H13c H13d]]] H14 H15 H16 H17 H18] Hp Egp Hc.
  destruct (H14 p Hp) as [Hg [HpA|?%not_elem_of_nil]]; [|done].
  assert (Hpl : p ∉ livel) by (intros Hl; by apply (disj p)).
  assert (Hz : forall x, x ∈ unlink p (gc_zero_ref_count_list rt) ++ [p] <-> x ∈ gc_zero_ref_count_list rt \/ x = p).
  { intros x. rewrite elem_of_app, list_elem_of_singleton, elem_unlink. destruct (decide (x = p)); tauto. }
  split; cbn [add_tail_zero list_del set_lists heap rc torn gc_obj_list tmp_obj_list gc_zero_ref_count_list gc_phase]; try done.
  - intros x Hx Ht. rewrite Hz. destruct (H7 x Hx Ht). tauto.
  - split_and!; [|by apply unlink_NoDup| |].
    + rewrite <- H13a. apply unlink_absent. rewrite H13a. intros Hin. by apply Hpl, live_list.
    + apply NoDup_app. split_and!; [by apply unlink_NoDup| |apply NoDup_singleton]. intros x [_ ?]%elem_unlink ->%list_elem_of_singleton. done.
    + intros x [Hx _]%elem_unlink. by apply H13d.
  - intros x [Hx _]%elem_unlink. by apply H14.
  - intros x [Hx| ->]%Hz; [by apply H15|]. split; [done|]. right. right. split; [done|]. by exists gp.
  - intros x Hx Hxg. rewrite Hz, elem_unlink. destruct (decide (x = p)); [tauto|]. destruct (H16 x Hx Hxg); tauto.
Qed.

(** *** A module leaves its context *)

Lemma without_module_points r m gp : points r (without_module m gp) = points r gp /\ cell (without_module m gp) = cell gp.
Proof. destruct gp as [| | | | |ctx|]; try destruct ctx; split; reflexivity. Qed.

Lemma modules_refs ms : (ms ≫= fun m => free_value (JS_MKPTR JS_TAG_MODULE m)) = to_value <$> ms.
Proof. induction ms as [|m ms IH]; [done|]. cbn. by f_equal. Qed.

Lemma without_module_refs m gp : (forall r, r ∈ free_refs (without_module m gp) -> r ∈ free_refs gp) /\
  (forall x, nrefs (target <$> free_refs (without_module m gp)) x <= nrefs (target <$> free_refs gp) x) /\
  (forall x, x <> m -> nrefs (target <$> free_refs (without_module m gp)) x = nrefs (target <$> free_refs gp) x) /\
  ((forall r, r ∈ free_refs gp -> target r <> m) -> without_module m gp = gp).
Proof.
  destruct gp as [| | | | |ctx|]; try (by split_and!). destruct ctx as [ms v1 v2 v3 v4 v5 l1 l2 v6 v7 v8 v9 v10 v11 v12 v13 v14 s1 s2 s3 s4 s5 s6 s7]. cbn [without_module free_refs].
  unfold JS_FreeContext_refs. cbn [loaded_modules global_obj global_var_obj throw_type_error eval_obj array_proto_values native_error_proto
    class_proto iterator_ctor async_iterator_proto promise_ctor array_ctor regexp_ctor regexp_legacy_input regexp_legacy_subject function_ctor
    function_proto array_shape arguments_shape mapped_arguments_shape regexp_shape regexp_result_shape iterator_result_shape native_func_shape].
  rewrite !modules_refs. match goal with |- context [(to_value <$> ms) ++ ?l] => generalize l end. intros l.
  assert (Ht : forall ks : list ptr, target <$> (to_value <$> ks) = ks) by (intros ks; induction ks as [|k ks IH]; cbn; [done|by f_equal]).
  assert (Hn : forall x, nrefs (unlink m ms) x = if decide (x = m) then 0 else nrefs ms x).
  { intros x. induction ms as [|k ms IH]; [by destruct (decide (x = m))|]. unfold unlink in *. rewrite filter_cons.
    destruct (decide (k <> m)) as [Hk|Hk]; rewrite ?nrefs_cons, IH; destruct (decide (x = m)) as [->|Hx].
    - rewrite decide_False by done. lia.
    - done.
    - done.
    - rewrite decide_False; [lia|]. intros ->. by destruct Hk. }
  split_and!.
  - intros r. rewrite !elem_of_app. intros [Hr|?]; [left|by right]. apply list_elem_of_fmap in Hr as (k & -> & [Hk _]%elem_unlink).
    apply list_elem_of_fmap. by exists k.
  - intros x. rewrite !fmap_app, !nrefs_app, !Ht, Hn. pose proof (nrefs_nonneg ms x). destruct (decide _); lia.
  - intros x Hx. by rewrite !fmap_app, !nrefs_app, !Ht, Hn, decide_False.
  - intros Hne. rewrite unlink_absent; [done|]. intros Hm. apply (Hne (to_value m)); [|done]. apply elem_of_app. left.
    apply list_elem_of_fmap. by exists m.
Qed.

Lemma frefs_unlink m hp p : frefs (without_module m <$> hp) p = match hp !! p with Some gp => free_refs (without_module m gp) | None => [] end.
Proof. unfold frefs. rewrite lookup_fmap. by destruct (hp !! p). Qed.

Lemma owed_unlink m hp A W x : owed (without_module m <$> hp) A W x <= owed hp A W x /\
  (x <> m -> owed (without_module m <$> hp) A W x = owed hp A W x).
Proof.
  assert (Hp : forall p, nrefs (target <$> frefs (without_module m <$> hp) p) x <= nrefs (target <$> frefs hp p) x /\
    (x <> m -> nrefs (target <$> frefs (without_module m <$> hp) p) x = nrefs (target <$> frefs hp p) x)).
  { intros p. rewrite frefs_unlink. unfold frefs. destruct (hp !! p) as [gp|]; [|done]. destruct (without_module_refs m gp) as (_ & Hle & Heq & _).
    split; [apply Hle|apply Heq]. }
  unfold owed, holds. induction A as [|p A IH]; [cbn; split; [lia|done]|]. cbn. rewrite !nrefs_app. destruct (Hp p) as [Hp1 Hp2], IH as [IH1 IH2].
  split; [lia|]. intros Hx. specialize (Hp2 Hx). specialize (IH2 Hx). lia.
Qed.

Lemma finv_unlink T A W P rt p : finv T A W (p :: P) rt -> finv T A W (p :: P) (module_unlink rt p).
Proof.
  intros [H1 H2 H3 H4 H5 H6 H7 H8 H9 H10 H11 H12 H13 H14 H15 H16 H17 H18].
  destruct (H5 p ltac:(left)) as (Hg & HpA & _ & Htn).
  assert (Hs : forall x, is_Some ((without_module p <$> heap rt) !! x) <-> is_Some (heap rt !! x)).
  { intros x. rewrite lookup_fmap. apply fmap_is_Some. }
  assert (Hok : forall r, ref_ok A (p :: P) rt r -> ref_ok A (p :: P) (module_unlink rt p) r).
  { intros r [(Ha & gp' & E' & Hpt)|Hk]; [left|by right]. split; [done|]. exists (without_module p gp'). cbn [module_unlink heap].
    rewrite lookup_fmap, E'. split; [done|]. by rewrite (proj1 (without_module_points _ _ _)). }
  split; cbn [module_unlink heap rc torn gc_obj_list tmp_obj_list gc_zero_ref_count_list gc_phase]; try done.
  - intros x Hx. destruct (H3 x Hx) as (Ha & Ex & Etx). split; [done|]. split; [|done]. rewrite lookup_fmap, Ex. destruct (heap rt0 !! x) as [gp|] eqn:E0; [|done].
    cbn. f_equal. destruct (without_module_refs p gp) as (_ & _ & _ & Hid). apply Hid. intros r Hr Heq.
    apply (disj p); [|done]. rewrite <- Heq. apply (live_refs x); [done|]. unfold frefs. by rewrite E0.
  - intros x Hx. rewrite Hs. by apply H4.
  - intros x Hx. rewrite Hs. by apply H5.
  - intros x Hxg Hx. apply Hs in Hx. by apply H6.
  - intros q r Hq Hr. apply Hok, (H8 q); [done|]. rewrite frefs_unlink in Hr. unfold frefs. destruct (heap rt !! q) as [gp|]; [|done].
    destruct (without_module_refs p gp) as (Hin & _). by apply Hin.
  - intros r Hr. by apply Hok, H9.
  - intros x Hx. rewrite (proj2 (owed_unlink p (heap rt) A W x)); [by apply H10|]. by intros ->.
  - intros x Hx. destruct (H11 x Hx) as (h & Eh & Hle). exists h. split; [done|]. pose proof (proj1 (owed_unlink p (heap rt) A W x)). lia.
  - intros x Hx. destruct (H15 x Hx) as [? Hor]. split; [done|]. destruct Hor as [?|[?|(? & gp & E & ?)]]; [by left|right; by left|right; right].
    split; [done|]. exists (without_module p gp). rewrite lookup_fmap, E. split; [done|]. by rewrite (proj2 (without_module_points (to_value p) _ _)).
  - intros x Hx. destruct (H18 x Hx) as [Ho Hw]. split; [|done]. intros o. rewrite lookup_fmap. destruct (heap rt !! x) as [gp|]; [|done]. cbn.
    intros [= E]. apply Ho. f_equal. destruct gp as [| | | | |ctx|]; try done. by destruct ctx.
Qed.

(** *** Giving up references, one after the other *)

Lemma live_pos T A W P rt x : finv T A W P rt -> x ∈ livel -> 0 < ext x + owed (heap rt) A W x.
Proof.
  intros Hi Hx. pose proof (live_count x Hx). enough (holds (heap rt0) livel x <= owed (heap rt) A W x) by lia.
  assert (Hsub : livel ⊆+ A) by (apply NoDup_submseteq; [done|]; intros y Hy; by apply (fi_live _ _ _ _ _ Hi)).
  apply submseteq_Permutation in Hsub as [k Hk]. unfold owed. pose proof (nrefs_nonneg (target <$> W) x).
  assert (holds (heap rt) A x = holds (heap rt) livel x + holds (heap rt) k x) as ->.
  { unfold holds. rewrite (nrefs_perm _ ((livel ++ k) ≫= fun p => target <$> frefs (heap rt) p) x) by (by rewrite Hk). by rewrite bind_app, nrefs_app. }
  pose proof (nrefs_nonneg (k ≫= fun p => target <$> frefs (heap rt) p) x) as Hk0. fold (holds (heap rt) k x) in Hk0.
  pose proof (owed_ext (heap rt0) (heap rt) livel [] x) as Heq. unfold owed in Heq. cbn in Heq. change (nrefs [] x) with 0 in Heq.
  assert (forall q, q ∈ livel -> heap rt0 !! q = heap rt !! q) by (intros q Hq; symmetry; by apply (fi_live _ _ _ _ _ Hi)). specialize (Heq H1). lia.
Qed.

Definition good (T A : list ptr) (W : list gref) (P : list ptr) (rt : JSRuntime) : Prop := finv T A W P rt /\ cells_counted A W rt.

Definition steps (f : JSRuntime -> gref -> option JSRuntime) (Q : gref -> Prop) : Prop := forall T A W P rt r, Q r -> good T A (r :: W) P rt ->
  exists A' rt', f rt r = Some rt' /\ good T A' W P rt' /\ heap rt' ⊆ heap rt /\ forall x, owed (heap rt') A' W x <= owed (heap rt) A (r :: W) x.

Lemma each_steps f Q l T A W P rt : steps f Q -> Forall Q l -> good T A (l ++ W) P rt ->
  exists A' rt', each f l rt = Some rt' /\ good T A' W P rt' /\ heap rt' ⊆ heap rt /\ forall x, owed (heap rt') A' W x <= owed (heap rt) A (l ++ W) x.
Proof.
  intros Hf Hl. revert A rt. induction Hl as [|r l Hr Hl IH]; intros A rt Hg; cbn [each app] in *.
  - exists A, rt. split_and!; [done..|]. intros. lia.
  - destruct (Hf _ _ _ _ _ _ Hr Hg) as (A1 & rt1 & -> & Hg1 & Hs1 & Hle1). cbn [mbind option_bind].
    destruct (IH A1 rt1 Hg1) as (A2 & rt2 & E2 & Hg2 & Hs2 & Hle2). exists A2, rt2. split_and!; [done..|by etrans|]. intros x. specialize (Hle1 x). specialize (Hle2 x). lia.
Qed.

Lemma kept_not_A T A W P rt x : finv T A W P rt -> kept P rt x -> x ∉ A.
Proof. intros Hi [Hx|[Hg Ht]]; [by apply (fi_P _ _ _ _ _ Hi)|]. by destruct (fi_torn _ _ _ _ _ Hi x Hg Ht). Qed.

Lemma counted_dec T A r W P rt h : good T A (r :: W) P rt ->
  (target r ∈ A -> leaf r = false -> 0 < ext (target r) + owed (heap rt) A W (target r)) ->
  cells_counted A W (set_rc rt (target r) h).
Proof.
  intros [Hi Hc] Hr x gp Hx Egp Hcell. cbn [set_rc heap] in *. destruct (decide (target r = x)) as [<-|Hne].
  - apply Hr; [done|]. destruct (fi_work _ _ _ _ _ Hi r) as [(_ & gp' & E' & Hpt)|[_ Hk]]; [left| |].
    + rewrite Egp in E'. injection E' as <-. rewrite (points_cell r gp Hpt) in Hcell. by destruct (leaf r).
    + by apply (kept_not_A _ _ _ _ _ _ Hi) in Hk.
  - specialize (Hc x gp Hx Egp Hcell). rewrite owed_cons, decide_False in Hc by done. lia.
Qed.

Lemma owed_tail hp A r W x : owed hp A W x <= owed hp A (r :: W) x.
Proof. rewrite owed_cons. destruct (decide _); lia. Qed.

Lemma release0_steps k : steps (release0 k) (fun r => leaf r = true).
Proof.
  intros T A W P rt r Hl Hg. pose proof Hg as [Hi _]. destruct (ref_header _ _ _ _ _ _ Hi) as (h & Eh & _).
  exists A, (set_rc rt (target r) (mk_rc (ref_count h - 1) (mark h))). pose proof (fi_phase _ _ _ _ _ Hi) as Hph. split_and!.
  - destruct r; try done; cbn [release0 target] in *; unfold JS_FreeValueRT, async_func_free, __JS_FreeValueRT, js_rc; rewrite Eh; cbn [mbind option_bind set_rc gc_phase];
      rewrite Hph; match goal with |- context [if ?b then _ else _] => by destruct b end.
  - split; [by apply finv_dec|]. apply (counted_dec T A r W P rt); [done|]. congruence.
  - done.
  - intros x. apply owed_tail.
Qed.

(** Giving up the last reference to a cell frees it. *)
Lemma cell_steps f Q T A W P rt r gp h : steps f Q -> good T A (r :: W) P rt -> leaf r = false ->
  heap rt !! target r = Some gp -> rc rt !! target r = Some h -> Forall Q (free_refs gp) ->
  let rt1 := set_rc rt (target r) (mk_rc (ref_count h - 1) (mark h)) in
  0 < ref_count h /\
  if ref_count h - 1 =? 0
  then exists A' rt', free_cell f rt1 (target r) (free_refs gp) = Some rt' /\ good T A' W P rt' /\ heap rt' ⊆ heap rt /\ forall x, owed (heap rt') A' W x <= owed (heap rt) A (r :: W) x
  else good T A W P rt1.
Proof.
  intros Hf Hg Hl Egp Eh HQ rt1. pose proof Hg as [Hi Hc]. destruct (ref_header _ _ _ _ _ _ Hi) as (h' & Eh' & _ & Heq). rewrite Eh in Eh'.
  injection Eh' as <-. pose proof (finv_dec _ _ _ _ _ _ _ Hi Eh) as Hi1. fold rt1 in Hi1.
  destruct (fi_work _ _ _ _ _ Hi r) as [(Ha & gp' & E' & Hpt)|[? _]]; [left| |congruence]. rewrite Egp in E'. injection E' as <-.
  specialize (Heq Ha). rewrite owed_cons, decide_True in Heq by done. pose proof (owed_nonneg (heap rt) A W (target r)).
  assert (Hext : 0 <= ext (target r)).
  { destruct (fi_A _ _ _ _ _ Hi _ Ha) as [[Hlv|Hgb] _]; [by apply ext_live|by rewrite ext_garb]. }
  split; [lia|]. destruct (Z.eqb_spec (ref_count h - 1) 0) as [H0|H0].
  - assert (Hgb : target r ∈ garb).
    { destruct (fi_A _ _ _ _ _ Hi _ Ha) as [[Hlv|?] _]; [|done]. pose proof (live_pos _ _ _ _ _ _ Hi1 Hlv) as Hp. cbn [rt1 set_rc heap] in Hp. lia. }
    assert (How0 : owed (heap rt1) A W (target r) = 0) by (cbn [rt1 set_rc heap]; lia).
    pose proof (finv_enter _ _ _ _ _ _ gp Hi1 Ha Hgb Egp (fun _ => How0)) as Hi2.
    assert (Hg2 : good T (unlink (target r) A) (free_refs gp ++ W) (target r :: P) rt1).
    { split; [done|]. intros x gpx [Hx Hxr]%elem_unlink Ex Hcx. cbn [rt1 set_rc heap] in *.
      assert (Efr : frefs (heap rt) (target r) = free_refs gp) by (unfold frefs; by rewrite Egp).
      rewrite <- Efr, owed_move by (done || apply (fi_NoDup _ _ _ _ _ Hi)). specialize (Hc x gpx Hx Ex Hcx).
      rewrite owed_cons, decide_False in Hc by done. lia. }
    destruct (each_steps f Q _ _ _ _ _ _ Hf HQ Hg2) as (A3 & rt3 & E3 & [Hi3 Hc3] & Hs3 & Hle3).
    assert (Efr : frefs (heap rt1) (target r) = free_refs gp) by (unfold frefs; cbn [rt1 set_rc heap]; by rewrite Egp).
    assert (Hmove : forall x, owed (heap rt1) (unlink (target r) A) (free_refs gp ++ W) x = owed (heap rt1) A W x).
    { intros x. rewrite <- Efr. apply owed_move; [apply (fi_NoDup _ _ _ _ _ Hi)|done]. }
    assert (How : owed (heap rt3) A3 W (target r) = 0).
    { specialize (Hle3 (target r)). rewrite Hmove, How0 in Hle3. pose proof (owed_nonneg (heap rt3) A3 W (target r)). lia. }
    assert (HA3 : forall q, q ∈ A3 -> delete (target r) (heap rt3) !! q = heap rt3 !! q).
    { intros q Hq. rewrite lookup_delete_ne; [done|]. intros <-. destruct (fi_P _ _ _ _ _ Hi3 (target r)) as (_ & ? & _); [left|done]. }
    exists A3. eexists. split; [unfold free_cell; by rewrite E3|]. split; [split|split].
    + by apply finv_free.
    + intros x gpx Hx Ex Hcx. cbn [js_free_rt list_del set_lists heap] in *. rewrite (owed_ext _ (heap rt3)) by done. rewrite HA3 in Ex by done. by apply (Hc3 x gpx).
    + cbn [js_free_rt list_del set_lists heap]. etrans; [apply delete_subseteq|exact Hs3].
    + intros x. cbn [js_free_rt list_del set_lists heap]. rewrite (owed_ext _ (heap rt3)) by done. specialize (Hle3 x). rewrite Hmove in Hle3.
      pose proof (owed_tail (heap rt) A r W x). cbn [rt1 set_rc heap] in Hle3. lia.
  - split; [done|]. apply (counted_dec T A r W P rt); [done|]. lia.
Qed.

Lemma nonleaf_target T A r W P rt : finv T A (r :: W) P rt -> leaf r = false ->
  exists gp h, heap rt !! target r = Some gp /\ points r gp = true /\ rc rt !! target r = Some h.
Proof.
  intros Hi Hl. destruct (fi_work _ _ _ _ _ Hi r) as [(_ & gp & Egp & Hpt)|[? _]]; [left| |congruence].
  destruct (ref_header _ _ _ _ _ _ Hi) as (h & Eh & _). by exists gp, h.
Qed.

Lemma release1_steps k : steps (release1 k) (fun r => no_context r = true).
Proof.
  intros T A W P rt r Hr Hg. destruct (leaf r) eqn:Hl.
  { assert (release1 k rt r = release0 k rt r) as -> by (by destruct r). by apply release0_steps. }
  destruct (nonleaf_target _ _ _ _ _ _ (proj1 Hg) Hl) as (gp & h & Egp & Hpt & Eh).
  assert (HQ : Forall (fun r => leaf r = true) (free_refs gp)).
  { eapply Forall_impl; [apply cell_refs; by rewrite (points_cell r gp Hpt), Hl|]. intros r' [_ [?|[ctx ->]]]; [done|]. by destruct r. }
  destruct (cell_steps _ _ _ _ _ _ _ _ _ _ (release0_steps k) Hg Hl Egp Eh HQ) as [Hpos Hres].
  destruct r as [p|p|p|p|p]; try done; destruct gp; try done; cbn [release1 target] in *; unfold js_free_shape, js_free_shape0, free_var_ref, js_rc;
    rewrite Eh; cbn [mbind option_bind set_rc rc heap ref_count]; rewrite ?lookup_insert_eq; cbn [mbind option_bind ref_count];
    rewrite ?(proj2 (Z.ltb_lt _ _) Hpos), Egp; cbn [negb].
  - destruct (Z.eqb_spec (ref_count h - 1) 0) as [H0|H0]; cbn [negb].
    + rewrite (proj2 (Z.leb_le _ _)) by lia. apply Hres.
    + rewrite (proj2 (Z.leb_gt _ _)) by lia. exists A. eexists. split_and!; [done..|]. intros x. apply owed_tail.
  - destruct (Z.eqb_spec (ref_count h - 1) 0) as [H0|H0].
    + apply Hres.
    + exists A. eexists. split_and!; [done..|]. intros x. apply owed_tail.
Qed.

Lemma release_steps k : steps (release k) (fun _ => True).
Proof.
  intros T A W P rt r _ Hg. destruct (no_context r) eqn:Hr.
  { assert (release k rt r = release1 k rt r) as -> by (by destruct r). by apply release1_steps. }
  assert (Hl : leaf r = false) by (by destruct r). destruct (nonleaf_target _ _ _ _ _ _ (proj1 Hg) Hl) as (gp & h & Egp & Hpt & Eh).
  assert (HQ : Forall (fun r => no_context r = true) (free_refs gp)).
  { eapply Forall_impl; [apply cell_refs; by rewrite (points_cell r gp Hpt), Hl|]. by intros r' [? _]. }
  destruct (cell_steps _ _ _ _ _ _ _ _ _ _ (release1_steps k) Hg Hl Egp Eh HQ) as [Hpos Hres].
  destruct r as [p|p|p|p|p]; try done. destruct gp; try done. cbn [release target] in *. unfold JS_FreeContext, js_rc.
  rewrite Eh. cbn [mbind option_bind set_rc rc heap]. rewrite Egp. destruct (Z.eqb_spec (ref_count h - 1) 0) as [H0|H0]; cbn [negb].
  - rewrite (proj2 (Z.ltb_ge _ _)) by lia. apply Hres.
  - rewrite (proj2 (Z.ltb_lt _ _)) by lia. exists A. eexists. split_and!; [done..|]. intros x. apply owed_tail.
Qed.

(** *** The loops of gc_free_cycles *)

Lemma finv_T T A W P rt : finv T A W P rt -> finv (tmp_obj_list rt) A W P rt.
Proof. intros [H1 H2 H3 H4 H5 H6 H7 H8 H9 H10 H11 H12 (Ha & Hb & Hc & Hd) H14 H15 H16 H17 H18]. by split. Qed.

(** The end of giving up the object [p]. *)
Lemma good_leave T A rt p rt' : good T A [] [p] rt -> gc_phase rt = JS_GC_PHASE_REMOVE_CYCLES ->
  (rt' = js_free_rt (list_del rt p) p /\ (exists m, rc rt !! p = Some (mk_rc 0 m)) \/
    exists t, rt' = add_tail_zero (tear (list_del rt p) p t) p /\
      (forall w, t = torn_object w -> exists o, heap rt !! p = Some (JS_GC_OBJ_TYPE_JS_OBJECT o) /\ weakref_count o = w)) ->
  good T A [] [] rt' /\ p ∉ tmp_obj_list rt'.
Proof.
  intros [Hi Hc] _ Hor. destruct (fi_P _ _ _ _ _ Hi p) as (Hg & HpA & _); [left|].
  assert (HA : forall q, q ∈ A -> delete p (heap rt) !! q = heap rt !! q) by (intros q Hq; rewrite lookup_delete_ne; [done|]; by intros <-).
  assert (Hcc : forall x gp, x ∈ A -> delete p (heap rt) !! x = Some gp -> cell gp = true -> 0 < ext x + owed (delete p (heap rt)) A [] x).
  { intros x gp Hx Ex Hcx. rewrite (owed_ext _ (heap rt)) by done. rewrite HA in Ex by done. by apply (Hc x gp). }
  destruct Hor as [[-> [m Em]]|(t & -> & Hw)]; (split; [split|]).
  - apply finv_free; [done|]. destruct (fi_kept _ _ _ _ _ Hi p) as (h & Eh & Hle); [left; left|]. rewrite Em in Eh. injection Eh as <-. cbn in Hle.
    pose proof (owed_nonneg (heap rt) A [] p). lia.
  - exact Hcc.
  - cbn. by intros [_ ?]%elem_unlink.
  - by apply finv_tear.
  - exact Hcc.
  - cbn. by intros [_ ?]%elem_unlink.
Qed.

Lemma free_block_good T A rt p : good T A [] [p] rt -> exists rt', free_block rt p = Some rt' /\ good T A [] [] rt' /\ p ∉ tmp_obj_list rt'.
Proof.
  intros Hg. pose proof Hg as [Hi _]. pose proof (fi_phase _ _ _ _ _ Hi) as Hph.
  destruct (fi_kept _ _ _ _ _ Hi p) as ([c m] & Eh & _); [left; left|].
  unfold free_block, is_remove_cycles, js_rc. cbn [list_del set_lists rc gc_phase]. rewrite Eh, Hph. cbn [mbind option_bind ref_count andb].
  destruct (Z.eqb_spec c 0) as [->|Hc]; cbn [negb]; (eexists; split; [done|]); apply (good_leave T A rt p); try done.
  - left. split; [done|]. by exists m.
  - right. exists torn_other. by split.
Qed.

Lemma free_cycles_body T A rt p : good T A [] [] rt -> p ∈ tmp_obj_list rt ->
  exists A' rt', gc_free_cycles_body rt p = Some rt' /\ good T A' [] [] rt' /\ p ∉ tmp_obj_list rt'.
Proof.
  intros Hg Hp. pose proof Hg as [Hi Hc]. destruct (fi_tmp _ _ _ _ _ Hi p Hp) as [Hgb [HpA|?%not_elem_of_nil]]; [|done].
  destruct (fi_A _ _ _ _ _ Hi p HpA) as [_ [gp Egp]]. unfold gc_free_cycles_body. rewrite Egp. cbn [mbind option_bind].
  destruct (cell gp) eqn:Hcell.
  { exists A. eexists. assert (match gp with JS_GC_OBJ_TYPE_JS_OBJECT _ | JS_GC_OBJ_TYPE_FUNCTION_BYTECODE _ | JS_GC_OBJ_TYPE_ASYNC_FUNCTION _ | JS_GC_OBJ_TYPE_MODULE _ =>
      free_gc_object (fun _ => None) rt p | _ => Some (add_tail_zero (list_del rt p) p) end = Some (add_tail_zero (list_del rt p) p)) as -> by (by destruct gp).
    split; [done|]. split; [split; [by eapply finv_wait|exact Hc]|]. cbn. by intros [_ ?]%elem_unlink. }
  assert (Hg1 : good T (unlink p A) (free_refs gp ++ []) [p] rt).
  { split; [apply finv_enter; try done; congruence|]. intros x gpx [Hx Hxr]%elem_unlink Ex Hcx.
    assert (Efr : frefs (heap rt) p = free_refs gp) by (unfold frefs; by rewrite Egp).
    rewrite <- Efr, owed_move by (done || apply (fi_NoDup _ _ _ _ _ Hi)). by apply (Hc x gpx). }
  destruct (each_steps _ _ (free_refs gp) _ _ _ _ _ (release_steps (fun _ => None)) ltac:(apply Forall_true; auto) Hg1) as (A2 & rt2 & E2 & Hg2 & Hs2 & _).
  unfold free_gc_object. rewrite Egp. cbn [mbind option_bind]. exists A2.
  destruct gp as [o|b| | |s| |m]; try done; cbn [free_refs] in E2;
    unfold free_object, free_function_bytecode, __async_func_free, js_free_module_def; rewrite E2; cbn [mbind option_bind].
  - pose proof Hg2 as [Hi2 _]. pose proof (fi_phase _ _ _ _ _ Hi2) as Hph.
    assert (Ep2 : heap rt2 !! p = Some (JS_GC_OBJ_TYPE_JS_OBJECT o)).
    { destruct (fi_P _ _ _ _ _ Hi2 p) as (_ & _ & [g Eg] & _); [left|]. rewrite Eg. apply (lookup_weaken _ _ _ _ Eg) in Hs2. congruence. } destruct (fi_kept _ _ _ _ _ Hi2 p) as ([c m] & Eh & _); [left; left|].
    unfold is_remove_cycles, js_rc. cbn [list_del set_lists rc gc_phase]. rewrite Eh, Hph. cbn [mbind option_bind ref_count].
    destruct (Z.eqb_spec c 0) as [->|]; [destruct (weakref_count o =? 0)|]; cbn [andb]; (eexists; split; [done|]); apply (good_leave T A2 rt2 p); try done.
    + left. split; [done|]. by exists m.
    + right. eexists. split; [done|]. intros w [= <-]. by exists o.
    + right. eexists. split; [done|]. intros w [= <-]. by exists o.
  - by apply free_block_good.
  - by apply free_block_good.
  - apply free_block_good. destruct Hg2 as [Hi2 Hc2]. split; [by apply finv_unlink|]. intros x gpx Hx Ex Hcx. cbn [module_unlink heap] in *.
    rewrite lookup_fmap in Ex. destruct (heap rt2 !! x) as [g|] eqn:Eg; [|done]. cbn in Ex. injection Ex as <-.
    rewrite (proj2 (without_module_points (to_value p) _ _)) in Hcx. rewrite (proj2 (owed_unlink p (heap rt2) A2 [] x)); [by apply (Hc2 x g)|].
    intros ->. destruct (fi_P _ _ _ _ _ Hi2 p) as (_ & ? & _); [left|done].
Qed.

Lemma free_cycles_loop fuel T A rt : good T A [] [] rt -> (length (tmp_obj_list rt) <= fuel)%nat ->
  exists T' A' rt', gc_free_cycles_loop fuel rt = Some rt' /\ good T' A' [] [] rt' /\ tmp_obj_list rt' = [].
Proof.
  revert T A rt. induction fuel as [|fuel IH]; intros T A rt Hg Hf; cbn [gc_free_cycles_loop]; destruct (tmp_obj_list rt) as [|p l] eqn:El; cbn [length] in Hf; try lia;
    [by exists T, A, rt..|]. destruct Hg as [Hi Hc]. pose proof (finv_T _ _ _ _ _ Hi) as Hi'. rewrite El in Hi'.
  destruct (free_cycles_body (p :: l) A rt p) as (A' & rt' & -> & Hg' & Hp'); [done|rewrite El; left|]. cbn [mbind option_bind].
  apply (IH (p :: l) A'); [done|]. pose proof Hg' as [Hi2 _]. destruct (fi_list _ _ _ _ _ Hi2) as (_ & Hn & _ & Hsub).
  assert (Hlen : (length (tmp_obj_list rt') <= length l)%nat); [|lia]. apply submseteq_length, NoDup_submseteq; [done|].
  intros x Hx. specialize (Hsub x Hx). apply elem_of_cons in Hsub as [->|?]; done.
Qed.

(** When the list is empty all the garbage is given up: the shapes and
    variables with the objects that held them, the contexts before them. *)
Lemma garbage_given_up T A rt x : good T A [] [] rt -> tmp_obj_list rt = [] -> x ∈ garb -> x ∉ A.
Proof.
  intros [Hi Hc] Htmp.
  assert (Hcell : forall x, x ∈ A -> x ∈ garb -> exists gp, heap rt !! x = Some gp /\ cell gp = true).
  { intros y Hy Hg. destruct (fi_pend _ _ _ _ _ Hi y Hy Hg) as [Ht|Hz]; [rewrite Htmp in Ht; by apply not_elem_of_nil in Ht|].
    destruct (fi_zero _ _ _ _ _ Hi y Hz) as [_ [Ht|[?%not_elem_of_nil|(_ & ?)]]]; [|done|done].
    by destruct (fi_torn _ _ _ _ _ Hi y Hg Ht). }
  assert (Hby : forall x, x ∈ A -> x ∈ garb -> exists q ctx r, q ∈ A /\ q ∈ garb /\ heap rt !! q = Some (JS_GC_OBJ_TYPE_JS_CONTEXT ctx) /\
    r ∈ frefs (heap rt) q /\ no_context r = true /\ target r = x).
  { intros y Hy Hg. destruct (Hcell y Hy Hg) as (gp & Egp & Hgp). pose proof (Hc y gp Hy Egp Hgp) as Hpos. rewrite ext_garb in Hpos by done.
    apply owed_pos in Hpos as [(q & r & Hq & Hr & <-)|(r & ?%not_elem_of_nil & _)]; [|done].
    assert (Hqg : q ∈ garb).
    { destruct (fi_A _ _ _ _ _ Hi q Hq) as [[Hl|?] _]; [|done]. destruct (disj (target r)); [|done]. apply (live_refs q); [done|].
      unfold frefs in *. by rewrite <- (proj1 (proj2 (fi_live _ _ _ _ _ Hi q Hl))). }
    destruct (Hcell q Hq Hqg) as (gq & Egq & Hgq). exists q. unfold frefs in Hr. rewrite Egq in Hr.
    pose proof (proj1 (Forall_forall _ _) (cell_refs gq Hgq) r Hr) as [Hnc Hor]. cbn beta in Hor.
    destruct (fi_refs _ _ _ _ _ Hi q r Hq) as [(_ & g & Eg & Hpt)|[_ Hk]]; [unfold frefs; by rewrite Egq| |by apply (kept_not_A _ _ _ _ _ _ Hi) in Hk].
    rewrite Egp in Eg. injection Eg as <-. rewrite (points_cell r gp Hpt) in Hgp. destruct Hor as [Hl|[ctx ->]]; [by rewrite Hl in Hgp|].
    exists ctx, r. split_and!; try done. unfold frefs. by rewrite Egq. }
  intros Hg Hx. destruct (Hby x Hx Hg) as (q & ctx & _ & Hq & Hqg & Eq & _). destruct (Hby q Hq Hqg) as (q2 & ctx2 & r & Hq2 & _ & _ & Hr & Hnc & Ht).
  destruct (fi_refs _ _ _ _ _ Hi q2 r Hq2 Hr) as [(_ & g & Eg & Hpt)|[_ Hk]].
  - rewrite Ht, Eq in Eg. injection Eg as <-. by destruct r.
  - apply (kept_not_A _ _ _ _ _ _ Hi) in Hk. by rewrite Ht in Hk.
Qed.

End Freeing.

(** The second loop frees the blocks that were kept, but for those of objects
    with weak references. *)
Definition weakly_held (rt : JSRuntime) (p : ptr) : bool := match torn rt !! p with Some (torn_object w) => negb (w =? 0) | _ => false end.

Lemma free_cycles_end l rt : NoDup l -> (forall x, x ∈ l -> is_Some (torn rt !! x) /\ is_Some (rc rt !! x)) ->
  exists rt', each gc_free_cycles_end l rt = Some rt' /\ gc_obj_list rt' = gc_obj_list rt /\ tmp_obj_list rt' = tmp_obj_list rt /\ gc_phase rt' = gc_phase rt /\
    (forall x, x ∉ l -> heap rt' !! x = heap rt !! x /\ rc rt' !! x = rc rt !! x /\ torn rt' !! x = torn rt !! x) /\
    (forall x, x ∈ l -> if weakly_held rt x then heap rt' !! x = heap rt !! x /\ torn rt' !! x = torn rt !! x
      else heap rt' !! x = None /\ rc rt' !! x = None /\ torn rt' !! x = None).
Proof.
  intros Hn. revert rt. induction Hn as [|p l Hp Hn IH]; intros rt Hall; cbn [each].
  - exists rt. split_and!; try done. by intros x ?%not_elem_of_nil.
  - destruct (Hall p ltac:(left)) as [[t Et] [h Eh]].
    assert (Hstep : exists rt1, gc_free_cycles_end rt p = Some rt1 /\ gc_obj_list rt1 = gc_obj_list rt /\ tmp_obj_list rt1 = tmp_obj_list rt /\ gc_phase rt1 = gc_phase rt /\
      (forall x, x <> p -> heap rt1 !! x = heap rt !! x /\ rc rt1 !! x = rc rt !! x /\ torn rt1 !! x = torn rt !! x) /\
      if weakly_held rt p then heap rt1 !! p = heap rt !! p /\ torn rt1 !! p = torn rt !! p
      else heap rt1 !! p = None /\ rc rt1 !! p = None /\ torn rt1 !! p = None).
    { unfold weakly_held, gc_free_cycles_end, js_rc. rewrite Et, Eh. cbn [mbind option_bind]. destruct t as [w|]; [destruct (w =? 0)|]; cbn [negb]; (eexists; split; [done|]);
        cbn [js_free_rt set_rc heap rc torn gc_obj_list tmp_obj_list gc_phase]; rewrite ?lookup_delete_eq; split_and!; try done;
        intros x Hx; rewrite ?lookup_delete_ne, ?lookup_insert_ne; done. }
    destruct Hstep as (rt1 & -> & El1 & Et1 & Ep1 & Hne & Hpp). cbn [mbind option_bind].
    destruct (IH rt1) as (rt2 & E2 & El2 & Et2 & Ep2 & Hout & Hin).
    { intros x Hx. destruct (Hne x) as (_ & -> & ->); [by intros ->|]. apply Hall. by right. }
    exists rt2. rewrite El2, El1, Et2, Et1, Ep2, Ep1. split_and!; try done.
    + intros x [Hxp Hxl]%not_elem_of_cons. destruct (Hout x Hxl) as (-> & -> & ->). by apply Hne.
    + intros x [->|Hx]%elem_of_cons.
      * by destruct (Hout p Hp) as (-> & -> & ->).
      * assert (Hxp : x <> p) by (by intros ->). specialize (Hin x Hx). unfold weakly_held in *. destruct (Hne x Hxp) as (Hh & _ & Htx).
        rewrite Htx in Hin. destruct (torn rt !! x) as [[w|]|]; [destruct (negb (w =? 0))|..]; by rewrite ?Hh in Hin.
Qed.

(** ** A whole collection *)

(** Every reference leads to an object of the type it is given up for, deleted
    properties hold none, and no block of the list is torn down. *)
Definition obj_typed (rt : JSRuntime) (p : ptr) : bool :=
  match heap rt !! p, torn rt !! p with
  | Some gp, None =>
      props_ok gp && forallb (fun r => match heap rt !! target r with Some g => points r g | None => false end) (free_refs gp)
  | _, _ => false
  end.
Definition gc_typed (rt : JSRuntime) : Prop := forallb (obj_typed rt) (gc_obj_list rt) = true.

Lemma typed_obj rt p : gc_typed rt -> p ∈ gc_obj_list rt -> exists gp, heap rt !! p = Some gp /\ torn rt !! p = None /\ props_ok gp = true /\
  forall r, r ∈ free_refs gp -> exists g, heap rt !! target r = Some g /\ points r g = true.
Proof.
  intros Ht Hp. unfold gc_typed in Ht. rewrite forallb_forall in Ht. specialize (Ht p (proj1 (list_elem_of_In _ _) Hp)). unfold obj_typed in Ht.
  destruct (heap rt !! p) as [gp|]; [|done]. destruct (torn rt !! p); [done|]. apply andb_true_iff in Ht as [H1 H2]. exists gp. split_and!; try done.
  intros r Hr%list_elem_of_In. rewrite forallb_forall in H2. specialize (H2 r Hr). cbn beta in H2. destruct (heap rt !! target r) as [g|]; [|done]. by exists g.
Qed.

Lemma typed_children rt p : gc_typed rt -> p ∈ gc_obj_list rt -> target <$> frefs (heap rt) p ≡ₚ children (heap rt) p.
Proof. intros Ht Hp. unfold frefs, children. destruct (typed_obj rt p Ht Hp) as (gp & -> & _ & Hok & _). by apply free_refs_mark. Qed.

Lemma holds_refs rt l x : gc_typed rt -> (forall p, p ∈ l -> p ∈ gc_obj_list rt) -> holds (heap rt) l x = refs (heap rt) l x.
Proof.
  intros Ht Hl. unfold holds, refs. apply nrefs_perm. induction l as [|p l IH]; [done|]. cbn. rewrite IH, typed_children; try done.
  - apply Hl. left.
  - intros q Hq. apply Hl. by right.
Qed.

Lemma in_use_listed rt p : gc_ready rt -> in_use rt p -> p ∈ gc_obj_list rt.
Proof.
  intros Hr. induction 1 as [|p q _ IH Hq]; [done|]. destruct (ready_obj rt p Hr IH) as (gp & c & Egp & _ & _ & _ & Hcl).
  apply Hcl. unfold children in Hq. by rewrite Egp in Hq.
Qed.

(** A shape, an object or another block with weak references to it. *)
Definition has_weakrefs (rt : JSRuntime) (p : ptr) : bool :=
  match heap rt !! p with Some (JS_GC_OBJ_TYPE_JS_OBJECT o) => negb (weakref_count o =? 0) | _ => false end.

Section Collect.
Variable rt : JSRuntime.
Hypothesis ready : gc_ready rt.
Hypothesis typed : gc_typed rt.
Hypothesis no_zero : gc_zero_ref_count_list rt = [].

(** The state after the two marking passes starts the freeing. *)
Lemma good_start rt2 : heap rt2 = heap rt -> torn rt2 = torn rt -> gc_zero_ref_count_list rt2 = [] ->
  (forall x, x ∈ gc_obj_list rt2 <-> in_use rt x) -> (forall x, x ∈ tmp_obj_list rt2 <-> x ∈ gc_obj_list rt /\ ~ in_use rt x) ->
  NoDup (gc_obj_list rt2 ++ tmp_obj_list rt2) ->
  (forall x, rc rt2 !! x = (if decide (x ∈ tmp_obj_list rt2) then (fun h => mk_rc (ref_count h) true) else id) <$> rc rt !! x) ->
  good (gc_obj_list rt2) (tmp_obj_list rt2) (external rt) rt2 (tmp_obj_list rt2) (gc_obj_list rt2 ++ tmp_obj_list rt2) [] [] (set_phase rt2 JS_GC_PHASE_REMOVE_CYCLES).
Proof.
  intros Hh Ht Hz Hlv Hgb Hn Hrc.
  assert (Hall : forall x, x ∈ gc_obj_list rt2 ++ tmp_obj_list rt2 -> x ∈ gc_obj_list rt).
  { intros x [Hx|Hx]%elem_of_app; [apply Hlv in Hx; by apply in_use_listed|by apply Hgb in Hx as [? _]]. }
  assert (Hperm : gc_obj_list rt2 ++ tmp_obj_list rt2 ≡ₚ gc_obj_list rt).
  { apply NoDup_Permutation; [done|apply ready|]. intros x. split; [apply Hall|]. intros Hx. apply elem_of_app. rewrite Hgb.
    destruct (decide (x ∈ gc_obj_list rt2)) as [?|Hx2]; [by left|right]. split; [done|]. intros Hl. by apply Hx2, Hlv. }
  assert (How : forall x, owed (heap rt) (gc_obj_list rt2 ++ tmp_obj_list rt2) [] x = refs (heap rt) (gc_obj_list rt) x).
  { intros x. unfold owed. change (nrefs (target <$> []) x) with 0. rewrite holds_refs by done. rewrite (refs_perm _ _ _ x Hperm). lia. }
  assert (Hcnt : forall x, x ∈ gc_obj_list rt -> exists c, rc rt !! x = Some (mk_rc c false) /\ 0 < c /\ c = external rt x + refs (heap rt) (gc_obj_list rt) x).
  { intros x Hx. destruct (ready_obj rt x ready Hx) as (_ & c & _ & Ec & H0 & _). exists c. split_and!; try done. unfold external. rewrite Ec. cbn. lia. }
  split.
  - split; cbn [set_phase heap rc torn gc_obj_list tmp_obj_list gc_zero_ref_count_list gc_phase]; rewrite ?Hz; try done.
    + split; [done|constructor].
    + intros x Hx. split; [|done]. apply elem_of_app. by left.
    + intros x Hx. split; [by apply elem_of_app|]. rewrite Hh. destruct (ready_obj rt x ready (Hall x Hx)) as (gp & _ & -> & _). done.
    + by intros x ?%not_elem_of_nil.
    + intros x Hx _. left. apply elem_of_app. by right.
    + intros x Hx. rewrite Ht. destruct (typed_obj rt x typed) as (_ & _ & -> & _); [apply Hall, elem_of_app; by right|]. by intros [? ?].
    + intros p r Hp. rewrite Hh. intros Hr. left. destruct (typed_obj rt p typed (Hall p Hp)) as (gp & Egp & _ & _ & Htp).
      unfold frefs in Hr. rewrite Egp in Hr. destruct (Htp r Hr) as (g & Eg & Hpt). cbn [set_phase heap]. rewrite Hh. split; [|by exists g].
      rewrite Hperm. destruct (ready_obj rt p ready (Hall p Hp)) as (gp' & _ & Egp' & _ & _ & _ & Hcl). rewrite Egp in Egp'. injection Egp' as <-.
      apply Hcl. destruct (typed_obj rt p typed (Hall p Hp)) as (gp' & Egp' & _ & Hok & _). rewrite Egp in Egp'. injection Egp' as <-.
      rewrite <- (free_refs_mark gp Hok). apply list_elem_of_fmap. by exists r.
    + by intros r ?%not_elem_of_nil.
    + intros x Hx. rewrite Hh, How. destruct (Hcnt x (Hall x Hx)) as (c & Ec & _ & Hc). rewrite Hrc, Ec, <- Hc.
      destruct (decide (x ∈ tmp_obj_list rt2)) as [Htx|]; [|by exists false]. exists true. split; [done|]. intros Hl. apply Hlv in Hl. by apply Hgb in Htx as [_ ?].
    + intros x [?%not_elem_of_nil|[Hx Htx]]; [done|]. cbn [set_phase torn] in Htx. rewrite Ht in Htx.
      destruct (typed_obj rt x typed) as (_ & _ & E & _); [by apply Hgb in Hx as [? _]|]. rewrite E in Htx. by destruct Htx.
    + intros x Hx _. left. apply elem_of_app. by right.
    + split_and!; try done; [|constructor]. by apply NoDup_app in Hn as (_ & _ & ?).
    + intros x Hx. split; [done|]. left. apply elem_of_app. by right.
    + by intros x ?%not_elem_of_nil.
    + intros x [Hx|Hx]%elem_of_app Hg; [|by left]. by left.
    + intros x Hx. rewrite Ht. destruct (typed_obj rt x typed) as (_ & _ & -> & _); [by apply Hgb in Hx as [? _]|]. split; [done|]. done.
  - intros x gp Hx _ _. cbn [set_phase heap]. rewrite Hh, How. destruct (Hcnt x (Hall x Hx)) as (c & _ & ? & ->). lia.
Qed.

Lemma collect_spec : exists rt', JS_RunGCInternal rt = Some rt' /\
  (forall p, p ∈ gc_obj_list rt' <-> in_use rt p) /\ NoDup (gc_obj_list rt') /\ tmp_obj_list rt' = [] /\ gc_zero_ref_count_list rt' = [] /\
  (forall p, in_use rt p -> heap rt' !! p = heap rt !! p /\ torn rt' !! p = None /\
    rc rt' !! p = Some (mk_rc (external rt p + refs (heap rt) (gc_obj_list rt') p) false)) /\
  (forall p, p ∈ gc_obj_list rt -> ~ in_use rt p -> heap rt' !! p = None /\ (has_weakrefs rt p = false -> rc rt' !! p = None /\ torn rt' !! p = None)) /\
  (forall p, p ∉ gc_obj_list rt -> rc rt' !! p = rc rt !! p /\ torn rt' !! p = torn rt !! p).
Proof.
  destruct (mark_passes rt ready no_zero) as (rt1 & rt2 & E1 & E2 & Hh & Ht & Hz & Hlv & Hgb & Hn & Hrc).
  pose proof (good_start rt2 Hh Ht Hz Hlv Hgb Hn Hrc) as Hg. unfold JS_RunGCInternal. rewrite E1. cbn [mbind option_bind]. rewrite E2. cbn [mbind option_bind].
  assert (Hlisted : forall p, p ∈ gc_obj_list rt2 -> p ∈ gc_obj_list rt) by (intros p Hp; apply Hlv in Hp; by apply in_use_listed).
  assert (Hext0 : forall p, p ∈ gc_obj_list rt -> 0 <= external rt p).
  { intros p Hp. unfold external. destruct (ready_obj rt p ready Hp) as (_ & c & _ & -> & _ & ? & _). cbn. lia. }
  assert (G1 : forall x, x ∈ gc_obj_list rt2 -> x ∉ tmp_obj_list rt2) by (intros x Hx [_ Hnl]%Hgb; by apply Hnl, Hlv).
  assert (G2 : forall x, x ∈ tmp_obj_list rt2 -> external rt x = 0).
  { intros x Hx%Hgb. destruct Hx as [Hx Hnl]. specialize (Hext0 x Hx). destruct (decide (0 < external rt x)); [|lia]. destruct Hnl. by apply live_root. }
  assert (G3 : forall x, x ∈ gc_obj_list rt2 -> 0 <= external rt x) by (intros x Hx; by apply Hext0, Hlisted).
  assert (Hch : forall p r, p ∈ gc_obj_list rt -> r ∈ frefs (heap rt) p -> target r ∈ children (heap rt) p).
  { intros p r Hp Hr. rewrite <- (typed_children rt p typed Hp). apply list_elem_of_fmap. by exists r. }
  assert (G4 : forall p r, p ∈ gc_obj_list rt2 -> r ∈ frefs (heap rt2) p -> target r ∈ gc_obj_list rt2).
  { intros p r Hp Hr. rewrite Hh in Hr. apply Hlv. apply (live_step _ _ _ p); [by apply Hlv|]. apply Hch; [by apply Hlisted|done]. }
  assert (Hholds : forall x, holds (heap rt2) (gc_obj_list rt2) x = refs (heap rt) (gc_obj_list rt2) x) by (intros x; rewrite Hh; by apply holds_refs).
  assert (G5 : forall x, x ∈ gc_obj_list rt2 -> 0 < external rt x + holds (heap rt2) (gc_obj_list rt2) x).
  { intros x Hx. rewrite Hholds. pose proof (G3 x Hx). pose proof (refs_nonneg (heap rt) (gc_obj_list rt2) x). apply Hlv in Hx. destruct Hx as [p _ ?|p q Hp Hq]; [lia|].
    assert (0 < refs (heap rt) (gc_obj_list rt2) q) by (apply refs_pos; exists p; split; [by apply Hlv|done]). lia. }
  assert (G6 : NoDup (gc_obj_list rt2)) by (by apply NoDup_app in Hn as (? & _)).
  destruct (free_cycles_loop (gc_obj_list rt2) (tmp_obj_list rt2) (external rt) rt2 G1 G2 G3 G4 G5 G6 (fun x Hx => Hx)
    (length (tmp_obj_list rt2)) (tmp_obj_list rt2) _ _ Hg ltac:(done)) as (T & A & rt3 & E3 & Hg3 & Htmp3).
  unfold gc_free_cycles. rewrite E3. cbn [mbind option_bind].
  pose proof (garbage_given_up _ _ _ _ G1 G2 G4 T A rt3) as Hup. pose proof Hg3 as [Hi3 _].
  assert (HA : forall x, x ∈ A <-> x ∈ gc_obj_list rt2).
  { intros x. split; [|intros Hx; by apply (fi_live _ _ _ _ _ _ _ _ _ Hi3)]. intros Hx. destruct (fi_A _ _ _ _ _ _ _ _ _ Hi3 x Hx) as [[?|Hgx] _]; [done|]. by destruct (Hup x Hg3 Htmp3 Hgx). }
  assert (Hzero : forall x, x ∈ gc_zero_ref_count_list rt3 -> x ∈ tmp_obj_list rt2 /\ is_Some (torn rt3 !! x) /\ is_Some (rc rt3 !! x)).
  { intros x Hx. destruct (fi_zero _ _ _ _ _ _ _ _ _ Hi3 x Hx) as [Hgx [Htx|[?%not_elem_of_nil|(Ha & _)]]]; [|done|by destruct (Hup x Hg3 Htmp3 Hgx)].
    split_and!; try done. destruct (fi_kept _ _ _ _ _ _ _ _ _ Hi3 x) as (h & -> & _); [by right|done]. }
  destruct (fi_list _ _ _ _ _ _ _ _ _ Hi3) as (El3 & _ & Hnz & _).
  destruct (free_cycles_end (gc_zero_ref_count_list rt3) (set_phase rt3 JS_GC_PHASE_NONE) Hnz) as (rt4 & E4 & El4 & Et4 & _ & Hout & Hin).
  { intros x Hx. by destruct (Hzero x Hx) as (_ & ? & ?). }
  cbn [set_phase gc_zero_ref_count_list]. rewrite E4. cbn [mbind option_bind]. eexists. split; [done|].
  cbn [set_lists set_phase heap rc torn gc_obj_list tmp_obj_list gc_zero_ref_count_list] in *. rewrite El4, El3. split_and!; try done.
  - by rewrite Et4.
  - intros p Hp. apply Hlv in Hp as Hp2. destruct (Hout p) as (-> & -> & ->); [intros Hpz; apply Hzero in Hpz as [? _]; by apply (G1 p)|].
    destruct (fi_live _ _ _ _ _ _ _ _ _ Hi3 p Hp2) as (HpA & -> & ->). rewrite Hh, Ht. split_and!; [done| |].
    + by destruct (typed_obj rt p typed (Hlisted p Hp2)) as (_ & _ & ? & _).
    + destruct (fi_count _ _ _ _ _ _ _ _ _ Hi3 p HpA) as (m & -> & Hm). rewrite Hm by done. do 2 f_equal. f_equal.
      rewrite <- Hholds. unfold owed. change (nrefs (target <$> []) p) with 0. rewrite Z.add_0_r. unfold holds.
      rewrite (nrefs_perm _ (gc_obj_list rt2 ≫= fun q => target <$> frefs (heap rt3) q) p).
      * pose proof (owed_ext (heap rt3) (heap rt2) (gc_obj_list rt2) [] p) as He. unfold owed, holds in He. change (nrefs (target <$> []) p) with 0 in He.
        rewrite !Z.add_0_r in He. apply He. intros q Hq. by apply (fi_live _ _ _ _ _ _ _ _ _ Hi3).
      * assert (A ≡ₚ gc_obj_list rt2) as ->; [|done]. apply NoDup_Permutation; [apply (fi_NoDup _ _ _ _ _ _ _ _ _ Hi3)|done|done].
  - intros p Hp Hnl. assert (Hgp : p ∈ tmp_obj_list rt2) by (by apply Hgb). destruct (decide (p ∈ gc_zero_ref_count_list rt3)) as [Hpz|Hpz].
    + destruct (fi_weak _ _ _ _ _ _ _ _ _ Hi3 p Hgp) as [_ Hw]. specialize (Hin p Hpz). unfold weakly_held in Hin. cbn [set_phase torn] in Hin.
      assert (Hheap : heap rt3 !! p = None).
      { destruct (heap rt3 !! p) eqn:E; [|done]. destruct (fi_dom _ _ _ _ _ _ _ _ _ Hi3 p Hgp) as [Ha|?%not_elem_of_nil]; [by rewrite E| |done]. by destruct (Hup p Hg3 Htmp3 Hgp). }
      destruct (torn rt3 !! p) as [[w|]|]; [destruct (w =? 0) eqn:Ew|..]; cbn [negb] in Hin;
        try (by destruct Hin as (-> & -> & ->)).
      destruct Hin as [-> _]. split; [done|]. destruct (Hw w eq_refl) as (o & Eo & Hwo). rewrite Hh in Eo. unfold has_weakrefs. rewrite Eo, Hwo, Ew. done.
    + destruct (Hout p Hpz) as (-> & -> & ->).
      assert (Hheap : heap rt3 !! p = None).
      { destruct (heap rt3 !! p) eqn:E; [|done]. destruct (fi_dom _ _ _ _ _ _ _ _ _ Hi3 p Hgp) as [Ha|?%not_elem_of_nil]; [by rewrite E| |done]. by destruct (Hup p Hg3 Htmp3 Hgp). }
      split; [done|]. intros _. assert (Htn : torn rt3 !! p = None).
      { destruct (torn rt3 !! p) eqn:E; [|done]. destruct (fi_torn _ _ _ _ _ _ _ _ _ Hi3 p Hgp) as [_ ?]; [by rewrite E|done]. }
      split; [|done]. destruct (rc rt3 !! p) eqn:E; [|done]. destruct (fi_gone _ _ _ _ _ _ _ _ _ Hi3 p Hgp) as [Ha|[?%not_elem_of_nil|[_ Hk]]]; [by rewrite E| |done|].
      * by destruct (Hup p Hg3 Htmp3 Hgp).
      * rewrite Htn in Hk. by destruct Hk.
  - intros p Hp. assert (Hpt : p ∉ tmp_obj_list rt2) by (intros [? _]%Hgb; done). destruct (Hout p) as (_ & -> & ->); [by intros [? _]%Hzero|].
    destruct (fi_frame _ _ _ _ _ _ _ _ _ Hi3 p) as [-> ->]; [by intros ?%Hlisted|done|]. rewrite Ht, Hrc, decide_False by done. split; [|done]. by destruct (rc rt !! p).
Qed.

End Collect.

(** What is in use stays so, with the same references from outside. *)
Lemma collect_ready rt rt' : gc_ready rt -> gc_typed rt ->
  (forall p, p ∈ gc_obj_list rt' <-> in_use rt p) -> NoDup (gc_obj_list rt') ->
  (forall p, in_use rt p -> heap rt' !! p = heap rt !! p /\ torn rt' !! p = None /\
    rc rt' !! p = Some (mk_rc (external rt p + refs (heap rt) (gc_obj_list rt') p) false)) ->
  gc_ready rt' /\ gc_typed rt' /\ (forall p, in_use rt' p <-> in_use rt p) /\ (forall p, in_use rt p -> external rt' p = external rt p).
Proof.
  intros Hr Ht Hlv Hn Hst.
  assert (Hch : forall p, in_use rt p -> children (heap rt') p = children (heap rt) p) by (intros p Hp; unfold children; by destruct (Hst p Hp) as (-> & _)).
  assert (Hrefs : forall x, refs (heap rt') (gc_obj_list rt') x = refs (heap rt) (gc_obj_list rt') x).
  { intros x. unfold refs. f_equal. assert (Hg : forall l, (forall p, p ∈ l -> in_use rt p) -> l ≫= children (heap rt') = l ≫= children (heap rt)); [|apply Hg; intros; by apply Hlv].
    intros l. induction l as [|p l IH]; intros Hl; [done|]. cbn. rewrite Hch, IH; [done| |apply Hl; left]. intros q Hq. apply Hl. by right. }
  assert (Hext : forall p, in_use rt p -> external rt' p = external rt p).
  { intros p Hp. unfold external at 1. destruct (Hst p Hp) as (_ & _ & ->). cbn. rewrite Hrefs. lia. }
  assert (Hext0 : forall p, in_use rt p -> 0 <= external rt p).
  { intros p Hp. apply in_use_listed in Hp; [|done]. unfold external. destruct (ready_obj rt p Hr Hp) as (_ & c & _ & -> & _ & ? & _). cbn. lia. }
  assert (Hready : gc_ready rt').
  { split; [done|]. apply forallb_forall. intros p Hp%list_elem_of_In%Hlv. pose proof (in_use_listed _ _ Hr Hp) as Hpl.
    unfold obj_ready. destruct (Hst p Hp) as (Ehp & _ & ->). rewrite Ehp. destruct (ready_obj rt p Hr Hpl) as (gp & _ & Egp & _). rewrite Egp. cbn [ref_count mark negb andb].
    rewrite Hrefs. pose proof (Hext0 p Hp). pose proof (refs_nonneg (heap rt) (gc_obj_list rt') p).
    assert (0 < external rt p + refs (heap rt) (gc_obj_list rt') p).
    { destruct Hp as [p _ ?|p q Hp Hq]; [lia|]. assert (0 < refs (heap rt) (gc_obj_list rt') q) by (apply refs_pos; exists p; split; [by apply Hlv|done]). lia. }
    apply andb_true_iff. split; [apply andb_true_iff; split; [by apply Z.ltb_lt|apply Z.leb_le; lia]|].
    apply forallb_forall. intros q Hq%list_elem_of_In. apply bool_decide_eq_true, Hlv. apply (live_step _ _ _ p); [done|]. unfold children. by rewrite Egp. }
  split_and!; try done.
  - apply forallb_forall. intros p Hp%list_elem_of_In%Hlv. unfold obj_typed. destruct (Hst p Hp) as (-> & -> & _).
    destruct (typed_obj rt p Ht (in_use_listed _ _ Hr Hp)) as (gp & Egp & _ & Hok & Hpt). rewrite Egp. rewrite Hok. cbn [andb].
    apply forallb_forall. intros r Hr'%list_elem_of_In. destruct (Hpt r Hr') as (g & Eg & Hg).
    assert (in_use rt (target r)) as Hu.
    { apply (live_step _ _ _ p); [done|]. unfold children. rewrite Egp, <- (free_refs_mark gp Hok). apply list_elem_of_fmap. by exists r. }
    destruct (Hst _ Hu) as (-> & _). by rewrite Eg.
  - intros p. split; [intros Hp; by apply Hlv, in_use_listed|]. induction 1 as [p Hp He|p q Hp IH Hq].
    + assert (in_use rt p) by (by apply live_root). apply live_root; [by apply Hlv|]. fold (external rt' p). by rewrite Hext.
    + apply (live_step _ _ _ p); [done|]. by rewrite Hch.
Qed.

Module GcFree_props.

(** C1. A collection frees the garbage and nothing else: it ends without a failed
    assertion and without an access to a freed block, the objects in use keep
    their contents and are exactly the ones left in gc_obj_list, the contents
    of every other object are gone and so is its block, unless weak references
    still need it. *)
Theorem gc_collects_garbage rt : gc_ready rt -> gc_typed rt -> gc_zero_ref_count_list rt = [] ->
  exists rt', JS_RunGCInternal rt = Some rt' /\
    (forall p, p ∈ gc_obj_list rt' <-> in_use rt p) /\
    (forall p, in_use rt p -> heap rt' !! p = heap rt !! p) /\
    (forall p, p ∈ gc_obj_list rt -> ~ in_use rt p ->
      heap rt' !! p = None /\ (has_weakrefs rt p = false -> rc rt' !! p = None)) /\
    (forall p, p ∉ gc_obj_list rt -> rc rt' !! p = rc rt !! p).
Proof.
  intros Hr Ht Hz. destruct (collect_spec rt Hr Ht Hz) as (rt' & E & Hlv & _ & _ & _ & Hst & Hgb & Hfr). exists rt'. split_and!; try done.
  - intros p Hp. by apply Hst.
  - intros p Hp Hnl. destruct (Hgb p Hp Hnl) as [? Hw]. split; [done|]. intros Hno. by apply Hw.
  - intros p Hp. by apply Hfr.
Qed.

Lemma two_cycle_typed : gc_typed Gc_props.two_cycle.
Proof. by vm_compute. Qed.

Lemma gc_collects_garbage_witness : exists rt', JS_RunGCInternal Gc_props.two_cycle = Some rt' /\
  (forall p, p ∈ gc_obj_list rt' <-> in_use Gc_props.two_cycle p).
Proof.
  destruct (gc_collects_garbage Gc_props.two_cycle Gc_props.two_cycle_ready two_cycle_typed eq_refl) as (rt' & E & H & _).
  exists rt'. split; [exact E|exact H].
Defined.

(** C34. A collection keeps the heap well formed: the lists it works with are empty
    again, every reference leads to an object of its type, the count of every
    object is the references from objects plus the same number from outside,
    and the same objects are in use; so a second collection frees nothing. *)
Theorem gc_keeps_heap_typed rt : gc_ready rt -> gc_typed rt -> gc_zero_ref_count_list rt = [] ->
  exists rt', JS_RunGCInternal rt = Some rt' /\ gc_ready rt' /\ gc_typed rt' /\ tmp_obj_list rt' = [] /\ gc_zero_ref_count_list rt' = [] /\
    (forall p, in_use rt' p <-> in_use rt p) /\ (forall p, in_use rt p -> external rt' p = external rt p).
Proof.
  intros Hr Ht Hz. destruct (collect_spec rt Hr Ht Hz) as (rt' & E & Hlv & Hn & Htmp & Hzero & Hst & _).
  destruct (collect_ready rt rt' Hr Ht Hlv Hn Hst) as (H1 & H2 & H3 & H4). by exists rt'.
Qed.

Lemma gc_keeps_heap_typed_witness : exists rt', JS_RunGCInternal Gc_props.two_cycle = Some rt' /\ gc_typed rt'.
Proof.
  destruct (gc_keeps_heap_typed Gc_props.two_cycle Gc_props.two_cycle_ready two_cycle_typed eq_refl) as (rt' & E & _ & H & _).
  exists rt'. split; [exact E|exact H].
Defined.

(** On the example only the objects in use are left. *)
Example two_cycle_collected : (rt ← JS_RunGCInternal Gc_props.two_cycle; Some (gc_obj_list rt, (fun p => rc rt !! p) <$> [1; 2; 3; 4; 5]%positive)) =
  Some ([1; 5; 2]%positive, [Some (mk_rc 1 false); Some (mk_rc 1 false); None; None; Some (mk_rc 2 false)]).
Proof. by vm_compute. Qed.

(** A realm that only its own global object 1 leads to: the context 2 with the
    module 3, the exported variable 4 of it, the function 5 waiting in it, and
    the shapes 6 and 7.  The object 1 has a weak reference. *)
Definition realm_cycle : JSRuntime :=
  let val p := JS_MKPTR JS_TAG_OBJECT p in
  let u := JS_UNDEFINED in
  mk_rt (list_to_map [
      (1%positive, JS_GC_OBJ_TYPE_JS_OBJECT (mk_object 6 [(1, prop_init 2); (2, prop_var_ref 4)] class_none 1));
      (2%positive, JS_GC_OBJ_TYPE_JS_CONTEXT (mk_context [3%positive] (val 1%positive) u u u u [] [] u u u u u u u u u (Some 6%positive) (Some 7%positive) None None None None None));
      (3%positive, JS_GC_OBJ_TYPE_MODULE (mk_module [] [export_local (Some 4%positive)] (val 1%positive) u u u u u u u));
      (4%positive, JS_GC_OBJ_TYPE_VAR_REF (var_ref_attached (Some 5%positive)));
      (5%positive, JS_GC_OBJ_TYPE_ASYNC_FUNCTION (mk_async false (val 1%positive) u (Some [JS_MKPTR JS_TAG_MODULE 3]) u u));
      (6%positive, JS_GC_OBJ_TYPE_SHAPE (Some 1%positive)); (7%positive, JS_GC_OBJ_TYPE_SHAPE None)])
    (list_to_map [(1%positive, mk_rc 4 false); (2%positive, mk_rc 1 false); (3%positive, mk_rc 2 false); (4%positive, mk_rc 2 false);
      (5%positive, mk_rc 1 false); (6%positive, mk_rc 2 false); (7%positive, mk_rc 1 false)])
    ∅ [7; 6; 5; 4; 3; 2; 1]%positive [] [] JS_GC_PHASE_NONE.

Example realm_collected : gc_ready realm_cycle /\ gc_typed realm_cycle /\
  (rt ← JS_RunGCInternal realm_cycle; Some (gc_obj_list rt, (fun p => bool_decide (is_Some (rc rt !! p))) <$> [1; 2; 3; 4; 5; 6; 7]%positive)) =
  Some ([], [true; false; false; false; false; false; false]).
Proof. split; [split; [apply (bool_decide_unpack _)|]|split]; by vm_compute. Qed.

End GcFree_props.
