(* ===== verification/RefCount.v ===== *)
(** * Giving up a reference outside of a collection

    JS_FreeValue of src/dynajs.h with free_zero_refcount of
    src/object/shapes_objects_gc.inc.c, defined in [GcFree]: when the last
    reference to an object goes, the object is freed and so is, one after the
    other, every object whose count drops to zero with it.

    The invariant of the loop follows the pattern of the one of gc_free_cycles,
    with exact counts: nothing refers to an object that is being freed. *)
From Stdlib Require Import ZArith Lia.
From stdpp Require Import base numbers list option gmap.
From S2P Require Import Prelude Gc GcFree.

Section Dropping.
Variables (rt0 : JSRuntime) (ext : ptr -> Z).

Definition leads (A : list ptr) (r : gref) : Prop := target r ∈ A /\ exists gp, heap rt0 !! target r = Some gp /\ points r gp = true.

(** What the count of [x] has to be: the references from outside, those of the
    objects [A] and those in [W]. *)
Definition due (A : list ptr) (W : list gref) (x : ptr) : Z := ext x + owed (heap rt0) A W x.

(** [A]: the objects not given up yet; [P]: those being given up; [W]: the
    references they still have to give up. *)
Record zinv (A : list ptr) (W : list gref) (P : list ptr) (rt : JSRuntime) : Prop := {
  zi_NoDup : NoDup A /\ NoDup P;
  zi_A : forall x, x ∈ A -> x ∈ gc_obj_list rt0 /\ heap rt !! x = heap rt0 !! x /\ is_Some (heap rt0 !! x) /\ torn rt !! x = None /\ 0 <= ext x;
  zi_P : forall x, x ∈ P -> x ∈ gc_obj_list rt0 /\ (x ∉ A) /\ (exists m, rc rt !! x = Some (mk_rc 0 m)) /\ owed (heap rt0) A W x = 0;
  zi_refs : forall p r, p ∈ A -> r ∈ frefs (heap rt0) p -> leads A r;
  zi_work : forall r, r ∈ W -> leads A r;
  zi_count : forall x, x ∈ A -> exists m, rc rt !! x = Some (mk_rc (due A W x) m) /\ (m = true -> x ∈ gc_zero_ref_count_list rt);
  zi_cells : forall x gp, x ∈ A -> heap rt0 !! x = Some gp -> cell gp = true -> 0 < due A W x;
  zi_lists : NoDup (gc_obj_list rt) /\ NoDup (gc_zero_ref_count_list rt);
  zi_obj : forall x, x ∈ gc_obj_list rt -> x ∈ P \/ x ∈ A /\ 0 < due A W x;
  zi_zero : forall x, x ∈ gc_zero_ref_count_list rt -> x ∈ P \/ x ∈ A /\ due A W x = 0;
  zi_listed : forall x, x ∈ A -> 0 < due A W x -> x ∈ gc_obj_list rt;
  zi_waits : forall x, x ∈ A -> due A W x = 0 -> x ∈ gc_zero_ref_count_list rt;
  zi_gone : forall x, x ∈ gc_obj_list rt0 -> x ∉ A -> x ∉ P -> heap rt !! x = None /\ (has_weakrefs rt0 x = false -> rc rt !! x = None);
  zi_frame : forall x, x ∉ gc_obj_list rt0 -> rc rt !! x = rc rt0 !! x;
  zi_live : forall x, live (heap rt0) (gc_obj_list rt0) ext x -> x ∈ A
}.

Hypothesis typed : gc_typed rt0.

Lemma due_nonneg A W P rt x : zinv A W P rt -> x ∈ A -> 0 <= due A W x.
Proof. intros Hi Hx. destruct (zi_A _ _ _ _ Hi x Hx) as (_ & _ & _ & _ & ?). unfold due. pose proof (owed_nonneg (heap rt0) A W x). lia. Qed.

Lemma due_head A r W : due A (r :: W) (target r) = 1 + due A W (target r).
Proof. unfold due. rewrite owed_cons, decide_True by done. lia. Qed.

Lemma owed_other A r W x : x <> target r -> owed (heap rt0) A (r :: W) x = owed (heap rt0) A W x.
Proof. intros Hx. rewrite owed_cons, decide_False by congruence. lia. Qed.

Lemma due_other A r W x : x <> target r -> due A (r :: W) x = due A W x.
Proof. intros Hx. unfold due. by rewrite owed_other. Qed.

Lemma zinv_phase A W P rt ph : zinv A W P rt -> zinv A W P (set_phase rt ph).
Proof. intros [H1 H2 H3 H4 H5 H6 H7 H8 H9 H10 H11 H12 H13 H14 H15]. by split. Qed.

(** An object that nothing refers to cannot be reached. *)
Lemma due_zero_dead A W W0 P rt x : zinv A W0 P rt -> x ∈ A -> due A W x = 0 -> ~ live (heap rt0) (gc_obj_list rt0) ext x.
Proof.
  intros Hi Hx H0 Hl. destruct (zi_A _ _ _ _ Hi x Hx) as (_ & _ & _ & _ & Hext). unfold due in H0.
  pose proof (owed_nonneg (heap rt0) A W x) as Hn. destruct Hl as [x _ ?|p x Hp Hc]; [lia|].
  assert (HpA : p ∈ A) by (by apply (zi_live _ _ _ _ Hi)). destruct (zi_A _ _ _ _ Hi p HpA) as (Hpl & _).
  rewrite <- (typed_children rt0 p typed Hpl) in Hc. apply list_elem_of_fmap in Hc as (r & -> & Hr).
  assert (E : owed (heap rt0) A W (target r) = 0) by lia. by destruct (owed_zero_A (heap rt0) A W (target r) p r E HpA Hr).
Qed.

(** One reference given up: its count is decremented, and other references to
    the object are left. *)
Lemma zinv_dec A r W P rt h : zinv A (r :: W) P rt -> rc rt !! target r = Some h -> 0 < ref_count h - 1 ->
  zinv A W P (set_rc rt (target r) (mk_rc (ref_count h - 1) (mark h))).
Proof.
  intros [H1 H2 H3 H4 H5 H6 H7 H8 H9 H10 H11 H12 H13 H14 H15] Eh Hpos.
  assert (Hr : leads A r) by (apply H5; left). destruct Hr as [Ha _]. pose proof (due_head A r W) as Hown.
  destruct (H6 _ Ha) as (m & Em & Hm). rewrite Eh in Em. injection Em as ->. cbn [ref_count mark] in *.
  assert (Hsign : forall x, x ∈ A -> (0 < due A (r :: W) x <-> 0 < due A W x) /\ (due A (r :: W) x = 0 <-> due A W x = 0)).
  { intros x Hx. destruct (decide (x = target r)) as [->|Hxr]; [lia|by rewrite due_other]. }
  split; cbn [set_rc heap rc torn gc_obj_list gc_zero_ref_count_list gc_phase]; try done.
  - intros x Hx. destruct (H3 x Hx) as (? & ? & ? & ?). assert (x <> target r) by (by intros ->).
    rewrite lookup_insert_ne, <- (owed_other A r) by done. by split_and!.
  - intros r' Hr'. apply H5. by right.
  - intros x Hx. destruct (decide (x = target r)) as [->|Hxr].
    + rewrite lookup_insert_eq. exists m. split; [do 2 f_equal; lia|done].
    + rewrite lookup_insert_ne, <- (due_other A r) by done. by apply H6.
  - intros x gp Hx Ex Hc. apply Hsign; [done|]. by apply (H7 x gp).
  - intros x Hx. destruct (H9 x Hx) as [?|[HxA ?]]; [by left|right]. split; [done|]. by apply Hsign.
  - intros x Hx. destruct (H10 x Hx) as [?|[HxA ?]]; [by left|right]. split; [done|]. by apply Hsign.
  - intros x Hx ?. apply H11; [done|]. by apply Hsign.
  - intros x Hx ?. apply H12; [done|]. by apply Hsign.
  - intros x Hx HxA HxP. destruct (H13 x Hx HxA HxP) as [? Hw]. split; [done|]. intros Hno. rewrite lookup_insert_ne; [by apply Hw|]. by intros <-.
  - intros x Hx. rewrite lookup_insert_ne; [by apply H14|]. intros <-. by apply Hx, H2.
Qed.

(** The last reference to an object given up: the object waits to be freed. *)
Lemma zinv_wait A r W P rt h gp b : zinv A (r :: W) P rt -> rc rt !! target r = Some h -> ref_count h - 1 = 0 -> heap rt0 !! target r = Some gp -> cell gp = false ->
  zinv A W P (set_rc (add_head_zero (list_del rt (target r)) (target r)) (target r) (mk_rc 0 b)).
Proof.
  intros [H1 H2 H3 H4 H5 H6 H7 [H8a H8b] H9 H10 H11 H12 H13 H14 H15] Eh Hz Egp Hcell.
  assert (Hr : leads A r) by (apply H5; left). destruct Hr as [Ha _]. pose proof (due_head A r W) as Hown.
  destruct (H6 _ Ha) as (m & Em & Hm). rewrite Eh in Em. injection Em as ->. cbn [ref_count mark] in *.
  assert (Hin : forall x, x ∈ target r :: unlink (target r) (gc_zero_ref_count_list rt) <-> x = target r \/ x ∈ gc_zero_ref_count_list rt).
  { intros x. rewrite elem_of_cons, elem_unlink. destruct (decide (x = target r)); tauto. }
  split; cbn [set_rc add_head_zero list_del set_lists heap rc torn gc_obj_list gc_zero_ref_count_list gc_phase]; try done.
  - intros x Hx. destruct (H3 x Hx) as (? & ? & ? & ?). assert (x <> target r) by (by intros ->).
    rewrite lookup_insert_ne, <- (owed_other A r) by done. by split_and!.
  - intros r' Hr'. apply H5. by right.
  - intros x Hx. destruct (decide (x = target r)) as [->|Hxr].
    + rewrite lookup_insert_eq. exists b. split; [do 2 f_equal; lia|]. intros _. apply Hin. by left.
    + rewrite lookup_insert_ne, <- (due_other A r) by done. destruct (H6 x Hx) as (m' & E' & Hm'). exists m'. split; [done|]. intros Hmt. apply Hin. right. by apply Hm'.
  - intros x gpx Hx Ex Hc. destruct (decide (x = target r)) as [->|Hxr]; [congruence|]. rewrite <- (due_other A r) by done. by apply (H7 x gpx).
  - split; [by apply unlink_NoDup|]. constructor; [by intros [_ ?]%elem_unlink|by apply unlink_NoDup].
  - intros x [Hx Hxr]%elem_unlink. rewrite <- (due_other A r) by done. by apply H9.
  - intros x [->|Hx]%Hin; [right; split; [done|lia]|]. destruct (decide (x = target r)) as [->|Hxr]; [right; split; [done|lia]|].
    rewrite <- (due_other A r) by done. by apply H10.
  - intros x Hx Hd. rewrite elem_unlink. destruct (decide (x = target r)) as [->|Hxr]; [lia|]. rewrite <- (due_other A r) in Hd by done. split; [by apply H11|done].
  - intros x Hx Hd. apply Hin. destruct (decide (x = target r)) as [->|Hxr]; [by left|right]. rewrite <- (due_other A r) in Hd by done. by apply H12.
  - intros x Hx HxA HxP. destruct (H13 x Hx HxA HxP) as [? Hw]. split; [done|]. intros Hno. rewrite lookup_insert_ne; [by apply Hw|]. by intros <-.
  - intros x Hx. rewrite lookup_insert_ne; [by apply H14|]. intros <-. by apply Hx, H2.
Qed.

(** An object starts to be given up when nothing refers to it any more: one
    that has waited, with [W0] the same as [W], or a cell with the last
    reference to it, the head of [W0]. *)
Lemma zinv_enter A W W0 P rt p gp m : zinv A W0 P rt -> p ∈ A -> heap rt0 !! p = Some gp -> due A W p = 0 ->
  (forall r, r ∈ W -> r ∈ W0) -> (forall x, x <> p -> owed (heap rt0) A W0 x = owed (heap rt0) A W x) ->
  zinv (unlink p A) (free_refs gp ++ W) (p :: P) (set_rc rt p (mk_rc 0 m)).
Proof.
  intros Hi Hp Egp H0 HW HW0. pose proof (due_zero_dead _ _ _ _ _ _ Hi Hp H0) as Hdead.
  destruct Hi as [[H1a H1b] H2 H3 H4 H5 H6 H7 H8 H9 H10 H11 H12 H13 H14 H15].
  assert (Efr : frefs (heap rt0) p = free_refs gp) by (unfold frefs; by rewrite Egp).
  assert (How : forall x, owed (heap rt0) (unlink p A) (free_refs gp ++ W) x = owed (heap rt0) A W x) by (intros x; rewrite <- Efr; by apply owed_move).
  assert (Hdue : forall x, x <> p -> due (unlink p A) (free_refs gp ++ W) x = due A W0 x) by (intros x Hx; unfold due; by rewrite How, HW0).
  assert (HpP : p ∉ P) by (intros Hin; by apply H3 in Hin as (_ & ? & _)).
  assert (Hop : owed (heap rt0) A W p = 0) by (destruct (H2 p Hp) as (_ & _ & _ & _ & ?); unfold due in H0; pose proof (owed_nonneg (heap rt0) A W p); lia).
  assert (Hl : forall r, leads A r -> target r <> p -> leads (unlink p A) r) by (intros r [Ha ?] Hne; split; [by apply elem_unlink|done]).
  split; cbn [set_rc heap rc torn gc_obj_list gc_zero_ref_count_list]; try done.
  - split; [by apply unlink_NoDup|by constructor].
  - intros x [Hx _]%elem_unlink. by apply H2.
  - intros x. rewrite elem_unlink, How, elem_of_cons. destruct (decide (x = p)) as [->|Hxp].
    + rewrite lookup_insert_eq. intros _. split_and!; [by apply H2|tauto|by exists m|done].
    + intros [?|Hx]; [done|]. rewrite lookup_insert_ne, <- HW0 by done. destruct (H3 x Hx) as (? & ? & ? & ?). split_and!; tauto.
  - intros q r [Hq _]%elem_unlink Hr. apply Hl; [by apply (H4 q)|]. by apply (owed_zero_A (heap rt0) A W p q r).
  - intros r [Hr|Hr]%elem_of_app; apply Hl.
    + apply (H4 p); [done|by rewrite Efr].
    + apply (owed_zero_A (heap rt0) A W p p r); [done|done|by rewrite Efr].
    + by apply H5, HW.
    + by apply (owed_zero_W (heap rt0) A W p r).
  - intros x [Hx Hxp]%elem_unlink. rewrite Hdue, lookup_insert_ne by done. by apply H6.
  - intros x gpx [Hx Hxp]%elem_unlink. rewrite Hdue by done. by apply H7.
  - intros x Hx. rewrite elem_of_cons, elem_unlink. destruct (decide (x = p)); [tauto|]. rewrite Hdue by done. destruct (H9 x Hx); tauto.
  - intros x Hx. rewrite elem_of_cons, elem_unlink. destruct (decide (x = p)); [tauto|]. rewrite Hdue by done. destruct (H10 x Hx); tauto.
  - intros x [Hx Hxp]%elem_unlink. rewrite Hdue by done. by apply H11.
  - intros x [Hx Hxp]%elem_unlink. rewrite Hdue by done. by apply H12.
  - intros x Hx. rewrite elem_of_cons, elem_unlink. intros HxA HxP. assert (x <> p) by tauto. rewrite lookup_insert_ne by done. apply H13; tauto.
  - intros x Hx. rewrite lookup_insert_ne; [by apply H14|]. intros <-. by apply Hx, H2.
  - intros x Hx. apply elem_unlink. split; [by apply H15|]. by intros ->.
Qed.

(** All its references given up, its contents go; the block stays when weak
    references need it. *)
Lemma zinv_leave A W P rt p rt' : zinv A W (p :: P) rt ->
  (forall x, x <> p -> heap rt' !! x = heap rt !! x /\ rc rt' !! x = rc rt !! x /\ torn rt' !! x = torn rt !! x) ->
  heap rt' !! p = None -> (has_weakrefs rt0 p = false -> rc rt' !! p = None) ->
  gc_obj_list rt' = unlink p (gc_obj_list rt) -> gc_zero_ref_count_list rt' = unlink p (gc_zero_ref_count_list rt) ->
  zinv A W P rt'.
Proof.
  intros [[H1a H1b] H2 H3 H4 H5 H6 H7 [H8a H8b] H9 H10 H11 H12 H13 H14 H15] Hne Hp Hw El Ez.
  destruct (H3 p ltac:(left)) as (Hpl & HpA & _ & Hop). apply NoDup_cons in H1b as [HpP H1b].
  assert (HA : forall x, x ∈ A -> x <> p) by (by intros x Hx ->). assert (HP : forall x, x ∈ P -> x <> p) by (by intros x Hx ->).
  split; rewrite ?El, ?Ez; try done.
  - intros x Hx. destruct (Hne x (HA x Hx)) as (-> & _ & ->). by apply H2.
  - intros x Hx. destruct (Hne x (HP x Hx)) as (_ & -> & _). apply H3. by right.
  - intros x Hx. destruct (Hne x (HA x Hx)) as (_ & -> & _). destruct (H6 x Hx) as (m & Em & Hm). exists m. split; [done|]. intros Ht. apply elem_unlink. split; [by apply Hm|by apply HA].
  - split; by apply unlink_NoDup.
  - intros x [Hx Hxp]%elem_unlink. destruct (H9 x Hx) as [[?|?]%elem_of_cons|?]; tauto.
  - intros x [Hx Hxp]%elem_unlink. destruct (H10 x Hx) as [[?|?]%elem_of_cons|?]; tauto.
  - intros x Hx Hd. apply elem_unlink. split; [by apply H11|by apply HA].
  - intros x Hx Hd. apply elem_unlink. split; [by apply H12|by apply HA].
  - intros x Hx HxA HxP. destruct (decide (x = p)) as [->|Hxp]; [done|]. destruct (Hne x Hxp) as (-> & -> & _). apply H13; [done|done|].
    by intros [?|?]%elem_of_cons.
  - intros x Hx. destruct (Hne x) as (_ & -> & _); [by intros ->|]. by apply H14.
Qed.

(** *** Giving up references, one after the other *)

Definition shrinks (rt rt' : JSRuntime) : Prop := gc_phase rt' = JS_GC_PHASE_DECREF /\ dom (heap rt') ⊆ dom (heap rt).

Definition drops (f : JSRuntime -> gref -> option JSRuntime) (Q : gref -> Prop) : Prop := forall A W P rt r,
  Q r -> gc_phase rt = JS_GC_PHASE_DECREF -> zinv A (r :: W) P rt ->
  exists A' rt', f rt r = Some rt' /\ zinv A' W P rt' /\ shrinks rt rt'.

Lemma each_drops f Q l A W P rt : drops f Q -> Forall Q l -> gc_phase rt = JS_GC_PHASE_DECREF -> zinv A (l ++ W) P rt ->
  exists A' rt', each f l rt = Some rt' /\ zinv A' W P rt' /\ shrinks rt rt'.
Proof.
  intros Hf Hl. revert A rt. induction Hl as [|r l Hr Hl IH]; intros A rt Hph Hi; cbn [each app] in *; [by exists A, rt|].
  destruct (Hf _ _ _ _ _ Hr Hph Hi) as (A1 & rt1 & -> & Hi1 & Hp1 & Hs1). cbn [mbind option_bind].
  destruct (IH A1 rt1 Hp1 Hi1) as (A2 & rt2 & E2 & Hi2 & Hp2 & Hs2). exists A2, rt2. split_and!; [done..|]. split; [done|by etrans].
Qed.

Lemma work_header A r W P rt : zinv A (r :: W) P rt ->
  exists gp m, target r ∈ A /\ heap rt !! target r = Some gp /\ heap rt0 !! target r = Some gp /\ points r gp = true /\
    rc rt !! target r = Some (mk_rc (1 + due A W (target r)) m) /\ 0 <= due A W (target r).
Proof.
  intros Hi. destruct (zi_work _ _ _ _ Hi r) as (Ha & gp & Egp & Hpt); [left|]. destruct (zi_A _ _ _ _ Hi _ Ha) as (_ & Eh & _ & _ & Hx).
  destruct (zi_count _ _ _ _ Hi _ Ha) as (m & Em & _). rewrite due_head in Em. exists gp, m. rewrite Eh. split_and!; try done.
  unfold due. pose proof (owed_nonneg (heap rt0) A W (target r)). lia.
Qed.

Lemma set_rc_move rt p h1 h2 : set_rc (add_head_zero (list_del (set_rc rt p h1) p) p) p h2 = set_rc (add_head_zero (list_del rt p) p) p h2.
Proof. unfold set_rc, add_head_zero, list_del, set_lists. cbn. by rewrite insert_insert_eq. Qed.

(** JS_FreeValueRT and async_func_free outside of a collection, before the
    objects whose count is zero are freed. *)
Lemma release0_split k A W P rt r : leaf r = true -> gc_phase rt <> JS_GC_PHASE_REMOVE_CYCLES -> zinv A (r :: W) P rt ->
  exists rt1, zinv A W P rt1 /\ gc_phase rt1 = gc_phase rt /\ heap rt1 = heap rt /\
    release0 k rt r = if due A W (target r) =? 0 then match gc_phase rt with JS_GC_PHASE_NONE => k rt1 | _ => Some rt1 end else Some rt1.
Proof.
  intros Hl Hph Hi. destruct (work_header _ _ _ _ _ Hi) as (gp & m & Ha & _ & Egp & Hpt & Eh & H0).
  assert (Hcell : cell gp = false) by (by rewrite (points_cell r gp Hpt), Hl).
  assert (Ec : 1 + due A W (target r) - 1 = due A W (target r)) by lia.
  destruct (Z.eqb_spec (due A W (target r)) 0) as [Hz|Hz].
  - rewrite Hz in Eh. exists (set_rc (add_head_zero (list_del rt (target r)) (target r)) (target r) (mk_rc 0 (if r is to_value _ then true else m))).
    split_and!; [by apply (zinv_wait A r W P rt (mk_rc 1 m) gp)|done|done|].
    destruct r as [p|p|p|p|p]; try done; cbn [release0 target] in *; unfold JS_FreeValueRT, async_func_free, __JS_FreeValueRT, js_rc; rewrite Eh;
      cbn [mbind option_bind ref_count mark set_rc add_head_zero list_del set_lists gc_phase rc Z.add Z.sub Z.opp Z.pos_sub Z.leb Z.eqb Z.compare];
      destruct (gc_phase rt); try done; rewrite lookup_insert_eq; cbn [mbind option_bind ref_count]; change (1 + 0 - 1) with 0; cbn [Z.leb Z.compare]; by rewrite set_rc_move.
  - exists (set_rc rt (target r) (mk_rc (due A W (target r)) m)). split_and!; [|done|done|].
    + pose proof (zinv_dec A r W P rt _ Hi Eh) as Hd. cbn [ref_count mark] in Hd. rewrite Ec in Hd. apply Hd. lia.
    + destruct r as [p|p|p|p|p]; try done; cbn [release0 target] in *; unfold JS_FreeValueRT, async_func_free, js_rc; rewrite Eh; cbn [mbind option_bind ref_count mark]; rewrite Ec.
      * rewrite (proj2 (Z.leb_gt _ _)) by lia. done.
      * by rewrite (proj2 (Z.eqb_neq _ _)).
Qed.

Lemma release0_drops k : drops (release0 k) (fun r => leaf r = true).
Proof.
  intros A W P rt r Hl Hph Hi. destruct (release0_split k A W P rt r Hl ltac:(congruence) Hi) as (rt1 & Hi1 & Hp1 & Hh1 & ->).
  exists A, rt1. rewrite Hph in *. split_and!; [by destruct (_ =? 0)|done|]. split; [done|]. by rewrite Hh1.
Qed.

(** Giving up the last reference to a cell frees it. *)
Lemma cell_drops f Q A W P rt r gp h : drops f Q -> gc_phase rt = JS_GC_PHASE_DECREF -> zinv A (r :: W) P rt -> leaf r = false ->
  heap rt !! target r = Some gp -> rc rt !! target r = Some h -> Forall Q (free_refs gp) ->
  let rt1 := set_rc rt (target r) (mk_rc (ref_count h - 1) (mark h)) in
  0 < ref_count h /\
  if ref_count h - 1 =? 0
  then exists A' rt', free_cell f rt1 (target r) (free_refs gp) = Some rt' /\ zinv A' W P rt' /\ shrinks rt rt'
  else zinv A W P rt1.
Proof.
  intros Hf Hph Hi Hl Egp Eh HQ rt1. destruct (work_header _ _ _ _ _ Hi) as (gp' & m & Ha & E1 & E2 & Hpt & Em & H0).
  rewrite Egp in E1. injection E1 as <-. assert (Hh : h = mk_rc (1 + due A W (target r)) m) by congruence.
  split; [rewrite Hh; cbn; lia|]. destruct (Z.eqb_spec (ref_count h - 1) 0) as [Hz|Hz].
  - assert (Hdue : due A W (target r) = 0) by (rewrite Hh in Hz; cbn in Hz; lia).
    assert (Hi1 : zinv (unlink (target r) A) (free_refs gp ++ W) (target r :: P) rt1).
    { unfold rt1. rewrite Hz. apply (zinv_enter A W (r :: W) P rt); try done; [by right|]. intros x Hx. by apply owed_other. }
    destruct (each_drops f Q _ _ _ _ rt1 Hf HQ Hph Hi1) as (A2 & rt2 & E3 & Hi2 & Hp2 & Hs2).
    exists A2. eexists. split; [unfold free_cell; by rewrite E3|]. split; [|split; [done|]].
    + apply (zinv_leave A2 W P rt2 (target r)); try done; cbn [js_free_rt list_del set_lists heap rc torn].
      * intros x Hx. by rewrite !lookup_delete_ne.
      * apply lookup_delete_eq.
      * intros _. apply lookup_delete_eq.
    + cbn [js_free_rt list_del set_lists heap]. etrans; [|exact Hs2]. intros x Hx. by apply dom_delete, elem_of_difference in Hx as [? _].
  - apply zinv_dec; [done|done|]. rewrite Hh in *. cbn in *. lia.
Qed.

Lemma release1_drops k : drops (release1 k) (fun r => no_context r = true).
Proof.
  intros A W P rt r Hr Hph Hi. destruct (leaf r) eqn:Hl.
  { assert (release1 k rt r = release0 k rt r) as -> by (by destruct r). by apply (release0_drops k A W P rt r Hl Hph Hi). }
  destruct (work_header _ _ _ _ _ Hi) as (gp & m & _ & Egp & _ & Hpt & Eh & _).
  assert (HQ : Forall (fun r => leaf r = true) (free_refs gp)).
  { eapply Forall_impl; [apply cell_refs; by rewrite (points_cell r gp Hpt), Hl|]. intros r' [_ [?|[ctx ->]]]; [done|]. by destruct r. }
  destruct (cell_drops _ _ _ _ _ _ _ _ _ (release0_drops k) Hph Hi Hl Egp Eh HQ) as [Hpos Hres]. revert Eh Hpos Hres. generalize (mk_rc (1 + due A W (target r)) m). intros h Eh Hpos Hres.
  destruct r as [p|p|p|p|p]; try done; destruct gp; try done; cbn [release1 target] in *; unfold js_free_shape, js_free_shape0, free_var_ref, js_rc;
    rewrite Eh; cbn [mbind option_bind set_rc rc heap ref_count]; rewrite ?lookup_insert_eq; cbn [mbind option_bind ref_count];
    rewrite ?(proj2 (Z.ltb_lt _ _) Hpos), Egp; cbn [negb].
  - destruct (Z.eqb_spec (ref_count h - 1) 0) as [H0|H0]; cbn [negb].
    + rewrite (proj2 (Z.leb_le _ _)) by lia. apply Hres.
    + rewrite (proj2 (Z.leb_gt _ _)) by lia. exists A. eexists. by split_and!.
  - destruct (Z.eqb_spec (ref_count h - 1) 0) as [H0|H0]; [apply Hres|]. exists A. eexists. by split_and!.
Qed.

Lemma release_drops k : drops (release k) (fun _ => True).
Proof.
  intros A W P rt r _ Hph Hi. destruct (no_context r) eqn:Hr.
  { assert (release k rt r = release1 k rt r) as -> by (by destruct r). by apply (release1_drops k A W P rt r Hr Hph Hi). }
  assert (Hl : leaf r = false) by (by destruct r). destruct (work_header _ _ _ _ _ Hi) as (gp & m & _ & Egp & _ & Hpt & Eh & _).
  assert (HQ : Forall (fun r => no_context r = true) (free_refs gp)).
  { eapply Forall_impl; [apply cell_refs; by rewrite (points_cell r gp Hpt), Hl|]. by intros r' [? _]. }
  destruct (cell_drops _ _ _ _ _ _ _ _ _ (release1_drops k) Hph Hi Hl Egp Eh HQ) as [Hpos Hres]. revert Eh Hpos Hres. generalize (mk_rc (1 + due A W (target r)) m). intros h Eh Hpos Hres.
  destruct r as [p|p|p|p|p]; try done. destruct gp; try done. cbn [release target] in *. unfold JS_FreeContext, js_rc.
  rewrite Eh. cbn [mbind option_bind set_rc rc heap]. rewrite Egp. destruct (Z.eqb_spec (ref_count h - 1) 0) as [H0|H0]; cbn [negb].
  - rewrite (proj2 (Z.ltb_ge _ _)) by lia. apply Hres.
  - rewrite (proj2 (Z.ltb_lt _ _)) by lia. exists A. eexists. by split_and!.
Qed.

(** *** The loop of free_zero_refcount *)

(** The end of giving up the object [p], whose count is zero. *)
Lemma free_block_zero A rt p : gc_phase rt = JS_GC_PHASE_DECREF -> zinv A [] [p] rt ->
  exists rt', free_block rt p = Some rt' /\ zinv A [] [] rt' /\ gc_phase rt' = JS_GC_PHASE_DECREF /\ heap rt' = delete p (heap rt).
Proof.
  intros Hph Hi. destruct (zi_P _ _ _ _ Hi p) as (_ & _ & (m & Em) & _); [left|].
  unfold free_block, is_remove_cycles, js_rc. cbn [list_del set_lists rc gc_phase]. rewrite Em, Hph. cbn [mbind option_bind andb].
  eexists. split_and!; [done| |done|done]. apply (zinv_leave A [] [] rt p); try done; cbn [js_free_rt list_del set_lists heap rc torn].
  - intros x Hx. by rewrite !lookup_delete_ne.
  - apply lookup_delete_eq.
  - intros _. apply lookup_delete_eq.
Qed.

(** No context lists a module that nothing refers to. *)
Lemma zinv_unlink A rt p : zinv A [] [p] rt -> zinv A [] [p] (module_unlink rt p).
Proof.
  intros [H1 H2 H3 H4 H5 H6 H7 H8 H9 H10 H11 H12 H13 H14 H15]. destruct (H3 p ltac:(left)) as (_ & HpA & _ & Hop).
  split; cbn [module_unlink heap rc torn gc_obj_list gc_zero_ref_count_list]; try done.
  - intros x Hx. destruct (H2 x Hx) as (? & Ex & [gp E0] & ? & ?). split_and!; try done. rewrite lookup_fmap, Ex, E0. cbn. f_equal.
    destruct (without_module_refs p gp) as (_ & _ & _ & Hid). apply Hid. intros r Hr.
    apply (owed_zero_A (heap rt0) A [] p x r); [done|done|]. unfold frefs. by rewrite E0.
  - intros x Hx HxA HxP. destruct (H13 x Hx HxA HxP) as [Ex ?]. split; [|done]. by rewrite lookup_fmap, Ex.
Qed.

Lemma free_zero_body A rt p l : gc_phase rt = JS_GC_PHASE_DECREF -> zinv A [] [] rt -> gc_zero_ref_count_list rt = p :: l ->
  (exists m, rc rt !! p = Some (mk_rc 0 m)) /\
  exists A' rt', free_gc_object (fun _ => None) rt p = Some rt' /\ zinv A' [] [] rt' /\ gc_phase rt' = JS_GC_PHASE_DECREF /\
    dom (heap rt') ⊆ dom (heap rt) ∖ {[p]} /\ p ∈ dom (heap rt).
Proof.
  intros Hph Hi Hl. destruct (zi_zero _ _ _ _ Hi p) as [?%not_elem_of_nil|[Ha Hd]]; [rewrite Hl; left|done|].
  destruct (zi_count _ _ _ _ Hi p Ha) as (m & Em & _). rewrite Hd in Em. split; [by exists m|].
  destruct (zi_A _ _ _ _ Hi p Ha) as (_ & Eh & [gp Egp] & _). rewrite Egp in Eh.
  assert (Hcell : cell gp = false) by (destruct (cell gp) eqn:Hc; [|done]; pose proof (zi_cells _ _ _ _ Hi p gp Ha Egp Hc); lia).
  assert (Hi1 : zinv (unlink p A) (free_refs gp ++ []) [p] rt).
  { assert (Hrt : set_rc rt p (mk_rc 0 m) = rt) by (unfold set_rc; rewrite insert_id by done; by destruct rt).
    rewrite <- Hrt. by apply (zinv_enter A [] [] [] rt). }
  destruct (each_drops _ _ (free_refs gp) _ _ _ rt (release_drops (fun _ => None)) ltac:(apply Forall_true; auto) Hph Hi1) as (A2 & rt2 & E2 & Hi2 & Hp2 & Hs2).
  unfold free_gc_object. rewrite Eh. cbn [mbind option_bind]. exists A2.
  assert (Hp : p ∈ dom (heap rt)) by (apply elem_of_dom; by rewrite Eh).
  assert (Hdel : forall hp : gmap ptr gc_obj, dom hp ⊆ dom (heap rt2) -> dom (delete p hp) ⊆ dom (heap rt) ∖ {[p]}).
  { intros hp Hhp. rewrite dom_delete. intros x [Hx ?]%elem_of_difference. apply elem_of_difference. split; [by apply Hs2, Hhp|done]. }
  destruct gp as [o|b| | |s| |md]; try done; cbn [free_refs] in E2;
    unfold free_object, free_function_bytecode, __async_func_free, js_free_module_def; rewrite E2; cbn [mbind option_bind].
  - destruct (zi_P _ _ _ _ Hi2 p) as (_ & _ & (m2 & Em2) & _); [left|].
    unfold is_remove_cycles, js_rc. cbn [list_del set_lists rc gc_phase]. rewrite Em2, Hp2. cbn [mbind option_bind].
    destruct (weakref_count o =? 0) eqn:Hw; (eexists; split_and!; [done| |done|by apply Hdel|done]); apply (zinv_leave A2 [] [] rt2 p); try done;
      cbn [js_free_rt tear set_rc list_del set_lists heap rc torn].
    + intros x Hx. by rewrite !lookup_delete_ne.
    + apply lookup_delete_eq.
    + intros _. apply lookup_delete_eq.
    + intros x Hx. by rewrite lookup_delete_ne, !lookup_insert_ne.
    + apply lookup_delete_eq.
    + unfold has_weakrefs. by rewrite Egp, Hw.
  - destruct (free_block_zero _ _ _ Hp2 Hi2) as (rt3 & -> & Hi3 & Hp3 & Eh3). eexists. split_and!; [done..| |done]. rewrite Eh3. by apply Hdel.
  - destruct (free_block_zero _ _ _ Hp2 Hi2) as (rt3 & -> & Hi3 & Hp3 & Eh3). eexists. split_and!; [done..| |done]. rewrite Eh3. by apply Hdel.
  - destruct (free_block_zero _ (module_unlink rt2 p) p Hp2 (zinv_unlink _ _ _ Hi2)) as (rt3 & -> & Hi3 & Hp3 & Eh3). eexists. split_and!; [done..| |done].
    rewrite Eh3. apply Hdel. cbn [module_unlink heap]. by rewrite dom_fmap.
Qed.

Lemma free_zero_loop fuel A rt : gc_phase rt = JS_GC_PHASE_DECREF -> zinv A [] [] rt -> (size (heap rt) <= fuel)%nat ->
  exists A' rt', free_zero_refcount_loop fuel rt = Some rt' /\ zinv A' [] [] rt' /\ gc_zero_ref_count_list rt' = [].
Proof.
  revert A rt. induction fuel as [|fuel IH]; intros A rt Hph Hi Hf; cbn [free_zero_refcount_loop];
    destruct (gc_zero_ref_count_list rt) as [|p l] eqn:El; try (by exists A, rt);
    destruct (free_zero_body A rt p l Hph Hi El) as ((m & Em) & A1 & rt1 & E1 & Hi1 & Hp1 & Hs1 & Hin);
    assert (Hsz : (size (heap rt1) < size (heap rt))%nat) by
      (rewrite <- !size_dom; apply subset_size; split; [|intros Hsub; by apply Hsub, Hs1, elem_of_difference in Hin as [_ ?%not_elem_of_singleton]];
        intros x Hx; by apply Hs1, elem_of_difference in Hx as [? _]).
  - lia.
  - unfold js_rc. rewrite Em. cbn [mbind option_bind ref_count Z.eqb negb]. rewrite E1. cbn [mbind option_bind]. apply (IH A1); [done|done|lia].
Qed.

End Dropping.

(** ** JS_FreeValue *)

(** The references from outside the heap when one to [p] is given up. *)
Definition external_without (rt : JSRuntime) (p x : ptr) : Z := external rt x - (if decide (p = x) then 1 else 0).

Section FreeValue.
Variables (rt : JSRuntime) (p : ptr) (gp : gc_obj).
Hypothesis ready : gc_ready rt.
Hypothesis typed : gc_typed rt.
Hypothesis listed : p ∈ gc_obj_list rt.
Hypothesis found : heap rt !! p = Some gp.
Hypothesis value : points (to_value p) gp = true.
Hypothesis held : 0 < external rt p.

Lemma zinv_start : gc_zero_ref_count_list rt = [] -> zinv rt (external_without rt p) (gc_obj_list rt) [to_value p] [] rt.
Proof.
  intros Hz. pose proof ready as [Hn _].
  assert (Hext : forall x, x ∈ gc_obj_list rt -> 0 <= external rt x).
  { intros x Hx. unfold external. destruct (ready_obj rt x ready Hx) as (_ & c & _ & -> & _ & ? & _). cbn. lia. }
  assert (Hdue : forall x h, rc rt !! x = Some h -> due rt (external_without rt p) (gc_obj_list rt) [to_value p] x = ref_count h).
  { intros x h Eh. unfold due, external_without, external. rewrite owed_cons, Eh. unfold owed. change (nrefs (target <$> []) x) with 0.
    rewrite holds_refs by done. cbn [target]. destruct (decide (p = x)); lia. }
  split; rewrite ?Hz; try done.
  - split; [done|constructor].
  - intros x Hx. destruct (typed_obj rt x typed Hx) as (g & Eg & Et & _). rewrite Eg. split_and!; try done. unfold external_without.
    specialize (Hext x Hx). destruct (decide (p = x)) as [<-|]; lia.
  - by intros x ?%not_elem_of_nil.
  - intros q r Hq Hr. unfold frefs in Hr. destruct (typed_obj rt q typed Hq) as (g & Eg & _ & Hok & Hpt). rewrite Eg in Hr. split; [|by apply Hpt].
    destruct (ready_obj rt q ready Hq) as (g' & c & Eg' & _ & _ & _ & Hcl). rewrite Eg in Eg'. injection Eg' as <-. apply Hcl.
    rewrite <- (free_refs_mark g Hok). apply list_elem_of_fmap. by exists r.
  - intros r ->%list_elem_of_singleton. split; [done|]. by exists gp.
  - intros x Hx. destruct (ready_obj rt x ready Hx) as (_ & c & _ & Ec & _). exists false. by rewrite (Hdue x _ Ec), Ec.
  - intros x g Hx _ _. destruct (ready_obj rt x ready Hx) as (_ & c & _ & Ec & ? & _). by rewrite (Hdue x _ Ec).
  - split; [done|constructor].
  - intros x Hx. right. destruct (ready_obj rt x ready Hx) as (_ & c & _ & Ec & ? & _). by rewrite (Hdue x _ Ec).
  - by intros x ?%not_elem_of_nil.
  - intros x Hx Hd. destruct (ready_obj rt x ready Hx) as (_ & c & _ & Ec & ? & _). rewrite (Hdue x _ Ec) in Hd. cbn in Hd. lia.
  - intros x Hl. apply in_use_listed; [done|]. induction Hl as [x Hx He|x y _ IH Hy].
    + apply live_root; [done|]. unfold external_without in He. destruct (decide _); lia.
    + by apply (live_step _ _ _ x).
Qed.

Lemma children_ext hp hp' l : (forall q, q ∈ l -> hp !! q = hp' !! q) -> l ≫= children hp = l ≫= children hp'.
Proof.
  induction l as [|q l IH]; intros Hq; [done|]. cbn. f_equal; [unfold children; by rewrite Hq by left|]. apply IH. intros y Hy. apply Hq. by right.
Qed.

(** With no object waiting to be freed the heap is well formed again. *)
Lemma zinv_end A rt' : zinv rt (external_without rt p) A [] [] rt' -> gc_zero_ref_count_list rt' = [] ->
  gc_ready rt' /\ gc_typed rt' /\
  (forall x, x ∈ gc_obj_list rt' -> x ∈ gc_obj_list rt /\ heap rt' !! x = heap rt !! x /\ external rt' x = external_without rt p x) /\
  (forall x, live (heap rt) (gc_obj_list rt) (external_without rt p) x -> x ∈ gc_obj_list rt') /\
  (forall x, x ∈ gc_obj_list rt -> x ∉ gc_obj_list rt' -> heap rt' !! x = None /\ (has_weakrefs rt x = false -> rc rt' !! x = None)) /\
  (forall x, x ∉ gc_obj_list rt -> rc rt' !! x = rc rt !! x).
Proof.
  intros Hi Hz. destruct (zi_lists _ _ _ _ _ _ Hi) as [Hn _].
  assert (HA : forall x, x ∈ gc_obj_list rt' <-> x ∈ A).
  { intros x. split; [intros Hx; by destruct (zi_obj _ _ _ _ _ _ Hi x Hx) as [?%not_elem_of_nil|[? _]]|]. intros Hx.
    pose proof (due_nonneg _ _ _ _ _ _ x Hi Hx). destruct (decide (due rt (external_without rt p) A [] x = 0)) as [E|E].
    - apply (zi_waits _ _ _ _ _ _ Hi x Hx) in E. rewrite Hz in E. by apply not_elem_of_nil in E.
    - apply (zi_listed _ _ _ _ _ _ Hi x Hx). lia. }
  assert (Hst : forall x, x ∈ gc_obj_list rt' -> x ∈ gc_obj_list rt /\ heap rt' !! x = heap rt !! x /\ torn rt' !! x = None).
  { intros x Hx%HA. destruct (zi_A _ _ _ _ _ _ Hi x Hx) as (? & ? & _ & ? & _). by split_and!. }
  assert (Hrefs : forall x, refs (heap rt') (gc_obj_list rt') x = owed (heap rt) A [] x).
  { intros x. assert (refs (heap rt') (gc_obj_list rt') x = refs (heap rt) (gc_obj_list rt') x) as ->.
    { unfold refs. f_equal. apply children_ext. intros q Hq. by apply Hst. }
    rewrite <- holds_refs by (done || intros q Hq; by apply Hst). unfold owed, holds. change (nrefs (target <$> []) x) with 0. rewrite Z.add_0_r. apply nrefs_perm.
    assert (gc_obj_list rt' ≡ₚ A) as ->; [|done]. apply NoDup_Permutation; [done|apply (zi_NoDup _ _ _ _ _ _ Hi)|done]. }
  assert (Hrc : forall x, x ∈ gc_obj_list rt' -> rc rt' !! x = Some (mk_rc (external_without rt p x + refs (heap rt') (gc_obj_list rt') x) false) /\
    0 <= external_without rt p x /\ 0 < external_without rt p x + refs (heap rt') (gc_obj_list rt') x).
  { intros x Hx. pose proof (proj1 (HA x) Hx) as Ha. rewrite Hrefs. destruct (zi_count _ _ _ _ _ _ Hi x Ha) as (m & Em & Hm).
    destruct m; [rewrite Hz in Hm; by apply not_elem_of_nil in Hm|]. split; [done|]. split; [by apply (zi_A _ _ _ _ _ _ Hi x Ha)|].
    by destruct (zi_obj _ _ _ _ _ _ Hi x Hx) as [?%not_elem_of_nil|[_ ?]]. }
  assert (Hto : forall q g r, q ∈ gc_obj_list rt' -> heap rt !! q = Some g -> r ∈ free_refs g -> target r ∈ gc_obj_list rt').
  { intros q g r Hq%HA Eg Hr. apply HA. apply (zi_refs _ _ _ _ _ _ Hi q r Hq). unfold frefs. by rewrite Eg. }
  split_and!.
  - split; [done|]. apply forallb_forall. intros x Hx%list_elem_of_In. destruct (Hst x Hx) as (Hxl & Eh & _), (Hrc x Hx) as (Er & Hx0 & Hpos).
    destruct (typed_obj rt x typed Hxl) as (g & Eg & _ & Hok & _). unfold obj_ready. rewrite Eh, Eg, Er. cbn [ref_count mark negb andb].
    rewrite (proj2 (Z.ltb_lt _ _) Hpos), (proj2 (Z.leb_le _ _)) by lia. cbn [andb]. apply forallb_forall. intros y Hy%list_elem_of_In. apply bool_decide_eq_true.
    rewrite <- (free_refs_mark g Hok) in Hy. apply list_elem_of_fmap in Hy as (r & -> & Hr). by apply (Hto x g).
  - apply forallb_forall. intros x Hx%list_elem_of_In. destruct (Hst x Hx) as (Hxl & Eh & Et). destruct (typed_obj rt x typed Hxl) as (g & Eg & _ & Hok & Hpt).
    unfold obj_typed. rewrite Eh, Eg, Et, Hok. cbn [andb]. apply forallb_forall. intros r Hr%list_elem_of_In.
    destruct (Hst (target r) (Hto x g r Hx Eg Hr)) as (_ & -> & _). destruct (Hpt r Hr) as (g' & -> & ->). done.
  - intros x Hx. destruct (Hst x Hx) as (? & ? & _), (Hrc x Hx) as (Er & _). split_and!; try done. unfold external at 1. rewrite Er. cbn. lia.
  - intros x Hx. by apply HA, (zi_live _ _ _ _ _ _ Hi).
  - intros x Hx Hnx. apply (zi_gone _ _ _ _ _ _ Hi); [done| |apply not_elem_of_nil]. intros Ha. by apply Hnx, HA.
  - apply (zi_frame _ _ _ _ _ _ Hi).
Qed.

End FreeValue.

Module RefCount_props.

(** C17. Giving up a reference held outside of the heap keeps the reference counts
    exact: JS_FreeValue ends without a failed assertion and without an access
    to a freed block; the heap is well formed again, with the same references
    from outside but for the one given up; every object that a program can
    still reach is kept as it was; no object whose count is zero stays, and
    the contents of every object that goes are freed, with the block unless weak
    references need it. *)
Theorem free_value_exact rt p gp : gc_ready rt -> gc_typed rt -> gc_zero_ref_count_list rt = [] -> gc_phase rt = JS_GC_PHASE_NONE ->
  p ∈ gc_obj_list rt -> heap rt !! p = Some gp -> points (to_value p) gp = true -> 0 < external rt p ->
  exists rt', JS_FreeValue rt p = Some rt' /\
    gc_ready rt' /\ gc_typed rt' /\ gc_zero_ref_count_list rt' = [] /\ gc_phase rt' = JS_GC_PHASE_NONE /\
    (forall x, x ∈ gc_obj_list rt' -> x ∈ gc_obj_list rt /\ heap rt' !! x = heap rt !! x /\ external rt' x = external_without rt p x) /\
    (forall x, live (heap rt) (gc_obj_list rt) (external_without rt p) x -> x ∈ gc_obj_list rt') /\
    (forall x, x ∈ gc_obj_list rt -> x ∉ gc_obj_list rt' -> heap rt' !! x = None /\ (has_weakrefs rt x = false -> rc rt' !! x = None)) /\
    (forall x, x ∉ gc_obj_list rt -> rc rt' !! x = rc rt !! x).
Proof.
  intros Hr Ht Hz Hph Hp Egp Hpt Hext. pose proof (zinv_start rt p gp Hr Ht Hp Egp Hpt Hext Hz) as Hi.
  destruct (release0_split rt _ Ht free_zero_refcount _ [] [] rt (to_value p) eq_refl ltac:(congruence) Hi) as (rt1 & Hi1 & Hp1 & _ & E).
  change (release0 free_zero_refcount rt (to_value p)) with (JS_FreeValue rt p) in E. rewrite E, Hph. clear E.
  destruct (Z.eqb_spec (due rt (external_without rt p) (gc_obj_list rt) [] (target (to_value p))) 0) as [Hd|Hd].
  - unfold free_zero_refcount. destruct (free_zero_loop rt _ Ht (size (heap rt1)) _ (set_phase rt1 JS_GC_PHASE_DECREF) eq_refl (zinv_phase _ _ _ _ _ _ _ Hi1) ltac:(done))
      as (A & rt2 & -> & Hi2 & Hz2). cbn [mbind option_bind]. eexists. split; [done|].
    destruct (zinv_end rt p Ht A _ (zinv_phase _ _ _ _ _ _ JS_GC_PHASE_NONE Hi2) Hz2) as (? & ? & ? & ? & ? & ?). by split_and!.
  - assert (Hz1 : gc_zero_ref_count_list rt1 = []).
    { destruct (gc_zero_ref_count_list rt1) as [|y l] eqn:El; [done|]. destruct (zi_zero _ _ _ _ _ _ Hi1 y) as [?%not_elem_of_nil|[Hy Hy0]]; [rewrite El; left|done|].
      rewrite <- (due_other rt _ _ (to_value p)) in Hy0 by congruence. apply (zi_waits _ _ _ _ _ _ Hi y Hy) in Hy0. rewrite Hz in Hy0. by apply not_elem_of_nil in Hy0. }
    exists rt1. split; [done|]. destruct (zinv_end rt p Ht _ _ Hi1 Hz1) as (? & ? & ? & ? & ? & ?). rewrite Hp1. by split_and!.
Qed.

(** The object 1 with the shape 3 and a property 2; the object 2 with the same
    shape, a bound function of the object 4, which is held from outside too. *)
Definition chain : JSRuntime :=
  let val p := JS_MKPTR JS_TAG_OBJECT p in
  mk_rt (list_to_map [
      (1%positive, JS_GC_OBJ_TYPE_JS_OBJECT (mk_object 3 [(1, prop_value (val 2%positive))] class_none 0));
      (2%positive, JS_GC_OBJ_TYPE_JS_OBJECT (mk_object 3 [] (class_bound_function (val 4%positive) JS_UNDEFINED []) 0));
      (3%positive, JS_GC_OBJ_TYPE_SHAPE None);
      (4%positive, JS_GC_OBJ_TYPE_JS_OBJECT (mk_object 5 [] class_none 0));
      (5%positive, JS_GC_OBJ_TYPE_SHAPE None)])
    (list_to_map [(1%positive, mk_rc 1 false); (2%positive, mk_rc 1 false); (3%positive, mk_rc 2 false); (4%positive, mk_rc 2 false); (5%positive, mk_rc 1 false)])
    ∅ [1; 2; 3; 4; 5]%positive [] [] JS_GC_PHASE_NONE.

Lemma chain_ready : gc_ready chain.
Proof. split; [apply (bool_decide_unpack _)|]; by vm_compute. Qed.

Lemma chain_typed : gc_typed chain.
Proof. by vm_compute. Qed.

Lemma chain_head : 1%positive ∈ gc_obj_list chain.
Proof. left. Qed.

Lemma free_value_exact_witness : exists rt', JS_FreeValue chain 1 = Some rt' /\ gc_ready rt' /\ gc_typed rt'.
Proof.
  destruct (free_value_exact chain 1 _ chain_ready chain_typed eq_refl eq_refl chain_head eq_refl eq_refl eq_refl) as (rt' & E & H1 & H2 & _).
  exists rt'. split; [exact E|split; [exact H1|exact H2]].
Defined.

(** The last reference to 1 goes: 2 goes with it, then their shape, and 4 is
    left with the reference from outside. *)
Example chain_freed : (rt ← JS_FreeValue chain 1; Some (gc_obj_list rt, (fun p => rc rt !! p) <$> [1; 2; 3; 4; 5]%positive)) =
  Some ([4; 5]%positive, [None; None; None; Some (mk_rc 1 false); Some (mk_rc 1 false)]).
Proof. by vm_compute. Qed.

End RefCount_props.
