(* ===== verification/Shapes.v ===== *)
(** * Shapes and properties

    An object of the engine is an array of property values; the names and flags
    of the properties are in its shape, which objects with the same prototype
    and the same properties share.  This file models the shapes of
    src/object/shapes_objects_gc.inc.c with their hash tables and the table of
    shapes that makes sharing possible (js_new_shape, js_clone_shape,
    resize_properties, compact_properties, add_shape_property,
    find_hashed_shape_prop, find_own_property, js_prop_cache_probe,
    JS_NewObjectFromShape), add_property and delete_property of
    src/object/property_get.inc.c, and js_shape_prepare_update and
    js_update_property_flags of src/object/property_set_convert.inc.c, for
    ordinary objects: no exotic class and not the global object.

    A chain of the hash table is a list of indices plus one, zero at the end,
    through the fields hash_next.  The table of shapes links its members
    through shape_hash_next; each chain is the list of its members.  An entry
    of the property array that was not written yet is [None].  The build switch
    CONFIG_PROP_HASH_MIX is a parameter; CONFIG_FAST_PROP_TEARDOWN is on, as it is
    by default.  What is left out:
    the reference counts of atoms, prototypes and values ([GcFree] models how
    references are given up; delete_property returns the value whose reference
    goes) and the list of collected objects.

    [None] stands for a failed assertion or a fault. *)
From Stdlib Require Import ZArith Lia.
From stdpp Require Import base numbers list option gmap.
From S2P Require Import Prelude Gc.

(** ** State *)

(** The switches of the build that change what the code computes. *)
Class ShapeConfig := { CONFIG_PROP_HASH_MIX : bool }.

Definition JS_PROP_CONFIGURABLE : Z := 1 << 0.
Definition JS_PROP_TMASK : Z := 3 << 4.
Definition JS_PROP_INITIAL_SIZE : Z := 2.
Definition JS_PROP_INITIAL_HASH_SIZE : Z := 4.

Record JSShapeProperty := mk_sprop { hash_next : Z; pflags : Z; atom : Z }.

Record JSShape := mk_shape {
  is_hashed : bool; all_plain : bool; hash : Z; hash_table : list Z; prop_size : Z; deleted_prop_count : Z;
  sproto : option ptr; sprop : list JSShapeProperty }.

Definition prop_count (sh : JSShape) : Z := Z.of_nat (length (sprop sh)).
Definition prop_hash_size (sh : JSShape) : Z := Z.of_nat (length (hash_table sh)).
Definition prop_hash_mask (sh : JSShape) : Z := prop_hash_size sh - 1.

(** The part of an object that its shape describes. *)
Record pobject := mk_pobject { oshape : ptr; oprop : list (option JSProperty) }.

Record shape_rt := mk_srt {
  shapes : gmap ptr JSShape; shape_rc : gmap ptr Z;
  shape_hash_tab : list (list ptr); shape_hash_bits : Z; shape_hash_count : Z;
  objects : gmap ptr pobject; smem : list bool }.

Definition set_shapes (rt : shape_rt) (m : gmap ptr JSShape) (c : gmap ptr Z) : shape_rt :=
  mk_srt m c (shape_hash_tab rt) (shape_hash_bits rt) (shape_hash_count rt) (objects rt) (smem rt).
Definition set_tab (rt : shape_rt) (tab : list (list ptr)) (bits count : Z) : shape_rt :=
  mk_srt (shapes rt) (shape_rc rt) tab bits count (objects rt) (smem rt).
Definition set_object (rt : shape_rt) (p : ptr) (o : pobject) : shape_rt :=
  mk_srt (shapes rt) (shape_rc rt) (shape_hash_tab rt) (shape_hash_bits rt) (shape_hash_count rt) (<[p := o]> (objects rt)) (smem rt).
Definition put_shape (rt : shape_rt) (s : ptr) (sh : JSShape) : shape_rt := set_shapes rt (<[s := sh]> (shapes rt)) (shape_rc rt).
Definition put_rc (rt : shape_rt) (s : ptr) (c : Z) : shape_rt := set_shapes rt (shapes rt) (<[s := c]> (shape_rc rt)).

(** An allocation: the answer, and the state with the answers still to come. *)
Definition js_malloc (rt : shape_rt) : bool * shape_rt :=
  (hd true (smem rt), mk_srt (shapes rt) (shape_rc rt) (shape_hash_tab rt) (shape_hash_bits rt) (shape_hash_count rt) (objects rt) (tl (smem rt))).

(** The block of a new shape, and a block given back. *)
Definition new_block (rt : shape_rt) (sh : JSShape) : ptr * shape_rt :=
  let s := fresh (dom (shapes rt)) in (s, put_rc (put_shape rt s sh) s 1).
Definition js_free (rt : shape_rt) (s : ptr) : shape_rt := set_shapes rt (delete s (shapes rt)) (delete s (shape_rc rt)).

(** js_realloc of an array: the new entries are not written yet. *)
Definition resize_array (l : list (option JSProperty)) (n : Z) : list (option JSProperty) :=
  take (Z.to_nat n) l ++ replicate (Z.to_nat n - length l) None.

(** ** The table of shapes *)

Section Engine.
Context {cfg : ShapeConfig}.
Variable shape_hash_seed : Z.

(** [entropy]: whether the system gave the seed. *)
Definition init_shape_hash (entropy : bool) (mem : list bool) : bool * shape_rt :=
  let rt := mk_srt ∅ ∅ [] 4 0 ∅ mem in
  if negb entropy then (false, rt) else
  let (ok, rt) := js_malloc rt in
  if negb ok then (false, rt) else (true, set_tab rt (replicate (Z.to_nat (1 << shape_hash_bits rt)) []) (shape_hash_bits rt) 0).

Definition prop_hash_bucket (atom mask : Z) : Z :=
  let h := u32 atom in
  let h := if CONFIG_PROP_HASH_MIX then h ^^ (h >> 18) else h in
  h & mask.
Definition shape_hash (h val : Z) : Z := u32 (u32 (h + u32 val) * 0x9e370001).
Definition get_shape_hash (h hash_bits : Z) : Z := h >> (32 - hash_bits).

(** The prototype enters by its address. *)
Definition proto_address (proto : option ptr) : Z := match proto with Some p => Zpos p | None => 0 end.
Definition shape_initial_hash (proto : option ptr) : Z :=
  shape_hash (shape_hash (u32 shape_hash_seed) (proto_address proto)) (proto_address proto >> 32).

Definition bucket_push (tab : list (list ptr)) (h : Z) (s : ptr) : option (list (list ptr)) :=
  b ← tab !! Z.to_nat h; Some (<[Z.to_nat h := s :: b]> tab).

Definition rehash_one (rt : shape_rt) (bits : Z) (tab : list (list ptr)) (s : ptr) : option (list (list ptr)) :=
  sh ← shapes rt !! s; bucket_push tab (get_shape_hash (hash sh) bits) s.

Definition resize_shape_hash (rt : shape_rt) (new_bits : Z) : option shape_rt :=
  let (ok, rt) := js_malloc rt in
  if negb ok then Some rt else
  tab ← each (rehash_one rt new_bits) (concat (shape_hash_tab rt)) (replicate (Z.to_nat (1 << new_bits)) []);
  Some (set_tab rt tab new_bits (shape_hash_count rt)).

Definition js_shape_hash_link (rt : shape_rt) (s : ptr) : option shape_rt :=
  sh ← shapes rt !! s;
  tab ← bucket_push (shape_hash_tab rt) (get_shape_hash (hash sh) (shape_hash_bits rt)) s;
  Some (set_tab rt tab (shape_hash_bits rt) (shape_hash_count rt + 1)).

Definition js_shape_hash_unlink (rt : shape_rt) (s : ptr) : option shape_rt :=
  sh ← shapes rt !! s;
  let h := Z.to_nat (get_shape_hash (hash sh) (shape_hash_bits rt)) in
  b ← shape_hash_tab rt !! h;
  if bool_decide (s ∈ b) then Some (set_tab rt (<[h := unlink s b]> (shape_hash_tab rt)) (shape_hash_bits rt) (shape_hash_count rt - 1)) else None.

(** ** Shapes *)

Definition pow2_ok (n : Z) : bool := (2 <=? n) && (n & (n - 1) =? 0).

(** The hash of a shape that is not in the table is never read. *)
Definition js_new_shape_nohash (rt : shape_rt) (proto : option ptr) (hash_size size : Z) : option (option ptr * shape_rt) :=
  let (ok, rt) := js_malloc rt in
  if negb ok then Some (None, rt) else
  if negb (pow2_ok hash_size) then None else
  let (s, rt) := new_block rt (mk_shape false true 0 (replicate (Z.to_nat hash_size) 0) size 0 proto []) in
  Some (Some s, rt).

Definition set_hashed (sh : JSShape) (b : bool) : JSShape :=
  mk_shape b (all_plain sh) (hash sh) (hash_table sh) (prop_size sh) (deleted_prop_count sh) (sproto sh) (sprop sh).
Definition set_hash (sh : JSShape) (b : bool) (h : Z) : JSShape :=
  mk_shape b (all_plain sh) h (hash_table sh) (prop_size sh) (deleted_prop_count sh) (sproto sh) (sprop sh).
Definition set_plain (sh : JSShape) (b : bool) : JSShape :=
  mk_shape (is_hashed sh) b (hash sh) (hash_table sh) (prop_size sh) (deleted_prop_count sh) (sproto sh) (sprop sh).

Definition js_new_shape2 (rt : shape_rt) (proto : option ptr) (hash_size size : Z) : option (option ptr * shape_rt) :=
  rt ← (if Z.of_nat (length (shape_hash_tab rt)) <? 2 * (shape_hash_count rt + 1) then resize_shape_hash rt (shape_hash_bits rt + 1) else Some rt);
  r ← js_new_shape_nohash rt proto hash_size size;
  match r with
  | (None, rt) => Some (None, rt)
  | (Some s, rt) =>
      sh ← shapes rt !! s;
      rt ← js_shape_hash_link (put_shape rt s (set_hash sh true (shape_initial_hash proto))) s;
      Some (Some s, rt)
  end.

Definition js_new_shape (rt : shape_rt) (proto : option ptr) : option (option ptr * shape_rt) :=
  js_new_shape2 rt proto JS_PROP_INITIAL_HASH_SIZE JS_PROP_INITIAL_SIZE.

Definition js_clone_shape (rt : shape_rt) (s1 : ptr) : option (option ptr * shape_rt) :=
  sh1 ← shapes rt !! s1;
  let (ok, rt) := js_malloc rt in
  if negb ok then Some (None, rt) else
  let (s, rt) := new_block rt (set_hashed sh1 false) in Some (Some s, rt).

Definition js_dup_shape (rt : shape_rt) (s : ptr) : option shape_rt :=
  c ← shape_rc rt !! s; Some (put_rc rt s (c + 1)).

Definition js_free_shape (rt : shape_rt) (s : ptr) : option shape_rt :=
  c ← shape_rc rt !! s;
  let rt := put_rc rt s (c - 1) in
  if c - 1 <=? 0 then
    if negb (c - 1 =? 0) then None else
    sh ← shapes rt !! s;
    rt ← (if is_hashed sh then js_shape_hash_unlink rt s else Some rt);
    Some (js_free rt s)
  else Some rt.

(** ** Property tables *)

(** [pr->hash_next = sh->hash_table[h]; sh->hash_table[h] = i + 1], with the 26
    bits of the field. *)
Definition chain_entry (tab : list Z) (a f : Z) (i : nat) : option (JSShapeProperty * list Z) :=
  let h := Z.to_nat (prop_hash_bucket a (Z.of_nat (length tab) - 1)) in
  n ← tab !! h;
  Some (mk_sprop (wrap 26 n) f a, <[h := Z.of_nat i + 1]> tab).

(** The loop of resize_properties: deleted entries keep their place. *)
Fixpoint rebuild (l : list JSShapeProperty) (i : nat) (tab : list Z) : option (list JSShapeProperty * list Z) :=
  match l with
  | [] => Some ([], tab)
  | pr :: l =>
      if atom pr =? JS_ATOM_NULL then
        r ← rebuild l (S i) tab; Some (pr :: r.1, r.2)
      else
        e ← chain_entry tab (atom pr) (pflags pr) i;
        r ← rebuild l (S i) e.2; Some (e.1 :: r.1, r.2)
  end.

(** [while (new_hash_size < new_size) new_hash_size = 2 * new_hash_size] *)
Fixpoint grow_hash_size (fuel : nat) (n size : Z) : option Z :=
  if n <? size then match fuel with O => None | S fuel => grow_hash_size fuel (u32 (2 * n)) size end else Some n.

(** [psh] is [&p->shape]. *)
Definition resize_properties (rt : shape_rt) (p : ptr) (count : Z) : option (bool * shape_rt) :=
  o ← objects rt !! p;
  sh ← shapes rt !! oshape o;
  let new_size := Z.max (i32 count) (prop_size sh * 3 ÷ 2) in
  let (ok, rt) := js_malloc rt in
  if negb ok then Some (false, rt) else
  let prop := resize_array (oprop o) new_size in
  let rt := set_object rt p (mk_pobject (oshape o) prop) in
  new_hash_size ← grow_hash_size 32 (prop_hash_size sh) new_size;
  let (ok, rt) := js_malloc rt in
  if negb ok then Some (false, rt) else
  e ← (if negb (new_hash_size =? prop_hash_size sh)
       then if pow2_ok new_hash_size then rebuild (sprop sh) 0 (replicate (Z.to_nat new_hash_size) 0) else None
       else Some (sprop sh, hash_table sh));
  let (s, rt) := new_block rt (mk_shape (is_hashed sh) (all_plain sh) (hash sh) e.2 new_size (deleted_prop_count sh) (sproto sh) e.1) in
  Some (true, set_object (js_free rt (oshape o)) p (mk_pobject s prop)).

Definition live_entry (pr : JSShapeProperty) : bool := negb (atom pr =? JS_ATOM_NULL).

(** The values of the entries that are not deleted, in order. *)
Fixpoint live_values (l : list JSShapeProperty) (vs : list (option JSProperty)) : list (option JSProperty) :=
  match l, vs with
  | pr :: l, v :: vs => if live_entry pr then v :: live_values l vs else live_values l vs
  | _, _ => []
  end.

(** [while ((new_hash_size / 2) >= new_size) new_hash_size = new_hash_size / 2] *)
Fixpoint shrink_hash_size (fuel : nat) (n size : Z) : option Z :=
  if size <=? n ÷ 2 then match fuel with O => None | S fuel => shrink_hash_size fuel (n ÷ 2) size end else Some n.

Definition compact_properties (rt : shape_rt) (p : ptr) : option (bool * shape_rt) :=
  o ← objects rt !! p;
  let s := oshape o in
  sh ← shapes rt !! s;
  if is_hashed sh then None else
  let new_size := Z.max JS_PROP_INITIAL_SIZE (prop_count sh - deleted_prop_count sh) in
  if negb (new_size <=? prop_size sh) then None else
  new_hash_size ← shrink_hash_size 32 (prop_hash_size sh) new_size;
  let (ok, rt) := js_malloc rt in
  if negb ok then Some (false, rt) else
  if negb (pow2_ok new_hash_size) then None else
  e ← rebuild (filter (fun pr => live_entry pr = true) (sprop sh)) 0 (replicate (Z.to_nat new_hash_size) 0);
  let j := length e.1 in
  if (length (oprop o) <? length (sprop sh))%nat then None else
  if negb (Z.of_nat j =? prop_count sh - deleted_prop_count sh) then None else
  let (s', rt) := new_block rt (mk_shape (is_hashed sh) (all_plain sh) (hash sh) e.2 new_size 0 (sproto sh) e.1) in
  let rt := js_free rt s in
  let vals := live_values (sprop sh) (oprop o) ++ drop j (oprop o) in
  let (ok, rt) := js_malloc rt in
  Some (true, set_object rt p (mk_pobject s' (if ok then resize_array vals new_size else vals))).

(** [psh] is [&p->shape]. *)
Definition add_shape_property (rt : shape_rt) (p : ptr) (a prop_flags : Z) : option (bool * shape_rt) :=
  o ← objects rt !! p;
  sh ← shapes rt !! oshape o;
  rt ← (if is_hashed sh then js_shape_hash_unlink rt (oshape o) else Some rt);
  let new_shape_hash := shape_hash (shape_hash (hash sh) a) prop_flags in
  r ← (if prop_size sh <=? prop_count sh then resize_properties rt p (prop_count sh + 1) else Some (true, rt));
  match r with
  | (false, rt) =>
      rt ← (if is_hashed sh then js_shape_hash_link rt (oshape o) else Some rt);
      Some (false, rt)
  | (true, rt) =>
      o ← objects rt !! p;
      let s := oshape o in
      sh ← shapes rt !! s;
      rt ← (if is_hashed sh then js_shape_hash_link (put_shape rt s (set_hash sh true new_shape_hash)) s else Some rt);
      sh ← shapes rt !! s;
      if negb (prop_count sh <? prop_size sh) then None else
      e ← chain_entry (hash_table sh) a (wrap 6 prop_flags) (length (sprop sh));
      let plain := if negb (prop_flags & JS_PROP_TMASK =? 0) then false else all_plain sh in
      Some (true, put_shape rt s (mk_shape (is_hashed sh) plain (hash sh) e.2 (prop_size sh) (deleted_prop_count sh) (sproto sh) (sprop sh ++ [e.1])))
  end.

(** ** Looking for shapes *)

Fixpoint find_shape (test : JSShape -> bool) (rt : shape_rt) (l : list ptr) : option (option ptr) :=
  match l with
  | [] => Some None
  | s :: l => sh ← shapes rt !! s; if test sh then Some (Some s) else find_shape test rt l
  end.

Definition find_hashed_shape_proto (rt : shape_rt) (proto : option ptr) : option (option ptr) :=
  let h := shape_initial_hash proto in
  b ← shape_hash_tab rt !! Z.to_nat (get_shape_hash h (shape_hash_bits rt));
  find_shape (fun sh1 => (hash sh1 =? h) && bool_decide (sproto sh1 = proto) && (prop_count sh1 =? 0)) rt b.

Definition same_entry (pr1 pr : JSShapeProperty) : bool := (atom pr1 =? atom pr) && (pflags pr1 =? pflags pr).

(** The first [n] entries are the same and the entry [n] is the new one. *)
Definition extends (l1 l : list JSShapeProperty) (a f : Z) : bool :=
  match l1 !! length l with
  | Some pr => (atom pr =? a) && (pflags pr =? f) && forallb (fun q => same_entry q.1 q.2) (zip l1 l)
  | None => false
  end.

Definition find_hashed_shape_prop (rt : shape_rt) (sh : JSShape) (a prop_flags : Z) : option (option ptr) :=
  let h := shape_hash (shape_hash (hash sh) a) prop_flags in
  b ← shape_hash_tab rt !! Z.to_nat (get_shape_hash h (shape_hash_bits rt));
  find_shape (fun sh1 => (hash sh1 =? h) && bool_decide (sproto sh1 = sproto sh) && (prop_count sh1 =? prop_count sh + 1) &&
    extends (sprop sh1) (sprop sh) a prop_flags) rt b.

(** ** Properties of an object *)

(** The index of the entry, which is that of the value too. *)
Fixpoint find_loop (fuel : nat) (l : list JSShapeProperty) (a h : Z) : option (option nat) :=
  if h =? 0 then Some None else
  match fuel with
  | O => None
  | S fuel =>
      pr ← l !! Z.to_nat (h - 1);
      if atom pr =? a then Some (Some (Z.to_nat (h - 1))) else find_loop fuel l a (hash_next pr)
  end.

Definition find_in_shape (sh : JSShape) (a : Z) : option (option nat) :=
  h ← hash_table sh !! Z.to_nat (prop_hash_bucket a (prop_hash_mask sh));
  find_loop (length (sprop sh)) (sprop sh) a h.

Definition find_own_property (rt : shape_rt) (p : ptr) (a : Z) : option (option nat) :=
  o ← objects rt !! p; sh ← shapes rt !! oshape o; find_in_shape sh a.

Definition set_shape (rt : shape_rt) (p s : ptr) : option shape_rt :=
  o ← objects rt !! p; Some (set_object rt p (mk_pobject s (oprop o))).

(** [assert(js_rc(p->shape)->ref_count == 1)] and what follows it. *)
Definition add_own_property (rt : shape_rt) (p : ptr) (a prop_flags : Z) : option (option nat * shape_rt) :=
  o ← objects rt !! p;
  c ← shape_rc rt !! oshape o;
  if negb (c =? 1) then None else
  r ← add_shape_property rt p a prop_flags;
  match r with
  | (false, rt) => Some (None, rt)
  | (true, rt) =>
      o ← objects rt !! p;
      sh ← shapes rt !! oshape o;
      Some (Some (length (sprop sh) - 1)%nat, rt)
  end.

(** The index of the new entry of the property array, which the caller writes,
    or [None] for NULL. *)
Definition add_property (rt : shape_rt) (p : ptr) (a prop_flags : Z) : option (option nat * shape_rt) :=
  o ← objects rt !! p;
  let s := oshape o in
  sh ← shapes rt !! s;
  if negb (is_hashed sh) then add_own_property rt p a prop_flags else
  r ← find_hashed_shape_prop rt sh a prop_flags;
  match r with
  | Some s1 =>
      sh1 ← shapes rt !! s1;
      let (ok, rt) := if negb (prop_size sh1 =? prop_size sh) then js_malloc rt else (true, rt) in
      if negb ok then Some (None, rt) else
      let props := if negb (prop_size sh1 =? prop_size sh) then resize_array (oprop o) (prop_size sh1) else oprop o in
      rt ← js_dup_shape (set_object rt p (mk_pobject s1 props)) s1;
      rt ← js_free_shape rt s;
      Some (Some (length (sprop sh1) - 1)%nat, rt)
  | None =>
      c ← shape_rc rt !! s;
      if c =? 1 then add_own_property rt p a prop_flags else
      r ← js_clone_shape rt s;
      match r with
      | (None, rt) => Some (None, rt)
      | (Some s1, rt) =>
          sh1 ← shapes rt !! s1;
          rt ← js_shape_hash_link (put_shape rt s1 (set_hashed sh1 true)) s1;
          rt ← js_free_shape rt s;
          rt ← set_shape rt p s1;
          add_own_property rt p a prop_flags
      end
  end.

(** The shape of [p] may be changed after it: it is in no table and no other
    object has it. *)
Definition js_shape_prepare_update (rt : shape_rt) (p : ptr) : option (bool * shape_rt) :=
  o ← objects rt !! p;
  let s := oshape o in
  sh ← shapes rt !! s;
  let sh := set_plain sh false in
  let rt := put_shape rt s sh in
  if negb (is_hashed sh) then Some (true, rt) else
  c ← shape_rc rt !! s;
  if negb (c =? 1) then
    r ← js_clone_shape rt s;
    match r with
    | (None, rt) => Some (false, rt)
    | (Some s1, rt) =>
        rt ← js_free_shape rt s;
        rt ← set_shape rt p s1;
        Some (true, rt)
    end
  else
    rt ← js_shape_hash_unlink rt s;
    Some (true, put_shape rt s (set_hashed sh false)).

Definition set_props (sh : JSShape) (tab : list Z) (deleted : Z) (l : list JSShapeProperty) : JSShape :=
  mk_shape (is_hashed sh) (all_plain sh) (hash sh) tab (prop_size sh) deleted (sproto sh) l.

(** [prs] is the entry [i]. *)
Definition js_update_property_flags (rt : shape_rt) (p : ptr) (i : nat) (flags : Z) : option (bool * shape_rt) :=
  o ← objects rt !! p;
  sh ← shapes rt !! oshape o;
  pr ← sprop sh !! i;
  if flags =? pflags pr then Some (true, rt) else
  r ← js_shape_prepare_update rt p;
  match r with
  | (false, rt) => Some (false, rt)
  | (true, rt) =>
      o ← objects rt !! p;
      sh ← shapes rt !! oshape o;
      pr ← sprop sh !! i;
      Some (true, put_shape rt (oshape o) (set_props sh (hash_table sh) (deleted_prop_count sh)
        (<[i := mk_sprop (hash_next pr) (wrap 6 flags) (atom pr)]> (sprop sh))))
  end.

(** The entry and the one before it in its chain. *)
Fixpoint delete_find (fuel : nat) (l : list JSShapeProperty) (a h : Z) (lpr : option nat) : option (option (nat * option nat)) :=
  if h =? 0 then Some None else
  match fuel with
  | O => None
  | S fuel =>
      pr ← l !! Z.to_nat (h - 1);
      if atom pr =? a then Some (Some (Z.to_nat (h - 1), lpr)) else delete_find fuel l a (hash_next pr) (Some (Z.to_nat (h - 1)))
  end.

(** The entry [i] leaves its chain. *)
Definition delete_entry (sh : JSShape) (h1 i : nat) (lpr : option nat) : option JSShape :=
  pr ← sprop sh !! i;
  e ← match lpr with
      | Some j => lp ← sprop sh !! j; Some (<[j := mk_sprop (hash_next pr) (pflags lp) (atom lp)]> (sprop sh), hash_table sh)
      | None => Some (sprop sh, <[h1 := hash_next pr]> (hash_table sh))
      end;
  Some (set_props sh e.2 (deleted_prop_count sh + 1) (<[i := mk_sprop (hash_next pr) 0 JS_ATOM_NULL]> e.1)).

(** TRUE, FALSE or -1, and the value whose reference is given up. *)
Definition delete_property (rt : shape_rt) (p : ptr) (a : Z) : option (Z * option JSProperty * shape_rt) :=
  o ← objects rt !! p;
  sh ← shapes rt !! oshape o;
  let h1 := Z.to_nat (prop_hash_bucket a (prop_hash_mask sh)) in
  h ← hash_table sh !! h1;
  r ← delete_find (length (sprop sh)) (sprop sh) a h None;
  match r with
  | None => Some (1, None, rt)
  | Some (i, lpr) =>
      pr ← sprop sh !! i;
      if pflags pr & JS_PROP_CONFIGURABLE =? 0 then Some (0, None, rt) else
      r ← js_shape_prepare_update rt p;
      match r with
      | (false, rt) => Some (-1, None, rt)
      | (true, rt) =>
          o ← objects rt !! p;
          sh ← shapes rt !! oshape o;
          sh ← delete_entry sh h1 i lpr;
          v ← oprop o !! i;
          let rt := set_object (put_shape rt (oshape o) sh) p (mk_pobject (oshape o) (<[i := Some (prop_value JS_UNDEFINED)]> (oprop o))) in
          rt ← (if (8 <=? deleted_prop_count sh) && (prop_count sh ÷ 2 <=? deleted_prop_count sh)
                then r ← compact_properties rt p; Some r.2 else Some rt);
          Some (1, v, rt)
      end
  end.

(** ** Objects *)

(** The object of class JS_CLASS_OBJECT at the new address [p], without initial
    values. *)
Definition JS_NewObjectFromShape (rt : shape_rt) (s p : ptr) : option (bool * shape_rt) :=
  sh ← shapes rt !! s;
  let (ok, rt) := js_malloc rt in
  let (ok, rt) := if ok then js_malloc rt else (false, rt) in
  if negb ok then rt ← js_free_shape rt s; Some (false, rt)
  else Some (true, set_object rt p (mk_pobject s (replicate (Z.to_nat (prop_size sh)) None))).

Definition JS_NewObjectProtoClass (rt : shape_rt) (proto : option ptr) (p : ptr) : option (bool * shape_rt) :=
  r ← find_hashed_shape_proto rt proto;
  match r with
  | Some s => rt ← js_dup_shape rt s; JS_NewObjectFromShape rt s p
  | None =>
      r ← js_new_shape rt proto;
      match r with
      | (None, rt) => Some (false, rt)
      | (Some s, rt) => JS_NewObjectFromShape rt s p
      end
  end.

(** ** Property caches *)

Record JSPropCache := mk_pcache { pc_shape : option ptr; pc_idx : nat }.

(** The value read, or [None] for the answer -1. *)
Definition js_prop_cache_probe (rt : shape_rt) (p : ptr) (a : Z) (pc : JSPropCache) : option (option (option JSProperty) * JSPropCache * shape_rt) :=
  o ← objects rt !! p;
  let s := oshape o in
  if bool_decide (pc_shape pc = Some s) then
    v ← oprop o !! pc_idx pc; Some (Some v, pc, rt)
  else
    sh ← shapes rt !! s;
    r ← find_in_shape sh a;
    match r with
    | None => Some (None, pc, rt)
    | Some i =>
        pr ← sprop sh !! i;
        if negb (pflags pr & JS_PROP_TMASK =? 0) then Some (None, pc, rt) else
        v ← oprop o !! i;
        if is_hashed sh then
          rt ← match pc_shape pc with Some s0 => js_free_shape rt s0 | None => Some rt end;
          rt ← js_dup_shape rt s;
          Some (Some v, mk_pcache (Some s) i, rt)
        else Some (Some v, pc, rt)
    end.

Definition JS_FreePropCache (rt : shape_rt) (pc : JSPropCache) : option (JSPropCache * shape_rt) :=
  match pc_shape pc with Some s => rt ← js_free_shape rt s; Some (mk_pcache None (pc_idx pc), rt) | None => Some (pc, rt) end.

Definition JS_SameShape (rt : shape_rt) (a b : ptr) : option bool :=
  pa ← objects rt !! a; pb ← objects rt !! b; Some (bool_decide (oshape pa = oshape pb)).

End Engine.
