(* ===== verification/ShapeTables.v ===== *)
(** * The hash table of a shape

    The chains of a shape's table hold exactly the entries that are not
    deleted, each in the chain of its bucket, with falling indices; this file
    proves that adding, deleting, rebuilding and changing flags keep it so and
    what a search finds then. *)
From Stdlib Require Import ZArith Lia List.
From stdpp Require Import base numbers list option gmap.
From S2P Require Import Prelude Gc Shapes.

Lemma filter_ext_in {A} (P Q : A -> Prop) `{!forall x, Decision (P x), !forall x, Decision (Q x)} (l : list A) : (forall x, x ∈ l -> P x <-> Q x) -> filter P l = filter Q l.
Proof.
  induction l as [|x l IH]; intros Hx; [done|]. rewrite !filter_cons, IH by (intros y Hy; apply Hx; by right).
  pose proof (Hx x ltac:(left)). by destruct (decide (P x)), (decide (Q x)); try tauto.
Qed.

Section Tables.
Context {cfg : ShapeConfig}.

(** ** Buckets *)

Definition pow2 (n : nat) : Prop := exists k, (1 <= k <= 31)%nat /\ n = (2 ^ k)%nat.
Definition bucket_of (size : nat) (a : Z) : nat := Z.to_nat (prop_hash_bucket a (Z.of_nat size - 1)).

Lemma bucket_lt size a : pow2 size -> (bucket_of size a < size)%nat.
Proof.
  intros (k & Hk & ->). unfold bucket_of, prop_hash_bucket. rewrite Nat2Z.inj_pow. change (Z.of_nat 2) with 2.
  replace (2 ^ Z.of_nat k - 1) with (Z.ones (Z.of_nat k)) by (rewrite Z.ones_equiv; lia). rewrite Z.land_ones by lia.
  pose proof (Z.mod_pos_bound (if CONFIG_PROP_HASH_MIX then u32 a ^^ (u32 a >> 18) else u32 a) (2 ^ Z.of_nat k) ltac:(apply Z.pow_pos_nonneg; lia)). apply Nat2Z.inj_lt. rewrite Z2Nat.id, Nat2Z.inj_pow by lia. change (Z.of_nat 2) with 2. lia.
Qed.

Lemma pow2_test n : pow2 (Z.to_nat n) -> 0 <= n -> pow2_ok n = true.
Proof.
  intros (k & Hk & E) Hn. unfold pow2_ok. assert (n = 2 ^ Z.of_nat k) as ->.
  { apply (f_equal Z.of_nat) in E. rewrite Z2Nat.id, Nat2Z.inj_pow in E by lia. done. }
  apply andb_true_iff. split; [apply Z.leb_le; change 2 with (2 ^ 1) at 1; apply Z.pow_le_mono_r; lia|]. apply Z.eqb_eq.
  replace (2 ^ Z.of_nat k - 1) with (Z.ones (Z.of_nat k)) by (rewrite Z.ones_equiv; lia). rewrite Z.land_ones by lia. apply Z.mod_same.
  apply Z.pow_nonzero; lia.
Qed.

(** ** Chains *)

(** The chain from [h] to [dst] goes through the entries [js]. *)
Fixpoint linked (l : list JSShapeProperty) (h : Z) (js : list nat) (dst : Z) : Prop :=
  match js with
  | [] => h = dst
  | j :: js => h = Z.of_nat j + 1 /\ exists pr, l !! j = Some pr /\ linked l (hash_next pr) js dst
  end.

Lemma linked_app l h js1 js2 dst : linked l h (js1 ++ js2) dst <-> exists m, linked l h js1 m /\ linked l m js2 dst.
Proof.
  revert h. induction js1 as [|j js1 IH]; intros h; cbn [app linked].
  - split; [intros ?; by exists h|by intros (m & -> & ?)].
  - split.
    + intros (-> & pr & E & (m & H1 & H2)%IH). exists m. split; [|done]. split; [done|]. by exists pr.
    + intros (m & (-> & pr & E & H1) & H2). split; [done|]. exists pr. split; [done|]. apply IH. by exists m.
Qed.

Lemma linked_ext l l' h js dst : (forall j pr, j ∈ js -> l !! j = Some pr -> exists pr', l' !! j = Some pr' /\ hash_next pr' = hash_next pr) ->
  linked l h js dst -> linked l' h js dst.
Proof.
  revert h. induction js as [|j js IH]; intros h Hext; cbn [linked]; [done|]. intros (-> & pr & E & Hl).
  destruct (Hext j pr) as (pr' & E' & Hn); [left|done|]. split; [done|]. exists pr'. split; [done|]. rewrite Hn. apply IH; [|done].
  intros i q Hi. apply Hext. by right.
Qed.

Lemma linked_bound l h js dst j : linked l h js dst -> j ∈ js -> (j < length l)%nat.
Proof.
  revert h. induction js as [|i js IH]; intros h; [by intros _ ?%not_elem_of_nil|]. intros (_ & pr & E & Hl) [->|Hj]%elem_of_cons; [by apply lookup_lt_Some in E|by apply (IH _ Hl)].
Qed.

Lemma linked_head l h js : linked l h js 0 -> 0 <= h <= Z.of_nat (length l).
Proof. destruct js as [|j js]; cbn [linked]; [intros ->; lia|]. intros (-> & pr & E%lookup_lt_Some & _). lia. Qed.

(** ** Tables *)

Definition in_bucket (l : list JSShapeProperty) (size b j : nat) : bool :=
  match l !! j with Some pr => live_entry pr && (bucket_of size (atom pr) =? b)%nat | None => false end.
Definition members (l : list JSShapeProperty) (size b : nat) : list nat :=
  rev (filter (fun j => in_bucket l size b j = true) (seq 0 (length l))).

Definition table_ok (l : list JSShapeProperty) (tab : list Z) : Prop :=
  forall b h, tab !! b = Some h -> linked l h (members l (length tab) b) 0.

Lemma elem_members l size b j : j ∈ members l size b <-> in_bucket l size b j = true.
Proof.
  unfold members. rewrite list_elem_of_In, <- in_rev, <- list_elem_of_In, list_elem_of_filter, elem_of_seq. split; [by intros [? _]|]. intros Hj. split; [done|].
  unfold in_bucket in Hj. destruct (l !! j) eqn:E; [|done]. apply lookup_lt_Some in E. lia.
Qed.

Lemma members_NoDup l size b : NoDup (members l size b).
Proof. unfold members. rewrite NoDup_ListNoDup. apply NoDup_rev. rewrite <- NoDup_ListNoDup. apply NoDup_filter, NoDup_seq. Qed.

Lemma members_len l size b : (length (members l size b) <= length l)%nat.
Proof. unfold members. rewrite length_rev. etrans; [apply length_filter|]. by rewrite length_seq. Qed.

Lemma members_ext l l' size b : length l = length l' -> (forall j, in_bucket l size b j = in_bucket l' size b j) -> members l size b = members l' size b.
Proof. intros Hl Hj. unfold members. rewrite Hl. f_equal. apply list_filter_iff. intros j. by rewrite Hj. Qed.

Lemma members_snoc l pr size b : members (l ++ [pr]) size b =
  (if live_entry pr && (bucket_of size (atom pr) =? b)%nat then [length l] else []) ++ members l size b.
Proof.
  unfold members. rewrite length_app. cbn [length]. rewrite seq_app, filter_app, rev_app_distr. cbn [seq plus]. f_equal.
  - rewrite filter_cons, filter_nil. unfold in_bucket. rewrite lookup_app_r, Nat.sub_diag by lia. cbn. by destruct (_ && _).
  - f_equal. apply filter_ext_in. intros j Hj%elem_of_seq. unfold in_bucket. by rewrite lookup_app_l by lia.
Qed.

Lemma linked_snoc l pr h js : linked l h js 0 -> linked (l ++ [pr]) h js 0.
Proof. apply linked_ext. intros j q _ E. exists q. split; [|done]. by apply lookup_app_l_Some. Qed.

(** A new entry, or a rebuilt one, becomes the head of its chain. *)
Lemma chain_entry_spec l tab a f : table_ok l tab -> pow2 (length tab) -> a <> JS_ATOM_NULL -> Z.of_nat (length l) < 2 ^ 26 ->
  exists pr tab', chain_entry tab a f (length l) = Some (pr, tab') /\ atom pr = a /\ pflags pr = f /\ length tab' = length tab /\ table_ok (l ++ [pr]) tab'.
Proof.
  intros Ht Hp Ha Hlen. unfold chain_entry. fold (bucket_of (length tab) a). pose proof (bucket_lt _ a Hp) as Hb.
  destruct (lookup_lt_is_Some_2 _ _ Hb) as [n En]. rewrite En. cbn [mbind option_bind]. pose proof (Ht _ _ En) as Hl. pose proof (linked_head _ _ _ Hl) as Hn.
  eexists _, _. split; [done|]. cbn [atom pflags]. rewrite length_insert. split_and!; try done. intros b h Eh.
  rewrite length_insert, members_snoc. cbn [atom]. unfold live_entry at 1. cbn [atom]. rewrite (proj2 (Z.eqb_neq _ _)) by done. cbn [negb andb].
  destruct (Nat.eqb_spec (bucket_of (length tab) a) b) as [<-|Hne].
  - rewrite list_lookup_insert_eq in Eh by done. injection Eh as <-. cbn [app linked]. split; [lia|]. eexists. rewrite lookup_app_r, Nat.sub_diag by lia. split; [done|].
    cbn [hash_next]. rewrite wrap_id by (unfold fits; lia). by apply linked_snoc.
  - rewrite list_lookup_insert_ne in Eh by done. cbn [app]. by apply linked_snoc, Ht.
Qed.

Lemma table_dead l tab pr : table_ok l tab -> live_entry pr = false -> table_ok (l ++ [pr]) tab.
Proof. intros Ht Hd b h Eh. rewrite members_snoc, Hd. cbn [andb app]. by apply linked_snoc, Ht. Qed.

Definition signature (l : list JSShapeProperty) : list (Z * Z) := (fun pr => (atom pr, pflags pr)) <$> l.

Lemma rebuild_spec l pre tab : table_ok pre tab -> pow2 (length tab) -> Z.of_nat (length pre + length l) < 2 ^ 26 ->
  exists l' tab', rebuild l (length pre) tab = Some (l', tab') /\ signature l' = signature l /\ length tab' = length tab /\ table_ok (pre ++ l') tab'.
Proof.
  revert pre tab. induction l as [|pr l IH]; intros pre tab Ht Hp Hlen; cbn [rebuild length] in *.
  - exists [], tab. rewrite app_nil_r. by split_and!.
  - destruct (Z.eqb_spec (atom pr) JS_ATOM_NULL) as [Hn|Hn].
    + destruct (IH (pre ++ [pr]) tab) as (l' & tab' & E & Hs & Hlt & Htab); [apply table_dead; [done|unfold live_entry; by rewrite Hn]|done|rewrite length_app; cbn; lia|].
      rewrite length_app, Nat.add_1_r in E. rewrite E. cbn. exists (pr :: l'), tab'. split_and!; [done| |done|].
      * unfold signature in *. cbn. by rewrite Hs.
      * by rewrite <- app_assoc in Htab.
    + destruct (chain_entry_spec pre tab (atom pr) (pflags pr) Ht Hp Hn ltac:(lia)) as (pr' & tab1 & E1 & Ea & Ef & Hl1 & Ht1). rewrite E1. cbn.
      destruct (IH (pre ++ [pr']) tab1) as (l' & tab' & E & Hs & Hlt & Htab); [done|by rewrite Hl1|rewrite length_app; cbn; lia|].
      rewrite length_app, Nat.add_1_r in E. rewrite E. cbn. exists (pr' :: l'), tab'. split_and!; [done| |congruence|].
      * unfold signature in *. cbn. by rewrite Hs, Ea, Ef.
      * by rewrite <- app_assoc in Htab.
Qed.

Lemma table_empty n : table_ok [] (replicate n 0).
Proof. intros b h [-> _]%lookup_replicate. unfold members. cbn. done. Qed.

Lemma rebuild_all l n : pow2 n -> Z.of_nat (length l) < 2 ^ 26 ->
  exists l' tab', rebuild l 0 (replicate n 0) = Some (l', tab') /\ signature l' = signature l /\ length tab' = n /\ table_ok l' tab'.
Proof.
  intros Hp Hl. destruct (rebuild_spec l [] (replicate n 0) (table_empty n)) as (l' & tab' & E & ? & Hlen & ?); [by rewrite length_replicate|done|].
  exists l', tab'. rewrite length_replicate in Hlen. by split_and!.
Qed.

(** ** Searching *)

Lemma chain_find_spec fuel l a h js : linked l h js 0 -> (length js <= fuel)%nat ->
  exists r, find_loop fuel l a h = Some r /\
    match r with Some j => j ∈ js /\ exists pr, l !! j = Some pr /\ atom pr = a | None => forall j pr, j ∈ js -> l !! j = Some pr -> atom pr <> a end.
Proof.
  revert h js. induction fuel as [|fuel IH]; intros h [|j js] Hl Hf; cbn [linked length find_loop] in *; try lia.
  - subst h. exists None. split; [done|]. by intros j pr ?%not_elem_of_nil.
  - subst h. exists None. split; [done|]. by intros j pr ?%not_elem_of_nil.
  - destruct Hl as (-> & pr & E & Hl). rewrite (proj2 (Z.eqb_neq _ _)) by lia. replace (Z.of_nat j + 1 - 1) with (Z.of_nat j) by lia. rewrite Nat2Z.id, E. cbn [mbind option_bind].
    destruct (Z.eqb_spec (atom pr) a) as [Ha|Ha].
    + exists (Some j). split; [done|]. split; [left|]. by exists pr.
    + destruct (IH _ js Hl ltac:(lia)) as (r & -> & Hr). exists r. split; [done|]. destruct r as [i|].
      * destruct Hr as [Hi ?]. split; [by right|done].
      * intros i q [->|Hi]%elem_of_cons Eq; [congruence|]. by apply (Hr i).
Qed.

Lemma delete_find_spec fuel l a h pre js lpr : linked l h js 0 -> (length js <= fuel)%nat -> lpr = last pre ->
  exists r, delete_find fuel l a h lpr = Some r /\
    match r with
    | Some (j, lpr') => exists js1 js2 pr, js = js1 ++ j :: js2 /\ l !! j = Some pr /\ atom pr = a /\ lpr' = last (pre ++ js1)
    | None => forall j pr, j ∈ js -> l !! j = Some pr -> atom pr <> a
    end.
Proof.
  revert h pre js lpr. induction fuel as [|fuel IH]; intros h pre [|j js] lpr Hl Hf ->; cbn [linked length delete_find] in *; try lia.
  - subst h. exists None. split; [done|]. by intros j pr ?%not_elem_of_nil.
  - subst h. exists None. split; [done|]. by intros j pr ?%not_elem_of_nil.
  - destruct Hl as (-> & pr & E & Hl). rewrite (proj2 (Z.eqb_neq _ _)) by lia. replace (Z.of_nat j + 1 - 1) with (Z.of_nat j) by lia. rewrite Nat2Z.id, E. cbn [mbind option_bind].
    destruct (Z.eqb_spec (atom pr) a) as [Ha|Ha].
    + eexists. split; [done|]. exists [], js, pr. by rewrite app_nil_r.
    + destruct (IH _ (pre ++ [j]) js (Some j) Hl ltac:(lia)) as (r & -> & Hr); [by rewrite last_snoc|]. exists r. split; [done|]. destruct r as [[i lp]|].
      * destruct Hr as (js1 & js2 & q & -> & Eq & Hq & ->). exists (j :: js1), js2, q. split_and!; try done. by rewrite <- app_assoc.
      * intros i q [->|Hi]%elem_of_cons Eq; [congruence|]. by apply (Hr i).
Qed.

(** ** Well-formed shapes *)

Definition live_sig (sg : list (Z * Z)) : list (Z * Z) := filter (fun e => e.1 <> JS_ATOM_NULL) sg.

Record shape_ok (sh : JSShape) : Prop := {
  so_table : table_ok (sprop sh) (hash_table sh);
  so_pow2 : pow2 (length (hash_table sh));
  so_count : prop_count sh <= prop_size sh /\ prop_count sh < 2 ^ 26;
  so_size : 2 <= prop_size sh < 2 ^ 27;
  so_atoms : NoDup (live_sig (signature (sprop sh))).*1;
  so_deleted : deleted_prop_count sh = prop_count sh - Z.of_nat (length (live_sig (signature (sprop sh))));
  so_flags : Forall (fun e => 0 <= e.2 < 64) (signature (sprop sh));
  so_hash : fits 32 (hash sh);
  so_plain : all_plain sh = true -> Forall (fun e => e.2 & JS_PROP_TMASK = 0) (signature (sprop sh))
}.

Lemma signature_len l : length (signature l) = length l.
Proof. unfold signature. by rewrite length_fmap. Qed.

Lemma signature_lookup l j pr : l !! j = Some pr -> signature l !! j = Some (atom pr, pflags pr).
Proof. intros E. unfold signature. by rewrite list_lookup_fmap, E. Qed.

Lemma live_entry_sig pr : live_entry pr = true <-> atom pr <> JS_ATOM_NULL.
Proof. unfold live_entry. rewrite negb_true_iff. apply Z.eqb_neq. Qed.

(** The entries of two shapes are the same when chains and tables apart they
    have the same names and flags. *)
Lemma signature_eq l l' : signature l = signature l' -> length l = length l'.
Proof. intros E%(f_equal length). by rewrite !signature_len in E. Qed.

Lemma find_in_shape_spec sh a : shape_ok sh -> a <> JS_ATOM_NULL ->
  exists r, find_in_shape sh a = Some r /\
    match r with Some j => exists f, signature (sprop sh) !! j = Some (a, f) | None => a ∉ (live_sig (signature (sprop sh))).*1 end.
Proof.
  intros Hok Ha. unfold find_in_shape, prop_hash_mask, prop_hash_size. fold (bucket_of (length (hash_table sh)) a).
  destruct (lookup_lt_is_Some_2 _ _ (bucket_lt _ a (so_pow2 _ Hok))) as [h Eh]. rewrite Eh. cbn [mbind option_bind].
  destruct (chain_find_spec (length (sprop sh)) (sprop sh) a h _ (so_table _ Hok _ _ Eh) (members_len _ _ _)) as (r & -> & Hr). exists r. split; [done|].
  destruct r as [j|].
  - destruct Hr as (_ & pr & E & <-). exists (pflags pr). by apply signature_lookup.
  - intros Hin. apply list_elem_of_fmap in Hin as ([a' f] & -> & [_ Hin]%list_elem_of_filter). cbn in *.
    apply list_elem_of_fmap in Hin as (pr & Epr & Hin). injection Epr as -> ->. apply list_elem_of_lookup in Hin as [j Ej].
    apply (Hr j pr); [|done|done]. apply elem_members. unfold in_bucket. rewrite Ej, (proj2 (live_entry_sig pr) Ha), Nat.eqb_refl. done.
Qed.

(** *** Changing flags *)

Lemma table_same l l' tab : (forall j, hash_next <$> l' !! j = hash_next <$> l !! j) -> (forall j, atom <$> l' !! j = atom <$> l !! j) -> length l = length l' ->
  table_ok l tab -> table_ok l' tab.
Proof.
  intros Hn Ha Hl Ht b h Eh. rewrite <- (members_ext l l'); [|done|].
  - apply (linked_ext l); [|by apply Ht]. intros j pr _ E. specialize (Hn j). rewrite E in Hn. cbn in Hn. destruct (l' !! j) as [pr'|]; [|done]. cbn in Hn. injection Hn as ?. by exists pr'.
  - intros j. unfold in_bucket. specialize (Ha j). destruct (l !! j) as [pr|], (l' !! j) as [pr'|]; try done. cbn in Ha. injection Ha as Ha. unfold live_entry. by rewrite Ha.
Qed.

Lemma live_sig_flags sg j a f f' : sg !! j = Some (a, f) -> (live_sig (<[j := (a, f')]> sg)).*1 = (live_sig sg).*1.
Proof.
  revert j. induction sg as [|[a0 f0] sg IH]; intros [|j] E; try done.
  - cbn in E. injection E as -> ->. change (<[0%nat := (a, f')]> ((a, f) :: sg)) with ((a, f') :: sg). unfold live_sig. rewrite !filter_cons. cbn. by destruct (decide _).
  - change (sg !! j = Some (a, f)) in E. change (<[S j := (a, f')]> ((a0, f0) :: sg)) with ((a0, f0) :: <[j := (a, f')]> sg).
    specialize (IH j E). unfold live_sig in *. rewrite !filter_cons. cbn. destruct (decide _); cbn; by rewrite IH.
Qed.

Lemma set_flags_ok sh i pr f : shape_ok sh -> all_plain sh = false -> sprop sh !! i = Some pr -> 0 <= f < 64 ->
  shape_ok (set_props sh (hash_table sh) (deleted_prop_count sh) (<[i := mk_sprop (hash_next pr) f (atom pr)]> (sprop sh))) /\
  signature (<[i := mk_sprop (hash_next pr) f (atom pr)]> (sprop sh)) = <[i := (atom pr, f)]> (signature (sprop sh)).
Proof.
  intros [H1 H2 H3 H4 H5 H6 H7 H8 _] Hpl E Hf.
  assert (Hs : signature (<[i := mk_sprop (hash_next pr) f (atom pr)]> (sprop sh)) = <[i := (atom pr, f)]> (signature (sprop sh))).
  { unfold signature. by rewrite list_fmap_insert. }
  pose proof (signature_lookup _ _ _ E) as Es. pose proof (live_sig_flags _ _ _ _ f Es) as Hl. split; [|done].
  unfold prop_count in *. split; unfold prop_count; cbn [set_props sprop hash_table prop_size deleted_prop_count hash]; rewrite ?Hs, ?length_insert; try done.
  - apply (table_same (sprop sh)); [| |by rewrite length_insert|done]; intros j; (destruct (decide (j = i)) as [->|]; [rewrite list_lookup_insert_eq, E by (by apply lookup_lt_Some in E); done|by rewrite list_lookup_insert_ne]).
  - by rewrite Hl.
  - apply (f_equal length) in Hl. rewrite !length_fmap in Hl. by rewrite Hl.
  - by apply Forall_insert.
  - cbn. congruence.
Qed.

(** *** Deleting an entry *)

Lemma filter_ne_absent (j : nat) (js : list nat) : j ∉ js -> filter (fun i => i <> j) js = js.
Proof. induction js as [|i js IH]; [done|]. intros [Hi Hj]%not_elem_of_cons. rewrite filter_cons, decide_True by congruence. by rewrite IH. Qed.

Lemma filter_ne_split (j : nat) (js1 js2 : list nat) : NoDup (js1 ++ j :: js2) -> filter (fun i => i <> j) (js1 ++ j :: js2) = js1 ++ js2.
Proof.
  intros (H1 & H2 & [H3 H4]%NoDup_cons)%NoDup_app. rewrite filter_app, filter_cons, decide_False by (intros Hn; by apply Hn).
  rewrite !filter_ne_absent; [done|done|]. intros Hj. apply (H2 j Hj). left.
Qed.

Lemma filter_rev {A} (P : A -> Prop) `{!forall x, Decision (P x)} (l : list A) : filter P (rev l) = rev (filter P l).
Proof. induction l as [|x l IH]; [done|]. cbn [rev]. rewrite filter_app, IH, !filter_cons, filter_nil. destruct (decide (P x)); [done|]. by rewrite app_nil_r. Qed.

Lemma members_delete l l' size b j : length l = length l' -> (forall i, i <> j -> atom <$> l' !! i = atom <$> l !! i) -> (forall pr, l' !! j = Some pr -> live_entry pr = false) ->
  members l' size b = filter (fun i => i <> j) (members l size b).
Proof.
  intros Hl Hne Hj. unfold members. rewrite <- Hl, filter_rev. f_equal. rewrite list_filter_filter. apply list_filter_iff. intros i. unfold in_bucket.
  destruct (decide (i = j)) as [->|Hi].
  - destruct (l' !! j) as [pr|] eqn:E; [rewrite (Hj pr eq_refl)|]; cbn; split; try done; tauto.
  - specialize (Hne i Hi). destruct (l !! i) as [pr|], (l' !! i) as [pr'|]; try done; cbn in Hne; [|tauto]. injection Hne as Hne. unfold live_entry. rewrite Hne. tauto.
Qed.

Lemma table_delete l l' tab tab' b j h js1 js2 pr : table_ok l tab -> length l' = length l -> length tab' = length tab ->
  l !! j = Some pr -> tab !! b = Some h -> members l (length tab) b = js1 ++ j :: js2 ->
  (forall i, i <> j -> atom <$> l' !! i = atom <$> l !! i) -> (forall q, l' !! j = Some q -> live_entry q = false) ->
  (forall i, Some i <> last js1 -> hash_next <$> l' !! i = hash_next <$> l !! i) ->
  (forall i, Some i = last js1 -> hash_next <$> l' !! i = Some (hash_next pr)) ->
  tab' = match last js1 with Some _ => tab | None => <[b := hash_next pr]> tab end ->
  table_ok l' tab'.
Proof.
  intros Ht Hl Hlt Ej Eb Hm Hatom Hdead Hnext Hlast Etab c h' Eh. rewrite Hlt.
  pose proof (members_NoDup l (length tab) b) as Hnd. rewrite Hm in Hnd.
  assert (Hstep : forall i q, Some i <> last js1 -> l !! i = Some q -> exists q', l' !! i = Some q' /\ hash_next q' = hash_next q).
  { intros i q Hi E. specialize (Hnext i Hi). rewrite E in Hnext. cbn in Hnext. destruct (l' !! i) as [q'|]; [|done]. cbn in Hnext. injection Hnext as ?. by exists q'. }
  rewrite (members_delete l l' _ _ j) by done. destruct (decide (c = b)) as [->|Hc].
  - rewrite Hm, filter_ne_split by done. pose proof (Ht b h Eb) as Hlk. rewrite Hm in Hlk. apply linked_app in Hlk as (m & Hl1 & (-> & pr' & Ej' & Hl2)).
    rewrite Ej in Ej'. injection Ej' as <-. apply linked_app. exists (hash_next pr).
    assert (Hrest : linked l' (hash_next pr) js2 0).
    { apply (linked_ext l); [|done]. intros i q Hi. apply Hstep. intros Hli. symmetry in Hli. apply last_Some in Hli as [js1' ->].
      apply NoDup_app in Hnd as (_ & Hx & _). apply (Hx i); [apply elem_of_app; right; left|by right]. }
    split; [|done]. destruct js1 as [|k js1] using rev_ind.
    + cbn in Etab. rewrite Etab, list_lookup_insert_eq in Eh by (by apply lookup_lt_Some in Eb). by injection Eh as <-.
    + clear IHjs1. rewrite last_snoc in *. subst tab'. rewrite Eb in Eh. injection Eh as <-. apply linked_app in Hl1 as (m & Hl1 & Hk). apply linked_app.
      exists m. destruct Hk as (-> & q & Ek & _). split.
      * apply (linked_ext l); [|done]. intros i q' Hi. apply Hstep. intros [= ->]. rewrite <- app_assoc in Hnd. apply NoDup_app in Hnd as (_ & Hx & _).
        apply (Hx k); [done|]. cbn. left.
      * cbn [linked]. split; [done|]. specialize (Hlast k eq_refl). destruct (l' !! k) as [q'|] eqn:E'; [|done]. exists q'. split; [done|]. cbn in Hlast. by injection Hlast as ->.
  - assert (Hjc : forall i, i ∈ js1 ++ j :: js2 -> i ∉ members l (length tab) c).
    { intros i Hi. rewrite <- Hm in Hi. rewrite !elem_members in *. unfold in_bucket in *. destruct (l !! i) as [q|]; [|done].
      apply andb_true_iff in Hi as [_ Hi%Nat.eqb_eq]. rewrite Hi, (proj2 (Nat.eqb_neq _ _)) by done. by rewrite andb_false_r. }
    rewrite filter_ne_absent by (apply Hjc; apply elem_of_app; right; left).
    apply (linked_ext l).
    + intros i q Hi. apply Hstep. intros Hli. symmetry in Hli. apply last_Some in Hli as [js1' ->]. apply (Hjc i); [|done].
      apply elem_of_app. left. apply elem_of_app. right. left.
    + apply Ht. destruct (last js1); [by rewrite <- Etab|]. by rewrite Etab, list_lookup_insert_ne in Eh.
Qed.

Lemma live_sig_delete sg j a f : sg !! j = Some (a, f) -> a <> JS_ATOM_NULL ->
  exists s1 s2, live_sig sg = s1 ++ (a, f) :: s2 /\ live_sig (<[j := (JS_ATOM_NULL, 0)]> sg) = s1 ++ s2.
Proof.
  intros E Ha. apply list_elem_of_split_length in E as (l1 & l2 & -> & ->). rewrite insert_app_r_alt, Nat.sub_diag by lia.
  exists (live_sig l1), (live_sig l2). change (<[0%nat := (JS_ATOM_NULL, 0)]> ((a, f) :: l2)) with ((JS_ATOM_NULL, 0) :: l2).
  unfold live_sig. rewrite !filter_app, !filter_cons, decide_True by done. rewrite decide_False; [done|]. cbn. tauto.
Qed.

Lemma delete_entry_spec sh b h j pr js1 js2 : shape_ok sh -> hash_table sh !! b = Some h -> members (sprop sh) (length (hash_table sh)) b = js1 ++ j :: js2 ->
  sprop sh !! j = Some pr ->
  exists sh', delete_entry sh b j (last js1) = Some sh' /\ shape_ok sh' /\ signature (sprop sh') = <[j := (JS_ATOM_NULL, 0)]> (signature (sprop sh)) /\
    is_hashed sh' = is_hashed sh /\ prop_size sh' = prop_size sh /\ deleted_prop_count sh' = deleted_prop_count sh + 1.
Proof.
  intros Hok Eb Hm Ej. pose proof Hok as [H1 H2 H3 H4 H5 H6 H7 H8 H9].
  assert (Hlive : atom pr <> JS_ATOM_NULL).
  { assert (Hj : j ∈ members (sprop sh) (length (hash_table sh)) b) by (rewrite Hm; apply elem_of_app; right; left).
    apply elem_members in Hj. unfold in_bucket in Hj. rewrite Ej in Hj. apply andb_true_iff in Hj as [Hj _]. by apply live_entry_sig. }
  pose proof (members_NoDup (sprop sh) (length (hash_table sh)) b) as Hnd. rewrite Hm in Hnd.
  assert (Hk : forall k, last js1 = Some k -> k <> j /\ exists q, sprop sh !! k = Some q).
  { intros k [js1' ->]%last_Some. split.
    - intros ->. apply NoDup_app in Hnd as (_ & Hx & _). apply (Hx j); [apply elem_of_app; right; left|left].
    - apply lookup_lt_is_Some_2. apply (linked_bound _ _ _ _ k (H1 _ _ Eb)). rewrite Hm. apply elem_of_app. left. apply elem_of_app. right. left. }
  pose (l1 := match last js1 with Some k => <[k := mk_sprop (hash_next pr) (default 0 (pflags <$> sprop sh !! k)) (default 0 (atom <$> sprop sh !! k))]> (sprop sh) | None => sprop sh end).
  pose (tab' := match last js1 with Some _ => hash_table sh | None => <[b := hash_next pr]> (hash_table sh) end).
  pose (l' := <[j := mk_sprop (hash_next pr) 0 JS_ATOM_NULL]> l1).
  assert (Hl1 : length l1 = length (sprop sh)) by (unfold l1; destruct (last js1); by rewrite ?length_insert).
  assert (Hl1a : forall i, atom <$> l1 !! i = atom <$> sprop sh !! i /\ pflags <$> l1 !! i = pflags <$> sprop sh !! i).
  { intros i. unfold l1. destruct (last js1) as [k|]; [|done]. destruct (Hk k eq_refl) as [_ [q Eq]]. destruct (decide (i = k)) as [->|].
    - rewrite list_lookup_insert_eq, Eq by (by apply lookup_lt_Some in Eq). done.
    - by rewrite list_lookup_insert_ne. }
  assert (Hjlt : (j < length l1)%nat) by (rewrite Hl1; by apply lookup_lt_Some in Ej).
  assert (Hs : signature l' = <[j := (JS_ATOM_NULL, 0)]> (signature (sprop sh))).
  { unfold l', signature. rewrite list_fmap_insert. f_equal. apply list_eq. intros i. rewrite !list_lookup_fmap. destruct (Hl1a i) as [Ha Hf].
    destruct (l1 !! i), (sprop sh !! i); try done. cbn in *. congruence. }
  exists (set_props sh tab' (deleted_prop_count sh + 1) l'). split_and!; try done.
  { unfold delete_entry, l', l1, tab'. rewrite Ej. cbn [mbind option_bind]. destruct (last js1) as [k|]; [|done]. destruct (Hk k eq_refl) as [_ [q ->]]. done. }
  pose proof (signature_lookup _ _ _ Ej) as Es. destruct (live_sig_delete _ _ _ _ Es Hlive) as (s1 & s2 & E1 & E2).
  unfold prop_count in *. split; unfold prop_count; cbn [set_props sprop hash_table prop_size deleted_prop_count hash]; rewrite ?Hs, ?E2; try done.
  - apply (table_delete (sprop sh) l' (hash_table sh) tab' b j h js1 js2 pr); try done.
    + unfold l'. by rewrite length_insert.
    + unfold tab'. destruct (last js1); by rewrite ?length_insert.
    + intros i Hi. unfold l'. rewrite list_lookup_insert_ne by done. apply Hl1a.
    + intros q. unfold l'. rewrite list_lookup_insert_eq by done. by intros [= <-].
    + intros i Hi. unfold l'. destruct (decide (i = j)) as [->|Hij]; [rewrite list_lookup_insert_eq by done; by rewrite Ej|]. rewrite list_lookup_insert_ne by done. unfold l1.
      destruct (last js1) as [k|]; [|done]. rewrite list_lookup_insert_ne; [done|]. congruence.
    + intros i Hi. symmetry in Hi. destruct (Hk i Hi) as [Hij [q Eq]]. unfold l'. rewrite list_lookup_insert_ne by done. unfold l1. rewrite Hi.
      rewrite list_lookup_insert_eq by (by apply lookup_lt_Some in Eq). done.
  - unfold tab'. destruct (last js1); by rewrite ?length_insert.
  - unfold l'. by rewrite length_insert, Hl1.
  - rewrite E1, fmap_app, fmap_cons in H5. rewrite fmap_app. cbn in H5. rewrite NoDup_ListNoDup in *. by apply List.NoDup_remove_1 in H5.
  - unfold l'. rewrite length_insert, Hl1. rewrite E1, length_app in H6. cbn [length] in H6. rewrite length_app. lia.
  - by apply Forall_insert.
  - intros Hpl. apply Forall_insert; [by apply H9|done].
Qed.

(** *** Adding an entry *)

Lemma append_ok sh a f hsh : shape_ok sh -> a <> JS_ATOM_NULL -> a ∉ (live_sig (signature (sprop sh))).*1 -> 0 <= f < 64 ->
  prop_count sh < prop_size sh -> prop_count sh + 1 < 2 ^ 26 -> fits 32 hsh ->
  exists pr tab', chain_entry (hash_table sh) a f (length (sprop sh)) = Some (pr, tab') /\
    shape_ok (mk_shape (is_hashed sh) (if negb (f & JS_PROP_TMASK =? 0) then false else all_plain sh) hsh tab' (prop_size sh) (deleted_prop_count sh) (sproto sh) (sprop sh ++ [pr])) /\
    signature (sprop sh ++ [pr]) = signature (sprop sh) ++ [(a, f)].
Proof.
  intros [H1 H2 H3 H4 H5 H6 H7 H8 H9] Ha Hna Hf Hsz Hcnt Hh. destruct (chain_entry_spec (sprop sh) (hash_table sh) a f H1 H2 Ha) as (pr & tab' & E & Ea & Ef & Hlen & Ht).
  { unfold prop_count in *. lia. }
  exists pr, tab'. split; [done|]. assert (Hs : signature (sprop sh ++ [pr]) = signature (sprop sh) ++ [(a, f)]) by (unfold signature; rewrite fmap_app; cbn; by rewrite Ea, Ef).
  assert (Hls : live_sig (signature (sprop sh) ++ [(a, f)]) = live_sig (signature (sprop sh)) ++ [(a, f)]).
  { unfold live_sig. rewrite filter_app. f_equal. rewrite filter_cons, filter_nil. cbn. by rewrite decide_True. }
  split; [|done]. unfold prop_count in *. split; unfold prop_count; cbn [sprop hash_table prop_size deleted_prop_count hash]; rewrite ?Hs, ?Hls, ?length_app; cbn [length]; try done.
  - by rewrite Hlen.
  - lia.
  - rewrite fmap_app. cbn. apply NoDup_app. split_and!; [done| |apply NoDup_singleton]. intros x Hx ->%list_elem_of_singleton. done.
  - lia.
  - apply Forall_app. split; [done|]. by apply Forall_singleton.
  - cbn [all_plain]. destruct (Z.eqb_spec (f & JS_PROP_TMASK) 0) as [Hp|]; cbn [negb]; [|done]. intros Hpl. apply Forall_app. split; [by apply H9|]. by apply Forall_singleton.
Qed.

(** *** Growing and compacting *)

Lemma pow2_double_ok n : pow2 (Z.to_nat n) -> 0 <= n < 2 ^ 30 -> pow2 (Z.to_nat (2 * n)) /\ u32 (2 * n) = 2 * n.
Proof.
  intros (k & Hk & E) Hn. split; [|rewrite wrap_id; [done|unfold fits; lia]]. assert (Hk30 : (k < 30)%nat).
  { destruct (decide (k < 30)%nat); [done|]. apply (f_equal Z.of_nat) in E. rewrite Z2Nat.id, Nat2Z.inj_pow in E by lia. change (Z.of_nat 2) with 2 in E.
    assert (2 ^ 30 <= 2 ^ Z.of_nat k) by (apply Z.pow_le_mono_r; lia). lia. }
  exists (S k). split; [lia|]. rewrite Z2Nat.inj_mul by lia. rewrite E. change (Z.to_nat 2) with 2%nat. by rewrite Nat.pow_succ_r'.
Qed.

Lemma grow_hash_spec fuel n size : pow2 (Z.to_nat n) -> 0 < n -> 0 <= size < 2 ^ 30 -> size <= n * 2 ^ Z.of_nat fuel ->
  exists n', grow_hash_size fuel n size = Some n' /\ pow2 (Z.to_nat n') /\ n <= n'.
Proof.
  revert n. induction fuel as [|fuel IH]; intros n Hp Hn Hs Hf; cbn [grow_hash_size]; (destruct (Z.ltb_spec n size); [|exists n; split_and!; [done..|lia]]).
  - change (2 ^ Z.of_nat 0) with 1 in Hf. lia.
  - destruct (pow2_double_ok n Hp ltac:(lia)) as [Hp2 ->]. destruct (IH (2 * n) Hp2) as (n' & E & Hp' & Hle); [lia|lia| |exists n'; split_and!; [done..|lia]].
    rewrite Nat2Z.inj_succ, Z.pow_succ_r in Hf by lia. lia.
Qed.

Lemma grown_ok sh size n' hsh : shape_ok sh -> prop_count sh <= size -> 2 <= size < 2 ^ 27 -> pow2 (Z.to_nat n') -> 0 <= n' -> fits 32 hsh ->
  exists l' tab', (if negb (n' =? prop_hash_size sh)
    then if pow2_ok n' then rebuild (sprop sh) 0 (replicate (Z.to_nat n') 0) else None else Some (sprop sh, hash_table sh)) = Some (l', tab') /\
    signature l' = signature (sprop sh) /\
    shape_ok (mk_shape (is_hashed sh) (all_plain sh) hsh tab' size (deleted_prop_count sh) (sproto sh) l').
Proof.
  intros [H1 H2 H3 H4 H5 H6 H7 H8 H9] Hc Hsz Hp Hn Hh. unfold prop_count in *.
  destruct (Z.eqb_spec n' (prop_hash_size sh)) as [->|Hne]; cbn [negb].
  - exists (sprop sh), (hash_table sh). split_and!; [done..|]. split; try done. unfold prop_count. cbn. lia.
  - rewrite (pow2_test n' Hp Hn). destruct (rebuild_all (sprop sh) (Z.to_nat n') Hp) as (l' & tab' & E & Hs & Hlen & Ht); [lia|].
    exists l', tab'. split_and!; [done..|]. pose proof (signature_eq _ _ Hs) as Hl.
    split; unfold prop_count; cbn [sprop hash_table prop_size deleted_prop_count hash]; rewrite ?Hs, ?Hl; try done; [by rewrite Hlen|lia].
Qed.

Lemma shrink_hash_spec fuel n size : pow2 (Z.to_nat n) -> 0 < n < 2 ^ Z.of_nat (S fuel) -> 2 <= size ->
  exists n', shrink_hash_size fuel n size = Some n' /\ pow2 (Z.to_nat n') /\ 0 < n'.
Proof.
  revert n. induction fuel as [|fuel IH]; intros n Hp Hn Hs; cbn [shrink_hash_size]; rewrite (Z.quot_div_nonneg n 2) by lia;
    (destruct (Z.leb_spec size (n / 2)); [|exists n; split_and!; [done..|lia]]).
  - change (2 ^ Z.of_nat 1) with 2 in Hn. assert (n = 1) as -> by lia. change (1 / 2) with 0 in *. lia.
  - destruct Hp as (k & Hk & E). assert (En : n = 2 ^ Z.of_nat k) by (apply (f_equal Z.of_nat) in E; rewrite Z2Nat.id, Nat2Z.inj_pow in E by lia; done).
    assert (En2 : n / 2 = 2 ^ Z.of_nat (k - 1)).
    { rewrite En. replace (Z.of_nat k) with (1 + Z.of_nat (k - 1)) by lia. rewrite Z.pow_add_r, Z.mul_comm by lia. apply Z.div_mul. lia. }
    assert (Hk1 : (2 <= k)%nat) by (destruct (decide (2 <= k)%nat); [done|]; assert (k = 1%nat) as -> by lia; cbn in En2; lia).
    destruct (IH (n / 2)) as (n' & E' & Hp' & Hpos); [| |done|by exists n'].
    + exists (k - 1)%nat. split; [lia|]. rewrite En2. apply Nat2Z.inj. rewrite Z2Nat.id by (apply Z.pow_nonneg; lia). by rewrite Nat2Z.inj_pow.
    + split; [lia|]. apply Z.div_lt_upper_bound; [lia|]. rewrite (Nat2Z.inj_succ (S fuel)), Z.pow_succ_r in Hn by lia. lia.
Qed.

Lemma live_filter_sig l : signature (filter (fun pr => live_entry pr = true) l) = live_sig (signature l).
Proof.
  induction l as [|pr l IH]; [done|]. unfold live_sig, signature in *. rewrite filter_cons, fmap_cons, filter_cons. cbn [fst].
  destruct (decide (live_entry pr = true)) as [Hl|Hl]; rewrite live_entry_sig in Hl; destruct (decide _); try done. by rewrite fmap_cons, IH.
Qed.

Lemma live_sig_idem sg : live_sig (live_sig sg) = live_sig sg.
Proof. unfold live_sig. rewrite list_filter_filter. apply list_filter_iff. tauto. Qed.

Lemma compact_ok sh n' : shape_ok sh -> pow2 (Z.to_nat n') ->
  exists l' tab', rebuild (filter (fun pr => live_entry pr = true) (sprop sh)) 0 (replicate (Z.to_nat n') 0) = Some (l', tab') /\
    signature l' = live_sig (signature (sprop sh)) /\
    shape_ok (mk_shape (is_hashed sh) (all_plain sh) (hash sh) tab' (Z.max JS_PROP_INITIAL_SIZE (prop_count sh - deleted_prop_count sh)) 0 (sproto sh) l').
Proof.
  intros [H1 H2 H3 H4 H5 H6 H7 H8 H9] Hp. unfold prop_count in *.
  assert (Hlen : (length (live_sig (signature (sprop sh))) <= length (sprop sh))%nat).
  { unfold live_sig. etrans; [apply length_filter|]. by rewrite signature_len. }
  destruct (rebuild_all (filter (fun pr => live_entry pr = true) (sprop sh)) (Z.to_nat n') Hp) as (l' & tab' & E & Hs & Hlt & Ht).
  { assert ((length (filter (fun pr => live_entry pr = true) (sprop sh)) <= length (sprop sh))%nat) by apply length_filter. lia. }
  rewrite live_filter_sig in Hs. exists l', tab'. split_and!; [done..|]. assert (Hl : length l' = length (live_sig (signature (sprop sh)))) by (rewrite <- Hs; by rewrite signature_len).
  unfold JS_PROP_INITIAL_SIZE. split; unfold prop_count; cbn [sprop hash_table prop_size deleted_prop_count hash]; rewrite ?Hs, ?Hl, ?live_sig_idem; try done; try lia.
  - by rewrite Hlt.
  - apply Forall_forall. intros e [_ He]%list_elem_of_filter. by apply (proj1 (Forall_forall _ _) H7).
  - intros Hpl. apply Forall_forall. intros e [_ He]%list_elem_of_filter. by apply (proj1 (Forall_forall _ _) (H9 Hpl)).
Qed.

End Tables.
