(* ===== verification/ShapeHeap.v ===== *)
(** * Objects that share shapes

    The invariant of the shapes of a runtime: every shape is well formed and
    counted, the table of shapes holds exactly the hashed ones, a shape that is
    not hashed has one owner.  It makes sharing invisible: adding, deleting or
    changing a property of one object leaves every other object, and every
    shape that a cache holds, as they were. *)
From Stdlib Require Import ZArith Lia.
From stdpp Require Import base numbers list option gmap.
From S2P Require Import Prelude Gc Shapes ShapeTables.

Section Heap.
Context {cfg : ShapeConfig}.

(** ** Users of a shape *)

Definition users (objs : gmap ptr pobject) (s : ptr) : Z := nrefs ((fun po => oshape po.2) <$> map_to_list objs) s.

Definition at_ptr (s x : ptr) (k : Z) : Z := if decide (s = x) then k else 0.

Lemma at_ptr_same s k : at_ptr s s k = k.
Proof. unfold at_ptr. by rewrite decide_True. Qed.
Lemma at_ptr_other s x k : s <> x -> at_ptr s x k = 0.
Proof. unfold at_ptr. intros ?. by rewrite decide_False. Qed.

Lemma users_nonneg objs s : 0 <= users objs s.
Proof. apply nrefs_nonneg. Qed.

Lemma users_new objs p o s : objs !! p = None -> users (<[p := o]> objs) s = users objs s + at_ptr (oshape o) s 1.
Proof.
  intros Hp. unfold users. rewrite (nrefs_perm _ ((fun po => oshape po.2) <$> (p, o) :: map_to_list objs) s) by (by rewrite (map_to_list_insert _ _ _ Hp)).
  rewrite fmap_cons, nrefs_cons. cbn. unfold at_ptr. lia.
Qed.

Lemma users_split objs p o s : objs !! p = Some o -> users objs s = users (delete p objs) s + at_ptr (oshape o) s 1.
Proof. intros Hp. rewrite <- (insert_delete_id objs p o Hp) at 1. apply users_new, lookup_delete_eq. Qed.

Lemma users_set objs p o o' s : objs !! p = Some o -> users (<[p := o']> objs) s = users objs s - at_ptr (oshape o) s 1 + at_ptr (oshape o') s 1.
Proof.
  intros Hp. rewrite (users_split objs p o s Hp). rewrite <- (insert_delete_eq objs p o'), users_new by apply lookup_delete_eq. lia.
Qed.

Lemma users_pos objs p o : objs !! p = Some o -> 0 < users objs (oshape o).
Proof. intros Hp. rewrite (users_split objs p o _ Hp), at_ptr_same. pose proof (users_nonneg (delete p objs) (oshape o)). lia. Qed.

Lemma users_sole objs p q o o' : objs !! p = Some o -> objs !! q = Some o' -> oshape o' = oshape o -> users objs (oshape o) = 1 -> q = p.
Proof.
  intros Hp Hq Hs Hu. destruct (decide (q = p)) as [|Hne]; [done|]. rewrite (users_split objs p o _ Hp), at_ptr_same in Hu.
  assert (Hq' : delete p objs !! q = Some o') by (by rewrite lookup_delete_ne). apply users_pos in Hq'. rewrite Hs in Hq'. lia.
Qed.

(** ** The invariant *)

(** [ext]: the references to shapes from outside the objects; [out]: a shape
    that is out of the table for the moment. *)
Record srt_ok (out : option ptr) (ext : ptr -> Z) (rt : shape_rt) : Prop := {
  sr_bits : 4 <= shape_hash_bits rt <= 30;
  sr_len : Z.of_nat (length (shape_hash_tab rt)) = 2 ^ shape_hash_bits rt;
  sr_tab : forall h b s, shape_hash_tab rt !! h = Some b -> (s ∈ b <-> out <> Some s /\ exists sh, shapes rt !! s = Some sh /\ is_hashed sh = true /\
    Z.to_nat (get_shape_hash (hash sh) (shape_hash_bits rt)) = h);
  sr_nodup : forall h b, shape_hash_tab rt !! h = Some b -> NoDup b;
  sr_shape : forall s sh, shapes rt !! s = Some sh -> shape_ok sh;
  sr_rc : forall s sh, shapes rt !! s = Some sh -> shape_rc rt !! s = Some (ext s + users (objects rt) s) /\
    0 < ext s + users (objects rt) s /\ (is_hashed sh = false -> ext s + users (objects rt) s = 1);
  sr_ext : forall s, shapes rt !! s = None -> ext s = 0;
  sr_obj : forall p o, objects rt !! p = Some o -> exists sh, shapes rt !! oshape o = Some sh /\ prop_size sh <= Z.of_nat (length (oprop o))
}.

Lemma srt_ok_ext out ext ext' rt : (forall x, ext x = ext' x) -> srt_ok out ext rt -> srt_ok out ext' rt.
Proof.
  intros He [H1 H2 H3 H4 H5 H6 H7 H8]. split; try done.
  - intros s sh Hs. rewrite <- He. by apply H6.
  - intros s Hs. rewrite <- He. by apply H7.
Qed.

(** The state apart from the answers of the allocator. *)
Definition same_state (rt rt' : shape_rt) : Prop :=
  shapes rt' = shapes rt /\ shape_rc rt' = shape_rc rt /\ shape_hash_tab rt' = shape_hash_tab rt /\ shape_hash_bits rt' = shape_hash_bits rt /\
  objects rt' = objects rt.

Lemma srt_ok_same out ext rt rt' : same_state rt rt' -> srt_ok out ext rt -> srt_ok out ext rt'.
Proof. intros (E1 & E2 & E3 & E4 & E5) [H1 H2 H3 H4 H5 H6 H7 H8]. split; by rewrite ?E1, ?E2, ?E3, ?E4, ?E5. Qed.

Lemma malloc_same rt : same_state rt (js_malloc rt).2.
Proof. done. Qed.

Lemma shape_bucket h bits : fits 32 h -> 4 <= bits <= 30 -> 0 <= get_shape_hash h bits < 2 ^ bits.
Proof.
  intros Hh Hb. unfold get_shape_hash, fits in *. rewrite Z.shiftr_div_pow2 by lia. split; [apply Z.div_pos; [lia|apply Z.pow_pos_nonneg; lia]|].
  apply Z.div_lt_upper_bound; [apply Z.pow_pos_nonneg; lia|]. rewrite <- Z.pow_add_r by lia. replace (32 - bits + bits) with 32 by lia. lia.
Qed.

Lemma bucket_exists out ext rt h : srt_ok out ext rt -> fits 32 h -> exists b, shape_hash_tab rt !! Z.to_nat (get_shape_hash h (shape_hash_bits rt)) = Some b.
Proof.
  intros Hi Hh. apply lookup_lt_is_Some_2, Nat2Z.inj_lt. pose proof (shape_bucket h _ Hh (sr_bits _ _ _ Hi)). rewrite Z2Nat.id, (sr_len _ _ _ Hi) by lia. lia.
Qed.

(** *** The table of shapes *)

Lemma unlink_ok ext rt s sh : srt_ok None ext rt -> shapes rt !! s = Some sh -> is_hashed sh = true ->
  exists rt', js_shape_hash_unlink rt s = Some rt' /\ srt_ok (Some s) ext rt' /\ shapes rt' = shapes rt /\ shape_rc rt' = shape_rc rt /\ objects rt' = objects rt /\ smem rt' = smem rt.
Proof.
  intros Hi Es Hh. pose proof (so_hash _ (sr_shape _ _ _ Hi s sh Es)) as Hf. destruct (bucket_exists _ _ _ _ Hi Hf) as [b Eb].
  unfold js_shape_hash_unlink. rewrite Es. cbn [mbind option_bind]. rewrite Eb. cbn [mbind option_bind].
  assert (Hin : s ∈ b) by (apply (sr_tab _ _ _ Hi _ _ s Eb); split; [done|]; by exists sh). rewrite bool_decide_eq_true_2 by done.
  eexists. split; [done|]. destruct Hi as [H1 H2 H3 H4 H5 H6 H7 H8]. split_and!; try done.
  split; cbn [set_tab shapes shape_rc shape_hash_tab shape_hash_bits objects]; try done.
  - by rewrite length_insert.
  - intros h c x Ec. destruct (decide (h = Z.to_nat (get_shape_hash (hash sh) (shape_hash_bits rt)))) as [->|Hne].
    + rewrite list_lookup_insert_eq in Ec by (by apply lookup_lt_Some in Eb). injection Ec as <-. rewrite elem_unlink, (H3 _ _ x Eb).
      split; [intros [[_ ?] Hx]; split; [congruence|done]|]. intros [Hx ?]. split; [split; done|congruence].
    + rewrite list_lookup_insert_ne in Ec by done. rewrite (H3 _ _ x Ec). split; intros [_ (shx & Ex & Hx & Eh)]; (split; [|by exists shx]); [|done].
      intros [= <-]. rewrite Es in Ex. by injection Ex as <-.
  - intros h c Ec. destruct (decide (h = Z.to_nat (get_shape_hash (hash sh) (shape_hash_bits rt)))) as [->|Hne].
    + rewrite list_lookup_insert_eq in Ec by (by apply lookup_lt_Some in Eb). injection Ec as <-. by apply unlink_NoDup, (H4 _ _ Eb).
    + rewrite list_lookup_insert_ne in Ec by done. by apply (H4 _ _ Ec).
Qed.

Lemma link_ok ext rt s sh : srt_ok (Some s) ext rt -> shapes rt !! s = Some sh -> is_hashed sh = true ->
  exists rt', js_shape_hash_link rt s = Some rt' /\ srt_ok None ext rt' /\ shapes rt' = shapes rt /\ shape_rc rt' = shape_rc rt /\ objects rt' = objects rt /\ smem rt' = smem rt.
Proof.
  intros Hi Es Hh. pose proof (so_hash _ (sr_shape _ _ _ Hi s sh Es)) as Hf. destruct (bucket_exists _ _ _ _ Hi Hf) as [b Eb].
  unfold js_shape_hash_link, bucket_push. rewrite Es. cbn [mbind option_bind]. rewrite Eb. cbn [mbind option_bind].
  eexists. split; [done|]. destruct Hi as [H1 H2 H3 H4 H5 H6 H7 H8]. split_and!; try done.
  split; cbn [set_tab shapes shape_rc shape_hash_tab shape_hash_bits objects]; try done.
  - by rewrite length_insert.
  - intros h c x Ec. destruct (decide (h = Z.to_nat (get_shape_hash (hash sh) (shape_hash_bits rt)))) as [->|Hne].
    + rewrite list_lookup_insert_eq in Ec by (by apply lookup_lt_Some in Eb). injection Ec as <-. rewrite elem_of_cons, (H3 _ _ x Eb). split.
      * intros [->|[_ ?]]; [|done]. split; [done|]. by exists sh.
      * intros [_ ?]. destruct (decide (x = s)) as [->|]; [by left|right]. split; [congruence|done].
    + rewrite list_lookup_insert_ne in Ec by done. rewrite (H3 _ _ x Ec). split; intros [_ (shx & Ex & Hx & Eh)]; (split; [|by exists shx]); [done|].
      intros [= <-]. rewrite Es in Ex. by injection Ex as <-.
  - intros h c Ec. destruct (decide (h = Z.to_nat (get_shape_hash (hash sh) (shape_hash_bits rt)))) as [->|Hne].
    + rewrite list_lookup_insert_eq in Ec by (by apply lookup_lt_Some in Eb). injection Ec as <-. constructor; [|by apply (H4 _ _ Eb)]. rewrite (H3 _ _ s Eb). tauto.
    + rewrite list_lookup_insert_ne in Ec by done. by apply (H4 _ _ Ec).
Qed.

(** A shape that is not hashed is in no bucket anyway. *)
Lemma out_ok ext rt s sh : shapes rt !! s = Some sh -> is_hashed sh = false -> srt_ok None ext rt <-> srt_ok (Some s) ext rt.
Proof.
  intros Es Hh. split; intros [H1 H2 H3 H4 H5 H6 H7 H8]; split; try done; intros h b x Eb; rewrite (H3 h b x Eb); split; intros [_ (shx & Ex & Hx & Eh)];
    (split; [|by exists shx]); try done; intros [= <-]; congruence.
Qed.

(** *** Shapes and objects change *)

Definition ext_add (ext : ptr -> Z) (s : ptr) (k : Z) : ptr -> Z := fun x => ext x + at_ptr s x k.

Lemma put_ok ext rt s sh sh' : srt_ok (Some s) ext rt -> shapes rt !! s = Some sh -> shape_ok sh' ->
  (is_hashed sh' = false -> ext s + users (objects rt) s = 1) ->
  (forall p o, objects rt !! p = Some o -> oshape o = s -> prop_size sh' <= Z.of_nat (length (oprop o))) -> srt_ok (Some s) ext (put_shape rt s sh').
Proof.
  intros [H1 H2 H3 H4 H5 H6 H7 H8] Es Hok Hc Hcap. split; cbn [put_shape set_shapes shapes shape_rc shape_hash_tab shape_hash_bits objects]; try done.
  - intros h b x Eb. rewrite (H3 h b x Eb). split; intros [Hx (shx & Ex & Hxh)]; (split; [done|]); exists shx; (split; [|done]).
    + rewrite lookup_insert_ne; [done|]. congruence.
    + rewrite lookup_insert_ne in Ex; [done|]. congruence.
  - intros x shx Ex. destruct (decide (x = s)) as [->|Hne]; [rewrite lookup_insert_eq in Ex; by injection Ex as <-|]. rewrite lookup_insert_ne in Ex by done. by apply (H5 x).
  - intros x shx Ex. destruct (decide (x = s)) as [->|Hne].
    + rewrite lookup_insert_eq in Ex. injection Ex as <-. destruct (H6 s sh Es) as (? & ? & _). by split_and!.
    + rewrite lookup_insert_ne in Ex by done. by apply H6.
  - intros x Ex. apply H7. destruct (decide (x = s)) as [->|Hne]; [by rewrite lookup_insert_eq in Ex|]. by rewrite lookup_insert_ne in Ex.
  - intros p o Ep. destruct (decide (oshape o = s)) as [<-|Hne].
    + exists sh'. rewrite lookup_insert_eq. split; [done|]. by apply (Hcap p).
    + rewrite lookup_insert_ne by done. by apply (H8 p).
Qed.

Lemma hash_put_ok ext rt s sh sh' : srt_ok None ext rt -> shapes rt !! s = Some sh -> is_hashed sh = false -> shape_ok sh' ->
  (is_hashed sh' = false -> ext s + users (objects rt) s = 1) ->
  (forall p o, objects rt !! p = Some o -> oshape o = s -> prop_size sh' <= Z.of_nat (length (oprop o))) -> srt_ok (Some s) ext (put_shape rt s sh').
Proof. intros Hi Es Hh. apply put_ok with sh; [|done]. by apply (out_ok _ _ _ _ Es Hh). Qed.

Lemma set_object_ok out ext rt p o o' sh' : srt_ok out ext rt -> objects rt !! p = Some o -> shapes rt !! oshape o' = Some sh' -> prop_size sh' <= Z.of_nat (length (oprop o')) ->
  srt_ok out (ext_add (ext_add ext (oshape o) 1) (oshape o') (-1)) (set_object rt p o').
Proof.
  intros [H1 H2 H3 H4 H5 H6 H7 H8] Ep Es Hcap. split; cbn [set_object shapes shape_rc shape_hash_tab shape_hash_bits objects]; try done.
  - intros s sh Hs. rewrite (users_set _ p o o' s Ep). unfold ext_add.
    replace (ext s + at_ptr (oshape o) s 1 + at_ptr (oshape o') s (-1) + (users (objects rt) s - at_ptr (oshape o) s 1 + at_ptr (oshape o') s 1)) with (ext s + users (objects rt) s); [by apply H6|].
    unfold at_ptr. destruct (decide (oshape o' = s)); lia.
  - intros s Hs. unfold ext_add. destruct (H8 p o Ep) as (sh & Eo & _). rewrite (H7 s Hs), !at_ptr_other; [done|congruence|congruence].
  - intros q oq. destruct (decide (q = p)) as [->|Hq]; [rewrite lookup_insert_eq; intros [= <-]; by exists sh'|]. rewrite lookup_insert_ne by done. apply H8.
Qed.

Lemma dup_ok ext rt s sh : srt_ok None ext rt -> shapes rt !! s = Some sh -> is_hashed sh = true ->
  exists rt', js_dup_shape rt s = Some rt' /\ srt_ok None (ext_add ext s 1) rt' /\ shapes rt' = shapes rt /\ objects rt' = objects rt /\ smem rt' = smem rt.
Proof.
  intros [H1 H2 H3 H4 H5 H6 H7 H8] Es Hh. destruct (H6 s sh Es) as (Ec & Hpos & _). unfold js_dup_shape. rewrite Ec. cbn [mbind option_bind].
  eexists. split; [done|]. split_and!; try done. split; cbn [put_rc set_shapes shapes shape_rc shape_hash_tab shape_hash_bits objects]; try done.
  - intros x shx Ex. unfold ext_add. destruct (decide (s = x)) as [<-|Hne].
    + rewrite lookup_insert_eq, at_ptr_same. split_and!; [f_equal; lia|lia|congruence].
    + rewrite lookup_insert_ne, at_ptr_other, Z.add_0_r by done. by apply H6.
  - intros x Ex. unfold ext_add. rewrite (H7 x Ex), at_ptr_other; [done|]. congruence.
Qed.

(** A reference given up; the last one frees the shape. *)
Lemma free_ok ext rt s sh : srt_ok None ext rt -> shapes rt !! s = Some sh -> users (objects rt) s < ext s + users (objects rt) s ->
  exists rt', js_free_shape rt s = Some rt' /\ srt_ok None (ext_add ext s (-1)) rt' /\ objects rt' = objects rt /\ smem rt' = smem rt /\
    shapes rt' = if ext s + users (objects rt) s =? 1 then delete s (shapes rt) else shapes rt.
Proof.
  intros Hi Es Hu. pose proof Hi as [H1 H2 H3 H4 H5 H6 H7 H8]. destruct (H6 s sh Es) as (Ec & Hpos & Hun). unfold js_free_shape. rewrite Ec. cbn [mbind option_bind].
  pose proof (users_nonneg (objects rt) s) as Hun0. destruct (Z.eqb_spec (ext s + users (objects rt) s) 1) as [H1c|H1c].
  - rewrite H1c. cbn [Z.sub Z.opp Z.add Z.pos_sub Z.leb Z.compare Z.eqb negb]. cbn [put_rc set_shapes shapes]. rewrite Es. cbn [mbind option_bind].
    pose (rt0 := put_rc rt s (1 - 1)). assert (Hu0 : users (objects rt) s = 0) by lia.
    assert (Hmid : exists rt1, (if is_hashed sh then js_shape_hash_unlink rt0 s else Some rt0) = Some rt1 /\ srt_ok (Some s) ext (set_shapes rt1 (shapes rt) (shape_rc rt)) /\
      shapes rt1 = shapes rt /\ shape_rc rt1 = <[s := 0]> (shape_rc rt) /\ objects rt1 = objects rt /\ smem rt1 = smem rt).
    { destruct (is_hashed sh) eqn:Hh.
      - destruct (unlink_ok ext rt s sh Hi Es Hh) as (rt2 & E2 & Hi2 & Es2 & Er2 & Eo2 & Em2).
        assert (E0 : js_shape_hash_unlink rt0 s = Some (set_shapes rt2 (shapes rt) (<[s := 0]> (shape_rc rt)))).
        { revert E2. unfold js_shape_hash_unlink. cbn [rt0 put_rc set_shapes shapes shape_hash_tab shape_hash_bits]. rewrite Es. cbn [mbind option_bind].
          destruct (shape_hash_tab rt !! _) as [b|]; [|done]. cbn [mbind option_bind]. destruct (bool_decide _); [|done]. intros [= <-]. done. }
        exists (set_shapes rt2 (shapes rt) (<[s := 0]> (shape_rc rt))). split_and!; [done| |done|done|done|done].
        apply (srt_ok_same _ _ rt2); [|done]. cbn [set_shapes]. by split_and!.
      - exists rt0. split_and!; try done. apply (srt_ok_same _ _ rt); [by split_and!|]. by apply (out_ok _ _ _ _ Es Hh). }
    destruct Hmid as (rt1 & Em & Hi1 & Es1 & Er1 & Eo1 & Ems1). unfold rt0 in Em. rewrite Em. cbn [mbind option_bind]. eexists. split; [done|].
    destruct Hi1 as [G1 G2 G3 G4 G5 G6 G7 G8]. cbn [set_shapes shapes shape_rc shape_hash_tab shape_hash_bits objects] in *.
    split_and!; [|done|done|unfold js_free; cbn [set_shapes shapes]; by rewrite Es1].
    split; unfold js_free; cbn [set_shapes shapes shape_rc shape_hash_tab shape_hash_bits objects]; rewrite ?Es1, ?Er1, ?Eo1; try done.
    + intros h b x Eb. rewrite (G3 h b x Eb). split.
      * intros [Hx (shx & Ex & Hxh)]. split; [done|]. exists shx. split; [|done]. rewrite lookup_delete_ne; [done|]. congruence.
      * intros [_ (shx & Ex & Hxh)]. assert (s <> x) by (intros <-; by rewrite lookup_delete_eq in Ex). rewrite lookup_delete_ne in Ex by done. split; [congruence|by exists shx].
    + intros x shx Ex. apply lookup_delete_Some in Ex as [_ Ex]. by apply (H5 x).
    + intros x shx Ex. apply lookup_delete_Some in Ex as [Hne Ex]. unfold ext_add. rewrite at_ptr_other, Z.add_0_r by done. rewrite lookup_delete_ne, lookup_insert_ne by done. by apply H6.
    + intros x Ex. unfold ext_add. destruct (decide (s = x)) as [<-|Hne]; [rewrite at_ptr_same; lia|]. rewrite lookup_delete_ne in Ex by done. rewrite (H7 x Ex), at_ptr_other by done. done.
    + intros p o Ep. destruct (H8 p o Ep) as (shp & Esp & Hcap). exists shp. split; [|done]. rewrite lookup_delete_ne; [done|]. intros Heq. pose proof (users_pos _ _ _ Ep) as Hp. rewrite <- Heq in Hp. lia.
  - rewrite (proj2 (Z.leb_gt _ _)) by lia. eexists. split; [done|]. split_and!; try done.
    split; cbn [put_rc set_shapes shapes shape_rc shape_hash_tab shape_hash_bits objects]; try done.
    + intros x shx Ex. unfold ext_add. destruct (decide (s = x)) as [<-|Hne].
      * rewrite lookup_insert_eq, at_ptr_same. rewrite Es in Ex. injection Ex as <-. split_and!; [f_equal; lia|lia|]. intros Hh. specialize (Hun Hh). lia.
      * rewrite lookup_insert_ne, at_ptr_other, Z.add_0_r by done. by apply H6.
    + intros x Ex. unfold ext_add. rewrite (H7 x Ex), at_ptr_other; [done|]. congruence.
Qed.

Lemma users_exists objs s : 0 < users objs s -> exists p o, objs !! p = Some o /\ oshape o = s.
Proof.
  intros Hp. apply nrefs_pos, list_elem_of_fmap in Hp as ([p o] & -> & Hp). apply elem_of_map_to_list in Hp. by exists p, o.
Qed.

Lemma users_absent out ext rt s : srt_ok out ext rt -> shapes rt !! s = None -> users (objects rt) s = 0.
Proof.
  intros Hi Hs. pose proof (users_nonneg (objects rt) s). destruct (decide (0 < users (objects rt) s)) as [Hp|]; [|lia].
  apply users_exists in Hp as (p & o & Ep & <-). destruct (sr_obj _ _ _ Hi p o Ep) as (sh & E & _). congruence.
Qed.

Lemma fresh_shape rt : shapes rt !! fresh (dom (shapes rt)) = None.
Proof. apply not_elem_of_dom, is_fresh. Qed.

Lemma new_ok ext rt sh s rt' : srt_ok None ext rt -> shape_ok sh -> is_hashed sh = false -> new_block rt sh = (s, rt') ->
  shapes rt !! s = None /\ srt_ok None (ext_add ext s 1) rt' /\ shapes rt' = <[s := sh]> (shapes rt) /\ objects rt' = objects rt /\ smem rt' = smem rt.
Proof.
  intros Hi Hok Hh [= <- <-]. pose proof (fresh_shape rt) as Hf. set (s := fresh (dom (shapes rt))) in *. split; [done|]. split_and!; try done.
  pose proof (users_absent _ _ _ s Hi Hf) as Hu. destruct Hi as [H1 H2 H3 H4 H5 H6 H7 H8].
  split; cbn [put_rc put_shape set_shapes shapes shape_rc shape_hash_tab shape_hash_bits objects]; try done.
  - intros h b x Eb. rewrite (H3 h b x Eb). split; intros [Hx (shx & Ex & Hxh)]; (split; [done|]); exists shx; (split; [|done]).
    + rewrite lookup_insert_ne; [done|]. congruence.
    + destruct (decide (s = x)) as [<-|]; [|by rewrite lookup_insert_ne in Ex]. rewrite lookup_insert_eq in Ex. injection Ex as <-. destruct Hxh. congruence.
  - intros x shx Ex. destruct (decide (s = x)) as [<-|Hne]; [rewrite lookup_insert_eq in Ex; by injection Ex as <-|]. rewrite lookup_insert_ne in Ex by done. by apply (H5 x).
  - intros x shx Ex. unfold ext_add. destruct (decide (s = x)) as [<-|Hne].
    + rewrite lookup_insert_eq, at_ptr_same, Hu, (H7 s Hf). by split_and!.
    + rewrite lookup_insert_ne in Ex by done. rewrite lookup_insert_ne, at_ptr_other, Z.add_0_r by done. by apply H6.
  - intros x Ex. unfold ext_add. destruct (decide (s = x)) as [<-|Hne]; [by rewrite lookup_insert_eq in Ex|]. rewrite lookup_insert_ne in Ex by done. by rewrite (H7 x Ex), at_ptr_other.
  - intros p o Ep. destruct (H8 p o Ep) as (shp & Esp & Hcap). exists shp. split; [|done]. rewrite lookup_insert_ne; [done|]. congruence.
Qed.

(** The shape of [p], which it alone has, moves to another block. *)
Lemma move_ok ext rt p o sh' arr s rt1 : srt_ok (Some (oshape o)) ext rt -> objects rt !! p = Some o -> ext (oshape o) = 0 -> users (objects rt) (oshape o) = 1 ->
  shape_ok sh' -> prop_size sh' <= Z.of_nat (length arr) -> new_block rt sh' = (s, rt1) ->
  shapes rt !! s = None /\ srt_ok (Some s) ext (set_object (js_free rt1 (oshape o)) p (mk_pobject s arr)) /\
  shapes (set_object (js_free rt1 (oshape o)) p (mk_pobject s arr)) = delete (oshape o) (<[s := sh']> (shapes rt)).
Proof.
  intros Hi Ep He Hu Hok Hcap [= <- <-]. pose proof (fresh_shape rt) as Hf. set (s := fresh (dom (shapes rt))) in *. split; [done|]. split; [|done].
  pose proof (users_absent _ _ _ s Hi Hf) as Hus. destruct (sr_obj _ _ _ Hi p o Ep) as (sh & Esh & _).
  assert (Hns : oshape o <> s) by congruence. destruct Hi as [H1 H2 H3 H4 H5 H6 H7 H8].
  assert (Hlk : forall x, x <> s -> x <> oshape o -> delete (oshape o) (<[s := sh']> (shapes rt)) !! x = shapes rt !! x) by (intros x ? ?; by rewrite lookup_delete_ne, lookup_insert_ne).
  assert (Hlks : delete (oshape o) (<[s := sh']> (shapes rt)) !! s = Some sh') by (by rewrite lookup_delete_ne, lookup_insert_eq).
  assert (Hlko : delete (oshape o) (<[s := sh']> (shapes rt)) !! oshape o = None) by apply lookup_delete_eq.
  assert (Hus' : forall x, users (<[p := mk_pobject s arr]> (objects rt)) x = users (objects rt) x - at_ptr (oshape o) x 1 + at_ptr s x 1) by (intros x; by apply users_set).
  split; cbn [set_object js_free put_rc put_shape set_shapes shapes shape_rc shape_hash_tab shape_hash_bits objects]; try done.
  - intros h b x Eb. rewrite (H3 h b x Eb). split.
    + intros [Hx (shx & Ex & Hxh)]. assert (x <> s) by congruence. split; [congruence|]. exists shx. split; [|done]. rewrite Hlk; [done|done|congruence].
    + intros [Hx (shx & Ex & Hxh)]. assert (x <> s) by congruence. assert (x <> oshape o) by congruence. rewrite Hlk in Ex by done. split; [congruence|by exists shx].
  - intros x shx Ex. destruct (decide (x = s)) as [->|Hne]; [rewrite Hlks in Ex; by injection Ex as <-|]. assert (x <> oshape o) by congruence. rewrite Hlk in Ex by done. by apply (H5 x).
  - intros x shx Ex. rewrite Hus'. destruct (decide (x = s)) as [->|Hne].
    + rewrite lookup_delete_ne, lookup_insert_eq by done. rewrite Hus, (H7 s Hf), at_ptr_other, at_ptr_same by done. by split_and!.
    + assert (x <> oshape o) by congruence. rewrite Hlk in Ex by done. rewrite lookup_delete_ne, lookup_insert_ne, !at_ptr_other, Z.sub_0_r, Z.add_0_r by done. by apply H6.
  - intros x Ex. destruct (decide (x = oshape o)) as [->|Hno]; [done|]. apply H7. rewrite Hlk in Ex; [done| |done]. congruence.
  - intros q oq. destruct (decide (q = p)) as [->|Hq]; [rewrite lookup_insert_eq; intros [= <-]; by exists sh'|]. rewrite lookup_insert_ne by done. intros Eq.
    destruct (H8 q oq Eq) as (shq & Esq & Hcq). exists shq. split; [|done]. rewrite Hlk; [done|congruence|]. intros Heq. apply Hq. exact (users_sole (objects rt) p q o oq Ep Eq Heq Hu).
Qed.

(** ** What a program sees of an object *)

(** Names, flags and values of the properties, in the order they were added. *)
Fixpoint entries (sg : list (Z * Z)) (vs : list (option JSProperty)) : list (Z * Z * option JSProperty) :=
  match sg, vs with
  | e :: sg, v :: vs => if e.1 =? JS_ATOM_NULL then entries sg vs else (e, v) :: entries sg vs
  | _, _ => []
  end.

Definition view (rt : shape_rt) (p : ptr) : list (Z * Z * option JSProperty) :=
  match objects rt !! p with
  | Some o => match shapes rt !! oshape o with Some sh => entries (signature (sprop sh)) (oprop o) | None => [] end
  | None => []
  end.

Lemma entries_take sg vs vs' : take (length sg) vs = take (length sg) vs' -> entries sg vs = entries sg vs'.
Proof.
  revert vs vs'. induction sg as [|e sg IH]; intros [|v vs] [|v' vs'] E; try done. cbn [length take] in E. injection E as -> E. cbn [entries]. by rewrite (IH vs vs' E).
Qed.

Lemma entries_app sg sg' vs : (length sg <= length vs)%nat -> entries (sg ++ sg') vs = entries sg vs ++ entries sg' (drop (length sg) vs).
Proof.
  revert vs. induction sg as [|e sg IH]; intros vs Hl; [done|]. destruct vs as [|v vs]; cbn [length] in Hl; [lia|]. cbn. rewrite IH by lia. by destruct (_ =? _).
Qed.

Lemma resize_array_take l n k : (k <= length l)%nat -> Z.of_nat k <= n -> take k (resize_array l n) = take k l.
Proof.
  intros Hk Hn. unfold resize_array. rewrite take_app_le by (rewrite length_take; lia). rewrite take_take. f_equal. lia.
Qed.

Lemma resize_array_len l n : 0 <= n -> Z.of_nat (length (resize_array l n)) = n.
Proof. intros Hn. unfold resize_array. rewrite length_app, length_take, length_replicate. lia. Qed.

Lemma entries_names sg vs : (length sg <= length vs)%nat -> (entries sg vs).*1 = live_sig sg.
Proof.
  revert vs. induction sg as [|e sg IH]; intros vs Hl; [done|]. destruct vs as [|v vs]; cbn [length] in Hl; [lia|]. cbn [entries]. unfold live_sig in *. rewrite filter_cons.
  destruct (Z.eqb_spec e.1 JS_ATOM_NULL) as [He|He]; [rewrite decide_False by tauto|rewrite decide_True by done; cbn; f_equal]; apply IH; lia.
Qed.

Lemma entries_lookup sg vs j e v : sg !! j = Some e -> vs !! j = Some v -> e.1 <> JS_ATOM_NULL -> (e, v) ∈ entries sg vs.
Proof.
  revert vs j. induction sg as [|e0 sg IH]; intros [|v0 vs] [|j] Ee Ev Ha; try done; cbn [entries].
  - cbn in Ee, Ev. injection Ee as ->. injection Ev as ->. rewrite (proj2 (Z.eqb_neq _ _)) by done. left.
  - destruct (_ =? _); [by apply (IH vs j)|right; by apply (IH vs j)].
Qed.

(** Deleting an entry: its name goes from the view. *)
Lemma entries_delete sg vs j a f u : sg !! j = Some (a, f) -> a <> JS_ATOM_NULL -> NoDup (live_sig sg).*1 ->
  entries (<[j := (JS_ATOM_NULL, 0)]> sg) (<[j := u]> vs) = filter (fun e => e.1.1 <> a) (entries sg vs).
Proof.
  assert (Hkeep : forall sg vs, a ∉ (live_sig sg).*1 -> entries sg vs = filter (fun e => e.1.1 <> a) (entries sg vs)).
  { intros sg0. induction sg0 as [|e sg0 IH]; intros [|v vs0] Hn; try done. cbn [entries]. unfold live_sig in *. rewrite filter_cons in Hn.
    destruct (Z.eqb_spec e.1 JS_ATOM_NULL) as [He|He]; [rewrite decide_False in Hn by tauto; by apply IH|]. rewrite decide_True in Hn by done. cbn in Hn. apply not_elem_of_cons in Hn as [Hn1 Hn2].
    rewrite filter_cons, decide_True by (cbn; congruence). f_equal. by apply IH. }
  revert vs j. induction sg as [|e sg IH]; intros [|v vs] [|j] E Ha Hnd; try done.
  - cbn in E. injection E as ->. change (<[0%nat := (JS_ATOM_NULL, 0)]> ((a, f) :: sg)) with ((JS_ATOM_NULL, 0) :: sg). change (<[0%nat := u]> (v :: vs)) with (u :: vs). cbn [entries fst].
    rewrite Z.eqb_refl, (proj2 (Z.eqb_neq a _)) by done. rewrite filter_cons, decide_False by (cbn; tauto). apply Hkeep. unfold live_sig in *. rewrite filter_cons, decide_True in Hnd by done.
    cbn in Hnd. by apply NoDup_cons in Hnd as [? _].
  - change (sg !! j = Some (a, f)) in E. change (<[S j := (JS_ATOM_NULL, 0)]> (e :: sg)) with (e :: <[j := (JS_ATOM_NULL, 0)]> sg). change (<[S j := u]> (v :: vs)) with (v :: <[j := u]> vs).
    cbn [entries]. unfold live_sig in *. rewrite filter_cons in Hnd. destruct (Z.eqb_spec e.1 JS_ATOM_NULL) as [He|He]; [rewrite decide_False in Hnd by tauto; by apply IH|].
    rewrite decide_True in Hnd by done. cbn in Hnd. apply NoDup_cons in Hnd as [Hn Hnd]. rewrite filter_cons, decide_True.
    + f_equal. by apply IH.
    + cbn. intros Hea. apply Hn. apply list_elem_of_fmap. exists (a, f). split; [done|]. apply list_elem_of_filter. split; [done|]. by apply list_elem_of_lookup_2 with j.
Qed.

End Heap.
