(* ===== verification/ShapeOps.v ===== *)
(** * Properties of objects that share shapes

    What js_shape_prepare_update, add_property, js_update_property_flags,
    delete_property and js_prop_cache_probe do to the object they are given and
    that they leave alone all the others, and the shapes held by caches. *)
From Stdlib Require Import ZArith Lia.
From stdpp Require Import base numbers list option gmap.
From S2P Require Import Prelude Gc Shapes ShapeTables ShapeHeap.

Section Ops.
Context {cfg : ShapeConfig}.

(** ** What an operation on [p] leaves alone *)

(** The same shape but for the mark all_plain, which only tells how fast the
    values may be freed. *)
Definition same_shape (sh sh' : JSShape) : Prop := set_plain sh' true = set_plain sh true.

Lemma same_shape_refl sh : same_shape sh sh.
Proof. done. Qed.
Lemma same_shape_trans sh1 sh2 sh3 : same_shape sh1 sh2 -> same_shape sh2 sh3 -> same_shape sh1 sh3.
Proof. unfold same_shape. congruence. Qed.
Lemma same_shape_plain sh b : same_shape sh (set_plain sh b).
Proof. done. Qed.
Lemma same_shape_fields sh sh' : same_shape sh sh' -> sprop sh' = sprop sh /\ sproto sh' = sproto sh /\ is_hashed sh' = is_hashed sh.
Proof. unfold same_shape, set_plain. intros E. injection E. by intros. Qed.

(** The other objects, their shapes, and the shapes with references from
    elsewhere. *)
Definition kept (ext : ptr -> Z) (p : ptr) (rt rt' : shape_rt) : Prop :=
  (forall q, q <> p -> objects rt' !! q = objects rt !! q) /\
  (forall s sh, shapes rt !! s = Some sh -> 0 < ext s \/ (exists q o, q <> p /\ objects rt !! q = Some o /\ oshape o = s) ->
     exists sh', shapes rt' !! s = Some sh' /\ same_shape sh sh').

(** Enough when the shapes stay as they are. *)
Lemma kept_exact (ext : ptr -> Z) (p : ptr) (rt rt' : shape_rt) : (forall q, q <> p -> objects rt' !! q = objects rt !! q) ->
  (forall s sh, shapes rt !! s = Some sh -> 0 < ext s \/ (exists q o, q <> p /\ objects rt !! q = Some o /\ oshape o = s) -> shapes rt' !! s = Some sh) -> kept ext p rt rt'.
Proof. intros Ho Hs. split; [done|]. intros s sh Es Hx. exists sh. split; [by apply Hs|done]. Qed.

Lemma kept_same ext p rt rt' : objects rt' = objects rt -> shapes rt' = shapes rt -> kept ext p rt rt'.
Proof. intros Eo Es. apply kept_exact; by rewrite ?Eo, ?Es. Qed.

Lemma kept_refl ext p rt : kept ext p rt rt.
Proof. by apply kept_same. Qed.
#[local] Hint Resolve kept_refl : core.

Lemma kept_trans ext p rt1 rt2 rt3 : kept ext p rt1 rt2 -> kept ext p rt2 rt3 -> kept ext p rt1 rt3.
Proof.
  intros [O1 S1] [O2 S2]. split.
  - intros q Hq. by rewrite O2, O1.
  - intros s sh Es Hs. destruct (S1 s sh Es Hs) as (sh' & Es' & E1). destruct (S2 s sh' Es') as (sh2 & Es2 & E2); [|exists sh2; split; [done|by apply (same_shape_trans _ sh')]].
    destruct Hs as [|(q & o & Hq & Eq & Hs)]; [by left|right]. exists q, o. by rewrite O1.
Qed.

(** The prototype of an object. *)
Definition proto_of (rt : shape_rt) (p : ptr) : option (option ptr) := o ← objects rt !! p; sh ← shapes rt !! oshape o; Some (sproto sh).

Lemma kept_view out ext p rt rt' q : srt_ok out ext rt -> kept ext p rt rt' -> q <> p -> view rt' q = view rt q /\ proto_of rt' q = proto_of rt q.
Proof.
  intros Hi [Ho Hs] Hq. unfold view, proto_of. rewrite (Ho q Hq). destruct (objects rt !! q) as [o|] eqn:Eo; [|done]. destruct (sr_obj _ _ _ Hi q o Eo) as (sh & Es & _).
  destruct (Hs _ _ Es) as (sh' & Es' & (E1 & E2 & _)%same_shape_fields); [right; by exists q, o|].
  cbn [mbind option_bind]. rewrite Es, Es'. cbn [mbind option_bind]. by rewrite E1, E2.
Qed.

(** Only [p] has the shape. *)
Definition sole (ext : ptr -> Z) (rt : shape_rt) (s : ptr) : Prop := ext s = 0 /\ users (objects rt) s = 1.

Lemma sole_kept ext p rt o s : objects rt !! p = Some o -> oshape o = s -> sole ext rt s -> ~ (0 < ext s \/ exists q o, q <> p /\ objects rt !! q = Some o /\ oshape o = s).
Proof. intros Ep <- [He Hu] [|(q & oq & Hq & Eq & Heq)]; [lia|]. apply Hq. exact (users_sole _ p q o oq Ep Eq Heq Hu). Qed.

(** Changes of [p] and of the shape it alone has. *)
Lemma kept_sole ext p rt rt' o s : objects rt !! p = Some o -> oshape o = s -> sole ext rt s ->
  (forall q, q <> p -> objects rt' !! q = objects rt !! q) -> (forall x sh, x <> s -> shapes rt !! x = Some sh -> shapes rt' !! x = Some sh) -> kept ext p rt rt'.
Proof.
  intros Ep Es Hso Ho Hs. apply kept_exact; [done|]. intros x sh Ex Hx. apply Hs; [|done]. intros ->. by apply (sole_kept _ _ _ _ _ Ep Es Hso) in Hx.
Qed.

Lemma rc_one ext rt p o sh : srt_ok None ext rt -> (forall x, 0 <= ext x) -> objects rt !! p = Some o -> shapes rt !! oshape o = Some sh ->
  shape_rc rt !! oshape o = Some (ext (oshape o) + users (objects rt) (oshape o)) /\
  (ext (oshape o) + users (objects rt) (oshape o) = 1 -> sole ext rt (oshape o)) /\ (is_hashed sh = false -> sole ext rt (oshape o)).
Proof.
  intros Hi He Ep Es. destruct (sr_rc _ _ _ Hi _ _ Es) as (Ec & Hp & Hn). pose proof (users_pos _ _ _ Ep). specialize (He (oshape o)).
  split_and!; [done|intros ?; split; lia|]. intros Hh. specialize (Hn Hh). split; lia.
Qed.

Lemma ext_add_0 (ext : ptr -> Z) s k x : ext_add (ext_add ext s k) s (- k) x = ext x.
Proof. unfold ext_add, at_ptr. destruct (decide (s = x)); lia. Qed.

Lemma shape_ok_hashed sh b : shape_ok sh -> shape_ok (set_hashed sh b).
Proof. intros [H1 H2 H3 H4 H5 H6 H7 H8 H9]. by split. Qed.

Lemma shape_ok_hash sh b h : shape_ok sh -> fits 32 h -> shape_ok (set_hash sh b h).
Proof. intros [H1 H2 H3 H4 H5 H6 H7 H8 H9] Hh. by split. Qed.

Lemma shape_ok_plain sh : shape_ok sh -> shape_ok (set_plain sh false).
Proof. intros [H1 H2 H3 H4 H5 H6 H7 H8 H9]. by split. Qed.

Lemma put_keep_ok ext rt s sh sh' : srt_ok None ext rt -> shapes rt !! s = Some sh -> shape_ok sh' -> is_hashed sh' = is_hashed sh -> hash sh' = hash sh ->
  (forall p o, objects rt !! p = Some o -> oshape o = s -> prop_size sh' <= Z.of_nat (length (oprop o))) -> srt_ok None ext (put_shape rt s sh').
Proof.
  intros [H1 H2 H3 H4 H5 H6 H7 H8] Es Hok Hh Hhash Hcap. split; cbn [put_shape set_shapes shapes shape_rc shape_hash_tab shape_hash_bits objects]; try done.
  - intros h b x Eb. rewrite (H3 h b x Eb). destruct (decide (s = x)) as [<-|Hne]; [|by rewrite lookup_insert_ne].
    rewrite lookup_insert_eq. split; intros [_ (shx & Ex & Hx & Eh)]; (split; [done|]).
    + rewrite Es in Ex. injection Ex as <-. exists sh'. by rewrite Hh, Hhash.
    + injection Ex as <-. exists sh. by rewrite <- Hh, <- Hhash.
  - intros x shx. destruct (decide (s = x)) as [<-|Hne]; [rewrite lookup_insert_eq; by intros [= <-]|]. rewrite lookup_insert_ne by done. apply H5.
  - intros x shx. destruct (decide (s = x)) as [<-|Hne]; [rewrite lookup_insert_eq; intros [= <-]; rewrite Hh; by apply H6|]. rewrite lookup_insert_ne by done. apply H6.
  - intros x. destruct (decide (s = x)) as [<-|Hne]; [by rewrite lookup_insert_eq|]. rewrite lookup_insert_ne by done. apply H7.
  - intros p o Ep. destruct (decide (s = oshape o)) as [Heq|Hne]; [rewrite <- Heq, lookup_insert_eq; exists sh'; split; [done|]; by apply (Hcap p o)|].
    rewrite lookup_insert_ne by done. by apply (H8 p).
Qed.

(** ** js_shape_prepare_update *)

Lemma unlink_objects rt s p o : js_shape_hash_unlink (set_object rt p o) s = (fun r => set_object r p o) <$> js_shape_hash_unlink rt s.
Proof.
  unfold js_shape_hash_unlink. cbn [set_object shapes shape_hash_tab shape_hash_bits shape_hash_count]. destruct (shapes rt !! s) as [sh|]; [|done]. cbn [mbind option_bind].
  destruct (shape_hash_tab rt !! _) as [b|]; [|done]. cbn [mbind option_bind]. by destruct (bool_decide _).
Qed.

(** Freeing a shape does not read the objects. *)
Lemma free_objects rt s p o : js_free_shape (set_object rt p o) s = (fun r => set_object r p o) <$> js_free_shape rt s.
Proof.
  unfold js_free_shape. cbn [set_object shape_rc]. destruct (shape_rc rt !! s) as [c|]; [|done]. cbn [mbind option_bind].
  change (put_rc (set_object rt p o) s (c - 1)) with (set_object (put_rc rt s (c - 1)) p o). set (rt1 := put_rc rt s (c - 1)).
  destruct (_ <=? _); [|done]. destruct (negb _); [done|]. change (shapes (set_object rt1 p o)) with (shapes rt1). destruct (shapes rt1 !! s) as [sh|]; [|done]. cbn [mbind option_bind].
  destruct (is_hashed sh); [|done]. rewrite unlink_objects. by destruct (js_shape_hash_unlink rt1 s).
Qed.

Lemma free_same rt s rt' : js_free_shape rt s = Some rt' -> objects rt' = objects rt.
Proof.
  unfold js_free_shape. destruct (shape_rc rt !! s) as [c|]; [|done]. cbn [mbind option_bind]. destruct (_ <=? _); [|by intros [= <-]]. destruct (negb _); [done|].
  destruct (shapes _ !! s) as [sh|]; [|done]. cbn [mbind option_bind]. destruct (is_hashed sh); [|by intros [= <-]]. unfold js_shape_hash_unlink.
  destruct (shapes _ !! s) as [shu|]; [|done]. cbn [mbind option_bind]. destruct (shape_hash_tab _ !! _); [|done]. cbn [mbind option_bind]. destruct (bool_decide _); [|done]. by intros [= <-].
Qed.

(** A reference from elsewhere is given up: the shapes still in use stay. *)
Lemma release_ok ext rt s sh : srt_ok None (ext_add ext s 1) rt -> 0 <= ext s -> shapes rt !! s = Some sh ->
  exists rt', js_free_shape rt s = Some rt' /\ srt_ok None ext rt' /\ smem rt' = smem rt /\ objects rt' = objects rt /\
    (forall x shx, shapes rt !! x = Some shx -> x <> s \/ 0 < ext x \/ 0 < users (objects rt) x -> shapes rt' !! x = Some shx) /\
    (forall x shx, shapes rt' !! x = Some shx -> shapes rt !! x = Some shx).
Proof.
  intros Hi He Es. pose proof (users_nonneg (objects rt) s) as Hu. destruct (free_ok _ rt s sh Hi Es) as (rt' & E & Hi' & Eo & Em & Esh); [unfold ext_add; rewrite at_ptr_same; lia|].
  exists rt'. unfold ext_add in Esh. rewrite at_ptr_same in Esh. split_and!; [done| |done|done| |].
  - apply (srt_ok_ext _ _ ext) in Hi'; [done|]. intros x. apply ext_add_0.
  - intros x shx Ex Hx. rewrite Esh. destruct (Z.eqb_spec (ext s + 1 + users (objects rt) s) 1); [|done]. rewrite lookup_delete_ne; [done|]. intros <-. destruct Hx as [|[|]]; [done|lia|lia].
  - intros x shx. rewrite Esh. destruct (_ =? _); [|done]. by intros [_ ?]%lookup_delete_Some.
Qed.

(** [p] takes the shape [s1], on which it gets the reference from elsewhere,
    and gives up its own. *)
Lemma switch_ok ext rt p o s1 sh1 arr : srt_ok None (ext_add ext s1 1) rt -> (forall x, 0 <= ext x) -> objects rt !! p = Some o ->
  shapes rt !! s1 = Some sh1 -> prop_size sh1 <= Z.of_nat (length arr) ->
  exists rt', js_free_shape (set_object rt p (mk_pobject s1 arr)) (oshape o) = Some rt' /\ srt_ok None ext rt' /\ smem rt' = smem rt /\
    objects rt' = <[p := mk_pobject s1 arr]> (objects rt) /\ shapes rt' !! s1 = Some sh1 /\ kept ext p rt rt'.
Proof.
  intros Hi He Ep Es1 Hcap. destruct (sr_obj _ _ _ Hi p o Ep) as (sh & Es & _).
  pose proof (set_object_ok _ _ _ p o (mk_pobject s1 arr) sh1 Hi Ep Es1 Hcap) as H2. cbn [oshape] in H2. set (rt2 := set_object rt p (mk_pobject s1 arr)) in *.
  apply (srt_ok_ext _ _ (ext_add ext (oshape o) 1)) in H2; [|intros x; unfold ext_add, at_ptr; destruct (decide (s1 = x)); lia].
  destruct (release_ok ext rt2 (oshape o) sh H2 (He _) Es) as (rt' & E & Hi' & Em & Eo & Hkeep & _). exists rt'. split_and!; [done..| |].
  - apply Hkeep; [done|]. right. right. apply (users_pos (objects rt2) p (mk_pobject s1 arr)). apply lookup_insert_eq.
  - apply kept_exact; [intros q Hq; rewrite Eo; by apply lookup_insert_ne|]. intros x shx Ex [Hx|(q & oq & Hq & Eq & <-)]; (apply Hkeep; [done|]); [by right; left|]. right. right.
    apply (users_pos (objects rt2) q oq). by rewrite <- Eq; apply lookup_insert_ne.
Qed.

Lemma clone_ok ext rt s sh : srt_ok None ext rt -> shapes rt !! s = Some sh ->
  exists r rt', js_clone_shape rt s = Some (r, rt') /\ objects rt' = objects rt /\
    match r with
    | Some s1 => shapes rt !! s1 = None /\ srt_ok None (ext_add ext s1 1) rt' /\ shapes rt' = <[s1 := set_hashed sh false]> (shapes rt)
    | None => same_state rt rt' /\ false ∈ smem rt
    end /\ (forall b, b ∈ smem rt' -> b ∈ smem rt).
Proof.
  intros Hi Es. unfold js_clone_shape. rewrite Es. cbn [mbind option_bind]. unfold js_malloc.
  assert (Htl : forall b, b ∈ tl (smem rt) -> b ∈ smem rt) by (intros b; destruct (smem rt); [done|by right]).
  destruct (hd true (smem rt)) eqn:Eh; cbn [negb].
  - destruct (new_block _ _) as [s1 rt1] eqn:En. apply (new_ok ext) in En as (Hf & Hi1 & Es1 & Eo1 & Em1); [|by apply (srt_ok_same _ _ rt)|by apply shape_ok_hashed, (sr_shape _ _ _ Hi s)|done].
    exists (Some s1), rt1. split_and!; try done. by rewrite Em1.
  - eexists None, _. split; [done|]. split_and!; try done. destruct (smem rt) as [|b l]; [done|]. cbn in Eh. subst b. left.
Qed.

(** The objects that have a shape have room for its properties. *)
Lemma room_ok out ext rt s sh : srt_ok out ext rt -> shapes rt !! s = Some sh -> forall p o, objects rt !! p = Some o -> oshape o = s -> prop_size sh <= Z.of_nat (length (oprop o)).
Proof. intros Hi Es p o Ep <-. destruct (sr_obj _ _ _ Hi p o Ep) as (sh' & Es' & ?). rewrite Es in Es'. by injection Es' as <-. Qed.

(** The mark of the shape of [p] is cleared first, also when it is shared. *)
Lemma unplain_ok ext rt p o sh : srt_ok None ext rt -> objects rt !! p = Some o -> shapes rt !! oshape o = Some sh ->
  let rt0 := put_shape rt (oshape o) (set_plain sh false) in srt_ok None ext rt0 /\ kept ext p rt rt0 /\ shapes rt0 !! oshape o = Some (set_plain sh false).
Proof.
  intros Hi Ep Es rt0. split_and!; [|split; [done|]|apply lookup_insert_eq].
  - apply (put_keep_ok _ _ _ sh); try done; [by apply shape_ok_plain, (sr_shape _ _ _ Hi _ _ Es)|]. by apply (room_ok _ _ _ _ _ Hi Es).
  - intros x shx Ex _. cbn [rt0 put_shape set_shapes shapes]. destruct (decide (oshape o = x)) as [<-|Hne].
    + rewrite Es in Ex. injection Ex as <-. rewrite lookup_insert_eq. eexists. split; [done|apply same_shape_plain].
    + rewrite lookup_insert_ne by done. by exists shx.
Qed.

Lemma prepare_spec ext rt p o sh : srt_ok None ext rt -> (forall x, 0 <= ext x) -> objects rt !! p = Some o -> shapes rt !! oshape o = Some sh ->
  exists b rt', js_shape_prepare_update rt p = Some (b, rt') /\ srt_ok None ext rt' /\ kept ext p rt rt' /\
    if b then exists s', objects rt' !! p = Some (mk_pobject s' (oprop o)) /\ shapes rt' !! s' = Some (set_hashed (set_plain sh false) false) /\ sole ext rt' s'
    else objects rt' !! p = Some o /\ shapes rt' !! oshape o = Some (set_plain sh false) /\ false ∈ smem rt.
Proof.
  intros Hi He Ep Es. unfold js_shape_prepare_update. rewrite Ep. cbn [mbind option_bind]. rewrite Es. cbn [mbind option_bind].
  destruct (unplain_ok ext rt p o sh Hi Ep Es) as (Hi0 & Hk0 & Es0). set (rt0 := put_shape rt (oshape o) (set_plain sh false)) in *. set (sh0 := set_plain sh false) in *.
  assert (Ep0 : objects rt0 !! p = Some o) by done. destruct (rc_one _ _ _ _ _ Hi0 He Ep0 Es0) as (Ec & Hone & Hnh). pose proof (sr_shape _ _ _ Hi0 _ _ Es0) as Hok.
  assert (Em0 : smem rt0 = smem rt) by done. clearbody rt0 sh0. clear Es.
  destruct (is_hashed sh0) eqn:Hh; cbn [negb]; [|exists true, rt0; split_and!; try done; exists (oshape o); split_and!; [by destruct o| |by apply Hnh]; rewrite Es0; f_equal; destruct sh0; cbn in *; by subst].
  rewrite Ec. cbn [mbind option_bind]. destruct (Z.eqb_spec (ext (oshape o) + users (objects rt0) (oshape o)) 1) as [H1|H1]; cbn [negb].
  - specialize (Hone H1). destruct (unlink_ok ext rt0 _ sh0 Hi0 Es0 Hh) as (rt1 & E1 & Hi1 & Es1 & Er1 & Eo1 & _). rewrite E1. cbn [mbind option_bind].
    exists true, (put_shape rt1 (oshape o) (set_hashed sh0 false)). split; [done|]. pose proof (room_ok _ _ _ _ _ Hi0 Es0) as Hcap. split_and!.
    + apply (out_ok ext _ (oshape o) (set_hashed sh0 false)); [apply lookup_insert_eq|done|]. apply (put_ok _ _ _ sh0); [done|by rewrite Es1|by apply shape_ok_hashed|by rewrite Eo1|by rewrite Eo1].
    + apply (kept_trans _ _ _ rt0); [done|]. apply (kept_sole ext p rt0 _ o (oshape o) Ep0 eq_refl Hone); cbn [put_shape set_shapes objects shapes]; [by intros; rewrite Eo1|]. intros x shx Hx Ex. by rewrite lookup_insert_ne, Es1.
    + exists (oshape o). cbn [put_shape set_shapes objects shapes]. rewrite Eo1, lookup_insert_eq. split_and!; [by destruct o|done|]. destruct Hone. split; cbn; by rewrite ?Eo1.
  - destruct (clone_ok ext rt0 _ sh0 Hi0 Es0) as (r & rt1 & E1 & Eo1 & Hr & _). rewrite E1. cbn [mbind option_bind]. destruct r as [s1|].
    + destruct Hr as (Hf & Hi1 & Es1). assert (Ep1 : objects rt1 !! p = Some o) by (by rewrite Eo1). pose proof (room_ok _ _ _ _ _ Hi0 Es0 p o Ep0 eq_refl) as Hcap.
      destruct (switch_ok ext rt1 p o s1 (set_hashed sh0 false) (oprop o)) as (rt2 & E2 & Hi2 & _ & Eo2 & Esh2 & Hk2); [done|done|done|rewrite Es1; apply lookup_insert_eq|done|].
      rewrite free_objects in E2. destruct (js_free_shape rt1 (oshape o)) as [rt3|] eqn:E3; [|done]. cbn in E2. injection E2 as E2.
      cbn [mbind option_bind]. unfold set_shape. rewrite (free_same _ _ _ E3), Ep1. cbn [mbind option_bind]. rewrite E2. exists true, rt2. split; [done|]. split; [done|].
      assert (Hk1 : kept ext p rt0 rt1) by (apply kept_exact; [by intros; rewrite Eo1|]; intros x shx Ex _; rewrite Es1, lookup_insert_ne; [done|congruence]).
      split; [apply (kept_trans _ _ _ rt0); [done|]; by apply (kept_trans _ _ _ rt1)|]. exists s1. rewrite Eo2, lookup_insert_eq. split_and!; [done..|]. split; [by apply (sr_ext _ _ _ Hi0)|].
      rewrite Eo2, Eo1, (users_set _ p o _ s1 Ep0), (users_absent _ _ _ s1 Hi0 Hf). cbn [oshape]. rewrite at_ptr_same, at_ptr_other; [lia|]. congruence.
    + destruct Hr as [Hsame Hf]. exists false, rt1. split; [done|]. pose proof Hsame as (S1 & _ & _ & _ & S5).
      split_and!; [by apply (srt_ok_same _ _ rt0)| |by rewrite S5|by rewrite S1|by rewrite <- Em0]. apply (kept_trans _ _ _ rt0); [done|]. by apply kept_same.
Qed.

(** ** resize_properties *)

(** The allocator: an answer that is not given fails nothing. *)
Lemma answer_false (l : list bool) : hd true l = false -> false ∈ l.
Proof. destruct l as [|b l]; [done|]. cbn. intros ->. left. Qed.
Lemma tl_false (l : list bool) b : b ∈ tl l -> b ∈ l.
Proof. destruct l; [done|by right]. Qed.

Definition same_names (sh sh' : JSShape) : Prop :=
  signature (sprop sh') = signature (sprop sh) /\ is_hashed sh' = is_hashed sh /\ hash sh' = hash sh /\ sproto sh' = sproto sh.

(** The array of [p] changes; its shape does not. *)
Lemma array_ok out ext rt p o sh arr : srt_ok out ext rt -> objects rt !! p = Some o -> shapes rt !! oshape o = Some sh -> prop_size sh <= Z.of_nat (length arr) ->
  let rt' := set_object rt p (mk_pobject (oshape o) arr) in
  srt_ok out ext rt' /\ kept ext p rt rt' /\ objects rt' !! p = Some (mk_pobject (oshape o) arr) /\ (sole ext rt (oshape o) -> sole ext rt' (oshape o)).
Proof.
  intros Hi Ep Es Hcap rt'. split_and!.
  - apply (srt_ok_ext _ (ext_add (ext_add ext (oshape o) 1) (oshape o) (-1))); [intros x; apply ext_add_0|]. by apply (set_object_ok _ _ rt p o (mk_pobject (oshape o) arr) sh).
  - apply kept_exact; [intros q Hq; by apply lookup_insert_ne|done].
  - apply lookup_insert_eq.
  - intros [He Hu]. split; [done|]. cbn [rt' set_object objects]. rewrite (users_set _ p o _ _ Ep). cbn [oshape]. lia.
Qed.

Lemma hash_size_pos sh : shape_ok sh -> 1 <= prop_hash_size sh /\ pow2 (Z.to_nat (prop_hash_size sh)).
Proof.
  intros Hok. unfold prop_hash_size. rewrite Nat2Z.id. split; [|apply (so_pow2 _ Hok)]. destruct (so_pow2 _ Hok) as (k & _ & ->). rewrite Nat2Z.inj_pow.
  pose proof (Z.pow_pos_nonneg 2 (Z.of_nat k)). change (Z.of_nat 2) with 2. lia.
Qed.

(** The shape of [p], which it alone has, moves to a new block with the same
    names. *)
Lemma moved_ok ext rt p o sh sh' arr s' rt1 : srt_ok (Some (oshape o)) ext rt -> objects rt !! p = Some o -> shapes rt !! oshape o = Some sh -> sole ext rt (oshape o) ->
  shape_ok sh' -> prop_size sh' <= Z.of_nat (length arr) -> new_block rt sh' = (s', rt1) ->
  let rt' := set_object (js_free rt1 (oshape o)) p (mk_pobject s' arr) in
  srt_ok (Some s') ext rt' /\ kept ext p rt rt' /\ objects rt' !! p = Some (mk_pobject s' arr) /\ shapes rt' !! s' = Some sh' /\ sole ext rt' s'.
Proof.
  intros Hi Ep Es Hso Hok Hcap Eb rt'. pose proof Hso as [He Hu].
  destruct (move_ok ext rt p o sh' arr s' rt1 Hi Ep He Hu Hok Hcap Eb) as (Hf & Hi1 & Es1).
  assert (Hne : oshape o <> s') by congruence. assert (Eo1 : objects rt1 = objects rt) by (revert Eb; unfold new_block; by intros [= <- <-]).
  split_and!; [done| |apply lookup_insert_eq|by unfold rt'; rewrite Es1, lookup_delete_ne, lookup_insert_eq|].
  - apply (kept_sole ext p rt _ o (oshape o) Ep eq_refl Hso); unfold rt'.
    + intros q Hq. cbn [set_object js_free set_shapes objects]. by rewrite lookup_insert_ne, Eo1.
    + intros x shx Hx Ex. rewrite Es1, lookup_delete_ne, lookup_insert_ne; congruence.
  - split; [by apply (sr_ext _ _ _ Hi)|]. unfold rt'. cbn [set_object js_free set_shapes objects]. rewrite Eo1, (users_set _ p _ _ _ Ep). cbn [oshape].
    rewrite at_ptr_same, at_ptr_other, (users_absent _ _ _ s' Hi Hf) by done. lia.
Qed.

Lemma resize_spec ext rt p o sh : srt_ok (Some (oshape o)) ext rt -> objects rt !! p = Some o -> shapes rt !! oshape o = Some sh -> sole ext rt (oshape o) ->
  prop_size sh <= prop_count sh -> prop_count sh + 1 < 2 ^ 26 ->
  exists b rt', resize_properties rt p (prop_count sh + 1) = Some (b, rt') /\ kept ext p rt rt' /\
    exists o' sh', objects rt' !! p = Some o' /\ shapes rt' !! oshape o' = Some sh' /\ srt_ok (Some (oshape o')) ext rt' /\ sole ext rt' (oshape o') /\ same_names sh sh' /\
      take (length (sprop sh)) (oprop o') = take (length (sprop sh)) (oprop o) /\
      if b then prop_count sh' < prop_size sh' else oshape o' = oshape o /\ sh' = sh /\ false ∈ smem rt.
Proof.
  intros Hi Ep Es Hso Hfull Hmax. pose proof (sr_shape _ _ _ Hi _ _ Es) as Hok. pose proof (so_count _ Hok) as [Hc _]. pose proof (so_size _ Hok) as Hsz.
  destruct (sr_obj _ _ _ Hi p o Ep) as (sh0 & Es0 & Hcap). rewrite Es in Es0. injection Es0 as <-.
  unfold resize_properties. rewrite Ep. cbn [mbind option_bind]. rewrite Es. cbn [mbind option_bind].
  rewrite swrap_id by (unfold prop_count, sfits in *; lia).
  set (size := Z.max (prop_count sh + 1) (prop_size sh * 3 ÷ 2)). assert (Hsize : prop_count sh < size < 2 ^ 27 /\ 2 <= size /\ prop_size sh <= size).
  { unfold size. rewrite Z.quot_div_nonneg by lia. pose proof (Z.div_le_upper_bound (prop_size sh * 3) 2 (prop_size sh * 2) ltac:(lia) ltac:(lia)). lia. }
  clearbody size. unfold js_malloc at 1. destruct (hd true (smem rt)) eqn:E1; cbn [negb].
  2:{ eexists false, _. split; [done|]. split; [by apply kept_same|]. exists o, sh. apply answer_false in E1. split_and!; try done. by apply (srt_ok_same _ _ rt). }
  set (rt1 := mk_srt _ _ _ _ _ _ _). set (arr := resize_array (oprop o) size). set (rt2 := set_object rt1 p (mk_pobject (oshape o) arr)).
  assert (Harr : Z.of_nat (length arr) = size) by (apply resize_array_len; lia).
  assert (Htake : take (length (sprop sh)) arr = take (length (sprop sh)) (oprop o)) by (unfold prop_count in *; apply resize_array_take; lia).
  destruct (array_ok (Some (oshape o)) ext rt1 p o sh arr) as (Hi2 & Hk2 & Ep2 & Hso2); [by apply (srt_ok_same _ _ rt)|done|done|lia|]. fold rt2 in Hi2, Hk2, Ep2, Hso2.
  specialize (Hso2 Hso). destruct (hash_size_pos sh Hok) as [Hpos Hp2].
  destruct (grow_hash_spec 32 (prop_hash_size sh) size Hp2) as (n' & En & Hp & Hle); [lia|lia|change (2 ^ Z.of_nat 32) with 4294967296; nia|].
  rewrite En. cbn [mbind option_bind]. unfold js_malloc at 1. destruct (hd true (smem rt2)) eqn:E2; cbn [negb].
  2:{ eexists false, _. split; [done|]. split; [done|]. exists (mk_pobject (oshape o) arr), sh. apply answer_false, tl_false in E2. split_and!; try done. by apply (srt_ok_same _ _ rt2). }
  set (rt3 := mk_srt _ _ _ _ _ _ _). assert (Hi3 : srt_ok (Some (oshape o)) ext rt3) by (by apply (srt_ok_same _ _ rt2)).
  destruct (grown_ok sh size n' (hash sh) Hok ltac:(lia) ltac:(lia) Hp ltac:(lia) (so_hash _ Hok)) as (l' & tab' & -> & Hs & Hok'). cbn [mbind option_bind fst snd].
  destruct (new_block rt3 _) as [s' rt4] eqn:Eb.
  destruct (moved_ok ext rt3 p (mk_pobject (oshape o) arr) sh _ arr s' rt4 Hi3 Ep2 Es Hso2 Hok' ltac:(cbn; lia) Eb) as (Hi4 & Hk4 & Ep4 & Es4 & Hso4).
  eexists true, _. split; [done|]. split; [by apply (kept_trans _ _ _ rt2)|]. eexists (mk_pobject s' arr), _. cbn [oshape oprop].
  split_and!; [exact Ep4|exact Es4|exact Hi4|exact Hso4|done|done|]. unfold prop_count in *. cbn. apply signature_eq in Hs. lia.
Qed.

(** ** add_shape_property *)

Lemma unlink_opt ext rt s sh : srt_ok None ext rt -> shapes rt !! s = Some sh ->
  exists rt', (if is_hashed sh then js_shape_hash_unlink rt s else Some rt) = Some rt' /\ srt_ok (Some s) ext rt' /\ shapes rt' = shapes rt /\ objects rt' = objects rt /\ smem rt' = smem rt.
Proof.
  intros Hi Es. destruct (is_hashed sh) eqn:Hh.
  - destruct (unlink_ok ext rt s sh Hi Es Hh) as (rt' & ? & ? & ? & ? & ? & ?). by exists rt'.
  - exists rt. split_and!; try done. by apply (out_ok _ _ _ _ Es Hh).
Qed.

Lemma link_opt ext rt s sh : srt_ok (Some s) ext rt -> shapes rt !! s = Some sh ->
  exists rt', (if is_hashed sh then js_shape_hash_link rt s else Some rt) = Some rt' /\ srt_ok None ext rt' /\ shapes rt' = shapes rt /\ objects rt' = objects rt.
Proof.
  intros Hi Es. destruct (is_hashed sh) eqn:Hh.
  - destruct (link_ok ext rt s sh Hi Es Hh) as (rt' & ? & ? & ? & ? & ? & ?). by exists rt'.
  - exists rt. split_and!; try done. by apply (out_ok _ _ _ _ Es Hh).
Qed.

(** The shape goes back to the table with another hash. *)
Lemma relink_ok ext rt s sh h : srt_ok (Some s) ext rt -> shapes rt !! s = Some sh -> fits 32 h ->
  exists rt' sh', (if is_hashed sh then js_shape_hash_link (put_shape rt s (set_hash sh true h)) s else Some rt) = Some rt' /\
    srt_ok None ext rt' /\ objects rt' = objects rt /\ shapes rt' = <[s := sh']> (shapes rt) /\ sh' = (if is_hashed sh then set_hash sh true h else sh) /\ shape_ok sh'.
Proof.
  intros Hi Es Hh. pose proof (sr_shape _ _ _ Hi s sh Es) as Hok. destruct (is_hashed sh) eqn:E.
  - assert (Hi1 : srt_ok (Some s) ext (put_shape rt s (set_hash sh true h))) by (apply (put_ok _ _ _ sh); [done|done|by apply shape_ok_hash|done|by apply (room_ok _ _ _ _ _ Hi Es)]).
    destruct (link_ok ext _ s (set_hash sh true h) Hi1) as (rt' & -> & Hi2 & Es2 & _ & Eo2 & _); [apply lookup_insert_eq|done|]. exists rt', (set_hash sh true h). split_and!; [done..|]. by apply shape_ok_hash.
  - exists rt, sh. split_and!; try done; [by apply (out_ok _ _ _ _ Es E)|]. by rewrite insert_id.
Qed.

(** The new entry, in a shape with room for it. *)
Lemma append_step ext rt p o sh a f : srt_ok None ext rt -> objects rt !! p = Some o -> shapes rt !! oshape o = Some sh -> sole ext rt (oshape o) ->
  a <> JS_ATOM_NULL -> a ∉ (live_sig (signature (sprop sh))).*1 -> 0 <= f < 64 -> prop_count sh < prop_size sh -> prop_count sh + 1 < 2 ^ 26 ->
  exists e, chain_entry (hash_table sh) a f (length (sprop sh)) = Some e /\ signature (sprop sh ++ [e.1]) = signature (sprop sh) ++ [(a, f)] /\
    let rt' := put_shape rt (oshape o) (mk_shape (is_hashed sh) (if negb (f & JS_PROP_TMASK =? 0) then false else all_plain sh) (hash sh) e.2 (prop_size sh) (deleted_prop_count sh) (sproto sh) (sprop sh ++ [e.1])) in
    srt_ok None ext rt' /\ kept ext p rt rt'.
Proof.
  intros Hi Ep Es Hso Ha Hna Hf Hroom Hmax. pose proof (sr_shape _ _ _ Hi _ _ Es) as Hok.
  destruct (append_ok sh a f (hash sh) Hok Ha Hna Hf Hroom Hmax (so_hash _ Hok)) as (pr & tab & E & Hok' & Hs). exists (pr, tab). split; [done|]. split; [done|]. split.
  - apply (put_keep_ok _ _ _ sh); try done. by apply (room_ok _ _ _ _ _ Hi Es).
  - apply (kept_sole ext p rt _ o (oshape o) Ep eq_refl Hso); [done|]. intros x shx Hx Ex. cbn [fst snd put_shape set_shapes shapes]. by rewrite lookup_insert_ne.
Qed.

Lemma shape_hash_fits h v : fits 32 (shape_hash h v).
Proof. unfold shape_hash. apply wrap_fits. lia. Qed.

Lemma add_shape_spec ext rt p o sh a f : srt_ok None ext rt -> objects rt !! p = Some o -> shapes rt !! oshape o = Some sh -> sole ext rt (oshape o) ->
  a <> JS_ATOM_NULL -> a ∉ (live_sig (signature (sprop sh))).*1 -> 0 <= f < 64 -> prop_count sh + 1 < 2 ^ 26 ->
  exists b rt', add_shape_property rt p a f = Some (b, rt') /\ srt_ok None ext rt' /\ kept ext p rt rt' /\
    exists o' sh', objects rt' !! p = Some o' /\ shapes rt' !! oshape o' = Some sh' /\ sproto sh' = sproto sh /\
      take (length (sprop sh)) (oprop o') = take (length (sprop sh)) (oprop o) /\
      if b then signature (sprop sh') = signature (sprop sh) ++ [(a, f)] else sh' = sh /\ false ∈ smem rt.
Proof.
  intros Hi Ep Es Hso Ha Hna Hf Hmax. unfold add_shape_property. rewrite Ep. cbn [mbind option_bind]. rewrite Es. cbn [mbind option_bind].
  destruct (unlink_opt ext rt (oshape o) sh Hi Es) as (rt1 & -> & Hi1 & Es1 & Eo1 & Em1). cbn [mbind option_bind].
  set (h := shape_hash (shape_hash (hash sh) a) f). assert (Hh : fits 32 h) by apply shape_hash_fits. clearbody h.
  assert (Hk1 : kept ext p rt rt1) by (by apply kept_same).
  assert (Hr : exists b rt2, (if prop_size sh <=? prop_count sh then resize_properties rt1 p (prop_count sh + 1) else Some (true, rt1)) = Some (b, rt2) /\ kept ext p rt rt2 /\
    exists o' sh', objects rt2 !! p = Some o' /\ shapes rt2 !! oshape o' = Some sh' /\ srt_ok (Some (oshape o')) ext rt2 /\ sole ext rt2 (oshape o') /\ same_names sh sh' /\
      take (length (sprop sh)) (oprop o') = take (length (sprop sh)) (oprop o) /\
      if b then prop_count sh' < prop_size sh' else oshape o' = oshape o /\ sh' = sh /\ false ∈ smem rt).
  { destruct (Z.leb_spec (prop_size sh) (prop_count sh)) as [Hle|Hle].
    - destruct (resize_spec ext rt1 p o sh) as (b & rt2 & E2 & Hk2 & Hr); try done; [by rewrite Eo1|by rewrite Es1|by unfold sole; rewrite Eo1|].
      rewrite Em1 in Hr. exists b, rt2. split_and!; [done|by apply (kept_trans _ _ _ rt1)|done].
    - exists true, rt1. split_and!; [done|done|]. exists o, sh. unfold sole. rewrite Eo1, Es1. destruct Hso. by split_and!. }
  destruct Hr as (b & rt2 & -> & Hk2 & o2 & sh2 & Ep2 & Es2 & Hi2 & Hso2 & (Hs2 & Hh2 & _ & Hp2) & Ht2 & Hb). cbn [mbind option_bind]. destruct b.
  - rewrite Ep2. cbn [mbind option_bind]. rewrite Es2. cbn [mbind option_bind].
    destruct (relink_ok ext rt2 (oshape o2) sh2 h Hi2 Es2 Hh) as (rt3 & sh3 & -> & Hi3 & Eo3 & Es3 & Esh3 & Hok3). cbn [mbind option_bind].
    assert (Esh : shapes rt3 !! oshape o2 = Some sh3) by (by rewrite Es3, lookup_insert_eq). rewrite Esh. cbn [mbind option_bind].
    assert (Hsp : sprop sh3 = sprop sh2 /\ prop_size sh3 = prop_size sh2 /\ sproto sh3 = sproto sh2) by (rewrite Esh3; by destruct (is_hashed sh2)). destruct Hsp as (Hsp & Hsz & Hpr).
    assert (Hcnt : prop_count sh3 = prop_count sh2) by (unfold prop_count; by rewrite Hsp).
    assert (Hcnt2 : prop_count sh2 = prop_count sh) by (unfold prop_count; by rewrite (signature_eq _ _ Hs2)).
    rewrite Hcnt, Hsz, (proj2 (Z.ltb_lt _ _) Hb). cbn [negb]. rewrite wrap_id by done.
    destruct (append_step ext rt3 p o2 sh3 a f Hi3) as (e & -> & Hs4 & Hi4 & Hk4); [by rewrite Eo3|done|by unfold sole; rewrite Eo3|done|by rewrite Hsp, Hs2|done|lia|lia|].
    cbn [mbind option_bind]. rewrite Hsz in Hi4, Hk4. eexists true, _. split; [done|]. split; [exact Hi4|]. split.
    + apply (kept_trans _ _ _ rt3); [|exact Hk4]. apply (kept_trans _ _ _ rt2); [done|]. apply (kept_sole ext p rt2 _ o2 (oshape o2) Ep2 eq_refl Hso2); [by intros; rewrite Eo3|].
      intros x shx Hx Ex. by rewrite Es3, lookup_insert_ne.
    + eexists o2, _. split; [cbn; by rewrite Eo3|]. split; [apply lookup_insert_eq|]. cbn [sproto sprop]. split_and!; [congruence|done|]. by rewrite Hs4, Hsp, Hs2.
  - destruct Hb as (Hsame & -> & Hfalse). rewrite Hsame in *. destruct (link_opt ext rt2 _ sh Hi2 Es2) as (rt3 & -> & Hi3 & Es3 & Eo3). cbn [mbind option_bind].
    exists false, rt3. split_and!; [done|done|apply (kept_trans _ _ _ rt2); [done|by apply kept_same]|]. exists o2, sh. rewrite Eo3, Es3, Hsame. by split_and!.
Qed.

(** ** add_property *)

(** What adding the property [a] to [p], with the values [vs] and the shape
    [sh] before, leads to. *)
Definition added (ext : ptr -> Z) (p : ptr) (vs : list (option JSProperty)) (sh : JSShape) (a f : Z) (rt : shape_rt) (r : option nat) (rt' : shape_rt) : Prop :=
  srt_ok None ext rt' /\ kept ext p rt rt' /\ exists o' sh', objects rt' !! p = Some o' /\ shapes rt' !! oshape o' = Some sh' /\ sproto sh' = sproto sh /\
    take (length (sprop sh)) (oprop o') = take (length (sprop sh)) vs /\
    match r with
    | Some i => i = length (sprop sh) /\ signature (sprop sh') = signature (sprop sh) ++ [(a, f)]
    | None => signature (sprop sh') = signature (sprop sh) /\ false ∈ smem rt
    end.

Lemma add_own_spec ext rt p o sh a f : srt_ok None ext rt -> objects rt !! p = Some o -> shapes rt !! oshape o = Some sh -> sole ext rt (oshape o) ->
  a <> JS_ATOM_NULL -> a ∉ (live_sig (signature (sprop sh))).*1 -> 0 <= f < 64 -> prop_count sh + 1 < 2 ^ 26 ->
  exists r rt', add_own_property rt p a f = Some (r, rt') /\ added ext p (oprop o) sh a f rt r rt'.
Proof.
  intros Hi Ep Es Hso Ha Hna Hf Hmax. destruct (sr_rc _ _ _ Hi _ _ Es) as (Ec & _). pose proof Hso as [He Hu]. rewrite He, Hu in Ec.
  unfold add_own_property. rewrite Ep. cbn [mbind option_bind]. rewrite Ec. cbn [mbind option_bind Z.add Z.eqb Pos.eqb negb].
  destruct (add_shape_spec ext rt p o sh a f Hi Ep Es Hso Ha Hna Hf Hmax) as (b & rt' & -> & Hi' & Hk & o' & sh' & Ep' & Es' & Hpr & Ht & Hb). cbn [mbind option_bind]. destruct b.
  - rewrite Ep'. cbn [mbind option_bind]. rewrite Es'. cbn [mbind option_bind]. eexists _, rt'. split; [done|]. split_and!; try done. exists o', sh'. split_and!; try done.
    apply (f_equal length) in Hb. rewrite length_app, !signature_len in Hb. cbn in Hb. lia.
  - destruct Hb as [-> Hfalse]. exists None, rt'. split; [done|]. split_and!; try done. exists o', sh. by split_and!.
Qed.

Lemma find_shape_spec test rt l : Forall (fun s => is_Some (shapes rt !! s)) l ->
  exists r, find_shape test rt l = Some r /\ match r with Some s => s ∈ l /\ exists sh, shapes rt !! s = Some sh /\ test sh = true | None => True end.
Proof.
  induction 1 as [|s l [sh Es] Hl (r & E & Hr)]; [by exists None|]. cbn [find_shape]. rewrite Es. cbn [mbind option_bind].
  destruct (test sh) eqn:Et; [exists (Some s); split; [done|split; [left|by exists sh]]|]. exists r. split; [done|]. destruct r as [s'|]; [|done]. destruct Hr. split; [by right|done].
Qed.

Lemma extends_spec l1 l a f : extends l1 l a f = true -> length l1 = S (length l) -> signature l1 = signature l ++ [(a, f)].
Proof.
  unfold extends. destruct (l1 !! length l) as [pr|] eqn:E; [|done]. rewrite !andb_true_iff, !Z.eqb_eq. intros [[<- <-] Hz] Hl.
  revert l1 E Hz Hl. induction l as [|q l IH]; intros [|q1 l1] E Hz Hl; try done; cbn [length] in *.
  - destruct l1; [|done]. cbn in E. by injection E as ->.
  - cbn [zip zip_with forallb fst snd] in Hz. apply andb_true_iff in Hz as [Hq Hz]. unfold same_entry in Hq. rewrite andb_true_iff, !Z.eqb_eq in Hq. destruct Hq as [H1 H2].
    unfold signature in *. cbn. rewrite H1, H2. f_equal. apply IH; [done|done|lia].
Qed.

(** The shape that the table of shapes offers. *)
Lemma find_prop_spec ext rt sh a f : srt_ok None ext rt ->
  exists r, find_hashed_shape_prop rt sh a f = Some r /\
    match r with Some s1 => exists sh1, shapes rt !! s1 = Some sh1 /\ is_hashed sh1 = true /\ sproto sh1 = sproto sh /\ signature (sprop sh1) = signature (sprop sh) ++ [(a, f)] | None => True end.
Proof.
  intros Hi. unfold find_hashed_shape_prop. destruct (bucket_exists _ _ _ (shape_hash (shape_hash (hash sh) a) f) Hi (shape_hash_fits _ _)) as [b Eb].
  rewrite Eb. cbn [mbind option_bind].
  match goal with |- context [find_shape ?t rt b] => destruct (find_shape_spec t rt b) as (r & -> & Hr) end.
  - apply Forall_forall. intros s Hs. apply (sr_tab _ _ _ Hi _ _ s Eb) in Hs as [_ (shx & Ex & _)]. by exists shx.
  - exists r. split; [done|]. destruct r as [s1|]; [|done]. destruct Hr as (Hin & sh1 & E1 & Ht). rewrite !andb_true_iff in Ht. destruct Ht as (((_ & Hp%bool_decide_eq_true) & Hc%Z.eqb_eq) & Hx).
    apply (sr_tab _ _ _ Hi _ _ s1 Eb) in Hin as [_ (shx & Ex & Hhx & _)]. rewrite E1 in Ex. injection Ex as <-. exists sh1. split_and!; [done..|].
    apply extends_spec; [done|]. unfold prop_count in Hc. lia.
Qed.

(** The object takes the shape that has the property already. *)
Lemma add_hit_spec ext rt p o sh s1 sh1 a f : srt_ok None ext rt -> (forall x, 0 <= ext x) -> objects rt !! p = Some o -> shapes rt !! oshape o = Some sh ->
  shapes rt !! s1 = Some sh1 -> is_hashed sh1 = true -> sproto sh1 = sproto sh -> signature (sprop sh1) = signature (sprop sh) ++ [(a, f)] ->
  exists r rt',
    (let (ok, rt) := if negb (prop_size sh1 =? prop_size sh) then js_malloc rt else (true, rt) in
     if negb ok then Some (None, rt) else
     let props := if negb (prop_size sh1 =? prop_size sh) then resize_array (oprop o) (prop_size sh1) else oprop o in
     rt ← js_dup_shape (set_object rt p (mk_pobject s1 props)) s1; rt ← js_free_shape rt (oshape o); Some (Some (length (sprop sh1) - 1)%nat, rt)) = Some (r, rt') /\
    added ext p (oprop o) sh a f rt r rt'.
Proof.
  intros Hi He Ep Es Es1 Hh1 Hp1 Hs1. pose proof (room_ok _ _ _ _ _ Hi Es p o Ep eq_refl) as Hroom. pose proof (sr_shape _ _ _ Hi _ _ Es1) as Hok1.
  pose proof (so_count _ Hok1) as [Hc1 _]. pose proof (so_count _ (sr_shape _ _ _ Hi _ _ Es)) as [Hc _].
  assert (Hlen : length (sprop sh1) = S (length (sprop sh))) by (apply (f_equal length) in Hs1; rewrite length_app, !signature_len in Hs1; cbn in Hs1; lia).
  set (props := if negb (prop_size sh1 =? prop_size sh) then resize_array (oprop o) (prop_size sh1) else oprop o).
  assert (Hprops : prop_size sh1 <= Z.of_nat (length props) /\ take (length (sprop sh)) props = take (length (sprop sh)) (oprop o)).
  { unfold props, prop_count in *. destruct (Z.eqb_spec (prop_size sh1) (prop_size sh)) as [->|Hne]; cbn [negb]; [done|]. rewrite resize_array_len, resize_array_take by lia. by split. }
  destruct Hprops as [Hcap Ht]. clearbody props.
  assert (Hm : exists ok rt0, (if negb (prop_size sh1 =? prop_size sh) then js_malloc rt else (true, rt)) = (ok, rt0) /\ same_state rt rt0 /\ (ok = false -> false ∈ smem rt)).
  { destruct (negb _); [|by exists true, rt]. eexists _, _. split; [done|]. split; [apply malloc_same|]. apply answer_false. }
  destruct Hm as (ok & rt0 & -> & Hsame & Hfalse). pose proof (srt_ok_same _ _ _ _ Hsame Hi) as Hi0. destruct Hsame as (S1 & S2 & _ & _ & S5).
  assert (Hk0 : kept ext p rt rt0) by (by apply kept_same). destruct ok; cbn [negb].
  - destruct (dup_ok ext rt0 s1 sh1 Hi0 ltac:(by rewrite S1) Hh1) as (rt1 & E1 & Hi1 & Es1' & Eo1 & _).
    assert (Edup : js_dup_shape (set_object rt0 p (mk_pobject s1 props)) s1 = Some (set_object rt1 p (mk_pobject s1 props))).
    { revert E1. unfold js_dup_shape. cbn [set_object shape_rc]. destruct (shape_rc rt0 !! s1); [|done]. cbn. by intros [= <-]. }
    rewrite Edup. cbn [mbind option_bind]. destruct (switch_ok ext rt1 p o s1 sh1 props Hi1 He) as (rt2 & -> & Hi2 & _ & Eo2 & Esh2 & Hk2); [by rewrite Eo1, S5|by rewrite Es1', S1|done|].
    cbn [mbind option_bind]. eexists _, rt2. split; [done|]. split_and!; [done| |].
    + apply (kept_trans _ _ _ rt1); [|done]. apply (kept_trans _ _ _ rt0); [done|]. by apply kept_same.
    + exists (mk_pobject s1 props), sh1. rewrite Eo2, lookup_insert_eq. split_and!; try done. lia.
  - exists None, rt0. split; [done|]. split_and!; try done. exists o, sh. rewrite S5, S1. split_and!; try done. by apply Hfalse.
Qed.

(** The object gets a copy of its shape. *)
Lemma add_clone_spec ext rt p o sh : srt_ok None ext rt -> (forall x, 0 <= ext x) -> objects rt !! p = Some o -> shapes rt !! oshape o = Some sh -> is_hashed sh = true ->
  exists r rt1, js_clone_shape rt (oshape o) = Some (r, rt1) /\ (forall b, b ∈ smem rt1 -> b ∈ smem rt) /\
    match r with
    | None => same_state rt rt1 /\ false ∈ smem rt
    | Some s1 => exists rt2 rt3 rt4, shapes rt1 !! s1 = Some (set_hashed sh false) /\
        js_shape_hash_link (put_shape rt1 s1 (set_hashed (set_hashed sh false) true)) s1 = Some rt2 /\ js_free_shape rt2 (oshape o) = Some rt3 /\ set_shape rt3 p s1 = Some rt4 /\
        srt_ok None ext rt4 /\ kept ext p rt rt4 /\ smem rt4 = smem rt1 /\
        objects rt4 !! p = Some (mk_pobject s1 (oprop o)) /\ shapes rt4 !! s1 = Some sh /\ sole ext rt4 s1
    end.
Proof.
  intros Hi He Ep Es Hh. destruct (clone_ok ext rt _ sh Hi Es) as (r & rt1 & E1 & Eo1 & Hr & Hm). exists r, rt1. split_and!; [done..|].
  destruct r as [s1|]; [|done]. destruct Hr as (Hf & Hi1 & Es1). assert (Hsh : set_hashed (set_hashed sh false) true = sh) by (destruct sh; cbn in *; by subst). rewrite Hsh.
  assert (Esh1 : shapes rt1 !! s1 = Some (set_hashed sh false)) by (by rewrite Es1, lookup_insert_eq).
  pose proof (room_ok _ _ _ _ _ Hi1 Esh1) as Hroom. assert (Hi1' : srt_ok (Some s1) (ext_add ext s1 1) (put_shape rt1 s1 sh)).
  { apply (hash_put_ok _ _ _ (set_hashed sh false)); try done; [by apply (sr_shape _ _ _ Hi _ _ Es)|congruence]. }
  destruct (link_ok _ _ s1 sh Hi1' ltac:(apply lookup_insert_eq) Hh) as (rt2 & E2 & Hi2 & Es2 & _ & Eo2 & Em2).
  assert (Ep2 : objects rt2 !! p = Some o) by (rewrite Eo2; cbn; by rewrite Eo1). assert (Esh2 : shapes rt2 !! s1 = Some sh) by (rewrite Es2; apply lookup_insert_eq).
  destruct (switch_ok ext rt2 p o s1 sh (oprop o) Hi2 He Ep2 Esh2) as (rt4 & E4 & Hi4 & Em4 & Eo4 & Esh4 & Hk4); [by apply (room_ok _ _ _ _ _ Hi Es p o)|].
  rewrite free_objects in E4. destruct (js_free_shape rt2 (oshape o)) as [rt3|] eqn:E3; [|done]. cbn in E4. injection E4 as E4.
  exists rt2, rt3, rt4. split_and!; try done.
  - unfold set_shape. rewrite (free_same _ _ _ E3), Ep2. cbn [mbind option_bind]. by rewrite E4.
  - apply (kept_trans _ _ _ rt2); [|done]. apply kept_exact; [intros q _; rewrite Eo2; cbn; by rewrite Eo1|]. intros x shx Ex _. rewrite Es2. cbn [put_shape set_shapes shapes].
    rewrite Es1, !lookup_insert_ne; congruence.
  - rewrite Em4, Em2. done.
  - by rewrite Eo4, lookup_insert_eq.
  - split; [by apply (sr_ext _ _ _ Hi)|]. rewrite Eo4, Eo2. cbn [put_shape set_shapes objects]. rewrite Eo1, (users_set _ p o _ s1 Ep), (users_absent _ _ _ s1 Hi Hf). cbn [oshape].
    rewrite at_ptr_same, at_ptr_other; [lia|]. congruence.
Qed.

Lemma add_spec ext rt p o sh a f : srt_ok None ext rt -> (forall x, 0 <= ext x) -> objects rt !! p = Some o -> shapes rt !! oshape o = Some sh ->
  a <> JS_ATOM_NULL -> a ∉ (live_sig (signature (sprop sh))).*1 -> 0 <= f < 64 -> prop_count sh + 1 < 2 ^ 26 ->
  exists r rt', add_property rt p a f = Some (r, rt') /\ added ext p (oprop o) sh a f rt r rt'.
Proof.
  intros Hi He Ep Es Ha Hna Hf Hmax. destruct (rc_one _ _ _ _ _ Hi He Ep Es) as (Ec & Hone & Hnh).
  unfold add_property. rewrite Ep. cbn [mbind option_bind]. rewrite Es. cbn [mbind option_bind].
  destruct (is_hashed sh) eqn:Hh; cbn [negb]; [|by apply add_own_spec; try done; apply Hnh].
  destruct (find_prop_spec ext rt sh a f Hi) as (r & -> & Hr). cbn [mbind option_bind]. destruct r as [s1|].
  - destruct Hr as (sh1 & Es1 & Hh1 & Hp1 & Hs1). rewrite Es1. cbn [mbind option_bind]. by apply add_hit_spec.
  - rewrite Ec. cbn [mbind option_bind]. destruct (Z.eqb_spec (ext (oshape o) + users (objects rt) (oshape o)) 1) as [H1|H1]; [by apply add_own_spec; try done; apply Hone|].
    destruct (add_clone_spec ext rt p o sh Hi He Ep Es Hh) as (r & rt1 & -> & Hm & Hr1). cbn [mbind option_bind]. destruct r as [s1|].
    + destruct Hr1 as (rt2 & rt3 & rt4 & -> & E2 & E3 & E4 & Hi4 & Hk4 & Em4 & Ep4 & Es4 & Hso4). cbn [mbind option_bind].
      rewrite E2. cbn [mbind option_bind]. rewrite E3. cbn [mbind option_bind]. rewrite E4. cbn [mbind option_bind].
      destruct (add_own_spec ext rt4 p _ sh a f Hi4 Ep4 Es4 Hso4 Ha Hna Hf Hmax) as (r & rt' & -> & Hi' & Hk' & o' & sh' & Ep' & Es' & Hpr & Ht & Hb).
      exists r, rt'. split; [done|]. split_and!; [done|by apply (kept_trans _ _ _ rt4)|]. exists o', sh'. split_and!; try done. destruct r; [done|]. destruct Hb as [? Hb]. split; [done|].
      apply Hm. by rewrite <- Em4.
    + destruct Hr1 as [(S1 & S2 & S3 & S4 & S5) Hfalse]. exists None, rt1. split; [done|]. split_and!; [by apply (srt_ok_same _ _ rt)|by apply kept_same|].
      exists o, sh. rewrite S5, S1. by split_and!.
Qed.

(** ** js_update_property_flags *)

Lemma put_sole_ok ext rt p o sh sh' : srt_ok None ext rt -> objects rt !! p = Some o -> shapes rt !! oshape o = Some sh -> sole ext rt (oshape o) ->
  shape_ok sh' -> is_hashed sh' = is_hashed sh -> hash sh' = hash sh -> prop_size sh' = prop_size sh ->
  srt_ok None ext (put_shape rt (oshape o) sh') /\ kept ext p rt (put_shape rt (oshape o) sh').
Proof.
  intros Hi Ep Es Hso Hok Hh Hhash Hsz. split.
  - apply (put_keep_ok _ _ _ sh); try done. rewrite Hsz. by apply (room_ok _ _ _ _ _ Hi Es).
  - apply (kept_sole ext p rt _ o (oshape o) Ep eq_refl Hso); [done|]. intros x shx Hx Ex. cbn [put_shape set_shapes shapes]. by rewrite lookup_insert_ne.
Qed.

Lemma update_spec ext rt p o sh i pr flags : srt_ok None ext rt -> (forall x, 0 <= ext x) -> objects rt !! p = Some o -> shapes rt !! oshape o = Some sh ->
  sprop sh !! i = Some pr -> 0 <= flags < 64 ->
  exists b rt', js_update_property_flags rt p i flags = Some (b, rt') /\ srt_ok None ext rt' /\ kept ext p rt rt' /\
    exists o' sh', objects rt' !! p = Some o' /\ shapes rt' !! oshape o' = Some sh' /\ oprop o' = oprop o /\ sproto sh' = sproto sh /\
      signature (sprop sh') = (if b then <[i := (atom pr, flags)]> (signature (sprop sh)) else signature (sprop sh)) /\ (b = false -> false ∈ smem rt).
Proof.
  intros Hi He Ep Es Epr Hf. unfold js_update_property_flags. rewrite Ep. cbn [mbind option_bind]. rewrite Es. cbn [mbind option_bind]. rewrite Epr. cbn [mbind option_bind].
  destruct (Z.eqb_spec flags (pflags pr)) as [->|Hne].
  - exists true, rt. split_and!; try done. exists o, sh. split_and!; try done. by rewrite list_insert_id by (by apply signature_lookup).
  - destruct (prepare_spec ext rt p o sh Hi He Ep Es) as (b & rt1 & -> & Hi1 & Hk1 & Hb). cbn [mbind option_bind]. destruct b.
    + destruct Hb as (s' & Ep1 & Es1 & Hso1). rewrite Ep1. cbn [mbind option_bind oshape]. rewrite Es1. cbn [mbind option_bind set_hashed set_plain sprop]. rewrite Epr. cbn [mbind option_bind].
      rewrite wrap_id by done. destruct (set_flags_ok (set_hashed (set_plain sh false) false) i pr flags) as [Hok Hs]; [by apply (sr_shape _ _ _ Hi1 s')|done|done|done|].
      destruct (put_sole_ok ext rt1 p _ _ _ Hi1 Ep1 Es1 Hso1 Hok eq_refl eq_refl eq_refl) as [Hi2 Hk2].
      eexists true, _. split; [done|]. split; [exact Hi2|]. split; [by apply (kept_trans _ _ _ rt1)|]. eexists _, _. split; [exact Ep1|]. split; [apply lookup_insert_eq|]. by split_and!.
    + destruct Hb as (Ep1 & Es1 & Hfalse). exists false, rt1. split_and!; try done. exists o, (set_plain sh false). by split_and!.
Qed.

(** ** compact_properties *)

Lemma entries_compact l vs rest : (length l <= length vs)%nat -> entries (live_sig (signature l)) (live_values l vs ++ rest) = entries (signature l) vs.
Proof.
  revert vs. induction l as [|pr l IH]; intros [|v vs] Hl; cbn [length] in Hl; [by destruct rest..|lia|]. specialize (IH vs ltac:(lia)).
  cbn [live_values]. unfold signature, live_sig, live_entry in *. rewrite fmap_cons, filter_cons. cbn [fst entries].
  destruct (Z.eqb_spec (atom pr) JS_ATOM_NULL) as [He|He]; cbn [negb].
  - by rewrite decide_False by tauto.
  - rewrite decide_True by done. cbn [app entries fst]. rewrite (proj2 (Z.eqb_neq _ _)) by done. by f_equal.
Qed.

Lemma live_values_len l vs : (length l <= length vs)%nat -> length (live_values l vs) = length (live_sig (signature l)).
Proof.
  revert vs. induction l as [|pr l IH]; intros [|v vs] Hl; cbn [length] in Hl; [done|done|lia|]. specialize (IH vs ltac:(lia)).
  cbn [live_values]. unfold signature, live_sig, live_entry in *. rewrite fmap_cons, filter_cons. cbn [fst].
  destruct (Z.eqb_spec (atom pr) JS_ATOM_NULL) as [He|He]; cbn [negb]; [by rewrite decide_False by tauto|]. rewrite decide_True by done. cbn. by f_equal.
Qed.

Lemma compact_spec ext rt p o sh : srt_ok None ext rt -> objects rt !! p = Some o -> shapes rt !! oshape o = Some sh -> sole ext rt (oshape o) -> is_hashed sh = false ->
  exists b rt', compact_properties rt p = Some (b, rt') /\ srt_ok None ext rt' /\ kept ext p rt rt' /\
    exists o' sh', objects rt' !! p = Some o' /\ shapes rt' !! oshape o' = Some sh' /\ sproto sh' = sproto sh /\
      entries (signature (sprop sh')) (oprop o') = entries (signature (sprop sh)) (oprop o).
Proof.
  intros Hi Ep Es Hso Hh. pose proof (sr_shape _ _ _ Hi _ _ Es) as Hok. pose proof (room_ok _ _ _ _ _ Hi Es p o Ep eq_refl) as Hroom.
  pose proof (so_count _ Hok) as [Hc _]. pose proof (so_size _ Hok) as Hsz. pose proof (so_deleted _ Hok) as Hd.
  assert (Hll : (length (live_sig (signature (sprop sh))) <= length (sprop sh))%nat) by (unfold live_sig; etrans; [apply length_filter|]; by rewrite signature_len).
  unfold compact_properties. rewrite Ep. cbn [mbind option_bind]. rewrite Es. cbn [mbind option_bind]. rewrite Hh.
  set (size := Z.max JS_PROP_INITIAL_SIZE (prop_count sh - deleted_prop_count sh)). assert (Hsize : 2 <= size <= prop_size sh) by (unfold size, JS_PROP_INITIAL_SIZE, prop_count in *; lia).
  rewrite (proj2 (Z.leb_le _ _)) by lia. cbn [negb]. destruct (hash_size_pos sh Hok) as [Hpos Hp2].
  destruct (shrink_hash_spec 32 (prop_hash_size sh) size Hp2) as (n' & -> & Hp & Hn); [|lia|].
  { split; [lia|]. destruct (so_pow2 _ Hok) as (k & Hk & E). unfold prop_hash_size. rewrite E, Nat2Z.inj_pow. apply Z.pow_lt_mono_r; lia. }
  cbn [mbind option_bind]. unfold js_malloc at 1. destruct (hd true (smem rt)) eqn:E1; cbn [negb].
  2:{ eexists false, _. split; [done|]. split; [by apply (srt_ok_same _ _ rt)|]. split; [by apply kept_same|]. by exists o, sh. }
  set (rt1 := mk_srt _ _ _ _ _ _ _). rewrite (pow2_test n' Hp) by lia. cbn [negb].
  destruct (compact_ok sh n' Hok Hp) as (l' & tab' & -> & Hs & Hok'). cbn [mbind option_bind fst snd]. fold size in Hok'.
  assert (Hl' : length l' = length (live_sig (signature (sprop sh)))) by (rewrite <- Hs; by rewrite signature_len).
  rewrite (proj2 (Nat.ltb_ge _ _)) by (unfold prop_count in *; lia). rewrite Hl', (proj2 (Z.eqb_eq _ _)) by (unfold prop_count in *; lia). cbn [negb].
  destruct (new_block rt1 _) as [s' rt2] eqn:Eb. rewrite Hh in Hok'.
  set (vals := live_values (sprop sh) (oprop o) ++ drop _ (oprop o)).
  assert (Hvals : length vals = length (oprop o)) by (unfold vals, prop_count in *; rewrite length_app, live_values_len, length_drop by lia; lia).
  set (ok := hd true (smem (js_free rt2 (oshape o)))). set (arr := if ok then resize_array vals size else vals).
  assert (Harr : size <= Z.of_nat (length arr)) by (unfold arr; destruct ok; [rewrite resize_array_len by lia|]; lia).
  assert (Hent : entries (signature l') arr = entries (signature (sprop sh)) (oprop o)).
  { rewrite Hs, <- (entries_compact (sprop sh) (oprop o) (drop (length (live_sig (signature (sprop sh)))) (oprop o))) by (unfold prop_count in *; lia). fold vals.
    apply entries_take. unfold arr. destruct ok; [|done]. unfold prop_count in *. apply resize_array_take; lia. }
  destruct (moved_ok ext rt1 p o sh (mk_shape false (all_plain sh) (hash sh) tab' size 0 (sproto sh) l') arr s' rt2) as (Hi3 & Hk3 & Ep3 & Es3 & _); [|done..|].
  { apply (out_ok ext rt1 _ sh Es Hh). by apply (srt_ok_same _ _ rt). }
  eexists true, _. split; [unfold js_malloc; fold ok; fold arr; reflexivity|].
  split; [|split; [exact Hk3|]].
  - apply (srt_ok_same _ _ (set_object (js_free rt2 (oshape o)) p (mk_pobject s' arr))); [by split_and!|]. by apply (out_ok _ _ _ _ Es3).
  - eexists _, _. split; [exact Ep3|]. split; [exact Es3|]. by split_and!.
Qed.

(** ** delete_property *)

(** Looking a name up in what a program sees. *)
Fixpoint own_entry (l : list (Z * Z * option JSProperty)) (a : Z) : option (Z * option JSProperty) :=
  match l with
  | [] => None
  | (e, v) :: l => if e.1 =? a then Some (e.2, v) else own_entry l a
  end.

Lemma own_entry_none l a : own_entry l a = None <-> a ∉ l.*1.*1.
Proof.
  induction l as [|[e v] l IH]; [split; [intros _; apply not_elem_of_nil|done]|]. cbn [own_entry]. rewrite !fmap_cons, not_elem_of_cons. cbn [fst].
  destruct (Z.eqb_spec e.1 a) as [<-|Hne]; [split; [done|tauto]|]. rewrite IH. split; [intros; split; [congruence|done]|tauto].
Qed.

Lemma own_entry_at l a f v : NoDup l.*1.*1 -> ((a, f), v) ∈ l -> own_entry l a = Some (f, v).
Proof.
  induction l as [|[e u] l IH]; [by intros _ ?%not_elem_of_nil|]. rewrite !fmap_cons, NoDup_cons. intros [Hn Hnd] [Heq|Hin]%elem_of_cons; cbn [own_entry].
  - injection Heq as <- <-. cbn. by rewrite Z.eqb_refl.
  - destruct (Z.eqb_spec e.1 a) as [He|Hne]; [|by apply IH]. destruct Hn. cbn [fst]. rewrite He. apply list_elem_of_fmap. exists (a, f). split; [done|]. apply list_elem_of_fmap. by exists ((a, f), v).
Qed.

(** The view through the shape. *)
Lemma view_eq rt p o sh : objects rt !! p = Some o -> shapes rt !! oshape o = Some sh -> view rt p = entries (signature (sprop sh)) (oprop o) /\ proto_of rt p = Some (sproto sh).
Proof. intros Ep Es. unfold view, proto_of. rewrite Ep. cbn [mbind option_bind]. by rewrite Es. Qed.

Lemma view_names ext rt p o sh : srt_ok None ext rt -> objects rt !! p = Some o -> shapes rt !! oshape o = Some sh -> (view rt p).*1 = live_sig (signature (sprop sh)).
Proof.
  intros Hi Ep Es. rewrite (proj1 (view_eq _ _ _ _ Ep Es)). apply entries_names. rewrite signature_len. pose proof (room_ok _ _ _ _ _ Hi Es p o Ep eq_refl).
  pose proof (so_count _ (sr_shape _ _ _ Hi _ _ Es)) as [? _]. unfold prop_count in *. lia.
Qed.

(** The entry at an index that a search found. *)
Lemma view_at ext rt p o sh j a f : srt_ok None ext rt -> objects rt !! p = Some o -> shapes rt !! oshape o = Some sh -> signature (sprop sh) !! j = Some (a, f) -> a <> JS_ATOM_NULL ->
  exists v, oprop o !! j = Some v /\ own_entry (view rt p) a = Some (f, v).
Proof.
  intros Hi Ep Es Ej Ha. pose proof (view_names _ _ _ _ _ Hi Ep Es) as Hn. pose proof (room_ok _ _ _ _ _ Hi Es p o Ep eq_refl) as Hroom. pose proof (sr_shape _ _ _ Hi _ _ Es) as Hok.
  pose proof (so_count _ Hok) as [Hc _]. pose proof (lookup_lt_Some _ _ _ Ej) as Hj. rewrite signature_len in Hj. unfold prop_count in *.
  destruct (lookup_lt_is_Some_2 (oprop o) j) as [v Ev]; [lia|]. exists v. split; [done|]. apply own_entry_at.
  - rewrite Hn. apply (so_atoms _ Hok).
  - rewrite (proj1 (view_eq _ _ _ _ Ep Es)). by apply (entries_lookup _ _ j).
Qed.

Lemma delete_search sh a : shape_ok sh -> a <> JS_ATOM_NULL -> let b := Z.to_nat (prop_hash_bucket a (prop_hash_mask sh)) in
  exists h r, hash_table sh !! b = Some h /\ delete_find (length (sprop sh)) (sprop sh) a h None = Some r /\
    match r with
    | Some (j, lpr) => exists js1 js2 pr, members (sprop sh) (length (hash_table sh)) b = js1 ++ j :: js2 /\ lpr = last js1 /\ sprop sh !! j = Some pr /\ atom pr = a
    | None => a ∉ (live_sig (signature (sprop sh))).*1
    end.
Proof.
  intros Hok Ha b. destruct (lookup_lt_is_Some_2 _ _ (bucket_lt _ a (so_pow2 _ Hok))) as [h Eh]. fold b in Eh. change (hash_table sh !! b = Some h) in Eh.
  destruct (delete_find_spec (length (sprop sh)) (sprop sh) a h [] _ None (so_table _ Hok _ _ Eh) (members_len _ _ _) eq_refl) as (r & E & Hr).
  exists h, r. split_and!; [done..|]. destruct r as [[j lpr]|].
  - destruct Hr as (js1 & js2 & pr & Hm & Ej & Hpr & Hl). by exists js1, js2, pr.
  - intros Hin. apply list_elem_of_fmap in Hin as ([a' f] & -> & [_ Hin]%list_elem_of_filter). cbn in *.
    apply list_elem_of_fmap in Hin as (pr & Epr & Hin). injection Epr as -> ->. apply list_elem_of_lookup in Hin as [j Ej].
    apply (Hr j pr); [|done|done]. apply elem_members. unfold in_bucket. rewrite Ej, (proj2 (live_entry_sig pr) Ha). apply Nat.eqb_refl.
Qed.

(** What deleting the property [a] of [p] leads to. *)
Definition deleted (ext : ptr -> Z) (p : ptr) (a : Z) (rt : shape_rt) (r : Z) (v : option JSProperty) (rt' : shape_rt) : Prop :=
  srt_ok None ext rt' /\ kept ext p rt rt' /\ proto_of rt' p = proto_of rt p /\
  match own_entry (view rt p) a with
  | None => r = 1 /\ v = None /\ rt' = rt
  | Some (f, u) =>
      if f & JS_PROP_CONFIGURABLE =? 0 then r = 0 /\ v = None /\ rt' = rt
      else (r = 1 /\ v = u /\ view rt' p = filter (fun e => e.1.1 <> a) (view rt p)) \/ (r = -1 /\ v = None /\ view rt' p = view rt p /\ false ∈ smem rt)
  end.

(** The entry is taken out of the shape that [p] alone has now. *)
Lemma delete_step ext rt p o sh b h j pr js1 js2 u : srt_ok None ext rt -> objects rt !! p = Some o -> shapes rt !! oshape o = Some sh -> sole ext rt (oshape o) -> is_hashed sh = false ->
  hash_table sh !! b = Some h -> members (sprop sh) (length (hash_table sh)) b = js1 ++ j :: js2 -> sprop sh !! j = Some pr -> atom pr <> JS_ATOM_NULL ->
  exists sh' rt1 v r,
    delete_entry sh b j (last js1) = Some sh' /\ oprop o !! j = Some v /\ rt1 = set_object (put_shape rt (oshape o) sh') p (mk_pobject (oshape o) (<[j := u]> (oprop o))) /\
    (if (8 <=? deleted_prop_count sh') && (prop_count sh' ÷ 2 <=? deleted_prop_count sh') then r ← compact_properties rt1 p; Some r.2 else Some rt1) = Some r /\
    srt_ok None ext r /\ kept ext p rt r /\ proto_of r p = Some (sproto sh) /\ own_entry (view rt p) (atom pr) = Some (pflags pr, v) /\
    view r p = filter (fun e => e.1.1 <> atom pr) (view rt p).
Proof.
  intros Hi Ep Es Hso Hh Eb Hm Ej Ha. pose proof (sr_shape _ _ _ Hi _ _ Es) as Hok.
  destruct (delete_entry_spec sh b h j pr js1 js2 Hok Eb Hm Ej) as (sh' & E' & Hok' & Hs' & Hh' & Hsz' & _).
  assert (Hhash : hash sh' = hash sh /\ sproto sh' = sproto sh). { revert E'. unfold delete_entry. rewrite Ej. cbn [mbind option_bind]. destruct (last js1) as [k|]; [destruct (sprop sh !! k); [|done]|]; cbn; by intros [= <-]. }
  destruct (view_at _ _ _ _ _ j (atom pr) (pflags pr) Hi Ep Es ltac:(by apply signature_lookup) Ha) as (v & Ev & Hown).
  set (rt1 := set_object (put_shape rt (oshape o) sh') p (mk_pobject (oshape o) (<[j := u]> (oprop o)))).
  destruct (put_sole_ok ext rt p o sh sh' Hi Ep Es Hso Hok' Hh' (proj1 Hhash) Hsz') as [Hi0 Hk0].
  destruct (array_ok None ext (put_shape rt (oshape o) sh') p o sh' (<[j := u]> (oprop o)) Hi0 Ep) as (Hi1 & Hk1 & Ep1 & Hso1); [apply lookup_insert_eq|rewrite Hsz', length_insert; by apply (room_ok _ _ _ _ _ Hi Es p o)|].
  fold rt1 in Hi1, Hk1, Ep1, Hso1. specialize (Hso1 Hso). assert (Es1 : shapes rt1 !! oshape o = Some sh') by apply lookup_insert_eq.
  assert (Hk : kept ext p rt rt1) by (by apply (kept_trans _ _ _ (put_shape rt (oshape o) sh'))).
  assert (Hview : view rt1 p = filter (fun e => e.1.1 <> atom pr) (view rt p)).
  { rewrite (proj1 (view_eq _ _ _ _ Ep1 Es1)), (proj1 (view_eq _ _ _ _ Ep Es)), Hs'. cbn [oprop]. apply (entries_delete _ _ _ _ (pflags pr)); [by apply signature_lookup|done|apply (so_atoms _ Hok)]. }
  exists sh', rt1, v. destruct (_ && _).
  - destruct (compact_spec ext rt1 p _ sh' Hi1 Ep1 Es1 Hso1 ltac:(by rewrite Hh')) as (c & rt2 & E2 & Hi2 & Hk2 & o2 & sh2 & Ep2 & Es2 & Hp2 & He2).
    exists rt2. rewrite E2. cbn [mbind option_bind snd]. destruct (view_eq _ _ _ _ Ep2 Es2) as [V2 P2]. split_and!; try done.
    + by apply (kept_trans _ _ _ rt1).
    + rewrite P2, Hp2. by destruct Hhash as [_ ->].
    + rewrite V2, He2, <- Hview. symmetry. apply (view_eq _ _ _ _ Ep1 Es1).
  - exists rt1. destruct (view_eq _ _ _ _ Ep1 Es1) as [_ P1]. split_and!; try done. rewrite P1. by destruct Hhash as [_ ->].
Qed.

Lemma delete_spec ext rt p o sh a : srt_ok None ext rt -> (forall x, 0 <= ext x) -> objects rt !! p = Some o -> shapes rt !! oshape o = Some sh -> a <> JS_ATOM_NULL ->
  exists r v rt', delete_property rt p a = Some (r, v, rt') /\ deleted ext p a rt r v rt'.
Proof.
  intros Hi He Ep Es Ha. pose proof (sr_shape _ _ _ Hi _ _ Es) as Hok. destruct (view_eq _ _ _ _ Ep Es) as [Hv Hp].
  unfold delete_property. rewrite Ep. cbn [mbind option_bind]. rewrite Es. cbn [mbind option_bind].
  destruct (delete_search sh a Hok Ha) as (h & r & Eb & Er & Hr). cbn zeta in *. rewrite Eb. cbn [mbind option_bind]. rewrite Er. cbn [mbind option_bind]. destruct r as [[j lpr]|].
  - destruct Hr as (js1 & js2 & pr & Hm & -> & Ej & <-). rewrite Ej. cbn [mbind option_bind].
    destruct (view_at _ _ _ _ _ j (atom pr) (pflags pr) Hi Ep Es ltac:(by apply signature_lookup) Ha) as (v & Ev & Hown). unfold deleted. rewrite Hown.
    destruct (pflags pr & JS_PROP_CONFIGURABLE =? 0) eqn:Ef; [exists 0, None, rt; by split_and!|].
    destruct (prepare_spec ext rt p o sh Hi He Ep Es) as (b & rt1 & -> & Hi1 & Hk1 & Hb). cbn [mbind option_bind]. destruct b.
    + destruct Hb as (s' & Ep1 & Es1 & Hso1). rewrite Ep1. cbn [mbind option_bind oshape]. rewrite Es1. cbn [mbind option_bind].
      destruct (delete_step ext rt1 p (mk_pobject s' (oprop o)) (set_hashed (set_plain sh false) false) _ h j pr js1 js2 (Some (prop_value JS_UNDEFINED)) Hi1 Ep1 Es1 Hso1 eq_refl Eb Hm Ej Ha)
        as (sh' & rt2 & v' & r & -> & Ev' & -> & Er' & Hir & Hkr & Hpr & _ & Hvr).
      cbn [oprop oshape] in *. cbn [mbind option_bind]. rewrite Ev in Ev'. injection Ev' as <-. rewrite Ev. cbn [mbind option_bind]. rewrite Er'. cbn [mbind option_bind].
      exists 1, v, r. split; [done|]. split_and!; [done|by apply (kept_trans _ _ _ rt1)|by rewrite Hpr, Hp|]. left. split_and!; [done..|]. rewrite Hvr.
      f_equal. by rewrite (proj1 (view_eq _ _ _ _ Ep1 Es1)), Hv.
    + destruct Hb as (Ep1 & Es1 & Hfalse). exists (-1), None, rt1. split; [done|]. destruct (view_eq _ _ _ _ Ep1 Es1) as [V1 P1]. split_and!; [done..|by rewrite P1, Hp|]. right. split_and!; [done..| |done]. by rewrite V1, Hv.
  - exists 1, None, rt. split; [done|]. unfold deleted. rewrite (proj2 (own_entry_none _ _)); [by split_and!|]. by rewrite (view_names _ _ _ _ _ Hi Ep Es).
Qed.

End Ops.
