(* ===== verification/ShapeProps.v ===== *)
(** * New objects, property caches, and what programs rely on

    Objects that are made, the caches of property positions, sequences of
    operations, and the theorems about shapes. *)
From Stdlib Require Import ZArith Lia List.
From stdpp Require Import base numbers list option gmap relations.
From S2P Require Import Prelude Gc Shapes ShapeTables ShapeHeap ShapeOps.

Section Props.
Context {cfg : ShapeConfig}.

(** ** The table of shapes grows *)

(** The table [tab] has the shapes of [l], each in its bucket. *)
Definition tab_holds (rt : shape_rt) (bits : Z) (tab : list (list ptr)) (l : list ptr) : Prop :=
  forall h b, tab !! h = Some b -> NoDup b /\ forall s, s ∈ b <-> s ∈ l /\ exists sh, shapes rt !! s = Some sh /\ Z.to_nat (get_shape_hash (hash sh) bits) = h.

Lemma shape_rehash_spec rt bits l pre tab : 4 <= bits <= 30 -> Z.of_nat (length tab) = 2 ^ bits -> tab_holds rt bits tab pre -> NoDup (pre ++ l) ->
  (forall s, s ∈ l -> exists sh, shapes rt !! s = Some sh /\ fits 32 (hash sh)) ->
  exists tab', each (rehash_one rt bits) l tab = Some tab' /\ length tab' = length tab /\ tab_holds rt bits tab' (pre ++ l).
Proof.
  intros Hb. revert pre tab. induction l as [|s l IH]; intros pre tab Hlen Ht Hnd Hex.
  - exists tab. by rewrite app_nil_r.
  - destruct (Hex s ltac:(left)) as (sh & Es & Hf). set (h := Z.to_nat (get_shape_hash (hash sh) bits)).
    assert (Hh : (h < length tab)%nat) by (apply Nat2Z.inj_lt; unfold h; pose proof (shape_bucket _ _ Hf Hb); rewrite Z2Nat.id by lia; lia).
    destruct (lookup_lt_is_Some_2 _ _ Hh) as [b Eb]. destruct (Ht h b Eb) as [Hbd Hbm].
    assert (Hsp : s ∉ pre) by (apply NoDup_app in Hnd as (_ & Hx & _); intros Hs; apply (Hx s Hs); left).
    destruct (IH (pre ++ [s]) (<[h := s :: b]> tab)) as (tab' & E & Hl & Ht'); [by rewrite length_insert| |by rewrite <- app_assoc|intros x Hx; apply Hex; by right|].
    + intros h' b' Eb'. destruct (decide (h = h')) as [<-|Hne].
      * rewrite list_lookup_insert_eq in Eb' by done. injection Eb' as <-. split; [constructor; [|done]; rewrite Hbm; tauto|]. intros x. rewrite elem_of_cons, elem_of_app, list_elem_of_singleton, Hbm. split.
        -- intros [->|[Hx Hsx]]; [split; [by right|by exists sh]|split; [by left|done]].
        -- intros [[Hx| ->] Hsx]; [right; by split|by left].
      * rewrite list_lookup_insert_ne in Eb' by done. destruct (Ht h' b' Eb') as [Hbd' Hbm']. split; [done|]. intros x. rewrite Hbm', elem_of_app, list_elem_of_singleton. split; [intros [? ?]; split; [by left|done]|].
        intros [[Hx| ->] (shx & Ex & Ehx)]; [split; [done|by exists shx]|]. rewrite Es in Ex. injection Ex as <-. by destruct Hne.
    + exists tab'. split_and!; [|by rewrite Hl, length_insert|by rewrite <- app_assoc in Ht']. assert (Er : rehash_one rt bits tab s = Some (<[h := s :: b]> tab)) by (unfold rehash_one, bucket_push; rewrite Es; cbn [mbind option_bind]; fold h; by rewrite Eb).
      cbn [each]. rewrite Er. exact E.
Qed.

Lemma elem_concat (tab : list (list ptr)) s : s ∈ concat tab <-> exists h b, tab !! h = Some b /\ s ∈ b.
Proof.
  rewrite list_elem_of_In, in_concat. split.
  - intros (b & Hb%list_elem_of_In & Hs%list_elem_of_In). apply list_elem_of_lookup in Hb as [h Hb]. by exists h, b.
  - intros (h & b & Hb & Hs). exists b. rewrite <- !list_elem_of_In. split; [by apply list_elem_of_lookup_2 with h|done].
Qed.

Lemma concat_NoDup (tab : list (list ptr)) : (forall h b, tab !! h = Some b -> NoDup b) -> (forall h1 h2 b1 b2 s, tab !! h1 = Some b1 -> tab !! h2 = Some b2 -> s ∈ b1 -> s ∈ b2 -> h1 = h2) ->
  NoDup (concat tab).
Proof.
  induction tab as [|b tab IH]; intros Hd Hx; [constructor|]. cbn. apply NoDup_app. split_and!.
  - by apply (Hd 0%nat).
  - intros s Hs (h & b' & Hb & Hs')%elem_concat. specialize (Hx 0%nat (S h) b b' s eq_refl Hb Hs Hs'). lia.
  - apply IH; [intros h; apply (Hd (S h))|]. intros h1 h2 b1 b2 s H1 H2 H3 H4. specialize (Hx (S h1) (S h2) b1 b2 s H1 H2 H3 H4). lia.
Qed.

Lemma resize_hash_ok ext rt : srt_ok None ext rt -> shape_hash_bits rt < 30 ->
  exists rt', resize_shape_hash rt (shape_hash_bits rt + 1) = Some rt' /\ srt_ok None ext rt' /\ shapes rt' = shapes rt /\ objects rt' = objects rt /\ (forall b, b ∈ smem rt' -> b ∈ smem rt).
Proof.
  intros Hi Hbits. unfold resize_shape_hash, js_malloc. destruct (hd true (smem rt)); cbn [negb].
  2:{ eexists. split; [done|]. split_and!; [by apply (srt_ok_same _ _ rt)|done|done|apply tl_false]. }
  set (rt1 := mk_srt _ _ _ _ _ _ _). pose proof Hi as [H1 H2 H3 H4 H5 H6 H7 H8]. set (bits := shape_hash_bits rt + 1).
  assert (Hsize : Z.of_nat (Z.to_nat (1 << bits)) = 2 ^ bits) by (rewrite Z.shiftl_1_l, Z2Nat.id; [done|apply Z.pow_nonneg; lia]).
  assert (Hin : forall s, s ∈ concat (shape_hash_tab rt) <-> exists sh, shapes rt !! s = Some sh /\ is_hashed sh = true).
  { intros s. rewrite elem_concat. split; [intros (h & b & Eb & Hs); apply (H3 _ _ s Eb) in Hs as [_ (sh & Es & Hs & _)]; by exists sh|]. intros (sh & Es & Hs).
    destruct (bucket_exists _ _ _ (hash sh) Hi (so_hash _ (H5 _ _ Es))) as [b Eb]. eexists _, b. split; [done|]. apply (H3 _ _ s Eb). split; [done|]. by exists sh. }
  destruct (shape_rehash_spec rt1 bits (concat (shape_hash_tab rt)) [] (replicate (Z.to_nat (1 << bits)) [])) as (tab' & E & Hl & Ht); [lia|by rewrite length_replicate| | | |].
  - intros h b [-> _]%lookup_replicate. split; [constructor|]. intros s. split; [by intros ?%not_elem_of_nil|by intros [?%not_elem_of_nil _]].
  - cbn. apply concat_NoDup; [done|]. intros h1 h2 b1 b2 s E1 E2 S1 S2. apply (H3 _ _ s E1) in S1 as [_ (sh1 & Es1 & _ & <-)]. apply (H3 _ _ s E2) in S2 as [_ (sh2 & Es2 & _ & <-)]. congruence.
  - intros s (sh & Es & _)%Hin. exists sh. split; [done|]. by apply (H5 s).
  - cbn [shape_hash_tab rt1]. rewrite E. cbn [mbind option_bind]. eexists. split; [done|]. split_and!; [|done|done|apply tl_false]. rewrite length_replicate in Hl.
    split; cbn [set_tab shapes shape_rc shape_hash_tab shape_hash_bits objects rt1]; try done; [lia|by rewrite Hl| |by intros h b Eb; apply (Ht h b Eb)].
    intros h b s Eb. rewrite (proj2 (Ht h b Eb) s). cbn [app]. rewrite Hin. cbn [rt1 shapes]. split.
    + intros [(sh & Es & Hs) (sh' & Es' & Eh)]. split; [done|]. exists sh. rewrite Es in Es'. injection Es' as <-. by split_and!.
    + intros [_ (sh & Es & Hs & Eh)]. split; by exists sh.
Qed.

(** ** New objects *)

Lemma empty_shape_ok b h proto : fits 32 h -> shape_ok (mk_shape b true h (replicate 4 0) 2 0 proto []).
Proof.
  intros Hh. split; unfold prop_count; cbn [sprop hash_table prop_size deleted_prop_count hash length]; try done; try lia.
  - apply table_empty.
  - exists 2%nat. split; [lia|done].
  - apply NoDup_nil_2.
Qed.

Lemma new_shape_ok seed ext rt proto : srt_ok None ext rt -> shape_hash_bits rt < 30 ->
  exists r rt', js_new_shape seed rt proto = Some (r, rt') /\ objects rt' = objects rt /\ (forall b, b ∈ smem rt' -> b ∈ smem rt) /\
    match r with
    | Some s => exists sh, shapes rt !! s = None /\ srt_ok None (ext_add ext s 1) rt' /\ shapes rt' = <[s := sh]> (shapes rt) /\ sprop sh = [] /\ sproto sh = proto /\ prop_size sh = 2
    | None => srt_ok None ext rt' /\ shapes rt' = shapes rt /\ false ∈ smem rt
    end.
Proof.
  intros Hi Hbits. unfold js_new_shape, js_new_shape2.
  assert (H0 : exists rt0, (if Z.of_nat (length (shape_hash_tab rt)) <? 2 * (shape_hash_count rt + 1) then resize_shape_hash rt (shape_hash_bits rt + 1) else Some rt) = Some rt0 /\
    srt_ok None ext rt0 /\ shapes rt0 = shapes rt /\ objects rt0 = objects rt /\ (forall b, b ∈ smem rt0 -> b ∈ smem rt)) by (destruct (_ <? _); [by apply resize_hash_ok|by exists rt]).
  destruct H0 as (rt0 & -> & Hi0 & Es0 & Eo0 & Em0). cbn [mbind option_bind]. unfold js_new_shape_nohash, js_malloc. destruct (hd true (smem rt0)) eqn:Eh; cbn [negb].
  2:{ cbn [mbind option_bind]. eexists None, _. split; [done|]. split_and!; [done|intros b Hb; by apply Em0, tl_false|by apply (srt_ok_same _ _ rt0)|done|by apply Em0, answer_false]. }
  change (pow2_ok JS_PROP_INITIAL_HASH_SIZE) with true. cbn [negb]. destruct (new_block _ _) as [s rt1] eqn:En.
  apply (new_ok ext) in En as (Hf & Hi1 & Es1 & Eo1 & Em1); [|by apply (srt_ok_same _ _ rt0)|by apply empty_shape_ok|done]. cbn [shapes objects smem] in Hf, Es1, Eo1, Em1. cbn [mbind option_bind].
  set (sh := mk_shape _ _ _ _ _ _ _ _) in *. assert (E1 : shapes rt1 !! s = Some sh) by (by rewrite Es1, lookup_insert_eq). rewrite E1. cbn [mbind option_bind].
  assert (Hi2 : srt_ok (Some s) (ext_add ext s 1) (put_shape rt1 s (set_hash sh true (shape_initial_hash seed proto)))).
  { apply (hash_put_ok _ _ _ sh); try done; [apply empty_shape_ok, shape_hash_fits|]. by apply (room_ok _ _ _ _ _ Hi1 E1). }
  destruct (link_ok _ _ s _ Hi2 ltac:(apply lookup_insert_eq) eq_refl) as (rt2 & -> & Hi3 & Es3 & _ & Eo3 & Em3). cbn [mbind option_bind].
  eexists (Some s), rt2. split; [done|]. split_and!; [rewrite Eo3; cbn; congruence|intros b Hb; apply Em0, tl_false; by rewrite <- Em1, <- Em3 at 1|].
  eexists. split; [by rewrite <- Es0|]. split; [done|]. split; [rewrite Es3; cbn [put_shape set_shapes shapes]; rewrite Es1, insert_insert_eq, Es0; done|]. done.
Qed.

Lemma new_object_ok ext rt s sh p arr : srt_ok None (ext_add ext s 1) rt -> shapes rt !! s = Some sh -> objects rt !! p = None -> prop_size sh <= Z.of_nat (length arr) ->
  srt_ok None ext (set_object rt p (mk_pobject s arr)).
Proof.
  intros [H1 H2 H3 H4 H5 H6 H7 H8] Es Ep Hcap. split; cbn [set_object shapes shape_rc shape_hash_tab shape_hash_bits objects]; try done.
  - intros x shx Ex. rewrite (users_new _ _ _ _ Ep). cbn [oshape]. specialize (H6 x shx Ex). unfold ext_add in H6.
    by replace (ext x + (users (objects rt) x + at_ptr s x 1)) with (ext x + at_ptr s x 1 + users (objects rt) x) by lia.
  - intros x Ex. specialize (H7 x Ex). unfold ext_add in H7. rewrite at_ptr_other in H7; [lia|congruence].
  - intros q oq. destruct (decide (q = p)) as [->|Hq]; [rewrite lookup_insert_eq; intros [= <-]; by exists sh|]. rewrite lookup_insert_ne by done. apply H8.
Qed.

(** What making an object at [p] leads to. *)
Definition made (ext : ptr -> Z) (p : ptr) (proto : option ptr) (rt : shape_rt) (b : bool) (rt' : shape_rt) : Prop :=
  srt_ok None ext rt' /\ kept ext p rt rt' /\ if b then view rt' p = [] /\ proto_of rt' p = Some proto else objects rt' !! p = None /\ false ∈ smem rt.

Lemma from_shape_spec ext rt s sh p : srt_ok None (ext_add ext s 1) rt -> (forall x, 0 <= ext x) -> shapes rt !! s = Some sh -> objects rt !! p = None -> sprop sh = [] ->
  exists b rt', JS_NewObjectFromShape rt s p = Some (b, rt') /\ made ext p (sproto sh) rt b rt'.
Proof.
  intros Hi He Es Ep Hsp. unfold JS_NewObjectFromShape. rewrite Es. cbn [mbind option_bind].
  assert (Hm : exists ok rt0, (let (ok, rt) := js_malloc rt in if ok then js_malloc rt else (false, rt)) = (ok, rt0) /\ same_state rt rt0 /\ (ok = false -> false ∈ smem rt)).
  { unfold js_malloc. destruct (hd true (smem rt)) eqn:E1; (eexists _, _; split; [done|]; split; [done|]); [intros E2; by apply tl_false, answer_false|intros _; by apply answer_false]. }
  destruct Hm as (ok & rt0 & Em & Hsame & Hfalse). pose proof (srt_ok_same _ _ _ _ Hsame Hi) as Hi0. destruct Hsame as (S1 & _ & _ & _ & S5).
  destruct (js_malloc rt) as [ok0 rt00]. rewrite Em. destruct ok; cbn [negb].
  - eexists true, _. split; [done|]. pose proof (so_size _ (sr_shape _ _ _ Hi _ _ Es)). split; [|split].
    + apply (new_object_ok _ _ _ sh); [done|by rewrite S1|by rewrite S5|]. rewrite length_replicate. lia.
    + apply kept_exact; [intros q Hq; cbn; by rewrite lookup_insert_ne, S5|]. cbn. by rewrite S1.
    + unfold view, proto_of. cbn [set_object objects shapes]. rewrite lookup_insert_eq. cbn [mbind option_bind oshape oprop]. rewrite S1, Es. by rewrite Hsp.
  - destruct (release_ok ext rt0 s sh Hi0 (He s)) as (rt' & -> & Hi' & _ & Eo & Hk & _); [by rewrite S1|]. cbn [mbind option_bind]. exists false, rt'. split; [done|]. split_and!; [done| |by rewrite Eo, S5|by apply Hfalse].
    apply kept_exact; [intros q _; by rewrite Eo, S5|]. intros x shx Ex Hx. apply Hk; [by rewrite S1|]. right. destruct Hx as [|(q & o & _ & Eq & <-)]; [by left|right]. rewrite S5. by apply (users_pos _ q).
Qed.

Lemma find_proto_spec seed ext rt proto : srt_ok None ext rt ->
  exists r, find_hashed_shape_proto seed rt proto = Some r /\
    match r with Some s => exists sh, shapes rt !! s = Some sh /\ is_hashed sh = true /\ sproto sh = proto /\ sprop sh = [] | None => True end.
Proof.
  intros Hi. unfold find_hashed_shape_proto. destruct (bucket_exists _ _ _ (shape_initial_hash seed proto) Hi (shape_hash_fits _ _)) as [b Eb]. rewrite Eb. cbn [mbind option_bind].
  match goal with |- context [find_shape ?t rt b] => destruct (find_shape_spec t rt b) as (r & -> & Hr) end.
  - apply Forall_forall. intros s Hs. apply (sr_tab _ _ _ Hi _ _ s Eb) in Hs as [_ (shx & Ex & _)]. by exists shx.
  - exists r. split; [done|]. destruct r as [s|]; [|done]. destruct Hr as (Hin & sh & E & Ht). rewrite !andb_true_iff in Ht. destruct Ht as ((_ & Hp%bool_decide_eq_true) & Hc%Z.eqb_eq).
    apply (sr_tab _ _ _ Hi _ _ s Eb) in Hin as [_ (shx & Ex & Hhx & _)]. rewrite E in Ex. injection Ex as <-. exists sh. split_and!; [done..|].
    unfold prop_count in Hc. destruct (sprop sh); [done|cbn in Hc; lia].
Qed.

Lemma new_object_spec seed ext rt proto p : srt_ok None ext rt -> (forall x, 0 <= ext x) -> shape_hash_bits rt < 30 -> objects rt !! p = None ->
  exists b rt', JS_NewObjectProtoClass seed rt proto p = Some (b, rt') /\ made ext p proto rt b rt'.
Proof.
  intros Hi He Hbits Ep. unfold JS_NewObjectProtoClass. destruct (find_proto_spec seed ext rt proto Hi) as (r & -> & Hr). cbn [mbind option_bind]. destruct r as [s|].
  - destruct Hr as (sh & Es & Hh & <- & Hsp). destruct (dup_ok ext rt s sh Hi Es Hh) as (rt1 & -> & Hi1 & Es1 & Eo1 & Em1). cbn [mbind option_bind].
    destruct (from_shape_spec ext rt1 s sh p Hi1 He) as (b & rt' & E & Hi' & K & Hb); [by rewrite Es1|by rewrite Eo1|done|]. exists b, rt'. split; [done|]. rewrite Em1 in Hb. split_and!; [done| |done]. apply (kept_trans _ _ _ rt1); [by apply kept_same|done].
  - destruct (new_shape_ok seed ext rt proto Hi Hbits) as (r & rt1 & -> & Eo1 & Em1 & Hr1). cbn [mbind option_bind]. destruct r as [s|].
    + destruct Hr1 as (sh & Hf & Hi1 & Es1 & Hsp & <- & _). destruct (from_shape_spec ext rt1 s sh p Hi1 He) as (b & rt' & E & Hi' & K & Hb); [by rewrite Es1, lookup_insert_eq|by rewrite Eo1|done|].
      exists b, rt'. split; [done|]. split_and!; [done| |destruct b; [done|]; destruct Hb; split; [done|by apply Em1]]. apply (kept_trans _ _ _ rt1); [|done]. apply kept_exact; [by intros; rewrite Eo1|].
      intros x shx Ex _. rewrite Es1, lookup_insert_ne; congruence.
    + destruct Hr1 as (Hi1 & Es1 & Hfalse). exists false, rt1. split; [done|]. split_and!; [done|by apply kept_same|by rewrite Eo1|done].
Qed.

(** ** Property caches *)

(** The position that a cache has for the name [a] is right for its shape. *)
Definition cache_ok (rt : shape_rt) (a : Z) (pc : JSPropCache) : Prop :=
  match pc_shape pc with
  | Some s => exists sh f, shapes rt !! s = Some sh /\ signature (sprop sh) !! pc_idx pc = Some (a, f) /\ f & JS_PROP_TMASK = 0
  | None => True
  end.

(** The reference of a cache, with those from elsewhere. *)
Definition cache_ext (ext : ptr -> Z) (pc : JSPropCache) : ptr -> Z :=
  match pc_shape pc with Some s => ext_add ext s 1 | None => ext end.

(** What a read of a data property answers. *)
Definition own_data (l : list (Z * Z * option JSProperty)) (a : Z) : option (option JSProperty) :=
  match own_entry l a with Some (f, v) => if f & JS_PROP_TMASK =? 0 then Some v else None | None => None end.

(** The shapes in use are the same. *)
Lemma view_sub ext rt rt' : srt_ok None ext rt' -> objects rt' = objects rt -> (forall x sh, shapes rt' !! x = Some sh -> shapes rt !! x = Some sh) ->
  forall q, view rt' q = view rt q /\ proto_of rt' q = proto_of rt q.
Proof.
  intros Hi Eo Hs q. unfold view, proto_of. rewrite Eo. destruct (objects rt !! q) as [o|] eqn:Eq; [|done]. rewrite <- Eo in Eq. destruct (sr_obj _ _ _ Hi q o Eq) as (sh & Es & _).
  cbn [mbind option_bind]. by rewrite Es, (Hs _ _ Es).
Qed.

(** A cache lets its shape go. *)
Lemma cache_release ext rt a pc : srt_ok None (cache_ext ext pc) rt -> (forall x, 0 <= ext x) -> cache_ok rt a pc ->
  exists rt', match pc_shape pc with Some s0 => js_free_shape rt s0 | None => Some rt end = Some rt' /\ srt_ok None ext rt' /\ objects rt' = objects rt /\
    (forall x sh, shapes rt !! x = Some sh -> pc_shape pc <> Some x -> shapes rt' !! x = Some sh) /\ (forall x sh, shapes rt' !! x = Some sh -> shapes rt !! x = Some sh).
Proof.
  intros Hi He Hc. unfold cache_ext, cache_ok in *. destruct (pc_shape pc) as [s0|]; [|by exists rt]. destruct Hc as (sh0 & f0 & E0 & _).
  destruct (release_ok ext rt s0 sh0 Hi (He s0) E0) as (rt' & E & Hi' & _ & Eo & Hk & Hsub). exists rt'. split_and!; [done..| |done].
  intros x sh Ex Hx. apply Hk; [done|]. left. congruence.
Qed.

Lemma cache_probe_spec ext rt p o a pc : srt_ok None (cache_ext ext pc) rt -> (forall x, 0 <= ext x) -> objects rt !! p = Some o -> a <> JS_ATOM_NULL -> cache_ok rt a pc ->
  exists pc' rt', js_prop_cache_probe rt p a pc = Some (own_data (view rt p) a, pc', rt') /\ srt_ok None (cache_ext ext pc') rt' /\ cache_ok rt' a pc' /\
    (forall q, view rt' q = view rt q /\ proto_of rt' q = proto_of rt q).
Proof.
  intros Hi He Ep Ha Hc. destruct (sr_obj _ _ _ Hi p o Ep) as (sh & Es & _). unfold js_prop_cache_probe. rewrite Ep. cbn [mbind option_bind].
  destruct (bool_decide_reflect (pc_shape pc = Some (oshape o))) as [Hpc|Hpc].
  - pose proof Hc as Hc0. unfold cache_ok in Hc0. rewrite Hpc in Hc0. destruct Hc0 as (sh0 & f & E0 & Ei & Hf).
    destruct (view_at _ _ _ _ _ _ a f Hi Ep E0 Ei Ha) as (v & Ev & Hown). rewrite Ev. cbn [mbind option_bind]. exists pc, rt. unfold own_data. rewrite Hown, Hf. by split_and!.
  - rewrite Es. cbn [mbind option_bind]. pose proof (sr_shape _ _ _ Hi _ _ Es) as Hok. destruct (find_in_shape_spec sh a Hok Ha) as (r & -> & Hr). cbn [mbind option_bind]. destruct r as [i|].
    + destruct Hr as (f & Ei). destruct (view_at _ _ _ _ _ _ a f Hi Ep Es Ei Ha) as (v & Ev & Hown). unfold own_data. rewrite Hown.
      assert (Epr : exists pr, sprop sh !! i = Some pr /\ pflags pr = f). { unfold signature in Ei. rewrite list_lookup_fmap in Ei. destruct (sprop sh !! i) as [pr|]; [|done]. cbn in Ei. injection Ei as _ ?. by exists pr. }
      destruct Epr as (pr & -> & Efl). cbn [mbind option_bind]. rewrite Efl. destruct (Z.eqb_spec (f & JS_PROP_TMASK) 0) as [Hf|Hf]; cbn [negb]; [|exists pc, rt; by split_and!].
      rewrite Ev. cbn [mbind option_bind]. destruct (is_hashed sh) eqn:Hh; [|exists pc, rt; by split_and!].
      destruct (cache_release ext rt a pc Hi He Hc) as (rt1 & -> & Hi1 & Eo1 & Hk1 & Hsub1). cbn [mbind option_bind]. specialize (Hk1 _ _ Es Hpc).
      destruct (dup_ok ext rt1 _ sh Hi1 Hk1 Hh) as (rt2 & -> & Hi2 & Es2 & Eo2 & _). cbn [mbind option_bind]. eexists _, rt2. split; [done|]. split_and!; [done| |].
      * unfold cache_ok. cbn [pc_shape pc_idx]. exists sh, f. by rewrite Es2.
      * apply (view_sub _ _ _ Hi2); [congruence|]. by rewrite Es2.
    + exists pc, rt. unfold own_data. rewrite (proj2 (own_entry_none _ _)); [by split_and!|]. by rewrite (view_names _ _ _ _ _ Hi Ep Es).
Qed.

(** ** Sequences of operations *)

(** The value that the caller of add_property, or an assignment, writes. *)
Definition write_value (rt : shape_rt) (p : ptr) (i : nat) (v : JSProperty) : option shape_rt :=
  o ← objects rt !! p; if (i <? length (oprop o))%nat then Some (set_object rt p (mk_pobject (oshape o) (<[i := Some v]> (oprop o)))) else None.

Definition has_room (rt : shape_rt) (p : ptr) : Prop :=
  exists o sh, objects rt !! p = Some o /\ shapes rt !! oshape o = Some sh /\ prop_count sh + 1 < 2 ^ 26.

Inductive op_step (seed : Z) : shape_rt -> shape_rt -> Prop :=
| op_new rt proto p b rt' : objects rt !! p = None -> shape_hash_bits rt < 30 -> JS_NewObjectProtoClass seed rt proto p = Some (b, rt') -> op_step seed rt rt'
| op_add rt p a f r rt' : has_room rt p -> own_entry (view rt p) a = None -> a <> JS_ATOM_NULL -> 0 <= f < 64 -> add_property rt p a f = Some (r, rt') -> op_step seed rt rt'
| op_delete rt p a r v rt' : a <> JS_ATOM_NULL -> delete_property rt p a = Some (r, v, rt') -> op_step seed rt rt'
| op_flags rt p i f b rt' : 0 <= f < 64 -> js_update_property_flags rt p i f = Some (b, rt') -> op_step seed rt rt'
| op_write rt p i v rt' : write_value rt p i v = Some rt' -> op_step seed rt rt'.

(** The object an operation is on has a shape. *)
Lemma object_shape ext rt p : srt_ok None ext rt -> is_Some (objects rt !! p) -> exists o sh, objects rt !! p = Some o /\ shapes rt !! oshape o = Some sh.
Proof. intros Hi [o Ep]. destruct (sr_obj _ _ _ Hi p o Ep) as (sh & Es & _). by exists o, sh. Qed.

Lemma step_ok seed ext rt rt' : srt_ok None ext rt -> (forall x, 0 <= ext x) -> op_step seed rt rt' -> srt_ok None ext rt' /\ exists p, kept ext p rt rt'.
Proof.
  intros Hi He Hs. destruct Hs as [rt proto p b rt' Ep Hb E|rt p a f r rt' (o & sh & Ep & Es & Hm) Hn Ha Hf E|rt p a r v rt' Ha E|rt p i f b rt' Hf E|rt p i v rt' E].
  - destruct (new_object_spec seed ext rt proto p Hi He Hb Ep) as (b' & rt1 & E' & ? & ? & _). rewrite E in E'. injection E' as <- <-. split; [done|by exists p].
  - destruct (add_spec ext rt p o sh a f Hi He Ep Es Ha) as (r' & rt1 & E' & ? & ? & _); [|done|done|rewrite E in E'; injection E' as <- <-; split; [done|by exists p]].
    apply own_entry_none in Hn. by rewrite (view_names _ _ _ _ _ Hi Ep Es) in Hn.
  - destruct (objects rt !! p) as [o|] eqn:Ep; [|unfold delete_property in E; by rewrite Ep in E]. destruct (sr_obj _ _ _ Hi p o Ep) as (sh & Es & _).
    destruct (delete_spec ext rt p o sh a Hi He Ep Es Ha) as (r' & v' & rt1 & E' & ? & ? & _). rewrite E in E'. injection E' as <- <- <-. split; [done|by exists p].
  - unfold js_update_property_flags in E. destruct (objects rt !! p) as [o|] eqn:Ep; [|done]. destruct (sr_obj _ _ _ Hi p o Ep) as (sh & Es & _).
    destruct (sprop sh !! i) as [pr|] eqn:Epr; [|cbn [mbind option_bind] in E; rewrite Es in E; cbn [mbind option_bind] in E; by rewrite Epr in E].
    destruct (update_spec ext rt p o sh i pr f Hi He Ep Es Epr Hf) as (b' & rt1 & E' & ? & ? & _). unfold js_update_property_flags in E'. rewrite Ep, E in E'. injection E' as <- <-. split; [done|by exists p].
  - unfold write_value in E. destruct (objects rt !! p) as [o|] eqn:Ep; [|done]. cbn [mbind option_bind] in E. destruct (sr_obj _ _ _ Hi p o Ep) as (sh & Es & Hcap).
    destruct (_ <? _)%nat; [|done]. injection E as <-. destruct (array_ok None ext rt p o sh (<[i := Some v]> (oprop o)) Hi Ep Es) as (? & ? & _); [by rewrite length_insert|]. split; [done|by exists p].
Qed.

Lemma steps_ok seed ext rt rt' : srt_ok None ext rt -> (forall x, 0 <= ext x) -> rtc (op_step seed) rt rt' ->
  srt_ok None ext rt' /\ forall s sh, shapes rt !! s = Some sh -> 0 < ext s -> exists sh', shapes rt' !! s = Some sh' /\ same_shape sh sh'.
Proof.
  intros Hi He. induction 1 as [rt|rt rt1 rt2 Hs _ IH]; [split; [done|]; intros s sh Es _; by exists sh|]. destruct (step_ok seed ext rt rt1 Hi He Hs) as [Hi1 [p [_ K]]]. destruct (IH Hi1) as [Hi2 K2]. split; [done|].
  intros s sh Es Hp. destruct (K s sh Es) as (sh1 & Es1 & E1); [by left|]. destruct (K2 s sh1 Es1 Hp) as (sh2 & Es2 & E2). exists sh2. split; [done|by apply (same_shape_trans _ sh1)].
Qed.

Lemma init_ok e mem rt : init_shape_hash e mem = (true, rt) -> srt_ok None (fun _ => 0) rt.
Proof.
  unfold init_shape_hash, js_malloc. destruct e; [|done]. cbn [negb smem]. destruct (hd true mem); [|done]. cbn [negb]. intros E%(f_equal snd). cbn [snd] in E. subst rt.
  split; cbn [set_tab shapes shape_rc shape_hash_tab shape_hash_bits objects]; try done.
  - intros h b s [-> _]%lookup_replicate. split; [by intros ?%not_elem_of_nil|]. intros [_ (sh & Es & _)]. by rewrite lookup_empty in Es.
  - intros h b [-> _]%lookup_replicate. apply NoDup_nil_2.
Qed.

(** ** What a program relies on *)

(** The other objects look the same, and the shapes that are referred to from
    elsewhere are the same but for the mark all_plain. *)
Definition undisturbed (ext : ptr -> Z) (p : ptr) (rt rt' : shape_rt) : Prop :=
  (forall q, q <> p -> view rt' q = view rt q /\ proto_of rt' q = proto_of rt q) /\ (forall s sh, shapes rt !! s = Some sh -> 0 < ext s -> exists sh', shapes rt' !! s = Some sh' /\ same_shape sh sh').

Lemma kept_undisturbed ext p rt rt' : srt_ok None ext rt -> kept ext p rt rt' -> undisturbed ext p rt rt'.
Proof. intros Hi Hk. split; [intros q Hq; by apply (kept_view _ _ _ _ _ _ Hi Hk)|]. intros s sh Es Hs. apply Hk; [done|by left]. Qed.

Lemma write_new ext rt rt' p o sh o' sh' a f v : srt_ok None ext rt -> srt_ok None ext rt' -> objects rt !! p = Some o -> shapes rt !! oshape o = Some sh -> objects rt' !! p = Some o' -> shapes rt' !! oshape o' = Some sh' ->
  take (length (sprop sh)) (oprop o') = take (length (sprop sh)) (oprop o) -> signature (sprop sh') = signature (sprop sh) ++ [(a, f)] -> a <> JS_ATOM_NULL ->
  exists rt2, write_value rt' p (length (sprop sh)) v = Some rt2 /\ view rt2 p = view rt p ++ [((a, f), Some v)].
Proof.
  intros Hi Hi' Ep Es Ep' Es' Ht Hs Ha. unfold write_value. rewrite Ep'. cbn [mbind option_bind].
  assert (Hlen : length (sprop sh') = S (length (sprop sh))) by (apply (f_equal length) in Hs; rewrite length_app, !signature_len in Hs; cbn in Hs; lia).
  pose proof (room_ok _ _ _ _ _ Hi' Es' p o' Ep' eq_refl) as Hroom. pose proof (so_count _ (sr_shape _ _ _ Hi' _ _ Es')) as [Hc _].
  pose proof (room_ok _ _ _ _ _ Hi Es p o Ep eq_refl) as Hroom0. pose proof (so_count _ (sr_shape _ _ _ Hi _ _ Es)) as [Hc0 _]. unfold prop_count in *.
  rewrite (proj2 (Nat.ltb_lt _ _)) by lia. eexists. split; [done|].
  set (o2 := mk_pobject (oshape o') _). assert (Ep2 : objects (set_object rt' p o2) !! p = Some o2) by apply lookup_insert_eq.
  rewrite (proj1 (view_eq _ p o2 sh' Ep2 Es')), (proj1 (view_eq _ _ _ _ Ep Es)), Hs. cbn [o2 oprop].
  rewrite entries_app by (rewrite signature_len, length_insert; lia). rewrite signature_len. f_equal.
  - apply entries_take. by rewrite signature_len, take_insert_ge by lia.
  - destruct (oprop o') as [|v0 l0] eqn:Eo'; [cbn in *; lia|]. rewrite <- Eo' in *. rewrite (drop_S _ (Some v) (length (sprop sh))) by (apply list_lookup_insert_eq; lia).
    cbn [entries fst]. by rewrite (proj2 (Z.eqb_neq _ _)).
Qed.

(** New flags for the name [a]. *)
Definition with_flags (l : list (Z * Z * option JSProperty)) (a f : Z) : list (Z * Z * option JSProperty) :=
  (fun e => if e.1.1 =? a then ((a, f), e.2) else e) <$> l.

Lemma entries_flags sg vs i a f f' : sg !! i = Some (a, f) -> a <> JS_ATOM_NULL -> NoDup (live_sig sg).*1 -> entries (<[i := (a, f')]> sg) vs = with_flags (entries sg vs) a f'.
Proof.
  assert (Hkeep : forall sg vs, a ∉ (live_sig sg).*1 -> entries sg vs = with_flags (entries sg vs) a f').
  { intros sg0. induction sg0 as [|e sg0 IH]; intros [|v vs0] Hn; try done. cbn [entries]. unfold live_sig in *. rewrite filter_cons in Hn.
    destruct (Z.eqb_spec e.1 JS_ATOM_NULL) as [He|He]; [rewrite decide_False in Hn by tauto; by apply IH|]. rewrite decide_True in Hn by done. cbn in Hn. apply not_elem_of_cons in Hn as [Hn1 Hn2].
    unfold with_flags in *. rewrite fmap_cons. cbn [fst]. rewrite (proj2 (Z.eqb_neq e.1 a)) by congruence. f_equal. by apply IH. }
  revert vs i. induction sg as [|e sg IH]; intros [|v vs] [|i] E Ha Hnd; try done.
  - cbn in E. injection E as ->. change (<[0%nat := (a, f')]> ((a, f) :: sg)) with ((a, f') :: sg). cbn [entries fst]. rewrite (proj2 (Z.eqb_neq a _)) by done.
    unfold with_flags. rewrite fmap_cons. cbn [fst snd]. rewrite Z.eqb_refl. f_equal. apply Hkeep. unfold live_sig in *. rewrite filter_cons, decide_True in Hnd by done. cbn in Hnd. by apply NoDup_cons in Hnd as [? _].
  - change (sg !! i = Some (a, f)) in E. change (<[S i := (a, f')]> (e :: sg)) with (e :: <[i := (a, f')]> sg). cbn [entries]. unfold live_sig in *. rewrite filter_cons in Hnd.
    destruct (Z.eqb_spec e.1 JS_ATOM_NULL) as [He|He]; [rewrite decide_False in Hnd by tauto; by apply IH|]. rewrite decide_True in Hnd by done. cbn in Hnd. apply NoDup_cons in Hnd as [Hn Hnd].
    unfold with_flags in *. rewrite fmap_cons. cbn [fst]. rewrite (proj2 (Z.eqb_neq e.1 a)); [f_equal; by apply IH|]. intros Hea. apply Hn, list_elem_of_fmap. exists (a, f). split; [done|].
    apply list_elem_of_filter. split; [done|]. by apply list_elem_of_lookup_2 with i.
Qed.

End Props.

(** A small runtime: two objects that share a shape, then a property [5] on the
    first, then a cache filled by reading it. *)
#[local] Instance default_config : ShapeConfig := {| CONFIG_PROP_HASH_MIX := true |}.
Definition run0 : shape_rt := (init_shape_hash true []).2.
Definition after {A} (rt : shape_rt) (x : option (A * shape_rt)) : shape_rt := match x with Some (_, rt') => rt' | None => rt end.
Definition run1 : shape_rt := after run0 (JS_NewObjectProtoClass 0 run0 None 1).
Definition run2 : shape_rt := after run1 (JS_NewObjectProtoClass 0 run1 None 2).
Definition run3 : shape_rt := after run2 (add_property run2 1 5 7).
Definition run4 : shape_rt := default run3 (write_value run3 1 0 (prop_value (JS_MKVAL 0 42))).
Definition cache0 : JSPropCache := mk_pcache None 0.
Definition run5 : shape_rt := after run4 (js_prop_cache_probe run4 1 5 cache0).
Definition cache5 : JSPropCache := match js_prop_cache_probe run4 1 5 cache0 with Some (_, pc, _) => pc | None => cache0 end.
Definition run6 : shape_rt := after run5 (delete_property run5 1 5).

Definition no_ext : ptr -> Z := fun _ => 0.

Lemma run4_steps : rtc (op_step 0) run0 run4.
Proof.
  apply (rtc_l _ _ run1); [eapply (op_new 0 run0 None 1 true); [done|done|vm_compute; reflexivity]|].
  apply (rtc_l _ _ run2); [eapply (op_new 0 run1 None 2 true); [done|done|vm_compute; reflexivity]|].
  apply (rtc_l _ _ run3); [|apply (rtc_l _ _ run4); [|apply rtc_refl]].
  - eapply (op_add 0 run2 1 5 7 (Some 0%nat)); [|done|done|lia|vm_compute; reflexivity]. eexists _, _. split; [vm_compute; reflexivity|]. split; [vm_compute; reflexivity|done].
  - eapply (op_write 0 run3 1 0 (prop_value (JS_MKVAL 0 42))). vm_compute. reflexivity.
Qed.

Lemma run2_steps : rtc (op_step 0) run0 run2.
Proof.
  apply (rtc_l _ _ run1); [eapply (op_new 0 run0 None 1 true); [done|done|vm_compute; reflexivity]|].
  apply (rtc_l _ _ run2); [eapply (op_new 0 run1 None 2 true); [done|done|vm_compute; reflexivity]|]. apply rtc_refl.
Qed.

Lemma run0_init : init_shape_hash true [] = (true, run0).
Proof. reflexivity. Qed.

Lemma run_ok rt : rtc (op_step 0) run0 rt -> srt_ok None no_ext rt.
Proof. intros Hs. refine (proj1 (steps_ok 0 no_ext run0 rt (init_ok true [] run0 run0_init) _ Hs)). intros x. done. Qed.

Lemma probe_eq ext rt p o a pc v pc' rt' : srt_ok None (cache_ext ext pc) rt -> (forall x, 0 <= ext x) -> objects rt !! p = Some o -> a <> JS_ATOM_NULL -> cache_ok rt a pc ->
  js_prop_cache_probe rt p a pc = Some (v, pc', rt') -> srt_ok None (cache_ext ext pc') rt' /\ cache_ok rt' a pc'.
Proof. intros Hi He Ep Ha Hc E. destruct (cache_probe_spec ext rt p o a pc Hi He Ep Ha Hc) as (pc1 & rt1 & E' & H1 & H2 & _). rewrite E in E'. injection E' as _ -> ->. by split. Qed.

Lemma run5_cache : srt_ok None (cache_ext no_ext cache5) run5 /\ cache_ok run5 5 cache5.
Proof.
  eapply (probe_eq no_ext run4 1 _ 5 cache0 _ cache5 run5); [exact (run_ok _ run4_steps)|intros x; unfold no_ext; lia|vm_compute; reflexivity|discriminate|exact I|vm_compute; reflexivity].
Qed.

Lemma run6_steps : rtc (op_step 0) run5 run6.
Proof. apply (rtc_l _ _ run6); [|apply rtc_refl]. eapply (op_delete 0 run5 1 5); [done|vm_compute; reflexivity]. Qed.

Example run_shares : JS_SameShape run2 1 2 = Some true /\ JS_SameShape run4 1 2 = Some false /\ view run4 1 = [((5, 7), Some (prop_value (JS_MKVAL 0 42)))] /\ view run4 2 = [].
Proof. split_and!; vm_compute; reflexivity. Qed.

Example run_cached : pc_shape cache5 <> None /\ view run6 1 = [].
Proof. split; [vm_compute; done|vm_compute; reflexivity]. Qed.

Module ShapeProps_props.

Section Theorems.
Context {cfg : ShapeConfig}.

(** C2. Adding a property to an object, whether the table of shapes has the
    shape that results, the shape is changed in place or copied first: the
    object gets the name with its flags after those it had, and the value that
    the caller writes at the returned index is its value; every other object,
    those that had the same shape too, and every shape that a cache refers to
    stay as they were; the shapes stay consistent; and it answers NULL, with the
    object as it was, only when the allocator fails. *)
Theorem add_property_refines ext rt p a f :
  srt_ok None ext rt -> (forall s, 0 <= ext s) -> has_room rt p -> own_entry (view rt p) a = None -> a <> JS_ATOM_NULL -> 0 <= f < 64 ->
  exists r rt', add_property rt p a f = Some (r, rt') /\ srt_ok None ext rt' /\ undisturbed ext p rt rt' /\ proto_of rt' p = proto_of rt p /\
    match r with
    | Some i => forall v, exists rt2, write_value rt' p i v = Some rt2 /\ view rt2 p = view rt p ++ [((a, f), Some v)]
    | None => view rt' p = view rt p /\ false ∈ smem rt
    end.
Proof.
  intros Hi He (o & sh & Ep & Es & Hm) Hn Ha Hf. apply own_entry_none in Hn. rewrite (view_names _ _ _ _ _ Hi Ep Es) in Hn.
  destruct (add_spec ext rt p o sh a f Hi He Ep Es Ha Hn Hf Hm) as (r & rt' & E & Hi' & Hk & o' & sh' & Ep' & Es' & Hp & Ht & Hr). exists r, rt'.
  destruct (view_eq _ _ _ _ Ep Es) as [V P], (view_eq _ _ _ _ Ep' Es') as [V' P']. split_and!; [done|done|by apply kept_undisturbed|congruence|]. destruct r as [i|].
  - destruct Hr as [-> Hs]. intros v. by apply (write_new ext rt rt' p o sh o' sh').
  - destruct Hr as [Hs Hfalse]. split; [|done]. rewrite V, V', Hs. apply entries_take. by rewrite signature_len.
Qed.

(** C11. Deleting a property: a name the object does not have answers TRUE and
    changes nothing; a property that is not configurable answers FALSE and
    changes nothing; else the name goes from the object, with the order of the
    others kept and through compactions of the property array, and the answer
    is TRUE, or the allocator failed, the answer is -1 and the object is as it
    was.  Every other object, those that shared the shape too, and the shapes
    that caches refer to stay as they were. *)
Theorem delete_property_refines ext rt p a :
  srt_ok None ext rt -> (forall s, 0 <= ext s) -> is_Some (objects rt !! p) -> a <> JS_ATOM_NULL ->
  exists r v rt', delete_property rt p a = Some (r, v, rt') /\ srt_ok None ext rt' /\ undisturbed ext p rt rt' /\ proto_of rt' p = proto_of rt p /\
    match own_entry (view rt p) a with
    | None => r = 1 /\ v = None /\ rt' = rt
    | Some (f, u) =>
        if f & JS_PROP_CONFIGURABLE =? 0 then r = 0 /\ v = None /\ rt' = rt
        else (r = 1 /\ v = u /\ view rt' p = filter (fun e => e.1.1 <> a) (view rt p)) \/ (r = -1 /\ v = None /\ view rt' p = view rt p /\ false ∈ smem rt)
    end.
Proof.
  intros Hi He Hp Ha. destruct (object_shape _ _ _ Hi Hp) as (o & sh & Ep & Es). destruct (delete_spec ext rt p o sh a Hi He Ep Es Ha) as (r & v & rt' & E & Hi' & Hk & Hpr & Hr).
  exists r, v, rt'. split_and!; [done|done|by apply kept_undisturbed|done|done].
Qed.

(** Changing the flags of a property changes them for this object alone:
    a shape that other objects or caches have is copied first. *)
Theorem js_update_property_flags_exact ext rt p o sh i pr f :
  srt_ok None ext rt -> (forall s, 0 <= ext s) -> objects rt !! p = Some o -> shapes rt !! oshape o = Some sh -> sprop sh !! i = Some pr -> atom pr <> JS_ATOM_NULL -> 0 <= f < 64 ->
  exists b rt', js_update_property_flags rt p i f = Some (b, rt') /\ srt_ok None ext rt' /\ undisturbed ext p rt rt' /\ proto_of rt' p = proto_of rt p /\
    if b then view rt' p = with_flags (view rt p) (atom pr) f else view rt' p = view rt p /\ false ∈ smem rt.
Proof.
  intros Hi He Ep Es Epr Ha Hf. destruct (update_spec ext rt p o sh i pr f Hi He Ep Es Epr Hf) as (b & rt' & E & Hi' & Hk & o' & sh' & Ep' & Es' & Eo & Hp & Hs & Hb). exists b, rt'.
  destruct (view_eq _ _ _ _ Ep Es) as [V P], (view_eq _ _ _ _ Ep' Es') as [V' P']. split_and!; [done|done|by apply kept_undisturbed|congruence|]. rewrite V, V', Hs, Eo. destruct b; [|by split; [|apply Hb]].
  apply (entries_flags _ _ _ _ (pflags pr)); [by apply signature_lookup|done|apply (so_atoms _ (sr_shape _ _ _ Hi _ _ Es))].
Qed.

(** Searching an object for a name through the hash chains of its shape
    ends, with the entry and the value of that name, or with NULL when the
    object has no such property. *)
Theorem find_own_property_exact ext rt p a : srt_ok None ext rt -> is_Some (objects rt !! p) -> a <> JS_ATOM_NULL ->
  exists r, find_own_property rt p a = Some r /\
    match r with
    | Some i => exists o sh pr v, objects rt !! p = Some o /\ shapes rt !! oshape o = Some sh /\ sprop sh !! i = Some pr /\ atom pr = a /\ oprop o !! i = Some v /\
        own_entry (view rt p) a = Some (pflags pr, v)
    | None => own_entry (view rt p) a = None
    end.
Proof.
  intros Hi Hp Ha. destruct (object_shape _ _ _ Hi Hp) as (o & sh & Ep & Es). unfold find_own_property. rewrite Ep. cbn [mbind option_bind]. rewrite Es. cbn [mbind option_bind].
  destruct (find_in_shape_spec sh a (sr_shape _ _ _ Hi _ _ Es) Ha) as (r & -> & Hr). exists r. split; [done|]. destruct r as [i|].
  - destruct Hr as (f & Ei). destruct (view_at _ _ _ _ _ _ a f Hi Ep Es Ei Ha) as (v & Ev & Hown). unfold signature in Ei. rewrite list_lookup_fmap in Ei.
    destruct (sprop sh !! i) as [pr|] eqn:Epr; [|done]. cbn in Ei. injection Ei as <- <-. by exists o, sh, pr, v.
  - apply own_entry_none. by rewrite (view_names _ _ _ _ _ Hi Ep Es).
Qed.

(** C16. A cache of a property's position that was filled before any sequence of
    making objects, adding, deleting, changing and writing properties answers
    afterwards, for any object, what a search for the name would: the shape it
    refers to never changed. *)
Theorem prop_cache_sound seed ext rt rt' p a pc :
  srt_ok None (cache_ext ext pc) rt -> (forall s, 0 <= ext s) -> cache_ok rt a pc -> rtc (op_step seed) rt rt' -> is_Some (objects rt' !! p) -> a <> JS_ATOM_NULL ->
  exists pc' rt2, js_prop_cache_probe rt' p a pc = Some (own_data (view rt' p) a, pc', rt2) /\ srt_ok None (cache_ext ext pc') rt2 /\ cache_ok rt2 a pc' /\
    (forall q, view rt2 q = view rt' q /\ proto_of rt2 q = proto_of rt' q).
Proof.
  intros Hi He Hc Hs [o Ep] Ha. assert (He' : forall s, 0 <= cache_ext ext pc s).
  { intros s. specialize (He s). unfold cache_ext, ext_add, at_ptr. destruct (pc_shape pc) as [s0|]; [|done]. destruct (decide (s0 = s)); lia. }
  destruct (steps_ok seed _ rt rt' Hi He' Hs) as [Hi' K]. apply (cache_probe_spec ext rt' p o a pc); try done. unfold cache_ok in *. destruct (pc_shape pc) as [s|] eqn:Epc; [|done].
  destruct Hc as (sh & f & E & Hrest). destruct (K s sh E) as (sh' & Es' & (Esp & _)%same_shape_fields); [specialize (He s); unfold cache_ext; rewrite Epc; unfold ext_add; rewrite at_ptr_same; lia|].
  exists sh', f. by rewrite Esp.
Qed.

(** In every state that the operations of [op_step] reach from an empty runtime,
    without contexts and caches that refer to shapes, an object's shape is there with one reference for each object that has it, the
    names of an object are distinct and its values have room; a shape outside
    the table has one object, no shape is left without an object, and a shape
    marked all_plain has plain values only, so that freeing them directly is
    right. *)
Theorem shapes_reachable seed e mem rt0 rt : init_shape_hash e mem = (true, rt0) -> rtc (op_step seed) rt0 rt ->
  (forall p o, objects rt !! p = Some o -> exists sh, shapes rt !! oshape o = Some sh /\ shape_rc rt !! oshape o = Some (users (objects rt) (oshape o)) /\
     prop_count sh <= Z.of_nat (length (oprop o)) /\ NoDup (view rt p).*1.*1) /\
  (forall s sh, shapes rt !! s = Some sh -> 0 < users (objects rt) s /\ (is_hashed sh = false -> users (objects rt) s = 1) /\
     (all_plain sh = true -> Forall (fun pr => pflags pr & JS_PROP_TMASK = 0) (sprop sh))).
Proof.
  intros Hinit Hs. destruct (steps_ok seed (fun _ => 0) rt0 rt (init_ok _ _ _ Hinit) ltac:(lia) Hs) as [Hi _]. split.
  - intros p o Ep. destruct (sr_obj _ _ _ Hi p o Ep) as (sh & Es & Hcap). exists sh. pose proof (sr_shape _ _ _ Hi _ _ Es) as Hok. pose proof (so_count _ Hok) as [Hc _].
    split_and!; [done|by apply (sr_rc _ _ _ Hi _ sh)|lia|]. rewrite (view_names _ _ _ _ _ Hi Ep Es). apply (so_atoms _ Hok).
  - intros s sh Es. destruct (sr_rc _ _ _ Hi _ sh Es) as (_ & ? & ?). split_and!; [done..|]. intros Hpl. by apply (so_plain _ (sr_shape _ _ _ Hi _ _ Es)), Forall_fmap in Hpl.
Qed.

(** A new object has no properties and the given prototype, whether its
    shape was in the table or is new, and also when the table grows for it;
    nothing else changes; and the allocator's failure gives no object. *)
Theorem JS_NewObjectProtoClass_exact seed ext rt proto p :
  srt_ok None ext rt -> (forall s, 0 <= ext s) -> shape_hash_bits rt < 30 -> objects rt !! p = None ->
  exists b rt', JS_NewObjectProtoClass seed rt proto p = Some (b, rt') /\ srt_ok None ext rt' /\ undisturbed ext p rt rt' /\
    if b then view rt' p = [] /\ proto_of rt' p = Some proto else objects rt' !! p = None /\ false ∈ smem rt.
Proof.
  intros Hi He Hb Ep. destruct (new_object_spec seed ext rt proto p Hi He Hb Ep) as (b & rt' & E & Hi' & Hk & Hr). exists b, rt'. split_and!; [done|done|by apply kept_undisturbed|done].
Qed.

End Theorems.

Lemma add_property_refines_witness : exists r rt', add_property run2 1 5 7 = Some (r, rt') /\ srt_ok None no_ext rt' /\ undisturbed no_ext 1 run2 rt' /\ proto_of rt' 1 = proto_of run2 1 /\
    match r with
    | Some i => forall v, exists rt2, write_value rt' 1 i v = Some rt2 /\ view rt2 1 = view run2 1 ++ [((5, 7), Some v)]
    | None => view rt' 1 = view run2 1 /\ false ∈ smem run2
    end.
Proof.
  apply (add_property_refines no_ext run2 1 5 7 (run_ok _ run2_steps)); [intros s; unfold no_ext; lia| |vm_compute; reflexivity|discriminate|lia].
  eexists _, _. split; [vm_compute; reflexivity|]. split; [vm_compute; reflexivity|reflexivity].
Defined.

Lemma delete_property_refines_witness : exists r v rt', delete_property run4 1 5 = Some (r, v, rt') /\ srt_ok None no_ext rt' /\ undisturbed no_ext 1 run4 rt' /\ proto_of rt' 1 = proto_of run4 1 /\
    ((r = 1 /\ v = Some (prop_value (JS_MKVAL 0 42)) /\ view rt' 1 = []) \/ (r = -1 /\ v = None /\ view rt' 1 = view run4 1 /\ false ∈ smem run4)).
Proof. apply (delete_property_refines no_ext run4 1 5 (run_ok _ run4_steps)); [intros s; unfold no_ext; lia|eexists; vm_compute; reflexivity|discriminate]. Defined.

Lemma js_update_property_flags_exact_witness : exists b rt', js_update_property_flags run4 1 0 5 = Some (b, rt') /\ srt_ok None no_ext rt' /\ undisturbed no_ext 1 run4 rt' /\ proto_of rt' 1 = proto_of run4 1 /\
    if b then view rt' 1 = with_flags (view run4 1) 5 5 else view rt' 1 = view run4 1 /\ false ∈ smem run4.
Proof.
  eapply (js_update_property_flags_exact no_ext run4 1 _ _ 0 (mk_sprop 0 7 5) 5 (run_ok _ run4_steps)); [intros s; unfold no_ext; lia|vm_compute; reflexivity|vm_compute; reflexivity|reflexivity|discriminate|lia].
Defined.

Lemma find_own_property_exact_witness : exists r, find_own_property run4 1 5 = Some r /\
    match r with
    | Some i => exists o sh pr v, objects run4 !! 1%positive = Some o /\ shapes run4 !! oshape o = Some sh /\ sprop sh !! i = Some pr /\ atom pr = 5 /\ oprop o !! i = Some v /\
        own_entry (view run4 1) 5 = Some (pflags pr, v)
    | None => own_entry (view run4 1) 5 = None
    end.
Proof. apply (find_own_property_exact no_ext run4 1 5 (run_ok _ run4_steps)); [eexists; vm_compute; reflexivity|discriminate]. Defined.

Lemma prop_cache_sound_witness : exists pc' rt2, js_prop_cache_probe run6 1 5 cache5 = Some (own_data (view run6 1) 5, pc', rt2) /\ srt_ok None (cache_ext no_ext pc') rt2 /\ cache_ok rt2 5 pc' /\
    (forall q, view rt2 q = view run6 q /\ proto_of rt2 q = proto_of run6 q).
Proof.
  apply (prop_cache_sound 0 no_ext run5 run6 1 5 cache5 (proj1 run5_cache)); [intros s; unfold no_ext; lia|exact (proj2 run5_cache)|exact run6_steps|eexists; vm_compute; reflexivity|discriminate].
Defined.

Lemma shapes_reachable_witness :
  (forall p o, objects run4 !! p = Some o -> exists sh, shapes run4 !! oshape o = Some sh /\ shape_rc run4 !! oshape o = Some (users (objects run4) (oshape o)) /\
     prop_count sh <= Z.of_nat (length (oprop o)) /\ NoDup (view run4 p).*1.*1) /\
  (forall s sh, shapes run4 !! s = Some sh -> 0 < users (objects run4) s /\ (is_hashed sh = false -> users (objects run4) s = 1) /\
     (all_plain sh = true -> Forall (fun pr => pflags pr & JS_PROP_TMASK = 0) (sprop sh))).
Proof. exact (shapes_reachable 0 true [] run0 run4 run0_init run4_steps). Defined.

Lemma JS_NewObjectProtoClass_exact_witness : exists b rt', JS_NewObjectProtoClass 0 run4 (Some 1%positive) 3 = Some (b, rt') /\ srt_ok None no_ext rt' /\ undisturbed no_ext 3 run4 rt' /\
    if b then view rt' 3 = [] /\ proto_of rt' 3 = Some (Some 1%positive) else objects rt' !! 3%positive = None /\ false ∈ smem run4.
Proof. apply (JS_NewObjectProtoClass_exact 0 no_ext run4 (Some 1%positive) 3 (run_ok _ run4_steps)); [intros s; unfold no_ext; lia|vm_compute; reflexivity|vm_compute; reflexivity]. Defined.

End ShapeProps_props.
