(* ===== verification/Dns.v ===== *)
(** * DNS messages

    src/core/dyn-dns.c: names with compression pointers, headers, queries,
    resource records and responses.

    A message is the list of its bytes.  An output buffer is the list of its
    bytes too, so its capacity is its length; it is returned with what has been
    written.  Positions are natural numbers: a position is compared with the
    length of the message before anything is added to it.  [None] stands for an
    access outside a message or buffer, or a loop that does not end.  Pointers
    are not NULL. *)
From Stdlib Require Import ZArith Lia Ascii.
From stdpp Require Import base numbers list option strings.
From S2P Require Import Prelude.

Definition DYN_DNS_MAX_NAME : nat := 255.
Definition DYN_DNS_MAX_LABEL : Z := 63.
Definition DYN_DNS_HDR_LEN : nat := 12.
Definition DYN_DNS_C_IN : Z := 1.

Definition DYN_DNS_OK : Z := 0.
Definition DYN_DNS_E_SHORT : Z := -1.
Definition DYN_DNS_E_LOOP : Z := -2.
Definition DYN_DNS_E_NAME : Z := -3.
Definition DYN_DNS_E_FORMAT : Z := -4.

Definition LBL_MASK : Z := 0xc0.
Definition LBL_PTR : Z := 0xc0.
Definition LBL_PLAIN : Z := 0x00.

(** ** Buffers *)

(** [memcpy(out + i, src, n)] *)
Definition put (out : bytes) (i : nat) (src : bytes) : option bytes :=
  if (i + length src <=? length out)%nat then Some (take i out ++ src ++ drop (i + length src) out) else None.

(** ** Names *)

Record name_state := mk_name { pos : nat; total : nat; ret : Z; limit : nat; nout : bytes }.

(** One turn of the loop: a new state, or the result with the buffer. *)
Definition name_turn (msg : bytes) (s : name_state) : name_state + option (Z * bytes) :=
  let len := length msg in
  let outcap := length (nout s) in
  let fail e := inr (Some (e, nout s)) in
  if (len <=? pos s)%nat then fail DYN_DNS_E_SHORT else
  match msg !! pos s with
  | None => inr None
  | Some c =>
      if (c & LBL_MASK) =? LBL_PTR then
        if (len <=? pos s + 1)%nat then fail DYN_DNS_E_SHORT else
        match msg !! (pos s + 1)%nat with
        | None => inr None
        | Some d =>
            let target := Z.to_nat (((c & 0x3f) << 8) .| d) in
            if (limit s <=? target)%nat || (target <? DYN_DNS_HDR_LEN)%nat then fail DYN_DNS_E_LOOP else
            let ret := if ret s <? 0 then i32 (Z.of_nat (pos s + 2)) else ret s in
            inl (mk_name target (total s) ret target (nout s))
        end
      else if negb ((c & LBL_MASK) =? LBL_PLAIN) then fail DYN_DNS_E_FORMAT
      else if c =? 0 then
        let ret := if ret s <? 0 then i32 (Z.of_nat (pos s + 1)) else ret s in
        inr (Some (ret, nout s))
      else if DYN_DNS_MAX_LABEL <? c then fail DYN_DNS_E_NAME
      else
        let n := Z.to_nat c in
        if (len <? pos s + 1 + n)%nat then fail DYN_DNS_E_SHORT
        else if (DYN_DNS_MAX_NAME <? total s + n + 1)%nat then fail DYN_DNS_E_NAME
        else if (outcap <? total s + n + 2)%nat then fail DYN_DNS_E_NAME
        else
          let dot := if negb (total s =? 0)%nat then [ch "."%char] else [] in
          match lbl ← aslice msg (pos s + 1) n; put (nout s) (total s) (dot ++ lbl ++ [0]) with
          | None => inr None
          | Some out => inl (mk_name (pos s + (1 + n)) (total s + length dot + n) (ret s) (limit s) out)
          end
  end.

(** Every turn follows a pointer, which lowers [limit], or copies a label, which
    raises [total]: [off + 256] turns are enough. *)
Definition dyn_dns_name_decode (msg : bytes) (off : nat) (out : bytes) : option (Z * bytes) :=
  if (length out =? 0)%nat then Some (DYN_DNS_E_FORMAT, out) else
  out ← put out 0 [0];
  r ← turns (name_turn msg) (off + 257) (mk_name off 0 (-1) off out);
  r.

(** The characters up to a dot or the end. *)
Fixpoint span_label (name : bytes) : bytes * bytes :=
  match name with
  | [] => ([], [])
  | c :: name' => if c =? ch "."%char then ([], name) else let '(l, rest) := span_label name' in (c :: l, rest)
  end.

(** [name] is what is left of the string. *)
Fixpoint encode_loop (fuel : nat) (name : bytes) (w : nat) (out : bytes) : option (Z * bytes) :=
  match name with
  | [] =>
      if (length out <? w + 1)%nat then Some (DYN_DNS_E_SHORT, out) else
      out ← put out w [0]; Some (i32 (Z.of_nat (w + 1)), out)
  | _ =>
      match fuel with
      | O => None
      | S fuel =>
          let '(lbl, rest) := span_label name in
          let n := length lbl in
          if (n =? 0)%nat then Some (DYN_DNS_E_FORMAT, out)
          else if DYN_DNS_MAX_LABEL <? Z.of_nat n then Some (DYN_DNS_E_NAME, out)
          else if (length out <? w + 1 + n + 1)%nat then Some (DYN_DNS_E_SHORT, out)
          else if (DYN_DNS_MAX_NAME <? w + 1 + n + 1)%nat then Some (DYN_DNS_E_NAME, out)
          else
            out ← put out w (u8 (Z.of_nat n) :: lbl);
            encode_loop fuel (tl rest) (w + 1 + n) out
      end
  end.

Definition dyn_dns_name_encode (name : bytes) (out : bytes) : option (Z * bytes) := encode_loop (length name) name 0 out.

(** ** Headers and queries *)

Record dyn_dns_hdr_t := mk_hdr { id : Z; flags : Z; qdcount : Z; ancount : Z; nscount : Z; arcount : Z }.

Definition be16 (a b : Z) : Z := u16 ((a << 8) .| b).
Definition get16 (msg : bytes) (i : nat) : option Z := a ← msg !! i; b ← msg !! (i + 1)%nat; Some (be16 a b).
Definition put16 (x : Z) : bytes := [u8 (x >> 8); u8 x].

(** The header is filled in only when the code is DYN_DNS_OK. *)
Definition dyn_dns_hdr_decode (msg : bytes) : option (Z * option dyn_dns_hdr_t) :=
  if (length msg <? DYN_DNS_HDR_LEN)%nat then Some (DYN_DNS_E_SHORT, None) else
  i ← get16 msg 0; f ← get16 msg 2; qd ← get16 msg 4; an ← get16 msg 6; ns ← get16 msg 8; ar ← get16 msg 10;
  Some (DYN_DNS_OK, Some (mk_hdr i f qd an ns ar)).

Definition dyn_dns_hdr_encode (h : dyn_dns_hdr_t) (out : bytes) : option (Z * bytes) :=
  if (length out <? DYN_DNS_HDR_LEN)%nat then Some (DYN_DNS_E_SHORT, out) else
  out ← put out 0 (put16 (id h) ++ put16 (flags h) ++ put16 (qdcount h) ++ put16 (ancount h) ++ put16 (nscount h) ++ put16 (arcount h));
  Some (Z.of_nat DYN_DNS_HDR_LEN, out).

Definition dyn_dns_build_query (qid : Z) (name : bytes) (type : Z) (out : bytes) : option (Z * bytes) :=
  '(r, out) ← dyn_dns_hdr_encode (mk_hdr qid 0x0100 1 0 0 0) out;
  if r <? 0 then Some (DYN_DNS_E_SHORT, out) else
  let w := DYN_DNS_HDR_LEN in
  '(n, sub) ← dyn_dns_name_encode name (drop w out);
  let out := take w out ++ sub in
  if n <? 0 then Some (n, out) else
  let w := (w + Z.to_nat n)%nat in
  if (length out <? w + 4)%nat then Some (DYN_DNS_E_SHORT, out) else
  out ← put out w (put16 type ++ [0; DYN_DNS_C_IN]);
  Some (i32 (Z.of_nat (w + 4)), out).

(** The scratch buffer's contents are not read: it starts as zeros. *)
Definition scratch : bytes := replicate (DYN_DNS_MAX_NAME + 1) 0.

(** [n] questions are left; the offset is returned with the code. *)
Fixpoint skip_loop (msg : bytes) (n : nat) (off : nat) : option (Z * nat) :=
  match n with
  | O => Some (DYN_DNS_OK, off)
  | S n =>
      '(after, _) ← dyn_dns_name_decode msg off scratch;
      if after <? 0 then Some (after, off) else
      let off := Z.to_nat after in
      if (length msg <? off + 4)%nat then Some (DYN_DNS_E_SHORT, off) else skip_loop msg n (off + 4)
  end.

Definition dyn_dns_skip_questions (msg : bytes) (off : nat) (qd : Z) : option (Z * nat) := skip_loop msg (Z.to_nat qd) off.

(** ** Resource records *)

Record dyn_dns_rr_t := mk_rr { rname : bytes; type : Z; cls : Z; ttl : Z; rdata : nat; rdlen : Z }.

Definition get32 (msg : bytes) (i : nat) : option Z :=
  a ← msg !! i; b ← msg !! (i + 1)%nat; c ← msg !! (i + 2)%nat; d ← msg !! (i + 3)%nat;
  Some ((u32 a << 24) .| (u32 b << 16) .| (u32 c << 8) .| u32 d).

(** [rdata] is a position in the message; the record is filled in only when
    the code is DYN_DNS_OK. *)
Definition dyn_dns_rr_decode (msg : bytes) (off : nat) : option (Z * nat * option dyn_dns_rr_t) :=
  '(after, name) ← dyn_dns_name_decode msg off scratch;
  if after <? 0 then Some (after, off, None) else
  let p := Z.to_nat after in
  if (length msg <? p + 10)%nat then Some (DYN_DNS_E_SHORT, off, None) else
  t ← get16 msg p; c ← get16 msg (p + 2); l ← get32 msg (p + 4);
  let l := if negb ((l & 0x80000000) =? 0) then 0 else l in
  n ← get16 msg (p + 8);
  let p := (p + 10)%nat in
  if (length msg - p <? Z.to_nat n)%nat then Some (DYN_DNS_E_SHORT, off, None) else
  Some (DYN_DNS_OK, (p + Z.to_nat n)%nat, Some (mk_rr name t c l p n)).

(** ** Responses *)

Definition dyn_dns_begin_response (query : bytes) (rcode : Z) (out : bytes) : option (Z * bytes) :=
  if (length query <? DYN_DNS_HDR_LEN)%nat then Some (DYN_DNS_E_SHORT, out) else
  '(r, h) ← dyn_dns_hdr_decode query;
  if r <? 0 then Some (DYN_DNS_E_SHORT, out) else
  h ← h;
  if negb (qdcount h =? 1) then Some (DYN_DNS_E_FORMAT, out) else
  '(after, _) ← dyn_dns_name_decode query DYN_DNS_HDR_LEN scratch;
  if after <? 0 then Some (after, out) else
  if (length query <? Z.to_nat after + 4)%nat then Some (DYN_DNS_E_SHORT, out) else
  let qsec := (Z.to_nat after + 4 - DYN_DNS_HDR_LEN)%nat in
  if (length out <? DYN_DNS_HDR_LEN + qsec)%nat then Some (DYN_DNS_E_SHORT, out) else
  let h := mk_hdr (id h) (u16 ((flags h & 0x0100) .| 0x8000 .| 0x0080 .| (rcode & 0x0f))) (qdcount h) 0 0 0 in
  '(r, out) ← dyn_dns_hdr_encode h out;
  if r <? 0 then Some (DYN_DNS_E_SHORT, out) else
  q ← aslice query DYN_DNS_HDR_LEN qsec;
  out ← put out DYN_DNS_HDR_LEN q;
  Some (i32 (Z.of_nat (DYN_DNS_HDR_LEN + qsec)), out).

Definition dyn_dns_add_answer (out : bytes) (off : nat) (type ttl : Z) (addr : bytes) : option (Z * bytes) :=
  let addrlen := Z.of_nat (length addr) in
  if (length out <? off + 12 + length addr)%nat then Some (DYN_DNS_E_SHORT, out) else
  out ← put out off ([0xc0; Z.of_nat DYN_DNS_HDR_LEN] ++ put16 type ++ [0; DYN_DNS_C_IN] ++
    [u8 (ttl >> 24); u8 (ttl >> 16); u8 (ttl >> 8); u8 ttl] ++ put16 addrlen ++ addr);
  Some (i32 (Z.of_nat (off + 12 + length addr)), out).

Definition dyn_dns_set_ancount (out : bytes) (n : Z) : option bytes := put out 6 (put16 n).

(** ** What a name in a message is *)

(** The labels that start at [pos], where pointers have to lead below [limit];
    [fin] is the position after them in the place they started. *)
Inductive name_at (msg : bytes) : nat -> nat -> list bytes -> nat -> Prop :=
| name_end limit pos : msg !! pos = Some 0 -> name_at msg limit pos [] (pos + 1)
| name_label limit pos l ls fin : msg !! pos = Some (Z.of_nat (length l)) -> 0 < Z.of_nat (length l) <= DYN_DNS_MAX_LABEL ->
    take (length l) (drop (pos + 1) msg) = l ->
    name_at msg limit (pos + (1 + length l)) ls fin -> name_at msg limit pos (l :: ls) fin
| name_ptr limit pos c d target ls fin : msg !! pos = Some (0xc0 + c) -> msg !! (pos + 1)%nat = Some d -> 0 <= c < 64 ->
    target = Z.to_nat (c * 256 + d) -> (DYN_DNS_HDR_LEN <= target < limit)%nat ->
    name_at msg target target ls fin -> name_at msg limit pos ls (pos + 2).

(** The text of a name: its labels with dots between them. *)
Definition add_label (t l : bytes) : bytes := match t with [] => l | _ => t ++ ch "."%char :: l end.
Definition text (ls : list bytes) : bytes := fold_left add_label ls [].

Lemma add_label_len t l : length (add_label t l) = (if decide (t = []) then length l else length t + 1 + length l)%nat.
Proof. destruct t as [|c t]; [done|]. rewrite decide_False by done. unfold add_label. rewrite length_app. cbn [length]. lia. Qed.

Lemma text_grows ls t : (length t <= length (fold_left add_label ls t))%nat.
Proof.
  revert t. induction ls as [|l ls IH]; intros t; [done|]. cbn [fold_left]. specialize (IH (add_label t l)). rewrite add_label_len in IH.
  destruct (decide (t = [])) as [->|]; cbn in *; lia.
Qed.

(** ** Buffers *)

Lemma put_spec out i src : (i + length src <= length out)%nat ->
  put out i src = Some (take i out ++ src ++ drop (i + length src) out).
Proof. intros Hle. unfold put. by rewrite (proj2 (Nat.leb_le _ _)). Qed.

Lemma put_len out i src out' : put out i src = Some out' -> length out' = length out.
Proof.
  unfold put. destruct (Nat.leb_spec (i + length src) (length out)) as [Hle|]; [|done]. intros [= <-].
  rewrite !length_app, length_take, length_drop. lia.
Qed.

(** Writing right after a prefix. *)
Lemma put_after pre old src : (length src <= length old)%nat -> put (pre ++ old) (length pre) src = Some (pre ++ src ++ drop (length src) old).
Proof.
  intros Hle. rewrite put_spec by (rewrite length_app; lia). by rewrite take_app_length, drop_app_add.
Qed.

(** ** Bytes of labels and pointers *)

Lemma ptr_byte c : fits 8 c -> ((c & LBL_MASK) =? LBL_PTR) = (0xc0 <=? c) /\ ((c & LBL_MASK) =? LBL_PLAIN) = (c <? 64) /\ (c & 0x3f) = c `mod` 64.
Proof.
  intros Hc. unfold fits in Hc. assert (Hall : forallb (fun c => Bool.eqb ((c & LBL_MASK) =? LBL_PTR) (0xc0 <=? c) &&
    Bool.eqb ((c & LBL_MASK) =? LBL_PLAIN) (c <? 64) && ((c & 0x3f) =? c `mod` 64)) (seqZ 0 256) = true) by (by vm_compute).
  rewrite forallb_forall in Hall. specialize (Hall c). rewrite <- list_elem_of_In, elem_of_seqZ in Hall. specialize (Hall ltac:(lia)).
  bprop. split_and!; [by apply eqb_prop|by apply eqb_prop|done].
Qed.

Lemma ptr_target c d : fits 8 c -> fits 8 d -> ((c & 0x3f) << 8) .| d = c `mod` 64 * 256 + d.
Proof.
  intros Hc Hd. rewrite (proj2 (proj2 (ptr_byte c Hc))), Z.lor_comm, lor_shiftl_add by (done || lia). lia.
Qed.

(** ** Turns of the decoder *)

(** What the turns keep: the text so far with its end in the buffer, which is
    untouched behind it. *)
Record name_inv (out0 : bytes) (t : bytes) (s : name_state) : Prop := {
  ni_total : total s = length t;
  ni_out : nout s = t ++ 0 :: drop (S (length t)) out0;
  ni_fits : (length t < length out0)%nat
}.

Lemma ni_len out0 t s : name_inv out0 t s -> length (nout s) = length out0.
Proof. intros [_ -> Hf]. rewrite length_app. cbn. rewrite length_drop. lia. Qed.

(** A label goes behind the text. *)
Lemma ni_put out0 t s l : name_inv out0 t s -> (0 < length l)%nat -> (length t + length l + 2 <= length out0)%nat ->
  exists out, put (nout s) (total s) ((if negb (total s =? 0)%nat then [ch "."%char] else []) ++ l ++ [0]) = Some out /\
  forall p r lim, name_inv out0 (add_label t l) (mk_name p (total s + length (if negb (total s =? 0)%nat then [ch "."%char] else []) + length l) r lim out).
Proof.
  intros [Ht Ho Hf] Hl Hcap. rewrite Ht, Ho. set (dot := if negb (length t =? 0)%nat then [ch "."%char] else []).
  assert (Hdot : add_label t l = t ++ dot ++ l) by (unfold dot; by destruct t).
  assert (Hd : (length dot <= 1)%nat) by (unfold dot; destruct (length t =? 0)%nat; cbn; lia).
  rewrite put_after by (rewrite !length_app; cbn [length]; rewrite length_drop; lia). eexists. split; [done|]. intros p r lim.
  split; cbn [total nout].
  - rewrite Hdot, !length_app. lia.
  - assert (Hdr : drop (length (dot ++ l ++ [0])) (0 :: drop (S (length t)) out0) = drop (S (length (t ++ dot ++ l))) out0).
    { rewrite !length_app. cbn [length]. replace (length dot + (length l + 1))%nat with (S (length dot + length l)) by lia. cbn [drop].
      rewrite drop_drop. f_equal; lia. }
    rewrite Hdot, Hdr. by rewrite <- !app_assoc.
  - rewrite Hdot, !length_app. lia.
Qed.

(** A turn at a name: the result, or a turn to the rest of it. *)
Lemma turn_spec msg out0 t s : is_bytes msg -> name_inv out0 t s ->
  match name_turn msg s with
  | inr None => False
  | inr (Some (r, out)) => length out = length out0 /\
      (r < 0 \/ msg !! pos s = Some 0 /\ r = (if ret s <? 0 then i32 (Z.of_nat (pos s + 1)) else ret s) /\ out = nout s)
  | inl s' =>
      (exists c d, name_inv out0 t s' /\ msg !! pos s = Some (0xc0 + c) /\ msg !! (pos s + 1)%nat = Some d /\ 0 <= c < 64 /\
        pos s' = Z.to_nat (c * 256 + d) /\ limit s' = pos s' /\ (DYN_DNS_HDR_LEN <= pos s' < limit s)%nat /\
        ret s' = (if ret s <? 0 then i32 (Z.of_nat (pos s + 2)) else ret s)) \/
      (exists l, name_inv out0 (add_label t l) s' /\ msg !! pos s = Some (Z.of_nat (length l)) /\ 0 < Z.of_nat (length l) <= DYN_DNS_MAX_LABEL /\
        take (length l) (drop (pos s + 1) msg) = l /\ pos s' = (pos s + (1 + length l))%nat /\ limit s' = limit s /\ ret s' = ret s /\
        (length t + length l + 1 <= DYN_DNS_MAX_NAME)%nat)
  end.
Proof.
  intros Hm Hi. pose proof (ni_len _ _ _ Hi) as Hlen. pose proof Hi as [Ht Ho Hf]. unfold name_turn.
  destruct (Nat.leb_spec (length msg) (pos s)); [split; [done|by left]|].
  destruct (lookup_lt_is_Some_2 msg (pos s)) as [c Ec]; [done|]. rewrite Ec. pose proof (proj1 (Forall_lookup _ _) Hm _ _ Ec) as Hc. cbn beta in Hc.
  destruct (ptr_byte c Hc) as (Hp1 & Hp2 & Hp3). rewrite Hp1. unfold fits in Hc. destruct (Z.leb_spec 0xc0 c).
  - destruct (Nat.leb_spec (length msg) (pos s + 1)); [split; [done|by left]|].
    destruct (lookup_lt_is_Some_2 msg (pos s + 1)) as [d Ed]; [done|]. rewrite Ed. pose proof (proj1 (Forall_lookup _ _) Hm _ _ Ed) as Hd. cbn beta in Hd.
    rewrite ptr_target by (unfold fits in *; lia || done). assert (Em : c `mod` 64 = c - 192) by zdm. rewrite Em.
    destruct (Nat.leb_spec (limit s) (Z.to_nat ((c - 192) * 256 + d))); [split; [done|by left]|].
    destruct (Nat.ltb_spec (Z.to_nat ((c - 192) * 256 + d)) DYN_DNS_HDR_LEN); [split; [done|by left]|]. cbn [orb]. left. exists (c - 192), d.
    split_and!; cbn [pos limit ret]; try done; try lia. f_equal. lia.
  - rewrite Hp2. destruct (Z.ltb_spec c 64); cbn [negb]; [|split; [done|by left]].
    destruct (Z.eqb_spec c 0) as [->|]; [split; [done|right]; by split_and!|].
    unfold DYN_DNS_MAX_LABEL in *. rewrite (proj2 (Z.ltb_ge _ _)) by lia.
    destruct (Nat.ltb_spec (length msg) (pos s + 1 + Z.to_nat c)); [split; [done|by left]|].
    destruct (Nat.ltb_spec DYN_DNS_MAX_NAME (total s + Z.to_nat c + 1)); [split; [done|by left]|].
    destruct (Nat.ltb_spec (length (nout s)) (total s + Z.to_nat c + 2)); [split; [done|by left]|].
    rewrite aslice_in by lia. cbn [mbind option_bind]. set (l := take (Z.to_nat c) (drop (pos s + 1) msg)).
    assert (Hl : length l = Z.to_nat c) by (unfold l; rewrite length_take, length_drop; lia).
    destruct (ni_put out0 t s l Hi) as (out & -> & Hi'); [lia|lia|]. right. exists l. rewrite Hl in *. cbn [pos limit ret].
    split_and!; try done; try lia; try (f_equal; lia).
Qed.

(** Every turn but the last lowers [limit] or raises [total]. *)
Definition name_mu (s : name_state) : nat := (limit s + (255 - total s))%nat.

Lemma decode_ends msg off out : is_bytes msg -> (0 < length out)%nat ->
  exists r out', turns (name_turn msg) (off + 257) (mk_name off 0 (-1) off (0 :: drop 1 out)) = Some (Some (r, out')) /\ length out' = length out.
Proof.
  intros Hm Hout. destruct (turns_total (name_turn msg) (fun s => exists t, name_inv out t s) name_mu
    (fun r => match r with Some (_, o) => length o = length out | None => False end)) with (fuel := (off + 257)%nat)
    (s := mk_name off 0 (-1) off (0 :: drop 1 out)) as (r & -> & Hr).
  - intros s [t Hi]. pose proof (turn_spec msg out t s Hm Hi) as Hs. destruct (name_turn msg s) as [s'|[[r o]|]]; [|by destruct Hs|done].
    destruct Hs as [(c & d & Hi' & _ & _ & _ & Hp & Hlim & Hlt & _)|(l & Hi' & _ & Hl & _ & _ & Hlim & _ & Hmax)].
    + split; [by exists t|]. unfold name_mu. rewrite (ni_total _ _ _ Hi), (ni_total _ _ _ Hi'). lia.
    + split; [by eexists|]. unfold name_mu. rewrite (ni_total _ _ _ Hi), (ni_total _ _ _ Hi'), Hlim, add_label_len. unfold DYN_DNS_MAX_NAME in Hmax.
      destruct (decide (t = [])) as [->|]; cbn in *; lia.
  - exists []. by split.
  - unfold name_mu. cbn. lia.
  - destruct r as [[r o]|]; [|done]. by exists r, o.
Qed.

Lemma decode_total msg off out : is_bytes msg -> exists r out', dyn_dns_name_decode msg off out = Some (r, out') /\ length out' = length out.
Proof.
  intros Hm. unfold dyn_dns_name_decode. destruct (Nat.eqb_spec (length out) 0); [by eexists _, _|].
  rewrite put_spec by (cbn; lia). change (take 0 out ++ [0] ++ drop (0 + length [0]) out) with (0 :: drop 1 out). cbn [mbind option_bind]. destruct (decode_ends msg off out Hm) as (r & out' & -> & Hl); [lia|].
  by exists r, out'.
Qed.

(** ** The decoder reads the grammar *)

Definition start_of (s : name_state) (fin : nat) : Z := if ret s <? 0 then Z.of_nat fin else ret s.

Lemma name_sound msg out0 fuel s t r out : is_bytes msg -> Z.of_nat (length msg) < 2 ^ 31 -> name_inv out0 t s -> (length t <= DYN_DNS_MAX_NAME)%nat ->
  turns (name_turn msg) fuel s = Some (Some (r, out)) -> 0 <= r ->
  exists ls fin, name_at msg (limit s) (pos s) ls fin /\ (length (fold_left add_label ls t) <= DYN_DNS_MAX_NAME)%nat /\
    r = start_of s fin /\ name_inv out0 (fold_left add_label ls t) (mk_name fin (length (fold_left add_label ls t)) r 0 out).
Proof.
  intros Hm Hlen. revert s t. induction fuel as [|fuel IH]; intros s t Hi Hmax Hrun Hr; [done|]. cbn [turns] in Hrun.
  pose proof (turn_spec msg out0 t s Hm Hi) as Hs. destruct (name_turn msg s) as [s'|r'].
  - assert (Hbound : forall i x, msg !! i = Some x -> Z.of_nat (i + 1) < 2 ^ 31) by (intros i x Hx; apply lookup_lt_Some in Hx; lia).
    destruct Hs as [(c & d & Hi' & E1 & E2 & Hc & Hp & Hlim & Hlt & Hret)|(l & Hi' & E1 & Hl & Etake & Hp & Hlim & Hret & Hfit)].
    + destruct (IH s' t Hi' Hmax Hrun Hr) as (ls & fin & Hat & Hle & Er & Hinv). exists ls, (pos s + 2)%nat. split_and!; try done.
      * apply (name_ptr msg (limit s) (pos s) c d (pos s') ls fin); try done. by rewrite <- Hlim at 1.
      * apply Hbound in E2. unfold start_of in Er |- *. rewrite Hret in Er. destruct (Z.ltb_spec (ret s) 0).
        -- rewrite swrap_id in Er by (unfold sfits; lia). by rewrite (proj2 (Z.ltb_ge _ _)) in Er by lia.
        -- by rewrite (proj2 (Z.ltb_ge _ _)) in Er by lia.
      * destruct Hinv. by split.
    + destruct (IH s' (add_label t l) Hi') as (ls & fin & Hat & Hle & Er & Hinv); [|done|done|].
      { rewrite add_label_len. destruct (decide (t = [])); lia. }
      exists (l :: ls), fin. cbn [fold_left]. split_and!; try done.
      * rewrite Hlim, Hp in Hat. by apply (name_label msg).
      * unfold start_of in *. by rewrite <- Hret.
  - injection Hrun as ->. destruct Hs as [_ [?|(E0 & Er & ->)]]; [lia|]. exists [], (pos s + 1)%nat. cbn [fold_left]. apply lookup_lt_Some in E0 as Hlt.
    split_and!; [by constructor|done| |].
    + unfold start_of. rewrite Er. destruct (ret s <? 0); [|done]. apply swrap_id; [lia|]. unfold sfits. lia.
    + destruct Hi. by split.
Qed.

Lemma name_at_det msg lim p ls1 ls2 fin1 fin2 : name_at msg lim p ls1 fin1 -> name_at msg lim p ls2 fin2 -> ls1 = ls2.
Proof.
  intros H1. revert ls2 fin2. induction H1 as [lim p E0|lim p l ls fin E1 Hl Etake Hat IH|lim p c d target ls fin E1 E2 Hc Htgt Hlim Hat IH]; intros ls2 fin2 H2;
    inversion H2; subst; unfold DYN_DNS_MAX_LABEL in *; try congruence;
    repeat match goal with Ha : msg !! ?i = Some ?x, Hb : msg !! ?i = Some ?y |- _ => rewrite Ha in Hb; injection Hb as Hb end; try lia.
  - assert (length l0 = length l) as Hll by lia. rewrite Hll in *. f_equal; [congruence|]. by eapply IH.
  - subst. assert (c0 = c) as -> by lia. by eapply IH.
Qed.

(** The buffer of every caller has room for the longest name. *)
Lemma name_complete msg out0 lim p ls fin : is_bytes msg -> Z.of_nat (length msg) < 2 ^ 31 -> (DYN_DNS_MAX_NAME < length out0)%nat -> name_at msg lim p ls fin ->
  forall t s, name_inv out0 t s -> pos s = p -> limit s = lim -> (length (fold_left add_label ls t) <= DYN_DNS_MAX_NAME)%nat ->
  exists fuel r out, turns (name_turn msg) fuel s = Some (Some (r, out)) /\ r = start_of s fin.
Proof.
  intros Hm Hlen Hcap Hat. induction Hat as [lim p E0|lim p l ls fin E1 Hl Etake Hat IH|lim p c d target ls fin E1 E2 Hc Htgt Hlim Hat IH]; intros t s Hi Hp Hlm Hmax; subst p lim.
  - exists 1%nat. apply lookup_lt_Some in E0 as Hlt. assert (name_turn msg s = inr (Some (start_of s (pos s + 1), nout s))) as E.
    { unfold name_turn. rewrite (proj2 (Nat.leb_gt _ _)), E0 by lia. destruct (ptr_byte 0) as (-> & -> & _); [unfold fits; lia|].
      change (0xc0 <=? 0) with false. change (0 <? 64) with true. change (0 =? 0) with true. cbn [negb]. unfold start_of. rewrite swrap_id by (unfold sfits; lia). by destruct (ret s <? 0). }
    cbn [turns]. rewrite E. by eexists _, _.
  - apply lookup_lt_Some in E1 as Hlt. cbn [fold_left] in Hmax. pose proof (text_grows ls (add_label t l)) as Hg. rewrite add_label_len in Hg.
    assert (Hroom : (length msg >= pos s + 1 + length l)%nat).
    { apply (f_equal length) in Etake. rewrite length_take, length_drop in Etake. lia. }
    destruct (ni_put out0 t s l Hi) as (out & Eput & Hi'); [lia| |].
    { unfold DYN_DNS_MAX_NAME, DYN_DNS_MAX_LABEL in *. destruct (decide (t = [])) as [->|]; cbn [length] in *; lia. }
    assert (Hfit : (total s + length l + 1 <= DYN_DNS_MAX_NAME)%nat).
    { rewrite (ni_total _ _ _ Hi). unfold DYN_DNS_MAX_NAME, DYN_DNS_MAX_LABEL in *. destruct (decide (t = [])) as [->|]; cbn [length] in *; lia. }
    destruct (IH _ _ (Hi' (pos s + (1 + length l))%nat (ret s) (limit s)) eq_refl eq_refl Hmax) as (fuel & r & o & Hrun & Hr).
    exists (S fuel), r, o. split; [|done]. cbn [turns].
    assert (name_turn msg s = inl (mk_name (pos s + (1 + length l)) (total s + length (if negb (total s =? 0)%nat then [ch "."%char] else []) + length l) (ret s) (limit s) out)) as ->; [|done].
    unfold name_turn. rewrite (proj2 (Nat.leb_gt _ _)), E1 by lia.
    destruct (ptr_byte (Z.of_nat (length l))) as (-> & -> & _); [unfold fits, DYN_DNS_MAX_LABEL in *; lia|]. unfold DYN_DNS_MAX_LABEL in *.
    rewrite (proj2 (Z.leb_gt _ _)), (proj2 (Z.ltb_lt _ _)), (proj2 (Z.eqb_neq _ _)), (proj2 (Z.ltb_ge _ _)) by lia. cbn [negb]. rewrite Nat2Z.id.
    rewrite (ni_len _ _ _ Hi), !(proj2 (Nat.ltb_ge _ _)) by (unfold DYN_DNS_MAX_NAME in *; lia). rewrite aslice_in by lia. cbn [mbind option_bind]. by rewrite Etake, Eput.
  - apply lookup_lt_Some in E2 as Hlt. assert (Hd : fits 8 d) by (by apply (proj1 (Forall_lookup _ _) Hm _ _ E2)). unfold fits in Hd.
    set (r' := if ret s <? 0 then i32 (Z.of_nat (pos s + 2)) else ret s).
    destruct (IH t (mk_name target (total s) r' target (nout s))) as (fuel & r & o & Hrun & Hr); [destruct Hi; by split|done..|].
    exists (S fuel), r, o. split.
    + cbn [turns]. assert (name_turn msg s = inl (mk_name target (total s) r' target (nout s))) as ->; [|done].
      unfold name_turn. rewrite (proj2 (Nat.leb_gt _ _)), E1 by lia.
      destruct (ptr_byte (0xc0 + c)) as (-> & _); [unfold fits; lia|]. rewrite (proj2 (Z.leb_le _ _)), (proj2 (Nat.leb_gt _ _)), E2 by lia.
      rewrite ptr_target by (unfold fits; lia). replace ((0xc0 + c) `mod` 64) with c by zdm. rewrite <- Htgt.
      rewrite (proj2 (Nat.leb_gt _ _)), (proj2 (Nat.ltb_ge _ _)) by lia. done.
    + rewrite Hr. unfold start_of, r'. cbn [ret]. destruct (Z.ltb_spec (ret s) 0); [|by rewrite (proj2 (Z.ltb_ge _ _)) by lia].
      rewrite swrap_id by (unfold sfits; lia). by rewrite (proj2 (Z.ltb_ge _ _)) by lia.
Qed.

(** The decoder and the grammar, from the start of a name. *)
Lemma decode_iff msg off out r out' : is_bytes msg -> Z.of_nat (length msg) < 2 ^ 31 -> (DYN_DNS_MAX_NAME < length out)%nat -> 0 <= r ->
  dyn_dns_name_decode msg off out = Some (r, out') <->
  exists ls, name_at msg off off ls (Z.to_nat r) /\ (length (text ls) <= DYN_DNS_MAX_NAME)%nat /\ out' = text ls ++ 0 :: drop (S (length (text ls))) out.
Proof.
  intros Hm Hlen Hcap Hr. unfold dyn_dns_name_decode, text. rewrite (proj2 (Nat.eqb_neq _ _)) by lia. rewrite put_spec by (cbn; lia).
  change (take 0 out ++ [0] ++ drop (0 + length [0]) out) with (0 :: drop 1 out). cbn [mbind option_bind].
  set (s := mk_name off 0 (-1) off (0 :: drop 1 out)). assert (Hi : name_inv out [] s) by (split; cbn; [done|done|lia]).
  assert (Hsound : forall r out', 0 <= r -> turns (name_turn msg) (off + 257) s = Some (Some (r, out')) ->
    exists ls, name_at msg off off ls (Z.to_nat r) /\ (length (fold_left add_label ls []) <= DYN_DNS_MAX_NAME)%nat /\
      out' = fold_left add_label ls [] ++ 0 :: drop (S (length (fold_left add_label ls []))) out).
  { intros r1 out1 Hr1 Hrun. destruct (name_sound msg out _ s [] r1 out1 Hm Hlen Hi ltac:(cbn; lia) Hrun Hr1) as (ls & fin & Hat & Hle & Er & Hinv).
    exists ls. unfold start_of in Er. cbn in Er. rewrite Er, Nat2Z.id. split_and!; [done..|]. apply Hinv. }
  split.
  - intros Hrun. destruct (turns (name_turn msg) (off + 257) s) as [o|] eqn:Et; [|done]. cbn [mbind option_bind] in Hrun. subst o. by apply Hsound.
  - intros (ls & Hat & Hle & ->). destruct (name_complete msg out off off ls (Z.to_nat r) Hm Hlen Hcap Hat [] s Hi eq_refl eq_refl Hle) as (fuel & r1 & o1 & Hrun & Er1).
    unfold start_of in Er1. cbn in Er1. rewrite Z2Nat.id in Er1 by done. subst r1.
    destruct (decode_ends msg off out Hm) as (r2 & o2 & Hrun2 & _); [lia|]. fold s in Hrun2.
    assert (Some (r, o1) = Some (r2, o2)) as [= <- <-].
    { destruct (Nat.le_ge_cases fuel (off + 257)) as [Hf|Hf].
      - apply (turns_mono _ _ _ _ _ Hf) in Hrun. rewrite Hrun in Hrun2. by apply (inj Some) in Hrun2.
      - apply (turns_mono _ _ _ _ _ Hf) in Hrun2. rewrite Hrun in Hrun2. by apply (inj Some) in Hrun2. }
    rewrite Hrun2. cbn [mbind option_bind]. do 2 f_equal. destruct (Hsound r o1 Hr Hrun2) as (ls2 & Hat2 & _ & ->).
    by rewrite (name_at_det _ _ _ _ _ _ _ Hat2 Hat).
Qed.

(** ** The encoder *)

(** Labels on the wire. *)
Definition wire (ls : list bytes) : bytes := (ls ≫= fun l => Z.of_nat (length l) :: l) ++ [0].
Definition label_ok (l : bytes) : Prop := 0 < Z.of_nat (length l) <= DYN_DNS_MAX_LABEL.

Lemma wire_cons l ls : wire (l :: ls) = (Z.of_nat (length l) :: l) ++ wire ls.
Proof. unfold wire. cbn. by rewrite <- app_assoc. Qed.

Lemma name_at_wire pre ls post lim : Forall label_ok ls ->
  name_at (pre ++ wire ls ++ post) lim (length pre) ls (length pre + length (wire ls)).
Proof.
  intros Hls. revert pre. induction Hls as [|l ls Hl Hls IH]; intros pre.
  - cbn. constructor. by rewrite list_lookup_middle.
  - rewrite wire_cons, <- app_assoc. cbn [app]. apply name_label; [by rewrite list_lookup_middle|done| |].
    + rewrite drop_app_add. cbn [drop]. by rewrite drop_0, take_app_length.
    + specialize (IH (pre ++ Z.of_nat (length l) :: l)). rewrite <- app_assoc in IH. cbn [app] in IH.
      rewrite length_app in IH. cbn [length] in *. rewrite length_app.
      replace (length pre + S (length l))%nat with (length pre + (1 + length l))%nat in IH by lia.
      replace (length pre + S (length l + length (wire ls)))%nat with (length pre + (1 + length l) + length (wire ls))%nat by lia. done.
Qed.

(** The text of a string without its final dot. *)
Definition spells (name : bytes) (ls : list bytes) : Prop := name = text ls \/ name = text ls ++ [ch "."%char].

Lemma span_label_spec name l rest : span_label name = (l, rest) -> name = l ++ rest /\ (rest = [] \/ exists rest', rest = ch "."%char :: rest').
Proof.
  revert l rest. induction name as [|c name IH]; intros l rest; cbn [span_label]; [intros [= <- <-]; split; [done|by left]|].
  destruct (Z.eqb_spec c (ch "."%char)) as [->|]; [intros [= <- <-]; split; [done|right; by eexists]|].
  destruct (span_label name) as [l' rest']. intros [= <- <-]. destruct (IH l' rest' eq_refl) as [-> Hr]. by split.
Qed.

Lemma text_prefix u l ls : l <> [] -> fold_left add_label ls (u ++ l) = u ++ fold_left add_label ls l.
Proof.
  revert l. induction ls as [|k ls IH]; intros l Hl; [done|]. cbn [fold_left]. destruct l as [|c l]; [done|].
  assert (add_label (u ++ c :: l) k = u ++ add_label (c :: l) k) as ->; [|by apply IH].
  destruct u; cbn [add_label app]; [done|]. by rewrite <- app_assoc.
Qed.

Lemma text_cons l k ls : l <> [] -> k <> [] -> text (l :: k :: ls) = l ++ ch "."%char :: text (k :: ls).
Proof.
  intros Hl Hk. unfold text. cbn [fold_left]. change (add_label [] l) with l. change (add_label [] k) with k.
  replace (add_label l k) with ((l ++ [ch "."%char]) ++ k) by (destruct l; [done|]; cbn [add_label app]; by rewrite <- app_assoc).
  rewrite text_prefix by done. by rewrite <- app_assoc.
Qed.

Lemma label_ok_nil l : label_ok l -> l <> [].
Proof. intros [? _] ->. cbn in *. lia. Qed.

(** A label in front of what another string spells. *)
Lemma spells_cons l name ls : label_ok l -> Forall label_ok ls -> spells name ls -> (name <> [] -> ls <> []) -> spells (l ++ ch "."%char :: name) (l :: ls).
Proof.
  intros Hl Hls Hs Hne. apply label_ok_nil in Hl. destruct ls as [|k ls].
  - right. assert (name = []) as -> by (destruct name; [done|]; by destruct Hne). done.
  - inversion Hls as [|? ? Hk _]; subst. apply label_ok_nil in Hk. unfold spells. rewrite text_cons by done.
    destruct Hs as [-> | ->]; [by left|right]. by rewrite <- app_assoc.
Qed.

(** What encoding the rest [name] of a string promises. *)
Definition encoded (name pre old : bytes) (res : option (Z * bytes)) : Prop := exists r out, res = Some (r, out) /\
  length out = length (pre ++ old) /\
  (0 <= r -> exists ls, spells name ls /\ (name <> [] -> ls <> []) /\ Forall label_ok ls /\ (length pre + length (wire ls) <= length (pre ++ old))%nat /\
    (name <> [] -> (length pre + length (wire ls) <= DYN_DNS_MAX_NAME)%nat) /\
    out = pre ++ wire ls ++ drop (length (wire ls)) old /\ r = i32 (Z.of_nat (length pre + length (wire ls)))).

Lemma encode_end fuel pre old : encoded [] pre old (encode_loop fuel [] (length pre) (pre ++ old)).
Proof.
  assert (encode_loop fuel [] (length pre) (pre ++ old) = if (length (pre ++ old) <? length pre + 1)%nat then Some (DYN_DNS_E_SHORT, pre ++ old) else
      out ← put (pre ++ old) (length pre) [0]; Some (i32 (Z.of_nat (length pre + 1)), out)) as -> by (by destruct fuel).
  destruct (Nat.ltb_spec (length (pre ++ old)) (length pre + 1)) as [|Hl]; [by eexists _, _|]. rewrite length_app in Hl.
  rewrite put_after by (cbn; lia). eexists _, _. split; [done|]. split; [rewrite !length_app, length_drop; cbn; lia|].
  intros _. exists []. split; [by left|]. split; [done|]. split; [constructor|]. split; [rewrite length_app; cbn; lia|]. split; [done|]. by split.
Qed.

Lemma encode_spec fuel name pre old : (length name <= fuel)%nat -> encoded name pre old (encode_loop fuel name (length pre) (pre ++ old)).
Proof.
  revert name pre old. induction fuel as [|fuel IH]; intros name pre old Hf; (destruct name as [|c name]; [|]); cbn [length] in Hf; try lia.
  1,2: by apply (encode_end _ pre old).
  remember (c :: name) as nm eqn:Enm. assert (Hnm : nm <> []) by (by rewrite Enm).
  assert (encode_loop (S fuel) nm (length pre) (pre ++ old) = let '(lbl, rest) := span_label nm in
          if (length lbl =? 0)%nat then Some (DYN_DNS_E_FORMAT, pre ++ old)
          else if DYN_DNS_MAX_LABEL <? Z.of_nat (length lbl) then Some (DYN_DNS_E_NAME, pre ++ old)
          else if (length (pre ++ old) <? length pre + 1 + length lbl + 1)%nat then Some (DYN_DNS_E_SHORT, pre ++ old)
          else if (DYN_DNS_MAX_NAME <? length pre + 1 + length lbl + 1)%nat then Some (DYN_DNS_E_NAME, pre ++ old)
          else out ← put (pre ++ old) (length pre) (u8 (Z.of_nat (length lbl)) :: lbl); encode_loop fuel (tl rest) (length pre + 1 + length lbl) out) as ->
    by (by rewrite Enm).
  destruct (span_label nm) as [l rest] eqn:Esp. apply span_label_spec in Esp as [En Hrest].
  destruct (Nat.eqb_spec (length l) 0); [by eexists _, _|]. unfold DYN_DNS_MAX_LABEL. destruct (Z.ltb_spec 63 (Z.of_nat (length l))); [by eexists _, _|].
  destruct (Nat.ltb_spec (length (pre ++ old)) (length pre + 1 + length l + 1)) as [|Hcap]; [by eexists _, _|].
  destruct (Nat.ltb_spec DYN_DNS_MAX_NAME (length pre + 1 + length l + 1)) as [|Hmax]; [by eexists _, _|].
  rewrite wrap_id by (unfold fits; lia). set (w := Z.of_nat (length l) :: l). rewrite length_app in Hcap.
  rewrite put_after by (unfold w; cbn; lia). cbn [mbind option_bind]. rewrite app_assoc.
  replace (length pre + 1 + length l)%nat with (length (pre ++ w)) by (rewrite length_app; unfold w; cbn; lia).
  assert (Hlen : (length (tl rest) <= fuel)%nat).
  { assert (Hnl : length nm = S (length name)) by (by rewrite Enm). rewrite En, length_app in Hnl. destruct Hrest as [->|[rest' ->]]; cbn in *; lia. }
  destruct (IH (tl rest) (pre ++ w) (drop (length w) old) Hlen) as (r & out & -> & Hout & Hres). exists r, out. split; [done|].
  assert (Eold : length ((pre ++ w) ++ drop (length w) old) = length (pre ++ old)).
  { rewrite !length_app, length_drop. unfold w. cbn [length]. lia. }
  split; [by rewrite Hout|]. intros Hr. destruct (Hres Hr) as (ls & Hsp & Hne & Hok & Hfit & Hfit2 & -> & ->). rewrite Eold in Hfit.
  assert (Hl : label_ok l) by (unfold label_ok, DYN_DNS_MAX_LABEL; lia). rewrite length_app in Hfit, Hfit2.
  exists (l :: ls). rewrite wire_cons. fold w. rewrite (length_app w (wire ls)). split_and!.
  - rewrite En. destruct Hrest as [->|[rest' ->]]; [|by apply spells_cons]. cbn [tl] in *. rewrite app_nil_r. destruct ls as [|k ls]; [by left|].
    exfalso. assert (Hs : [] <> text (k :: ls)).
    { inversion Hok as [|? ? Hk _]; subst. apply label_ok_nil in Hk. pose proof (text_grows ls k) as Hg. unfold text. cbn [fold_left]. change (add_label [] k) with k.
      intros Heq. rewrite <- Heq in Hg. destruct k; cbn in *; [done|lia]. }
    destruct Hsp as [Hsp|Hsp]; [done|]. by destruct (text (k :: ls)).
  - done.
  - by constructor.
  - lia.
  - intros _. destruct (tl rest) as [|x rs] eqn:Etl; [|rewrite Nat.add_assoc; by apply Hfit2].
    assert (ls = []) as ->; [|cbn; unfold w; cbn [length]; lia]. destruct ls as [|k ls]; [done|]. exfalso.
    inversion Hok as [|? ? Hk _]; subst. apply label_ok_nil in Hk. pose proof (text_grows ls k) as Hg. unfold spells, text in Hsp. cbn [fold_left] in Hsp.
    change (add_label [] k) with k in Hsp. destruct Hsp as [Hsp|Hsp]; apply (f_equal length) in Hsp; rewrite ?length_app in Hsp; cbn in Hsp; destruct k; cbn in *; (done || lia).
  - rewrite <- !app_assoc. do 3 f_equal. rewrite drop_drop. done.
  - do 2 f_equal. rewrite length_app. lia.
Qed.

(** ** Fields *)

Lemma put16_bytes x : is_bytes (put16 x).
Proof. repeat constructor; apply wrap_fits; lia. Qed.

Lemma be16_put x : fits 16 x -> be16 (u8 (x >> 8)) (u8 x) = x.
Proof.
  intros Hx. unfold be16. rewrite Z.lor_comm, lor_shiftl_add by (lia || apply wrap_fits; lia). unfold wrap, fits in *. rewrite Z.shiftr_div_pow2 by lia. zdm.
Qed.

(** A field at the place it was written. *)
Lemma get16_put pre x post : fits 16 x -> get16 (pre ++ put16 x ++ post) (length pre) = Some x.
Proof.
  intros Hx. unfold get16, put16. cbn [app]. rewrite (list_lookup_middle pre _ _ (length pre)) by done. cbn [mbind option_bind].
  rewrite lookup_app_r by lia. replace (length pre + 1 - length pre)%nat with 1%nat by lia. cbn [lookup list_lookup mbind option_bind]. by rewrite be16_put.
Qed.

Lemma get16_at msg i x : take 2 (drop i msg) = put16 x -> fits 16 x -> get16 msg i = Some x.
Proof.
  intros Hs Hx. assert (Hl : forall j, (j < 2)%nat -> msg !! (i + j)%nat = put16 x !! j).
  { intros j Hj. rewrite <- Hs, lookup_take_lt, lookup_drop by done. done. }
  unfold get16. rewrite <- (Nat.add_0_r i) at 1. rewrite !Hl by lia. cbn. by rewrite be16_put.
Qed.

Lemma get16_total msg i : is_bytes msg -> (i + 2 <= length msg)%nat -> exists x, get16 msg i = Some x /\ fits 16 x.
Proof.
  intros Hm Hi. destruct (lookup_lt_is_Some_2 msg i) as [a Ea]; [lia|]. destruct (lookup_lt_is_Some_2 msg (i + 1)) as [b Eb]; [lia|].
  exists (be16 a b). unfold get16. rewrite Ea, Eb. split; [done|]. apply wrap_fits. lia.
Qed.

Definition put32 (x : Z) : bytes := [u8 (x >> 24); u8 (x >> 16); u8 (x >> 8); u8 x].

Lemma be32_bytes a b c d : fits 8 a -> fits 8 b -> fits 8 c -> fits 8 d ->
  (u32 a << 24) .| (u32 b << 16) .| (u32 c << 8) .| u32 d = a * 2 ^ 24 + b * 2 ^ 16 + c * 2 ^ 8 + d.
Proof.
  intros Ha Hb Hc Hd. unfold fits in *. rewrite !(wrap_id 32) by (unfold fits; lia).
  rewrite (Z.lor_comm _ d), (Z.lor_comm _ (c << 8)), (Z.lor_comm _ (b << 16)), !Z.lor_assoc.
  rewrite (lor_shiftl_add d c 8), (lor_shiftl_add _ b 16), (lor_shiftl_add _ a 24) by (unfold fits; lia). lia.
Qed.

Lemma get32_total msg i : is_bytes msg -> (i + 4 <= length msg)%nat -> exists x, get32 msg i = Some x /\ fits 32 x.
Proof.
  intros Hm Hi. destruct (lookup_lt_is_Some_2 msg i) as [a Ea]; [lia|]. destruct (lookup_lt_is_Some_2 msg (i + 1)) as [b Eb]; [lia|].
  destruct (lookup_lt_is_Some_2 msg (i + 2)) as [c Ec]; [lia|]. destruct (lookup_lt_is_Some_2 msg (i + 3)) as [d Ed]; [lia|].
  unfold get32. rewrite Ea, Eb, Ec, Ed. eexists. split; [done|].
  assert (Hf : forall j x, msg !! j = Some x -> fits 8 x) by (intros j x Hx; by apply (proj1 (Forall_lookup _ _) Hm _ _ Hx)).
  apply Hf in Ea, Eb, Ec, Ed. rewrite be32_bytes by done. unfold fits in *. lia.
Qed.

Lemma get32_put pre x post : fits 32 x -> get32 (pre ++ put32 x ++ post) (length pre) = Some x.
Proof.
  intros Hx. unfold get32, put32. cbn [app]. rewrite (list_lookup_middle pre _ _ (length pre)) by done. cbn [mbind option_bind].
  rewrite !(lookup_app_r pre) by lia. replace (length pre + 1 - length pre)%nat with 1%nat by lia.
  replace (length pre + 2 - length pre)%nat with 2%nat by lia. replace (length pre + 3 - length pre)%nat with 3%nat by lia.
  cbn [lookup list_lookup mbind option_bind]. rewrite be32_bytes by (apply wrap_fits; lia). f_equal. unfold wrap, fits in *.
  rewrite !Z.shiftr_div_pow2 by lia. zdm.
Qed.

Lemma high_bit x : fits 32 x -> negb ((x & 0x80000000) =? 0) = (2 ^ 31 <=? x).
Proof.
  intros Hx. assert (E : x & 0x80000000 = if 2 ^ 31 <=? x then 2 ^ 31 else 0).
  { apply Z.bits_inj'. intros i Hi. rewrite Z.land_spec. change 0x80000000 with (2 ^ 31). rewrite Z.pow2_bits_eqb by lia.
    destruct (Z.eqb_spec 31 i) as [<-|Hne].
    - rewrite andb_true_r, Z.testbit_odd, Z.shiftr_div_pow2 by lia. unfold fits in Hx. destruct (Z.leb_spec (2 ^ 31) x).
      + replace (x / 2 ^ 31) with 1 by zdm. done.
      + replace (x / 2 ^ 31) with 0 by zdm. done.
    - rewrite andb_false_r. destruct (2 ^ 31 <=? x); [|by rewrite Z.bits_0]. rewrite Z.pow2_bits_eqb by lia. symmetry. by apply Z.eqb_neq. }
  rewrite E. by destruct (2 ^ 31 <=? x).
Qed.

(** A name in one piece is the same name in any message with these bytes. *)
Lemma name_at_copy msg msg' lim' p ls fin : name_at msg DYN_DNS_HDR_LEN p ls fin -> (forall i, (p <= i < fin)%nat -> msg' !! i = msg !! i) ->
  name_at msg' lim' p ls fin /\ (p < fin)%nat.
Proof.
  remember DYN_DNS_HDR_LEN as lim eqn:El. intros Hat. induction Hat as [lim p E0|lim p l ls fin E1 Hl Etake Hat IH|lim p c d target ls fin E1 E2 Hc Htgt Hlim Hat IH]; intros Hsame.
  - split; [|lia]. constructor. rewrite Hsame by lia. done.
  - destruct IH as [IH Hlt]; [done|intros i Hi; apply Hsame; lia|]. split; [|lia]. apply name_label; try done.
    + rewrite Hsame by lia. done.
    + rewrite <- Etake at 2. apply list_eq. intros i. destruct (decide (i < length l)%nat); [|by rewrite !lookup_take_ge by lia].
      rewrite !lookup_take_lt, !lookup_drop by lia. apply Hsame. lia.
  - lia.
Qed.

(** ** Queries *)

Definition header (h : dyn_dns_hdr_t) : bytes :=
  put16 (id h) ++ put16 (flags h) ++ put16 (qdcount h) ++ put16 (ancount h) ++ put16 (nscount h) ++ put16 (arcount h).
Definition hdr_fits (h : dyn_dns_hdr_t) : Prop :=
  fits 16 (id h) /\ fits 16 (flags h) /\ fits 16 (qdcount h) /\ fits 16 (ancount h) /\ fits 16 (nscount h) /\ fits 16 (arcount h).

Lemma hdr_bytes h : is_bytes (header h).
Proof. unfold header. repeat (apply Forall_app; split); apply put16_bytes. Qed.

Lemma hdr_encode_spec h out : (DYN_DNS_HDR_LEN <= length out)%nat ->
  dyn_dns_hdr_encode h out = Some (Z.of_nat DYN_DNS_HDR_LEN, header h ++ drop DYN_DNS_HDR_LEN out).
Proof.
  intros Hl. unfold dyn_dns_hdr_encode. rewrite (proj2 (Nat.ltb_ge _ _)) by done. fold (header h).
  rewrite put_spec by (cbn; unfold DYN_DNS_HDR_LEN in *; lia). done.
Qed.

Lemma hdr_decode_spec h rest : hdr_fits h -> dyn_dns_hdr_decode (header h ++ rest) = Some (DYN_DNS_OK, Some h).
Proof.
  intros (H1 & H2 & H3 & H4 & H5 & H6). unfold dyn_dns_hdr_decode. rewrite (proj2 (Nat.ltb_ge _ _)) by (rewrite length_app; cbn; unfold DYN_DNS_HDR_LEN; lia).
  rewrite (get16_at _ 0 (id h)), (get16_at _ 2 (flags h)), (get16_at _ 4 (qdcount h)), (get16_at _ 6 (ancount h)), (get16_at _ 8 (nscount h)),
    (get16_at _ 10 (arcount h)) by done.
  by destruct h.
Qed.

Lemma hdr_decode_fits msg r h : dyn_dns_hdr_decode msg = Some (r, Some h) -> hdr_fits h.
Proof.
  unfold dyn_dns_hdr_decode, get16. destruct (length msg <? DYN_DNS_HDR_LEN)%nat; [done|]. intros Hd.
  repeat match type of Hd with context [msg !! ?i] => destruct (msg !! i); cbn [mbind option_bind] in Hd; [|done] end. injection Hd as _ <-.
  by split_and!; apply wrap_fits.
Qed.

(** A query is a header and a question. *)
Lemma build_query_spec qid name ty out n out' : Z.of_nat (length out) < 2 ^ 31 -> dyn_dns_build_query qid name ty out = Some (n, out') -> 0 <= n ->
  exists ls rest, spells name ls /\ Forall label_ok ls /\ (length (wire ls) <= DYN_DNS_MAX_NAME)%nat /\
    out' = (header (mk_hdr qid 0x0100 1 0 0 0) ++ wire ls ++ put16 ty ++ [0; DYN_DNS_C_IN]) ++ rest /\
    n = Z.of_nat (12 + length (wire ls) + 4).
Proof.
  intros Hlen Hrun Hn. unfold dyn_dns_build_query in Hrun. set (h := mk_hdr qid 0x0100 1 0 0 0) in *.
  destruct (Nat.lt_ge_cases (length out) DYN_DNS_HDR_LEN) as [Hs|Hs].
  { unfold dyn_dns_hdr_encode in Hrun. rewrite (proj2 (Nat.ltb_lt _ _)) in Hrun by done. cbn in Hrun. injection Hrun as <- _. by destruct Hn. }
  rewrite (hdr_encode_spec h out Hs) in Hrun. cbn [mbind option_bind] in Hrun. rewrite (proj2 (Z.ltb_ge _ _)) in Hrun by lia.
  assert (Hh : length (header h) = DYN_DNS_HDR_LEN) by done. set (old := drop DYN_DNS_HDR_LEN out) in *.
  assert (Ed : drop DYN_DNS_HDR_LEN (header h ++ old) = old) by done. assert (Et : take DYN_DNS_HDR_LEN (header h ++ old) = header h) by done.
  rewrite Ed, Et in Hrun. unfold dyn_dns_name_encode in Hrun. clear Ed Et.
  destruct (encode_spec (length name) name [] old ltac:(done)) as (r & sub & E & Hsub & Hres). cbn [length app] in *. rewrite E in Hrun. cbn [mbind option_bind] in Hrun.
  destruct (Z.ltb_spec r 0) as [|Hr]; [injection Hrun as <- _; lia|]. destruct (Hres Hr) as (ls & Hsp & Hne & Hok & Hcap & Hmax & -> & Er).
  assert (Hold : length old = (length out - DYN_DNS_HDR_LEN)%nat) by (unfold old; by rewrite length_drop). cbn [Nat.add] in *.
  rewrite swrap_id in Er by (unfold sfits; lia). subst r. rewrite Nat2Z.id in Hrun.
  assert (Hw : (length (wire ls) <= DYN_DNS_MAX_NAME)%nat).
  { destruct name; [|by apply Hmax]. destruct Hsp as [Hsp|Hsp]; destruct ls as [|k ls]; try done; try (cbn; unfold DYN_DNS_MAX_NAME; lia).
    - inversion Hok as [|? ? Hk _]; subst. apply label_ok_nil in Hk. pose proof (text_grows ls k) as Hg. unfold text in Hsp. cbn [fold_left] in Hsp.
      change (add_label [] k) with k in Hsp. rewrite <- Hsp in Hg. destruct k; cbn in *; [done|lia].
    - by destruct (text (k :: ls)). }
  destruct (Nat.ltb_spec (length (header h ++ wire ls ++ drop (length (wire ls)) old)) (DYN_DNS_HDR_LEN + length (wire ls) + 4)) as [|Hfit];
    [injection Hrun as <- _; by destruct Hn|].
  rewrite app_assoc in Hrun, Hfit. rewrite length_app in Hfit. replace (DYN_DNS_HDR_LEN + length (wire ls))%nat with (length (header h ++ wire ls)) in Hrun, Hfit by (by rewrite length_app).
  rewrite put_after in Hrun by (cbn [length app put16]; lia). cbn [mbind option_bind] in Hrun. injection Hrun as <- <-.
  exists ls. eexists. split_and!; try done.
  - rewrite <- !app_assoc. done.
  - rewrite swrap_id.
    + rewrite ?length_app, ?Hh. unfold DYN_DNS_HDR_LEN. lia.
    + lia.
    + unfold sfits. rewrite ?length_drop, ?length_app, ?Hh in *. unfold DYN_DNS_HDR_LEN in *. lia.
Qed.

Lemma wire_bytes ls : Forall label_ok ls -> Forall (fun l => is_bytes l) ls -> is_bytes (wire ls).
Proof.
  intros Hok Hb. unfold wire. apply Forall_app. split; [|by repeat constructor]. induction Hb as [|l ls Hl Hls IH]; [constructor|]. inversion Hok as [|? ? Hlo Hok']; subst.
  cbn. constructor; [unfold label_ok, DYN_DNS_MAX_LABEL in Hlo; unfold fits; lia|]. apply Forall_app. split; [done|]. by apply IH.
Qed.

Lemma text_wire ls : Forall label_ok ls -> (length (text ls) <= length (wire ls))%nat.
Proof.
  intros Hok. assert (Hg : forall t, (length (fold_left add_label ls t) <= length t + length (wire ls))%nat); [|apply (Hg [])].
  induction Hok as [|l ls Hl Hls IH]; intros t; [cbn; lia|]. cbn [fold_left]. rewrite wire_cons, length_app. cbn [length]. specialize (IH (add_label t l)).
  rewrite add_label_len in IH. destruct (decide (t = [])); lia.
Qed.

Lemma text_bytes_labels name ls : is_bytes name -> spells name ls -> Forall label_ok ls -> Forall (fun l => is_bytes l) ls.
Proof.
  intros Hb Hs Hok. assert (Ht : is_bytes (text ls)) by (destruct Hs as [->| ->]; [done|by apply Forall_app in Hb as [? _]]). clear Hs Hb.
  induction Hok as [|l ls Hl Hls IH]; [constructor|]. destruct ls as [|k ls]; [by repeat constructor|].
  inversion Hls as [|? ? Hk _]; subst. rewrite text_cons in Ht by (by apply label_ok_nil). apply Forall_app in Ht as [H1 H2]. inversion H2; subst.
  constructor; [done|]. by apply IH.
Qed.

(** ** Responses *)

Lemma scratch_room : (DYN_DNS_MAX_NAME < length scratch)%nat.
Proof. unfold scratch. rewrite length_replicate. lia. Qed.

(** A decoded name as the callers see it. *)
Definition name_buf (ls : list bytes) : bytes := text ls ++ 0 :: drop (S (length (text ls))) scratch.

Lemma begin_response_spec q rcode out n out1 : is_bytes q -> Z.of_nat (length q) < 2 ^ 31 -> Z.of_nat (length out) < 2 ^ 31 ->
  dyn_dns_begin_response q rcode out = Some (n, out1) -> 0 <= n ->
  exists ls after h, name_at q DYN_DNS_HDR_LEN DYN_DNS_HDR_LEN ls after /\ (length (text ls) <= DYN_DNS_MAX_NAME)%nat /\
    (DYN_DNS_HDR_LEN < after)%nat /\ (after + 4 <= length q)%nat /\ (after + 4 <= length out)%nat /\ n = Z.of_nat (after + 4) /\
    dyn_dns_hdr_decode q = Some (DYN_DNS_OK, Some h) /\ qdcount h = 1 /\
    out1 = (header (mk_hdr (id h) (u16 ((flags h & 0x0100) .| 0x8000 .| 0x0080 .| (rcode & 0x0f))) 1 0 0 0) ++ take (after + 4 - 12) (drop 12 q)) ++ drop (after + 4) out.
Proof.
  intros Hq Hlq Hlo Hrun Hn. unfold dyn_dns_begin_response in Hrun.
  destruct (Nat.ltb_spec (length q) DYN_DNS_HDR_LEN); [injection Hrun as <- _; by destruct Hn|].
  destruct (dyn_dns_hdr_decode q) as [[r h]|] eqn:Eh; [|done]. cbn [mbind option_bind] in Hrun.
  destruct (Z.ltb_spec r 0); [injection Hrun as <- _; by destruct Hn|]. destruct h as [h|]; [|done]. cbn [mbind option_bind] in Hrun.
  assert (r = DYN_DNS_OK) as ->.
  { unfold dyn_dns_hdr_decode in Eh. rewrite (proj2 (Nat.ltb_ge _ _)) in Eh by done. 
    repeat match type of Eh with context [get16 q ?i] => destruct (get16 q i); cbn [mbind option_bind] in Eh; [|done] end. by injection Eh as <- _. }
  destruct (Z.eqb_spec (qdcount h) 1) as [Hqd|]; cbn [negb] in Hrun; [|injection Hrun as <- _; by destruct Hn].
  destruct (dyn_dns_name_decode q DYN_DNS_HDR_LEN scratch) as [[after nm]|] eqn:Ed; [|done]. cbn [mbind option_bind] in Hrun.
  destruct (Z.ltb_spec after 0) as [|Ha]; [injection Hrun as <- _; lia|].
  destruct (proj1 (decode_iff q DYN_DNS_HDR_LEN scratch after nm Hq Hlq scratch_room Ha) Ed) as (ls & Hat & Hmax & _).
  set (e := Z.to_nat after) in *.
  destruct (name_at_copy q q DYN_DNS_HDR_LEN _ ls e Hat) as [_ Hlt]; [done|].
  destruct (Nat.ltb_spec (length q) (e + 4)); [injection Hrun as <- _; by destruct Hn|]. cbv zeta in Hrun.
  unfold DYN_DNS_HDR_LEN in *. destruct (Nat.ltb_spec (length out) (12 + (e + 4 - 12))); [injection Hrun as <- _; by destruct Hn|].
  rewrite hdr_encode_spec in Hrun by (unfold DYN_DNS_HDR_LEN; lia). cbn [mbind option_bind] in Hrun. unfold DYN_DNS_HDR_LEN in Hrun.
  rewrite (proj2 (Z.ltb_ge _ _)) in Hrun by lia. rewrite Hqd in Hrun. set (hb := header _) in Hrun.
  rewrite aslice_in in Hrun by lia. cbn [mbind option_bind] in Hrun.
  pose proof (put_after hb (drop 12 out) (take (e + 4 - 12) (drop 12 q)) ltac:(rewrite length_take, !length_drop; lia)) as Eput.
  change (length hb) with 12%nat in Eput. rewrite Eput in Hrun. cbn [mbind option_bind] in Hrun.
  injection Hrun as <- <-. exists ls, e, h. split_and!; try done; try lia.
  - rewrite swrap_id by (unfold sfits; lia). f_equal. lia.
  - assert (Hlt2 : length (take (e + 4 - 12) (drop 12 q)) = (e + 4 - 12)%nat) by (rewrite length_take, length_drop; lia). rewrite Hlt2, drop_drop.
    replace (12 + (e + 4 - 12))%nat with (e + 4)%nat by lia. by rewrite <- app_assoc.
Qed.

Definition answer (ty l : Z) (addr : bytes) : bytes :=
  [0xc0; 12] ++ put16 ty ++ [0; DYN_DNS_C_IN] ++ put32 l ++ put16 (Z.of_nat (length addr)) ++ addr.

Lemma answer_len ty l addr : length (answer ty l addr) = (12 + length addr)%nat.
Proof. done. Qed.

Lemma add_answer_spec pre old ty l addr n out : Z.of_nat (length (pre ++ old)) < 2 ^ 31 -> 
  dyn_dns_add_answer (pre ++ old) (length pre) ty l addr = Some (n, out) -> 0 <= n ->
  n = Z.of_nat (length pre + length (answer ty l addr)) /\ (length (pre ++ answer ty l addr) <= length (pre ++ old))%nat /\ exists rest, out = (pre ++ answer ty l addr) ++ rest.
Proof.
  intros Hlen Hrun Hn. unfold dyn_dns_add_answer in Hrun. rewrite length_app in *.
  destruct (Nat.ltb_spec (length pre + length old) (length pre + 12 + length addr)); [injection Hrun as <- _; by destruct Hn|].
  change ([0xc0; Z.of_nat DYN_DNS_HDR_LEN] ++ put16 ty ++ [0; DYN_DNS_C_IN] ++ [u8 (l >> 24); u8 (l >> 16); u8 (l >> 8); u8 l] ++ put16 (Z.of_nat (length addr)) ++ addr)
    with (answer ty l addr) in Hrun. rewrite put_after in Hrun by (rewrite answer_len; lia). cbn [mbind option_bind] in Hrun. injection Hrun as <- <-.
  rewrite length_app, answer_len, swrap_id by (unfold sfits; lia). split; [lia|]. split; [lia|]. eexists. by rewrite <- app_assoc.
Qed.

(** The record at the end of a message that starts with a name in one piece. *)
Lemma answer_decode pre ls after ty l addr : is_bytes pre -> is_bytes addr -> Z.of_nat (length (pre ++ answer ty l addr)) < 2 ^ 31 ->
  (12 < length pre)%nat -> name_at pre DYN_DNS_HDR_LEN DYN_DNS_HDR_LEN ls after -> (after <= length pre)%nat -> (length (text ls) <= DYN_DNS_MAX_NAME)%nat ->
  fits 16 ty -> fits 31 l -> fits 16 (Z.of_nat (length addr)) ->
  dyn_dns_rr_decode (pre ++ answer ty l addr) (length pre) =
    Some (DYN_DNS_OK, (length pre + length (answer ty l addr))%nat, Some (mk_rr (name_buf ls) ty DYN_DNS_C_IN l (length pre + 12) (Z.of_nat (length addr)))).
Proof.
  intros Hp Ha Hlen H12 Hat Hafter Hmax Hty Hl Hal. set (resp := pre ++ answer ty l addr).
  assert (Hb : is_bytes resp).
  { apply Forall_app. split; [done|]. unfold answer, put16, put32. cbn [app].
    repeat (apply Forall_cons_2; [first [by apply wrap_fits|unfold fits, DYN_DNS_C_IN; lia]|]). done. }
  assert (Hname : name_at resp (length pre) (length pre) ls (length pre + 2)).
  { apply (name_ptr resp _ _ 0 12 12 ls after); try done; try lia.
    - unfold resp, answer. cbn [app]. by rewrite list_lookup_middle.
    - unfold resp, answer. rewrite lookup_app_r by lia. replace (length pre + 1 - length pre)%nat with 1%nat by lia. done.
    - apply (name_at_copy pre resp 12 _ ls after Hat). intros i Hi. unfold resp. apply lookup_app_l. lia. }
  unfold dyn_dns_rr_decode.
  rewrite (proj2 (decode_iff resp (length pre) scratch (Z.of_nat (length pre + 2)) (name_buf ls) Hb Hlen scratch_room ltac:(lia))) by (exists ls; rewrite Nat2Z.id; by split_and!).
  cbn [mbind option_bind]. rewrite (proj2 (Z.ltb_ge _ _)), Nat2Z.id by lia.
  assert (Hrl : length resp = (length pre + (12 + length addr))%nat) by (unfold resp; by rewrite length_app).
  rewrite (proj2 (Nat.ltb_ge _ _)) by lia.
  assert (Hdr : forall k, drop (length pre + k) resp = drop k (answer ty l addr)) by (intros k; unfold resp; by rewrite drop_app_add).
  rewrite (get16_at resp (length pre + 2) ty) by (done || by rewrite Hdr). cbn [mbind option_bind].
  rewrite (get16_at resp (length pre + 2 + 2) DYN_DNS_C_IN) by (done || by rewrite <- Nat.add_assoc, Hdr). cbn [mbind option_bind].
  assert (E32 : get32 resp (length pre + 2 + 4) = Some l).
  { unfold resp. replace (pre ++ answer ty l addr) with ((pre ++ take 6 (answer ty l addr)) ++ put32 l ++ (put16 (Z.of_nat (length addr)) ++ addr)) by (by rewrite <- app_assoc).
    replace (length pre + 2 + 4)%nat with (length (pre ++ take 6 (answer ty l addr))) by (rewrite length_app; cbn; lia). apply get32_put. unfold fits in *. lia. }
  rewrite E32. cbn [mbind option_bind]. rewrite high_bit by (unfold fits in *; lia). rewrite (proj2 (Z.leb_gt _ _)) by (unfold fits in *; lia).
  rewrite (get16_at resp (length pre + 2 + 8) (Z.of_nat (length addr))) by (done || by rewrite <- Nat.add_assoc, Hdr). cbn [mbind option_bind].
  rewrite Nat2Z.id, (proj2 (Nat.ltb_ge _ _)) by lia. do 2 f_equal; [f_equal; rewrite answer_len; lia|]. do 2 f_equal. lia.
Qed.

(** The response without what the buffer held behind it. *)
Lemma take_exact {A} (l rest : list A) n : n = length l -> take n (l ++ rest) = l.
Proof. intros ->. apply take_app_length. Qed.

Module Dns_props.

(** C28. Decoding a name ends and stays inside its buffers for every message, offset
    and output buffer: no compression pointer, however it is placed, makes the
    loop run on or read past the message, and no label is written past the
    buffer. *)
Theorem dns_name_decode_terminates msg off out : is_bytes msg ->
  exists r out', dyn_dns_name_decode msg off out = Some (r, out') /\ length out' = length out.
Proof. apply decode_total. Qed.

(** Two pointers that lead to each other are refused. *)
Lemma dns_name_decode_terminates_witness : exists r out',
  dyn_dns_name_decode (replicate 12 0 ++ [0xc0; 14; 0xc0; 12]) 14 scratch = Some (r, out') /\ length out' = 256%nat.
Proof. apply (dns_name_decode_terminates (replicate 12 0 ++ [0xc0; 14; 0xc0; 12]) 14 scratch). apply (bool_decide_unpack _). by vm_compute. Defined.

Example pointer_loop : fst <$> dyn_dns_name_decode (replicate 12 0 ++ [0xc0; 14; 0xc0; 12]) 14 scratch = Some DYN_DNS_E_LOOP.
Proof. by vm_compute. Qed.

(** The decoder accepts exactly the names of the grammar whose text has at most
    255 characters, a pointer leading to an earlier place than the one before;
    it returns the position after the name and leaves the text in the buffer. *)
Theorem dns_name_decode_grammar msg off out r out' : is_bytes msg -> Z.of_nat (length msg) < 2 ^ 31 -> (DYN_DNS_MAX_NAME < length out)%nat -> 0 <= r ->
  dyn_dns_name_decode msg off out = Some (r, out') <->
  exists ls, name_at msg off off ls (Z.to_nat r) /\ (length (text ls) <= DYN_DNS_MAX_NAME)%nat /\ out' = text ls ++ 0 :: drop (S (length (text ls))) out.
Proof. apply decode_iff. Qed.

Lemma dns_name_decode_grammar_witness : dyn_dns_name_decode (replicate 12 0 ++ [1; 97; 0]) 12 scratch = Some (15, 97 :: 0 :: drop 2 scratch) <->
  exists ls, name_at (replicate 12 0 ++ [1; 97; 0]) 12 12 ls 15 /\ (length (text ls) <= DYN_DNS_MAX_NAME)%nat /\ 97 :: 0 :: drop 2 scratch = text ls ++ 0 :: drop (S (length (text ls))) scratch.
Proof.
  apply (dns_name_decode_grammar (replicate 12 0 ++ [1; 97; 0]) 12 scratch 15 (97 :: 0 :: drop 2 scratch)); [apply (bool_decide_unpack _); by vm_compute|by vm_compute|apply scratch_room|lia].
Defined.

(** The longest text it accepts is four octets over what RFC 1035 allows on the
    wire, and dyn_dns_name_encode refuses it. *)
Example decode_overlong : exists ls, let msg := replicate 12 0 ++ wire ls in
  fst <$> dyn_dns_name_decode msg 12 scratch = Some 269 /\ length (wire ls) = 257%nat /\
  fst <$> dyn_dns_name_encode (text ls) (replicate 300 0) = Some DYN_DNS_E_NAME.
Proof. exists (replicate 4 (replicate 63 97)). by vm_compute. Qed.

(** A query reads back: its header has the identifier, one question and nothing
    else, the name of the question is the one it was built for, without a final
    dot, and the question ends with the message, after its type and class. *)
Theorem dns_query_roundtrip qid name ty out n out' : is_bytes name -> fits 16 qid -> fits 16 ty -> Z.of_nat (length out) < 2 ^ 31 ->
  dyn_dns_build_query qid name ty out = Some (n, out') -> 0 <= n ->
  exists ls, spells name ls /\
    let q := take (Z.to_nat n) out' in
    dyn_dns_hdr_decode q = Some (DYN_DNS_OK, Some (mk_hdr qid 0x0100 1 0 0 0)) /\
    dyn_dns_name_decode q DYN_DNS_HDR_LEN scratch = Some (n - 4, name_buf ls) /\
    dyn_dns_skip_questions q DYN_DNS_HDR_LEN 1 = Some (DYN_DNS_OK, length q) /\
    get16 q (length q - 4) = Some ty /\ get16 q (length q - 2) = Some DYN_DNS_C_IN.
Proof.
  intros Hb Hid Hty Hlen Hrun Hn. destruct (build_query_spec _ _ _ _ _ _ Hlen Hrun Hn) as (ls & rest & Hsp & Hok & Hmax & -> & ->).
  exists ls. split; [done|]. set (h := mk_hdr qid 0x0100 1 0 0 0). set (q := header h ++ wire ls ++ put16 ty ++ [0; DYN_DNS_C_IN]).
  assert (Hq : length q = (12 + length (wire ls) + 4)%nat) by (unfold q; rewrite !length_app; cbn; lia).
  rewrite take_exact by (rewrite Nat2Z.id; done). cbv zeta. unfold DYN_DNS_MAX_NAME in Hmax.
  assert (Hqb : is_bytes q).
  { apply Forall_app; split; [apply hdr_bytes|]. apply Forall_app; split; [by eapply wire_bytes, text_bytes_labels|].
    apply Forall_app; split; [apply put16_bytes|]. repeat (apply Forall_cons_2; [unfold fits, DYN_DNS_C_IN; lia|]). done. }
  assert (Hdec : dyn_dns_name_decode q DYN_DNS_HDR_LEN scratch = Some (Z.of_nat (12 + length (wire ls)), name_buf ls)).
  { apply (decode_iff q DYN_DNS_HDR_LEN scratch); [done|lia|apply scratch_room|lia|]. exists ls. rewrite Nat2Z.id. split_and!; [|pose proof (text_wire ls Hok); unfold DYN_DNS_MAX_NAME; lia|done].
    apply (name_at_wire (header h)). done. }
  assert (Hdr : forall k, drop (12 + length (wire ls) + k) q = drop k (put16 ty ++ [0; DYN_DNS_C_IN])).
  { intros k. unfold q. rewrite app_assoc. replace (12 + length (wire ls))%nat with (length (header h ++ wire ls)) by (rewrite length_app; done). apply drop_app_add. }
  split_and!.
  - apply hdr_decode_spec. unfold hdr_fits, fits. cbn. unfold fits in *. lia.
  - rewrite Hdec. do 2 f_equal. lia.
  - unfold dyn_dns_skip_questions. change (Z.to_nat 1) with 1%nat. cbn [skip_loop]. rewrite Hdec. cbn [mbind option_bind].
    rewrite (proj2 (Z.ltb_ge _ _)), Nat2Z.id, (proj2 (Nat.ltb_ge _ _)) by lia. by rewrite Hq.
  - apply get16_at; [|done]. rewrite Hq. replace (12 + length (wire ls) + 4 - 4)%nat with (12 + length (wire ls) + 0)%nat by lia. by rewrite Hdr.
  - apply get16_at; [|done]. rewrite Hq. replace (12 + length (wire ls) + 4 - 2)%nat with (12 + length (wire ls) + 2)%nat by lia. by rewrite Hdr.
Qed.

Lemma dns_query_roundtrip_witness : exists n out', dyn_dns_build_query 7 (str "a.bc") 1 (replicate 64 0) = Some (n, out') /\
  exists ls, spells (str "a.bc") ls /\ dyn_dns_hdr_decode (take (Z.to_nat n) out') = Some (DYN_DNS_OK, Some (mk_hdr 7 0x0100 1 0 0 0)).
Proof.
  pose (res := dyn_dns_build_query 7 (str "a.bc") 1 (replicate 64 0)).
  assert (E : exists n out', res = Some (n, out') /\ 0 <= n) by (vm_compute; eexists _, _; split; [reflexivity|done]).
  destruct E as (n & out' & E & Hn). exists n, out'. split; [exact E|].
  destruct (dns_query_roundtrip 7 (str "a.bc") 1 (replicate 64 0) n out' ltac:(apply (bool_decide_unpack _); by vm_compute) ltac:(by vm_compute)
    ltac:(by vm_compute) ltac:(by vm_compute) E Hn) as (ls & H1 & H2 & _). exists ls. split; [exact H1|exact H2].
Defined.

(** Decoding a record ends and stays inside the message for every message: an
    accepted record lies between the offset it was read at and the new one, its
    data are bytes of the message, and its time to live fits 31 bits. *)
Theorem dns_rr_inside msg off : is_bytes msg -> Z.of_nat (length msg) < 2 ^ 31 ->
  exists r off' rr, dyn_dns_rr_decode msg off = Some (r, off', rr) /\
    match rr with
    | Some rr => r = DYN_DNS_OK /\ (off' <= length msg)%nat /\ off' = (rdata rr + Z.to_nat (rdlen rr))%nat /\
        0 <= ttl rr < 2 ^ 31 /\ fits 16 (rdlen rr) /\ (exists ls fin, name_at msg off off ls fin /\ rname rr = name_buf ls /\ rdata rr = (fin + 10)%nat)
    | None => r < 0 /\ off' = off
    end.
Proof.
  intros Hm Hlen. unfold dyn_dns_rr_decode. destruct (decode_total msg off scratch Hm) as (after & nm & Ed & _). rewrite Ed. cbn [mbind option_bind].
  destruct (Z.ltb_spec after 0) as [|Ha]; [by eexists _, _, None|].
  destruct (proj1 (decode_iff msg off scratch after nm Hm Hlen scratch_room Ha) Ed) as (ls & Hat & _ & Hnm). set (p := Z.to_nat after) in *.
  destruct (Nat.ltb_spec (length msg) (p + 10)); [by eexists _, _, None|].
  destruct (get16_total msg p Hm) as (t & -> & _); [lia|]. destruct (get16_total msg (p + 2) Hm) as (c & -> & _); [lia|].
  destruct (get32_total msg (p + 4) Hm) as (l & -> & Hl); [lia|]. destruct (get16_total msg (p + 8) Hm) as (k & -> & Hk); [lia|].
  cbn [mbind option_bind]. destruct (Nat.ltb_spec (length msg - (p + 10)) (Z.to_nat k)); [by eexists _, _, None|].
  eexists _, _, (Some _). split; [done|]. cbn [rdata rdlen ttl rname]. rewrite high_bit by done. split_and!; try done; try lia.
  - destruct (Z.leb_spec (2 ^ 31) l); unfold fits in *; lia.
  - destruct (Z.leb_spec (2 ^ 31) l); unfold fits in *; lia.
  - exists ls, p. by split_and!.
Qed.

Lemma dns_rr_inside_witness : exists r off' rr, dyn_dns_rr_decode (replicate 12 0 ++ [0]) 12 = Some (r, off', rr).
Proof.
  destruct (dns_rr_inside (replicate 12 0 ++ [0]) 12 ltac:(apply (bool_decide_unpack _); by vm_compute) ltac:(by vm_compute)) as (r & off' & rr & E & _).
  exists r, off', rr. exact E.
Defined.

(** A response reads back: the answer that follows the question copied from a
    query decodes to a record with the name of that question, through the
    pointer to it, and with the type, time to live and address it was given; the
    header keeps the identifier of the query. *)
Theorem dns_answer_roundtrip q rcode out n out1 ty l addr n2 out2 :
  is_bytes q -> Z.of_nat (length q) < 2 ^ 31 -> Z.of_nat (length out) < 2 ^ 31 -> is_bytes addr -> fits 16 ty -> fits 31 l -> fits 16 (Z.of_nat (length addr)) ->
  dyn_dns_begin_response q rcode out = Some (n, out1) -> 0 <= n ->
  dyn_dns_add_answer out1 (Z.to_nat n) ty l addr = Some (n2, out2) -> 0 <= n2 ->
  exists ls h f, name_at q DYN_DNS_HDR_LEN DYN_DNS_HDR_LEN ls (Z.to_nat n - 4) /\ dyn_dns_hdr_decode q = Some (DYN_DNS_OK, Some h) /\
    let resp := take (Z.to_nat n2) out2 in
    dyn_dns_hdr_decode resp = Some (DYN_DNS_OK, Some (mk_hdr (id h) f 1 0 0 0)) /\
    dyn_dns_rr_decode resp (Z.to_nat n) = Some (DYN_DNS_OK, Z.to_nat n2, Some (mk_rr (name_buf ls) ty DYN_DNS_C_IN l (Z.to_nat n + 12) (Z.of_nat (length addr)))) /\
    drop (Z.to_nat n + 12) resp = addr.
Proof.
  intros Hq Hlq Hlo Haddr Hty Hl Hal Hr1 Hn Hr2 Hn2.
  destruct (begin_response_spec _ _ _ _ _ Hq Hlq Hlo Hr1 Hn) as (ls & after & h & Hat & Hmax & Hlt & Hle & Hle2 & -> & Hh & Hqd & ->).
  rewrite Nat2Z.id in *. set (f := u16 _) in *. set (h' := mk_hdr (id h) f 1 0 0 0) in *. set (pre := header h' ++ take (after + 4 - 12) (drop 12 q)) in *.
  unfold DYN_DNS_HDR_LEN in Hlt.
  assert (Hpre : length pre = (after + 4)%nat) by (unfold pre; rewrite length_app, length_take, length_drop; cbn; lia). rewrite <- Hpre in Hr2.
  assert (Hcap : Z.of_nat (length (pre ++ drop (length pre) out)) < 2 ^ 31).
  { rewrite length_app, length_drop, Hpre. lia. }
  destruct (add_answer_spec pre _ ty l addr n2 out2 Hcap Hr2 Hn2) as (-> & Hfit & rest & ->).
  rewrite Nat2Z.id, <- Hpre. exists ls, h, f.
  assert (Hpb : is_bytes pre).
  { apply Forall_app; split; [apply hdr_bytes|]. by apply Forall_take, Forall_drop. }
  assert (Hsame : forall i, (12 <= i < after)%nat -> pre !! i = q !! i).
  { intros i Hi. unfold pre. rewrite lookup_app_r by (cbn; lia). rewrite lookup_take_lt, lookup_drop by (cbn; lia). f_equal. cbn. lia. }
  destruct (name_at_copy q pre DYN_DNS_HDR_LEN _ ls after Hat Hsame) as [Hat' _].
  rewrite take_exact by (by rewrite length_app). split; [replace (length pre - 4)%nat with after by lia; done|]. split; [done|]. cbv zeta. split_and!.
  - unfold pre. rewrite <- app_assoc. apply hdr_decode_spec. destruct (hdr_decode_fits _ _ _ Hh) as [Hid _]. split; [exact Hid|]. split; [by apply wrap_fits|]. unfold fits. cbn. lia.
  - apply (answer_decode pre ls after); try done; try lia.
  - rewrite drop_app_add. done.
Qed.

Lemma dns_answer_roundtrip_witness : let q := [0; 7; 1; 0; 0; 1; 0; 0; 0; 0; 0; 0; 1; 97; 0; 0; 1; 0; 1] in
  exists n out1 n2 out2, dyn_dns_begin_response q 0 (replicate 64 0) = Some (n, out1) /\ dyn_dns_add_answer out1 (Z.to_nat n) 1 60 [1; 2; 3; 4] = Some (n2, out2) /\
    drop (Z.to_nat n + 12) (take (Z.to_nat n2) out2) = [1; 2; 3; 4].
Proof.
  set (q := [0; 7; 1; 0; 0; 1; 0; 0; 0; 0; 0; 0; 1; 97; 0; 0; 1; 0; 1]). cbv zeta.
  assert (E : exists n out1 n2 out2, dyn_dns_begin_response q 0 (replicate 64 0) = Some (n, out1) /\ 0 <= n /\
    dyn_dns_add_answer out1 (Z.to_nat n) 1 60 [1; 2; 3; 4] = Some (n2, out2) /\ 0 <= n2).
  { assert (Hb : match dyn_dns_begin_response q 0 (replicate 64 0) with
        | Some (n, o) => match dyn_dns_add_answer o (Z.to_nat n) 1 60 [1; 2; 3; 4] with Some (n2, _) => (0 <=? n) && (0 <=? n2) | None => false end
        | None => false end = true) by (by vm_compute).
    destruct (dyn_dns_begin_response q 0 (replicate 64 0)) as [[n o]|]; [|done].
    destruct (dyn_dns_add_answer o (Z.to_nat n) 1 60 [1; 2; 3; 4]) as [[n2 o2]|] eqn:E2; [|done]. apply andb_true_iff in Hb as [H1%Z.leb_le H2%Z.leb_le].
    by exists n, o, n2, o2. }
  destruct E as (n & out1 & n2 & out2 & E1 & Hn & E2 & Hn2). exists n, out1, n2, out2. split; [exact E1|]. split; [exact E2|].
  destruct (dns_answer_roundtrip q 0 (replicate 64 0) n out1 1 60 [1; 2; 3; 4] n2 out2 ltac:(apply (bool_decide_unpack _); by vm_compute) ltac:(by vm_compute)
    ltac:(by vm_compute) ltac:(apply (bool_decide_unpack _); by vm_compute) ltac:(by vm_compute) ltac:(by vm_compute) ltac:(by vm_compute) E1 Hn E2 Hn2)
    as (ls & h & f & _ & _ & _ & _ & H). exact H.
Defined.

End Dns_props.
