(* ===== verification/Ac.v ===== *)
(** * Aho-Corasick automata: src/core/dyn-ac.c

    Patterns are inserted into a trie whose edges are chained by index
    (child_head, e_next); dyn_ac_build turns it into an automaton, with a full
    table of transitions (ac_build_dense) or, above DYN_AC_DENSE_MAX states,
    with the rows of the transitions packed into one table (ac_build_compact);
    dyn_ac_run reports every occurrence of a pattern in a text.

    The arrays of the struct are lists of their elements in use: n_states is
    the length of [fail], n_edges that of [e_byte].  The answers of the
    allocator are a list.  [None] is an access outside of an array or a loop
    that would not end; -1 is a value.  The callback is a function on a state
    of the caller.  dyn_ac_free is left out. *)
From Stdlib Require Import ZArith Lia List.
From stdpp Require Import base numbers option list gmap.
From S2P Require Import Prelude.

(** ** State *)

(** DYN_AC_DENSE_MAX may be set when the library is built. *)
Class AcConfig := { DYN_AC_DENSE_MAX : Z }.

Definition DYN_AC_ALPHABET : Z := 256.
Definition DYN_AC_MAX_STATES : Z := 1 << 18.

Record dyn_ac_slot := mk_slot { slot_next : Z; slot_check : Z }.
Record dyn_ac_oo := mk_oo { oo_out : Z; oo_out_link : Z }.

Record dyn_ac_t := mk_ac {
  go : option (list Z);
  tab : list dyn_ac_slot; base : list Z; oo : list dyn_ac_oo;
  fail : list Z; out : list Z; out_link : list Z; compact : bool;
  cap_states : Z; tab_cap : Z; plen : list Z; n_pat : Z; ascii : bool; built : bool;
  child_head : list Z; e_byte : list Z; e_target : list Z; e_next : list Z; cap_edges : Z;
  amem : list bool }.

Definition n_states (a : dyn_ac_t) : Z := Z.of_nat (length (fail a)).
Definition n_edges (a : dyn_ac_t) : Z := Z.of_nat (length (e_byte a)).

(** [n] calls of the allocator, until one fails. *)
Fixpoint mallocs (n : nat) (mem : list bool) : bool * list bool :=
  match n with
  | O => (true, mem)
  | S n => if hd true mem then mallocs n (tl mem) else (false, tl mem)
  end.

Definition set_states (a : dyn_ac_t) (cap : Z) (mem : list bool) : dyn_ac_t :=
  mk_ac (go a) (tab a) (base a) (oo a) (fail a) (out a) (out_link a) (compact a) cap (tab_cap a) (plen a) (n_pat a) (ascii a) (built a)
    (child_head a) (e_byte a) (e_target a) (e_next a) (cap_edges a) mem.
Definition set_edges (a : dyn_ac_t) (cap : Z) (mem : list bool) : dyn_ac_t :=
  mk_ac (go a) (tab a) (base a) (oo a) (fail a) (out a) (out_link a) (compact a) (cap_states a) (tab_cap a) (plen a) (n_pat a) (ascii a) (built a)
    (child_head a) (e_byte a) (e_target a) (e_next a) cap mem.
Definition set_heads (a : dyn_ac_t) (ascii : bool) (heads : list Z) : dyn_ac_t :=
  mk_ac (go a) (tab a) (base a) (oo a) (fail a) (out a) (out_link a) (compact a) (cap_states a) (tab_cap a) (plen a) (n_pat a) ascii (built a)
    heads (e_byte a) (e_target a) (e_next a) (cap_edges a) (amem a).
Definition set_out (a : dyn_ac_t) (l : list Z) : dyn_ac_t :=
  mk_ac (go a) (tab a) (base a) (oo a) (fail a) l (out_link a) (compact a) (cap_states a) (tab_cap a) (plen a) (n_pat a) (ascii a) (built a)
    (child_head a) (e_byte a) (e_target a) (e_next a) (cap_edges a) (amem a).
Definition set_plen (a : dyn_ac_t) (l : list Z) : dyn_ac_t :=
  mk_ac (go a) (tab a) (base a) (oo a) (fail a) (out a) (out_link a) (compact a) (cap_states a) (tab_cap a) l (n_pat a) (ascii a) (built a)
    (child_head a) (e_byte a) (e_target a) (e_next a) (cap_edges a) (amem a).
Definition set_mem (a : dyn_ac_t) (mem : list bool) : dyn_ac_t := set_states a (cap_states a) mem.

(** ** The trie *)

Definition push_state (a : dyn_ac_t) : dyn_ac_t :=
  mk_ac (go a) (tab a) (base a ++ [0]) (oo a) (fail a ++ [0]) (out a ++ [-1]) (out_link a ++ [-1]) (compact a) (cap_states a) (tab_cap a) (plen a) (n_pat a) (ascii a) (built a)
    (child_head a ++ [-1]) (e_byte a) (e_target a) (e_next a) (cap_edges a) (amem a).

Definition ac_new_state (a : dyn_ac_t) : Z * dyn_ac_t :=
  if DYN_AC_MAX_STATES <=? n_states a then (-1, a) else
  let '(ok, a) := (if n_states a =? cap_states a then
      let cap := if cap_states a =? 0 then 16 else cap_states a * 2 in
      let (ok, mem) := mallocs 5 (amem a) in (ok, set_states a (if ok then cap else cap_states a) mem)
    else (true, a)) in
  if negb ok then (-1, a) else (n_states a, push_state a).

Definition push_edge (a : dyn_ac_t) (byte target next : Z) : dyn_ac_t :=
  mk_ac (go a) (tab a) (base a) (oo a) (fail a) (out a) (out_link a) (compact a) (cap_states a) (tab_cap a) (plen a) (n_pat a) (ascii a) (built a)
    (child_head a) (e_byte a ++ [byte]) (e_target a ++ [target]) (e_next a ++ [next]) (cap_edges a) (amem a).

Definition ac_new_edge (a : dyn_ac_t) (byte target next : Z) : Z * dyn_ac_t :=
  let '(ok, a) := (if n_edges a =? cap_edges a then
      let cap := if cap_edges a =? 0 then 32 else cap_edges a * 2 in
      let (ok, mem) := mallocs 3 (amem a) in (ok, set_edges a (if ok then cap else cap_edges a) mem)
    else (true, a)) in
  if negb ok then (-1, a) else (n_edges a, push_edge a byte target next).

(** NULL is [None]. *)
Definition dyn_ac_new (pats : Z) (mem : list bool) : option dyn_ac_t :=
  let (ok, mem) := mallocs (if pats =? 0 then 1 else 2) mem in
  if negb ok then None else
  let a := mk_ac None [] [] [] [] [] [] false 0 0 (replicate (Z.to_nat pats) 0) pats true false [] [] [] [] 0 mem in
  let (s, a) := ac_new_state a in
  if s <? 0 then None else Some a.

(** [while (e >= 0 && a->e_byte[e] != p[i]) e = a->e_next[e]] *)
Fixpoint find_edge (fuel : nat) (a : dyn_ac_t) (c e : Z) : option Z :=
  if e <? 0 then Some e else
  b ← aread (e_byte a) e;
  if b =? c then Some e else
  match fuel with O => None | S fuel => n ← aread (e_next a) e; find_edge fuel a c n end.

(** The loop over the bytes: the state reached, or [None] for -1. *)
Fixpoint insert_loop (a : dyn_ac_t) (s : Z) (p : bytes) : option (option Z * dyn_ac_t) :=
  match p with
  | [] => Some (Some s, a)
  | c :: p =>
      e ← aread (child_head a) s;
      let a := if 0x80 <=? c then set_heads a false (child_head a) else a in
      e ← find_edge (length (e_byte a)) a c e;
      if e <? 0 then
        let (ns, a) := ac_new_state a in
        if ns <? 0 then Some (None, a) else
        h ← aread (child_head a) s;
        let (e, a) := ac_new_edge a c ns h in
        if e <? 0 then Some (None, a) else
        heads ← awrite (child_head a) s e;
        insert_loop (set_heads a (ascii a) heads) ns p
      else
        t ← aread (e_target a) e;
        insert_loop a t p
  end.

Definition dyn_ac_insert (a : dyn_ac_t) (p : bytes) (idx : Z) : option (Z * dyn_ac_t) :=
  if built a || (idx <? 0) || (n_pat a <=? idx) then Some (-1, a) else
  lens ← awrite (plen a) idx (Z.of_nat (length p));
  r ← insert_loop (set_plen a lens) 0 p;
  match r with
  | (None, a) => Some (-1, a)
  | (Some s, a) =>
      o ← aread (out a) s;
      if o <? 0 then l ← awrite (out a) s idx; Some (0, set_out a l) else Some (0, a)
  end.

(** ** Children of a state, by rising byte *)

Fixpoint child_insert (b t : Z) (acc : list (Z * Z)) : list (Z * Z) :=
  match acc with
  | [] => [(b, t)]
  | x :: acc => if b <? x.1 then (b, t) :: x :: acc else x :: child_insert b t acc
  end.

Fixpoint children_loop (fuel : nat) (a : dyn_ac_t) (e : Z) (acc : list (Z * Z)) : option (list (Z * Z)) :=
  if e <? 0 then Some acc else
  match fuel with
  | O => None
  | S fuel =>
      if DYN_AC_ALPHABET <=? Z.of_nat (length acc) then None else
      b ← aread (e_byte a) e;
      t ← aread (e_target a) e;
      n ← aread (e_next a) e;
      children_loop fuel a n (child_insert b t acc)
  end.

Definition ac_children (a : dyn_ac_t) (s : Z) : option (list (Z * Z)) :=
  e ← aread (child_head a) s; children_loop (length (e_byte a)) a e [].

(** ** The full table *)

Record dense_st := mk_dense { d_go : list Z; d_fail : list Z; d_link : list Z; d_queue : list Z }.

(** The queue is an array of n_states entries. *)
Definition enqueue (a : dyn_ac_t) (q : list Z) (s : Z) : option (list Z) :=
  if n_states a <=? Z.of_nat (length q) then None else Some (q ++ [s]).

Definition dense_row (a : dyn_ac_t) (g : list Z) (s : Z) : option (list Z) :=
  cs ← ac_children a s; each (fun g ct => awrite g (s * DYN_AC_ALPHABET + ct.1) ct.2) cs g.

Definition dense_root (a : dyn_ac_t) (st : dense_st) (c : Z) : option dense_st :=
  s ← aread (d_go st) c;
  if s <? 0 then g ← awrite (d_go st) c 0; Some (mk_dense g (d_fail st) (d_link st) (d_queue st))
  else
    f ← awrite (d_fail st) s 0;
    q ← enqueue a (d_queue st) s;
    Some (mk_dense (d_go st) f (d_link st) q).

Definition dense_cell (a : dyn_ac_t) (s : Z) (st : dense_st) (c : Z) : option dense_st :=
  nxt ← aread (d_go st) (s * DYN_AC_ALPHABET + c);
  fs ← aread (d_fail st) s;
  g ← aread (d_go st) (fs * DYN_AC_ALPHABET + c);
  if nxt <? 0 then
    l ← awrite (d_go st) (s * DYN_AC_ALPHABET + c) g; Some (mk_dense l (d_fail st) (d_link st) (d_queue st))
  else
    f ← awrite (d_fail st) nxt g;
    q ← enqueue a (d_queue st) nxt;
    Some (mk_dense (d_go st) f (d_link st) q).

(** [a->out[f] >= 0 ? f : a->out_link[f]] *)
Definition link_of (a : dyn_ac_t) (links : list Z) (f : Z) : option Z :=
  o ← aread (out a) f; if 0 <=? o then Some f else aread links f.

Definition alphabet : list Z := Z.of_nat <$> seq 0 256.

Fixpoint dense_bfs (fuel : nat) (a : dyn_ac_t) (head : nat) (st : dense_st) : option dense_st :=
  if (head <? length (d_queue st))%nat then
    match fuel with
    | O => None
    | S fuel =>
        s ← d_queue st !! head;
        fs ← aread (d_fail st) s;
        l ← link_of a (d_link st) fs;
        links ← awrite (d_link st) s l;
        st ← each (dense_cell a s) alphabet (mk_dense (d_go st) (d_fail st) links (d_queue st));
        dense_bfs fuel a (S head) st
    end
  else Some st.

Definition set_dense (a : dyn_ac_t) (st : dense_st) : dyn_ac_t :=
  mk_ac (Some (d_go st)) (tab a) (base a) (oo a) (d_fail st) (out a) (d_link st) (compact a) (cap_states a) (tab_cap a) (plen a) (n_pat a) (ascii a) (built a)
    (child_head a) (e_byte a) (e_target a) (e_next a) (cap_edges a) (amem a).

(** The second and third allocation both happen. *)
Definition malloc_both (mem : list bool) : bool * list bool := (hd true mem && hd true (tl mem), tl (tl mem)).

Definition ac_build_dense (a : dyn_ac_t) : option (Z * dyn_ac_t) :=
  let (ok, mem) := mallocs 1 (amem a) in
  if negb ok then Some (-1, set_mem a mem) else
  let (ok, mem) := malloc_both mem in
  if negb ok then Some (-1, set_mem a mem) else
  let (ok, mem) := mallocs 1 mem in
  let a := set_mem a mem in
  if negb ok then Some (-1, a) else
  g ← each (dense_row a) (Z.of_nat <$> seq 0 (length (fail a))) (replicate (length (fail a) * 256) (-1));
  st ← each (dense_root a) alphabet (mk_dense g (fail a) (out_link a) []);
  st ← dense_bfs (length (fail a)) a 0 st;
  Some (0, set_dense a st).

(** ** The packed table *)

Record compact_st := mk_compact {
  c_tab : list dyn_ac_slot; c_cap : Z; c_base : list Z; c_fail : list Z; c_link : list Z; c_queue : list Z; c_hint : Z; c_mem : list bool }.

Definition with_tab (st : compact_st) (t : list dyn_ac_slot) (cap : Z) (mem : list bool) : compact_st :=
  mk_compact t cap (c_base st) (c_fail st) (c_link st) (c_queue st) (c_hint st) mem.
Definition with_hint (st : compact_st) (h : Z) : compact_st :=
  mk_compact (c_tab st) (c_cap st) (c_base st) (c_fail st) (c_link st) (c_queue st) h (c_mem st).

(** [while (cap < need) cap *= 2] *)
Fixpoint reserve_cap (fuel : nat) (cap need : Z) : option Z :=
  if cap <? need then match fuel with O => None | S fuel => reserve_cap fuel (u64 (cap * 2)) need end else Some cap.

Definition ac_tab_reserve (st : compact_st) (need : Z) : option (bool * compact_st) :=
  cap ← reserve_cap 64 (if c_cap st =? 0 then 256 else c_cap st) need;
  if cap =? c_cap st then Some (true, st) else
  let (ok, mem) := mallocs 1 (c_mem st) in
  if negb ok then Some (false, with_tab st (c_tab st) (c_cap st) mem) else
  Some (true, with_tab st (take (Z.to_nat (c_cap st)) (c_tab st) ++ replicate (Z.to_nat (cap + 256 - c_cap st)) (mk_slot 0 0)) cap mem).

Fixpoint tab_free (fuel : nat) (st : compact_st) (hint : Z) : option Z :=
  if hint <? c_cap st then
    sl ← aread (c_tab st) hint;
    if slot_check sl =? 0 then Some hint else
    match fuel with O => None | S fuel => tab_free fuel st (hint + 1) end
  else Some hint.

Definition ac_tab_free (st : compact_st) (hint : Z) : option Z := tab_free (length (c_tab st)) st hint.

Definition put_slot (st : compact_st) (k t s : Z) : option compact_st :=
  l ← awrite (c_tab st) k (mk_slot (u32 t) (u32 (s + 1))); Some (with_tab st l (c_cap st) (c_mem st)).
Definition put_base (st : compact_st) (s b : Z) : option compact_st :=
  l ← awrite (c_base st) s (u32 b);
  Some (mk_compact (c_tab st) (c_cap st) l (c_fail st) (c_link st) (c_queue st) (c_hint st) (c_mem st)).

(** The position, or [None] for -1. *)
Definition ac_place_one (st : compact_st) (s t b : Z) : option (option Z * compact_st) :=
  j ← ac_tab_free st (c_hint st);
  r ← (if c_cap st <=? j then
         r ← ac_tab_reserve st (if c_cap st =? 0 then 256 else c_cap st * 2);
         let (ok, st) := (r : bool * compact_st) in
         if negb ok then Some (None, st) else
         j ← ac_tab_free st j;
         if c_cap st <=? j then Some (None, st) else Some (Some j, st)
       else Some (Some j, st));
  match r with
  | (None, st) => Some (None, st)
  | (Some j, st) => st ← put_slot st j t s; st ← put_base st s (j - b); Some (Some j, st)
  end.

Fixpoint all_free (st : compact_st) (cand : Z) (cs : list (Z * Z)) : option bool :=
  match cs with
  | [] => Some true
  | ct :: cs => sl ← aread (c_tab st) (cand + ct.1); if slot_check sl =? 0 then all_free st cand cs else Some false
  end.

(** The search for a base at which every child has a free slot. *)
Fixpoint place_search (fuel : nat) (st : compact_st) (cs : list (Z * Z)) (b0 bl j : Z) : option (option (Z * Z) * compact_st) :=
  match fuel with
  | O => None
  | S fuel =>
      r ← (if c_cap st <=? j then
             r ← ac_tab_reserve st (c_cap st * 2);
             let (ok, st) := (r : bool * compact_st) in
             if negb ok then Some (None, st) else
             j ← ac_tab_free st j;
             if c_cap st <=? j then Some (None, st) else Some (Some j, st)
           else Some (Some j, st));
      match r with
      | (None, st) => Some (None, st)
      | (Some j, st) =>
          let cand := j - b0 in
          ok ← (if 0 <=? cand then ok ← all_free st cand cs; Some (ok && (cand + bl <? c_cap st)) else Some false);
          if ok : bool then Some (Some (j, cand), st) else
          j ← ac_tab_free st (j + 1);
          place_search fuel st cs b0 bl j
      end
  end.

Definition ac_place_many (st : compact_st) (s : Z) (cs : list (Z * Z)) (b0 bl : Z) : option (option Z * compact_st) :=
  j ← ac_tab_free st (c_hint st);
  r ← place_search (Z.to_nat (c_cap st) + 2) st cs b0 bl j;
  match r with
  | (None, st) => Some (None, st)
  | (Some (j, cand), st) =>
      st ← each (fun st ct => put_slot st (cand + ct.1) ct.2 s) cs st;
      st ← put_base st s cand;
      Some (Some j, st)
  end.

(** Rows with one child and with several. *)
Definition ac_place (st : compact_st) (s : Z) (cs : list (Z * Z)) : option (bool * compact_st) :=
  match cs with
  | [] => Some (true, st)
  | ct :: rest =>
      r ← match rest with
          | [] => ac_place_one st s ct.2 ct.1
          | _ :: _ => ac_place_many st s cs ct.1 (default ct (last rest)).1
          end;
      match r with
      | (None, st) => Some (false, st)
      | (Some j, st) => if j =? c_hint st then h ← ac_tab_free st (c_hint st + 1); Some (true, with_hint st h) else Some (true, st)
      end
  end.

(** The state that [b] leads to from [f] or from the first state on its
    failure chain that has a transition. *)
Fixpoint fail_walk (fuel : nat) (st : compact_st) (f b : Z) : option Z :=
  bs ← aread (c_base st) f;
  sl ← aread (c_tab st) (u32 (bs + b));
  if slot_check sl =? u32 (f + 1) then Some (i32 (slot_next sl)) else
  match fuel with O => None | S fuel => f ← aread (c_fail st) f; fail_walk fuel st f b end.

Definition compact_child (a : dyn_ac_t) (fs : Z) (st : compact_st) (ct : Z * Z) : option compact_st :=
  f ← fail_walk (length (c_fail st)) st fs ct.1;
  fails ← awrite (c_fail st) ct.2 f;
  l ← link_of a (c_link st) f;
  links ← awrite (c_link st) ct.2 l;
  q ← enqueue a (c_queue st) ct.2;
  Some (mk_compact (c_tab st) (c_cap st) (c_base st) fails links q (c_hint st) (c_mem st)).

Fixpoint compact_bfs (fuel : nat) (a : dyn_ac_t) (head : nat) (st : compact_st) : option (bool * compact_st) :=
  if (head <? length (c_queue st))%nat then
    match fuel with
    | O => None
    | S fuel =>
        s ← c_queue st !! head;
        cs ← ac_children a s;
        fs ← aread (c_fail st) s;
        r ← ac_place st s cs;
        match r with
        | (false, st) => Some (false, st)
        | (true, st) => st ← each (compact_child a fs) cs st; compact_bfs fuel a (S head) st
        end
    end
  else Some (true, st).

Definition compact_root (a : dyn_ac_t) (st : compact_st) (ct : Z * Z) : option compact_st :=
  sl ← aread (c_tab st) ct.1;
  t ← awrite (c_tab st) ct.1 (mk_slot (u32 ct.2) (slot_check sl));
  f ← awrite (c_fail st) ct.2 0;
  q ← enqueue a (c_queue st) ct.2;
  Some (mk_compact t (c_cap st) (c_base st) f (c_link st) q (c_hint st) (c_mem st)).

Definition root_slot (t : list dyn_ac_slot) (i : Z) : option (list dyn_ac_slot) := awrite t i (mk_slot 0 1).

Definition set_compact (a : dyn_ac_t) (st : compact_st) : dyn_ac_t :=
  mk_ac (go a) (c_tab st) (c_base st) (oo a) (c_fail st) (out a) (c_link st) (compact a) (cap_states a) (c_cap st) (plen a) (n_pat a) (ascii a) (built a)
    (child_head a) (e_byte a) (e_target a) (e_next a) (cap_edges a) (c_mem st).

(** out and out_link go into one array. *)
Definition set_oo (a : dyn_ac_t) : dyn_ac_t :=
  mk_ac (go a) (tab a) (base a) (zip_with mk_oo (out a) (out_link a)) (fail a) [] [] (compact a) (cap_states a) (tab_cap a) (plen a) (n_pat a) (ascii a) (built a)
    (child_head a) (e_byte a) (e_target a) (e_next a) (cap_edges a) (amem a).

Definition ac_build_compact (a : dyn_ac_t) : option (Z * dyn_ac_t) :=
  let (ok, mem) := malloc_both (amem a) in
  if negb ok then Some (-1, set_mem a mem) else
  let (ok, mem) := malloc_both mem in
  if negb ok then Some (-1, set_mem a mem) else
  r ← ac_tab_reserve (mk_compact (tab a) (tab_cap a) (base a) (fail a) (out_link a) [] 0 mem) 256;
  match r with
  | (false, st) => Some (-1, set_compact a st)
  | (true, st) =>
      t ← each root_slot alphabet (c_tab st);
      b ← awrite (c_base st) 0 0;
      cs ← ac_children a 0;
      st ← each (compact_root a) cs (mk_compact t (c_cap st) b (c_fail st) (c_link st) [] 256 (c_mem st));
      r ← compact_bfs (length (fail a)) a 0 st;
      match r with
      | (false, st) => Some (-1, set_compact a st)
      | (true, st) => Some (0, set_oo (set_compact a st))
      end
  end.

(** ** Building *)

Definition set_built (a : dyn_ac_t) : dyn_ac_t :=
  mk_ac (go a) (tab a) (base a) (oo a) (fail a) (out a) (out_link a) (match go a with None => true | Some _ => false end) (cap_states a) (tab_cap a) (plen a) (n_pat a) (ascii a) true
    [] [] [] [] 0 (amem a).

Definition dyn_ac_build `{AcConfig} (a : dyn_ac_t) : option (Z * dyn_ac_t) :=
  if built a then Some (-1, a) else
  r ← (if DYN_AC_DENSE_MAX <? n_states a then ac_build_compact a else ac_build_dense a);
  let (rc, a) := (r : Z * dyn_ac_t) in
  if negb (rc =? 0) then Some (rc, a) else Some (0, set_built a).

(** ** Running *)

Section Run.
Context {U : Type}.
Variable emit : U -> Z -> nat -> U * bool.

(** The patterns that end here, along the links; [true] when the callback
    stopped the run. *)
Fixpoint emit_loop (fuel : nat) (read_out read_link : Z -> option Z) (i : nat) (o : Z) (ud : U) : option (U * bool) :=
  if o <? 0 then Some (ud, false) else
  p ← read_out o;
  let (ud, stop) := emit ud p (i + 1)%nat in
  if stop then Some (ud, true) else
  match fuel with O => None | S fuel => n ← read_link o; emit_loop fuel read_out read_link i n ud end.

Definition emit_at (a : dyn_ac_t) (read_out read_link : Z -> option Z) (i : nat) (s : Z) (ud : U) : option (U * bool) :=
  p ← read_out s;
  o ← (if 0 <=? p then Some s else read_link s);
  emit_loop (length (fail a)) read_out read_link i o ud.

Fixpoint ac_run_dense (a : dyn_ac_t) (g : list Z) (i : nat) (s : Z) (t : bytes) (ud : U) : option (U * Z) :=
  match t with
  | [] => Some (ud, 0)
  | c :: t =>
      s ← aread g (s * DYN_AC_ALPHABET + c);
      r ← emit_at a (aread (out a)) (aread (out_link a)) i s ud;
      let (ud, stop) := (r : U * bool) in
      if stop then Some (ud, 1) else ac_run_dense a g (S i) s t ud
  end.

Fixpoint run_step (fuel : nat) (a : dyn_ac_t) (s c : Z) : option Z :=
  k ← (if s =? 0 then Some c else b ← aread (base a) s; Some (u32 (b + c)));
  sl ← aread (tab a) k;
  if slot_check sl =? u32 (s + 1) then Some (slot_next sl) else
  match fuel with O => None | S fuel => s ← aread (fail a) s; run_step fuel a (u32 s) c end.

Fixpoint ac_run_compact (a : dyn_ac_t) (i : nat) (s : Z) (t : bytes) (ud : U) : option (U * Z) :=
  match t with
  | [] => Some (ud, 0)
  | c :: t =>
      s ← run_step (length (fail a)) a s c;
      r ← emit_at a (fun o => oo_out <$> aread (oo a) o) (fun o => oo_out_link <$> aread (oo a) o) i s ud;
      let (ud, stop) := (r : U * bool) in
      if stop then Some (ud, 1) else ac_run_compact a (S i) s t ud
  end.

Definition dyn_ac_run (a : dyn_ac_t) (t : bytes) (ud : U) : option (U * Z) :=
  if negb (built a) then Some (ud, 0) else
  if compact a then ac_run_compact a 0 0 t ud else
  match go a with Some g => ac_run_dense a g 0 0 t ud | None => None end.

End Run.
