(* ===== verification/AcTrie.v ===== *)
(** * Words, occurrences, and the trie of an Aho-Corasick automaton

    The states of the trie stand for the prefixes of the patterns.  This file
    has what a run must report, stated on the patterns and the text alone, the
    longest suffix of a text that is a prefix of a pattern, and the proof that
    inserting builds the trie. *)
From Stdlib Require Import ZArith Lia List.
From stdpp Require Import base numbers option list gmap.
From S2P Require Import Prelude Ac.

(** ** What a run reports *)

(** The index under which a pattern was first inserted. *)
Fixpoint first_idx (pats : list (bytes * Z)) (w : bytes) : option Z :=
  match pats with
  | [] => None
  | (p, i) :: pats => if bool_decide (p = w) then Some i else first_idx pats w
  end.

(** The patterns that are suffixes of a text, the longest first. *)
Fixpoint found (f : bytes -> option Z) (t : bytes) : list Z :=
  match t with
  | [] => []
  | _ :: t' => option_list (f t) ++ found f t'
  end.

(** All occurrences, with the place where they end. *)
Definition occurrences (pats : list (bytes * Z)) (t : bytes) : list (Z * nat) :=
  flat_map (fun i => (fun p => (p, i)) <$> found (first_idx pats) (take i t)) (seq 1 (length t)).

(** The callback gets them one after the other until it stops the run. *)
Fixpoint feed {U} (emit : U -> Z -> nat -> U * bool) (ud : U) (l : list (Z * nat)) : U * Z :=
  match l with
  | [] => (ud, 0)
  | (p, i) :: l => let (ud, stop) := emit ud p i in if stop then (ud, 1) else feed emit ud l
  end.

Lemma feed_app {U} (emit : U -> Z -> nat -> U * bool) ud l1 l2 :
  feed emit ud (l1 ++ l2) = let (ud1, r) := feed emit ud l1 in if r =? 0 then feed emit ud1 l2 else (ud1, r).
Proof.
  revert ud. induction l1 as [|[p i] l1 IH]; intros ud; [reflexivity|]. cbn [app feed]. destruct (emit ud p i) as [ud1 [|]]; [reflexivity|apply IH].
Qed.

Lemma first_idx_app pats p i w : first_idx (pats ++ [(p, i)]) w = match first_idx pats w with Some j => Some j | None => if bool_decide (p = w) then Some i else None end.
Proof. induction pats as [|[q j] pats IH]; [done|]. cbn [app first_idx]. destruct (bool_decide (q = w)); [done|apply IH]. Qed.

Lemma first_idx_elem pats w i : first_idx pats w = Some i -> (w, i) ∈ pats.
Proof. induction pats as [|[q j] pats IH]; [done|]. cbn [first_idx]. case_bool_decide as Hq; [intros [= ->]; subst; left|intros ?; right; by apply IH]. Qed.

(** ** The longest suffix among given words *)

Section Words.
Variable ws : list bytes.

Fixpoint lsuf (u : bytes) : bytes :=
  if decide (u ∈ ws) then u else match u with [] => [] | _ :: u' => lsuf u' end.

Definition prefix_closed : Prop := forall w c, w ++ [c] ∈ ws -> w ∈ ws.

Lemma lsuf_id u : u ∈ ws -> lsuf u = u.
Proof. intros Hu. destruct u; cbn [lsuf]; by rewrite decide_True. Qed.

Lemma lsuf_cons c u : c :: u ∉ ws -> lsuf (c :: u) = lsuf u.
Proof. intros Hu. cbn [lsuf]. by rewrite decide_False. Qed.

Lemma lsuf_in u : [] ∈ ws -> lsuf u ∈ ws.
Proof. intros H0. induction u as [|c u IH]; cbn [lsuf]; destruct (decide _); done. Qed.

Lemma lsuf_len u : (length (lsuf u) <= length u)%nat.
Proof. induction u as [|c u IH]; cbn [lsuf]; destruct (decide _); cbn [length]; lia. Qed.

(** The step of the automaton: reading a byte after a text is reading it after
    its longest suffix. *)
Lemma lsuf_step u c : prefix_closed -> [] ∈ ws -> lsuf (u ++ [c]) = lsuf (lsuf u ++ [c]).
Proof.
  intros Hp H0. induction u as [|b u IH]; [by rewrite (lsuf_id [])|].
  destruct (decide (b :: u ∈ ws)) as [Hin|Hn]; [by rewrite (lsuf_id (b :: u))|]. rewrite (lsuf_cons b u Hn), <- IH.
  change ((b :: u) ++ [c]) with (b :: (u ++ [c])). apply lsuf_cons. intros Hin. apply Hn. by apply (Hp (b :: u) c).
Qed.

(** Patterns that end a text end its longest suffix too. *)
Lemma found_lsuf f t : (forall w, is_Some (f w) -> w ∈ ws) -> found f t = found f (lsuf t).
Proof.
  intros Hf. induction t as [|c t IH]; [cbn [lsuf]; by destruct (decide _)|]. destruct (decide (c :: t ∈ ws)) as [Hin|Hn]; [by rewrite lsuf_id|].
  rewrite lsuf_cons by done. rewrite <- IH. cbn [found]. destruct (f (c :: t)) eqn:E; [|done]. destruct Hn. apply Hf. by rewrite E.
Qed.

End Words.

Lemma found_tail f w : w <> [] -> found f w = option_list (f w) ++ found f (tail w).
Proof. by destruct w. Qed.

(** ** The trie *)

(** The edges from [e] on: bytes and targets, with falling indices. *)
Fixpoint echain (a : dyn_ac_t) (e : Z) (l : list (Z * Z)) : Prop :=
  match l with
  | [] => e = -1
  | ct :: l => exists i n, e = Z.of_nat i /\ e_byte a !! i = Some ct.1 /\ e_target a !! i = Some ct.2 /\ e_next a !! i = Some n /\ n < e /\ echain a n l
  end.

(** [l] are the children of the state of the word [w]. *)
Definition kids_of (ws : list bytes) (w : bytes) (l : list (Z * Z)) : Prop :=
  NoDup l.*1 /\ forall c t, (c, t) ∈ l <-> exists k, t = Z.of_nat k /\ ws !! k = Some (w ++ [c]).

Record trie_ok (ws : list bytes) (a : dyn_ac_t) : Prop := {
  t_root : ws !! 0%nat = Some [];
  t_nodup : NoDup ws;
  t_prefix : prefix_closed ws;
  t_bytes : forall w, w ∈ ws -> is_bytes w;
  t_size : Z.of_nat (length ws) <= DYN_AC_MAX_STATES;
  t_fail : fail a = replicate (length ws) 0;
  t_link : out_link a = replicate (length ws) (-1);
  t_base : base a = replicate (length ws) 0;
  t_out : length (out a) = length ws;
  t_heads : length (child_head a) = length ws;
  t_targets : length (e_target a) = length (e_byte a) /\ length (e_next a) = length (e_byte a);
  t_kids : forall s w, ws !! s = Some w -> exists h l, child_head a !! s = Some h /\ echain a h l /\ kids_of ws w l;
  t_fresh : built a = false /\ go a = None /\ tab a = [] /\ tab_cap a = 0;
  t_plen : Z.of_nat (length (plen a)) = n_pat a
}.

Lemma echain_ext a a' e l : (forall i b, e_byte a !! i = Some b -> e_byte a' !! i = Some b) -> (forall i b, e_target a !! i = Some b -> e_target a' !! i = Some b) ->
  (forall i b, e_next a !! i = Some b -> e_next a' !! i = Some b) -> echain a e l -> echain a' e l.
Proof.
  intros Hb Ht Hn. revert e. induction l as [|ct l IH]; intros e; [done|]. intros (i & n & -> & E1 & E2 & E3 & Hlt & Hc). exists i, n. split_and!; auto.
Qed.

Lemma echain_len a e l : echain a e l -> (length l <= Z.to_nat (e + 1))%nat.
Proof.
  revert e. induction l as [|ct l IH]; intros e; cbn [echain length]; [lia|]. intros (i & n & -> & _ & _ & _ & Hlt & Hc). apply IH in Hc. lia.
Qed.

Lemma echain_edges a e l : echain a e l -> (length l <= length (e_byte a))%nat.
Proof.
  intros Hc. pose proof (echain_len _ _ _ Hc). destruct l as [|ct l]; [cbn; lia|]. destruct Hc as (i & n & -> & E & _). apply lookup_lt_Some in E. lia.
Qed.

Lemma find_edge_spec fuel a c e l : echain a e l -> (length l <= fuel)%nat ->
  exists e', find_edge fuel a c e = Some e' /\ if e' <? 0 then c ∉ l.*1 else exists t, aread (e_target a) e' = Some t /\ (c, t) ∈ l.
Proof.
  revert fuel e. induction l as [|ct l IH]; intros fuel e Hc Hf; cbn [echain] in Hc.
  - subst e. exists (-1). split; [by destruct fuel|]. cbn. apply not_elem_of_nil.
  - destruct Hc as (i & n & -> & E1 & E2 & E3 & Hlt & Hc). destruct fuel as [|fuel]; cbn [length] in Hf; [lia|]. cbn [find_edge].
    rewrite (proj2 (Z.ltb_ge _ 0)) by lia. rewrite (aread_nat (e_byte a)), E1. cbn [mbind option_bind]. destruct (Z.eqb_spec ct.1 c) as [<-|Hne].
    + exists (Z.of_nat i). split; [done|]. rewrite (proj2 (Z.ltb_ge _ 0)) by lia. exists ct.2. rewrite aread_nat. split; [done|]. destruct ct. left.
    + rewrite (aread_nat (e_next a)), E3. cbn [mbind option_bind]. destruct (IH fuel n Hc ltac:(lia)) as (e' & -> & He'). exists e'. split; [done|]. destruct (e' <? 0).
      * rewrite fmap_cons. by apply not_elem_of_cons.
      * destruct He' as (t & ? & ?). exists t. split; [done|by right].
Qed.

Lemma mallocs_sub n mem ok mem' : mallocs n mem = (ok, mem') -> (forall b, b ∈ mem' -> b ∈ mem) /\ (ok = false -> false ∈ mem).
Proof.
  revert mem. induction n as [|n IH]; intros mem; cbn [mallocs]; [by intros [= <- <-]|]. destruct mem as [|b mem]; cbn [hd tl]; [apply IH|].
  destruct b; [|intros [= <- <-]; split; [intros b; by right|intros _; left]]. intros E. destruct (IH _ E) as [H1 H2]. split; [intros b Hb; right; auto|intros Ho; right; auto].
Qed.

Definition sub_mem (mem' mem : list bool) : Prop := forall b, b ∈ mem' -> b ∈ mem.

Lemma new_state_spec a ns a' : ac_new_state a = (ns, a') ->
  (ns = -1 /\ sub_mem (amem a') (amem a) /\ (DYN_AC_MAX_STATES <= n_states a \/ false ∈ amem a)) \/
  (ns = n_states a /\ n_states a < DYN_AC_MAX_STATES /\ exists cap mem, sub_mem mem (amem a) /\ a' = push_state (set_states a cap mem)).
Proof.
  unfold ac_new_state. destruct (Z.leb_spec DYN_AC_MAX_STATES (n_states a)); [intros [= <- <-]; left; split_and!; [done|done|by left]|].
  destruct (n_states a =? cap_states a); [destruct (mallocs 5 (amem a)) as [ok mem] eqn:E; apply mallocs_sub in E as [E1 E2]; destruct ok|]; cbn [negb]; intros [= <- <-].
  - right. split_and!; [done..|]. by eexists _, mem.
  - left. split_and!; [done|done|]. right. by apply E2.
  - right. split_and!; [done..|]. exists (cap_states a), (amem a). by destruct a.
Qed.

Lemma new_edge_spec a b t n e a' : ac_new_edge a b t n = (e, a') ->
  (e = -1 /\ sub_mem (amem a') (amem a) /\ false ∈ amem a) \/ (e = n_edges a /\ exists cap mem, sub_mem mem (amem a) /\ a' = push_edge (set_edges a cap mem) b t n).
Proof.
  unfold ac_new_edge. destruct (n_edges a =? cap_edges a); [destruct (mallocs 3 (amem a)) as [ok mem] eqn:E; apply mallocs_sub in E as [E1 E2]; destruct ok|]; cbn [negb]; intros [= <- <-].
  - right. split; [done|]. by eexists _, mem.
  - left. split_and!; [done|done|]. by apply E2.
  - right. split; [done|]. exists (cap_edges a), (amem a). by destruct a.
Qed.

Lemma kids_grow ws w w' c l : NoDup ws -> (forall v, v ∈ ws -> w ++ [c] <> v) -> kids_of ws w' l ->
  kids_of (ws ++ [w ++ [c]]) w' (if decide (w' = w) then (c, Z.of_nat (length ws)) :: l else l).
Proof.
  intros Hnd Hn [Hl Hk]. assert (Hiff : forall d t, (exists k, t = Z.of_nat k /\ (ws ++ [w ++ [c]]) !! k = Some (w' ++ [d])) <-> (d, t) ∈ l \/ (w' = w /\ d = c /\ t = Z.of_nat (length ws))).
  { intros d t. rewrite Hk. split.
    - intros (k & -> & E). apply lookup_app_Some in E as [E|[Hle E]]; [left; by exists k|]. apply list_lookup_singleton_Some in E as [E0 E]. right.
      apply app_inj_2 in E as [-> [= ->]]; [|done]. split_and!; [done..|]. f_equal. lia.
    - intros [(k & -> & E)|(-> & -> & ->)]; [exists k; split; [done|by apply lookup_app_l_Some]|]. exists (length ws). split; [done|]. by rewrite lookup_app_r, Nat.sub_diag by lia. }
  split.
  - destruct (decide (w' = w)) as [->|]; [|done]. cbn. constructor; [|done]. intros Hin. apply list_elem_of_fmap in Hin as ([d t] & -> & Hin). cbn in *.
    apply Hk in Hin as (k & _ & E). apply (Hn (w ++ [d])); [by apply list_elem_of_lookup_2 with k|done].
  - intros d t. rewrite Hiff. destruct (decide (w' = w)) as [->|Hne].
    + rewrite elem_of_cons. split; [intros [[= -> ->]|?]; [by right|by left]|intros [?|(_ & -> & ->)]; [by right|by left]].
    + split; [by left|]. intros [?|[? _]]; done.
Qed.

(** A state and the edge to it, for a word that was not there. *)
Lemma grow_ok ws a s w c h l cap1 mem1 cap2 mem2 : trie_ok ws a -> ws !! s = Some w -> fits 8 c -> child_head a !! s = Some h -> echain a h l -> kids_of ws w l -> c ∉ l.*1 ->
  n_states a < DYN_AC_MAX_STATES ->
  let a2 := push_edge (set_edges (push_state (set_states a cap1 mem1)) cap2 mem2) c (n_states a) h in
  trie_ok (ws ++ [w ++ [c]]) (set_heads a2 (ascii a2) (<[s := n_edges a]> (child_head a2))).
Proof.
  intros [H1 H2 H3 H4 H5 H6 H7 H8 H9 H10 [H11 H12] H13 H14 H15] Es Hc Eh Hch Hk Hnc Hmax a2.
  assert (Hlen : length (fail a) = length ws) by (by rewrite H6, length_replicate). unfold n_states in *. rewrite Hlen in *.
  assert (Hnew : w ++ [c] ∉ ws).
  { intros Hin. apply list_elem_of_lookup in Hin as [k E]. apply Hnc, list_elem_of_fmap. exists (c, Z.of_nat k). split; [done|]. apply Hk. by exists k. }
  assert (Hw : w ∈ ws) by (by apply list_elem_of_lookup_2 with s). assert (Hs : (s < length ws)%nat) by (by apply lookup_lt_Some in Es).
  split; cbn [a2 set_heads push_edge set_edges push_state set_states fail out out_link base child_head e_byte e_target e_next built go tab tab_cap plen n_pat]; try done.
  - by rewrite lookup_app_l by lia.
  - apply NoDup_app. split_and!; [done| |apply NoDup_singleton]. intros x Hx ->%list_elem_of_singleton. done.
  - intros v d [Hin|Hin%list_elem_of_singleton]%elem_of_app; apply elem_of_app; left; [by apply (H3 v d)|]. apply app_inj_2 in Hin as [-> _]; done.
  - intros v [Hin| ->%list_elem_of_singleton]%elem_of_app; [by apply H4|]. apply Forall_app. split; [by apply H4|]. by apply Forall_singleton.
  - rewrite length_app. cbn [length]. lia.
  - by rewrite H6, length_app, replicate_add.
  - by rewrite H7, length_app, replicate_add.
  - by rewrite H8, length_app, replicate_add.
  - by rewrite !length_app, H9.
  - by rewrite length_insert, !length_app, H10.
  - rewrite !length_app. cbn [length]. lia.
  - assert (Hext : forall e m, echain a e m -> echain (set_heads a2 (ascii a2) (<[s := n_edges a]> (child_head a2))) e m).
    { intros e m. apply echain_ext; intros i b E; cbn [a2 set_heads push_edge set_edges push_state set_states e_byte e_target e_next]; by apply lookup_app_l_Some. }
    intros s' w' Es'. assert (Hs' : s' = length ws /\ w' = w ++ [c] \/ ws !! s' = Some w' /\ (s' < length ws)%nat).
    { apply lookup_app_Some in Es' as [E|[Hle E]]; [right; split; [done|by apply lookup_lt_Some in E]|left]. apply list_lookup_singleton_Some in E as [? <-]. split; [lia|done]. }
    destruct Hs' as [[-> ->]|[Ew' Hlt]].
    + exists (-1), []. split_and!; [|done|split; [constructor|]].
      * rewrite list_lookup_insert_ne, lookup_app_r, H10, Nat.sub_diag by lia. done.
      * intros d t. split; [by intros ?%not_elem_of_nil|]. intros (k & _ & E). apply list_elem_of_lookup_2, elem_of_app in E as [E|E%list_elem_of_singleton].
        -- apply (H3 (w ++ [c]) d) in E. done.
        -- apply (f_equal length) in E. rewrite !length_app in E. cbn in E. lia.
    + destruct (H13 s' w' Ew') as (h' & l' & Eh' & Hch' & Hk'). assert (Hne : forall v, v ∈ ws -> w ++ [c] <> v) by (intros v Hv <-; done).
      pose proof (kids_grow ws w w' c l' H2 Hne Hk') as Hg. destruct (decide (w' = w)) as [->|Hww].
      * assert (s' = s) as -> by (by eapply NoDup_lookup). rewrite Eh in Eh'. injection Eh' as <-. exists (n_edges a), ((c, Z.of_nat (length ws)) :: l'). split_and!.
        -- apply list_lookup_insert_eq. rewrite length_app. lia.
        -- cbn [echain fst snd]. exists (length (e_byte a)), h. split_and!; [done|..|by apply Hext].
           ++ cbn. by rewrite lookup_app_r, Nat.sub_diag by lia.
           ++ cbn. by rewrite lookup_app_r, H11, Nat.sub_diag, Hlen by lia.
           ++ cbn. by rewrite lookup_app_r, H12, Nat.sub_diag by lia.
           ++ unfold n_edges. destruct l' as [|ct l']; cbn [echain] in Hch'; [lia|]. destruct Hch' as (i & n & -> & E%lookup_lt_Some & _). lia.
        -- done.
      * exists h', l'. split_and!; [|by apply Hext|done]. rewrite list_lookup_insert_ne, lookup_app_l; [done|lia|]. intros ->. congruence.
Qed.

(** Fields that the trie does not consist of may change. *)
Lemma trie_ok_same ws a a' : trie_ok ws a -> fail a' = fail a -> out_link a' = out_link a -> base a' = base a -> length (out a') = length (out a) -> child_head a' = child_head a ->
  e_byte a' = e_byte a -> e_target a' = e_target a -> e_next a' = e_next a -> built a' = built a -> go a' = go a -> tab a' = tab a -> tab_cap a' = tab_cap a ->
  length (plen a') = length (plen a) -> n_pat a' = n_pat a -> trie_ok ws a'.
Proof.
  intros [H1 H2 H3 H4 H5 H6 H7 H8 H9 H10 H11 H12 H13 H14] E1 E2 E3 E4 E5 E6 E7 E8 E9 E10 E11 E12 E13 E14. split; rewrite ?E1, ?E2, ?E3, ?E4, ?E5, ?E6, ?E7, ?E8, ?E9, ?E10, ?E11, ?E12, ?E13, ?E14; try done.
  intros s w Es. destruct (H12 s w Es) as (h & l & Eh & Hch & Hk). exists h, l. split_and!; [done| |done]. apply (echain_ext a); by rewrite ?E6, ?E7, ?E8.
Qed.

(** The words of the trie after the bytes of [p] from the word [w] on. *)
Definition grown_by (ws : list bytes) (w p : bytes) (ws' : list bytes) : Prop :=
  (forall s v, ws !! s = Some v -> ws' !! s = Some v) /\ (forall v, v ∈ ws' <-> v ∈ ws \/ exists q, q `prefix_of` p /\ v = w ++ q) /\ (length ws' <= length ws + length p)%nat.

Lemma grown_by_step ws w c p ws1 ws2 : w ∈ ws -> (forall s v, ws !! s = Some v -> ws1 !! s = Some v) -> (forall v, v ∈ ws1 <-> v ∈ ws \/ v = w ++ [c]) -> (length ws1 <= S (length ws))%nat ->
  grown_by ws1 (w ++ [c]) p ws2 -> grown_by ws w (c :: p) ws2.
Proof.
  intros Hw Hk1 Hw1 Hl1 (Hk2 & Hw2 & Hl2). split_and!; [by auto| |cbn [length]; lia]. intros v. rewrite Hw2, Hw1. split.
  - intros [[?| ->]|(q & Hq & ->)]; [by left|right; exists [c]; split; [apply prefix_cons, prefix_nil|done]|right]. exists (c :: q). split; [by apply prefix_cons|]. by rewrite <- app_assoc.
  - intros [?|([|d q] & Hq & ->)]; [by left; left|left; left; by rewrite app_nil_r|]. pose proof (prefix_cons_inv_1 _ _ _ _ Hq) as ->. right. exists q.
    split; [by apply prefix_cons_inv_2 in Hq|]. by rewrite <- app_assoc.
Qed.

Lemma insert_loop_spec p : forall ws a s w, trie_ok ws a -> ws !! s = Some w -> is_bytes p ->
  exists r a', insert_loop a (Z.of_nat s) p = Some (r, a') /\ sub_mem (amem a') (amem a) /\
    match r with
    | None => false ∈ amem a \/ DYN_AC_MAX_STATES < Z.of_nat (length ws + length p)
    | Some s' => exists ws' k, s' = Z.of_nat k /\ trie_ok ws' a' /\ ws' !! k = Some (w ++ p) /\ grown_by ws w p ws' /\
        out a' = out a ++ replicate (length ws' - length ws) (-1) /\ n_pat a' = n_pat a
    end.
Proof.
  induction p as [|c p IH]; intros ws a s w Ht Es Hp; cbn [insert_loop].
  - exists (Some (Z.of_nat s)), a. split; [done|]. split; [done|]. exists ws, s. rewrite app_nil_r, Nat.sub_diag, app_nil_r. split_and!; try done. split_and!; [done| |lia].
    intros v. split; [by left|]. intros [?|(q & ->%prefix_nil_inv & ->)]; [done|]. rewrite app_nil_r. by apply list_elem_of_lookup_2 with s.
  - apply Forall_cons in Hp as [Hc Hp]. assert (Hw : w ∈ ws) by (by apply list_elem_of_lookup_2 with s).
    destruct (t_kids _ _ Ht s w Es) as (h & l & Eh & Hch & Hk). rewrite aread_nat, Eh. cbn [mbind option_bind].
    set (a0 := if 0x80 <=? c then set_heads a false (child_head a) else a).
    assert (Ha0 : trie_ok ws a0 /\ child_head a0 = child_head a /\ e_byte a0 = e_byte a /\ e_target a0 = e_target a /\ e_next a0 = e_next a /\ amem a0 = amem a /\ out a0 = out a /\ n_pat a0 = n_pat a).
    { unfold a0. destruct (_ <=? _); [split; [by apply (trie_ok_same ws a)|done]|done]. }
    destruct Ha0 as (Ht0 & E1 & E2 & E3 & E4 & E5 & E6 & E7). clearbody a0.
    assert (Hch0 : echain a0 h l) by (apply (echain_ext a); by rewrite ?E2, ?E3, ?E4).
    destruct (find_edge_spec (length (e_byte a0)) a0 c h l Hch0 (echain_edges _ _ _ Hch0)) as (e & -> & He). cbn [mbind option_bind]. destruct (e <? 0).
    + destruct (ac_new_state a0) as [ns a1] eqn:En. apply new_state_spec in En as [(-> & Hm & Hn)|(-> & Hmax & cap1 & mem1 & Hm1 & ->)].
      * cbn [Z.ltb Z.compare]. exists None, a1. split; [done|]. split; [by rewrite <- E5|]. rewrite <- E5. unfold n_states in Hn. rewrite (t_fail _ _ Ht0), length_replicate in Hn. cbn [length].
        destruct Hn as [Hn|]; [right; lia|by left].
      * rewrite (proj2 (Z.ltb_ge _ 0)) by (unfold n_states; lia). cbn [push_state set_states child_head]. rewrite aread_nat, lookup_app_l, E1, Eh by (rewrite E1; by apply lookup_lt_Some in Eh).
        cbn [mbind option_bind]. destruct (ac_new_edge _ _ _ _) as [e2 a2] eqn:Ee. apply new_edge_spec in Ee as [(-> & Hm & Hn)|(-> & cap2 & mem2 & Hm2 & ->)].
        -- cbn [Z.ltb Z.compare]. exists None, a2. split; [done|]. cbn [amem push_state set_states] in Hm, Hn. split; [intros b Hb; rewrite <- E5; by apply Hm1, Hm|]. left. rewrite <- E5. by apply Hm1.
        -- rewrite (proj2 (Z.ltb_ge _ 0)) by (unfold n_edges; lia). cbn [amem push_state set_states] in Hm2.
           assert (Hlen : length (fail a0) = length ws) by (by rewrite (t_fail _ _ Ht0), length_replicate).
           rewrite <- E1 in Eh. pose proof (grow_ok ws a0 s w c h l cap1 mem1 cap2 mem2 Ht0 Es Hc Eh Hch0 Hk He Hmax) as Hg. cbn zeta in Hg.
           set (a2 := push_edge _ _ _ _) in *. rewrite awrite_nat by (cbn; rewrite length_app; apply lookup_lt_Some in Eh; lia). cbn [mbind option_bind].
           change (n_edges (push_state (set_states a0 cap1 mem1))) with (n_edges a0). set (a3 := set_heads _ _ _) in *.
           assert (En' : (ws ++ [w ++ [c]]) !! length ws = Some (w ++ [c])) by (by rewrite lookup_app_r, Nat.sub_diag by lia).
           unfold n_states. rewrite Hlen. destruct (IH _ a3 (length ws) (w ++ [c]) Hg En' Hp) as (r & a' & E & Hm & Hr). exists r, a'. split; [done|].
           assert (Hm3 : sub_mem (amem a3) (amem a)) by (intros b Hb; rewrite <- E5; by apply Hm1, Hm2). split; [intros b Hb; by apply Hm3, Hm|].
           destruct r as [s'|]; [|cbn [length]; rewrite length_app in Hr; cbn [length] in Hr; destruct Hr as [|]; [left; by apply Hm3|right; lia]].
           destruct Hr as (ws' & k & -> & Ht' & Ek & Hg' & Eo & En). exists ws', k. rewrite <- app_assoc in Ek. split_and!; [done|done|done| | |by rewrite En].
           ++ apply (grown_by_step ws w c p (ws ++ [w ++ [c]])); [done|intros; by apply lookup_app_l_Some| |rewrite length_app; cbn; lia|done]. intros v. by rewrite elem_of_app, list_elem_of_singleton.
           ++ assert (Hlt : (length ws < length ws')%nat) by (destruct Hg' as [Hg1 _]; apply Hg1, lookup_lt_Some in En'; lia).
              rewrite Eo. cbn [a3 a2 set_heads push_edge set_edges push_state set_states out]. rewrite E6, length_app, <- app_assoc. f_equal. cbn [length app].
              replace (length ws' - length ws)%nat with (S (length ws' - (length ws + 1))) by lia. done.
    + destruct He as (t & Et & Hin). rewrite Et. cbn [mbind option_bind]. apply Hk in Hin as (k & -> & Ek). destruct (IH ws a0 k (w ++ [c]) Ht0 Ek Hp) as (r & a' & E & Hm & Hr).
      exists r, a'. split; [done|]. rewrite E5 in Hm, Hr. split; [done|]. destruct r as [s'|]; [|cbn [length]; destruct Hr as [|]; [by left|right; lia]].
      destruct Hr as (ws' & k' & -> & Ht' & Ek' & Hg & Eo & En). exists ws', k'. rewrite <- app_assoc in Ek'. rewrite E6 in Eo. rewrite E7 in En. split_and!; try done.
      apply (grown_by_step ws w c p ws); [done|done| |lia|done]. intros v. split; [by left|]. intros [?| ->]; [done|]. by apply list_elem_of_lookup_2 with k.
Qed.

(** ** The trie of a list of patterns *)

Record trie_for (pats : list (bytes * Z)) (ws : list bytes) (a : dyn_ac_t) : Prop := {
  tf_trie : trie_ok ws a;
  tf_words : forall v, v ∈ ws <-> v = [] \/ exists p i, (p, i) ∈ pats /\ v `prefix_of` p;
  tf_out : forall s w, ws !! s = Some w -> out a !! s = Some (default (-1) (first_idx pats w));
  tf_idx : forall p i, (p, i) ∈ pats -> 0 <= i
}.

Lemma trie_for_mem pats ws a mem : trie_for pats ws a -> trie_for pats ws (set_mem a mem).
Proof. intros [Ht H1 H2 H3]. split; try done. by apply (trie_ok_same ws a). Qed.

Lemma new_spec n mem a : 0 <= n -> dyn_ac_new n mem = Some a -> trie_for [] [[]] a /\ n_pat a = n.
Proof.
  intros Hn. unfold dyn_ac_new. destruct (mallocs _ mem) as [[|] mem'] eqn:E; cbn [negb]; [|done]. destruct (ac_new_state _) as [s a'] eqn:En.
  apply new_state_spec in En as [(-> & _)|(-> & _ & cap & mem1 & _ & ->)]; [done|]. cbn [n_states fail length Z.of_nat Z.ltb Z.compare]. intros [= <-]. split; [|done].
  split; [split; cbn; try done| | |].
  - apply NoDup_singleton.
  - intros w c Hin%list_elem_of_singleton. by destruct w.
  - intros w ->%list_elem_of_singleton. by apply Forall_nil.
  - intros [|s] w; [|done]. intros [= <-]. exists (-1), []. split_and!; [done|done|]. split; [constructor|]. intros c t. split; [by intros ?%not_elem_of_nil|]. by intros ([|k] & _ & ?).
  - rewrite length_replicate. lia.
  - intros v. rewrite list_elem_of_singleton. split; [by left|]. intros [?|(p & i & ?%not_elem_of_nil & _)]; done.
  - intros [|s] w; [|done]. by intros [= <-].
  - by intros p i ?%not_elem_of_nil.
Qed.

Lemma new_mem n mem a : dyn_ac_new n mem = Some a -> sub_mem (amem a) mem.
Proof.
  unfold dyn_ac_new. destruct (mallocs _ mem) as [[|] mem'] eqn:E; apply mallocs_sub in E as [S1 _]; cbn [negb]; [|done]. destruct (ac_new_state _) as [s a'] eqn:En.
  apply new_state_spec in En as [(-> & _)|(-> & _ & cap & mem1 & S2 & ->)]; [done|]. cbn [n_states fail length Z.of_nat Z.ltb Z.compare]. intros [= <-] b Hb. by apply S1, S2.
Qed.

(** Inserting adds the pattern, or fails for one of three reasons. *)
Lemma ac_insert_spec pats ws a p idx : trie_for pats ws a -> is_bytes p ->
  exists rc a', dyn_ac_insert a p idx = Some (rc, a') /\
    (rc = 0 /\ (exists ws', trie_for (pats ++ [(p, idx)]) ws' a' /\ (length ws' <= length ws + length p)%nat) /\ n_pat a' = n_pat a /\ sub_mem (amem a') (amem a) \/
     rc = -1 /\ (idx < 0 \/ n_pat a <= idx \/ false ∈ amem a \/ DYN_AC_MAX_STATES < Z.of_nat (length ws + length p))).
Proof.
  intros [Ht Hw Ho Hx] Hp. pose proof (t_fresh _ _ Ht) as (Hb & _). pose proof (t_plen _ _ Ht) as Hpl. unfold dyn_ac_insert. rewrite Hb. cbn [orb].
  destruct (Z.ltb_spec idx 0); cbn [orb]; [eexists _, _; split; [done|]; right; split; [done|by left]|].
  destruct (Z.leb_spec (n_pat a) idx); [eexists _, _; split; [done|]; right; split; [done|right; by left]|].
  rewrite (awrite_in (plen a)) by lia. cbn [mbind option_bind].
  set (a1 := set_plen a _). assert (Ht1 : trie_ok ws a1) by (apply (trie_ok_same ws a); try done; cbn; by rewrite length_insert).
  destruct (insert_loop_spec p ws a1 0 [] Ht1 (t_root _ _ Ht) Hp) as (r & a2 & E & Hmem & Hr). change (Z.of_nat 0) with 0 in E. rewrite E. cbn [mbind option_bind].
  destruct r as [s|]; [|eexists _, _; split; [done|]; right; split; [done|]; right; right; destruct Hr; [by left|by right]].
  destruct Hr as (ws' & k & -> & Ht2 & Ek & (Hg1 & Hg2 & Hg3) & Eo & En). cbn [app] in Ek, Hg2.
  assert (Ho2 : forall s w, ws' !! s = Some w -> out a2 !! s = Some (default (-1) (first_idx pats w))).
  { intros s w Es. rewrite Eo. change (out a1) with (out a). destruct (decide (s < length ws)%nat) as [Hlt|Hge].
    - rewrite lookup_app_l by (rewrite (t_out _ _ Ht); lia). apply Ho. destruct (lookup_lt_is_Some_2 _ _ Hlt) as [v Ev]. pose proof (Hg1 _ _ Ev). congruence.
    - rewrite lookup_app_r, (t_out _ _ Ht), lookup_replicate_2 by (rewrite ?(t_out _ _ Ht); apply lookup_lt_Some in Es; lia). f_equal.
      destruct (first_idx pats w) as [i|] eqn:Ei; [|done]. apply first_idx_elem in Ei. assert (Hin : w ∈ ws) by (apply Hw; right; by exists w, i).
      apply list_elem_of_lookup in Hin as [j Ej]. pose proof (lookup_lt_Some _ _ _ Ej). apply Hg1 in Ej. assert (s = j) by (eapply NoDup_lookup; [apply (t_nodup _ _ Ht2)|done|done]). lia. }
  assert (Hwords : forall v, v ∈ ws' <-> v = [] \/ exists q i, (q, i) ∈ pats ++ [(p, idx)] /\ v `prefix_of` q).
  { intros v. rewrite Hg2, Hw. split.
    - intros [[->|(q & i & Hq & Hpre)]|(q & Hpre & ->)]; [by left|right; exists q, i; split; [apply elem_of_app; by left|done]|right; exists p, idx; split; [apply elem_of_app; right; left|done]].
    - intros [->|(q & i & [Hq|Hq%list_elem_of_singleton]%elem_of_app & Hpre)]; [by left; left|left; right; by exists q, i|]. injection Hq as -> ->. right. by exists v. }
  assert (Hidx : forall q i, (q, i) ∈ pats ++ [(p, idx)] -> 0 <= i).
  { intros q i [Hq|Hq%list_elem_of_singleton]%elem_of_app; [by apply (Hx q)|]. injection Hq as -> ->. lia. }
  rewrite aread_nat, (Ho2 k p Ek). cbn [mbind option_bind]. destruct (first_idx pats p) as [i|] eqn:Ei; cbn [default].
  - rewrite (proj2 (Z.ltb_ge _ 0)) by (apply first_idx_elem in Ei; by apply (Hx p)). exists 0, a2. split; [done|]. left. split; [done|]. split; [|split; [by rewrite En|exact Hmem]].
    exists ws'. split; [|done]. split; try done. intros s w Es. rewrite (Ho2 s w Es), first_idx_app. destruct (first_idx pats w) eqn:Ew; [done|]. case_bool_decide; [congruence|done].
  - change (-1 <? 0) with true. cbn iota. assert (Hk : (k < length (out a2))%nat) by (rewrite (t_out _ _ Ht2); by apply lookup_lt_Some in Ek). rewrite awrite_nat by done. cbn [mbind option_bind].
    eexists 0, _. split; [done|]. left. split; [done|]. split; [|split; [exact En|exact Hmem]]. exists ws'. split; [|done]. split; try done.
    + apply (trie_ok_same ws' a2); try done. cbn. by rewrite length_insert.
    + intros s w Es. cbn [set_out out]. rewrite first_idx_app. destruct (decide (s = k)) as [->|Hne].
      * rewrite list_lookup_insert_eq by done. rewrite Ek in Es. injection Es as <-. rewrite Ei, bool_decide_eq_true_2 by done. done.
      * rewrite list_lookup_insert_ne, (Ho2 s w Es) by done. f_equal. rewrite bool_decide_eq_false_2; [by destruct (first_idx pats w)|]. intros ->. apply Hne. eapply NoDup_lookup; [apply (t_nodup _ _ Ht2)|done|done].
Qed.
