(* ===== verification/AcBuild.v ===== *)
(** * Building the automaton

    The states are visited in the order of their depth; this file has what both
    ways of building need of that order, and proves that ac_build_dense gives
    the table of transitions of the automaton of longest suffixes. *)
From Stdlib Require Import ZArith Lia List Sorted.
From stdpp Require Import base numbers option list gmap.
From S2P Require Import Prelude Ac AcTrie.

(** ** Children *)

Lemma bytes_NoDup_len (l : list Z) : NoDup l -> is_bytes l -> (length l <= 256)%nat.
Proof.
  intros Hnd Hb. assert (Hsub : l ⊆+ (Z.of_nat <$> seq 0 256)).
  { apply NoDup_submseteq; [done|]. intros c Hc. rewrite Forall_forall in Hb. specialize (Hb c Hc). unfold fits in Hb. apply list_elem_of_fmap. exists (Z.to_nat c).
    rewrite elem_of_seq. lia. }
  apply submseteq_length in Hsub. by rewrite length_fmap, length_seq in Hsub.
Qed.

Definition rising : list (Z * Z) -> Prop := StronglySorted (fun x y => x.1 < y.1).

Lemma child_insert_perm b t acc : child_insert b t acc ≡ₚ (b, t) :: acc.
Proof.
  induction acc as [|x acc IH]; [done|]. cbn [child_insert]. destruct (b <? x.1); [done|]. rewrite IH. apply Permutation_swap.
Qed.

Lemma child_insert_rising b t acc : rising acc -> b ∉ acc.*1 -> rising (child_insert b t acc).
Proof.
  unfold rising. induction acc as [|x acc IH]; cbn [child_insert]; intros Hs Hn; [by repeat constructor|]. rewrite fmap_cons in Hn. apply not_elem_of_cons in Hn as [Hx Hn].
  apply StronglySorted_inv in Hs as [Hs Hall]. destruct (Z.ltb_spec b x.1).
  - constructor; [by constructor|]. constructor; [done|]. eapply Forall_impl; [exact Hall|]. intros y. cbn. lia.
  - constructor; [by apply IH|]. rewrite Forall_forall in *. intros y Hy. rewrite child_insert_perm in Hy. apply elem_of_cons in Hy as [->|Hy]; [cbn; lia|by apply Hall].
Qed.

Lemma children_loop_spec a l : forall fuel e acc, echain a e l -> (length l <= fuel)%nat -> NoDup (l.*1 ++ acc.*1) -> is_bytes (l.*1 ++ acc.*1) -> rising acc ->
  exists cs, children_loop fuel a e acc = Some cs /\ cs ≡ₚ l ++ acc /\ rising cs.
Proof.
  induction l as [|ct l IH]; intros fuel e acc Hc Hf Hnd Hb Hs; cbn [echain] in Hc.
  - subst e. exists acc. destruct fuel; by split_and!.
  - destruct Hc as (i & n & -> & E1 & E2 & E3 & Hlt & Hc). destruct fuel as [|fuel]; cbn [length] in Hf; [lia|]. cbn [children_loop].
    rewrite (proj2 (Z.ltb_ge _ 0)) by lia. pose proof (bytes_NoDup_len _ Hnd Hb) as Hlen. rewrite length_app, !length_fmap in Hlen. cbn [length] in Hlen.
    rewrite (proj2 (Z.leb_gt _ _)) by (unfold DYN_AC_ALPHABET; lia). rewrite (aread_nat (e_byte a)), E1. cbn [mbind option_bind]. rewrite (aread_nat (e_target a)), E2. cbn [mbind option_bind].
    rewrite (aread_nat (e_next a)), E3. cbn [mbind option_bind]. pose proof (child_insert_perm ct.1 ct.2 acc) as Hperm.
    assert (Hp1 : l.*1 ++ (child_insert ct.1 ct.2 acc).*1 ≡ₚ (ct :: l).*1 ++ acc.*1) by (rewrite Hperm, !fmap_cons; cbn [fst app]; symmetry; apply Permutation_middle).
    destruct (IH fuel n (child_insert ct.1 ct.2 acc)) as (cs & E & Hcs & Hr); [done|lia|by rewrite Hp1|by rewrite Hp1| |].
    + apply child_insert_rising; [done|]. rewrite fmap_cons in Hnd. cbn in Hnd. apply NoDup_cons in Hnd as [Hn _]. intros Hin. apply Hn, elem_of_app. by right.
    + exists cs. split_and!; [done| |done]. rewrite Hcs, Hperm. destruct ct. symmetry. apply Permutation_middle.
Qed.

Lemma kids_perm ws w l l' : l ≡ₚ l' -> kids_of ws w l -> kids_of ws w l'.
Proof. intros Hp [H1 H2]. split; [by rewrite <- Hp|]. intros c t. rewrite <- Hp. apply H2. Qed.

Lemma kids_bytes ws a w l : trie_ok ws a -> kids_of ws w l -> is_bytes l.*1.
Proof.
  intros Ht [_ Hk]. apply Forall_forall. intros c Hc. apply list_elem_of_fmap in Hc as ([c' t] & -> & Hin). cbn [fst]. apply Hk in Hin as (k & _ & E).
  pose proof (t_bytes _ _ Ht _ (list_elem_of_lookup_2 _ _ _ E)) as Hb. apply Forall_app in Hb as [_ Hb]. exact (proj1 (Forall_singleton (fits 8) c') Hb).
Qed.

Lemma children_spec ws a s w : trie_ok ws a -> ws !! s = Some w -> exists cs, ac_children a (Z.of_nat s) = Some cs /\ kids_of ws w cs /\ rising cs.
Proof.
  intros Ht Es. destruct (t_kids _ _ Ht s w Es) as (h & l & Eh & Hc & Hk). unfold ac_children. rewrite aread_nat, Eh. cbn [mbind option_bind].
  destruct (children_loop_spec a l (length (e_byte a)) h [] Hc) as (cs & -> & Hp & Hr); [by apply (echain_edges a h)| | |constructor|].
  - rewrite fmap_nil, app_nil_r. apply Hk.
  - rewrite fmap_nil, app_nil_r. by apply (kids_bytes ws a w).
  - exists cs. rewrite app_nil_r in Hp. split_and!; [done| |done]. by apply (kids_perm ws w l).
Qed.

(** ** States in the order of their depth *)

Record words_ok (ws : list bytes) : Prop := {
  w_root : ws !! 0%nat = Some [];
  w_nodup : NoDup ws;
  w_prefix : prefix_closed ws
}.

Lemma trie_words ws a : trie_ok ws a -> words_ok ws.
Proof. intros [H1 H2 H3]. by split. Qed.

Record bfs_ok (ws : list bytes) (q : list nat) (head : nat) : Prop := {
  b_nodup : NoDup q;
  b_head : (head <= length q)%nat;
  b_states : forall x, x ∈ q -> exists w, ws !! x = Some w /\ w <> [];
  b_closed : forall s w t c, ws !! s = Some w -> w = [] \/ s ∈ take head q -> ws !! t = Some (w ++ [c]) -> t ∈ q;
  b_parent : forall s w t c, ws !! s = Some w -> ws !! t = Some (w ++ [c]) -> t ∈ q -> w = [] \/ s ∈ take head q;
  b_order : forall k x wx y wy, q !! k = Some x -> ws !! x = Some wx -> ws !! y = Some wy -> wy <> [] -> (length wy < length wx)%nat -> y ∈ take k q
}.

(** [ks] are the states of the children of the word [w]. *)
Definition kid_states (ws : list bytes) (w : bytes) (ks : list nat) : Prop :=
  NoDup ks /\ forall t, t ∈ ks <-> exists c, ws !! t = Some (w ++ [c]).

Section Bfs.
Variable ws : list bytes.
Hypothesis Hws : words_ok ws.

Lemma states_inj s t w : ws !! s = Some w -> ws !! t = Some w -> s = t.
Proof. intros. eapply NoDup_lookup; [apply (w_nodup _ Hws)|done|done]. Qed.

Lemma root_only s : ws !! s = Some [] -> s = 0%nat.
Proof. intros E. by apply (states_inj s 0 []), (w_root _ Hws). Qed.

Lemma parent_of t w c : ws !! t = Some (w ++ [c]) -> exists s, ws !! s = Some w.
Proof. intros E. apply list_elem_of_lookup, (w_prefix _ Hws w c). by apply list_elem_of_lookup_2 with t. Qed.

Lemma bfs_start ks : kid_states ws [] ks -> bfs_ok ws ks 0.
Proof.
  intros [Hnd Hk]. split; [done|lia|..].
  - intros x [c E]%Hk. by exists ([] ++ [c]).
  - intros s w t c Es [->|Hin] Et; [apply Hk; by exists c|by apply not_elem_of_nil in Hin].
  - intros s w t c Es Et [d Ed]%Hk. left. rewrite Et in Ed. injection Ed as Ed. by destruct w as [|? []].
  - intros k x wx y wy Ek Ex Ey Hne Hlt. apply list_elem_of_lookup_2, Hk in Ek as [c Ec]. rewrite Ex in Ec. injection Ec as ->. cbn in Hlt. destruct wy; [done|cbn in Hlt; lia].
Qed.

Lemma bfs_step q head s w ks : bfs_ok ws q head -> q !! head = Some s -> ws !! s = Some w -> kid_states ws w ks -> bfs_ok ws (q ++ ks) (S head).
Proof.
  intros [H1 H2 H3 H4 H5 H6] Eq Es [Hnd Hk]. assert (Hlt : (head < length q)%nat) by (by apply lookup_lt_Some in Eq).
  assert (Htake : take (S head) (q ++ ks) = take head q ++ [s]) by (rewrite take_app_le by lia; by apply take_S_r).
  assert (Hfresh : forall t, t ∈ ks -> t ∉ q).
  { intros t [c Et]%Hk Hin. destruct (H5 s w t c Es Et Hin) as [->|Hs].
    - apply list_elem_of_lookup_2, H3 in Eq as (w' & Ew & Hne). congruence.
    - apply list_elem_of_lookup in Hs as [k Ek]. apply lookup_take_Some in Ek as [Ek Hk']. pose proof (NoDup_lookup _ _ _ _ H1 Ek Eq). lia. }
  split; rewrite ?Htake.
  - apply NoDup_app. split_and!; [done| |done]. intros x Hx Hin. by apply (Hfresh x).
  - rewrite length_app. lia.
  - intros x [Hx|[c Ex]%Hk]%elem_of_app; [by apply H3|]. exists (w ++ [c]). split; [done|]. by destruct w.
  - intros s' w' t c Es' Hs Et. apply elem_of_app. destruct Hs as [->|[Hs| ->%list_elem_of_singleton]%elem_of_app].
    + left. apply (H4 s' [] t c); [done|by left|done].
    + left. apply (H4 s' w' t c); [done|by right|done].
    + right. apply Hk. exists c. congruence.
  - intros s' w' t c Es' Et [Ht|[d Ed]%Hk]%elem_of_app.
    + destruct (H5 s' w' t c Es' Et Ht) as [|]; [by left|right; apply elem_of_app; by left].
    + right. apply elem_of_app. right. apply list_elem_of_singleton. rewrite Et in Ed. injection Ed as Ed. apply app_inj_2 in Ed as [-> _]; [|done]. by apply (states_inj s' s w).
  - intros k x wx y wy Ek Ex Ey Hne Hl. apply lookup_app_Some in Ek as [Ek|[Hge Ek]].
    + rewrite take_app_le by (apply lookup_lt_Some in Ek; lia). by apply (H6 k x wx y wy).
    + rewrite take_app_ge by lia. apply elem_of_app. left. apply list_elem_of_lookup_2, Hk in Ek as [c Ec]. rewrite Ex in Ec. injection Ec as ->. rewrite length_app in Hl. cbn [length] in Hl.
      destruct (exists_last Hne) as (wp & d & ->). destruct (parent_of y wp d Ey) as [yp Eyp]. rewrite length_app in Hl. cbn [length] in Hl.
      apply (H4 yp wp y d); [done| |done]. destruct wp as [|d0 wp]; [by left|right]. apply (H6 head s w yp (d0 :: wp)); try done. lia.
Qed.

(** Shallower states were visited before. *)
Lemma bfs_before q head s w y wy : bfs_ok ws q head -> q !! head = Some s -> ws !! s = Some w -> ws !! y = Some wy -> (length wy < length w)%nat -> wy = [] \/ y ∈ take head q.
Proof. intros Hb Eq Es Ey Hl. destruct wy as [|c wy]; [by left|right]. by apply (b_order _ _ _ Hb head s w y (c :: wy)). Qed.

Lemma bfs_bound q head : bfs_ok ws q head -> (length q < length ws)%nat.
Proof.
  intros Hb. assert (Hsub : 0%nat :: q ⊆+ seq 0 (length ws)).
  { apply NoDup_submseteq.
    - constructor; [|apply (b_nodup _ _ _ Hb)]. intros (w & Ew & Hw)%(b_states _ _ _ Hb). rewrite (w_root _ Hws) in Ew. by injection Ew as <-.
    - intros x Hx. apply elem_of_seq. apply elem_of_cons in Hx as [->|(w & Ew & _)%(b_states _ _ _ Hb)]; [pose proof (lookup_lt_Some _ _ _ (w_root _ Hws))|apply lookup_lt_Some in Ew]; lia. }
  apply submseteq_length in Hsub. rewrite length_seq in Hsub. cbn in Hsub. lia.
Qed.

Lemma bfs_all q : bfs_ok ws q (length q) -> forall w s, ws !! s = Some w -> w <> [] -> s ∈ q.
Proof.
  intros Hb w. induction w as [|c w IH] using rev_ind; intros s Es Hne; [done|]. destruct (parent_of s w c Es) as [p Ep].
  apply (b_closed _ _ _ Hb p w s c); [done| |done]. destruct w as [|d w]; [by left|right]. rewrite take_ge by lia. by apply IH.
Qed.

End Bfs.
