(* ===== verification/AcDense.v ===== *)
(** * The full table of transitions

    ac_build_dense computes, for every state and byte, the state of the longest
    suffix of the word read that the trie has, for every state the failure
    state and the link to the next pattern that ends there. *)
From Stdlib Require Import ZArith Lia List.
From stdpp Require Import base numbers option list gmap.
From S2P Require Import Prelude Ac AcTrie AcBuild.

(** ** What the arrays of the automaton say *)

(** The number [v] is the state of the word [w]. *)
Definition names (ws : list bytes) (v : Z) (w : bytes) : Prop := exists k, v = Z.of_nat k /\ ws !! k = Some w.

(** The failure state of [x]. *)
Definition fail_is (ws : list bytes) (fails : list Z) (x : nat) : Prop :=
  forall w, ws !! x = Some w -> exists v, aread fails (Z.of_nat x) = Some v /\ names ws v (lsuf ws (tail w)).

(** The link of the word [w]: the longest proper suffix that is a pattern. *)
Definition link_ok (ws : list bytes) (f : bytes -> option Z) (w : bytes) (l : Z) : Prop :=
  (l = -1 /\ found f (tail w) = []) \/ (exists v, names ws l v /\ is_Some (f v) /\ found f (tail w) = found f v /\ (length v < length w)%nat).

Definition link_is (ws : list bytes) (f : bytes -> option Z) (links : list Z) (x : nat) : Prop :=
  forall w, ws !! x = Some w -> exists l, aread links (Z.of_nat x) = Some l /\ link_ok ws f w l.

Definition cell (x : nat) (c : Z) : Z := Z.of_nat x * DYN_AC_ALPHABET + c.

Definition go_is (ws : list bytes) (g : list Z) (x : nat) (w : bytes) (c : Z) : Prop :=
  exists v, aread g (cell x c) = Some v /\ names ws v (lsuf ws (w ++ [c])).

(** Before the state is visited: the child, or -1. *)
Definition raw_is (ws : list bytes) (g : list Z) (x : nat) (w : bytes) (c : Z) : Prop :=
  exists v, aread g (cell x c) = Some v /\ ((v < 0 /\ w ++ [c] ∉ ws) \/ names ws v (w ++ [c])).

Lemma cell_inj x y c d : 0 <= c < 256 -> 0 <= d < 256 -> cell x c = cell y d -> x = y /\ c = d.
Proof. unfold cell, DYN_AC_ALPHABET. lia. Qed.

Lemma cell_bound n x c : (x < n)%nat -> 0 <= c < 256 -> 0 <= cell x c < Z.of_nat (n * 256).
Proof. unfold cell, DYN_AC_ALPHABET. nia. Qed.

Lemma elem_alphabet c : c ∈ alphabet <-> 0 <= c < 256.
Proof.
  unfold alphabet. rewrite list_elem_of_fmap. split.
  - intros (n & -> & Hn%elem_of_seq). lia.
  - intros Hc. exists (Z.to_nat c). rewrite elem_of_seq. lia.
Qed.

Lemma alphabet_len : length alphabet = 256%nat.
Proof. unfold alphabet. by rewrite length_fmap, length_seq. Qed.

Lemma alphabet_NoDup : NoDup alphabet.
Proof. unfold alphabet. apply NoDup_fmap_2; [apply _|apply NoDup_seq]. Qed.

#[local] Opaque alphabet.

(** ** Children as states *)

Definition kidx (ws : list bytes) (w : bytes) (c : Z) : option nat := fst <$> list_find (fun v => v = w ++ [c]) ws.

Lemma kidx_spec ws w c k : NoDup ws -> kidx ws w c = Some k <-> ws !! k = Some (w ++ [c]).
Proof.
  intros Hnd. unfold kidx. destruct (list_find _ ws) as [[j v]|] eqn:E; cbn.
  - apply list_find_Some in E as (Ej & -> & _). split; [by intros [= <-]|]. intros Ek. f_equal. by eapply NoDup_lookup.
  - split; [done|]. intros Ek. apply list_find_None in E. rewrite Forall_forall in E. destruct (E (w ++ [c])); [by apply list_elem_of_lookup_2 with k|done].
Qed.

Lemma kidx_NoDup ws w l : NoDup ws -> NoDup l -> NoDup (omap (kidx ws w) l).
Proof.
  intros Hws. induction 1 as [|c l Hc Hl IH]; [constructor|]. cbn. destruct (kidx ws w c) as [k|] eqn:Ek; [|done]. constructor; [|done].
  intros (d & Hd & Ed)%list_elem_of_omap. apply kidx_spec in Ek, Ed; [|done..]. rewrite Ek in Ed. injection Ed as Ed. apply app_inj_2 in Ed as [_ [= ->]]; done.
Qed.

Lemma kids_alphabet ws a w : trie_ok ws a -> kid_states ws w (omap (kidx ws w) alphabet).
Proof.
  intros Ht. pose proof (t_nodup _ _ Ht) as Hnd. split; [apply kidx_NoDup; [done|apply alphabet_NoDup]|]. intros t. rewrite list_elem_of_omap. split.
  - intros (c & _ & Ek). exists c. by apply kidx_spec.
  - intros (c & Ec). exists c. split; [|by apply kidx_spec]. apply elem_alphabet. pose proof (t_bytes _ _ Ht _ (list_elem_of_lookup_2 _ _ _ Ec)) as Hb.
    apply Forall_app in Hb as [_ Hb]. exact (proj1 (Forall_singleton (fits 8) c) Hb).
Qed.

Lemma alphabet_split pre c post : alphabet = pre ++ c :: post -> 0 <= c < 256 /\ c ∉ pre.
Proof.
  intros E. split; [apply elem_alphabet; rewrite E; apply elem_of_app; right; left|]. pose proof alphabet_NoDup as Hnd. rewrite E in Hnd. apply NoDup_app in Hnd as (_ & Hx & _).
  intros Hc. apply (Hx c Hc). left.
Qed.

Section Dense.
Variables (pats : list (bytes * Z)) (ws : list bytes) (a : dyn_ac_t).
Hypothesis Htf : trie_for pats ws a.

#[local] Abbreviation f := (first_idx pats).
#[local] Abbreviation n := (length ws).

Let Ht : trie_ok ws a := tf_trie _ _ _ Htf.
Let Hws : words_ok ws := trie_words _ _ Ht.

Lemma root_in : [] ∈ ws.
Proof. apply list_elem_of_lookup_2 with 0%nat. apply (w_root _ Hws). Qed.

Lemma f_in w : is_Some (f w) -> w ∈ ws.
Proof. intros [i Hi]. apply (tf_words _ _ _ Htf). right. exists w, i. split; [by apply first_idx_elem|done]. Qed.

Lemma names_bound v w : names ws v w -> 0 <= v < Z.of_nat n.
Proof. intros (k & -> & E%lookup_lt_Some). lia. Qed.

Lemma names_lsuf w : exists v, names ws v (lsuf ws w).
Proof. pose proof (lsuf_in ws w root_in) as Hin. apply list_elem_of_lookup in Hin as [k E]. by exists (Z.of_nat k), k. Qed.

Lemma out_names v w : names ws v w -> aread (out a) v = Some (default (-1) (f w)).
Proof. intros (k & -> & E). rewrite aread_nat. by apply (tf_out _ _ _ Htf). Qed.

Lemma out_sign w : (0 <=? default (-1) (f w)) = bool_decide (is_Some (f w)).
Proof.
  destruct (f w) as [i|] eqn:E; [|done]. rewrite bool_decide_eq_true_2 by done. apply Z.leb_le. apply first_idx_elem in E. cbn. by apply (tf_idx _ _ _ Htf w).
Qed.

Lemma tail_len (w : bytes) : w <> [] -> (length (lsuf ws (tail w)) < length w)%nat.
Proof. intros Hw. pose proof (lsuf_len ws (tail w)). destruct w; [done|]. cbn in *. lia. Qed.

(** The step over the link of the failure state. *)
Lemma link_step links w v : w <> [] -> names ws v (lsuf ws (tail w)) -> (exists l, aread links v = Some l /\ link_ok ws f (lsuf ws (tail w)) l) ->
  exists l, link_of a links v = Some l /\ link_ok ws f w l.
Proof.
  intros Hw Hv (l & El & Hl). unfold link_of. rewrite (out_names _ _ Hv). cbn [mbind option_bind]. rewrite out_sign. pose proof (tail_len w Hw) as Hlen.
  pose proof (found_lsuf ws f (tail w) f_in) as Hfound. case_bool_decide as Hs.
  - exists v. split; [done|]. right. exists (lsuf ws (tail w)). by split_and!.
  - exists l. split; [done|]. assert (Hf : f (lsuf ws (tail w)) = None) by (by apply eq_None_not_Some). revert Hl Hfound Hf Hlen. generalize (lsuf ws (tail w)) as u. intros u Hl Hfound Hf Hlen.
    assert (Hu : found f u = found f (tail u)) by (destruct u; [done|]; rewrite found_tail, Hf by done; done). rewrite Hu in Hfound.
    destruct Hl as [[-> Hl]|(x & Hx & Hfx & Hl & Hlx)]; [left; split; [done|congruence]|]. right. exists x. split_and!; [done|done|congruence|lia].
Qed.

(** ** The children of every state *)

Definition row_raw (g : list Z) (x : nat) (w : bytes) : Prop := forall c, 0 <= c < 256 -> raw_is ws g x w c.
Definition row_empty (g : list Z) (x : nat) : Prop := forall c, 0 <= c < 256 -> aread g (cell x c) = Some (-1).
Definition other_rows (g g' : list Z) (x : nat) : Prop := forall y c, y <> x -> 0 <= c < 256 -> aread g' (cell y c) = aread g (cell y c).

Lemma dense_row_spec g s w : ws !! s = Some w -> length g = (n * 256)%nat -> row_empty g s ->
  exists g', dense_row a g (Z.of_nat s) = Some g' /\ length g' = length g /\ row_raw g' s w /\ other_rows g g' s.
Proof.
  intros Es Hlen Hrow. destruct (children_spec ws a s w Ht Es) as (cs & Ecs & Hk & _). unfold dense_row. rewrite Ecs. cbn [mbind option_bind].
  pose proof (kids_bytes ws a w cs Ht Hk) as Hb. rewrite Forall_forall in Hb. destruct Hk as [Hnd Hk]. assert (Hs : (s < n)%nat) by (by apply lookup_lt_Some in Es).
  destruct (each_inv (fun g ct => awrite g (Z.of_nat s * DYN_AC_ALPHABET + ct.1) ct.2)
    (fun pre g' => length g' = length g /\ other_rows g g' s /\ (forall c t, (c, t) ∈ pre -> aread g' (cell s c) = Some t) /\ (forall c, 0 <= c < 256 -> c ∉ pre.*1 -> aread g' (cell s c) = Some (-1)))
    cs) with (s := g) as (g' & E & Hl & Ho & Hin & Hout).
  - intros pre [c t] post g1 Ecs' (Hl & Ho & Hin & Hout). assert (Hc : 0 <= c < 256) by (apply Hb; rewrite Ecs', fmap_app, fmap_cons; apply elem_of_app; right; left).
    assert (Hnew : c ∉ pre.*1) by (rewrite Ecs', fmap_app, fmap_cons in Hnd; apply NoDup_app in Hnd as (_ & Hx & _); intros Hp; apply (Hx c Hp); left).
    destruct (awrite_spec g1 (cell s c) t) as (g2 & E2 & L2 & R2 & O2); [rewrite Hl, Hlen; by apply cell_bound|]. exists g2. split; [done|]. split_and!; [congruence|..].
    + intros y d Hy Hd. rewrite O2; [by apply Ho|]. intros Heq. by apply cell_inj in Heq as [-> _].
    + intros d u [Hp|Hp%list_elem_of_singleton]%elem_of_app; [|by injection Hp as -> ->]. rewrite O2; [by apply Hin|].
      assert (Hd : d ∈ pre.*1) by (apply list_elem_of_fmap; by exists (d, u)). assert (0 <= d < 256) by (apply Hb; rewrite Ecs', fmap_app; apply elem_of_app; by left). intros Heq. apply cell_inj in Heq as [_ ->]; done.
    + intros d Hd Hn. rewrite fmap_app in Hn. apply not_elem_of_app in Hn as [Hn1 Hn2]. rewrite O2; [by apply Hout|]. intros Heq. apply cell_inj in Heq as [_ ->]; [|done|done]. apply Hn2. left.
  - split_and!; [done|done|by intros c t ?%not_elem_of_nil|by intros c Hc _; apply Hrow].
  - exists g'. split_and!; [done|done| |done]. intros c Hc. destruct (decide (c ∈ cs.*1)) as [Hin'|Hn].
    + apply list_elem_of_fmap in Hin' as ([c' t] & -> & Hct). exists t. split; [by apply Hin|]. right. by apply Hk.
    + exists (-1). split; [by apply Hout|]. left. split; [lia|]. intros (k & Ek)%list_elem_of_lookup. apply Hn, list_elem_of_fmap. exists (c, Z.of_nat k). split; [done|]. apply Hk. by exists k.
Qed.

Lemma dense_rows_spec : exists g, each (dense_row a) (Z.of_nat <$> seq 0 n) (replicate (n * 256) (-1)) = Some g /\ length g = (n * 256)%nat /\ forall x w, ws !! x = Some w -> row_raw g x w.
Proof.
  destruct (each_inv (dense_row a) (fun pre g => length g = (n * 256)%nat /\ (forall x w, Z.of_nat x ∈ pre -> ws !! x = Some w -> row_raw g x w) /\ (forall x, (x < n)%nat -> Z.of_nat x ∉ pre -> row_empty g x))
    (Z.of_nat <$> seq 0 n)) with (s := replicate (n * 256) (-1)) as (g & E & Hl & Hr & _).
  - intros pre x post g El (Hl & Hdone & Htodo). assert (Hx : x ∈ Z.of_nat <$> seq 0 n) by (rewrite El; apply elem_of_app; right; left). apply list_elem_of_fmap in Hx as (s & -> & Hs%elem_of_seq).
    assert (Hnd : NoDup (Z.of_nat <$> seq 0 n)) by (apply NoDup_fmap_2; [apply _|apply NoDup_seq]). rewrite El in Hnd. apply NoDup_app in Hnd as (_ & Hx & _).
    assert (Hns : Z.of_nat s ∉ pre) by (intros Hp; apply (Hx _ Hp); left). destruct (lookup_lt_is_Some_2 ws s) as [w Es]; [lia|].
    destruct (dense_row_spec g s w Es Hl (Htodo s ltac:(lia) Hns)) as (g' & E' & Hl' & Hraw & Hoth). exists g'. split; [done|]. split_and!; [congruence|..].
    + intros y v [Hy|Hy%list_elem_of_singleton]%elem_of_app Ey.
      * intros c Hc. destruct (Hdone y v Hy Ey c Hc) as (u & Eu & Hu). exists u. split; [|done]. rewrite Hoth; [done| |done]. by intros ->.
      * apply Nat2Z.inj in Hy as ->. by rewrite Es in Ey; injection Ey as <-.
    + intros y Hy Hny. apply not_elem_of_app in Hny as [Hn1 Hn2]. intros c Hc. rewrite Hoth; [by apply Htodo| |done]. intros ->. apply Hn2. left.
  - rewrite length_replicate. split_and!; [done|by intros x w ?%not_elem_of_nil|]. intros x Hx _ c Hc. pose proof (cell_bound n x c Hx Hc). unfold aread.
    rewrite (proj2 (Z.ltb_ge _ _)) by lia. apply lookup_replicate_2. lia.
  - exists g. split_and!; [done|done|]. intros x w Ex. apply Hr; [|done]. apply list_elem_of_fmap. exists x. split; [done|]. apply elem_of_seq. apply lookup_lt_Some in Ex. lia.
Qed.

(** ** Visiting the states *)

(** The states of [q] before [head] are done, those after are waiting. *)
Record dense_inv (q : list nat) (head : nat) (st : dense_st) : Prop := {
  di_go : length (d_go st) = (n * 256)%nat;
  di_fail : length (d_fail st) = n;
  di_link : length (d_link st) = n;
  di_queue : d_queue st = Z.of_nat <$> q;
  di_fails : forall x, x ∈ q -> fail_is ws (d_fail st) x;
  di_links : forall x, x = 0%nat \/ x ∈ take head q -> link_is ws f (d_link st) x;
  di_done : forall x w c, ws !! x = Some w -> w = [] \/ x ∈ take head q -> 0 <= c < 256 -> go_is ws (d_go st) x w c;
  di_raw : forall x w c, ws !! x = Some w -> w <> [] -> x ∉ take head q -> 0 <= c < 256 -> raw_is ws (d_go st) x w c
}.

Lemma states_n : n_states a = Z.of_nat n.
Proof. unfold n_states. by rewrite (t_fail _ _ Ht), length_replicate. Qed.

Lemma enqueue_ok q s : (length q < n)%nat -> enqueue a (Z.of_nat <$> q) (Z.of_nat s) = Some (Z.of_nat <$> (q ++ [s])).
Proof. intros Hq. unfold enqueue. rewrite states_n, length_fmap, (proj2 (Z.leb_gt _ _)) by lia. by rewrite fmap_app. Qed.

(** A child met in the order of the alphabet: the queue has room for it. *)
Lemma kid_room q head w pre c post k : bfs_ok ws (q ++ omap (kidx ws w) alphabet) head -> alphabet = pre ++ c :: post -> kidx ws w c = Some k -> (length (q ++ omap (kidx ws w) pre) < n)%nat.
Proof.
  intros Hb E Ek. apply (bfs_bound ws Hws) in Hb. rewrite E, omap_app in Hb. cbn in Hb. rewrite Ek, !length_app in Hb. cbn [length] in Hb. rewrite length_app. lia.
Qed.

Lemma raw_child g x w c v : aread g (cell x c) = Some v -> raw_is ws g x w c -> if v <? 0 then kidx ws w c = None /\ w ++ [c] ∉ ws else exists k, v = Z.of_nat k /\ kidx ws w c = Some k /\ ws !! k = Some (w ++ [c]).
Proof.
  intros Ev (u & Eu & Hu). rewrite Ev in Eu. injection Eu as <-. destruct Hu as [[Hv Hn]|(k & -> & Ek)].
  - rewrite (proj2 (Z.ltb_lt _ _)) by done. split; [|done]. destruct (kidx ws w c) as [k|] eqn:Ek; [|done]. apply kidx_spec in Ek; [|apply (t_nodup _ _ Ht)]. destruct Hn. by apply list_elem_of_lookup_2 with k.
  - rewrite (proj2 (Z.ltb_ge _ _)) by lia. exists k. split_and!; [done| |done]. by apply kidx_spec; [apply (t_nodup _ _ Ht)|].
Qed.

Lemma omap_snoc w pre c : omap (kidx ws w) (pre ++ [c]) = omap (kidx ws w) pre ++ option_list (kidx ws w c).
Proof. rewrite omap_app. cbn. by destruct (kidx ws w c). Qed.

(** A write to the failure states of one state. *)
Lemma fail_write fails k w v : length fails = n -> ws !! k = Some w -> names ws v (lsuf ws (tail w)) ->
  exists fails', awrite fails (Z.of_nat k) v = Some fails' /\ length fails' = n /\ fail_is ws fails' k /\ forall x, fail_is ws fails x -> x <> k -> fail_is ws fails' x.
Proof.
  intros Hl Ek Hv. destruct (awrite_spec fails (Z.of_nat k) v) as (l' & E & L & R & O); [rewrite Hl; apply lookup_lt_Some in Ek; lia|]. exists l'. split_and!; [done|congruence| |].
  - intros w' Ew. rewrite Ek in Ew. injection Ew as <-. by exists v.
  - intros x Hx Hxk w' Ew. destruct (Hx w' Ew) as (u & Eu & Hu). exists u. split; [|done]. rewrite O; [done|]. lia.
Qed.

(** One row, byte by byte: the first [pre] bytes of the row of [s] are done. *)
Record row_inv (q : list nat) (s : nat) (w : bytes) (g0 links : list Z) (pre : list Z) (st : dense_st) : Prop := {
  ri_go : length (d_go st) = (n * 256)%nat;
  ri_fail : length (d_fail st) = n;
  ri_link : d_link st = links;
  ri_queue : d_queue st = Z.of_nat <$> (q ++ omap (kidx ws w) pre);
  ri_fails : forall x, x ∈ q ++ omap (kidx ws w) pre -> fail_is ws (d_fail st) x;
  ri_done : forall c, c ∈ pre -> go_is ws (d_go st) s w c;
  ri_todo : forall c, 0 <= c < 256 -> c ∉ pre -> aread (d_go st) (cell s c) = aread g0 (cell s c);
  ri_other : other_rows g0 (d_go st) s
}.

(** The next cell: [u] is the target of the transition of the failure state. *)
Lemma row_step q head s w g0 links pre c post st v u : bfs_ok ws (q ++ omap (kidx ws w) alphabet) head -> ws !! s = Some w -> alphabet = pre ++ c :: post ->
  row_inv q s w g0 links pre st -> aread (d_go st) (cell s c) = Some v -> raw_is ws g0 s w c -> (w ++ [c] ∉ ws -> names ws u (lsuf ws (w ++ [c]))) -> names ws u (lsuf ws (tail (w ++ [c]))) ->
  exists st', (if v <? 0 then l ← awrite (d_go st) (cell s c) u; Some (mk_dense l (d_fail st) (d_link st) (d_queue st))
    else f ← awrite (d_fail st) v u; q ← enqueue a (d_queue st) v; Some (mk_dense (d_go st) f (d_link st) q)) = Some st' /\ row_inv q s w g0 links (pre ++ [c]) st'.
Proof.
  intros Hb Es El [H1 H2 H3 H4 H5 H6 H7 H8] Ev Hraw Hu Hfu. destruct (alphabet_split _ _ _ El) as [Hc Hnc]. assert (Hs : (s < n)%nat) by (by apply lookup_lt_Some in Es).
  rewrite (H7 c Hc Hnc) in Ev. pose proof (raw_child _ _ _ _ _ Ev Hraw) as Hkid. destruct (v <? 0).
  - destruct Hkid as [Ek Hn]. destruct (awrite_spec (d_go st) (cell s c) u) as (g' & E & L & R & O); [rewrite H1; by apply cell_bound|]. rewrite E. cbn [mbind option_bind]. eexists. split; [done|].
    split; cbn [d_go d_fail d_link d_queue]; rewrite ?omap_snoc, ?Ek; cbn [option_list]; rewrite ?app_nil_r; try done; [congruence|..].
    + intros d [Hd|Hd%list_elem_of_singleton]%elem_of_app; [|subst; exists u; split; [done|by apply Hu]]. destruct (H6 d Hd) as (x & Ex & Hx). exists x. split; [|done]. rewrite O; [done|].
      assert (0 <= d < 256) by (apply elem_alphabet; rewrite El; apply elem_of_app; by left). intros Heq. apply cell_inj in Heq as [_ ->]; done.
    + intros d Hd [Hn1 Hn2]%not_elem_of_app. rewrite O; [by apply H7|]. intros Heq. apply cell_inj in Heq as [_ ->]; [|done|done]. apply Hn2. left.
    + intros y d Hy Hd. rewrite O; [by apply H8|]. intros Heq. by apply cell_inj in Heq as [-> _].
  - destruct Hkid as (k & -> & Ek & Ewk). destruct (fail_write (d_fail st) k (w ++ [c]) u H2 Ewk Hfu) as (fl & E & L & R & O). rewrite E. cbn [mbind option_bind].
    rewrite H4, (enqueue_ok _ k) by (by apply (kid_room q head w pre c post k)). cbn [mbind option_bind]. eexists. split; [done|].
    split; cbn [d_go d_fail d_link d_queue]; rewrite ?omap_snoc, ?Ek; cbn [option_list]; rewrite ?app_assoc; try done.
    + intros x [Hx|Hx%list_elem_of_singleton]%elem_of_app; [|by subst]. destruct (decide (x = k)) as [->|Hxk]; [done|]. apply O; [|done]. by apply H5.
    + intros d [Hd|Hd%list_elem_of_singleton]%elem_of_app; [by apply H6|]. subst d. exists (Z.of_nat k). rewrite (H7 c Hc Hnc). split; [done|]. rewrite lsuf_id by (by apply list_elem_of_lookup_2 with k). by exists k.
    + intros d Hd [Hn1 _]%not_elem_of_app. by apply H7.
Qed.

Lemma dense_root_spec g : length g = (n * 256)%nat -> (forall x w, ws !! x = Some w -> row_raw g x w) ->
  exists st, each (dense_root a) alphabet (mk_dense g (fail a) (out_link a) []) = Some st /\ dense_inv (omap (kidx ws []) alphabet) 0 st.
Proof.
  intros Hg Hraw. pose proof (w_root _ Hws) as E0. pose proof (bfs_start ws _ (kids_alphabet ws a [] Ht)) as Hb.
  assert (Hroot : names ws 0 []) by (by exists 0%nat).
  destruct (each_inv (dense_root a) (row_inv [] 0 [] g (out_link a)) alphabet) with (s := mk_dense g (fail a) (out_link a) []) as (st & E & [H1 H2 H3 H4 H5 H6 H7 H8]).
  - intros pre c post st El Hr. destruct (alphabet_split _ _ _ El) as [Hc Hnc]. destruct (Hraw 0%nat [] E0 c Hc) as (v & Ev & Hv).
    assert (Ec : cell 0 c = c) by (unfold cell, DYN_AC_ALPHABET; lia). pose proof (ri_todo _ _ _ _ _ _ _ Hr c Hc Hnc) as Etodo. rewrite Ev in Etodo.
    unfold dense_root. rewrite <- Ec. rewrite Etodo. cbn [mbind option_bind].
    apply (row_step [] 0 0 [] g (out_link a) pre c post st v 0 Hb E0 El Hr Etodo (Hraw 0%nat [] E0 c Hc)); cbn [app tail].
    + intros Hn. rewrite lsuf_cons by done. by rewrite (lsuf_id ws []) by apply root_in.
    + by rewrite (lsuf_id ws []) by apply root_in.
  - split; cbn [d_go d_fail d_link d_queue]; try done; [by rewrite (t_fail _ _ Ht), length_replicate|by intros x ?%not_elem_of_nil|by intros c ?%not_elem_of_nil].
  - exists st. split; [done|]. cbn [app] in *. split; try done.
    + by rewrite H3, (t_link _ _ Ht), length_replicate.
    + intros x [->|Hx]; [|by apply not_elem_of_nil in Hx]. intros w Ew. rewrite E0 in Ew. injection Ew as <-. exists (-1). rewrite H3, (t_link _ _ Ht). split; [|by left].
      rewrite aread_nat. apply lookup_replicate_2. apply lookup_lt_Some in E0. lia.
    + intros x w c Ex [->|Hx] Hc; [|by apply not_elem_of_nil in Hx]. apply (root_only ws Hws) in Ex as ->. apply H6. by apply elem_alphabet.
    + intros x w c Ex Hw _ Hc. destruct (Hraw x w Ex c Hc) as (v & Ev & Hv). exists v. split; [|done]. rewrite H8; [done| |done]. intros ->. rewrite E0 in Ex. by injection Ex as <-.
Qed.

(** The row of a state from those of shallower ones. *)
Lemma dense_cells_spec q head s w st links : bfs_ok ws q head -> q !! head = Some s -> ws !! s = Some w -> dense_inv q head st ->
  exists st', each (dense_cell a (Z.of_nat s)) alphabet (mk_dense (d_go st) (d_fail st) links (d_queue st)) = Some st' /\ row_inv q s w (d_go st) links alphabet st'.
Proof.
  intros Hb Eq Es [H1 H2 H3 H4 H5 H6 H7 H8]. pose proof (bfs_step ws Hws q head s w _ Hb Eq Es (kids_alphabet ws a w Ht)) as Hb'.
  assert (Hsq : s ∈ q) by (by apply list_elem_of_lookup_2 with head). destruct (b_states _ _ _ Hb s Hsq) as (w' & Ew & Hw). rewrite Es in Ew. injection Ew as <-.
  assert (Hnh : s ∉ take head q). { intros Hin. apply list_elem_of_lookup in Hin as [k Ek]. apply lookup_take_Some in Ek as [Ek Hk]. pose proof (NoDup_lookup _ _ _ _ (b_nodup _ _ _ Hb) Ek Eq). lia. }
  apply (each_inv (dense_cell a (Z.of_nat s)) (row_inv q s w (d_go st) links)).
  - intros pre c post st1 El Hr. destruct (alphabet_split _ _ _ El) as [Hc Hnc]. pose proof (H8 s w c Es Hw Hnh Hc) as Hraw. destruct Hraw as (v & Ev & Hv).
    pose proof (ri_todo _ _ _ _ _ _ _ Hr c Hc Hnc) as Etodo. rewrite Ev in Etodo. unfold dense_cell. fold (cell s c). rewrite Etodo. cbn [mbind option_bind].
    destruct (ri_fails _ _ _ _ _ _ _ Hr s ltac:(apply elem_of_app; by left) w Es) as (fs & Efs & k & -> & Ek). rewrite Efs. cbn [mbind option_bind]. fold (cell k c).
    pose proof (tail_len w Hw) as Hlen. assert (Hks : k <> s) by (intros ->; rewrite Es in Ek; injection Ek as Ek; rewrite <- Ek in Hlen; lia).
    rewrite (ri_other _ _ _ _ _ _ _ Hr k c Hks Hc). destruct (H7 k _ c Ek ltac:(by apply (bfs_before ws q head s w)) Hc) as (u & Eu & Hu). rewrite Eu. cbn [mbind option_bind].
    rewrite <- (lsuf_step ws (tail w) c (w_prefix _ Hws) root_in) in Hu. assert (Htw : tail (w ++ [c]) = tail w ++ [c]) by (by destruct w).
    apply (row_step q (S head) s w (d_go st) links pre c post st1 v u Hb' Es El Hr Etodo); [exists v; by split| |by rewrite Htw].
    intros Hn. destruct w as [|b w]; [done|]. change ((b :: w) ++ [c]) with (b :: (w ++ [c])). by rewrite lsuf_cons.
  - split; cbn [d_go d_fail d_link d_queue]; rewrite ?app_nil_r; try done. by intros c ?%not_elem_of_nil.
Qed.

Lemma dense_step q head s w st : bfs_ok ws q head -> q !! head = Some s -> ws !! s = Some w -> dense_inv q head st ->
  exists st', (fs ← aread (d_fail st) (Z.of_nat s); l ← link_of a (d_link st) fs; links ← awrite (d_link st) (Z.of_nat s) l;
      each (dense_cell a (Z.of_nat s)) alphabet (mk_dense (d_go st) (d_fail st) links (d_queue st))) = Some st' /\
    dense_inv (q ++ omap (kidx ws w) alphabet) (S head) st'.
Proof.
  intros Hb Eq Es Hi. pose proof Hi as [H1 H2 H3 H4 H5 H6 H7 H8]. assert (Hsq : s ∈ q) by (by apply list_elem_of_lookup_2 with head).
  destruct (b_states _ _ _ Hb s Hsq) as (w' & Ew & Hw). rewrite Es in Ew. injection Ew as <-. assert (Hhd : (head < length q)%nat) by (by apply lookup_lt_Some in Eq).
  destruct (H5 s Hsq w Es) as (fs & Efs & k & -> & Ek). rewrite Efs. cbn [mbind option_bind].
  assert (Hk0 : k = 0%nat \/ k ∈ take head q). { destruct (bfs_before ws q head s w k _ Hb Eq Es Ek (tail_len w Hw)) as [E0|]; [left|by right]. rewrite E0 in Ek. by apply (root_only ws Hws). }
  destruct (link_step (d_link st) w (Z.of_nat k) Hw ltac:(by exists k) (H6 k Hk0 _ Ek)) as (l & -> & Hl). cbn [mbind option_bind].
  destruct (awrite_spec (d_link st) (Z.of_nat s) l) as (links & -> & L & R & O); [rewrite H3; apply lookup_lt_Some in Es; lia|]. cbn [mbind option_bind].
  destruct (dense_cells_spec q head s w st links Hb Eq Es Hi) as (st' & E & [R1 R2 R3 R4 R5 R6 R7 R8]). exists st'. split; [done|].
  assert (Htake : forall ks, take (S head) (q ++ ks) = take head q ++ [s]) by (intros ks; rewrite take_app_le by lia; by apply take_S_r).
  split; rewrite ?Htake; try done.
  - by rewrite R3, L.
  - rewrite R3. intros x Hx. destruct (decide (x = s)) as [->|Hxs].
    + intros w' Ew. rewrite Es in Ew. injection Ew as <-. by exists l.
    + assert (Hx' : x = 0%nat \/ x ∈ take head q) by (destruct Hx as [|[|Hx%list_elem_of_singleton]%elem_of_app]; [by left|by right|done]).
      intros w' Ew. destruct (H6 x Hx' w' Ew) as (l' & El & Hl'). exists l'. split; [|done]. rewrite O; [done|]. lia.
  - intros x w' c Ex Hx Hc. destruct (decide (x = s)) as [->|Hxs]; [rewrite Es in Ex; injection Ex as <-; apply R6; by apply elem_alphabet|].
    assert (Hx' : w' = [] \/ x ∈ take head q) by (destruct Hx as [|[|Hx%list_elem_of_singleton]%elem_of_app]; [by left|by right|done]).
    destruct (H7 x w' c Ex Hx' Hc) as (v & Ev & Hv). exists v. split; [|done]. by rewrite R8.
  - intros x w' c Ex Hw' [Hx1 Hx2]%not_elem_of_app Hc. assert (x <> s) by (intros ->; apply Hx2; left). destruct (H8 x w' c Ex Hw' Hx1 Hc) as (v & Ev & Hv). exists v. split; [|done]. by rewrite R8.
Qed.

Lemma dense_bfs_spec : forall fuel q head st, bfs_ok ws q head -> dense_inv q head st -> (n <= head + fuel)%nat ->
  exists st' q', dense_bfs fuel a head st = Some st' /\ bfs_ok ws q' (length q') /\ dense_inv q' (length q') st'.
Proof.
  induction fuel as [|fuel IH]; intros q head st Hb Hi Hf.
  - pose proof (bfs_bound ws Hws q head Hb). pose proof (b_head _ _ _ Hb). lia.
  - cbn [dense_bfs]. rewrite (di_queue _ _ _ Hi), length_fmap. destruct (Nat.ltb_spec head (length q)) as [Hlt|Hge].
    + destruct (lookup_lt_is_Some_2 _ _ Hlt) as [s Eq]. rewrite list_lookup_fmap, Eq. cbn [fmap option_fmap option_map mbind option_bind].
      destruct (b_states _ _ _ Hb s ltac:(by apply list_elem_of_lookup_2 with head)) as (w & Ew & _).
      destruct (dense_step q head s w st Hb Eq Ew Hi) as (st' & E & Hi'). rewrite (di_queue _ _ _ Hi) in E. revert E.
      destruct (aread (d_fail st) (Z.of_nat s)) as [fs|]; [|done]. cbn [mbind option_bind]. destruct (link_of _ _ fs) as [l|]; [|done]. cbn [mbind option_bind].
      destruct (awrite (d_link st) _ l) as [links|]; [|done]. cbn [mbind option_bind]. intros ->. cbn [mbind option_bind].
      apply (IH (q ++ omap (kidx ws w) alphabet)); [|done|lia]. apply (bfs_step ws Hws q head s w); try done. by apply (kids_alphabet ws a).
    + exists st, q. assert (head = length q) as -> by (pose proof (b_head _ _ _ Hb); lia). by split_and!.
Qed.

Lemma dense_core : exists g0 st0 st, each (dense_row a) (Z.of_nat <$> seq 0 n) (replicate (n * 256) (-1)) = Some g0 /\
  each (dense_root a) alphabet (mk_dense g0 (fail a) (out_link a) []) = Some st0 /\ dense_bfs n a 0 st0 = Some st /\
  length (d_fail st) = n /\ (forall x, (x < n)%nat -> link_is ws f (d_link st) x) /\ forall x w c, ws !! x = Some w -> 0 <= c < 256 -> go_is ws (d_go st) x w c.
Proof.
  destruct dense_rows_spec as (g0 & E0 & Hl0 & Hr0). destruct (dense_root_spec g0 Hl0 Hr0) as (st0 & E1 & Hi0).
  destruct (dense_bfs_spec n _ 0 st0 (bfs_start ws _ (kids_alphabet ws a [] Ht)) Hi0 ltac:(lia)) as (st & q & E2 & Hb & [H1 H2 H3 H4 H5 H6 H7 H8]).
  exists g0, st0, st. rewrite take_ge in H6, H7 by lia. split_and!; try done.
  - intros x Hx. destruct (lookup_lt_is_Some_2 _ _ Hx) as [w Ew]. apply H6. destruct w as [|b w]; [left; by apply (root_only ws Hws)|right]. by apply (bfs_all ws Hws q Hb (b :: w)).
  - intros x w c Ex Hc. apply H7; [done| |done]. destruct w as [|b w]; [by left|right]. by apply (bfs_all ws Hws q Hb (b :: w)).
Qed.

End Dense.

Lemma malloc_both_sub mem ok mem' : malloc_both mem = (ok, mem') -> sub_mem mem' mem /\ (ok = false -> false ∈ mem).
Proof.
  unfold malloc_both. intros [= <- <-]. split.
  - intros b Hb. destruct mem as [|b1 [|b2 mem]]; [done|by apply not_elem_of_nil in Hb|by right; right].
  - destruct mem as [|[|] [|[|] mem]]; try done; intros _; [right; left|left|left|left].
Qed.

(** ac_build_dense gives the automaton, or an allocation failed. *)
Lemma dense_build_spec pats ws a : trie_for pats ws a -> exists rc a', ac_build_dense a = Some (rc, a') /\ (rc = -1 /\ false ∈ amem a \/
  rc = 0 /\ sub_mem (amem a') (amem a) /\ exists g, go a' = Some g /\ out a' = out a /\ length (fail a') = length ws /\ (forall x, (x < length ws)%nat -> link_is ws (first_idx pats) (out_link a') x) /\
    forall x w c, ws !! x = Some w -> 0 <= c < 256 -> go_is ws g x w c).
Proof.
  intros Htf. unfold ac_build_dense. destruct (mallocs 1 (amem a)) as [ok mem] eqn:E1. apply mallocs_sub in E1 as [S1 F1].
  destruct ok; cbn [negb]; [|eexists _, _; split; [done|]; left; split; [done|by apply F1]].
  destruct (malloc_both mem) as [ok mem2] eqn:E2. apply malloc_both_sub in E2 as [S2 F2]. destruct ok; cbn [negb]; [|eexists _, _; split; [done|]; left; split; [done|by apply S1, F2]].
  destruct (mallocs 1 mem2) as [ok mem3] eqn:E3. apply mallocs_sub in E3 as [S3 F3]. destruct ok; cbn [negb]; [|eexists _, _; split; [done|]; left; split; [done|by apply S1, S2, F3]].
  set (a1 := set_mem a mem3). assert (Htf1 : trie_for pats ws a1) by (apply (trie_for_mem pats ws a mem3 Htf)). assert (Hlen : length (fail a1) = length ws) by (by rewrite (t_fail _ _ (tf_trie _ _ _ Htf1)), length_replicate).
  assert (Hout : out a1 = out a) by done. assert (Hmem : sub_mem (amem a1) (amem a)) by (intros b Hb; by apply S1, S2, S3). clearbody a1. rewrite Hlen. destruct (dense_core pats ws a1 Htf1) as (g0 & st0 & st & -> & Er & Eb & Hf & Hl & Hg). cbn [mbind option_bind].
  rewrite Er. cbn [mbind option_bind]. rewrite Eb. cbn [mbind option_bind]. eexists 0, _. split; [done|]. right. split; [done|]. split; [done|]. exists (d_go st). split_and!; done.
Qed.
