(* ===== verification/AcCompact.v ===== *)
(** * The packed table of transitions

    ac_build_compact puts the rows of all states into one array: the transition
    of the state [s] on the byte [c] is at base[s] + c, and the slot names the
    state it belongs to.  This file has the invariant of the table, the proof
    that every row finds a place (the table is doubled only when it is needed,
    and never grows beyond what the 32 bits of a base hold), and the proof that
    the build gives the same automaton as the full table. *)
From Stdlib Require Import ZArith Lia List Sorted.
From stdpp Require Import base numbers option list gmap.
From S2P Require Import Prelude Ac AcTrie AcBuild AcDense.

#[local] Opaque alphabet.

(** ** Slots *)

Definition busy (t : list dyn_ac_slot) (k : Z) : Prop := exists sl, aread t k = Some sl /\ slot_check sl <> 0.

(** The transition of the trie, with the loop of the root. *)
Definition goto (ws : list bytes) (w : bytes) (c : Z) : option nat :=
  match kidx ws w c with Some k => Some k | None => match w with [] => Some 0%nat | _ :: _ => None end end.

(** The rows of the root and of the states of [done] are in the table. *)
Record packed (ws : list bytes) (done : list nat) (t : list dyn_ac_slot) (cap : Z) (bases : list Z) : Prop := {
  p_len : Z.of_nat (length t) = cap + 256;
  p_cap : 256 <= cap;
  p_bases : forall s, (s < length ws)%nat -> exists b, aread bases (Z.of_nat s) = Some b /\ 0 <= b < cap;
  p_root : aread bases 0 = Some 0;
  p_has : forall s w c v, ws !! s = Some w -> w = [] \/ s ∈ done -> 0 <= c < 256 -> goto ws w c = Some v ->
    exists b, aread bases (Z.of_nat s) = Some b /\ aread t (b + c) = Some (mk_slot (Z.of_nat v) (Z.of_nat s + 1));
  p_only : forall k sl, aread t k = Some sl -> slot_check sl <> 0 -> k < cap /\
    exists s w c b v, ws !! s = Some w /\ (w = [] \/ s ∈ done) /\ 0 <= c < 256 /\ aread bases (Z.of_nat s) = Some b /\ k = b + c /\ goto ws w c = Some v /\
      sl = mk_slot (Z.of_nat v) (Z.of_nat s + 1)
}.

(** No slot between the root's and the hint is free. *)
Definition hint_ok (t : list dyn_ac_slot) (cap hint : Z) : Prop := 256 <= hint <= cap /\ forall j, 256 <= j < hint -> busy t j.

(** The most that the table grows to, for [n] states. *)
Definition cap_max (n : nat) : Z := 2 * (256 * (256 + Z.of_nat n) + 512).

Lemma cap_max_fits n : Z.of_nat n <= DYN_AC_MAX_STATES -> cap_max n + 256 < 2 ^ 31.
Proof. unfold cap_max. change DYN_AC_MAX_STATES with 262144. lia. Qed.

Lemma omap_len_le {A B} (g : A -> option B) l : (length (omap g l) <= length l)%nat.
Proof. induction l as [|x l IH]; [done|]. cbn. destruct (g x); cbn; lia. Qed.

Section Table.
Variables (ws : list bytes).
Hypothesis Hws : words_ok ws.
#[local] Abbreviation n := (length ws).

Lemma kidx_iff w c k : kidx ws w c = Some k <-> ws !! k = Some (w ++ [c]).
Proof. apply kidx_spec, (w_nodup _ Hws). Qed.

Lemma goto_kid w c k : ws !! k = Some (w ++ [c]) -> goto ws w c = Some k.
Proof. intros E. unfold goto. by rewrite (proj2 (kidx_iff _ _ _) E). Qed.

Lemma goto_inv w c v : goto ws w c = Some v -> ws !! v = Some (w ++ [c]) \/ (w = [] /\ v = 0%nat /\ [c] ∉ ws).
Proof.
  unfold goto. destruct (kidx ws w c) as [k|] eqn:E; [intros [= <-]; left; by apply kidx_iff|]. destruct w; [|done]. intros [= <-]. right. split_and!; [done|done|].
  intros (k & Ek)%list_elem_of_lookup. apply (kidx_iff [] c k) in Ek. congruence.
Qed.

Lemma goto_lt w c v : goto ws w c = Some v -> (v < n)%nat.
Proof. intros [E%lookup_lt_Some|(_ & -> & _)]%goto_inv; [done|]. by pose proof (lookup_lt_Some _ _ _ (w_root _ Hws)). Qed.

Section Packed.
Variables (done : list nat) (t : list dyn_ac_slot) (cap : Z) (bases : list Z).
Hypothesis Hp : packed ws done t cap bases.

Lemma slot_at k : 0 <= k < cap + 256 -> exists sl, aread t k = Some sl.
Proof. intros Hk. unfold aread. rewrite (proj2 (Z.ltb_ge _ _)) by lia. apply lookup_lt_is_Some_2. pose proof (p_len _ _ _ _ _ Hp). lia. Qed.

Lemma free_or_busy k : 0 <= k < cap + 256 -> (exists sl, aread t k = Some sl /\ slot_check sl = 0) \/ busy t k.
Proof. intros Hk. destruct (slot_at k Hk) as [sl E]. destruct (decide (slot_check sl = 0)); [left|right]; by exists sl. Qed.

Lemma busy_lt k : busy t k -> 0 <= k < cap.
Proof. intros (sl & E & Hc). pose proof (aread_some _ _ _ E). pose proof (p_only _ _ _ _ _ Hp k sl E Hc) as [? _]. lia. Qed.

(** The slot of a state and a byte is its own exactly when it has the transition. *)
Lemma slot_hit s w c : ws !! s = Some w -> w = [] \/ s ∈ done -> 0 <= c < 256 -> exists b sl, aread bases (Z.of_nat s) = Some b /\ 0 <= b < cap /\ aread t (b + c) = Some sl /\
  match goto ws w c with Some v => sl = mk_slot (Z.of_nat v) (Z.of_nat s + 1) | None => slot_check sl <> Z.of_nat s + 1 end.
Proof.
  intros Es Hs Hc. destruct (p_bases _ _ _ _ _ Hp s) as (b & Eb & Hb); [by apply lookup_lt_Some in Es|]. destruct (slot_at (b + c) ltac:(lia)) as [sl Esl]. exists b, sl. split_and!; [done|lia|lia|done|].
  destruct (goto ws w c) as [v|] eqn:Eg.
  - destruct (p_has _ _ _ _ _ Hp s w c v Es Hs Hc Eg) as (b' & Eb' & E'). rewrite Eb in Eb'. injection Eb' as <-. rewrite Esl in E'. by injection E'.
  - intros Hck. destruct (p_only _ _ _ _ _ Hp _ sl Esl ltac:(lia)) as (_ & s' & w' & c' & b' & v & Es' & _ & _ & Eb' & Ek & Eg' & ->). cbn in Hck.
    assert (s' = s) as -> by lia. rewrite Es in Es'. injection Es' as <-. rewrite Eb in Eb'. injection Eb' as <-. assert (c' = c) as -> by lia. congruence.
Qed.

(** The places that are taken, one for every state and one for every byte of the root. *)
Definition place_of (v : nat) : option Z :=
  w ← ws !! v; s ← fst <$> list_find (fun u => u = removelast w) ws; b ← aread bases (Z.of_nat s); Some (b + List.last w 0).
Definition taken : list Z := alphabet ++ omap place_of (seq 0 n).

Lemma taken_len : (length taken <= 256 + n)%nat.
Proof.
  unfold taken. rewrite length_app. rewrite alphabet_len.
  pose proof (omap_len_le place_of (seq 0 n)) as Hl. rewrite length_seq in Hl. lia.
Qed.

Lemma busy_taken k : busy t k -> k ∈ taken.
Proof.
  intros (sl & E & Hc). destruct (p_only _ _ _ _ _ Hp k sl E Hc) as (_ & s & w & c & b & v & Es & _ & Hcb & Eb & -> & Eg & _). apply elem_of_app.
  apply goto_inv in Eg as [Ev|(-> & -> & _)].
  - right. apply list_elem_of_omap. exists v. split; [apply elem_of_seq; apply lookup_lt_Some in Ev; lia|]. unfold place_of. rewrite Ev. cbn [mbind option_bind]. rewrite removelast_last, last_last.
    assert (Ef : list_find (fun u => u = w) ws = Some (s, w)).
    { destruct (list_find (fun u => u = w) ws) as [[s' w']|] eqn:Ef.
      - apply list_find_Some in Ef as (E1 & -> & _). by rewrite (states_inj ws Hws s s' w).
      - apply list_find_None in Ef. rewrite Forall_forall in Ef. destruct (Ef w); [by apply list_elem_of_lookup_2 with s|done]. }
    rewrite Ef. cbn [fmap option_fmap option_map fst mbind option_bind]. by rewrite Eb.
  - left. apply (root_only ws Hws) in Es as ->. rewrite (p_root _ _ _ _ _ Hp : aread bases (Z.of_nat 0) = Some 0) in Eb. injection Eb as <-. by apply elem_alphabet.
Qed.

(** When no place is left below the end, the table is small. *)
Lemma crowded : (forall j, 256 <= j < cap - 256 -> exists d, 0 <= d < 256 /\ busy t (j + d)) -> 2 * cap <= cap_max n.
Proof.
  intros Hfull. set (P := taken ≫= fun k => (fun d => k - d) <$> alphabet).
  assert (Hlen : forall l : list Z, (length (l ≫= fun k => (fun d => (k - d)%Z) <$> alphabet) = length l * 256)%nat).
  { induction l as [|x l IH]; [done|]. rewrite bind_cons, length_app, IH, length_fmap. rewrite alphabet_len. cbn [length]. lia. }
  assert (Hsub : (fun i => Z.of_nat i) <$> seq 256 (Z.to_nat (cap - 512)) ⊆+ P).
  { apply NoDup_submseteq; [apply NoDup_fmap_2; [apply _|apply NoDup_seq]|]. intros j Hj. apply list_elem_of_fmap in Hj as (i & -> & Hi%elem_of_seq).
    destruct (Hfull (Z.of_nat i) ltac:(lia)) as (d & Hd & Hb%busy_taken). apply list_elem_of_bind. exists (Z.of_nat i + d). split; [|done]. apply list_elem_of_fmap. exists d. split; [lia|by apply elem_alphabet]. }
  apply submseteq_length in Hsub. unfold P in Hsub. rewrite Hlen, length_fmap, length_seq in Hsub. pose proof taken_len. unfold cap_max. lia.
Qed.

End Packed.

(** ** The table grows *)

Definition free (t : list dyn_ac_slot) (k : Z) : Prop := exists sl, aread t k = Some sl /\ slot_check sl = 0.

Lemma free_not_busy t k : free t k -> ~ busy t k.
Proof. intros (sl & E & H) (sl' & E' & H'). congruence. Qed.

(** The other fields stay; what was taken stays taken. *)
Definition kept_by (st st' : compact_st) : Prop :=
  c_base st' = c_base st /\ c_fail st' = c_fail st /\ c_link st' = c_link st /\ c_queue st' = c_queue st /\ c_hint st' = c_hint st /\
  (forall k, busy (c_tab st) k -> busy (c_tab st') k) /\ c_cap st <= c_cap st' /\ sub_mem (c_mem st') (c_mem st).

#[local] Abbreviation packed_st done st := (packed ws done (c_tab st) (c_cap st) (c_base st)).

Lemma packed_grow done t cap bases m : packed ws done t cap bases -> 0 <= m ->
  packed ws done (take (Z.to_nat cap) t ++ replicate (Z.to_nat (m + 256)) (mk_slot 0 0)) (cap + m) bases /\
  (forall k, busy t k -> busy (take (Z.to_nat cap) t ++ replicate (Z.to_nat (m + 256)) (mk_slot 0 0)) k) /\
  (forall k, cap <= k < cap + m + 256 -> free (take (Z.to_nat cap) t ++ replicate (Z.to_nat (m + 256)) (mk_slot 0 0)) k).
Proof.
  intros Hp Hm. pose proof (p_len _ _ _ _ _ Hp) as Hl. pose proof (p_cap _ _ _ _ _ Hp) as Hc. set (t' := _ ++ _).
  assert (Hlen : Z.of_nat (length t') = cap + m + 256) by (unfold t'; rewrite length_app, length_take, length_replicate; lia).
  assert (Hlow : forall k, k < cap -> aread t' k = aread t k).
  { intros k Hk. unfold aread, t'. destruct (Z.ltb_spec k 0); [done|]. rewrite lookup_app_l by (rewrite length_take; lia). apply lookup_take_lt. lia. }
  assert (Hhigh : forall k, cap <= k < cap + m + 256 -> aread t' k = Some (mk_slot 0 0)).
  { intros k Hk. unfold aread, t'. rewrite (proj2 (Z.ltb_ge _ _)) by lia. rewrite lookup_app_r by (rewrite length_take; lia). apply lookup_replicate_2. rewrite length_take. lia. }
  split_and!.
  - split; [lia|lia| |apply (p_root _ _ _ _ _ Hp)|..].
    + intros s Hs. destruct (p_bases _ _ _ _ _ Hp s Hs) as (b & Eb & Hb). exists b. split; [done|lia].
    + intros s w c v Es Hs Hcc Eg. destruct (p_has _ _ _ _ _ Hp s w c v Es Hs Hcc Eg) as (b & Eb & E). exists b. split; [done|]. rewrite Hlow; [done|].
      apply (p_only _ _ _ _ _ Hp _ _ E). cbn. lia.
    + intros k sl E Hck. assert (Hk : k < cap) by (destruct (Z.lt_ge_cases k cap); [done|]; pose proof (aread_some _ _ _ E); rewrite Hhigh in E by lia; injection E as <-; done).
      rewrite Hlow in E by done. destruct (p_only _ _ _ _ _ Hp k sl E Hck) as [_ H]. split; [lia|done].
  - intros k Hb. pose proof (busy_lt done t cap bases Hp k Hb) as Hlt. destruct Hb as (sl & E & H). exists sl. by rewrite Hlow by lia.
  - intros k Hk. exists (mk_slot 0 0). by rewrite Hhigh.
Qed.

Lemma reserve_double done st : packed_st done st -> c_cap st < 2 ^ 31 -> exists ok st', ac_tab_reserve st (c_cap st * 2) = Some (ok, st') /\
  if ok : bool then packed_st done st' /\ c_cap st' = c_cap st * 2 /\ kept_by st st' /\ (forall k, c_cap st <= k < c_cap st' + 256 -> free (c_tab st') k) else false ∈ c_mem st.
Proof.
  intros Hp Hmax. pose proof (p_cap _ _ _ _ _ Hp) as Hc. unfold ac_tab_reserve. rewrite (proj2 (Z.eqb_neq (c_cap st) 0)) by lia. cbn [reserve_cap].
  rewrite (proj2 (Z.ltb_lt _ _)) by lia. rewrite (wrap_id 64) by (unfold fits; lia). rewrite Z.ltb_irrefl. cbn [mbind option_bind]. rewrite (proj2 (Z.eqb_neq _ _)) by lia.
  destruct (mallocs 1 (c_mem st)) as [ok mem] eqn:Em. apply mallocs_sub in Em as [Hm Hf]. destruct ok; cbn [negb]; eexists _, _; (split; [done|]); [|by apply Hf].
  destruct (packed_grow done _ _ _ (c_cap st) Hp ltac:(lia)) as (H1 & H2 & H3). cbn [with_tab c_tab c_cap c_base]. replace (c_cap st + c_cap st) with (c_cap st * 2) in * by lia.
  replace (c_cap st * 2 + 256 - c_cap st) with (c_cap st + 256) by lia. split_and!; [done|done| |done]. repeat split; try done. cbn. lia.
Qed.

(** ** The next free slot *)

Lemma tab_free_spec done st : packed_st done st -> forall fuel h, 0 <= h <= c_cap st -> c_cap st - h <= Z.of_nat fuel ->
  exists j, tab_free fuel st h = Some j /\ h <= j <= c_cap st /\ (forall k, h <= k < j -> busy (c_tab st) k) /\ (j < c_cap st -> free (c_tab st) j).
Proof.
  intros Hp. assert (Hend : forall h, h = c_cap st -> h <= h <= c_cap st /\ (forall k, h <= k < h -> busy (c_tab st) k) /\ (h < c_cap st -> free (c_tab st) h)) by (intros h ->; split_and!; intros; lia).
  induction fuel as [|fuel IH]; intros h Hh Hf; cbn [tab_free].
  - rewrite (proj2 (Z.ltb_ge _ _)) by lia. exists h. split; [done|]. apply Hend. lia.
  - destruct (Z.ltb_spec h (c_cap st)); [|exists h; split; [done|apply Hend; lia]]. destruct (slot_at done _ _ _ Hp h ltac:(lia)) as [sl E]. rewrite E. cbn [mbind option_bind].
    destruct (Z.eqb_spec (slot_check sl) 0) as [E0|E0].
    + exists h. split; [done|]. split_and!; [lia|lia|intros; lia|]. intros _. by exists sl.
    + destruct (IH (h + 1) ltac:(lia) ltac:(lia)) as (j & -> & Hj & Hb & Hfr). exists j. split; [done|]. split_and!; [lia|lia| |done]. intros k Hk. destruct (decide (k = h)) as [->|]; [by exists sl|]. apply Hb. lia.
Qed.

Lemma ac_tab_free_spec done st h : packed_st done st -> 0 <= h <= c_cap st ->
  exists j, ac_tab_free st h = Some j /\ h <= j <= c_cap st /\ (forall k, h <= k < j -> busy (c_tab st) k) /\ (j < c_cap st -> free (c_tab st) j).
Proof. intros Hp Hh. apply (tab_free_spec done st Hp); [done|]. pose proof (p_len _ _ _ _ _ Hp). lia. Qed.

(** ** A place for a row *)

Hypothesis Hn : Z.of_nat n <= DYN_AC_MAX_STATES.

Definition fits_at (st : compact_st) (cand : Z) (cs : list (Z * Z)) : Prop := forall ct, ct ∈ cs -> free (c_tab st) (cand + ct.1) /\ cand + ct.1 < c_cap st.

(** No row starts at [j] because of a slot that is taken or because of the end. *)
Definition blocked (st : compact_st) (j : Z) : Prop := (exists d, 0 <= d < 256 /\ busy (c_tab st) (j + d)) \/ c_cap st < j + 256.

Lemma kept_by_refl st : kept_by st st.
Proof. by repeat split. Qed.

Lemma blocked_small done st : packed_st done st -> (forall i, 256 <= i < c_cap st -> blocked st i) -> c_cap st * 2 <= cap_max n.
Proof. intros Hp Hb. rewrite Z.mul_comm. apply (crowded done _ _ _ Hp). intros j Hj. destruct (Hb j) as [?|?]; [lia|done|lia]. Qed.

Section Place.
Variables (done : list nat) (cs : list (Z * Z)) (b0 bl : Z).
Hypothesis Hcs : forall ct, ct ∈ cs -> b0 <= ct.1 <= bl.
Hypothesis Hb : 0 <= b0 /\ bl < 256 /\ b0 <= bl.

Lemma all_free_spec st cand : packed_st done st -> 0 <= cand < c_cap st -> forall l, (forall ct, ct ∈ l -> ct ∈ cs) ->
  exists ok, all_free st cand l = Some ok /\ if ok : bool then forall ct, ct ∈ l -> free (c_tab st) (cand + ct.1) else exists ct, ct ∈ cs /\ busy (c_tab st) (cand + ct.1).
Proof.
  intros Hp Hc. induction l as [|ct l IH]; intros Hl; cbn [all_free]; [exists true; split; [done|]; by intros ct ?%not_elem_of_nil|].
  assert (Hct : ct ∈ cs) by (apply Hl; left). specialize (Hcs ct Hct) as Hr. destruct (slot_at done _ _ _ Hp (cand + ct.1) ltac:(lia)) as [sl E]. rewrite E. cbn [mbind option_bind].
  destruct (Z.eqb_spec (slot_check sl) 0) as [E0|E0]; [|exists false; split; [done|]; exists ct; split; [done|by exists sl]].
  destruct (IH ltac:(intros x Hx; apply Hl; by right)) as (ok & -> & Hok). exists ok. split; [done|]. destruct ok; [|done]. intros x [->|Hx]%elem_of_cons; [by exists sl|by apply Hok].
Qed.

(** One candidate. *)
Lemma candidate st j : packed_st done st -> 256 <= j < c_cap st -> exists ok, (if 0 <=? j - b0 then ok ← all_free st (j - b0) cs; Some (ok && (j - b0 + bl <? c_cap st)) else Some false) = Some ok /\
  (ok = true -> fits_at st (j - b0) cs) /\ (ok = false -> blocked st j /\ ((exists ct, ct ∈ cs /\ busy (c_tab st) (j - b0 + ct.1)) \/ c_cap st <= j - b0 + bl)).
Proof.
  intros Hp Hj. rewrite (proj2 (Z.leb_le _ _)) by lia. destruct (all_free_spec st (j - b0) Hp ltac:(lia) cs ltac:(done)) as (ok & -> & Hok). cbn [mbind option_bind]. eexists. split; [done|]. destruct ok; cbn [andb].
  - destruct (Z.ltb_spec (j - b0 + bl) (c_cap st)); split; try done.
    + intros _ ct Hct. specialize (Hcs ct Hct). split; [by apply Hok|lia].
    + intros _. split; [right; lia|by right].
  - split; [done|]. intros _. destruct Hok as (ct & Hct & Hbz). split; [|left; by exists ct]. left. exists (ct.1 - b0). specialize (Hcs ct Hct). split; [lia|]. by replace (j + (ct.1 - b0)) with (j - b0 + ct.1) by lia.
Qed.

(** Room behind the old end of the table. *)
Lemma place_grown st : packed_st done st -> c_cap st * 2 <= cap_max n -> exists r st', (r ← ac_tab_reserve st (c_cap st * 2);
     let (ok, st') := (r : bool * compact_st) in
     if negb ok then Some (None, st') else
     j ← ac_tab_free st' (c_cap st);
     if c_cap st' <=? j then Some (None, st') else Some (Some j, st')) = Some (r, st') /\
  match r with None => false ∈ c_mem st | Some j => j = c_cap st /\ j < c_cap st' /\ packed_st done st' /\ c_cap st' <= cap_max n /\ kept_by st st' /\ fits_at st' (j - b0) cs /\ j - b0 + bl < c_cap st' end.
Proof.
  intros Hp Hmax. pose proof (cap_max_fits n Hn). pose proof (p_cap _ _ _ _ _ Hp). destruct (reserve_double done st Hp ltac:(lia)) as (ok & st' & -> & Hok). cbn [mbind option_bind].
  destruct ok; cbn [negb]; [|by eexists _, _]. destruct Hok as (Hp' & Ec & Hk & Hfree). destruct (ac_tab_free_spec done st' (c_cap st) Hp' ltac:(lia)) as (j & -> & Hj & Hbz & _). cbn [mbind option_bind].
  assert (j = c_cap st) as -> by (destruct (decide (j = c_cap st)); [done|]; destruct (free_not_busy (c_tab st') (c_cap st)); [apply Hfree; lia|apply Hbz; lia]).
  rewrite (proj2 (Z.leb_gt _ _)) by lia. eexists _, _. split; [done|]. split_and!; [done|lia|done|lia|done| |lia]. intros ct Hct. specialize (Hcs ct Hct). split; [apply Hfree; lia|lia].
Qed.

Lemma place_search_spec : forall fuel st j, packed_st done st -> c_cap st <= cap_max n -> 256 <= j <= c_cap st -> (forall i, 256 <= i < j -> blocked st i) -> c_cap st - j < Z.of_nat fuel ->
  exists r st', place_search fuel st cs b0 bl j = Some (r, st') /\
    match r with None => false ∈ c_mem st | Some (j, cand) => cand = j - b0 /\ 256 <= j /\ packed_st done st' /\ c_cap st' <= cap_max n /\ kept_by st st' /\ fits_at st' cand cs end.
Proof.
  induction fuel as [|fuel IH]; intros st j Hp Hmax Hj Hblk Hf; [lia|]. cbn [place_search]. destruct (Z.leb_spec (c_cap st) j) as [Hle|Hlt].
  - assert (j = c_cap st) as -> by lia. destruct (place_grown st Hp (blocked_small done st Hp Hblk)) as (r & st1 & -> & Hr). cbn [mbind option_bind].
    destruct r as [j|]; [|by eexists _, _]. destruct Hr as (-> & Hlt & Hp1 & Hmax1 & Hk & Hfit & Hend). destruct (candidate st1 (c_cap st) Hp1 ltac:(lia)) as (ok & -> & Ht & Hfl). cbn [mbind option_bind].
    destruct ok; [eexists _, _; split; [done|]; split_and!; try done; lia|]. destruct (Hfl eq_refl) as [_ [(ct & Hct & Hbz)|?]]; [|lia]. destruct (free_not_busy _ _ (proj1 (Hfit ct Hct)) Hbz).
  - cbn [mbind option_bind]. destruct (candidate st j Hp ltac:(lia)) as (ok & -> & Ht & Hfl). cbn [mbind option_bind]. destruct ok.
    + eexists _, _. split; [done|]. split_and!; [done|lia|done|done|apply kept_by_refl|by apply Ht].
    + destruct (ac_tab_free_spec done st (j + 1) Hp ltac:(lia)) as (j' & -> & Hj' & Hbz & _). cbn [mbind option_bind]. apply IH; [done|done|lia| |lia].
      intros i Hi. destruct (Z.lt_ge_cases i j); [apply Hblk; lia|]. destruct (decide (i = j)) as [->|]; [by apply Hfl|]. left. exists 0. rewrite Z.add_0_r. split; [lia|]. apply Hbz. lia.
Qed.

End Place.

(** ** Putting a row into the table *)

Definition put_at (cand s : Z) (st : compact_st) (ct : Z * Z) : option compact_st := put_slot st (cand + ct.1) ct.2 s.

Lemma put_slots_spec done st s w cand cs : packed_st done st -> ws !! s = Some w -> kids_of ws w cs -> 0 <= cand -> is_bytes cs.*1 -> fits_at st cand cs ->
  exists st', each (put_at cand (Z.of_nat s)) cs st = Some st' /\ (exists t, st' = with_tab st t (c_cap st) (c_mem st) /\ length t = length (c_tab st) /\
    (forall c v, (c, v) ∈ cs -> aread t (cand + c) = Some (mk_slot v (Z.of_nat s + 1))) /\ (forall k, (forall c v, (c, v) ∈ cs -> k <> cand + c) -> aread t k = aread (c_tab st) k)).
Proof.
  intros Hp Es [Hnd Hk] Hc Hby Hfit. apply (each_inv (put_at cand (Z.of_nat s)) (fun pre st' => exists t, st' = with_tab st t (c_cap st) (c_mem st) /\ length t = length (c_tab st) /\
    (forall c v, (c, v) ∈ pre -> aread t (cand + c) = Some (mk_slot v (Z.of_nat s + 1))) /\ (forall k, (forall c v, (c, v) ∈ pre -> k <> cand + c) -> aread t k = aread (c_tab st) k))).
  - intros pre [c v] post st1 E (t & -> & Hl & Hin & Hout). assert (Hct : (c, v) ∈ cs) by (rewrite E; apply elem_of_app; right; left). destruct (Hfit _ Hct) as [(sl & Esl & _) _]. cbn [fst] in Esl.
    apply aread_some in Esl. destruct (awrite_spec t (cand + c) (mk_slot v (Z.of_nat s + 1))) as (t' & Et & Ht1 & Ht2 & Ht3); [lia|].
    assert (Hv : 0 <= v < Z.of_nat n) by (apply Hk in Hct as (k & -> & Ek%lookup_lt_Some); lia). assert (Hs : (s < n)%nat) by (by apply lookup_lt_Some in Es). change DYN_AC_MAX_STATES with 262144 in Hn.
    unfold put_at, put_slot. cbn [fst snd with_tab c_tab c_cap c_mem]. rewrite (wrap_id 32 v), (wrap_id 32 (Z.of_nat s + 1)) by (unfold fits; lia). rewrite Et. cbn [mbind option_bind]. eexists. split; [done|].
    exists t'. split_and!; [done|congruence|..].
    + intros d u [Hd|Hd%list_elem_of_singleton]%elem_of_app; [|by injection Hd as -> ->]. rewrite Ht3; [by apply Hin|]. intros Heq. assert (d = c) as -> by lia.
      rewrite E, fmap_app, fmap_cons in Hnd. apply NoDup_app in Hnd as (_ & Hx & _). apply (Hx c); [apply list_elem_of_fmap; by exists (c, u)|left].
    + intros k Hne. rewrite Ht3; [apply Hout|]; [intros d u Hd; apply (Hne d u), elem_of_app; by left|]. apply (Hne c v), elem_of_app. right. left.
  - exists (c_tab st). split_and!; [by destruct st|done|by intros c v ?%not_elem_of_nil|done].
Qed.

(** The row of [s] joins the table. *)
Lemma packed_put done t cap bases s w cand cs t' bases' : packed ws done t cap bases -> ws !! s = Some w -> w <> [] -> s ∉ done -> kids_of ws w cs -> is_bytes cs.*1 -> 0 <= cand < cap ->
  (forall ct, ct ∈ cs -> free t (cand + ct.1) /\ cand + ct.1 < cap) -> length t' = length t ->
  (forall c v, (c, v) ∈ cs -> aread t' (cand + c) = Some (mk_slot v (Z.of_nat s + 1))) -> (forall k, (forall c v, (c, v) ∈ cs -> k <> cand + c) -> aread t' k = aread t k) ->
  aread bases' (Z.of_nat s) = Some cand -> (forall k, k <> Z.of_nat s -> aread bases' k = aread bases k) ->
  packed ws (done ++ [s]) t' cap bases' /\ forall k, busy t k -> busy t' k.
Proof.
  intros Hp Es Hw Hs Hk Hby Hc Hfit Hl Hin Hout Hb Hb'. pose proof (p_root _ _ _ _ _ Hp) as Hroot. destruct Hk as [Hnd Hk].
  assert (Hs0 : forall x, x <> s -> aread bases' (Z.of_nat x) = aread bases (Z.of_nat x)) by (intros x Hx; apply Hb'; lia).
  assert (Hold : forall x wx, ws !! x = Some wx -> wx = [] \/ x ∈ done -> x <> s) by (intros x wx Ex [->|Hx] ->; [rewrite Es in Ex; by injection Ex as ->|done]).
  assert (Hbusy : forall k, busy t k -> aread t' k = aread t k).
  { intros k Hk'. apply Hout. intros c v Hcv ->. destruct (Hfit _ Hcv) as [Hfr _]. by apply (free_not_busy _ _ Hfr). }
  split; [split|intros k Hk'; pose proof Hk' as (sl & E & Hck); exists sl; by rewrite Hbusy].
  - rewrite Hl. apply (p_len _ _ _ _ _ Hp).
  - apply (p_cap _ _ _ _ _ Hp).
  - intros x Hx. destruct (decide (x = s)) as [->|Hxs]; [by exists cand|]. rewrite Hs0 by done. by apply (p_bases _ _ _ _ _ Hp).
  - rewrite Hb'; [done|]. intros E0. destruct s; [|lia]. rewrite (w_root _ Hws) in Es. by injection Es as <-.
  - intros x wx c v Ex Hx Hcb Eg. destruct (decide (x = s)) as [->|Hxs].
    + rewrite Es in Ex. injection Ex as <-. exists cand. split; [done|]. apply goto_inv in Eg as [Ev|(-> & _)]; [|done]. apply Hin, Hk. by exists v.
    + assert (Hx' : wx = [] \/ x ∈ done) by (destruct Hx as [|[|Hx%list_elem_of_singleton]%elem_of_app]; [by left|by right|done]).
      destruct (p_has _ _ _ _ _ Hp x wx c v Ex Hx' Hcb Eg) as (b & Eb & E). exists b. rewrite Hs0 by done. split; [done|]. rewrite Hbusy; [done|]. eexists. split; [exact E|]. cbn. lia.
  - intros k sl E Hck. destruct (decide (k ∈ (fun ct => cand + ct.1) <$> cs)) as [Hin'|Hni].
    + apply list_elem_of_fmap in Hin' as ([c v] & -> & Hcv). cbn [fst] in *. split; [by apply (Hfit (c, v))|]. rewrite (Hin c v Hcv) in E. injection E as <-.
      assert (Hcb : 0 <= c < 256) by (rewrite Forall_forall in Hby; apply (Hby c), list_elem_of_fmap; by exists (c, v)). apply Hk in Hcv as (x & -> & Ex). exists s, w, c, cand, x.
      split_and!; try done; [right; apply elem_of_app; right; left|lia|lia|by apply goto_kid].
    + rewrite Hout in E by (intros c v Hcv ->; apply Hni, list_elem_of_fmap; by exists (c, v)). destruct (p_only _ _ _ _ _ Hp k sl E Hck) as (Hkc & x & wx & c & b & v & Ex & Hx & Hcb & Eb & Ek & Eg & ->).
      split; [done|]. exists x, wx, c, b, v. rewrite Hs0 by (by apply (Hold x wx)). split_and!; try done; [|lia|lia]. destruct Hx; [by left|right; apply elem_of_app; by left].
Qed.

(** What a step on the table leaves alone. *)
Definition only_table (st st' : compact_st) : Prop :=
  c_fail st' = c_fail st /\ c_link st' = c_link st /\ c_queue st' = c_queue st /\ sub_mem (c_mem st') (c_mem st).

Record row_put (done : list nat) (s : nat) (st st' : compact_st) : Prop := {
  rp_packed : packed_st (done ++ [s]) st';
  rp_cap : c_cap st <= c_cap st' <= cap_max n;
  rp_other : only_table st st';
  rp_busy : forall k, busy (c_tab st) k -> busy (c_tab st') k;
  rp_hint : c_hint st' = c_hint st
}.

Lemma row_put_kept done s st st1 st' : kept_by st st1 -> row_put done s st1 st' -> row_put done s st st'.
Proof.
  intros (K1 & K2 & K3 & K4 & K5 & K6 & K7 & K8) [H1 H2 (H3 & H4 & H5 & H6) H7 H8]. split; [done|lia| |auto|congruence]. split_and!; [congruence..|]. intros b Hb'. by apply K8, H6.
Qed.

Lemma put_row done st s w cand cs : packed_st done st -> c_cap st <= cap_max n -> ws !! s = Some w -> w <> [] -> s ∉ done -> kids_of ws w cs -> is_bytes cs.*1 -> 0 <= cand < c_cap st -> fits_at st cand cs ->
  exists st', (st ← each (put_at cand (Z.of_nat s)) cs st; put_base st (Z.of_nat s) cand) = Some st' /\ row_put done s st st' /\ forall ct, ct ∈ cs -> busy (c_tab st') (cand + ct.1).
Proof.
  intros Hp Hmax Es Hw Hs Hk Hby Hc Hfit. destruct (put_slots_spec done st s w cand cs Hp Es Hk ltac:(lia) Hby Hfit) as (st1 & -> & t & -> & Hl & Hin & Hout). cbn [mbind option_bind].
  unfold put_base. cbn [with_tab c_tab c_cap c_base c_fail c_link c_queue c_hint c_mem]. destruct (p_bases _ _ _ _ _ Hp s) as (b & Eb & _); [by apply lookup_lt_Some in Es|]. apply aread_some in Eb.
  pose proof (cap_max_fits n Hn). rewrite (wrap_id 32 cand) by (unfold fits; lia). destruct (awrite_spec (c_base st) (Z.of_nat s) cand Eb) as (bases & -> & _ & R & O). cbn [mbind option_bind]. eexists. split; [done|].
  destruct (packed_put done _ _ _ s w cand cs t bases Hp Es Hw Hs Hk Hby Hc Hfit Hl Hin Hout R O) as [H1 H2]. split.
  - split; cbn [c_tab c_cap c_base c_hint]; done.
  - intros [c v] Hcv. cbn [c_tab fst]. eexists. split; [by apply Hin|]. cbn. lia.
Qed.

Lemma full_blocked st j : (forall k, 256 <= k < j -> busy (c_tab st) k) -> forall i, 256 <= i < j -> blocked st i.
Proof. intros H i Hi. left. exists 0. rewrite Z.add_0_r. split; [lia|by apply H]. Qed.

(** From the hint on: a place for one child, and for several. *)
Lemma place_one_spec done st s w c v : packed_st done st -> c_cap st <= cap_max n -> hint_ok (c_tab st) (c_cap st) (c_hint st) -> ws !! s = Some w -> w <> [] -> s ∉ done -> kids_of ws w [(c, v)] -> is_bytes [c] ->
  exists r st', ac_place_one st (Z.of_nat s) v c = Some (r, st') /\ match r with None => false ∈ c_mem st | Some j => row_put done s st st' /\ busy (c_tab st') j end.
Proof.
  intros Hp Hmax [Hh Hfull] Es Hw Hs Hk Hby. unfold ac_place_one. pose proof (proj1 (Forall_singleton (fits 8) c) Hby) as Hc. unfold fits in Hc.
  assert (Hcs : forall ct, ct ∈ [(c, v)] -> c <= ct.1 <= c) by (intros ct ->%list_elem_of_singleton; cbn; lia).
  destruct (ac_tab_free_spec done st (c_hint st) Hp ltac:(lia)) as (j & -> & Hj & Hbz & Hfr). cbn [mbind option_bind].
  assert (Hpos : exists r st1, (if c_cap st <=? j then
         r ← ac_tab_reserve st (if c_cap st =? 0 then 256 else c_cap st * 2);
         let (ok, st) := (r : bool * compact_st) in
         if negb ok then Some (None, st) else
         j ← ac_tab_free st j;
         if c_cap st <=? j then Some (None, st) else Some (Some j, st)
       else Some (Some j, st)) = Some (r, st1) /\
     match r with None => false ∈ c_mem st | Some j => 256 <= j < c_cap st1 /\ packed_st done st1 /\ c_cap st1 <= cap_max n /\ kept_by st st1 /\ fits_at st1 (j - c) [(c, v)] end).
  { destruct (Z.leb_spec (c_cap st) j).
    - assert (j = c_cap st) as -> by lia. pose proof (p_cap _ _ _ _ _ Hp). rewrite (proj2 (Z.eqb_neq _ 0)) by lia.
      assert (Hbl : forall i, 256 <= i < c_cap st -> blocked st i) by (apply full_blocked; intros k Hk'; destruct (Z.lt_ge_cases k (c_hint st)); [apply Hfull; lia|apply Hbz; lia]).
      destruct (place_grown done [(c, v)] c c Hcs ltac:(lia) st Hp (blocked_small done st Hp Hbl)) as (r & st1 & -> & Hr). eexists _, _. split; [done|]. destruct r as [j|]; [|done].
      destruct Hr as (-> & ? & ? & ? & ? & ? & _). split_and!; try done; lia.
    - eexists _, _. split; [done|]. split_and!; [lia|lia|done|done|apply kept_by_refl|]. intros ct ->%list_elem_of_singleton. cbn [fst]. replace (j - c + c) with j by lia. split; [apply Hfr|]; lia. }
  destruct Hpos as (r & st1 & -> & Hr). cbn [mbind option_bind]. destruct r as [j1|]; [|by eexists _, _]. destruct Hr as (Hj1 & Hp1 & Hmax1 & Hkept & Hfit).
  destruct (put_row done st1 s w (j1 - c) [(c, v)] Hp1 Hmax1 Es Hw Hs Hk Hby ltac:(lia) Hfit) as (st2 & E & Hrow & Hbusy). cbn [each] in E. unfold put_at in E. cbn [fst snd] in E.
  replace (j1 - c + c) with j1 in E by lia. destruct (put_slot st1 j1 v (Z.of_nat s)) as [st'|]; [|done]. cbn [mbind option_bind] in *. rewrite E. cbn [mbind option_bind]. eexists _, _. split; [done|]. split; [by apply (row_put_kept done s st st1)|].
  specialize (Hbusy (c, v) ltac:(left)). cbn [fst] in Hbusy. by replace (j1 - c + c) with j1 in Hbusy by lia.
Qed.

Lemma place_many_spec done st s w cs b0 bl v0 : packed_st done st -> c_cap st <= cap_max n -> hint_ok (c_tab st) (c_cap st) (c_hint st) -> ws !! s = Some w -> w <> [] -> s ∉ done -> kids_of ws w cs -> is_bytes cs.*1 ->
  (forall ct, ct ∈ cs -> b0 <= ct.1 <= bl) -> 0 <= b0 /\ bl < 256 /\ b0 <= bl -> (b0, v0) ∈ cs ->
  exists r st', ac_place_many st (Z.of_nat s) cs b0 bl = Some (r, st') /\ match r with None => false ∈ c_mem st | Some j => row_put done s st st' /\ busy (c_tab st') j end.
Proof.
  intros Hp Hmax [Hh Hfull] Es Hw Hs Hk Hby Hcs Hr Hfirst. unfold ac_place_many. destruct (ac_tab_free_spec done st (c_hint st) Hp ltac:(lia)) as (j & -> & Hj & Hbz & _). cbn [mbind option_bind].
  assert (Hbl : forall i, 256 <= i < j -> blocked st i) by (apply full_blocked; intros k Hk'; destruct (Z.lt_ge_cases k (c_hint st)); [apply Hfull; lia|apply Hbz; lia]).
  destruct (place_search_spec done cs b0 bl Hcs Hr (Z.to_nat (c_cap st) + 2) st j Hp Hmax ltac:(lia) Hbl ltac:(lia)) as (r & st1 & -> & Hs1). cbn [mbind option_bind].
  destruct r as [[j1 cand]|]; [|by eexists _, _]. destruct Hs1 as (-> & Hj1 & Hp1 & Hmax1 & Hkept & Hfit). pose proof (Hfit _ Hfirst) as [_ Hlt]. cbn [fst] in Hlt.
  destruct (put_row done st1 s w (j1 - b0) cs Hp1 Hmax1 Es Hw Hs Hk Hby ltac:(lia) Hfit) as (st2 & E & Hrow & Hbusy). change (fun st ct => put_slot st (j1 - b0 + ct.1) ct.2 (Z.of_nat s)) with (put_at (j1 - b0) (Z.of_nat s)).
  destruct (each (put_at (j1 - b0) (Z.of_nat s)) cs st1) as [st'|]; [|done]. cbn [mbind option_bind] in *. rewrite E. cbn [mbind option_bind]. eexists _, _. split; [done|]. split; [by apply (row_put_kept done s st st1)|].
  specialize (Hbusy _ Hfirst). cbn [fst] in Hbusy. by replace (j1 - b0 + b0) with j1 in Hbusy by lia.
Qed.

Lemma rising_last (l : list (Z * Z)) y x : rising l -> last l = Some y -> x ∈ l -> x.1 <= y.1.
Proof.
  intros Hr. induction Hr as [|a l Hr IH Ha]; [done|]. intros El Hx. destruct l as [|b l].
  - injection El as <-. apply list_elem_of_singleton in Hx as ->. lia.
  - rewrite last_cons_cons in El. apply elem_of_cons in Hx as [->|Hx]; [|by apply IH]. rewrite Forall_forall in Ha. specialize (Ha y (last_Some_elem_of _ _ El)). cbn in Ha. lia.
Qed.

(** The row of [s] and the hint. *)
Lemma place_spec done st s w cs : packed_st done st -> c_cap st <= cap_max n -> hint_ok (c_tab st) (c_cap st) (c_hint st) -> ws !! s = Some w -> w <> [] -> s ∉ done -> kids_of ws w cs -> is_bytes cs.*1 -> rising cs ->
  exists ok st', ac_place st (Z.of_nat s) cs = Some (ok, st') /\ if ok : bool then packed_st (done ++ [s]) st' /\ c_cap st' <= cap_max n /\ hint_ok (c_tab st') (c_cap st') (c_hint st') /\ only_table st st' else false ∈ c_mem st.
Proof.
  intros Hp Hmax Hh Es Hw Hs Hk Hby Hr. unfold ac_place. destruct cs as [|ct rest].
  - eexists true, st. split; [done|]. split_and!; try done. destruct Hk as [_ Hk]. destruct Hp as [H1 H2 H3 H4 H5 H6]. split; try done.
    + intros x wx c v Ex Hx Hc Eg. assert (Hxs : x <> s).
      { intros ->. rewrite Es in Ex. injection Ex as <-. apply goto_inv in Eg as [Ev|(-> & _)]; [|done]. destruct (not_elem_of_nil (c, Z.of_nat v)). apply Hk. by exists v. }
      apply (H5 x wx c v); try done. destruct Hx as [|[|Hx%list_elem_of_singleton]%elem_of_app]; [by left|by right|done].
    + intros k sl E Hck. destruct (H6 k sl E Hck) as (Hkc & x & wx & c & b & v & Ex & Hx & Hrest). split; [done|]. exists x, wx, c, b, v. split; [done|]. split; [|done]. destruct Hx; [by left|right; apply elem_of_app; by left].
  - assert (Hpl : exists r st', match rest with [] => ac_place_one st (Z.of_nat s) ct.2 ct.1 | _ :: _ => ac_place_many st (Z.of_nat s) (ct :: rest) ct.1 (default ct (last rest)).1 end = Some (r, st') /\
      match r with None => false ∈ c_mem st | Some j => row_put done s st st' /\ busy (c_tab st') j end).
    { destruct rest as [|ct2 rest2]; [destruct ct as [c v]; by apply (place_one_spec done st s w c v)|].
      destruct (last (ct2 :: rest2)) as [y|] eqn:El; [|by apply last_None in El]. cbn [default]. assert (El' : last (ct :: ct2 :: rest2) = Some y) by (by rewrite last_cons_cons).
      rewrite Forall_forall in Hby. assert (Hbyte : forall x, x ∈ ct :: ct2 :: rest2 -> fits 8 x.1) by (intros x Hx; apply Hby, list_elem_of_fmap; by exists x).
      pose proof (Hbyte ct ltac:(left)) as Hb1. pose proof (Hbyte y (last_Some_elem_of _ _ El')) as Hb2. unfold fits in Hb1, Hb2.
      apply (place_many_spec done st s w (ct :: ct2 :: rest2) ct.1 y.1 ct.2); try done; [by apply Forall_forall| | |destruct ct; left].
      - intros x Hx. split; [|by apply (rising_last (ct :: ct2 :: rest2))]. apply StronglySorted_inv in Hr as [_ Hall]. apply elem_of_cons in Hx as [->|Hx]; [lia|]. rewrite Forall_forall in Hall. specialize (Hall x Hx). lia.
      - pose proof (rising_last _ y ct Hr El' ltac:(left)). lia. }
    destruct Hpl as (r & st1 & -> & Hpl). cbn [mbind option_bind]. destruct r as [j|]; [|by eexists _, _]. destruct Hpl as [[H1 H2 H3 H4 H5] Hj].
    assert (Hh1 : hint_ok (c_tab st1) (c_cap st1) (c_hint st1)) by (rewrite H5; destruct Hh as [Hh1 Hh2]; split; [lia|auto]). destruct (Z.eqb_spec j (c_hint st1)) as [->|Hne]; [|eexists _, _; split; [done|]; split_and!; try done; lia].
    pose proof (busy_lt (done ++ [s]) _ _ _ H1 _ Hj). destruct (ac_tab_free_spec (done ++ [s]) st1 (c_hint st1 + 1) H1 ltac:(destruct Hh1; lia)) as (h & -> & Hh2 & Hbz & _). cbn [mbind option_bind].
    eexists _, _. split; [done|]. cbn [with_hint c_tab c_cap c_base c_hint]. split_and!; try done; [lia|]. split; [destruct Hh1; lia|]. intros k Hk'. destruct (decide (k = c_hint st1)) as [->|]; [done|].
    destruct (Z.lt_ge_cases k (c_hint st1)); [apply Hh1; lia|apply Hbz; lia].
Qed.

End Table.
