(* ===== verification/AcPack.v ===== *)
(** * Building with the packed table

    ac_build_compact visits the states in the order of their depth, packs
    their rows and walks the failure states for the failure state of every
    child.  The result is the automaton that ac_build_dense tabulates. *)
From Stdlib Require Import ZArith Lia List Sorted.
From stdpp Require Import base numbers option list gmap.
From S2P Require Import Prelude Ac AcTrie AcBuild AcDense AcCompact.

#[local] Opaque alphabet.

(** ** Words and transitions *)

Section Steps.
Variable ws : list bytes.
Hypothesis Hws : words_ok ws.

Lemma word_prefixes w : w ∈ ws -> forall i, (i <= length w)%nat -> take i w ∈ ws.
Proof.
  induction w as [|c w IH] using rev_ind; intros Hw i Hi; [by rewrite take_nil|]. rewrite length_app in Hi. cbn [length] in Hi. destruct (decide (i = length w + 1)%nat) as [->|].
  - rewrite take_ge; [done|]. rewrite length_app. cbn. lia.
  - rewrite take_app_le by lia. apply IH; [by apply (w_prefix _ Hws w c)|lia].
Qed.

Lemma word_len w : w ∈ ws -> (length w < length ws)%nat.
Proof.
  intros Hw. assert (Hsub : (fun i => take i w) <$> seq 0 (S (length w)) ⊆+ ws).
  { apply NoDup_submseteq.
    - apply NoDup_fmap_2_strong; [|apply NoDup_seq]. intros i j Hi%elem_of_seq Hj%elem_of_seq E. apply (f_equal length) in E. rewrite !length_take in E. lia.
    - intros v (i & -> & Hi%elem_of_seq)%list_elem_of_fmap. apply word_prefixes; [done|lia]. }
  apply submseteq_length in Hsub. rewrite length_fmap, length_seq in Hsub. lia.
Qed.

Lemma hit_names u c v : goto ws u c = Some v -> names ws (Z.of_nat v) (lsuf ws (u ++ [c])).
Proof.
  intros [Ev|(-> & -> & Hc)]%(goto_inv ws Hws).
  - rewrite lsuf_id by (by apply list_elem_of_lookup_2 with v). by exists v.
  - cbn [app]. rewrite lsuf_cons by done. rewrite lsuf_id by (apply list_elem_of_lookup_2 with 0%nat; apply (w_root _ Hws)). exists 0%nat. split; [done|apply (w_root _ Hws)].
Qed.

Lemma miss_lsuf u c : goto ws u c = None -> u <> [] /\ lsuf ws (u ++ [c]) = lsuf ws (lsuf ws (tail u) ++ [c]).
Proof.
  intros Eg. unfold goto in Eg. destruct (kidx ws u c) as [k|] eqn:Ek; [done|]. destruct u as [|b u]; [done|]. split; [done|].
  rewrite <- lsuf_step; [|apply (w_prefix _ Hws)|apply list_elem_of_lookup_2 with 0%nat; apply (w_root _ Hws)]. cbn [app tail]. apply lsuf_cons.
  intros (k & E)%list_elem_of_lookup. apply (kidx_iff ws Hws (b :: u) c k) in E. congruence.
Qed.

Lemma kids_states w cs : kids_of ws w cs -> kid_states ws w ((fun ct : Z * Z => Z.to_nat ct.2) <$> cs).
Proof.
  intros [Hnd Hk]. split.
  - assert (Hcs : NoDup cs) by (by apply (NoDup_fmap_1 fst)). apply NoDup_fmap_2_strong; [|done]. intros [c t] [d u] (k & -> & Ek)%Hk (m & -> & Em)%Hk E. cbn [snd] in E. rewrite !Nat2Z.id in E. subst m.
    rewrite Ek in Em. injection Em as Em. apply app_inj_2 in Em as [_ [= ->]]; done.
  - intros t. rewrite list_elem_of_fmap. split.
    + intros ([c v] & -> & (k & -> & Ek)%Hk). cbn [snd]. rewrite Nat2Z.id. by exists c.
    + intros (c & Ec). exists (c, Z.of_nat t). cbn [snd]. rewrite Nat2Z.id. split; [done|]. apply Hk. by exists t.
Qed.

(** Every state but the root of at most [m] bytes. *)
Definition shallow (done : list nat) (m : nat) : Prop := forall x wx, ws !! x = Some wx -> wx <> [] -> (length wx <= m)%nat -> x ∈ done.

Lemma shallow_root done m x wx : shallow done m -> ws !! x = Some wx -> (length wx <= m)%nat -> wx = [] \/ x ∈ done.
Proof. intros Hs Ex Hl. destruct wx as [|c wx]; [by left|right]. by apply (Hs x (c :: wx)). Qed.

Hypothesis Hn : Z.of_nat (length ws) <= DYN_AC_MAX_STATES.

(** The failure walk ends at the state of the longest suffix. *)
Lemma fail_walk_spec done st m c : packed ws done (c_tab st) (c_cap st) (c_base st) -> c_cap st <= cap_max (length ws) -> shallow done m -> (forall x, x ∈ done -> fail_is ws (c_fail st) x) -> 0 <= c < 256 ->
  forall fuel f u, ws !! f = Some u -> (length u <= m)%nat -> (length u <= fuel)%nat -> exists v, fail_walk fuel st (Z.of_nat f) c = Some v /\ names ws v (lsuf ws (u ++ [c])).
Proof.
  intros Hp Hmax Hsh Hfail Hc. pose proof (cap_max_fits _ Hn) as Hcap. induction fuel as [|fuel IH]; intros f u Ef Hm Hf; cbn [fail_walk];
    destruct (slot_hit ws done _ _ _ Hp f u c Ef (shallow_root _ _ _ _ Hsh Ef Hm) Hc) as (b & sl & -> & Hb & Esl & Hsl); cbn [mbind option_bind];
    rewrite (wrap_id 32 (b + c)) by (unfold fits; lia); rewrite Esl; cbn [mbind option_bind]; assert (Hlt : (f < length ws)%nat) by (by apply lookup_lt_Some in Ef); change DYN_AC_MAX_STATES with 262144 in Hn;
    rewrite (wrap_id 32 (Z.of_nat f + 1)) by (unfold fits; lia); destruct (goto ws u c) as [v|] eqn:Eg.
  1,3: subst sl; cbn [slot_check slot_next]; rewrite Z.eqb_refl; exists (Z.of_nat v); pose proof (goto_lt ws Hws _ _ _ Eg); (split; [f_equal|by apply hit_names]);
    apply swrap_id; [lia|]; unfold sfits; change (2 ^ (32 - 1)) with 2147483648; lia.
  - apply miss_lsuf in Eg as [Hu _]. destruct u; [done|cbn in Hf; lia].
  - rewrite (proj2 (Z.eqb_neq _ _) Hsl). apply miss_lsuf in Eg as [Hu ->]. destruct (Hfail f (Hsh f u Ef Hu Hm) u Ef) as (v & -> & k & -> & Ek). cbn [mbind option_bind].
    assert (Hlen : (length (lsuf ws (tail u)) < length u)%nat) by (pose proof (lsuf_len ws (tail u)); destruct u; [done|cbn in *; lia]). apply IH; [done|lia|lia].
Qed.

End Steps.

(** ** Visiting the states *)

Section Pack.
Variables (pats : list (bytes * Z)) (ws : list bytes) (a : dyn_ac_t).
Hypothesis Htf : trie_for pats ws a.

#[local] Abbreviation f := (first_idx pats).
#[local] Abbreviation n := (length ws).
#[local] Abbreviation kid := (fun ct : Z * Z => Z.to_nat ct.2).

Let Ht : trie_ok ws a := tf_trie _ _ _ Htf.
Let Hws : words_ok ws := trie_words _ _ Ht.
Let Hn : Z.of_nat n <= DYN_AC_MAX_STATES := t_size _ _ Ht.

(** Failure states and links of the states that were queued. *)
Record queued (q : list nat) (st : compact_st) : Prop := {
  qd_fail : length (c_fail st) = n;
  qd_link : length (c_link st) = n;
  qd_queue : c_queue st = Z.of_nat <$> q;
  qd_fails : forall x, x ∈ q -> fail_is ws (c_fail st) x;
  qd_links : forall x, x = 0%nat \/ x ∈ q -> link_is ws f (c_link st) x
}.

Record compact_inv (q : list nat) (head : nat) (st : compact_st) : Prop := {
  ci_table : packed ws (take head q) (c_tab st) (c_cap st) (c_base st);
  ci_cap : c_cap st <= cap_max n;
  ci_hint : hint_ok (c_tab st) (c_cap st) (c_hint st);
  ci_queued : queued q st
}.

Lemma queued_only q st st' : only_table st st' -> queued q st -> queued q st'.
Proof. intros (E1 & E2 & E3 & _) [H1 H2 H3 H4 H5]. split; rewrite ?E1, ?E2, ?E3; done. Qed.

(** A state is queued with its failure state and its link. *)
Lemma queue_one q st k w v l : queued q st -> (length q < n)%nat -> k ∉ q -> ws !! k = Some w -> w <> [] -> names ws v (lsuf ws (tail w)) -> link_ok ws f w l ->
  exists fails links queue, awrite (c_fail st) (Z.of_nat k) v = Some fails /\ awrite (c_link st) (Z.of_nat k) l = Some links /\ enqueue a (c_queue st) (Z.of_nat k) = Some queue /\
    queued (q ++ [k]) (mk_compact (c_tab st) (c_cap st) (c_base st) fails links queue (c_hint st) (c_mem st)).
Proof.
  intros [H1 H2 H3 H4 H5] Hq Hk Ek Hw Hv Hl. destruct (fail_write ws (c_fail st) k w v H1 Ek Hv) as (fails & Ef & Hf1 & Hf2 & Hf3).
  destruct (awrite_spec (c_link st) (Z.of_nat k) l) as (links & El & Hl1 & Hl2 & Hl3); [rewrite H2; apply lookup_lt_Some in Ek; lia|].
  exists fails, links, (Z.of_nat <$> (q ++ [k])). rewrite H3, (enqueue_ok pats ws a Htf q k Hq). split_and!; [done..|]. split; cbn [c_fail c_link c_queue]; [done|congruence|done|..].
  - intros x [Hx|Hx%list_elem_of_singleton]%elem_of_app; [|by subst]. apply Hf3; [by apply H4|]. by intros ->.
  - intros x Hx. destruct (decide (x = k)) as [->|Hxk]; [intros w' E'; rewrite Ek in E'; injection E' as <-; by exists l|].
    assert (Hx' : x = 0%nat \/ x ∈ q) by (destruct Hx as [|[|Hx%list_elem_of_singleton]%elem_of_app]; [by left|by right|done]). intros w' E'. destruct (H5 x Hx' w' E') as (l' & E1 & Hl'). exists l'. split; [|done].
    rewrite Hl3; [done|]. lia.
Qed.

(** Same depth: queued already. *)
Lemma queued_depth q head s w y wy : bfs_ok ws q head -> q !! head = Some s -> ws !! s = Some w -> ws !! y = Some wy -> (length wy <= length w)%nat -> y = 0%nat \/ y ∈ q.
Proof.
  intros Hb Eq Es Ey Hl. destruct wy as [|b wy] using rev_ind; [left; by apply (root_only ws Hws)|right]. clear IHwy. destruct (parent_of ws Hws y wy b Ey) as [p Ep]. rewrite length_app in Hl. cbn [length] in Hl.
  apply (b_closed _ _ _ Hb p wy y b Ep); [|done]. apply (bfs_before ws q head s w p wy); try done. lia.
Qed.

(** The children of [s], after its row was packed. *)
Lemma compact_kids q head s w cs st fs : bfs_ok ws q head -> q !! head = Some s -> ws !! s = Some w -> w <> [] -> kids_of ws w cs -> is_bytes cs.*1 ->
  packed ws (take (S head) q) (c_tab st) (c_cap st) (c_base st) -> c_cap st <= cap_max n -> queued q st -> ws !! fs = Some (lsuf ws (tail w)) ->
  exists st', each (compact_child a (Z.of_nat fs)) cs st = Some st' /\ queued (q ++ (kid <$> cs)) st' /\
    c_tab st' = c_tab st /\ c_cap st' = c_cap st /\ c_base st' = c_base st /\ c_hint st' = c_hint st /\ c_mem st' = c_mem st.
Proof.
  intros Hb Eq Es Hw Hk Hby Hp Hmax Hqd Efs. pose proof (bfs_step ws Hws q head s w _ Hb Eq Es (kids_states ws w cs Hk)) as Hb'. pose proof (bfs_bound ws Hws _ _ Hb') as Hroom.
  pose proof (tail_len ws w Hw) as Htl. assert (Hsub : forall x, x ∈ take (S head) q -> x ∈ q) by (intros x Hx; by apply (subseteq_take (S head) q)).
  apply (each_inv (compact_child a (Z.of_nat fs)) (fun pre st' => queued (q ++ (kid <$> pre)) st' /\ c_tab st' = c_tab st /\ c_cap st' = c_cap st /\ c_base st' = c_base st /\ c_hint st' = c_hint st /\ c_mem st' = c_mem st)).
  2:{ rewrite fmap_nil, app_nil_r. done. }
  intros pre [c t] post st1 Ecs (Hq1 & E1 & E2 & E3 & E4 & E5). assert (Hct : (c, t) ∈ cs) by (rewrite Ecs; apply elem_of_app; right; left).
  assert (Hc : 0 <= c < 256) by (rewrite Forall_forall in Hby; apply (Hby c), list_elem_of_fmap; by exists (c, t)). destruct Hk as [Hnd Hk]. apply Hk in Hct as (k & -> & Ek).
  assert (Hsh : shallow ws (take (S head) q) (length w - 1)).
  { intros x wx Ex Hx Hlx. destruct (bfs_before ws q head s w x wx Hb Eq Es Ex ltac:(destruct w; [done|cbn in *; lia])) as [->|Hin]; [done|]. rewrite (take_S_r _ _ s) by done. apply elem_of_app. by left. }
  unfold compact_child. cbn [fst snd]. rewrite <- E1, <- E2, <- E3 in *.
  destruct (fail_walk_spec ws Hws Hn (take (S head) q) st1 (length w - 1) c Hp Hmax Hsh ltac:(intros x Hx; apply (qd_fails _ _ Hq1), elem_of_app; left; by apply Hsub) Hc (length (c_fail st1)) fs _ Efs) as (v & -> & Hv).
  { lia. } { rewrite (qd_fail _ _ Hq1). apply Nat.lt_le_incl, (word_len ws Hws). by apply list_elem_of_lookup_2 with fs. }
  cbn [mbind option_bind]. assert (Htw : tail (w ++ [c]) = tail w ++ [c]) by (by destruct w). rewrite <- lsuf_step, <- Htw in Hv by (first [apply (w_prefix _ Hws)|apply (root_in pats ws a Htf)]).
  assert (Hlv : (length (lsuf ws (tail (w ++ [c]))) <= length w)%nat) by (pose proof (lsuf_len ws (tail (w ++ [c]))) as Hx; rewrite Htw, length_app in *; destruct w; [done|cbn in *; lia]).
  assert (Hnk : (k ∉ q ++ (kid <$> pre)) /\ (length (q ++ (kid <$> pre)) < n)%nat).
  { pose proof (b_nodup _ _ _ Hb') as Hx. rewrite Ecs, fmap_app, fmap_cons, app_assoc in Hx. cbn [snd] in Hx. rewrite Nat2Z.id in Hx. apply NoDup_app in Hx as (_ & Hx & _). split; [intros Hin; apply (Hx k Hin); left|].
    rewrite Ecs, fmap_app, app_assoc, length_app in Hroom. lia. }
  destruct Hnk as [Hnk Hroom1]. assert (Hlink : exists l, aread (c_link st1) v = Some l /\ link_ok ws f (lsuf ws (tail (w ++ [c]))) l).
  { destruct Hv as (y & -> & Ey). apply (qd_links _ _ Hq1); [|done]. destruct (queued_depth q head s w y _ Hb Eq Es Ey Hlv) as [|]; [by left|right; apply elem_of_app; by left]. }
  assert (Hwc : w ++ [c] <> []) by (by destruct w). destruct (link_step pats ws a Htf (c_link st1) (w ++ [c]) v Hwc Hv Hlink) as (l & El & Hl).
  destruct (queue_one _ st1 k (w ++ [c]) v l Hq1 Hroom1 Hnk Ek Hwc Hv Hl) as (fails & links & queue & -> & Elk & Eqk & Hq2). cbn [mbind option_bind]. rewrite El. cbn [mbind option_bind]. rewrite Elk. cbn [mbind option_bind]. rewrite Eqk. cbn [mbind option_bind].
  eexists. split; [done|]. split; [|by cbn]. rewrite fmap_app. cbn [fmap list_fmap snd]. rewrite Nat2Z.id, app_assoc. done.
Qed.

Lemma compact_bfs_spec : forall fuel q head st, bfs_ok ws q head -> compact_inv q head st -> (n <= head + fuel)%nat ->
  exists ok st', compact_bfs fuel a head st = Some (ok, st') /\ if ok : bool then sub_mem (c_mem st') (c_mem st) /\ exists q', bfs_ok ws q' (length q') /\ compact_inv q' (length q') st' else false ∈ c_mem st.
Proof.
  induction fuel as [|fuel IH]; intros q head st Hb Hi Hf.
  - pose proof (bfs_bound ws Hws q head Hb). pose proof (b_head _ _ _ Hb). lia.
  - cbn [compact_bfs]. pose proof Hi as [H1 H2 H3 H4]. rewrite (qd_queue _ _ H4), length_fmap. destruct (Nat.ltb_spec head (length q)) as [Hlt|Hge].
    2:{ exists true, st. split; [done|]. split; [done|]. exists q. assert (head = length q) as -> by (pose proof (b_head _ _ _ Hb); lia). done. }
    destruct (lookup_lt_is_Some_2 _ _ Hlt) as [s Eq]. rewrite list_lookup_fmap, Eq. cbn [fmap option_fmap option_map mbind option_bind]. assert (Hsq : s ∈ q) by (by apply list_elem_of_lookup_2 with head).
    destruct (b_states _ _ _ Hb s Hsq) as (w & Es & Hw). destruct (children_spec ws a s w Ht Es) as (cs & -> & Hk & Hr). cbn [mbind option_bind].
    destruct (qd_fails _ _ H4 s Hsq w Es) as (v & -> & fs & -> & Efs). cbn [mbind option_bind]. pose proof (kids_bytes ws a w cs Ht Hk) as Hby.
    assert (Hnh : s ∉ take head q). { intros Hin. apply list_elem_of_lookup in Hin as [k Ek]. apply lookup_take_Some in Ek as [Ek Hk']. pose proof (NoDup_lookup _ _ _ _ (b_nodup _ _ _ Hb) Ek Eq). lia. }
    destruct (place_spec ws Hws Hn (take head q) st s w cs H1 H2 H3 Es Hw Hnh Hk Hby Hr) as (ok & st1 & -> & Hok). cbn [mbind option_bind]. destruct ok; [|by eexists false, _].
    destruct Hok as (P1 & P2 & P3 & P4). rewrite <- (take_S_r _ _ s Eq) in P1. pose proof (queued_only q st st1 P4 H4) as Hq1.
    destruct (compact_kids q head s w cs st1 fs Hb Eq Es Hw Hk Hby P1 P2 Hq1 Efs) as (st2 & -> & Hq2 & E1 & E2 & E3 & E4 & E5). cbn [mbind option_bind].
    destruct (IH (q ++ (kid <$> cs)) (S head) st2) as (ok & st3 & -> & Hok); [|split; rewrite ?E1, ?E2, ?E3, ?E4; try done|lia|].
    + apply (bfs_step ws Hws q head s w); try done. by apply kids_states.
    + by rewrite take_app_le by lia.
    + exists ok, st3. split; [done|]. rewrite E5 in Hok. destruct P4 as (_ & _ & _ & P4). destruct ok; [|by apply P4]. destruct Hok as [Hm Hok]. split; [|done]. intros b Hb'. by apply P4, Hm.
Qed.

(** ** The row of the root *)

Lemma root_slots_spec t : Z.of_nat (length t) = 512 -> (forall k, 0 <= k < 512 -> aread t k = Some (mk_slot 0 0)) ->
  exists t', each root_slot alphabet t = Some t' /\ Z.of_nat (length t') = 512 /\ (forall k, 0 <= k < 256 -> aread t' k = Some (mk_slot 0 1)) /\ (forall k, 256 <= k < 512 -> aread t' k = Some (mk_slot 0 0)).
Proof.
  intros Hl Hz. destruct (each_inv root_slot (fun pre t' => Z.of_nat (length t') = 512 /\ (forall k, k ∈ pre -> aread t' k = Some (mk_slot 0 1)) /\ (forall k, 256 <= k < 512 -> aread t' k = Some (mk_slot 0 0))) alphabet) with (s := t) as (t' & E & H1 & H2 & H3).
  - intros pre c post t1 Ea (H1 & H2 & H3). destruct (alphabet_split _ _ _ Ea) as [Hc Hnc]. destruct (awrite_spec t1 c (mk_slot 0 1)) as (t2 & E2 & L2 & R2 & O2); [lia|]. exists t2. split; [done|]. split_and!; [lia|..].
    + intros k [Hk|Hk%list_elem_of_singleton]%elem_of_app; [|by subst]. rewrite O2; [by apply H2|]. by intros ->.
    + intros k Hk. rewrite O2 by lia. by apply H3.
  - split_and!; [done|by intros k ?%not_elem_of_nil|]. intros k Hk. apply Hz. lia.
  - exists t'. split_and!; [done|done| |done]. intros k Hk. apply H2. by apply elem_alphabet.
Qed.

(** The root's children so far: their slots, failure states and places in the queue. *)
Record root_inv (mem : list bool) (pre : list (Z * Z)) (st : compact_st) : Prop := {
  ro_fields : Z.of_nat (length (c_tab st)) = 512 /\ c_cap st = 256 /\ c_base st = replicate n 0 /\ c_hint st = 256 /\ c_mem st = mem /\ length (c_fail st) = n /\ c_link st = replicate n (-1);
  ro_queue : c_queue st = Z.of_nat <$> (kid <$> pre);
  ro_fails : forall x, x ∈ kid <$> pre -> fail_is ws (c_fail st) x;
  ro_in : forall c v, (c, v) ∈ pre -> aread (c_tab st) c = Some (mk_slot v 1);
  ro_loop : forall c, 0 <= c < 256 -> c ∉ pre.*1 -> aread (c_tab st) c = Some (mk_slot 0 1);
  ro_free : forall k, 256 <= k < 512 -> aread (c_tab st) k = Some (mk_slot 0 0)
}.

Lemma root_step mem cs pre c v post st : kids_of ws [] cs -> is_bytes cs.*1 -> cs = pre ++ (c, v) :: post -> root_inv mem pre st -> exists st', compact_root a st (c, v) = Some st' /\ root_inv mem (pre ++ [(c, v)]) st'.
Proof.
  intros Hk Hby Ecs [(F1 & F2 & F3 & F4 & F5 & F6 & F7) H2 H3 H4 H5 H6]. pose proof (bfs_start ws _ (kids_states ws [] cs Hk)) as Hb. pose proof (bfs_bound ws Hws _ _ Hb) as Hroom.
  assert (Hct : (c, v) ∈ cs) by (rewrite Ecs; apply elem_of_app; right; left). assert (Hc : 0 <= c < 256) by (rewrite Forall_forall in Hby; apply (Hby c), list_elem_of_fmap; by exists (c, v)). destruct Hk as [Hnd Hk].
  assert (Hnc : c ∉ pre.*1) by (rewrite Ecs, fmap_app, fmap_cons in Hnd; apply NoDup_app in Hnd as (_ & Hx & _); intros Hp; apply (Hx c Hp); left). apply Hk in Hct as (k & -> & Ek). cbn [app] in Ek.
  unfold compact_root. cbn [fst snd]. rewrite (H5 c Hc Hnc). cbn [mbind option_bind slot_check]. assert (Hkn : (k < n)%nat) by (by apply lookup_lt_Some in Ek). assert (Hn' : Z.of_nat n <= 262144) by exact Hn.
  rewrite (wrap_id 32) by (unfold fits; lia). destruct (awrite_spec (c_tab st) c (mk_slot (Z.of_nat k) 1)) as (t2 & -> & L2 & R2 & O2); [lia|]. cbn [mbind option_bind].
  assert (Hv : names ws 0 (lsuf ws (tail [c]))) by (cbn [tail]; rewrite (lsuf_id ws []) by apply (root_in pats ws a Htf); exists 0%nat; split; [done|apply (w_root _ Hws)]).
  destruct (fail_write ws (c_fail st) k [c] 0 F6 Ek Hv) as (fails & -> & Hf1 & Hf2 & Hf3). cbn [mbind option_bind].
  rewrite H2, (enqueue_ok pats ws a Htf) by (rewrite Ecs, fmap_app, length_app, fmap_cons in Hroom; cbn [length] in Hroom; lia). cbn [mbind option_bind]. eexists. split; [done|].
  assert (Hkid : kid <$> (pre ++ [(c, Z.of_nat k)]) = (kid <$> pre) ++ [k]) by (rewrite fmap_app; cbn [fmap list_fmap snd]; by rewrite Nat2Z.id).
  split; cbn [c_tab c_cap c_base c_hint c_mem c_fail c_link c_queue]; rewrite ?Hkid; [split_and!; try done; lia|done|..].
  - intros x [Hx|Hx%list_elem_of_singleton]%elem_of_app; [|by subst]. destruct (decide (x = k)) as [->|Hxk]; [done|]. apply Hf3; [by apply H3|done].
  - intros d u [Hd|Hd%list_elem_of_singleton]%elem_of_app; [|by injection Hd as -> ->]. rewrite O2; [by apply H4|]. intros ->. apply Hnc, list_elem_of_fmap. by exists (c, u).
  - intros d Hd Hnd'. rewrite fmap_app in Hnd'. apply not_elem_of_app in Hnd' as [Hn1 Hn2]. rewrite O2; [by apply H5|]. intros ->. apply Hn2. left.
  - intros j Hj. rewrite O2 by lia. by apply H6.
Qed.

Lemma root_packed mem cs st : kids_of ws [] cs -> root_inv mem cs st -> packed ws [] (c_tab st) (c_cap st) (c_base st).
Proof.
  intros [_ Hk] [(F1 & F2 & F3 & F4 & F5 & F6 & F7) H2 H3 H4 H5 H6]. pose proof (w_root _ Hws) as E0. pose proof (lookup_lt_Some _ _ _ E0) as Hpos.
  assert (Hb : forall s, (s < n)%nat -> aread (c_base st) (Z.of_nat s) = Some 0) by (intros s Hs; rewrite F3, aread_nat; by apply lookup_replicate_2).
  assert (Hslot : forall c v, 0 <= c < 256 -> goto ws [] c = Some v -> aread (c_tab st) c = Some (mk_slot (Z.of_nat v) 1)).
  { intros c v Hc [Ev|(_ & -> & Hn0)]%(goto_inv ws Hws); [apply H4, Hk; by exists v|]. apply H5; [done|]. intros ([d u] & -> & Hd)%list_elem_of_fmap. apply Hk in Hd as (k & _ & Ed). apply Hn0. by apply list_elem_of_lookup_2 with k. }
  split; [lia|lia| | | |].
  - intros s Hs. exists 0. rewrite F2. split; [by apply Hb|lia].
  - apply (Hb 0%nat Hpos).
  - intros s w c v Es [->|Hs%not_elem_of_nil] Hc Eg; [|done]. apply (root_only ws Hws) in Es as ->. exists 0. split; [by apply (Hb 0%nat)|]. by apply Hslot.
  - intros k sl E Hck. pose proof (aread_some _ _ _ E). destruct (Z.lt_ge_cases k 256) as [Hlt|Hge]; [|rewrite H6 in E by lia; injection E as <-; done].
    split; [lia|]. assert (Hg : exists v, goto ws [] k = Some v) by (unfold goto; destruct (kidx ws [] k); eauto). destruct Hg as [v Hg]. rewrite (Hslot k v ltac:(lia) Hg) in E. injection E as <-.
    exists 0%nat, [], k, 0, v. split_and!; try done; [by left|lia|by apply (Hb 0%nat)].
Qed.

Lemma compact_root_spec t cs mem bases : Z.of_nat (length t) = 512 -> (forall k, 0 <= k < 256 -> aread t k = Some (mk_slot 0 1)) -> (forall k, 256 <= k < 512 -> aread t k = Some (mk_slot 0 0)) ->
  kids_of ws [] cs -> is_bytes cs.*1 -> bases = replicate n 0 ->
  exists st, each (compact_root a) cs (mk_compact t 256 bases (fail a) (out_link a) [] 256 mem) = Some st /\ compact_inv (kid <$> cs) 0 st /\ c_mem st = mem.
Proof.
  intros Hl Hlow Hhigh Hk Hby ->. destruct (each_inv (compact_root a) (root_inv mem) cs) with (s := mk_compact t 256 (replicate n 0) (fail a) (out_link a) [] 256 mem) as (st & E & Hr).
  - intros pre [c v] post st Ecs Hr. by apply (root_step mem cs pre c v post).
  - split; cbn [c_tab c_cap c_base c_hint c_mem c_fail c_link c_queue]; try done; [|by intros x ?%not_elem_of_nil|by intros c v ?%not_elem_of_nil|by intros c Hc _; apply Hlow]. rewrite (t_fail _ _ Ht), length_replicate. split_and!; try done. apply (t_link _ _ Ht).
  - exists st. pose proof (root_packed mem cs st Hk Hr) as Hp. destruct Hr as [(F1 & F2 & F3 & F4 & F5 & F6 & F7) H2 H3 H4 H5 H6]. split_and!; [done| |done]. split; [done|rewrite F2; unfold cap_max; lia|rewrite F2, F4; split; [lia|intros; lia]|].
    split; try done; [by rewrite F7, length_replicate|]. intros x Hx w Ew. exists (-1). rewrite F7, aread_nat. split; [apply lookup_replicate_2; by apply lookup_lt_Some in Ew|]. left. split; [done|].
    destruct Hx as [->|Hx]; [rewrite (w_root _ Hws) in Ew; by injection Ew as <-|]. apply (kids_states ws [] cs Hk) in Hx as [c Ec]. rewrite Ew in Ec. by injection Ec as ->.
Qed.

(** ** The whole build *)

(** The packed automaton: rows, failure states, and links of all states. *)
Record packed_ok (t : list dyn_ac_slot) (cap : Z) (bases fails links : list Z) : Prop := {
  po_table : exists done, packed ws done t cap bases /\ forall x w, ws !! x = Some w -> w = [] \/ x ∈ done;
  po_cap : cap <= cap_max n;
  po_len : length fails = n;
  po_fails : forall x w, ws !! x = Some w -> w <> [] -> fail_is ws fails x;
  po_links : forall x, (x < n)%nat -> link_is ws f links x
}.

Lemma reserve_first st : c_cap st = 0 -> exists ok st', ac_tab_reserve st 256 = Some (ok, st') /\
  if ok : bool then st' = with_tab st (replicate 512 (mk_slot 0 0)) 256 (c_mem st') /\ sub_mem (c_mem st') (c_mem st) else false ∈ c_mem st.
Proof.
  intros E0. unfold ac_tab_reserve. rewrite E0. change (0 =? 0) with true. change (reserve_cap 64 256 256) with (Some 256). cbn [mbind option_bind]. change (256 =? 0) with false.
  destruct (mallocs 1 (c_mem st)) as [ok mem] eqn:Em. apply mallocs_sub in Em as [Hm Hf]. destruct ok; cbn [negb]; eexists _, _; (split; [done|]); [by split|by apply Hf].
Qed.

Lemma compact_build_spec : exists rc a', ac_build_compact a = Some (rc, a') /\ (rc = -1 /\ false ∈ amem a \/
  rc = 0 /\ sub_mem (amem a') (amem a) /\ go a' = None /\ exists links, packed_ok (tab a') (tab_cap a') (base a') (fail a') links /\ oo a' = zip_with mk_oo (out a) links).
Proof.
  unfold ac_build_compact. destruct (malloc_both (amem a)) as [ok mem] eqn:E1. apply malloc_both_sub in E1 as [S1 F1]. destruct ok; cbn [negb]; [|eexists _, _; split; [done|]; left; split; [done|by apply F1]].
  destruct (malloc_both mem) as [ok mem2] eqn:E2. apply malloc_both_sub in E2 as [S2 F2]. destruct ok; cbn [negb]; [|eexists _, _; split; [done|]; left; split; [done|by apply S1, F2]].
  destruct (t_fresh _ _ Ht) as (_ & Hgo & Htab & Hcap). destruct (reserve_first (mk_compact (tab a) (tab_cap a) (base a) (fail a) (out_link a) [] 0 mem2) Hcap) as (ok & st & -> & Hok). cbn [mbind option_bind].
  destruct ok; [|eexists _, _; split; [done|]; left; split; [done|by apply S1, S2]]. destruct Hok as [Est S3]. cbn [c_mem] in S3. revert Est S3. generalize (c_mem st) as mem3. intros mem3 -> S3. cbn [with_tab c_tab c_cap c_base c_fail c_link c_mem].
  destruct (root_slots_spec (replicate 512 (mk_slot 0 0))) as (t & -> & Hl & Hlow & Hhigh); [done|intros k Hk; unfold aread; rewrite (proj2 (Z.ltb_ge _ _)) by lia; apply lookup_replicate_2; lia|]. cbn [mbind option_bind].
  pose proof (lookup_lt_Some _ _ _ (w_root _ Hws)) as Hpos. assert (Hb : awrite (base a) 0 0 = Some (replicate n 0)).
  { rewrite (t_base _ _ Ht), awrite_in by (rewrite length_replicate; lia). f_equal. apply list_insert_id. by apply lookup_replicate_2. }
  rewrite Hb. cbn [mbind option_bind]. destruct (children_spec ws a 0 [] Ht (w_root _ Hws)) as (cs & Ecs & Hk & _). change (Z.of_nat 0) with 0 in Ecs. rewrite Ecs. cbn [mbind option_bind].
  destruct (compact_root_spec t cs mem3 _ Hl Hlow Hhigh Hk (kids_bytes ws a [] cs Ht Hk) eq_refl) as (st1 & -> & Hi & Em). cbn [mbind option_bind]. rewrite (t_fail _ _ Ht), length_replicate.
  destruct (compact_bfs_spec n _ 0 st1 (bfs_start ws _ (kids_states ws [] cs Hk)) Hi ltac:(lia)) as (ok & st2 & -> & Hok). cbn [mbind option_bind]. destruct ok.
  2:{ eexists _, _. split; [done|]. left. split; [done|]. apply S1, S2, S3. by rewrite <- Em. }
  destruct Hok as (Hmq & q & Hq & [C1 C2 C3 [Q1 Q2 Q3 Q4 Q5]]). eexists _, _. split; [done|]. right. split; [done|]. cbn [set_oo set_compact go tab tab_cap base fail oo out out_link amem]. split; [intros b Hb'; apply S1, S2, S3; rewrite <- Em; by apply Hmq|]. split; [done|]. exists (c_link st2). split; [|done].
  assert (Hall : forall x w, ws !! x = Some w -> w = [] \/ x ∈ q) by (intros x [|b w] Ex; [by left|right; by apply (bfs_all ws Hws q Hq (b :: w))]). rewrite take_ge in C1 by lia. split; try done.
  - by exists q.
  - intros x w Ex Hw. apply Q4. by destruct (Hall x w Ex).
  - intros x Hx. destruct (lookup_lt_is_Some_2 _ _ Hx) as [w Ex]. apply Q5. destruct (Hall x w Ex) as [->|]; [left; by apply (root_only ws Hws)|by right].
Qed.

End Pack.
