(* ===== verification/AcRun.v ===== *)
(** * Running the automaton

    The state after a text is the state of its longest suffix that the trie
    has; the links from there are the patterns that end the text, the longest
    first.  Both tables give the same run. *)
From Stdlib Require Import ZArith Lia List Sorted.
From stdpp Require Import base numbers option list gmap.
From S2P Require Import Prelude Ac AcTrie AcBuild AcDense AcCompact AcPack.

#[local] Opaque alphabet.

Lemma found_elem f t p : p ∈ found f t <-> exists q, q <> [] /\ f q = Some p /\ q `suffix_of` t.
Proof.
  induction t as [|c t IH]; cbn [found].
  - split; [by intros ?%not_elem_of_nil|]. intros (q & Hq & _ & ->%suffix_nil_inv). done.
  - rewrite elem_of_app, IH. split.
    + intros [Hp|(q & Hq & Ef & Hs)]; [|exists q; split_and!; [done|done|by apply suffix_cons_r]]. destruct (f (c :: t)) as [x|] eqn:E; cbn in Hp; [|by apply not_elem_of_nil in Hp]. apply list_elem_of_singleton in Hp as ->. by exists (c :: t).
    + intros ([|b q] & Hq & Ef & Hs); [done|]. apply suffix_cons_inv in Hs as [E|Hs]; [left; rewrite <- E, Ef; left|right; by exists (b :: q)].
Qed.

(** What an occurrence is. *)
Lemma occurrences_elem pats t p i : (p, i) ∈ occurrences pats t <-> (1 <= i <= length t)%nat /\ exists q, q <> [] /\ first_idx pats q = Some p /\ q `suffix_of` take i t.
Proof.
  unfold occurrences. rewrite list_elem_of_In, in_flat_map. setoid_rewrite in_seq. setoid_rewrite <- list_elem_of_In. split.
  - intros (j & Hj & (x & [= -> ->] & Hx)%list_elem_of_fmap). split; [lia|]. by apply found_elem.
  - intros (Hi & Hq). exists i. split; [lia|]. apply list_elem_of_fmap. exists p. split; [done|]. by apply found_elem.
Qed.

Section Emit.
Context {U : Type}.
Variables (emit : U -> Z -> nat -> U * bool) (ws : list bytes) (f : bytes -> option Z).
Hypothesis Hws : words_ok ws.
Hypothesis Hf : forall w p, f w = Some p -> 0 <= p.
Hypothesis Hempty : f [] = None.

(** [ro] and [rl] read the patterns and the links of the automaton. *)
Variables ro rl : Z -> option Z.
Hypothesis Hro : forall v w, names ws v w -> ro v = Some (default (-1) (f w)).
Hypothesis Hrl : forall v w, names ws v w -> exists l, rl v = Some l /\ link_ok ws f w l.

#[local] Abbreviation at_ i := (fun p : Z => (p, i)).

Lemma emit_loop_spec i : forall fuel w o ud, (w = [] /\ o = -1 \/ names ws o w /\ is_Some (f w)) -> (length w <= fuel)%nat ->
  exists stop ud', emit_loop emit fuel ro rl i o ud = Some (ud', stop) /\ feed emit ud (at_ (i + 1)%nat <$> found f w) = (ud', if stop : bool then 1 else 0).
Proof.
  induction fuel as [|fuel IH]; intros w o ud [[-> ->]|[Hw [p Ep]]] Hlen.
  - by exists false, ud.
  - destruct w; [congruence|cbn in Hlen; lia].
  - by exists false, ud.
  - assert (Hne : w <> []) by congruence. cbn [emit_loop]. assert (Ho : 0 <= o) by (destruct Hw as (k & -> & _); lia). rewrite (proj2 (Z.ltb_ge _ _)) by lia. rewrite (Hro o w Hw), Ep. change (default (-1) (Some p)) with p. cbn [mbind option_bind].
    rewrite (found_tail f w Hne), Ep. change (option_list (Some p) ++ found f (tail w)) with (p :: found f (tail w)). rewrite fmap_cons. cbn [feed]. destruct (emit ud p (i + 1)%nat) as [ud1 [|]]; [by exists true, ud1|].
    destruct (Hrl o w Hw) as (l & -> & Hl). cbn [mbind option_bind]. destruct Hl as [[-> Hl]|(v & Hv & Hfv & Hl & Hlt)]; rewrite Hl.
    + exists false, ud1. by destruct fuel.
    + apply IH; [by right|lia].
Qed.

Lemma emit_at_spec a i s w ud : names ws s w -> length (fail a) = length ws ->
  exists stop ud', emit_at emit a ro rl i s ud = Some (ud', stop) /\ feed emit ud (at_ (i + 1)%nat <$> found f w) = (ud', if stop : bool then 1 else 0).
Proof.
  intros Hs Hlen. unfold emit_at. rewrite (Hro s w Hs), Hlen. cbn [mbind option_bind]. assert (Hw : (length w < length ws)%nat) by (apply (word_len ws Hws); destruct Hs as (k & _ & E); by apply list_elem_of_lookup_2 with k).
  destruct (f w) as [p|] eqn:Ep.
  - change (default (-1) (Some p)) with p. rewrite (proj2 (Z.leb_le _ _)) by (by apply (Hf w)). cbn [mbind option_bind]. apply emit_loop_spec; [right; by rewrite Ep|lia].
  - change (0 <=? default (-1) None) with false. cbn iota. destruct (Hrl s w Hs) as (l & -> & Hl). cbn [mbind option_bind]. assert (Hft : found f w = found f (tail w)) by (destruct w; [done|]; by rewrite found_tail, Ep by done). rewrite Hft.
    destruct Hl as [[-> ->]|(v & Hv & Hfv & -> & Hlt)]; [exists false, ud; by destruct (length ws)|]. apply emit_loop_spec; [by right|lia].
Qed.

(** From a state that reads as the text so far, one byte and what it reports. *)
Definition rest_of (pre t : bytes) : list (Z * nat) := flat_map (fun i => at_ i <$> found f (take i (pre ++ t))) (seq (S (length pre)) (length t)).

Lemma rest_cons pre c t : rest_of pre (c :: t) = (at_ (length pre + 1)%nat <$> found f (pre ++ [c])) ++ rest_of (pre ++ [c]) t.
Proof.
  unfold rest_of. cbn [length seq flat_map]. f_equal.
  - rewrite Nat.add_1_r. f_equal. f_equal. change (pre ++ c :: t) with (pre ++ [c] ++ t). rewrite app_assoc. apply take_app_length'. rewrite length_app. cbn. lia.
  - rewrite length_app, <- app_assoc. cbn [length app]. by rewrite Nat.add_1_r.
Qed.

Hypothesis Hin : forall w, is_Some (f w) -> w ∈ ws.

(** Any run whose steps follow the longest suffix reports the occurrences. *)
Lemma run_spec a (next : Z -> Z -> option Z) (run : nat -> Z -> bytes -> U -> option (U * Z)) : length (fail a) = length ws ->
  (forall i s ud, run i s [] ud = Some (ud, 0)) ->
  (forall i s c t ud, run i s (c :: t) ud = (s ← next s c; r ← emit_at emit a ro rl i s ud; let (ud, stop) := (r : U * bool) in if stop then Some (ud, 1) else run (S i) s t ud)) ->
  (forall s w c, names ws s w -> fits 8 c -> exists s', next s c = Some s' /\ names ws s' (lsuf ws (w ++ [c]))) ->
  forall t pre s ud, names ws s (lsuf ws pre) -> is_bytes t -> run (length pre) s t ud = Some (feed emit ud (rest_of pre t)).
Proof.
  intros Hlen Hnil Hcons Hnext. induction t as [|c t IH]; intros pre s ud Hs Hb; [apply Hnil|]. apply Forall_cons in Hb as [Hc Hb]. rewrite Hcons, rest_cons.
  destruct (Hnext s _ c Hs Hc) as (s' & -> & Hs'). cbn [mbind option_bind]. rewrite <- lsuf_step in Hs' by (first [apply (w_prefix _ Hws)|apply list_elem_of_lookup_2 with 0%nat; apply (w_root _ Hws)]).
  destruct (emit_at_spec a (length pre) s' _ ud Hs' Hlen) as (stop & ud' & -> & Hfeed). cbn [mbind option_bind]. rewrite <- found_lsuf in Hfeed by done. rewrite feed_app, Hfeed. destruct stop; [done|]. cbn [Z.eqb].
  specialize (IH (pre ++ [c]) s' ud' Hs' Hb). rewrite length_app in IH. cbn [length] in IH. by rewrite Nat.add_1_r in IH.
Qed.

End Emit.

(** ** The step over the packed table *)

Lemma run_step_spec pats ws a links : words_ok ws -> Z.of_nat (length ws) <= DYN_AC_MAX_STATES -> packed_ok pats ws (tab a) (tab_cap a) (base a) (fail a) links ->
  forall fuel s w c, ws !! s = Some w -> 0 <= c < 256 -> (length w <= fuel)%nat -> exists v, run_step fuel a (Z.of_nat s) c = Some v /\ names ws v (lsuf ws (w ++ [c])).
Proof.
  intros Hws Hn [(done & Hp & Hall) Hmax Hlen Hfails _]. pose proof (cap_max_fits _ Hn) as Hcap. assert (Hn' : Z.of_nat (length ws) <= 262144) by exact Hn.
  assert (Hread : forall s w c, ws !! s = Some w -> 0 <= c < 256 -> exists sl, (k ← (if Z.of_nat s =? 0 then Some c else b ← aread (base a) (Z.of_nat s); Some (u32 (b + c))); aread (tab a) k) = Some sl /\
    match goto ws w c with Some v => sl = mk_slot (Z.of_nat v) (Z.of_nat s + 1) | None => slot_check sl <> Z.of_nat s + 1 end).
  { intros s w c Es Hc. destruct (slot_hit ws done _ _ _ Hp s w c Es (Hall s w Es) Hc) as (b & sl & Eb & Hb & Esl & Hsl). exists sl. split; [|done]. destruct (Z.eqb_spec (Z.of_nat s) 0) as [E0|_].
    - rewrite E0, (p_root _ _ _ _ _ Hp) in Eb. injection Eb as <-. done.
    - rewrite Eb. cbn [mbind option_bind]. by rewrite (wrap_id 32) by (unfold fits; lia). }
  induction fuel as [|fuel IH]; intros s w c Es Hc Hl; cbn [run_step]; destruct (Hread s w c Es Hc) as (sl & Esl & Hsl); destruct (if Z.of_nat s =? 0 then _ else _) as [k|]; try done; cbn [mbind option_bind] in Esl |- *;
    rewrite Esl; cbn [mbind option_bind]; assert (Hs : (s < length ws)%nat) by (by apply lookup_lt_Some in Es); rewrite (wrap_id 32 (Z.of_nat s + 1)) by (unfold fits; lia); destruct (goto ws w c) as [v|] eqn:Eg.
  1,3: subst sl; cbn [slot_check slot_next]; rewrite Z.eqb_refl; exists (Z.of_nat v); (split; [done|by apply hit_names]).
  - apply (miss_lsuf ws Hws) in Eg as [Hw _]. destruct w; [done|cbn in Hl; lia].
  - rewrite (proj2 (Z.eqb_neq _ _) Hsl). apply (miss_lsuf ws Hws) in Eg as [Hw ->]. destruct (Hfails s w Es Hw w Es) as (v & -> & k' & -> & Ek). cbn [mbind option_bind].
    rewrite (wrap_id 32) by (apply lookup_lt_Some in Ek; unfold fits; lia). apply IH; [done|done|]. pose proof (tail_len ws w Hw). lia.
Qed.

(** ** Built automata *)

(** What dyn_ac_build leaves: one of the two tables, for the patterns [pats]. *)
Definition built_for (pats : list (bytes * Z)) (a : dyn_ac_t) : Prop :=
  built a = true /\ exists ws, words_ok ws /\ Z.of_nat (length ws) <= DYN_AC_MAX_STATES /\ length (fail a) = length ws /\ (forall w p, first_idx pats w = Some p -> 0 <= p /\ w ∈ ws) /\
  exists outs links, (forall x w, ws !! x = Some w -> outs !! x = Some (default (-1) (first_idx pats w))) /\ (forall x, (x < length ws)%nat -> link_is ws (first_idx pats) links x) /\
  match go a with
  | Some g => compact a = false /\ out a = outs /\ out_link a = links /\ forall x w c, ws !! x = Some w -> 0 <= c < 256 -> go_is ws g x w c
  | None => compact a = true /\ oo a = zip_with mk_oo outs links /\ packed_ok pats ws (tab a) (tab_cap a) (base a) (fail a) links
  end.

Lemma build_spec `{AcConfig} pats ws a : trie_for pats ws a -> exists rc a', dyn_ac_build a = Some (rc, a') /\ (rc = -1 /\ false ∈ amem a \/ rc = 0 /\ built_for pats a' /\ sub_mem (amem a') (amem a)).
Proof.
  intros Htf. pose proof (tf_trie _ _ _ Htf) as Ht. destruct (t_fresh _ _ Ht) as (Hb & Hgo & _). unfold dyn_ac_build. rewrite Hb.
  assert (Hf : forall w p, first_idx pats w = Some p -> 0 <= p /\ w ∈ ws) by (intros w p E; split; [apply (tf_idx _ _ _ Htf w), first_idx_elem, E|apply (f_in pats ws a Htf); by exists p]).
  destruct (DYN_AC_DENSE_MAX <? n_states a).
  - destruct (compact_build_spec pats ws a Htf) as (rc & a' & -> & Hr). cbn [mbind option_bind]. destruct Hr as [[-> Hr]|(-> & Hmem & Hgo' & links & Hpo & Hoo)]; cbn [Z.eqb negb]; eexists _, _; (split; [done|]); [by left|right].
    split; [done|]. split; [|exact Hmem]. split; [done|]. exists ws. pose proof (po_len _ _ _ _ _ _ _ Hpo) as Hlen. split_and!; [by apply (trie_words ws a)|apply (t_size _ _ Ht)|done|done|]. exists (out a), links. cbn [set_built go compact out out_link oo tab tab_cap base fail]. rewrite Hgo'.
    split_and!; [apply (tf_out _ _ _ Htf)|apply (po_links _ _ _ _ _ _ _ Hpo)|done..].
  - destruct (dense_build_spec pats ws a Htf) as (rc & a' & -> & Hr). cbn [mbind option_bind]. destruct Hr as [[-> Hr]|(-> & Hmem & g & Hgo' & Hout & Hlen & Hlinks & Hg)]; cbn [Z.eqb negb]; eexists _, _; (split; [done|]); [by left|right].
    split; [done|]. split; [|exact Hmem]. split; [done|]. exists ws. split_and!; [by apply (trie_words ws a)|apply (t_size _ _ Ht)|done|done|]. exists (out a), (out_link a'). cbn [set_built go compact out out_link oo tab tab_cap base fail]. rewrite Hgo'.
    split_and!; [apply (tf_out _ _ _ Htf)|done|done|done|done|done].
Qed.

Lemma built_run {U} (emit : U -> Z -> nat -> U * bool) pats a t ud : built_for pats a -> first_idx pats [] = None -> is_bytes t -> dyn_ac_run emit a t ud = Some (feed emit ud (occurrences pats t)).
Proof.
  intros (Hb & ws & Hws & Hn & Hlen & Hf & outs & links & Hout & Hlink & Htab) Hne Ht. unfold dyn_ac_run. rewrite Hb. cbn [negb].
  assert (Hroot : names ws 0 (lsuf ws [])) by (rewrite lsuf_id; [|apply list_elem_of_lookup_2 with 0%nat; apply (w_root _ Hws)]; exists 0%nat; split; [done|apply (w_root _ Hws)]).
  assert (Hro : forall v w, names ws v w -> aread outs v = Some (default (-1) (first_idx pats w))) by (intros v w (k & -> & E); rewrite aread_nat; by apply Hout).
  assert (Hrl : forall v w, names ws v w -> exists l, aread links v = Some l /\ link_ok ws (first_idx pats) w l) by (intros v w (k & -> & E); apply Hlink; [by apply lookup_lt_Some in E|done]).
  assert (Hf1 : forall w p, first_idx pats w = Some p -> 0 <= p) by (intros w p E; by apply (Hf w p)). assert (Hf2 : forall w, is_Some (first_idx pats w) -> w ∈ ws) by (intros w [p E]; by apply (Hf w p)).
  destruct (go a) as [g|] eqn:Eg.
  - destruct Htab as (-> & Eo & El & Hg). rewrite <- Eo in Hro. rewrite <- El in Hrl.
    refine (run_spec emit ws (first_idx pats) Hws Hf1 Hne (aread (out a)) (aread (out_link a)) Hro Hrl Hf2 a (fun s c => aread g (s * DYN_AC_ALPHABET + c)) (ac_run_dense emit a g) Hlen _ _ _ t [] 0 ud Hroot Ht); [done|done|].
    intros s w c (k & -> & Ek) Hc. by apply (Hg k w c).
  - destruct Htab as (-> & Eoo & Hpo).
    assert (Hoo : forall v w, names ws v w -> exists l, aread (oo a) v = Some (mk_oo (default (-1) (first_idx pats w)) l) /\ link_ok ws (first_idx pats) w l).
    { intros v w Hv. destruct (Hrl v w Hv) as (l & El & Hl). exists l. split; [|done]. pose proof (Hro v w Hv) as Er. destruct Hv as (k & -> & _). rewrite Eoo, aread_nat in *. rewrite aread_nat in Er. rewrite aread_nat in El. rewrite lookup_zip_with, Er, El. done. }
    refine (run_spec emit ws (first_idx pats) Hws Hf1 Hne (fun o => oo_out <$> aread (oo a) o) (fun o => oo_out_link <$> aread (oo a) o) _ _ Hf2 a (run_step (length (fail a)) a) (ac_run_compact emit a) Hlen _ _ _ t [] 0 ud Hroot Ht); [..|done|done|].
    + intros v w Hv. by destruct (Hoo v w Hv) as (l & -> & _).
    + intros v w Hv. destruct (Hoo v w Hv) as (l & -> & Hl). by exists l.
    + intros s w c (k & -> & Ek) Hc. apply (run_step_spec pats ws a links Hws Hn Hpo _ k w c Ek Hc). rewrite Hlen. apply Nat.lt_le_incl, (word_len ws Hws). by apply list_elem_of_lookup_2 with k.
Qed.
