(* ===== verification/AcProps.v ===== *)
(** * What an Aho-Corasick automaton does

    The theorems on src/core/dyn-ac.c: after the patterns were inserted and the
    automaton built, a run gives the callback the occurrences of the patterns,
    whichever table was built; and building fails for want of memory only. *)
From Stdlib Require Import ZArith Lia List.
From stdpp Require Import base numbers option list gmap.
From S2P Require Import Prelude Ac AcTrie AcBuild AcDense AcCompact AcPack AcRun.

(** A caller inserts its patterns one after the other. *)
Fixpoint load (a : dyn_ac_t) (pats : list (bytes * Z)) : option dyn_ac_t :=
  match pats with
  | [] => Some a
  | (p, idx) :: pats => r ← dyn_ac_insert a p idx; if r.1 =? 0 then load r.2 pats else None
  end.

(** Patterns, table and run in one. *)
Definition reports (max : Z) (pats : list (bytes * Z)) (t : bytes) : option (list (Z * nat) * Z) :=
  a0 ← dyn_ac_new (Z.of_nat (length pats)) []; a1 ← load a0 pats; r ← dyn_ac_build (H := Build_AcConfig max) a1;
  dyn_ac_run (fun l p i => (l ++ [(p, i)], false)) r.2 t [].

(** Patterns are byte strings, and none is empty. *)
Definition pats_ok (pats : list (bytes * Z)) : Prop := Forall (fun pi => pi.1 <> [] /\ is_bytes pi.1) pats.

Definition total_len (pats : list (bytes * Z)) : nat := sum_list_with (fun pi => length pi.1) pats.

#[export] Instance pats_ok_dec pats : Decision (pats_ok pats).
Proof. unfold pats_ok. apply _. Defined.

Lemma load_spec pats : forall done ws a a', trie_for done ws a -> pats_ok pats -> load a pats = Some a' -> exists ws', trie_for (done ++ pats) ws' a'.
Proof.
  induction pats as [|[p i] pats IH]; intros done ws a a' Htf Hp E; cbn [load] in E; [injection E as <-; exists ws; by rewrite app_nil_r|].
  apply Forall_cons in Hp as [[_ Hb] Hp]. cbn [fst] in Hb. destruct (ac_insert_spec done ws a p i Htf Hb) as (rc & a1 & E1 & Hr). rewrite E1 in E. cbn [mbind option_bind fst snd] in E.
  destruct Hr as [(-> & (ws' & Htf' & _) & _)|(-> & _)]; [|done]. cbn [Z.eqb] in E. destruct (IH _ ws' a1 a' Htf' Hp E) as (ws'' & Hfinal). exists ws''. by rewrite <- app_assoc in Hfinal.
Qed.

Lemma load_succeeds pats : forall done ws a, trie_for done ws a -> pats_ok pats -> Forall (fun pi => 0 <= pi.2 < n_pat a) pats -> (false ∉ amem a) -> Z.of_nat (length ws + total_len pats) <= DYN_AC_MAX_STATES ->
  exists a', load a pats = Some a' /\ (false ∉ amem a').
Proof.
  induction pats as [|[p i] pats IH]; intros done ws a Htf Hp Hi Hm Hlen; [by exists a|]. apply Forall_cons in Hp as [[_ Hb] Hp]. apply Forall_cons in Hi as [Hi0 Hi]. cbn [fst snd] in Hb, Hi0.
  unfold total_len in Hlen. cbn [sum_list_with fst] in Hlen. fold (total_len pats) in Hlen. cbn [load].
  destruct (ac_insert_spec done ws a p i Htf Hb) as (rc & a1 & -> & Hr). cbn [mbind option_bind fst snd]. destruct Hr as [(-> & (ws' & Htf' & Hl) & En & Hs)|(-> & [?|[?|[?|?]]])]; [|lia|lia|done|lia].
  cbn [Z.eqb]. apply (IH _ ws' a1 Htf' Hp); [by rewrite En|intros Hin; by apply Hm, Hs|lia].
Qed.

Lemma pats_no_empty pats : pats_ok pats -> first_idx pats [] = None.
Proof. intros Hp. destruct (first_idx pats []) as [i|] eqn:E; [|done]. apply first_idx_elem in E. unfold pats_ok in Hp. rewrite Forall_forall in Hp. by destruct (Hp _ E) as [? _]. Qed.

Lemma new_succeeds n mem : (false ∉ mem) -> exists a, dyn_ac_new n mem = Some a /\ (false ∉ amem a).
Proof.
  intros Hm. unfold dyn_ac_new. destruct (mallocs _ mem) as [ok mem'] eqn:E. apply mallocs_sub in E as [S1 F1]. destruct ok; [|destruct (Hm (F1 eq_refl))]. cbn [negb]. destruct (ac_new_state _) as [s a'] eqn:En.
  apply new_state_spec in En as [(-> & _ & [Hx|Hx])|(-> & _ & cap & mem1 & S2 & ->)].
  - unfold n_states in Hx. cbn in Hx. by change DYN_AC_MAX_STATES with 262144 in Hx.
  - destruct (Hm (S1 _ Hx)).
  - cbn [n_states fail length Z.of_nat Z.ltb Z.compare]. eexists. split; [done|]. intros Hin. by apply Hm, S1, S2.
Qed.

Module AcProps_props.

(** C4. For patterns that are inserted and built, dyn_ac_run calls the callback
    for every occurrence of a pattern, in the order of the places where they
    end and the longest first at one place, each under the index it was first
    inserted with, until the callback stops it; with the full table and with
    the packed one. *)
Theorem dyn_ac_run_exact `{AcConfig} {U} (emit : U -> Z -> nat -> U * bool) n mem a0 pats a1 a2 t ud :
  0 <= n -> dyn_ac_new n mem = Some a0 -> pats_ok pats -> load a0 pats = Some a1 -> dyn_ac_build a1 = Some (0, a2) -> is_bytes t ->
  dyn_ac_run emit a2 t ud = Some (feed emit ud (occurrences pats t)).
Proof.
  intros Hn [Htf0 _]%new_spec Hp Hl Hb Ht; [|done]. destruct (load_spec pats [] [[]] a0 a1 Htf0 Hp Hl) as (ws & Htf). cbn [app] in Htf.
  destruct (build_spec pats ws a1 Htf) as (rc & a' & E & Hr). rewrite Hb in E. injection E as <- <-. destruct Hr as [[? _]|(_ & Hbuilt & _)]; [done|].
  apply built_run; [done|by apply pats_no_empty|done].
Qed.

Lemma dyn_ac_run_exact_witness : exists a0 a1 a2, dyn_ac_new 2 [] = Some a0 /\ load a0 [([97; 98], 0); ([98], 1)] = Some a1 /\ dyn_ac_build (H := Build_AcConfig 0) a1 = Some (0, a2) /\
  dyn_ac_run (fun l p i => (l ++ [(p, i)], false)) a2 [97; 98; 98] [] = Some ([(0, 2%nat); (1, 2%nat); (1, 3%nat)], 0).
Proof.
  eexists _, _, _. split; [vm_compute; reflexivity|]. split; [vm_compute; reflexivity|]. split; [vm_compute; reflexivity|].
  refine (dyn_ac_run_exact (H := Build_AcConfig 0) (fun l p i => (l ++ [(p, i)], false)) 2 [] _ [([97; 98], 0); ([98], 1)] _ _ [97; 98; 98] [] _ _ _ _ _ _);
    [lia|vm_compute; reflexivity|apply (bool_decide_unpack _); vm_compute; exact I|vm_compute; reflexivity|vm_compute; reflexivity|apply (bool_decide_unpack _); vm_compute; exact I].
Defined.

(** C27. With memory, with indices below the number given to dyn_ac_new and
    with at most DYN_AC_MAX_STATES states, everything succeeds: the allocation,
    every insertion and the build of either table; no loop of the search for a
    place runs on, no array is left and no base overflows. *)
Theorem dyn_ac_build_succeeds `{AcConfig} n mem pats :
  0 <= n -> (false ∉ mem) -> pats_ok pats -> Forall (fun pi => 0 <= pi.2 < n) pats -> Z.of_nat (1 + total_len pats) <= DYN_AC_MAX_STATES ->
  exists a0 a1 a2, dyn_ac_new n mem = Some a0 /\ load a0 pats = Some a1 /\ dyn_ac_build a1 = Some (0, a2).
Proof.
  intros Hn Hm Hp Hi Hlen. destruct (new_succeeds n mem Hm) as (a0 & E0 & Hm0). destruct (new_spec n mem a0 Hn E0) as [Htf0 Hnp].
  destruct (load_succeeds pats [] [[]] a0 Htf0 Hp) as (a1 & E1 & Hm1); [by rewrite Hnp|done|exact Hlen|]. destruct (load_spec pats [] [[]] a0 a1 Htf0 Hp E1) as (ws & Htf).
  destruct (build_spec _ ws a1 Htf) as (rc & a2 & E2 & [[_ ?]|[-> _]]); [done|]. by exists a0, a1, a2.
Qed.

Lemma dyn_ac_build_succeeds_witness : exists a0 a1 a2, dyn_ac_new 1 [true] = Some a0 /\ load a0 [([97], 0)] = Some a1 /\ dyn_ac_build (H := Build_AcConfig 0) a1 = Some (0, a2).
Proof.
  apply (dyn_ac_build_succeeds (H := Build_AcConfig 0) 1 [true] [([97], 0)]); [lia|..]; apply (bool_decide_unpack _); vm_compute; exact I.
Defined.

(** Why patterns must not be empty: the tables disagree on where one occurs. *)
Example empty_pattern_differs :
  reports 2048 [([], 0); ([97; 98], 1); ([98; 99], 2)] [120; 97; 98; 99] = Some ([(0, 1%nat); (0, 2%nat); (1, 3%nat); (0, 3%nat); (2, 4%nat); (0, 4%nat)], 0) /\
  reports 0 [([], 0); ([97; 98], 1); ([98; 99], 2)] [120; 97; 98; 99] = Some ([(0, 1%nat); (1, 3%nat); (2, 4%nat); (0, 4%nat)], 0).
Proof. split; vm_compute; reflexivity. Qed.

End AcProps_props.
