(* ===== verification/Dict.v ===== *)
(** * Dictionary compression: src/core/dyn-dict.c

    A record lists the phrases of a dictionary that a text consists of and the
    literal runs between them.  The phrases are found by an automaton
    (src/core/dyn-ac.c), the parse by two arrays of costs, and numbers are
    written as varints (src/core/dyn-codec.c).

    The scratch arrays are lists whose cells are [None] until they are written;
    reading such a cell, or an access outside of an array, of the input, of a
    phrase or of the output's allocation, is [None].  The answers of the
    allocator are lists, as in the components that are called.  dyn_dict_free is
    left out. *)
From Stdlib Require Import ZArith Lia List.
From stdpp Require Import base numbers option list gmap.
From S2P Require Import Prelude Varint Crc Serial Snappy Ac AcTrie AcBuild AcDense AcCompact AcPack AcRun AcProps.

(** ** Constants and state *)

Definition DYN_MAX_OUTPUT : Z := 1 << 30.
Definition DYN_DICT_MAX_PHRASES : Z := 65535.
Definition DYN_DICT_MAGIC0 : Z := 68.
Definition DYN_DICT_MAGIC1 : Z := 84.
Definition DYN_DICT_VERSION : Z := 1.
Definition DYN_DICT_HEADER : nat := 7.
Definition DD_RUN_HDR : Z := 2.
Definition UINT32_MAX : Z := 0xffffffff.

Record dyn_dict_t := mk_dict {
  d_ac : dyn_ac_t; phrase : list bytes; d_plen : list Z; d_id : Z;
  best_len : list (option Z); best_pat : list (option Z); cost_a : list (option Z); cost_b : list (option Z); d_take : list (option Z);
  scratch_cap : Z; d_mem : list bool }.

(** The field n. *)
Definition dict_n (d : dyn_dict_t) : Z := Z.of_nat (length (phrase d)).

(** A cell that was written. *)
Definition rd (l : list (option Z)) (i : Z) : option Z := c ← aread l i; c.
Definition wr (l : list (option Z)) (i v : Z) : option (list (option Z)) := awrite l i (Some v).

(** ** Output *)

(** [None] for -1. *)
Fixpoint dd_grow (fuel : nat) (cap need : Z) : option (option Z) :=
  if cap <? need then
    match fuel with
    | O => None
    | S fuel => if DYN_MAX_OUTPUT <? cap then Some None else dd_grow fuel (u64 (cap * 2)) need
    end
  else Some (Some cap).

Definition dd_ensure (o : dyn_outbuf_t) (extra : Z) : option (bool * dyn_outbuf_t) :=
  if ob_cap o <? u64 (ob_len o + extra) then
    r ← dd_grow 64 (if ob_cap o =? 0 then 64 else ob_cap o) (u64 (ob_len o + extra));
    match r with
    | None => Some (false, o)
    | Some cap =>
        if hd true (ob_heap o) then Some (true, mk_out (ob_buf o) cap (ob_exceeded o) (tl (ob_heap o)))
        else Some (false, mk_out (ob_buf o) (ob_cap o) (ob_exceeded o) (tl (ob_heap o)))
    end
  else Some (true, o).

(** Calls one after the other until one returns -1. *)
Definition then_put (m : option (bool * dyn_outbuf_t)) (k : dyn_outbuf_t -> option (bool * dyn_outbuf_t)) : option (bool * dyn_outbuf_t) :=
  r ← m; if (r.1 : bool) then k r.2 else Some r.
Notation "o '<~' m ;; k" := (then_put m (fun o => k)) (at level 100, m at next level, right associativity).

Definition dd_put (o : dyn_outbuf_t) (p : bytes) : option (bool * dyn_outbuf_t) :=
  o <~ dd_ensure o (Z.of_nat (length p)) ;; (o ← ob_write o (ob_buf o ++ p); Some (true, o)).

Definition dd_put_varint (o : dyn_outbuf_t) (v : Z) : option (bool * dyn_outbuf_t) :=
  tmp ← dyn_codec_put_uvarint v; dd_put o tmp.

(** The literal run [src[from .. upto)]. *)
Definition dd_put_run (o : dyn_outbuf_t) (src : bytes) (from upto : nat) : option (bool * dyn_outbuf_t) :=
  o <~ dd_put_varint o 0 ;; o <~ dd_put_varint o (Z.of_nat (upto - from)) ;; (s ← aslice src from (upto - from); dd_put o s).

(** ** A new dictionary *)

Section Dict.
Variable sum : bytes -> Z.

Fixpoint canon_loop (o : dyn_outbuf_t) (phrases : list bytes) : option (bool * dyn_outbuf_t) :=
  match phrases with
  | [] => Some (true, o)
  | p :: phrases => o <~ dd_put_varint o (Z.of_nat (length p)) ;; o <~ dd_put o p ;; canon_loop o phrases
  end.

(** The checksum of all phrases, or 0 when there is no memory for them. *)
Definition dd_compute_id (phrases : list bytes) (mem : list bool) : option (Z * list bool) :=
  r ← canon_loop (mk_out [] 0 false mem) phrases;
  Some (if (r.1 : bool) then sum (ob_buf r.2) else 0, ob_heap r.2).

Fixpoint dd_load (a : dyn_ac_t) (i : Z) (phrases : list bytes) : option (option dyn_ac_t) :=
  match phrases with
  | [] => Some (Some a)
  | p :: phrases => r ← dyn_ac_insert a p i; if r.1 <? 0 then Some None else dd_load r.2 (i + 1) phrases
  end.

(** NULL is [Some None]. *)
Definition dyn_dict_new `{AcConfig} (phrases : list bytes) (mem : list bool) : option (option dyn_dict_t) :=
  let n := length phrases in
  if (n =? 0)%nat || (DYN_DICT_MAX_PHRASES <? Z.of_nat n) then Some None else
  if existsb (fun p => (length p =? 0)%nat) phrases then Some None else
  let (ok, mem) := mallocs 1 mem in
  if negb ok then Some None else
  let (ok, mem) := malloc_both mem in
  if negb ok then Some None else
  let (ok, mem) := mallocs n mem in
  if negb ok then Some None else
  match dyn_ac_new (Z.of_nat n) mem with
  | None => Some None
  | Some a =>
      r ← dd_load a 0 phrases;
      match r with
      | None => Some None
      | Some a =>
          r ← dyn_ac_build a;
          if r.1 <? 0 then Some None else
          i ← dd_compute_id phrases (amem r.2);
          Some (Some (mk_dict r.2 phrases ((fun p => Z.of_nat (length p)) <$> phrases) i.1 [] [] [] [] [] 0 i.2))
      end
  end.

(** ** Compressing *)

(** The callback: the longest phrase that starts at a place. *)
Definition dd_emit (d : dyn_dict_t) (ud : option (list (option Z) * list (option Z))) (pat : Z) (end_byte : nat) : option (list (option Z) * list (option Z)) * bool :=
  ((ud ← ud;
    let (bl, bp) := (ud : list (option Z) * list (option Z)) in
    len ← aread (d_plen d) pat;
    let start := u64 (Z.of_nat end_byte - len) in
    b ← rd bl start;
    if b <? u32 len then bl ← wr bl start (u32 len); bp ← wr bp start pat; Some (bl, bp) else Some (bl, bp)), false).

Definition resize (l : list (option Z)) (n : nat) : list (option Z) := take n l ++ replicate (n - length l) None.

Definition with_scratch (d : dyn_dict_t) (bl bp ca cb tk : list (option Z)) (cap : Z) (mem : list bool) : dyn_dict_t :=
  mk_dict (d_ac d) (phrase d) (d_plen d) (d_id d) bl bp ca cb tk cap mem.

(** The five arrays, one after the other; those before a failure have grown. *)
Definition dd_realloc (d : dyn_dict_t) (need : nat) : bool * dyn_dict_t :=
  let (ok, mem) := mallocs 1 (d_mem d) in
  if negb ok then (false, with_scratch d (best_len d) (best_pat d) (cost_a d) (cost_b d) (d_take d) (scratch_cap d) mem) else
  let bl := resize (best_len d) need in
  let (ok, mem) := mallocs 1 mem in
  if negb ok then (false, with_scratch d bl (best_pat d) (cost_a d) (cost_b d) (d_take d) (scratch_cap d) mem) else
  let bp := resize (best_pat d) need in
  let (ok, mem) := mallocs 1 mem in
  if negb ok then (false, with_scratch d bl bp (cost_a d) (cost_b d) (d_take d) (scratch_cap d) mem) else
  let ca := resize (cost_a d) (need + 1) in
  let (ok, mem) := mallocs 1 mem in
  if negb ok then (false, with_scratch d bl bp ca (cost_b d) (d_take d) (scratch_cap d) mem) else
  let cb := resize (cost_b d) (need + 1) in
  let (ok, mem) := mallocs 1 mem in
  if negb ok then (false, with_scratch d bl bp ca cb (d_take d) (scratch_cap d) mem) else
  (true, with_scratch d bl bp ca cb (resize (d_take d) (need + 1)) (Z.of_nat need) mem).

Definition dd_scratch (d : dyn_dict_t) (need : nat) : bool * dyn_dict_t :=
  let (ok, d) := if scratch_cap d <? Z.of_nat need then dd_realloc d need else (true, d) in
  if negb ok then (false, d) else
  (true, with_scratch d (replicate need (Some 0) ++ drop need (best_len d)) (best_pat d) (cost_a d) (cost_b d) (d_take d) (scratch_cap d) (d_mem d)).

(** One place of the text: the cheapest way from here on outside of a literal
    run (A) and inside of one (B). *)
Definition cost_step (bl bp : list (option Z)) (st : list (option Z) * list (option Z) * list (option Z)) (k : Z) : option (list (option Z) * list (option Z) * list (option Z)) :=
  let '(A, B, tk) := st in
  l ← rd bl k;
  ph ← (if l =? 0 then Some UINT32_MAX else
          p ← rd bp k;
          code ← dyn_codec_put_uvarint (u64 (p + 1));
          rest ← rd A (k + l);
          Some (if rest =? UINT32_MAX then UINT32_MAX else u32 (u32 (Z.of_nat (length code)) + rest)));
  bn ← rd B (k + 1);
  let a := if bn =? UINT32_MAX then UINT32_MAX else u32 (DD_RUN_HDR + 1 + bn) in
  let b := if bn =? UINT32_MAX then UINT32_MAX else u32 (1 + bn) in
  A ← wr A k (if ph <=? a then ph else a);
  tk ← wr tk k (if ph <=? a then 1 else 0);
  B ← wr B k (if ph <? b then ph else b);
  Some (A, B, tk).

Definition cost_loop (bl bp A B tk : list (option Z)) (len : nat) : option (list (option Z) * list (option Z) * list (option Z)) :=
  A ← wr A (Z.of_nat len) 0;
  B ← wr B (Z.of_nat len) 0;
  each (cost_step bl bp) (rev (Z.of_nat <$> seq 0 len)) (A, B, tk).

(** The loop that writes: the place where the last literal run starts. *)
Fixpoint emit_parse (fuel : nat) (bl bp tk : list (option Z)) (src : bytes) (i lit_start : nat) (o : dyn_outbuf_t) : option (bool * dyn_outbuf_t * nat) :=
  if (i <? length src)%nat then
    match fuel with
    | O => None
    | S fuel =>
        t ← rd tk (Z.of_nat i);
        l ← (if t =? 0 then Some 0 else rd bl (Z.of_nat i));
        if l =? 0 then emit_parse fuel bl bp tk src (i + 1) lit_start o else
        r ← (if (lit_start <? i)%nat then dd_put_run o src lit_start i else Some (true, o));
        if negb r.1 then Some (r, lit_start) else
        p ← rd bp (Z.of_nat i);
        r ← dd_put_varint r.2 (u64 (p + 1));
        if negb r.1 then Some (r, lit_start) else
        emit_parse fuel bl bp tk src (i + Z.to_nat l) (i + Z.to_nat l) r.2
    end
  else Some (true, o, lit_start).

Definition dict_header (d : dyn_dict_t) : bytes :=
  [DYN_DICT_MAGIC0; DYN_DICT_MAGIC1; DYN_DICT_VERSION; u8 (d_id d); u8 (d_id d >> 8); u8 (d_id d >> 16); u8 (d_id d >> 24)].

Definition set_arrays (d : dyn_dict_t) (bl bp A B tk : list (option Z)) : dyn_dict_t := with_scratch d bl bp A B tk (scratch_cap d) (d_mem d).

Definition dyn_dict_compress (d : dyn_dict_t) (src : bytes) (o : dyn_outbuf_t) : option (Z * dyn_dict_t * dyn_outbuf_t) :=
  r ← (o <~ dd_put o (dict_header d) ;; dd_put_varint o (Z.of_nat (length src)));
  if negb (r : bool * dyn_outbuf_t).1 then Some (-1, d, r.2) else
  if (length src =? 0)%nat then Some (0, d, r.2) else
  let (ok, d) := dd_scratch d (length src) in
  if negb ok then Some (-1, d, r.2) else
  run ← dyn_ac_run (dd_emit d) (d_ac d) src (Some (best_len d, best_pat d));
  best ← (run : option (list (option Z) * list (option Z)) * Z).1;
  costs ← cost_loop best.1 best.2 (cost_a d) (cost_b d) (d_take d) (length src);
  let '(A, B, tk) := (costs : list (option Z) * list (option Z) * list (option Z)) in
  let d := set_arrays d best.1 best.2 A B tk in
  w ← emit_parse (length src) best.1 best.2 tk src 0 0 r.2;
  let '(ok, o, lit_start) := (w : bool * dyn_outbuf_t * nat) in
  if negb ok then Some (-1, d, o) else
  r ← (if (lit_start <? length src)%nat then dd_put_run o src lit_start (length src) else Some (true, o));
  Some (if (r : bool * dyn_outbuf_t).1 then 0 else -1, d, r.2).

(** ** Decompressing *)

(** The inner [None] is -1; the guard and the reads as in the condition, left to
    right. *)
Definition dyn_dict_record_id (src : bytes) : option (option Z) :=
  if (length src <? DYN_DICT_HEADER)%nat then Some None else
  b0 ← aread src 0;
  if negb (b0 =? DYN_DICT_MAGIC0) then Some None else
  b1 ← aread src 1;
  if negb (b1 =? DYN_DICT_MAGIC1) then Some None else
  b2 ← aread src 2;
  if negb (b2 =? DYN_DICT_VERSION) then Some None else
  b3 ← aread src 3; b4 ← aread src 4; b5 ← aread src 5; b6 ← aread src 6;
  Some (Some (b3 .| u32 (b4 << 8) .| u32 (b5 << 16) .| u32 (b6 << 24))).

(** A number at the front of the input, and what follows it; [None] for -1. *)
Definition dd_number (src : bytes) : option (Z * bytes) :=
  match dyn_codec_uvarint src with
  | (used, Some v) => if used <=? 0 then None else Some (v, drop (Z.to_nat used) src)
  | (_, None) => None
  end.

Fixpoint dd_decode (fuel : nat) (d : dyn_dict_t) (src : bytes) (o : dyn_outbuf_t) : option (bool * dyn_outbuf_t) :=
  if (length src =? 0)%nat then Some (true, o) else
  match fuel with
  | O => None
  | S fuel =>
      match dd_number src with
      | None => Some (false, o)
      | Some (code, src) =>
          if code =? 0 then
            match dd_number src with
            | None => Some (false, o)
            | Some (rl, src) =>
                if Z.of_nat (length src) <? rl then Some (false, o) else
                if DYN_MAX_OUTPUT <? u64 (ob_len o + rl) then Some (false, o) else
                s ← aslice src 0 (Z.to_nat rl);
                o <~ dd_put o s ;; dd_decode fuel d (drop (Z.to_nat rl) src) o
            end
          else
            if dict_n d <? code then Some (false, o) else
            l ← aread (d_plen d) (code - 1);
            if DYN_MAX_OUTPUT <? u64 (ob_len o + l) then Some (false, o) else
            p ← aread (phrase d) (code - 1);
            s ← aslice p 0 (Z.to_nat l);
            o <~ dd_put o s ;; dd_decode fuel d src o
      end
  end.

Definition dyn_dict_decompress (d : dyn_dict_t) (src : bytes) (o : dyn_outbuf_t) : option (Z * dyn_outbuf_t) :=
  r ← dyn_dict_record_id src;
  match r with
  | None => Some (-1, o)
  | Some rid =>
      if negb (rid =? d_id d) then Some (-1, o) else
      match dd_number (drop DYN_DICT_HEADER src) with
      | None => Some (-1, o)
      | Some (raw_len, src) =>
          if DYN_MAX_OUTPUT <? raw_len then Some (-1, o) else
          r ← dd_decode (length src) d src o;
          if negb r.1 then Some (-1, r.2) else
          Some (if negb (ob_len r.2 =? raw_len) then -1 else 0, r.2)
      end
  end.

End Dict.
