(* ===== verification/DictProps.v ===== *)
(** * What dictionary compression does

    The theorems on src/core/dyn-dict.c.  A record is read as a list of tokens,
    literal runs and references to phrases; the compressor writes tokens that
    spell the text, whatever the costs made it choose, and the decompressor
    writes what the tokens spell. *)
From Stdlib Require Import ZArith Lia List.
From stdpp Require Import base numbers option list gmap.
From S2P Require Import Prelude Varint Crc Serial Snappy Ac AcTrie AcBuild AcDense AcCompact AcPack AcRun AcProps Dict.

(** ** Tokens *)

Inductive token := Lit (l : bytes) | Ref (i : nat).

Definition uv (x : Z) : bytes := default [] (dyn_codec_put_uvarint x).

Definition enc (t : token) : bytes :=
  match t with Lit l => uv 0 ++ uv (Z.of_nat (length l)) ++ l | Ref i => uv (Z.of_nat i + 1) end.
Definition encs (ts : list token) : bytes := concat (enc <$> ts).

Definition spelt (phrases : list bytes) (t : token) : bytes :=
  match t with Lit l => l | Ref i => default [] (phrases !! i) end.
Definition spells (phrases : list bytes) (ts : list token) : bytes := concat (spelt phrases <$> ts).

Definition token_ok (phrases : list bytes) (t : token) : Prop :=
  match t with Lit l => l <> [] /\ Z.of_nat (length l) <= DYN_MAX_OUTPUT | Ref i => Z.of_nat i < DYN_DICT_MAX_PHRASES /\ exists p, phrases !! i = Some p /\ p <> [] end.

Lemma encs_cons t ts : encs (t :: ts) = enc t ++ encs ts.
Proof. done. Qed.
Lemma spells_cons' phrases t ts : spells phrases (t :: ts) = spelt phrases t ++ spells phrases ts.
Proof. done. Qed.

Lemma uv_spec x : fits 64 x -> dyn_codec_put_uvarint x = Some (uv x) /\ (0 < length (uv x) <= 10)%nat.
Proof.
  intros Hx. unfold uv, dyn_codec_put_uvarint. destruct (put_uvarint_total 10 x) as [l E]; [unfold fits in Hx; lia|lia|]. rewrite E. split; [done|].
  apply (put_uvarint_loop_spec 10 x); [done|unfold fits in Hx; lia].
Qed.

Lemma dd_number_uv x rest : fits 64 x -> dd_number (uv x ++ rest) = Some (x, rest).
Proof.
  intros Hx. destruct (uv_spec x Hx) as [E Hl]. unfold dd_number, dyn_codec_uvarint. change (uvarint_loop (uv x ++ rest) 0 0 0) with (uvarint_loop (uv x ++ rest) 0 (7 * 0) 0).
  unfold fits in Hx. rewrite (uvarint_put 10 x (uv x)); [|done|lia|lia|lia|unfold fits; lia|lia]. rewrite (proj2 (Z.leb_gt _ _)) by lia. do 2 f_equal; [lia|].
  replace (Z.to_nat (0 + Z.of_nat (length (uv x)))) with (length (uv x)) by lia. by rewrite drop_app_length.
Qed.

Lemma enc_len phrases t : token_ok phrases t -> (0 < length (enc t) <= 12 * length (spelt phrases t))%nat.
Proof.
  destruct t as [l|i]; cbn [token_ok enc spelt].
  - intros [Hl Hm]. change DYN_MAX_OUTPUT with 1073741824 in Hm. destruct (uv_spec (Z.of_nat (length l))) as [_ H1]; [unfold fits; lia|].
    assert (length (uv 0) = 1%nat) by (vm_compute; done). rewrite !length_app. destruct l; [done|cbn [length] in *; lia].
  - intros (Hi & p & Ep & Hp). change DYN_DICT_MAX_PHRASES with 65535 in Hi. rewrite Ep. destruct (uv_spec (Z.of_nat i + 1)) as [_ H1]; [unfold fits; lia|]. destruct p; [done|]. change (default [] (Some (z :: p))) with (z :: p). cbn [length]. lia.
Qed.

Lemma encs_len phrases ts : Forall (token_ok phrases) ts -> (length ts <= length (encs ts) <= 12 * length (spells phrases ts))%nat.
Proof.
  induction 1 as [|t ts Ht _ IH]; [done|]. rewrite encs_cons, spells_cons', !length_app. cbn [length]. pose proof (enc_len phrases t Ht). lia.
Qed.

(** ** Output *)

(** A call that appends [s], or fails because memory or the limit is reached;
    [bound] is what it would take, and sums of sizes do not wrap. *)
Definition puts (o : dyn_outbuf_t) (s : bytes) (bound : nat) (r : option (bool * dyn_outbuf_t)) : Prop :=
  ob_len o + Z.of_nat bound < 2 ^ 64 ->
  exists ok o', r = Some (ok, o') /\ 0 <= ob_cap o' /\ sub_mem (ob_heap o') (ob_heap o) /\
    if ok : bool then ob_buf o' = ob_buf o ++ s else false ∈ ob_heap o \/ DYN_MAX_OUTPUT < ob_len o + Z.of_nat bound.

Lemma puts_then o s1 s2 b m k : (length s1 <= b)%nat -> puts o s1 b m ->
  (forall o', ob_buf o' = ob_buf o ++ s1 -> 0 <= ob_cap o' -> puts o' s2 (b - length s1) (k o')) -> puts o (s1 ++ s2) b (then_put m k).
Proof.
  intros Hb H1 Hk Hfit. destruct (H1 Hfit) as (ok & o1 & -> & Hc & Hm & Hok). unfold then_put. cbn [mbind option_bind fst snd]. destruct ok; [|exists false, o1; by split_and!].
  destruct (Hk o1 Hok Hc) as (ok & o2 & -> & Hc2 & Hm2 & Hok2); [unfold ob_len in *; rewrite Hok, length_app; lia|]. exists ok, o2. split_and!; [done|done|intros x Hx; by apply Hm, Hm2|]. destruct ok; [by rewrite Hok2, Hok, app_assoc|].
  destruct Hok2 as [|Hbig]; [left; by apply Hm|right]. unfold ob_len in *. rewrite Hok, length_app in Hbig. lia.
Qed.

Lemma puts_weaken o s b b' r : (b <= b')%nat -> puts o s b r -> puts o s b' r.
Proof. intros Hb H Hfit. destruct H as (ok & o' & E & Hc & Hm & Hok); [lia|]. exists ok, o'. split_and!; try done. destruct ok; [done|]. destruct Hok; [by left|right; lia]. Qed.

Lemma puts_nil o b : 0 <= ob_cap o -> puts o [] b (Some (true, o)).
Proof. intros Hc _. exists true, o. split_and!; try done. by rewrite app_nil_r. Qed.

Lemma dd_grow_spec need : forall fuel cap, 1 <= cap -> DYN_MAX_OUTPUT < cap * 2 ^ Z.of_nat fuel ->
  exists r, dd_grow (S fuel) cap need = Some r /\ match r with Some c => need <= c | None => DYN_MAX_OUTPUT < need end.
Proof.
  change DYN_MAX_OUTPUT with (2 ^ 30). induction fuel as [|fuel IH]; intros cap Hc Hf; cbn [dd_grow]; (destruct (Z.ltb_spec cap need); [|eexists; split; [done|cbn; lia]]); change DYN_MAX_OUTPUT with (2 ^ 30).
  - change (2 ^ Z.of_nat 0) with 1 in Hf. rewrite (proj2 (Z.ltb_lt _ _)) by lia. eexists. split; [done|]. cbn; lia.
  - destruct (Z.ltb_spec (2 ^ 30) cap); [eexists; split; [done|cbn; lia]|]. rewrite (wrap_id 64) by (unfold fits; lia). apply IH; [lia|]. rewrite Nat2Z.inj_succ, Z.pow_succ_r in Hf by lia. lia.
Qed.

Lemma dd_put_spec o p : 0 <= ob_cap o -> puts o p (length p) (dd_put o p).
Proof.
  intros Hc Hfit. unfold dd_put, then_put, dd_ensure. assert (Hlen : 0 <= ob_len o) by (unfold ob_len; lia). rewrite (wrap_id 64) by (unfold fits; lia).
  assert (Hw : forall o', ob_buf o' = ob_buf o -> ob_len o + Z.of_nat (length p) <= ob_cap o' -> ob_write o' (ob_buf o' ++ p) = Some (mk_out (ob_buf o ++ p) (ob_cap o') (ob_exceeded o') (ob_heap o'))).
  { intros o' Eb Hr. rewrite Eb. apply ob_write_ok. unfold ob_len in Hr. rewrite length_app. lia. }
  destruct (Z.ltb_spec (ob_cap o) (ob_len o + Z.of_nat (length p))) as [Hlt|Hge]; cbn [mbind option_bind fst snd].
  - destruct (dd_grow_spec (ob_len o + Z.of_nat (length p)) 63 (if ob_cap o =? 0 then 64 else ob_cap o)) as (r & -> & Hr); [destruct (Z.eqb_spec (ob_cap o) 0); lia|destruct (Z.eqb_spec (ob_cap o) 0); change DYN_MAX_OUTPUT with (2 ^ 30); nia|].
    cbn [mbind option_bind]. destruct r as [c|]; [|cbn [mbind option_bind fst snd]; exists false, o; split_and!; [done|done|done|by right]].
    destruct (ob_heap o) as [|[|] h] eqn:Eh; cbn [hd tl mbind option_bind fst snd]; rewrite ?Hw by done; cbn [mbind option_bind]; eexists _, _; (split; [done|]); cbn; rewrite ?Eh; (split; [lia|]); (split; [try done; by intros x Hx; right|]); [done|done|left; left].
  - rewrite Hw by done. eexists true, _. split; [done|]. by split_and!.
Qed.

Lemma dd_put_varint_spec o x : 0 <= ob_cap o -> fits 64 x -> puts o (uv x) (length (uv x)) (dd_put_varint o x).
Proof. intros Hc Hx. unfold dd_put_varint. rewrite (proj1 (uv_spec x Hx)). cbn [mbind option_bind]. by apply dd_put_spec. Qed.

Lemma dd_put_run_spec o src from upto : 0 <= ob_cap o -> (from <= upto <= length src)%nat -> Z.of_nat (length src) <= DYN_MAX_OUTPUT ->
  puts o (enc (Lit (take (upto - from) (drop from src)))) (length (enc (Lit (take (upto - from) (drop from src))))) (dd_put_run o src from upto).
Proof.
  intros Hc Hft Hm. change DYN_MAX_OUTPUT with 1073741824 in Hm. unfold dd_put_run. set (l := take (upto - from) (drop from src)). assert (Hl : length l = (upto - from)%nat) by (unfold l; rewrite length_take, length_drop; lia).
  cbn [enc]. rewrite Hl, !length_app, aslice_in by lia. fold l. cbn [mbind option_bind]. apply puts_then; [lia|apply (puts_weaken _ _ (length (uv 0))); [lia|apply dd_put_varint_spec; [done|unfold fits; lia]]|]. intros o1 _ Hc1.
  apply puts_then; [lia|eapply puts_weaken; [|apply dd_put_varint_spec; [done|unfold fits; lia]]; lia|]. intros o2 _ Hc2. eapply puts_weaken; [|by apply dd_put_spec]. lia.
Qed.

(** ** Decompressing tokens *)

(** What a dictionary is after dyn_dict_new. *)
Definition pats_of (phrases : list bytes) : list (bytes * Z) := imap (fun i p => (p, Z.of_nat i)) phrases.

Definition scratch_ok (d : dyn_dict_t) : Prop :=
  0 <= scratch_cap d /\ scratch_cap d <= Z.of_nat (length (best_len d)) /\ scratch_cap d <= Z.of_nat (length (best_pat d)) /\
  (0 < scratch_cap d -> scratch_cap d < Z.of_nat (length (cost_a d)) /\ scratch_cap d < Z.of_nat (length (cost_b d)) /\ scratch_cap d < Z.of_nat (length (d_take d))).

Record dict_ok (d : dyn_dict_t) : Prop := {
  dk_phrases : Forall (fun p => p <> [] /\ is_bytes p) (phrase d);
  dk_short : Forall (fun p => Z.of_nat (length p) < DYN_AC_MAX_STATES) (phrase d);
  dk_count : Z.of_nat (length (phrase d)) <= DYN_DICT_MAX_PHRASES;
  dk_plen : d_plen d = (fun p => Z.of_nat (length p)) <$> phrase d;
  dk_id : fits 32 (d_id d);
  dk_ac : built_for (pats_of (phrase d)) (d_ac d);
  dk_scratch : scratch_ok d
}.

Lemma token_at d i : dict_ok d -> token_ok (phrase d) (Ref i) -> exists p, phrase d !! i = Some p /\ aread (phrase d) (Z.of_nat i + 1 - 1) = Some p /\ aread (d_plen d) (Z.of_nat i + 1 - 1) = Some (Z.of_nat (length p)) /\ Z.of_nat i < dict_n d.
Proof.
  intros Hd (_ & p & Ep & _). exists p. replace (Z.of_nat i + 1 - 1) with (Z.of_nat i) by lia. rewrite !aread_nat, (dk_plen _ Hd), list_lookup_fmap, Ep. split_and!; try done. unfold dict_n. apply lookup_lt_Some in Ep. lia.
Qed.

Lemma decode_tokens d : dict_ok d -> forall ts fuel o, Forall (token_ok (phrase d)) ts -> (length ts <= fuel)%nat -> 0 <= ob_cap o -> ob_len o + Z.of_nat (length (spells (phrase d) ts)) <= DYN_MAX_OUTPUT ->
  puts o (spells (phrase d) ts) (length (spells (phrase d) ts)) (dd_decode fuel d (encs ts) o).
Proof.
  intros Hd. induction ts as [|t ts IH]; intros fuel o Hts Hf Hc Hm; [destruct fuel; by apply puts_nil|]. apply Forall_cons in Hts as [Ht Hts]. destruct fuel as [|fuel]; cbn [length] in Hf; [lia|].
  pose proof (enc_len _ t Ht) as He. rewrite spells_cons', length_app in Hm |- *. cbn [dd_decode]. rewrite (proj2 (Nat.eqb_neq _ _)) by (rewrite encs_cons, length_app; lia). rewrite encs_cons.
  assert (Hstep : forall o', ob_buf o' = ob_buf o ++ spelt (phrase d) t -> 0 <= ob_cap o' -> puts o' (spells (phrase d) ts) (length (spelt (phrase d) t) + length (spells (phrase d) ts) - length (spelt (phrase d) t)) (dd_decode fuel d (encs ts) o')).
  { intros o' Eo Hc'. replace (_ + _ - _)%nat with (length (spells (phrase d) ts)) by lia. apply IH; [done|lia|done|]. unfold ob_len in *. rewrite Eo, length_app. lia. }
  assert (H0 : 0 <= ob_len o) by (unfold ob_len; lia). change DYN_MAX_OUTPUT with 1073741824 in *. destruct t as [l|i]; cbn [enc spelt] in *.
  - destruct Ht as [Hl Hlm]. change DYN_MAX_OUTPUT with 1073741824 in Hlm. rewrite <- !app_assoc, dd_number_uv by (unfold fits; lia). rewrite Z.eqb_refl, dd_number_uv by (unfold fits; lia). rewrite length_app, (proj2 (Z.ltb_ge _ _)) by lia.
    rewrite (wrap_id 64) by (unfold fits; lia). rewrite (proj2 (Z.ltb_ge _ _)) by lia. rewrite Nat2Z.id, aslice_front, drop_app_length by done. cbn [mbind option_bind]. apply puts_then; [lia|eapply puts_weaken; [|by apply dd_put_spec]; lia|done].
  - destruct (token_at d i Hd Ht) as (p & Ep & Ea & El & Hi). destruct Ht as (Hi' & _). change DYN_DICT_MAX_PHRASES with 65535 in Hi'. rewrite Ep in *. change (default [] (Some p)) with p in *. rewrite dd_number_uv by (unfold fits; lia).
    rewrite (proj2 (Z.eqb_neq _ _)), (proj2 (Z.ltb_ge _ _)) by lia. rewrite El. cbn [mbind option_bind]. rewrite (wrap_id 64) by (unfold fits; lia). rewrite (proj2 (Z.ltb_ge _ _)) by lia. rewrite Ea. cbn [mbind option_bind].
    rewrite Nat2Z.id, aslice_in, drop_0, take_ge by lia. cbn [mbind option_bind]. apply puts_then; [lia|eapply puts_weaken; [|by apply dd_put_spec]; lia|done].
Qed.

(** ** The header *)

Lemma le32_bytes a b c d : fits 8 a -> fits 8 b -> fits 8 c -> fits 8 d ->
  a .| u32 (b << 8) .| u32 (c << 16) .| u32 (d << 24) = a + b * 2 ^ 8 + c * 2 ^ 16 + d * 2 ^ 24.
Proof.
  intros Ha Hb Hc Hd. unfold fits in *. rewrite !(wrap_id 32) by (unfold fits; rewrite Z.shiftl_mul_pow2 by lia; lia).
  rewrite (lor_shiftl_add a b 8), (lor_shiftl_add _ c 16), (lor_shiftl_add _ d 24) by (unfold fits; lia). lia.
Qed.

Lemma record_id_header d rest : fits 32 (d_id d) -> dyn_dict_record_id (dict_header d ++ rest) = Some (Some (d_id d)).
Proof.
  intros Hid. transitivity (Some (Some (u8 (d_id d) .| u32 (u8 (d_id d >> 8) << 8) .| u32 (u8 (d_id d >> 16) << 16) .| u32 (u8 (d_id d >> 24) << 24)))); [reflexivity|]. do 2 f_equal.
  rewrite le32_bytes by (apply wrap_fits; lia). unfold wrap, fits in *. rewrite !Z.shiftr_div_pow2 by lia. zdm.
Qed.

(** Whatever the bytes, the identifier is read inside of them. *)
Lemma record_id_total src : exists r, dyn_dict_record_id src = Some r.
Proof.
  unfold dyn_dict_record_id. destruct (Nat.ltb_spec (length src) DYN_DICT_HEADER) as [|Hl]; [by eexists|]. unfold DYN_DICT_HEADER in Hl.
  assert (R : forall i, 0 <= i < 7 -> exists b, aread src i = Some b) by (intros i Hi; replace i with (Z.of_nat (Z.to_nat i)) by lia; rewrite aread_nat; apply lookup_lt_is_Some_2; lia).
  destruct (R 0 ltac:(lia)) as [b0 E0], (R 1 ltac:(lia)) as [b1 E1], (R 2 ltac:(lia)) as [b2 E2], (R 3 ltac:(lia)) as [b3 E3], (R 4 ltac:(lia)) as [b4 E4], (R 5 ltac:(lia)) as [b5 E5], (R 6 ltac:(lia)) as [b6 E6].
  rewrite E0, E1, E2, E3, E4, E5, E6. cbn [mbind option_bind]. repeat (case_if; [by eexists|]). by eexists.
Qed.

(** ** The phrases that start at every place *)

Definition best_ok (phrases : list bytes) (src : bytes) (bl bp : list (option Z)) (k : nat) : Prop :=
  rd bl (Z.of_nat k) = Some 0 \/ exists q i, rd bl (Z.of_nat k) = Some (Z.of_nat (length q)) /\ rd bp (Z.of_nat k) = Some (Z.of_nat i) /\ phrases !! i = Some q /\ q <> [] /\ take (length q) (drop k src) = q.

Lemma best_inside phrases src bl bp k : best_ok phrases src bl bp k -> (k < length src)%nat -> exists l, rd bl (Z.of_nat k) = Some (Z.of_nat l) /\ (k + l <= length src)%nat.
Proof.
  intros [E|(q & i & E & _ & _ & _ & Hq)] Hk; [exists 0%nat; split; [done|lia]|]. exists (length q). split; [done|]. apply (f_equal length) in Hq. rewrite length_take, length_drop in Hq. lia.
Qed.

Lemma rd_read l i v : aread l i = Some (Some v) -> rd l i = Some v.
Proof. intros E. unfold rd. by rewrite E. Qed.

Lemma wr_spec l i v : 0 <= i < Z.of_nat (length l) -> exists l', wr l i v = Some l' /\ length l' = length l /\ rd l' i = Some v /\ forall j, j <> i -> rd l' j = rd l j.
Proof.
  intros Hi. destruct (awrite_spec l i (Some v) Hi) as (l' & E & L & R & O). exists l'. split_and!; [done|done|by apply rd_read|]. intros j Hj. unfold rd. by rewrite O.
Qed.

Lemma first_phrase phrases q p : first_idx (pats_of phrases) q = Some p -> exists i, p = Z.of_nat i /\ phrases !! i = Some q.
Proof.
  intros E%first_idx_elem. unfold pats_of in E. apply elem_of_lookup_imap in E as (i & x & [= -> ->] & Ei). by exists i.
Qed.

(** One call of the callback. *)
Lemma emit_best d src bl bp p i : dict_ok d -> Z.of_nat (length src) <= DYN_MAX_OUTPUT -> (p, i) ∈ occurrences (pats_of (phrase d)) src ->
  (length src <= length bl)%nat -> (length src <= length bp)%nat -> (forall k, (k < length src)%nat -> best_ok (phrase d) src bl bp k) ->
  exists bl' bp', dd_emit d (Some (bl, bp)) p i = (Some (bl', bp'), false) /\ length bl' = length bl /\ length bp' = length bp /\ forall k, (k < length src)%nat -> best_ok (phrase d) src bl' bp' k.
Proof.
  intros Hd Hm Hocc Hl1 Hl2 Hb. apply occurrences_elem in Hocc as (Hi & q & Hq & Ef & x & Hx). destruct (first_phrase _ _ _ Ef) as (j & -> & Ej). change DYN_MAX_OUTPUT with 1073741824 in Hm.
  assert (Hlen : i = (length x + length q)%nat) by (apply (f_equal length) in Hx; rewrite length_take, length_app in Hx; lia). assert (Hqpos : (0 < length q)%nat) by (destruct q; [done|cbn; lia]).
  assert (Hsub : take (length q) (drop (length x) src) = q).
  { rewrite <- (take_drop i src), Hx, <- app_assoc, drop_app_length. apply take_app_length. }
  unfold dd_emit. cbn [mbind option_bind]. rewrite aread_nat, (dk_plen _ Hd), list_lookup_fmap, Ej. cbn [fmap option_fmap option_map mbind option_bind].
  replace (Z.of_nat i - Z.of_nat (length q)) with (Z.of_nat (length x)) by lia. rewrite (wrap_id 64), (wrap_id 32) by (unfold fits; lia).
  destruct (best_inside _ _ _ _ _ (Hb (length x) ltac:(lia)) ltac:(lia)) as (l & El & _). rewrite El. cbn [mbind option_bind]. destruct (Z.of_nat l <? Z.of_nat (length q)); [|by exists bl, bp].
  destruct (wr_spec bl (Z.of_nat (length x)) (Z.of_nat (length q))) as (bl' & -> & L1 & R1 & O1); [lia|]. cbn [mbind option_bind].
  destruct (wr_spec bp (Z.of_nat (length x)) (Z.of_nat j)) as (bp' & -> & L2 & R2 & O2); [lia|]. cbn [mbind option_bind]. exists bl', bp'. split_and!; [done|done|done|].
  intros k Hk. destruct (decide (k = length x)) as [->|Hne]; [right; by exists q, j|]. destruct (Hb k Hk) as [E|(q' & i' & E1 & E2 & Hrest)]; [left; rewrite O1; [done|lia]|right].
  exists q', i'. rewrite O1, O2 by lia. done.
Qed.

Lemma feed_best d src : dict_ok d -> Z.of_nat (length src) <= DYN_MAX_OUTPUT -> forall l bl bp, (forall x, x ∈ l -> x ∈ occurrences (pats_of (phrase d)) src) ->
  (length src <= length bl)%nat -> (length src <= length bp)%nat -> (forall k, (k < length src)%nat -> best_ok (phrase d) src bl bp k) ->
  exists bl' bp', feed (dd_emit d) (Some (bl, bp)) l = (Some (bl', bp'), 0) /\ length bl' = length bl /\ length bp' = length bp /\ forall k, (k < length src)%nat -> best_ok (phrase d) src bl' bp' k.
Proof.
  intros Hd Hm. induction l as [|[p i] l IH]; intros bl bp Hl H1 H2 Hb; [by exists bl, bp|]. cbn [feed].
  destruct (emit_best d src bl bp p i Hd Hm (Hl _ ltac:(left)) H1 H2 Hb) as (bl1 & bp1 & -> & L1 & L2 & Hb1).
  destruct (IH bl1 bp1) as (bl2 & bp2 & -> & L3 & L4 & Hb2); [intros x Hx; apply Hl; by right|lia|lia|done|]. exists bl2, bp2. split_and!; [done|lia|lia|done].
Qed.

(** ** Costs *)

Definition written (l : list (option Z)) (from upto : nat) : Prop := forall k, (from <= k < upto)%nat -> is_Some (rd l (Z.of_nat k)).

Lemma cost_step_spec phrases src bl bp m A B tk : best_ok phrases src bl bp m -> Z.of_nat (length phrases) <= DYN_DICT_MAX_PHRASES -> (m < length src)%nat ->
  (length src < length A)%nat -> (length src < length B)%nat -> (length src < length tk)%nat -> written A (S m) (S (length src)) -> written B (S m) (S (length src)) ->
  exists A' B' tk', cost_step bl bp (A, B, tk) (Z.of_nat m) = Some (A', B', tk') /\ length A' = length A /\ length B' = length B /\ length tk' = length tk /\
    is_Some (rd A' (Z.of_nat m)) /\ is_Some (rd B' (Z.of_nat m)) /\ is_Some (rd tk' (Z.of_nat m)) /\
    (forall j, j <> Z.of_nat m -> rd A' j = rd A j) /\ (forall j, j <> Z.of_nat m -> rd B' j = rd B j) /\ (forall j, j <> Z.of_nat m -> rd tk' j = rd tk j).
Proof.
  intros Hb Hn Hm LA LB LT WA WB. change DYN_DICT_MAX_PHRASES with 65535 in Hn. unfold cost_step. destruct (best_inside _ _ _ _ _ Hb Hm) as (l & El & Hl). rewrite El. cbn [mbind option_bind].
  assert (Hph : exists ph, (if Z.of_nat l =? 0 then Some UINT32_MAX else p ← rd bp (Z.of_nat m); code ← dyn_codec_put_uvarint (u64 (p + 1)); rest ← rd A (Z.of_nat m + Z.of_nat l);
      Some (if rest =? UINT32_MAX then UINT32_MAX else u32 (u32 (Z.of_nat (length code)) + rest))) = Some ph).
  { destruct (Z.eqb_spec (Z.of_nat l) 0); [by eexists|]. destruct Hb as [E|(q & i & E1 & E2 & Ei & _)]; [rewrite El in E; injection E as E; lia|]. rewrite E2. cbn [mbind option_bind].
    apply lookup_lt_Some in Ei. rewrite (wrap_id 64) by (unfold fits; lia). rewrite (proj1 (uv_spec (Z.of_nat i + 1) ltac:(unfold fits; lia))). cbn [mbind option_bind].
    destruct (WA (m + l)%nat ltac:(lia)) as [rest Er]. rewrite Nat2Z.inj_add in Er. rewrite Er. cbn [mbind option_bind]. by eexists. }
  destruct Hph as [ph ->]. cbn [mbind option_bind]. destruct (WB (S m) ltac:(lia)) as [bn Ebn]. replace (Z.of_nat m + 1) with (Z.of_nat (S m)) by lia. rewrite Ebn. cbn [mbind option_bind].
  destruct (wr_spec A (Z.of_nat m) (if ph <=? (if bn =? UINT32_MAX then UINT32_MAX else u32 (DD_RUN_HDR + 1 + bn)) then ph else if bn =? UINT32_MAX then UINT32_MAX else u32 (DD_RUN_HDR + 1 + bn))) as (A1 & -> & L1 & R1 & O1); [lia|]. cbn [mbind option_bind].
  destruct (wr_spec tk (Z.of_nat m) (if ph <=? (if bn =? UINT32_MAX then UINT32_MAX else u32 (DD_RUN_HDR + 1 + bn)) then 1 else 0)) as (T1 & -> & L2 & R2 & O2); [lia|]. cbn [mbind option_bind].
  destruct (wr_spec B (Z.of_nat m) (if ph <? (if bn =? UINT32_MAX then UINT32_MAX else u32 (1 + bn)) then ph else if bn =? UINT32_MAX then UINT32_MAX else u32 (1 + bn))) as (B1 & -> & L3 & R3 & O3); [lia|]. cbn [mbind option_bind].
  exists A1, B1, T1. rewrite R1, R2, R3. split_and!; try done; by eexists.
Qed.

Lemma cost_steps phrases src bl bp : (forall k, (k < length src)%nat -> best_ok phrases src bl bp k) -> Z.of_nat (length phrases) <= DYN_DICT_MAX_PHRASES -> forall m A B tk, (m <= length src)%nat ->
  (length src < length A)%nat -> (length src < length B)%nat -> (length src < length tk)%nat -> written A m (S (length src)) -> written B m (S (length src)) -> written tk m (length src) ->
  exists A' B' tk', each (cost_step bl bp) (rev (Z.of_nat <$> seq 0 m)) (A, B, tk) = Some (A', B', tk') /\ length A' = length A /\ length B' = length B /\ length tk' = length tk /\ written tk' 0 (length src).
Proof.
  intros Hb Hn. induction m as [|m IH]; intros A B tk Hm LA LB LT WA WB WT; [by exists A, B, tk|].
  rewrite seq_S, fmap_app, rev_app_distr. cbn [fmap list_fmap rev app each]. rewrite Nat.add_0_l.
  destruct (cost_step_spec phrases src bl bp m A B tk (Hb m ltac:(lia)) Hn ltac:(lia) LA LB LT WA WB) as (A1 & B1 & T1 & -> & L1 & L3 & L2 & R1 & R3 & R2 & O1 & O3 & O2). cbn [mbind option_bind].
  assert (Hw : forall X X' e, is_Some (rd X' (Z.of_nat m)) -> (forall j, j <> Z.of_nat m -> rd X' j = rd X j) -> written X (S m) e -> written X' m e).
  { intros X X' e R O W k Hk. destruct (decide (k = m)) as [->|]; [done|]. rewrite O by lia. apply W. lia. }
  destruct (IH A1 B1 T1) as (A2 & B2 & T2 & E & L4 & L5 & L6 & W2); [lia|lia|lia|lia|by apply (Hw A A1 _ R1 O1)|by apply (Hw B B1 _ R3 O3)|by apply (Hw tk T1 _ R2 O2)|].
  exists A2, B2, T2. split_and!; [exact E|lia|lia|lia|done].
Qed.

Lemma cost_loop_spec phrases src bl bp A B tk : (forall k, (k < length src)%nat -> best_ok phrases src bl bp k) -> Z.of_nat (length phrases) <= DYN_DICT_MAX_PHRASES ->
  (length src < length A)%nat -> (length src < length B)%nat -> (length src < length tk)%nat ->
  exists A' B' tk', cost_loop bl bp A B tk (length src) = Some (A', B', tk') /\ length A' = length A /\ length B' = length B /\ length tk' = length tk /\ written tk' 0 (length src).
Proof.
  intros Hb Hn LA LB LT. unfold cost_loop. destruct (wr_spec A (Z.of_nat (length src)) 0) as (A1 & -> & L1 & R1 & _); [lia|]. cbn [mbind option_bind].
  destruct (wr_spec B (Z.of_nat (length src)) 0) as (B1 & -> & L2 & R2 & _); [lia|]. cbn [mbind option_bind].
  destruct (cost_steps phrases src bl bp Hb Hn (length src) A1 B1 tk) as (A2 & B2 & T2 & E & L3 & L4 & L5 & W); try lia.
  - intros k Hk. assert (k = length src) as -> by lia. by rewrite R1.
  - intros k Hk. assert (k = length src) as -> by lia. by rewrite R2.
  - intros k Hk. lia.
  - exists A2, B2, T2. split_and!; [done|lia|lia|lia|done].
Qed.

(** ** Writing the parse *)

Definition slice (src : bytes) (a b : nat) : bytes := take (b - a) (drop a src).

Lemma slice_length src a b : (a <= b <= length src)%nat -> length (slice src a b) = (b - a)%nat.
Proof. intros H. unfold slice. rewrite length_take, length_drop. lia. Qed.

Lemma slice_join src a b c : (a <= b <= c)%nat -> slice src a b ++ slice src b c = slice src a c.
Proof.
  intros H. unfold slice. replace (c - a)%nat with ((b - a) + (c - b))%nat by lia. rewrite <- take_take_drop, drop_drop. by replace (a + (b - a))%nat with b by lia.
Qed.

(** The literal run before a place, when there is one. *)
Definition run_tokens (src : bytes) (a b : nat) : list token := if (a <? b)%nat then [Lit (slice src a b)] else [].

Lemma run_tokens_ok phrases src a b : (a <= b <= length src)%nat -> Z.of_nat (length src) <= DYN_MAX_OUTPUT -> Forall (token_ok phrases) (run_tokens src a b) /\ spells phrases (run_tokens src a b) = slice src a b.
Proof.
  intros H Hm. unfold run_tokens. pose proof (slice_length src a b H) as Hl. destruct (Nat.ltb_spec a b).
  - split; [|unfold spells; cbn; by rewrite app_nil_r]. constructor; [|constructor]. cbn [token_ok]. split; [intros E; rewrite E in Hl; cbn in Hl; lia|lia].
  - split; [constructor|]. symmetry. apply nil_length_inv. lia.
Qed.

Lemma run_puts o src a b : 0 <= ob_cap o -> (a <= b <= length src)%nat -> Z.of_nat (length src) <= DYN_MAX_OUTPUT ->
  puts o (encs (run_tokens src a b)) (12 * (b - a)) (if (a <? b)%nat then dd_put_run o src a b else Some (true, o)).
Proof.
  intros Hc H Hm. destruct (run_tokens_ok [] src a b H Hm) as [Hok Hsp]. pose proof (encs_len [] _ Hok) as Hl. rewrite Hsp, slice_length in Hl by done. unfold run_tokens in *. destruct (a <? b)%nat; [|by apply puts_nil].
  apply (puts_weaken _ _ (length (encs [Lit (slice src a b)]))); [lia|]. unfold encs. cbn [fmap list_fmap concat]. rewrite app_nil_r. by apply dd_put_run_spec.
Qed.

Lemma encs_app ts1 ts2 : encs (ts1 ++ ts2) = encs ts1 ++ encs ts2.
Proof. unfold encs. by rewrite fmap_app, concat_app. Qed.

Lemma spells_app phrases ts1 ts2 : spells phrases (ts1 ++ ts2) = spells phrases ts1 ++ spells phrases ts2.
Proof. unfold spells. by rewrite fmap_app, concat_app. Qed.

Lemma emit_parse_spec phrases src bl bp tk : (forall k, (k < length src)%nat -> best_ok phrases src bl bp k) -> Z.of_nat (length phrases) <= DYN_DICT_MAX_PHRASES -> written tk 0 (length src) -> Z.of_nat (length src) <= DYN_MAX_OUTPUT ->
  forall fuel i ls o, (length src <= i + fuel)%nat -> (ls <= i <= length src)%nat -> 0 <= ob_cap o -> ob_len o + 12 * Z.of_nat (length src - ls) < 2 ^ 64 ->
  exists ok o' ls', emit_parse fuel bl bp tk src i ls o = Some (ok, o', ls') /\ 0 <= ob_cap o' /\ sub_mem (ob_heap o') (ob_heap o) /\
    if ok : bool then (ls <= ls' <= length src)%nat /\ exists ts, ob_buf o' = ob_buf o ++ encs ts /\ Forall (token_ok phrases) ts /\ spells phrases ts = slice src ls ls'
    else false ∈ ob_heap o \/ DYN_MAX_OUTPUT < ob_len o + 12 * Z.of_nat (length src - ls).
Proof.
  intros Hb Hn Hw Hm. assert (Hend : forall i ls o, (ls <= i <= length src)%nat -> 0 <= ob_cap o -> exists ok o' ls', Some (true, o, ls) = Some (ok, o', ls') /\ 0 <= ob_cap o' /\ sub_mem (ob_heap o') (ob_heap o) /\
    if ok : bool then (ls <= ls' <= length src)%nat /\ exists ts, ob_buf o' = ob_buf o ++ encs ts /\ Forall (token_ok phrases) ts /\ spells phrases ts = slice src ls ls' else false ∈ ob_heap o \/ DYN_MAX_OUTPUT < ob_len o + 12 * Z.of_nat (length src - ls)).
  { intros i ls o Hi Hc. exists true, o, ls. split_and!; try done; [lia|]. exists []. unfold slice, encs. rewrite Nat.sub_diag, app_nil_r. by split_and!. }
  induction fuel as [|fuel IH]; intros i ls o Hf Hi Hc Hfit; cbn [emit_parse]; (destruct (Nat.ltb_spec i (length src)) as [Hlt|Hge]; [|by apply (Hend i)]); [lia|].
  destruct (Hw i ltac:(lia)) as [t Et]. rewrite Et. cbn [mbind option_bind]. assert (Hl : exists l, (if t =? 0 then Some 0 else rd bl (Z.of_nat i)) = Some l /\
      (l = 0 \/ exists q j, l = Z.of_nat (length q) /\ rd bp (Z.of_nat i) = Some (Z.of_nat j) /\ phrases !! j = Some q /\ q <> [] /\ take (length q) (drop i src) = q)).
  { destruct (t =? 0); [exists 0; split; [done|by left]|]. destruct (Hb i Hlt) as [E|(q & j & E & Hq)]; rewrite E; eexists; (split; [done|]); [by left|right; by exists q, j]. }
  destruct Hl as (l & -> & Hl). cbn [mbind option_bind]. destruct (Z.eqb_spec l 0) as [->|Hl0].
  { apply IH; [lia|lia|done|done]. }
  destruct Hl as [|(q & j & -> & Ej & Eq & Hq & Hsub)]; [done|]. assert (Hlen : (i + length q <= length src)%nat) by (apply (f_equal length) in Hsub; rewrite length_take, length_drop in Hsub; lia).
  destruct (run_puts o src ls i Hc ltac:(lia) Hm ltac:(lia)) as (ok & o1 & -> & Hc1 & Hm1 & Hok). cbn [mbind option_bind fst snd]. destruct ok; cbn [negb].
  2:{ exists false, o1, ls. split_and!; try done. destruct Hok; [by left|right; lia]. }
  rewrite Ej. cbn [mbind option_bind]. assert (Hj : (j < length phrases)%nat) by (by apply lookup_lt_Some in Eq). change DYN_DICT_MAX_PHRASES with 65535 in Hn. rewrite (wrap_id 64) by (unfold fits; lia).
  destruct (run_tokens_ok phrases src ls i ltac:(lia) Hm) as [Hrt Hrs]. pose proof (encs_len phrases _ Hrt) as Hre. rewrite Hrs, slice_length in Hre by lia.
  assert (Htok : token_ok phrases (Ref j)) by (cbn; change DYN_DICT_MAX_PHRASES with 65535; split; [lia|by exists q]). pose proof (enc_len phrases (Ref j) Htok) as Hel. cbn [enc spelt] in Hel. rewrite Eq in Hel. change (default [] (Some q)) with q in Hel.
  assert (Hlen1 : ob_len o1 = ob_len o + Z.of_nat (length (encs (run_tokens src ls i)))) by (unfold ob_len; rewrite Hok, length_app; lia).
  destruct (dd_put_varint_spec o1 (Z.of_nat j + 1) Hc1 ltac:(unfold fits; lia) ltac:(lia)) as (ok & o2 & -> & Hc2 & Hm2 & Hok2). cbn [mbind option_bind fst snd]. destruct ok; cbn [negb].
  2:{ exists false, o2, ls. split_and!; [done|done|intros x Hx; by apply Hm1, Hm2|]. destruct Hok2; [left; by apply Hm1|right; lia]. }
  rewrite Nat2Z.id. assert (Hqpos : (0 < length q)%nat) by (destruct q; [done|cbn; lia]). assert (Hlen2 : ob_len o2 = ob_len o1 + Z.of_nat (length (uv (Z.of_nat j + 1)))) by (unfold ob_len; rewrite Hok2, length_app; lia).
  destruct (IH (i + length q)%nat (i + length q)%nat o2 ltac:(lia) ltac:(lia) Hc2 ltac:(lia)) as (ok & o3 & ls' & -> & Hc3 & Hm3 & Hok3). exists ok, o3, ls'. split_and!; [done|done|intros x Hx; by apply Hm1, Hm2, Hm3|]. destruct ok.
  - destruct Hok3 as (Hls & ts & Hbuf & Hts & Hsp). split; [lia|]. exists (run_tokens src ls i ++ Ref j :: ts). rewrite encs_app, encs_cons, spells_app, spells_cons', Hbuf, Hok2, Hok, Hrs, Hsp. cbn [enc spelt]. rewrite Eq. change (default [] (Some q)) with q. split_and!.
    + by rewrite <- !app_assoc.
    + apply Forall_app. split; [done|]. by constructor.
    + assert (Eqs : q = slice src i (i + length q)) by (unfold slice; replace (i + length q - i)%nat with (length q) by lia; done). rewrite Eqs at 1. rewrite slice_join by lia. apply slice_join. lia.
  - destruct Hok3 as [Hx|Hx]; [left; by apply Hm1, Hm2|right; lia].
Qed.

(** ** Scratch arrays *)

Lemma resize_len l n : length (resize l n) = n.
Proof. unfold resize. rewrite length_app, length_take, length_replicate. lia. Qed.

(** Only the scratch arrays and the memory change. *)
Definition same_dict (d d' : dyn_dict_t) : Prop := d_ac d' = d_ac d /\ phrase d' = phrase d /\ d_plen d' = d_plen d /\ d_id d' = d_id d.

Lemma dict_ok_same d d' : dict_ok d -> same_dict d d' -> scratch_ok d' -> dict_ok d'.
Proof. intros [H1 H2 H3 H4 H5 H6 H7] (E1 & E2 & E3 & E4) Hs. split; rewrite ?E1, ?E2, ?E3, ?E4; done. Qed.

Lemma dd_realloc_spec d need ok d' : scratch_ok d -> scratch_cap d < Z.of_nat need -> dd_realloc d need = (ok, d') ->
  same_dict d d' /\ scratch_ok d' /\ sub_mem (d_mem d') (d_mem d) /\ if ok then scratch_cap d' = Z.of_nat need else false ∈ d_mem d.
Proof.
  intros (S0 & S1 & S2 & S3) Hn. unfold dd_realloc.
  destruct (mallocs 1 (d_mem d)) as [[] m1] eqn:E1; apply mallocs_sub in E1 as [M1 F1]; cbn [negb]; [|intros [= <- <-]; split_and!; [done|by unfold scratch_ok; cbn; split_and!|done|by apply F1]].
  destruct (mallocs 1 m1) as [[] m2] eqn:E2; apply mallocs_sub in E2 as [M2 F2]; cbn [negb]; [|intros [= <- <-]; split_and!; [done|unfold scratch_ok; cbn; rewrite resize_len; split_and!; try done; lia|intros x Hx; by apply M1, M2|by apply M1, F2]].
  destruct (mallocs 1 m2) as [[] m3] eqn:E3; apply mallocs_sub in E3 as [M3 F3]; cbn [negb]; [|intros [= <- <-]; split_and!; [done|unfold scratch_ok; cbn; rewrite !resize_len; split_and!; try done; lia|intros x Hx; by apply M1, M2, M3|by apply M1, M2, F3]].
  destruct (mallocs 1 m3) as [[] m4] eqn:E4; apply mallocs_sub in E4 as [M4 F4]; cbn [negb]; [|intros [= <- <-]; split_and!; [done|unfold scratch_ok; cbn; rewrite !resize_len; split_and!; try done; lia|intros x Hx; by apply M1, M2, M3, M4|by apply M1, M2, M3, F4]].
  destruct (mallocs 1 m4) as [[] m5] eqn:E5; apply mallocs_sub in E5 as [M5 F5]; cbn [negb]; intros [= <- <-]; (split_and!; [done|unfold scratch_ok; cbn; rewrite !resize_len; split_and!; try done; lia|intros x Hx; by apply M1, M2, M3, M4, M5|]); [done|by apply M1, M2, M3, M4, F5].
Qed.

Lemma dd_scratch_spec d need ok d' : scratch_ok d -> (0 < need)%nat -> dd_scratch d need = (ok, d') ->
  same_dict d d' /\ scratch_ok d' /\ sub_mem (d_mem d') (d_mem d) /\
  if ok then (need <= length (best_len d'))%nat /\ (need <= length (best_pat d'))%nat /\ (need < length (cost_a d'))%nat /\ (need < length (cost_b d'))%nat /\ (need < length (d_take d'))%nat /\ forall k, (k < need)%nat -> rd (best_len d') (Z.of_nat k) = Some 0
  else false ∈ d_mem d.
Proof.
  intros Hs Hpos. unfold dd_scratch.
  assert (Hd : exists ok1 d1, (if scratch_cap d <? Z.of_nat need then dd_realloc d need else (true, d)) = (ok1, d1) /\ same_dict d d1 /\ scratch_ok d1 /\ sub_mem (d_mem d1) (d_mem d) /\ if ok1 : bool then Z.of_nat need <= scratch_cap d1 else false ∈ d_mem d).
  { destruct (Z.ltb_spec (scratch_cap d) (Z.of_nat need)) as [Hlt|Hge]; [|exists true, d; by split_and!]. destruct (dd_realloc d need) as [ok1 d1] eqn:E. destruct (dd_realloc_spec d need ok1 d1 Hs Hlt E) as (H1 & H2 & H3 & H4). exists ok1, d1. split_and!; try done. destruct ok1; [lia|done]. }
  destruct Hd as (ok1 & d1 & -> & Hsame & (S0 & S1 & S2 & S3) & Hm & Hok). destruct ok1; cbn [negb]; intros [= <- <-]; [|by split_and!]. destruct S3 as (S3 & S4 & S5); [lia|].
  split_and!; [done|unfold scratch_ok; cbn; rewrite length_app, length_replicate, length_drop; split_and!; try done; lia|done|..]; cbn; rewrite ?length_app, ?length_replicate, ?length_drop; try lia.
  intros k Hk. unfold rd. rewrite aread_nat, lookup_app_l by (rewrite length_replicate; lia). rewrite lookup_replicate_2 by lia. done.
Qed.

(** ** Compressing *)

Lemma dict_no_empty phrases : Forall (fun p => p <> [] /\ is_bytes p) phrases -> first_idx (pats_of phrases) [] = None.
Proof.
  intros Hp. destruct (first_idx (pats_of phrases) []) as [p|] eqn:E; [|done]. apply first_phrase in E as (i & _ & Ei). rewrite Forall_forall in Hp. by destruct (Hp [] (list_elem_of_lookup_2 _ _ _ Ei)).
Qed.

(** A record: the header, the length of the text and tokens that spell it. *)
Definition record_of (d : dyn_dict_t) (src rec : bytes) : Prop :=
  exists ts, rec = dict_header d ++ uv (Z.of_nat (length src)) ++ encs ts /\ Forall (token_ok (phrase d)) ts /\ spells (phrase d) ts = src.

Lemma compress_spec d src o : dict_ok d -> is_bytes src -> Z.of_nat (length src) <= DYN_MAX_OUTPUT -> 0 <= ob_cap o -> ob_len o <= DYN_MAX_OUTPUT ->
  exists rc d' o', dyn_dict_compress d src o = Some (rc, d', o') /\ dict_ok d' /\ same_dict d d' /\
    (rc = 0 /\ (exists rec, ob_buf o' = ob_buf o ++ rec /\ record_of d src rec) \/ rc = -1 /\ (false ∈ ob_heap o \/ false ∈ d_mem d \/ DYN_MAX_OUTPUT < ob_len o + 17 + 12 * Z.of_nat (length src))).
Proof.
  intros Hd Hsrc Hm Hc Ho. unfold dyn_dict_compress. change DYN_MAX_OUTPUT with 1073741824 in Ho. assert (Hm' : Z.of_nat (length src) <= 1073741824) by exact Hm. destruct (uv_spec (Z.of_nat (length src)) ltac:(unfold fits; lia)) as [_ Hul].
  assert (Hhead : puts o (dict_header d ++ uv (Z.of_nat (length src))) 17 (then_put (dd_put o (dict_header d)) (fun o => dd_put_varint o (Z.of_nat (length src))))).
  { apply puts_then; [cbn; lia|eapply puts_weaken; [|by apply dd_put_spec]; cbn; lia|]. intros o1 _ Hc1. eapply puts_weaken; [|apply dd_put_varint_spec; [done|unfold fits; lia]]. change (length (dict_header d)) with 7%nat. lia. }
  destruct (Hhead ltac:(lia)) as (ok & o1 & -> & Hc1 & Hm1 & Hok). cbn [mbind option_bind fst snd]. assert (Hrefl : same_dict d d) by done. destruct ok; cbn [negb].
  2:{ eexists _, _, _. split; [done|]. split_and!; [done|done|]. right. split; [done|]. destruct Hok; [by left|right; right; lia]. }
  destruct (Nat.eqb_spec (length src) 0) as [E0|Hpos].
  { eexists _, _, _. split; [done|]. split_and!; [done|done|]. left. split; [done|]. eexists. split; [exact Hok|]. exists []. apply nil_length_inv in E0 as ->. by rewrite app_nil_r. }
  destruct (dd_scratch d (length src)) as [ok d1] eqn:Es. apply dd_scratch_spec in Es as (Hsame & Hs1 & Hms & Hsok); [|apply (dk_scratch _ Hd)|lia]. pose proof (dict_ok_same d d1 Hd Hsame Hs1) as Hd1. destruct ok; cbn [negb].
  2:{ eexists _, _, _. split; [done|]. split_and!; [done|done|]. right. split; [done|]. right. by left. }
  destruct Hsok as (L1 & L2 & L3 & L4 & L5 & Hzero). rewrite (built_run (dd_emit d1) (pats_of (phrase d1)) (d_ac d1) src _ (dk_ac _ Hd1) (dict_no_empty _ (dk_phrases _ Hd1)) Hsrc). cbn [mbind option_bind].
  destruct (feed_best d1 src Hd1 Hm (occurrences (pats_of (phrase d1)) src) (best_len d1) (best_pat d1) ltac:(done) L1 L2) as (bl & bp & -> & B1 & B2 & Hbest); [intros k Hk; left; by apply Hzero|].
  cbn [mbind option_bind fst snd]. destruct (cost_loop_spec (phrase d1) src bl bp (cost_a d1) (cost_b d1) (d_take d1) Hbest (dk_count _ Hd1) L3 L4 L5) as (A & B & tk & -> & LA & LB & LT & HT). cbn [mbind option_bind].
  assert (Hd2 : dict_ok (set_arrays d1 bl bp A B tk)).
  { apply (dict_ok_same d1); [done|done|]. destruct Hs1 as (S0 & S1 & S2 & S3). unfold scratch_ok, set_arrays; cbn. rewrite B1, B2, LA, LB, LT. by split_and!. }
  assert (Hsame2 : same_dict d (set_arrays d1 bl bp A B tk)) by exact Hsame. assert (Hl1 : ob_len o1 <= ob_len o + 17) by (unfold ob_len; rewrite Hok, !length_app; cbn [length dict_header]; lia).
  destruct (emit_parse_spec (phrase d1) src bl bp tk Hbest (dk_count _ Hd1) HT Hm (length src) 0 0 o1 ltac:(lia) ltac:(lia) Hc1 ltac:(lia)) as (ok & o2 & ls & -> & Hc2 & Hm2 & Hok2). cbn [mbind option_bind]. destruct ok; cbn [negb].
  2:{ eexists _, _, _. split; [done|]. split_and!; [done|done|]. right. split; [done|]. destruct Hok2; [left; by apply Hm1|right; right; lia]. }
  destruct Hok2 as (Hls & ts & Hbuf & Hts & Hsp). pose proof (encs_len (phrase d1) ts Hts) as Hel. rewrite Hsp, slice_length in Hel by lia. assert (Hl2 : ob_len o2 <= ob_len o + 17 + 12 * Z.of_nat ls) by (unfold ob_len in *; rewrite Hbuf, length_app; lia).
  destruct (run_puts o2 src ls (length src) Hc2 ltac:(lia) Hm ltac:(lia)) as (ok & o3 & -> & Hc3 & Hm3 & Hok3). cbn [mbind option_bind fst snd]. eexists _, _, _. split; [done|]. split_and!; [done|done|].
  destruct Hsame as (_ & Eph & _). destruct (run_tokens_ok (phrase d1) src ls (length src) ltac:(lia) Hm) as [Hrt Hrs]. destruct ok; [left|right; split; [done|]].
  - split; [done|]. exists (dict_header d ++ uv (Z.of_nat (length src)) ++ encs (ts ++ run_tokens src ls (length src))). split; [by rewrite Hok3, Hbuf, Hok, encs_app, <- !app_assoc|].
    exists (ts ++ run_tokens src ls (length src)). rewrite <- Eph. split_and!; [done|by apply Forall_app|]. rewrite spells_app, Hsp, Hrs, slice_join by lia. unfold slice. rewrite drop_0, Nat.sub_0_r. by apply take_ge.
  - destruct Hok3 as [Hx|Hx]; [left; by apply Hm1, Hm2|right; right; lia].
Qed.

(** ** A record decompresses to its text *)

Lemma decompress_record d src rec o : dict_ok d -> Z.of_nat (length src) <= DYN_MAX_OUTPUT -> record_of d src rec -> ob_buf o = [] -> 0 <= ob_cap o -> (false ∉ ob_heap o) ->
  exists o', dyn_dict_decompress d rec o = Some (0, o') /\ ob_buf o' = src.
Proof.
  intros Hd Hm (ts & -> & Hts & Hsp) Hbuf Hc Hh. assert (Hm' : Z.of_nat (length src) <= 1073741824) by exact Hm. unfold dyn_dict_decompress. rewrite record_id_header by apply (dk_id _ Hd). cbn [mbind option_bind]. rewrite Z.eqb_refl. cbn [negb].
  replace (drop DYN_DICT_HEADER (dict_header d ++ uv (Z.of_nat (length src)) ++ encs ts)) with (uv (Z.of_nat (length src)) ++ encs ts) by done. rewrite dd_number_uv by (unfold fits; lia). rewrite (proj2 (Z.ltb_ge _ _)) by done.
  assert (H0 : ob_len o = 0) by (unfold ob_len; by rewrite Hbuf). pose proof (encs_len (phrase d) ts Hts) as Hl.
  destruct (decode_tokens d Hd ts (length (encs ts)) o Hts ltac:(lia) Hc) as (ok & o' & -> & _ & _ & Hok); [rewrite Hsp; lia..|]. cbn [mbind option_bind fst snd]. destruct ok; cbn [negb].
  - rewrite Hbuf, Hsp in Hok. cbn [app] in Hok. exists o'. split; [|done]. unfold ob_len. by rewrite Hok, Z.eqb_refl.
  - destruct Hok as [?|Hx]; [done|]. rewrite Hsp in Hx. lia.
Qed.

(** ** A new dictionary *)

Fixpoint numbered (i : Z) (l : list bytes) : list (bytes * Z) :=
  match l with [] => [] | p :: l => (p, i) :: numbered (i + 1) l end.

Lemma numbered_pats phrases : numbered 0 phrases = pats_of phrases.
Proof.
  assert (H : forall l k, numbered (Z.of_nat k) l = imap (fun i p => (p, Z.of_nat (k + i))) l).
  { induction l as [|p l IH]; intros k; [done|]. cbn [numbered]. rewrite imap_cons, Nat.add_0_r. f_equal. replace (Z.of_nat k + 1) with (Z.of_nat (S k)) by lia. rewrite IH. apply imap_ext. intros i x _. cbn. do 2 f_equal. lia. }
  apply (H phrases 0%nat).
Qed.

Lemma dd_load_spec phrases : forall old ws a i, trie_for old ws a -> Forall (fun p => is_bytes p) phrases -> 0 <= i ->
  exists r, dd_load a i phrases = Some r /\
    match r with
    | Some a' => exists ws', trie_for (old ++ numbered i phrases) ws' a' /\ sub_mem (amem a') (amem a)
    | None => n_pat a < i + Z.of_nat (length phrases) \/ false ∈ amem a \/ DYN_AC_MAX_STATES < Z.of_nat (length ws + sum_list_with length phrases)
    end.
Proof.
  induction phrases as [|p phrases IH]; intros old ws a i Htf Hp Hi; cbn [dd_load numbered]; [eexists; split; [done|]; exists ws; by rewrite app_nil_r|].
  apply Forall_cons in Hp as [Hb Hp]. destruct (ac_insert_spec old ws a p i Htf Hb) as (rc & a1 & -> & Hr). cbn [mbind option_bind fst snd length sum_list_with].
  destruct Hr as [(-> & (ws1 & Htf1 & Hl1) & Hn1 & Hm1)|(-> & Hr)]; [|eexists; split; [done|]; destruct Hr as [?|[?|[?|?]]]; [lia|left; lia|right; by left|right; right; lia]].
  change (0 <? 0) with false. cbn iota. destruct (IH _ ws1 a1 (i + 1) Htf1 Hp ltac:(lia)) as (r & -> & Hr). exists r. split; [done|]. destruct r as [a'|].
  - destruct Hr as (ws' & Htf' & Hm'). exists ws'. rewrite <- app_assoc in Htf'. split; [done|]. intros x Hx. by apply Hm1, Hm'.
  - destruct Hr as [?|[?|?]]; [left; lia|right; left; by apply Hm1|right; right; lia].
Qed.

Definition canon (phrases : list bytes) : bytes := concat ((fun p => uv (Z.of_nat (length p)) ++ p) <$> phrases).

Lemma canon_spec phrases : Forall (fun p => Z.of_nat (length p) < DYN_AC_MAX_STATES) phrases ->
  (forall o, 0 <= ob_cap o -> puts o (canon phrases) (length (canon phrases)) (canon_loop o phrases)) /\ Z.of_nat (length (canon phrases)) <= (DYN_AC_MAX_STATES + 10) * Z.of_nat (length phrases) /\
  (Forall (fun p => is_bytes p) phrases -> is_bytes (canon phrases)).
Proof.
  change DYN_AC_MAX_STATES with 262144. induction 1 as [|p phrases Hp _ (IH & IHl & IHb)]; [split_and!; [intros o Hc; by apply puts_nil|done|constructor]|].
  destruct (uv_spec (Z.of_nat (length p)) ltac:(unfold fits; lia)) as [Eu Hu]. assert (Ec : canon (p :: phrases) = uv (Z.of_nat (length p)) ++ p ++ canon phrases) by (unfold canon; cbn [fmap list_fmap concat]; by rewrite <- app_assoc). rewrite Ec. split_and!.
  - intros o Hc. rewrite !length_app. cbn [canon_loop]. apply puts_then; [lia|eapply puts_weaken; [|apply dd_put_varint_spec; [done|unfold fits; lia]]; lia|]. intros o1 _ Hc1.
    apply puts_then; [lia|eapply puts_weaken; [|by apply dd_put_spec]; lia|]. intros o2 _ Hc2. eapply puts_weaken; [|by apply IH]. lia.
  - rewrite !length_app. cbn [length]. lia.
  - intros [Hb Hbs]%Forall_cons. apply Forall_app. split; [|apply Forall_app; by split; [|apply IHb]]. apply (put_uvarint_loop_spec 10 (Z.of_nat (length p))); [exact Eu|lia].
Qed.

Section New.
Context (sum : bytes -> Z) `{!Checksum sum} `{AcConfig}.

Lemma dict_new_spec phrases mem : Forall (fun p => is_bytes p) phrases -> exists r, dyn_dict_new sum phrases mem = Some r /\
  match r with
  | Some d => dict_ok d /\ phrase d = phrases /\ sub_mem (d_mem d) mem
  | None => phrases = [] \/ DYN_DICT_MAX_PHRASES < Z.of_nat (length phrases) \/ [] ∈ phrases \/ false ∈ mem \/ DYN_AC_MAX_STATES < Z.of_nat (1 + sum_list_with length phrases)
  end.
Proof.
  intros Hb. unfold dyn_dict_new. destruct (Nat.eqb_spec (length phrases) 0) as [E0|Hpos]; cbn [orb]; [eexists; split; [done|]; left; by apply nil_length_inv|].
  destruct (Z.ltb_spec DYN_DICT_MAX_PHRASES (Z.of_nat (length phrases))) as [Hbig|Hcount]; [eexists; split; [done|]; right; by left|].
  destruct (existsb (fun p : bytes => (length p =? 0)%nat) phrases) eqn:Ee; [eexists; split; [done|]; right; right; left|].
  { apply existsb_exists in Ee as (p & Hp & Ep). apply Nat.eqb_eq, nil_length_inv in Ep as ->. by apply list_elem_of_In. }
  assert (Hne : Forall (fun p => p <> [] /\ is_bytes p) phrases).
  { apply Forall_forall. intros p Hp. split; [|rewrite Forall_forall in Hb; by apply Hb]. intros ->. assert (Ht : existsb (fun p : bytes => (length p =? 0)%nat) phrases = true) by (apply existsb_exists; exists []; split; [by apply list_elem_of_In|done]). congruence. }
  destruct (mallocs 1 mem) as [[] m1] eqn:E1; apply mallocs_sub in E1 as [M1 F1]; cbn [negb]; [|eexists; split; [done|]; do 3 right; left; by apply F1].
  destruct (malloc_both m1) as [[] m2] eqn:E2; apply malloc_both_sub in E2 as [M2 F2]; cbn [negb]; [|eexists; split; [done|]; do 3 right; left; by apply M1, F2].
  destruct (mallocs (length phrases) m2) as [[] m3] eqn:E3; apply mallocs_sub in E3 as [M3 F3]; cbn [negb]; [|eexists; split; [done|]; do 3 right; left; by apply M1, M2, F3].
  destruct (dyn_ac_new (Z.of_nat (length phrases)) m3) as [a|] eqn:En.
  2:{ eexists. split; [done|]. do 3 right. left. destruct (decide (false ∈ m3)) as [Hf|Hf]; [by apply M1, M2, M3|]. destruct (new_succeeds (Z.of_nat (length phrases)) m3 Hf) as (a & Ea & _). congruence. }
  pose proof En as En'. apply new_spec in En' as [Htf0 Hnp]; [|lia]. pose proof (new_mem _ _ _ En) as Hma.
  destruct (dd_load_spec phrases [] [[]] a 0 Htf0 Hb ltac:(lia)) as (r & -> & Hr). cbn [mbind option_bind]. destruct r as [a1|].
  2:{ eexists. split; [done|]. destruct Hr as [?|[Hf|Hbig]]; [lia|do 3 right; left; by apply M1, M2, M3, Hma|do 4 right; exact Hbig]. }
  destruct Hr as (ws & Htf & Hma1). cbn [app] in Htf. rewrite numbered_pats in Htf. destruct (build_spec (pats_of phrases) ws a1 Htf) as (rc & a2 & -> & Hr). cbn [mbind option_bind fst snd].
  destruct Hr as [[-> Hf]|(-> & Hbuilt & Hma2)]; [eexists; split; [done|]; do 3 right; left; by apply M1, M2, M3, Hma, Hma1|]. change (0 <? 0) with false. cbn iota. pose proof (tf_trie _ _ _ Htf) as Ht.
  assert (Hshort : Forall (fun p => Z.of_nat (length p) < DYN_AC_MAX_STATES) phrases).
  { apply Forall_forall. intros p Hp. assert (Hin : p ∈ ws). { apply (tf_words _ _ _ Htf). right. apply list_elem_of_lookup in Hp as [k Ek]. exists p, (Z.of_nat k). split; [|done]. apply elem_of_lookup_imap. by exists k, p. }
    apply (word_len ws (trie_words _ _ Ht)) in Hin. pose proof (t_size _ _ Ht). lia. }
  destruct (canon_spec phrases Hshort) as (Hc & Hcl & Hcb). destruct (Hc (mk_out [] 0 false (amem a2)) ltac:(done)) as (ok & o & Eo & _ & Hmo & Hok); [change (ob_len _) with 0; change DYN_AC_MAX_STATES with 262144 in Hcl; change DYN_DICT_MAX_PHRASES with 65535 in Hcount; lia|]. unfold dd_compute_id. rewrite Eo. cbn [mbind option_bind fst snd].
  eexists. split; [done|]. split; [|split; [done|intros x Hx; by apply M1, M2, M3, Hma, Hma1, Hma2, Hmo]]. split; cbn [phrase d_plen d_id d_ac]; try done. destruct ok; [|by vm_compute]. rewrite Hok. cbn [app ob_buf]. apply sum_fits; [by apply Hcb|]. change DYN_AC_MAX_STATES with 262144 in Hcl. change DYN_DICT_MAX_PHRASES with 65535 in Hcount. lia.
Qed.

End New.

(** ** Decompressing anything *)

Lemma dd_put_buf o p ok o' : dd_put o p = Some (ok, o') -> ob_buf o' = if ok then ob_buf o ++ p else ob_buf o.
Proof.
  assert (Hw : forall o1, ob_buf o1 = ob_buf o -> (o2 ← ob_write o1 (ob_buf o1 ++ p); Some (true, o2)) = Some (ok, o') -> ob_buf o' = if ok then ob_buf o ++ p else ob_buf o).
  { intros o1 Eb. unfold ob_write. case_if; [done|]. intros [= <- <-]. cbn [ob_buf]. by rewrite Eb. }
  unfold dd_put, then_put, dd_ensure. destruct (ob_cap o <? _); cbn [mbind option_bind fst snd]; [|by apply Hw].
  destruct (dd_grow _ _ _) as [[c|]|]; cbn [mbind option_bind fst snd]; [|by intros [= <- <-]|done]. destruct (hd true (ob_heap o)); cbn [mbind option_bind fst snd]; [by apply Hw|by intros [= <- <-]].
Qed.

Lemma dd_number_sound src v rest : is_bytes src -> dd_number src = Some (v, rest) -> 0 <= v < 2 ^ 64 /\ is_bytes rest /\ (length rest < length src)%nat.
Proof.
  intros Hb. unfold dd_number. destruct (dyn_codec_uvarint src) as [n r] eqn:E. pose proof (Varint.Varint_props.uvarint_sound src n r Hb E) as (Hp & _ & _). destruct r as [x|]; [|done]. destruct (Z.leb_spec n 0); [done|]. intros [= <- <-].
  destruct (Hp ltac:(lia)) as (Hn & _ & _ & [= ->] & Hlt). assert (Hg : forall l, 0 <= groups7 l) by (induction l as [|b l IH]; cbn [groups7]; [lia|]; pose proof (Z.mod_pos_bound b 128 ltac:(lia)); lia). split_and!; [apply Hg|done|by apply Forall_drop|]. rewrite length_drop. lia.
Qed.

Lemma decode_safe d : dict_ok d -> forall fuel src o, is_bytes src -> (length src <= fuel)%nat -> Z.of_nat (length src) < 2 ^ 62 -> 0 <= ob_cap o -> ob_len o <= DYN_MAX_OUTPUT ->
  exists ok o', dd_decode fuel d src o = Some (ok, o') /\ ob_len o' <= DYN_MAX_OUTPUT /\ ob_buf o `prefix_of` ob_buf o'.
Proof.
  intros Hd. change DYN_MAX_OUTPUT with 1073741824. induction fuel as [|fuel IH]; intros src o Hb Hf Hl Hc Ho; cbn [dd_decode]; (destruct (Nat.eqb_spec (length src) 0); [by exists true, o|]); [lia|].
  assert (Hno : exists ok o', Some (false, o) = Some (ok, o') /\ ob_len o' <= 1073741824 /\ ob_buf o `prefix_of` ob_buf o') by (by exists false, o). change DYN_MAX_OUTPUT with 1073741824.
  assert (H0 : 0 <= ob_len o) by (unfold ob_len; lia).
  assert (Hput : forall p rest, is_bytes rest -> (length rest < length src)%nat -> ob_len o + Z.of_nat (length p) <= 1073741824 ->
    exists ok o', then_put (dd_put o p) (fun o => dd_decode fuel d rest o) = Some (ok, o') /\ ob_len o' <= 1073741824 /\ ob_buf o `prefix_of` ob_buf o').
  { intros p rest Hbr Hlr Hp. destruct (dd_put_spec o p Hc ltac:(lia)) as (ok & o1 & E & Hc1 & _ & _). pose proof (dd_put_buf _ _ _ _ E) as Hbuf. unfold then_put. rewrite E. cbn [mbind option_bind fst snd]. destruct ok; [|exists false, o1; unfold ob_len in *; by rewrite Hbuf].
    destruct (IH rest o1 Hbr ltac:(lia) ltac:(lia) Hc1) as (ok & o2 & -> & H2 & Hpre); [unfold ob_len in *; rewrite Hbuf, length_app; lia|]. exists ok, o2. split_and!; [done|done|]. rewrite Hbuf in Hpre. etrans; [|exact Hpre]. by apply prefix_app_r. }
  destruct (dd_number src) as [[code rest]|] eqn:E1; [|done]. apply dd_number_sound in E1 as (Hcode & Hb1 & Hl1); [|done]. destruct (Z.eqb_spec code 0) as [_|Hnz].
  - destruct (dd_number rest) as [[rl rest2]|] eqn:E2; [|done]. apply dd_number_sound in E2 as (Hrl & Hb2 & Hl2); [|done]. destruct (Z.ltb_spec (Z.of_nat (length rest2)) rl); [done|]. rewrite (wrap_id 64) by (unfold fits; lia).
    destruct (Z.ltb_spec 1073741824 (ob_len o + rl)); [done|]. rewrite aslice_in, drop_0 by lia. cbn [mbind option_bind]. apply Hput; [by apply Forall_drop|rewrite length_drop; lia|rewrite length_take; lia].
  - destruct (Z.ltb_spec (dict_n d) code) as [|Hn]; [done|]. unfold dict_n in Hn. destruct (lookup_lt_is_Some_2 (phrase d) (Z.to_nat (code - 1))) as [p Ep]; [lia|].
    replace (code - 1) with (Z.of_nat (Z.to_nat (code - 1))) by lia. rewrite !aread_nat, (dk_plen _ Hd), list_lookup_fmap, Ep. cbn [fmap option_fmap option_map mbind option_bind].
    assert (Hp : Z.of_nat (length p) < 262144) by (pose proof (dk_short _ Hd) as Hs; rewrite Forall_forall in Hs; by apply (Hs p), list_elem_of_lookup_2 with (Z.to_nat (code - 1))).
    rewrite (wrap_id 64) by (unfold fits; lia). destruct (Z.ltb_spec 1073741824 (ob_len o + Z.of_nat (length p))); [done|]. rewrite Nat2Z.id, aslice_in, drop_0, take_ge by lia. cbn [mbind option_bind]. apply Hput; [done|lia|lia].
Qed.

(** ** The theorems *)

Module DictProps_props.
Section Props.
Context (sum : bytes -> Z) `{!Checksum sum} `{AcConfig}.

(** C12. A text that dyn_dict_compress turned into a record is what
    dyn_dict_decompress makes of the record, with the same dictionary or any
    other of the same phrases and identifier. *)
Theorem dict_roundtrip phrases mem mem2 d d2 src o d' o1 o2 :
  Forall (fun p => is_bytes p) phrases -> dyn_dict_new sum phrases mem = Some (Some d) -> is_bytes src -> Z.of_nat (length src) <= DYN_MAX_OUTPUT -> ob_buf o = [] -> 0 <= ob_cap o ->
  dyn_dict_compress d src o = Some (0, d', o1) ->
  dyn_dict_new sum phrases mem2 = Some (Some d2) -> d_id d2 = d_id d -> ob_buf o2 = [] -> 0 <= ob_cap o2 -> (false ∉ ob_heap o2) ->
  exists o3, dyn_dict_decompress d2 (ob_buf o1) o2 = Some (0, o3) /\ ob_buf o3 = src.
Proof.
  intros Hb E1 Hsrc Hm Ho Hc Ec E2 Eid Ho2 Hc2 Hh. destruct (dict_new_spec sum phrases mem Hb) as (r & Er & Hr). rewrite E1 in Er. injection Er as <-. destruct Hr as (Hd & Hp & _).
  destruct (dict_new_spec sum phrases mem2 Hb) as (r & Er & Hr). rewrite E2 in Er. injection Er as <-. destruct Hr as (Hd2 & Hp2 & _).
  destruct (compress_spec d src o Hd Hsrc Hm Hc) as (rc & d1 & o' & E & _ & _ & Hrec); [unfold ob_len; by rewrite Ho|]. rewrite Ec in E. injection E as <- <- <-. destruct Hrec as [(_ & rec & Hbuf & ts & -> & Hts & Hsp)|[? _]]; [|done].
  apply decompress_record; try done. exists ts. rewrite Hbuf, Ho. cbn [app]. unfold dict_header. rewrite Eid, Hp2, <- Hp. by split_and!.
Qed.

(** For phrases within the limits and with memory a dictionary is made;
    with memory a text that is not too long for the limit on the output is
    compressed: no array is left, no cell is read before it was written, and
    the loops end. *)
Theorem dict_compress_succeeds phrases mem src o :
  Forall (fun p => p <> [] /\ is_bytes p) phrases -> phrases <> [] -> Z.of_nat (length phrases) <= DYN_DICT_MAX_PHRASES -> Z.of_nat (1 + sum_list_with length phrases) <= DYN_AC_MAX_STATES -> (false ∉ mem) ->
  is_bytes src -> 0 <= ob_cap o -> (false ∉ ob_heap o) -> ob_len o + 17 + 12 * Z.of_nat (length src) <= DYN_MAX_OUTPUT ->
  exists d d' o', dyn_dict_new sum phrases mem = Some (Some d) /\ dyn_dict_compress d src o = Some (0, d', o').
Proof.
  intros Hp Hne Hn Ht Hm Hsrc Hc Hh Hl. assert (Hb : Forall (fun p => is_bytes p) phrases) by (eapply Forall_impl; [exact Hp|]; by intros p [_ ?]).
  destruct (dict_new_spec sum phrases mem Hb) as ([d|] & -> & Hr).
  - destruct Hr as (Hd & _ & Hmem). unfold ob_len in *. destruct (compress_spec d src o Hd Hsrc ltac:(lia) Hc ltac:(unfold ob_len; lia)) as (rc & d' & o' & E & _ & _ & [[-> _]|[_ Hbad]]); [by exists d, d', o'|].
    unfold ob_len in *. destruct Hbad as [?|[Hx|?]]; [done|destruct (Hm (Hmem _ Hx))|lia].
  - destruct Hr as [?|[?|[Hx|[?|?]]]]; [done|lia| |done|lia]. rewrite Forall_forall in Hp. by destruct (Hp [] Hx).
Qed.

(** C39. dyn_dict_decompress is safe on any bytes: it ends with 0 or -1, reads
    inside its input, the arrays of the dictionary and its phrases, writes inside
    the output's allocation and no more than DYN_MAX_OUTPUT bytes in all, and keeps
    what the buffer held. *)
Theorem dict_decompress_safe phrases mem d src o :
  Forall (fun p => is_bytes p) phrases -> dyn_dict_new sum phrases mem = Some (Some d) -> is_bytes src -> Z.of_nat (length src) < 2 ^ 62 -> 0 <= ob_cap o -> ob_len o <= DYN_MAX_OUTPUT ->
  exists rc o', dyn_dict_decompress d src o = Some (rc, o') /\ (rc = 0 \/ rc = -1) /\ ob_len o' <= DYN_MAX_OUTPUT /\ ob_buf o `prefix_of` ob_buf o'.
Proof.
  intros Hb E1 Hsrc Hl Hc Ho. destruct (dict_new_spec sum phrases mem Hb) as (r & Er & Hr). rewrite E1 in Er. injection Er as <-. destruct Hr as (Hd & _). unfold dyn_dict_decompress.
  destruct (record_id_total src) as [r ->]. cbn [mbind option_bind]. destruct r as [rid|]; [|exists (-1), o; split_and!; auto]. destruct (negb (rid =? d_id d)); [exists (-1), o; split_and!; auto|].
  destruct (dd_number (drop DYN_DICT_HEADER src)) as [[raw rest]|] eqn:En; [|exists (-1), o; split_and!; auto]. apply dd_number_sound in En as (_ & Hbr & Hlr); [|by apply Forall_drop]. rewrite length_drop in Hlr.
  destruct (DYN_MAX_OUTPUT <? raw); [exists (-1), o; split_and!; auto|]. destruct (decode_safe d Hd (length rest) rest o Hbr ltac:(lia) ltac:(lia) Hc Ho) as (ok & o' & -> & H1 & H2). cbn [mbind option_bind fst snd].
  destruct ok; cbn [negb]; [|exists (-1), o'; split_and!; auto]. destruct (negb (ob_len o' =? raw)); [exists (-1), o'|exists 0, o']; split_and!; auto.
Qed.

End Props.

#[local] Abbreviation crc := (@dyn_crc32c (soft_insn DYN_CRC32C_POLY) false).
#[local] Abbreviation config := (Build_AcConfig 0).
#[local] Abbreviation empty := (mk_out [] 0 false []).

#[local] Instance crc_checksum : Checksum crc.
Proof. apply dyn_crc32c_checksum. by apply soft_insn_laws. Qed.

Lemma dict_roundtrip_witness : exists d d' o1, dyn_dict_new (H := config) crc [[97]; [98; 99]] [] = Some (Some d) /\ dyn_dict_compress d [120; 97; 98; 99] empty = Some (0, d', o1) /\
  exists o3, dyn_dict_decompress d (ob_buf o1) empty = Some (0, o3) /\ ob_buf o3 = [120; 97; 98; 99].
Proof.
  eexists _, _, _. split; [vm_compute; reflexivity|]. split; [vm_compute; reflexivity|].
  refine (dict_roundtrip crc (H := config) [[97]; [98; 99]] [] [] _ _ [120; 97; 98; 99] empty _ _ empty _ _ _ _ _ _ _ _ _ _ _ _);
    [repeat constructor; lia|vm_compute; reflexivity|repeat constructor; lia|by vm_compute|reflexivity|done|vm_compute; reflexivity|vm_compute; reflexivity|reflexivity|reflexivity|done|apply not_elem_of_nil].
Defined.

Lemma dict_compress_succeeds_witness : exists d d' o', dyn_dict_new (H := config) crc [[97]] [] = Some (Some d) /\ dyn_dict_compress d [97; 98] empty = Some (0, d', o').
Proof.
  apply (dict_compress_succeeds crc (H := config) [[97]] [] [97; 98] empty); [repeat constructor; [done|lia]|done|by vm_compute|by vm_compute|apply not_elem_of_nil|repeat constructor; lia|done|apply not_elem_of_nil|by vm_compute].
Defined.

Lemma dict_decompress_safe_witness : exists d, dyn_dict_new (H := config) crc [[97]] [] = Some (Some d) /\
  exists rc o', dyn_dict_decompress d [68; 84; 1; 0; 0; 0; 0; 1; 2] empty = Some (rc, o') /\ (rc = 0 \/ rc = -1) /\ ob_len o' <= DYN_MAX_OUTPUT /\ ob_buf empty `prefix_of` ob_buf o'.
Proof.
  eexists. split; [vm_compute; reflexivity|].
  refine (dict_decompress_safe crc (H := config) [[97]] [] _ [68; 84; 1; 0; 0; 0; 0; 1; 2] empty _ _ _ _ _ _); [repeat constructor; lia|vm_compute; reflexivity|repeat constructor; lia|by vm_compute|done|by vm_compute].
Defined.

Definition body_of (phrases : list bytes) (src : bytes) : option bytes :=
  r ← dyn_dict_new (H := config) crc phrases []; d ← r; c ← dyn_dict_compress d src empty; Some (drop (DYN_DICT_HEADER + 1) (ob_buf c.2)).

(** The writer follows the choice made outside of a literal run also inside of
    one: for the text "xay" and the phrase "a" the costs say five bytes, one
    literal run, and seven are written. *)
Example dict_parse_suboptimal : body_of [[97]] [120; 97; 121] = Some [0; 1; 120; 1; 0; 1; 121] /\ encs [Lit [120; 97; 121]] = [0; 3; 120; 97; 121] /\
  cost_loop [Some 0; Some 1; Some 0] [None; Some 0; None] (replicate 4 None) (replicate 4 None) (replicate 4 None) 3 = Some ([Some 5; Some 4; Some 3; Some 0], [Some 3; Some 2; Some 1; Some 0], [Some 0; Some 1; Some 0; None]).
Proof. split_and!; vm_compute; reflexivity. Qed.

(** Without memory for the canonical form the identifier is 0, and the
    dictionary is made all the same. *)
Example dict_id_without_memory : exists d d', dyn_dict_new (H := config) crc [[97]] [] = Some (Some d) /\ dyn_dict_new (H := config) crc [[97]] (replicate 19 true ++ [false]) = Some (Some d') /\ phrase d = phrase d' /\ d_id d <> d_id d' /\ d_id d' = 0.
Proof. eexists _, _. split_and!; [vm_compute; reflexivity|vm_compute; reflexivity|reflexivity|by vm_compute|reflexivity]. Qed.

End DictProps_props.
