(* ===== verification/Strings.v ===== *)
(** * Strings and their comparison

    The strings of the engine: a flat string (struct JSString) of bytes or of
    16-bit units, possibly a slice of another string, or a rope (struct
    JSStringRope), a node with two strings.  This file models the data, reading
    a unit, and the comparisons of src/runtime/class.inc.c: the loops that look
    at four or eight units at a time (memcmp16, memcmp16_8 and their chunked
    forms), js_string_eq, js_string_compare, the iterator over the flat strings
    of a rope and js_string_rope_compare.

    [None] stands for a read outside a string, a null pointer or a failed
    assertion. *)
From Stdlib Require Import ZArith Lia List.
From stdpp Require Import base numbers option list.
From S2P Require Import Prelude.

(** ** Data *)

Definition JS_STRING_LEN_MAX : Z := (1 << 30) - 1.
Definition JS_STRING_ROPE_MAX_DEPTH : Z := 60.

(** [units] is what js_str_data8 or js_str_data16 point to. *)
Record JSString := mk_str { len : Z; is_wide_char : bool; is_slice : bool; units : list Z }.

(** A value with the tag JS_TAG_STRING or JS_TAG_STRING_ROPE. *)
Inductive JSStringRope := Flat (p : JSString) | Rope (rlen : Z) (rwide : bool) (rdepth : Z) (left right : JSStringRope).

(** The text of a string, and its flat strings from left to right. *)
Fixpoint rope_units (v : JSStringRope) : list Z :=
  match v with Flat p => units p | Rope _ _ _ l r => rope_units l ++ rope_units r end.
Fixpoint leaves (v : JSStringRope) : list JSString :=
  match v with Flat p => [p] | Rope _ _ _ l r => leaves l ++ leaves r end.

Definition string_rope_get_len (v : JSStringRope) : Z := match v with Flat p => len p | Rope n _ _ _ _ => n end.

Definition string_get (p : JSString) (idx : Z) : option Z := aread (units p) idx.

Fixpoint string_rope_get (v : JSStringRope) (idx : Z) : option Z :=
  match v with
  | Flat p => string_get p idx
  | Rope _ _ _ l r =>
      let n := string_rope_get_len l in
      if idx <? n then string_rope_get l idx else string_rope_get r (u32 (idx - n))
  end.

(** ** Comparing units *)

(** [for (; i < len; i++)]: the difference of the first units that differ. *)
Fixpoint memcmp_units (src1 src2 : list Z) (n : nat) : option Z :=
  match n with
  | O => Some 0
  | S n => match src1, src2 with
           | a :: src1, b :: src2 => let c := a - b in if negb (c =? 0) then Some c else memcmp_units src1 src2 n
           | _, _ => None
           end
  end.

(** The library's memcmp; only the sign of its result is used. *)
Definition memcmp : list Z -> list Z -> nat -> option Z := memcmp_units.

(** [memcpy(&a, src, 8)]: four units as a word. *)
Definition load64 (src : list Z) : option Z :=
  match src with a :: b :: c :: d :: _ => Some (a .| (b << 16) .| (c << 32) .| (d << 48)) | _ => None end.

(** [for (; i + 16 <= len; i += 8)] *)
Fixpoint chunks16 (fuel : nat) (src1 src2 : list Z) (n : nat) : option Z :=
  match fuel with
  | O => None
  | S fuel =>
      if (16 <=? n)%nat then
        a0 ← load64 src1; a1 ← load64 (drop 4 src1);
        b0 ← load64 src2; b1 ← load64 (drop 4 src2);
        if negb ((a0 ^^ b0) .| (a1 ^^ b1) =? 0) then memcmp_units src1 src2 n
        else chunks16 fuel (drop 8 src1) (drop 8 src2) (n - 8)
      else memcmp_units src1 src2 n
  end.

(** In memcmp16_8_chunked the bytes are first copied to units. *)
Definition memcmp16_chunked (src1 src2 : list Z) (n : nat) : option Z := chunks16 (S n) src1 src2 n.
Definition memcmp16_8_chunked (src1 src2 : list Z) (n : nat) : option Z := chunks16 (S n) src1 src2 n.

(** [for (i = 0; i + 4 <= len; i += 4)] *)
Fixpoint chunks4 (fuel : nat) (src1 src2 : list Z) (n : nat) : option Z :=
  match fuel with
  | O => None
  | S fuel =>
      if (4 <=? n)%nat then
        a ← load64 src1; b ← load64 src2;
        if negb (a =? b) then memcmp_units src1 src2 n else chunks4 fuel (drop 4 src1) (drop 4 src2) (n - 4)
      else memcmp_units src1 src2 n
  end.

Definition JS_STRCMP_QUAD_MIN : nat := 4.
Definition JS_STRCMP_CHUNK_MIN : nat := 16.

(** [if (len > i && (c = src1[i] - src2[i]) != 0) return c] *)
Definition diff_at (src1 src2 : list Z) (n i : nat) : option Z :=
  if (i <? n)%nat then a ← src1 !! i; b ← src2 !! i; Some (a - b) else Some 0.

Definition memcmp16 (src1 src2 : list Z) (n : nat) : option Z :=
  if (n <? JS_STRCMP_QUAD_MIN)%nat then
    c ← diff_at src1 src2 n 0; if negb (c =? 0) then Some c else
    c ← diff_at src1 src2 n 1; if negb (c =? 0) then Some c else
    c ← diff_at src1 src2 n 2; if negb (c =? 0) then Some c else Some 0
  else if (JS_STRCMP_CHUNK_MIN <=? n)%nat then memcmp16_chunked src1 src2 n
  else chunks4 (S n) src1 src2 n.

Definition memcmp16_8 (src1 src2 : list Z) (n : nat) : option Z :=
  if (JS_STRCMP_CHUNK_MIN <=? n)%nat then memcmp16_8_chunked src1 src2 n else memcmp_units src1 src2 n.

Definition js_string_memcmp (p1 : JSString) (pos1 : Z) (p2 : JSString) (pos2 n : Z) : option Z :=
  let src1 := drop (Z.to_nat pos1) (units p1) in
  let src2 := drop (Z.to_nat pos2) (units p2) in
  let n := Z.to_nat n in
  if negb (is_wide_char p1) then
    if negb (is_wide_char p2) then memcmp src1 src2 n else r ← memcmp16_8 src2 src1 n; Some (- r)
  else if negb (is_wide_char p2) then memcmp16_8 src1 src2 n else memcmp16 src1 src2 n.

(** ** Comparing strings *)

Definition JS_STREQ_MEMCMP_MIN : Z := 8.

(** The loops of js_string_eq over units. *)
Definition units_eq (src1 src2 : list Z) (n : nat) : option bool := r ← memcmp_units src1 src2 n; Some (r =? 0).

(** [same] is [p1 == p2]. *)
Definition js_string_eq (same : bool) (p1 p2 : JSString) : option bool :=
  if negb (len p1 =? len p2) then Some false else
  if same then Some true else
  let n := Z.to_nat (len p1) in
  if negb (is_wide_char p1) && negb (is_wide_char p2) then
    if JS_STREQ_MEMCMP_MIN <=? len p1 then r ← memcmp (units p1) (units p2) n; Some (r =? 0) else units_eq (units p1) (units p2) n
  else if is_wide_char p1 && is_wide_char p2 then
    if len p1 =? 0 then Some true else
    a ← units p1 !! 0%nat; b ← units p2 !! 0%nat;
    if negb (a =? b) then Some false else
    if JS_STREQ_MEMCMP_MIN <=? len p1 then r ← memcmp (units p1) (units p2) n; Some (r =? 0)
    else units_eq (drop 1 (units p1)) (drop 1 (units p2)) (n - 1)
  else r ← js_string_memcmp p1 0 p2 0 (len p1); Some (r =? 0).

Definition len_order (n1 n2 : Z) : Z := if n1 =? n2 then 0 else if n1 <? n2 then -1 else 1.

Definition js_string_compare (p1 p2 : JSString) : option Z :=
  let n := Z.min (len p1) (len p2) in
  r ← js_string_memcmp p1 0 p2 0 n;
  Some (if r =? 0 then len_order (len p1) (len p2) else r).

(** ** Ropes *)

(** The stack of a JSStringRopeIter, its top first. *)
Definition string_rope_iter_init (v : JSStringRope) : list JSStringRope := [v].

(** The loop of string_rope_iter_next: down to the left. *)
Fixpoint iter_down (stack : list JSStringRope) (v : JSStringRope) : option (JSString * list JSStringRope) :=
  match v with
  | Flat p => Some (p, stack)
  | Rope _ _ _ l r => if Z.of_nat (length stack) <? JS_STRING_ROPE_MAX_DEPTH then iter_down (r :: stack) l else None
  end.

(** The string is [None] at the end. *)
Definition string_rope_iter_next (stack : list JSStringRope) : option (option JSString * list JSStringRope) :=
  match stack with
  | [] => Some (None, [])
  | v :: stack => r ← iter_down stack v; Some (Some r.1, r.2)
  end.

(** Past [pos] in the string: the next one when that is its end. *)
Definition iter_past (it : list JSStringRope) (p : JSString) (pos : Z) : option (list JSStringRope * option JSString * Z) :=
  if len p <=? pos then r ← string_rope_iter_next it; Some (r.2, r.1, 0) else Some (it, Some p, pos).

Fixpoint rope_compare_loop (fuel : nat) (it1 : list JSStringRope) (p1 : option JSString) (pos1 : Z)
    (it2 : list JSStringRope) (p2 : option JSString) (pos2 n : Z) : option Z :=
  if n =? 0 then Some 0 else
  match fuel with
  | O => None
  | S fuel =>
      q1 ← p1; q2 ← p2;
      let l := Z.min (u32 (len q1 - pos1)) (u32 (len q2 - pos2)) in
      let l := Z.min l n in
      r ← js_string_memcmp q1 pos1 q2 pos2 l;
      if negb (r =? 0) then Some r else
      n1 ← iter_past it1 q1 (u32 (pos1 + l));
      n2 ← iter_past it2 q2 (u32 (pos2 + l));
      rope_compare_loop fuel n1.1.1 n1.1.2 n1.2 n2.1.1 n2.1.2 n2.2 (u32 (n - l))
  end.

(** A turn uses up a flat string of one of the two. *)
Definition js_string_rope_compare (op1 op2 : JSStringRope) (eq_only : bool) : option Z :=
  let len1 := string_rope_get_len op1 in
  let len2 := string_rope_get_len op2 in
  if eq_only && negb (len1 =? len2) then Some 1 else
  let n := Z.min len1 len2 in
  it1 ← string_rope_iter_next (string_rope_iter_init op1);
  it2 ← string_rope_iter_next (string_rope_iter_init op2);
  r ← rope_compare_loop (length (leaves op1) + length (leaves op2)) it1.2 it1.1 0 it2.2 it2.1 0 n;
  Some (if negb (r =? 0) then r else len_order len1 len2).

(** ** Well-formed strings *)

Definition unit_ok (c : Z) : Prop := fits 16 c.

Definition str_ok (p : JSString) : Prop :=
  len p = Z.of_nat (length (units p)) /\ len p <= JS_STRING_LEN_MAX /\
  Forall (fun c => if is_wide_char p then fits 16 c else fits 8 c) (units p).

Definition depth (v : JSStringRope) : Z := match v with Flat _ => 0 | Rope _ _ d _ _ => d end.
Definition wide (v : JSStringRope) : bool := match v with Flat p => is_wide_char p | Rope _ w _ _ _ => w end.
Definition is_flat (v : JSStringRope) : bool := match v with Flat _ => true | Rope _ _ _ _ _ => false end.

(** The fields of a rope bound what is below it; only a rope that was made flat
    has an empty string on its right. *)
Fixpoint rope_ok (v : JSStringRope) : Prop :=
  match v with
  | Flat p => str_ok p
  | Rope n w d l r =>
      rope_ok l /\ rope_ok r /\ n = string_rope_get_len l + string_rope_get_len r /\ 0 < n <= JS_STRING_LEN_MAX /\
      depth l < d /\ depth r < d /\ (wide l || wide r = true -> w = true) /\ (string_rope_get_len r = 0 -> is_flat l = true)
  end.

Lemma str_ok_len p : str_ok p -> 0 <= len p < 2 ^ 30.
Proof. intros (? & ? & _). unfold JS_STRING_LEN_MAX in *. change ((1 << 30) - 1) with (2 ^ 30 - 1) in *. lia. Qed.

Lemma str_ok_units p : str_ok p -> Forall unit_ok (units p).
Proof.
  intros (_ & _ & H). eapply Forall_impl; [exact H|]. intros c Hc. unfold unit_ok, fits in *. cbv beta in Hc. destruct (is_wide_char p); lia.
Qed.

Lemma rope_ok_len v : rope_ok v -> string_rope_get_len v = Z.of_nat (length (rope_units v)) /\ 0 <= string_rope_get_len v < 2 ^ 30.
Proof.
  induction v as [p|n w d l IHl r IHr]; cbn [rope_ok string_rope_get_len rope_units].
  - intros Hp. split; [apply Hp|by apply str_ok_len].
  - intros (Hl & Hr & -> & Hm & _). destruct (IHl Hl), (IHr Hr). rewrite length_app. unfold JS_STRING_LEN_MAX in Hm. change ((1 << 30) - 1) with (2 ^ 30 - 1) in Hm. lia.
Qed.

Lemma rope_ok_units v : rope_ok v -> Forall unit_ok (rope_units v).
Proof.
  induction v as [p|n w d l IHl r IHr]; cbn [rope_ok rope_units]; [apply str_ok_units|]. intros (Hl & Hr & _). apply Forall_app. auto.
Qed.

Lemma rope_ok_depth v : rope_ok v -> 0 <= depth v.
Proof. induction v as [p|n w d l IHl r IHr]; cbn [rope_ok depth]; [lia|]. intros (Hl & Hr & _ & _ & ? & _). specialize (IHl Hl). lia. Qed.

Lemma rope_leaves v : rope_units v = concat (units <$> leaves v).
Proof. induction v as [p|n w d l IHl r IHr]; cbn; [by rewrite app_nil_r|]. by rewrite IHl, IHr, fmap_app, concat_app. Qed.

(** ** The first difference *)

Fixpoint first_diff (l1 l2 : list Z) : Z :=
  match l1, l2 with
  | a :: l1, b :: l2 => if a - b =? 0 then first_diff l1 l2 else a - b
  | _, _ => 0
  end.

(** Strings are ordered by their first difference, then by length. *)
Definition str_cmp (l1 l2 : list Z) : Z :=
  if first_diff l1 l2 =? 0 then len_order (Z.of_nat (length l1)) (Z.of_nat (length l2)) else first_diff l1 l2.

Lemma first_diff_app a1 a2 b1 b2 : length a1 = length a2 ->
  first_diff (a1 ++ b1) (a2 ++ b2) = if first_diff a1 a2 =? 0 then first_diff b1 b2 else first_diff a1 a2.
Proof.
  revert a2. induction a1 as [|x a1 IH]; intros [|y a2] Hl; try done. cbn [app first_diff].
  destruct (Z.eqb_spec (x - y) 0) as [E|E]; [apply IH; cbn in Hl; lia|]. by rewrite (proj2 (Z.eqb_neq _ _) E).
Qed.

Lemma first_diff_refl l : first_diff l l = 0.
Proof. induction l as [|x l IH]; [done|]. cbn. by rewrite Z.sub_diag. Qed.

Lemma first_diff_eq l1 l2 : length l1 = length l2 -> first_diff l1 l2 = 0 -> l1 = l2.
Proof.
  revert l2. induction l1 as [|x l1 IH]; intros [|y l2] Hl; try done. cbn [first_diff].
  destruct (Z.eqb_spec (x - y) 0) as [E|E]; [|done]. intros H. f_equal; [lia|]. apply IH; [cbn in Hl; lia|done].
Qed.

Lemma first_diff_swap l1 l2 : first_diff l2 l1 = - first_diff l1 l2.
Proof.
  revert l2. induction l1 as [|x l1 IH]; intros [|y l2]; try done. cbn [first_diff].
  destruct (Z.eqb_spec (x - y) 0), (Z.eqb_spec (y - x) 0); try lia. apply IH.
Qed.

Lemma memcmp_units_spec n src1 src2 : (n <= length src1)%nat -> (n <= length src2)%nat ->
  memcmp_units src1 src2 n = Some (first_diff (take n src1) (take n src2)).
Proof.
  revert src1 src2. induction n as [|n IH]; intros [|a src1] [|b src2]; cbn; try done; try lia. intros.
  destruct (Z.eqb_spec (a - b) 0); cbn [negb]; [apply IH; lia|done].
Qed.

(** ** Four units at a time *)

Lemma load64_val a b c d rest : unit_ok a -> unit_ok b -> unit_ok c -> unit_ok d ->
  load64 (a :: b :: c :: d :: rest) = Some (a + b * 2 ^ 16 + c * 2 ^ 32 + d * 2 ^ 48).
Proof.
  unfold unit_ok, fits. intros Ha Hb Hc Hd. cbn [load64].
  rewrite (lor_shiftl_add a b 16) by (unfold fits; lia). rewrite (lor_shiftl_add _ c 32) by (unfold fits; lia).
  by rewrite (lor_shiftl_add _ d 48) by (unfold fits; lia).
Qed.

Lemma list_four {A} (l : list A) : (4 <= length l)%nat -> exists a b c d rest, l = a :: b :: c :: d :: rest.
Proof. destruct l as [|a [|b [|c [|d rest]]]]; cbn; try lia. intros _. by exists a, b, c, d, rest. Qed.

(** Two words are the same when their units are. *)
Lemma load64_eq src1 src2 : Forall unit_ok src1 -> Forall unit_ok src2 -> (4 <= length src1)%nat -> (4 <= length src2)%nat ->
  exists a b, load64 src1 = Some a /\ load64 src2 = Some b /\ (a = b <-> take 4 src1 = take 4 src2).
Proof.
  intros F1 F2 H1 H2. destruct (list_four _ H1) as (a1 & b1 & c1 & d1 & r1 & ->), (list_four _ H2) as (a2 & b2 & c2 & d2 & r2 & ->).
  repeat (apply Forall_cons in F1 as [? F1]). repeat (apply Forall_cons in F2 as [? F2]).
  rewrite !load64_val by done. eexists _, _. split_and!; [done..|]. cbn [firstn]. unfold unit_ok, fits in *. split; [|by intros [= -> -> -> ->]].
  intros E. assert (d1 = d2) by lia. assert (c1 = c2) by lia. assert (b1 = b2) by lia. assert (a1 = a2) by lia. by subst.
Qed.

Lemma take_diff_skip (k n : nat) src1 src2 : (k <= n)%nat -> (n <= length src1)%nat -> (n <= length src2)%nat -> take k src1 = take k src2 ->
  first_diff (take n src1) (take n src2) = first_diff (take (n - k) (drop k src1)) (take (n - k) (drop k src2)).
Proof.
  intros Hk H1 H2 E. replace n with (k + (n - k))%nat at 1 2 by lia. rewrite <- (take_drop k src1) at 1. rewrite <- (take_drop k src2) at 1.
  rewrite !take_app, !take_take, !length_take. replace (k + (n - k) - k `min` length src1)%nat with (n - k)%nat by lia.
  replace (k + (n - k) - k `min` length src2)%nat with (n - k)%nat by lia.
  rewrite first_diff_app by (rewrite !length_take; lia). replace ((k + (n - k)) `min` k)%nat with k by lia. by rewrite E, first_diff_refl.
Qed.

Section Chunks.
Local Ltac lens := rewrite ?length_drop; lia.

Lemma chunks4_spec fuel n src1 src2 : (n < fuel)%nat -> Forall unit_ok src1 -> Forall unit_ok src2 -> (n <= length src1)%nat -> (n <= length src2)%nat ->
  chunks4 fuel src1 src2 n = Some (first_diff (take n src1) (take n src2)).
Proof.
  revert n src1 src2. induction fuel as [|fuel IH]; intros n src1 src2 Hf F1 F2 H1 H2; [lia|]. cbn [chunks4].
  destruct (Nat.leb_spec 4 n) as [Hn|Hn]; [|by apply memcmp_units_spec].
  destruct (load64_eq src1 src2) as (a & b & -> & -> & E); [done..|lia|lia|]. cbn.
  destruct (Z.eqb_spec a b) as [Ea|Ea]; cbn [negb]; [|by apply memcmp_units_spec].
  rewrite IH by (lens || by apply Forall_drop). f_equal. symmetry. apply take_diff_skip; [lia..|]. by apply E.
Qed.

Lemma chunks16_spec fuel n src1 src2 : (n < fuel)%nat -> Forall unit_ok src1 -> Forall unit_ok src2 -> (n <= length src1)%nat -> (n <= length src2)%nat ->
  chunks16 fuel src1 src2 n = Some (first_diff (take n src1) (take n src2)).
Proof.
  revert n src1 src2. induction fuel as [|fuel IH]; intros n src1 src2 Hf F1 F2 H1 H2; [lia|]. cbn [chunks16].
  destruct (Nat.leb_spec 16 n) as [Hn|Hn]; [|by apply memcmp_units_spec].
  destruct (load64_eq src1 src2) as (a0 & b0 & -> & -> & E0); [done..|lia|lia|].
  destruct (load64_eq (drop 4 src1) (drop 4 src2)) as (a1 & b1 & -> & -> & E1); [by apply Forall_drop|by apply Forall_drop|lens|lens|]. cbn.
  destruct (Z.eqb_spec ((a0 ^^ b0) .| (a1 ^^ b1)) 0) as [Ea|Ea]; cbn [negb]; [|by apply memcmp_units_spec].
  apply Z.lor_eq_0_iff in Ea as [Ea0 Ea1]. apply Z.lxor_eq in Ea0, Ea1. apply E0 in Ea0. apply E1 in Ea1.
  rewrite IH by (lens || by apply Forall_drop). f_equal. rewrite (take_diff_skip 4 n src1 src2) by (lia || done).
  rewrite (take_diff_skip 4 (n - 4) (drop 4 src1) (drop 4 src2)) by (lens || done). rewrite !drop_drop. by replace (n - 4 - 4)%nat with (n - 8)%nat by lia.
Qed.
End Chunks.

Lemma memcmp16_8_spec n src1 src2 : Forall unit_ok src1 -> Forall unit_ok src2 -> (n <= length src1)%nat -> (n <= length src2)%nat ->
  memcmp16_8 src1 src2 n = Some (first_diff (take n src1) (take n src2)).
Proof. intros. unfold memcmp16_8. case_if; [apply chunks16_spec; (lia || done)|by apply memcmp_units_spec]. Qed.

Lemma memcmp16_spec n src1 src2 : Forall unit_ok src1 -> Forall unit_ok src2 -> (n <= length src1)%nat -> (n <= length src2)%nat ->
  memcmp16 src1 src2 n = Some (first_diff (take n src1) (take n src2)).
Proof.
  intros F1 F2 H1 H2. unfold memcmp16, JS_STRCMP_QUAD_MIN. destruct (Nat.ltb_spec n 4) as [Hn|Hn].
  - rewrite <- memcmp_units_spec by done. destruct n as [|[|[|[|n]]]]; [..|lia];
      destruct src1 as [|a1 [|b1 [|c1 src1]]], src2 as [|a2 [|b2 [|c2 src2]]]; cbn in *; try lia; try done;
      repeat match goal with |- context [?x =? 0] => destruct (x =? 0) eqn:?; cbn end; try done; by destruct src1.
  - case_if; [apply chunks16_spec; (lia || done)|apply chunks4_spec; (lia || done)].
Qed.

(** Whatever the widths, the result is the first difference. *)
Lemma js_string_memcmp_spec p1 pos1 p2 pos2 n : str_ok p1 -> str_ok p2 -> 0 <= pos1 -> 0 <= pos2 -> 0 <= n -> pos1 + n <= len p1 -> pos2 + n <= len p2 ->
  js_string_memcmp p1 pos1 p2 pos2 n =
  Some (first_diff (take (Z.to_nat n) (drop (Z.to_nat pos1) (units p1))) (take (Z.to_nat n) (drop (Z.to_nat pos2) (units p2)))).
Proof.
  intros Hp1 Hp2 H1 H2 Hn Hl1 Hl2. pose proof (str_ok_units _ Hp1) as F1. pose proof (str_ok_units _ Hp2) as F2.
  apply (Forall_drop _ (Z.to_nat pos1)) in F1. apply (Forall_drop _ (Z.to_nat pos2)) in F2.
  destruct Hp1 as (E1 & _), Hp2 as (E2 & _). unfold js_string_memcmp.
  assert (L1 : (Z.to_nat n <= length (drop (Z.to_nat pos1) (units p1)))%nat) by (rewrite length_drop; lia).
  assert (L2 : (Z.to_nat n <= length (drop (Z.to_nat pos2) (units p2)))%nat) by (rewrite length_drop; lia).
  destruct (is_wide_char p1), (is_wide_char p2); cbn [negb].
  - by apply memcmp16_spec.
  - by apply memcmp16_8_spec.
  - rewrite memcmp16_8_spec by done. cbn. by rewrite first_diff_swap, Z.opp_involutive.
  - by apply memcmp_units_spec.
Qed.

Lemma str_cmp_zero l1 l2 : str_cmp l1 l2 = 0 <-> l1 = l2.
Proof.
  unfold str_cmp, len_order. split; [|intros ->; rewrite first_diff_refl, !Z.eqb_refl; done].
  destruct (Z.eqb_spec (first_diff l1 l2) 0) as [E|E]; [|done]. case_ifs; try done. intros _. apply first_diff_eq; [lia|done].
Qed.

Lemma first_diff_min k l1 l2 : k = Nat.min (length l1) (length l2) -> first_diff (take k l1) (take k l2) = first_diff l1 l2.
Proof.
  intros Hk. rewrite <- (take_drop k l1) at 2. rewrite <- (take_drop k l2) at 2.
  rewrite first_diff_app by (rewrite !length_take; lia). destruct (Z.eqb_spec (first_diff (take k l1) (take k l2)) 0) as [E|E]; [|done].
  rewrite E. assert (drop k l1 = [] \/ drop k l2 = []) as [-> | ->] by (destruct (decide (length l1 <= length l2)%nat); [left|right]; apply drop_ge; lia); [done|].
  by destruct (drop k l1).
Qed.

Lemma js_string_compare_spec p1 p2 : str_ok p1 -> str_ok p2 -> js_string_compare p1 p2 = Some (str_cmp (units p1) (units p2)).
Proof.
  intros H1 H2. unfold js_string_compare. pose proof (str_ok_len _ H1). pose proof (str_ok_len _ H2).
  rewrite js_string_memcmp_spec by (done || lia). cbn [option_bind mbind]. unfold str_cmp.
  destruct H1 as (E1 & _), H2 as (E2 & _). rewrite <- E1, <- E2, !drop_0.
  by rewrite first_diff_min by lia.
Qed.

Lemma units_eq_spec n src1 src2 : length src1 = n -> length src2 = n -> units_eq src1 src2 n = Some (bool_decide (src1 = src2)).
Proof.
  intros H1 H2. unfold units_eq. rewrite memcmp_units_spec by lia. cbn. f_equal. rewrite !take_ge by lia.
  apply Bool.eq_true_iff_eq. rewrite bool_decide_eq_true, Z.eqb_eq. split; [apply first_diff_eq; lia|intros ->; apply first_diff_refl].
Qed.

Lemma js_string_eq_spec same p1 p2 : str_ok p1 -> str_ok p2 -> (same = true -> p1 = p2) ->
  js_string_eq same p1 p2 = Some (bool_decide (units p1 = units p2)).
Proof.
  intros H1 H2 Hs. unfold js_string_eq. pose proof (str_ok_len _ H1). pose proof H1 as (E1 & _). pose proof H2 as (E2 & _).
  destruct (Z.eqb_spec (len p1) (len p2)) as [El|El]; cbn [negb].
  2: { f_equal. symmetry. apply bool_decide_eq_false. intros E. rewrite E in E1. congruence. }
  destruct same; [rewrite Hs by done; f_equal; by rewrite bool_decide_true|].
  assert (Hu : units_eq (units p1) (units p2) (Z.to_nat (len p1)) = Some (bool_decide (units p1 = units p2))) by (apply units_eq_spec; lia).
  destruct (is_wide_char p1) eqn:W1, (is_wide_char p2) eqn:W2; cbn [negb andb].
  - clear H1 H2 Hs. revert E1 E2 Hu. destruct (units p1) as [|a u1], (units p2) as [|b u2]; intros E1 E2 Hu; cbn [length] in *; try lia; [by rewrite (proj2 (Z.eqb_eq _ _)) by lia|].
    rewrite (proj2 (Z.eqb_neq _ _)) by lia. cbn [lookup list_lookup mbind option_bind]. destruct (Z.eqb_spec a b) as [-> |Hab]; cbn [negb].
    + case_if; [exact Hu|]. change (drop 1 (b :: u1)) with u1. change (drop 1 (b :: u2)) with u2. rewrite units_eq_spec by lia. f_equal. apply bool_decide_ext. split; congruence.
    + f_equal. symmetry. apply bool_decide_eq_false. congruence.
  - rewrite js_string_memcmp_spec by (done || lia). rewrite !drop_0, <- memcmp_units_spec by lia. exact Hu.
  - rewrite js_string_memcmp_spec by (done || lia). rewrite !drop_0, <- memcmp_units_spec by lia. exact Hu.
  - case_if; exact Hu.
Qed.

(** ** Reading and comparing ropes *)

Lemma string_rope_get_spec v idx : rope_ok v -> 0 <= idx < string_rope_get_len v -> string_rope_get v idx = rope_units v !! Z.to_nat idx.
Proof.
  revert idx. induction v as [p|n w d l IHl r IHr]; intros idx Hok Hi.
  - cbn. unfold string_get, aread. by rewrite (proj2 (Z.ltb_ge _ _)) by lia.
  - cbn [string_rope_get rope_units]. cbn [rope_ok] in Hok. destruct Hok as (Hl & Hr & -> & _).
    cbn [string_rope_get_len] in Hi.
    destruct (rope_ok_len _ Hl) as [El ?], (rope_ok_len _ Hr) as [Er ?]. destruct (Z.ltb_spec idx (string_rope_get_len l)).
    + rewrite IHl by (done || lia). by rewrite lookup_app_l by lia.
    + rewrite wrap_id by (unfold fits; lia). rewrite IHr by (done || lia). rewrite lookup_app_r by lia. f_equal. lia.
Qed.

(** What a stack still has to give. *)
Definition stack_units (st : list JSStringRope) : list Z := concat (rope_units <$> st).
Definition stack_leaves (st : list JSStringRope) : nat := length (concat (leaves <$> st)).

(** The deeper an entry may be, the lower it lies. *)
Fixpoint stack_ok (st : list JSStringRope) : Prop :=
  match st with [] => True | v :: st => rope_ok v /\ depth v + Z.of_nat (length st) <= JS_STRING_ROPE_MAX_DEPTH /\ stack_ok st end.

Lemma iter_down_spec v st : stack_ok (v :: st) -> exists p st', iter_down st v = Some (p, st') /\ str_ok p /\ stack_ok st' /\
  stack_units (v :: st) = units p ++ stack_units st' /\ stack_leaves (v :: st) = S (stack_leaves st').
Proof.
  revert st. induction v as [p|n w d l IHl r _]; intros st (Hv & Hd & Hst).
  - exists p, st. cbn in Hv. done.
  - cbn [rope_ok depth] in *. destruct Hv as (Hl & Hr & _ & _ & D1 & D2 & _). cbn [iter_down].
    pose proof (rope_ok_depth _ Hl). unfold JS_STRING_ROPE_MAX_DEPTH in *. rewrite (proj2 (Z.ltb_lt _ _)) by lia.
    destruct (IHl (r :: st)) as (p & st' & E & Hp & Hs & Hu & Hn).
    { cbn [stack_ok length]. unfold JS_STRING_ROPE_MAX_DEPTH. split_and!; [done|lia|done|lia|done]. }
    exists p, st'. split; [done|]. split; [done|]. split; [done|]. rewrite <- Hu, <- Hn. unfold stack_units, stack_leaves. cbn. rewrite !length_app, app_assoc. split; [done|lia].
Qed.

(** The string [p] at [pos] and then the stack. *)
Definition it_units (st : list JSStringRope) (p : option JSString) (pos : Z) : list Z :=
  match p with Some q => drop (Z.to_nat pos) (units q) ++ stack_units st | None => [] end.
Definition it_leaves (st : list JSStringRope) (p : option JSString) : nat := match p with Some _ => S (stack_leaves st) | None => 0 end.
Definition it_ok (st : list JSStringRope) (p : option JSString) (pos : Z) : Prop :=
  stack_ok st /\ match p with Some q => str_ok q /\ 0 <= pos <= len q | None => st = [] end.

Lemma iter_next_spec st : stack_ok st -> exists p st', string_rope_iter_next st = Some (p, st') /\ it_ok st' p 0 /\
  it_units st' p 0 = stack_units st /\ it_leaves st' p = stack_leaves st.
Proof.
  destruct st as [|v st]; intros Hst.
  - exists None, []. done.
  - destruct (iter_down_spec v st Hst) as (p & st' & E & Hp & Hs & Hu & Hn). exists (Some p), st'. cbn [string_rope_iter_next]. rewrite E. cbn.
    split; [done|]. pose proof (str_ok_len _ Hp). split; [split; [done|split; [done|lia]]|]. cbn in Hu. split; [done|]. done.
Qed.

Lemma iter_past_spec st p pos k : str_ok p -> stack_ok st -> 0 <= pos -> 0 <= k -> pos + k <= len p ->
  exists st' p', iter_past st p (pos + k) = Some (st', p', if len p <=? pos + k then 0 else pos + k) /\
    it_ok st' p' (if len p <=? pos + k then 0 else pos + k) /\
    it_units st' p' (if len p <=? pos + k then 0 else pos + k) = drop (Z.to_nat k) (it_units st (Some p) pos) /\
    (it_leaves st' p' + (if (len p <=? pos + k)%Z then 1 else 0) = it_leaves st (Some p))%nat.
Proof.
  intros Hp Hs Hpos Hk Hle. pose proof Hp as (El & _). unfold iter_past. cbn [it_units it_leaves]. destruct (Z.leb_spec (len p) (pos + k)) as [H|H].
  - destruct (iter_next_spec st Hs) as (p' & st' & E & Hok & Hu & Hn). exists st', p'. rewrite E. cbn. split; [done|]. split; [done|].
    rewrite Hu, Hn. rewrite drop_app, drop_drop, (drop_ge (units p)) by lia. rewrite length_drop. replace (Z.to_nat k - _)%nat with 0%nat by lia.
    split; [done|lia].
  - exists st, (Some p). split; [done|]. split; [split; [done|split; [done|lia]]|]. cbn [it_units it_leaves].
    rewrite drop_app, drop_drop, length_drop. replace (Z.to_nat k - _)%nat with 0%nat by lia. rewrite drop_0.
    split; [|lia]. f_equal. f_equal. lia.
Qed.

Lemma compare_loop_spec fuel st1 p1 pos1 st2 p2 pos2 n :
  it_ok st1 p1 pos1 -> it_ok st2 p2 pos2 -> 0 <= n < 2 ^ 30 ->
  n <= Z.of_nat (length (it_units st1 p1 pos1)) -> n <= Z.of_nat (length (it_units st2 p2 pos2)) ->
  (it_leaves st1 p1 + it_leaves st2 p2 <= fuel)%nat ->
  rope_compare_loop fuel st1 p1 pos1 st2 p2 pos2 n =
  Some (first_diff (take (Z.to_nat n) (it_units st1 p1 pos1)) (take (Z.to_nat n) (it_units st2 p2 pos2))).
Proof.
  revert st1 p1 pos1 st2 p2 pos2 n. induction fuel as [|fuel IH]; intros st1 p1 pos1 st2 p2 pos2 n I1 I2 Hn L1 L2 Hf; cbn [rope_compare_loop].
  all: destruct (Z.eqb_spec n 0) as [-> |Hn0]; [done|].
  all: destruct p1 as [q1|]; [|cbn in L1; lia]; destruct p2 as [q2|]; [|cbn in L2; lia].
  { cbn in Hf. lia. }
  destruct I1 as (S1 & O1 & B1), I2 as (S2 & O2 & B2). cbn [mbind option_bind].
  pose proof (str_ok_len _ O1). pose proof (str_ok_len _ O2).
  rewrite (wrap_id 32 (len q1 - pos1)), (wrap_id 32 (len q2 - pos2)) by (unfold fits; lia).
  set (l := Z.min (Z.min (len q1 - pos1) (len q2 - pos2)) n). rewrite js_string_memcmp_spec by (done || lia).
  assert (T : forall st q pos, str_ok q -> 0 <= pos -> pos + l <= len q -> take (Z.to_nat l) (it_units st (Some q) pos) = take (Z.to_nat l) (drop (Z.to_nat pos) (units q))).
  { intros st q pos (Eq & _) ? ?. cbn [it_units]. rewrite take_app_le; [done|]. rewrite length_drop. lia. }
  rewrite <- (T st1 q1 pos1), <- (T st2 q2 pos2) by (done || lia). clear T. cbn [mbind option_bind].
  set (u1 := it_units st1 (Some q1) pos1) in *. set (u2 := it_units st2 (Some q2) pos2) in *.
  assert (Hsplit : first_diff (take (Z.to_nat n) u1) (take (Z.to_nat n) u2) =
    if first_diff (take (Z.to_nat l) u1) (take (Z.to_nat l) u2) =? 0 then first_diff (take (Z.to_nat (n - l)) (drop (Z.to_nat l) u1)) (take (Z.to_nat (n - l)) (drop (Z.to_nat l) u2))
    else first_diff (take (Z.to_nat l) u1) (take (Z.to_nat l) u2)).
  { rewrite <- first_diff_app by (rewrite !length_take; lia). rewrite !take_take_drop. do 2 f_equal; lia. }
  rewrite Hsplit. destruct (Z.eqb_spec (first_diff (take (Z.to_nat l) u1) (take (Z.to_nat l) u2)) 0) as [E|E]; cbn [negb]; [|done].
  rewrite !(wrap_id 32) by (unfold fits; lia).
  destruct (iter_past_spec st1 q1 pos1 l) as (st1' & p1' & -> & I1 & U1 & N1); [done..|lia|lia|lia|].
  destruct (iter_past_spec st2 q2 pos2 l) as (st2' & p2' & -> & I2 & U2 & N2); [done..|lia|lia|lia|]. cbn [mbind option_bind fst snd].
  fold u1 in U1. fold u2 in U2.
  destruct (Z.eqb_spec (n - l) 0) as [En|En]; [rewrite En; destruct fuel; reflexivity|].
  rewrite IH; [by rewrite U1, U2|done|done|lia|rewrite U1, length_drop; lia|rewrite U2, length_drop; lia|].
  destruct (Z.leb_spec (len q1) (pos1 + l)), (Z.leb_spec (len q2) (pos2 + l)); lia.
Qed.

Lemma rope_compare_spec op1 op2 eq_only : rope_ok op1 -> rope_ok op2 -> depth op1 <= JS_STRING_ROPE_MAX_DEPTH -> depth op2 <= JS_STRING_ROPE_MAX_DEPTH ->
  js_string_rope_compare op1 op2 eq_only =
  Some (if eq_only && negb (string_rope_get_len op1 =? string_rope_get_len op2) then 1 else str_cmp (rope_units op1) (rope_units op2)).
Proof.
  intros H1 H2 D1 D2. unfold js_string_rope_compare, string_rope_iter_init. destruct (eq_only && negb (string_rope_get_len op1 =? string_rope_get_len op2)); [done|].
  destruct (rope_ok_len _ H1) as [E1 ?], (rope_ok_len _ H2) as [E2 ?].
  destruct (iter_next_spec [op1]) as (p1 & st1 & -> & I1 & U1 & N1); [cbn; split_and!; (done || lia)|].
  destruct (iter_next_spec [op2]) as (p2 & st2 & -> & I2 & U2 & N2); [cbn; split_and!; (done || lia)|]. cbn [mbind option_bind fst snd].
  unfold stack_units, stack_leaves in *. cbn in U1, U2, N1, N2. rewrite app_nil_r in U1, U2, N1, N2.
  rewrite compare_loop_spec; [|done|done|lia|rewrite U1; lia|rewrite U2; lia|lia]. cbn [mbind option_bind]. rewrite U1, U2. f_equal. unfold str_cmp. rewrite <- E1, <- E2.
  rewrite first_diff_min by lia. by destruct (_ =? 0).
Qed.

Module Strings_props.

(** C24. Comparing ropes, or flat strings, is comparing their texts: the result
    is the difference of the first 16-bit units that differ, whatever the shapes
    of the two ropes, whether their parts are bytes or 16-bit units and slices or
    not, and when there is none -1, 0 or 1 by length; with [eq_only] it is zero
    exactly for equal texts.  The iterator never overflows its stack of 60 entries,
    nothing outside a string is read, and the loop ends. *)
Theorem rope_compare_exact op1 op2 eq_only :
  rope_ok op1 -> rope_ok op2 -> depth op1 <= JS_STRING_ROPE_MAX_DEPTH -> depth op2 <= JS_STRING_ROPE_MAX_DEPTH ->
  exists r, js_string_rope_compare op1 op2 eq_only = Some r /\ 
    (eq_only = false -> r = str_cmp (rope_units op1) (rope_units op2)) /\ (r = 0 <-> rope_units op1 = rope_units op2) /\ 
    (forall p1 p2, op1 = Flat p1 -> op2 = Flat p2 -> js_string_compare p1 p2 = Some (str_cmp (units p1) (units p2)) /\
       js_string_eq false p1 p2 = Some (bool_decide (units p1 = units p2))).
Proof.
  intros H1 H2 D1 D2. rewrite rope_compare_spec by done. eexists. split; [done|]. split_and!.
  - by intros ->.
  - destruct (rope_ok_len _ H1) as [E1 _], (rope_ok_len _ H2) as [E2 _].
    destruct (eq_only && negb _) eqn:E; [|apply str_cmp_zero]. split; [done|]. intros Eu.
    apply andb_true_iff in E as [_ E]. rewrite E1, E2, Eu, Z.eqb_refl in E. done.
  - intros p1 p2 -> ->. split; [by apply js_string_compare_spec|by apply js_string_eq_spec].
Qed.

Definition cat8 := Rope 8 true 1 (Flat (mk_str 3 false false [97; 98; 99])) (Flat (mk_str 5 true true [100; 101; 102; 103; 8364])).
Definition flat8 := Flat (mk_str 8 true false [97; 98; 99; 100; 101; 102; 103; 8365]).

Lemma rope_compare_exact_witness : exists r, js_string_rope_compare cat8 flat8 false = Some r /\ r = -1.
Proof.
  destruct (rope_compare_exact cat8 flat8 false) as (r & E & Hr & _).
  - repeat split; try (vm_compute; discriminate); repeat (constructor; [unfold fits; cbn; lia|]); constructor.
  - repeat split; try (vm_compute; discriminate); repeat (constructor; [unfold fits; cbn; lia|]); constructor.
  - vm_compute; discriminate.
  - vm_compute; discriminate.
  - exists r. split; [exact E|]. rewrite (Hr eq_refl). reflexivity.
Defined.

End Strings_props.
