(* ===== verification/AtomNames.v ===== *)
(** * The predefined atoms

    The texts of src/dyna-atom.h in order: js_atom_init of src/dynajs.c joins
    them, and the enumeration of src/engine-internal.h numbers them from one. *)
From Stdlib Require Import List String.
Import ListNotations.
Local Open Scope string_scope.

Definition js_atom_init : list string := [
  "null"; "false"; "true"; "if"; "else"; "return";
  "var"; "this"; "delete"; "void"; "typeof"; "new";
  "in"; "instanceof"; "do"; "while"; "for"; "break";
  "continue"; "switch"; "case"; "default"; "throw"; "try";
  "catch"; "finally"; "function"; "debugger"; "with"; "class";
  "const"; "enum"; "export"; "extends"; "import"; "super";
  "implements"; "interface"; "let"; "package"; "private"; "protected";
  "public"; "static"; "yield"; "await"; "accessor"; EmptyString;
  "keys"; "size"; "length"; "fileName"; "lineNumber"; "columnNumber";
  "message"; "cause"; "errors"; "error"; "suppressed"; "stack";
  "name"; "toString"; "toLocaleString"; "valueOf"; "eval"; "prototype";
  "constructor"; "configurable"; "writable"; "enumerable"; "value"; "get";
  "set"; "of"; "__proto__"; "undefined"; "number"; "boolean";
  "string"; "object"; "symbol"; "integer"; "unknown"; "arguments";
  "callee"; "caller"; "<eval>"; "<ret>"; "<var>"; "<arg_var>";
  "<with>"; "using"; "<using_recs>"; "<using_pend>"; "<class_decs>"; "<class_metas>";
  "<class_repl>"; "<class_key>"; "<auto_accessor_storage>"; "kind"; "key"; "addInitializer";
  "hasInitializer"; "initialize"; "lastIndex"; "target"; "index"; "input";
  "defineProperties"; "apply"; "join"; "concat"; "split"; "construct";
  "getPrototypeOf"; "setPrototypeOf"; "isExtensible"; "preventExtensions"; "has"; "deleteProperty";
  "defineProperty"; "getOwnPropertyDescriptor"; "ownKeys"; "add"; "done"; "next";
  "values"; "source"; "flags"; "global"; "unicode"; "raw";
  "rawJSON"; "new.target"; "this.active_func"; "<home_object>"; "<computed_field>"; "<static_computed_field>";
  "<class_fields_init>"; "<brand>"; "#constructor"; "as"; "from"; "meta";
  "*default*"; "*"; "Module"; "then"; "resolve"; "reject";
  "promise"; "proxy"; "revoke"; "async"; "exec"; "groups";
  "indices"; "status"; "reason"; "globalThis"; "bigint"; "-0";
  "Infinity"; "-Infinity"; "NaN"; "hasIndices"; "ignoreCase"; "multiline";
  "dotAll"; "sticky"; "unicodeSets"; "not-equal"; "timed-out"; "ok";
  "toISOString"; "alphabet"; "lastChunkHandling"; "omitPadding"; "toJSON"; "maxByteLength";
  "Object"; "Array"; "Error"; "Number"; "String"; "Boolean";
  "Symbol"; "Arguments"; "Math"; "JSON"; "Date"; "Function";
  "GeneratorFunction"; "ForInIterator"; "RegExp"; "ArrayBuffer"; "SharedArrayBuffer"; "Uint8ClampedArray";
  "Int8Array"; "Uint8Array"; "Int16Array"; "Uint16Array"; "Int32Array"; "Uint32Array";
  "BigInt64Array"; "BigUint64Array"; "Float16Array"; "Float32Array"; "Float64Array"; "DataView";
  "BigInt"; "WeakRef"; "FinalizationRegistry"; "DisposableStack"; "AsyncDisposableStack"; "Map";
  "Set"; "WeakMap"; "WeakSet"; "Iterator"; "Iterator Helper"; "Iterator Concat";
  "Iterator Zip"; "Iterator Wrap"; "Map Iterator"; "Set Iterator"; "Array Iterator"; "String Iterator";
  "RegExp String Iterator"; "Generator"; "Proxy"; "Promise"; "PromiseResolveFunction"; "PromiseRejectFunction";
  "AsyncFunction"; "AsyncFunctionResolve"; "AsyncFunctionReject"; "AsyncGeneratorFunction"; "AsyncGenerator"; "EvalError";
  "RangeError"; "ReferenceError"; "SyntaxError"; "TypeError"; "URIError"; "InternalError";
  "AggregateError"; "SuppressedError"; "<brand>"; "Symbol.toPrimitive"; "Symbol.iterator"; "Symbol.match";
  "Symbol.matchAll"; "Symbol.replace"; "Symbol.search"; "Symbol.split"; "Symbol.toStringTag"; "Symbol.isConcatSpreadable";
  "Symbol.hasInstance"; "Symbol.species"; "Symbol.unscopables"; "Symbol.asyncIterator"; "Symbol.dispose"; "Symbol.asyncDispose"].
