(* ===== verification/StrHash.v ===== *)
(** * Hashes of strings: src/value/atoms.inc.c

    Strings are interned as atoms and used as keys of maps by a hash of their
    16-bit units, a fast one or, after an attack was noticed, a keyed one.  A
    string is flat, of bytes or of 16-bit units, or a rope of two strings; equal
    strings must hash alike.  This file has the hashes, the digits of integer
    names (is_num_string), and the proof that flat strings and ropes agree. *)
From Stdlib Require Import ZArith Lia List.
From stdpp Require Import base numbers option list.
From S2P Require Import Prelude Strings.

(** ** The keyed hash *)

Definition HASH_STRING_PRIME : Z := (1 << 61) - 1.
Definition HASH_STRING_BLOCK : Z := 3.
Definition HASH_STRING_DOMAINS : Z := 8.

Definition hash_string_mix64 (x : Z) : Z :=
  let x := u64 (x + 0x9E3779B97F4A7C15) in
  let x := u64 ((x ^^ (x >> 30)) * 0xBF58476D1CE4E5B9) in
  let x := u64 ((x ^^ (x >> 27)) * 0x94D049BB133111EB) in
  x ^^ (x >> 31).

Definition hash_string_reduce (x : Z) : Z :=
  let r := u64 ((u64 x & HASH_STRING_PRIME) + u64 (x >> 61)) in
  u64 ((r & HASH_STRING_PRIME) + (r >> 61)).

Definition hash_string_step (h key m : Z) : Z := hash_string_reduce (wrap 128 (wrap 128 (h * key) + m)).
Definition hash_string_step2 (h key key2 m1 m2 : Z) : Z :=
  hash_string_reduce (wrap 128 (wrap 128 (wrap 128 (h * key2) + wrap 128 (m1 * key)) + m2)).

(** The fields of JSRuntime. *)
Record hash_rt := mk_hash_rt { atom_hash_seed : Z; atom_hash_key : Z; atom_hash_key2 : Z; atom_hash_init : list Z; atom_hash_strong : bool }.

Definition hash_string_seed_runtime (seed : Z) : hash_rt :=
  let key := ((seed >> 3) .| 1) & HASH_STRING_PRIME in
  mk_hash_rt seed key (hash_string_reduce (wrap 128 (key * key)))
    (map (fun d => hash_string_mix64 (seed ^^ Z.of_nat d) & HASH_STRING_PRIME) (seq 0 (Z.to_nat HASH_STRING_DOMAINS))) false.

Definition HASH_STRING_BLOCK_AT (a b c : Z) : Z := (HASH_STRING_BLOCK << 48) .| (a << 32) .| (b << 16) .| c.

Definition hash_final (h : Z) : Z := u32 (h ^^ (h >> 31)).

(** What is left after the blocks: one or two units. *)
Definition hash_string_tail (str : list Z) (h key : Z) : Z :=
  match str with
  | [a; b] => hash_string_step h key ((2 << 48) .| (a << 16) .| b)
  | [a] => hash_string_step h key ((1 << 48) .| a)
  | _ => h
  end.

Fixpoint hash_string_run (str : list Z) (h key key2 : Z) : Z :=
  match str with
  | a :: b :: c :: d :: e :: f :: str =>
      hash_string_run str (hash_string_step2 h key key2 (HASH_STRING_BLOCK_AT a b c) (HASH_STRING_BLOCK_AT d e f)) key key2
  | a :: b :: c :: str => hash_string_tail str (hash_string_step h key (HASH_STRING_BLOCK_AT a b c)) key
  | _ => hash_string_tail str h key
  end.

Definition hash_string8_run (str : list Z) (h key key2 : Z) : Z := hash_final (hash_string_run str h key key2).
Definition hash_string16_run (str : list Z) (h key key2 : Z) : Z := hash_final (hash_string_run str h key key2).

(** ** The fast hash *)

Definition HASH_STRING_MUL1 : Z := 263.
Definition HASH_STRING_MUL2 : Z := 69169.
Definition HASH_STRING_MUL3 : Z := 18191447.
Definition HASH_STRING_MUL4 : Z := 489383265.
Definition HASH_STRING_FOLD_MIN : nat := 8.

Fixpoint hash_string16_fast (str : list Z) (h : Z) : Z :=
  match str with [] => h | c :: str => hash_string16_fast str (u32 (u32 (h * HASH_STRING_MUL1) + c)) end.
Fixpoint hash_string16_fast_narrow (str : list Z) (h : Z) : Z :=
  match str with [] => h | c :: str => hash_string16_fast_narrow str (u32 (u32 (h * HASH_STRING_MUL1) + c)) end.

(** Four bytes a turn, then one by one. *)
Fixpoint hash_string8_fold (str : list Z) (h : Z) : Z :=
  match str with
  | a :: b :: c :: d :: str =>
      hash_string8_fold str (u32 (u32 (u32 (u32 (u32 (h * HASH_STRING_MUL4) + u32 (a * HASH_STRING_MUL3)) + u32 (b * HASH_STRING_MUL2)) + u32 (c * HASH_STRING_MUL1)) + d))
  | _ => hash_string16_fast_narrow str h
  end.

Definition hash_string8_fast (str : list Z) (h : Z) : Z :=
  if (HASH_STRING_FOLD_MIN <=? length str)%nat then hash_string8_fold str h else hash_string16_fast_narrow str h.

(** ** Flat strings *)

Definition hash_init (rt : hash_rt) (domain : Z) : Z := nth (Z.to_nat domain) (atom_hash_init rt) 0.

Definition hash_string8_mode (rt : hash_rt) (str : list Z) (domain : Z) (strong : bool) : Z :=
  if strong then hash_string8_run str (hash_init rt domain) (atom_hash_key rt) (atom_hash_key2 rt)
  else hash_string8_fast str (u32 (atom_hash_seed rt) ^^ domain).

Definition hash_string_mode (rt : hash_rt) (str : JSString) (domain : Z) (strong : bool) : Z :=
  if strong then
    if is_wide_char str then hash_string16_run (units str) (hash_init rt domain) (atom_hash_key rt) (atom_hash_key2 rt)
    else hash_string8_run (units str) (hash_init rt domain) (atom_hash_key rt) (atom_hash_key2 rt)
  else if is_wide_char str then hash_string16_fast (units str) (u32 (atom_hash_seed rt) ^^ domain)
  else hash_string8_fast (units str) (u32 (atom_hash_seed rt) ^^ domain).

Definition hash_string8 (rt : hash_rt) (str : list Z) (domain : Z) : Z := hash_string8_mode rt str domain (atom_hash_strong rt).
Definition hash_string (rt : hash_rt) (str : JSString) (domain : Z) : Z := hash_string_mode rt str domain (atom_hash_strong rt).

(** ** Ropes *)

Record JSStringHash := mk_hash { sh_h : Z; sh_key : Z; pend : Z; npend : Z }.

Definition hash_string_feed_unit (st : JSStringHash) (c : Z) : JSStringHash :=
  let p := u64 (pend st << 16) .| c in
  if npend st + 1 =? HASH_STRING_BLOCK then mk_hash (hash_string_step (sh_h st) (sh_key st) ((HASH_STRING_BLOCK << 48) .| p)) (sh_key st) 0 0
  else mk_hash (sh_h st) (sh_key st) p (npend st + 1).

Fixpoint hash_string_rope_feed (st : JSStringHash) (v : JSStringRope) : JSStringHash :=
  match v with
  | Flat p => fold_left hash_string_feed_unit (units p) st
  | Rope _ _ _ l r => hash_string_rope_feed (hash_string_rope_feed st l) r
  end.

Fixpoint hash_string_rope_fast (v : JSStringRope) (h : Z) : Z :=
  match v with
  | Flat p => if is_wide_char p then hash_string16_fast (units p) h else hash_string16_fast_narrow (units p) h
  | Rope _ _ _ l r => hash_string_rope_fast r (hash_string_rope_fast l h)
  end.

Definition hash_string_rope (rt : hash_rt) (v : JSStringRope) (domain : Z) (strong : bool) : Z :=
  if negb strong then hash_string_rope_fast v (u32 (atom_hash_seed rt) ^^ domain) else
  let st := hash_string_rope_feed (mk_hash (hash_init rt domain) (atom_hash_key rt) 0 0) v in
  hash_final (if negb (npend st =? 0) then hash_string_step (sh_h st) (sh_key st) ((npend st << 48) .| pend st) else sh_h st).

(** ** Integer names *)

Definition is_num (c : Z) : bool := (48 <=? c) && (c <=? 57).

Fixpoint num_digits (n : Z) (l : list Z) : option Z :=
  match l with
  | [] => Some n
  | c :: l => if negb (is_num c) then None else let n64 := u64 (n * 10 + (c - 48)) in if negb (n64 >> 32 =? 0) then None else num_digits (u32 n64) l
  end.

(** [None] is FALSE. *)
Definition is_num_string (p : JSString) : option Z :=
  let len := len p in
  if (len =? 0) || (10 <? len) then None else
  match units p with
  | [] => None
  | c :: l => if is_num c then if c =? 48 then if negb (len =? 1) then None else Some 0 else num_digits (c - 48) l else None
  end.

(** ** The fast hash: the same function of the units, however they are kept *)

Lemma narrow_fast l h : hash_string16_fast_narrow l h = hash_string16_fast l h.
Proof. revert h; induction l as [|c l IH]; intros h; [done|apply IH]. Qed.

Lemma fast_app l1 l2 h : hash_string16_fast (l1 ++ l2) h = hash_string16_fast l2 (hash_string16_fast l1 h).
Proof. revert h; induction l1 as [|c l1 IH]; intros h; [done|apply IH]. Qed.

(** Lists by threes and by fours. *)
Lemma list_ind3 {A} (P : list A -> Prop) :
  P [] -> (forall a, P [a]) -> (forall a b, P [a; b]) -> (forall a b c l, P l -> P (a :: b :: c :: l)) -> forall l, P l.
Proof.
  intros H0 H1 H2 H3. fix IH 1. intros [|a [|b [|c l]]]; [done|apply H1|apply H2|apply H3, IH].
Qed.

Lemma wrap_add_both w x y : 0 <= w -> wrap w (wrap w x + wrap w y) = wrap w (x + y).
Proof. intros Hw. rewrite wrap_add_l, wrap_add_r by done. done. Qed.
Lemma fast_step h c : u32 (u32 (u32 h * HASH_STRING_MUL1) + c) = u32 (h * HASH_STRING_MUL1 + c).
Proof. by rewrite wrap_mul_l, wrap_add_l by lia. Qed.

Lemma fold4 a b c d h :
  u32 (u32 (u32 (u32 (u32 (h * HASH_STRING_MUL4) + u32 (a * HASH_STRING_MUL3)) + u32 (b * HASH_STRING_MUL2)) + u32 (c * HASH_STRING_MUL1)) + d) =
  hash_string16_fast [a; b; c; d] h.
Proof.
  cbn [hash_string16_fast]. rewrite (wrap_add_both 32 (h * _)), (wrap_add_both 32 (h * _ + _)), (wrap_add_both 32 (h * _ + _ + _)), wrap_add_l by lia.
  rewrite (wrap_add_l 32 (h * _) a), (fast_step (h * _ + a)), (fast_step ((h * _ + a) * _ + b)), fast_step by lia.
  unfold wrap. rewrite <- (Z.mod_add _ h (2 ^ 32)) by lia. f_equal.
  unfold HASH_STRING_MUL1, HASH_STRING_MUL2, HASH_STRING_MUL3, HASH_STRING_MUL4. ring.
Qed.

Lemma fold_fast l h : hash_string8_fold l h = hash_string16_fast l h.
Proof.
  revert l h. fix IH 1. intros [|a [|b [|c [|d l]]]] h; [done|done|done|done|].
  cbn [hash_string8_fold]. rewrite fold4, IH. done.
Qed.

Lemma bytes_fast l h : hash_string8_fast l h = hash_string16_fast l h.
Proof. unfold hash_string8_fast. case_if; [apply fold_fast|apply narrow_fast]. Qed.

Lemma rope_fast v h : hash_string_rope_fast v h = hash_string16_fast (rope_units v) h.
Proof.
  revert h; induction v as [p|n w d l IHl r IHr]; intros h; cbn.
  - destruct (is_wide_char p); [done|apply narrow_fast].
  - by rewrite IHl, IHr, fast_app.
Qed.

(** ** The keyed hash: residues modulo the prime 2^61 - 1 *)

Abbreviation P61 := (2 ^ 61 - 1).

Lemma prime_ones x : x & HASH_STRING_PRIME = x `mod` 2 ^ 61.
Proof. change HASH_STRING_PRIME with (Z.ones 61). apply Z.land_ones. lia. Qed.

(** Below 2^122 the two folds give the residue in 1..P. *)
Lemma reduce_spec x : 0 < x < 2 ^ 122 -> 1 <= hash_string_reduce x <= P61 /\ hash_string_reduce x `mod` P61 = x `mod` P61.
Proof.
  intros Hx. unfold hash_string_reduce. rewrite !prime_ones, !Z.shiftr_div_pow2 by lia.
  set (q := x `div` 2 ^ 61). assert (Hq : 0 <= q < 2 ^ 61) by (unfold q; split; [apply Z.div_pos; lia|apply Z.div_lt_upper_bound; lia]).
  set (l := u64 x `mod` 2 ^ 61).
  assert (Hl : l = x `mod` 2 ^ 61).
  { unfold l, wrap. apply Z.mod_mod_divide. by exists 8. }
  assert (Hx' : x = 2 ^ 61 * q + l) by (rewrite Hl; unfold q; apply Z.div_mod; lia).
  assert (0 <= l < 2 ^ 61) by (rewrite Hl; apply Z.mod_pos_bound; lia).
  clearbody q l. rewrite (wrap_id 64 q) by (unfold fits; lia).
  rewrite (wrap_id 64 (l + q)) by (unfold fits; lia).
  assert (Hd : (l + q) `div` 2 ^ 61 = if l + q <? 2 ^ 61 then 0 else 1).
  { case_if; bprop; [apply Z.div_small; lia|symmetry; apply (Z.div_unique _ _ _ (l + q - 2 ^ 61)); lia]. }
  assert (Hm : (l + q) `mod` 2 ^ 61 = if l + q <? 2 ^ 61 then l + q else l + q - 2 ^ 61).
  { case_if; bprop; [apply Z.mod_small; lia|symmetry; apply (Z.mod_unique _ _ 1); lia]. }
  rewrite Hd, Hm. assert (Hc : x `mod` P61 = (l + q) `mod` P61).
  { rewrite Hx'. replace (2 ^ 61 * q + l) with (l + q + q * P61) by lia. apply Z.mod_add. lia. }
  rewrite Hc. case_if; bprop; rewrite wrap_id by (unfold fits; lia).
  - rewrite Z.add_0_r. split; [|done]. split; [|lia]. destruct (decide (l + q = 0)); [|lia]. assert (q = 0 /\ l = 0) as [-> ->] by lia. lia.
  - split; [lia|]. replace (l + q - 2 ^ 61 + 1) with (l + q + (-1) * P61) by lia. apply Z.mod_add. lia.
Qed.

(** The residue in 1..P is one number. *)
Lemma residue_unique x y : 1 <= x <= P61 -> 1 <= y <= P61 -> x `mod` P61 = y `mod` P61 -> x = y.
Proof.
  intros Hx Hy E. assert (Hd : (x - y) `mod` P61 = 0) by (rewrite Zminus_mod, E, Z.sub_diag; done).
  apply Z.mod_divide in Hd as [k Hk]; [|lia]. nia.
Qed.

(** A block is a positive number of less than 50 bits. *)
Definition block_ok (m : Z) : Prop := 0 < m < 2 ^ 50.

Lemma step_spec h key m : 0 <= h <= P61 -> 0 <= key <= P61 -> block_ok m ->
  1 <= hash_string_step h key m <= P61 /\ hash_string_step h key m `mod` P61 = (h * key + m) `mod` P61.
Proof.
  unfold block_ok. intros Hh Hk Hm. unfold hash_string_step.
  assert (h * key <= P61 * P61) by (apply Z.mul_le_mono_nonneg; lia).
  assert (0 <= h * key) by (apply Z.mul_nonneg_nonneg; lia).
  rewrite !wrap_id by (unfold fits; try rewrite wrap_id by (unfold fits; lia); lia).
  apply reduce_spec. lia.
Qed.

(** Two blocks at once are two steps, when the square of the key is not next to the prime. *)
Lemma step2_steps h key key2 m1 m2 :
  0 <= h <= P61 -> 0 <= key <= P61 -> 0 <= key2 <= P61 - 2 ^ 50 -> key2 `mod` P61 = (key * key) `mod` P61 ->
  block_ok m1 -> block_ok m2 -> hash_string_step2 h key key2 m1 m2 = hash_string_step (hash_string_step h key m1) key m2.
Proof.
  intros Hh Hk Hk2 E Hm1 Hm2.
  destruct (step_spec h key m1) as [B1 E1]; [done..|].
  destruct (step_spec (hash_string_step h key m1) key m2) as [B2 E2]; [lia|done..|].
  unfold block_ok in *. unfold hash_string_step2.
  assert (h * key2 <= P61 * (P61 - 2 ^ 50)) by (apply Z.mul_le_mono_nonneg; lia).
  assert (m1 * key <= (2 ^ 50 - 1) * P61) by (apply Z.mul_le_mono_nonneg; lia).
  assert (0 <= h * key2) by (apply Z.mul_nonneg_nonneg; lia).
  assert (0 <= m1 * key) by (apply Z.mul_nonneg_nonneg; lia).
  rewrite (wrap_id 128 (h * key2)), (wrap_id 128 (m1 * key)), !wrap_id by (unfold fits; try rewrite wrap_id by (unfold fits; lia); lia).
  destruct (reduce_spec (h * key2 + m1 * key + m2)) as [B E3]; [lia|].
  apply residue_unique; [done..|]. rewrite E3, E2.
  rewrite (Zplus_mod (_ * key)), Zmult_mod, E1, <- Zmult_mod, <- Zplus_mod.
  rewrite <- Z.add_assoc, (Zplus_mod (h * key2)), Zmult_mod, E, <- Zmult_mod, <- Zplus_mod. f_equal. lia.
Qed.

(** ** Blocks of three units *)

#[local] Opaque hash_string_step hash_string_step2 HASH_STRING_BLOCK_AT.

Lemma unit_lor a b : unit_ok a -> unit_ok b -> (u64 (a << 16) .| b) = ((a << 16) .| b) /\ fits 32 ((a << 16) .| b).
Proof.
  unfold unit_ok, fits. intros Ha Hb. rewrite Z.shiftl_mul_pow2 by lia.
  rewrite wrap_id by (unfold fits; lia). split; [done|]. apply lor_fits; unfold fits; lia.
Qed.

Lemma block_units a b c : unit_ok a -> unit_ok b -> unit_ok c ->
  (HASH_STRING_BLOCK << 48) .| (u64 ((u64 ((u64 (0 << 16) .| a) << 16) .| b) << 16) .| c) = HASH_STRING_BLOCK_AT a b c
  /\ block_ok (HASH_STRING_BLOCK_AT a b c).
Proof.
  intros Ha Hb Hc. change (u64 (0 << 16) .| a) with a. destruct (unit_lor a b) as [-> Hab]; [done..|].
  unfold block_ok, unit_ok in *. change (HASH_STRING_BLOCK_AT a b c) with ((HASH_STRING_BLOCK << 48) .| (a << 32) .| (b << 16) .| c). split.
  - rewrite (wrap_id 64) by (rewrite Z.shiftl_mul_pow2; unfold fits in *; lia).
    rewrite Z.shiftl_lor, Z.shiftl_shiftl by lia. by rewrite !Z.lor_assoc.
  - assert (H : fits 48 ((a << 32) .| (b << 16) .| c)).
    { repeat apply lor_fits; try lia; rewrite ?Z.shiftl_mul_pow2 by lia; unfold fits in *; lia. }
    rewrite <- !Z.lor_assoc, Z.lor_comm, !Z.lor_assoc, lor_shiftl_add by (done || lia).
    unfold HASH_STRING_BLOCK, fits in *. lia.
Qed.

Lemma tail_units a b : unit_ok a -> unit_ok b -> block_ok ((1 << 48) .| a) /\ block_ok ((2 << 48) .| (a << 16) .| b) /\
  (2 << 48) .| (u64 ((u64 (0 << 16) .| a) << 16) .| b) = (2 << 48) .| (a << 16) .| b.
Proof.
  intros Ha Hb. change (u64 (0 << 16) .| a) with a. destruct (unit_lor a b) as [-> Hab]; [done..|].
  unfold unit_ok, block_ok in *.
  split; [|split; [|by rewrite Z.lor_assoc]]; rewrite <- ?Z.lor_assoc, Z.lor_comm, lor_shiftl_add; unfold fits in *; lia.
Qed.

(** The hash one block at a time: what both kinds of string compute. *)
Fixpoint hash_blocks (str : list Z) (h key : Z) : Z :=
  match str with
  | a :: b :: c :: str => hash_blocks str (hash_string_step h key (HASH_STRING_BLOCK_AT a b c)) key
  | _ => hash_string_tail str h key
  end.

Lemma blocks_cons3 a b c l h key : hash_blocks (a :: b :: c :: l) h key = hash_blocks l (hash_string_step h key (HASH_STRING_BLOCK_AT a b c)) key.
Proof. reflexivity. Qed.
Lemma run_cons6 a b c d e f l h key key2 : hash_string_run (a :: b :: c :: d :: e :: f :: l) h key key2 =
  hash_string_run l (hash_string_step2 h key key2 (HASH_STRING_BLOCK_AT a b c) (HASH_STRING_BLOCK_AT d e f)) key key2.
Proof. reflexivity. Qed.

Section Keyed.
  Context (key key2 : Z).
  Hypothesis Hkey : 0 <= key <= P61.

Lemma step_in h a b c : 0 <= h <= P61 -> unit_ok a -> unit_ok b -> unit_ok c ->
  0 <= hash_string_step h key (HASH_STRING_BLOCK_AT a b c) <= P61.
Proof. intros Hh Ha Hb Hc. destruct (step_spec h key (HASH_STRING_BLOCK_AT a b c)); [done..|by apply block_units|lia]. Qed.

Lemma run_blocks l h : 0 <= key2 <= P61 - 2 ^ 50 -> key2 `mod` P61 = (key * key) `mod` P61 ->
  0 <= h <= P61 -> Forall unit_ok l -> hash_string_run l h key key2 = hash_blocks l h key.
Proof.
  intros Hk2 E. revert h. induction l as [l IH] using (induction_ltof1 _ length). unfold ltof in IH. intros h Hh Hl.
  destruct l as [|a [|b [|c [|d [|e [|f l]]]]]]; [cbn [hash_string_run hash_blocks]; reflexivity..|].
  rewrite run_cons6, !blocks_cons3. repeat (apply Forall_cons in Hl as [? Hl]).
  rewrite step2_steps; [|exact Hh|exact Hkey|exact Hk2|exact E|by apply block_units|by apply block_units].
  apply IH; [cbn; lia| |exact Hl]. apply step_in; [by apply step_in|assumption..].
Qed.

Definition feed_final (st : JSStringHash) : Z :=
  if negb (npend st =? 0) then hash_string_step (sh_h st) (sh_key st) ((npend st << 48) .| pend st) else sh_h st.

Lemma feed_blocks l h : Forall unit_ok l -> feed_final (fold_left hash_string_feed_unit l (mk_hash h key 0 0)) = hash_blocks l h key.
Proof.
  revert h. induction l as [|a|a b|a b c l IH] using list_ind3; intros h Hl; [done|done|..].
  - repeat (apply Forall_cons in Hl as [? Hl]). cbn [fold_left hash_blocks hash_string_tail].
    unfold hash_string_feed_unit, feed_final. cbn [npend pend sh_h sh_key Z.add Z.eqb Pos.eqb negb Pos.add Pos.succ HASH_STRING_BLOCK].
    destruct (tail_units a b) as (_ & _ & <-); done.
  - repeat (apply Forall_cons in Hl as [? Hl]). cbn [hash_blocks]. rewrite <- IH by done. rewrite !fold_left_cons. f_equal. f_equal.
    destruct (block_units a b c) as [<- _]; done.
Qed.
End Keyed.

Lemma rope_feed v st : hash_string_rope_feed st v = fold_left hash_string_feed_unit (rope_units v) st.
Proof. revert st; induction v as [p|n w d l IHl r IHr]; intros st; cbn; [done|]. by rewrite IHl, IHr, fold_left_app. Qed.

(** What hash_string_seed_runtime sets up. *)
Lemma seed_init seed d : fits 64 seed -> 0 <= hash_init (hash_string_seed_runtime seed) d <= P61.
Proof.
  intros Hs. unfold hash_init, hash_string_seed_runtime. cbn [atom_hash_init].
  assert (H : Forall (fun x => 0 <= x <= P61) (map (fun d => hash_string_mix64 (seed ^^ Z.of_nat d) & HASH_STRING_PRIME) (seq 0 (Z.to_nat HASH_STRING_DOMAINS)))).
  { apply Forall_forall. intros x Hx. apply list_elem_of_In, in_map_iff in Hx as (? & <- & _). rewrite prime_ones. pose proof (Z.mod_pos_bound (hash_string_mix64 (seed ^^ Z.of_nat x0)) (2 ^ 61)). lia. }
  revert H. generalize (map (fun d => hash_string_mix64 (seed ^^ Z.of_nat d) & HASH_STRING_PRIME) (seq 0 (Z.to_nat HASH_STRING_DOMAINS))). intros l H.
  destruct (nth_in_or_default (Z.to_nat d) l 0) as [Hin| ->]; [|lia]. rewrite List.Forall_forall in H. by apply H.
Qed.

Lemma seed_key seed : fits 64 seed -> let rt := hash_string_seed_runtime seed in
  1 <= atom_hash_key rt <= P61 /\ 1 <= atom_hash_key2 rt <= P61 /\ atom_hash_key2 rt `mod` P61 = (atom_hash_key rt * atom_hash_key rt) `mod` P61.
Proof.
  intros Hs rt. assert (Hk : 1 <= atom_hash_key rt <= P61).
  { subst rt. cbn [atom_hash_key hash_string_seed_runtime]. rewrite prime_ones.
    set (k := (seed >> 3) .| 1). pose proof (Z.mod_pos_bound k (2 ^ 61)).
    assert (Z.testbit (k `mod` 2 ^ 61) 0 = true). { rewrite Z.mod_pow2_bits_low by lia. unfold k. rewrite Z.lor_spec. apply orb_true_r. }
    destruct (decide (k `mod` 2 ^ 61 = 0)) as [Hz|]; [rewrite Hz in *; done|lia]. }
  split; [done|]. assert (Hp : atom_hash_key rt * atom_hash_key rt <= P61 * P61) by (apply Z.mul_le_mono_nonneg; lia).
  assert (1 <= atom_hash_key rt * atom_hash_key rt) by nia.
  change (atom_hash_key2 rt) with (hash_string_reduce (wrap 128 (atom_hash_key rt * atom_hash_key rt))).
  rewrite wrap_id by (unfold fits; lia). apply reduce_spec. lia.
Qed.

(** ** Integer names *)

(** The number a text of digits spells. *)
Definition dec_value (n : Z) (l : list Z) : Z := fold_left (fun n c => n * 10 + (c - 48)) l n.

Definition digit (c : Z) : Prop := 48 <= c <= 57.

(** A decimal without superfluous zeros. *)
Definition canonical (l : list Z) : Prop := l <> [] /\ Forall digit l /\ (hd 0 l = 48 -> length l = 1%nat).

Lemma is_num_digit c : is_num c = true <-> digit c.
Proof. unfold is_num, digit. split; intros; bprop; lia. Qed.

Lemma dec_value_ge l n : Forall digit l -> 0 <= n -> n * 10 ^ Z.of_nat (length l) <= dec_value n l.
Proof.
  intros Hl. revert n. induction Hl as [|c l Hc Hl IH]; intros n Hn; [cbn; lia|].
  unfold digit in Hc. change (dec_value n (c :: l)) with (dec_value (n * 10 + (c - 48)) l).
  etransitivity; [|apply IH; lia]. cbn [length]. rewrite Nat2Z.inj_succ, Z.pow_succ_r by lia.
  pose proof (Z.pow_nonneg 10 (Z.of_nat (length l))). nia.
Qed.

Lemma dec_value_grows l n : Forall digit l -> 0 <= n -> n <= dec_value n l.
Proof.
  intros Hl Hn. etransitivity; [|by apply dec_value_ge].
  assert (1 <= 10 ^ Z.of_nat (length l)) by (pose proof (Z.pow_pos_nonneg 10 (Z.of_nat (length l))); lia). nia.
Qed.

Lemma num_digits_spec l n v : fits 32 n -> num_digits n l = Some v <-> Forall digit l /\ dec_value n l = v /\ v < 2 ^ 32.
Proof.
  revert n. induction l as [|c l IH]; intros n Hn; cbn [num_digits].
  - unfold fits in Hn. split; [intros [= <-]; cbn; repeat split; try constructor; lia|intros (_ & <- & _); done].
  - change (dec_value n (c :: l)) with (dec_value (n * 10 + (c - 48)) l). rewrite Forall_cons.
    destruct (is_num c) eqn:E; cbn [negb]; [|split; [done|]; intros ((Hc & _) & _); apply is_num_digit in Hc; congruence].
    apply is_num_digit in E. unfold digit, fits in *. rewrite (wrap_id 64) by (unfold fits; lia).
    rewrite Z.shiftr_div_pow2 by lia. destruct (Z.ltb_spec (n * 10 + (c - 48)) (2 ^ 32)) as [Hs|Hs].
    + rewrite Z.div_small by lia. cbn [Z.eqb negb]. rewrite (wrap_id 32) by (unfold fits; lia). rewrite IH by lia. tauto.
    + assert (Hd : 1 <= (n * 10 + (c - 48)) `div` 2 ^ 32) by (apply Z.div_le_lower_bound; lia).
      replace (_ =? 0) with false by (symmetry; apply Z.eqb_neq; lia). cbn [negb]. split; [done|]. intros ((_ & Hl) & Hv & Hb).
      pose proof (dec_value_grows l (n * 10 + (c - 48)) Hl ltac:(lia)). lia.
Qed.

Lemma is_num_string_spec p v : str_ok p -> is_num_string p = Some v <-> canonical (units p) /\ dec_value 0 (units p) = v /\ v < 2 ^ 32.
Proof.
  intros (El & _). unfold is_num_string, canonical. rewrite El. clear El. destruct (units p) as [|c l]; [cbn; split; [done|by intros ((? & _) & _)]|].
  cbn [hd]. change (dec_value 0 (c :: l)) with (dec_value (0 * 10 + (c - 48)) l).
  replace (0 * 10 + (c - 48)) with (c - 48) by lia. rewrite Forall_cons, <- is_num_digit.
  change (length (c :: l)) with (S (length l)). replace (Z.of_nat (S (length l)) =? 0) with false by (symmetry; apply Z.eqb_neq; lia). cbn [orb].
  destruct (Z.ltb_spec 10 (Z.of_nat (S (length l)))) as [Hl|Hl].
  - split; [done|]. intros ((_ & (Hc & Hd) & H0) & Hv & Hb). apply is_num_digit in Hc. unfold digit in Hc.
    pose proof (dec_value_ge l (c - 48) Hd ltac:(lia)) as Hg. assert (c <> 48) by (intros ->; specialize (H0 eq_refl); lia).
    assert (10 ^ 10 <= 10 ^ Z.of_nat (length l)) by (apply Z.pow_le_mono_r; lia). nia.
  - destruct (is_num c) eqn:E; [|naive_solver]. apply is_num_digit in E. unfold digit in E. destruct (Z.eqb_spec c 48) as [->|Hc].
    + destruct l as [|d l]; cbn [length negb].
      * cbn. split; [intros [= <-]; repeat split; done|intros (_ & <- & _); done].
      * replace (_ =? 1) with false by (symmetry; apply Z.eqb_neq; lia). split; [done|]. intros ((_ & _ & H0) & _). specialize (H0 eq_refl). done.
    + rewrite num_digits_spec by (unfold fits; lia). naive_solver.
Qed.

(** Two texts of the same number are the same. *)
Lemma dec_value_inj l1 l2 n : length l1 = length l2 -> Forall digit l1 -> Forall digit l2 ->
  forall m, dec_value n l1 = dec_value m l2 -> n = m /\ l1 = l2.
Proof.
  intros Hlen H1. revert l2 Hlen n. induction H1 as [|c l1 Hc H1 IH]; intros [|d l2] Hlen n H2 m E; try done.
  apply Forall_cons in H2 as [Hd H2]. unfold digit in *.
  destruct (IH l2 ltac:(cbn in Hlen; lia) (n * 10 + (c - 48)) H2 (m * 10 + (d - 48)) E) as [En ->]. split; [lia|f_equal; lia].
Qed.

Lemma dec_value_lt l n : Forall digit l -> dec_value n l < (n + 1) * 10 ^ Z.of_nat (length l).
Proof.
  intros Hl. revert n. induction Hl as [|c l Hc Hl IH]; intros n; [cbn; lia|].
  unfold digit in Hc. change (dec_value n (c :: l)) with (dec_value (n * 10 + (c - 48)) l).
  eapply Z.lt_le_trans; [apply IH|]. cbn [length]. rewrite Nat2Z.inj_succ, Z.pow_succ_r by lia.
  pose proof (Z.pow_nonneg 10 (Z.of_nat (length l))). nia.
Qed.

(** A canonical text has as many digits as its number needs. *)
Lemma canonical_len l1 l2 : canonical l1 -> canonical l2 -> dec_value 0 l1 = dec_value 0 l2 -> (length l1 <= length l2)%nat.
Proof.
  intros (N1 & D1 & Z1) (N2 & D2 & _) E. destruct l1 as [|c l1]; [done|]. apply Forall_cons in D1 as [Hc D1].
  destruct (decide (c = 48)) as [->|Hn]; [cbn [hd] in Z1; rewrite Z1 by done; destruct l2; cbn in *; [done|lia]|].
  pose proof (dec_value_lt l2 0 D2) as Hu. change (dec_value 0 (c :: l1)) with (dec_value (0 * 10 + (c - 48)) l1) in E.
  unfold digit in *. pose proof (dec_value_ge l1 (0 * 10 + (c - 48)) D1 ltac:(lia)) as Hl.
  assert (10 ^ Z.of_nat (length l1) < 10 ^ Z.of_nat (length l2)). { pose proof (Z.pow_nonneg 10 (Z.of_nat (length l1))). nia. }
  apply Z.pow_lt_mono_r_iff in H; cbn; lia.
Qed.

Lemma canonical_inj l1 l2 : canonical l1 -> canonical l2 -> dec_value 0 l1 = dec_value 0 l2 -> l1 = l2.
Proof.
  intros C1 C2 E. assert (length l1 = length l2) by (apply Nat.le_antisymm; by apply canonical_len).
  destruct C1 as (_ & D1 & _), C2 as (_ & D2 & _). by destruct (dec_value_inj l1 l2 0 H D1 D2 0 E).
Qed.

(** A rope and a flat string of the same units. *)
Lemma rope_hash_flat seed v p domain strong :
  let rt := hash_string_seed_runtime seed in
  fits 64 seed -> Forall unit_ok (rope_units v) -> units p = rope_units v ->
  (strong = true -> atom_hash_key2 rt <= HASH_STRING_PRIME - 2 ^ 50) ->
  hash_string_rope rt v domain strong = hash_string_mode rt p domain strong.
Proof.
  intros rt Hs Hu Hp Hk. unfold hash_string_rope, hash_string_mode. destruct strong; cbn [negb].
  - destruct (seed_key seed Hs) as (K1 & K2 & E). pose proof (seed_init seed domain Hs) as Hi.
    specialize (Hk eq_refl). change HASH_STRING_PRIME with P61 in Hk.
    unfold hash_string16_run, hash_string8_run. subst rt.
    rewrite Hp, run_blocks by (done || lia). rewrite rope_feed, <- feed_blocks by (done || lia).
    by destruct (is_wide_char p).
  - rewrite rope_fast, Hp. destruct (is_wide_char p); [done|by rewrite bytes_fast].
Qed.

Module StrHash_props.

(** C31. A rope and a flat string of the same units, kept as bytes or as 16-bit
    units, hash to the same 32-bit number in every domain: always with the fast
    hash, and with the keyed hash for every seed the square of whose key is
    not within 2^50 of the prime.  The four-bytes-a-turn loop, the two-blocks-a-turn
    loop and the one-unit-at-a-time feed all compute one function. *)
Theorem string_hash_representation seed v p domain strong :
  let rt := hash_string_seed_runtime seed in
  fits 64 seed -> Forall unit_ok (rope_units v) -> units p = rope_units v ->
  (strong = true -> atom_hash_key2 rt <= HASH_STRING_PRIME - 2 ^ 50) ->
  hash_string_rope rt v domain strong = hash_string_mode rt p domain strong.
Proof. apply rope_hash_flat. Qed.

(** The premises hold of the seed 1, a rope of two narrow strings and a wide string. *)
Lemma string_hash_representation_witness :
  hash_string_rope (hash_string_seed_runtime 1) (Rope 7 false 1 (Flat (mk_str 4 false false [97; 98; 99; 100])) (Flat (mk_str 3 false false [101; 102; 103]))) 1 true
  = hash_string_mode (hash_string_seed_runtime 1) (mk_str 7 true false [97; 98; 99; 100; 101; 102; 103]) 1 true.
Proof.
  apply (string_hash_representation 1); [unfold fits; lia|cbn; repeat constructor; unfold fits; lia|reflexivity|intros _; vm_compute; discriminate].
Defined.

(** For the seeds left out the keyed hash of a rope and of the flat string with
    the same units can differ: here 1 and 2^30, so that a map keyed by one
    does not find the other. *)
Example rope_hash_differs :
  let rt := hash_string_seed_runtime (1272521237944691271 * 8) in
  let s := [46053; 23175; 52904; 56206; 47785; 7719; 17086; 15890; 38028; 6124; 37046; 28705] in
  hash_string_mode rt (mk_str 12 true false s) 1 true = 2 ^ 30 /\
  hash_string_rope rt (Rope 12 true 1 (Flat (mk_str 5 true false (take 5 s))) (Flat (mk_str 7 true false (drop 5 s)))) 1 true = 1.
Proof. vm_compute. done. Qed.

(** is_num_string accepts exactly the decimal texts without superfluous
    zeros of the numbers below 2^32, gives their number, and no two strings of
    different units the same one: an integer name has one spelling. *)
Theorem is_num_string_exact p q v : str_ok p -> str_ok q ->
  (is_num_string p = Some v <-> canonical (units p) /\ dec_value 0 (units p) = v /\ v < 2 ^ 32) /\
  (is_num_string p = Some v -> is_num_string q = Some v -> units p = units q).
Proof.
  intros Hp Hq. split; [by apply is_num_string_spec|]. rewrite !is_num_string_spec by done.
  intros (C1 & E1 & _) (C2 & E2 & _). apply canonical_inj; congruence.
Qed.

Definition name42 (w : bool) : JSString := mk_str 2 w false [52; 50].
Lemma name42_ok w : str_ok (name42 w).
Proof. split; [done|]. split; [done|]. destruct w; repeat (constructor; [unfold fits; cbn; lia|]); constructor. Qed.

Lemma is_num_string_exact_witness :
  is_num_string (name42 false) = Some 42 /\ is_num_string (mk_str 3 true false [48; 52; 50]) = None /\
  units (name42 false) = units (name42 true).
Proof.
  split; [reflexivity|]. split; [reflexivity|].
  apply (proj2 (is_num_string_exact (name42 false) (name42 true) 42 (name42_ok _) (name42_ok _))); reflexivity.
Defined.

End StrHash_props.
