(* ===== verification/StrBuf.v ===== *)
(** * String buffers

    The engine builds strings in a StringBuffer (src/runtime/class.inc.c): an
    array that starts with bytes, is widened to 16-bit units when a unit needs it,
    and grows; after a failed allocation or a text that is too long the buffer
    keeps an error and string_buffer_end answers with an exception.  This file
    models all its operations; the units after [len] are not written yet.

    What the allocator answers comes from a list: [None] when it has no memory,
    [Some slack] with the bytes that the block has over what was asked for.  The
    option of the monad is an access outside an array.  Lengths are ints: their
    sums wrap. *)
From Stdlib Require Import ZArith Lia List.
From stdpp Require Import base numbers option list.
From S2P Require Import Prelude Strings.

(** ** Memory *)

Definition mem := list (option Z).
Definition M (A : Type) : Type := mem -> option (A * mem).

#[export] Instance M_ret : MRet M := fun A x m => Some (x, m).
#[export] Instance M_bind : MBind M := fun A B f x m => r ← x m; f r.1 r.2.

Definition fault {A} : M A := fun _ => None.
Definition js_realloc2 : M (option Z) := fun m => Some (hd (Some 0) m, tl m).
Definition js_malloc : M bool := r ← js_realloc2; mret (bool_decide (is_Some r)).

(** The answer of js_alloc_string: whether there is a string. *)
Definition js_alloc_string (max_len : Z) : M bool := if JS_STRING_LEN_MAX <? u32 max_len then mret false else js_malloc.

(** ** The buffer *)

(** [text]: the units written; [len] is how many. *)
Record StringBuffer := mk_sb { text : list Z; size : Z; sb_wide : bool; error_status : bool }.

Definition sb_len (s : StringBuffer) : Z := Z.of_nat (length (text s)).

Definition string_buffer_init2 (sz : Z) (is_wide : bool) : M (bool * StringBuffer) :=
  ok ← js_alloc_string sz;
  if negb ok then mret (false, mk_sb [] 0 is_wide true) else mret (true, mk_sb [] sz is_wide false).
Definition string_buffer_init (sz : Z) : M (bool * StringBuffer) := string_buffer_init2 sz false.

Definition string_buffer_set_error (s : StringBuffer) : M (bool * StringBuffer) := mret (false, mk_sb [] 0 (sb_wide s) true).

Definition string_buffer_widen (s : StringBuffer) (sz : Z) : M (bool * StringBuffer) :=
  if error_status s then mret (false, s) else
  r ← js_realloc2;
  match r with
  | None => string_buffer_set_error s
  | Some slack => mret (true, mk_sb (text s) (i32 (sz + (slack >> 1))) true (error_status s))
  end.

Definition b2z (b : bool) : Z := if b then 1 else 0.

Definition string_buffer_realloc (s : StringBuffer) (new_len c : Z) : M (bool * StringBuffer) :=
  if error_status s then mret (false, s) else
  if JS_STRING_LEN_MAX <? new_len then string_buffer_set_error s else
  let new_size := Z.min (Z.max new_len (Z.max (i32 (size s * 3) ÷ 2) 16)) JS_STRING_LEN_MAX in
  if negb (sb_wide s) && (256 <=? c) then string_buffer_widen s new_size else
  r ← js_realloc2;
  match r with
  | None => string_buffer_set_error s
  | Some slack => mret (true, mk_sb (text s) (Z.min (i32 (new_size + (slack >> b2z (sb_wide s)))) JS_STRING_LEN_MAX) (sb_wide s) (error_status s))
  end.

(** A run of stores at [s->len]; a unit that is stored in a byte loses its upper half. *)
Definition store (s : StringBuffer) (l : list Z) : M (bool * StringBuffer) :=
  if sb_len s + Z.of_nat (length l) <=? size s
  then mret (true, mk_sb (text s ++ map (fun c => if sb_wide s then u16 c else u8 c) l) (size s) (sb_wide s) (error_status s))
  else fault.

(** [if (f) return -1;] *)
Definition unless (f : M (bool * StringBuffer)) (k : StringBuffer -> M (bool * StringBuffer)) : M (bool * StringBuffer) :=
  r ← f; if negb r.1 then mret (false, r.2) else k r.2.

Definition string_buffer_putc16_slow (s : StringBuffer) (c : Z) : M (bool * StringBuffer) :=
  unless (if size s <=? sb_len s then string_buffer_realloc s (i32 (sb_len s + 1)) c else mret (true, s)) (fun s =>
  if sb_wide s || (c <? 256) then store s [c] else unless (string_buffer_widen s (size s)) (fun s => store s [c])).

Definition string_buffer_putc8 (s : StringBuffer) (c : Z) : M (bool * StringBuffer) :=
  unless (if size s <=? sb_len s then string_buffer_realloc s (i32 (sb_len s + 1)) c else mret (true, s)) (fun s => store s [c]).

Definition string_buffer_putc16 (s : StringBuffer) (c : Z) : M (bool * StringBuffer) :=
  if (sb_len s <? size s) && (sb_wide s || (c <? 256)) then store s [c] else string_buffer_putc16_slow s c.

Definition get_hi_surrogate (c : Z) : Z := u32 ((c >> 10) - (0x10000 >> 10) + 0xD800).
Definition get_lo_surrogate (c : Z) : Z := (c & 0x3FF) .| 0xDC00.

Definition string_buffer_putc_slow (s : StringBuffer) (c : Z) : M (bool * StringBuffer) :=
  if 0x10000 <=? c then unless (string_buffer_putc16 s (get_hi_surrogate c)) (fun s => string_buffer_putc16 s (get_lo_surrogate c))
  else string_buffer_putc16 s c.

Definition string_buffer_putc (s : StringBuffer) (c : Z) : M (bool * StringBuffer) :=
  if sb_len s <? size s then
    if sb_wide s then
      if c <? 0x10000 then store s [c]
      else if i32 (sb_len s + 1) <? size s then store s [get_hi_surrogate c; get_lo_surrogate c]
      else string_buffer_putc_slow s c
    else if c <? 256 then store s [c] else string_buffer_putc_slow s c
  else string_buffer_putc_slow s c.

Definition string_buffer_write8 (s : StringBuffer) (p : list Z) : M (bool * StringBuffer) :=
  let n := Z.of_nat (length p) in
  unless (if size s <? i32 (sb_len s + n) then string_buffer_realloc s (i32 (sb_len s + n)) 0 else mret (true, s)) (fun s => store s p).

Definition string_buffer_write16 (s : StringBuffer) (p : list Z) : M (bool * StringBuffer) :=
  let n := Z.of_nat (length p) in
  let c := if negb (sb_wide s) then fold_left Z.lor p 0 else 0 in
  unless (if size s <? i32 (sb_len s + n) then string_buffer_realloc s (i32 (sb_len s + n)) c
          else if negb (sb_wide s) && (256 <=? c) then string_buffer_widen s (size s) else mret (true, s)) (fun s => store s p).

Definition string_buffer_puts8 (s : StringBuffer) (str : list Z) : M (bool * StringBuffer) := string_buffer_write8 s str.

Definition string_buffer_concat (s : StringBuffer) (p : JSString) (from to : Z) : M (bool * StringBuffer) :=
  if to <=? from then mret (true, s) else
  match aslice (units p) (Z.to_nat from) (Z.to_nat (to - from)) with
  | None => fault
  | Some data => if is_wide_char p then string_buffer_write16 s data else string_buffer_write8 s data
  end.

(** For strings; other values are converted by code that is not modelled. *)
Fixpoint string_buffer_concat_value (s : StringBuffer) (v : JSStringRope) : M (bool * StringBuffer) :=
  if error_status s then mret (false, s) else
  match v with
  | Flat p => string_buffer_concat s p 0 (len p)
  | Rope _ _ _ l r => unless (string_buffer_concat_value s l) (fun s => string_buffer_concat_value s r)
  end.

Definition string_buffer_fill (s : StringBuffer) (c count : Z) : M (bool * StringBuffer) :=
  if count <=? 0 then mret (true, s) else
  unless (if size s <? i32 (sb_len s + count) then string_buffer_realloc s (i32 (sb_len s + count)) c
          else if negb (sb_wide s) && (256 <=? c) then string_buffer_widen s (size s) else mret (true, s))
    (fun s => store s (replicate (Z.to_nat count) c)).

Definition empty_string : JSString := mk_str 0 false false [].

(** [None] is JS_EXCEPTION; the field [len] has 30 bits; a failed realloc leaves the block. *)
Definition string_buffer_end (s : StringBuffer) : M (option JSString) :=
  if error_status s then mret None else
  if sb_len s =? 0 then mret (Some empty_string) else
  _ ← (if sb_len s <? size s then js_realloc2 else mret None);
  mret (Some (mk_str (wrap 30 (sb_len s)) (sb_wide s) false (text s))).

(** ** Code points *)

Definition is_hi_surrogate (c : Z) : bool := c >> 10 =? 0xD800 >> 10.
Definition is_lo_surrogate (c : Z) : bool := c >> 10 =? 0xDC00 >> 10.
Definition from_surrogate (hi lo : Z) : Z := u32 (0x10000 + 0x400 * (hi - 0xD800) + (lo - 0xDC00)).

(** The code point at [idx], and the index after it. *)
Definition string_getc (p : JSString) (idx : Z) : option (Z * Z) :=
  c ← aread (units p) idx;
  let idx := idx + 1 in
  if is_wide_char p && is_hi_surrogate c && (idx <? len p) then
    c1 ← aread (units p) idx;
    if is_lo_surrogate c1 then Some (from_surrogate c c1, idx + 1) else Some (c, idx)
  else Some (c, idx).

(** ** The invariant *)

Definition unit_of (w : bool) (c : Z) : Prop := if w then fits 16 c else fits 8 c.

(** Only widening leaves a size above the longest string. *)
Definition buf_ok (s : StringBuffer) : Prop :=
  sb_len s <= size s < 2 ^ 30 + 2 ^ 29 /\ (sb_wide s = false -> size s <= JS_STRING_LEN_MAX) /\ Forall (unit_of (sb_wide s)) (text s) /\
  (error_status s = true -> text s = [] /\ size s = 0).

Definition slack_ok (a : option Z) : Prop := match a with Some k => 0 <= k < 2 ^ 30 | None => True end.
Definition mem_ok (m : mem) : Prop := Forall slack_ok m.
(** No allocation fails. *)
Definition good (m : mem) : Prop := Forall is_Some m.

(** What a step that writes [u] does: all of it, or an error that stays; with
    enough memory and room there is no error.  The length after it is an int. *)
Definition appends (f : M (bool * StringBuffer)) (s : StringBuffer) (u : list Z) : Prop :=
  sb_len s + Z.of_nat (length u) < 2 ^ 31 -> forall m, mem_ok m -> exists b s' m', f m = Some ((b, s'), m') /\ buf_ok s' /\ mem_ok m' /\
    (if b then text s' = text s ++ u /\ error_status s' = error_status s else error_status s' = true) /\
    (good m -> good m' /\ (error_status s = false -> sb_len s + Z.of_nat (length u) <= JS_STRING_LEN_MAX -> b = true)).

(** What a step that makes room for [n] units up to [c] does. *)
Definition prepared (f : M (bool * StringBuffer)) (s : StringBuffer) (c n : Z) : Prop :=
  forall m, mem_ok m -> exists b s' m', f m = Some ((b, s'), m') /\ buf_ok s' /\ mem_ok m' /\
    (if b then text s' = text s /\ error_status s' = error_status s /\ sb_len s + n <= size s' /\ (256 <= c -> sb_wide s' = true)
     else error_status s' = true) /\
    (good m -> good m' /\ (error_status s = false -> sb_len s + n <= JS_STRING_LEN_MAX -> b = true)).

Lemma mem_hd m : mem_ok m -> slack_ok (hd (Some 0) m) /\ mem_ok (tl m).
Proof. intros H. destruct m as [|a m]; cbn [hd tl]; [split; [cbn; lia|constructor]|]. by apply Forall_cons in H. Qed.
Lemma good_hd m : good m -> is_Some (hd (Some 0) m) /\ good (tl m).
Proof. intros H. destruct m as [|a m]; cbn [hd tl]; [split; [by eexists|constructor]|]. by apply Forall_cons in H. Qed.

Lemma shr_slack slack k : 0 <= slack < 2 ^ 30 -> 0 <= k <= 1 -> 0 <= slack >> k < 2 ^ 30.
Proof.
  intros H Hk. rewrite Z.shiftr_div_pow2 by lia. assert (k = 0 \/ k = 1) as [-> | ->] by lia; change (2 ^ 0) with 1; change (2 ^ 1) with 2; zdm.
Qed.
Lemma shr1_slack slack : 0 <= slack < 2 ^ 30 -> 0 <= slack >> 1 < 2 ^ 29.
Proof. intros H. rewrite Z.shiftr_div_pow2 by lia. change (2 ^ 1) with 2. zdm. Qed.

Lemma error_ok w : buf_ok (mk_sb [] 0 w true).
Proof. unfold buf_ok, sb_len, JS_STRING_LEN_MAX. cbn. repeat split; try lia; try done; by constructor. Qed.

Lemma wide_units w l : Forall (unit_of w) l -> Forall (unit_of true) l.
Proof. intros H. eapply Forall_impl; [exact H|]. intros c Hc. destruct w; unfold unit_of, fits in *; lia. Qed.

Lemma sb_len_pos s : 0 <= sb_len s.
Proof. unfold sb_len. lia. Qed.

(** Runs the monad on the answers at hand. *)
Ltac mrun := unfold js_realloc2, string_buffer_set_error, mbind, mret, M_bind, M_ret; cbn [mbind option_bind fst snd].

Section Steps.
Context (s : StringBuffer).
Hypothesis Hs : buf_ok s.

Lemma widen_prepared sz c n : sb_len s + n <= sz <= JS_STRING_LEN_MAX -> 0 <= n -> prepared (string_buffer_widen s sz) s c n.
Proof.
  intros Hsz Hn m Hm. pose proof (sb_len_pos s). destruct Hs as (Hsize & Hnarrow & Hu & He). unfold string_buffer_widen. destruct (error_status s) eqn:Er.
  { exists false, s, m. split_and!; [done| |done|done|done]. repeat split; try done; try lia; by apply He. }
  destruct (mem_hd m Hm) as [H0 Hm']. mrun. destruct (hd (Some 0) m) as [slack|] eqn:Eh.
  - eexists true, _, _. split; [done|]. pose proof (shr1_slack slack H0) as Hk. unfold JS_STRING_LEN_MAX in *. change ((1 << 30) - 1) with (2 ^ 30 - 1) in *.
    rewrite swrap_id by (unfold sfits; lia). split_and!; cbn [text size sb_wide error_status].
    + unfold buf_ok, sb_len in *. cbn [text size sb_wide error_status]. split_and!; [lia|lia|done|by eapply wide_units|done].
    + done.
    + done.
    + done.
    + unfold sb_len in *; lia.
    + done.
    + intros Hg. by destruct (good_hd m Hg).
  - eexists false, _, _. split; [done|]. split; [apply error_ok|]. split_and!; [done|done|].
    intros Hg. destruct (good_hd m Hg) as [Hh Hg']. rewrite Eh in Hh. by destruct Hh.
Qed.

Lemma realloc_prepared c n : size s < sb_len s + n -> 0 <= n -> sb_len s + n < 2 ^ 31 -> prepared (string_buffer_realloc s (i32 (sb_len s + n)) c) s c n.
Proof.
  intros Hlt Hn Hfit. rewrite swrap_id by (pose proof (sb_len_pos s); unfold sfits; lia). pose proof (sb_len_pos s). unfold string_buffer_realloc. destruct (error_status s) eqn:Er.
  { intros m Hm. exists false, s, m. split_and!; [done|done|done|done|]. intros. by rewrite Er. }
  destruct (Z.ltb_spec JS_STRING_LEN_MAX (sb_len s + n)) as [Hmax|Hmax].
  { intros m Hm. eexists false, _, m. split_and!; [done|apply error_ok|done|done|]. intros. split; [done|]. lia. }
  set (new_size := Z.min _ JS_STRING_LEN_MAX). assert (Hns : sb_len s + n <= new_size <= JS_STRING_LEN_MAX) by lia. clearbody new_size.
  destruct (negb (sb_wide s) && (256 <=? c)) eqn:Ec; [by apply widen_prepared|].
  intros m Hm. destruct (mem_hd m Hm) as [H0 Hm']. mrun. destruct Hs as (Hsize & Hnarrow & Hu & He). destruct (hd (Some 0) m) as [slack|] eqn:Eh.
  - eexists true, _, _. split; [done|]. pose proof (shr_slack slack (b2z (sb_wide s)) H0 ltac:(destruct (sb_wide s); cbn; lia)) as Hk.
    unfold JS_STRING_LEN_MAX in *. change ((1 << 30) - 1) with (2 ^ 30 - 1) in *. rewrite swrap_id by (unfold sfits; lia).
    split_and!; cbn [text size sb_wide error_status].
    + unfold buf_ok, sb_len in *. cbn [text size sb_wide error_status]. unfold JS_STRING_LEN_MAX; change ((1 << 30) - 1) with (2 ^ 30 - 1). split_and!; [lia|lia|intros _; lia|done|done].
    + done.
    + done.
    + done.
    + unfold sb_len in *. lia.
    + intros Hc. destruct (sb_wide s); [done|]. cbn in Ec. lia.
    + intros Hg. by destruct (good_hd m Hg).
  - eexists false, _, _. split; [done|]. split; [apply error_ok|]. split_and!; [done|done|].
    intros Hg. destruct (good_hd m Hg) as [Hh Hg']. rewrite Eh in Hh. by destruct Hh.
Qed.

Lemma ret_prepared c n : sb_len s + n <= size s -> (256 <= c -> sb_wide s = true) -> prepared (mret (true, s)) s c n.
Proof. intros H Hc m Hm. exists true, s, m. done. Qed.

Lemma len_sum n : 0 <= n -> sb_len s + n < 2 ^ 31 -> i32 (sb_len s + n) = sb_len s + n.
Proof. intros Hn Hf. pose proof (sb_len_pos s). by rewrite swrap_id by (unfold sfits; lia). Qed.

(** The three ways to make room. *)
Lemma room_prepared c n : 0 <= n -> sb_len s + n < 2 ^ 31 ->
  prepared (if size s <? i32 (sb_len s + n) then string_buffer_realloc s (i32 (sb_len s + n)) c
            else if negb (sb_wide s) && (256 <=? c) then string_buffer_widen s (size s) else mret (true, s)) s c n.
Proof.
  intros Hn Hfit. rewrite len_sum by done. destruct (Z.ltb_spec (size s) (sb_len s + n)); [rewrite <- len_sum by done; by apply realloc_prepared|].
  destruct (sb_wide s) eqn:Ew, (Z.leb_spec 256 c); cbn [negb andb]; try (by apply ret_prepared; [lia|]).
  - apply widen_prepared; [|done]. destruct Hs as (_ & Hn' & _). specialize (Hn' Ew). lia.
  - apply ret_prepared; [lia|]. lia.
Qed.

Lemma grow_prepared c n : 0 <= n -> sb_len s + n < 2 ^ 31 ->
  prepared (if size s <? i32 (sb_len s + n) then string_buffer_realloc s (i32 (sb_len s + n)) c else mret (true, s)) s (if sb_wide s then c else 0) n.
Proof.
  intros Hn Hfit. rewrite len_sum by done. destruct (Z.ltb_spec (size s) (sb_len s + n)).
  - rewrite <- len_sum by done. intros m Hm. destruct (realloc_prepared c n H Hn Hfit m Hm) as (b & s' & m' & E & Hb & Hm' & Hr & Hg). exists b, s', m'. split_and!; try done.
    destruct b; [|done]. destruct Hr as (? & ? & ? & Hc). split_and!; try done. destruct (sb_wide s); [done|lia].
  - apply ret_prepared; [lia|]. destruct (sb_wide s); [done|lia].
Qed.

Lemma store_appends l : sb_len s + Z.of_nat (length l) <= size s -> (error_status s = true -> l = []) -> Forall (unit_of (sb_wide s)) l -> appends (store s l) s l.
Proof.
  intros Hl Hel Hu _ m Hm. unfold store. rewrite (proj2 (Z.leb_le _ _)) by done.
  assert (El : map (fun c => if sb_wide s then u16 c else u8 c) l = l).
  { clear Hl Hel. induction Hu as [|c l Hc Hu IH]; [done|]. cbn. rewrite IH. f_equal. destruct (sb_wide s); by apply wrap_id. }
  rewrite El. eexists true, _, m. split; [done|]. destruct Hs as (H1 & H2 & H3 & H4). split_and!; cbn [text error_status]; try done.
  unfold buf_ok, sb_len in *. cbn [text size sb_wide error_status]. rewrite length_app. split_and!; [lia|lia|done|by apply Forall_app|].
  intros He. destruct (H4 He) as [-> ?]. by rewrite (Hel He).
Qed.
End Steps.

(** A step after a step. *)
Lemma unless_appends f k s c n u : (sb_len s + Z.of_nat (length u) < 2 ^ 31 -> prepared f s c n) ->
  (forall s1, buf_ok s1 -> text s1 = text s -> error_status s1 = error_status s -> sb_len s + n <= size s1 -> (256 <= c -> sb_wide s1 = true) -> appends (k s1) s1 u) ->
  n <= Z.of_nat (length u) -> appends (unless f k) s u.
Proof.
  intros Hf Hk Hn Hfit m Hm. destruct (Hf Hfit m Hm) as (b & s1 & m1 & E & H1 & Hm1 & Hr & Hg). unfold unless. mrun. rewrite E. mrun.
  destruct b; cbn [negb].
  - destruct Hr as (Et & Ee & Hsz & Hw). destruct (Hk s1 H1 Et Ee Hsz Hw ltac:(unfold sb_len in *; by rewrite Et) m1 Hm1) as (b & s2 & m2 & -> & H2 & Hm2 & Hr2 & Hg2). exists b, s2, m2.
    split; [done|]. split; [done|]. split; [done|]. split; [by rewrite <- Et, <- Ee|]. intros Hgm. destruct (Hg Hgm) as [Hg1 _]. destruct (Hg2 Hg1) as [? Hb].
    split; [done|]. unfold sb_len in *. rewrite Ee, Et in Hb. exact Hb.
  - exists false, s1, m1. split_and!; try done. intros Hgm. destruct (Hg Hgm) as [? Hb]. split; [done|]. intros He Hl. apply Hb; [done|lia].
Qed.

Lemma appends_then f k s u v : appends f s u ->
  (forall s1, buf_ok s1 -> text s1 = text s ++ u -> error_status s1 = error_status s -> appends (k s1) s1 v) -> appends (unless f k) s (u ++ v).
Proof.
  intros Hf Hk Hfit m Hm. rewrite length_app in Hfit. destruct (Hf ltac:(lia) m Hm) as (b & s1 & m1 & E & H1 & Hm1 & Hr & Hg). unfold unless. mrun. rewrite E. mrun.
  destruct b; cbn [negb].
  - destruct Hr as (Et & Ee). destruct (Hk s1 H1 Et Ee ltac:(unfold sb_len in *; rewrite Et, length_app; lia) m1 Hm1) as (b & s2 & m2 & -> & H2 & Hm2 & Hr2 & Hg2). exists b, s2, m2.
    split; [done|]. split; [done|]. split; [done|]. split; [by rewrite app_assoc, <- Et, <- Ee|]. intros Hgm. destruct (Hg Hgm) as [Hg1 _]. destruct (Hg2 Hg1) as [? Hb].
    split; [done|]. unfold sb_len in *. rewrite Ee, Et in Hb. rewrite !length_app in *. intros. apply Hb; [done|lia].
  - exists false, s1, m1. split_and!; try done. intros Hgm. destruct (Hg Hgm) as [? Hb]. split; [done|]. rewrite length_app. intros He Hl. apply Hb; [done|lia].
Qed.

(** ** The operations *)

Lemma lor_fits_inv w x y : 0 <= w -> 0 <= x -> 0 <= y -> fits w (x .| y) -> fits w x /\ fits w y.
Proof.
  intros Hw Hx Hy Hf. split; apply fits_testbit; try done; intros i Hi; pose proof (testbit_fits w _ i Hf ltac:(lia)) as Hb;
    rewrite Z.lor_spec in Hb; by apply orb_false_elim in Hb as [? ?].
Qed.

Lemma fold_lor_fits w l a : 0 <= w -> 0 <= a -> Forall (fun c => 0 <= c) l -> fits w (fold_left Z.lor l a) -> Forall (fits w) l /\ fits w a.
Proof.
  intros Hw. revert a. induction l as [|c l IH]; intros a Ha Hl Hf; cbn in *; [by split; [constructor|]|].
  apply Forall_cons in Hl as [Hc Hl]. destruct (IH (a .| c)) as [H1 H2]; [by apply Z.lor_nonneg|done|done|].
  apply lor_fits_inv in H2 as [H2 H3]; [|done..]. by split; [constructor|].
Qed.

Lemma or_fits l : Forall (fits 16) l -> 0 <= fold_left Z.lor l 0 /\ (fold_left Z.lor l 0 < 256 -> Forall (fits 8) l).
Proof.
  intros Hl. assert (Hn : Forall (fun c => 0 <= c) l) by (eapply Forall_impl; [exact Hl|unfold fits; intros; lia]).
  assert (H0 : forall a, 0 <= a -> 0 <= fold_left Z.lor l a).
  { clear Hl. induction Hn as [|c l Hc Hn IH]; intros a Ha; [done|]. apply IH. by apply Z.lor_nonneg. }
  specialize (H0 0 ltac:(lia)). split; [done|]. intros H. apply (fold_lor_fits 8 l 0); [lia|lia|done|]. unfold fits. lia.
Qed.

Lemma units_for w c l : Forall (fits 16) l -> (256 <= c -> w = true) -> (c < 256 -> Forall (fits 8) l) -> Forall (unit_of w) l.
Proof. intros H1 H2 H3. destruct w; [done|]. apply H3. destruct (Z.lt_ge_cases c 256); [done|]. by specialize (H2 H). Qed.

(** The text of a code point. *)
Definition utf16 (c : Z) : list Z := if 0x10000 <=? c then [get_hi_surrogate c; get_lo_surrogate c] else [c].

Lemma surrogates c : 0x10000 <= c <= 0x10FFFF -> 0xD800 <= get_hi_surrogate c < 0xDC00 /\ 0xDC00 <= get_lo_surrogate c < 0xE000 /\
  from_surrogate (get_hi_surrogate c) (get_lo_surrogate c) = c.
Proof.
  intros Hc. pose proof (Z.mod_pos_bound c 1024 ltac:(lia)).
  assert (El : get_lo_surrogate c = c `mod` 1024 + 0xDC00).
  { unfold get_lo_surrogate. change 0x3FF with (Z.ones 10). rewrite Z.land_ones by lia. change 0xDC00 with (55 << 10) at 1.
    change (2 ^ 10) with 1024. rewrite lor_shiftl_add; [reflexivity|unfold fits; change (2 ^ 10) with 1024; lia|lia]. }
  assert (Eh : get_hi_surrogate c = c `div` 1024 - 64 + 0xD800).
  { unfold get_hi_surrogate. rewrite Z.shiftr_div_pow2 by lia. change (65536 >> 10) with 64. change (2 ^ 10) with 1024. apply wrap_id. unfold fits. zdm. }
  rewrite El, Eh. unfold from_surrogate. assert (64 <= c `div` 1024 <= 1087) by zdm. rewrite wrap_id by (unfold fits; zdm). zdm.
Qed.

Section Ops.
Context (s : StringBuffer).
Hypothesis Hs : buf_ok s.

Lemma full_error : error_status s = true -> text s = [] /\ size s = 0.
Proof. apply Hs. Qed.

(** No room for a unit: the length after it, which is an int, is above the size. *)
Lemma full_next : (size s <=? sb_len s) = (size s <? i32 (sb_len s + 1)).
Proof.
  pose proof (sb_len_pos s). destruct Hs as (Hl & _). rewrite swrap_id by (unfold sfits; lia).
  destruct (Z.ltb_spec (size s) (sb_len s + 1)), (Z.leb_spec (size s) (sb_len s)); lia || done.
Qed.

(** An erroneous buffer has no room, so that nothing is stored in it. *)
Lemma room_error s1 (l : list Z) : buf_ok s1 -> sb_len s1 + Z.of_nat (length l) <= size s1 -> error_status s1 = true -> l = [].
Proof. intros (_ & _ & _ & H) Hl He. destruct (H He) as [Et Ez]. unfold sb_len in Hl. rewrite Et, Ez in Hl. destruct l; [done|]. cbn in Hl. lia. Qed.

Lemma store_ready s1 l : buf_ok s1 -> text s1 = text s -> sb_len s + Z.of_nat (length l) <= size s1 -> Forall (unit_of (sb_wide s1)) l -> appends (store s1 l) s1 l.
Proof.
  intros H1 Et Hl Hu. assert (sb_len s1 = sb_len s) as El by (unfold sb_len; by rewrite Et). rewrite <- El in Hl.
  apply store_appends; [done|done| |done]. by apply room_error.
Qed.

Lemma putc16_slow_appends c : fits 16 c -> appends (string_buffer_putc16_slow s c) s [c].
Proof.
  intros Hc. unfold string_buffer_putc16_slow. rewrite full_next.
  eapply unless_appends; [intros Hfit; apply (grow_prepared s Hs c 1); cbn [length] in *; lia| |done]. intros s1 H1 Et Ee Hl _.
  assert (El : sb_len s1 = sb_len s) by (unfold sb_len; by rewrite Et).
  destruct (sb_wide s1 || (c <? 256)) eqn:Ew.
  - apply store_ready; [done|done|cbn; lia|]. constructor; [|done]. unfold unit_of. destruct (sb_wide s1); [done|]. cbn in Ew. unfold fits in *. lia.
  - apply orb_false_elim in Ew as [Ew _]. assert (size s1 <= JS_STRING_LEN_MAX) by (destruct H1 as (_ & Hn & _); by apply Hn).
    eapply unless_appends; [intros _; apply (widen_prepared s1 H1 (size s1) c 1); lia| |done]. intros s2 H2 Et2 Ee2 Hl2 Hw2.
    apply store_appends; [done|unfold sb_len in *; rewrite Et2; cbn; lia| |].
    + apply room_error; [done|]. unfold sb_len in *. rewrite Et2. cbn. lia.
    + constructor; [|done]. unfold unit_of. destruct (sb_wide s2) eqn:E2; [done|]. unfold fits in *. destruct (Z.lt_ge_cases c 256); [lia|]. by specialize (Hw2 H0).
Qed.

Lemma putc16_appends c : fits 16 c -> appends (string_buffer_putc16 s c) s [c].
Proof.
  intros Hc. unfold string_buffer_putc16. destruct ((sb_len s <? size s) && _) eqn:E; [|by apply putc16_slow_appends].
  apply andb_true_iff in E as [E1 E2]. apply store_ready; [done|done|cbn; lia|]. constructor; [|done].
  unfold unit_of. destruct (sb_wide s); [done|]. cbn in E2. unfold fits in *. lia.
Qed.

Lemma putc8_appends c : fits 8 c -> appends (string_buffer_putc8 s c) s [c].
Proof.
  intros Hc. unfold string_buffer_putc8. rewrite full_next.
  eapply unless_appends; [intros Hfit; apply (grow_prepared s Hs c 1); cbn [length] in *; lia| |done]. intros s1 H1 Et Ee Hl _. apply store_ready; [done|done|cbn; lia|].
  constructor; [|done]. unfold unit_of, fits in *. destruct (sb_wide s1); lia.
Qed.

Lemma write8_appends p : Forall (fits 8) p -> appends (string_buffer_write8 s p) s p.
Proof.
  intros Hp. unfold string_buffer_write8. eapply unless_appends; [intros Hfit; apply (grow_prepared s Hs 0 (Z.of_nat (length p))); lia| |done].
  intros s1 H1 Et Ee Hl _. apply store_ready; [done|done|done|]. eapply Forall_impl; [exact Hp|]. intros c Hc. unfold unit_of, fits in *. destruct (sb_wide s1); lia.
Qed.

Lemma write16_appends p : Forall (fits 16) p -> appends (string_buffer_write16 s p) s p.
Proof.
  intros Hp. unfold string_buffer_write16. destruct (or_fits p Hp) as [H0 H8]. destruct (sb_wide s) eqn:Ew; cbn [negb andb].
  - replace (mret (true, s)) with (if negb (sb_wide s) && (256 <=? 256) then string_buffer_widen s (size s) else mret (true, s)) by (by rewrite Ew).
    assert (Hpre := fun Hfit => room_prepared s Hs 256 (Z.of_nat (length p)) ltac:(lia) Hfit).
    assert (Hc : string_buffer_realloc s (i32 (sb_len s + Z.of_nat (length p))) 0 = string_buffer_realloc s (i32 (sb_len s + Z.of_nat (length p))) 256) by (unfold string_buffer_realloc; by rewrite Ew).
    rewrite Hc. eapply unless_appends; [exact Hpre| |done]. intros s1 H1 Et Ee Hl Hw. apply store_ready; [done|done|done|]. rewrite Hw by lia. exact Hp.
  - set (c := fold_left Z.lor p 0) in *. assert (Hpre := fun Hfit => room_prepared s Hs c (Z.of_nat (length p)) ltac:(lia) Hfit). rewrite Ew in Hpre. cbn [negb andb] in Hpre.
    eapply unless_appends; [exact Hpre| |done]. intros s1 H1 Et Ee Hl Hw. apply store_ready; [done|done|done|]. by apply (units_for _ c).
Qed.

Lemma fill_appends c count : fits 16 c -> 0 <= count -> appends (string_buffer_fill s c count) s (replicate (Z.to_nat count) c).
Proof.
  intros Hc Hn. unfold string_buffer_fill. destruct (Z.leb_spec count 0) as [H0|H0].
  { replace (Z.to_nat count) with 0%nat by lia. intros _ m Hm. exists true, s, m. cbn. rewrite app_nil_r. done. }
  eapply unless_appends; [rewrite length_replicate; intros Hfit; apply (room_prepared s Hs c count); lia| |rewrite length_replicate; lia]. intros s1 H1 Et Ee Hl Hw.
  apply store_ready; [done|done|rewrite length_replicate; lia|]. apply (units_for _ c); [by apply Forall_replicate|done|]. intros ?. apply Forall_replicate. unfold fits in *. lia.
Qed.

Lemma concat_appends p from to : str_ok p -> 0 <= from -> to <= len p -> appends (string_buffer_concat s p from to) s (take (Z.to_nat (to - from)) (drop (Z.to_nat from) (units p))).
Proof.
  intros (El & _ & Hu) Hf Ht. unfold string_buffer_concat. destruct (Z.leb_spec to from) as [H|H].
  { replace (Z.to_nat (to - from)) with 0%nat by lia. intros _ m Hm. exists true, s, m. cbn. rewrite app_nil_r. done. }
  rewrite aslice_in by lia.
  apply (Forall_drop _ (Z.to_nat from)), (Forall_take _ (Z.to_nat (to - from))) in Hu. destruct (is_wide_char p); [by apply write16_appends|by apply write8_appends].
Qed.
End Ops.

Lemma putc_slow_appends s c : buf_ok s -> 0 <= c <= 0x10FFFF -> appends (string_buffer_putc_slow s c) s (utf16 c).
Proof.
  intros Hs Hc. unfold string_buffer_putc_slow, utf16. destruct (Z.leb_spec 0x10000 c) as [H|H]; [|by apply putc16_appends; [|unfold fits; lia]].
  destruct (surrogates c) as (H1 & H2 & _); [lia|]. apply (appends_then _ _ s [_] [_]); [apply putc16_appends; [done|unfold fits; lia]|].
  intros s1 Hs1 _ _. apply putc16_appends; [done|unfold fits; lia].
Qed.

Lemma putc_appends s c : buf_ok s -> 0 <= c <= 0x10FFFF -> appends (string_buffer_putc s c) s (utf16 c).
Proof.
  intros Hs Hc. unfold string_buffer_putc. pose proof (putc_slow_appends s c Hs Hc) as Hslow.
  destruct (Z.ltb_spec (sb_len s) (size s)) as [Hl|Hl]; [|done]. destruct (sb_wide s) eqn:Ew.
  - destruct (Z.ltb_spec c 0x10000) as [H|H].
    + unfold utf16. rewrite (proj2 (Z.leb_gt _ _)) by done. apply store_ready with (s := s); [done|done|cbn; lia|]. rewrite Ew. constructor; [unfold unit_of, fits; lia|done].
    + rewrite swrap_id by (pose proof (sb_len_pos s); destruct Hs as (Hsz & _); unfold sfits; lia). destruct (Z.ltb_spec (sb_len s + 1) (size s)); [|done]. unfold utf16. rewrite (proj2 (Z.leb_le _ _)) by done.
      destruct (surrogates c) as (H1 & H2 & _); [lia|]. apply store_ready with (s := s); [done|done|cbn; lia|]. rewrite Ew. repeat (constructor; [unfold unit_of, fits; lia|]). done.
  - destruct (Z.ltb_spec c 256); [|done]. unfold utf16. rewrite (proj2 (Z.leb_gt _ _)) by lia. apply store_ready with (s := s); [done|done|cbn; lia|]. rewrite Ew.
    constructor; [unfold unit_of, fits; lia|done].
Qed.

Lemma concat_value_appends v s : buf_ok s -> rope_ok v -> appends (string_buffer_concat_value s v) s (rope_units v).
Proof.
  revert s. induction v as [p|n w d l IHl r IHr]; intros s Hs Hv; cbn [string_buffer_concat_value rope_units].
  - destruct (error_status s) eqn:Ee.
    { intros _ m Hm. exists false, s, m. split_and!; [done|done|done|done|]. intros. by rewrite Ee. }
    pose proof Hv as (El & _). pose proof (concat_appends s Hs p 0 (len p) Hv ltac:(lia) ltac:(lia)) as H. rewrite drop_0, take_ge in H by lia. done.
  - destruct (error_status s) eqn:Ee.
    { intros _ m Hm. exists false, s, m. split_and!; [done|done|done|done|]. intros. by rewrite Ee. }
    destruct Hv as (Hl & Hr & _). apply appends_then; [by apply IHl|]. intros s1 H1 _ _. by apply IHr.
Qed.

(** ** Building a string *)

(** The calls a function of the engine makes on a buffer, without looking at
    their results. *)
Inductive sb_op :=
  | Putc8 (c : Z) | Putc16 (c : Z) | Putc (c : Z) | Write8 (p : list Z) | Write16 (p : list Z)
  | Concat (p : JSString) (from to : Z) | ConcatValue (v : JSStringRope) | Fill (c count : Z).

Definition run_op (s : StringBuffer) (o : sb_op) : M (bool * StringBuffer) :=
  match o with
  | Putc8 c => string_buffer_putc8 s c
  | Putc16 c => string_buffer_putc16 s c
  | Putc c => string_buffer_putc s c
  | Write8 p => string_buffer_write8 s p
  | Write16 p => string_buffer_write16 s p
  | Concat p from to => string_buffer_concat s p from to
  | ConcatValue v => string_buffer_concat_value s v
  | Fill c count => string_buffer_fill s c count
  end.

(** What a call is meant to write. *)
Definition op_units (o : sb_op) : list Z :=
  match o with
  | Putc8 c | Putc16 c => [c]
  | Putc c => utf16 c
  | Write8 p | Write16 p => p
  | Concat p from to => take (Z.to_nat (to - from)) (drop (Z.to_nat from) (units p))
  | ConcatValue v => rope_units v
  | Fill c count => replicate (Z.to_nat count) c
  end.

Definition op_ok (o : sb_op) : Prop :=
  match o with
  | Putc8 c => fits 8 c
  | Putc16 c => fits 16 c
  | Putc c => 0 <= c <= 0x10FFFF
  | Write8 p => Forall (fits 8) p
  | Write16 p => Forall (fits 16) p
  | Concat p from to => str_ok p /\ 0 <= from /\ to <= len p
  | ConcatValue v => rope_ok v
  | Fill c count => fits 16 c /\ 0 <= count
  end.

Fixpoint run_ops (s : StringBuffer) (l : list sb_op) : M StringBuffer :=
  match l with [] => mret s | o :: l => r ← run_op s o; run_ops r.2 l end.

Definition build (sz : Z) (is_wide : bool) (l : list sb_op) : M (option JSString) :=
  r ← string_buffer_init2 sz is_wide; s ← run_ops r.2 l; string_buffer_end s.

Lemma run_op_appends s o : buf_ok s -> op_ok o -> appends (run_op s o) s (op_units o).
Proof.
  intros Hs Ho. destruct o; cbn [run_op op_units op_ok] in *.
  - by apply putc8_appends.
  - by apply putc16_appends.
  - by apply putc_appends.
  - by apply write8_appends.
  - by apply write16_appends.
  - destruct Ho as (? & ? & ?). by apply concat_appends.
  - by apply concat_value_appends.
  - destruct Ho. by apply fill_appends.
Qed.

Lemma run_ops_spec l s m : buf_ok s -> mem_ok m -> Forall op_ok l ->
  sb_len s + Z.of_nat (length (concat (op_units <$> l))) < 2 ^ 31 ->
  exists s' m', run_ops s l m = Some (s', m') /\ buf_ok s' /\ mem_ok m' /\
    (error_status s' = true \/ text s' = text s ++ concat (op_units <$> l) /\ error_status s' = error_status s) /\ (error_status s = true -> error_status s' = true) /\
    (good m -> good m' /\ (error_status s = false -> sb_len s + Z.of_nat (length (concat (op_units <$> l))) <= JS_STRING_LEN_MAX -> error_status s' = false)).
Proof.
  revert s m. induction l as [|o l IH]; intros s m Hs Hm Hl Hfit.
  { exists s, m. split_and!; [done..| |done|done]. right. cbn. by rewrite app_nil_r. }
  cbn [fmap list_fmap concat] in Hfit. rewrite length_app in Hfit.
  apply Forall_cons in Hl as [Ho Hl]. destruct (run_op_appends s o Hs Ho ltac:(lia) m Hm) as (b & s1 & m1 & E & H1 & Hm1 & Hr & Hg).
  assert (Hfit1 : sb_len s1 + Z.of_nat (length (concat (op_units <$> l))) < 2 ^ 31).
  { unfold sb_len in *. destruct b; [destruct Hr as [-> _]; rewrite length_app; lia|]. destruct H1 as (_ & _ & _ & He). destruct (He Hr) as [-> _]. cbn. lia. }
  destruct (IH s1 m1 H1 Hm1 Hl Hfit1) as (s2 & m2 & E2 & H2 & Hm2 & Hr2 & He2 & Hg2). exists s2, m2. cbn [run_ops]. mrun. rewrite E. cbn [fst snd mbind option_bind].
  split; [done|]. split; [done|]. split; [done|]. cbn [fmap list_fmap concat]. rewrite length_app. split_and!.
  - destruct b; [|left; by apply He2]. destruct Hr as [Et Ee]. destruct Hr2 as [Hr2|[Et2 Ee2]]; [by left|right]. by rewrite Et2, Et, <- app_assoc, Ee2.
  - intros He. apply He2. destruct b; [|done]. destruct Hr as [_ ->]. done.
  - intros Hgm. destruct (Hg Hgm) as [Hg1 Hb]. destruct (Hg2 Hg1) as [? Hb2]. split; [done|]. intros He Hlen. rewrite Hb in Hr by (done || lia). destruct Hr as [Et Ee].
    apply Hb2; [congruence|]. unfold sb_len in *. rewrite Et, length_app. lia.
Qed.

Lemma init_spec sz w m : 0 <= sz <= JS_STRING_LEN_MAX -> mem_ok m ->
  exists s m' b, string_buffer_init2 sz w m = Some ((b, s), m') /\ buf_ok s /\ text s = [] /\ mem_ok m' /\ (good m -> good m' /\ error_status s = false).
Proof.
  intros Hsz Hm. unfold string_buffer_init2, js_alloc_string, js_malloc. assert (Hmax : JS_STRING_LEN_MAX = 2 ^ 30 - 1) by done.
  rewrite wrap_id by (unfold fits; lia). rewrite (proj2 (Z.ltb_ge _ _)) by lia. destruct (mem_hd m Hm) as [_ Hm1]. mrun.
  destruct (bool_decide_reflect (is_Some (hd (Some 0) m))) as [Hok|Hok]; cbn [negb].
  - eexists _, _, true. split; [done|]. split; [|split; [done|split; [done|]]]. { unfold buf_ok, sb_len. cbn [text size sb_wide error_status length]. rewrite Hmax. split_and!; [lia|lia|lia|constructor|done]. }
    intros Hg. by destruct (good_hd m Hg).
  - eexists _, _, false. split; [done|]. split; [apply error_ok|split; [done|split; [done|]]]. intros Hg. by destruct (good_hd m Hg).
Qed.

Lemma end_spec s m : buf_ok s -> exists r m', string_buffer_end s m = Some (r, m') /\
  match r with
  | Some p => error_status s = false /\ (sb_len s <= JS_STRING_LEN_MAX -> str_ok p /\ units p = text s)
  | None => error_status s = true
  end.
Proof.
  intros (Hsize & _ & Hu & _). unfold string_buffer_end. destruct (error_status s); [by eexists None, _|].
  assert (Hmax : JS_STRING_LEN_MAX = 2 ^ 30 - 1) by done. unfold sb_len in *. destruct (Z.eqb_spec (Z.of_nat (length (text s))) 0) as [E|E].
  - eexists (Some _), _. split; [done|]. split; [done|]. intros _. destruct (text s); [|cbn in E; lia]. split; [|done]. split_and!; [done|done|constructor].
  - set (p := mk_str (wrap 30 (Z.of_nat (length (text s)))) (sb_wide s) false (text s)).
    assert (Hp : Z.of_nat (length (text s)) <= JS_STRING_LEN_MAX -> str_ok p /\ units p = text s).
    { intros Hl. subst p. unfold str_ok. cbn [len units is_wide_char]. rewrite wrap_id by (unfold fits; lia). done. }
    destruct (Z.ltb_spec (Z.of_nat (length (text s))) (size s)); (eexists (Some p), _; split; [mrun; reflexivity|done]).
Qed.

(** ** Reading code points *)

Lemma string_getc_spec p pre c post : str_ok p -> units p = pre ++ utf16 c ++ post -> 0 <= c <= 0x10FFFF -> is_hi_surrogate c = false ->
  string_getc p (Z.of_nat (length pre)) = Some (c, Z.of_nat (length pre + length (utf16 c))).
Proof.
  intros (El & _ & Hw) Hu Hc Hhi. unfold string_getc. rewrite aread_nat, Hu, lookup_app_r, Nat.sub_diag by lia.
  unfold utf16 in *. destruct (Z.leb_spec 0x10000 c) as [H|H].
  - destruct (surrogates c) as (H1 & H2 & Hf); [lia|]. cbn [app lookup list_lookup mbind option_bind].
    assert (is_wide_char p = true) as ->.
    { destruct (is_wide_char p); [done|]. rewrite Hu in Hw. apply Forall_app in Hw as [_ Hw]. apply Forall_cons in Hw as [Hx _]. cbv beta iota in Hx. unfold fits in Hx. exfalso. clear -Hx H1. lia. }
    assert (is_hi_surrogate (get_hi_surrogate c) = true) as ->.
    { unfold is_hi_surrogate. rewrite Z.shiftr_div_pow2 by lia. apply Z.eqb_eq. symmetry. apply (Z.div_unique _ _ _ (get_hi_surrogate c - 0xD800)); [change (2 ^ 10) with 1024; lia|change (2 ^ 10) with 1024; change (0xD800 >> 10) with 54; lia]. }
    rewrite El, Hu, length_app. cbn [length app]. rewrite (proj2 (Z.ltb_lt _ _)) by lia. cbn [andb].
    replace (Z.of_nat (length pre) + 1) with (Z.of_nat (length pre + 1)) by lia. rewrite aread_nat, lookup_app_r by lia.
    replace (length pre + 1 - length pre)%nat with 1%nat by lia. cbn [lookup list_lookup mbind option_bind].
    assert (is_lo_surrogate (get_lo_surrogate c) = true) as ->.
    { unfold is_lo_surrogate. rewrite Z.shiftr_div_pow2 by lia. apply Z.eqb_eq. symmetry. apply (Z.div_unique _ _ _ (get_lo_surrogate c - 0xDC00)); [change (2 ^ 10) with 1024; lia|change (2 ^ 10) with 1024; change (0xDC00 >> 10) with 55; lia]. }
    rewrite Hf. do 2 f_equal. lia.
  - cbn [app lookup list_lookup mbind option_bind]. rewrite Hhi, andb_false_r. cbn. do 2 f_equal. lia.
Qed.

Module StrBuf_props.

(** C13. A string built in a buffer is exactly what the calls wrote.  Take any
    sequence of writes, of bytes, units, code points, runs, parts of strings
    and ropes, whose results the caller may ignore, of less than 2^31 units in
    all, and any answers of the allocator.  Nothing is written outside the array; when the text is not longer
    than a string can be, the result is a well-formed string with that text, or
    an exception, and an exception only when an allocation failed. *)
Theorem string_buffer_exact sz is_wide l m :
  0 <= sz <= JS_STRING_LEN_MAX -> Forall op_ok l -> mem_ok m ->
  let u := concat (op_units <$> l) in
  Z.of_nat (length u) < 2 ^ 31 ->
  exists r m', build sz is_wide l m = Some (r, m') /\
    (Z.of_nat (length u) <= JS_STRING_LEN_MAX ->
      match r with Some p => str_ok p /\ units p = u | None => ~ good m end).
Proof.
  intros Hsz Hl Hm u Hfit. destruct (init_spec sz is_wide m Hsz Hm) as (s0 & m0 & b & E0 & H0 & Ht0 & Hm0 & Hg0).
  destruct (run_ops_spec l s0 m0 H0 Hm0 Hl ltac:(unfold sb_len; rewrite Ht0; cbn; done)) as (s & m1 & E1 & Hs & Hm1 & Hr & _ & Hg). fold u in Hr, Hg. rewrite Ht0 in Hr.
  destruct (end_spec s m1 Hs) as (r & m2 & E2 & Hend). exists r, m2. split.
  { unfold build. mrun. rewrite E0. cbn [fst snd mbind option_bind]. mrun. rewrite E1. exact E2. }
  intros Hu. destruct r as [p|].
  - destruct Hend as (He & Hp). destruct Hr as [Hr|[Et _]]; [congruence|]. cbn [app] in Et. rewrite <- Et. apply Hp. unfold sb_len. by rewrite Et.
  - intros Hgood. destruct (Hg0 Hgood) as [Hgm0 He0]. destruct (Hg Hgm0) as [_ Hok]. rewrite Hok in Hend; [done|done|]. unfold sb_len. rewrite Ht0. cbn. lia.
Qed.

(** A run with a wide unit, a code point outside the basic plane and a rope. *)
Lemma string_buffer_exact_witness :
  let l := [Write8 [97; 98]; Putc 0x1F600; ConcatValue (Rope 3 true 1 (Flat (mk_str 1 false false [99])) (Flat (mk_str 2 true true [8364; 100]))); Fill 33 2] in
  exists r m', build 1 false l [] = Some (r, m') /\ match r with Some p => str_ok p /\ units p = [97; 98; 0xD83D; 0xDE00; 99; 8364; 100; 33; 33] | None => ~ good [] end.
Proof.
  intros l. destruct (string_buffer_exact 1 false l []) as (r & m' & E & H).
  - split; vm_compute; discriminate.
  - unfold l. repeat constructor; unfold fits; cbn; try lia; try (vm_compute; discriminate).
  - constructor.
  - vm_compute. reflexivity.
  - exists r, m'. split; [exact E|]. apply H. vm_compute. discriminate.
Defined.

(** The bound on the units is needed: with more of them the sum of the lengths
    is negative as an int, so no room is made and the units go past the array. *)
Lemma fill_wraps s c m : buf_ok s -> 0 < sb_len s -> sb_wide s = true -> string_buffer_fill s c (2 ^ 31 - 1) m = None.
Proof.
  intros (Hl & _) Hpos Hw. unfold string_buffer_fill, unless. change (2 ^ 31 - 1 <=? 0) with false. rewrite Hw. cbn [negb andb].
  assert (E : i32 (sb_len s + (2 ^ 31 - 1)) = sb_len s - 1 - 2 ^ 31).
  { replace (sb_len s + (2 ^ 31 - 1)) with (sb_len s - 1 - 2 ^ 31 + 1 * 2 ^ 32) by lia. unfold swrap, wrap. rewrite Z.mod_add by lia.
    replace ((sb_len s - 1 - 2 ^ 31) `mod` 2 ^ 32) with (sb_len s - 1 + 2 ^ 31) by (apply (Z.mod_unique _ _ (-1)); lia). case_if; bprop; lia. }
  rewrite E, (proj2 (Z.ltb_ge _ _)) by lia. mrun. unfold store. rewrite length_replicate, (proj2 (Z.leb_gt _ _)) by lia. reflexivity.
Qed.

(** Widening can leave a size above JS_STRING_LEN_MAX, where string_buffer_realloc
    does not, and then the length of a string does not fit its 30 bits. *)
Example widen_passes_max : option_map (fun r => size (r.1.2)) (string_buffer_widen (mk_sb [97] JS_STRING_LEN_MAX false false) JS_STRING_LEN_MAX [Some 64]) = Some (JS_STRING_LEN_MAX + 32).
Proof. reflexivity. Qed.
Lemma end_truncates t : Z.of_nat (length t) = JS_STRING_LEN_MAX + 1 ->
  option_map (fun r => len <$> r.1) (string_buffer_end (mk_sb t (JS_STRING_LEN_MAX + 32) true false) []) = Some (Some 0).
Proof. intros Ht. unfold string_buffer_end, sb_len. cbn [error_status text size]. rewrite Ht. reflexivity. Qed.

(** string_buffer_putc and string_getc are inverse: in a string that holds
    the text of a code point at some place, whatever is around it, string_getc
    reads that code point there and steps over its one or two units; a lone high
    surrogate is left out, which may merge with what follows. *)
Theorem string_getc_putc p pre c post :
  str_ok p -> units p = pre ++ utf16 c ++ post -> 0 <= c <= 0x10FFFF -> is_hi_surrogate c = false ->
  string_getc p (Z.of_nat (length pre)) = Some (c, Z.of_nat (length pre + length (utf16 c))).
Proof. apply string_getc_spec. Qed.

Lemma string_getc_putc_witness : string_getc (mk_str 3 true false [8364; 0xD83D; 0xDE00]) 1 = Some (0x1F600, 3).
Proof.
  apply (string_getc_putc (mk_str 3 true false [8364; 0xD83D; 0xDE00]) [8364] 0x1F600 []); [|reflexivity|lia|reflexivity].
  repeat split; try (vm_compute; discriminate); repeat (constructor; [unfold fits; cbn; lia|]); constructor.
Defined.

End StrBuf_props.
