(* ===== verification/Ropes.v ===== *)
(** * Concatenation of strings

    JS_ConcatString of src/runtime/class.inc.c copies short strings and makes a
    rope of long ones; a rope that would be deeper than 60 is rebalanced: its
    flat strings are put one by one into buckets by length, where the lengths
    are Fibonacci numbers, and the buckets are joined.  Joining makes ropes with
    the same function, js_new_string_rope, so that the two are mutually recursive;
    [fuel] counts how often a rebalancing runs inside another.
    js_linearize_string_rope makes a rope flat, in place when it is shared.

    The result [None] inside the monad is JS_EXCEPTION; the answers of the
    allocator are as in [StrBuf]. *)
From Stdlib Require Import ZArith Lia List.
From stdpp Require Import base numbers option list.
From S2P Require Import Prelude Strings StrBuf.

Definition JS_STRING_ROPE_SHORT_LEN : Z := 512.
Definition JS_STRING_ROPE_SHORT2_LEN : Z := 8192.
Definition ROPE_N_BUCKETS : nat := 44.

Definition rope_bucket_len : list Z :=
  [1; 2; 3; 5; 8; 13; 21; 34; 55; 89; 144; 233; 377; 610; 987; 1597; 2584; 4181; 6765; 10946; 17711; 28657; 46368;
   75025; 121393; 196418; 317811; 514229; 832040; 1346269; 2178309; 3524578; 5702887; 9227465; 14930352; 24157817;
   39088169; 63245986; 102334155; 165580141; 267914296; 433494437; 701408733; 1134903170].

(** ** Rebalancing *)

(** A bucket is JS_NULL or a string. *)
Abbreviation buckets := (list (option JSStringRope)).

Section Rebalance.
(** js_new_string_rope *)
Variable new : JSStringRope -> JSStringRope -> M (option JSStringRope).

(** [while (len >= rope_bucket_len[i + 1])]: the index and what was gathered, [None] after an exception. *)
Fixpoint gather (fuel : nat) (n : Z) (i : nat) (a : option JSStringRope) (bs : buckets) : M (buckets * option (nat * option JSStringRope)) :=
  match fuel with
  | O => fault
  | S fuel =>
      match rope_bucket_len !! S i with
      | None => fault
      | Some k =>
          if k <=? n then
            match bs !! i with
            | None => fault
            | Some None => gather fuel n (S i) a bs
            | Some (Some b) =>
                let bs := <[i := None]> bs in
                match a with
                | None => gather fuel n (S i) (Some b) bs
                | Some a => r ← new b a; match r with None => mret (bs, None) | Some a => gather fuel n (S i) (Some a) bs end
                end
            end
          else mret (bs, Some (i, a))
      end
  end.

(** [while (!JS_IsNull(buckets[i]))], and the store after it. *)
Fixpoint settle (fuel : nat) (i : nat) (a : JSStringRope) (bs : buckets) : M (buckets * bool) :=
  match fuel with
  | O => fault
  | S fuel =>
      match bs !! i with
      | None => fault
      | Some None => mret (<[i := Some a]> bs, true)
      | Some (Some b) =>
          r ← new b a;
          let bs := <[i := None]> bs in
          match r with None => mret (bs, false) | Some a => settle fuel (S i) a bs end
      end
  end.

(** A flat string goes into the buckets; [false] is -1. *)
Definition rebalance_leaf (bs : buckets) (p : JSString) : M (buckets * bool) :=
  if len p =? 0 then mret (bs, true) else
  g ← gather ROPE_N_BUCKETS (len p) 0 None bs;
  match g with
  | (bs, None) => mret (bs, false)
  | (bs, Some (i, a)) =>
      r ← match a with Some a => new a (Flat p) | None => mret (Some (Flat p)) end;
      match r with
      | None => mret (bs, false)
      | Some a => settle (S ROPE_N_BUCKETS) i a bs
      end
  end.

(** The results of the two calls are not looked at. *)
Fixpoint js_rebalancee_string_rope_rec (bs : buckets) (v : JSStringRope) : M (buckets * bool) :=
  match v with
  | Flat p => rebalance_leaf bs p
  | Rope _ _ _ l r =>
      r1 ← js_rebalancee_string_rope_rec bs l;
      r2 ← js_rebalancee_string_rope_rec r1.1 r;
      mret (r2.1, true)
  end.

(** The loop that joins the buckets; [None] after an exception. *)
Fixpoint join (bs : buckets) (a : option JSStringRope) : M (option (option JSStringRope)) :=
  match bs with
  | [] => mret (Some a)
  | None :: bs => join bs a
  | Some b :: bs =>
      match a with
      | None => join bs (Some b)
      | Some a => r ← new b a; match r with None => mret None | Some a => join bs (Some a) end
      end
  end.

Definition js_rebalancee_string_rope (rope : JSStringRope) : M (option JSStringRope) :=
  r ← js_rebalancee_string_rope_rec (replicate ROPE_N_BUCKETS None) rope;
  if negb r.2 then mret None else
  a ← join r.1 None;
  match a with
  | None => mret None
  | Some None => mret (Some (Flat empty_string))
  | Some (Some a) => mret (Some a)
  end.
End Rebalance.

(** ** Flat ropes *)

(** The rope and what is left of it, which others may still hold: [shared] is
    [ref_count > 1].  A rope that holds JS_EXCEPTION, which a failing
    string_buffer_end would leave behind, is a fault. *)
Definition js_linearize_string_rope (shared : bool) (rope : JSStringRope) : M (option JSStringRope * JSStringRope) :=
  match rope with
  | Flat _ => fault
  | Rope n w d l r =>
      if is_flat r && (string_rope_get_len r =? 0) then mret (Some l, rope) else
      b ← string_buffer_init2 n w;
      if negb b.1 then mret (None, rope) else
      c ← string_buffer_concat_value b.2 rope;
      if negb c.1 then mret (None, rope) else
      ret ← string_buffer_end c.2;
      match ret with
      | None => if shared then fault else mret (None, rope)
      | Some p => mret (Some (Flat p), if shared then Rope n w d (Flat p) (Flat empty_string) else rope)
      end
  end.

(** ** Copies *)

(** The loop over words with the mask 0xFF00FF00FF00FF00, and the rest. *)
Fixpoint narrowable (l : list Z) : bool :=
  match l with
  | a :: b :: c :: d :: l =>
      let w := a .| (b << 16) .| (c << 32) .| (d << 48) in
      if negb (w & 0xFF00FF00FF00FF00 =? 0) then false else narrowable l
  | _ => forallb (fun c => c <=? 0xFF) l
  end.
Definition js_str_narrowable (p : JSString) : bool := if negb (is_wide_char p) then true else narrowable (units p).

Definition copy_str16 (p : JSString) : list Z := units p.
Definition copy_units_to8 (p : JSString) : list Z := if negb (is_wide_char p) then units p else map (fun c => u8 c) (units p).

Definition JS_ConcatString1 (p1 p2 : JSString) : M (option JSString) :=
  let n := u32 (len p1 + len p2) in
  if JS_STRING_LEN_MAX <? n then mret None else
  let w := is_wide_char p1 || is_wide_char p2 in
  let alloc_wide :=
    if w && ((is_slice p1 && is_wide_char p1) || (is_slice p2 && is_wide_char p2))
    then if js_str_narrowable p1 && js_str_narrowable p2 then false else w
    else w in
  ok ← js_alloc_string n;
  if negb ok then mret None else
  mret (Some (if negb alloc_wide then mk_str n false false (copy_units_to8 p1 ++ copy_units_to8 p2)
              else mk_str n true false (copy_str16 p1 ++ copy_str16 p2))).

(** What else the code asks of a flat string: its references, whether it is an atom, and the bytes of its block. *)
Record str_info := mk_info { ref_count : Z; atom_type : Z; usable_size : Z }.

Definition sizeof_JSString : Z := 12.

(** [Some]: the string was appended to in place; its field [len] has 30 bits. *)
Definition JS_ConcatStringInPlace (i1 : str_info) (p1 p2 : JSString) : option JSString :=
  if len p2 =? 0 then Some p1 else
  if is_slice p1 || negb (atom_type i1 =? 0) then None else
  if negb (ref_count i1 =? 1) then None else
  let longer := mk_str (wrap 30 (len p1 + len p2)) (is_wide_char p1) (is_slice p1) (units p1 ++ units p2) in
  if is_wide_char p1 then
    if sizeof_JSString + (len p1 + len p2) * 2 <=? usable_size i1 then Some longer else None
  else if negb (is_wide_char p2) then
    if sizeof_JSString + len p1 + len p2 + 1 <=? usable_size i1 then Some longer else None
  else None.

Definition JS_ConcatString2 (i1 : str_info) (p1 p2 : JSString) : M (option JSString) :=
  match JS_ConcatStringInPlace i1 p1 p2 with
  | Some p => mret (Some p)
  | None => JS_ConcatString1 p1 p2
  end.

Definition JS_DupValue (i : str_info) : str_info := mk_info (ref_count i + 1) (atom_type i) (usable_size i).

(** ** Ropes *)

(** What the call answers that would be nested deeper than [fuel]. *)
Section Nested.
Variable too_deep : M (option JSStringRope).

Fixpoint js_new_string_rope (fuel : nat) (op1 op2 : JSStringRope) : M (option JSStringRope) :=
  let n := u32 (string_rope_get_len op1 + string_rope_get_len op2) in
  let w := wide op1 || wide op2 in
  let d := Z.max (depth op1) (depth op2) in
  if JS_STRING_LEN_MAX <? n then mret None else
  ok ← js_malloc;
  if negb ok then mret None else
  let r := Rope n w (u8 (d + 1)) op1 op2 in
  if JS_STRING_ROPE_MAX_DEPTH <? u8 (d + 1) then
    match fuel with O => too_deep | S fuel => js_rebalancee_string_rope (js_new_string_rope fuel) r end
  else mret (Some r).

(** ** Concatenation *)

Definition short (v : JSStringRope) : option JSString :=
  match v with Flat p => if len p <=? JS_STRING_ROPE_SHORT_LEN then Some p else None | Rope _ _ _ _ _ => None end.

(** For strings; [i1] describes [op1] when it is flat, [ir] the right part of [op1] when it is a rope. *)
Definition JS_ConcatString (fuel : nat) (i1 ir : str_info) (op1 op2 : JSStringRope) : M (option JSStringRope) :=
  if is_flat op1 && (string_rope_get_len op1 =? 0) then mret (Some op2) else
  if is_flat op2 && (string_rope_get_len op2 =? 0) then mret (Some op1) else
  match op1, op2 with
  | Flat p1, Flat p2 =>
      if (len p2 <=? JS_STRING_ROPE_SHORT_LEN) && (len p1 <=? JS_STRING_ROPE_SHORT2_LEN)
      then r ← JS_ConcatString2 i1 p1 p2; mret (Flat <$> r)
      else js_new_string_rope fuel op1 op2
  | Rope _ _ _ l r, Flat p2 =>
      match (if len p2 <=? JS_STRING_ROPE_SHORT_LEN then short r else None) with
      | Some pr =>
          val ← JS_ConcatString2 (JS_DupValue ir) pr p2;
          match val with None => mret None | Some val => js_new_string_rope fuel l (Flat val) end
      | None => js_new_string_rope fuel op1 op2
      end
  | Flat p1, Rope _ _ _ l r =>
      match short l with
      | Some pl =>
          val ← JS_ConcatString2 i1 p1 pl;
          match val with None => mret None | Some val => js_new_string_rope fuel (Flat val) r end
      | None => js_new_string_rope fuel op1 op2
      end
  | _, _ => js_new_string_rope fuel op1 op2
  end.
End Nested.
