(* ===== verification/RopeProps.v ===== *)
(** * Concatenation: proofs

    Rebalancing keeps the text and gives a shallow rope for texts below
    2178309 units; for longer ones it can call itself for ever.  Concatenation
    and flattening keep the text. *)
From Stdlib Require Import ZArith Lia List.
From stdpp Require Import base numbers option list.
From S2P Require Import Prelude Strings StrBuf Ropes.

(** ** A new node *)

Definition mk_rope (op1 op2 : JSStringRope) : JSStringRope :=
  Rope (string_rope_get_len op1 + string_rope_get_len op2) (wide op1 || wide op2) (Z.max (depth op1) (depth op2) + 1) op1 op2.

Abbreviation rlen := string_rope_get_len (only parsing).

Lemma good_tl m : good m -> good (tl m).
Proof. intros H. by destruct (good_hd m H). Qed.

Lemma js_malloc_good m : good m -> js_malloc m = Some (true, tl m).
Proof. intros H. destruct (good_hd m H) as [Hh _]. unfold js_malloc. mrun. by rewrite bool_decide_true. Qed.

Lemma mk_rope_ok op1 op2 : rope_ok op1 -> rope_ok op2 -> 0 < rlen op1 + rlen op2 <= JS_STRING_LEN_MAX ->
  (rlen op2 = 0 -> is_flat op1 = true) -> rope_ok (mk_rope op1 op2).
Proof. intros H1 H2 Hl He. unfold mk_rope. cbn [rope_ok]. split_and!; (done || lia). Qed.

(** While the depth stays within 60 nothing is rebalanced. *)
Lemma new_shallow td fuel op1 op2 m : rope_ok op1 -> rope_ok op2 -> rlen op1 + rlen op2 <= JS_STRING_LEN_MAX ->
  depth op1 < JS_STRING_ROPE_MAX_DEPTH -> depth op2 < JS_STRING_ROPE_MAX_DEPTH -> good m ->
  js_new_string_rope td fuel op1 op2 m = Some (Some (mk_rope op1 op2), tl m).
Proof.
  intros H1 H2 Hl D1 D2 Hm. destruct (rope_ok_len _ H1) as [_ L1], (rope_ok_len _ H2) as [_ L2].
  pose proof (rope_ok_depth _ H1). pose proof (rope_ok_depth _ H2). unfold JS_STRING_ROPE_MAX_DEPTH in *.
  assert (E : forall f : nat, js_new_string_rope td f op1 op2 = (if JS_STRING_LEN_MAX <? rlen op1 + rlen op2 then mret None else
    ok ← js_malloc; if negb ok then mret None else mret (Some (mk_rope op1 op2)))).
  { intros f. unfold mk_rope. destruct f; cbn [js_new_string_rope]; rewrite wrap_id by (unfold fits; lia); rewrite wrap_id by (unfold fits; lia);
      (rewrite (proj2 (Z.ltb_ge JS_STRING_ROPE_MAX_DEPTH _)) by (unfold JS_STRING_ROPE_MAX_DEPTH; lia)); done. }
  rewrite E, (proj2 (Z.ltb_ge _ _)) by lia. mrun. rewrite js_malloc_good by done. done.
Qed.

(** ** The buckets *)

Definition opt_units (b : option JSStringRope) : list Z := match b with Some v => rope_units v | None => [] end.

(** The text in the buckets: the higher ones hold what comes first. *)
Fixpoint btext (bs : buckets) : list Z := match bs with [] => [] | b :: bs => btext bs ++ opt_units b end.

Definition blen (i : nat) : Z := nth i rope_bucket_len 0.
#[local] Arguments blen : simpl never.

(** Texts up to here stay within 60 levels when they are rebalanced. *)
Definition SAFE : Z := 2178309.

(** What is in the bucket [i]. *)
Definition fits_bucket (i : nat) (v : JSStringRope) : Prop := rope_ok v /\ blen i <= rlen v /\ depth v <= 2 * Z.of_nat i.

Definition buckets_ok (bs : buckets) : Prop := length bs = ROPE_N_BUCKETS /\ forall i v, bs !! i = Some (Some v) -> fits_bucket i v.

(** The buckets below [i] are empty. *)
Definition low (i : nat) (bs : buckets) : Prop := forall j, (j < i)%nat -> bs !! j = Some None.

(** What was gathered from them. *)
Definition gathered (i : nat) (a : option JSStringRope) : Prop :=
  match a with Some v => rope_ok v /\ 0 < rlen v /\ depth v <= 2 * Z.of_nat i - 1 | None => True end.

Lemma btext_low i bs : low i bs -> btext bs = btext (drop i bs).
Proof.
  revert i. induction bs as [|b bs IH]; intros i Hl; [by rewrite drop_nil|]. destruct i as [|i]; [done|]. cbn.
  pose proof (Hl 0%nat ltac:(lia)) as H0. cbn in H0. injection H0 as ->. cbn. rewrite app_nil_r. apply IH. intros j Hj. apply (Hl (S j)). lia.
Qed.

Lemma low_insert i bs b : (i < length bs)%nat -> low i bs -> low i (<[i := b]> bs).
Proof. intros Hi Hl j Hj. rewrite list_lookup_insert_ne by lia. by apply Hl. Qed.

Lemma btext_at i bs b : low i bs -> bs !! i = Some b -> btext bs = btext (drop (S i) bs) ++ opt_units b.
Proof. intros Hl Hb. rewrite (btext_low i) by done. by rewrite (drop_S _ b) by done. Qed.

Lemma btext_set i bs b c : low i bs -> bs !! i = Some b -> btext (<[i := c]> bs) = btext (drop (S i) bs) ++ opt_units c.
Proof.
  intros Hl Hb. apply lookup_lt_Some in Hb as Hi. rewrite (btext_at i (<[i := c]> bs) c).
  - by rewrite drop_insert_lt by lia.
  - by apply low_insert.
  - by rewrite list_lookup_insert_eq.
Qed.

(** Taking a string out of the lowest bucket. *)
Lemma take_out i bs v : buckets_ok bs -> low i bs -> bs !! i = Some (Some v) ->
  buckets_ok (<[i := None]> bs) /\ low (S i) (<[i := None]> bs) /\ btext bs = btext (<[i := None]> bs) ++ rope_units v.
Proof.
  intros [Hlen Hb] Hl Hi. apply lookup_lt_Some in Hi as Hlt. split; [split; [by rewrite length_insert|]|split].
  - intros j w. destruct (decide (j = i)) as [-> |Hj]; [rewrite list_lookup_insert_eq by done; done|rewrite list_lookup_insert_ne by lia; apply Hb].
  - intros j Hj. destruct (decide (j = i)) as [-> |Hne]; [by rewrite list_lookup_insert_eq|rewrite list_lookup_insert_ne by lia; apply Hl; lia].
  - rewrite (btext_at i bs (Some v)) by done. rewrite (btext_set i bs (Some v) None) by done. cbn. by rewrite app_nil_r.
Qed.

Lemma low_next i bs : low i bs -> bs !! i = Some None -> low (S i) bs.
Proof. intros Hl Hi j Hj. destruct (decide (j = i)) as [-> |]; [done|]. apply Hl. lia. Qed.

(** The table: Fibonacci numbers, of which only the first thirty matter below [SAFE]. *)
Lemma blen_index i n : (i < 44)%nat -> blen i <= n -> n < SAFE -> (i < 30)%nat.
Proof.
  intros Hi Hb Hn. destruct (decide (i < 30)%nat) as [|Hge]; [done|exfalso]. unfold SAFE in Hn.
  assert (H : forallb (fun i => 2178309 <=? blen i) (seq 30 14) = true) by reflexivity.
  rewrite forallb_forall in H. specialize (H i ltac:(apply in_seq; lia)). lia.
Qed.
Lemma blen_step i : (i < 43)%nat -> 0 < blen i /\ blen i < blen (S i) <= 2 * blen i.
Proof.
  intros Hi. assert (H : forallb (fun i => (0 <? blen i) && (blen i <? blen (S i)) && (blen (S i) <=? 2 * blen i)) (seq 0 43) = true) by reflexivity.
  rewrite forallb_forall in H. specialize (H i ltac:(apply in_seq; lia)). bprop. lia.
Qed.
Lemma bucket_len_lookup i : (i < 44)%nat -> rope_bucket_len !! i = Some (blen i).
Proof. intros Hi. unfold blen. destruct (nth_lookup_or_length rope_bucket_len i 0) as [|H]; [done|]. cbn in H. lia. Qed.

Section Rebalancing.
Context (td : M (option JSStringRope)) (fuel : nat).
Abbreviation new := (js_new_string_rope td fuel).

(** A join within the first thirty buckets. *)
Lemma new_join i a b m : rope_ok a -> rope_ok b -> 0 < rlen a -> 0 < rlen b -> rlen a + rlen b < SAFE -> (i < 30)%nat ->
  depth a <= 2 * Z.of_nat i -> depth b <= 2 * Z.of_nat i -> good m ->
  new a b m = Some (Some (mk_rope a b), tl m) /\ rope_ok (mk_rope a b) /\ 0 < rlen (mk_rope a b) /\ depth (mk_rope a b) <= 2 * Z.of_nat i + 1.
Proof.
  intros Ha Hb La Lb Hl Hi Da Db Hm. unfold SAFE in Hl. assert (JS_STRING_LEN_MAX = 2 ^ 30 - 1) by done.
  split; [apply new_shallow; unfold JS_STRING_ROPE_MAX_DEPTH; (done || lia)|]. split; [apply mk_rope_ok; (done || lia)|]. cbn. lia.
Qed.

Lemma units_len v : rope_ok v -> Z.of_nat (length (rope_units v)) = rlen v.
Proof. intros H. by destruct (rope_ok_len v H). Qed.

Lemma gather_spec f n i a bs m : buckets_ok bs -> low i bs -> gathered i a -> 0 < n < SAFE -> Z.of_nat (length (btext bs ++ opt_units a)) < SAFE ->
  (i < 30)%nat -> blen i <= n -> (30 - i < f)%nat -> good m ->
  exists bs' i' a' m', gather new f n i a bs m = Some ((bs', Some (i', a')), m') /\ good m' /\ buckets_ok bs' /\ low i' bs' /\ gathered i' a' /\
    (i' < 30)%nat /\ blen i' <= n /\ btext bs' ++ opt_units a' = btext bs ++ opt_units a.
Proof.
  revert i a bs m. induction f as [|f IH]; intros i a bs m Hb Hl Ha Hn Ht Hi Hbl Hf Hm; [lia|]. cbn [gather]. rewrite bucket_len_lookup by lia.
  destruct (Z.leb_spec (blen (S i)) n) as [Hs|Hs]; [|by exists bs, i, a, m].
  assert (Hi' : (S i < 30)%nat) by (apply (blen_index (S i) n); lia).
  destruct (lookup_lt_is_Some_2 bs i) as [b Eb]; [destruct Hb as [-> _]; unfold ROPE_N_BUCKETS; lia|]. rewrite Eb. destruct b as [b|].
  2: { apply IH; try done; [by apply low_next| |lia]. destruct a as [v|]; [|done]. destruct Ha as (? & ? & ?). split_and!; [done|done|lia]. }
  destruct (take_out i bs b Hb Hl Eb) as (Hb' & Hl' & Ht'). destruct (proj2 Hb i b Eb) as (Ob & Lb & Db).
  destruct (blen_step i ltac:(lia)) as [Hpos _]. destruct a as [v|].
  - destruct Ha as (Ov & Lv & Dv). rewrite Ht' in Ht. cbn [opt_units] in *. rewrite !length_app in Ht. pose proof (units_len v Ov). pose proof (units_len b Ob).
    destruct (new_join i b v m) as (En & Or & Lr & Dr); [done|done|lia|done|lia|lia|lia|lia|done|]. mrun. rewrite En. cbn [mbind option_bind fst snd].
    destruct (IH (S i) (Some (mk_rope b v)) (<[i := None]> bs) (tl m)) as (bs' & i' & a' & m' & E & R); try done.
    { split_and!; [done|done|lia]. }
    { cbn [opt_units mk_rope rope_units]. rewrite !length_app. lia. }
    { lia. }
    { by apply good_tl. }
    exists bs', i', a', m'. split; [exact E|]. destruct R as (? & ? & ? & ? & ? & ? & ->). split_and!; try done.
    cbn [opt_units mk_rope rope_units]. by rewrite Ht', <- app_assoc.
  - destruct (IH (S i) (Some b) (<[i := None]> bs) m) as (bs' & i' & a' & m' & E & R); try done.
    { split_and!; [done|lia|lia]. }
    { cbn [opt_units] in *. rewrite app_nil_r in Ht. by rewrite <- Ht'. }
    { lia. }
    exists bs', i', a', m'. split; [exact E|]. destruct R as (? & ? & ? & ? & ? & ? & ->). split_and!; try done. cbn [opt_units]. by rewrite <- Ht', app_nil_r.
Qed.

Lemma settle_spec f i a bs m : buckets_ok bs -> low i bs -> rope_ok a -> blen i <= rlen a -> depth a <= 2 * Z.of_nat i ->
  Z.of_nat (length (btext bs ++ rope_units a)) < SAFE -> (i < 30)%nat -> (30 - i < f)%nat -> good m ->
  exists bs' m', settle new f i a bs m = Some ((bs', true), m') /\ good m' /\ buckets_ok bs' /\ btext bs' = btext bs ++ rope_units a.
Proof.
  revert i a bs m. induction f as [|f IH]; intros i a bs m Hb Hl Oa La Da Ht Hi Hf Hm; [lia|]. cbn [settle].
  destruct (lookup_lt_is_Some_2 bs i) as [b Eb]; [destruct Hb as [-> _]; unfold ROPE_N_BUCKETS; lia|]. rewrite Eb. destruct b as [b|].
  - destruct (take_out i bs b Hb Hl Eb) as (Hb' & Hl' & Ht'). destruct (proj2 Hb i b Eb) as (Ob & Lb & Db). destruct (blen_step i ltac:(lia)) as [Hpos Hstep].
    rewrite Ht', !length_app in Ht. pose proof (units_len a Oa). pose proof (units_len b Ob).
    destruct (new_join i b a m) as (En & Or & Lr & Dr); [done|done|lia|lia|lia|done|done|done|done|]. mrun. rewrite En. cbn [mbind option_bind fst snd].
    assert (Hi' : (S i < 30)%nat) by (apply (blen_index (S i) (rlen b + rlen a)); lia).
    destruct (IH (S i) (mk_rope b a) (<[i := None]> bs) (tl m)) as (bs' & m' & E & Hg & Hok & Hu); try done.
    { cbn. lia. }
    { lia. }
    { cbn [mk_rope rope_units]. rewrite !length_app. lia. }
    { lia. }
    { by apply good_tl. }
    exists bs', m'. split_and!; try done. rewrite Hu, Ht'. cbn [mk_rope rope_units]. by rewrite app_assoc.
  - mrun. eexists _, _. split; [done|]. split; [done|]. split.
    + destruct Hb as [Hlen Hb]. split; [by rewrite length_insert|]. intros j v. destruct (decide (j = i)) as [-> |Hj].
      * rewrite list_lookup_insert_eq by (rewrite Hlen; unfold ROPE_N_BUCKETS; lia). intros [= <-]. done.
      * rewrite list_lookup_insert_ne by lia. apply Hb.
    + rewrite (btext_set i bs None) by done. cbn [opt_units]. rewrite (btext_at i bs None) by done. cbn [opt_units]. by rewrite app_nil_r.
Qed.

Lemma leaf_spec bs p m : buckets_ok bs -> str_ok p -> Z.of_nat (length (btext bs ++ units p)) < SAFE -> good m ->
  exists bs' m', rebalance_leaf new bs p m = Some ((bs', true), m') /\ good m' /\ buckets_ok bs' /\ btext bs' = btext bs ++ units p.
Proof.
  intros Hb Hp Ht Hm. pose proof Hp as (El & _). pose proof (str_ok_len _ Hp). unfold rebalance_leaf. destruct (Z.eqb_spec (len p) 0) as [E0|E0].
  { exists bs, m. assert (units p = []) as -> by (destruct (units p); [done|cbn in El; lia]). by rewrite app_nil_r. }
  rewrite length_app in Ht. destruct (gather_spec ROPE_N_BUCKETS (len p) 0 None bs m) as (bs1 & i & a & m1 & E & Hg & Hb1 & Hl1 & Ha & Hi & Hbi & Ht1);
    [done|intros j Hj; lia|done|lia|cbn; rewrite app_nil_r; lia|lia|change (blen 0) with 1; lia|unfold ROPE_N_BUCKETS; lia|done|].
  cbn [opt_units] in Ht1. rewrite app_nil_r in Ht1. mrun. rewrite E. cbn [mbind option_bind fst snd]. destruct a as [v|].
  - destruct Ha as (Ov & Lv & Dv). cbn [opt_units] in Ht1. assert (L1 := f_equal length Ht1). rewrite length_app in L1. pose proof (units_len v Ov). pose proof (rope_ok_depth v Ov).
    destruct (new_join i v (Flat p) m1) as (En & Or & Lr & Dr); [done|done|done|cbn; lia|cbn; lia|done|lia|cbn; lia|done|].
    rewrite En. cbn [mbind option_bind fst snd].
    destruct (settle_spec (S ROPE_N_BUCKETS) i (mk_rope v (Flat p)) bs1 (tl m1)) as (bs2 & m2 & E2 & Hg2 & Hb2 & Ht2);
      [done|done|done|cbn; lia|cbn; lia|cbn [mk_rope rope_units]; rewrite !length_app; lia|done|unfold ROPE_N_BUCKETS; lia|by apply good_tl|].
    exists bs2, m2. split_and!; try done. rewrite Ht2. cbn [mk_rope rope_units]. by rewrite app_assoc, Ht1.
  - cbn [opt_units] in Ht1. rewrite app_nil_r in Ht1. destruct (settle_spec (S ROPE_N_BUCKETS) i (Flat p) bs1 m1) as (bs2 & m2 & E2 & Hg2 & Hb2 & Ht2);
      [done|done|done|cbn; lia|cbn; lia|cbn [rope_units]; rewrite length_app, Ht1; lia|done|unfold ROPE_N_BUCKETS; lia|done|].
    exists bs2, m2. split_and!; try done. by rewrite Ht2, Ht1.
Qed.

Lemma rec_spec v bs m : buckets_ok bs -> rope_ok v -> Z.of_nat (length (btext bs ++ rope_units v)) < SAFE -> good m ->
  exists bs' m', js_rebalancee_string_rope_rec new bs v m = Some ((bs', true), m') /\ good m' /\ buckets_ok bs' /\ btext bs' = btext bs ++ rope_units v.
Proof.
  revert bs m. induction v as [p|n w d l IHl r IHr]; intros bs m Hb Hv Ht Hm; cbn [js_rebalancee_string_rope_rec rope_units] in *; [by apply leaf_spec|].
  cbn [rope_ok] in Hv. destruct Hv as (Hl & Hr & _). rewrite !length_app in Ht.
  destruct (IHl bs m) as (bs1 & m1 & E1 & Hg1 & Hb1 & Ht1); [done|done|rewrite length_app; lia|done|].
  destruct (IHr bs1 m1) as (bs2 & m2 & E2 & Hg2 & Hb2 & Ht2); [done|done|rewrite Ht1, !length_app; lia|done|].
  exists bs2, m2. mrun. rewrite E1. mrun. rewrite E2. mrun. split_and!; try done. by rewrite Ht2, Ht1, app_assoc.
Qed.

Lemma join_spec bs i a m : (forall j v, bs !! j = Some (Some v) -> fits_bucket (i + j) v) -> (i + length bs <= 44)%nat ->
  gathered i a -> (forall v, a = Some v -> depth v <= 59) -> Z.of_nat (length (btext bs ++ opt_units a)) < SAFE -> good m ->
  exists a' m', join new bs a m = Some (Some a', m') /\ good m' /\ opt_units a' = btext bs ++ opt_units a /\
    (forall v, a' = Some v -> rope_ok v /\ 0 < rlen v /\ depth v <= 59).
Proof.
  revert i a m. induction bs as [|b bs IH]; intros i a m Hb Hlen Ha Hd Ht Hm; cbn [join btext length] in *.
  { exists a, m. split_and!; try done. intros v ->. destruct Ha as (? & ? & _). split_and!; [done|done|by apply Hd]. }
  assert (Hb' : forall j v, bs !! j = Some (Some v) -> fits_bucket (S i + j) v) by (intros j v E; replace (S i + j)%nat with (i + S j)%nat by lia; by apply Hb).
  rewrite !length_app in Ht. destruct b as [b|].
  2: { cbn [opt_units] in *. rewrite app_nil_r. apply (IH (S i)); try done; [lia| |rewrite length_app; cbn in Ht; lia].
       destruct a as [v|]; [|done]. destruct Ha as (? & ? & ?). split_and!; [done|done|lia]. }
  destruct (Hb 0%nat b eq_refl) as (Ob & Lb & Db). rewrite Nat.add_0_r in *. cbn [opt_units] in Ht. pose proof (units_len b Ob).
  assert (Hi : (i < 30)%nat) by (apply (blen_index i (rlen b)); lia). destruct (blen_step i ltac:(lia)) as [Hpos _]. destruct a as [v|].
  - destruct Ha as (Ov & Lv & Dv). cbn [opt_units] in *. pose proof (units_len v Ov).
    destruct (new_join i b v m) as (En & Or & Lr & Dr); [done|done|lia|done|lia|lia|lia|lia|done|]. mrun. rewrite En. cbn [mbind option_bind fst snd].
    destruct (IH (S i) (Some (mk_rope b v)) (tl m)) as (a' & m' & E & Hg & Hu & Hr); try done.
    { lia. }
    { split_and!; [done|done|lia]. }
    { intros w [= <-]. lia. }
    { cbn [opt_units mk_rope rope_units]. rewrite !length_app. lia. }
    { by apply good_tl. }
    exists a', m'. split_and!; try done. rewrite Hu. cbn [opt_units mk_rope rope_units]. by rewrite app_assoc.
  - destruct (IH (S i) (Some b) m) as (a' & m' & E & Hg & Hu & Hr); try done.
    { lia. }
    { split_and!; [done|lia|lia]. }
    { intros w [= <-]. lia. }
    { cbn [opt_units]. rewrite !length_app. lia. }
    exists a', m'. split_and!; try done. rewrite Hu. cbn [opt_units]. by rewrite app_nil_r.
Qed.

Lemma empty_buckets n : btext (replicate n None) = [].
Proof. induction n as [|n IH]; [done|]. cbn. by rewrite IH. Qed.

Lemma rebalance_spec v m : rope_ok v -> rlen v < SAFE -> good m ->
  exists r m', js_rebalancee_string_rope new v m = Some (Some r, m') /\ good m' /\ rope_ok r /\ rope_units r = rope_units v /\ depth r <= 59.
Proof.
  intros Hv Hl Hm. pose proof (units_len v Hv). unfold js_rebalancee_string_rope.
  assert (Hb0 : buckets_ok (replicate ROPE_N_BUCKETS None)).
  { split; [by rewrite length_replicate|]. intros i w E. apply lookup_replicate in E as [E _]. done. }
  destruct (rec_spec v (replicate ROPE_N_BUCKETS None) m) as (bs & m1 & E & Hg & Hb & Ht); [done|done|rewrite empty_buckets; cbn; lia|done|].
  rewrite empty_buckets in Ht. cbn [app] in Ht. mrun. rewrite E. mrun. cbn [negb].
  destruct (join_spec bs 0 None m1) as (a & m2 & E2 & Hg2 & Hu & Hr); [apply Hb|destruct Hb as [-> _]; done|done|done|rewrite Ht; cbn; rewrite app_nil_r; lia|done|].
  mrun. rewrite E2. cbn [mbind option_bind fst snd opt_units] in *. rewrite app_nil_r, Ht in Hu. destruct a as [r|].
  - exists r, m2. destruct (Hr r eq_refl) as (? & ? & ?). by split_and!.
  - eexists _, m2. split; [done|]. cbn in Hu. split_and!; [done| |done|cbn; lia]. split_and!; [done|done|constructor].
Qed.

(** A new rope: its text, whatever was rebalanced. *)
Lemma new_rope_spec op1 op2 m : rope_ok op1 -> rope_ok op2 -> 0 < rlen op1 + rlen op2 <= JS_STRING_LEN_MAX -> (rlen op2 = 0 -> is_flat op1 = true) ->
  depth op1 <= JS_STRING_ROPE_MAX_DEPTH -> depth op2 <= JS_STRING_ROPE_MAX_DEPTH ->
  (rlen op1 + rlen op2 < SAFE \/ depth op1 < JS_STRING_ROPE_MAX_DEPTH /\ depth op2 < JS_STRING_ROPE_MAX_DEPTH) -> good m ->
  exists v m', js_new_string_rope td (S fuel) op1 op2 m = Some (Some v, m') /\ good m' /\ rope_ok v /\ rope_units v = rope_units op1 ++ rope_units op2 /\
    depth v <= JS_STRING_ROPE_MAX_DEPTH.
Proof.
  intros H1 H2 Hl He D1 D2 Hsafe Hm. destruct (decide (depth op1 < JS_STRING_ROPE_MAX_DEPTH /\ depth op2 < JS_STRING_ROPE_MAX_DEPTH)) as [[D1' D2']|Hd].
  - rewrite new_shallow by (done || lia). eexists _, _. split; [done|]. split; [by apply good_tl|]. split; [by apply mk_rope_ok|]. split; [done|]. cbn. lia.
  - destruct Hsafe as [Hsafe|?]; [|done]. destruct (rope_ok_len _ H1) as [_ L1], (rope_ok_len _ H2) as [_ L2].
    pose proof (rope_ok_depth _ H1). pose proof (rope_ok_depth _ H2). unfold JS_STRING_ROPE_MAX_DEPTH in *. cbn [js_new_string_rope].
    rewrite wrap_id by (unfold fits; lia). rewrite (wrap_id 8) by (unfold fits; lia). rewrite (proj2 (Z.ltb_ge JS_STRING_LEN_MAX _)) by lia.
    rewrite (proj2 (Z.ltb_lt JS_STRING_ROPE_MAX_DEPTH _)) by (unfold JS_STRING_ROPE_MAX_DEPTH; lia). mrun. rewrite js_malloc_good by done. cbn [negb fst snd mbind option_bind].
    fold (mk_rope op1 op2). destruct (rebalance_spec (mk_rope op1 op2) (tl m)) as (r & m' & E & Hg & Hr & Hu & Hdr); [by apply mk_rope_ok|done|by apply good_tl|].
    exists r, m'. split_and!; try done. lia.
Qed.
End Rebalancing.

(** ** Copies *)

Lemma high_byte x N : fits 16 x -> (forall i, 8 <= i < 16 -> Z.testbit N i = true) -> x & N = 0 -> fits 8 x.
Proof.
  intros Hx HN E. apply fits_testbit; [lia|unfold fits in Hx; lia|]. intros i Hi. destruct (Z.lt_ge_cases i 16) as [H|H]; [|by apply (testbit_fits 16)].
  assert (Hb : Z.testbit (x & N) i = false) by (rewrite E; apply Z.bits_0). rewrite Z.land_spec, HN, andb_true_r in Hb by lia. done.
Qed.

Lemma mask_shift x k N : 0 <= k -> (x << k) & N = 0 -> x & (N >> k) = 0.
Proof.
  intros Hk E. apply Z.bits_inj'. intros i Hi. rewrite Z.bits_0, Z.land_spec, Z.shiftr_spec by lia.
  assert (Hb : Z.testbit ((x << k) & N) (i + k) = false) by (rewrite E; apply Z.bits_0).
  rewrite Z.land_spec, Z.shiftl_spec in Hb by lia. by replace (i + k - k) with i in Hb by lia.
Qed.

Lemma high_bits N : forallb (fun i => Z.testbit N i) [8; 9; 10; 11; 12; 13; 14; 15] = true -> forall i, 8 <= i < 16 -> Z.testbit N i = true.
Proof. rewrite forallb_forall. intros H i Hi. apply H. cbn. lia. Qed.

Lemma narrowable_fits l : Forall (fits 16) l -> narrowable l = true -> Forall (fits 8) l.
Proof.
  assert (Hrest : forall l, Forall (fits 16) l -> forallb (fun c => c <=? 0xFF) l = true -> Forall (fits 8) l).
  { clear l. intros l Hl Hf. rewrite forallb_forall in Hf. rewrite List.Forall_forall in *. intros c Hc. specialize (Hf c Hc). specialize (Hl c Hc). unfold fits in *. lia. }
  revert l. fix IH 1. intros [|a [|b [|c [|d l]]]] Hl; [by apply Hrest..|]. cbn [narrowable].
  destruct (Z.eqb_spec ((a .| (b << 16) .| (c << 32) .| (d << 48)) & 0xFF00FF00FF00FF00) 0) as [E|E]; cbn [negb]; [|done].
  rewrite !Z.land_lor_distr_l in E. apply Z.lor_eq_0_iff in E as [E Ed]. apply Z.lor_eq_0_iff in E as [E Ec]. apply Z.lor_eq_0_iff in E as [Ea Eb].
  apply mask_shift in Eb, Ec, Ed; [|lia..]. repeat (apply Forall_cons in Hl as [? Hl]). intros Hn.
  constructor; [by eapply high_byte; [|apply high_bits|exact Ea]|]. constructor; [by eapply high_byte; [|apply high_bits|exact Eb]|].
  constructor; [by eapply high_byte; [|apply high_bits|exact Ec]|]. constructor; [by eapply high_byte; [|apply high_bits|exact Ed]|]. by apply IH.
Qed.

Lemma to8_id p : str_ok p -> js_str_narrowable p = true -> copy_units_to8 p = units p /\ Forall (fits 8) (units p).
Proof.
  intros (_ & _ & Hu) Hn. unfold copy_units_to8, js_str_narrowable in *. destruct (is_wide_char p); cbn [negb] in *; [|done].
  pose proof (narrowable_fits _ Hu Hn) as H8. split; [|done]. clear Hu Hn. induction H8 as [|c l Hc Hl IH]; [done|]. cbn. by rewrite IH, wrap_id.
Qed.

Lemma str_units16 p : str_ok p -> Forall (fits 16) (units p).
Proof. apply str_ok_units. Qed.

Lemma concat1_spec p1 p2 m : str_ok p1 -> str_ok p2 -> len p1 + len p2 <= JS_STRING_LEN_MAX -> good m ->
  exists p m', JS_ConcatString1 p1 p2 m = Some (Some p, m') /\ good m' /\ str_ok p /\ units p = units p1 ++ units p2.
Proof.
  intros H1 H2 Hl Hm. pose proof (str_ok_len _ H1). pose proof (str_ok_len _ H2). unfold JS_ConcatString1.
  rewrite (wrap_id 32) by (unfold fits; lia). rewrite (proj2 (Z.ltb_ge JS_STRING_LEN_MAX _)) by lia. set (aw := if _ && _ then _ else _).
  assert (Hn : aw = false -> js_str_narrowable p1 = true /\ js_str_narrowable p2 = true).
  { subst aw. unfold js_str_narrowable. destruct (is_wide_char p1), (is_wide_char p2), (is_slice p1), (is_slice p2); cbn; try done; destruct (narrowable (units p1)), (narrowable (units p2)); done. }
  clearbody aw. unfold js_alloc_string. rewrite (wrap_id 32) by (unfold fits; lia). rewrite (proj2 (Z.ltb_ge JS_STRING_LEN_MAX _)) by lia.
  mrun. rewrite js_malloc_good by done. cbn [negb fst snd mbind option_bind]. eexists _, _. split; [done|]. split; [by apply good_tl|].
  pose proof H1 as (E1 & _ & U1). pose proof H2 as (E2 & _ & U2). destruct aw; cbn [negb].
  - split; [|done]. unfold str_ok. cbn [len units is_wide_char]. unfold copy_str16. rewrite length_app. split_and!; [lia|done|]. apply Forall_app. split; by apply str_units16.
  - destruct (Hn eq_refl) as [N1 N2]. destruct (to8_id p1 H1 N1) as [C1 F1], (to8_id p2 H2 N2) as [C2 F2]. rewrite C1, C2.
    split; [|done]. unfold str_ok. cbn [len units is_wide_char]. rewrite length_app. split_and!; [lia|done|]. by apply Forall_app.
Qed.

Lemma in_place_spec i1 p1 p2 p : str_ok p1 -> str_ok p2 -> len p1 + len p2 <= JS_STRING_LEN_MAX -> JS_ConcatStringInPlace i1 p1 p2 = Some p ->
  str_ok p /\ units p = units p1 ++ units p2.
Proof.
  intros H1 H2 Hl. pose proof (str_ok_len _ H1). pose proof (str_ok_len _ H2). pose proof H1 as (E1 & _ & U1). pose proof H2 as (E2 & _ & U2).
  unfold JS_ConcatStringInPlace. destruct (Z.eqb_spec (len p2) 0) as [E0|E0].
  { intros [= <-]. assert (units p2 = []) as -> by (destruct (units p2); [done|cbn in E2; lia]). by rewrite app_nil_r. }
  case_if; [done|]. case_if; [done|]. rewrite (wrap_id 30) by (unfold fits; unfold JS_STRING_LEN_MAX in Hl; change ((1 << 30) - 1) with (2 ^ 30 - 1) in Hl; lia).
  assert (Hlong : is_wide_char p1 = true \/ is_wide_char p2 = false -> str_ok (mk_str (len p1 + len p2) (is_wide_char p1) (is_slice p1) (units p1 ++ units p2))).
  { intros Hw. unfold str_ok. cbn [len units is_wide_char]. rewrite length_app. split_and!; [lia|done|]. apply Forall_app. split; [done|].
    destruct (is_wide_char p1); [by apply str_units16|]. destruct Hw as [|Hw]; [done|]. by rewrite Hw in U2. }
  destruct (is_wide_char p1); [case_if; [|done]; intros [= <-]; auto|]. destruct (is_wide_char p2); cbn [negb]; [done|]. case_if; [|done]. intros [= <-]. auto.
Qed.

Lemma concat2_spec i1 p1 p2 m : str_ok p1 -> str_ok p2 -> len p1 + len p2 <= JS_STRING_LEN_MAX -> good m ->
  exists p m', JS_ConcatString2 i1 p1 p2 m = Some (Some p, m') /\ good m' /\ str_ok p /\ units p = units p1 ++ units p2.
Proof.
  intros H1 H2 Hl Hm. unfold JS_ConcatString2. destruct (JS_ConcatStringInPlace i1 p1 p2) as [p|] eqn:E; [|by apply concat1_spec].
  exists p, m. split; [done|]. split; [done|]. by apply (in_place_spec i1).
Qed.

(** ** Concatenation *)

Lemma units_len_eq p u : str_ok p -> units p = u -> len p = Z.of_nat (length u).
Proof. by intros (-> & _) ->. Qed.

Section Concat.
Context (td : M (option JSStringRope)) (fuel : nat) (i1 ir : str_info).

Lemma concat_spec op1 op2 m : rope_ok op1 -> rope_ok op2 -> rlen op1 + rlen op2 <= JS_STRING_LEN_MAX ->
  depth op1 <= JS_STRING_ROPE_MAX_DEPTH -> depth op2 <= JS_STRING_ROPE_MAX_DEPTH ->
  (rlen op1 + rlen op2 < SAFE \/ depth op1 < JS_STRING_ROPE_MAX_DEPTH /\ depth op2 < JS_STRING_ROPE_MAX_DEPTH) -> good m ->
  exists v m', JS_ConcatString td (S fuel) i1 ir op1 op2 m = Some (Some v, m') /\ good m' /\ rope_ok v /\
    rope_units v = rope_units op1 ++ rope_units op2 /\ depth v <= JS_STRING_ROPE_MAX_DEPTH.
Proof.
  intros H1 H2 Hl D1 D2 Hs Hm. destruct (rope_ok_len _ H1) as [E1 L1], (rope_ok_len _ H2) as [E2 L2]. unfold JS_ConcatString.
  destruct (is_flat op1 && (rlen op1 =? 0)) eqn:Z1.
  { exists op2, m. assert (rope_units op1 = []) as -> by (destruct (rope_units op1); [done|cbn in E1; bprop; lia]). done. }
  destruct (is_flat op2 && (rlen op2 =? 0)) eqn:Z2.
  { exists op1, m. assert (rope_units op2 = []) as -> by (destruct (rope_units op2); [done|cbn in E2; bprop; lia]). by rewrite app_nil_r. }
  assert (P1 : 0 < rlen op1) by (destruct op1; cbn in *; [bprop; lia|destruct H1 as (_ & _ & _ & ? & _); lia]).
  assert (P2 : 0 < rlen op2) by (destruct op2; cbn in *; [bprop; lia|destruct H2 as (_ & _ & _ & ? & _); lia]).
  assert (Hnew : exists v m', js_new_string_rope td (S fuel) op1 op2 m = Some (Some v, m') /\ good m' /\ rope_ok v /\
    rope_units v = rope_units op1 ++ rope_units op2 /\ depth v <= JS_STRING_ROPE_MAX_DEPTH) by (apply new_rope_spec; (done || lia)).
  destruct op1 as [p1|n1 w1 d1 l1 r1], op2 as [p2|n2 w2 d2 l2 r2]; [..|exact Hnew].
  - case_if; [|exact Hnew]. destruct (concat2_spec i1 p1 p2 m) as (p & m' & Ec & Hg & Hp & Hu); [done..|]. exists (Flat p), m'. mrun. rewrite Ec. cbn [mbind option_bind fst snd].
    split; [done|]. split_and!; [done|done|done|cbn; unfold JS_STRING_ROPE_MAX_DEPTH; lia].
  - destruct (short l2) as [pl|] eqn:Es; [|exact Hnew]. destruct l2 as [p|]; [|done]. cbn in Es. destruct (Z.leb_spec (len p) JS_STRING_ROPE_SHORT_LEN); [|done]. injection Es as ->.
    cbn [rope_ok] in H2. destruct H2 as (Hp & Hr & En & _ & _ & Dr & _). cbn [string_rope_get_len depth rope_units] in *. destruct (rope_ok_len _ Hr) as [Er Lr]. pose proof (str_ok_len _ Hp).
    destruct (concat2_spec i1 p1 pl m) as (q & m1 & E & Hg & Hq & Hu); [done|done|lia|done|]. mrun. rewrite E. cbn [mbind option_bind fst snd].
    pose proof (units_len_eq q _ Hq Hu) as Lq. rewrite length_app in Lq. pose proof Hp as (Ep & _). pose proof H1 as (Ep1 & _). unfold JS_STRING_ROPE_MAX_DEPTH in *.
    destruct (new_rope_spec td fuel (Flat q) r2 m1) as (v & m2 & En2 & Hg2 & Hv & Huv & Dv); unfold JS_STRING_ROPE_MAX_DEPTH; cbn [string_rope_get_len depth rope_ok is_flat]; try done; try lia.
    exists v, m2. split_and!; try done. rewrite Huv. cbn [rope_units]. rewrite Hu. by rewrite app_assoc.
  - destruct (len p2 <=? JS_STRING_ROPE_SHORT_LEN) eqn:Ep2; [|exact Hnew]. destruct (short r1) as [pr|] eqn:Es; [|exact Hnew].
    destruct r1 as [p|]; [|done]. cbn in Es. destruct (Z.leb_spec (len p) JS_STRING_ROPE_SHORT_LEN); [|done]. injection Es as ->.
    cbn [rope_ok] in H1. destruct H1 as (Hl1 & Hp & En & _ & Dl & _). cbn [string_rope_get_len depth rope_units] in *. destruct (rope_ok_len _ Hl1) as [Er Lr]. pose proof (str_ok_len _ Hp).
    destruct (concat2_spec (JS_DupValue ir) pr p2 m) as (q & m1 & E & Hg & Hq & Hu); [done|done|lia|done|]. mrun. rewrite E. cbn [mbind option_bind fst snd].
    pose proof (units_len_eq q _ Hq Hu) as Lq. rewrite length_app in Lq. pose proof Hp as (Ep & _). pose proof H2 as (Ep2' & _). unfold JS_STRING_ROPE_MAX_DEPTH in *.
    destruct (new_rope_spec td fuel l1 (Flat q) m1) as (v & m2 & En2 & Hg2 & Hv & Huv & Dv); unfold JS_STRING_ROPE_MAX_DEPTH; cbn [string_rope_get_len depth rope_ok is_flat]; try done; try lia.
    exists v, m2. split_and!; try done. rewrite Huv. cbn [rope_units]. rewrite Hu. by rewrite app_assoc.
Qed.
End Concat.

(** ** Flattening *)

(** Bytes never widen a buffer. *)
Lemma write8_narrow s p m b s' m' : string_buffer_write8 s p m = Some ((b, s'), m') -> sb_wide s' = sb_wide s.
Proof.
  unfold string_buffer_write8, unless, string_buffer_realloc, store. mrun. destruct (size s <? _); cbn [fst snd mbind option_bind].
  - destruct (error_status s); cbn [fst snd negb]; [by intros [= <- <- <-]|]. destruct (JS_STRING_LEN_MAX <? _); cbn [fst snd negb]; [by intros [= <- <- <-]|].
    rewrite andb_false_r. destruct (hd (Some 0) m) as [slack|]; cbn [fst snd negb mbind option_bind]; [|by intros [= <- <- <-]].
    destruct (_ <=? _); [by intros [= <- <- <-]|done].
  - cbn [negb]. destruct (_ <=? _); [by intros [= <- <- <-]|done].
Qed.

Lemma concat_narrow v s m b s' m' : rope_ok v -> wide v = false -> string_buffer_concat_value s v m = Some ((b, s'), m') -> sb_wide s' = sb_wide s.
Proof.
  revert s m b s' m'. induction v as [p|n w d l IHl r IHr]; intros s m b s' m' Hv Hw; cbn [string_buffer_concat_value wide] in *.
  - destruct (error_status s); [by intros [= <- <- <-]|]. unfold string_buffer_concat. destruct (_ <=? _); [by intros [= <- <- <-]|]. destruct (aslice _ _ _); [|done]. rewrite Hw. apply write8_narrow.
  - cbn [rope_ok] in Hv. destruct Hv as (Hl & Hr & _ & _ & _ & _ & Hww & _). destruct (wide l) eqn:Wl, (wide r) eqn:Wr; try (specialize (Hww eq_refl); congruence).
    destruct (error_status s); [by intros [= <- <- <-]|]. unfold unless. mrun. destruct (string_buffer_concat_value s l m) as [[[b1 s1] m1]|] eqn:E; cbn [fst snd mbind option_bind]; [|done].
    apply IHl in E as Es; [|done|done]. destruct b1; cbn [negb]; [|by intros [= <- <- <-]]. intros E2. apply IHr in E2; [|done|done]. congruence.
Qed.

Lemma end_wide s m p m' : sb_len s <> 0 -> string_buffer_end s m = Some (Some p, m') -> is_wide_char p = sb_wide s.
Proof.
  intros Hn. unfold string_buffer_end. destruct (error_status s); [done|]. rewrite (proj2 (Z.eqb_neq _ _)) by done. mrun.
  destruct (_ <? _); cbn [fst snd mbind option_bind]; by intros [= <- <-].
Qed.

Lemma linearize_spec shared n w d l r m : rope_ok (Rope n w d l r) -> mem_ok m ->
  exists ret v' m', js_linearize_string_rope shared (Rope n w d l r) m = Some ((ret, v'), m') /\ rope_ok v' /\ rope_units v' = rope_units (Rope n w d l r) /\ depth v' = d /\
    match ret with Some v => is_flat v = true /\ rope_ok v /\ rope_units v = rope_units (Rope n w d l r) | None => ~ good m end.
Proof.
  intros Hv Hm. pose proof Hv as (Hl & Hr & En & Hn & Dl & _ & _ & Hempty). unfold js_linearize_string_rope. destruct (is_flat r && (rlen r =? 0)) eqn:Er.
  { apply andb_true_iff in Er as [_ Er]. apply Z.eqb_eq in Er. eexists _, _, m. split; [done|]. split_and!; try done; [by apply Hempty|].
    destruct (rope_ok_len _ Hr) as [Er' _]. cbn. assert (rope_units r = []) as -> by (destruct (rope_units r); [done|cbn in Er'; lia]). by rewrite app_nil_r. }
  destruct (rope_ok_len _ Hv) as [Elen _]. cbn [string_rope_get_len] in Elen.
  destruct (init_spec n w m ltac:(lia) Hm) as (s0 & m0 & b & E0 & H0 & Ht0 & Hm0 & Hg0).
  assert (Hw0 : sb_wide s0 = w /\ error_status s0 = negb b).
  { revert E0. unfold string_buffer_init2. mrun. destruct (js_alloc_string n m) as [[[] m1]|]; cbn; [| |done]; by intros [= <- <- <-]. }
  mrun. rewrite E0. cbn [fst snd mbind option_bind]. destruct b; cbn [negb] in *.
  2: { eexists None, _, m0. split; [done|]. split_and!; try done. intros Hg. destruct (Hg0 Hg) as [_ He]. destruct Hw0 as [_ Hw0]. congruence. }
  destruct (concat_value_appends (Rope n w d l r) s0 H0 Hv ltac:(unfold sb_len; rewrite Ht0, <- Elen; change JS_STRING_LEN_MAX with (2 ^ 30 - 1) in Hn; cbn [length]; lia) m0 Hm0) as (b & s1 & m1 & E1 & H1 & Hm1 & Hr1 & Hg1). mrun. rewrite E1. cbn [fst snd mbind option_bind].
  destruct b; cbn [negb].
  2: { eexists None, _, m1. split; [done|]. split_and!; try done. intros Hg. destruct (Hg0 Hg) as [Hgm He]. destruct (Hg1 Hgm) as [_ Hb]. unfold sb_len in Hb. rewrite Ht0 in Hb. cbn [length] in Hb.
       by specialize (Hb He ltac:(lia)). }
  destruct Hr1 as [Et1 Ee1]. rewrite Ht0 in Et1. cbn [app] in Et1. destruct (end_spec s1 m1 H1) as (ret & m2 & E2 & Hend). rewrite E2. cbn [fst snd mbind option_bind].
  assert (Hlen : sb_len s1 = n) by (unfold sb_len; rewrite Et1; lia).
  destruct ret as [p|].
  2: { rewrite Ee1 in Hend. destruct Hw0 as [_ Hw0]. congruence. }
  destruct Hend as [_ Hp]. destruct Hp as [Hp Hu]; [lia|]. rewrite Et1 in Hu. pose proof (units_len_eq p _ Hp Hu) as Lp.
  eexists (Some (Flat p)), _, m2. split; [done|]. destruct shared; [|by split_and!]. split_and!; try done.
  - cbn [rope_ok string_rope_get_len depth wide is_flat]. pose proof (rope_ok_depth _ Hl). split_and!; try done; try (cbn; lia).
    intros Hw. destruct w; [done|]. rewrite orb_false_r in Hw. destruct Hw0 as [Hw0 _].
    rewrite (end_wide s1 m1 p m2) in Hw by (done || lia). rewrite (concat_narrow _ _ _ _ _ _ Hv eq_refl E1) in Hw. congruence.
  - cbn [rope_units units empty_string]. by rewrite Hu, app_nil_r.
Qed.

(** ** Rebalancing without end *)

Section Again.
(** The flat strings one by one. *)
Fixpoint rec_leaves (new : JSStringRope -> JSStringRope -> M (option JSStringRope)) (bs : buckets) (l : list JSString) : M buckets :=
  match l with [] => mret bs | p :: l => r ← rebalance_leaf new bs p; rec_leaves new r.1 l end.

Lemma rec_leaves_app new l1 l2 bs m : rec_leaves new bs (l1 ++ l2) m = (r ← rec_leaves new bs l1 m; rec_leaves new r.1 l2 r.2).
Proof.
  revert bs m. induction l1 as [|p l1 IH]; intros bs m; [done|]. cbn [app rec_leaves]. mrun.
  destruct (rebalance_leaf new bs p m) as [[r m']|]; cbn [fst snd mbind option_bind]; [apply IH|done].
Qed.

Lemma rec_by_leaves new v bs m : match v with
  | Flat p => True
  | Rope _ _ _ _ _ => js_rebalancee_string_rope_rec new bs v m = (r ← rec_leaves new bs (leaves v) m; Some ((r.1, true), r.2))
  end /\ (r ← js_rebalancee_string_rope_rec new bs v m; Some (r.1.1, r.2)) = rec_leaves new bs (leaves v) m.
Proof.
  revert bs m. induction v as [p|n w d l IHl r IHr]; intros bs m.
  - split; [done|]. cbn [leaves rec_leaves js_rebalancee_string_rope_rec]. mrun. by destruct (rebalance_leaf new bs p m) as [[r m']|].
  - assert (E : js_rebalancee_string_rope_rec new bs (Rope n w d l r) m = (r ← rec_leaves new bs (leaves (Rope n w d l r)) m; Some ((r.1, true), r.2))).
    { cbn [leaves js_rebalancee_string_rope_rec]. rewrite rec_leaves_app. destruct (IHl bs m) as [_ <-]. mrun.
      destruct (js_rebalancee_string_rope_rec new bs l m) as [[r1 m1]|]; cbn [fst snd mbind option_bind]; [|done]. destruct (IHr r1.1 m1) as [_ <-].
      by destruct (js_rebalancee_string_rope_rec new r1.1 r m1) as [[r2 m2]|]. }
    split; [exact E|]. rewrite E. by destruct (rec_leaves new bs (leaves (Rope n w d l r)) m) as [[r1 m1]|].
Qed.

(** A function that does what another does, as far as that goes. *)
Definition agrees (new0 new : JSStringRope -> JSStringRope -> M (option JSStringRope)) : Prop :=
  forall a b m r, new0 a b m = Some r -> new a b m = Some r.

Context (new0 new : JSStringRope -> JSStringRope -> M (option JSStringRope)).
Hypothesis Hext : agrees new0 new.

Lemma gather_extends f n i a bs m r : gather new0 f n i a bs m = Some r -> gather new f n i a bs m = Some r.
Proof.
  revert i a bs m. induction f as [|f IH]; intros i a bs m; [done|]. cbn [gather]. destruct (rope_bucket_len !! S i); [|done]. case_if; [|done].
  destruct (bs !! i) as [[b|]|]; [|apply IH|done]. destruct a as [a|]; [|apply IH]. mrun. destruct (new0 b a m) as [[r0 m0]|] eqn:E0; cbn [fst snd mbind option_bind]; [|done].
  rewrite (Hext _ _ _ _ E0). cbn [fst snd mbind option_bind]. destruct r0; [apply IH|done].
Qed.
Lemma settle_extends f i a bs m r : settle new0 f i a bs m = Some r -> settle new f i a bs m = Some r.
Proof.
  revert i a bs m. induction f as [|f IH]; intros i a bs m; [done|]. cbn [settle]. destruct (bs !! i) as [[b|]|]; [|done|done]. mrun.
  destruct (new0 b a m) as [[r0 m0]|] eqn:E0; cbn [fst snd mbind option_bind]; [|done]. rewrite (Hext _ _ _ _ E0). cbn [fst snd mbind option_bind]. destruct r0; [apply IH|done].
Qed.
Lemma leaf_extends bs p m r : rebalance_leaf new0 bs p m = Some r -> rebalance_leaf new bs p m = Some r.
Proof.
  unfold rebalance_leaf. case_if; [done|]. mrun. destruct (gather new0 ROPE_N_BUCKETS (len p) 0 None bs m) as [[[bs1 g] m1]|] eqn:Eg; cbn [fst snd mbind option_bind]; [|done].
  rewrite (gather_extends _ _ _ _ _ _ _ Eg). cbn [fst snd mbind option_bind]. destruct g as [[i [a|]]|]; [|cbn [fst snd mbind option_bind]; apply settle_extends|done].
  destruct (new0 a (Flat p) m1) as [[r0 m0]|] eqn:E0; cbn [fst snd mbind option_bind]; [|done]. rewrite (Hext _ _ _ _ E0). cbn [fst snd mbind option_bind]. destruct r0; [apply settle_extends|done].
Qed.
Lemma leaves_extends l bs m r : rec_leaves new0 bs l m = Some r -> rec_leaves new bs l m = Some r.
Proof.
  revert bs m. induction l as [|p l IH]; intros bs m; [done|]. cbn [rec_leaves]. mrun. destruct (rebalance_leaf new0 bs p m) as [[r0 m0]|] eqn:E0; cbn [fst snd mbind option_bind]; [|done].
  rewrite (leaf_extends _ _ _ _ E0). cbn [fst snd mbind option_bind]. apply IH.
Qed.
End Again.

(** js_new_string_rope where nothing is to be rebalanced. *)
Definition new_flat (op1 op2 : JSStringRope) : M (option JSStringRope) := fun m =>
  if JS_STRING_ROPE_MAX_DEPTH <? u8 (Z.max (depth op1) (depth op2) + 1) then None else js_new_string_rope fault 0 op1 op2 m.

Lemma new_flat_extends td fuel : agrees new_flat (js_new_string_rope td fuel).
Proof.
  intros a b m r. unfold new_flat. destruct (JS_STRING_ROPE_MAX_DEPTH <? u8 (Z.max (depth a) (depth b) + 1)) eqn:E; [done|].
  destruct fuel; cbn [js_new_string_rope]; rewrite E; done.
Qed.

(** The flat strings: growing ones, each of the length of the next bucket, and a single unit after each. *)
Definition bad_len : list Z := concat (map (fun i => [blen i; 1]) (seq 1 31)).

(** The innermost call answers with an exception. *)
Definition throw : M (option JSStringRope) := mret None.

Section Bad.
(** Any text in them. *)
Variable u : nat -> list Z.

Definition bad_leaf (i : nat) : JSString := mk_str (nth i bad_len 0) false true (u i).
Definition bad_leaves : list JSString := map bad_leaf (seq 0 61).
Definition bad_last : JSString := bad_leaf 61.

(** In the end a rope of depth 60 is in the bucket 31 and the last string in the first. *)
Definition bad_buckets (a : JSStringRope) : buckets := <[31%nat := Some a]> (<[0%nat := Some (Flat bad_last)]> (replicate ROPE_N_BUCKETS None)).

Lemma bad_gathered : exists a, rec_leaves new_flat (replicate ROPE_N_BUCKETS None) (bad_leaves ++ [bad_last]) [] = Some (bad_buckets a, []) /\
  leaves a = bad_leaves /\ depth a = 60 /\ rlen a + len bad_last <= JS_STRING_LEN_MAX /\ 0 <= rlen a.
Proof.
  eexists _. split; [vm_compute; reflexivity|]. split; [vm_compute; reflexivity|]. split; [vm_compute; reflexivity|]. split; vm_compute; discriminate.
Qed.

(** A rope of all of them. *)
Definition bad (v : JSStringRope) : Prop := leaves v = bad_leaves ++ [bad_last].

Lemma bad_rope_node p : ~ bad (Flat p).
Proof.
  unfold bad. cbn [leaves]. intros E. apply (f_equal length) in E. rewrite length_app in E. unfold bad_leaves in E. rewrite length_map, length_seq in E. cbn [length] in E. lia.
Qed.

Lemma new_again td fuel a : leaves a = bad_leaves -> depth a = 60 -> rlen a + len bad_last <= JS_STRING_LEN_MAX -> 0 <= rlen a ->
  exists v, bad v /\ js_new_string_rope td fuel a (Flat bad_last) [] = match fuel with O => td [] | S fuel => js_rebalancee_string_rope (js_new_string_rope td fuel) v [] end.
Proof.
  intros Ha Hd Hl Hp. exists (mk_rope a (Flat bad_last)). split; [unfold bad; cbn [mk_rope leaves]; by rewrite Ha|].
  assert (0 <= len bad_last) by (vm_compute; discriminate). assert (JS_STRING_LEN_MAX = 2 ^ 30 - 1) by done. unfold mk_rope. generalize dependent bad_last. intros p Hl Hn. rewrite Hd.
  destruct fuel; cbn [js_new_string_rope string_rope_get_len depth]; rewrite Hd, (wrap_id 32) by (unfold fits; lia); rewrite (proj2 (Z.ltb_ge JS_STRING_LEN_MAX _)) by lia; reflexivity.
Qed.

Lemma join_two new a m : join new (bad_buckets a) None m =
  (x ← new a (Flat bad_last) m; match x.1 with None => Some (None, x.2) | Some y => Some (Some (Some y), x.2) end).
Proof.
  unfold bad_buckets, ROPE_N_BUCKETS. generalize bad_last. intros p. cbn [replicate insert list_insert join]. mrun. by destruct (new a (Flat p) m) as [[[y|] m']|].
Qed.

(** One rebalancing ends in another one. *)
Lemma bad_again td fuel v : bad v -> exists v', bad v' /\
  let r := match fuel with O => td [] | S fuel => js_rebalancee_string_rope (js_new_string_rope td fuel) v' [] end in
  (r = None -> js_rebalancee_string_rope (js_new_string_rope td fuel) v [] = None) /\
  (r = Some (None, []) -> js_rebalancee_string_rope (js_new_string_rope td fuel) v [] = Some (None, [])).
Proof.
  intros Hv. destruct bad_gathered as (a & E1 & Ha & Hd & Hl & Hp). destruct (new_again td fuel a Ha Hd Hl Hp) as (v' & Hv' & En). exists v'. split; [done|]. intros r.
  assert (Hrec : js_rebalancee_string_rope_rec (js_new_string_rope td fuel) (replicate ROPE_N_BUCKETS None) v [] = Some ((bad_buckets a, true), [])).
  { destruct (rec_by_leaves (js_new_string_rope td fuel) v (replicate ROPE_N_BUCKETS None) []) as [H _]. destruct v as [p|]; [by destruct (bad_rope_node p)|].
    rewrite H, Hv, (leaves_extends _ _ (new_flat_extends td fuel) _ _ _ _ E1). reflexivity. }
  unfold js_rebalancee_string_rope. mrun. rewrite Hrec. cbn [fst snd negb mbind option_bind].
  pose proof (join_two (js_new_string_rope td fuel) a []) as Hj.
  mrun. rewrite Hj, En. fold r. split; by intros ->.
Qed.

Lemma bad_forever fuel v : bad v -> js_rebalancee_string_rope (js_new_string_rope fault fuel) v [] = None /\
  js_rebalancee_string_rope (js_new_string_rope throw fuel) v [] = Some (None, []).
Proof.
  revert v. induction fuel as [|fuel IH]; intros v Hv.
  - split; [destruct (bad_again fault 0 v Hv) as (v' & _ & H & _)|destruct (bad_again throw 0 v Hv) as (v' & _ & _ & H)]; exact (H eq_refl).
  - split.
    + destruct (bad_again fault (S fuel) v Hv) as (v' & Hv' & H & _). exact (H (proj1 (IH v' Hv'))).
    + destruct (bad_again throw (S fuel) v Hv) as (v' & Hv' & _ & H). exact (H (proj2 (IH v' Hv'))).
Qed.

(** Such a rope of depth 60, to which another string is appended. *)
Definition bad_rope : JSStringRope :=
  fold_left (fun v p => mk_rope v (Flat p)) (drop 1 bad_leaves) (Flat (bad_leaf 0)).
End Bad.

Lemma fold_rope_ok l v : rope_ok v -> Forall (fun p => str_ok p /\ 0 < len p) l -> 0 < rlen v -> rlen v + fold_right (fun p n => len p + n) 0 l <= JS_STRING_LEN_MAX ->
  rope_ok (fold_left (fun v p => mk_rope v (Flat p)) l v) /\ depth (fold_left (fun v p => mk_rope v (Flat p)) l v) = depth v + Z.of_nat (length l) /\
  leaves (fold_left (fun v p => mk_rope v (Flat p)) l v) = leaves v ++ l.
Proof.
  revert v. induction l as [|p l IH]; intros v Hv Hl Hp Hs; cbn [fold_left fold_right length] in *; [split_and!; [done|lia|by rewrite app_nil_r]|].
  apply Forall_cons in Hl as [[Hok Hpos] Hl]. assert (Hsum : 0 <= fold_right (fun p n => len p + n) 0 l) by (clear -Hl; induction Hl as [|q l [_ ?] _ ?]; cbn; lia).
  pose proof (rope_ok_depth _ Hv). destruct (IH (mk_rope v (Flat p))) as (H1 & H2 & H3); [apply mk_rope_ok; cbn; (done || lia)|done|cbn; lia|cbn; lia|].
  split_and!; [done|rewrite H2; cbn [mk_rope depth]; lia|]. rewrite H3. cbn [mk_rope leaves]. by rewrite <- app_assoc.
Qed.

Lemma bad_rope_ok u : (forall i, (i < 62)%nat -> str_ok (bad_leaf u i)) -> rope_ok (bad_rope u) /\ depth (bad_rope u) = 60 /\ leaves (bad_rope u) = bad_leaves u.
Proof.
  intros Hu. assert (Hpos : forall i, (i < 62)%nat -> 0 < len (bad_leaf u i)).
  { intros i Hi. assert (H : forallb (fun i => 0 <? nth i bad_len 0) (seq 0 62) = true) by reflexivity. rewrite forallb_forall in H. specialize (H i ltac:(apply in_seq; lia)). cbn [bad_leaf len]. lia. }
  destruct (fold_rope_ok (drop 1 (bad_leaves u)) (Flat (bad_leaf u 0))) as (H1 & H2 & H3).
  - apply Hu. lia.
  - apply Forall_drop. unfold bad_leaves. apply List.Forall_forall. intros p Hp. apply in_map_iff in Hp as (i & <- & Hi). apply in_seq in Hi. split; [apply Hu; lia|apply Hpos; lia].
  - vm_compute. reflexivity.
  - vm_compute. discriminate.
  - split; [exact H1|]. split; [rewrite (H2 : depth (bad_rope u) = _); vm_compute; reflexivity|]. rewrite (H3 : leaves (bad_rope u) = _). reflexivity.
Qed.

Module RopeProps_props.

(** C5. Concatenation keeps the text: of two well-formed strings, flat or ropes,
    bytes or 16-bit units, slices or not, whether a copy is made, the first one
    is extended in place, a rope is made or a rope is rebalanced, JS_ConcatString
    gives a well-formed string whose text is the one text after the other, of
    depth at most 60.  Memory suffices, the text is no longer than a string can be,
    and either it has less than 2178309 units or both strings have depths below
    60, so that nothing is rebalanced; then no rebalancing runs inside another. *)
Theorem concat_string_exact td fuel i1 ir op1 op2 m :
  rope_ok op1 -> rope_ok op2 -> string_rope_get_len op1 + string_rope_get_len op2 <= JS_STRING_LEN_MAX ->
  depth op1 <= JS_STRING_ROPE_MAX_DEPTH -> depth op2 <= JS_STRING_ROPE_MAX_DEPTH ->
  (string_rope_get_len op1 + string_rope_get_len op2 < SAFE \/ depth op1 < JS_STRING_ROPE_MAX_DEPTH /\ depth op2 < JS_STRING_ROPE_MAX_DEPTH) -> good m ->
  exists v m', JS_ConcatString td (S fuel) i1 ir op1 op2 m = Some (Some v, m') /\ rope_ok v /\
    rope_units v = rope_units op1 ++ rope_units op2 /\ depth v <= JS_STRING_ROPE_MAX_DEPTH.
Proof.
  intros H1 H2 Hl D1 D2 Hs Hm. destruct (concat_spec td fuel i1 ir op1 op2 m) as (v & m' & E & _ & R); [done..|]. by exists v, m'.
Qed.

(** A rope of 61 strings and depth 60, one unit each. *)
Definition unit_leaf : JSString := mk_str 1 false false [97].
Definition chain60 : JSStringRope := fold_left (fun v p => mk_rope v (Flat p)) (replicate 60 unit_leaf) (Flat unit_leaf).

Lemma unit_leaf_ok : str_ok unit_leaf.
Proof. split_and!; [done|done|]. constructor; [unfold fits; cbn; lia|constructor]. Qed.

Lemma chain60_ok : rope_ok chain60.
Proof.
  apply (fold_rope_ok (replicate 60 unit_leaf) (Flat unit_leaf)); [apply unit_leaf_ok|apply Forall_replicate; split; [apply unit_leaf_ok|done]|done|vm_compute; discriminate].
Qed.

(** A string of 513 euro signs, too long to be copied. *)
Definition wide_leaf : JSString := mk_str 513 true false (replicate 513 8364).
Lemma wide_leaf_ok : str_ok wide_leaf.
Proof. split_and!; [done|done|]. apply Forall_replicate. unfold fits; cbn; lia. Qed.

Lemma concat_string_exact_witness : exists v m', JS_ConcatString fault 1 (mk_info 1 0 64) (mk_info 1 0 64) chain60 (Flat wide_leaf) [] = Some (Some v, m') /\ rope_ok v /\
  rope_units v = rope_units chain60 ++ rope_units (Flat wide_leaf) /\ depth v <= JS_STRING_ROPE_MAX_DEPTH.
Proof.
  apply (concat_string_exact fault 0 (mk_info 1 0 64) (mk_info 1 0 64) chain60 (Flat wide_leaf) []).
  - exact chain60_ok.
  - exact wide_leaf_ok.
  - vm_compute; discriminate.
  - vm_compute; discriminate.
  - vm_compute; discriminate.
  - left. vm_compute. reflexivity.
  - constructor.
Defined.

(** C21. Rebalancing need not end.  There are well-formed ropes of depth 60 with
    62 flat strings, about nine million units long, such that appending one more
    string leads to a rebalancing that makes a rope of depth 61 of the same
    62 strings, which is rebalanced in turn, and so on: however many calls may be
    nested, the innermost one is reached, and its answer, an exception here, is
    the answer. *)
Theorem rope_rebalance_diverges u fuel :
  (forall i, (i < 62)%nat -> str_ok (bad_leaf u i)) ->
  rope_ok (bad_rope u) /\ depth (bad_rope u) = JS_STRING_ROPE_MAX_DEPTH /\ str_ok (bad_last u) /\
  js_new_string_rope fault fuel (bad_rope u) (Flat (bad_last u)) [] = None /\
  js_new_string_rope throw fuel (bad_rope u) (Flat (bad_last u)) [] = Some (None, []).
Proof.
  intros Hu. destruct (bad_rope_ok u Hu) as (H1 & H2 & H3). split; [done|]. split; [done|]. split; [apply Hu; lia|].
  assert (Hl : string_rope_get_len (bad_rope u) + len (bad_last u) <= JS_STRING_LEN_MAX) by (vm_compute; discriminate).
  assert (Hp : 0 <= string_rope_get_len (bad_rope u)) by (vm_compute; discriminate).
  split; [destruct (new_again u fault fuel (bad_rope u) H3 H2 Hl Hp) as (v & Hv & ->)|destruct (new_again u throw fuel (bad_rope u) H3 H2 Hl Hp) as (v & Hv & ->)];
    (destruct fuel; [reflexivity|apply (bad_forever u fuel v Hv)]).
Qed.

(** Any text will do, say all of it 'a'. *)
Definition letters (i : nat) : list Z := replicate (Z.to_nat (nth i bad_len 0)) 97.

Lemma letters_ok i : (i < 62)%nat -> str_ok (bad_leaf letters i).
Proof.
  intros Hi. assert (H : forallb (fun i => (0 <? nth i bad_len 0) && (nth i bad_len 0 <=? JS_STRING_LEN_MAX)) (seq 0 62) = true) by reflexivity.
  rewrite forallb_forall in H. specialize (H i ltac:(apply in_seq; lia)). bprop. unfold bad_leaf, letters, str_ok. cbn [len units is_wide_char].
  generalize dependent (nth i bad_len 0). intros n Hn Hm. rewrite length_replicate. split_and!; [lia|lia|]. apply Forall_replicate. unfold fits. lia.
Qed.

Lemma rope_rebalance_diverges_witness : js_new_string_rope fault 1000 (bad_rope letters) (Flat (bad_last letters)) [] = None.
Proof. apply (rope_rebalance_diverges letters 1000 letters_ok). Defined.

(** When memory fails while a rope is rebalanced, js_rebalancee_string_rope_rec
    does not pass the error on: the result is a string that lacks a part of the text. *)
Example rebalance_loses_text : option_map (fun r => length (rope_units (default chain60 r.1))) (js_new_string_rope fault 1 chain60 (Flat unit_leaf) [Some 0; None]) = Some 60%nat /\
  length (rope_units chain60 ++ units unit_leaf) = 62%nat.
Proof. vm_compute. done. Qed.

(** A string that is extended in place can become longer than its length field can say. *)
Lemma in_place_overflow t : Z.of_nat (length t) = JS_STRING_LEN_MAX ->
  len <$> JS_ConcatStringInPlace (mk_info 1 0 (2 ^ 31)) (mk_str JS_STRING_LEN_MAX false false t) unit_leaf = Some 0.
Proof. reflexivity. Qed.

(** C36. js_linearize_string_rope gives a flat string with the text of the rope,
    or an exception when memory is short; the rope, which others may hold, is
    still well-formed, of the same depth and the same text, also when its two
    parts were replaced by the flat string and the empty one. *)
Theorem linearize_rope_exact shared n w d l r m : rope_ok (Rope n w d l r) -> mem_ok m ->
  exists ret v' m', js_linearize_string_rope shared (Rope n w d l r) m = Some ((ret, v'), m') /\
    rope_ok v' /\ rope_units v' = rope_units (Rope n w d l r) /\ depth v' = d /\
    match ret with Some v => is_flat v = true /\ rope_ok v /\ rope_units v = rope_units (Rope n w d l r) | None => ~ good m end.
Proof. apply linearize_spec. Qed.

Lemma linearize_rope_exact_witness : exists ret v' m', js_linearize_string_rope true (mk_rope chain60 (Flat wide_leaf)) [Some 0; None] = Some ((ret, v'), m') /\
  rope_ok v' /\ rope_units v' = rope_units (mk_rope chain60 (Flat wide_leaf)) /\ depth v' = 61 /\
  match ret with Some v => is_flat v = true /\ rope_ok v /\ rope_units v = rope_units (mk_rope chain60 (Flat wide_leaf)) | None => ~ good [Some 0; None] end.
Proof.
  apply (linearize_rope_exact true _ _ 61 chain60 (Flat wide_leaf) [Some 0; None]).
  - apply mk_rope_ok; [exact chain60_ok|exact wide_leaf_ok|split; vm_compute; [reflexivity|discriminate]|vm_compute; discriminate].
  - repeat constructor; vm_compute; discriminate.
Defined.

End RopeProps_props.
