(* ===== verification/Atoms.v ===== *)
(** * Atoms

    The names of properties and the symbols are atoms: numbers that index a table
    of strings in which, among the names and the registered symbols, every text
    is there once.  This file models the table of src/value/atoms.inc.c: its
    hash chains, which run through the fields hash_next, and their growth, the
    change to the keyed hash when a chain is long (js_atom_hash_harden), the list
    of free entries, __JS_NewAtom, __JS_FindAtom, JS_FreeAtomStruct, the
    predefined atoms of JS_InitAtoms, and js_free_string of
    src/mm/js_malloc.inc.c.

    A block of the heap is a string; an entry of atom_array is a block or the
    next free entry.  The hashes are those of [StrHash].  The answers of the
    allocator are a list in the state.  The weak references that keep the block
    of a freed symbol are not modelled.  [None] is a failed assertion or an access
    outside an array or to a freed block. *)
From Stdlib Require Import ZArith Lia List.
From stdpp Require Import base numbers option list gmap.
From S2P Require Import Prelude Strings StrHash AtomNames.

(** ** State *)

Definition JS_ATOM_TYPE_STRING : Z := 1.
Definition JS_ATOM_TYPE_GLOBAL_SYMBOL : Z := 2.
Definition JS_ATOM_TYPE_SYMBOL : Z := 3.
Definition JS_ATOM_TYPE_PRIVATE : Z := 4.
Definition JS_ATOM_HASH_MASK : Z := (1 << 30) - 1.
Definition JS_ATOM_HASH_PRIVATE : Z := JS_ATOM_HASH_MASK.
Definition JS_ATOM_TAG_INT : Z := 1 << 31.
Definition JS_ATOM_MAX_INT : Z := JS_ATOM_TAG_INT - 1.
Definition JS_ATOM_MAX : Z := (1 << 30) - 1.
Definition JS_HASH_CHAIN_FLOOD : Z := 64.
Definition JS_ATOM_NULL : Z := 0.
Definition JS_ATOM_END : Z := 265.
Definition JS_ATOM_Private_brand : Z := 249.
Definition JS_ATOM_Symbol_toPrimitive : Z := 250.
Definition JS_ATOM_COUNT_RESIZE (n : Z) : Z := n * 2.

Abbreviation ptr := positive.

(** A block with a string; [parent] of a slice is the string it is part of. *)
Record JSAtomStruct := mk_atom { str : JSString; hash : Z; atom_type : Z; hash_next : Z; ref_count : Z; parent : option ptr }.

(** An entry of atom_array: atom_set_free tags the next free entry. *)
Inductive slot := Free (next : Z) | Ptr (p : ptr).

Record atom_rt := mk_art {
  atom_hash : list Z; atom_count : Z; atom_count_resize : Z; atom_array : list slot; atom_free_index : Z;
  blocks : gmap ptr JSAtomStruct; keys : hash_rt; amem : list bool }.

Definition atom_hash_size (rt : atom_rt) : Z := Z.of_nat (length (atom_hash rt)).
Definition atom_size (rt : atom_rt) : Z := Z.of_nat (length (atom_array rt)).

Definition set_table (rt : atom_rt) (t : list Z) (b : gmap ptr JSAtomStruct) : atom_rt :=
  mk_art t (atom_count rt) (atom_count_resize rt) (atom_array rt) (atom_free_index rt) b (keys rt) (amem rt).
Definition set_blocks (rt : atom_rt) (b : gmap ptr JSAtomStruct) : atom_rt := set_table rt (atom_hash rt) b.
Definition set_array (rt : atom_rt) (a : list slot) (free count : Z) : atom_rt :=
  mk_art (atom_hash rt) count (atom_count_resize rt) a free (blocks rt) (keys rt) (amem rt).
Definition js_malloc_rt (rt : atom_rt) : bool * atom_rt :=
  (hd true (amem rt), mk_art (atom_hash rt) (atom_count rt) (atom_count_resize rt) (atom_array rt) (atom_free_index rt) (blocks rt) (keys rt) (tl (amem rt))).

Definition with_next (s : JSAtomStruct) (n : Z) : JSAtomStruct := mk_atom (str s) (hash s) (atom_type s) n (ref_count s) (parent s).
Definition with_count (s : JSAtomStruct) (c : Z) : JSAtomStruct := mk_atom (str s) (hash s) (atom_type s) (hash_next s) c (parent s).
Definition with_hash (s : JSAtomStruct) (h n : Z) : JSAtomStruct := mk_atom (str s) h (atom_type s) n (ref_count s) (parent s).
Definition with_atom (s : JSAtomStruct) (h t n : Z) : JSAtomStruct := mk_atom (str s) h t n (ref_count s) (parent s).

(** [rt->atom_array[i]] where a block must be. *)
Definition atom_at (a : list slot) (i : Z) : option ptr := match aread a i with Some (Ptr p) => Some p | _ => None end.

Definition __JS_AtomIsConst (v : Z) : bool := i32 v <? JS_ATOM_END.
Definition __JS_AtomIsTaggedInt (v : Z) : bool := negb (v & JS_ATOM_TAG_INT =? 0).
Definition __JS_AtomFromUInt32 (v : Z) : Z := v .| JS_ATOM_TAG_INT.
Definition __JS_AtomToUInt32 (a : Z) : Z := a & JS_ATOM_MAX_INT.

(** ** The hash table *)

(** [p->hash_next = new_hash[j]; new_hash[j] = h] *)
Definition chain_push (t : list Z) (b : gmap ptr JSAtomStruct) (p : ptr) (s : JSAtomStruct) (j h : Z) : option (list Z * gmap ptr JSAtomStruct) :=
  n ← aread t j; t ← awrite t j h; Some (t, <[p := with_next s n]> b).

(** [while (h != 0)] of JS_ResizeAtomHash. *)
Fixpoint rehash_chain (fuel : nat) (a : list slot) (mask h : Z) (st : list Z * gmap ptr JSAtomStruct) : option (list Z * gmap ptr JSAtomStruct) :=
  if h =? 0 then Some st else
  match fuel with
  | O => None
  | S fuel =>
      p ← atom_at a h;
      s ← st.2 !! p;
      st ← chain_push st.1 st.2 p s (hash s & mask) h;
      rehash_chain fuel a mask (hash_next s) st
  end.

Definition JS_ResizeAtomHash (rt : atom_rt) (new_hash_size : Z) : option (bool * atom_rt) :=
  if negb (new_hash_size & (new_hash_size - 1) =? 0) then None else
  let (ok, rt) := js_malloc_rt rt in
  if negb ok then Some (false, rt) else
  st ← each (fun st h => rehash_chain (length (atom_array rt)) (atom_array rt) (new_hash_size - 1) h st) (atom_hash rt) (replicate (Z.to_nat new_hash_size) 0, blocks rt);
  Some (true, mk_art st.1 (atom_count rt) (JS_ATOM_COUNT_RESIZE new_hash_size) (atom_array rt) (atom_free_index rt) st.2 (keys rt) (amem rt)).

(** [while (h != 0)] of js_atom_hash_harden: the chain goes, reversed, before [head]. *)
Fixpoint unlink_chain (fuel : nat) (a : list slot) (h : Z) (st : Z * gmap ptr JSAtomStruct) : option (Z * gmap ptr JSAtomStruct) :=
  if h =? 0 then Some st else
  match fuel with
  | O => None
  | S fuel =>
      p ← atom_at a h;
      s ← st.2 !! p;
      unlink_chain fuel a (hash_next s) (h, <[p := with_next s st.1]> st.2)
  end.

(** [while (head != 0)]: every atom is hashed again. *)
Fixpoint rehash_all (fuel : nat) (k : hash_rt) (a : list slot) (mask head : Z) (st : list Z * gmap ptr JSAtomStruct) : option (list Z * gmap ptr JSAtomStruct) :=
  if head =? 0 then Some st else
  match fuel with
  | O => None
  | S fuel =>
      p ← atom_at a head;
      s ← st.2 !! p;
      let next := hash_next s in
      let s := with_hash s (hash_string k (str s) (atom_type s) & JS_ATOM_HASH_MASK) next in
      st ← chain_push st.1 st.2 p s (hash s & mask) head;
      rehash_all fuel k a mask next st
  end.

Definition set_strong (k : hash_rt) : hash_rt := mk_hash_rt (atom_hash_seed k) (atom_hash_key k) (atom_hash_key2 k) (atom_hash_init k) true.

Definition js_atom_hash_harden (rt : atom_rt) : option atom_rt :=
  let a := atom_array rt in
  st ← each (fun (st : Z * gmap ptr JSAtomStruct) h => unlink_chain (length a) a h st) (atom_hash rt) (0, blocks rt);
  let k := set_strong (keys rt) in
  st ← rehash_all (length a) k a (atom_hash_size rt - 1) st.1 (replicate (length (atom_hash rt)) 0, st.2);
  Some (mk_art st.1 (atom_count rt) (atom_count_resize rt) a (atom_free_index rt) st.2 k (amem rt)).

(** What a walk along a chain finds. *)
Inductive found := Found (i : Z) | Missing | Flood.

Fixpoint find_chain (fuel : nat) (rt : atom_rt) (test : JSAtomStruct -> option bool) (i chain_steps : Z) : option found :=
  if i =? 0 then Some Missing else
  match fuel with
  | O => None
  | S fuel =>
      p ← atom_at (atom_array rt) i;
      s ← blocks rt !! p;
      b ← test s;
      if (b : bool) then Some (Found i) else
      if (JS_HASH_CHAIN_FLOOD <? chain_steps + 1) && negb (atom_hash_strong (keys rt)) then Some Flood
      else find_chain fuel rt test (hash_next s) (chain_steps + 1)
  end.

(** ** Freeing *)

(** The [for] of JS_FreeAtomStruct: the entry before [p] in its chain, and its index. *)
Fixpoint free_find (fuel : nat) (rt : atom_rt) (p : ptr) (i : Z) (p1 : ptr) : option (ptr * Z) :=
  match fuel with
  | O => None
  | S fuel =>
      if i =? 0 then None else
      s1 ← blocks rt !! p1;
      let i := hash_next s1 in
      p2 ← atom_at (atom_array rt) i;
      if bool_decide (p2 = p) then Some (p1, i) else free_find fuel rt p i p2
  end.

(** The chain without [p], and its index. *)
Definition free_unlink (rt : atom_rt) (p : ptr) (s : JSAtomStruct) : option (Z * atom_rt) :=
  if atom_type s =? JS_ATOM_TYPE_SYMBOL then Some (hash_next s, rt) else
  let h0 := hash s & (atom_hash_size rt - 1) in
  i ← aread (atom_hash rt) h0;
  p1 ← atom_at (atom_array rt) i;
  if bool_decide (p1 = p) then t ← awrite (atom_hash rt) h0 (hash_next s); Some (i, set_table rt t (blocks rt))
  else r ← free_find (length (atom_array rt)) rt p i p1;
       s0 ← blocks rt !! r.1;
       Some (r.2, set_blocks rt (<[r.1 := with_next s0 (hash_next s)]> (blocks rt))).

Definition JS_FreeAtomStruct (rt : atom_rt) (p : ptr) : option atom_rt :=
  s ← blocks rt !! p;
  r ← free_unlink rt p s;
  let (i, rt) := (r : Z * atom_rt) in
  a ← awrite (atom_array rt) i (Free (atom_free_index rt));
  let rt := set_array rt a i (atom_count rt - 1) in
  let rt := if (atom_type s =? JS_ATOM_TYPE_SYMBOL) && negb (hash s =? JS_ATOM_HASH_PRIVATE) && negb (hash s =? 0) then rt
            else set_blocks rt (delete p (blocks rt)) in
  if atom_count rt <? 0 then None else Some rt.

Definition __JS_FreeAtom (rt : atom_rt) (i : Z) : option atom_rt :=
  p ← atom_at (atom_array rt) i;
  s ← blocks rt !! p;
  let rt := set_blocks rt (<[p := with_count s (ref_count s - 1)]> (blocks rt)) in
  if 0 <? ref_count s - 1 then Some rt else JS_FreeAtomStruct rt p.

Definition JS_FreeAtomRT (rt : atom_rt) (v : Z) : option atom_rt := if negb (__JS_AtomIsConst v) then __JS_FreeAtom rt v else Some rt.

(** The parent of a slice is not a slice. *)
Fixpoint js_free_string (fuel : nat) (rt : atom_rt) (p : ptr) : option atom_rt :=
  match fuel with
  | O => None
  | S fuel =>
      s ← blocks rt !! p;
      let rt := set_blocks rt (<[p := with_count s (ref_count s - 1)]> (blocks rt)) in
      if ref_count s - 1 <=? 0 then
        if negb (atom_type s =? 0) then JS_FreeAtomStruct rt p
        else
          let rt := set_blocks rt (delete p (blocks rt)) in
          if is_slice (str s) then
            q ← parent s;
            if negb (hash_next s & 1 =? 0) then js_free_string fuel rt q else Some rt
          else Some rt
      else Some rt
  end.

Definition JS_DupAtomRT (rt : atom_rt) (v : Z) : option atom_rt :=
  if negb (__JS_AtomIsConst v) then
    p ← atom_at (atom_array rt) v;
    s ← blocks rt !! p;
    Some (set_blocks rt (<[p := with_count s (ref_count s + 1)]> (blocks rt)))
  else Some rt.

(** ** New atoms *)

Fixpoint index_loop (fuel : nat) (rt : atom_rt) (p : ptr) (i : Z) (p1 : ptr) : option Z :=
  if bool_decide (p1 = p) then Some i else
  match fuel with
  | O => None
  | S fuel =>
      if i =? 0 then None else
      s1 ← blocks rt !! p1;
      p2 ← atom_at (atom_array rt) (hash_next s1);
      index_loop fuel rt p (hash_next s1) p2
  end.

Definition js_get_atom_index (rt : atom_rt) (p : ptr) : option Z :=
  s ← blocks rt !! p;
  if negb (atom_type s =? JS_ATOM_TYPE_SYMBOL) then
    i ← aread (atom_hash rt) (hash s & (atom_hash_size rt - 1));
    p1 ← atom_at (atom_array rt) i;
    index_loop (length (atom_array rt)) rt p i p1
  else Some (hash_next s).

(** The comparison of __JS_NewAtom. *)
Definition same_atom (h : Z) (q : JSString) (t : Z) (s : JSAtomStruct) : option bool :=
  if (hash s =? h) && (atom_type s =? t) && (len (str s) =? len q)
  then r ← js_string_memcmp (str s) 0 q 0 (len q); Some (r =? 0) else Some false.

(** The walk with the label rehash: the state after it, the hash, and what was found. *)
Definition find_atom (rt : atom_rt) (hash_of : hash_rt -> Z) (test : Z -> JSAtomStruct -> option bool) : option (atom_rt * Z * found) :=
  let look (rt : atom_rt) : option (atom_rt * Z * found) :=
    let h := hash_of (keys rt) & JS_ATOM_HASH_MASK in
    i ← aread (atom_hash rt) (h & (atom_hash_size rt - 1));
    r ← find_chain (length (atom_array rt)) rt (test h) i 0;
    Some (rt, h, r) in
  r ← look rt;
  match (r : atom_rt * Z * found).2 with
  | Flood => rt ← js_atom_hash_harden rt; look rt
  | _ => Some r
  end.

Definition new_atom_size (size : Z) : Z := Z.max 711 (i32 (size * 3) ÷ 2).

(** More entries, all free; the first one of all is the block of JS_ATOM_NULL. *)
Definition grow_array (rt : atom_rt) : option (bool * atom_rt) :=
  let new_size := new_atom_size (atom_size rt) in
  if JS_ATOM_MAX <? new_size then Some (false, rt) else
  let (ok, rt) := js_malloc_rt rt in
  if negb ok then Some (false, rt) else
  let start := atom_size rt in
  let fill (a : list slot) := take (Z.to_nat new_size) (a ++ map (fun i => Free (if i =? new_size - 1 then 0 else i + 1)) (seqZ (Z.of_nat (length a)) (new_size - Z.of_nat (length a)))) in
  if start =? 0 then
    let (ok, rt) := js_malloc_rt rt in
    if negb ok then Some (false, rt) else
    let p := fresh (dom (blocks rt)) in
    let rt := set_blocks rt (<[p := mk_atom (mk_str 0 false false []) 0 JS_ATOM_TYPE_SYMBOL 0 1 None]> (blocks rt)) in
    Some (true, set_array rt (fill [Ptr p]) 1 (atom_count rt + 1))
  else Some (true, set_array rt (fill (atom_array rt)) start (atom_count rt)).

(** A copy of the string, of bytes when a wide slice has no wide unit. *)
Definition copy_string (q : JSString) : JSString :=
  if is_slice q && is_wide_char q && (fold_left Z.lor (units q) 0 <=? 0xFF) then mk_str (len q) false false (map (fun c => u8 c) (units q))
  else mk_str (len q) (is_wide_char q) false (units q).

(** The bytes of the copy of a string of bytes that is a part: [data] are the
    bytes of the string it is part of, the zero at its end included. *)
Definition copy_bytes (data : list Z) (offset n : Z) : option (list Z) :=
  let src := drop (Z.to_nat offset) data in
  if n + 1 <=? Z.of_nat (length src) then Some (take (Z.to_nat (n + 1)) src) else None.

(** The block of the new atom: the string itself or a copy; [None] inside is [goto fail]. *)
Definition atom_block (rt : atom_rt) (str_ : option ptr) : option (option ptr * atom_rt) :=
  match str_ with
  | Some p =>
      s ← blocks rt !! p;
      if (atom_type s =? 0) && negb (is_slice (str s)) then Some (Some p, rt) else
      let (ok, rt) := js_malloc_rt rt in
      if negb ok then Some (None, rt) else
      let q := fresh (dom (blocks rt)) in
      let rt := set_blocks rt (<[q := mk_atom (copy_string (str s)) 0 0 0 1 None]> (blocks rt)) in
      rt ← js_free_string 2 rt p;
      Some (Some q, rt)
  | None =>
      let (ok, rt) := js_malloc_rt rt in
      if negb ok then Some (None, rt) else
      let q := fresh (dom (blocks rt)) in
      Some (Some q, set_blocks rt (<[q := mk_atom (mk_str 0 true false []) 0 0 0 1 None]> (blocks rt)))
  end.

(** The entry of the new atom. *)
Definition add_atom (rt : atom_rt) (p : ptr) (h t : Z) : option (Z * atom_rt) :=
  let i := atom_free_index rt in
  e ← aread (atom_array rt) i;
  next ← match e with Free n => Some n | Ptr _ => None end;
  a ← awrite (atom_array rt) i (Ptr p);
  let rt := set_array rt a next (atom_count rt + 1) in
  s ← blocks rt !! p;
  let s := with_atom s h t i in
  if negb (t =? JS_ATOM_TYPE_SYMBOL) then
    st ← chain_push (atom_hash rt) (blocks rt) p s (h & (atom_hash_size rt - 1)) i;
    let rt := set_table rt st.1 st.2 in
    if atom_count_resize rt <=? atom_count rt then r ← JS_ResizeAtomHash rt (atom_hash_size rt * 2); Some (i, r.2) else Some (i, rt)
  else Some (i, set_blocks rt (<[p := s]> (blocks rt))).

(** [done:] with the answer [i]. *)
Definition atom_done (rt : atom_rt) (str_ : option ptr) (i : Z) : option (Z * atom_rt) :=
  match str_ with Some p => rt ← js_free_string 2 rt p; Some (i, rt) | None => Some (i, rt) end.

(** The part of __JS_NewAtom after the search. *)
Definition insert_atom (rt : atom_rt) (str_ : option ptr) (h t : Z) : option (Z * atom_rt) :=
  g ← (if atom_free_index rt =? 0 then grow_array rt else Some (true, rt));
  let (ok, rt) := (g : bool * atom_rt) in
  if negb ok then atom_done rt str_ JS_ATOM_NULL else
  b ← atom_block rt str_;
  match b with
  | (None, rt) => match str_ with Some _ => atom_done rt str_ JS_ATOM_NULL | None => Some (JS_ATOM_NULL, rt) end
  | (Some p, rt) => add_atom rt p h t
  end.

Definition __JS_NewAtom (rt : atom_rt) (str_ : option ptr) (t : Z) : option (Z * atom_rt) :=
  if t <? JS_ATOM_TYPE_SYMBOL then
    p ← str_;
    s ← blocks rt !! p;
    if atom_type s =? t then
      i ← js_get_atom_index rt p;
      if __JS_AtomIsConst i then Some (i, set_blocks rt (<[p := with_count s (ref_count s - 1)]> (blocks rt))) else Some (i, rt)
    else
      f ← find_atom rt (fun k => hash_string k (str s) t) (fun h => same_atom h (str s) t);
      let '(rt, h, r) := f in
      match r with
      | Found i =>
          rt ← (if negb (__JS_AtomIsConst i) then q ← atom_at (atom_array rt) i; s1 ← blocks rt !! q; Some (set_blocks rt (<[q := with_count s1 (ref_count s1 + 1)]> (blocks rt))) else Some rt);
          atom_done rt str_ i
      | _ => insert_atom rt str_ h t
      end
  else insert_atom rt str_ (if t =? JS_ATOM_TYPE_SYMBOL then 0 else JS_ATOM_HASH_PRIVATE) JS_ATOM_TYPE_SYMBOL.

(** The text and its terminating zero are the caller's; only atoms of bytes are found. *)
Definition __JS_FindAtom (rt : atom_rt) (text : list Z) : option (Z * atom_rt) :=
  f ← find_atom rt (fun k => hash_string8 k text JS_ATOM_TYPE_STRING)
        (fun h s => if (hash s =? h) && (atom_type s =? JS_ATOM_TYPE_STRING) && (len (str s) =? Z.of_nat (length text)) && negb (is_wide_char (str s))
                    then r ← memcmp (units (str s)) text (length text); Some (r =? 0) else Some false);
  let '(rt, h, r) := f in
  match r with
  | Found i =>
      rt ← (if negb (__JS_AtomIsConst i) then q ← atom_at (atom_array rt) i; s1 ← blocks rt !! q; Some (set_blocks rt (<[q := with_count s1 (ref_count s1 + 1)]> (blocks rt))) else Some rt);
      Some (i, rt)
  | _ => Some (JS_ATOM_NULL, rt)
  end.

Definition JS_NewAtomStr (rt : atom_rt) (p : ptr) : option (Z * atom_rt) :=
  s ← blocks rt !! p;
  match is_num_string (str s) with
  | Some n => if n <=? JS_ATOM_MAX_INT then rt ← js_free_string 2 rt p; Some (__JS_AtomFromUInt32 n, rt) else __JS_NewAtom rt (Some p) JS_ATOM_TYPE_STRING
  | None => __JS_NewAtom rt (Some p) JS_ATOM_TYPE_STRING
  end.

(** ** Symbols and the predefined atoms *)

Definition JS_NewSymbol (rt : atom_rt) (p : option ptr) (t : Z) : option (option ptr * atom_rt) :=
  r ← __JS_NewAtom rt p t;
  if r.1 =? JS_ATOM_NULL then Some (None, r.2) else q ← atom_at (atom_array r.2) r.1; Some (Some q, r.2).

Inductive JSAtomKindEnum := JS_ATOM_KIND_STRING | JS_ATOM_KIND_SYMBOL | JS_ATOM_KIND_PRIVATE.

Definition JS_AtomGetKind (rt : atom_rt) (v : Z) : option JSAtomKindEnum :=
  if __JS_AtomIsTaggedInt v then Some JS_ATOM_KIND_STRING else
  p ← atom_at (atom_array rt) v;
  s ← blocks rt !! p;
  if atom_type s =? JS_ATOM_TYPE_STRING then Some JS_ATOM_KIND_STRING
  else if atom_type s =? JS_ATOM_TYPE_GLOBAL_SYMBOL then Some JS_ATOM_KIND_SYMBOL
  else if atom_type s =? JS_ATOM_TYPE_SYMBOL then Some (if hash s =? JS_ATOM_HASH_PRIVATE then JS_ATOM_KIND_PRIVATE else JS_ATOM_KIND_SYMBOL)
  else None.

Definition __JS_NewAtomInit (rt : atom_rt) (text : list Z) (t : Z) : option (Z * atom_rt) :=
  let (ok, rt) := js_malloc_rt rt in
  if negb ok then Some (JS_ATOM_NULL, rt) else
  let p := fresh (dom (blocks rt)) in
  __JS_NewAtom (set_blocks rt (<[p := mk_atom (mk_str (Z.of_nat (length text)) false false text) 0 0 0 1 None]> (blocks rt))) (Some p) t.

Definition init_type (i : Z) : Z :=
  if i =? JS_ATOM_Private_brand then JS_ATOM_TYPE_PRIVATE else if JS_ATOM_Symbol_toPrimitive <=? i then JS_ATOM_TYPE_SYMBOL else JS_ATOM_TYPE_STRING.

Fixpoint init_loop (rt : atom_rt) (i : Z) (l : list (list Z)) : option (bool * atom_rt) :=
  match l with
  | [] => Some (true, rt)
  | text :: l =>
      r ← __JS_NewAtomInit rt text (init_type i);
      if r.1 =? JS_ATOM_NULL then Some (false, r.2) else init_loop r.2 (i + 1) l
  end.

(** [seed]: what the system gave, if it did. *)
Definition JS_InitAtoms (seed : option Z) (mem : list bool) : option (bool * atom_rt) :=
  let rt k := mk_art [] 0 0 [] 0 ∅ k mem in
  match seed with
  | None => Some (false, rt (hash_string_seed_runtime 0))
  | Some seed =>
      r ← JS_ResizeAtomHash (rt (hash_string_seed_runtime seed)) 512;
      if negb r.1 then Some (false, r.2) else init_loop r.2 1 (map Prelude.str js_atom_init)
  end.
