(* ===== verification/AtomTable.v ===== *)
(** * The chains of the atom table

    The hash chains and the list of free entries run through fields; [linked]
    relates such a list to the indices on it.  This file has the invariant of the
    table of [Atoms] and what growing it and hashing it again do. *)
From Stdlib Require Import ZArith Lia List.
From stdpp Require Import base numbers option list gmap.
From S2P Require Import Prelude Strings StrHash AtomNames Atoms.

(** ** Linked lists of indices *)

Fixpoint linked (f : Z -> option Z) (h : Z) (js : list Z) : Prop :=
  match js with
  | [] => h = 0
  | j :: js => h = j /\ j <> 0 /\ exists n, f j = Some n /\ linked f n js
  end.

Lemma link_ext f f' h js : (forall j, j ∈ js -> f' j = f j) -> linked f h js -> linked f' h js.
Proof.
  revert h. induction js as [|j js IH]; intros h Hf; [done|]. intros (-> & Hj & n & En & Hl). split; [done|]. split; [done|].
  exists n. rewrite Hf by (by left). split; [done|]. apply IH; [|done]. intros k Hk. apply Hf. by right.
Qed.

Lemma linked_zero f js : linked f 0 js -> js = [].
Proof. destruct js as [|j js]; [done|]. intros (E & Hj & _). by subst. Qed.

Lemma linked_nonzero f h js : linked f h js -> 0 ∉ js.
Proof.
  revert h. induction js as [|j js IH]; intros h; [intros _; apply not_elem_of_nil|]. intros (_ & Hj & n & _ & Hl). rewrite elem_of_cons. intros [?|?]; [done|]. by apply (IH n).
Qed.

(** A list that is split at a member. *)
Lemma link_app f h js1 js2 : linked f h (js1 ++ js2) -> exists n, linked f n js2 /\ match last js1 with Some j => f j = Some n | None => h = n end.
Proof.
  revert h. induction js1 as [|j js1 IH]; intros h; [cbn; eauto|]. cbn [app]. intros (-> & Hj & n & En & Hl). destruct (IH n Hl) as (n' & Hl' & Hm). exists n'. split; [done|].
  rewrite last_cons. destruct (last js1); [done|]. by subst.
Qed.

(** Putting an index in front. *)
Lemma linked_push f h j js : j <> 0 -> j ∉ js -> linked f h js -> linked (fun k => if decide (k = j) then Some h else f k) j (j :: js).
Proof.
  intros Hj Hn Hl. split; [done|]. split; [done|]. exists h. rewrite decide_True by done. split; [done|].
  eapply link_ext; [|exact Hl]. intros k Hk. cbn. by rewrite decide_False by (intros ->; done).
Qed.

(** ** The table *)

(** The block at an index, and the index after it in its chain. *)
Definition node (a : list slot) (b : gmap ptr JSAtomStruct) (i : Z) : option JSAtomStruct := p ← atom_at a i; b !! p.
Definition nx (a : list slot) (b : gmap ptr JSAtomStruct) (i : Z) : option Z := hash_next <$> node a b i.
(** The entry after a free one. *)
Definition fnx (a : list slot) (i : Z) : option Z := match aread a i with Some (Free n) => Some n | _ => None end.

(** Names and registered symbols are in the chains, other symbols are not. *)
Definition interned (s : JSAtomStruct) : Prop := atom_type s = JS_ATOM_TYPE_STRING \/ atom_type s = JS_ATOM_TYPE_GLOBAL_SYMBOL.

(** What identifies an atom. *)
Definition key (s : JSAtomStruct) : Z * list Z := (atom_type s, units (str s)).

Definition table_ok (a : list slot) (b : gmap ptr JSAtomStruct) (t : list Z) (chains : list (list Z)) (ms : list Z) : Prop :=
  Forall2 (linked (nx a b)) t chains /\ NoDup (concat chains) /\ (forall j, j ∈ concat chains <-> j ∈ ms) /\
  (forall c js j s, chains !! c = Some js -> j ∈ js -> node a b j = Some s -> Z.of_nat c = hash s & (Z.of_nat (length t) - 1)).

Definition injective (a : list slot) : Prop := forall i j p, atom_at a i = Some p -> atom_at a j = Some p -> i = j.

Lemma atom_at_range a i p : atom_at a i = Some p -> 0 <= i < Z.of_nat (length a).
Proof. unfold atom_at. destruct (aread a i) as [[|q]|] eqn:E; [done| |done]. intros _. by apply aread_some in E. Qed.

(** A change of one block is a change of one node. *)
Lemma node_insert a b p s i : injective a -> atom_at a i = Some p ->
  forall k, node a (<[p := s]> b) k = if decide (k = i) then Some s else node a b k.
Proof.
  intros Hinj Hi k. unfold node. destruct (decide (k = i)) as [-> |Hk].
  - rewrite Hi. cbn. by rewrite lookup_insert_eq.
  - destruct (atom_at a k) as [q|] eqn:Eq; [|done]. cbn. rewrite lookup_insert_ne; [done|]. intros ->. apply Hk. by apply (Hinj k i q).
Qed.

Lemma nx_insert a b p s i : injective a -> atom_at a i = Some p ->
  forall k, nx a (<[p := s]> b) k = if decide (k = i) then Some (hash_next s) else nx a b k.
Proof. intros Hinj Hi k. unfold nx. rewrite (node_insert _ _ _ _ i) by done. by case_decide. Qed.

(** Blocks that are not in the array do not matter. *)
Lemma node_other a b p s : (forall i, atom_at a i <> Some p) -> forall k, node a (<[p := s]> b) k = node a b k.
Proof. intros H k. unfold node. destruct (atom_at a k) as [q|] eqn:Eq; [|done]. cbn. rewrite lookup_insert_ne; [done|]. intros ->. by apply (H k). Qed.

Lemma atable_same a b b' t chains ms : (forall k, nx a b' k = nx a b k) -> (forall k, hash <$> node a b' k = hash <$> node a b k) ->
  table_ok a b t chains ms -> table_ok a b' t chains ms.
Proof.
  intros Hx Hn (H1 & H2 & H3 & H4). split_and!; try done.
  - eapply Forall2_impl; [exact H1|]. intros h js Hl. eapply link_ext; [|exact Hl]. intros j _. apply Hx.
  - intros c js j s Hc Hj Es. specialize (Hn j). rewrite Es in Hn. cbn in Hn. destruct (node a b j) as [s0|] eqn:E0; [|done]. cbn in Hn. injection Hn as ->. by apply (H4 c js j).
Qed.

(** One more member at the head of its chain. *)
Lemma table_push a b t chains ms p s j : injective a -> atom_at a j = Some p -> j <> 0 -> table_ok a b t chains ms -> j ∉ ms -> (0 < length t)%nat ->
  0 <= hash s & (Z.of_nat (length t) - 1) < Z.of_nat (length t) ->
  exists t' b' chains', chain_push t b p s (hash s & (Z.of_nat (length t) - 1)) j = Some (t', b') /\ length t' = length t /\
    b' = <[p := with_next s (default 0 (aread t (hash s & (Z.of_nat (length t) - 1))))]> b /\ table_ok a b' t' chains' (j :: ms).
Proof.
  intros Hinj Hp Hj0 (H1 & H2 & H3 & H4) Hj Ht Hb. set (c := hash s & (Z.of_nat (length t) - 1)) in *.
  assert (Hl : length t = length chains) by (by apply Forall2_length in H1).
  unfold chain_push. destruct (aread t c) as [h|] eqn:Eh.
  2: { unfold aread in Eh. replace (c <? 0) with false in Eh by lia. apply lookup_ge_None in Eh. lia. }
  assert (Ec : t !! Z.to_nat c = Some h) by (unfold aread in Eh; by replace (c <? 0) with false in Eh by lia).
  destruct (lookup_lt_is_Some_2 chains (Z.to_nat c)) as [js Ejs]; [lia|]. pose proof (Forall2_lookup_lr _ _ _ _ _ _ H1 Ec Ejs) as Hjs.
  cbn. rewrite awrite_in by lia. cbn. eexists _, _, (<[Z.to_nat c := j :: js]> chains). split; [done|]. split; [by rewrite length_insert|]. split; [done|].
  assert (Hperm : concat (<[Z.to_nat c := j :: js]> chains) ≡ₚ j :: concat chains).
  { rewrite <- (take_drop_middle chains (Z.to_nat c) js Ejs) at 2. rewrite (insert_take_drop _ _ _) by (by apply lookup_lt_Some in Ejs). rewrite !concat_app. cbn [concat app]. symmetry. apply Permutation_middle. }
  assert (Hjc : j ∉ concat chains) by (by rewrite H3).
  assert (Hnode : forall k, node a (<[p := with_next s h]> b) k = if decide (k = j) then Some (with_next s h) else node a b k) by (by apply node_insert).
  split_and!.
  - apply Forall2_insert; [|].
    + apply Forall2_same_length_lookup. split; [done|]. intros k x y Ex Ey. eapply link_ext; [|by apply (Forall2_lookup_lr _ _ _ _ _ _ H1 Ex Ey)].
      intros i Hi. unfold nx. rewrite Hnode, decide_False; [done|]. intros ->. apply Hjc. apply list_elem_of_In, in_concat. exists y. split; [by apply list_elem_of_In, (list_elem_of_lookup_2 _ k)|by apply list_elem_of_In].
    + eapply link_ext; [|apply (linked_push (nx a b) h j js); [done| |done]].
      * intros k _. unfold nx. rewrite Hnode. by case_decide.
      * intros Hin. apply Hjc. apply list_elem_of_In, in_concat. exists js. split; [by apply list_elem_of_In, (list_elem_of_lookup_2 _ (Z.to_nat c))|by apply list_elem_of_In].
  - rewrite Hperm. by constructor.
  - intros k. rewrite Hperm, !elem_of_cons, H3. done.
  - intros c' js' k s' Ec' Hk Ek. rewrite length_insert. rewrite Hnode in Ek. destruct (decide (Z.to_nat c = c')) as [<- |Hne].
    + rewrite list_lookup_insert_eq in Ec' by (by apply lookup_lt_Some in Ejs). injection Ec' as <-. apply elem_of_cons in Hk as [-> |Hk].
      * rewrite decide_True in Ek by done. injection Ek as <-. cbn. subst c. lia.
      * case_decide as Hd; [injection Ek as <-; cbn; subst c; lia|]. by apply (H4 (Z.to_nat c) js k).
    + rewrite list_lookup_insert_ne in Ec' by done. rewrite decide_False in Ek; [by apply (H4 c' js' k)|]. intros ->. apply Hjc.
      apply list_elem_of_In, in_concat. exists js'. split; [by apply list_elem_of_In, (list_elem_of_lookup_2 _ c')|by apply list_elem_of_In].
Qed.

(** ** Hashing again *)

(** What stays when only the fields hash_next change. *)
Definition erase (s : JSAtomStruct) : JSAtomStruct := with_next s 0.
Definition same_blocks (b b' : gmap ptr JSAtomStruct) : Prop := forall p, erase <$> b' !! p = erase <$> b !! p.

Lemma same_blocks_trans b1 b2 b3 : same_blocks b1 b2 -> same_blocks b2 b3 -> same_blocks b1 b3.
Proof. intros H1 H2 p. by rewrite H2, H1. Qed.

Lemma same_blocks_insert b p s n : b !! p = Some s -> same_blocks b (<[p := with_next s n]> b).
Proof. intros Hp q. destruct (decide (q = p)) as [-> |Hq]; [by rewrite lookup_insert_eq, Hp|by rewrite lookup_insert_ne]. Qed.

Lemma same_blocks_node a b b' : same_blocks b b' -> forall k, erase <$> node a b' k = erase <$> node a b k.
Proof. intros H k. unfold node. destruct (atom_at a k); cbn; [apply H|done]. Qed.

Definition size_ok (n : Z) : Prop := exists k, 0 <= k <= 30 /\ n = 2 ^ k.

Lemma mask_range h n : size_ok n -> 0 <= h & (n - 1) < n.
Proof. intros (k & Hk & ->). rewrite Z.sub_1_r, <- Z.ones_equiv, Z.land_ones by lia. apply Z.mod_pos_bound. lia. Qed.

Lemma size_ok_pos n : size_ok n -> 0 < n.
Proof. intros (k & Hk & ->). lia. Qed.

Lemma size_ok_pow2 n : size_ok n -> n & (n - 1) = 0.
Proof. intros (k & Hk & ->). rewrite Z.sub_1_r, <- Z.ones_equiv, Z.land_ones by lia. apply Z_mod_same_full. Qed.

Section Rehash.
Context (a : list slot).
Hypothesis Hinj : injective a.

(** The indices of a list lie in the array, each once. *)
Lemma nodes_bound b js : NoDup js -> (forall j, j ∈ js -> is_Some (node a b j)) -> (length js <= length a)%nat.
Proof.
  intros Hnd Hin. assert (Hsub : js ⊆+ (Z.of_nat <$> seq 0 (length a))).
  { apply NoDup_submseteq; [done|]. intros j Hj. destruct (Hin j Hj) as [s Hs]. unfold node in Hs. destruct (atom_at a j) as [p|] eqn:Ep; [|done]. apply atom_at_range in Ep.
    apply list_elem_of_fmap. exists (Z.to_nat j). split; [lia|]. apply elem_of_seq. lia. }
  apply submseteq_length in Hsub. rewrite length_fmap, length_seq in Hsub. done.
Qed.

Lemma linked_nodes b h js : linked (nx a b) h js -> forall j, j ∈ js -> is_Some (node a b j).
Proof.
  revert h. induction js as [|j js IH]; intros h; [intros _ k Hk; by apply not_elem_of_nil in Hk|]. intros (_ & _ & n & En & Hl) k. rewrite elem_of_cons. intros [-> |Hk]; [|by apply (IH n)].
  unfold nx in En. destruct (node a b j); [done|done].
Qed.

Lemma rehash_chain_spec js fuel h t b chains ms : linked (nx a b) h js -> NoDup js -> (forall j, j ∈ js -> j ∉ ms) -> (length js <= fuel)%nat ->
  size_ok (Z.of_nat (length t)) -> table_ok a b t chains ms ->
  exists t' b' chains', rehash_chain fuel a (Z.of_nat (length t) - 1) h (t, b) = Some (t', b') /\ length t' = length t /\ same_blocks b b' /\
    (forall k, k ∉ js -> nx a b' k = nx a b k) /\ table_ok a b' t' chains' (rev js ++ ms).
Proof.
  revert fuel h t b chains ms. induction js as [|j js IH]; intros fuel h t b chains ms Hl Hnd Hd Hf Hs Ht.
  { cbn in Hl. subst h. exists t, b, chains. destruct fuel; cbn; (split_and!; try done); by intros p. }
  destruct Hl as (-> & Hj & n & En & Hl). destruct fuel as [|fuel]; [cbn in Hf; lia|]. cbn [rehash_chain]. rewrite (proj2 (Z.eqb_neq _ _)) by done.
  unfold nx in En. destruct (node a b j) as [s|] eqn:Es; [|done]. cbn in En. injection En as En. unfold node in Es. destruct (atom_at a j) as [p|] eqn:Ep; [|done]. cbn in Es. cbn [mbind option_bind snd fst].
  rewrite Es. cbn [mbind option_bind]. apply NoDup_cons in Hnd as [Hjn Hnd].
  destruct (table_push a b t chains ms p s j) as (t1 & b1 & chains1 & E1 & L1 & B1 & T1); [done|done|done|done|apply Hd; by left|pose proof (size_ok_pos _ Hs); lia|by apply mask_range|].
  rewrite E1. cbn [mbind option_bind].
  assert (Hx : forall k, k <> j -> nx a b1 k = nx a b k) by (intros k Hk; rewrite B1, (nx_insert _ _ _ _ j) by done; by rewrite decide_False).
  destruct (IH fuel n t1 b1 chains1 (j :: ms)) as (t2 & b2 & chains2 & E2 & L2 & B2 & X2 & T2).
  - eapply link_ext; [|exact Hl]. intros k Hk. apply Hx. intros ->. done.
  - done.
  - intros k Hk. rewrite elem_of_cons. intros [-> |Hm]; [done|]. by apply (Hd k); [by right|].
  - cbn in Hf. lia.
  - by rewrite L1.
  - done.
  - rewrite L1, <- En in E2. exists t2, b2, chains2. split; [by rewrite En in *|]. split; [congruence|]. split; [eapply same_blocks_trans; [|exact B2]; rewrite B1; by apply same_blocks_insert|].
    split; [intros k Hk; apply not_elem_of_cons in Hk as [Hk1 Hk2]; rewrite X2 by done; by apply Hx|]. cbn [rev]. by rewrite <- app_assoc.
Qed.

(** All chains of the old table. *)
Lemma rehash_chains_spec hs cs t b chains ms : Forall2 (linked (nx a b)) hs cs -> NoDup (concat cs) -> (forall j, j ∈ concat cs -> j ∉ ms) ->
  size_ok (Z.of_nat (length t)) -> table_ok a b t chains ms ->
  exists t' b' chains', each (fun st h => rehash_chain (length a) a (Z.of_nat (length t) - 1) h st) hs (t, b) = Some (t', b') /\ length t' = length t /\ same_blocks b b' /\
    (forall k, k ∉ concat cs -> nx a b' k = nx a b k) /\ exists ms', table_ok a b' t' chains' ms' /\ (forall j, j ∈ ms' <-> j ∈ concat cs \/ j ∈ ms).
Proof.
  intros Hl. revert t b chains ms Hl. revert cs. induction hs as [|h hs IH]; intros cs t b chains ms Hl Hnd Hd Hs Ht.
  { apply Forall2_nil_inv_l in Hl as ->. exists t, b, chains. split_and!; try done. exists ms. split; [done|]. intros j. cbn. rewrite elem_of_nil. tauto. }
  apply Forall2_cons_inv_l in Hl as (js & cs' & Hj & Hl & ->). cbn [concat] in *. apply NoDup_app in Hnd as (Hn1 & Hn2 & Hn3).
  destruct (rehash_chain_spec js (length a) h t b chains ms) as (t1 & b1 & chains1 & E1 & L1 & B1 & X1 & T1); [done|done| | |done|done|].
  { intros j Hjj. apply Hd. apply elem_of_app. by left. }
  { apply (nodes_bound b); [done|]. by apply (linked_nodes b h). }
  cbn [each]. rewrite E1. cbn [mbind option_bind].
  destruct (IH cs' t1 b1 chains1 (rev js ++ ms)) as (t2 & b2 & chains2 & E2 & L2 & B2 & X2 & ms2 & T2 & M2).
  - eapply Forall2_impl; [apply Forall2_same_length_lookup; split; [by apply Forall2_length in Hl|]|].
    + intros i x y Ex Ey. instantiate (1 := fun x y => linked (nx a b1) x y). cbn. eapply link_ext; [|by apply (Forall2_lookup_lr _ _ _ _ _ _ Hl Ex Ey)].
      intros k Hk. apply X1. intros Hkj. apply (Hn2 k Hkj). apply list_elem_of_In, in_concat. exists y. split; [by apply list_elem_of_In, (list_elem_of_lookup_2 _ i)|by apply list_elem_of_In].
    + done.
  - done.
  - intros j Hjc. intros Hm. apply elem_of_app in Hm as [Hm|Hm]; [apply list_elem_of_In, in_rev, list_elem_of_In in Hm; by apply (Hn2 j)|]. apply (Hd j); [apply elem_of_app; by right|done].
  - by rewrite L1.
  - done.
  - rewrite L1 in E2. exists t2, b2, chains2. split; [done|]. split; [congruence|]. split; [by eapply same_blocks_trans|]. split.
    + intros k Hk. apply not_elem_of_app in Hk as [Hk1 Hk2]. rewrite X2 by done. by apply X1.
    + exists ms2. split; [done|]. intros j. rewrite M2, !elem_of_app. split; [intros [?|[Hr|?]]|intros [[?|?]|?]]; try tauto.
      * left; left. by apply list_elem_of_In, in_rev, list_elem_of_In.
      * right; left. by apply list_elem_of_In; rewrite <- in_rev; apply list_elem_of_In.
Qed.
End Rehash.

(** ** The keyed hash *)

(** What stays when the hash changes too. *)
Definition erase_hash (s : JSAtomStruct) : JSAtomStruct := with_hash s 0 0.
Definition same_atoms (b b' : gmap ptr JSAtomStruct) : Prop := forall p, erase_hash <$> b' !! p = erase_hash <$> b !! p.

Lemma same_atoms_trans b1 b2 b3 : same_atoms b1 b2 -> same_atoms b2 b3 -> same_atoms b1 b3.
Proof. intros H1 H2 p. by rewrite H2, H1. Qed.

Lemma same_atoms_insert b p s h n : b !! p = Some s -> same_atoms b (<[p := with_hash s h n]> b).
Proof. intros Hp q. destruct (decide (q = p)) as [-> |Hq]; [by rewrite lookup_insert_eq, Hp|by rewrite lookup_insert_ne]. Qed.

Lemma same_blocks_atoms b b' : same_blocks b b' -> same_atoms b b'.
Proof.
  intros H p. specialize (H p). destruct (b' !! p) as [s'|], (b !! p) as [s|]; cbn in *; try done. injection H as E1 E2 E3 E4 E5. unfold erase_hash, with_hash. by rewrite E1, E3, E4, E5.
Qed.

Lemma same_atoms_node a b b' : same_atoms b b' -> forall k, erase_hash <$> node a b' k = erase_hash <$> node a b k.
Proof. intros H k. unfold node. destruct (atom_at a k); cbn; [apply H|done]. Qed.

Section Harden.
Context (a : list slot).
Hypothesis Hinj : injective a.

Lemma unlink_chain_spec js fuel h head hl b : linked (nx a b) h js -> NoDup js -> linked (nx a b) head hl -> (forall j, j ∈ js -> j ∉ hl) -> (length js <= fuel)%nat ->
  exists head' b', unlink_chain fuel a h (head, b) = Some (head', b') /\ same_blocks b b' /\ (forall k, k ∉ js -> nx a b' k = nx a b k) /\ linked (nx a b') head' (rev js ++ hl).
Proof.
  revert fuel h head hl b. induction js as [|j js IH]; intros fuel h head hl b Hl Hnd Hh Hd Hf.
  { cbn in Hl. subst h. exists head, b. destruct fuel; cbn; (split_and!; try done); by intros p. }
  destruct Hl as (-> & Hj & n & En & Hl). destruct fuel as [|fuel]; [cbn in Hf; lia|]. cbn [unlink_chain]. rewrite (proj2 (Z.eqb_neq _ _)) by done.
  unfold nx in En. destruct (node a b j) as [s|] eqn:Es; [|done]. cbn in En. injection En as En. unfold node in Es. destruct (atom_at a j) as [p|] eqn:Ep; [|done]. cbn in Es.
  cbn [mbind option_bind snd fst]. rewrite Es. cbn [mbind option_bind]. apply NoDup_cons in Hnd as [Hjn Hnd]. set (b1 := <[p := with_next s head]> b).
  assert (Hx : forall k, nx a b1 k = if decide (k = j) then Some head else nx a b k) by (intros k; subst b1; by rewrite (nx_insert _ _ _ _ j)).
  destruct (IH fuel (hash_next s) j (j :: hl) b1) as (head' & b' & E & B & X & L).
  - rewrite En. eapply link_ext; [|exact Hl]. intros k Hk. rewrite Hx, decide_False; [done|]. intros ->. done.
  - done.
  - eapply link_ext; [|apply (linked_push (nx a b) head j hl); [done|apply Hd; by left|done]]. intros k _. by rewrite Hx.
  - intros k Hk. rewrite elem_of_cons. intros [-> |Hm]; [done|]. by apply (Hd k); [by right|].
  - cbn in Hf. lia.
  - exists head', b'. split; [done|]. split; [eapply same_blocks_trans; [by apply (same_blocks_insert b p s head)|done]|]. split.
    + intros k Hk. apply not_elem_of_cons in Hk as [Hk1 Hk2]. rewrite X by done. by rewrite Hx, decide_False.
    + cbn [rev]. by rewrite <- app_assoc.
Qed.

Lemma unlink_chains_spec hs cs head hl b : Forall2 (linked (nx a b)) hs cs -> NoDup (concat cs) -> linked (nx a b) head hl -> (forall j, j ∈ concat cs -> j ∉ hl) -> NoDup hl ->
  exists head' b' hl', each (fun (st : Z * gmap ptr JSAtomStruct) h => unlink_chain (length a) a h st) hs (head, b) = Some (head', b') /\ same_blocks b b' /\
    (forall k, k ∉ concat cs -> nx a b' k = nx a b k) /\ linked (nx a b') head' hl' /\ NoDup hl' /\ (forall j, j ∈ hl' <-> j ∈ concat cs \/ j ∈ hl).
Proof.
  revert cs head hl b. induction hs as [|h hs IH]; intros cs head hl b Hl Hnd Hh Hd Hnh.
  { apply Forall2_nil_inv_l in Hl as ->. exists head, b, hl. split_and!; try done. intros j. cbn. rewrite elem_of_nil. tauto. }
  apply Forall2_cons_inv_l in Hl as (js & cs' & Hj & Hl & ->). cbn [concat] in *. apply NoDup_app in Hnd as (Hn1 & Hn2 & Hn3).
  destruct (unlink_chain_spec js (length a) h head hl b) as (head1 & b1 & E1 & B1 & X1 & L1); [done|done|done| | |].
  { intros j Hjj. apply Hd. apply elem_of_app. by left. }
  { apply (nodes_bound a b); [done|]. by apply (linked_nodes a b h). }
  cbn [each]. rewrite E1. cbn [mbind option_bind].
  assert (Hrev : forall j, j ∈ rev js <-> j ∈ js) by (intros j; rewrite !list_elem_of_In; symmetry; apply in_rev).
  destruct (IH cs' head1 (rev js ++ hl) b1) as (head2 & b2 & hl2 & E2 & B2 & X2 & L2 & N2 & M2).
  - apply Forall2_same_length_lookup. split; [by apply Forall2_length in Hl|]. intros i x y Ex Ey. eapply link_ext; [|by apply (Forall2_lookup_lr _ _ _ _ _ _ Hl Ex Ey)].
    intros k Hk. apply X1. intros Hkj. apply (Hn2 k Hkj). apply list_elem_of_In, in_concat. exists y. split; [by apply list_elem_of_In, (list_elem_of_lookup_2 _ i)|by apply list_elem_of_In].
  - done.
  - done.
  - intros j Hjc Hm. apply elem_of_app in Hm as [Hm|Hm]; [apply Hrev in Hm; by apply (Hn2 j)|]. apply (Hd j); [apply elem_of_app; by right|done].
  - apply NoDup_app. split; [by apply NoDup_ListNoDup, NoDup_rev, NoDup_ListNoDup|]. split; [|done]. intros j Hj' Hm. apply Hrev in Hj'. apply (Hd j); [apply elem_of_app; by left|done].
  - exists head2, b2, hl2. split; [done|]. split; [by eapply same_blocks_trans|].
    split; [intros k Hk; apply not_elem_of_app in Hk as [Hk1 Hk2]; rewrite X2 by done; by apply X1|]. split; [done|]. split; [done|]. intros j. rewrite M2, !elem_of_app, Hrev. tauto.
Qed.

Definition hashed (k : hash_rt) (s : JSAtomStruct) : Prop := hash s = hash_string k (str s) (atom_type s) & JS_ATOM_HASH_MASK.

Lemma rehash_all_spec k js fuel head t b chains ms : linked (nx a b) head js -> NoDup js -> (forall j, j ∈ js -> j ∉ ms) -> (length js <= fuel)%nat ->
  size_ok (Z.of_nat (length t)) -> table_ok a b t chains ms ->
  exists t' b' chains', rehash_all fuel k a (Z.of_nat (length t) - 1) head (t, b) = Some (t', b') /\ length t' = length t /\ same_atoms b b' /\
    (forall j, j ∉ js -> node a b' j = node a b j) /\ (forall j s, j ∈ js -> node a b' j = Some s -> hashed k s) /\ table_ok a b' t' chains' (rev js ++ ms).
Proof.
  revert fuel head t b chains ms. induction js as [|j js IH]; intros fuel h t b chains ms Hl Hnd Hd Hf Hs Ht.
  { cbn in Hl. subst h. exists t, b, chains. destruct fuel; cbn; (split_and!; try done); try (by intros p); intros j s Hj; by apply not_elem_of_nil in Hj. }
  destruct Hl as (-> & Hj & n & En & Hl). destruct fuel as [|fuel]; [cbn in Hf; lia|]. cbn [rehash_all]. rewrite (proj2 (Z.eqb_neq _ _)) by done.
  unfold nx in En. destruct (node a b j) as [s|] eqn:Es; [|done]. cbn in En. injection En as En. unfold node in Es. destruct (atom_at a j) as [p|] eqn:Ep; [|done]. cbn in Es.
  cbn [mbind option_bind snd fst]. rewrite Es. cbn [mbind option_bind]. apply NoDup_cons in Hnd as [Hjn Hnd].
  set (s1 := with_hash s (hash_string k (str s) (atom_type s) & JS_ATOM_HASH_MASK) (hash_next s)).
  destruct (table_push a b t chains ms p s1 j) as (t1 & b1 & chains1 & E1 & L1 & B1 & T1); [done|done|done|done|apply Hd; by left|pose proof (size_ok_pos _ Hs); lia|by apply mask_range|].
  rewrite E1. cbn [mbind option_bind]. set (h1 := default 0 _) in B1.
  assert (Hn : forall i, node a b1 i = if decide (i = j) then Some (with_next s1 h1) else node a b i) by (intros i; rewrite B1; by rewrite (node_insert _ _ _ _ j)).
  destruct (IH fuel (hash_next s) t1 b1 chains1 (j :: ms)) as (t2 & b2 & chains2 & E2 & L2 & B2 & N2 & H2 & T2).
  - rewrite En. eapply link_ext; [|exact Hl]. intros i Hi. unfold nx. rewrite Hn, decide_False; [done|]. intros ->. done.
  - done.
  - intros i Hi. rewrite elem_of_cons. intros [-> |Hm]; [done|]. by apply (Hd i); [by right|].
  - cbn in Hf. lia.
  - by rewrite L1.
  - done.
  - rewrite L1 in E2. exists t2, b2, chains2. split; [done|]. split; [congruence|]. split.
    { eapply same_atoms_trans; [|exact B2]. rewrite B1. intros q. destruct (decide (q = p)) as [-> |Hq]; [by rewrite lookup_insert_eq, Es|by rewrite lookup_insert_ne]. }
    split; [|split].
    + intros i Hi. apply not_elem_of_cons in Hi as [Hi1 Hi2]. rewrite N2 by done. by rewrite Hn, decide_False.
    + intros i s' Hi Ei. apply elem_of_cons in Hi as [-> |Hi]; [|by apply (H2 i)]. rewrite N2 in Ei by done. rewrite Hn, decide_True in Ei by done. injection Ei as <-. done.
    + cbn [rev]. by rewrite <- app_assoc.
Qed.
End Harden.

(** ** Blocks outside the array *)

(** The walks write to the blocks of the array only. *)
Section Outside.
Context (a : list slot) (p : ptr).
Hypothesis Hp : forall i, atom_at a i <> Some p.

Lemma outside_insert (b : gmap ptr JSAtomStruct) i q s : atom_at a i = Some q -> <[q := s]> b !! p = b !! p.
Proof. intros Hq. apply lookup_insert_ne. intros ->. by apply (Hp i). Qed.

Lemma chain_push_outside t b q s j i st : atom_at a i = Some q -> chain_push t b q s j i = Some st -> st.2 !! p = b !! p.
Proof.
  intros Hq. unfold chain_push. destruct (aread t j) as [n|]; [|done]. cbn [mbind option_bind]. destruct (awrite t j i) as [t'|]; [|done]. cbn [mbind option_bind]. intros [= <-]. by apply (outside_insert _ i).
Qed.

Lemma rehash_chain_outside fuel m h st st' : rehash_chain fuel a m h st = Some st' -> st'.2 !! p = st.2 !! p.
Proof.
  revert h st. induction fuel as [|fuel IH]; intros h st; cbn [rehash_chain]; (case_if; [intros [= ->]; done|]); [done|].
  destruct (atom_at a h) as [q|] eqn:Eq; [|done]. cbn [mbind option_bind]. destruct (st.2 !! q) as [s|]; [|done]. cbn [mbind option_bind].
  destruct (chain_push _ _ _ _ _ _) as [st1|] eqn:E1; [|done]. cbn [mbind option_bind]. intros Hr. rewrite (IH _ _ Hr). by apply (chain_push_outside _ _ _ _ _ _ _ Eq E1).
Qed.

Lemma unlink_chain_outside fuel h st st' : unlink_chain fuel a h st = Some st' -> st'.2 !! p = st.2 !! p.
Proof.
  revert h st. induction fuel as [|fuel IH]; intros h st; cbn [unlink_chain]; (case_if; [intros [= ->]; done|]); [done|].
  destruct (atom_at a h) as [q|] eqn:Eq; [|done]. cbn [mbind option_bind]. destruct (st.2 !! q) as [s|]; [|done]. cbn [mbind option_bind].
  intros Hr. rewrite (IH _ _ Hr). cbn. by apply (outside_insert _ h).
Qed.

Lemma rehash_all_outside fuel k m h st st' : rehash_all fuel k a m h st = Some st' -> st'.2 !! p = st.2 !! p.
Proof.
  revert h st. induction fuel as [|fuel IH]; intros h st; cbn [rehash_all]; (case_if; [intros [= ->]; done|]); [done|].
  destruct (atom_at a h) as [q|] eqn:Eq; [|done]. cbn [mbind option_bind]. destruct (st.2 !! q) as [s|]; [|done]. cbn [mbind option_bind].
  destruct (chain_push _ _ _ _ _ _) as [st1|] eqn:E1; [|done]. cbn [mbind option_bind]. intros Hr. rewrite (IH _ _ Hr). by apply (chain_push_outside _ _ _ _ _ _ _ Eq E1).
Qed.

Lemma each_outside {A T} (f : T * gmap ptr JSAtomStruct -> A -> option (T * gmap ptr JSAtomStruct)) l st st' :
  (forall x st st', f st x = Some st' -> st'.2 !! p = st.2 !! p) -> each f l st = Some st' -> st'.2 !! p = st.2 !! p.
Proof.
  intros Hf. revert st. induction l as [|x l IH]; intros st; cbn [each]; [by intros [= ->]|]. destruct (f st x) as [st1|] eqn:E1; [|done]. cbn [mbind option_bind]. intros Hr. rewrite (IH _ Hr). by apply (Hf x).
Qed.
End Outside.
