(* ===== verification/AtomOps.v ===== *)
(** * The operations on the atom table

    The invariant of the atom table of [Atoms] and what each step of interning
    and freeing does to it, on top of the chains of [AtomTable]. *)
From Stdlib Require Import ZArith Lia List.
From stdpp Require Import base numbers option list gmap.
From S2P Require Import Prelude Strings StrHash AtomNames Atoms AtomTable.

(** ** Texts *)

(** The hash of a string is that of its units, at either width. *)
Lemma hash_units k p q t : units p = units q -> hash_string k p t = hash_string k q t.
Proof.
  intros E. unfold hash_string, hash_string_mode. rewrite E. destruct (atom_hash_strong k); cbn [negb].
  - by destruct (is_wide_char p), (is_wide_char q).
  - destruct (is_wide_char p), (is_wide_char q); by rewrite ?bytes_fast.
Qed.

Lemma same_atom_spec h q t s : str_ok (str s) -> str_ok q ->
  same_atom h q t s = Some (bool_decide (hash s = h /\ atom_type s = t /\ units (str s) = units q)).
Proof.
  intros Hs Hq. unfold same_atom. pose proof (str_ok_len _ Hq). destruct (Z.eqb_spec (hash s) h); cbn [andb]; [|by rewrite bool_decide_eq_false_2 by tauto].
  destruct (Z.eqb_spec (atom_type s) t); cbn [andb]; [|by rewrite bool_decide_eq_false_2 by tauto].
  pose proof Hs as (L1 & _ & _). pose proof Hq as (M1 & _ & _). destruct (Z.eqb_spec (len (str s)) (len q)) as [El|En].
  - rewrite js_string_memcmp_spec by (done || lia). cbn [mbind option_bind]. rewrite M1, Nat2Z.id, !firstn_all2 by (rewrite ?length_drop; lia).
    change (drop (Z.to_nat 0) (units (str s))) with (units (str s)). change (drop (Z.to_nat 0) (units q)) with (units q). f_equal.
    apply Bool.eq_iff_eq_true. rewrite Z.eqb_eq, bool_decide_eq_true. split; [|intros (_ & _ & ->); apply first_diff_refl]. intros E. split; [done|]. split; [done|]. apply first_diff_eq; [lia|done].
  - rewrite bool_decide_eq_false_2; [done|]. intros (_ & _ & E). apply En. rewrite L1, M1. by rewrite E.
Qed.

(** ** The walk along a chain *)

Section Walk.
Context (rt : atom_rt) (test : JSAtomStruct -> option bool) (P : JSAtomStruct -> bool).
Abbreviation nd := (node (atom_array rt) (blocks rt)).
Abbreviation lnk := (linked (nx (atom_array rt) (blocks rt))).

Lemma linked_cons_inv h j js : lnk h (j :: js) -> h = j /\ j <> 0 /\ exists p s, atom_at (atom_array rt) j = Some p /\ blocks rt !! p = Some s /\ nd j = Some s /\ lnk (hash_next s) js.
Proof.
  intros (-> & Hj & n & En & Hl). split; [done|]. split; [done|]. unfold nx in En. destruct (nd j) as [s|] eqn:Es; [|done]. cbn in En. injection En as <-.
  pose proof Es as Es'. unfold node in Es'. destruct (atom_at _ j) as [p|] eqn:Ep; [|done]. by exists p, s.
Qed.

Lemma find_chain_spec js fuel i n : (forall j s, j ∈ js -> nd j = Some s -> test s = Some (P s)) -> lnk i js -> (length js <= fuel)%nat ->
  exists r, find_chain fuel rt test i n = Some r /\
    match r with
    | Found j => j ∈ js /\ exists s, nd j = Some s /\ P s = true
    | Missing => forall j s, j ∈ js -> nd j = Some s -> P s = false
    | Flood => atom_hash_strong (keys rt) = false
    end.
Proof.
  revert fuel i n. induction js as [|j js IH]; intros fuel i n Ht Hl Hf.
  { cbn in Hl. subst i. exists Missing. destruct fuel; cbn; (split; [done|]); intros j s Hj; by apply not_elem_of_nil in Hj. }
  apply linked_cons_inv in Hl as (-> & Hj & p & s & Ep & Es & Hn & Hl). destruct fuel as [|fuel]; [cbn in Hf; lia|]. cbn [find_chain].
  rewrite (proj2 (Z.eqb_neq _ _)) by done. rewrite Ep. cbn [mbind option_bind]. rewrite Es. cbn [mbind option_bind]. rewrite (Ht j s) by (by (left || done)). cbn [mbind option_bind].
  destruct (P s) eqn:EP. { exists (Found j). split; [done|]. split; [by left|]. by exists s. }
  destruct (_ && _) eqn:Ef.
  - exists Flood. split; [done|]. apply andb_true_iff in Ef as [_ Ef]. by apply negb_true_iff.
  - destruct (IH fuel (hash_next s) (n + 1)) as (r & Er & Hr); [intros k s' Hk; apply Ht; by right|done|cbn in Hf; lia|]. exists r. split; [done|]. destruct r as [k| |]; [|intros k s' Hk Ek|done].
    + destruct Hr as [Hk Hr]. split; [by right|done].
    + apply elem_of_cons in Hk as [-> |Hk]; [by simplify_eq|by apply (Hr k)].
Qed.

Lemma index_loop_spec js fuel h p1 i p : injective (atom_array rt) -> lnk h js -> i ∈ js -> atom_at (atom_array rt) h = Some p1 -> atom_at (atom_array rt) i = Some p -> (length js <= S fuel)%nat ->
  index_loop fuel rt p h p1 = Some i.
Proof.
  intros Hinj. revert fuel h p1. induction js as [|j js IH]; intros fuel h p1 Hl Hi Eh Ei Hf; [by apply not_elem_of_nil in Hi|].
  apply linked_cons_inv in Hl as (-> & Hj & q & s & Ep & Es & Hn & Hl). assert (q = p1) as -> by congruence.
  assert (E : index_loop fuel rt p j p1 = if bool_decide (p1 = p) then Some j else match fuel with O => None | S fuel => if j =? 0 then None else s1 ← blocks rt !! p1; p2 ← atom_at (atom_array rt) (hash_next s1); index_loop fuel rt p (hash_next s1) p2 end) by (by destruct fuel).
  rewrite E. clear E. case_bool_decide as Hp; [subst p1; f_equal; by apply (Hinj j i p)|]. apply elem_of_cons in Hi as [-> |Hi]; [congruence|].
  destruct js as [|j' js]; [by apply not_elem_of_nil in Hi|]. destruct fuel as [|fuel]; [cbn in Hf; lia|]. rewrite (proj2 (Z.eqb_neq _ _)) by done. rewrite Es. cbn [mbind option_bind].
  destruct (linked_cons_inv _ _ _ Hl) as (E' & _ & p' & s' & Ep' & _). rewrite E', Ep'. cbn [mbind option_bind]. rewrite <- E' at 1. apply (IH fuel (hash_next s)); [by rewrite E' in *|done|by rewrite E'|done|cbn in *; lia].
Qed.
End Walk.

(** ** The invariant *)

(** The entries with a block. *)
Definition slot_ptr (e : slot) : option ptr := match e with Ptr p => Some p | Free _ => None end.
Definition used (a : list slot) : Z := Z.of_nat (length (omap slot_ptr a)).

Definition atom_ok (k : hash_rt) (i : Z) (s : JSAtomStruct) : Prop :=
  str_ok (str s) /\ is_slice (str s) = false /\ 1 <= ref_count s /\
  (interned s /\ i <> 0 /\ hashed k s \/ atom_type s = JS_ATOM_TYPE_SYMBOL /\ hash_next s = i /\ (hash s = 0 \/ hash s = JS_ATOM_HASH_PRIVATE)).

(** The chains hold the names and the registered symbols. *)
Definition index_ok (a : list slot) (b : gmap ptr JSAtomStruct) (t : list Z) : Prop :=
  size_ok (Z.of_nat (length t)) /\
  exists chains ms, table_ok a b t chains ms /\ forall j, j ∈ ms <-> exists s, node a b j = Some s /\ interned s.

Definition free_ok (a : list slot) (h : Z) : Prop := exists fs, linked (fnx a) h fs /\ NoDup fs /\ forall j, j ∈ fs <-> is_Some (fnx a j).

Record atoms_ok (rt : atom_rt) : Prop := {
  ao_inj : injective (atom_array rt);
  ao_atom : forall i p, atom_at (atom_array rt) i = Some p -> exists s, blocks rt !! p = Some s /\ atom_ok (keys rt) i s;
  ao_typed : forall p s, blocks rt !! p = Some s -> atom_type s <> 0 -> exists i, atom_at (atom_array rt) i = Some p;
  ao_index : index_ok (atom_array rt) (blocks rt) (atom_hash rt);
  ao_unique : forall i j s s', node (atom_array rt) (blocks rt) i = Some s -> node (atom_array rt) (blocks rt) j = Some s' -> interned s -> key s = key s' -> i = j;
  ao_free : free_ok (atom_array rt) (atom_free_index rt);
  ao_count : atom_count rt = used (atom_array rt);
  ao_resize : atom_count_resize rt = JS_ATOM_COUNT_RESIZE (atom_hash_size rt);
  ao_null : atom_array rt = [] \/ exists s, node (atom_array rt) (blocks rt) 0 = Some s /\ atom_type s = JS_ATOM_TYPE_SYMBOL;
  ao_size : atom_size rt <= JS_ATOM_MAX }.

Lemma interned_not_symbol s : interned s -> atom_type s <> JS_ATOM_TYPE_SYMBOL.
Proof. intros [E|E]; rewrite E; done. Qed.

Lemma interned_typed s : interned s -> atom_type s <> 0.
Proof. intros [E|E]; rewrite E; done. Qed.

Lemma interned_type s s' : atom_type s = atom_type s' -> interned s -> interned s'.
Proof. unfold interned. by intros ->. Qed.

Lemma node_at a b i s : node a b i = Some s <-> exists p, atom_at a i = Some p /\ b !! p = Some s.
Proof.
  unfold node. destruct (atom_at a i) as [p|]; cbn; [|split; [done|by intros (? & ? & _)]]. split; [by exists p|]. by intros (q & [= ->] & Hq).
Qed.

Lemma ao_node rt i s : atoms_ok rt -> node (atom_array rt) (blocks rt) i = Some s -> atom_ok (keys rt) i s.
Proof. intros H (p & Ep & Es)%node_at. destruct (ao_atom rt H i p Ep) as (s' & Es' & Hs). by simplify_eq. Qed.

Lemma atom_ok_typed k i s : atom_ok k i s -> atom_type s <> 0.
Proof. intros (_ & _ & _ & [[H _]|[E _]]); [by apply interned_typed|by rewrite E]. Qed.

(** A block that is not an atom is not in the array. *)
Lemma ao_outside rt p s : atoms_ok rt -> blocks rt !! p = Some s -> atom_type s = 0 -> forall i, atom_at (atom_array rt) i <> Some p.
Proof. intros H Hp Ht i Hi. destruct (ao_atom rt H i p Hi) as (s' & Es & Hs). simplify_eq. by apply atom_ok_typed in Hs. Qed.

(** What the counts, hashes and chains may become while the atoms stay. *)
Definition atom_upd (k : hash_rt) (s s' : JSAtomStruct) : Prop :=
  str s' = str s /\ atom_type s' = atom_type s /\ 1 <= ref_count s' /\
  (interned s -> hashed k s') /\ (atom_type s = JS_ATOM_TYPE_SYMBOL -> hash s' = hash s /\ hash_next s' = hash_next s).

Lemma atoms_ok_upd rt t b k mem :
  atoms_ok rt ->
  (forall i p s, atom_at (atom_array rt) i = Some p -> blocks rt !! p = Some s -> exists s', b !! p = Some s' /\ atom_upd k s s') ->
  (forall p s', b !! p = Some s' -> atom_type s' <> 0 -> exists i, atom_at (atom_array rt) i = Some p) ->
  index_ok (atom_array rt) b t ->
  atoms_ok (mk_art t (atom_count rt) (JS_ATOM_COUNT_RESIZE (Z.of_nat (length t))) (atom_array rt) (atom_free_index rt) b k mem).
Proof.
  intros H Hu Ht Hx. assert (Hn : forall i s', node (atom_array rt) b i = Some s' -> exists s, node (atom_array rt) (blocks rt) i = Some s /\ atom_upd k s s').
  { intros i s' (p & Ep & Es)%node_at. destruct (ao_atom rt H i p Ep) as (s & Es0 & _). destruct (Hu i p s Ep Es0) as (s1 & E1 & U). simplify_eq. exists s. split; [|done]. apply node_at. by exists p. }
  split; cbn -[JS_ATOM_MAX]; try apply H; try done.
  - intros i p Ep. destruct (ao_atom rt H i p Ep) as (s & Es & H1 & H2 & H3 & H4). destruct (Hu i p s Ep Es) as (s' & Es' & U1 & U2 & U3 & U4 & U5). exists s'. split; [done|].
    unfold atom_ok. rewrite U1, U2. split_and!; try done. destruct H4 as [(H4 & H5 & _)|(H4 & H5 & H6)]; [left|right; by destruct (U5 H4) as [-> ->]].
    split; [by apply (interned_type s)|]. split; [done|by apply U4].
  - intros i j s s' Hi Hj Hk E. destruct (Hn i s Hi) as (s0 & H0 & U1 & U2 & _), (Hn j s' Hj) as (s0' & H0' & U1' & U2' & _).
    apply (ao_unique rt H i j s0 s0'); [done|done|by apply (interned_type s)|]. unfold key in *. congruence.
  - destruct (ao_null rt H) as [?|(s & Es & E)]; [by left|right]. apply node_at in Es as (p & Ep & Es). destruct (Hu 0 p s Ep Es) as (s' & Es' & _ & U2 & _). exists s'. split; [apply node_at; by exists p|congruence].
Qed.

(** ** Growing the table and hashing it again *)

(** No allocation fails. *)
Definition mem_ok (rt : atom_rt) : Prop := Forall (eq true) (amem rt).

Lemma mem_ok_hd rt : mem_ok rt -> hd true (amem rt) = true /\ mem_ok (js_malloc_rt rt).2.
Proof. unfold mem_ok. destruct (amem rt) as [|b l] eqn:E; cbn; rewrite E; [done|]. intros H. apply Forall_cons in H as [<- H]. done. Qed.

(** What a reader of an atom sees, apart from its place in a chain. *)
Definition info (s : JSAtomStruct) : JSString * Z * Z := (str s, atom_type s, ref_count s).

(** Only hashes and chains change. *)
Definition same_view (rt rt' : atom_rt) : Prop :=
  atom_array rt' = atom_array rt /\ atom_free_index rt' = atom_free_index rt /\
  (forall i, info <$> node (atom_array rt) (blocks rt') i = info <$> node (atom_array rt) (blocks rt) i) /\
  (forall p, (forall i, atom_at (atom_array rt) i <> Some p) -> blocks rt' !! p = blocks rt !! p).

Lemma same_view_refl rt : same_view rt rt.
Proof. by repeat split. Qed.

Lemma empty_table a b n : table_ok a b (replicate n 0) (replicate n []) [].
Proof.
  assert (E : concat (replicate n ([] : list Z)) = []) by (induction n; [done|by cbn]). unfold table_ok. rewrite E. split_and!.
  - apply Forall2_same_length_lookup. rewrite !length_replicate. split; [done|]. intros i x y Hx Hy. apply lookup_replicate_1 in Hx as [-> _]. by apply lookup_replicate_1 in Hy as [-> _].
  - constructor.
  - done.
  - intros c js j s Hc Hj. apply lookup_replicate_1 in Hc as [-> _]. by apply not_elem_of_nil in Hj.
Qed.

Lemma same_atoms_info a b b' i : same_atoms b b' -> info <$> node a b' i = info <$> node a b i.
Proof.
  intros H. pose proof (same_atoms_node a b b' H i) as E. destruct (node a b' i), (node a b i); cbn in *; try done. injection E as E1 E2 E3 E4. unfold info. by rewrite E1, E2, E3.
Qed.

(** The step from the walks to the invariant: the blocks of [b] are the atoms of
    [rt], hashed with [k], and [t] has them. *)
Lemma same_atoms_view rt t b k mem ms chains :
  atoms_ok rt -> same_atoms (blocks rt) b -> size_ok (Z.of_nat (length t)) -> table_ok (atom_array rt) b t chains ms ->
  (forall p, (forall i, atom_at (atom_array rt) i <> Some p) -> b !! p = blocks rt !! p) ->
  (forall j, j ∈ ms <-> exists s, node (atom_array rt) (blocks rt) j = Some s /\ interned s) ->
  (forall j s, j ∈ ms -> node (atom_array rt) b j = Some s -> hashed k s) ->
  (forall j, j ∉ ms -> node (atom_array rt) b j = node (atom_array rt) (blocks rt) j) ->
  let rt' := mk_art t (atom_count rt) (JS_ATOM_COUNT_RESIZE (Z.of_nat (length t))) (atom_array rt) (atom_free_index rt) b k mem in
  atoms_ok rt' /\ same_view rt rt'.
Proof.
  intros H Hb Hs Ht Ho Hms Hh Hn rt'. pose proof (fun i => same_atoms_info (atom_array rt) _ _ i Hb) as Hi. split; [|by repeat split].
  assert (Hm : forall j s', node (atom_array rt) b j = Some s' -> exists s, node (atom_array rt) (blocks rt) j = Some s /\ info s = info s').
  { intros j s' E. specialize (Hi j). rewrite E in Hi. destruct (node _ (blocks rt) j) as [s|]; [|done]. exists s. split; [done|]. cbn in Hi. congruence. }
  apply atoms_ok_upd; [done| | |].
  - intros i p s Ep Es. assert (En : node (atom_array rt) (blocks rt) i = Some s) by (apply node_at; by exists p). pose proof (ao_node _ _ _ H En) as Ha. specialize (Hi i). rewrite En in Hi.
    destruct (node (atom_array rt) b i) as [s'|] eqn:E'; [|done]. injection Hi as I1 I2 I3. pose proof E' as (p' & Ep' & Es')%node_at. simplify_eq. exists s'. split; [done|].
    split; [done|]. split; [done|]. split; [rewrite I3; apply Ha|]. split.
    + intros Hs0. apply (Hh i); [|done]. apply Hms. by exists s.
    + intros Hy. rewrite (Hn i), En in E'; [by injection E' as <-|]. rewrite Hms. intros (s0 & E0 & Hs0). simplify_eq. by apply interned_not_symbol in Hs0.
  - intros p s' Es' Ty. destruct (blocks rt !! p) as [s|] eqn:Es.
    + apply (ao_typed rt H p s Es). specialize (Hb p). rewrite Es', Es in Hb. injection Hb as _ Hty _ _. congruence.
    + specialize (Hb p). by rewrite Es', Es in Hb.
  - split; [done|]. exists chains, ms. split; [done|]. intros j. rewrite Hms. split.
    + intros (s & Es & Hs0). specialize (Hi j). rewrite Es in Hi. destruct (node _ b j) as [s'|]; [|done]. injection Hi as _ I2 _. exists s'. split; [done|]. by apply (interned_type s).
    + intros (s' & Es' & Hs0). destruct (Hm j s' Es') as (s & Es & E). exists s. split; [done|]. injection E as _ I2 _. by apply (interned_type s').
Qed.

Lemma same_blocks_eq a b b' j : same_blocks b b' -> nx a b' j = nx a b j -> node a b' j = node a b j.
Proof.
  intros H E. pose proof (same_blocks_node a b b' H j) as En. unfold nx in E. destruct (node a b' j) as [[]|], (node a b j) as [[]|]; cbn in *; try done. by simplify_eq.
Qed.

Lemma same_blocks_hashed a b b' k j s : same_blocks b b' -> node a b' j = Some s -> exists s0, node a b j = Some s0 /\ (hashed k s0 -> hashed k s).
Proof.
  intros H E. pose proof (same_blocks_node a b b' H j) as En. rewrite E in En. destruct (node a b j) as [s0|]; [|done]. exists s0. split; [done|]. injection En as E1 E2 E3 _ _. unfold hashed. by rewrite E1, E2, E3.
Qed.

Lemma harden_spec rt : atoms_ok rt -> exists rt', js_atom_hash_harden rt = Some rt' /\ atoms_ok rt' /\ same_view rt rt' /\ amem rt' = amem rt /\ atom_hash_strong (keys rt') = true.
Proof.
  intros H. destruct (ao_index rt H) as (Hs & chains & ms & (T1 & T2 & T3 & T4) & Hms). pose proof (ao_inj rt H) as Hinj. unfold js_atom_hash_harden.
  destruct (unlink_chains_spec (atom_array rt) Hinj (atom_hash rt) chains 0 [] (blocks rt) T1 T2) as (h1 & b1 & l1 & E1 & B1 & X1 & L1 & N1 & M1); [done|intros j _; apply not_elem_of_nil|constructor|].
  rewrite E1. cbn [mbind option_bind fst snd]. unfold atom_hash_size.
  destruct (rehash_all_spec (atom_array rt) Hinj (set_strong (keys rt)) l1 (length (atom_array rt)) h1 (replicate (length (atom_hash rt)) 0) b1 (replicate (length (atom_hash rt)) []) [])
    as (t2 & b2 & c2 & E2 & L2 & B2 & N2 & H2 & T2'); [done|done|intros j _; apply not_elem_of_nil| |by rewrite length_replicate|apply empty_table|].
  { apply (nodes_bound (atom_array rt) b1); [done|]. by apply (linked_nodes (atom_array rt) b1 h1). }
  rewrite length_replicate in E2, L2. rewrite E2. cbn [mbind option_bind fst snd]. eexists. split; [done|].
  assert (Hm : forall j, j ∈ rev l1 ++ [] <-> j ∈ ms). { intros j. rewrite app_nil_r, list_elem_of_In, <- in_rev, <- list_elem_of_In, M1, T3, elem_of_nil. tauto. }
  destruct (same_atoms_view rt t2 b2 (set_strong (keys rt)) (amem rt) (rev l1 ++ []) c2) as [A V]; [done| |by rewrite L2|done| | | | |].
  - eapply same_atoms_trans; [by apply same_blocks_atoms|done].
  - intros p Hp. etransitivity; [exact (rehash_all_outside _ p Hp _ _ _ _ _ _ E2)|]. exact (each_outside p _ _ _ _ (fun x st st' => unlink_chain_outside _ p Hp _ x st st') E1).
  - intros j. by rewrite Hm.
  - intros j s Hj. apply H2. rewrite app_nil_r in Hj. by apply list_elem_of_In, in_rev, list_elem_of_In.
  - intros j Hj. assert (Hj' : j ∉ l1) by (intros Hj'; apply Hj; rewrite app_nil_r; apply list_elem_of_In; rewrite <- in_rev; by apply list_elem_of_In).
    rewrite N2 by done. apply same_blocks_eq; [done|]. apply X1. intros Hc. apply Hj'. rewrite M1. by left.
  - rewrite L2 in A, V. change (Z.of_nat (length (atom_hash rt))) with (atom_hash_size rt) in A, V. rewrite <- (ao_resize rt H) in A, V. by split_and!.
Qed.

Lemma resize_hash_spec rt n : atoms_ok rt -> size_ok n -> exists ok rt', JS_ResizeAtomHash rt n = Some (ok, rt') /\ atoms_ok rt' /\ same_view rt rt' /\ (mem_ok rt -> mem_ok rt').
Proof.
  intros H Hn. unfold JS_ResizeAtomHash. rewrite (size_ok_pow2 n Hn). cbn [Z.eqb negb]. cbn [js_malloc_rt].
  assert (H0 : atoms_ok (js_malloc_rt rt).2) by (destruct H; by split). destruct (hd true (amem rt)); cbn [negb]; [|exists false, (js_malloc_rt rt).2; split_and!; try done; apply mem_ok_hd].
  destruct (ao_index rt H) as (Hs & chains & ms & (T1 & T2 & T3 & T4) & Hms). pose proof (ao_inj rt H) as Hinj. pose proof (size_ok_pos n Hn) as Hpos. cbn.
  destruct (rehash_chains_spec (atom_array rt) Hinj (atom_hash rt) chains (replicate (Z.to_nat n) 0) (blocks rt) (replicate (Z.to_nat n) []) [])
    as (t2 & b2 & c2 & E2 & L2 & B2 & X2 & ms2 & T2' & M2); [done|done|intros j _; apply not_elem_of_nil|by rewrite length_replicate, Z2Nat.id by lia|apply empty_table|].
  rewrite length_replicate in L2, E2. rewrite Z2Nat.id in E2 by lia. rewrite E2. cbn [mbind option_bind fst snd]. eexists true, _. split; [done|].
  assert (El : n = Z.of_nat (length t2)) by (rewrite L2; lia).
  destruct (same_atoms_view rt t2 b2 (keys rt) (tl (amem rt)) ms2 c2) as [A V]; [done|by apply same_blocks_atoms|by rewrite <- El|done| | | | |].
  - intros p Hp. exact (each_outside p _ _ _ _ (fun x st st' => rehash_chain_outside _ p Hp _ _ x st st') E2).
  - intros j. rewrite M2, T3, elem_of_nil. rewrite <- Hms. tauto.
  - intros j s Hj Es. destruct (same_blocks_hashed _ _ _ (keys rt) j s B2 Es) as (s0 & E0 & Hh). apply Hh. pose proof (ao_node rt j s0 H E0) as (_ & _ & _ & [(_ & _ & ?)|(Hy & _)]); [done|].
    rewrite M2, T3, elem_of_nil in Hj. destruct Hj as [Hj|?]; [|done]. apply Hms in Hj as (s1 & Es1 & Hi). simplify_eq. by apply interned_not_symbol in Hi.
  - intros j Hj. apply same_blocks_eq; [done|]. apply X2. intros Hc. apply Hj. rewrite M2. by left.
  - rewrite El. split; [done|]. split; [done|]. apply mem_ok_hd.
Qed.

(** ** Searching *)

(** The chain of a hash has all atoms with it. *)
Lemma chain_at rt h : atoms_ok rt -> exists i js, aread (atom_hash rt) (h & (atom_hash_size rt - 1)) = Some i /\
  linked (nx (atom_array rt) (blocks rt)) i js /\ NoDup js /\ (length js <= length (atom_array rt))%nat /\
  (forall j s, j ∈ js -> node (atom_array rt) (blocks rt) j = Some s -> interned s) /\
  (forall j s, node (atom_array rt) (blocks rt) j = Some s -> interned s -> hash s = h -> j ∈ js).
Proof.
  intros H. destruct (ao_index rt H) as (Hs & chains & ms & (T1 & T2 & T3 & T4) & Hms). set (c := h & (atom_hash_size rt - 1)).
  assert (Hc : 0 <= c < atom_hash_size rt) by (by apply mask_range). unfold atom_hash_size in Hc. pose proof (Forall2_length _ _ _ T1) as Hl.
  destruct (lookup_lt_is_Some_2 (atom_hash rt) (Z.to_nat c)) as [i Ei]; [lia|]. destruct (lookup_lt_is_Some_2 chains (Z.to_nat c)) as [js Ejs]; [lia|].
  pose proof (Forall2_lookup_lr _ _ _ _ _ _ T1 Ei Ejs) as Hlk.
  assert (Hcc : forall c' js' j, chains !! c' = Some js' -> j ∈ js' -> j ∈ concat chains).
  { intros c' js' j Hc' Hj. apply list_elem_of_In, in_concat. exists js'. split; [by apply list_elem_of_In, (list_elem_of_lookup_2 _ c')|by apply list_elem_of_In]. }
  assert (Hnd : NoDup js). { rewrite <- (take_drop_middle chains _ js Ejs), concat_app in T2. cbn [concat] in T2. apply NoDup_app in T2 as (_ & _ & T2). by apply NoDup_app in T2 as (T2 & _). }
  exists i, js. split; [unfold aread; by rewrite (proj2 (Z.ltb_ge c 0)) by lia|]. split; [done|]. split; [done|].
  split; [apply (nodes_bound _ (blocks rt)); [done|]; by apply (linked_nodes _ (blocks rt) i)|]. split.
  - intros j s Hj Es. assert (Hm : j ∈ ms) by (apply T3; by apply (Hcc (Z.to_nat c) js)). apply Hms in Hm as (s' & Es' & Hi). by simplify_eq.
  - intros j s Es Hi Eh. assert (Hm : j ∈ concat chains) by (apply T3, Hms; by exists s). apply list_elem_of_In, in_concat in Hm as (js' & Hjs' & Hj). apply list_elem_of_In in Hjs', Hj.
    apply list_elem_of_lookup in Hjs' as (c' & Hc'). pose proof (T4 c' js' j s Hc' Hj Es) as E. rewrite Eh in E. change (Z.of_nat c' = c) in E. rewrite <- E, Nat2Z.id in Ejs. by simplify_eq.
Qed.

Lemma get_atom_index_spec rt i p : atoms_ok rt -> atom_at (atom_array rt) i = Some p -> js_get_atom_index rt p = Some i.
Proof.
  intros H Ep. destruct (ao_atom rt H i p Ep) as (s & Es & _ & _ & _ & Ha). unfold js_get_atom_index. rewrite Es. cbn [mbind option_bind].
  assert (En : node (atom_array rt) (blocks rt) i = Some s) by (apply node_at; by exists p).
  destruct Ha as [(Hi & Hi0 & _)|(Hy & Hn & _)].
  - rewrite (proj2 (Z.eqb_neq _ _)) by (by apply interned_not_symbol). cbn [negb]. destruct (chain_at rt (hash s) H) as (h & js & Eh & Hl & Hnd & Hlen & _ & Hin). rewrite Eh. cbn [mbind option_bind].
    specialize (Hin i s En Hi eq_refl). destruct js as [|j js]; [by apply not_elem_of_nil in Hin|]. destruct (linked_cons_inv _ _ _ _ Hl) as (-> & _ & p1 & _ & Ep1 & _). rewrite Ep1. cbn [mbind option_bind].
    apply (index_loop_spec rt (j :: js)); [apply H|done|done|done|done|lia].
  - rewrite Hy. cbn [negb Z.eqb]. by rewrite Hn.
Qed.

Lemma same_view_trans rt1 rt2 rt3 : same_view rt1 rt2 -> same_view rt2 rt3 -> same_view rt1 rt3.
Proof.
  intros (A1 & F1 & I1 & O1) (A2 & F2 & I2 & O2). unfold same_view. rewrite A1 in *. split_and!; [congruence|congruence|intros i; by rewrite I2, I1|intros p Hp; by rewrite O2, O1].
Qed.

Section Find.
Context (hash_of : hash_rt -> Z) (test : Z -> JSAtomStruct -> option bool) (Q : JSAtomStruct -> bool).
Hypothesis Htest : forall rt i s, atoms_ok rt -> node (atom_array rt) (blocks rt) i = Some s -> interned s ->
  let h := hash_of (keys rt) & JS_ATOM_HASH_MASK in test h s = Some (Q s) /\ (Q s = true -> hash s = h).

Lemma find_atom_spec rt : atoms_ok rt -> exists rt' r, find_atom rt hash_of test = Some (rt', hash_of (keys rt') & JS_ATOM_HASH_MASK, r) /\
  atoms_ok rt' /\ same_view rt rt' /\ amem rt' = amem rt /\
  match r with
  | Found i => exists s, node (atom_array rt') (blocks rt') i = Some s /\ interned s /\ Q s = true
  | _ => forall i s, node (atom_array rt') (blocks rt') i = Some s -> interned s -> Q s = false
  end.
Proof.
  intros H. set (look := fun rt : atom_rt => i ← aread (atom_hash rt) (hash_of (keys rt) & JS_ATOM_HASH_MASK & (atom_hash_size rt - 1));
    r ← find_chain (length (atom_array rt)) rt (test (hash_of (keys rt) & JS_ATOM_HASH_MASK)) i 0; Some (rt, hash_of (keys rt) & JS_ATOM_HASH_MASK, r)).
  assert (Hlook : forall rt, atoms_ok rt -> exists r, look rt = Some (rt, hash_of (keys rt) & JS_ATOM_HASH_MASK, r) /\
    match r with
    | Found i => exists s, node (atom_array rt) (blocks rt) i = Some s /\ interned s /\ Q s = true
    | Missing => forall i s, node (atom_array rt) (blocks rt) i = Some s -> interned s -> Q s = false
    | Flood => atom_hash_strong (keys rt) = false
    end).
  { clear rt H. intros rt H. unfold look. destruct (chain_at rt (hash_of (keys rt) & JS_ATOM_HASH_MASK) H) as (h & js & Eh & Hl & Hnd & Hlen & Hint & Hin). rewrite Eh. cbn [mbind option_bind].
    destruct (find_chain_spec rt (test (hash_of (keys rt) & JS_ATOM_HASH_MASK)) Q js (length (atom_array rt)) h 0) as (r & Er & Hr); [|done|done|].
    { intros j s Hj Es. apply (Htest rt j s H Es). by apply (Hint j). }
    rewrite Er. cbn [mbind option_bind]. exists r. split; [done|]. destruct r as [i| |]; [|intros i s Es Hi|done].
    - destruct Hr as (Hi & s & Es & HQ). exists s. split; [done|]. split; [by apply (Hint i)|done].
    - destruct (Q s) eqn:EQ; [|done]. rewrite <- EQ. apply (Hr i); [|done]. apply (Hin i s Es Hi). by apply (Htest rt i s H Es Hi). }
  unfold find_atom. destruct (Hlook rt H) as (r & Er & Hr). change (look rt = Some (rt, hash_of (keys rt) & JS_ATOM_HASH_MASK, r)) in Er. fold (look rt). rewrite Er. cbn [mbind option_bind snd].
  destruct r as [i| |].
  - exists rt, (Found i). split_and!; try done.
  - exists rt, Missing. split_and!; try done.
  - destruct (harden_spec rt H) as (rt1 & E1 & A1 & V1 & M1 & S1). rewrite E1. cbn [mbind option_bind]. destruct (Hlook rt1 A1) as (r1 & Er1 & Hr1). fold (look rt1). rewrite Er1.
    exists rt1, r1. split_and!; try done. destruct r1; [done|done|congruence].
Qed.
End Find.

(** The search of __JS_NewAtom is for the type and the text. *)
Lemma find_name_spec rt q t : atoms_ok rt -> str_ok q -> t = JS_ATOM_TYPE_STRING \/ t = JS_ATOM_TYPE_GLOBAL_SYMBOL ->
  exists rt' r, find_atom rt (fun k => hash_string k q t) (fun h => same_atom h q t) = Some (rt', hash_string (keys rt') q t & JS_ATOM_HASH_MASK, r) /\
  atoms_ok rt' /\ same_view rt rt' /\ amem rt' = amem rt /\
  match r with
  | Found i => exists s, node (atom_array rt') (blocks rt') i = Some s /\ key s = (t, units q)
  | _ => forall i s, node (atom_array rt') (blocks rt') i = Some s -> key s <> (t, units q)
  end.
Proof.
  intros H Hq Ht. destruct (find_atom_spec (fun k => hash_string k q t) (fun h => same_atom h q t) (fun s => bool_decide (key s = (t, units q)))) with (rt := rt) as (rt' & r & E & A & V & M & Hr); [|done|].
  - intros rt0 i s A Es Hi. destruct (ao_node rt0 i s A Es) as (Hs & _ & _ & [(_ & _ & Hh)|(Hy & _)]); [|by apply interned_not_symbol in Hi]. cbv zeta. rewrite same_atom_spec by done. unfold key.
    assert (Eh : (atom_type s, units (str s)) = (t, units q) -> hash s = hash_string (keys rt0) q t & JS_ATOM_HASH_MASK).
    { intros [= E1 E2]. rewrite Hh, E1. by rewrite (hash_units _ _ q t E2). }
    split; [|by intros E%bool_decide_eq_true; apply Eh]. f_equal. apply bool_decide_ext. split; [intros (_ & -> & ->); done|]. intros E. split; [by apply Eh|]. by injection E.
  - exists rt', r. split_and!; try done. assert (Hk : forall s, key s = (t, units q) -> interned s) by (intros s [= E0 _]; unfold interned; by rewrite E0).
    destruct r as [i| |]; [|intros i s Es E0; specialize (Hr i s Es (Hk s E0)); by apply bool_decide_eq_false in Hr..].
    destruct Hr as (s & Es & _ & Hb%bool_decide_eq_true). by exists s.
Qed.

(** ** Changes of the array and of other blocks *)

Lemma atom_at_slot a i : atom_at a i = e ← aread a i; slot_ptr e.
Proof. unfold atom_at. by destruct (aread a i) as [[]|]. Qed.

Lemma index_same a b a' b' t : (forall k, node a' b' k = node a b k) -> index_ok a b t -> index_ok a' b' t.
Proof.
  intros Hn (Hs & chains & ms & (T1 & T2 & T3 & T4) & Hms). split; [done|]. exists chains, ms. split; [|intros j; rewrite Hms; by setoid_rewrite Hn]. split_and!; try done.
  - eapply Forall2_impl; [exact T1|]. intros h js Hl. eapply link_ext; [|exact Hl]. intros j _. unfold nx. by rewrite Hn.
  - intros c js j s Hc Hj. rewrite Hn. by apply (T4 c js j s).
Qed.

(** Blocks that are not atoms come and go. *)
Lemma atoms_ok_blocks rt b mem : atoms_ok rt -> (forall i p, atom_at (atom_array rt) i = Some p -> b !! p = blocks rt !! p) ->
  (forall p s, b !! p = Some s -> atom_type s <> 0 -> blocks rt !! p = Some s) ->
  atoms_ok (mk_art (atom_hash rt) (atom_count rt) (atom_count_resize rt) (atom_array rt) (atom_free_index rt) b (keys rt) mem) /\
  forall i, node (atom_array rt) b i = node (atom_array rt) (blocks rt) i.
Proof.
  intros H Hb Ht. assert (Hn : forall i, node (atom_array rt) b i = node (atom_array rt) (blocks rt) i).
  { intros i. unfold node. destruct (atom_at (atom_array rt) i) as [p|] eqn:Ep; [|done]. cbn. by apply (Hb i). }
  split; [|done]. rewrite (ao_resize rt H). apply (atoms_ok_upd rt (atom_hash rt) b (keys rt) mem); [done| | |].
  - intros i p s Ep Es. exists s. split; [by rewrite (Hb i)|]. destruct (ao_atom rt H i p Ep) as (s' & Es' & Ha). simplify_eq.
    destruct Ha as (_ & _ & Hc & [(H1 & H2 & H3)|(H1 & _)]); split_and!; try done. intros Hi. by apply interned_not_symbol in Hi.
  - intros p s Hp Hs. apply (ao_typed rt H p s); [by apply Ht|done].
  - by apply (index_same (atom_array rt) (blocks rt)); [|apply H].
Qed.

(** More free entries. *)
Lemma atoms_ok_array rt a h mem : atoms_ok rt -> (forall i, atom_at a i = atom_at (atom_array rt) i) -> used a = used (atom_array rt) -> free_ok a h -> Z.of_nat (length a) <= JS_ATOM_MAX ->
  atoms_ok (mk_art (atom_hash rt) (atom_count rt) (atom_count_resize rt) a h (blocks rt) (keys rt) mem) \/ atom_array rt = [].
Proof.
  intros H Ha Hu Hf Hl. assert (Hn : forall b i, node a b i = node (atom_array rt) b i) by (intros b i; unfold node; by rewrite Ha).
  destruct (ao_null rt H) as [?|(s & Es & Et)]; [by right|left]. split; cbn -[JS_ATOM_MAX]; try done.
  - intros i j p. rewrite !Ha. apply H.
  - intros i p. rewrite Ha. apply H.
  - intros p s' Hp Hs. destruct (ao_typed rt H p s' Hp Hs) as [i Hi]. exists i. by rewrite Ha.
  - by apply (index_same (atom_array rt) (blocks rt)); [|apply H].
  - intros i j s1 s2. rewrite !Hn. apply H.
  - rewrite Hu. apply H.
  - apply H.
  - right. exists s. by rewrite Hn.
Qed.

Lemma slot_set a i e0 e : aread a i = Some e0 -> exists a', awrite a i e = Some a' /\ length a' = length a /\
  (forall k, aread a' k = if decide (k = i) then Some e else aread a k) /\ used a' = used a - (if slot_ptr e0 is Some _ then 1 else 0) + (if slot_ptr e is Some _ then 1 else 0).
Proof.
  intros E. pose proof (aread_some _ _ _ E) as Hi. exists (<[Z.to_nat i := e]> a). split; [by apply awrite_in|]. split; [apply length_insert|]. unfold aread in E. rewrite (proj2 (Z.ltb_ge i 0)) in E by lia. split.
  - intros k. unfold aread. case_decide as Hk; [subst k; rewrite (proj2 (Z.ltb_ge i 0)) by lia; apply list_lookup_insert_eq; lia|]. destruct (Z.ltb_spec k 0); [done|]. apply list_lookup_insert_ne. lia.
  - unfold used. rewrite <- (take_drop_middle a _ _ E) at 2. rewrite insert_take_drop by (apply lookup_lt_Some in E; done). rewrite !omap_app, !length_app. cbn [omap list_omap]. destruct (slot_ptr e0), (slot_ptr e); cbn [length]; lia.
Qed.

Lemma fnx_ptr a i : is_Some (fnx a i) -> atom_at a i = None.
Proof. unfold fnx, atom_at. destruct (aread a i) as [[]|]; [done|by intros []|by intros []]. Qed.

(** The free entries, in the order in which they are taken. *)
Definition frees (rt : atom_rt) (fs : list Z) : Prop := linked (fnx (atom_array rt)) (atom_free_index rt) fs.

Lemma link_unique f h js js' : linked f h js -> linked f h js' -> js = js'.
Proof.
  revert h js'. induction js as [|j js IH]; intros h js' Hl Hl'; [cbn in Hl; subst h; symmetry; by apply (linked_zero f)|]. destruct js' as [|j' js']; [cbn in Hl'; subst h; by apply linked_zero in Hl|].
  destruct Hl as (-> & _ & n & En & Hl), Hl' as (<- & _ & n' & En' & Hl'). simplify_eq. f_equal. by apply (IH n).
Qed.

(** The first free entry gets a block. *)
Lemma take_free rt p : atoms_ok rt -> atom_free_index rt <> 0 -> let i := atom_free_index rt in
  exists next a, aread (atom_array rt) i = Some (Free next) /\ awrite (atom_array rt) i (Ptr p) = Some a /\ length a = length (atom_array rt) /\
    (forall k, atom_at a k = if decide (k = i) then Some p else atom_at (atom_array rt) k) /\ atom_at (atom_array rt) i = None /\
    used a = used (atom_array rt) + 1 /\ free_ok a next /\ (forall fs, frees rt fs -> exists fs', fs = i :: fs' /\ linked (fnx a) next fs').
Proof.
  intros H Hi i. destruct (ao_free rt H) as (fs & Hl & Hnd & Hfs). fold i in Hl, Hi. destruct fs as [|j fs]; [done|]. destruct Hl as (<- & _ & next & En & Hl).
  pose proof En as En'. unfold fnx in En'. destruct (aread (atom_array rt) i) as [[n|]|] eqn:Er; [|done|done]. simplify_eq.
  destruct (slot_set _ _ _ (Ptr p) Er) as (a & Ea & La & Ra & Ua). exists next, a. split; [done|]. split; [done|]. split; [done|].
  assert (Hfn : forall k, fnx a k = if decide (k = i) then None else fnx (atom_array rt) k) by (intros k; unfold fnx; rewrite Ra; by case_decide).
  split; [intros k; rewrite !atom_at_slot, Ra; by case_decide|]. split; [by apply fnx_ptr; rewrite En|]. split; [rewrite Ua; cbn; lia|].
  apply NoDup_cons in Hnd as [Hni Hnd]. assert (Hl2 : linked (fnx a) next fs) by (eapply link_ext; [|exact Hl]; intros k Hk; rewrite Hfn, decide_False; [done|]; by intros ->). split.
  - exists fs. split; [done|]. split; [done|]. intros k. rewrite Hfn. case_decide as Hk; [subst k; split; [done|by intros []]|]. rewrite <- Hfs, elem_of_cons. tauto.
  - intros fs0 H0. exists fs. split; [|done]. apply (link_unique _ _ _ _ H0). split; [done|]. split; [done|]. by exists next.
Qed.

(** ** A new atom *)

Lemma table_members a b a' b' t chains ms : (forall j, j ∈ ms -> node a' b' j = node a b j) -> table_ok a b t chains ms -> table_ok a' b' t chains ms.
Proof.
  intros Hn (T1 & T2 & T3 & T4). assert (Hin : forall c js j, chains !! c = Some js -> j ∈ js -> j ∈ ms).
  { intros c js j Hc Hj. apply T3, list_elem_of_In, in_concat. exists js. split; [by apply list_elem_of_In, (list_elem_of_lookup_2 _ c)|by apply list_elem_of_In]. }
  split_and!; try done.
  - apply Forall2_same_length_lookup. split; [by apply Forall2_length in T1|]. intros c h js Eh Ec. eapply link_ext; [|by apply (Forall2_lookup_lr _ _ _ _ _ _ T1 Eh Ec)].
    intros j Hj. unfold nx. by rewrite Hn by (by apply (Hin c js)).
  - intros c js j s Hc Hj. rewrite Hn by (by apply (Hin c js)). by apply (T4 c js j s).
Qed.

Section Add.
Context (rt : atom_rt) (p : ptr) (a : list slot) (next : Z).
Abbreviation i := (atom_free_index rt).
Hypothesis H : atoms_ok rt.
Hypothesis Hp : forall k, atom_at (atom_array rt) k <> Some p.
Hypothesis Hi : i <> 0.
Hypothesis Ha : forall k, atom_at a k = if decide (k = i) then Some p else atom_at (atom_array rt) k.
Hypothesis Hai : atom_at (atom_array rt) i = None.

Lemma add_inj : injective a.
Proof.
  intros j k q. rewrite !Ha. case_decide as Hj; case_decide as Hk; [congruence| | |apply H].
  - intros [= <-] E. by apply Hp in E.
  - intros E [= <-]. by apply Hp in E.
Qed.

Lemma add_node s k : node a (<[p := s]> (blocks rt)) k = if decide (k = i) then Some s else node (atom_array rt) (blocks rt) k.
Proof.
  unfold node. rewrite Ha. case_decide as Hk; [cbn; by rewrite lookup_insert_eq|]. destruct (atom_at (atom_array rt) k) as [q|] eqn:Eq; [|done]. cbn. rewrite lookup_insert_ne; [done|]. intros ->. by apply Hp in Eq.
Qed.

Lemma add_node_none : node (atom_array rt) (blocks rt) i = None.
Proof. unfold node. by rewrite Hai. Qed.

Lemma atoms_ok_add s t mem : length a = length (atom_array rt) -> used a = used (atom_array rt) + 1 -> free_ok a next ->
  atom_ok (keys rt) i s -> (interned s -> forall k s', node (atom_array rt) (blocks rt) k = Some s' -> key s' <> key s) ->
  index_ok a (<[p := s]> (blocks rt)) t -> length t = length (atom_hash rt) ->
  atoms_ok (mk_art t (atom_count rt + 1) (atom_count_resize rt) a next (<[p := s]> (blocks rt)) (keys rt) mem).
Proof.
  intros Hl Hu Hf Hs Hk Hx Ht. split; cbn -[JS_ATOM_MAX]; try done.
  - apply add_inj.
  - intros k q. rewrite Ha. case_decide as Hk'.
    + intros [= <-]. exists s. rewrite lookup_insert_eq. by subst.
    + intros Eq. rewrite lookup_insert_ne by (intros ->; by apply Hp in Eq). by apply (ao_atom rt H).
  - intros q s'. destruct (decide (q = p)) as [-> |Hq].
    + intros _ _. exists i. by rewrite Ha, decide_True.
    + rewrite lookup_insert_ne by done. intros Eq Hs'. destruct (ao_typed rt H q s' Eq Hs') as [k Ek]. exists k. rewrite Ha, decide_False; [done|]. intros ->. congruence.
  - intros j k s1 s2. rewrite !add_node. case_decide as Hj; case_decide as Hk'; [congruence| | |apply H].
    + intros [= <-] E2 Hi1 E. exfalso. by apply (Hk Hi1 k s2).
    + intros E1 [= <-] Hi1 E. exfalso. apply (Hk) with (k := j) (s' := s1); [|done|done]. apply (interned_type s1); [by injection E|done].
  - rewrite Hu, (ao_count rt H). done.
  - rewrite (ao_resize rt H). unfold atom_hash_size. cbn. by rewrite Ht.
  - right. destruct (ao_null rt H) as [E|(s0 & E0 & Et)].
    + exfalso. rewrite E in Hl. specialize (Ha i). rewrite decide_True in Ha by done. destruct a; [|done]. unfold atom_at, aread in Ha. by destruct (i <? 0).
    + exists s0. rewrite add_node, decide_False by congruence. done.
  - unfold atom_size. cbn [atom_array]. rewrite Hl. apply H.
Qed.

(** The chains of the old atoms are those of the new array. *)
Lemma add_table b chains ms : (forall q, q <> p -> b !! q = blocks rt !! q) -> table_ok (atom_array rt) (blocks rt) (atom_hash rt) chains ms ->
  (forall j, j ∈ ms <-> exists s, node (atom_array rt) (blocks rt) j = Some s /\ interned s) -> (i ∉ ms) /\ table_ok a b (atom_hash rt) chains ms.
Proof.
  intros Hb Ht Hms. assert (Hni : i ∉ ms) by (rewrite Hms; intros (s' & E & _); by rewrite add_node_none in E). split; [done|].
  apply (table_members (atom_array rt) (blocks rt)); [|done]. intros j Hj. unfold node. rewrite Ha, decide_False by (by intros ->). destruct (atom_at (atom_array rt) j) as [q|] eqn:Eq; [|done]. cbn. apply Hb. intros ->. by apply Hp in Eq.
Qed.

Lemma add_symbol_index s : atom_type s = JS_ATOM_TYPE_SYMBOL -> index_ok a (<[p := s]> (blocks rt)) (atom_hash rt).
Proof.
  intros Hs. destruct (ao_index rt H) as (Hsz & chains & ms & Ht & Hms). split; [done|]. exists chains, ms.
  destruct (add_table (<[p := s]> (blocks rt)) chains ms) as [Hni Ht']; [intros q Hq; by rewrite lookup_insert_ne|done|done|]. split; [done|].
  intros j. rewrite add_node. case_decide as Hj; [|by rewrite Hms]. subst j. split; [done|]. intros (s' & [= <-] & Hi'). by apply interned_not_symbol in Hi'.
Qed.

Lemma add_name_index s : interned s -> exists t n, chain_push (atom_hash rt) (blocks rt) p s (hash s & (atom_hash_size rt - 1)) i = Some (t, <[p := with_next s n]> (blocks rt)) /\
  length t = length (atom_hash rt) /\ index_ok a (<[p := with_next s n]> (blocks rt)) t.
Proof.
  intros Hs. destruct (ao_index rt H) as (Hsz & chains & ms & Ht & Hms). destruct (add_table (blocks rt) chains ms) as [Hni Ht']; [done|done|done|].
  assert (Hpi : atom_at a i = Some p) by (by rewrite Ha, decide_True).
  destruct (table_push a (blocks rt) (atom_hash rt) chains ms p s i) as (t & b & c & E & L & B & T); [apply add_inj|done|done|done|done|pose proof (size_ok_pos _ Hsz); lia|by apply mask_range|].
  exists t. eexists. rewrite B in E, T. split; [exact E|]. split; [done|]. split; [by rewrite L|]. exists c, (i :: ms). split; [done|].
  intros j. rewrite elem_of_cons, add_node. case_decide as Hj.
  - subst j. split; [intros _; eexists; split; [done|done]|by left].
  - rewrite Hms. tauto.
Qed.
End Add.

(** The two ways in which a block becomes an atom. *)
Definition addable (rt : atom_rt) (s : JSAtomStruct) (h t : Z) : Prop :=
  (t = JS_ATOM_TYPE_STRING \/ t = JS_ATOM_TYPE_GLOBAL_SYMBOL) /\ h = hash_string (keys rt) (str s) t & JS_ATOM_HASH_MASK /\
    (forall k s', node (atom_array rt) (blocks rt) k = Some s' -> key s' <> (t, units (str s))) \/
  t = JS_ATOM_TYPE_SYMBOL /\ (h = 0 \/ h = JS_ATOM_HASH_PRIVATE).

Lemma used_bound a : used a <= Z.of_nat (length a).
Proof. unfold used. induction a as [|e a IH]; [done|]. cbn [omap list_omap length]. destruct (slot_ptr e); cbn [length]; lia. Qed.

(** The size to which the hash table grows. *)
Lemma double_size n c : size_ok n -> JS_ATOM_COUNT_RESIZE n <= c -> c <= JS_ATOM_MAX -> size_ok (n * 2).
Proof.
  intros (k & Hk & ->) Hc Hm. unfold JS_ATOM_COUNT_RESIZE, JS_ATOM_MAX in *. change ((1 << 30) - 1) with (2 ^ 30 - 1) in Hm. exists (k + 1). rewrite Z.pow_add_r by lia. split; [|lia].
  split; [lia|]. destruct (Z_le_gt_dec (k + 1) 30); [lia|]. assert (2 ^ 30 <= 2 ^ k) by (apply Z.pow_le_mono_r; lia). lia.
Qed.

Lemma add_atom_spec rt p s h t : atoms_ok rt -> atom_free_index rt <> 0 -> blocks rt !! p = Some s -> atom_type s = 0 -> is_slice (str s) = false -> str_ok (str s) -> 1 <= ref_count s ->
  addable rt s h t ->
  let i := atom_free_index rt in node (atom_array rt) (blocks rt) i = None /\
  exists rt', add_atom rt p h t = Some (i, rt') /\ atoms_ok rt' /\
    (forall k, info <$> node (atom_array rt') (blocks rt') k = if decide (k = i) then Some (str s, t, ref_count s) else info <$> node (atom_array rt) (blocks rt) k) /\
    (mem_ok rt -> mem_ok rt') /\ (forall fs, frees rt fs -> exists fs', fs = i :: fs' /\ frees rt' fs').
Proof.
  intros H Hi Es Ht Hsl Hso Hr Had i. pose proof (ao_outside rt p s H Es Ht) as Hp. destruct (take_free rt p H Hi) as (next & a & Er & Ew & La & Aa & Ai & Ua & Fa & Ff). fold i in Er, Ew, Aa, Ai, Hi.
  split; [by apply add_node_none|]. unfold add_atom. fold i. rewrite Er. cbn [mbind option_bind]. rewrite Ew. cbn [mbind option_bind]. cbn [blocks set_array atom_hash set_blocks set_table atom_hash_size]. rewrite Es. cbn [mbind option_bind].
  destruct Had as [(Hty & Hh & Hnew)|(-> & Hh)].
  - assert (Hint : interned (with_atom s h t i)) by done. rewrite (proj2 (Z.eqb_neq t JS_ATOM_TYPE_SYMBOL)) by (by apply (interned_not_symbol (with_atom s h t i))). cbn [negb].
    destruct (add_name_index rt p a H Hp Hi Aa Ai (with_atom s h t i) Hint) as (t2 & n & E2 & L2 & X2). fold i in E2. cbn [hash with_atom] in E2. unfold atom_hash_size in E2 |- *. cbn [atom_hash set_array].
    change (mk_atom (str s) h t i (ref_count s) (parent s)) with (with_atom s h t i) in E2. rewrite E2. cbn [mbind option_bind fst snd].
    assert (A2 : atoms_ok (mk_art t2 (atom_count rt + 1) (atom_count_resize rt) a next (<[p := with_next (with_atom s h t i) n]> (blocks rt)) (keys rt) (amem rt))).
    { apply atoms_ok_add; try done. split; [done|]. split; [done|]. split; [done|]. left. split; [done|]. by split. }
    assert (V2 : forall k, info <$> node a (<[p := with_next (with_atom s h t i) n]> (blocks rt)) k = if decide (k = i) then Some (str s, t, ref_count s) else info <$> node (atom_array rt) (blocks rt) k).
    { intros k. rewrite add_node by done. fold i. by case_decide. }
    cbn [atom_count_resize atom_count set_table set_array atom_hash]. destruct (Z.leb_spec (atom_count_resize rt) (atom_count rt + 1)) as [Hc|_].
    + destruct (resize_hash_spec _ (Z.of_nat (length t2) * 2) A2) as (ok & rt' & E' & A' & (V1 & V1' & V3 & _) & M').
      { rewrite L2. apply (double_size _ (atom_count rt + 1)); [apply (ao_index rt H)|rewrite (ao_resize rt H) in Hc; done|]. rewrite (ao_count rt H), <- Ua. etransitivity; [apply used_bound|]. rewrite La. apply H. }
      cbn in E'. unfold set_table. cbn [atom_hash atom_count atom_count_resize atom_array atom_free_index keys amem set_array]. rewrite E'. cbn [mbind option_bind snd]. exists rt'. split; [done|]. split; [done|]. cbn [atom_array atom_free_index] in *. unfold frees. rewrite V1, V1'.
      split; [|by split]. intros k. rewrite V3. apply V2.
    + eexists. split; [done|]. split; [exact A2|]. by split.
  - cbn [negb Z.eqb]. change (negb (JS_ATOM_TYPE_SYMBOL =? JS_ATOM_TYPE_SYMBOL)) with false.
    exists (mk_art (atom_hash rt) (atom_count rt + 1) (atom_count_resize rt) a next (<[p := with_atom s h JS_ATOM_TYPE_SYMBOL i]> (blocks rt)) (keys rt) (amem rt)). split; [done|]. split.
    + apply atoms_ok_add; try done.
      * split; [done|]. split; [done|]. split; [done|]. right. by split_and!.
      * intros Hx. by apply interned_not_symbol in Hx.
      * by apply add_symbol_index.
    + split; [|by split]. intros k. cbn. rewrite add_node by done. fold i. by case_decide.
Qed.

(** ** More entries *)

Definition grow_free (start new_size : Z) : list slot := map (fun i => Free (if i =? new_size - 1 then 0 else i + 1)) (seqZ start (new_size - start)).

Lemma grow_free_lookup a new_size k : let start := Z.of_nat (length a) in start <= new_size ->
  aread (a ++ grow_free start new_size) k =
  if decide (start <= k < new_size) then Some (Free (if k =? new_size - 1 then 0 else k + 1)) else aread a k.
Proof.
  intros start Hn. unfold aread, grow_free. destruct (Z.ltb_spec k 0); [rewrite decide_False by lia; done|]. destruct (decide (k < start)) as [Hk|Hk].
  - rewrite decide_False by lia. apply lookup_app_l. lia.
  - rewrite lookup_app_r by lia. change (map ?f ?l) with (f <$> l). rewrite list_lookup_fmap. case_decide as Hd.
    + rewrite lookup_seqZ_lt by lia. cbn. replace (start + Z.of_nat (Z.to_nat k - length a)) with k by lia. done.
    + rewrite lookup_seqZ_ge by lia. symmetry. cbn. apply lookup_ge_None. lia.
Qed.

Lemma omap_none {A B} (f : A -> option B) l : (forall x, x ∈ l -> f x = None) -> omap f l = [].
Proof. intros Hf. induction l as [|x l IH]; [done|]. cbn. rewrite (Hf x) by (by left). apply IH. intros y Hy. apply Hf. by right. Qed.

Lemma grow_free_used a start new_size : used (a ++ grow_free start new_size) = used a.
Proof.
  unfold used. rewrite omap_app, length_app, (omap_none _ (grow_free _ _)); [cbn; lia|]. intros e. unfold grow_free. rewrite list_elem_of_In, in_map_iff. by intros (x & <- & _).
Qed.

Lemma grow_free_at a new_size k : let start := Z.of_nat (length a) in start <= new_size -> atom_at (a ++ grow_free start new_size) k = atom_at a k.
Proof.
  intros start Hn. rewrite !atom_at_slot, grow_free_lookup by done. case_decide as Hk; [|done]. cbn. unfold aread. rewrite (proj2 (Z.ltb_ge k 0)) by lia. rewrite lookup_ge_None_2 by lia. done.
Qed.

Lemma grow_linked f new_size lo : 1 <= lo -> (forall k, lo <= k < new_size -> f k = Some (if k =? new_size - 1 then 0 else k + 1)) ->
  forall n k, lo <= k -> k + Z.of_nat n = new_size - 1 -> linked f k (seqZ k (Z.of_nat (S n))).
Proof.
  intros Hlo Hf. induction n as [|n IH]; intros k Hk Hn.
  - change (Z.of_nat 1) with 1. rewrite (seqZ_cons k 1) by lia. cbn [Z.pred]. rewrite (seqZ_nil _ (Z.pred 1)) by lia. split; [done|]. split; [lia|]. exists 0. rewrite Hf by lia. by replace (k =? new_size - 1) with true by lia.
  - rewrite seqZ_cons by lia. split; [done|]. split; [lia|]. exists (k + 1). rewrite Hf by lia. replace (k =? new_size - 1) with false by lia. split; [done|]. replace (Z.pred (Z.of_nat (S (S n)))) with (Z.of_nat (S n)) by lia. apply IH; lia.
Qed.

(** The new entries are the free list. *)
Lemma grow_free_fnx a new_size : let start := Z.of_nat (length a) in start < new_size -> (forall k, fnx a k = None) ->
  forall k, fnx (a ++ grow_free start new_size) k = if decide (start <= k < new_size) then Some (if k =? new_size - 1 then 0 else k + 1) else None.
Proof. intros start Hs Ha k. unfold fnx. unfold start. rewrite grow_free_lookup by lia. fold start. case_decide; [done|]. apply (Ha k). Qed.

Lemma grow_free_linked a new_size : let start := Z.of_nat (length a) in 1 <= start < new_size -> (forall k, fnx a k = None) ->
  linked (fnx (a ++ grow_free start new_size)) start (seqZ start (new_size - start)).
Proof.
  intros start Hs Ha. replace (new_size - start) with (Z.of_nat (S (Z.to_nat (new_size - start - 1)))) by lia. apply (grow_linked _ new_size start); [lia| |lia|lia].
  intros k Hk. unfold start. rewrite grow_free_fnx by (done || lia). fold start. by rewrite decide_True by lia.
Qed.

Lemma grow_free_ok a new_size : let start := Z.of_nat (length a) in 1 <= start < new_size -> (forall k, fnx a k = None) -> free_ok (a ++ grow_free start new_size) start.
Proof.
  intros start Hs Ha. exists (seqZ start (new_size - start)). split; [by apply grow_free_linked|]. split; [apply NoDup_seqZ|].
  intros k. unfold start. rewrite grow_free_fnx by (done || lia). fold start. rewrite elem_of_seqZ. case_decide; [split; [eauto|lia]|split; [lia|by intros []]].
Qed.

(** Three halves of the size fit an int. *)
Definition GROW_MAX : Z := 715827882.

Lemma new_atom_size_spec n : 0 <= n <= GROW_MAX -> n < new_atom_size n <= JS_ATOM_MAX.
Proof.
  intros Hn. unfold new_atom_size, GROW_MAX in *. assert (E : i32 (n * 3) = n * 3) by (apply swrap_id; [done|unfold sfits; lia]). rewrite E, Z.quot_div_nonneg by lia. pose proof (Z.div_mod (n * 3) 2). pose proof (Z.mod_pos_bound (n * 3) 2).
  unfold JS_ATOM_MAX. change ((1 << 30) - 1) with 1073741823. lia.
Qed.

(** The state after a step of the array: more entries, perhaps the first block. *)
Definition grown (rt rt' : atom_rt) : Prop :=
  keys rt' = keys rt /\ (forall k, k <> 0 -> node (atom_array rt') (blocks rt') k = node (atom_array rt) (blocks rt) k) /\ (forall p s, blocks rt !! p = Some s -> blocks rt' !! p = Some s).

Lemma grown_refl rt : grown rt rt.
Proof. by repeat split. Qed.

Lemma first_block rt p new_size mem : atoms_ok rt -> atom_array rt = [] -> 1 < new_size <= JS_ATOM_MAX -> blocks rt !! p = None ->
  atoms_ok (mk_art (atom_hash rt) (atom_count rt + 1) (atom_count_resize rt) ([Ptr p] ++ grow_free 1 new_size) 1
    (<[p := mk_atom (mk_str 0 false false []) 0 JS_ATOM_TYPE_SYMBOL 0 1 None]> (blocks rt)) (keys rt) mem).
Proof.
  intros H Ea Hn Hp. set (s0 := mk_atom _ _ _ _ _ _). set (a := [Ptr p] ++ grow_free 1 new_size).
  assert (Hat : forall k, atom_at a k = if decide (k = 0) then Some p else None).
  { intros k. subst a. rewrite (grow_free_at [Ptr p]) by (cbn; lia). rewrite atom_at_slot. unfold aread. case_decide as Hk; [by subst|]. destruct (Z.ltb_spec k 0); [done|]. by rewrite lookup_ge_None_2 by (cbn; lia). }
  assert (Hnd : forall k, node a (<[p := s0]> (blocks rt)) k = if decide (k = 0) then Some s0 else None).
  { intros k. unfold node. rewrite Hat. case_decide; [|done]. cbn. by rewrite lookup_insert_eq. }
  split; cbn -[JS_ATOM_MAX].
  - intros i j q. rewrite !Hat. case_decide; [|done]. case_decide; [|done]. congruence.
  - intros i q. rewrite Hat. case_decide; [|done]. intros [= <-]. exists s0. rewrite lookup_insert_eq. split; [done|]. subst i. split; [|split; [done|split; [done|right; split_and!; try done; by left]]]. split; [done|]. split; [done|constructor].
  - intros q s Hq Hs. destruct (decide (q = p)) as [-> |Hne]; [exists 0; by rewrite Hat|]. rewrite lookup_insert_ne in Hq by done. destruct (ao_typed rt H q s Hq Hs) as [i Hi]. rewrite Ea in Hi. unfold atom_at, aread in Hi. by destruct (i <? 0).
  - destruct (ao_index rt H) as (Hs & chains & ms & Ht & Hms). split; [done|]. exists chains, ms.
    assert (Hno : forall j, j ∉ ms). { intros j Hj. apply Hms in Hj as (s & Es & _). rewrite Ea in Es. unfold node, atom_at, aread in Es. by destruct (j <? 0). }
    split; [apply (table_members (atom_array rt) (blocks rt)); [intros j Hj; by apply Hno in Hj|done]|]. intros j. split; [intros Hj; by apply Hno in Hj|]. intros (s & Es & Hi). rewrite Hnd in Es. case_decide; [|done]. simplify_eq. by apply interned_not_symbol in Hi.
  - intros i j s s'. rewrite !Hnd. case_decide; [|done]. case_decide; [|done]. congruence.
  - apply (grow_free_ok [Ptr p]); [cbn; lia|]. intros k. unfold fnx, aread. destruct (Z.ltb_spec k 0); [done|]. destruct (Z.to_nat k) as [|[|n]]; done.
  - rewrite (ao_count rt H), Ea. change (0 + 1 = used ([Ptr p] ++ grow_free 1 new_size)). by rewrite grow_free_used.
  - apply H.
  - right. exists s0. by rewrite Hnd.
  - unfold atom_size. cbn [atom_array]. subst a. unfold grow_free. cbn [length app]. rewrite length_map, length_seqZ. lia.
Qed.

Lemma grow_array_spec rt : atoms_ok rt -> atom_free_index rt = 0 -> atom_size rt <= GROW_MAX ->
  exists ok rt', grow_array rt = Some (ok, rt') /\ atoms_ok rt' /\ grown rt rt' /\ (ok = true -> atom_free_index rt' <> 0) /\ (mem_ok rt -> ok = true /\ mem_ok rt') /\
    (ok = true -> atom_array rt = [] -> frees rt' (seqZ 1 710)).
Proof.
  intros H Hf0 Hsz. pose proof (new_atom_size_spec (atom_size rt)) as Hns. unfold atom_size in Hns. unfold grow_array. set (n := new_atom_size (atom_size rt)) in *. change (new_atom_size (Z.of_nat (length (atom_array rt)))) with n in Hns.
  assert (Hn : Z.of_nat (length (atom_array rt)) < n <= JS_ATOM_MAX) by (apply Hns; unfold atom_size in Hsz; lia). clear Hns. rewrite (proj2 (Z.ltb_ge JS_ATOM_MAX n)) by lia.
  destruct (js_malloc_rt rt) as [ok rt1] eqn:E1. assert (A1 : atoms_ok rt1) by (injection E1 as _ <-; destruct H; by split). assert (Eok : hd true (amem rt) = ok) by (by injection E1).
  assert (Hm : mem_ok rt -> ok = true /\ mem_ok rt1) by (intros Hm; destruct (mem_ok_hd rt Hm) as [? ?]; rewrite E1 in *; split; [congruence|done]).
  assert (Er : atom_array rt1 = atom_array rt /\ blocks rt1 = blocks rt /\ keys rt1 = keys rt /\ atom_free_index rt1 = 0) by (injection E1 as _ <-; done). destruct Er as (R1 & R2 & R3 & R4). clear E1.
  destruct ok; cbn [negb]. 2: { exists false, rt1. split; [done|]. split; [done|]. split; [unfold grown; by rewrite R1, R2, R3|]. split; [done|]. split; [intros Hm1; by destruct (Hm Hm1)|done]. }
  assert (Hfill : forall a : list slot, Z.of_nat (length a) <= n -> take (Z.to_nat n) (a ++ map (fun i => Free (if i =? n - 1 then 0 else i + 1)) (seqZ (Z.of_nat (length a)) (n - Z.of_nat (length a)))) = a ++ grow_free (Z.of_nat (length a)) n).
  { intros a Ha. apply firstn_all2. unfold grow_free. rewrite length_app, length_map, length_seqZ. lia. }
  unfold atom_size. rewrite R1. destruct (Z.eqb_spec (Z.of_nat (length (atom_array rt))) 0) as [E0|E0].
  - assert (Ea : atom_array rt = []) by (destruct (atom_array rt); [done|cbn in E0; lia]).
    destruct (js_malloc_rt rt1) as [ok2 rt2] eqn:E2. assert (A2 : atoms_ok rt2) by (injection E2 as _ <-; destruct A1; by split). assert (Eok2 : hd true (amem rt1) = ok2) by (by injection E2).
    assert (Hm2 : mem_ok rt -> ok2 = true /\ mem_ok rt2) by (intros Hm'; apply Hm in Hm' as [_ Hm']; destruct (mem_ok_hd rt1 Hm') as [? ?]; rewrite E2 in *; split; [congruence|done]).
    assert (Er : atom_array rt2 = [] /\ blocks rt2 = blocks rt /\ keys rt2 = keys rt) by (injection E2 as _ <-; cbn; by rewrite R1). destruct Er as (S1 & S2 & S3). clear E2.
    destruct ok2; cbn [negb]. 2: { exists false, rt2. split; [done|]. split; [done|]. split; [unfold grown; by rewrite S1, S2, S3, Ea|]. split; [done|]. split; [intros Hm1; by destruct (Hm2 Hm1)|done]. }
    set (p := fresh (dom (blocks rt2))). assert (Hp : blocks rt2 !! p = None) by (apply not_elem_of_dom, is_fresh). rewrite (Hfill [Ptr p]) by (unfold n, new_atom_size; cbn; lia). change (Z.of_nat (length [Ptr p])) with 1.
    eexists true, _. split; [done|]. assert (Hn1 : 1 < n <= JS_ATOM_MAX) by (unfold n, new_atom_size in *; lia). split; [by apply (first_block rt2 p n (amem rt2))|]. split; [|split; [done|split]].
    + unfold grown. cbn. rewrite <- S2, S3. split; [done|]. split.
      * intros k Hk. rewrite Ea. rewrite S2. unfold node. change (atom_at (Ptr p :: grow_free 1 n) k) with (atom_at ([Ptr p] ++ grow_free (Z.of_nat (length [Ptr p])) n) k). rewrite (grow_free_at [Ptr p] n k) by (cbn; lia). unfold atom_at, aread. destruct (Z.ltb_spec k 0); [done|]. by rewrite !lookup_ge_None_2 by (cbn; lia).
      * intros q s Hq. rewrite lookup_insert_ne; [done|]. intros <-. congruence.
    + intros Hm'. split; [done|]. by apply Hm2.
    + intros _ _. assert (En : n = 711) by (subst n; unfold atom_size; by rewrite Ea). unfold frees. cbn [atom_array atom_free_index set_array set_blocks set_table]. rewrite En.
      apply (grow_free_linked [Ptr p] 711); [cbn; lia|]. intros k. unfold fnx, aread. destruct (Z.ltb_spec k 0); [done|]. by destruct (Z.to_nat k) as [|[|m]].
  - rewrite Hfill by lia. eexists true, _. split; [done|]. destruct (ao_free rt H) as (fs & Hl & _ & Hfs). rewrite Hf0 in Hl. apply linked_zero in Hl as ->.
    destruct (atoms_ok_array rt1 (atom_array rt ++ grow_free (Z.of_nat (length (atom_array rt))) n) (Z.of_nat (length (atom_array rt))) (amem rt1) A1) as [A|A].
    + intros i. rewrite R1. apply grow_free_at. lia.
    + by rewrite R1, grow_free_used.
    + apply grow_free_ok; [lia|]. intros k. destruct (fnx (atom_array rt) k) as [m|] eqn:E; [|done]. assert (Hk : k ∈ ([] : list Z)) by (apply Hfs; by rewrite E). by apply not_elem_of_nil in Hk.
    + rewrite length_app. unfold grow_free. rewrite length_map, length_seqZ. lia.
    + split; [exact A|]. split; [|split; [cbn; lia|split; [intros Hm'; split; [done|by apply Hm]|intros _ Ea; exfalso; apply E0; by rewrite Ea]]]. unfold grown. cbn. rewrite R2, R3. split; [done|]. split; [|done]. intros k _. unfold node. by rewrite grow_free_at by lia.
    + exfalso. apply E0. rewrite <- R1, A. done.
Qed.
