(* ===== verification/AtomProps.v ===== *)
(** * Interning and freeing

    What __JS_NewAtom, JS_NewSymbol and __JS_FreeAtom of [Atoms] do to the map
    from numbers to texts and counts that the atom table stands for. *)
From Stdlib Require Import ZArith Lia List.
From stdpp Require Import base numbers option list gmap.
From S2P Require Import Prelude Strings StrHash AtomNames Atoms AtomTable AtomOps.

(** ** The caller's string *)

(** A string that is no atom, nor part of one. *)
Definition plain (rt : atom_rt) (p : ptr) (s : JSAtomStruct) : Prop :=
  blocks rt !! p = Some s /\ atom_type s = 0 /\ str_ok (str s) /\ 1 <= ref_count s /\
  (is_slice (str s) = true -> exists q s', parent s = Some q /\ blocks rt !! q = Some s' /\ atom_type s' = 0 /\ is_slice (str s') = false).

Lemma plain_mono rt rt' p s : (forall q s, blocks rt !! q = Some s -> atom_type s = 0 -> blocks rt' !! q = Some s) -> plain rt p s -> plain rt' p s.
Proof.
  intros Hb (H1 & H2 & H3 & H4 & H5). split_and!; try done; [by apply Hb|]. intros Hs. destruct (H5 Hs) as (q & s' & E1 & E2 & E3 & E4). exists q, s'. split_and!; try done. by apply Hb.
Qed.

Lemma plain_view rt rt' p s : atoms_ok rt -> same_view rt rt' -> plain rt p s -> plain rt' p s.
Proof. intros H (_ & _ & _ & Ho). apply plain_mono. intros q s' Eq Et. rewrite Ho; [done|]. by apply (ao_outside rt q s'). Qed.

(** Writing to or removing blocks that are no atoms. *)
Definition other_blocks (rt : atom_rt) (b : gmap ptr JSAtomStruct) : Prop :=
  (forall i p, atom_at (atom_array rt) i = Some p -> b !! p = blocks rt !! p) /\ (forall p s, b !! p = Some s -> atom_type s <> 0 -> blocks rt !! p = Some s).

Lemma other_ok rt b : atoms_ok rt -> other_blocks rt b -> atoms_ok (set_blocks rt b) /\ forall i, node (atom_array rt) b i = node (atom_array rt) (blocks rt) i.
Proof. intros H (H1 & H2). by apply (atoms_ok_blocks rt b (amem rt)). Qed.

Lemma other_insert rt p s s' b : atoms_ok rt -> other_blocks rt b -> blocks rt !! p = Some s -> atom_type s = 0 -> atom_type s' = 0 -> other_blocks rt (<[p := s']> b).
Proof.
  intros H (H1 & H2) Hp Hs Hs'. pose proof (ao_outside rt p s H Hp Hs) as Ho. split.
  - intros i q Eq. rewrite lookup_insert_ne; [by apply (H1 i)|]. intros <-. by apply Ho in Eq.
  - intros q s1. destruct (decide (q = p)) as [-> |Hq]; [rewrite lookup_insert_eq; by intros [= <-]|]. rewrite lookup_insert_ne by done. apply H2.
Qed.

Lemma other_delete rt p s b : atoms_ok rt -> other_blocks rt b -> blocks rt !! p = Some s -> atom_type s = 0 -> other_blocks rt (delete p b).
Proof.
  intros H (H1 & H2) Hp Hs. pose proof (ao_outside rt p s H Hp Hs) as Ho. split.
  - intros i q Eq. rewrite lookup_delete_ne; [by apply (H1 i)|]. intros <-. by apply Ho in Eq.
  - intros q s1. destruct (decide (q = p)) as [-> |Hq]; [by rewrite lookup_delete_eq|]. rewrite lookup_delete_ne by done. apply H2.
Qed.

Lemma other_refl rt : other_blocks rt (blocks rt).
Proof. done. Qed.

(** Giving up the string frees no atom. *)
Lemma drop_spec rt p s : atoms_ok rt -> plain rt p s ->
  exists b, js_free_string 2 rt p = Some (set_blocks rt b) /\ other_blocks rt b /\ forall q, q <> p -> parent s <> Some q -> b !! q = blocks rt !! q.
Proof.
  intros H (Hp & Ht & _ & _ & Hpar). cbn [js_free_string]. rewrite Hp. cbn [mbind option_bind blocks set_blocks set_table].
  assert (O1 : other_blocks rt (<[p := with_count s (ref_count s - 1)]> (blocks rt))) by (by apply (other_insert rt p s)).
  destruct (ref_count s - 1 <=? 0). 2: { eexists. split_and!; [done|done|]. intros q Hq _. by rewrite lookup_insert_ne. }
  rewrite Ht. cbn [Z.eqb negb]. assert (O2 := other_delete rt p s _ H O1 Hp Ht). set (b2 := delete p _) in *.
  assert (B2 : forall q, q <> p -> b2 !! q = blocks rt !! q) by (intros q Hq; subst b2; by rewrite lookup_delete_ne, lookup_insert_ne). clearbody b2.
  assert (Hend : exists b, Some (set_blocks rt b2) = Some (set_blocks rt b) /\ other_blocks rt b /\ forall q, q <> p -> parent s <> Some q -> b !! q = blocks rt !! q) by (exists b2; split_and!; try done; intros q Hq _; by apply B2).
  destruct (is_slice (str s)) eqn:Es; [|exact Hend]. destruct (Hpar eq_refl) as (q & s' & E1 & E2 & E3 & E4). rewrite E1 in *. cbn [mbind option_bind]. destruct (negb (hash_next s & 1 =? 0)); [|exact Hend].
  assert (Hqp : q <> p) by (intros ->; simplify_eq; congruence). cbn [blocks set_blocks set_table]. rewrite B2, E2 by done. cbn [mbind option_bind].
  assert (O3 := fun c => other_insert rt q s' (with_count s' c) _ H O2 E2 E3 E3). destruct (ref_count s' - 1 <=? 0).
  - rewrite E3, E4. cbn [Z.eqb negb]. eexists. split; [done|]. cbn. split; [by apply (other_delete rt q s')|]. intros r Hr Hr'. rewrite lookup_delete_ne, lookup_insert_ne by congruence. by apply B2.
  - eexists. split; [done|]. split; [apply O3|]. intros r Hr Hr'. rewrite lookup_insert_ne by congruence. by apply B2.
Qed.

(** ** The block of a new atom *)

Lemma byte_shift c : 0 <= c -> c <= 255 <-> c >> 8 = 0.
Proof. intros Hc. rewrite Z.shiftr_div_pow2 by lia. change (2 ^ 8) with 256. pose proof (Z.div_mod c 256). pose proof (Z.mod_pos_bound c 256). split; [intros ?; by apply Z.div_small; lia|lia]. Qed.

Lemma lor_bound l acc : 0 <= acc -> Forall (fun c => 0 <= c) l -> fold_left Z.lor l acc <= 255 -> acc <= 255 /\ Forall (fun c => c <= 255) l.
Proof.
  revert acc. induction l as [|c l IH]; intros acc Ha Hl Hf; [by split; [|constructor]|]. cbn in Hf. apply Forall_cons in Hl as [Hc Hl].
  assert (Hn : 0 <= Z.lor acc c) by (by apply Z.lor_nonneg). destruct (IH (Z.lor acc c) Hn Hl Hf) as [H1 H2].
  apply byte_shift in H1; [|done]. rewrite Z.shiftr_lor in H1. apply Z.lor_eq_0_iff in H1 as [E1 E2]. apply byte_shift in E1, E2; [|done..]. split; [done|by constructor].
Qed.

(** The copy has the same text. *)
Lemma copy_string_spec q : str_ok q -> units (copy_string q) = units q /\ is_slice (copy_string q) = false /\ str_ok (copy_string q).
Proof.
  intros Hq. pose proof (str_ok_units q Hq) as Hu. destruct Hq as (L1 & L2 & L3). unfold copy_string. destruct (is_slice q && is_wide_char q && (fold_left Z.lor (units q) 0 <=? 0xFF)) eqn:E; [|by repeat split].
  apply andb_true_iff in E as [_ E%Z.leb_le]. destruct (lor_bound (units q) 0) as [_ Hb]; [lia|eapply Forall_impl; [exact Hu|]; intros c Hc; apply Hc|done|].
  assert (Hf : Forall (fits 8) (units q)) by (apply Forall_forall; intros c Hc; rewrite Forall_forall in Hu, Hb; specialize (Hu c Hc); specialize (Hb c Hc); unfold unit_ok, fits in *; lia).
  assert (Em : map (fun c => u8 c) (units q) = units q) by (clear -Hf; induction Hf as [|c l Hc _ IH]; [done|]; cbn; rewrite IH; f_equal; by apply wrap_id).
  rewrite Em. split; [done|]. split; [done|]. by split.
Qed.

Lemma fresh_none {A} (b : gmap ptr A) : b !! fresh (dom b) = None.
Proof. apply not_elem_of_dom, is_fresh. Qed.

(** What the block of the new atom holds: the string itself, unless it is a part. *)
Definition new_count (s : JSAtomStruct) : Z := if is_slice (str s) then 1 else ref_count s.

Definition fresh_block (rt : atom_rt) (p : ptr) (u : list Z) (c : Z) : Prop :=
  exists s, blocks rt !! p = Some s /\ atom_type s = 0 /\ is_slice (str s) = false /\ str_ok (str s) /\ units (str s) = u /\ ref_count s = c /\ 1 <= c.

(** The state is the same but for blocks that are no atoms. *)
Definition same_but_blocks (rt rt' : atom_rt) : Prop :=
  atom_array rt' = atom_array rt /\ atom_free_index rt' = atom_free_index rt /\ keys rt' = keys rt /\ (forall i, node (atom_array rt) (blocks rt') i = node (atom_array rt) (blocks rt) i) /\
  (mem_ok rt -> mem_ok rt').

Lemma malloc_ok rt : atoms_ok rt -> atoms_ok (js_malloc_rt rt).2.
Proof. intros H. destruct H. by split. Qed.

Lemma other_new rt p s : blocks rt !! p = None -> atoms_ok rt -> atom_type s = 0 -> other_blocks rt (<[p := s]> (blocks rt)).
Proof.
  intros Hp H Hs. split.
  - intros i q Eq. rewrite lookup_insert_ne; [done|]. intros <-. destruct (ao_atom rt H i p Eq) as (s' & E & _). congruence.
  - intros q s1. destruct (decide (q = p)) as [-> |Hq]; [rewrite lookup_insert_eq; by intros [= <-]|]. by rewrite lookup_insert_ne.
Qed.

Lemma atom_block_spec rt p s : atoms_ok rt -> plain rt p s ->
  exists r rt', atom_block rt (Some p) = Some (r, rt') /\ atoms_ok rt' /\ same_but_blocks rt rt' /\
    match r with Some q => fresh_block rt' q (units (str s)) (new_count s) | None => plain rt' p s /\ ~ mem_ok rt end.
Proof.
  intros H Hpl. pose proof Hpl as (Hp & Ht & Hs & Hr & _). unfold atom_block. rewrite Hp. cbn [mbind option_bind]. rewrite Ht. unfold new_count. destruct (is_slice (str s)) eqn:Esl; cbn [Z.eqb negb andb].
  2: { exists (Some p), rt. split_and!; try done. by exists s. }
  pose proof (malloc_ok rt H) as H1. destruct (js_malloc_rt rt) as [ok rt1] eqn:Em. cbn [snd] in H1. assert (Eo : hd true (amem rt) = ok) by (by injection Em).
  assert (Er : atom_array rt1 = atom_array rt /\ atom_free_index rt1 = atom_free_index rt /\ keys rt1 = keys rt /\ blocks rt1 = blocks rt) by (by injection Em as _ <-). destruct Er as (R1 & R2 & R3 & R4). assert (Mm : mem_ok rt -> mem_ok rt1) by (intros Hm; apply mem_ok_hd in Hm as [_ Hm]; by rewrite Em in Hm).
  assert (Hpl1 : plain rt1 p s) by (apply (plain_mono rt); [intros q s'; by rewrite R4|done]).
  destruct ok; cbn [negb]. 2: { exists None, rt1. split; [done|]. split; [done|]. split; [split_and!; try done; intros i; by rewrite R4|]. split; [done|]. intros Hm. destruct (mem_ok_hd rt Hm). congruence. }
  set (q := fresh (dom (blocks rt1))). assert (Hq : blocks rt1 !! q = None) by apply fresh_none. set (c := mk_atom (copy_string (str s)) 0 0 0 1 None).
  destruct (other_ok rt1 _ H1 (other_new rt1 q c Hq H1 eq_refl)) as [H2 N2]. set (rt2 := set_blocks rt1 (<[q := c]> (blocks rt1))) in *.
  assert (Hpl2 : plain rt2 p s). { apply (plain_mono rt1); [|done]. intros r s' Er _. cbn. rewrite lookup_insert_ne; [done|]. intros <-. congruence. }
  destruct (drop_spec rt2 p s H2 Hpl2) as (b & E3 & O3 & K3). rewrite E3. cbn [mbind option_bind]. destruct (other_ok rt2 b H2 O3) as [H3 N3]. exists (Some q), (set_blocks rt2 b). split; [done|]. split; [done|].
  split; [split_and!; try done; intros i; cbn; rewrite <- R1; etransitivity; [apply N3|]; etransitivity; [apply N2|]; by rewrite R4|].
  exists c. destruct (copy_string_spec (str s) Hs) as (U1 & U2 & U3). split_and!; try done. cbn. rewrite K3; [cbn; by rewrite lookup_insert_eq|intros ->; destruct Hpl1; congruence|]. intros Ep.
  destruct Hpl1 as (_ & _ & _ & _ & Hpar). destruct (Hpar Esl) as (q' & s' & E1 & E2 & _). congruence.
Qed.

(** ** The map of the atoms *)

(** An atom: its type, its text and the number of references. *)
Definition entry (s : JSAtomStruct) : Z * list Z * Z := (atom_type s, units (str s), ref_count s).
Definition atom_entry (rt : atom_rt) (i : Z) : option (Z * list Z * Z) := entry <$> node (atom_array rt) (blocks rt) i.

Lemma entry_info s s' : info s = info s' -> entry s = entry s'.
Proof. unfold info, entry. intros [= -> -> ->]. done. Qed.

Lemma info_entry (o o' : option JSAtomStruct) : info <$> o = info <$> o' -> entry <$> o = entry <$> o'.
Proof. destruct o, o'; cbn; try done. intros E. f_equal. apply entry_info. congruence. Qed.

Lemma view_entry rt rt' i : same_view rt rt' -> atom_entry rt' i = atom_entry rt i.
Proof. intros (E & _ & Hi & _). unfold atom_entry. rewrite E. by apply info_entry. Qed.

Lemma blocks_entry rt rt' i : same_but_blocks rt rt' -> atom_entry rt' i = atom_entry rt i.
Proof. intros (E & _ & _ & Hi & _). unfold atom_entry. by rewrite E, Hi. Qed.

Lemma grown_entry rt rt' i : grown rt rt' -> i <> 0 -> atom_entry rt' i = atom_entry rt i.
Proof. intros (_ & Hn & _) Hi. unfold atom_entry. by rewrite Hn. Qed.

(** Nothing was added. *)
Definition unchanged (rt rt' : atom_rt) : Prop := forall k, k <> 0 -> atom_entry rt' k = atom_entry rt k.

(** A new entry [e] at [i]. *)
Definition added (rt rt' : atom_rt) (i : Z) (e : Z * list Z * Z) : Prop :=
  i <> 0 /\ atom_entry rt i = None /\ forall k, k <> 0 -> atom_entry rt' k = if decide (k = i) then Some e else atom_entry rt k.

(** The entry taken is the first free one; the first ones of all are taken in order. *)
Definition took (rt rt' : atom_rt) (i : Z) : Prop :=
  (forall j fs, frees rt (j :: fs) -> i = j /\ frees rt' fs) /\ (atom_array rt = [] -> i = 1 /\ frees rt' (seqZ 2 709)).

(** The string that becomes the atom. *)
Definition source (rt : atom_rt) (str_ : option ptr) (u : list Z) (c : Z) : Prop :=
  match str_ with Some p => exists s, plain rt p s /\ u = units (str s) /\ c = new_count s | None => u = [] /\ c = 1 end.

(** What is known of the hash when the text is new. *)
Definition hash_for (rt : atom_rt) (u : list Z) (h t : Z) : Prop :=
  (t = JS_ATOM_TYPE_STRING \/ t = JS_ATOM_TYPE_GLOBAL_SYMBOL) /\ (forall q, units q = u -> h = hash_string (keys rt) q t & JS_ATOM_HASH_MASK) /\
    (forall k c, atom_entry rt k <> Some (t, u, c)) \/
  t = JS_ATOM_TYPE_SYMBOL /\ (h = 0 \/ h = JS_ATOM_HASH_PRIVATE).

Lemma source_mono rt rt' str_ u c : (forall q s, blocks rt !! q = Some s -> atom_type s = 0 -> blocks rt' !! q = Some s) -> source rt str_ u c -> source rt' str_ u c.
Proof. intros Hb. destruct str_ as [p|]; [|done]. intros (s & Hp & E). exists s. split; [|done]. by apply (plain_mono rt). Qed.

Lemma done_spec rt str_ u c i : atoms_ok rt -> source rt str_ u c -> exists rt', atom_done rt str_ i = Some (i, rt') /\ atoms_ok rt' /\ same_but_blocks rt rt'.
Proof.
  intros H Hs. unfold atom_done. destruct str_ as [p|]; [|by exists rt]. destruct Hs as (s & Hp & _). destruct (drop_spec rt p s H Hp) as (b & E & O & _). rewrite E. cbn [mbind option_bind].
  destruct (other_ok rt b H O) as [H' N']. eexists. split; [done|]. split; [done|]. by split_and!.
Qed.

Lemma source_block rt str_ u c : atoms_ok rt -> source rt str_ u c ->
  exists r rt', atom_block rt str_ = Some (r, rt') /\ atoms_ok rt' /\ same_but_blocks rt rt' /\
    match r with Some q => fresh_block rt' q u c | None => source rt' str_ u c /\ ~ mem_ok rt end.
Proof.
  intros H Hs. destruct str_ as [p|].
  - destruct Hs as (s & Hp & -> & ->). destruct (atom_block_spec rt p s H Hp) as (r & rt' & E & A & S & R). exists r, rt'. split_and!; try done. destruct r; [done|]. destruct R as [R1 R2]. split; [by exists s|done].
  - destruct Hs as [-> ->]. unfold atom_block. pose proof (malloc_ok rt H) as H1. destruct (js_malloc_rt rt) as [ok rt1] eqn:Em. cbn [snd] in H1. assert (Eo : hd true (amem rt) = ok) by (by injection Em).
    assert (Er : atom_array rt1 = atom_array rt /\ atom_free_index rt1 = atom_free_index rt /\ keys rt1 = keys rt /\ blocks rt1 = blocks rt) by (by injection Em as _ <-). destruct Er as (R1 & R2 & R3 & R4). assert (Mm : mem_ok rt -> mem_ok rt1) by (intros Hm; apply mem_ok_hd in Hm as [_ Hm]; by rewrite Em in Hm).
    destruct ok; cbn [negb].
    + destruct (other_ok rt1 _ H1 (other_new rt1 _ (mk_atom (mk_str 0 true false []) 0 0 0 1 None) (fresh_none (blocks rt1)) H1 eq_refl)) as [H2 N2].
      eexists _, _. split; [done|]. split; [exact H2|]. split; [split_and!; try done; intros i; cbn; rewrite <- R1, <- R4; apply N2|].
      eexists. cbn. rewrite lookup_insert_eq. split_and!; done.
    + exists None, rt1. split; [done|]. split; [done|]. split; [split_and!; try done; intros i; by rewrite R4|]. split; [done|]. intros Hm. destruct (mem_ok_hd rt Hm). congruence.
Qed.

Lemma insert_atom_spec rt str_ u c h t : atoms_ok rt -> (atom_free_index rt = 0 -> atom_size rt <= GROW_MAX) -> source rt str_ u c -> hash_for rt u h t ->
  exists i rt', insert_atom rt str_ h t = Some (i, rt') /\ atoms_ok rt' /\ (i = 0 /\ ~ mem_ok rt /\ unchanged rt rt' \/ added rt rt' i (t, u, c) /\ (mem_ok rt -> mem_ok rt') /\ took rt rt' i).
Proof.
  intros H Hsz Hs Hh. unfold insert_atom.
  assert (Hg : exists ok rt1, (if atom_free_index rt =? 0 then grow_array rt else Some (true, rt)) = Some (ok, rt1) /\ atoms_ok rt1 /\ grown rt rt1 /\ (ok = true -> atom_free_index rt1 <> 0) /\ (mem_ok rt -> ok = true /\ mem_ok rt1) /\
    (forall j fs, frees rt (j :: fs) -> frees rt1 (j :: fs)) /\ (ok = true -> atom_array rt = [] -> frees rt1 (seqZ 1 710))).
  { destruct (Z.eqb_spec (atom_free_index rt) 0) as [E|E].
    - destruct (grow_array_spec rt H E (Hsz E)) as (ok & rt1 & G1 & G2 & G3 & G4 & G5 & G6). exists ok, rt1. split_and!; try done. intros j fs Hf. unfold frees in Hf. rewrite E in Hf. by apply linked_zero in Hf.
    - exists true, rt. split_and!; try done. intros _ Ea. exfalso. apply E. destruct (ao_free rt H) as ([|f fs] & Hl & _); [done|]. destruct Hl as (_ & _ & n & En & _). rewrite Ea in En. unfold fnx, aread in En. by destruct (f <? 0). }
  destruct Hg as (ok & rt1 & Eg & A1 & G1 & F1 & M1 & K1 & K1'). rewrite Eg. cbn [mbind option_bind]. clear Eg. assert (S1 : source rt1 str_ u c) by (apply (source_mono rt); [intros q s Eq _; by apply G1|done]).
  destruct ok; cbn [negb].
  2: { destruct (done_spec rt1 str_ u c JS_ATOM_NULL A1 S1) as (rt2 & E2 & A2 & B2). exists JS_ATOM_NULL, rt2. split; [done|]. split; [done|]. left. split; [done|]. split; [intros Hm; by destruct (M1 Hm)|].
       intros k Hk. rewrite (blocks_entry _ _ _ B2). by apply grown_entry. }
  destruct (source_block rt1 str_ u c A1 S1) as (r & rt2 & E2 & A2 & B2 & R2). rewrite E2. cbn [mbind option_bind]. destruct r as [p|].
  - destruct R2 as (s & P1 & P2 & P3 & P4 & P5 & P6 & P7). assert (Hf : atom_free_index rt2 <> 0) by (destruct B2 as (_ & -> & _); by apply F1).
    destruct (add_atom_spec rt2 p s h t A2 Hf P1 P2 P3 P4) as (N3 & rt3 & E3 & A3 & V3 & M3 & K3); [lia| |].
    { destruct Hh as [(T & Hq & Hn)|?]; [left|by right]. split; [done|]. split; [rewrite (Hq (str s) P5); by destruct B2 as (_ & _ & -> & _), G1 as (-> & _)|].
      intros k s' Es' Ek. apply (Hn k (ref_count s')). destruct (decide (k = 0)) as [-> |Hk].
      - exfalso. destruct (ao_node rt2 0 s' A2 Es') as (_ & _ & _ & [(_ & ? & _)|(Ty & _)]); [done|]. injection Ek as Ek _. rewrite Ty in Ek. by destruct T; subst t.
      - rewrite <- (grown_entry rt rt1 k G1 Hk), <- (blocks_entry rt1 rt2 k B2). unfold atom_entry. rewrite Es'. cbn. unfold entry. injection Ek as -> ->. by rewrite P5. }
    set (i := atom_free_index rt2) in *. exists i, rt3. split; [done|]. split; [done|]. right. assert (Hall : forall k, k <> 0 -> atom_entry rt2 k = atom_entry rt k) by (intros k Hk; rewrite (blocks_entry _ _ _ B2); by apply grown_entry).
    destruct B2 as (Ba & Bf & Bk & Bn & Bm). split; [|split; [intros Hm; by apply M3, Bm, M1|]].
    + split; [done|]. split; [rewrite <- Hall by done; unfold atom_entry; by rewrite N3|]. intros k Hk. rewrite <- Hall by done. specialize (V3 k). unfold atom_entry. case_decide as Hd; [|by apply info_entry].
      destruct (node _ (blocks rt3) k) as [s3|]; [|done]. injection V3 as V1 V2 V3. cbn. unfold entry. by rewrite V1, V2, V3, P5, P6.
    + assert (Hfr : forall fs, frees rt1 fs -> frees rt2 fs) by (intros fs; unfold frees; by rewrite Ba, Bf). split.
      * intros j fs Hj. destruct (K3 (j :: fs)) as (fs' & Ef & Hf'); [by apply Hfr, K1|]. by simplify_eq.
      * intros Ea. destruct (K3 (seqZ 1 710)) as (fs' & Ef & Hf'); [by apply Hfr, K1'|]. rewrite seqZ_cons in Ef by lia. by simplify_eq.
  - destruct R2 as (S2 & M2). assert (Ed : exists rt3, (match str_ with Some _ => atom_done rt2 str_ JS_ATOM_NULL | None => Some (JS_ATOM_NULL, rt2) end) = Some (JS_ATOM_NULL, rt3) /\ atoms_ok rt3 /\ same_but_blocks rt2 rt3).
    { destruct str_ as [q|]; [by apply (done_spec rt2 (Some q) u c)|by exists rt2]. }
    destruct Ed as (rt3 & -> & A3 & B3). exists JS_ATOM_NULL, rt3. split; [done|]. split; [done|]. left. split; [done|]. split; [intros Hm; apply M2; by apply M1|].
    intros k Hk. rewrite (blocks_entry _ _ _ B3), (blocks_entry _ _ _ B2). by apply grown_entry.
Qed.

(** ** References *)

Lemma count_spec rt i p s c : atoms_ok rt -> atom_at (atom_array rt) i = Some p -> blocks rt !! p = Some s -> 1 <= c ->
  let b := <[p := with_count s c]> (blocks rt) in
  atoms_ok (set_blocks rt b) /\ forall k, node (atom_array rt) b k = if decide (k = i) then Some (with_count s c) else node (atom_array rt) (blocks rt) k.
Proof.
  intros H Hp Hs Hc b. pose proof (ao_inj rt H) as Hinj. assert (En : node (atom_array rt) (blocks rt) i = Some s) by (apply node_at; by exists p).
  assert (Hn : forall k, node (atom_array rt) b k = if decide (k = i) then Some (with_count s c) else node (atom_array rt) (blocks rt) k) by (intros k; by apply node_insert).
  split; [|done]. unfold set_blocks, set_table. rewrite (ao_resize rt H). apply (atoms_ok_upd rt (atom_hash rt) b (keys rt) (amem rt)); [done| | |].
  - intros j q s1 Hq Es1. assert (Ha : atom_ok (keys rt) j s1) by (apply (ao_node rt); [done|]; apply node_at; by exists q). destruct Ha as (_ & _ & Hc1 & Hk).
    assert (Hx : (interned s1 -> hashed (keys rt) s1)) by (intros Hi; destruct Hk as [(_ & _ & ?)|(Ty & _)]; [done|by apply interned_not_symbol in Hi]).
    subst b. destruct (decide (q = p)) as [-> |Hq']; [rewrite lookup_insert_eq; simplify_eq; eexists; split; [done|]; by split_and!|rewrite lookup_insert_ne by done; exists s1; split; [done|]; by split_and!].
  - intros q s1. subst b. destruct (decide (q = p)) as [-> |Hq']; [intros _ _; by exists i|]. rewrite lookup_insert_ne by done. apply (ao_typed rt H).
  - destruct (ao_index rt H) as (Hsz & chains & ms & Ht & Hms). split; [done|]. exists chains, ms. split.
    + apply (atable_same _ (blocks rt)); [| |done]; intros k; [unfold nx|]; rewrite Hn; case_decide as Hk; try done; subst k; by rewrite En.
    + intros j. rewrite Hms, Hn. case_decide as Hj; [|done]. subst j. rewrite En. split; intros (s' & [= <-] & Hi); eexists; (split; [done|]); done.
Qed.

Lemma found_spec rt i s : atoms_ok rt -> node (atom_array rt) (blocks rt) i = Some s ->
  exists rt', (if negb (__JS_AtomIsConst i) then q ← atom_at (atom_array rt) i; s1 ← blocks rt !! q; Some (set_blocks rt (<[q := with_count s1 (ref_count s1 + 1)]> (blocks rt))) else Some rt) = Some rt' /\
    atoms_ok rt' /\ (forall q s, blocks rt !! q = Some s -> atom_type s = 0 -> blocks rt' !! q = Some s) /\ amem rt' = amem rt /\
    forall k, atom_entry rt' k = if decide (k = i) then Some (atom_type s, units (str s), if __JS_AtomIsConst i then ref_count s else ref_count s + 1) else atom_entry rt k.
Proof.
  intros H En. pose proof (ao_node rt i s H En) as Ha. destruct (__JS_AtomIsConst i); cbn [negb].
  - exists rt. split_and!; try done. intros k. case_decide as Hk; [|done]. subst k. unfold atom_entry. by rewrite En.
  - pose proof En as (p & Ep & Es)%node_at. rewrite Ep. cbn [mbind option_bind]. rewrite Es. cbn [mbind option_bind].
    destruct (count_spec rt i p s (ref_count s + 1) H Ep Es) as [H' N']; [destruct Ha as (_ & _ & ? & _); lia|]. eexists. split; [done|]. split; [done|]. split.
    + intros q s' Eq Et. cbn. rewrite lookup_insert_ne; [done|]. intros <-. simplify_eq. by apply atom_ok_typed in Ha.
    + split; [done|]. intros k. unfold atom_entry. cbn [atom_array blocks set_blocks set_table]. rewrite N'. by case_decide.
Qed.

(** ** Interning *)

(** The text [u] of type [t] is at [i] afterwards, as before or newly, and the other atoms stay. *)
Definition interns (rt rt' : atom_rt) (t : Z) (u : list Z) (c : Z) (i : Z) : Prop :=
  i <> 0 /\
  match atom_entry rt i with
  | None => atom_entry rt' i = Some (t, u, c)
  | Some (t0, u0, c0) => t0 = t /\ u0 = u /\ atom_entry rt' i = Some (t, u, if __JS_AtomIsConst i then c0 else c0 + 1)
  end /\
  forall k, k <> 0 -> k <> i -> atom_entry rt' k = atom_entry rt k.

Lemma new_atom_spec rt p s t : atoms_ok rt -> plain rt p s -> t = JS_ATOM_TYPE_STRING \/ t = JS_ATOM_TYPE_GLOBAL_SYMBOL -> (atom_free_index rt = 0 -> atom_size rt <= GROW_MAX) ->
  exists i rt', __JS_NewAtom rt (Some p) t = Some (i, rt') /\ atoms_ok rt' /\
    (i = 0 /\ ~ mem_ok rt /\ unchanged rt rt' \/ interns rt rt' t (units (str s)) (new_count s) i /\ (mem_ok rt -> mem_ok rt') /\ (atom_entry rt i = None -> took rt rt' i)).
Proof.
  intros H Hpl Ht Hsz. pose proof Hpl as (Hp & Hty & Hso & _). unfold __JS_NewAtom. replace (t <? JS_ATOM_TYPE_SYMBOL) with true by (by destruct Ht as [-> | ->]). cbn [mbind option_bind]. rewrite Hp. cbn [mbind option_bind].
  rewrite Hty. replace (0 =? t) with false by (by destruct Ht as [-> | ->]). destruct (find_name_spec rt (str s) t H Hso Ht) as (rt1 & r & E1 & A1 & V1 & M1 & R1). rewrite E1. cbn [mbind option_bind].
  pose proof (plain_view rt rt1 p s H V1 Hpl) as P1. pose proof (fun k => view_entry rt rt1 k V1) as Hv. destruct V1 as (Va & Vf & _).
  assert (Hins : (forall i s', node (atom_array rt1) (blocks rt1) i = Some s' -> key s' <> (t, units (str s))) -> exists i rt', insert_atom rt1 (Some p) (hash_string (keys rt1) (str s) t & JS_ATOM_HASH_MASK) t = Some (i, rt') /\ atoms_ok rt' /\
    (i = 0 /\ ~ mem_ok rt /\ unchanged rt rt' \/ interns rt rt' t (units (str s)) (new_count s) i /\ (mem_ok rt -> mem_ok rt') /\ (atom_entry rt i = None -> took rt rt' i))).
  { intros Hno. destruct (insert_atom_spec rt1 (Some p) (units (str s)) (new_count s) (hash_string (keys rt1) (str s) t & JS_ATOM_HASH_MASK) t A1) as (i & rt' & E & A & D).
    - unfold atom_size. rewrite Vf, Va. exact Hsz.
    - by exists s.
    - left. split; [done|]. split; [intros q Eq; by rewrite (hash_units _ q (str s) t Eq)|]. intros k c. unfold atom_entry. destruct (node _ _ k) as [s'|] eqn:Es'; [|done]. cbn. intros [= Ea Eb _]. apply (Hno k s' Es'). unfold key. congruence.
    - exists i, rt'. split; [done|]. split; [done|]. destruct D as [(Di & Dm & Du)|((Di & Dn & Da) & Dm & (Dt & Dt'))]; [left|right].
      + split; [done|]. split; [unfold mem_ok in *; by rewrite <- M1|]. intros k Hk. rewrite <- Hv. by apply Du.
      + split; [|split; [unfold mem_ok in *; by rewrite <- M1|intros _; split; [intros j fs Hf; apply Dt; unfold frees in *; by rewrite Va, Vf|by rewrite Va in Dt']]].
        split; [done|]. rewrite <- Hv, Dn. split; [by rewrite Da, decide_True|]. intros k Hk Hki. by rewrite Da, decide_False by done. }
  destruct r as [i| |]; [|by apply Hins..]. clear Hins. destruct R1 as (s1 & En & Ek). injection Ek as Ek1 Ek2.
  destruct (found_spec rt1 i s1 A1 En) as (rt2 & E2 & A2 & B2 & M2 & V2). rewrite E2. cbn [mbind option_bind].
  destruct (done_spec rt2 (Some p) (units (str s)) (new_count s) i A2) as (rt3 & E3 & A3 & B3); [exists s; split; [by apply (plain_mono rt1)|done]|]. exists i, rt3. split; [done|]. split; [done|]. right.
  assert (Hi0 : i <> 0). { destruct (ao_node rt1 i s1 A1 En) as (_ & _ & _ & [(_ & ? & _)|(Ty & _)]); [done|]. rewrite Ty in Ek1. by destruct Ht; subst t. }
  assert (Hi : atom_entry rt i = Some (t, units (str s), ref_count s1)) by (rewrite <- Hv; unfold atom_entry; rewrite En; cbn; unfold entry; by rewrite Ek1, Ek2).
  split; [|split; [intros Hm; destruct B3 as (_ & _ & _ & _ & B3); apply B3; unfold mem_ok in *; congruence|by rewrite Hi]]. split; [done|]. rewrite Hi.
  split; [split_and!; try done; rewrite (blocks_entry _ _ _ B3), V2, decide_True by done; by rewrite Ek1, Ek2|]. intros k Hk Hki. rewrite (blocks_entry _ _ _ B3), V2, decide_False by done. apply Hv.
Qed.

(** A symbol is always a new entry. *)
Lemma new_symbol_spec rt str_ u c t : atoms_ok rt -> source rt str_ u c -> t = JS_ATOM_TYPE_SYMBOL \/ t = JS_ATOM_TYPE_PRIVATE -> (atom_free_index rt = 0 -> atom_size rt <= GROW_MAX) ->
  exists i rt', __JS_NewAtom rt str_ t = Some (i, rt') /\ atoms_ok rt' /\ (i = 0 /\ ~ mem_ok rt /\ unchanged rt rt' \/ added rt rt' i (JS_ATOM_TYPE_SYMBOL, u, c) /\ (mem_ok rt -> mem_ok rt') /\ took rt rt' i).
Proof.
  intros H Hs Ht Hsz. unfold __JS_NewAtom. replace (t <? JS_ATOM_TYPE_SYMBOL) with false by (by destruct Ht as [-> | ->]). apply insert_atom_spec; [done|done|done|]. right. split; [done|]. destruct Ht as [-> | ->]; [by left|by right].
Qed.

(** The string of an atom is that atom. *)
Lemma new_atom_again rt i p s t : atoms_ok rt -> atom_at (atom_array rt) i = Some p -> blocks rt !! p = Some s -> t = atom_type s -> interned s ->
  exists rt', __JS_NewAtom rt (Some p) t = Some (i, rt') /\ (__JS_AtomIsConst i = false -> rt' = rt).
Proof.
  intros H Ep Es -> Hi. unfold __JS_NewAtom. replace (atom_type s <? JS_ATOM_TYPE_SYMBOL) with true by (by destruct Hi as [-> | ->]). cbn [mbind option_bind]. rewrite Es. cbn [mbind option_bind]. rewrite Z.eqb_refl.
  rewrite (get_atom_index_spec rt i p H Ep). cbn [mbind option_bind]. destruct (__JS_AtomIsConst i); [|by exists rt]. eexists. by split.
Qed.
