(* ===== verification/AtomFree.v ===== *)
(** * Freeing atoms

    What __JS_FreeAtom of [Atoms] does: the entry leaves its chain and goes to
    the list of free entries.  With it, the theorems of the atom table. *)
From Stdlib Require Import ZArith Lia List.
From stdpp Require Import base numbers option list gmap.
From S2P Require Import Prelude Strings StrHash AtomNames Atoms AtomTable AtomOps AtomProps.

(** ** An index leaves its chain *)

Lemma link_remove f h l j i l2 n : linked f h (l ++ j :: i :: l2) -> NoDup (l ++ j :: i :: l2) -> f i = Some n ->
  linked (fun k => if decide (k = j) then Some n else f k) h (l ++ j :: l2).
Proof.
  revert h. induction l as [|x l IH]; intros h Hl Hnd Hn; cbn [app] in *.
  - destruct Hl as (-> & Hj & m & Em & -> & Hi & m' & Em' & Hl). simplify_eq. split; [done|]. split; [done|]. eexists. rewrite decide_True by done. split; [done|].
    eapply link_ext; [|exact Hl]. intros k Hk. cbn. rewrite decide_False; [done|]. intros ->. apply NoDup_cons in Hnd as [Hnd _]. apply Hnd. by right.
  - destruct Hl as (-> & Hx & m & Em & Hl). apply NoDup_cons in Hnd as [Hxn Hnd]. split; [done|]. split; [done|]. exists m. rewrite decide_False; [by split; [|apply IH]|]. intros ->. apply Hxn, elem_of_app. right. by left.
Qed.

Lemma link_tail f h i l2 : linked f h (i :: l2) -> exists n, f i = Some n /\ linked f n l2.
Proof. by intros (_ & _ & n & En & Hl); exists n. Qed.

Lemma elem_chain (chains : list (list Z)) c js j : chains !! c = Some js -> j ∈ js -> j ∈ concat chains.
Proof. intros Hc Hj. apply list_elem_of_In, in_concat. exists js. split; [by apply list_elem_of_In, (list_elem_of_lookup_2 _ c)|by apply list_elem_of_In]. Qed.

Lemma chain_remove (chains : list (list Z)) c l i l2 : chains !! c = Some (l ++ i :: l2) -> concat chains ≡ₚ i :: concat (<[c := l ++ l2]> chains).
Proof.
  intros Hc. rewrite <- (take_drop_middle chains c _ Hc) at 1. rewrite insert_take_drop by (by apply lookup_lt_Some in Hc). rewrite !concat_app. cbn [concat]. rewrite <- !app_assoc. cbn [app].
  etransitivity; [|symmetry; apply (Permutation_middle (concat (take c chains)))]. apply Permutation_app_head. symmetry. apply (Permutation_middle l).
Qed.

Lemma elem_remove (ms : list Z) i j : j ∈ List.filter (fun j => negb (j =? i)) ms <-> j ∈ ms /\ j <> i.
Proof. rewrite !list_elem_of_In, filter_In. by rewrite negb_true_iff, Z.eqb_neq. Qed.

Section Remove.
Context (a : list slot) (b : gmap ptr JSAtomStruct) (t : list Z) (chains : list (list Z)) (ms : list Z).
Context (c : nat) (l : list Z) (i : Z) (l2 : list Z) (n : Z).
Hypothesis Hinj : injective a.
Hypothesis Ht : table_ok a b t chains ms.
Hypothesis Hc : chains !! c = Some (l ++ i :: l2).
Hypothesis Hn : nx a b i = Some n.

(** From the shape of the chain to the table. *)
Lemma table_remove t' b' : length t' = length t -> (forall k, hash <$> node a b' k = hash <$> node a b k) -> (forall k, k <> c -> t' !! k = t !! k) ->
  (forall k js j, k <> c -> chains !! k = Some js -> j ∈ js -> nx a b' j = nx a b j) -> (forall h, t' !! c = Some h -> linked (nx a b') h (l ++ l2)) ->
  table_ok a b' t' (<[c := l ++ l2]> chains) (List.filter (fun j => negb (j =? i)) ms).
Proof.
  intros Hl Hh Htk Hx Hlc. destruct Ht as (T1 & T2 & T3 & T4). pose proof (Forall2_length _ _ _ T1) as Hlen. pose proof (chain_remove _ _ _ _ _ Hc) as Hperm. rewrite Hperm in T2. apply NoDup_cons in T2 as [Hni Hnd].
  split_and!.
  - apply Forall2_same_length_lookup. rewrite length_insert. split; [lia|]. intros k h js Eh Ej. destruct (decide (c = k)) as [<- |Hk].
    + rewrite list_lookup_insert_eq in Ej by (by apply lookup_lt_Some in Hc). injection Ej as <-. by apply Hlc.
    + rewrite list_lookup_insert_ne in Ej by done. rewrite Htk in Eh by done. eapply link_ext; [|by apply (Forall2_lookup_lr _ _ _ _ _ _ T1 Eh Ej)]. intros j Hj. by apply (Hx k js).
  - done.
  - intros j. rewrite elem_remove, <- T3, Hperm, elem_of_cons. split; [|intros ([?|?] & ?); done]. intros Hj. split; [by right|]. intros ->. done.
  - intros k js j s Ek Hj Es. rewrite Hl. specialize (Hh j). rewrite Es in Hh. destruct (node a b j) as [s0|] eqn:E0; [|done]. cbn in Hh. injection Hh as ->. destruct (decide (c = k)) as [<- |Hk].
    + rewrite list_lookup_insert_eq in Ek by (by apply lookup_lt_Some in Hc). injection Ek as <-. apply (T4 c (l ++ i :: l2) j s0); [done| |done]. apply elem_of_app in Hj as [?|?]; apply elem_of_app; [by left|right; by right].
    + rewrite list_lookup_insert_ne in Ek by done. by apply (T4 k js j).
Qed.

Lemma remove_linked : exists h, t !! c = Some h /\ linked (nx a b) h (l ++ i :: l2) /\ NoDup (l ++ i :: l2).
Proof.
  destruct Ht as (T1 & T2 & T3 & T4). destruct (lookup_lt_is_Some_2 t c) as [h Eh]; [rewrite (Forall2_length _ _ _ T1); by apply lookup_lt_Some in Hc|]. exists h. split; [done|]. split; [by apply (Forall2_lookup_lr _ _ _ _ _ _ T1 Eh Hc)|].
  rewrite <- (take_drop_middle chains c _ Hc), concat_app in T2. cbn [concat] in T2. apply NoDup_app in T2 as (_ & _ & T2). by apply NoDup_app in T2 as (T2 & _).
Qed.

(** The head of a chain. *)
Lemma remove_head : l = [] -> table_ok a b (<[c := n]> t) (<[c := l ++ l2]> chains) (List.filter (fun j => negb (j =? i)) ms).
Proof.
  intros El. destruct remove_linked as (h & Eh & Hl & _). rewrite El in Hl. apply table_remove; [apply length_insert|done|intros k Hk; by rewrite list_lookup_insert_ne|done|].
  intros h'. rewrite list_lookup_insert_eq by (by apply lookup_lt_Some in Eh). intros [= <-]. destruct (link_tail _ _ _ _ Hl) as (m & Em & Hl'). rewrite El. cbn. congruence.
Qed.

(** An index after another one. *)
Lemma remove_next l0 j0 p0 s0 : l = l0 ++ [j0] -> atom_at a j0 = Some p0 -> b !! p0 = Some s0 ->
  table_ok a (<[p0 := with_next s0 n]> b) t (<[c := l ++ l2]> chains) (List.filter (fun j => negb (j =? i)) ms).
Proof.
  intros El Hp0 Hs0. destruct remove_linked as (h & Eh & Hl & Hnd). rewrite El, <- app_assoc in Hl, Hnd. cbn [app] in Hl, Hnd.
  assert (Hx : forall k, nx a (<[p0 := with_next s0 n]> b) k = if decide (k = j0) then Some n else nx a b k) by (intros k; by rewrite (nx_insert _ _ _ _ j0)).
  assert (En : node a b j0 = Some s0) by (apply node_at; by exists p0).
  apply table_remove; [done| |done| |].
  - intros k. rewrite (node_insert _ _ _ _ j0) by done. case_decide as Hk; [|done]. subst k. by rewrite En.
  - intros k js j Hk Ek Hj. rewrite Hx, decide_False; [done|]. intros ->. destruct Ht as (_ & T2 & _). rewrite <- (take_drop_middle chains c _ Hc), concat_app in T2. cbn [concat] in T2.
    assert (Hj0 : j0 ∈ l ++ i :: l2) by (rewrite El; apply elem_of_app; left; apply elem_of_app; right; by left).
    destruct (decide (k < c)%nat) as [Hlt|Hge].
    + apply NoDup_app in T2 as (_ & T2 & _). apply (T2 j0); [apply (elem_chain _ k js); [by rewrite lookup_take_lt by done|done]|]. apply elem_of_app. by left.
    + apply NoDup_app in T2 as (_ & _ & T2). apply NoDup_app in T2 as (_ & T2 & _). apply (T2 j0 Hj0). apply (elem_chain _ (k - S c) js); [rewrite lookup_drop; by replace (S c + (k - S c))%nat with k by lia|done].
  - intros h'. rewrite Eh. intros [= <-]. rewrite El, <- app_assoc. cbn [app]. eapply link_ext; [|by apply (link_remove (nx a b) h l0 j0 i l2 n)]. intros k _. apply Hx.
Qed.
End Remove.

Lemma free_find_spec rt l j0 i l2 p p0 fuel h p1 : injective (atom_array rt) -> linked (nx (atom_array rt) (blocks rt)) h (l ++ j0 :: i :: l2) -> NoDup (l ++ j0 :: i :: l2) ->
  atom_at (atom_array rt) h = Some p1 -> atom_at (atom_array rt) i = Some p -> atom_at (atom_array rt) j0 = Some p0 -> (length l < fuel)%nat ->
  free_find fuel rt p h p1 = Some (p0, i).
Proof.
  intros Hinj. revert fuel h p1. induction l as [|x l IH]; intros fuel h p1 Hl Hnd Eh Ei Ej Hf; (destruct fuel as [|fuel]; [cbn in Hf; lia|]); cbn [app] in *; cbn [free_find].
  - apply linked_cons_inv in Hl as (-> & Hj & q & s & Eq & Es & _ & Hl). simplify_eq. destruct (linked_cons_inv _ _ _ _ Hl) as (En & _). rewrite (proj2 (Z.eqb_neq _ _)) by done. rewrite Es. cbn [mbind option_bind]. rewrite En, Ei. cbn [mbind option_bind]. by rewrite bool_decide_eq_true_2.
  - apply linked_cons_inv in Hl as (-> & Hx & q & s & Eq & Es & _ & Hl). simplify_eq. rewrite (proj2 (Z.eqb_neq _ _)) by done. rewrite Es. cbn [mbind option_bind]. apply NoDup_cons in Hnd as [_ Hnd].
    assert (Hy : exists y l', l ++ j0 :: i :: l2 = y :: l' /\ y <> i).
    { destruct l as [|y l']; [exists j0, (i :: l2)|exists y, (l' ++ j0 :: i :: l2)]; (split; [done|]); intros ->; cbn in Hnd; apply NoDup_cons in Hnd as [Hy _]; apply Hy; [by left|]. apply elem_of_app. right. right. by left. }
    destruct Hy as (y & l' & Ey & Hyi). pose proof Hl as Hl'. rewrite Ey in Hl'. destruct (linked_cons_inv _ _ _ _ Hl') as (En & _ & p2 & s2 & Ep2 & _). rewrite En, Ep2. cbn [mbind option_bind].
    rewrite bool_decide_eq_false_2 by (intros ->; apply Hyi; by apply (Hinj y i p)). rewrite <- En. apply IH; [done|done|by rewrite En|done|done|cbn in Hf; lia].
Qed.

Lemma free_unlink_spec rt p s i : injective (atom_array rt) -> index_ok (atom_array rt) (blocks rt) (atom_hash rt) -> atom_at (atom_array rt) i = Some p -> blocks rt !! p = Some s ->
  interned s \/ atom_type s = JS_ATOM_TYPE_SYMBOL /\ hash_next s = i ->
  exists t b, free_unlink rt p s = Some (i, set_table rt t b) /\ length t = length (atom_hash rt) /\ same_blocks (blocks rt) b /\
    (forall k sk, node (atom_array rt) (blocks rt) k = Some sk -> ~ interned sk -> node (atom_array rt) b k = Some sk) /\
    exists chains ms, table_ok (atom_array rt) b t chains ms /\ forall j, j ∈ ms <-> j <> i /\ exists sj, node (atom_array rt) (blocks rt) j = Some sj /\ interned sj.
Proof.
  intros Hinj (Hsz & chains & ms & Ht & Hms) Ep Es Hty. assert (En : node (atom_array rt) (blocks rt) i = Some s) by (apply node_at; by exists p). unfold free_unlink. destruct Hty as [Hi|[Hy Hn]].
  2: { rewrite Hy. cbn [Z.eqb]. exists (atom_hash rt), (blocks rt). rewrite Hn. split; [by destruct rt|]. split; [done|]. split; [by intros q|]. split; [done|]. exists chains, ms. split; [done|].
       intros j. rewrite Hms. split; [|tauto]. intros (sj & Ej & Hij). split; [|by exists sj]. intros ->. simplify_eq. by apply interned_not_symbol in Hij. }
  rewrite (proj2 (Z.eqb_neq _ _)) by (by apply interned_not_symbol). assert (Hm : i ∈ ms) by (apply Hms; by exists s). pose proof Ht as (T1 & T2 & T3 & T4). apply T3 in Hm. apply list_elem_of_In, in_concat in Hm as (js & Hjs & Hij).
  apply list_elem_of_In in Hjs, Hij. apply list_elem_of_lookup in Hjs as (c & Hc). pose proof (T4 c js i s Hc Hij En) as Ec. apply list_elem_of_split in Hij as (l & l2 & ->).
  destruct (remove_linked _ _ _ _ _ c l i l2 Ht Hc) as (h & Eh & Hl & Hnd). unfold atom_hash_size. rewrite <- Ec. assert (Er : aread (atom_hash rt) (Z.of_nat c) = Some h) by (by rewrite aread_nat). rewrite Er. cbn [mbind option_bind].
  assert (Hnx : nx (atom_array rt) (blocks rt) i = Some (hash_next s)) by (unfold nx; by rewrite En).
  assert (Hms' : forall j, j ∈ List.filter (fun j => negb (j =? i)) ms <-> j <> i /\ exists sj, node (atom_array rt) (blocks rt) j = Some sj /\ interned sj) by (intros j; rewrite elem_remove, Hms; tauto).
  induction l as [|j0 l0 _] using rev_ind.
  - destruct (linked_cons_inv _ _ _ _ Hl) as (-> & _). rewrite Ep. cbn [mbind option_bind]. rewrite bool_decide_eq_true_2 by done. rewrite awrite_nat by (by apply lookup_lt_Some in Eh). cbn [mbind option_bind].
    eexists _, _. split; [done|]. split; [apply length_insert|]. split; [by intros q|]. split; [done|]. eexists _, _. split; [|exact Hms']. exact (remove_head _ _ _ _ _ c [] i l2 (hash_next s) Ht Hc Hnx eq_refl).
  - rewrite <- app_assoc in Hl, Hnd. cbn [app] in Hl, Hnd. assert (Hh : exists p1, atom_at (atom_array rt) h = Some p1 /\ p1 <> p).
    { destruct l0 as [|x l0]; cbn [app] in Hl, Hnd; destruct (linked_cons_inv _ _ _ _ Hl) as (-> & _ & p1 & _ & Ep1 & _); exists p1; (split; [done|]); intros ->; pose proof (Hinj _ _ _ Ep1 Ep) as ->; apply NoDup_cons in Hnd as [Hn _]; apply Hn; [by left|].
      apply elem_of_app. right. right. by left. }
    destruct Hh as (p1 & Ep1 & Hp1). rewrite Ep1. cbn [mbind option_bind]. rewrite bool_decide_eq_false_2 by done.
    assert (Hj0 : is_Some (node (atom_array rt) (blocks rt) j0)) by (apply (linked_nodes _ _ h _ Hl); apply elem_of_app; right; by left). destruct Hj0 as [s0 E0]. pose proof E0 as (p0 & Ep0 & Es0)%node_at.
    assert (Hlen : (length (l0 ++ j0 :: i :: l2) <= length (atom_array rt))%nat) by (apply (nodes_bound _ (blocks rt)); [done|by apply (linked_nodes _ _ h)]). rewrite length_app in Hlen. cbn [length] in Hlen.
    rewrite (free_find_spec rt l0 j0 i l2 p p0) by (done || lia). cbn [mbind option_bind fst snd]. rewrite Es0. cbn [mbind option_bind].
    eexists _, _. split; [done|]. split; [done|]. split; [by apply same_blocks_insert|]. split.
    + intros k sk Ek Hk. rewrite (node_insert _ _ _ _ j0) by done. rewrite decide_False; [done|]. intros ->. simplify_eq. apply Hk.
      assert (Hj0 : j0 ∈ ms) by (apply T3; apply (elem_chain _ c _ _ Hc); apply elem_of_app; left; apply elem_of_app; right; by left). apply Hms in Hj0 as (s' & Es' & Hs'). by simplify_eq.
    + eexists _, _. split; [|exact Hms']. by apply (remove_next _ _ _ _ _ c (l0 ++ [j0]) i l2 (hash_next s) Hinj Ht Hc Hnx l0 j0).
Qed.

(** The state without the atom [i]. *)
Lemma atoms_ok_remove rt i p a b t mem : atoms_ok rt -> i <> 0 -> atom_at (atom_array rt) i = Some p ->
  (forall k, atom_at a k = if decide (k = i) then None else atom_at (atom_array rt) k) -> length a = length (atom_array rt) -> used a = used (atom_array rt) - 1 -> free_ok a i ->
  (forall k q s, k <> i -> atom_at (atom_array rt) k = Some q -> blocks rt !! q = Some s -> exists s', b !! q = Some s' /\ atom_upd (keys rt) s s') ->
  (forall q s', b !! q = Some s' -> atom_type s' <> 0 -> q <> p /\ exists s, blocks rt !! q = Some s /\ atom_type s <> 0) ->
  index_ok a b t -> length t = length (atom_hash rt) ->
  atoms_ok (mk_art t (atom_count rt - 1) (atom_count_resize rt) a i b (keys rt) mem).
Proof.
  intros H Hi Hp Ha Hl Hu Hf Hb Hty Hx Ht.
  assert (Hn : forall k s', node a b k = Some s' -> k <> i /\ exists s, node (atom_array rt) (blocks rt) k = Some s /\ atom_upd (keys rt) s s').
  { intros k s' (q & Eq & Es)%node_at. rewrite Ha in Eq. case_decide as Hk; [done|]. split; [done|]. destruct (ao_atom rt H k q Eq) as (s & Es0 & _). destruct (Hb k q s Hk Eq Es0) as (s1 & E1 & U). simplify_eq. exists s. split; [|done]. apply node_at. by exists q. }
  split; cbn -[JS_ATOM_MAX]; try done.
  - intros j k q. rewrite !Ha. case_decide; [done|]. case_decide; [done|]. apply H.
  - intros k q. rewrite Ha. case_decide as Hk; [done|]. intros Eq. destruct (ao_atom rt H k q Eq) as (s & Es & H1 & H2 & H3 & H4). destruct (Hb k q s Hk Eq Es) as (s' & Es' & U1 & U2 & U3 & U4 & U5). exists s'. split; [done|].
    unfold atom_ok. rewrite U1, U2. split_and!; try done. destruct H4 as [(H4 & H5 & _)|(H4 & H5 & H6)]; [left; split; [by apply (interned_type s)|by split; [|apply U4]]|right; by destruct (U5 H4) as [-> ->]].
  - intros q s' Eq Hs. destruct (Hty q s' Eq Hs) as (Hqp & s & Es & Hs0). destruct (ao_typed rt H q s Es Hs0) as [k Ek]. exists k. rewrite Ha, decide_False; [done|]. intros ->. congruence.
  - intros j k s1 s2 Hj Hk Hi1 E. destruct (Hn j s1 Hj) as (_ & s & Es & U1 & U2 & _), (Hn k s2 Hk) as (_ & s' & Es' & U1' & U2' & _).
    apply (ao_unique rt H j k s s'); [done|done|by apply (interned_type s1)|]. unfold key in *. congruence.
  - rewrite Hu, (ao_count rt H). done.
  - rewrite (ao_resize rt H). unfold atom_hash_size. cbn. by rewrite Ht.
  - right. destruct (ao_null rt H) as [E|(s0 & E0 & Et)].
    + exfalso. rewrite E in Hp. unfold atom_at, aread in Hp. by destruct (i <? 0).
    + apply node_at in E0 as (q & Eq & Es). destruct (Hb 0 q s0 ltac:(congruence) Eq Es) as (s' & Es' & _ & U2 & _). exists s'. split; [|congruence]. apply node_at. exists q. split; [|done]. by rewrite Ha, decide_False by congruence.
  - unfold atom_size. cbn [atom_array]. rewrite Hl. apply H.
Qed.

(** ** The last reference *)

Lemma slot_free rt i p : atoms_ok rt -> i <> 0 -> atom_at (atom_array rt) i = Some p ->
  exists a, awrite (atom_array rt) i (Free (atom_free_index rt)) = Some a /\ (forall k, atom_at a k = if decide (k = i) then None else atom_at (atom_array rt) k) /\
    length a = length (atom_array rt) /\ used a = used (atom_array rt) - 1 /\ free_ok a i.
Proof.
  intros H Hi Ep. assert (Er : aread (atom_array rt) i = Some (Ptr p)) by (rewrite atom_at_slot in Ep; destruct (aread _ i) as [[]|]; try done; cbn in Ep; congruence).
  destruct (slot_set _ _ _ (Free (atom_free_index rt)) Er) as (a & Ea & La & Ra & Ua). exists a. split; [done|]. split; [intros k; rewrite !atom_at_slot, Ra; by case_decide|]. split; [done|]. split; [rewrite Ua; cbn; lia|].
  assert (Hfn : forall k, fnx a k = if decide (k = i) then Some (atom_free_index rt) else fnx (atom_array rt) k) by (intros k; unfold fnx; rewrite Ra; by case_decide).
  destruct (ao_free rt H) as (fs & Hl & Hnd & Hfs). assert (Hni : i ∉ fs) by (rewrite Hfs; unfold fnx; rewrite Er; by intros []).
  exists (i :: fs). split; [|split; [by constructor|]].
  - eapply link_ext; [|by apply (linked_push (fnx (atom_array rt)))]. intros k _. apply Hfn.
  - intros k. rewrite elem_of_cons, Hfn, Hfs. case_decide as Hk; [split; [eauto|by left]|]. split; [by intros [?|?]|by right].
Qed.

Lemma same_blocks_upd k b b' p s : same_blocks b b' -> b !! p = Some s -> exists s', b' !! p = Some s' /\ str s' = str s /\ atom_type s' = atom_type s /\ ref_count s' = ref_count s /\ hash s' = hash s /\ (hashed k s -> hashed k s').
Proof.
  intros H E. specialize (H p). rewrite E in H. destruct (b' !! p) as [s'|]; [|done]. injection H as E1 E2 E3 E4 _. exists s'. split_and!; try done. unfold hashed. by rewrite E1, E2, E3.
Qed.

Lemma free_struct_spec rt i p s c : atoms_ok rt -> i <> 0 -> atom_at (atom_array rt) i = Some p -> blocks rt !! p = Some s ->
  exists rt', JS_FreeAtomStruct (set_blocks rt (<[p := with_count s c]> (blocks rt))) p = Some rt' /\ atoms_ok rt' /\ forall k, atom_entry rt' k = if decide (k = i) then None else atom_entry rt k.
Proof.
  intros H Hi Ep Es. pose proof (ao_inj rt H) as Hinj. destruct (ao_atom rt H i p Ep) as (s_ & Es' & Ha). assert (s_ = s) as -> by congruence. clear Es'. set (b1 := <[p := with_count s c]> (blocks rt)). set (rt1 := set_blocks rt b1).
  assert (En : node (atom_array rt) (blocks rt) i = Some s) by (apply node_at; by exists p).
  assert (N1 : forall k, node (atom_array rt) b1 k = if decide (k = i) then Some (with_count s c) else node (atom_array rt) (blocks rt) k) by (intros k; by apply node_insert).
  assert (X1 : index_ok (atom_array rt) b1 (atom_hash rt)).
  { destruct (ao_index rt H) as (Hsz & chains & ms & Ht & Hms). split; [done|]. exists chains, ms. split.
    - apply (atable_same _ (blocks rt)); [| |done]; intros k; [unfold nx|]; rewrite N1; case_decide as Hk; try done; subst k; by rewrite En.
    - intros j. rewrite Hms, N1. case_decide as Hj; [|done]. subst j. rewrite En. split; intros (s0 & [= <-] & Hi0); eexists; (split; [done|]); done. }
  destruct (free_unlink_spec rt1 p (with_count s c) i Hinj X1 Ep) as (t & b & E2 & L2 & B2 & N2 & chains & ms & T2 & M2); [cbn; subst b1; by rewrite lookup_insert_eq|destruct Ha as (_ & _ & _ & [(? & _)|(? & ? & _)]); [by left|by right]|].
  cbn [blocks atom_array rt1 set_blocks set_table atom_hash] in L2, B2, N2, T2, M2. unfold JS_FreeAtomStruct. fold rt1. cbn [blocks rt1 set_blocks set_table]. subst b1. rewrite lookup_insert_eq. set (b1 := <[p := with_count s c]> (blocks rt)) in *. cbn [mbind option_bind].
  fold rt1. rewrite E2. cbn [mbind option_bind]. cbn [atom_array set_table rt1 set_blocks atom_free_index]. destruct (slot_free rt i p H Hi Ep) as (a & Ea & Aa & La & Ua & Fa). rewrite Ea. cbn [mbind option_bind].
  assert (Hsym : (atom_type (with_count s c) =? JS_ATOM_TYPE_SYMBOL) && negb (hash (with_count s c) =? JS_ATOM_HASH_PRIVATE) && negb (hash (with_count s c) =? 0) = false).
  { cbn [atom_type hash with_count]. destruct Ha as (_ & _ & _ & [(Hin & _)|(_ & _ & [-> | ->])]); [|by destruct (_ =? _)|by destruct (_ =? _)]. by rewrite (proj2 (Z.eqb_neq _ _)) by (by apply interned_not_symbol). }
  rewrite Hsym. set (rt2 := mk_art t (atom_count rt - 1) (atom_count_resize rt) a i (delete p b) (keys rt) (amem rt)).
  match goal with |- exists _, (if ?x <? 0 then None else Some ?y) = _ /\ _ => change x with (atom_count rt - 1); change y with rt2 end.
  assert (Hc : 0 <= atom_count rt - 1) by (rewrite (ao_count rt H), <- Ua; unfold used; lia). rewrite (proj2 (Z.ltb_ge _ _)) by done. exists rt2. split; [done|].
  assert (Hq : forall k q, k <> i -> atom_at (atom_array rt) k = Some q -> q <> p) by (intros k q Hk Eq ->; apply Hk; by apply (Hinj k i p)).
  assert (Nd : forall k, k <> i -> node a (delete p b) k = node (atom_array rt) b k).
  { intros k Hk. unfold node. rewrite Aa, decide_False by done. destruct (atom_at (atom_array rt) k) as [q|] eqn:Eq; [|done]. cbn. rewrite lookup_delete_ne; [done|]. intros <-. by apply (Hq k p). }
  split.
  - apply (atoms_ok_remove rt i p); try done.
    + intros k q sq Hk Eq Esq. pose proof (Hq k q Hk Eq) as Hqp. destruct (same_blocks_upd (keys rt) _ _ q sq B2) as (s2 & F1 & F2 & F3 & F4 & F5 & F6); [subst b1; by rewrite lookup_insert_ne|].
      exists s2. rewrite lookup_delete_ne by done. split; [done|]. pose proof (ao_node rt k sq H) as Hak. destruct Hak as (_ & _ & Hr & Hk'); [apply node_at; by exists q|]. split; [done|]. split; [done|]. split; [lia|]. split.
      * intros Hin. apply F6. destruct Hk' as [(_ & _ & ?)|(Ty & _)]; [done|by apply interned_not_symbol in Hin].
      * intros Ty. assert (Ek : node (atom_array rt) b1 k = Some sq) by (rewrite N1, decide_False by done; apply node_at; by exists q).
        assert (Ek2 : node (atom_array rt) b k = Some sq) by (apply N2; [done|]; intros Hin; by apply interned_not_symbol in Hin). apply node_at in Ek2 as (q' & Eq' & Esq'). simplify_eq. done.
    + intros q sq. destruct (decide (q = p)) as [-> |Hqp]; [by rewrite lookup_delete_eq|]. rewrite lookup_delete_ne by done. intros Eq Ty. split; [done|]. specialize (B2 q). rewrite Eq in B2. subst b1. rewrite lookup_insert_ne in B2 by done.
      destruct (blocks rt !! q) as [s0|]; [|done]. injection B2 as _ _ B2 _ _. exists s0. split; [done|]. congruence.
    + split; [rewrite L2; apply (ao_index rt H)|]. exists chains, ms. split; [apply (table_members (atom_array rt) b); [intros j Hj; apply Nd; by apply M2 in Hj as [? _]|done]|].
      intros j. rewrite M2, N1. destruct (decide (j = i)) as [-> |Hj].
      * split; [by intros [? _]|]. intros (sj & Ej & _). unfold node in Ej. by rewrite Aa, decide_True in Ej.
      * rewrite Nd by done. pose proof (same_blocks_node (atom_array rt) _ _ B2 j) as Eb. rewrite N1, decide_False in Eb by done. split.
        -- intros (_ & sj & Ej & Hij). rewrite Ej in Eb. destruct (node _ b j) as [s2|]; [|done]. injection Eb as _ _ Eb _ _. exists s2. split; [done|]. by apply (interned_type sj).
        -- intros (s2 & Ej & Hij). split; [done|]. rewrite Ej in Eb. destruct (node _ (blocks rt) j) as [sj|]; [|done]. injection Eb as _ _ Eb _ _. exists sj. split; [done|]. by apply (interned_type s2).
  - intros k. unfold atom_entry. cbn [atom_array blocks rt2]. case_decide as Hk; [subst k; unfold node; by rewrite Aa, decide_True|]. rewrite Nd by done. pose proof (same_blocks_node (atom_array rt) _ _ B2 k) as Eb. rewrite N1, decide_False in Eb by done.
    destruct (node _ b k), (node _ (blocks rt) k); cbn in *; try done. injection Eb as E1' E2' E3' E4' _. unfold entry. by rewrite E1', E3', E4'.
Qed.

Lemma free_atom_spec rt i t u c : atoms_ok rt -> i <> 0 -> atom_entry rt i = Some (t, u, c) ->
  exists rt', __JS_FreeAtom rt i = Some rt' /\ atoms_ok rt' /\ forall k, atom_entry rt' k = if decide (k = i) then (if 1 <? c then Some (t, u, c - 1) else None) else atom_entry rt k.
Proof.
  intros H Hi E. unfold atom_entry in E. destruct (node _ _ i) as [s|] eqn:En; [|done]. cbn in E. injection E as <- <- <-. pose proof En as (p & Ep & Es)%node_at. unfold __JS_FreeAtom. rewrite Ep. cbn [mbind option_bind]. rewrite Es. cbn [mbind option_bind].
  destruct (Z.ltb_spec 0 (ref_count s - 1)) as [Hc|Hc].
  - rewrite (proj2 (Z.ltb_lt 1 (ref_count s))) by lia. destruct (count_spec rt i p s (ref_count s - 1) H Ep Es) as [H' N']; [lia|]. eexists. split; [done|]. split; [done|]. intros k. unfold atom_entry. cbn [atom_array blocks set_blocks set_table]. rewrite N'. by case_decide.
  - rewrite (proj2 (Z.ltb_ge 1 (ref_count s))) by lia. by apply free_struct_spec.
Qed.
