(* ===== verification/AtomInit.v ===== *)
(** * The predefined atoms, and the theorems of the atom table

    JS_InitAtoms of [Atoms] gives the predefined names and symbols the numbers of
    the constants JS_ATOM_null, JS_ATOM_false, ...  This file shows it for every
    seed, and states what interning and freeing do. *)
From Stdlib Require Import ZArith Lia List.
From stdpp Require Import base numbers option list gmap.
From S2P Require Import Prelude Strings StrHash AtomNames Atoms AtomTable AtomOps AtomProps AtomFree.

(** ** The empty table *)

Definition empty_rt (k : hash_rt) (mem : list bool) : atom_rt := mk_art (replicate 512 0) 0 1024 [] 0 ∅ k mem.

Lemma empty_ok t b k mem : size_ok (Z.of_nat (length t)) -> t = replicate (length t) 0 -> (forall p s, b !! p = Some s -> atom_type s = 0) ->
  atoms_ok (mk_art t 0 (JS_ATOM_COUNT_RESIZE (Z.of_nat (length t))) [] 0 b k mem).
Proof.
  intros Hs Ht Hb. assert (Hat : forall i, atom_at [] i = None) by (intros i; unfold atom_at, aread; by destruct (i <? 0)). assert (Hnd : forall i, node [] b i = None) by (intros i; unfold node; by rewrite Hat).
  split; cbn -[JS_ATOM_MAX Z.of_nat JS_ATOM_COUNT_RESIZE]; try done.
  - intros i j p. by rewrite Hat.
  - intros i p. by rewrite Hat.
  - intros p s Hp Hn. by rewrite (Hb p s Hp) in Hn.
  - split; [done|]. exists (replicate (length t) []), []. split; [rewrite Ht at 1; apply empty_table|]. intros j. rewrite elem_of_nil. split; [done|]. intros (s & E & _). by rewrite Hnd in E.
  - intros i j s s'. by rewrite Hnd.
  - exists []. split; [done|]. split; [constructor|]. intros j. rewrite elem_of_nil. split; [done|]. unfold fnx, aread. destruct (j <? 0); by intros [].
  - by left.
Qed.

(** ** The loop *)

Definition init_texts : list (list Z) := map Prelude.str js_atom_init.

(** The list of src/dyna-atom.h: 248 names, then the private brand, which is a
    symbol, and the symbols. *)
Definition init_kind (i : Z) : Z := if i <=? 248 then JS_ATOM_TYPE_STRING else JS_ATOM_TYPE_SYMBOL.

(** The predefined atom number [i]. *)
Definition predefined (i : Z) : option (Z * list Z * Z) := u ← aread init_texts (i - 1); Some (init_kind i, u, 1).

Definition bytes_okb (u : list Z) : bool := forallb (fun c => (0 <=? c) && (c <? 256)) u && (Z.of_nat (length u) <? 2 ^ 30).

Lemma init_texts_ok : forallb bytes_okb init_texts = true /\ length init_texts = 264%nat.
Proof. split; vm_compute; reflexivity. Qed.

(** The names are pairwise different. *)
Definition names_differb : bool := bool_decide (NoDup (take 248 init_texts)).

Lemma names_differ : NoDup (take 248 init_texts).
Proof. assert (E : names_differb = true) by (vm_compute; reflexivity). by apply bool_decide_eq_true in E. Qed.

Lemma init_kind_cases i : 1 <= i <= 264 -> (init_type i = JS_ATOM_TYPE_STRING /\ i <= 248 /\ init_kind i = JS_ATOM_TYPE_STRING) \/
  (init_type i = JS_ATOM_TYPE_SYMBOL \/ init_type i = JS_ATOM_TYPE_PRIVATE) /\ init_kind i = JS_ATOM_TYPE_SYMBOL.
Proof.
  intros Hi. unfold init_kind, init_type, JS_ATOM_Private_brand, JS_ATOM_Symbol_toPrimitive. destruct (Z.leb_spec i 248).
  - left. rewrite (proj2 (Z.eqb_neq _ _)), (proj2 (Z.leb_gt _ _)) by lia. done.
  - right. split; [|done]. destruct (Z.eqb_spec i 249); [by right|left]. by rewrite (proj2 (Z.leb_le _ _)) by lia.
Qed.

(** The state before the atom number [i]. *)
Definition init_inv (rt : atom_rt) (i : Z) : Prop :=
  atoms_ok rt /\ mem_ok rt /\ (i = 1 /\ atom_array rt = [] /\ atom_free_index rt = 0 \/ 1 < i /\ frees rt (seqZ i (711 - i))) /\
  forall k, k <> 0 -> atom_entry rt k = if decide (1 <= k < i) then predefined k else None.

#[local] Opaque init_texts js_atom_init.

Lemma init_text_ok i u : aread init_texts i = Some u -> str_ok (mk_str (Z.of_nat (length u)) false false u).
Proof.
  intros E. destruct init_texts_ok as [Hok _]. rewrite forallb_forall in Hok. assert (Hu : bytes_okb u = true) by (apply Hok, list_elem_of_In; unfold aread in E; destruct (i <? 0); [done|]; by apply list_elem_of_lookup_2 in E).
  unfold bytes_okb in Hu. apply andb_true_iff in Hu as [Hb Hl]. split; [done|]. split; [unfold JS_STRING_LEN_MAX; change (1 << 30) with (2 ^ 30); cbn [len]; lia|].
  cbn. rewrite forallb_forall in Hb. apply Forall_forall. intros c Hc. apply list_elem_of_In in Hc. specialize (Hb c Hc). apply andb_true_iff in Hb as [? ?]. unfold fits. lia.
Qed.

Lemma predefined_text k e : predefined k = Some e -> exists u, aread init_texts (k - 1) = Some u /\ e = (init_kind k, u, 1) /\ 1 <= k <= 264.
Proof.
  unfold predefined. destruct (aread init_texts (k - 1)) as [u|] eqn:E; [|done]. cbn. intros [= <-]. exists u. split; [done|]. split; [done|]. apply aread_some in E. destruct init_texts_ok as [_ El]. rewrite El in E. lia.
Qed.

(** A name is not among the atoms before it. *)
Lemma name_new k i u c : 1 <= k < i -> i <= 248 -> aread init_texts (i - 1) = Some u -> predefined k <> Some (JS_ATOM_TYPE_STRING, u, c).
Proof.
  intros Hk Hi Eu E. destruct (predefined_text k _ E) as (u' & Eu' & Ee & Hk'). injection Ee as _ <- _. pose proof names_differ as Hnd. unfold aread in Eu, Eu'. rewrite (proj2 (Z.ltb_ge (i - 1) 0)) in Eu by lia. rewrite (proj2 (Z.ltb_ge (k - 1) 0)) in Eu' by lia.
  assert (En : Z.to_nat (k - 1) = Z.to_nat (i - 1)); [|lia]. apply (NoDup_lookup (take 248 init_texts) _ _ u Hnd); rewrite lookup_take_lt by lia; done.
Qed.

Lemma init_took rt rt' i j : init_inv rt i -> i <= 264 -> took rt rt' j -> j = i /\ frees rt' (seqZ (i + 1) (711 - (i + 1))).
Proof.
  intros (_ & _ & [(-> & Ea & _)|(Hi & Hf)] & _) Hi' (T1 & T2).
  - exact (T2 Ea).
  - rewrite seqZ_cons in Hf by lia. destruct (T1 _ _ Hf) as [-> Hf']. split; [done|]. replace (711 - (i + 1)) with (Z.pred (711 - i)) by lia. done.
Qed.

Lemma init_next rt rt' i u : init_inv rt i -> 1 <= i <= 264 -> aread init_texts (i - 1) = Some u -> atoms_ok rt' -> mem_ok rt' -> frees rt' (seqZ (i + 1) (711 - (i + 1))) ->
  (forall k, k <> 0 -> atom_entry rt' k = if decide (k = i) then Some (init_kind i, u, 1) else atom_entry rt k) -> init_inv rt' (i + 1).
Proof.
  intros (_ & _ & _ & He) Hi Eu A M F V. split; [done|]. split; [done|]. split; [right; split; [lia|done]|]. intros k Hk. rewrite V, He by done. destruct (decide (k = i)) as [-> |Hne].
  - rewrite decide_True by lia. unfold predefined. by rewrite Eu.
  - destruct (decide (1 <= k < i)); [by rewrite decide_True by lia|by rewrite decide_False by lia].
Qed.

Lemma init_step rt i u : init_inv rt i -> 1 <= i <= 264 -> aread init_texts (i - 1) = Some u -> exists rt', __JS_NewAtomInit rt u (init_type i) = Some (i, rt') /\ init_inv rt' (i + 1).
Proof.
  intros Hinv Hi Eu. pose proof Hinv as (A & M & Hf & He). unfold __JS_NewAtomInit. destruct (mem_ok_hd rt M) as [Mh M1]. pose proof (malloc_ok rt A) as A1. destruct (js_malloc_rt rt) as [ok rt1] eqn:Em. cbn [snd] in *.
  assert (Er : hd true (amem rt) = ok /\ atom_array rt1 = atom_array rt /\ atom_free_index rt1 = atom_free_index rt /\ blocks rt1 = blocks rt) by (by injection Em as <- <-). destruct Er as (Eo & R1 & R2 & R3). replace ok with true by congruence. cbn [negb]. clear Em Eo Mh.
  set (s := mk_atom (mk_str (Z.of_nat (length u)) false false u) 0 0 0 1 None). set (p := fresh (dom (blocks rt1))). pose proof (fresh_none (blocks rt1)) as Hp. fold p in Hp.
  destruct (other_ok rt1 _ A1 (other_new rt1 p s Hp A1 eq_refl)) as [A2 N2]. set (rt2 := set_blocks rt1 (<[p := s]> (blocks rt1))) in *.
  assert (Hpl : plain rt2 p s) by (split_and!; [cbn; by rewrite lookup_insert_eq|done|by apply (init_text_ok (i - 1))|done|done]).
  assert (V2 : forall k, atom_entry rt2 k = atom_entry rt k) by (intros k; unfold atom_entry; cbn; by rewrite N2, R1, R3).
  assert (Hsz : atom_free_index rt2 = 0 -> atom_size rt2 <= GROW_MAX).
  { intros E0. cbn in E0. rewrite R2 in E0. unfold atom_size. cbn [atom_array rt2 set_blocks set_table]. rewrite R1. destruct Hf as [(_ & -> & _)|(Hi1 & Hf)]; [done|]. rewrite seqZ_cons in Hf by lia. destruct Hf as (Hf & _). lia. }
  assert (Hinv2 : init_inv rt2 i). { split; [done|]. split; [done|]. unfold frees. cbn [atom_array atom_free_index rt2 set_blocks set_table]. rewrite R1, R2. split; [exact Hf|]. intros k Hk. rewrite V2. by apply He. }
  destruct (init_kind_cases i Hi) as [(Et & Hi' & Ek)|(Et & Ek)].
  - rewrite Et. destruct (new_atom_spec rt2 p s JS_ATOM_TYPE_STRING A2 Hpl ltac:(by left) Hsz) as (j & rt3 & E3 & A3 & [(_ & Hm & _)|((Hj & Hent & Hoth) & M3 & T3)]); [by exfalso; apply Hm|].
    assert (Hnone : atom_entry rt2 j = None).
    { destruct (atom_entry rt2 j) as [[[t0 u0] c0]|] eqn:E0; [|done]. exfalso. destruct Hent as (-> & -> & _). destruct Hinv2 as (_ & _ & _ & He2). rewrite He2 in E0 by done. case_decide as Hd; [|done]. by apply (name_new j i u c0) in E0. }
    rewrite Hnone in Hent. destruct (init_took rt2 rt3 i j Hinv2) as [-> F3]; [lia|by apply T3|]. exists rt3. split; [done|]. apply (init_next rt2 rt3 i u); try done; [by apply M3|]. intros k Hk. rewrite Ek. case_decide as Hd; [by subst|]. by apply Hoth.
  - destruct (new_symbol_spec rt2 (Some p) u 1 (init_type i) A2 ltac:(by exists s) Et Hsz) as (j & rt3 & E3 & A3 & [(_ & Hm & _)|((Hj & _ & Ha) & M3 & T3)]); [by exfalso; apply Hm|].
    destruct (init_took rt2 rt3 i j Hinv2) as [-> F3]; [lia|done|]. exists rt3. split; [done|]. apply (init_next rt2 rt3 i u); try done; [by apply M3|]. intros k Hk. rewrite Ek. by apply Ha.
Qed.

Lemma init_loop_spec n rt i : init_inv rt i -> 1 <= i -> i + Z.of_nat n = 265 -> exists rt', init_loop rt i (drop (Z.to_nat (i - 1)) init_texts) = Some (true, rt') /\ init_inv rt' 265.
Proof.
  destruct init_texts_ok as [_ El]. revert rt i. induction n as [|n IH]; intros rt i Hinv Hi Hn.
  - replace i with 265 in * by lia. exists rt. rewrite drop_ge by (rewrite El; vm_compute; lia). done.
  - destruct (lookup_lt_is_Some_2 init_texts (Z.to_nat (i - 1))) as [u Eu]; [lia|]. rewrite (drop_S _ _ _ Eu). cbn [init_loop].
    destruct (init_step rt i u Hinv) as (rt1 & E1 & I1); [lia|unfold aread; by rewrite (proj2 (Z.ltb_ge _ _)) by lia|]. rewrite E1. cbn [mbind option_bind fst snd]. rewrite (proj2 (Z.eqb_neq i JS_ATOM_NULL)) by (unfold JS_ATOM_NULL; lia).
    replace (S (Z.to_nat (i - 1))) with (Z.to_nat (i + 1 - 1)) by lia. apply IH; [done|lia|lia].
Qed.

Lemma init_atoms_spec seed mem : Forall (eq true) mem -> exists rt, JS_InitAtoms (Some seed) mem = Some (true, rt) /\ init_inv rt 265.
Proof.
  intros Hm. unfold JS_InitAtoms. set (k := hash_string_seed_runtime seed). unfold JS_ResizeAtomHash. change (negb (512 & (512 - 1) =? 0)) with false. cbn [js_malloc_rt amem].
  assert (Hh : hd true mem = true /\ Forall (eq true) (tl mem)) by (destruct mem as [|b l]; [by split|]; by apply Forall_cons in Hm as [<- Hm]). destruct Hh as [Hh Hm']. rewrite Hh. cbn [negb atom_hash each mbind option_bind fst snd].
  destruct (init_loop_spec 264 (empty_rt k (tl mem)) 1) as (rt & E & I); [|done|done|exists rt; split; [exact E|done]].
  split; [apply (empty_ok (replicate 512 0) ∅ k (tl mem)); [exists 9; split; [lia|done]|by rewrite length_replicate|by intros p s]|]. split; [done|]. split; [by left|]. intros j Hj. rewrite decide_False by lia. unfold atom_entry, node, atom_at, aread. cbn. by destruct (j <? 0).
Qed.

(** ** Small states *)

(** A table with one chain and a string that is no atom. *)
Definition tiny_keys : hash_rt := mk_hash_rt 7 1 1 [1; 1; 1; 1; 1; 1; 1; 1] false.
Definition tiny_block (u : list Z) : JSAtomStruct := mk_atom (mk_str (Z.of_nat (length u)) false false u) 0 0 0 1 None.
Definition tiny_rt (u : list Z) : atom_rt := mk_art [0] 0 2 [] 0 {[ 1%positive := tiny_block u ]} tiny_keys [].

Lemma tiny_ok u : atoms_ok (tiny_rt u).
Proof. apply (empty_ok [0]); [by exists 0|done|]. intros p s E. by apply lookup_singleton_Some in E as [<- <-]. Qed.

Lemma tiny_plain u : str_ok (str (tiny_block u)) -> plain (tiny_rt u) 1%positive (tiny_block u).
Proof. intros Hu. split_and!; done. Qed.

(** The name x. *)
Lemma x_ok : str_ok (str (tiny_block [120])).
Proof. split_and!; [done|done|]. constructor; [unfold fits; cbn; lia|constructor]. Qed.

Module AtomInit_props.

(** C6. Interning: let a string be no atom and, if it is a slice, not one of an
    atom, and let the array have a free entry or at most GROW_MAX entries.  Then
    __JS_NewAtom gives the number of the one atom of that type and text, whether it
    was in the table, which then counts one more reference unless the atom is
    predefined, or is new, and takes over the string or a copy of a part; every
    other atom stays as it was, with its count, also when the table grows or is
    hashed again with the keyed hash.  The table stays well formed: texts are there
    once, chains and the list of free entries are right.  Without an allocation
    failure the answer is not 0. *)
Theorem new_atom_interns rt p s t : atoms_ok rt -> plain rt p s -> t = JS_ATOM_TYPE_STRING \/ t = JS_ATOM_TYPE_GLOBAL_SYMBOL ->
  (atom_free_index rt = 0 -> atom_size rt <= GROW_MAX) ->
  exists i rt', __JS_NewAtom rt (Some p) t = Some (i, rt') /\ atoms_ok rt' /\
    (i = 0 /\ ~ mem_ok rt /\ unchanged rt rt' \/ interns rt rt' t (units (str s)) (new_count s) i).
Proof.
  intros H Hp Ht Hsz. destruct (new_atom_spec rt p s t H Hp Ht Hsz) as (i & rt' & E & A & D). exists i, rt'. split; [done|]. split; [done|]. destruct D as [D|(D & _)]; [by left|by right].
Qed.

Lemma new_atom_interns_witness : exists i rt', __JS_NewAtom (tiny_rt [120]) (Some 1%positive) JS_ATOM_TYPE_STRING = Some (i, rt') /\ atoms_ok rt' /\
  (i = 0 /\ ~ mem_ok (tiny_rt [120]) /\ unchanged (tiny_rt [120]) rt' \/ interns (tiny_rt [120]) rt' JS_ATOM_TYPE_STRING [120] 1 i).
Proof. exact (new_atom_interns (tiny_rt [120]) 1%positive (tiny_block [120]) JS_ATOM_TYPE_STRING (tiny_ok _) (tiny_plain _ x_ok) (or_introl eq_refl) (fun _ => ltac:(vm_compute; discriminate))). Defined.

(** C22. Freeing: __JS_FreeAtom takes one reference away; with the last one the atom
    leaves its chain and its number becomes free, and every other atom stays as
    it was.  The table stays well formed. *)
Theorem free_atom_exact rt i t u c : atoms_ok rt -> i <> 0 -> atom_entry rt i = Some (t, u, c) ->
  exists rt', __JS_FreeAtom rt i = Some rt' /\ atoms_ok rt' /\
    forall k, atom_entry rt' k = if decide (k = i) then (if 1 <? c then Some (t, u, c - 1) else None) else atom_entry rt k.
Proof. apply free_atom_spec. Qed.

Lemma free_atom_exact_witness : exists rt rt', __JS_NewAtom (tiny_rt [120]) (Some 1%positive) JS_ATOM_TYPE_STRING = Some (1, rt) /\ __JS_FreeAtom rt 1 = Some rt' /\ atom_entry rt' 1 = None.
Proof.
  destruct (new_atom_spec (tiny_rt [120]) 1%positive (tiny_block [120]) JS_ATOM_TYPE_STRING (tiny_ok _) (tiny_plain _ x_ok) (or_introl eq_refl) (fun _ => ltac:(vm_compute; discriminate))) as (i & rt & E & A & [(_ & Hm & _)|((Hi & He & _) & _)]); [exfalso; apply Hm; constructor|].
  assert (E1 : fst <$> __JS_NewAtom (tiny_rt [120]) (Some 1%positive) JS_ATOM_TYPE_STRING = Some 1) by (vm_compute; reflexivity). rewrite E in E1. injection E1 as ->.
  assert (E0 : atom_entry (tiny_rt [120]) 1 = None) by reflexivity. rewrite E0 in He.
  destruct (free_atom_exact rt 1 JS_ATOM_TYPE_STRING [120] 1 A Hi He) as (rt' & E' & _ & V). exists rt, rt'. split; [exact E|]. split; [exact E'|]. by rewrite V, decide_True.
Defined.

(** C33. The predefined atoms: with memory, and whatever the seed of the hash,
    JS_InitAtoms gives the text number [i] of dyna-atom.h the atom [i], with its
    type and one reference, and makes no other atom; the table is well formed. *)
Theorem init_atoms_numbered seed mem : Forall (eq true) mem ->
  exists rt, JS_InitAtoms (Some seed) mem = Some (true, rt) /\ atoms_ok rt /\
    forall i, i <> 0 -> atom_entry rt i = if decide (1 <= i < JS_ATOM_END) then predefined i else None.
Proof. intros Hm. destruct (init_atoms_spec seed mem Hm) as (rt & E & A & _ & _ & V). by exists rt. Qed.

Lemma init_atoms_numbered_witness : exists rt, JS_InitAtoms (Some 12345) [] = Some (true, rt) /\ atoms_ok rt /\
  forall i, i <> 0 -> atom_entry rt i = if decide (1 <= i < JS_ATOM_END) then predefined i else None.
Proof. exact (init_atoms_numbered 12345 [] (List.Forall_nil _)). Defined.

(** A symbol is a new atom every time, also one with the text of another. *)
Theorem new_symbol_fresh rt str_ u c t : atoms_ok rt -> source rt str_ u c -> t = JS_ATOM_TYPE_SYMBOL \/ t = JS_ATOM_TYPE_PRIVATE ->
  (atom_free_index rt = 0 -> atom_size rt <= GROW_MAX) ->
  exists i rt', __JS_NewAtom rt str_ t = Some (i, rt') /\ atoms_ok rt' /\ (i = 0 /\ ~ mem_ok rt /\ unchanged rt rt' \/ added rt rt' i (JS_ATOM_TYPE_SYMBOL, u, c)).
Proof.
  intros H Hs Ht Hsz. destruct (new_symbol_spec rt str_ u c t H Hs Ht Hsz) as (i & rt' & E & A & D). exists i, rt'. split; [done|]. split; [done|]. destruct D as [D|(D & _)]; [by left|by right].
Qed.

(** Names of properties: a string that spells an integer below 2^31 is the tagged
    integer and leaves the table as it is, any other one is interned. *)
Theorem new_atom_str_exact rt p s : atoms_ok rt -> plain rt p s -> (atom_free_index rt = 0 -> atom_size rt <= GROW_MAX) ->
  exists i rt', JS_NewAtomStr rt p = Some (i, rt') /\ atoms_ok rt' /\
    ((exists n, canonical (units (str s)) /\ dec_value 0 (units (str s)) = n /\ n < 2 ^ 31 /\ i = __JS_AtomFromUInt32 n /\ forall k, atom_entry rt' k = atom_entry rt k) \/
     ~ (canonical (units (str s)) /\ dec_value 0 (units (str s)) < 2 ^ 31) /\
     (i = 0 /\ ~ mem_ok rt /\ unchanged rt rt' \/ interns rt rt' JS_ATOM_TYPE_STRING (units (str s)) (new_count s) i)).
Proof.
  intros H Hpl Hsz. pose proof Hpl as (Hp & _ & Hs & _). unfold JS_NewAtomStr. rewrite Hp. cbn [mbind option_bind].
  assert (Hnew : ~ (canonical (units (str s)) /\ dec_value 0 (units (str s)) < 2 ^ 31) -> exists i rt', __JS_NewAtom rt (Some p) JS_ATOM_TYPE_STRING = Some (i, rt') /\ atoms_ok rt' /\
    ((exists n, canonical (units (str s)) /\ dec_value 0 (units (str s)) = n /\ n < 2 ^ 31 /\ i = __JS_AtomFromUInt32 n /\ forall k, atom_entry rt' k = atom_entry rt k) \/
     ~ (canonical (units (str s)) /\ dec_value 0 (units (str s)) < 2 ^ 31) /\ (i = 0 /\ ~ mem_ok rt /\ unchanged rt rt' \/ interns rt rt' JS_ATOM_TYPE_STRING (units (str s)) (new_count s) i))).
  { intros Hno. destruct (new_atom_spec rt p s JS_ATOM_TYPE_STRING H Hpl (or_introl eq_refl) Hsz) as (i & rt' & E & A & D). exists i, rt'. split; [done|]. split; [done|]. right. split; [done|]. destruct D as [D|(D & _)]; [by left|by right]. }
  destruct (is_num_string (str s)) as [n|] eqn:En.
  - apply is_num_string_spec in En as (Hc & Hd & Hn); [|done]. change JS_ATOM_MAX_INT with (2 ^ 31 - 1). destruct (Z.leb_spec n (2 ^ 31 - 1)) as [Hle|Hgt].
    + destruct (drop_spec rt p s H Hpl) as (b & E & O & _). rewrite E. cbn [mbind option_bind]. destruct (other_ok rt b H O) as [A N]. eexists _, _. split; [done|]. split; [exact A|]. left. exists n. split_and!; try done; [lia|].
      intros k. unfold atom_entry. cbn [atom_array blocks set_blocks set_table]. by rewrite N.
    + apply Hnew. intros [_ Hlt]. lia.
  - apply Hnew. intros [Hc Hlt]. assert (Es : is_num_string (str s) = Some (dec_value 0 (units (str s)))) by (apply is_num_string_spec; [done|]; split_and!; try done; lia). congruence.
Qed.

(** The number of a block, which symbols keep in hash_next and names in their chain. *)
Theorem atom_index_exact rt i p : atoms_ok rt -> atom_at (atom_array rt) i = Some p -> js_get_atom_index rt p = Some i.
Proof. apply get_atom_index_spec. Qed.

(** The copy that becomes an atom ends in a zero byte, which JS_ToCStringLen2
    relies on, only when the part is the end of its string. *)
Theorem slice_terminator u offset n : Forall (fun c => 0 < c < 256) u -> 0 <= offset -> 0 <= n -> offset + n <= Z.of_nat (length u) ->
  exists b, copy_bytes (u ++ [0]) offset n = Some b /\ (b !! Z.to_nat n = Some 0 <-> offset + n = Z.of_nat (length u)).
Proof.
  intros Hu Ho Hn Hl. unfold copy_bytes. rewrite length_drop, length_app. cbn [length]. rewrite (proj2 (Z.leb_le _ _)) by lia. eexists. split; [done|]. rewrite lookup_take_lt by lia. rewrite lookup_drop.
  replace (Z.to_nat offset + Z.to_nat n)%nat with (Z.to_nat (offset + n)) by lia. split.
  - intros E. destruct (decide (offset + n = Z.of_nat (length u))); [done|]. rewrite lookup_app_l in E by lia. rewrite Forall_lookup in Hu. specialize (Hu _ _ E). lia.
  - intros ->. rewrite Nat2Z.id, lookup_app_r, Nat.sub_diag by lia. done.
Qed.

(** The atom of the first five bytes of hello_world is followed by an underscore. *)
Example slice_unterminated : copy_bytes ([104; 101; 108; 108; 111; 95; 119; 111; 114; 108; 100] ++ [0]) 0 5 = Some [104; 101; 108; 108; 111; 95].
Proof. reflexivity. Qed.

(** Three halves of an array of 1034394552 entries wrap: the new size would be
    711, which passes the comparison with JS_ATOM_MAX. *)
Example array_shrinks : new_atom_size 1034394552 = 711 /\ (JS_ATOM_MAX <? 711) = false /\ new_atom_size 689596368 = 1034394552.
Proof. vm_compute. done. Qed.

End AtomInit_props.
