(* ===== verification/Doubles.v ===== *)
(** * Doubles as bits

    A double is its 64 bits.  The comparisons of C are those of IEEE 754: false
    when a side is NaN, and the two zeros are equal.  [double_ord] is the place of
    a double that is not NaN in the order. *)
From Stdlib Require Import ZArith Lia.
From stdpp Require Import base numbers.
From S2P Require Import Prelude.

Definition double_abs (b : Z) : Z := b & (2 ^ 63 - 1).
Definition isnan (b : Z) : bool := 0x7ff0000000000000 <? double_abs b.
Definition is_zero (b : Z) : bool := double_abs b =? 0.
(** [d1 == d2] for doubles that are not NaN. *)
Definition double_eq (b1 b2 : Z) : bool := (b1 =? b2) || (is_zero b1 && is_zero b2).

Definition double_ord (b : Z) : Z := if Z.testbit b 63 then - double_abs b else double_abs b.
Definition double_lt (a b : Z) : bool := negb (isnan a || isnan b) && (double_ord a <? double_ord b).
Definition double_le (a b : Z) : bool := negb (isnan a || isnan b) && (double_ord a <=? double_ord b).
Definition double_gt (a b : Z) : bool := double_lt b a.
Definition double_ge (a b : Z) : bool := double_le b a.

Lemma double_lt_spec a b : double_lt a b = true <-> isnan a = false /\ isnan b = false /\ double_ord a < double_ord b.
Proof. unfold double_lt. rewrite andb_true_iff, negb_true_iff, orb_false_iff, Z.ltb_lt. tauto. Qed.

Lemma double_le_spec a b : double_le a b = true <-> isnan a = false /\ isnan b = false /\ double_ord a <= double_ord b.
Proof. unfold double_le. rewrite andb_true_iff, negb_true_iff, orb_false_iff, Z.leb_le. tauto. Qed.

Lemma double_lt_ord a b : isnan a = false -> isnan b = false -> double_lt a b = (double_ord a <? double_ord b).
Proof. intros Ha Hb. unfold double_lt. by rewrite Ha, Hb. Qed.

Lemma double_le_ord a b : isnan a = false -> isnan b = false -> double_le a b = (double_ord a <=? double_ord b).
Proof. intros Ha Hb. unfold double_le. by rewrite Ha, Hb. Qed.

(** [a == b] for any doubles. *)
Definition double_eqb (a b : Z) : bool := negb (isnan a || isnan b) && (double_ord a =? double_ord b).

Lemma double_eqb_ord a b : isnan a = false -> isnan b = false -> double_eqb a b = (double_ord a =? double_ord b).
Proof. intros Ha Hb. unfold double_eqb. by rewrite Ha, Hb. Qed.
