(* ===== verification/MapKeys.v ===== *)
(** * Keys of Map and Set

    The values of the engine as keys: js_strict_eq2 and js_same_value_zero of
    src/object/property_set_convert.inc.c, and map_normalize_key and map_hash_key
    of src/builtins/symbol.inc.c.  A double is its 64 bits, an object or a symbol
    its address, a bigint its limbs.

    The class [MapKey] is what the hash table of a Map asks of its keys: that
    keys that are the same have the same hash.  The instance for a runtime holds
    for every seed whose key is not next to the prime (see [StrHash]). *)
From Stdlib Require Import ZArith Lia List.
From stdpp Require Import base numbers option list gmap.
From S2P Require Import Prelude Doubles Strings StrHash.

Abbreviation ptr := positive.

Inductive JSValue :=
  | JS_UNDEFINED | JS_NULL | JS_BOOL (b : bool) | JS_INT (i : Z) | JS_FLOAT64 (bits : Z)
  | JS_STRING (p : JSString) | JS_STRING_ROPE (r : JSStringRope) | JS_SYMBOL (p : ptr) | JS_OBJECT (p : ptr)
  | JS_SHORT_BIG_INT (i : Z) | JS_BIG_INT (tab : list Z).

Definition JS_TAG_BIG_INT : Z := -9.
Definition JS_TAG_SYMBOL : Z := -8.
Definition JS_TAG_STRING : Z := -7.
Definition JS_TAG_OBJECT : Z := -1.
Definition JS_TAG_BOOL : Z := 1.
Definition JS_TAG_FLOAT64 : Z := 8.

(** ** Doubles *)

Definition JS_FLOAT64_NAN : Z := 0x7ff8000000000000.

(** The conversion of an int, which is exact. *)
Definition double_of_int (i : Z) : Z :=
  if i =? 0 then 0 else
  let m := Z.abs i in
  let e := Z.log2 m in
  (if i <? 0 then 2 ^ 63 else 0) + ((e + 1023) << 52) + ((m << (52 - e)) - 2 ^ 52).

Definition js_bigint_set_short (i : Z) : list Z := [u64 i].
Definition js_bigint_sign (tab : list Z) : Z := default 0 (last tab) >> 63.

(** The loop of js_bigint_cmp, from the highest limb down. *)
Fixpoint limbs_cmp (a b : list Z) : Z :=
  match a, b with
  | x :: a, y :: b => if negb (x =? y) then (if x <? y then -1 else 1) else limbs_cmp a b
  | _, _ => 0
  end.

Definition js_bigint_cmp (a b : list Z) : Z :=
  let a_sign := js_bigint_sign a in
  let b_sign := js_bigint_sign b in
  if negb (a_sign =? b_sign) then 1 - 2 * a_sign
  else if negb (Z.of_nat (length a) =? Z.of_nat (length b)) then
    (if Z.of_nat (length a) <? Z.of_nat (length b) then 2 * a_sign - 1 else 1 - 2 * a_sign)
  else limbs_cmp (rev a) (rev b).

(** ** Comparing values *)

Inductive JSStrictEqModeEnum := JS_EQ_STRICT | JS_EQ_SAME_VALUE | JS_EQ_SAME_VALUE_ZERO.

Definition number_of (v : JSValue) : option Z := match v with JS_INT i => Some (double_of_int i) | JS_FLOAT64 b => Some b | _ => None end.
Definition bigint_of (v : JSValue) : option (list Z) := match v with JS_SHORT_BIG_INT i => Some (js_bigint_set_short i) | JS_BIG_INT tab => Some tab | _ => None end.
Definition string_of (v : JSValue) : option JSStringRope := match v with JS_STRING p => Some (Flat p) | JS_STRING_ROPE r => Some r | _ => None end.

Definition number_test (eq_mode : JSStrictEqModeEnum) (d1 d2 : Z) : bool :=
  match eq_mode with
  | JS_EQ_STRICT => negb (isnan d1 || isnan d2) && double_eq d1 d2
  | _ => if isnan d1 || isnan d2 then Bool.eqb (isnan d1) (isnan d2)
         else match eq_mode with JS_EQ_SAME_VALUE_ZERO => double_eq d1 d2 | _ => d1 =? d2 end
  end.

(** Two references to one string are compared like two strings. *)
Definition js_strict_eq2 (op1 op2 : JSValue) (eq_mode : JSStrictEqModeEnum) : option bool :=
  match op1 with
  | JS_INT _ | JS_FLOAT64 _ =>
      d1 ← number_of op1;
      match number_of op2 with Some d2 => Some (number_test eq_mode d1 d2) | None => Some false end
  | JS_OBJECT p1 => match op2 with JS_OBJECT p2 => Some (bool_decide (p1 = p2)) | _ => Some false end
  | JS_STRING _ | JS_STRING_ROPE _ =>
      match op1, op2 with
      | JS_STRING p1, JS_STRING p2 => js_string_eq false p1 p2
      | _, _ => r1 ← string_of op1;
                match string_of op2 with Some r2 => r ← js_string_rope_compare r1 r2 true; Some (r =? 0) | None => Some false end
      end
  | JS_BOOL b1 => match op2 with JS_BOOL b2 => Some (Bool.eqb b1 b2) | _ => Some false end
  | JS_NULL => match op2 with JS_NULL => Some true | _ => Some false end
  | JS_UNDEFINED => match op2 with JS_UNDEFINED => Some true | _ => Some false end
  | JS_SYMBOL p1 => match op2 with JS_SYMBOL p2 => Some (bool_decide (p1 = p2)) | _ => Some false end
  | JS_SHORT_BIG_INT _ | JS_BIG_INT _ =>
      p1 ← bigint_of op1;
      match bigint_of op2 with Some p2 => Some (js_bigint_cmp p1 p2 =? 0) | None => Some false end
  end.

Definition js_same_value_zero (op1 op2 : JSValue) : option bool := js_strict_eq2 op1 op2 JS_EQ_SAME_VALUE_ZERO.

(** ** Hashing values *)

Definition HASH_MUL32 : Z := 0x61C88647.
Definition HASH_MUL64 : Z := 0x61C8864680B583EB.

Definition map_normalize_key (key : JSValue) : JSValue := match key with JS_FLOAT64 b => if is_zero b then JS_INT 0 else key | _ => key end.

Definition map_hash32 (a hash_bits : Z) : Z := u32 (a * HASH_MUL32) >> (32 - hash_bits).
Definition map_hash64 (a hash_bits : Z) : Z := u32 (u64 (a * HASH_MUL64) >> (64 - hash_bits)).
Definition map_hash_pointer (a hash_bits : Z) : Z := map_hash64 a hash_bits.

Definition hash_float64 (d hash_bits : Z) : Z := map_hash64 (d ^^ JS_TAG_FLOAT64) hash_bits.
Definition hash_bigint (tab : list Z) (hash_bits : Z) : Z :=
  map_hash32 (fold_left (fun h x => u32 (u32 (h * 263) + x)) (rev tab) 1 ^^ u32 JS_TAG_BIG_INT) hash_bits.

Definition map_hash_key (rt : hash_rt) (key : JSValue) (hash_bits : Z) (strong : bool) : Z :=
  match key with
  | JS_BOOL b => map_hash32 ((if b then 1 else 0) ^^ JS_TAG_BOOL) hash_bits
  | JS_STRING p => map_hash32 (hash_string_mode rt p 1 strong ^^ u32 JS_TAG_STRING) hash_bits
  | JS_STRING_ROPE r => map_hash32 (hash_string_rope rt r 1 strong ^^ u32 JS_TAG_STRING) hash_bits
  | JS_OBJECT p => map_hash_pointer (Z.pos p ^^ u32 JS_TAG_OBJECT) hash_bits
  | JS_SYMBOL p => map_hash_pointer (Z.pos p ^^ u32 JS_TAG_SYMBOL) hash_bits
  | JS_INT i => hash_float64 (double_of_int i) hash_bits
  | JS_FLOAT64 b => hash_float64 (if isnan b then JS_FLOAT64_NAN else b) hash_bits
  | JS_SHORT_BIG_INT i => hash_bigint (js_bigint_set_short i) hash_bits
  | JS_BIG_INT tab => hash_bigint tab hash_bits
  | JS_UNDEFINED | JS_NULL => 0
  end.

(** ** What a key stands for *)

Inductive canon := CUndefined | CNull | CBool (b : bool) | CNumber (bits : Z) | CString (u : list Z) | CSymbol (p : ptr) | CObject (p : ptr) | CBigInt (tab : list Z).

#[export] Instance canon_eq_dec : EqDecision canon.
Proof. solve_decision. Defined.

(** One NaN and one zero. *)
Definition norm_double (b : Z) : Z := if isnan b then JS_FLOAT64_NAN else if is_zero b then 0 else b.

Definition key_val (v : JSValue) : canon :=
  match v with
  | JS_UNDEFINED => CUndefined
  | JS_NULL => CNull
  | JS_BOOL b => CBool b
  | JS_INT i => CNumber (norm_double (double_of_int i))
  | JS_FLOAT64 b => CNumber (norm_double b)
  | JS_STRING p => CString (units p)
  | JS_STRING_ROPE r => CString (rope_units r)
  | JS_SYMBOL p => CSymbol p
  | JS_OBJECT p => CObject p
  | JS_SHORT_BIG_INT i => CBigInt (js_bigint_set_short i)
  | JS_BIG_INT tab => CBigInt tab
  end.

(** A well-formed value. *)
Definition value_ok (v : JSValue) : Prop :=
  match v with
  | JS_INT i => sfits 32 i
  | JS_FLOAT64 b => fits 64 b
  | JS_STRING p => str_ok p
  | JS_STRING_ROPE r => rope_ok r /\ depth r <= JS_STRING_ROPE_MAX_DEPTH
  | JS_BIG_INT tab => Forall (fits 64) tab
  | _ => True
  end.

(** As map_normalize_key leaves it: no zero is a double. *)
Definition normal (v : JSValue) : Prop := match v with JS_FLOAT64 b => is_zero b = false | _ => True end.

(** What a hash table of values needs: [same] decides whether two keys stand for
    one value, and then their hashes agree. *)
Class MapKey (same : JSValue -> JSValue -> option bool) (hash : JSValue -> Z -> bool -> Z) : Prop := {
  mk_same a b : value_ok a -> value_ok b -> same a b = Some (bool_decide (key_val a = key_val b));
  mk_hash a b n strong : value_ok a -> value_ok b -> normal a -> normal b -> key_val a = key_val b -> hash a n strong = hash b n strong;
  mk_range a n strong : 1 <= n <= 31 -> 0 <= hash a n strong < 2 ^ n }.

(** ** The instance *)

Lemma normalize_ok v : value_ok v -> value_ok (map_normalize_key v) /\ normal (map_normalize_key v) /\ key_val (map_normalize_key v) = key_val v.
Proof.
  intros Hv. destruct v; try done. cbn. destruct (is_zero bits) eqn:Ez; [|by split_and!]. split; [unfold value_ok, sfits; lia|]. split; [done|]. unfold norm_double. rewrite Ez. change (double_of_int 0) with 0. cbn.
  assert (En : isnan bits = false) by (unfold isnan, is_zero in *; apply Z.eqb_eq in Ez; rewrite Ez; done). by rewrite En.
Qed.

Lemma int_exponent i : sfits 32 i -> i <> 0 -> 0 <= Z.log2 (Z.abs i) <= 31 /\ 2 ^ Z.log2 (Z.abs i) <= Z.abs i < 2 ^ (Z.log2 (Z.abs i) + 1).
Proof.
  intros Hi Hn. unfold sfits in Hi. pose proof (Z.log2_spec (Z.abs i) ltac:(lia)) as Hs. rewrite Z.add_1_r. split; [|done]. split; [apply Z.log2_nonneg|]. apply Z.lt_succ_r. apply Z.log2_lt_pow2; [lia|]. change (2 ^ Z.succ 31) with (2 ^ 32). lia.
Qed.

(** The bits of an int: sign, exponent and mantissa do not overlap. *)
Lemma double_of_int_parts i : sfits 32 i -> i <> 0 -> exists e m, 0 <= e <= 31 /\ 0 <= m < 2 ^ 52 /\ double_of_int i = (if i <? 0 then 2 ^ 63 else 0) + ((e + 1023) * 2 ^ 52 + m) /\ 
  Z.abs i * 2 ^ (52 - e) = 2 ^ 52 + m.
Proof.
  intros Hi Hn. destruct (int_exponent i Hi Hn) as [He Hm]. exists (Z.log2 (Z.abs i)), ((Z.abs i << (52 - Z.log2 (Z.abs i))) - 2 ^ 52). set (e := Z.log2 (Z.abs i)) in *. rewrite Z.shiftl_mul_pow2 by lia.
  assert (E1 : 2 ^ e * 2 ^ (52 - e) = 2 ^ 52) by (rewrite <- Z.pow_add_r by lia; f_equal; lia). assert (E2 : 2 ^ (e + 1) * 2 ^ (52 - e) = 2 ^ 53) by (rewrite <- Z.pow_add_r by lia; f_equal; lia).
  assert (Hp : 0 < 2 ^ (52 - e)) by lia. split; [done|]. split; [split; nia|]. split; [|lia].
  unfold double_of_int. rewrite (proj2 (Z.eqb_neq i 0)) by done. fold e. rewrite !Z.shiftl_mul_pow2 by lia. ring.
Qed.

Lemma double_of_int_fits i : sfits 32 i -> fits 64 (double_of_int i) /\ isnan (double_of_int i) = false.
Proof.
  intros Hi. destruct (decide (i = 0)) as [-> |Hn]; [split; [unfold fits; cbn; lia|done]|]. destruct (double_of_int_parts i Hi Hn) as (e & m & He & Hm & E & _).
  assert (Hb : 0 <= (e + 1023) * 2 ^ 52 + m < 2 ^ 63) by nia. split; [unfold fits; rewrite E; destruct (i <? 0); lia|].
  unfold isnan, double_abs. rewrite E. replace (2 ^ 63 - 1) with (Z.ones 63) by done. rewrite Z.land_ones by lia.
  replace (((if i <? 0 then 2 ^ 63 else 0) + ((e + 1023) * 2 ^ 52 + m)) `mod` 2 ^ 63) with ((e + 1023) * 2 ^ 52 + m).
  - apply Z.ltb_ge. change 0x7ff0000000000000 with (2047 * 2 ^ 52). nia.
  - destruct (i <? 0); [apply (Z.mod_unique_pos _ _ 1); lia|rewrite Z.add_0_l; symmetry; apply Z.mod_small; lia].
Qed.

Lemma is_zero_bits b : fits 64 b -> is_zero b = true <-> b = 0 \/ b = 2 ^ 63.
Proof.
  intros Hb. unfold is_zero, double_abs, fits in *. replace (2 ^ 63 - 1) with (Z.ones 63) by done. rewrite Z.land_ones, Z.eqb_eq by lia. pose proof (Z.div_mod b (2 ^ 63) ltac:(lia)). pose proof (Z.mod_pos_bound b (2 ^ 63) ltac:(lia)).
  split; [|intros [-> | ->]; done]. intros E. assert (0 <= b / 2 ^ 63 < 2) by (split; [apply Z.div_pos; lia|apply Z.div_lt_upper_bound; lia]). assert (b / 2 ^ 63 = 0 \/ b / 2 ^ 63 = 1) as [Eb|Eb] by lia; rewrite Eb in *; lia.
Qed.

Lemma number_test_zero b1 b2 : number_test JS_EQ_SAME_VALUE_ZERO b1 b2 = bool_decide (norm_double b1 = norm_double b2).
Proof.
  unfold number_test, norm_double. assert (Hnan : forall b, isnan b = false -> (if is_zero b then 0 else b) <> JS_FLOAT64_NAN).
  { intros b Hb. destruct (is_zero b); [done|]. intros ->. done. }
  destruct (isnan b1) eqn:N1, (isnan b2) eqn:N2; cbn [orb].
  - by rewrite bool_decide_eq_true_2.
  - rewrite bool_decide_eq_false_2; [done|]. intros E. by apply (Hnan b2).
  - rewrite bool_decide_eq_false_2; [done|]. by apply Hnan.
  - unfold double_eq. apply Bool.eq_iff_eq_true. rewrite orb_true_iff, andb_true_iff, Z.eqb_eq, bool_decide_eq_true. destruct (is_zero b1) eqn:Z1, (is_zero b2) eqn:Z2; (split; [intros [->|[? ?]]|intros E]); try done; try congruence; try (by right); try (by left).
    + subst b2. done.
    + subst b1. done.
Qed.

Lemma limbs_cmp_zero a b : length a = length b -> limbs_cmp a b = 0 <-> a = b.
Proof.
  revert b. induction a as [|x a IH]; intros [|y b] Hl; try done. injection Hl as Hl. cbn. destruct (Z.eqb_spec x y) as [-> |Hn]; cbn [negb].
  - rewrite (IH b Hl). split; [by intros ->|by intros [= ->]].
  - split; [by destruct (x <? y)|by intros [= ? _]].
Qed.

Lemma sign_bit tab : Forall (fits 64) tab -> js_bigint_sign tab = 0 \/ js_bigint_sign tab = 1.
Proof.
  intros H. unfold js_bigint_sign. destruct (last tab) as [x|] eqn:E; cbn; [|by left]. apply last_Some_elem_of in E. rewrite Forall_forall in H. specialize (H x E). unfold fits in H. rewrite Z.shiftr_div_pow2 by lia.
  assert (0 <= x / 2 ^ 63 < 2) by (split; [apply Z.div_pos; lia|apply Z.div_lt_upper_bound; lia]). lia.
Qed.

Lemma bigint_cmp_zero a b : Forall (fits 64) a -> Forall (fits 64) b -> js_bigint_cmp a b = 0 <-> a = b.
Proof.
  intros Ha Hb. unfold js_bigint_cmp. pose proof (sign_bit a Ha) as Sa. destruct (Z.eqb_spec (js_bigint_sign a) (js_bigint_sign b)) as [Es|Es]; cbn [negb].
  2: { split; [lia|intros ->; done]. }
  destruct (Z.eqb_spec (Z.of_nat (length a)) (Z.of_nat (length b))) as [El|El]; cbn [negb].
  - rewrite limbs_cmp_zero by (rewrite !length_rev; lia). split; [|by intros ->]. intros E. by apply (f_equal (@rev Z)) in E; rewrite !rev_involutive in E.
  - split; [destruct (_ <? _); lia|intros ->; done].
Qed.

Lemma bigint_value v t : value_ok v -> bigint_of v = Some t -> Forall (fits 64) t.
Proof. destruct v; try done; intros Hv [= <-]; [|done]. constructor; [|constructor]. unfold fits. apply Z.mod_pos_bound. done. Qed.

Lemma string_value v r : value_ok v -> string_of v = Some r -> rope_ok r /\ depth r <= JS_STRING_ROPE_MAX_DEPTH /\ key_val v = CString (rope_units r).
Proof. destruct v; try done; intros Hv [= <-]; [by split_and!|]. destruct Hv. by split_and!. Qed.

Lemma rope_same r1 r2 : rope_ok r1 -> rope_ok r2 -> depth r1 <= JS_STRING_ROPE_MAX_DEPTH -> depth r2 <= JS_STRING_ROPE_MAX_DEPTH ->
  (r ← js_string_rope_compare r1 r2 true; Some (r =? 0)) = Some (bool_decide (rope_units r1 = rope_units r2)).
Proof.
  intros H1 H2 D1 D2. rewrite rope_compare_spec by done. cbn [mbind option_bind andb]. f_equal. destruct (rope_ok_len _ H1) as [E1 _], (rope_ok_len _ H2) as [E2 _].
  destruct (Z.eqb_spec (string_rope_get_len r1) (string_rope_get_len r2)) as [El|El]; cbn [negb].
  - apply Bool.eq_iff_eq_true. by rewrite Z.eqb_eq, bool_decide_eq_true, str_cmp_zero.
  - rewrite bool_decide_eq_false_2; [done|]. intros E. apply El. by rewrite E1, E2, E.
Qed.

(** Sameness decides whether two values are one. *)
Lemma same_value_zero_spec a b : value_ok a -> value_ok b -> js_same_value_zero a b = Some (bool_decide (key_val a = key_val b)).
Proof.
  intros Ha Hb. unfold js_same_value_zero.
  assert (Hne : forall x y : canon, x <> y -> Some false = Some (bool_decide (x = y))) by (intros x y Hxy; by rewrite bool_decide_eq_false_2).
  assert (Hstr : forall r1, string_of a = Some r1 -> (match string_of b with Some r2 => r ← js_string_rope_compare r1 r2 true; Some (r =? 0) | None => Some false end) = Some (bool_decide (key_val a = key_val b))).
  { intros r1 E1. destruct (string_value a r1 Ha E1) as (R1 & D1 & K1). rewrite K1. destruct (string_of b) as [r2|] eqn:E2; [|destruct b; try done; by apply Hne].
    destruct (string_value b r2 Hb E2) as (R2 & D2 & K2). rewrite K2, rope_same by done. f_equal. apply bool_decide_ext. split; [by intros ->|by intros [= ->]]. }
  assert (Hbig : forall t1, bigint_of a = Some t1 -> key_val a = CBigInt t1 -> (match bigint_of b with Some t2 => Some (js_bigint_cmp t1 t2 =? 0) | None => Some false end) = Some (bool_decide (key_val a = key_val b))).
  { intros t1 E1 K1. rewrite K1. destruct (bigint_of b) as [t2|] eqn:E2; [|destruct b; try done; by apply Hne]. assert (K2 : key_val b = CBigInt t2) by (destruct b; try done; cbn in E2 |- *; congruence). rewrite K2. f_equal. apply Bool.eq_iff_eq_true.
    rewrite Z.eqb_eq, bool_decide_eq_true, (bigint_cmp_zero t1 t2 (bigint_value a t1 Ha E1) (bigint_value b t2 Hb E2)). split; [by intros ->|by intros [= ->]]. }
  assert (Hnum : forall d1, number_of a = Some d1 -> key_val a = CNumber (norm_double d1) -> (match number_of b with Some d2 => Some (number_test JS_EQ_SAME_VALUE_ZERO d1 d2) | None => Some false end) = Some (bool_decide (key_val a = key_val b))).
  { intros d1 E1 K1. rewrite K1. destruct (number_of b) as [d2|] eqn:E2; [|destruct b; try done; by apply Hne]. assert (K2 : key_val b = CNumber (norm_double d2)) by (destruct b; try done; cbn in E2 |- *; congruence). rewrite K2, number_test_zero. f_equal. apply bool_decide_ext. split; [by intros ->|by intros [= ->]]. }
  destruct a; cbn [js_strict_eq2 mbind option_bind number_of bigint_of string_of].
  - destruct b; try (by apply Hne). by rewrite bool_decide_eq_true_2.
  - destruct b; try (by apply Hne). by rewrite bool_decide_eq_true_2.
  - destruct b; try (by apply Hne). cbn. f_equal. apply Bool.eq_iff_eq_true. rewrite bool_decide_eq_true, Bool.eqb_true_iff. split; [by intros ->|by intros [= ->]].
  - by apply Hnum.
  - by apply Hnum.
  - destruct b as [| | | | |p2| | | | |]; try (by apply Hne); [rewrite js_string_eq_spec by done; f_equal; apply bool_decide_ext; cbn; split; [by intros ->|by intros [= ->]]|]. by apply (Hstr (Flat p)).
  - destruct b; by apply (Hstr r).
  - destruct b; try (by apply Hne). cbn. f_equal. apply bool_decide_ext. split; [by intros ->|by intros [= ->]].
  - destruct b; try (by apply Hne). cbn. f_equal. apply bool_decide_ext. split; [by intros ->|by intros [= ->]].
  - by apply Hbig.
  - by apply Hbig.
Qed.

Lemma hash32_range a n : 1 <= n <= 31 -> 0 <= map_hash32 a n < 2 ^ n.
Proof.
  intros Hn. unfold map_hash32. rewrite Z.shiftr_div_pow2 by lia. pose proof (Z.mod_pos_bound (a * HASH_MUL32) (2 ^ 32) ltac:(lia)) as Hb. change ((a * HASH_MUL32) `mod` 2 ^ 32) with (u32 (a * HASH_MUL32)) in Hb.
  split; [apply Z.div_pos; lia|]. apply Z.div_lt_upper_bound; [lia|]. rewrite <- Z.pow_add_r by lia. replace (32 - n + n) with 32 by lia. lia.
Qed.

Lemma hash64_range a n : 1 <= n <= 31 -> 0 <= map_hash64 a n < 2 ^ n.
Proof.
  intros Hn. unfold map_hash64. rewrite Z.shiftr_div_pow2 by lia. pose proof (Z.mod_pos_bound (a * HASH_MUL64) (2 ^ 64) ltac:(lia)) as Hb. change ((a * HASH_MUL64) `mod` 2 ^ 64) with (u64 (a * HASH_MUL64)) in Hb.
  assert (Hr : 0 <= u64 (a * HASH_MUL64) / 2 ^ (64 - n) < 2 ^ n). { split; [apply Z.div_pos; lia|]. apply Z.div_lt_upper_bound; [lia|]. rewrite <- Z.pow_add_r by lia. replace (64 - n + n) with 64 by lia. lia. }
  assert (2 ^ n <= 2 ^ 31) by (apply Z.pow_le_mono_r; lia). rewrite wrap_id; [done|]. unfold fits. lia.
Qed.

Section Runtime.
Context (seed : Z).
Hypothesis Hseed : fits 64 seed.
Hypothesis Hkey : atom_hash_key2 (hash_string_seed_runtime seed) <= HASH_STRING_PRIME - 2 ^ 50.
Abbreviation rt := (hash_string_seed_runtime seed).

Lemma string_hash v r p n strong : value_ok v -> string_of v = Some r -> units p = rope_units r ->
  map_hash_key rt v n strong = map_hash32 (hash_string_mode rt p 1 strong ^^ u32 JS_TAG_STRING) n.
Proof.
  intros Hv Hr Hu. destruct (string_value v r Hv Hr) as (Rk & _ & _). pose proof (rope_ok_units _ Rk) as Hok. destruct v; try done; injection Hr as <-; cbn [map_hash_key]; do 2 f_equal.
  - rewrite <- (rope_hash_flat seed (Flat p0) p0 1 strong) by done. by apply rope_hash_flat.
  - by apply rope_hash_flat.
Qed.

Lemma number_hash v d n strong : value_ok v -> normal v -> number_of v = Some d -> map_hash_key rt v n strong = hash_float64 (norm_double d) n.
Proof.
  intros Hv Hn Hd. destruct v; try done; injection Hd as <-; cbn [map_hash_key normal] in *; unfold norm_double.
  - destruct (double_of_int_fits i Hv) as [Hf ->]. destruct (is_zero (double_of_int i)) eqn:Ez; [|done]. apply is_zero_bits in Ez; [|done]. destruct Ez as [-> |Ez]; [done|].
    destruct (decide (i = 0)) as [-> |Hi]; [done|]. destruct (double_of_int_parts i Hv Hi) as (e & m & He & Hm & E & _). rewrite Ez in E. destruct (i <? 0); nia.
  - rewrite Hn. by destruct (isnan bits).
Qed.

#[export] Instance runtime_MapKey : MapKey js_same_value_zero (map_hash_key rt).
Proof.
  split.
  - apply same_value_zero_spec.
  - intros a b n strong Ha Hb Na Nb E. assert (Hs : forall r1 r2, string_of a = Some r1 -> string_of b = Some r2 -> map_hash_key rt a n strong = map_hash_key rt b n strong).
    { intros r1 r2 E1 E2. destruct (string_value a r1 Ha E1) as (_ & _ & K1), (string_value b r2 Hb E2) as (_ & _ & K2). rewrite K1, K2 in E. injection E as E.
      rewrite (string_hash a r1 (mk_str 0 true false (rope_units r1)) n strong) by done. by rewrite (string_hash b r2 (mk_str 0 true false (rope_units r1)) n strong). }
    assert (Hnum : forall d1 d2, number_of a = Some d1 -> number_of b = Some d2 -> norm_double d1 = norm_double d2 -> map_hash_key rt a n strong = map_hash_key rt b n strong).
    { intros d1 d2 E1 E2 Ed. rewrite (number_hash a d1), (number_hash b d2) by done. by rewrite Ed. }
    destruct a, b; try done; try (by injection E as ->); try exact (Hs _ _ eq_refl eq_refl); try (apply (Hnum _ _ eq_refl eq_refl); cbn in E; congruence); cbn in E |- *; congruence.
  - intros a n strong Hn. destruct a; cbn [map_hash_key]; try (by apply hash32_range); try (by apply hash64_range); lia.
Qed.
End Runtime.

(** C32. The keys of Map and Set: for well-formed values js_same_value_zero decides
    whether they are one value (one NaN, one zero, an int and the double equal to
    it, a string whatever its ropes and width, a bigint short or long), and
    values that are the same have the same slot in a table of every size with
    both hashes, for every seed whose second key is at most the prime less 2^50
    (next to the prime ropes and flat strings hash differently). *)
Theorem map_keys_consistent seed a b n strong : fits 64 seed -> atom_hash_key2 (hash_string_seed_runtime seed) <= HASH_STRING_PRIME - 2 ^ 50 ->
  value_ok a -> value_ok b -> 1 <= n <= 31 ->
  let slot v := map_hash_key (hash_string_seed_runtime seed) (map_normalize_key v) n strong in
  js_same_value_zero a b = Some (bool_decide (key_val a = key_val b)) /\ 0 <= slot a < 2 ^ n /\ (key_val a = key_val b -> slot a = slot b).
Proof.
  intros Hs Hk Ha Hb Hn. pose proof (runtime_MapKey seed Hs Hk) as HK. destruct (normalize_ok a Ha) as (A1 & A2 & A3), (normalize_ok b Hb) as (B1 & B2 & B3).
  split; [by apply mk_same|]. split; [by apply mk_range|]. intros E. apply mk_hash; congruence.
Qed.

Lemma map_keys_consistent_witness : let rt := hash_string_seed_runtime 1 in
  let a := JS_STRING_ROPE (Rope 7 false 1 (Flat (mk_str 4 false false [97; 98; 99; 100])) (Flat (mk_str 3 false false [101; 102; 103]))) in
  let b := JS_STRING (mk_str 7 true false [97; 98; 99; 100; 101; 102; 103]) in
  js_same_value_zero a b = Some true /\ map_hash_key rt (map_normalize_key a) 5 true = map_hash_key rt (map_normalize_key b) 5 true.
Proof.
  intros rt a b. assert (Hs : forall w l, Z.of_nat (length l) <= 100 -> Forall (fun c => 0 <= c < 200) l -> str_ok (mk_str (Z.of_nat (length l)) w false l)).
  { intros w l Hl Hf. split; [done|]. split; [cbn [len]; change JS_STRING_LEN_MAX with 1073741823; lia|]. cbn [units is_wide_char]. eapply Forall_impl; [exact Hf|]. intros c Hc. cbn beta in Hc. destruct w; split; lia. }
  assert (Hb : value_ok b) by (apply (Hs true [97; 98; 99; 100; 101; 102; 103]); [cbn; lia|repeat constructor; lia]).
  assert (Ha : value_ok a). { split; [|vm_compute; discriminate]. split; [apply (Hs false [97; 98; 99; 100]); [cbn; lia|repeat constructor; lia]|]. split; [apply (Hs false [101; 102; 103]); [cbn; lia|repeat constructor; lia]|]. split_and!; try done. }
  destruct (map_keys_consistent 1 a b 5 true) as (E & _ & H); [unfold fits; lia|vm_compute; discriminate|exact Ha|exact Hb|lia|]. split; [rewrite E; reflexivity|apply H; reflexivity].
Defined.
