(* ===== verification/Maps.v ===== *)
(** * Map and Set

    The hash table with insertion order behind Map and Set: JSMapState of
    src/engine-internal.h and map_find_record to js_map_iterator_next of
    src/builtins/symbol.inc.c, with the change to the keyed hash when a chain is
    long, growth, deletion of records that iterators stand on, iterators, and
    forEach.

    The state is one map with its records and iterators.  The records are a
    list in the order of the links; a record outside of it has been freed.  An
    iterator is an object with a count of references, and values that are
    objects may be iterators of the map: giving up the last reference runs
    js_map_iterator_finalizer.  Every other object is taken to hold no iterator of
    the map, so that freeing it does not concern the map; an array or a function
    that holds one is outside of this model.  [None] is a failed assertion or an access to a
    freed record or outside an array.  The answers of the allocator are a list in
    the state.  Weak maps are not modelled. *)
From Stdlib Require Import ZArith Lia List.
From stdpp Require Import base numbers option list gmap.
From S2P Require Import Prelude Doubles Strings StrHash MapKeys.

(** ** State *)

Record JSMapRecord := mk_rec { ref_count : Z; empty : bool; hash_next : option ptr; key : JSValue; value : JSValue }.

Record JSMapState := mk_map {
  records : list ptr; record_count : Z; hash_table : list (option ptr); hash_bits : Z; record_count_threshold : Z; hash_strong : bool }.

Inductive JSIteratorKindEnum := JS_ITERATOR_KIND_KEY | JS_ITERATOR_KIND_VALUE | JS_ITERATOR_KIND_KEY_AND_VALUE.

(** [it_obj]: the map, or undefined when the iteration is over; [it_refs]: the references to the iterator. *)
Record JSMapIteratorData := mk_it { it_obj : bool; kind : JSIteratorKindEnum; cur_record : option ptr; it_refs : Z }.

Record heap := mk_heap { map_state : JSMapState; recs : gmap ptr JSMapRecord; iters : gmap ptr JSMapIteratorData; mem : list bool }.

Definition JS_HASH_CHAIN_FLOOD : Z := 64.

Definition set_map (st : heap) (s : JSMapState) : heap := mk_heap s (recs st) (iters st) (mem st).
Definition set_recs (st : heap) (r : gmap ptr JSMapRecord) : heap := mk_heap (map_state st) r (iters st) (mem st).
Definition set_iters (st : heap) (i : gmap ptr JSMapIteratorData) : heap := mk_heap (map_state st) (recs st) i (mem st).
Definition js_malloc (st : heap) : bool * heap := (hd true (mem st), mk_heap (map_state st) (recs st) (iters st) (tl (mem st))).

Definition with_refs (r : JSMapRecord) (c : Z) : JSMapRecord := mk_rec c (empty r) (hash_next r) (key r) (value r).
Definition with_next (r : JSMapRecord) (n : option ptr) : JSMapRecord := mk_rec (ref_count r) (empty r) n (key r) (value r).
Definition with_value (r : JSMapRecord) (v : JSValue) : JSMapRecord := mk_rec (ref_count r) (empty r) (hash_next r) (key r) v.
Definition with_records (s : JSMapState) (l : list ptr) (n : Z) : JSMapState := mk_map l n (hash_table s) (hash_bits s) (record_count_threshold s) (hash_strong s).
Definition with_table (s : JSMapState) (t : list (option ptr)) (strong : bool) : JSMapState := mk_map (records s) (record_count s) t (hash_bits s) (record_count_threshold s) strong.

(** The link after a record of the list; none in the list is a fault. *)
Fixpoint link_next (l : list ptr) (p : ptr) : option (option ptr) :=
  match l with
  | [] => None
  | q :: l => if bool_decide (q = p) then Some (head l) else link_next l p
  end.

Definition link_del (l : list ptr) (p : ptr) : list ptr := List.filter (fun q => negb (bool_decide (q = p))) l.

(** ** References *)

Definition free_record (st : heap) (p : ptr) : heap :=
  mk_heap (with_records (map_state st) (link_del (records (map_state st)) p) (record_count (map_state st))) (delete p (recs st)) (iters st) (mem st).

Definition map_decref_record (st : heap) (p : ptr) : option heap :=
  r ← recs st !! p;
  let c := ref_count r - 1 in
  if c =? 0 then (if empty r then Some (free_record st p) else None) else Some (set_recs st (<[p := with_refs r c]> (recs st))).

(** The map is alive. *)
Definition js_map_iterator_finalizer (st : heap) (q : ptr) : option heap :=
  it ← iters st !! q;
  st ← match it_obj it, cur_record it with true, Some p => map_decref_record st p | _, _ => Some st end;
  Some (set_iters st (delete q (iters st))).

Definition JS_DupValue (st : heap) (v : JSValue) : heap :=
  match v with
  | JS_OBJECT q => match iters st !! q with Some it => set_iters st (<[q := mk_it (it_obj it) (kind it) (cur_record it) (it_refs it + 1)]> (iters st)) | None => st end
  | _ => st
  end.

(** An object that is no iterator of the map holds none either. *)
Definition JS_FreeValue (st : heap) (v : JSValue) : option heap :=
  match v with
  | JS_OBJECT q =>
      match iters st !! q with
      | Some it => if it_refs it - 1 =? 0 then js_map_iterator_finalizer st q
                   else Some (set_iters st (<[q := mk_it (it_obj it) (kind it) (cur_record it) (it_refs it - 1)]> (iters st)))
      | None => Some st
      end
  | _ => Some st
  end.

Section Keys.
Context (same : JSValue -> JSValue -> option bool) (hash : JSValue -> Z -> bool -> Z).

(** ** The hash table *)

(** [mr->hash_next = table[h]; table[h] = mr] *)
Definition table_push (bits : Z) (strong : bool) (st : list (option ptr) * gmap ptr JSMapRecord) (p : ptr) : option (list (option ptr) * gmap ptr JSMapRecord) :=
  r ← st.2 !! p;
  let h := hash (key r) bits strong in
  n ← aread st.1 h;
  t ← awrite st.1 h (Some p);
  Some (t, <[p := with_next r n]> st.2).

(** [list_for_each(el, &s->records)] with the test for empty records. *)
Definition rehash (bits : Z) (strong : bool) (l : list ptr) (st : list (option ptr) * gmap ptr JSMapRecord) : option (list (option ptr) * gmap ptr JSMapRecord) :=
  each (fun st p => r ← st.2 !! p; if empty r then Some st else table_push bits strong st p) l st.

Definition map_hash_harden (st : heap) : option heap :=
  let s := map_state st in
  r ← rehash (hash_bits s) true (records s) (replicate (length (hash_table s)) None, recs st);
  Some (mk_heap (with_table s r.1 true) r.2 (iters st) (mem st)).

Inductive found := Found (p : ptr) | Missing | Flood.

Fixpoint map_find_loop (fuel : nat) (st : heap) (k : JSValue) (mr : option ptr) (chain_steps : Z) : option found :=
  match mr with
  | None => Some Missing
  | Some p =>
      match fuel with
      | O => None
      | S fuel =>
          r ← recs st !! p;
          b ← (if empty r then Some false else same (key r) k);
          if (b : bool) then Some (Found p) else
          if (JS_HASH_CHAIN_FLOOD <? chain_steps + 1) && negb (hash_strong (map_state st)) then Some Flood
          else map_find_loop fuel st k (hash_next r) (chain_steps + 1)
      end
  end.

Definition map_find_record (st : heap) (k : JSValue) : option (option ptr * heap) :=
  let look (st : heap) : option found :=
    mr ← aread (hash_table (map_state st)) (hash k (hash_bits (map_state st)) (hash_strong (map_state st)));
    map_find_loop (length (records (map_state st))) st k mr 0 in
  let answer (r : found) (st : heap) : option ptr * heap := match r with Found p => (Some p, st) | _ => (None, st) end in
  r ← look st;
  match r with
  | Flood => st ← map_hash_harden st; r ← look st; Some (answer r st)
  | _ => Some (answer r st)
  end.

Definition map_hash_resize (st : heap) : option heap :=
  let s := map_state st in
  let new_hash_bits := Z.min (hash_bits s + 1) 31 in
  let new_hash_size := 1 << new_hash_bits in
  let (ok, st) := js_malloc st in
  if negb ok then Some st else
  r ← rehash new_hash_bits (hash_strong s) (records s) (replicate (Z.to_nat new_hash_size) None, recs st);
  Some (mk_heap (mk_map (records s) (record_count s) r.1 new_hash_bits (u32 (new_hash_size * 2)) (hash_strong s)) r.2 (iters st) (mem st)).

(** The caller writes the value. *)
Definition map_add_record (st : heap) (k : JSValue) : option (option ptr * heap) :=
  let (ok, st) := js_malloc st in
  if negb ok then Some (None, st) else
  let p := fresh (dom (recs st)) in
  let st := JS_DupValue st k in
  let s := map_state st in
  r ← table_push (hash_bits s) (hash_strong s) (hash_table s, <[p := mk_rec 1 false None k JS_UNDEFINED]> (recs st)) p;
  let st := mk_heap (with_records (with_table s r.1 (hash_strong s)) (records s ++ [p]) (u32 (record_count s + 1))) r.2 (iters st) (mem st) in
  st ← (if record_count_threshold (map_state st) <=? record_count (map_state st) then map_hash_resize st else Some st);
  Some (Some p, st).

Definition map_delete_record_internal (st : heap) (p : ptr) : option heap :=
  r ← recs st !! p;
  if empty r then Some st else
  st ← JS_FreeValue st (key r);
  st ← JS_FreeValue st (value r);
  r ← recs st !! p;
  let c := ref_count r - 1 in
  let st := if c =? 0 then free_record st p else set_recs st (<[p := mk_rec c true (hash_next r) JS_UNDEFINED JS_UNDEFINED]> (recs st)) in
  Some (set_map st (with_records (map_state st) (records (map_state st)) (u32 (record_count (map_state st) - 1)))).

(** The record with the key and the one before it in its chain. *)
Fixpoint map_delete_find (fuel : nat) (st : heap) (k : JSValue) (prev mr : option ptr) : option (option (option ptr * ptr)) :=
  match mr with
  | None => Some None
  | Some p =>
      match fuel with
      | O => None
      | S fuel =>
          r ← recs st !! p;
          b ← (if empty r then Some false else same (key r) k);
          if (b : bool) then Some (Some (prev, p)) else map_delete_find fuel st k (Some p) (hash_next r)
      end
  end.

(** [*pmr = mr->hash_next] *)
Definition map_unlink (st : heap) (h : Z) (prev : option ptr) (p : ptr) : option heap :=
  r ← recs st !! p;
  match prev with
  | None => t ← awrite (hash_table (map_state st)) h (hash_next r); Some (set_map st (with_table (map_state st) t (hash_strong (map_state st))))
  | Some q => rq ← recs st !! q; Some (set_recs st (<[q := with_next rq (hash_next r)]> (recs st)))
  end.

Definition map_delete_record (st : heap) (k : JSValue) : option (bool * heap) :=
  let k := map_normalize_key k in
  let h := hash k (hash_bits (map_state st)) (hash_strong (map_state st)) in
  mr ← aread (hash_table (map_state st)) h;
  f ← map_delete_find (length (records (map_state st))) st k None mr;
  match f with
  | None => Some (false, st)
  | Some (prev, p) => st ← map_unlink st h prev p; st ← map_delete_record_internal st p; Some (true, st)
  end.

(** ** The methods *)

(** [false]: an exception.  For a Set the value is undefined. *)
Definition js_map_set (st : heap) (k v : JSValue) : option (bool * heap) :=
  let k := map_normalize_key k in
  f ← map_find_record st k;
  a ← match f with
      | (Some p, st) => r ← recs st !! p; st ← JS_FreeValue st (value r); Some (Some p, st)
      | (None, st) => map_add_record st k
      end;
  match a with
  | (None, st) => Some (false, st)
  | (Some p, st) => let st := JS_DupValue st v in r ← recs st !! p; Some (true, set_recs st (<[p := with_value r v]> (recs st)))
  end.

Definition js_map_get (st : heap) (k : JSValue) : option (JSValue * heap) :=
  f ← map_find_record st (map_normalize_key k);
  match f with
  | (None, st) => Some (JS_UNDEFINED, st)
  | (Some p, st) => r ← recs st !! p; Some (value r, JS_DupValue st (value r))
  end.

Definition js_map_has (st : heap) (k : JSValue) : option (bool * heap) :=
  f ← map_find_record st (map_normalize_key k);
  Some (match f.1 with Some _ => true | None => false end, f.2).

(** getOrInsert, with a value and not with a function that computes one. *)
Definition js_map_getOrInsert (st : heap) (k v : JSValue) : option (option JSValue * heap) :=
  let k := map_normalize_key k in
  f ← map_find_record st k;
  match f with
  | (Some p, st) => r ← recs st !! p; Some (Some (value r), JS_DupValue st (value r))
  | (None, st) =>
      a ← map_add_record (JS_DupValue st v) k;
      match a with
      | (None, st) => st ← JS_FreeValue st v; Some (None, st)
      | (Some p, st) => r ← recs st !! p; let st := set_recs st (<[p := with_value r v]> (recs st)) in Some (Some v, JS_DupValue st v)
      end
  end.

Definition js_map_delete (st : heap) (k : JSValue) : option (bool * heap) := map_delete_record st k.

(** [list_for_each_safe]: the next link is read before the record is deleted. *)
Fixpoint clear_loop (fuel : nat) (st : heap) (el : option ptr) : option heap :=
  match el with
  | None => Some st
  | Some p =>
      match fuel with
      | O => None
      | S fuel =>
          el1 ← link_next (records (map_state st)) p;
          st ← map_delete_record_internal st p;
          clear_loop fuel st el1
      end
  end.

Definition js_map_clear (st : heap) : option heap :=
  let s := map_state st in
  let st := set_map st (with_table s (replicate (length (hash_table s)) None) (hash_strong s)) in
  clear_loop (length (records s)) st (head (records s)).

Definition js_map_get_size (st : heap) : Z := record_count (map_state st).

(** ** Iterators *)

(** [q]: the new object, [false]: an exception. *)
Definition js_create_map_iterator (st : heap) (q : ptr) (k : JSIteratorKindEnum) : bool * heap :=
  let (ok, st) := js_malloc st in
  if negb ok then (false, st) else
  let (ok, st) := js_malloc st in
  if negb ok then (false, st) else
  (true, set_iters st (<[q := mk_it true k None 1]> (iters st))).

(** The first record from [el] that is not empty. *)
Fixpoint next_loop (fuel : nat) (st : heap) (el : option ptr) : option (option ptr) :=
  match el with
  | None => Some None
  | Some p =>
      match fuel with
      | O => None
      | S fuel =>
          r ← recs st !! p;
          if negb (empty r) then Some (Some p) else el ← link_next (records (map_state st)) p; next_loop fuel st el
      end
  end.

(** What an iterator answers: [IterPair] is the array of a key and a value, [IterThrow] the
    exception when there is no memory for it.  js_create_array takes one answer of the allocator. *)
Inductive iter_result := IterDone | IterValue (v : JSValue) | IterPair (k v : JSValue) | IterThrow.

Definition js_map_iterator_next (is_set : bool) (st : heap) (q : ptr) : option (iter_result * heap) :=
  it ← iters st !! q;
  if negb (it_obj it) then Some (IterDone, st) else
  e ← match cur_record it with
      | None => Some (head (records (map_state st)), st)
      | Some p => el ← link_next (records (map_state st)) p; st ← map_decref_record st p; Some (el, st)
      end;
  let (el, st) := (e : option ptr * heap) in
  n ← next_loop (length (records (map_state st))) st el;
  match n with
  | None => Some (IterDone, set_iters st (<[q := mk_it false (kind it) None (it_refs it)]> (iters st)))
  | Some p =>
      r ← recs st !! p;
      let st := set_recs st (<[p := with_refs r (ref_count r + 1)]> (recs st)) in
      let st := set_iters st (<[q := mk_it true (kind it) (Some p) (it_refs it)]> (iters st)) in
      let v := if is_set then key r else value r in
      match kind it with
      | JS_ITERATOR_KIND_KEY => Some (IterValue (key r), JS_DupValue st (key r))
      | JS_ITERATOR_KIND_VALUE => Some (IterValue v, JS_DupValue st v)
      | JS_ITERATOR_KIND_KEY_AND_VALUE =>
          let (ok, st) := js_malloc st in
          if negb ok then Some (IterThrow, st) else Some (IterPair (key r) v, JS_DupValue (JS_DupValue st (key r)) v)
      end
  end.

(** [JS_Call]: what the function does to the state and what it returns; [None] is an exception. *)
Context (call : heap -> JSValue -> JSValue -> option (option JSValue * heap)).

(** [false]: the exception of the function. *)
Fixpoint forEach_loop (fuel : nat) (is_set : bool) (st : heap) (el : option ptr) : option (bool * heap) :=
  match el with
  | None => Some (true, st)
  | Some p =>
      match fuel with
      | O => None
      | S fuel =>
          r ← recs st !! p;
          if negb (empty r) then
            let st := set_recs st (<[p := with_refs r (ref_count r + 1)]> (recs st)) in
            let st := JS_DupValue st (key r) in
            let v := if is_set then key r else value r in
            let st := if is_set then st else JS_DupValue st v in
            c ← call st v (key r);
            let (ret, st) := (c : option JSValue * heap) in
            st ← JS_FreeValue st v;
            st ← (if is_set then Some st else JS_FreeValue st (key r));
            el ← link_next (records (map_state st)) p;
            st ← map_decref_record st p;
            match ret with
            | None => Some (false, st)
            | Some v => st ← JS_FreeValue st v; forEach_loop fuel is_set st el
            end
          else el ← link_next (records (map_state st)) p; forEach_loop fuel is_set st el
      end
  end.

Definition js_map_forEach (fuel : nat) (is_set : bool) (st : heap) : option (bool * heap) := forEach_loop fuel is_set st (head (records (map_state st))).

End Keys.

(** js_map_constructor without an argument. *)
Definition js_map_constructor (m : list bool) : option heap :=
  if negb (hd true m) then None
  else if negb (hd true (tl m)) then None
  else Some (mk_heap (mk_map [] 0 (replicate 2 None) 1 4 false) ∅ ∅ (tl (tl m))).
