(* ===== verification/MapTable.v ===== *)
(** * The chains of a Map

    The chains of the hash table run through the fields hash_next.  This file
    has what pushing and unlinking a record and hashing all records again do. *)
From Stdlib Require Import ZArith Lia List.
From stdpp Require Import base numbers option list gmap.
From S2P Require Import Prelude Doubles Strings StrHash MapKeys Maps.

(** ** Linked lists of records *)

Definition cnx (rs : gmap ptr JSMapRecord) (p : ptr) : option (option ptr) := hash_next <$> rs !! p.

Fixpoint clinked (f : ptr -> option (option ptr)) (h : option ptr) (ps : list ptr) : Prop :=
  match ps with
  | [] => h = None
  | p :: ps => h = Some p /\ exists n, f p = Some n /\ clinked f n ps
  end.

Lemma clinked_ext f f' h ps : (forall p, p ∈ ps -> f' p = f p) -> clinked f h ps -> clinked f' h ps.
Proof.
  revert h. induction ps as [|p ps IH]; intros h Hf; [done|]. intros (-> & n & En & Hl). split; [done|]. exists n. rewrite Hf by (by left). split; [done|]. apply IH; [|done]. intros q Hq. apply Hf. by right.
Qed.

Lemma clinked_push f h p ps : p ∉ ps -> clinked f h ps -> clinked (fun q => if decide (q = p) then Some h else f q) (Some p) (p :: ps).
Proof.
  intros Hp Hl. split; [done|]. exists h. rewrite decide_True by done. split; [done|]. eapply clinked_ext; [|exact Hl]. intros q Hq. cbn. by rewrite decide_False by (intros ->; done).
Qed.

Lemma clinked_remove f h l q p l2 n : clinked f h (l ++ q :: p :: l2) -> NoDup (l ++ q :: p :: l2) -> f p = Some n ->
  clinked (fun k => if decide (k = q) then Some n else f k) h (l ++ q :: l2).
Proof.
  revert h. induction l as [|x l IH]; intros h Hl Hnd Hn; cbn [app] in *.
  - destruct Hl as (-> & m & Em & -> & m' & Em' & Hl). split; [done|]. exists n. rewrite decide_True by done. split; [done|]. assert (m' = n) as -> by congruence.
    eapply clinked_ext; [|exact Hl]. intros k Hk. cbn. rewrite decide_False; [done|]. intros ->. apply NoDup_cons in Hnd as [Hnd _]. apply Hnd. by right.
  - destruct Hl as (-> & m & Em & Hl). apply NoDup_cons in Hnd as [Hxn Hnd]. split; [done|]. exists m. rewrite decide_False; [by split; [|apply IH]|]. intros ->. apply Hxn, elem_of_app. right. by left.
Qed.

(** ** The table *)

Section Table.
Context (hash : JSValue -> Z -> bool -> Z) (bits : Z) (strong : bool).
Hypothesis Hrange : forall v, 0 <= hash v bits strong < 2 ^ bits.

(** The chains have exactly the records [ms], each in the chain of its hash. *)
Definition chain_ok (rs : gmap ptr JSMapRecord) (t : list (option ptr)) (ms : list ptr) : Prop :=
  Z.of_nat (length t) = 2 ^ bits /\
  exists chains, Forall2 (clinked (cnx rs)) t chains /\ NoDup (concat chains) /\ (forall p, p ∈ concat chains <-> p ∈ ms) /\
    (forall c js p r, chains !! c = Some js -> p ∈ js -> rs !! p = Some r -> Z.of_nat c = hash (key r) bits strong).

Lemma in_chain (chains : list (list ptr)) c js p : chains !! c = Some js -> p ∈ js -> p ∈ concat chains.
Proof. intros Hc Hp. apply list_elem_of_In, in_concat. exists js. split; [by apply list_elem_of_In, (list_elem_of_lookup_2 _ c)|by apply list_elem_of_In]. Qed.

Lemma chain_of (chains : list (list ptr)) p : p ∈ concat chains -> exists c js, chains !! c = Some js /\ p ∈ js.
Proof. rewrite list_elem_of_In, in_concat. intros (js & Hjs & Hp). apply list_elem_of_In in Hjs, Hp. apply list_elem_of_lookup in Hjs as (c & Hc). by exists c, js. Qed.

(** Only the links and keys of the members matter. *)
Lemma chain_same rs rs' t ms : (forall p, p ∈ ms -> cnx rs' p = cnx rs p /\ key <$> rs' !! p = key <$> rs !! p) -> chain_ok rs t ms -> chain_ok rs' t ms.
Proof.
  intros Hs (Hl & chains & T1 & T2 & T3 & T4). split; [done|]. exists chains. split_and!; try done.
  - apply Forall2_same_length_lookup. split; [by apply Forall2_length in T1|]. intros c h js Eh Ec. eapply clinked_ext; [|by apply (Forall2_lookup_lr _ _ _ _ _ _ T1 Eh Ec)].
    intros p Hp. apply Hs, T3. by apply (in_chain _ c js).
  - intros c js p r Hc Hp Er. destruct (Hs p) as [_ Ek]; [by apply T3, (in_chain _ c js)|]. rewrite Er in Ek. destruct (rs !! p) as [r0|] eqn:E0; [|done]. cbn in Ek. injection Ek as ->. by apply (T4 c js p).
Qed.

Lemma chain_members rs t ms ms' : (forall p, p ∈ ms' <-> p ∈ ms) -> chain_ok rs t ms -> chain_ok rs t ms'.
Proof. intros Hm (Hl & chains & T1 & T2 & T3 & T4). split; [done|]. exists chains. split_and!; try done. intros p. by rewrite T3, Hm. Qed.

Lemma chain_empty rs n : Z.of_nat n = 2 ^ bits -> chain_ok rs (replicate n None) [].
Proof.
  intros Hn. split; [by rewrite length_replicate|]. exists (replicate n []). assert (E : concat (replicate n ([] : list ptr)) = []) by (clear; induction n; [done|by cbn]). rewrite E. split_and!.
  - apply Forall2_same_length_lookup. rewrite !length_replicate. split; [done|]. intros i x y Hx Hy. apply lookup_replicate_1 in Hx as [-> _]. by apply lookup_replicate_1 in Hy as [-> _].
  - constructor.
  - done.
  - intros c js p r Hc Hp. apply lookup_replicate_1 in Hc as [-> _]. by apply not_elem_of_nil in Hp.
Qed.

Lemma chain_push_spec rs t ms p r : chain_ok rs t ms -> rs !! p = Some r -> p ∉ ms ->
  exists t' n, table_push hash bits strong (t, rs) p = Some (t', <[p := with_next r n]> rs) /\ chain_ok (<[p := with_next r n]> rs) t' (p :: ms).
Proof.
  intros (Hl & chains & T1 & T2 & T3 & T4) Hp Hm. unfold table_push. cbn [fst snd]. rewrite Hp. cbn [mbind option_bind]. set (c := hash (key r) bits strong). pose proof (Hrange (key r)) as Hc. fold c in Hc.
  pose proof (Forall2_length _ _ _ T1) as Hlen. destruct (lookup_lt_is_Some_2 t (Z.to_nat c)) as [h Eh]; [lia|]. destruct (lookup_lt_is_Some_2 chains (Z.to_nat c)) as [js Ejs]; [lia|].
  assert (Er : aread t c = Some h) by (unfold aread; by rewrite (proj2 (Z.ltb_ge c 0)) by lia). rewrite Er. cbn [mbind option_bind]. rewrite awrite_in by lia. cbn [mbind option_bind]. eexists _, h. split; [done|].
  assert (Hpc : p ∉ concat chains) by (by rewrite T3). pose proof (Forall2_lookup_lr _ _ _ _ _ _ T1 Eh Ejs) as Hjs.
  assert (Hperm : concat (<[Z.to_nat c := p :: js]> chains) ≡ₚ p :: concat chains).
  { rewrite <- (take_drop_middle chains (Z.to_nat c) js Ejs) at 2. rewrite (insert_take_drop _ _ _) by (by apply lookup_lt_Some in Ejs). rewrite !concat_app. cbn [concat app]. symmetry. apply Permutation_middle. }
  assert (Hx : forall q, cnx (<[p := with_next r h]> rs) q = if decide (q = p) then Some h else cnx rs q).
  { intros q. unfold cnx. case_decide as Hq; [subst q; by rewrite lookup_insert_eq|by rewrite lookup_insert_ne]. }
  split; [by rewrite length_insert|]. exists (<[Z.to_nat c := p :: js]> chains). split_and!.
  - apply Forall2_insert.
    + apply Forall2_same_length_lookup. split; [done|]. intros k x y Ex Ey. eapply clinked_ext; [|by apply (Forall2_lookup_lr _ _ _ _ _ _ T1 Ex Ey)]. intros q Hq. rewrite Hx, decide_False; [done|]. intros ->. apply Hpc. by apply (in_chain _ k y).
    + eapply clinked_ext; [|apply (clinked_push (cnx rs) h p js); [|done]]; [intros q _; by rewrite Hx|]. intros Hin. apply Hpc. by apply (in_chain _ (Z.to_nat c) js).
  - rewrite Hperm. by constructor.
  - intros q. by rewrite Hperm, !elem_of_cons, T3.
  - intros c' js' q r' Ec' Hq Eq. destruct (decide (q = p)) as [-> |Hqp].
    + rewrite lookup_insert_eq in Eq. injection Eq as <-. cbn. change (Z.of_nat c' = c). destruct (decide (Z.to_nat c = c')) as [<- |Hne]; [lia|]. rewrite list_lookup_insert_ne in Ec' by done. exfalso. apply Hpc. by apply (in_chain _ c' js').
    + rewrite lookup_insert_ne in Eq by done. destruct (decide (Z.to_nat c = c')) as [<- |Hne].
      * rewrite list_lookup_insert_eq in Ec' by (by apply lookup_lt_Some in Ejs). injection Ec' as <-. apply elem_of_cons in Hq as [?|Hq]; [done|]. by apply (T4 (Z.to_nat c) js q).
      * rewrite list_lookup_insert_ne in Ec' by done. by apply (T4 c' js' q).
Qed.

(** Records with the same links apart from hash_next. *)
Definition same_recs (rs rs' : gmap ptr JSMapRecord) : Prop := forall p, (fun r => with_next r None) <$> rs' !! p = (fun r => with_next r None) <$> rs !! p.

Lemma same_recs_refl rs : same_recs rs rs.
Proof. done. Qed.

Lemma same_recs_push rs p r n : rs !! p = Some r -> same_recs rs (<[p := with_next r n]> rs).
Proof. intros Hp q. destruct (decide (q = p)) as [-> |Hq]; [by rewrite lookup_insert_eq, Hp|by rewrite lookup_insert_ne]. Qed.

(** All records of the list that are not empty. *)
Lemma rehash_map_spec rs t ms l : chain_ok rs t ms -> NoDup l -> (forall p, p ∈ l -> p ∉ ms) -> (forall p, p ∈ l -> is_Some (rs !! p)) ->
  exists t' rs' ms', rehash hash bits strong l (t, rs) = Some (t', rs') /\ chain_ok rs' t' ms' /\ same_recs rs rs' /\
    (forall p, p ∈ ms' <-> p ∈ ms \/ p ∈ l /\ exists r, rs !! p = Some r /\ empty r = false).
Proof.
  revert rs t ms. induction l as [|p l IH]; intros rs t ms Hc Hnd Hm Hs; unfold rehash; cbn [each].
  { exists t, rs, ms. split_and!; try done. intros p. rewrite elem_of_nil. tauto. }
  apply NoDup_cons in Hnd as [Hpl Hnd]. destruct (Hs p) as [r Er]; [by left|]. cbn [snd]. rewrite Er. cbn [mbind option_bind]. destruct (empty r) eqn:Ee.
  - cbn [mbind option_bind]. destruct (IH rs t ms Hc Hnd) as (t' & rs' & ms' & E & C & S & M); [intros q Hq; apply Hm; by right|intros q Hq; apply Hs; by right|]. exists t', rs', ms'. split_and!; try done.
    intros q. rewrite M, elem_of_cons. split; [intros [?|[? ?]]; [by left|right; split; [by right|done]]|]. intros [?|[[-> |?] (r' & E' & Hr')]]; [by left|congruence|right]. split; [done|]. by exists r'.
  - destruct (chain_push_spec rs t ms p r Hc Er) as (t1 & n & E1 & C1); [apply Hm; by left|]. rewrite E1. cbn [mbind option_bind].
    destruct (IH (<[p := with_next r n]> rs) t1 (p :: ms) C1 Hnd) as (t' & rs' & ms' & E & C & S & M).
    + intros q Hq. rewrite elem_of_cons. intros [-> |?]; [done|]. apply (Hm q); [by right|done].
    + intros q Hq. destruct (decide (q = p)) as [-> |Hqp]; [done|]. rewrite lookup_insert_ne by done. apply Hs. by right.
    + exists t', rs', ms'. split; [exact E|]. split; [done|]. split; [intros q; rewrite S; by apply same_recs_push|].
      intros q. rewrite M, !elem_of_cons. destruct (decide (q = p)) as [-> |Hqp].
      * split; [|intros _; left; by left]. intros _. right. split; [by left|]. by exists r.
      * rewrite lookup_insert_ne by done. tauto.
Qed.
End Table.

(** ** Taking a record out of its chain *)

Lemma clinked_split f h l1 p l2 : clinked f h (l1 ++ p :: l2) -> exists n, f p = Some n /\ clinked f n l2.
Proof. revert h. induction l1 as [|x l1 IH]; intros h; cbn; [by intros (_ & n & E & Hl); exists n|]. intros (_ & n & _ & Hl). by apply (IH n). Qed.

Lemma link_del_spec (l : list ptr) p q : q ∈ link_del l p <-> q ∈ l /\ q <> p.
Proof. unfold link_del. rewrite list_elem_of_In, filter_In, negb_true_iff, bool_decide_eq_false, <- list_elem_of_In. done. Qed.

Lemma link_del_notin (l : list ptr) p : p ∉ l -> link_del l p = l.
Proof. unfold link_del. induction l as [|q l IH]; [done|]. rewrite not_elem_of_cons. intros [Hq Hl]. cbn. rewrite bool_decide_eq_false_2 by done. cbn. by rewrite IH. Qed.

Lemma concat_replace (chains : list (list ptr)) c l1 p l2 : chains !! c = Some (l1 ++ p :: l2) -> concat chains ≡ₚ p :: concat (<[c := l1 ++ l2]> chains).
Proof.
  intros E. rewrite <- (take_drop_middle chains c _ E) at 1. rewrite (insert_take_drop _ _ _) by (by apply lookup_lt_Some in E). rewrite !concat_app. cbn [concat]. rewrite <- !(assoc (++)). cbn [app].
  rewrite <- !Permutation_middle. done.
Qed.

Section Remove.
Context (hash : JSValue -> Z -> bool -> Z) (bits : Z) (strong : bool).
Abbreviation chain_ok := (chain_ok hash bits strong).

(** The chain without the record, however the link before it was written. *)
Lemma chain_without rs t ms chains c l1 p l2 h' rs' :
  Z.of_nat (length t) = 2 ^ bits -> Forall2 (clinked (cnx rs)) t chains -> NoDup (concat chains) -> (forall p, p ∈ concat chains <-> p ∈ ms) ->
  (forall c js p r, chains !! c = Some js -> p ∈ js -> rs !! p = Some r -> Z.of_nat c = hash (key r) bits strong) ->
  chains !! c = Some (l1 ++ p :: l2) -> clinked (cnx rs') h' (l1 ++ l2) ->
  (forall q, q ∉ l1 -> cnx rs' q = cnx rs q) -> (forall q, key <$> rs' !! q = key <$> rs !! q) -> chain_ok rs' (<[c := h']> t) (link_del ms p).
Proof.
  intros Hl T1 T2 T3 T4 Ec Hh Hq Hk. pose proof (concat_replace _ _ _ _ _ Ec) as Hperm. pose proof T2 as T2'. rewrite Hperm in T2'. apply NoDup_cons in T2' as [Hp Hnd].
  split; [by rewrite length_insert|]. exists (<[c := l1 ++ l2]> chains). split_and!; [| |intros q|].
  - apply Forall2_same_length_lookup. rewrite !length_insert. split; [by apply Forall2_length in T1|]. intros i x y Ex Ey. pose proof (lookup_lt_Some _ _ _ Ec) as Hlt. destruct (decide (c = i)) as [<- |Hi].
    + rewrite list_lookup_insert_eq in Ey by done. rewrite list_lookup_insert_eq in Ex by (by rewrite (Forall2_length _ _ _ T1)). congruence.
    + rewrite list_lookup_insert_ne in Ex by done. rewrite list_lookup_insert_ne in Ey by done. eapply clinked_ext; [|by apply (Forall2_lookup_lr _ _ _ _ _ _ T1 Ex Ey)]. intros q Hqy. apply Hq. intros Hl1.
      apply Hi. pose proof (take_drop_middle _ _ _ Ec) as Hm. destruct (decide (i < c)%nat) as [Hic|Hic].
      * rewrite <- Hm, concat_app in T2. apply NoDup_app in T2 as (_ & T2 & _). exfalso. apply (T2 q); [apply (in_chain _ i y); [by rewrite lookup_take_lt|done]|]. cbn. apply elem_of_app. left. apply elem_of_app. by left.
      * rewrite <- Hm, concat_app in T2. apply NoDup_app in T2 as (_ & _ & T2). cbn in T2. apply NoDup_app in T2 as (_ & T2 & _). exfalso. apply (T2 q); [apply elem_of_app; by left|]. apply (in_chain _ (i - S c) y); [|done]. rewrite lookup_drop. rewrite <- Ey. f_equal. lia.
  - done.
  - rewrite link_del_spec, <- T3, Hperm, elem_of_cons. split; [|tauto]. intros Hin. split; [by right|]. by intros ->.
  - intros i js q r Ei Hin Er. assert (exists r0, rs !! q = Some r0 /\ key r0 = key r) as (r0 & E0 & <-). { specialize (Hk q). rewrite Er in Hk. destruct (rs !! q) as [r0|]; [|done]. exists r0. cbn in Hk. split; [done|congruence]. }
    destruct (decide (c = i)) as [<- |Hi].
    + rewrite list_lookup_insert_eq in Ei by (by apply lookup_lt_Some in Ec). injection Ei as <-. apply (T4 c (l1 ++ p :: l2) q); [done| |done]. apply elem_of_app in Hin as [?|?]; apply elem_of_app; [by left|right; by right].
    + rewrite list_lookup_insert_ne in Ei by done. by apply (T4 i js q).
Qed.

(** ** Searching a chain *)

Context (same : JSValue -> JSValue -> option bool) `{HK : !MapKey same hash}.

(** What a search may rely on: the records of the chain have a key. *)
Definition live_in (rs : gmap ptr JSMapRecord) (js : list ptr) : Prop := forall p, p ∈ js -> exists r, rs !! p = Some r /\ empty r = false /\ value_ok (key r) /\ normal (key r).

Definition has_key (rs : gmap ptr JSMapRecord) (k : JSValue) (p : ptr) : Prop := exists r, rs !! p = Some r /\ key_val (key r) = key_val k.

Lemma map_find_loop_spec fuel st k js h n : clinked (cnx (recs st)) h js -> (length js <= fuel)%nat -> live_in (recs st) js -> value_ok k ->
  exists f, map_find_loop same fuel st k h n = Some f /\
    match f with Found p => p ∈ js /\ has_key (recs st) k p | Missing => forall p, p ∈ js -> ~ has_key (recs st) k p | Flood => hash_strong (map_state st) = false end.
Proof.
  revert js h n. induction fuel as [|fuel IH]; intros [|p js] h n Hc Hf Hl Hk; cbn [length] in Hf; [| lia| |].
  1, 2: cbn in Hc; subst h; cbn; exists Missing; split; [done|]; intros q Hq; by apply not_elem_of_nil in Hq.
  destruct Hc as (-> & m & Em & Hc). destruct (Hl p) as (r & Er & Ee & Ho & _); [by left|]. cbn [map_find_loop]. rewrite Er. cbn [mbind option_bind]. rewrite Ee, (mk_same (key r) k) by done. cbn [mbind option_bind]. case_bool_decide as Hd.
  { exists (Found p). split; [done|]. split; [by left|]. by exists r. }
  destruct ((JS_HASH_CHAIN_FLOOD <? n + 1) && negb (hash_strong (map_state st))) eqn:Efl.
  { exists Flood. split; [done|]. apply andb_true_iff in Efl as [_ Efl]. by destruct (hash_strong (map_state st)). }
  assert (m = hash_next r) as -> by (unfold cnx in Em; rewrite Er in Em; cbn in Em; congruence). destruct (IH js (hash_next r) (n + 1) Hc) as (f & -> & Hr); [lia|intros q Hq; apply Hl; by right|done|]. exists f. split; [done|]. destruct f; [|intros q Hq|done].
  - destruct Hr. split; [by right|done].
  - apply elem_of_cons in Hq as [-> |Hq]; [|by apply Hr]. intros (r' & Er' & Hr'). congruence.
Qed.

Lemma chain_delete_find_spec fuel st k js h prev : clinked (cnx (recs st)) h js -> (length js <= fuel)%nat -> live_in (recs st) js -> value_ok k ->
  exists f, map_delete_find same fuel st k prev h = Some f /\
    match f with
    | Some (prev', p) => exists l1 l2, js = l1 ++ p :: l2 /\ prev' = (match last l1 with Some q => Some q | None => prev end) /\ has_key (recs st) k p
    | None => forall p, p ∈ js -> ~ has_key (recs st) k p
    end.
Proof.
  revert js h prev. induction fuel as [|fuel IH]; intros [|p js] h prev Hc Hf Hl Hk; cbn [length] in Hf; [| lia| |].
  1, 2: cbn in Hc; subst h; cbn; exists None; split; [done|]; intros q Hq; by apply not_elem_of_nil in Hq.
  destruct Hc as (-> & m & Em & Hc). destruct (Hl p) as (r & Er & Ee & Ho & _); [by left|]. cbn [map_delete_find]. rewrite Er. cbn [mbind option_bind]. rewrite Ee, (mk_same (key r) k) by done. cbn [mbind option_bind]. case_bool_decide as Hd.
  { exists (Some (prev, p)). split; [done|]. exists [], js. split_and!; try done. by exists r. }
  assert (m = hash_next r) as -> by (unfold cnx in Em; rewrite Er in Em; cbn in Em; congruence). destruct (IH js (hash_next r) (Some p) Hc) as (f & -> & Hr); [lia|intros q Hq; apply Hl; by right|done|]. exists f. split; [done|]. destruct f as [[prev' x]|].
  - destruct Hr as (l1 & l2 & -> & -> & Hh). exists (p :: l1), l2. split_and!; try done. destruct l1 as [|y l1]; [done|]. rewrite last_cons_cons. destruct (last (y :: l1)) eqn:E; [done|]. by apply last_None in E.
  - intros q Hq. apply elem_of_cons in Hq as [-> |Hq]; [|by apply Hr]. intros (r' & Er' & Hr'). congruence.
Qed.

(** The chain of a key has every record with the key. *)
Lemma chain_of_key rs t ms l k : chain_ok rs t ms -> 1 <= bits <= 31 -> live_in rs ms -> (forall p, p ∈ ms -> p ∈ l) -> value_ok k -> normal k ->
  exists chains h js, let c := Z.to_nat (hash k bits strong) in
    aread t (hash k bits strong) = Some h /\ t !! c = Some h /\ chains !! c = Some js /\
    Forall2 (clinked (cnx rs)) t chains /\ NoDup (concat chains) /\ (forall p, p ∈ concat chains <-> p ∈ ms) /\
    (forall c js p r, chains !! c = Some js -> p ∈ js -> rs !! p = Some r -> Z.of_nat c = hash (key r) bits strong) /\
    clinked (cnx rs) h js /\ (length js <= length l)%nat /\ live_in rs js /\ (forall p, p ∈ js -> p ∈ ms) /\ (forall p, p ∈ ms -> has_key rs k p -> p ∈ js).
Proof.
  intros (Hl & chains & T1 & T2 & T3 & T4) Hb Hlive Hml Hk Hn. pose proof (mk_range k bits strong Hb) as Hr. pose proof (Forall2_length _ _ _ T1) as Hlen. set (c := hash k bits strong) in *.
  destruct (lookup_lt_is_Some_2 t (Z.to_nat c)) as [h Eh]; [lia|]. destruct (lookup_lt_is_Some_2 chains (Z.to_nat c)) as [js Ejs]; [lia|]. exists chains, h, js.
  assert (Hms : forall p, p ∈ js -> p ∈ ms) by (intros p Hp; apply T3; by apply (in_chain _ (Z.to_nat c) js)). split_and!; try done.
  - unfold aread. by rewrite (proj2 (Z.ltb_ge c 0)) by lia.
  - by apply (Forall2_lookup_lr _ _ _ _ _ _ T1 Eh Ejs).
  - apply submseteq_length, NoDup_submseteq; [|intros p Hp; by apply Hml, Hms]. rewrite <- (take_drop_middle _ _ _ Ejs), concat_app in T2. apply NoDup_app in T2 as (_ & _ & T2). cbn in T2. by apply NoDup_app in T2 as (T2 & _).
  - intros p Hp. by apply Hlive, Hms.
  - intros p Hp (r & Er & Ek). destruct (Hlive p Hp) as (r' & Er' & _ & Ho & Hno). assert (r' = r) as -> by congruence. apply T3 in Hp. apply chain_of in Hp as (c' & js' & Ec' & Hp'). pose proof (T4 c' js' p r Ec' Hp' Er) as E.
    rewrite (mk_hash (key r) k) in E by done. fold c in E. assert (c' = Z.to_nat c) as -> by lia. congruence.
Qed.

Lemma unlink_spec st ms k : chain_ok (recs st) (hash_table (map_state st)) ms -> 1 <= bits <= 31 -> live_in (recs st) ms -> (forall p, p ∈ ms -> p ∈ records (map_state st)) -> value_ok k -> normal k ->
  let c := hash k bits strong in
  exists h f, aread (hash_table (map_state st)) c = Some h /\ map_delete_find same (length (records (map_state st))) st k None h = Some f /\
    match f with
    | None => forall p, p ∈ ms -> ~ has_key (recs st) k p
    | Some (prev, p) => p ∈ ms /\ has_key (recs st) k p /\ exists t rs, map_unlink st c prev p = Some (mk_heap (with_table (map_state st) t (hash_strong (map_state st))) rs (iters st) (mem st)) /\
        chain_ok rs t (link_del ms p) /\ same_recs (recs st) rs
    end.
Proof.
  intros Hc Hb Hlive Hml Hk Hn c. pose proof (proj1 Hc) as Hlen. destruct (chain_of_key _ _ _ (records (map_state st)) k Hc Hb Hlive Hml Hk Hn) as (chains & h & js & Er & Eh & Ejs & T1 & T2 & T3 & T4 & Hcl & Hf & Hl & Hms & Hmem). fold c in Er, Eh, Ejs. exists h.
  destruct (chain_delete_find_spec (length (records (map_state st))) st k js h None Hcl Hf Hl Hk) as (f & Ef & Hres). exists f. split; [done|]. split; [done|]. destruct f as [[prev p]|]; [|intros p Hp Hh; by apply (Hres p); [apply Hmem|]].
  destruct Hres as (l1 & l2 & -> & -> & Hh). assert (Hp : p ∈ ms) by (apply Hms, elem_of_app; right; by left). split; [done|]. split; [done|]. destruct (Hlive p Hp) as (r & Ep & _). destruct (clinked_split _ _ _ _ _ Hcl) as (n & En & Hcl2).
  assert (n = hash_next r) as -> by (unfold cnx in En; rewrite Ep in En; cbn in En; congruence). unfold map_unlink. rewrite Ep. cbn [mbind option_bind]. pose proof (aread_some _ _ _ Er) as Hci.
  assert (Hnd : NoDup (l1 ++ p :: l2)). { rewrite <- (take_drop_middle _ _ _ Ejs), concat_app in T2. apply NoDup_app in T2 as (_ & _ & T2). cbn [concat] in T2. by apply NoDup_app in T2 as (T2 & _). }
  destruct (last l1) as [q|] eqn:Elast.
  - destruct l1 as [|y l1'] using rev_ind; [done|]. rewrite last_snoc in Elast. injection Elast as ->. rewrite <- !(assoc (++)) in *. cbn [app] in *. destruct (Hlive q) as (rq & Eq & _); [apply Hms, elem_of_app; right; by left|]. rewrite Eq. cbn [mbind option_bind].
    exists (hash_table (map_state st)), (<[q := with_next rq (hash_next r)]> (recs st)). split; [by destruct st as [[]]|]. split; [|by apply same_recs_push].
    rewrite <- (list_insert_id _ _ _ Eh). assert (Hx : forall x, cnx (<[q := with_next rq (hash_next r)]> (recs st)) x = if decide (x = q) then Some (hash_next r) else cnx (recs st) x).
    { intros x. unfold cnx. case_decide as Hq; [subst x; by rewrite lookup_insert_eq|by rewrite lookup_insert_ne]. }
    apply (chain_without (recs st) _ ms chains _ (l1' ++ [q]) p l2); try done.
    + by rewrite <- (assoc (++)).
    + rewrite <- (assoc (++)). eapply clinked_ext; [|by apply (clinked_remove _ _ _ _ p _ (hash_next r) Hcl Hnd)]. intros x _. by rewrite Hx.
    + intros x Hxl. rewrite Hx, decide_False; [done|]. intros ->. apply Hxl, elem_of_app. right. by left.
    + intros x. destruct (decide (x = q)) as [-> |Hxq]; [by rewrite lookup_insert_eq, Eq|by rewrite lookup_insert_ne].
  - apply last_None in Elast as ->. cbn [app] in *. rewrite awrite_in by done. cbn [mbind option_bind]. exists (<[Z.to_nat c := hash_next r]> (hash_table (map_state st))), (recs st). split; [done|]. split; [|apply same_recs_refl].
    by apply (chain_without (recs st) _ ms chains _ [] p l2).
Qed.
End Remove.
