(* ===== verification/MapSpec.v ===== *)
(** * Map and Set: what they promise

    The Map of ECMAScript: a list of entries in the order of insertion in which
    a deleted entry leaves a hole, and iterators that are positions in the list.
    The state also has the references that the program holds, since giving up the
    last reference to an iterator ends its life.

    [op] are the operations a program can perform on a map and its iterators,
    [map_step] performs one with the code and [spec_step] with the list.  The
    flag of [spec_step] is the answer of the allocator. *)
From Stdlib Require Import ZArith Lia List.
From stdpp Require Import base numbers option list gmap.
From S2P Require Import Prelude Doubles Strings StrHash MapKeys Maps.

Abbreviation entry := (option (JSValue * JSValue)).

Record spec := mk_spec { es : list entry; its : gmap ptr (JSIteratorKindEnum * option nat); held : ptr -> Z }.

(** The entry with the key, and the first entry from a position. *)
Fixpoint find_entry (l : list entry) (k : JSValue) : option (nat * (JSValue * JSValue)) :=
  match l with
  | [] => None
  | Some e :: l' => if bool_decide (key_val e.1 = key_val k) then Some (0%nat, e) else prod_map S id <$> find_entry l' k
  | None :: l' => prod_map S id <$> find_entry l' k
  end.

Fixpoint next_entry (l : list entry) (i : nat) : option (nat * (JSValue * JSValue)) :=
  match l with
  | [] => None
  | x :: l' =>
      match i, x with
      | O, Some e => Some (0%nat, e)
      | O, None => prod_map S id <$> next_entry l' 0
      | S i, _ => prod_map S id <$> next_entry l' i
      end
  end.

Definition live (l : list entry) : Z := Z.of_nat (length (omap id l)).

(** ** References *)

Definition obj_is (q : ptr) (v : JSValue) : Z := match v with JS_OBJECT p => if bool_decide (p = q) then 1 else 0 | _ => 0 end.
Definition occ_entry (q : ptr) (e : entry) : Z := match e with Some (k, v) => obj_is q k + obj_is q v | None => 0 end.
Definition occ (q : ptr) (l : list entry) : Z := foldr (fun e n => occ_entry q e + n) 0 l.

Definition give (h : ptr -> Z) (v : JSValue) : ptr -> Z := fun q => h q + obj_is q v.
Definition release (h : ptr -> Z) (v : JSValue) : ptr -> Z := fun q => h q - obj_is q v.
Definition give_iter (h : ptr -> Z) (r : iter_result) : ptr -> Z := match r with IterDone => h | IterValue v => give h v | IterPair k v => give (give h k) v | IterThrow => h end.

Definition holds (h : ptr -> Z) (v : JSValue) : Prop := match v with JS_OBJECT q => 1 <= h q | _ => True end.

(** ** Operations *)

Inductive op :=
  | OSet (k v : JSValue) | OGet (k : JSValue) | OHas (k : JSValue) | OGetOrInsert (k v : JSValue) | ODelete (k : JSValue)
  | OClear | OSize | OIter (q : ptr) (kd : JSIteratorKindEnum) | ONext (q : ptr) | ODrop (v : JSValue).

Inductive answer := AThrow | AVoid | ABool (b : bool) | AValue (v : JSValue) | ASize (n : Z) | AIter (r : iter_result).

Definition iter_value (is_set : bool) (kd : JSIteratorKindEnum) (e : JSValue * JSValue) : iter_result :=
  let v := if is_set then e.1 else e.2 in
  match kd with JS_ITERATOR_KIND_KEY => IterValue e.1 | JS_ITERATOR_KIND_VALUE => IterValue v | JS_ITERATOR_KIND_KEY_AND_VALUE => IterPair e.1 v end.

(** The array of a key and a value takes memory. *)
Definition iter_answer (is_set ok : bool) (kd : JSIteratorKindEnum) (e : JSValue * JSValue) : iter_result :=
  match kd, ok with JS_ITERATOR_KIND_KEY_AND_VALUE, false => IterThrow | _, _ => iter_value is_set kd e end.

Definition spec_step (is_set ok : bool) (s : spec) (o : op) : answer * spec :=
  match o with
  | OSet k v =>
      match find_entry (es s) k with
      | Some (i, (k0, _)) => (AVoid, mk_spec (<[i := Some (k0, v)]> (es s)) (its s) (held s))
      | None => if ok then (AVoid, mk_spec (es s ++ [Some (map_normalize_key k, v)]) (its s) (held s)) else (AThrow, s)
      end
  | OGet k =>
      match find_entry (es s) k with
      | Some (_, (_, v)) => (AValue v, mk_spec (es s) (its s) (give (held s) v))
      | None => (AValue JS_UNDEFINED, s)
      end
  | OHas k => (ABool (if find_entry (es s) k is Some _ then true else false), s)
  | OGetOrInsert k v =>
      match find_entry (es s) k with
      | Some (_, (_, v0)) => (AValue v0, mk_spec (es s) (its s) (give (held s) v0))
      | None => if ok then (AValue v, mk_spec (es s ++ [Some (map_normalize_key k, v)]) (its s) (give (held s) v)) else (AThrow, s)
      end
  | ODelete k =>
      match find_entry (es s) k with
      | Some (i, _) => (ABool true, mk_spec (<[i := None]> (es s)) (its s) (held s))
      | None => (ABool false, s)
      end
  | OClear => (AVoid, mk_spec (replicate (length (es s)) None) (its s) (held s))
  | OSize => (ASize (live (es s)), s)
  | OIter q kd => if ok then (AVoid, mk_spec (es s) (<[q := (kd, Some 0%nat)]> (its s)) (give (held s) (JS_OBJECT q))) else (AThrow, s)
  | ONext q =>
      match its s !! q with
      | Some (kd, Some pos) =>
          match next_entry (es s) pos with
          | Some (i, e) => let r := iter_answer is_set ok kd e in (AIter r, mk_spec (es s) (<[q := (kd, Some (S i))]> (its s)) (give_iter (held s) r))
          | None => (AIter IterDone, mk_spec (es s) (<[q := (kd, None)]> (its s)) (held s))
          end
      | _ => (AIter IterDone, s)
      end
  | ODrop v => (AVoid, mk_spec (es s) (its s) (release (held s) v))
  end.

(** A live iterator that has last answered an entry that is now deleted. *)
Definition on_hole (s : spec) (q : ptr) : Prop := exists kd i, its s !! q = Some (kd, Some (S i)) /\ es s !! i = Some None /\ 1 <= held s q + occ q (es s).

(** What a program must respect.  It has a reference to what it passes, a new
    object is at an unused address, and the entries stay below 2^32.  For clear,
    no iterator stands on a deleted entry or none is a key or a value of the map.
    Objects that are no iterators hold none, see [Maps]. *)
Definition enabled (s : spec) (o : op) : Prop :=
  match o with
  | OSet k v | OGetOrInsert k v => value_ok k /\ holds (held s) k /\ holds (held s) v /\ live (es s) + 1 < 2 ^ 32
  | OGet k | OHas k | ODelete k => value_ok k
  | OClear => (forall q, ~ on_hole s q) \/ (forall q, is_Some (its s !! q) -> occ q (es s) = 0)
  | OSize => True
  | OIter q kd => held s q + occ q (es s) = 0
  | ONext q => is_Some (its s !! q) /\ 1 <= held s q
  | ODrop v => holds (held s) v
  end.

Section Steps.
Context (same : JSValue -> JSValue -> option bool) (hash : JSValue -> Z -> bool -> Z) (is_set : bool).

Definition map_step (st : heap) (o : op) : option (answer * heap) :=
  match o with
  | OSet k v => r ← js_map_set same hash st k v; Some (if r.1 : bool then AVoid else AThrow, r.2)
  | OGet k => r ← js_map_get same hash st k; Some (AValue r.1, r.2)
  | OHas k => r ← js_map_has same hash st k; Some (ABool r.1, r.2)
  | OGetOrInsert k v => r ← js_map_getOrInsert same hash st k v; Some (if r.1 is Some x then AValue x else AThrow, r.2)
  | ODelete k => r ← js_map_delete same hash st k; Some (ABool r.1, r.2)
  | OClear => st ← js_map_clear st; Some (AVoid, st)
  | OSize => Some (ASize (js_map_get_size st), st)
  | OIter q kd => let r := js_create_map_iterator st q kd in Some (if r.1 then AVoid else AThrow, r.2)
  | ONext q => r ← js_map_iterator_next is_set st q; Some (AIter r.1, r.2)
  | ODrop v => st ← JS_FreeValue st v; Some (AVoid, st)
  end.

(** A program chooses the next operation from the answers it has had, or stops. *)
Context (prog : list answer -> option op).

Fixpoint map_run (n : nat) (st : heap) (hist : list answer) : option (list answer * heap) :=
  match n with
  | O => Some (hist, st)
  | S n => match prog hist with Some o => r ← map_step st o; map_run n r.2 (hist ++ [r.1]) | None => Some (hist, st) end
  end.

(** [oks]: one answer of the allocator for each operation. *)
Fixpoint spec_run (oks : list bool) (s : spec) (hist : list answer) : list answer * spec :=
  match oks with
  | [] => (hist, s)
  | ok :: oks => match prog hist with Some o => let r := spec_step is_set ok s o in spec_run oks r.2 (hist ++ [r.1]) | None => (hist, s) end
  end.

Fixpoint enabled_run (n : nat) (s : spec) (hist : list answer) : Prop :=
  match n with
  | O => True
  | S n => match prog hist with Some o => enabled s o /\ forall ok, let r := spec_step is_set ok s o in enabled_run n r.2 (hist ++ [r.1]) | None => True end
  end.
End Steps.

(** The empty map. *)
Definition spec_init (h : ptr -> Z) : spec := mk_spec [] ∅ h.
