(* ===== verification/MapInv.v ===== *)
(** * The invariant of a Map

    How the records stand for the list of entries: an entry has the address of
    its record as long as the record exists, which is until the entry is deleted
    and no iterator stands on it.  A record has one reference for its entry and
    one for each iterator, an iterator one for each that the program holds and
    for each entry it is in. *)
From Stdlib Require Import ZArith Lia List.
From stdpp Require Import base numbers option list gmap.
From S2P Require Import Prelude Doubles Strings StrHash MapKeys Maps MapTable MapSpec.

(** ** Iterators that stand on a record *)

Definition stands (it : JSMapIteratorData) (p : ptr) : bool := it_obj it && bool_decide (cur_record it = Some p).
Definition standing (m : gmap ptr JSMapIteratorData) (p : ptr) : Z := Z.of_nat (size (filter (fun x => stands x.2 p = true) m)).
Definition stands_on (it : JSMapIteratorData) (p : ptr) : Z := if stands it p then 1 else 0.

Lemma standing_insert m q it p : m !! q = None -> standing (<[q := it]> m) p = standing m p + stands_on it p.
Proof.
  intros Hq. unfold standing, stands_on. destruct (stands it p) eqn:E.
  - rewrite map_filter_insert_True by done. rewrite map_size_insert_None; [lia|]. apply map_lookup_filter_None. by left.
  - rewrite map_filter_insert_False by (cbn; congruence). rewrite delete_id by done. lia.
Qed.

Lemma standing_delete m q it p : m !! q = Some it -> standing (delete q m) p = standing m p - stands_on it p.
Proof. intros Hq. rewrite <- (insert_delete_id m q it Hq) at 2. rewrite standing_insert by apply lookup_delete_eq. lia. Qed.

Lemma standing_update m q it it' p : m !! q = Some it -> standing (<[q := it']> m) p = standing m p - stands_on it p + stands_on it' p.
Proof. intros Hq. rewrite <- insert_delete_eq. rewrite standing_insert by apply lookup_delete_eq. by rewrite (standing_delete m q it p Hq). Qed.

Lemma standing_nonneg m p : 0 <= standing m p.
Proof. unfold standing. lia. Qed.

Lemma standing_witness m p : 1 <= standing m p -> exists q it, m !! q = Some it /\ stands it p = true.
Proof.
  unfold standing. intros H. destruct (decide (filter (fun x => stands x.2 p = true) m = ∅)) as [E|E]; [rewrite E, map_size_empty in H; lia|]. apply map_choose in E as (q & it & E). apply map_lookup_filter_Some in E as [E1 E2]. by exists q, it.
Qed.

(** ** The invariant *)

Abbreviation ghost := (list (option ptr)).

(** A record stands for an entry. *)
Definition rec_rel (r : JSMapRecord) (e : entry) : Prop :=
  match e with Some (k, v) => empty r = false /\ key r = k /\ value r = v | None => empty r = true end.

(** An iterator stands for a position, [None] when it is over. *)
Definition iter_rel (gs : ghost) (it : JSMapIteratorData) (pos : option nat) : Prop :=
  match it_obj it, cur_record it with
  | false, _ => pos = None
  | true, None => pos = Some 0%nat
  | true, Some p => exists i, gs !! i = Some (Some p) /\ pos = Some (S i)
  end.

(** Keys are normal, well formed and different. *)
Definition es_ok (l : list entry) : Prop :=
  (forall i k v, l !! i = Some (Some (k, v)) -> value_ok k /\ normal k) /\
  (forall i j e e', l !! i = Some (Some e) -> l !! j = Some (Some e') -> key_val e.1 = key_val e'.1 -> i = j).

(** [cnt]: the references to iterators, [ms]: the records in the chains, [extra]:
    references to records that are neither of their entry nor of an iterator. *)
Record core (hash : JSValue -> Z -> bool -> Z) (st : heap) (gs : ghost) (es : list entry) (its : gmap ptr (JSIteratorKindEnum * option nat)) (cnt : ptr -> Z) (ms : list ptr) (extra : ptr -> Z) : Prop := {
  c_records : records (map_state st) = omap id gs;
  c_inj i j p : gs !! i = Some (Some p) -> gs !! j = Some (Some p) -> i = j;
  c_dom p : is_Some (recs st !! p) -> exists i, gs !! i = Some (Some p);
  c_len : length gs = length es;
  c_rec i p : gs !! i = Some (Some p) -> exists r e, recs st !! p = Some r /\ es !! i = Some e /\ rec_rel r e;
  c_hole i : gs !! i = Some None -> es !! i = Some None;
  c_refs p r : recs st !! p = Some r -> ref_count r = (if empty r then 0 else 1) + standing (iters st) p + extra p /\ 1 <= ref_count r;
  c_extra p : 0 <= extra p /\ (recs st !! p = None -> extra p = 0);
  c_iter q it : iters st !! q = Some it -> it_refs it = cnt q /\ 1 <= cnt q /\ exists pos, its !! q = Some (kind it, pos) /\ iter_rel gs it pos;
  c_dead q : is_Some (its !! q) -> iters st !! q = None -> cnt q = 0;
  c_es : es_ok es;
  c_chain : chain_ok hash (hash_bits (map_state st)) (hash_strong (map_state st)) (recs st) (hash_table (map_state st)) ms;
  c_ms p : p ∈ ms -> exists r, recs st !! p = Some r /\ empty r = false;
  c_bits : 1 <= hash_bits (map_state st) <= 31;
  c_count : record_count (map_state st) = live es /\ live es < 2 ^ 32 }.

(** The part of the state that the count of references leaves alone. *)
Definition same_table (st st' : heap) : Prop :=
  let s := map_state st in let s' := map_state st' in
  hash_table s' = hash_table s /\ hash_bits s' = hash_bits s /\ hash_strong s' = hash_strong s /\ record_count s' = record_count s /\ mem st' = mem st.

(** What is left of the records: an empty one may be gone. *)
Definition shrinks (st st' : heap) : Prop :=
  forall p, match recs st !! p with
       | Some r => (exists c, recs st' !! p = Some (with_refs r c)) \/ empty r = true /\ recs st' !! p = None
       | None => recs st' !! p = None
       end.

Section Refs.
Context (hash : JSValue -> Z -> bool -> Z).
Abbreviation core := (core hash).

Lemma core_cnt st gs es its cnt cnt' ms extra : (forall q, cnt' q = cnt q) -> core st gs es its cnt ms extra -> core st gs es its cnt' ms extra.
Proof. intros Hq H. destruct H. constructor; try done. - intros q it Hi. rewrite Hq. eauto. - intros q. rewrite Hq. eauto. Qed.

Lemma core_extra st gs es its cnt ms extra extra' : (forall p, extra' p = extra p) -> core st gs es its cnt ms extra -> core st gs es its cnt ms extra'.
Proof. intros Hq H. destruct H. constructor; try done. - intros p r Hi. rewrite Hq. eauto. - intros p. rewrite Hq. eauto. Qed.

Lemma omap_insert_none (gs : ghost) i p : gs !! i = Some (Some p) -> (forall j, gs !! j = Some (Some p) -> j = i) -> omap id (<[i := None]> gs) = link_del (omap id gs) p.
Proof.
  revert i. induction gs as [|x gs IH]; intros i Hi Hu; [done|]. destruct i as [|i]; cbn in Hi |- *.
  - injection Hi as ->. cbn. rewrite bool_decide_eq_true_2 by done. cbn. fold (link_del (omap id gs) p). symmetry. apply link_del_notin. rewrite list_elem_of_omap. intros (y & Hy & E). cbn in E. subst y. apply list_elem_of_lookup in Hy as (j & Hj). by specialize (Hu (S j) Hj).
  - assert (Hx : x <> Some p) by (intros ->; by specialize (Hu 0%nat eq_refl)). rewrite IH; [|done|intros j Hj; by specialize (Hu (S j) Hj) as [= ->]]. destruct x as [y|]; cbn; [|done]. rewrite bool_decide_eq_false_2 by congruence. done.
Qed.

(** ** Giving up a reference to a record *)

Definition gs_le (gs gs' : ghost) : Prop := forall i p, gs' !! i = Some (Some p) -> gs !! i = Some (Some p).
Definition less (extra : ptr -> Z) (p : ptr) : ptr -> Z := fun x => extra x - (if decide (x = p) then 1 else 0).
Definition more (extra : ptr -> Z) (p : ptr) : ptr -> Z := fun x => extra x + (if decide (x = p) then 1 else 0).

Lemma standing_none m p q it : standing m p = 0 -> m !! q = Some it -> stands it p = false.
Proof. intros H0 Hq. pose proof (standing_delete m q it p Hq) as E. pose proof (standing_nonneg (delete q m) p). unfold stands_on in E. destruct (stands it p); [lia|done]. Qed.

(** A record with another count. *)
Lemma core_refs st gs es its cnt ms extra extra' p r c : core st gs es its cnt ms extra -> recs st !! p = Some r ->
  c = ref_count r - extra p + extra' p /\ 1 <= c -> 0 <= extra' p -> (forall x, x <> p -> extra' x = extra x) -> core (set_recs st (<[p := with_refs r c]> (recs st))) gs es its cnt ms extra'.
Proof.
  intros H Er Hc H0 Hx.
  assert (Hlook : forall x r', <[p := with_refs r c]> (recs st) !! x = Some r' -> exists r0, recs st !! x = Some r0 /\ r' = with_refs r0 (ref_count r')).
  { intros x r'. destruct (decide (x = p)) as [-> |Hxp]; [rewrite lookup_insert_eq; intros [= <-]; by exists r|rewrite lookup_insert_ne by done; intros E; exists r'; split; [done|by destruct r']]. }
  destruct H; constructor; cbn; try done.
  - intros x [r' Hx']. destruct (Hlook x r' Hx') as (r0 & E & _). apply c_dom0. by rewrite E.
  - intros j x Hj. destruct (c_rec0 j x Hj) as (r' & e & E1 & E2 & E3). destruct (decide (x = p)) as [-> |Hxp]; [|rewrite lookup_insert_ne by done; by exists r', e]. rewrite lookup_insert_eq. exists (with_refs r c), e. assert (r' = r) as -> by congruence. by split_and!.
  - intros x r' E. destruct (decide (x = p)) as [-> |Hxp]; [rewrite lookup_insert_eq in E; injection E as <-; cbn; destruct (c_refs0 p r Er); lia|]. rewrite lookup_insert_ne in E by done. rewrite Hx by done. by apply c_refs0.
  - intros x. destruct (decide (x = p)) as [-> |Hxp]; [by rewrite lookup_insert_eq|]. rewrite lookup_insert_ne by done. rewrite Hx by done. apply c_extra0.
  - eapply chain_same; [|done]. intros x _. unfold cnx. destruct (decide (x = p)) as [-> |Hxp]; [by rewrite lookup_insert_eq, Er|by rewrite lookup_insert_ne].
  - intros x Hxm. destruct (c_ms0 x Hxm) as (r' & Er' & Hr'). destruct (decide (x = p)) as [-> |Hxp]; [rewrite lookup_insert_eq; eexists; split; [done|]; cbn; congruence|rewrite lookup_insert_ne by done; by exists r'].
Qed.

Lemma decref_record_spec st gs es its cnt ms extra p : core st gs es its cnt ms extra -> 1 <= extra p ->
  exists st' gs', map_decref_record st p = Some st' /\ core st' gs' es its cnt ms (less extra p) /\ iters st' = iters st /\ same_table st st' /\ shrinks st st' /\ gs_le gs gs'.
Proof.
  intros H Hx. destruct (c_extra _ _ _ _ _ _ _ _ H p) as [_ Hex]. destruct (recs st !! p) as [r|] eqn:Er; [|specialize (Hex eq_refl); lia]. destruct (c_dom _ _ _ _ _ _ _ _ H p) as [i Hi]; [by rewrite Er|].
  destruct (c_refs _ _ _ _ _ _ _ _ H p r Er) as [Erc _]. pose proof (standing_nonneg (iters st) p) as Hst. unfold map_decref_record. rewrite Er. cbn [mbind option_bind]. destruct (Z.eqb_spec (ref_count r - 1) 0) as [E0|E0].
  - assert (He : empty r = true) by (destruct (empty r); [done|lia]). rewrite He in Erc |- *. assert (Hs0 : standing (iters st) p = 0) by lia. assert (Hx1 : extra p = 1) by lia.
    assert (Hiu : forall j, gs !! j = Some (Some p) -> j = i) by (intros j Hj; by apply (c_inj _ _ _ _ _ _ _ _ H j i p)).
    assert (Hlt : (i < length gs)%nat) by (by apply lookup_lt_Some in Hi).
    assert (Hle : gs_le gs (<[i := None]> gs)) by (intros j x Hj; destruct (decide (i = j)) as [<- |Hij]; [by rewrite list_lookup_insert_eq in Hj|by rewrite list_lookup_insert_ne in Hj]).
    assert (Hkeep : forall j x, x <> p -> gs !! j = Some (Some x) -> <[i := None]> gs !! j = Some (Some x)) by (intros j x Hxp Hj; rewrite list_lookup_insert_ne; [done|intros <-; congruence]).
    eexists _, (<[i := None]> gs). split; [reflexivity|]. split; [|split; [done|]; split; [done|]; split; [|done]].
    + destruct H; constructor; cbn; try done.
      * rewrite c_records0. symmetry. by apply omap_insert_none.
      * intros j k x Hj Hk. apply (c_inj0 j k x); by apply Hle.
      * intros x Hsx. destruct (decide (x = p)) as [-> |Hxp]; [rewrite lookup_delete_eq in Hsx; by destruct Hsx|]. rewrite lookup_delete_ne in Hsx by done. destruct (c_dom0 x Hsx) as [j Hj]. exists j. by apply Hkeep.
      * by rewrite length_insert.
      * intros j x Hj. assert (x <> p). { intros ->. pose proof (Hiu j (Hle _ _ Hj)) as ->. by rewrite list_lookup_insert_eq in Hj. } rewrite lookup_delete_ne by done. by apply c_rec0, Hle.
      * intros j Hj. destruct (decide (i = j)) as [<- |Hij]; [|rewrite list_lookup_insert_ne in Hj by done; by apply c_hole0]. destruct (c_rec0 i p Hi) as (r' & e & Er' & Ee & Hr). assert (r' = r) as -> by congruence. destruct e as [[k v]|]; [|done]. destruct Hr as [Hr _]. congruence.
      * intros x r' Er'. destruct (decide (x = p)) as [-> |Hxp]; [by rewrite lookup_delete_eq in Er'|]. rewrite lookup_delete_ne in Er' by done. unfold less. rewrite decide_False by done. rewrite Z.sub_0_r. by apply c_refs0.
      * intros x. unfold less. case_decide as Hxp; [subst x; rewrite lookup_delete_eq; lia|]. rewrite lookup_delete_ne by done. rewrite Z.sub_0_r. apply c_extra0.
      * intros q it Hq. destruct (c_iter0 q it Hq) as (A & B & pos & C & D). split_and!; try done. exists pos. split; [done|]. unfold iter_rel in *. pose proof (standing_none _ _ _ _ Hs0 Hq) as Hsp. unfold stands in Hsp. destruct (it_obj it); [|done]. destruct (cur_record it) as [x|]; [|done].
        destruct D as (j & Hj & ->). exists j. split; [|done]. apply Hkeep; [|done]. intros ->. by rewrite bool_decide_eq_true_2 in Hsp.
      * eapply chain_same; [|done]. intros x Hxm. unfold cnx. rewrite lookup_delete_ne; [done|]. intros <-. destruct (c_ms0 p Hxm) as (r' & Er' & Hr'). congruence.
      * intros x Hxm. destruct (c_ms0 x Hxm) as (r' & Er' & Hr'). exists r'. split; [|done]. rewrite lookup_delete_ne; [done|]. intros <-. congruence.
    + intros x. cbn. destruct (decide (x = p)) as [-> |Hxp]; [rewrite Er, lookup_delete_eq; by right|]. rewrite lookup_delete_ne by done. destruct (recs st !! x) as [r'|]; [|done]. left. exists (ref_count r'). by destruct r'.
  - eexists _, gs. split; [reflexivity|]. split; [|split; [done|]; split; [done|]; split; [|by intros ? ?]].
    + apply (core_refs st gs es its cnt ms extra (less extra p) p r _ H Er); [|unfold less; rewrite decide_True by done; lia|intros x Hxp; unfold less; rewrite decide_False by done; lia]. unfold less. rewrite decide_True by done. destruct (c_refs _ _ _ _ _ _ _ _ H p r Er). lia.
    + intros x. cbn. destruct (decide (x = p)) as [-> |Hxp]; [rewrite Er, lookup_insert_eq; left; by eexists|]. rewrite lookup_insert_ne by done. destruct (recs st !! x) as [r'|]; [|done]. left. exists (ref_count r'). by destruct r'.
Qed.

(** ** References to iterators *)

(** Other iterators, with the references to records they have or give back. *)
Lemma core_iters st gs es its its' cnt cnt' ms extra extra' m : core st gs es its cnt ms extra ->
  (forall p, standing m p + extra' p = standing (iters st) p + extra p) -> (forall p, 0 <= extra' p /\ (recs st !! p = None -> extra' p = 0)) ->
  (forall q it, m !! q = Some it -> it_refs it = cnt' q /\ 1 <= cnt' q /\ exists pos, its' !! q = Some (kind it, pos) /\ iter_rel gs it pos) ->
  (forall q, is_Some (its' !! q) -> m !! q = None -> cnt' q = 0) -> core (set_iters st m) gs es its' cnt' ms extra'.
Proof. intros H Hs Hx Hi Hd. destruct H; constructor; cbn; try done. intros p r Er. destruct (c_refs0 p r Er). specialize (Hs p). lia. Qed.

(** Only the count of references to an iterator changes. *)
Lemma core_it_refs st gs es its cnt cnt' ms extra q it c : core st gs es its cnt ms extra -> iters st !! q = Some it -> c = cnt' q -> 1 <= c -> (forall x, x <> q -> cnt' x = cnt x) ->
  core (set_iters st (<[q := mk_it (it_obj it) (kind it) (cur_record it) c]> (iters st))) gs es its cnt' ms extra.
Proof.
  intros H Hq Hc H1 Hx. apply (core_iters st gs es its its cnt cnt' ms extra extra _ H).
  - intros p. rewrite (standing_update _ q it) by done. unfold stands_on, stands. cbn. lia.
  - apply (c_extra _ _ _ _ _ _ _ _ H).
  - intros x it' E. destruct (decide (x = q)) as [-> |Hxq].
    + rewrite lookup_insert_eq in E. injection E as <-. cbn. destruct (c_iter _ _ _ _ _ _ _ _ H q it Hq) as (_ & _ & pos & A & B). split_and!; [done|lia|]. by exists pos.
    + rewrite lookup_insert_ne in E by done. rewrite Hx by done. by apply (c_iter _ _ _ _ _ _ _ _ H).
  - intros x Hsx E. destruct (decide (x = q)) as [-> |Hxq]; [by rewrite lookup_insert_eq in E|]. rewrite lookup_insert_ne in E by done. rewrite Hx by done. by apply (c_dead _ _ _ _ _ _ _ _ H).
Qed.

Lemma obj_is_ne q x : x <> q -> obj_is x (JS_OBJECT q) = 0.
Proof. intros Hx. cbn. by rewrite bool_decide_eq_false_2 by congruence. Qed.

Lemma obj_is_eq q : obj_is q (JS_OBJECT q) = 1.
Proof. cbn. by rewrite bool_decide_eq_true_2. Qed.

Lemma dup_spec st gs es its cnt ms extra v : core st gs es its cnt ms extra -> holds cnt v -> 
  core (JS_DupValue st v) gs es its (give cnt v) ms extra /\ map_state (JS_DupValue st v) = map_state st /\ recs (JS_DupValue st v) = recs st /\ mem (JS_DupValue st v) = mem st /\
  (forall q, iters (JS_DupValue st v) !! q = None <-> iters st !! q = None).
Proof.
  intros H Hv. assert (Hsame : core st gs es its (give cnt v) ms extra -> JS_DupValue st v = st -> core (JS_DupValue st v) gs es its (give cnt v) ms extra /\ map_state (JS_DupValue st v) = map_state st /\ recs (JS_DupValue st v) = recs st /\ mem (JS_DupValue st v) = mem st /\ (forall q, iters (JS_DupValue st v) !! q = None <-> iters st !! q = None)) by (intros Hc ->; done).
  destruct v as [| | | | | | | |q| |]; try (apply Hsame; [|done]; eapply core_cnt; [|exact H]; intros x; unfold give; cbn; lia).
  cbn in Hv. destruct (iters st !! q) as [it|] eqn:Eq.
  - cbn [JS_DupValue]. rewrite Eq. cbn. split; [|split_and!; try done; intros x; destruct (decide (x = q)) as [-> |Hxq]; [by rewrite lookup_insert_eq, Eq|by rewrite lookup_insert_ne]]. destruct (c_iter _ _ _ _ _ _ _ _ H q it Eq) as (A & _ & _).
    apply (core_it_refs st gs es its cnt); [done|done| |lia|]; [unfold give; rewrite obj_is_eq; lia|]. intros x Hx. unfold give. rewrite obj_is_ne by done. lia.
  - apply Hsame; [|cbn; by rewrite Eq]. destruct H; constructor; try done.
    + intros x it Ex. unfold give. rewrite obj_is_ne by congruence. rewrite Z.add_0_r. by apply c_iter0.
    + intros x Hsx Ex. unfold give. destruct (decide (x = q)) as [-> |Hxq]; [rewrite (c_dead0 q) in Hv by done; lia|]. rewrite obj_is_ne by done. rewrite c_dead0 by done. lia.
Qed.

(** Reading the list and writing iterators do not interfere. *)
Lemma decref_iters st m p : map_decref_record (set_iters st m) p = (fun st' => set_iters st' m) <$> map_decref_record st p.
Proof. unfold map_decref_record. cbn. destruct (recs st !! p) as [r|]; [|done]. cbn. destruct (ref_count r - 1 =? 0); [|done]. by destruct (empty r). Qed.

Lemma same_table_refl st : same_table st st.
Proof. by split_and!. Qed.

Lemma shrinks_refl st : shrinks st st.
Proof. intros p. destruct (recs st !! p) as [r|]; [|done]. left. exists (ref_count r). by destruct r. Qed.

Lemma gs_le_refl gs : gs_le gs gs.
Proof. by intros i p. Qed.

Lemma more_less extra p x : less (more extra p) p x = extra x.
Proof. unfold less, more. case_decide; lia. Qed.

(** The record of an iterator, if it stands on one. *)
Definition stand_rec (it : JSMapIteratorData) : option ptr := if it_obj it then cur_record it else None.

Lemma stands_rec it p : stands it p = bool_decide (stand_rec it = Some p).
Proof. unfold stands, stand_rec. destruct (it_obj it); [done|]. cbn. symmetry. by apply bool_decide_eq_false_2. Qed.

Definition more_of (extra : ptr -> Z) (o : option ptr) : ptr -> Z := match o with Some p => more extra p | None => extra end.

Lemma more_of_stands extra it p : more_of extra (stand_rec it) p = extra p + stands_on it p.
Proof. unfold stands_on. rewrite stands_rec. destruct (stand_rec it) as [x|]; cbn [more_of]; [|rewrite bool_decide_eq_false_2 by done; lia]. unfold more. case_decide; case_bool_decide; try lia; congruence. Qed.

(** An iterator on a record keeps it. *)
Lemma stand_rec_some st gs es its cnt ms extra q it p : core st gs es its cnt ms extra -> iters st !! q = Some it -> stand_rec it = Some p -> is_Some (recs st !! p).
Proof.
  intros H Hq Hp. destruct (c_iter _ _ _ _ _ _ _ _ H q it Hq) as (_ & _ & pos & _ & R). unfold stand_rec, iter_rel in *. destruct (it_obj it); [|done]. rewrite Hp in R. destruct R as (i & Hi & _). destruct (c_rec _ _ _ _ _ _ _ _ H i p Hi) as (r & _ & -> & _). by eexists.
Qed.

Lemma more_of_ok st gs es its cnt ms extra q it : core st gs es its cnt ms extra -> iters st !! q = Some it ->
  forall p, 0 <= more_of extra (stand_rec it) p /\ (recs st !! p = None -> more_of extra (stand_rec it) p = 0).
Proof.
  intros H Hq p. destruct (c_extra _ _ _ _ _ _ _ _ H p) as [A B]. rewrite more_of_stands. unfold stands_on. rewrite stands_rec. case_bool_decide as Hp; [|by rewrite Z.add_0_r]. split; [lia|]. intros E. destruct (stand_rec_some _ _ _ _ _ _ _ _ _ _ H Hq Hp) as [r Er]. congruence.
Qed.

Lemma decref_same_iters st st' p : map_decref_record st p = Some st' -> iters st' = iters st.
Proof. unfold map_decref_record. destruct (recs st !! p) as [r|]; [|done]. cbn. destruct (ref_count r - 1 =? 0); [destruct (empty r)|]; intros [= <-]; done. Qed.

(** What giving up references can do to a map. *)
Record evolves (st : heap) (gs : ghost) (st' : heap) (gs' : ghost) : Prop := {
  ev_table : same_table st st';
  ev_recs : shrinks st st';
  ev_gs : gs_le gs gs';
  ev_iters q : iters st !! q = None -> iters st' !! q = None }.

Lemma evolves_refl st gs : evolves st gs st gs.
Proof. split; [apply same_table_refl|apply shrinks_refl|apply gs_le_refl|done]. Qed.

Lemma shrinks_trans st1 st2 st3 : shrinks st1 st2 -> shrinks st2 st3 -> shrinks st1 st3.
Proof.
  intros H1 H2 p. specialize (H1 p). specialize (H2 p). destruct (recs st1 !! p) as [r|]; [|by rewrite H1 in H2]. destruct H1 as [[c E]|[He E]]; rewrite E in H2; [|by right]. destruct H2 as [[c' E']|[He E']]; [left; exists c'; by rewrite E'|by right].
Qed.

Lemma evolves_trans st1 gs1 st2 gs2 st3 gs3 : evolves st1 gs1 st2 gs2 -> evolves st2 gs2 st3 gs3 -> evolves st1 gs1 st3 gs3.
Proof.
  intros [(A1 & A2 & A3 & A4 & A5) B C D] [(E1 & E2 & E3 & E4 & E5) F G I]. split; [unfold same_table; split_and!; congruence|by apply (shrinks_trans _ st2)|intros i p Hp; by apply C, G|intros q Hq; by apply I, D].
Qed.

(** A record that is not empty stays, with its key and value. *)
Lemma evolves_live st gs st' gs' p r : evolves st gs st' gs' -> recs st !! p = Some r -> empty r = false -> exists c, recs st' !! p = Some (with_refs r c).
Proof. intros [_ H _ _] Hp He. specialize (H p). rewrite Hp in H. destruct H as [H|[H _]]; [done|congruence]. Qed.

Lemma iter_detach st gs es its cnt ms extra q it : core st gs es its cnt ms extra -> iters st !! q = Some it -> it_refs it = 1 ->
  core (set_iters st (delete q (iters st))) gs es its (release cnt (JS_OBJECT q)) ms (more_of extra (stand_rec it)).
Proof.
  intros H Hq H1. destruct (c_iter _ _ _ _ _ _ _ _ H q it Hq) as (A & _ & _). apply (core_iters st gs es its its cnt _ ms extra _ _ H).
  - intros p. rewrite (standing_delete _ q it), more_of_stands by done. lia.
  - by apply (more_of_ok st gs es its cnt ms extra q it).
  - intros x it' E. destruct (decide (x = q)) as [-> |Hxq]; [by rewrite lookup_delete_eq in E|]. rewrite lookup_delete_ne in E by done. unfold release. rewrite obj_is_ne by done. rewrite Z.sub_0_r. by apply (c_iter _ _ _ _ _ _ _ _ H).
  - intros x Hsx E. unfold release. destruct (decide (x = q)) as [-> |Hxq]; [rewrite obj_is_eq; lia|]. rewrite lookup_delete_ne in E by done. rewrite obj_is_ne by done. rewrite Z.sub_0_r. by apply (c_dead _ _ _ _ _ _ _ _ H).
Qed.

Lemma finalizer_spec st gs es its cnt ms extra q it : core st gs es its cnt ms extra -> iters st !! q = Some it -> it_refs it = 1 ->
  exists st' gs', js_map_iterator_finalizer st q = Some st' /\ core st' gs' es its (release cnt (JS_OBJECT q)) ms extra /\ evolves st gs st' gs'.
Proof.
  intros H Hq H1. pose proof (iter_detach _ _ _ _ _ _ _ _ _ H Hq H1) as HD. unfold js_map_iterator_finalizer. rewrite Hq. cbn [mbind option_bind]. 
  assert (Hdel : forall x, iters st !! x = None -> delete q (iters st) !! x = None) by (intros x Hx; destruct (decide (x = q)) as [-> |Hxq]; [apply lookup_delete_eq|by rewrite lookup_delete_ne]).
  unfold stand_rec in HD. destruct (it_obj it), (cur_record it) as [p|]; try (eexists _, gs; split; [reflexivity|]; split; [exact HD|]; split; [exact (same_table_refl st)|exact (shrinks_refl st)|apply gs_le_refl|done]).
  cbn [more_of] in HD. destruct (decref_record_spec _ _ _ _ _ _ _ p HD) as (st' & gs' & E & C & I & T & S & G); [unfold more; rewrite decide_True by done; pose proof (proj1 (c_extra _ _ _ _ _ _ _ _ H p)); lia|].
  rewrite decref_iters in E. destruct (map_decref_record st p) as [st1|] eqn:E1; [|done]. injection E as <-. cbn [mbind option_bind]. rewrite (decref_same_iters _ _ _ E1). eexists _, gs'. split; [reflexivity|]. split; [|split; [exact T|exact S|exact G|exact Hdel]]. eapply core_extra; [|exact C]. intros x. by rewrite more_less.
Qed.

Lemma free_spec st gs es its cnt ms extra v : core st gs es its cnt ms extra -> holds cnt v ->
  exists st' gs', JS_FreeValue st v = Some st' /\ core st' gs' es its (release cnt v) ms extra /\ evolves st gs st' gs'.
Proof.
  intros H Hv. assert (Hsame : core st gs es its (release cnt v) ms extra -> JS_FreeValue st v = Some st -> exists st' gs', JS_FreeValue st v = Some st' /\ core st' gs' es its (release cnt v) ms extra /\ evolves st gs st' gs') by (intros Hc ->; exists st, gs; split_and!; [done|done|apply evolves_refl]).
  destruct v as [| | | | | | | |q| |]; try (apply Hsame; [|done]; eapply core_cnt; [|exact H]; intros x; unfold release; cbn; lia).
  cbn in Hv. destruct (iters st !! q) as [it|] eqn:Eq.
  - cbn [JS_FreeValue]. rewrite Eq. destruct (c_iter _ _ _ _ _ _ _ _ H q it Eq) as (A & _ & _). destruct (Z.eqb_spec (it_refs it - 1) 0) as [E|E]; [apply (finalizer_spec st gs es its cnt ms extra q it H Eq); lia|].
    eexists _, gs. split; [reflexivity|]. split.
    + apply (core_it_refs st gs es its cnt); [done|done| |lia|]; [unfold release; rewrite obj_is_eq; lia|]. intros x Hx. unfold release. rewrite obj_is_ne by done. lia.
    + split; [exact (same_table_refl st)|exact (shrinks_refl st)|apply gs_le_refl|]. intros x Hx. cbn. destruct (decide (x = q)) as [-> |Hxq]; [congruence|by rewrite lookup_insert_ne].
  - apply Hsame; [|cbn; by rewrite Eq]. destruct H; constructor; try done.
    + intros x it Ex. unfold release. rewrite obj_is_ne by congruence. rewrite Z.sub_0_r. by apply c_iter0.
    + intros x Hsx Ex. unfold release. destruct (decide (x = q)) as [-> |Hxq]; [rewrite (c_dead0 q) in Hv by done; lia|]. rewrite obj_is_ne by done. rewrite c_dead0 by done. lia.
Qed.

(** A value that is not an iterator changes nothing. *)
Lemma free_other st v : (forall q, v = JS_OBJECT q -> iters st !! q = None) -> JS_FreeValue st v = Some st.
Proof. intros H. destruct v; try done. cbn. by rewrite (H p eq_refl). Qed.
End Refs.

#[export] Hint Resolve gs_le_refl same_table_refl shrinks_refl evolves_refl : core.
