(* ===== verification/MapOps.v ===== *)
(** * The operations of a Map

    Each operation of the code on a state that satisfies the invariant, and the
    state of the list after it. *)
From Stdlib Require Import ZArith Lia List.
From stdpp Require Import base numbers option list gmap.
From S2P Require Import Prelude Doubles Strings StrHash MapKeys Maps MapTable MapSpec MapInv.

(** ** The list of entries *)

Lemma find_entry_some l k i e : find_entry l k = Some (i, e) -> l !! i = Some (Some e) /\ key_val e.1 = key_val k.
Proof.
  revert i. induction l as [|x l IH]; intros i; [done|]. assert (Hr : prod_map S id <$> find_entry l k = Some (i, e) -> (x :: l) !! i = Some (Some e) /\ key_val e.1 = key_val k).
  { destruct (find_entry l k) as [[j e']|]; [|done]. intros [= <- <-]. by apply IH. }
  cbn. destruct x as [e'|]; [|done]. case_bool_decide; [|done]. by intros [= <- <-].
Qed.

Lemma find_entry_none l k i e : find_entry l k = None -> l !! i = Some (Some e) -> key_val e.1 <> key_val k.
Proof.
  revert i. induction l as [|x l IH]; intros i; [done|]. cbn. destruct x as [e'|].
  - case_bool_decide as Hd; [done|]. destruct (find_entry l k) eqn:E; [done|]. intros _. destruct i as [|i]; [by intros [= <-]|by apply IH].
  - destruct (find_entry l k) eqn:E; [done|]. intros _. destruct i as [|i]; [done|by apply IH].
Qed.

Lemma find_entry_unique l k i e : es_ok l -> l !! i = Some (Some e) -> key_val e.1 = key_val k -> find_entry l k = Some (i, e).
Proof.
  intros [_ Hu] Hi Hk. destruct (find_entry l k) as [[j e']|] eqn:E; [|by destruct (find_entry_none l k i e E Hi)]. destruct (find_entry_some l k j e' E) as [Hj Hk']. assert (j = i) as -> by (apply (Hu j i e' e); congruence). congruence.
Qed.

Lemma find_entry_key l k k' : key_val k = key_val k' -> find_entry l k = find_entry l k'.
Proof. intros E. induction l as [|x l IH]; [done|]. cbn. by rewrite IH, E. Qed.

Section Ops.
Context (same : JSValue -> JSValue -> option bool) (hash : JSValue -> Z -> bool -> Z) `{HK : !MapKey same hash}.
Abbreviation core := (core hash).

(** Every record that is not empty is in a chain. *)
Definition full (st : heap) (ms : list ptr) : Prop := forall p r, recs st !! p = Some r -> empty r = false -> p ∈ ms.

Lemma same_recs_some rs rs' p r : same_recs rs rs' -> rs !! p = Some r -> exists n, rs' !! p = Some (with_next r n).
Proof. intros H E. specialize (H p). rewrite E in H. destruct (rs' !! p) as [r'|]; [|done]. exists (hash_next r'). destruct r, r'. unfold with_next in *. cbn in H |- *. congruence. Qed.

Lemma same_recs_back rs rs' p r : same_recs rs rs' -> rs' !! p = Some r -> exists n, rs !! p = Some (with_next r n).
Proof. intros H. apply same_recs_some. intros x. by rewrite H. Qed.

(** Other chains over the same records. *)
Lemma core_rehash st gs es its cnt ms extra m rs' ms' f : core st gs es its cnt ms extra -> same_recs (recs st) rs' ->
  records m = records (map_state st) -> record_count m = record_count (map_state st) -> 1 <= hash_bits m <= 31 -> chain_ok hash (hash_bits m) (hash_strong m) rs' (hash_table m) ms' ->
  (forall p, p ∈ ms' -> exists r, recs st !! p = Some r /\ empty r = false) -> core (mk_heap m rs' (iters st) f) gs es its cnt ms' extra.
Proof.
  intros H Hs E1 E2 Hb Hc Hm. destruct H; constructor; cbn; try done.
  - congruence.
  - intros p [r Hp]. destruct (same_recs_back _ _ _ _ Hs Hp) as [n Hn]. apply c_dom. by rewrite Hn.
  - intros i p Hi. destruct (c_rec i p Hi) as (r & e & Er & Ee & Hr). destruct (same_recs_some _ _ _ _ Hs Er) as [n Hn]. exists (with_next r n), e. by destruct e as [[]|].
  - intros p r Er. destruct (same_recs_back _ _ _ _ Hs Er) as [n Hn]. apply (c_refs p _ Hn).
  - intros p. destruct (c_extra p) as [A B]. split; [done|]. intros E. apply B. destruct (recs st !! p) as [r|] eqn:Er; [|done]. destruct (same_recs_some _ _ _ _ Hs Er). congruence.
  - intros p Hp. destruct (Hm p Hp) as (r & Er & He). destruct (same_recs_some _ _ _ _ Hs Er) as [n Hn]. by exists (with_next r n).
  - by rewrite E2.
Qed.

Lemma in_records st gs es its cnt ms extra p : core st gs es its cnt ms extra -> p ∈ records (map_state st) <-> is_Some (recs st !! p).
Proof.
  intros H. rewrite (c_records _ _ _ _ _ _ _ _ H), list_elem_of_omap. split.
  - intros (x & Hx & E). cbn in E. subst x. apply list_elem_of_lookup in Hx as [i Hi]. destruct (c_rec _ _ _ _ _ _ _ _ H i p Hi) as (r & _ & -> & _). by eexists.
  - intros Hp. destruct (c_dom _ _ _ _ _ _ _ _ H p Hp) as [i Hi]. exists (Some p). split; [by apply list_elem_of_lookup; exists i|done].
Qed.

Lemma nodup_omap (gs : ghost) : (forall i j p, gs !! i = Some (Some p) -> gs !! j = Some (Some p) -> i = j) -> NoDup (omap id gs).
Proof.
  induction gs as [|x gs IH]; intros H; [constructor|]. assert (IH' : NoDup (omap id gs)) by (apply IH; intros i j p Hi Hj; by specialize (H (S i) (S j) p Hi Hj) as [= ->]). destruct x as [p|]; cbn; [|done]. constructor; [|done].
  rewrite list_elem_of_omap. intros (y & Hy & E). cbn in E. subst y. apply list_elem_of_lookup in Hy as [j Hj]. by specialize (H 0%nat (S j) p eq_refl Hj).
Qed.

Lemma live_ms st gs es its cnt ms extra : core st gs es its cnt ms extra -> live_in (recs st) ms /\ forall p, p ∈ ms -> p ∈ records (map_state st).
Proof.
  intros H. split; intros p Hp; destruct (c_ms _ _ _ _ _ _ _ _ H p Hp) as (r & Er & He); [|apply (in_records _ _ _ _ _ _ _ _ H); by rewrite Er].
  exists r. split; [done|]. split; [done|]. destruct (c_dom _ _ _ _ _ _ _ _ H p) as [i Hi]; [by rewrite Er|]. destruct (c_rec _ _ _ _ _ _ _ _ H i p Hi) as (r' & e & Er' & Ee & Hr). assert (r' = r) as -> by congruence.
  destruct e as [[k v]|]; cbn in Hr; [|congruence]. destruct Hr as (_ & -> & _). by apply (c_es _ _ _ _ _ _ _ _ H) in Ee.
Qed.

Lemma full_rehash st gs es its cnt ms extra bits strong n : core st gs es its cnt ms extra -> 1 <= bits <= 31 -> Z.of_nat n = 2 ^ bits ->
  exists t rs ms', rehash hash bits strong (records (map_state st)) (replicate n None, recs st) = Some (t, rs) /\ chain_ok hash bits strong rs t ms' /\ same_recs (recs st) rs /\
    (forall p, p ∈ ms' <-> exists r, recs st !! p = Some r /\ empty r = false).
Proof.
  intros H Hb Hn. destruct (rehash_map_spec hash bits strong (fun v => mk_range v bits strong Hb) (recs st) (replicate n None) [] (records (map_state st))) as (t & rs & ms' & E & C & S & M).
  - by apply chain_empty.
  - rewrite (c_records _ _ _ _ _ _ _ _ H). apply nodup_omap, (c_inj _ _ _ _ _ _ _ _ H).
  - intros p _. apply not_elem_of_nil.
  - intros p Hp. by apply (in_records _ _ _ _ _ _ _ _ H).
  - exists t, rs, ms'. split_and!; try done. intros p. rewrite M, elem_of_nil. split; [tauto|]. intros (r & Er & He). right. split; [|by exists r]. apply (in_records _ _ _ _ _ _ _ _ H). by rewrite Er.
Qed.

(** ** Finding a record *)

Definition found_at (st : heap) (gs : ghost) (es : list entry) (k : JSValue) (p : ptr) : Prop :=
  exists i r e, gs !! i = Some (Some p) /\ recs st !! p = Some r /\ empty r = false /\ key r = e.1 /\ value r = e.2 /\ find_entry es k = Some (i, e).

Lemma has_key_found st gs es its cnt ms extra k p : core st gs es its cnt ms extra -> p ∈ ms -> has_key (recs st) k p -> found_at st gs es k p.
Proof.
  intros H Hp (r & Er & Hk). destruct (c_ms _ _ _ _ _ _ _ _ H p Hp) as (r' & Er' & He). assert (r' = r) as -> by congruence. destruct (c_dom _ _ _ _ _ _ _ _ H p) as [i Hi]; [by rewrite Er|]. destruct (c_rec _ _ _ _ _ _ _ _ H i p Hi) as (r' & e & E1 & Ee & Hr). assert (r' = r) as -> by congruence.
  destruct e as [[k0 v0]|]; cbn in Hr; [|congruence]. destruct Hr as (_ & <- & <-). exists i, r, (key r, value r). split_and!; try done. apply find_entry_unique; [apply (c_es _ _ _ _ _ _ _ _ H)|done|done].
Qed.

Lemma no_key_missing st gs es its cnt ms extra k : core st gs es its cnt ms extra -> full st ms -> (forall p, p ∈ ms -> ~ has_key (recs st) k p) -> find_entry es k = None.
Proof.
  intros H Hf Hn. destruct (find_entry es k) as [[i e]|] eqn:E; [|done]. exfalso. destruct (find_entry_some _ _ _ _ E) as [Hi Hk]. pose proof (lookup_lt_Some _ _ _ Hi) as Hlt. rewrite <- (c_len _ _ _ _ _ _ _ _ H) in Hlt. apply lookup_lt_is_Some_2 in Hlt as [[p|] Hp].
  - destruct (c_rec _ _ _ _ _ _ _ _ H i p Hp) as (r & e' & Er & Ee & Hr). assert (e' = Some e) as -> by congruence. destruct e as [k0 v0]. cbn in Hr. destruct Hr as (He & Hkr & _). apply (Hn p); [by apply (Hf p r)|]. exists r. split; [done|]. by rewrite Hkr.
  - apply (c_hole _ _ _ _ _ _ _ _ H) in Hp. congruence.
Qed.

Lemma look_spec st gs es its cnt ms extra k : core st gs es its cnt ms extra -> full st ms -> value_ok k -> normal k ->
  exists f, (mr ← aread (hash_table (map_state st)) (hash k (hash_bits (map_state st)) (hash_strong (map_state st))); map_find_loop same (length (records (map_state st))) st k mr 0) = Some f /\
    match f with Found p => found_at st gs es k p | Missing => find_entry es k = None | Flood => hash_strong (map_state st) = false end.
Proof.
  intros H Hf Hk Hn. destruct (live_ms _ _ _ _ _ _ _ H) as [Hl Hm].
  destruct (chain_of_key hash _ _ same _ _ ms (records (map_state st)) k (c_chain _ _ _ _ _ _ _ _ H) (c_bits _ _ _ _ _ _ _ _ H) Hl Hm Hk Hn) as (chains & h & js & -> & _ & _ & _ & _ & _ & _ & Hc & Hlen & Hlj & Hms & Hkey). cbn [mbind option_bind].
  destruct (map_find_loop_spec hash same _ st k js h 0 Hc Hlen Hlj Hk) as (f & Ef & Hr). exists f. split; [exact Ef|]. destruct f; [|eapply no_key_missing; [done|done|]; intros q Hq Hh; apply (Hr q); [by apply Hkey|done]|done].
  destruct Hr as [Hp Hh]. apply (has_key_found st gs es its cnt ms extra); [done|by apply Hms|done].
Qed.

Lemma map_harden_spec st gs es its cnt ms extra : core st gs es its cnt ms extra ->
  exists st' ms', map_hash_harden hash st = Some st' /\ core st' gs es its cnt ms' extra /\ full st' ms' /\ iters st' = iters st /\ mem st' = mem st /\ hash_strong (map_state st') = true.
Proof.
  intros H. unfold map_hash_harden. destruct (full_rehash _ _ _ _ _ _ _ (hash_bits (map_state st)) true (length (hash_table (map_state st))) H (c_bits _ _ _ _ _ _ _ _ H) (proj1 (c_chain _ _ _ _ _ _ _ _ H))) as (t & rs & ms' & -> & C & S & M). cbn [mbind option_bind fst snd].
  eexists _, ms'. split; [reflexivity|]. split_and!; try done.
  - apply (core_rehash st gs es its cnt ms extra); try done; [apply (c_bits _ _ _ _ _ _ _ _ H)|intros p Hp; by apply M].
  - intros p r Er He. cbn in Er. apply M. destruct (same_recs_back _ _ _ _ S Er) as [n Hn]. by exists (with_next r n).
Qed.

Lemma map_find_spec st gs es its cnt ms extra k : core st gs es its cnt ms extra -> full st ms -> value_ok k -> normal k ->
  exists o st' ms', map_find_record same hash st k = Some (o, st') /\ core st' gs es its cnt ms' extra /\ full st' ms' /\ iters st' = iters st /\ mem st' = mem st /\
    match o with Some p => found_at st' gs es k p | None => find_entry es k = None end.
Proof.
  intros H Hf Hk Hn. unfold map_find_record. destruct (look_spec _ _ _ _ _ _ _ k H Hf Hk Hn) as (f & -> & Hr). cbn [mbind option_bind]. destruct f as [p| |].
  - by exists (Some p), st, ms.
  - by exists None, st, ms.
  - destruct (map_harden_spec _ _ _ _ _ _ _ H) as (st' & ms' & -> & H' & Hf' & Ei & Em & Es). cbn [mbind option_bind]. destruct (look_spec _ _ _ _ _ _ _ k H' Hf' Hk Hn) as (f & -> & Hr'). cbn [mbind option_bind]. destruct f as [p| |]; [by exists (Some p), st', ms'|by exists None, st', ms'|congruence].
Qed.

(** ** Adding a record *)

Lemma map_resize_spec st gs es its cnt ms extra : core st gs es its cnt ms extra -> full st ms ->
  exists st' ms', map_hash_resize hash st = Some st' /\ core st' gs es its cnt ms' extra /\ full st' ms' /\ same_recs (recs st) (recs st') /\ mem st' = tl (mem st).
Proof.
  intros H Hf. unfold map_hash_resize. cbn [js_malloc]. pose proof (c_bits _ _ _ _ _ _ _ _ H) as Hb. destruct (hd true (mem st)) eqn:Em; cbn [negb].
  - set (b := Z.min (hash_bits (map_state st) + 1) 31). assert (Hb' : 1 <= b <= 31) by lia. rewrite Z.shiftl_1_l. cbn [recs].
    destruct (full_rehash _ _ _ _ _ _ _ b (hash_strong (map_state st)) (Z.to_nat (2 ^ b)) H Hb') as (t & rs & ms' & -> & C & S & M); [rewrite Z2Nat.id; [done|apply Z.pow_nonneg; lia]|]. cbn [mbind option_bind fst snd].
    eexists _, ms'. split; [reflexivity|]. split_and!; try done.
    + apply (core_rehash st gs es its cnt ms extra); try done. intros p Hp. by apply M.
    + intros p r Er He. cbn in Er. apply M. destruct (same_recs_back _ _ _ _ S Er) as [n Hn]. by exists (with_next r n).
  - eexists _, ms. split; [reflexivity|]. split_and!; try done. apply (core_rehash st gs es its cnt ms extra); try done; [apply (c_chain _ _ _ _ _ _ _ _ H)|apply (c_ms _ _ _ _ _ _ _ _ H)].
Qed.

Lemma live_app l l' : live (l ++ l') = live l + live l'.
Proof. unfold live. rewrite omap_app, length_app. lia. Qed.

Lemma live_nonneg l : 0 <= live l.
Proof. unfold live. lia. Qed.

Lemma es_ok_add l k v : es_ok l -> find_entry l k = None -> value_ok k -> normal k -> es_ok (l ++ [Some (k, v)]).
Proof.
  intros [H1 H2] Hn Hk Hnk. assert (Hl : forall i e, (l ++ [Some (k, v)]) !! i = Some (Some e) -> l !! i = Some (Some e) \/ i = length l /\ e = (k, v)).
  { intros i e Hi. apply lookup_app_Some in Hi as [Hi|[Hle Hi]]; [by left|right]. apply list_lookup_singleton_Some in Hi as [Hi E]. split; [lia|congruence]. }
  split.
  - intros i k0 v0 Hi. destruct (Hl _ _ Hi) as [Hi'|[_ [= -> ->]]]; [by apply (H1 i k0 v0)|done].
  - intros i j e e' Hi Hj Ek. destruct (Hl _ _ Hi) as [Hi'|[-> ->]], (Hl _ _ Hj) as [Hj'|[-> ->]]; [by apply (H2 i j e e')| | |done].
    + by destruct (find_entry_none l k i e Hn Hi').
    + by destruct (find_entry_none l k j e' Hn Hj').
Qed.

Lemma fresh_standing st gs es its cnt ms extra p : core st gs es its cnt ms extra -> recs st !! p = None -> standing (iters st) p = 0.
Proof.
  intros H Hp. pose proof (standing_nonneg (iters st) p). destruct (decide (1 <= standing (iters st) p)) as [Hs|Hs]; [|lia]. apply standing_witness in Hs as (q & it & Hq & Hst). rewrite stands_rec in Hst. apply bool_decide_eq_true in Hst. destruct (stand_rec_some _ _ _ _ _ _ _ _ _ _ _ H Hq Hst). congruence.
Qed.

(** A new record at the end of the list. *)
Lemma core_add st gs es its cnt ms extra p r t n k : core st gs es its cnt ms extra -> recs st !! p = None -> r = mk_rec 1 false n k JS_UNDEFINED ->
  find_entry es k = None -> value_ok k -> normal k -> live es + 1 < 2 ^ 32 ->
  chain_ok hash (hash_bits (map_state st)) (hash_strong (map_state st)) (<[p := r]> (recs st)) t (p :: ms) ->
  core (mk_heap (with_records (with_table (map_state st) t (hash_strong (map_state st))) (records (map_state st) ++ [p]) (u32 (record_count (map_state st) + 1))) (<[p := r]> (recs st)) (iters st) (mem st))
    (gs ++ [Some p]) (es ++ [Some (k, JS_UNDEFINED)]) its cnt (p :: ms) extra.
Proof.
  intros H Hp Hr Hn Hk Hnk Hlive Hc. pose proof (fresh_standing _ _ _ _ _ _ _ _ H Hp) as Hs0. pose proof (live_nonneg es) as H0.
  assert (Hg : forall i x, (gs ++ [Some p]) !! i = Some (Some x) -> (gs !! i = Some (Some x) /\ x <> p) \/ i = length gs /\ x = p).
  { intros i x Hi. apply lookup_app_Some in Hi as [Hi|[Hle Hi]]; [|right; apply list_lookup_singleton_Some in Hi as [Hi E]; split; [lia|congruence]]. left. split; [done|]. intros ->. destruct (c_rec _ _ _ _ _ _ _ _ H i p Hi) as (? & _ & ? & _). congruence. }
  assert (Hl1 : live (es ++ [Some (k, JS_UNDEFINED)]) = live es + 1) by (rewrite live_app; done).
  destruct H; constructor; cbn; try done.
  - by rewrite c_records, omap_app.
  - intros i j x Hi Hj. destruct (Hg _ _ Hi) as [[Hi' Hx]|[-> ->]], (Hg _ _ Hj) as [[Hj' Hx']|[-> ?]]; try done. by apply (c_inj i j x).
  - intros x Hx. destruct (decide (x = p)) as [-> |Hxp]; [exists (length gs); by rewrite lookup_app_r, Nat.sub_diag|]. rewrite lookup_insert_ne in Hx by done. destruct (c_dom x Hx) as [i Hi]. exists i. by apply lookup_app_l_Some.
  - rewrite !length_app. cbn. lia.
  - intros i x Hi. destruct (Hg _ _ Hi) as [[Hi' Hx]|[-> ->]].
    + destruct (c_rec i x Hi') as (r' & e & Er & Ee & Hrel). exists r', e. rewrite lookup_insert_ne by done. split_and!; try done. by apply lookup_app_l_Some.
    + exists r, (Some (k, JS_UNDEFINED)). rewrite lookup_insert_eq, c_len, lookup_app_r, Nat.sub_diag by done. rewrite Hr. split_and!; done.
  - intros i Hi. apply lookup_app_Some in Hi as [Hi|[Hle Hi]]; [by apply lookup_app_l_Some, c_hole|]. apply list_lookup_singleton_Some in Hi as [_ ?]. done.
  - intros x r' Er. destruct (decide (x = p)) as [-> |Hxp]; [|rewrite lookup_insert_ne in Er by done; by apply c_refs]. rewrite lookup_insert_eq in Er. injection Er as <-. rewrite Hr, Hs0. cbn. rewrite (proj2 (c_extra p)) by done. lia.
  - intros x. destruct (c_extra x) as [A B]. split; [done|]. destruct (decide (x = p)) as [-> |Hxp]; [by rewrite lookup_insert_eq|by rewrite lookup_insert_ne].
  - intros q it Hq. destruct (c_iter q it Hq) as (A & B & pos & C & D). split_and!; try done. exists pos. split; [done|]. unfold iter_rel in *. destruct (it_obj it); [|done]. destruct (cur_record it); [|done]. destruct D as (i & Hi & ->). exists i. split; [by apply lookup_app_l_Some|done].
  - by apply es_ok_add.
  - intros x. rewrite elem_of_cons. intros [-> |Hx]; [rewrite lookup_insert_eq; exists r; by rewrite Hr|]. destruct (c_ms x Hx) as (r' & Er & He). exists r'. split; [|done]. rewrite lookup_insert_ne; [done|]. congruence.
  - rewrite Hl1. destruct c_count as [-> _]. split; [|lia]. apply wrap_id. unfold fits. lia.
Qed.

Lemma map_add_spec st gs es its cnt ms extra k : core st gs es its cnt ms extra -> full st ms -> find_entry es k = None -> value_ok k -> normal k -> holds cnt k -> live es + 1 < 2 ^ 32 ->
  exists o st' ms', map_add_record hash st k = Some (o, st') /\ full st' ms' /\
    match o with
    | Some p => core st' (gs ++ [Some p]) (es ++ [Some (k, JS_UNDEFINED)]) its (give cnt k) ms' extra /\ recs st !! p = None /\ exists j, mem st' = drop j (mem st)
    | None => core st' gs es its cnt ms' extra /\ hd true (mem st) = false /\ mem st' = tl (mem st)
    end.
Proof.
  intros H Hf Hn Hk Hnk Hh Hl. unfold map_add_record. cbn [js_malloc].
  assert (H' : core (mk_heap (map_state st) (recs st) (iters st) (tl (mem st))) gs es its cnt ms extra) by (apply (core_rehash st gs es its cnt ms extra); try done; [apply (c_bits _ _ _ _ _ _ _ _ H)|apply (c_chain _ _ _ _ _ _ _ _ H)|apply (c_ms _ _ _ _ _ _ _ _ H)]).
  destruct (hd true (mem st)) eqn:Em; cbn [negb]; [|by eexists None, _, ms]. cbn [recs].
  set (st1 := mk_heap (map_state st) (recs st) (iters st) (tl (mem st))) in *. set (p := fresh (dom (recs st))). assert (Hp : recs st !! p = None) by (apply not_elem_of_dom, is_fresh).
  destruct (dup_spec hash st1 gs es its cnt ms extra k H' Hh) as (H2 & E1 & E2 & E3 & _). set (st2 := JS_DupValue st1 k) in *. rewrite E1, E2.
  set (r0 := mk_rec 1 false None k JS_UNDEFINED). change (map_state st1) with (map_state st). change (recs st1) with (recs st).
  assert (Hpm : p ∉ ms) by (intros Hm; destruct (c_ms _ _ _ _ _ _ _ _ H p Hm) as (? & ? & _); congruence).
  assert (Hc0 : chain_ok hash (hash_bits (map_state st)) (hash_strong (map_state st)) (<[p := r0]> (recs st)) (hash_table (map_state st)) ms).
  { eapply chain_same; [|apply (c_chain _ _ _ _ _ _ _ _ H)]. intros x Hx. unfold cnx. rewrite lookup_insert_ne; [done|]. congruence. }
  destruct (chain_push_spec hash _ _ (fun v => mk_range v _ _ (c_bits _ _ _ _ _ _ _ _ H)) _ _ ms p r0 Hc0) as (t & n & -> & Hc); [apply lookup_insert_eq|done|]. cbn [mbind option_bind fst snd]. rewrite insert_insert_eq in *.
  assert (H3 : core (mk_heap (with_records (with_table (map_state st) t (hash_strong (map_state st))) (records (map_state st) ++ [p]) (u32 (record_count (map_state st) + 1))) (<[p := with_next r0 n]> (recs st)) (iters st2) (mem st2)) (gs ++ [Some p]) (es ++ [Some (k, JS_UNDEFINED)]) its (give cnt k) (p :: ms) extra).
  { pose proof (core_add st2 gs es its (give cnt k) ms extra p (with_next r0 n) t n k H2) as A. rewrite E1, E2 in A. by apply A. }
  assert (Hf3 : full (mk_heap (with_records (with_table (map_state st) t (hash_strong (map_state st))) (records (map_state st) ++ [p]) (u32 (record_count (map_state st) + 1))) (<[p := with_next r0 n]> (recs st)) (iters st2) (mem st2)) (p :: ms)).
  { intros x r Er He. cbn in Er. destruct (decide (x = p)) as [-> |Hx]; [by left|]. rewrite lookup_insert_ne in Er by done. right. by apply (Hf x r). }
  assert (Htl : tl (mem st) = drop 1 (mem st)) by (by destruct (mem st)).
  destruct (_ <=? _).
  - destruct (map_resize_spec _ _ _ _ _ _ _ H3 Hf3) as (st' & ms' & -> & C & F & _ & M). cbn [mbind option_bind]. exists (Some p), st', ms'. split_and!; try done. exists 2%nat. rewrite M. cbn [mem]. rewrite E3. unfold st1. cbn [mem]. rewrite Htl. by destruct (mem st) as [|? [|]].
  - cbn [mbind option_bind]. eexists (Some p), _, (p :: ms). split; [reflexivity|]. split_and!; try done. exists 1%nat. cbn [mem]. by rewrite E3.
Qed.

(** ** Writing a value *)

Lemma omap_live_insert (l : list entry) i e e' : l !! i = Some e -> live (<[i := e']> l) = live l - live [e] + live [e'].
Proof.
  intros Hi. rewrite (insert_take_drop l i e') by (by apply lookup_lt_Some in Hi). rewrite <- (take_drop_middle l i e Hi) at 3. rewrite !live_app. change (e' :: drop (S i) l) with ([e'] ++ drop (S i) l). change (e :: drop (S i) l) with ([e] ++ drop (S i) l). rewrite !live_app. lia.
Qed.

Lemma occ_app q l l' : occ q (l ++ l') = occ q l + occ q l'.
Proof. unfold occ. induction l as [|e l IH]; cbn; [lia|]. rewrite IH. lia. Qed.

Lemma occ_insert q l i e e' : l !! i = Some e -> occ q (<[i := e']> l) = occ q l - occ_entry q e + occ_entry q e'.
Proof.
  intros Hi. rewrite (insert_take_drop l i e') by (by apply lookup_lt_Some in Hi). rewrite <- (take_drop_middle l i e Hi) at 3. rewrite !occ_app. cbn. lia.
Qed.

Lemma obj_is_nonneg q v : 0 <= obj_is q v.
Proof. destruct v; cbn; try lia. case_bool_decide; lia. Qed.

Lemma occ_entry_nonneg q e : 0 <= occ_entry q e.
Proof. destruct e as [[k v]|]; cbn; [|lia]. pose proof (obj_is_nonneg q k). pose proof (obj_is_nonneg q v). lia. Qed.

Lemma occ_nonneg q l : 0 <= occ q l.
Proof. induction l as [|e l IH]; cbn; [lia|]. pose proof (occ_entry_nonneg q e). fold (occ q l). lia. Qed.

Lemma occ_lookup q l i e : l !! i = Some e -> occ_entry q e <= occ q l.
Proof.
  intros Hi. pose proof (occ_insert q l i e None Hi) as E. pose proof (occ_nonneg q (<[i := None]> l)). cbn [occ_entry] in E. lia.
Qed.

Lemma es_ok_insert l i k v v' : es_ok l -> l !! i = Some (Some (k, v)) -> es_ok (<[i := Some (k, v')]> l).
Proof.
  intros [H1 H2] Hi. pose proof (lookup_lt_Some _ _ _ Hi) as Hlt.
  assert (Hl : forall j e, <[i := Some (k, v')]> l !! j = Some (Some e) -> exists e0, l !! j = Some (Some e0) /\ e0.1 = e.1).
  { intros j e. destruct (decide (i = j)) as [<- |Hij]; [rewrite list_lookup_insert_eq by done; intros [= <-]; by exists (k, v)|rewrite list_lookup_insert_ne by done; intros E; by exists e]. }
  split.
  - intros j k0 v0 Hj. destruct (Hl _ _ Hj) as ([k1 v1] & E & Ek). cbn in Ek. subst k1. by apply (H1 j k0 v1).
  - intros a b e e' Ha Hb E. destruct (Hl _ _ Ha) as (e0 & Ea & Ka), (Hl _ _ Hb) as (e1 & Eb & Kb). apply (H2 a b e0 e1); congruence.
Qed.

Lemma core_value st gs es its cnt ms extra i p r k v v' : core st gs es its cnt ms extra -> gs !! i = Some (Some p) -> recs st !! p = Some r -> es !! i = Some (Some (k, v)) ->
  core (set_recs st (<[p := with_value r v']> (recs st))) gs (<[i := Some (k, v')]> es) its cnt ms extra.
Proof.
  intros H Hi Er Ee. pose proof (omap_live_insert es i _ (Some (k, v')) Ee) as Hlive. change (live [Some (k, v)]) with 1 in Hlive. change (live [Some (k, v')]) with 1 in Hlive. rewrite Z.sub_add in Hlive.
  assert (Hrel : rec_rel r (Some (k, v))) by (destruct (c_rec _ _ _ _ _ _ _ _ H i p Hi) as (r' & e & ? & ? & ?); congruence). destruct Hrel as (He & Hkr & _).
  assert (Hlook : forall x r', <[p := with_value r v']> (recs st) !! x = Some r' -> exists r0, recs st !! x = Some r0 /\ ref_count r' = ref_count r0 /\ empty r' = empty r0).
  { intros x r'. destruct (decide (x = p)) as [-> |Hxp]; [rewrite lookup_insert_eq; intros [= <-]; by exists r|rewrite lookup_insert_ne by done; intros E; by exists r']. }
  destruct H; constructor; cbn; try done.
  - intros x [r' Hx]. destruct (Hlook x r' Hx) as (r0 & E & _). apply c_dom. by rewrite E.
  - by rewrite length_insert.
  - intros j x Hj. destruct (decide (x = p)) as [-> |Hxp].
    + assert (j = i) as -> by (by apply (c_inj j i p)). exists (with_value r v'), (Some (k, v')). rewrite lookup_insert_eq, list_lookup_insert_eq by (by apply lookup_lt_Some in Ee). by split_and!.
    + rewrite lookup_insert_ne by done. rewrite list_lookup_insert_ne; [by apply c_rec|]. intros <-. congruence.
  - intros j Hj. rewrite list_lookup_insert_ne; [by apply c_hole|]. intros <-. congruence.
  - intros x r' Ex. destruct (Hlook x r' Ex) as (r0 & E & -> & ->). by apply c_refs.
  - intros x. destruct (c_extra x) as [A B]. split; [done|]. intros Ex. apply B. destruct (decide (x = p)) as [-> |Hxp]; [by rewrite lookup_insert_eq in Ex|by rewrite lookup_insert_ne in Ex].
  - by apply (es_ok_insert _ _ _ v).
  - eapply chain_same; [|done]. intros x _. unfold cnx. destruct (decide (x = p)) as [-> |Hxp]; [by rewrite lookup_insert_eq, Er|by rewrite lookup_insert_ne].
  - intros x Hx. destruct (c_ms x Hx) as (r' & Er' & He'). destruct (decide (x = p)) as [-> |Hxp]; [rewrite lookup_insert_eq; eexists; split; [done|]; done|rewrite lookup_insert_ne by done; by exists r'].
  - by rewrite Hlive.
Qed.

(** ** Deleting a record *)

Definition emptied (r : JSMapRecord) : JSMapRecord := mk_rec (ref_count r) true (hash_next r) JS_UNDEFINED JS_UNDEFINED.

(** The record is empty, the reference of its entry is still there. *)
Definition empty_rec (st : heap) (p : ptr) (r : JSMapRecord) : heap :=
  mk_heap (with_records (map_state st) (records (map_state st)) (u32 (record_count (map_state st) - 1))) (<[p := emptied r]> (recs st)) (iters st) (mem st).

Lemma es_ok_none l i : es_ok l -> es_ok (<[i := None]> l).
Proof.
  intros [H1 H2]. assert (Hl : forall j e, <[i := None]> l !! j = Some (Some e) -> l !! j = Some (Some e)).
  { intros j e Hj. apply list_lookup_insert_Some in Hj as [(_ & ? & _)|[_ Hj]]; [done|done]. }
  split; [intros j k v Hj; by apply (H1 j k v), Hl|]. intros a b e e' Ha Hb. apply H2; by apply Hl.
Qed.

Lemma core_empty st gs es its cnt ms extra i p r e : core st gs es its cnt ms extra -> gs !! i = Some (Some p) -> recs st !! p = Some r -> es !! i = Some (Some e) -> p ∉ ms ->
  core (empty_rec st p r) gs (<[i := None]> es) its cnt ms (more extra p).
Proof.
  intros H Hi Er Ee Hm. pose proof (omap_live_insert es i _ None Ee) as Hlive. change (live [Some e]) with 1 in Hlive. change (live [None]) with 0 in Hlive. pose proof (live_nonneg (<[i := None]> es)) as H0.
  assert (He : empty r = false) by (destruct (c_rec _ _ _ _ _ _ _ _ H i p Hi) as (r' & e' & ? & ? & Hr); assert (e' = Some e) as -> by congruence; destruct e; destruct Hr; congruence).
  assert (Hne : forall x, x ∈ ms -> x <> p) by congruence.
  destruct H; constructor; cbn; try done.
  - intros x [r' Hx]. destruct (decide (x = p)) as [-> |Hxp]; [by exists i|]. rewrite lookup_insert_ne in Hx by done. apply c_dom. by rewrite Hx.
  - by rewrite length_insert.
  - intros j x Hj. destruct (decide (x = p)) as [-> |Hxp].
    + assert (j = i) as -> by (by apply (c_inj j i p)). exists (emptied r), None. rewrite lookup_insert_eq, list_lookup_insert_eq by (by apply lookup_lt_Some in Ee). done.
    + rewrite lookup_insert_ne by done. rewrite list_lookup_insert_ne; [by apply c_rec|]. intros <-. congruence.
  - intros j Hj. destruct (decide (i = j)) as [<- |Hij]; [congruence|]. rewrite list_lookup_insert_ne by done. by apply c_hole.
  - intros x r' Ex. unfold more. case_decide as Hxp; [subst x; rewrite lookup_insert_eq in Ex; injection Ex as <-; cbn; destruct (c_refs p r Er) as [A B]; rewrite He in A; lia|]. rewrite lookup_insert_ne in Ex by done. rewrite Z.add_0_r. by apply c_refs.
  - intros x. unfold more. destruct (c_extra x) as [A B]. case_decide as Hxp; [subst x; rewrite lookup_insert_eq; split; [lia|done]|]. rewrite lookup_insert_ne by done. by rewrite Z.add_0_r.
  - by apply es_ok_none.
  - eapply chain_same; [|done]. intros x Hx. unfold cnx. by rewrite lookup_insert_ne by (symmetry; by apply Hne).
  - intros x Hx. rewrite lookup_insert_ne by (symmetry; by apply Hne). by apply c_ms.
  - destruct c_count as [-> Hc]. split; [|lia]. rewrite Hlive. rewrite wrap_id; [lia|unfold fits; lia].
Qed.

(** What deleting a record does to the others. *)
Definition others (p : ptr) (st st' : heap) : Prop :=
  forall x, x <> p -> match recs st !! x with
       | Some r => (exists c, recs st' !! x = Some (with_refs r c)) \/ empty r = true /\ recs st' !! x = None
       | None => recs st' !! x = None
       end.

(** References that an entry accounts for. *)
Lemma holds_entry cnt k v : (forall q, occ_entry q (Some (k, v)) <= cnt q) -> holds cnt k /\ holds (release cnt k) v.
Proof.
  intros H. split; [destruct k; try done|destruct v; try done]; cbn; specialize (H p); cbn in H; rewrite bool_decide_eq_true_2 in H by done; [pose proof (obj_is_nonneg p v)|unfold release]; lia.
Qed.

Lemma delete_internal_spec st gs es its cnt ms extra i p r k v : core st gs es its cnt ms extra -> gs !! i = Some (Some p) -> recs st !! p = Some r -> es !! i = Some (Some (k, v)) -> p ∉ ms ->
  (forall q, occ_entry q (Some (k, v)) <= cnt q) ->
  exists st' gs', map_delete_record_internal st p = Some st' /\ core st' gs' (<[i := None]> es) its (fun q => cnt q - occ_entry q (Some (k, v))) ms extra /\
    others p st st' /\ gs_le gs gs' /\ mem st' = mem st /\ (forall q, iters st !! q = None -> iters st' !! q = None) /\ (forall r', recs st' !! p = Some r' -> empty r' = true).
Proof.
  intros H Hi Er Ee Hm Hq. destruct (holds_entry cnt k v Hq) as [Hk Hv]. assert (Hrel : rec_rel r (Some (k, v))) by (destruct (c_rec _ _ _ _ _ _ _ _ H i p Hi) as (r' & e & ? & ? & ?); congruence). destruct Hrel as (He & Hkr & Hvr).
  unfold map_delete_record_internal. rewrite Er. cbn [mbind option_bind]. rewrite He, Hkr, Hvr.
  destruct (free_spec hash _ _ _ _ _ _ _ k H Hk) as (st1 & gs1 & -> & H1 & V1). cbn [mbind option_bind]. destruct (free_spec hash _ _ _ _ _ _ _ v H1 Hv) as (st2 & gs2 & -> & H2 & V2). cbn [mbind option_bind].
  pose proof (evolves_trans _ _ _ _ _ _ V1 V2) as V. destruct (evolves_live _ _ _ _ p r V Er He) as [c Ec]. rewrite Ec. cbn [mbind option_bind].
  assert (Hi2 : gs2 !! i = Some (Some p)). { destruct (c_dom _ _ _ _ _ _ _ _ H2 p) as [j Hj]; [by rewrite Ec|]. pose proof (ev_gs _ _ _ _ V j p Hj) as Hj'. assert (j = i) as -> by (by apply (c_inj _ _ _ _ _ _ _ _ H j i p)). done. }
  pose proof (core_empty _ _ _ _ _ _ _ i p _ _ H2 Hi2 Ec Ee Hm) as H3. destruct (decref_record_spec hash _ _ _ _ _ _ _ p H3) as (st' & gs' & E & C & I & T & S & G); [unfold more; rewrite decide_True by done; pose proof (proj1 (c_extra _ _ _ _ _ _ _ _ H p)); lia|].
  exists st', gs'. split.
  { rewrite <- E. unfold map_decref_record, empty_rec, free_record. cbn. rewrite lookup_insert_eq. cbn. destruct (c - 1 =? 0); unfold set_map, set_recs; cbn; [by rewrite delete_insert_eq|]. by rewrite insert_insert_eq. }
  split; [eapply core_cnt; [|eapply core_extra; [|exact C]]; [intros q; unfold release; cbn; lia|intros x; by rewrite more_less]|].
  assert (Hsh : shrinks (empty_rec st2 p (with_refs r c)) st') by exact S.
  split.
  { intros x Hx. pose proof (ev_recs _ _ _ _ V x) as A. specialize (Hsh x). cbn in Hsh. rewrite lookup_insert_ne in Hsh by done. destruct (recs st !! x) as [rx|]; [|by rewrite A in Hsh]. destruct A as [[cx Ex]|[Hex Ex]]; rewrite Ex in Hsh; [|by right]. destruct Hsh as [[cy Ey]|[Hey Ey]]; [left; by exists cy|by right]. }
  split; [intros j x Hj; by apply (ev_gs _ _ _ _ V), G|]. split; [destruct T as (_ & _ & _ & _ & ->); cbn; apply (ev_table _ _ _ _ V)|]. split; [intros q Hq0; rewrite I; by apply (ev_iters _ _ _ _ V)|].
  intros r' Er'. specialize (Hsh p). cbn in Hsh. rewrite lookup_insert_eq in Hsh. destruct Hsh as [[cy Ey]|[_ Ey]]; [|congruence]. rewrite Er' in Ey. injection Ey as ->. done.
Qed.

Lemma map_delete_spec st gs es its cnt ms extra k : core st gs es its cnt ms extra -> full st ms -> value_ok k -> (forall q, occ q es <= cnt q) ->
  exists b st' gs' ms', map_delete_record same hash st k = Some (b, st') /\ mem st' = mem st /\ gs_le gs gs' /\ full st' ms' /\
    match find_entry es k with
    | Some (i, e) => b = true /\ core st' gs' (<[i := None]> es) its (fun q => cnt q - occ_entry q (Some e)) ms' extra
    | None => b = false /\ core st' gs' es its cnt ms' extra
    end.
Proof.
  intros H Hf Hk Hocc. unfold map_delete_record. destruct (normalize_ok k Hk) as (Hk' & Hn & Ek). rewrite <- (find_entry_key es _ _ Ek). set (k' := map_normalize_key k) in *. destruct (live_ms _ _ _ _ _ _ _ H) as [Hl Hm].
  destruct (unlink_spec hash (hash_bits (map_state st)) (hash_strong (map_state st)) same st ms k' (c_chain _ _ _ _ _ _ _ _ H) (c_bits _ _ _ _ _ _ _ _ H) Hl Hm Hk' Hn) as (h & f & -> & E & Hr). cbn [mbind option_bind]. rewrite E. cbn [mbind option_bind]. destruct f as [[prev p]|].
  - destruct Hr as (Hp & Hh & t & rs & -> & Hc & Hs). cbn [mbind option_bind]. destruct (has_key_found _ _ _ _ _ _ _ _ _ H Hp Hh) as (i & r & [k0 v0] & Hi & Er & He & Hkr & Hvr & ->).
    set (st1 := mk_heap _ rs _ _). assert (H1 : core st1 gs es its cnt (link_del ms p) extra).
    { apply (core_rehash st gs es its cnt ms extra); try done; [apply (c_bits _ _ _ _ _ _ _ _ H)|]. intros x Hx. apply link_del_spec in Hx as [Hx _]. by apply (c_ms _ _ _ _ _ _ _ _ H). }
    destruct (same_recs_some _ _ _ _ Hs Er) as [n Hn']. assert (Ee : es !! i = Some (Some (k0, v0))). { destruct (c_rec _ _ _ _ _ _ _ _ H i p Hi) as (r' & e & E1 & Ee & Hrel). assert (r' = r) as -> by congruence. destruct e as [[k1 v1]|]; cbn in *; [|congruence]. destruct Hrel as (_ & <- & <-). congruence. }
    destruct (delete_internal_spec st1 gs es its cnt (link_del ms p) extra i p _ k0 v0 H1 Hi Hn' Ee) as (st' & gs' & -> & C & O & G & M & _ & Emp); [rewrite link_del_spec; tauto|intros q; pose proof (occ_lookup q es i _ Ee); specialize (Hocc q); lia|].
    cbn [mbind option_bind]. exists true, st', gs', (link_del ms p). split_and!; try done. intros x r' Er' He'. apply link_del_spec. assert (Hxp : x <> p) by (intros ->; rewrite (Emp r' Er') in He'; done). split; [|done]. specialize (O x Hxp). cbn in O.
    destruct (rs !! x) as [rx|] eqn:Ex; [|congruence]. destruct O as [[c Ec]|[_ Ec]]; [|congruence]. rewrite Er' in Ec. injection Ec as ->. destruct (same_recs_back _ _ _ _ Hs Ex) as [n' Hx']. by apply (Hf x _ Hx').
  - rewrite (no_key_missing _ _ _ _ _ _ _ _ H Hf Hr). by exists false, st, gs, ms.
Qed.

(** ** Clearing a map *)

Lemma filter_same (P Q : ptr -> Prop) `{forall x, Decision (P x)} `{forall x, Decision (Q x)} (l : list ptr) : (forall x, x ∈ l -> P x <-> Q x) -> filter P l = filter Q l.
Proof.
  induction l as [|x l IH]; intros Hl; [done|]. assert (IH' : filter P l = filter Q l) by (apply IH; intros y Hy; apply Hl; by right). destruct (decide (P x)) as [Hp|Hp].
  - assert (Hq : Q x) by (apply Hl; [left|done]). rewrite !filter_cons_True by done. by rewrite IH'.
  - rewrite !filter_cons_False; [done| |done]. intros Hq. apply Hp, Hl; [left|done].
Qed.

Lemma filter_keep (P : ptr -> Prop) `{forall x, Decision (P x)} (l : list ptr) : (forall x, x ∈ l -> P x) -> filter P l = l.
Proof. induction l as [|x l IH]; intros Hl; [done|]. rewrite filter_cons_True by (apply Hl; left). f_equal. apply IH. intros y Hy. apply Hl. by right. Qed.

Lemma omap_le (gs gs' : ghost) : length gs' = length gs -> gs_le gs gs' -> NoDup (omap id gs) -> omap id gs' = filter (fun x => x ∈ omap id gs') (omap id gs).
Proof.
  revert gs'. induction gs as [|x gs IH]; intros [|y gs'] Hl Hle Hnd; try done. injection Hl as Hl. assert (Hle' : gs_le gs gs') by (intros i p; apply (Hle (S i) p)).
  assert (Hnd' : NoDup (omap id gs)) by (destruct x; cbn in Hnd; [by apply NoDup_cons in Hnd as [_ ?]|done]). specialize (IH gs' Hl Hle' Hnd').
  assert (Hsub : forall z, z ∈ omap id gs' -> z ∈ omap id gs). { intros z. rewrite !list_elem_of_omap. intros (w & Hw & Ew). cbn in Ew. subst w. apply list_elem_of_lookup in Hw as [j Hj]. exists (Some z). split; [apply list_elem_of_lookup; exists j; by apply Hle'|done]. }
  destruct y as [q|].
  - pose proof (Hle 0%nat q eq_refl) as E. injection E as ->. change (omap id (Some q :: gs')) with (q :: omap id gs'). change (omap id (Some q :: gs)) with (q :: omap id gs) in *. apply NoDup_cons in Hnd as [Hq _]. rewrite filter_cons_True by (by left). f_equal. rewrite IH at 1. apply filter_same. intros z Hz. rewrite elem_of_cons. split; [by right|]. intros [-> |?]; done.
  - change (omap id (None :: gs')) with (omap id gs'). destruct x as [q|]; [|done]. change (omap id (Some q :: gs)) with (q :: omap id gs) in *. apply NoDup_cons in Hnd as [Hq _]. rewrite filter_cons_False; [done|]. intros Hin. by apply Hq, Hsub.
Qed.

Lemma link_next_app l1 p l2 : p ∉ l1 -> link_next (l1 ++ p :: l2) p = Some (head l2).
Proof. induction l1 as [|x l1 IH]; cbn; [by rewrite bool_decide_eq_true_2|]. rewrite not_elem_of_cons. intros [Hx Hl]. rewrite bool_decide_eq_false_2 by done. by apply IH. Qed.

(** Without iterators in its entry, deleting a record leaves the others alone. *)
Lemma delete_internal_plain st st' p r : recs st !! p = Some r -> (forall q, 1 <= occ_entry q (Some (key r, value r)) -> iters st !! q = None) -> map_delete_record_internal st p = Some st' ->
  forall x, x <> p -> recs st' !! x = recs st !! x.
Proof.
  intros Er Hq. unfold map_delete_record_internal. rewrite Er. cbn [mbind option_bind]. destruct (empty r); [by intros [= <-]|].
  rewrite free_other by (intros q E; apply Hq; rewrite E; cbn; rewrite bool_decide_eq_true_2 by done; pose proof (obj_is_nonneg q (value r)); lia). cbn [mbind option_bind].
  rewrite free_other by (intros q E; apply Hq; rewrite E; cbn; rewrite bool_decide_eq_true_2 by done; pose proof (obj_is_nonneg q (key r)); lia). cbn [mbind option_bind]. rewrite Er. cbn [mbind option_bind].
  intros [= <-] x Hx. destruct (_ =? 0); cbn; [by rewrite lookup_delete_ne|by rewrite lookup_insert_ne].
Qed.

(** The records behind the one that is deleted stay when only iterators keep none
    of them or no iterator is in the map. *)
Definition clear_safe (st : heap) (es : list entry) (extra : ptr -> Z) (l : list ptr) : Prop :=
  (forall p r, p ∈ l -> recs st !! p = Some r -> empty r = false \/ 1 <= extra p) \/ (forall q, iters st !! q <> None -> occ q es = 0).

Lemma clear_step st gs es its cnt extra l1 p l2 : core st gs es its cnt [] extra -> records (map_state st) = l1 ++ p :: l2 -> (forall x r, x ∈ l1 -> recs st !! x = Some r -> empty r = true) ->
  clear_safe st es extra (p :: l2) -> (forall q, occ q es <= cnt q) ->
  exists st' gs' es' cnt' l1', map_delete_record_internal st p = Some st' /\ core st' gs' es' its cnt' [] extra /\ records (map_state st') = l1' ++ l2 /\ (forall x r, x ∈ l1' -> recs st' !! x = Some r -> empty r = true) /\
    clear_safe st' es' extra l2 /\ (forall q, cnt' q - occ q es' = cnt q - occ q es) /\ length es' = length es /\ mem st' = mem st /\ gs_le gs gs'.
Proof.
  intros H Hrec Hemp Hsafe Hocc. assert (Hin : forall x, x ∈ l1 ++ p :: l2 -> is_Some (recs st !! x)) by (intros x Hx; apply (in_records _ _ _ _ _ _ _ _ H); by rewrite Hrec).
  destruct (Hin p) as [r Er]; [apply elem_of_app; right; by left|]. pose proof (c_records _ _ _ _ _ _ _ _ H) as Eg. pose proof (nodup_omap gs (c_inj _ _ _ _ _ _ _ _ H)) as Hnd. rewrite <- Eg, Hrec in Hnd.
  destruct (empty r) eqn:He.
  - exists st, gs, es, cnt, (l1 ++ [p]). split; [unfold map_delete_record_internal; rewrite Er; cbn; by rewrite He|]. split; [done|]. split; [by rewrite <- (assoc (++))|]. split; [|split_and!; try done].
    + intros x rx Hx Ex. apply elem_of_app in Hx as [Hx|Hx]; [by apply (Hemp x)|]. apply list_elem_of_singleton in Hx as ->. congruence.
    + destruct Hsafe as [Hs|Hs]; [left|by right]. intros x rx Hx. apply Hs. by right.
  - destruct (c_dom _ _ _ _ _ _ _ _ H p) as [i Hi]; [by rewrite Er|]. destruct (c_rec _ _ _ _ _ _ _ _ H i p Hi) as (r' & e & Er' & Ee & Hr). assert (r' = r) as -> by congruence. destruct e as [[k v]|]; cbn in Hr; [|congruence]. destruct Hr as (_ & Hk & Hv).
    destruct (delete_internal_spec st gs es its cnt [] extra i p r k v H Hi Er Ee) as (st' & gs' & E & C & O & G & M & It & Emp); [apply not_elem_of_nil|intros q; pose proof (occ_lookup q es i _ Ee); specialize (Hocc q); lia|].
    pose proof (c_records _ _ _ _ _ _ _ _ C) as Eg'. pose proof (c_len _ _ _ _ _ _ _ _ C) as Hl'. rewrite length_insert, <- (c_len _ _ _ _ _ _ _ _ H) in Hl'. rewrite (omap_le gs gs' Hl' G) in Eg' by (by rewrite <- Eg, Hrec). rewrite <- Eg, Hrec in Eg'. change (p :: l2) with ([p] ++ l2) in Eg'. rewrite (assoc (++)), filter_app in Eg'.
    assert (Hpl : p ∉ l2) by (apply NoDup_app in Hnd as (_ & _ & Hnd); by apply NoDup_cons in Hnd as [? _]).
    assert (Hsurv : forall x, x ∈ l2 -> is_Some (recs st' !! x)).
    { intros x Hx. assert (Hxp : x <> p) by congruence. destruct (Hin x) as [rx Ex]; [apply elem_of_app; right; by right|]. destruct Hsafe as [Hs|Hs].
      - specialize (O x Hxp). rewrite Ex in O. destruct O as [[c ->]|[Hex E0]]; [done|]. destruct (Hs x rx) as [Hs'|Hs']; [by right|done|congruence|]. pose proof (proj2 (c_extra _ _ _ _ _ _ _ _ C x) E0). lia.
      - rewrite (delete_internal_plain st st' p r Er); [by rewrite Ex| |done|done]. intros q Hq. destruct (iters st !! q) eqn:Eq; [|done]. exfalso. pose proof (occ_lookup q es i _ Ee) as Hoq. rewrite Hs in Hoq by congruence. subst k v. lia. }
    assert (Hf2 : filter (fun x => x ∈ omap id gs') l2 = l2). { apply filter_keep. intros x Hx. rewrite <- (c_records _ _ _ _ _ _ _ _ C). apply (in_records _ _ _ _ _ _ _ _ C). by apply Hsurv. }
    rewrite Hf2 in Eg'. eexists st', gs', _, _, _. split; [exact E|]. split; [exact C|]. split; [exact Eg'|]. split; [|split_and!].
    + intros x rx Hx Ex. apply list_elem_of_filter in Hx as [_ Hx]. destruct (decide (x = p)) as [-> |Hxp]; [by apply Emp|]. specialize (O x Hxp). apply elem_of_app in Hx as [Hx|Hx]; [|apply list_elem_of_singleton in Hx; done].
      destruct (recs st !! x) as [r0|] eqn:E0; [|congruence]. destruct O as [[c Ec]|[_ Ec]]; [|congruence]. rewrite Ex in Ec. injection Ec as ->. by apply (Hemp x r0).
    + destruct Hsafe as [Hs|Hs]; [left|right].
      * intros x rx Hx Ex. assert (Hxp : x <> p) by congruence. specialize (O x Hxp). destruct (Hin x) as [r0 E0]; [apply elem_of_app; right; by right|]. rewrite E0 in O. destruct O as [[c Ec]|[_ Ec]]; [|congruence]. rewrite Ex in Ec. injection Ec as ->. destruct (Hs x r0) as [?|?]; [by right|done|by left|by right].
      * intros q Hq. rewrite (occ_insert q es i _ None Ee). cbn [occ_entry]. pose proof (occ_nonneg q (<[i := None]> es)) as H0. rewrite (occ_insert q es i _ None Ee) in H0. cbn [occ_entry] in H0. pose proof (occ_entry_nonneg q (Some (k, v))) as H1. cbn [occ_entry] in H1. rewrite Hs in *; [lia| |]; intros Eq; by apply Hq, It.
    + intros q. rewrite (occ_insert q es i _ None Ee). cbn [occ_entry]. lia.
    + by rewrite length_insert.
    + done.
    + done.
Qed.

Lemma clear_loop_spec fuel st gs es its cnt extra l1 l2 : core st gs es its cnt [] extra -> records (map_state st) = l1 ++ l2 -> (forall x r, x ∈ l1 -> recs st !! x = Some r -> empty r = true) ->
  clear_safe st es extra l2 -> (forall q, occ q es <= cnt q) -> (length l2 <= fuel)%nat ->
  exists st' gs' es' cnt', clear_loop fuel st (head l2) = Some st' /\ core st' gs' es' its cnt' [] extra /\ (forall x r, recs st' !! x = Some r -> empty r = true) /\
    (forall q, cnt' q - occ q es' = cnt q - occ q es) /\ length es' = length es /\ mem st' = mem st /\ gs_le gs gs'.
Proof.
  revert st gs es cnt l1 l2. induction fuel as [|fuel IH]; intros st gs es cnt l1 [|p l2] H Hrec Hemp Hsafe Hocc Hfuel; cbn [length] in Hfuel; [|lia| |].
  1, 2: exists st, gs, es, cnt; split_and!; try done; intros x r Ex; apply (Hemp x r); [|done]; rewrite app_nil_r in Hrec; rewrite <- Hrec; apply (in_records _ _ _ _ _ _ _ _ H); by rewrite Ex.
  pose proof (nodup_omap gs (c_inj _ _ _ _ _ _ _ _ H)) as Hnd. rewrite <- (c_records _ _ _ _ _ _ _ _ H), Hrec in Hnd. apply NoDup_app in Hnd as (_ & Hnd & _).
  destruct (clear_step st gs es its cnt extra l1 p l2 H Hrec Hemp Hsafe Hocc) as (st' & gs' & es' & cnt' & l1' & E & C & R & Em & S & Cn & Le & Me & G). cbn [clear_loop head]. rewrite Hrec, link_next_app by (intros Hp; apply (Hnd p Hp); by left). cbn [mbind option_bind]. rewrite E. cbn [mbind option_bind].
  destruct (IH st' gs' es' cnt' l1' l2 C R Em S) as (st2 & gs2 & es2 & cnt2 & E2 & C2 & Em2 & Cn2 & Le2 & Me2 & G2); [intros q; specialize (Cn q); specialize (Hocc q); lia|lia|].
  exists st2, gs2, es2, cnt2. split_and!; try done; [|congruence|congruence|intros i x Hi; by apply G, G2]. intros q. specialize (Cn q). specialize (Cn2 q). lia.
Qed.

Lemma all_empty st gs es its cnt ms extra : core st gs es its cnt ms extra -> (forall x r, recs st !! x = Some r -> empty r = true) -> es = replicate (length es) None.
Proof.
  intros H He. apply list_eq. intros i. destruct (decide (i < length es)%nat) as [Hi|Hi]; [|rewrite !lookup_ge_None_2; [done|rewrite length_replicate; lia|lia]]. rewrite lookup_replicate_2 by done. rewrite <- (c_len _ _ _ _ _ _ _ _ H) in Hi. apply lookup_lt_is_Some_2 in Hi as [[p|] Hp]; [|by apply (c_hole _ _ _ _ _ _ _ _ H)].
  destruct (c_rec _ _ _ _ _ _ _ _ H i p Hp) as (r & e & Er & -> & Hr). destruct e as [[k v]|]; [|done]. destruct Hr as [Hr _]. rewrite (He p r Er) in Hr. done.
Qed.

Lemma map_clear_spec st gs es its cnt ms extra : core st gs es its cnt ms extra -> (forall q, occ q es <= cnt q) -> clear_safe st es extra (records (map_state st)) ->
  exists st' gs', js_map_clear st = Some st' /\ core st' gs' (replicate (length es) None) its (fun q => cnt q - occ q es) [] extra /\ full st' [] /\ mem st' = mem st /\ gs_le gs gs'.
Proof.
  intros H Hocc Hs. unfold js_map_clear. set (st1 := set_map st _).
  assert (H1 : core st1 gs es its cnt [] extra). { apply (core_rehash st gs es its cnt ms extra); try done; [apply (c_bits _ _ _ _ _ _ _ _ H)|apply chain_empty, (proj1 (c_chain _ _ _ _ _ _ _ _ H))|]. intros p Hp. by apply not_elem_of_nil in Hp. }
  destruct (clear_loop_spec (length (records (map_state st))) st1 gs es its cnt extra [] (records (map_state st)) H1) as (st' & gs' & es' & cnt' & E & C & Em & Cn & Le & Me & G); try done; [intros x r Hx; by apply not_elem_of_nil in Hx|].
  exists st', gs'. split; [exact E|]. pose proof (all_empty _ _ _ _ _ _ _ C Em) as Ees. rewrite Le in Ees. rewrite Ees in C. split; [|split; [|by split]].
  - eapply core_cnt; [|exact C]. intros q. specialize (Cn q). rewrite Ees in Cn. assert (occ q (replicate (length es) None) = 0) by (clear; generalize (length es) as n; induction n as [|n IHn]; [done|]; cbn; unfold occ in IHn; rewrite IHn; done). lia.
  - intros p r Er He. rewrite (Em p r Er) in He. done.
Qed.
End Ops.
