(* ===== verification/MapIter.v ===== *)
(** * Iterators of a Map

    js_create_map_iterator and js_map_iterator_next on a state that satisfies the
    invariant: an iterator answers the next entry that is not deleted. *)
From Stdlib Require Import ZArith Lia List.
From stdpp Require Import base numbers option list gmap.
From S2P Require Import Prelude Doubles Strings StrHash MapKeys Maps MapTable MapSpec MapInv MapOps.

Lemma next_entry_live l j e : l !! j = Some (Some e) -> next_entry l j = Some (j, e).
Proof. revert j. induction l as [|x l IH]; intros [|j]; cbn; [done|done|by intros [= ->]|]. intros Hj. destruct x; by rewrite (IH j Hj). Qed.

Lemma next_entry_hole l j : l !! j = Some None -> next_entry l j = next_entry l (S j).
Proof. revert j. induction l as [|x l IH]; intros [|j]; cbn; [done|done|by intros [= ->]|]. intros Hj. destruct x; by rewrite (IH j Hj). Qed.

Lemma next_entry_end l j : (length l <= j)%nat -> next_entry l j = None.
Proof. revert j. induction l as [|x l IH]; intros [|j]; cbn; try done; [lia|]. intros Hj. destruct x; rewrite IH by lia; done. Qed.

Lemma next_entry_some l j i e : next_entry l j = Some (i, e) -> l !! i = Some (Some e).
Proof.
  revert j i. induction l as [|x l IH]; intros j i; [done|]. assert (Hr : forall j', prod_map S id <$> next_entry l j' = Some (i, e) -> (x :: l) !! i = Some (Some e)).
  { intros j'. destruct (next_entry l j') as [[a b]|] eqn:E; [|done]. intros [= <- <-]. by apply (IH j'). }
  cbn. destruct j as [|j]; [|apply Hr]. destruct x as [e0|]; [by intros [= <- <-]|apply Hr].
Qed.

Section Iter.
Context (hash : JSValue -> Z -> bool -> Z).
Abbreviation core := (core hash).

Lemma holds_occ es cnt i k v : es !! i = Some (Some (k, v)) -> (forall q, occ q es <= cnt q) -> holds cnt k /\ holds cnt v.
Proof.
  intros Ee Hocc. assert (H : forall q, occ_entry q (Some (k, v)) <= cnt q) by (intros q; pose proof (occ_lookup q es i _ Ee); specialize (Hocc q); lia). destruct (holds_entry cnt k v H) as [A B]. split; [done|]. destruct v; try done. cbn in *. unfold release in B. pose proof (obj_is_nonneg p k). lia.
Qed.

Lemma next_loop_iters fuel st m el : next_loop fuel (set_iters st m) el = next_loop fuel st el.
Proof.
  revert el. induction fuel as [|fuel IH]; intros [p|]; try done. cbn. destruct (recs st !! p) as [r|]; [|done]. cbn. destruct (negb (empty r)); [done|]. destruct (link_next (records (map_state st)) p) as [el|]; [|done]. cbn. apply IH.
Qed.

(** The records from a position. *)
Lemma drop_records st gs es its cnt ms extra j p : core st gs es its cnt ms extra -> gs !! j = Some (Some p) -> link_next (records (map_state st)) p = Some (head (omap id (drop (S j) gs))).
Proof.
  intros H Hj. pose proof (nodup_omap gs (c_inj _ _ _ _ _ _ _ _ H)) as Hnd. rewrite (c_records _ _ _ _ _ _ _ _ H). rewrite <- (take_drop_middle gs j (Some p) Hj), omap_app in Hnd |- *. change (omap id (Some p :: drop (S j) gs)) with (p :: omap id (drop (S j) gs)) in *.
  rewrite link_next_app; [by rewrite take_drop_middle|]. apply NoDup_app in Hnd as (_ & Hnd & _). intros Hp. apply (Hnd p Hp). by left.
Qed.

Lemma next_loop_spec fuel st gs es its cnt ms extra j : core st gs es its cnt ms extra -> (length (omap id (drop j gs)) <= fuel)%nat ->
  next_loop fuel st (head (omap id (drop j gs))) = Some (i ← fst <$> next_entry es j; o ← gs !! i; o).
Proof.
  intros H. remember (length gs - j)%nat as n eqn:En. revert j fuel En. induction n as [n IH] using lt_wf_ind. intros j fuel En Hf. pose proof (c_len _ _ _ _ _ _ _ _ H) as Hl.
  destruct (gs !! j) as [o|] eqn:Ej.
  2: { apply lookup_ge_None in Ej. rewrite drop_ge by done. rewrite next_entry_end by lia. by destruct fuel. }
  pose proof (lookup_lt_Some _ _ _ Ej) as Hlt. rewrite (drop_S gs o j Ej) in Hf |- *. destruct o as [p|].
  - change (omap id (Some p :: drop (S j) gs)) with (p :: omap id (drop (S j) gs)) in *. cbn [length] in Hf. destruct fuel as [|fuel]; [lia|]. cbn [head next_loop]. destruct (c_rec _ _ _ _ _ _ _ _ H j p Ej) as (r & e & Er & Ee & Hr). rewrite Er. cbn [mbind option_bind]. destruct e as [[k v]|].
    + destruct Hr as [-> _]. cbn [negb]. rewrite (next_entry_live es j _ Ee). cbn. by rewrite Ej.
    + cbn in Hr. rewrite Hr. cbn [negb]. rewrite (drop_records _ _ _ _ _ _ _ j p H Ej). cbn [mbind option_bind]. rewrite (next_entry_hole es j Ee). apply (IH (length gs - S j)%nat); lia.
  - change (omap id (None :: drop (S j) gs)) with (omap id (drop (S j) gs)) in *. rewrite (next_entry_hole es j) by (by apply (c_hole _ _ _ _ _ _ _ _ H)). apply (IH (length gs - S j)%nat); [lia|done|done].
Qed.

(** Giving up a record leaves the later ones where they are. *)
Lemma decref_others st st' p x : map_decref_record st p = Some st' -> x <> p -> recs st' !! x = recs st !! x.
Proof.
  intros E Hx. unfold map_decref_record in E. destruct (recs st !! p) as [r|]; [|done]. cbn in E. destruct (_ =? 0); [destruct (empty r); [|done]|]; injection E as <-; cbn; [by rewrite lookup_delete_ne|by rewrite lookup_insert_ne].
Qed.

Lemma decref_drop st st' gs gs' es es' its cnt its' cnt' ms extra extra' p i : core st gs es its cnt ms extra -> core st' gs' es' its' cnt' ms extra' -> length es' = length es -> gs_le gs gs' -> gs !! i = Some (Some p) ->
  (forall x, x <> p -> recs st' !! x = recs st !! x) -> drop (S i) gs' = drop (S i) gs.
Proof.
  intros H H' Hl G Hi Ho. pose proof (c_len _ _ _ _ _ _ _ _ H) as L. pose proof (c_len _ _ _ _ _ _ _ _ H') as L'. apply list_eq. intros j. rewrite !lookup_drop. set (k := (S i + j)%nat). destruct (gs !! k) as [[x|]|] eqn:E.
  - assert (Hx : x <> p). { intros ->. pose proof (c_inj _ _ _ _ _ _ _ _ H k i p E Hi). lia. }
    destruct (c_rec _ _ _ _ _ _ _ _ H k x E) as (r & _ & Er & _). destruct (c_dom _ _ _ _ _ _ _ _ H' x) as [j' Hj']; [by rewrite Ho, Er|]. pose proof (c_inj _ _ _ _ _ _ _ _ H _ _ _ (G _ _ Hj') E) as <-. done.
  - destruct (lookup_lt_is_Some_2 gs' k) as [[x|] Hx]; [apply lookup_lt_Some in E; lia| |done]. apply G in Hx. congruence.
  - apply lookup_ge_None in E. apply lookup_ge_None. lia.
Qed.

(** The iterator is over and its record has a reference more. *)
Lemma iter_over st gs es its cnt ms extra q it : core st gs es its cnt ms extra -> iters st !! q = Some it ->
  core (set_iters st (<[q := mk_it false (kind it) None (it_refs it)]> (iters st))) gs es (<[q := (kind it, None)]> its) cnt ms (more_of extra (stand_rec it)).
Proof.
  intros H Hq. destruct (c_iter _ _ _ _ _ _ _ _ H q it Hq) as (A & B & _). apply (core_iters hash st gs es its _ cnt cnt ms extra _ _ H).
  - intros p. rewrite (standing_update _ q it), more_of_stands by done. unfold stands_on at 2. unfold stands. cbn. lia.
  - by apply (more_of_ok hash st gs es its cnt ms extra q it).
  - intros x it' E. destruct (decide (x = q)) as [-> |Hxq].
    + rewrite lookup_insert_eq in E. injection E as <-. cbn. split_and!; try done. exists None. by rewrite lookup_insert_eq.
    + rewrite lookup_insert_ne in E by done. rewrite lookup_insert_ne by done. by apply (c_iter _ _ _ _ _ _ _ _ H).
  - intros x Hsx E. destruct (decide (x = q)) as [-> |Hxq]; [by rewrite lookup_insert_eq in E|]. rewrite lookup_insert_ne in E by done. rewrite lookup_insert_ne in Hsx by done. by apply (c_dead _ _ _ _ _ _ _ _ H).
Qed.

(** The iterator takes a record. *)
Lemma iter_take st gs es its cnt ms extra q it p r i kd : core st gs es its cnt ms extra -> iters st !! q = Some it -> stand_rec it = None -> kind it = kd -> gs !! i = Some (Some p) -> recs st !! p = Some r ->
  core (mk_heap (map_state st) (<[p := with_refs r (ref_count r + 1)]> (recs st)) (<[q := mk_it true kd (Some p) (it_refs it)]> (iters st)) (mem st)) gs es (<[q := (kd, Some (S i))]> its) cnt ms extra.
Proof.
  intros H Hq Hs <- Hi Er. assert (H1 : core (set_recs st (<[p := with_refs r (ref_count r + 1)]> (recs st))) gs es its cnt ms (more extra p)).
  { apply (core_refs hash st gs es its cnt ms extra (more extra p) p r _ H Er); unfold more; [rewrite decide_True by done; destruct (c_refs _ _ _ _ _ _ _ _ H p r Er); lia|rewrite decide_True by done; pose proof (proj1 (c_extra _ _ _ _ _ _ _ _ H p)); lia|]. intros x Hx. rewrite decide_False by done. lia. }
  destruct (c_iter _ _ _ _ _ _ _ _ H q it Hq) as (A & B & _). refine (core_iters hash _ gs es its _ cnt cnt ms _ extra _ H1 _ _ _ _).
  - intros x. cbn [iters set_recs]. rewrite (standing_update _ q it) by done. unfold stands_on. rewrite !stands_rec, Hs. cbn [stand_rec it_obj cur_record]. rewrite (bool_decide_eq_false_2 (None = Some x)) by done. unfold more. case_decide as Hx; case_bool_decide; try lia; congruence.
  - intros x. cbn. destruct (c_extra _ _ _ _ _ _ _ _ H x) as [C D]. split; [done|]. destruct (decide (x = p)) as [-> |Hx]; [by rewrite lookup_insert_eq|by rewrite lookup_insert_ne].
  - intros x it' E. destruct (decide (x = q)) as [-> |Hxq].
    + rewrite lookup_insert_eq in E. injection E as <-. cbn. split_and!; try done. exists (Some (S i)). rewrite lookup_insert_eq. split; [done|]. by exists i.
    + rewrite lookup_insert_ne in E by done. rewrite lookup_insert_ne by done. by apply (c_iter _ _ _ _ _ _ _ _ H).
  - intros x Hsx E. destruct (decide (x = q)) as [-> |Hxq]; [by rewrite lookup_insert_eq in E|]. rewrite lookup_insert_ne in E by done. rewrite lookup_insert_ne in Hsx by done. by apply (c_dead _ _ _ _ _ _ _ _ H).
Qed.

Lemma core_mem st gs es its cnt ms extra m : core st gs es its cnt ms extra -> core (mk_heap (map_state st) (recs st) (iters st) m) gs es its cnt ms extra.
Proof. intros H. apply (core_rehash hash st gs es its cnt ms extra); try done; [apply (c_bits _ _ _ _ _ _ _ _ H)|apply (c_chain _ _ _ _ _ _ _ _ H)|apply (c_ms _ _ _ _ _ _ _ _ H)]. Qed.

(** Leaving the current record. *)
Lemma iter_leave st gs es its cnt ms extra q it pos : core st gs es its cnt ms extra -> full st ms -> iters st !! q = Some it -> it_obj it = true -> its !! q = Some (kind it, pos) ->
  let over := <[q := mk_it false (kind it) None (it_refs it)]> (iters st) in
  exists j st1 gs1, pos = Some j /\
    match cur_record it with
    | None => Some (head (records (map_state st)), st)
    | Some p => el ← link_next (records (map_state st)) p; st ← map_decref_record st p; Some (el, st)
    end = Some (head (omap id (drop j gs1)), st1) /\
    iters st1 = iters st /\ mem st1 = mem st /\ full st1 ms /\ gs_le gs gs1 /\ core (set_iters st1 over) gs1 es (<[q := (kind it, None)]> its) cnt ms extra.
Proof.
  intros H Hf Hq Ho Hpos over. pose proof (iter_over _ _ _ _ _ _ _ _ _ H Hq) as HD. destruct (c_iter _ _ _ _ _ _ _ _ H q it Hq) as (_ & _ & pos' & Ep & Hr). assert (pos' = pos) as -> by congruence. unfold iter_rel in Hr. rewrite Ho in Hr. unfold stand_rec in HD. rewrite Ho in HD. destruct (cur_record it) as [p|].
  - destruct Hr as (i & Hi & ->). cbn [more_of] in HD. rewrite (drop_records _ _ _ _ _ _ _ i p H Hi). cbn [mbind option_bind].
    destruct (decref_record_spec hash _ _ _ _ _ _ _ p HD) as (st' & gs' & E & C & I & T & Sh & G); [unfold more; rewrite decide_True by done; pose proof (proj1 (c_extra _ _ _ _ _ _ _ _ H p)); lia|].
    rewrite decref_iters in E. destruct (map_decref_record st p) as [st1|] eqn:E1; [|done]. injection E as <-. cbn [mbind option_bind]. exists (S i), st1, gs'.
    assert (Hdrop : drop (S i) gs' = drop (S i) gs) by (eapply decref_drop; [exact H|exact C|done|exact G|exact Hi|]; intros x Hx; cbn; by apply (decref_others st st1 p)). rewrite Hdrop. split_and!; try done; [by apply (decref_same_iters st st1 p)|apply T| |eapply core_extra; [|exact C]; intros x; by rewrite more_less].
    intros x r Er He. specialize (Sh x). cbn in Sh. destruct (recs st !! x) as [r0|] eqn:E0; [|congruence]. destruct Sh as [[c Ec]|[_ Ec]]; [|congruence]. rewrite Er in Ec. injection Ec as ->. by apply (Hf x r0).
  - subst pos. exists 0%nat, st, gs. rewrite drop_0, (c_records _ _ _ _ _ _ _ _ H). split_and!; done.
Qed.

Lemma core_dups st gs es its cnt ms extra is_set kd e : core st gs es its cnt ms extra -> full st ms -> holds cnt e.1 -> holds cnt e.2 -> 
  let v := if is_set : bool then e.1 else e.2 in
  let r := match kd with
           | JS_ITERATOR_KIND_KEY => Some (IterValue e.1, JS_DupValue st e.1)
           | JS_ITERATOR_KIND_VALUE => Some (IterValue v, JS_DupValue st v)
           | JS_ITERATOR_KIND_KEY_AND_VALUE =>
               let (ok, st) := js_malloc st in
               if negb ok then Some (IterThrow, st) else Some (IterPair e.1 v, JS_DupValue (JS_DupValue st e.1) v)
           end in
  exists ok st' n, r = Some (iter_answer is_set ok kd e, st') /\ core st' gs es its (give_iter cnt (iter_answer is_set ok kd e)) ms extra /\ full st' ms /\
    mem st' = drop n (mem st) /\ (ok = false -> hd true (mem st) = false).
Proof.
  intros H Hf Hk Hv v. assert (Hv' : holds cnt v) by (subst v; by destruct is_set).
  assert (D : forall w, holds cnt w -> core (JS_DupValue st w) gs es its (give cnt w) ms extra /\ full (JS_DupValue st w) ms /\ mem (JS_DupValue st w) = mem st). { intros w Hw. destruct (dup_spec hash _ _ _ _ _ _ _ w H Hw) as (A & _ & B & C & _). split_and!; [done| |done]. unfold full. by rewrite B. }
  assert (Done : forall w, holds cnt w -> exists ok st' n, Some (IterValue w, JS_DupValue st w) = Some (IterValue w, st') /\ core st' gs es its (give cnt w) ms extra /\ full st' ms /\ mem st' = drop n (mem st) /\ (ok = false -> hd true (mem st) = false)).
  { intros w Hw. exists true, (JS_DupValue st w), 0%nat. destruct (D w Hw) as (A & B & C). split_and!; done. }
  assert (Htl : tl (mem st) = drop 1 (mem st)) by (by destruct (mem st)).
  destruct kd; cbn [iter_answer iter_value js_malloc]; [by apply Done|by apply Done|]. clear D Done. assert (H' : core (mk_heap (map_state st) (recs st) (iters st) (tl (mem st))) gs es its cnt ms extra) by (by apply core_mem).
  destruct (hd true (mem st)) eqn:Em; cbn [negb]; [|by exists false; eexists _, 1%nat]. exists true. eexists _, 1%nat. split; [done|]. cbn [give_iter]. fold v. set (st1 := mk_heap _ _ _ _) in *.
  destruct (dup_spec hash _ _ _ _ _ _ _ e.1 H' Hk) as (A & _ & B & C & _). assert (Hv2 : holds (give cnt e.1) v) by (destruct v; try done; cbn in *; unfold give; pose proof (obj_is_nonneg p e.1); lia).
  destruct (dup_spec hash _ _ _ _ _ _ _ v A Hv2) as (A' & _ & B' & C' & _). split_and!; [done| |by rewrite C', C|done]. unfold full. by rewrite B', B.
Qed.

Lemma iterator_next_spec is_set st gs es its cnt ms extra q it pos : core st gs es its cnt ms extra -> full st ms -> (forall q, occ q es <= cnt q) -> iters st !! q = Some it -> its !! q = Some (kind it, pos) ->
  exists ok r st' gs' n, js_map_iterator_next is_set st q = Some (r, st') /\ full st' ms /\ mem st' = drop n (mem st) /\ (ok = false -> hd true (mem st) = false) /\ gs_le gs gs' /\
    match pos with
    | None => r = IterDone /\ core st' gs' es its cnt ms extra
    | Some j =>
        match next_entry es j with
        | Some (i, e) => r = iter_answer is_set ok (kind it) e /\ core st' gs' es (<[q := (kind it, Some (S i))]> its) (give_iter cnt r) ms extra
        | None => r = IterDone /\ core st' gs' es (<[q := (kind it, None)]> its) cnt ms extra
        end
    end.
Proof.
  intros H Hf Hocc Hq Hpos. unfold js_map_iterator_next. rewrite Hq. cbn [mbind option_bind]. destruct (it_obj it) eqn:Ho; cbn [negb].
  2: { destruct (c_iter _ _ _ _ _ _ _ _ H q it Hq) as (_ & _ & pos' & Ep & Hr). unfold iter_rel in Hr. rewrite Ho in Hr. assert (pos = None) as -> by congruence. by exists true, IterDone, st, gs, 0%nat. }
  destruct (iter_leave _ _ _ _ _ _ _ _ _ _ H Hf Hq Ho Hpos) as (j & st1 & gs1 & -> & -> & Ei & Em & Hf1 & Hg & HD). cbn [mbind option_bind]. rewrite <- (next_loop_iters _ st1 (<[q := mk_it false (kind it) None (it_refs it)]> (iters st))).
  rewrite (next_loop_spec _ _ gs1 es _ _ _ _ j HD) by (change (map_state st1) with (map_state (set_iters st1 (<[q := mk_it false (kind it) None (it_refs it)]> (iters st)))); rewrite (c_records _ _ _ _ _ _ _ _ HD); rewrite <- (take_drop j gs1) at 2; rewrite omap_app, length_app; lia). cbn [mbind option_bind].
  destruct (next_entry es j) as [[i e]|] eqn:En; cbn [fmap option_fmap option_map fst mbind option_bind].
  - pose proof (next_entry_some _ _ _ _ En) as Ee. pose proof (lookup_lt_Some _ _ _ Ee) as Hlt. rewrite <- (c_len _ _ _ _ _ _ _ _ HD) in Hlt. apply lookup_lt_is_Some_2 in Hlt as [[p|] Hp]; [|apply (c_hole _ _ _ _ _ _ _ _ HD) in Hp; congruence].
    rewrite Hp. cbn [mbind option_bind]. destruct (c_rec _ _ _ _ _ _ _ _ HD i p Hp) as (r & e' & Er & Ee' & Hr). cbn [recs set_iters] in Er. rewrite Er. cbn [mbind option_bind]. assert (e' = Some e) as -> by congruence. destruct e as [k v]. destruct Hr as (He & Hkr & Hvr). destruct (holds_occ es cnt i k v Ee Hocc) as [Hk Hv].
    pose proof (iter_take _ _ _ _ _ _ _ q _ p r i (kind it) HD (lookup_insert_eq _ _ _) eq_refl eq_refl Hp Er) as HT. cbn [map_state recs iters mem set_iters it_refs] in HT. rewrite !insert_insert_eq in HT.
    rewrite Hkr, Hvr. set (st2 := set_iters _ _).
    assert (E2 : st2 = mk_heap (map_state st1) (<[p := with_refs r (ref_count r + 1)]> (recs st1)) (<[q := mk_it true (kind it) (Some p) (it_refs it)]> (iters st)) (mem st1)) by (unfold st2, set_iters, set_recs; cbn; by rewrite Ei).
    rewrite <- E2 in HT. destruct (core_dups st2 gs1 es _ cnt ms extra is_set (kind it) (k, v) HT) as (ok & st' & n & E & C & F & M & O); [|done|done|].
    + intros x rx Ex Hex. unfold st2 in Ex. cbn in Ex. destruct (decide (x = p)) as [-> |Hx]; [by apply (Hf1 p r)|]. rewrite lookup_insert_ne in Ex by done. by apply (Hf1 x rx).
    + assert (Em2 : mem st2 = mem st) by (rewrite E2; exact Em). rewrite Em2 in M, O. exists ok. eexists _, st', gs1, n. split; [exact E|]. split; [done|]. split; [done|]. split; [done|]. split; [done|]. split; [done|]. exact C.
  - exists true, IterDone. eexists _, gs1, 0%nat. split; [by rewrite Ei|]. split; [done|]. split; [done|]. split; [done|]. split; [done|]. split; [done|]. exact HD.
Qed.
End Iter.
