(* ===== verification/MapProps.v ===== *)
(** * Map and Set behave as ECMAScript says

    The refinement: what the code answers to a sequence of operations on a map
    and its iterators is what the list with holes answers. *)
From Stdlib Require Import ZArith Lia List.
From stdpp Require Import base numbers option list gmap.
From S2P Require Import Prelude Doubles Strings StrHash MapKeys Maps MapTable MapSpec MapInv MapOps MapIter.

Section Refine.
Context (same : JSValue -> JSValue -> option bool) (hash : JSValue -> Z -> bool -> Z) `{HK : !MapKey same hash} (is_set : bool).
Abbreviation core := (core hash).

(** The references the list accounts for. *)
Definition total (s : spec) : ptr -> Z := fun q => held s q + occ q (es s).

(** Records that forEach holds are the entries they were. *)
Definition anchored (extra : ptr -> Z) (spot : ptr -> nat) (gs : ghost) : Prop := forall p, 1 <= extra p -> gs !! spot p = Some (Some p).

(** [extra]: references to records that forEach holds, [spot]: their entries. *)
Definition map_inv (extra : ptr -> Z) (spot : ptr -> nat) (st : heap) (s : spec) : Prop :=
  exists gs ms, core st gs (es s) (its s) (total s) ms extra /\ full st ms /\ (forall q, 0 <= held s q) /\ anchored extra spot gs.

Lemma anchored_keep extra spot st gs e i c ms st' gs' e' i' c' ms' : core st gs e i c ms extra -> core st' gs' e' i' c' ms' extra -> anchored extra spot gs ->
  (forall j p, gs' !! j = Some (Some p) -> gs !! j = Some (Some p) \/ recs st !! p = None) -> anchored extra spot gs'.
Proof.
  intros H H' Ha Hg p Hp. destruct (recs st' !! p) as [r|] eqn:Er; [|pose proof (proj2 (c_extra _ _ _ _ _ _ _ _ H' p) Er); lia]. destruct (c_dom _ _ _ _ _ _ _ _ H' p) as [j Hj]; [by rewrite Er|]. destruct (Hg j p Hj) as [Hj'|E]; [|pose proof (proj2 (c_extra _ _ _ _ _ _ _ _ H p) E); lia].
  pose proof (c_inj _ _ _ _ _ _ _ _ H j _ p Hj' (Ha p Hp)) as ->. done.
Qed.

Lemma anchored_le extra spot st gs e i c ms st' gs' e' i' c' ms' : core st gs e i c ms extra -> core st' gs' e' i' c' ms' extra -> anchored extra spot gs -> gs_le gs gs' -> anchored extra spot gs'.
Proof. intros H H' Ha Hg. apply (anchored_keep extra spot _ _ _ _ _ _ _ _ _ _ _ _ H H' Ha). intros j p Hj. left. by apply Hg. Qed.

Definition all_ok (st : heap) : Prop := Forall (eq true) (mem st).

(** One operation of the code is one of the list. *)
Definition steps_to (extra : ptr -> Z) (spot : ptr -> nat) (st : heap) (s : spec) (o : op) : Prop :=
  exists ok st', let r := spec_step is_set ok s o in map_step same hash is_set st o = Some (r.1, st') /\ map_inv extra spot st' r.2 /\ (all_ok st -> ok = true /\ all_ok st').

Lemma anchored_add extra spot st gs e i c ms st' p e' i' c' ms' : core st gs e i c ms extra -> core st' (gs ++ [Some p]) e' i' c' ms' extra -> anchored extra spot gs -> recs st !! p = None -> anchored extra spot (gs ++ [Some p]).
Proof.
  intros H H' Ha Hp. apply (anchored_keep extra spot _ _ _ _ _ _ _ _ _ _ _ _ H H' Ha). intros j x Hj. apply lookup_app_Some in Hj as [Hj|[_ Hj]]; [by left|right]. apply list_lookup_singleton_Some in Hj as [_ [= ->]]. done.
Qed.

Lemma holds_held s v : (forall q, 0 <= held s q) -> holds (held s) v -> holds (total s) v.
Proof. intros _ Hv. destruct v; try done. cbn in *. unfold total. pose proof (occ_nonneg p (es s)). lia. Qed.

Lemma occ_total s q : (forall q, 0 <= held s q) -> occ q (es s) <= total s q.
Proof. intros H. unfold total. specialize (H q). lia. Qed.

Lemma held_give s v : (forall q, 0 <= held s q) -> forall q, 0 <= give (held s) v q.
Proof. intros H q. unfold give. specialize (H q). pose proof (obj_is_nonneg q v). lia. Qed.

Lemma inv_intro extra spot st gs ms e i h cnt : core st gs e i cnt ms extra -> full st ms -> (forall q, 0 <= h q) -> (forall q, cnt q = h q + occ q e) -> anchored extra spot gs -> map_inv extra spot st (mk_spec e i h).
Proof. intros C F H E A. exists gs, ms. split; [|done]. eapply core_cnt; [|exact C]. intros q. unfold total. cbn. by rewrite E. Qed.

Lemma all_ok_drop st st' n : mem st' = drop n (mem st) -> all_ok st -> all_ok st'.
Proof. unfold all_ok. intros ->. by apply Forall_drop. Qed.

Lemma all_ok_same st st' : mem st' = mem st -> all_ok st -> all_ok st'.
Proof. unfold all_ok. by intros ->. Qed.

Lemma all_ok_hd st : hd true (mem st) = false -> all_ok st -> False.
Proof. unfold all_ok. destruct (mem st); cbn; [done|]. intros ->. rewrite Forall_cons. by intros [? _]. Qed.

Lemma release_entry (s : spec) i k v0 v : es s !! i = Some (Some (k, v0)) -> holds (held s) v -> holds (release (total s) v0) v.
Proof. intros Ee Hv. destruct v; try done. cbn in *. unfold release, total. pose proof (occ_lookup p (es s) i _ Ee) as H. cbn in H. pose proof (obj_is_nonneg p k). lia. Qed.

Lemma full_dup st v ms : full st ms -> full (JS_DupValue st v) ms.
Proof. unfold full. intros H. assert (E : recs (JS_DupValue st v) = recs st) by (destruct v; try done; cbn; by destruct (iters st !! p)). by rewrite E. Qed.

Lemma full_value st ms p r v : full st ms -> recs st !! p = Some r -> full (set_recs st (<[p := with_value r v]> (recs st))) ms.
Proof. intros H Er x rx Ex He. cbn in Ex. destruct (decide (x = p)) as [-> |Hx]; [rewrite lookup_insert_eq in Ex; injection Ex as <-; by apply (H p r)|]. rewrite lookup_insert_ne in Ex by done. by apply (H x rx). Qed.

Lemma full_evolves st gs st' gs' ms : full st ms -> evolves st gs st' gs' -> full st' ms.
Proof.
  intros H V x r Ex He. pose proof (ev_recs _ _ _ _ V x) as A. destruct (recs st !! x) as [r0|] eqn:E0; [|congruence]. destruct A as [[c Ec]|[_ Ec]]; [|congruence]. rewrite Ex in Ec. injection Ec as ->. by apply (H x r0).
Qed.

(** Writing the value of the record that was added. *)
Lemma write_last st gs e i cnt ms extra p k v : core st (gs ++ [Some p]) (e ++ [Some (k, JS_UNDEFINED)]) i cnt ms extra -> full st ms ->
  exists r, recs st !! p = Some r /\ core (set_recs st (<[p := with_value r v]> (recs st))) (gs ++ [Some p]) (e ++ [Some (k, v)]) i cnt ms extra /\ full (set_recs st (<[p := with_value r v]> (recs st))) ms.
Proof.
  intros H Hf. pose proof (c_len _ _ _ _ _ _ _ _ H) as Hl. rewrite !length_app in Hl. cbn in Hl. assert (Hi : (gs ++ [Some p]) !! length e = Some (Some p)) by (replace (length e) with (length gs) by lia; by rewrite lookup_app_r, Nat.sub_diag).
  assert (He : (e ++ [Some (k, JS_UNDEFINED)]) !! length e = Some (Some (k, JS_UNDEFINED))) by (by rewrite lookup_app_r, Nat.sub_diag).
  destruct (c_rec _ _ _ _ _ _ _ _ H _ p Hi) as (r & _ & Er & _). exists r. split; [done|]. split; [|by apply full_value].
  pose proof (core_value hash _ _ _ _ _ _ _ _ _ _ _ _ v H Hi Er He) as C. by rewrite insert_app_r_alt, Nat.sub_diag in C.
Qed.

Lemma step_set extra spot st s k v : map_inv extra spot st s -> enabled s (OSet k v) -> steps_to extra spot st s (OSet k v).
Proof.
  intros (gs & ms & H & Hf & H0 & Ha) (Hk & Hhk & Hhv & Hl). destruct (normalize_ok k Hk) as (Hk' & Hn & Ek). unfold steps_to. cbn [map_step spec_step]. unfold js_map_set. rewrite <- (find_entry_key (es s) _ _ Ek). 
  assert (Hhk' : holds (total s) (map_normalize_key k)) by (apply holds_held; [done|]; destruct k; try done; cbn; by destruct (is_zero bits)). pose proof (holds_held s v H0 Hhv) as Hv.
  destruct (map_find_spec same hash _ _ _ _ _ _ _ _ H Hf Hk' Hn) as (o & st1 & ms1 & -> & H1 & Hf1 & Ei & Em & Ho). cbn [mbind option_bind]. destruct o as [p|].
  - destruct Ho as (i & r & [k0 v0] & Hi & Er & He & Hkr & Hvr & ->). rewrite Er. cbn [mbind option_bind]. cbn in Hkr, Hvr. rewrite Hvr. assert (Ee : es s !! i = Some (Some (k0, v0))) by (destruct (c_rec _ _ _ _ _ _ _ _ H1 i p Hi) as (r' & e & ? & ? & Hr); assert (r' = r) as -> by congruence; destruct e as [[]|]; cbn in Hr; [destruct Hr as (_ & ? & ?)|]; congruence).
    destruct (holds_occ (es s) (total s) i k0 v0 Ee) as [_ Hv0]; [intros q; by apply occ_total|]. destruct (free_spec hash _ _ _ _ _ _ _ v0 H1 Hv0) as (st2 & gs2 & -> & H2 & V). cbn [mbind option_bind].
    destruct (evolves_live _ _ _ _ p r V Er He) as [c Ec]. assert (Hi2 : gs2 !! i = Some (Some p)). { destruct (c_dom _ _ _ _ _ _ _ _ H2 p) as [j Hj]; [by rewrite Ec|]. pose proof (c_inj _ _ _ _ _ _ _ _ H1 j i p (ev_gs _ _ _ _ V j p Hj) Hi) as ->. done. }
    destruct (dup_spec hash _ _ _ _ _ _ _ v H2 (release_entry s i k0 v0 v Ee Hhv)) as (H3 & _ & E3 & M3 & _). rewrite E3, Ec. cbn [mbind option_bind]. exists true. eexists. split; [reflexivity|].
    assert (Ec' : recs (JS_DupValue st2 v) !! p = Some (with_refs r c)) by (by rewrite E3). split; [|intros Hm; split; [done|]; apply (all_ok_same st); [|done]; cbn; rewrite M3; destruct (ev_table _ _ _ _ V) as (_ & _ & _ & _ & ->); done].
    rewrite <- E3. eapply inv_intro; [exact (core_value hash _ _ _ _ _ _ _ _ _ _ _ _ v H3 Hi2 Ec' Ee)| |done| |exact (anchored_le _ _ _ _ _ _ _ _ _ _ _ _ _ _ H1 H2 Ha (ev_gs _ _ _ _ V))].
    + apply full_value; [|done]. apply full_dup. by apply (full_evolves st1 gs st2 gs2).
    + intros q. unfold give, release, total. rewrite (occ_insert q _ _ _ _ Ee). cbn [occ_entry]. lia.
  - rewrite Ho. destruct (map_add_spec same hash _ _ _ _ _ _ _ _ H1 Hf1 Ho Hk' Hn Hhk' Hl) as (o & st2 & ms2 & -> & Hf2 & Hr). cbn [mbind option_bind]. destruct o as [p|].
    + destruct Hr as (H2 & Hp & j & M2). destruct (dup_spec hash _ _ _ _ _ _ _ v H2) as (H3 & _ & E3 & M3 & _); [destruct v; try done; cbn in *; unfold give; pose proof (obj_is_nonneg p0 (map_normalize_key k)); lia|].
      destruct (write_last _ _ _ _ _ _ _ _ _ v H3 (full_dup _ _ _ Hf2)) as (r & Er & H4 & Hf4). rewrite Er. cbn [mbind option_bind]. exists true. eexists. split; [reflexivity|]. split; [|intros Hm; split; [done|]; apply (all_ok_drop st _ j); [cbn; congruence|done]].
      eapply inv_intro; [exact H4|exact Hf4|done| |exact (anchored_add _ _ _ _ _ _ _ _ _ _ _ _ _ _ H1 H2 Ha Hp)]. intros q. unfold give, total. rewrite occ_app. cbn. lia.
    + destruct Hr as (H2 & Hhd & M2). exists false, st2. split; [done|]. split; [by exists gs, ms2|]. intros Hm. destruct (all_ok_hd st); [by rewrite <- Em|done].
Qed.

(** The entry that a search has found. *)
Lemma found_entry st gs e i cnt ms extra k p : core st gs e i cnt ms extra -> found_at st gs e k p ->
  exists j r k0 v0, recs st !! p = Some r /\ value r = v0 /\ find_entry e k = Some (j, (k0, v0)) /\ e !! j = Some (Some (k0, v0)).
Proof. intros H (j & r & [k0 v0] & _ & Er & _ & _ & Hv & Hf). exists j, r, k0, v0. split_and!; try done. by apply find_entry_some in Hf as [? _]. Qed.

(** Handing out a value of the map. *)
Lemma give_value extra spot st gs ms s j k0 v0 : core st gs (es s) (its s) (total s) ms extra -> full st ms -> (forall q, 0 <= held s q) -> anchored extra spot gs -> es s !! j = Some (Some (k0, v0)) ->
  map_inv extra spot (JS_DupValue st v0) (mk_spec (es s) (its s) (give (held s) v0)) /\ mem (JS_DupValue st v0) = mem st.
Proof.
  intros H Hf H0 Ha Ee. destruct (holds_occ (es s) (total s) j k0 v0 Ee) as [_ Hv0]; [intros q; by apply occ_total|]. destruct (dup_spec hash _ _ _ _ _ _ _ v0 H Hv0) as (H3 & _ & _ & M3 & _). split; [|done].
  eapply inv_intro; [exact H3|by apply full_dup|by apply held_give| |done]. intros q. unfold give, total. lia.
Qed.

Lemma step_get extra spot st s k : map_inv extra spot st s -> enabled s (OGet k) -> steps_to extra spot st s (OGet k).
Proof.
  intros (gs & ms & H & Hf & H0 & Ha) Hk. cbn in Hk. destruct (normalize_ok k Hk) as (Hk' & Hn & Ek). unfold steps_to. cbn [map_step spec_step]. unfold js_map_get. rewrite <- (find_entry_key (es s) _ _ Ek).
  destruct (map_find_spec same hash _ _ _ _ _ _ _ _ H Hf Hk' Hn) as (o & st1 & ms1 & -> & H1 & Hf1 & Ei & Em & Ho). cbn [mbind option_bind]. exists true. destruct o as [p|].
  - destruct (found_entry _ _ _ _ _ _ _ _ _ H1 Ho) as (j & r & k0 & v0 & Er & Hv & -> & Ee). rewrite Er. cbn [mbind option_bind]. rewrite Hv. destruct (give_value extra spot st1 gs ms1 s j k0 v0 H1 Hf1 H0 Ha Ee) as [A B]. eexists. split; [reflexivity|]. split; [done|]. intros Hm. split; [done|]. apply (all_ok_same st); [cbn; congruence|done].
  - rewrite Ho. eexists. split; [reflexivity|]. split; [by exists gs, ms1|]. intros Hm. split; [done|]. by apply (all_ok_same st).
Qed.

Lemma step_has extra spot st s k : map_inv extra spot st s -> enabled s (OHas k) -> steps_to extra spot st s (OHas k).
Proof.
  intros (gs & ms & H & Hf & H0 & Ha) Hk. cbn in Hk. destruct (normalize_ok k Hk) as (Hk' & Hn & Ek). unfold steps_to. cbn [map_step spec_step]. unfold js_map_has. rewrite <- (find_entry_key (es s) _ _ Ek).
  destruct (map_find_spec same hash _ _ _ _ _ _ _ _ H Hf Hk' Hn) as (o & st1 & ms1 & -> & H1 & Hf1 & Ei & Em & Ho). cbn [mbind option_bind fst snd]. exists true, st1. split; [|split; [by exists gs, ms1|intros Hm; split; [done|]; by apply (all_ok_same st)]].
  destruct o as [p|]; [destruct (found_entry _ _ _ _ _ _ _ _ _ H1 Ho) as (j & r & k0 & v0 & _ & _ & -> & _)|rewrite Ho]; done.
Qed.

Lemma step_get_or_insert extra spot st s k v : map_inv extra spot st s -> enabled s (OGetOrInsert k v) -> steps_to extra spot st s (OGetOrInsert k v).
Proof.
  intros (gs & ms & H & Hf & H0 & Ha) (Hk & Hhk & Hhv & Hl). destruct (normalize_ok k Hk) as (Hk' & Hn & Ek). unfold steps_to. cbn [map_step spec_step]. unfold js_map_getOrInsert. rewrite <- (find_entry_key (es s) _ _ Ek).
  assert (Hhk' : holds (give (total s) v) (map_normalize_key k)) by (destruct k; try done; cbn in *; [by destruct (is_zero bits)|unfold give, total; pose proof (occ_nonneg p (es s)); pose proof (obj_is_nonneg p v); lia]). pose proof (holds_held s v H0 Hhv) as Hv.
  destruct (map_find_spec same hash _ _ _ _ _ _ _ _ H Hf Hk' Hn) as (o & st1 & ms1 & -> & H1 & Hf1 & Ei & Em & Ho). cbn [mbind option_bind]. destruct o as [p|].
  - destruct (found_entry _ _ _ _ _ _ _ _ _ H1 Ho) as (j & r & k0 & v0 & Er & Hvr & -> & Ee). rewrite Er. cbn [mbind option_bind]. rewrite Hvr. destruct (give_value extra spot st1 gs ms1 s j k0 v0 H1 Hf1 H0 Ha Ee) as [A B]. exists true. eexists. split; [reflexivity|]. split; [done|]. intros Hm. split; [done|]. apply (all_ok_same st); [cbn; congruence|done].
  - rewrite Ho. destruct (dup_spec hash _ _ _ _ _ _ _ v H1 Hv) as (H2 & _ & E2 & M2 & _). pose proof (full_dup st1 v ms1 Hf1) as Hf2.
    destruct (map_add_spec same hash _ _ _ _ _ _ _ _ H2 Hf2 Ho Hk' Hn Hhk' Hl) as (o & st3 & ms3 & -> & Hf3 & Hr). cbn [mbind option_bind]. destruct o as [p|].
    + destruct Hr as (H3 & Hp & j & M3). destruct (write_last _ _ _ _ _ _ _ _ _ v H3 Hf3) as (r & Er & H4 & Hf4). rewrite Er. cbn [mbind option_bind].
      destruct (dup_spec hash _ _ _ _ _ _ _ v H4) as (H5 & _ & _ & M5 & _); [destruct v; try done; cbn in *; unfold give; pose proof (obj_is_nonneg p0 (map_normalize_key k)); rewrite obj_is_eq; lia|].
      exists true. eexists. split; [reflexivity|]. split; [|intros Hm; split; [done|]; apply (all_ok_drop st _ j); [cbn [snd fst]; rewrite M5; cbn; congruence|done]].
      eapply inv_intro; [exact H5|by apply full_dup|by apply held_give| |exact (anchored_add _ _ _ _ _ _ _ _ _ _ _ _ _ _ H2 H3 Ha Hp)]. intros q. unfold give, total. rewrite occ_app. cbn. lia.
    + destruct Hr as (H3 & Hhd & M3). destruct (free_spec hash _ _ _ _ _ _ _ v H3) as (st4 & gs4 & -> & H4 & V); [destruct v; try done; cbn; unfold give; rewrite obj_is_eq; cbn in Hv; lia|]. cbn [mbind option_bind]. exists false, st4. split; [done|]. split.
      * exists gs4, ms3. split; [|split; [by apply (full_evolves st3 gs st4 gs4)|split; [done|exact (anchored_le _ _ _ _ _ _ _ _ _ _ _ _ _ _ H3 H4 Ha (ev_gs _ _ _ _ V))]]]. eapply core_cnt; [|exact H4]. intros q. unfold give, release. cbn [fst snd]. lia.
      * intros Hm. destruct (all_ok_hd st); [by rewrite <- Em, <- M2|done].
Qed.

Lemma step_delete extra spot st s k : map_inv extra spot st s -> enabled s (ODelete k) -> steps_to extra spot st s (ODelete k).
Proof.
  intros (gs & ms & H & Hf & H0 & Ha) Hk. unfold steps_to. cbn [map_step spec_step]. unfold js_map_delete. destruct (map_delete_spec same hash _ _ _ _ _ _ _ k H Hf Hk) as (b & st1 & gs1 & ms1 & -> & M & Hg & Hf1 & Hr); [intros q; by apply occ_total|]. cbn [mbind option_bind fst snd]. exists true, st1.
  destruct (find_entry (es s) k) as [[i e]|] eqn:Ef; destruct Hr as [-> H1]; cbn [fst snd]; (split; [done|]; split; [|intros Hm; split; [done|]; by apply (all_ok_same st)]).
  - apply find_entry_some in Ef as [Ee _]. eapply inv_intro; [exact H1|done|done| |exact (anchored_le _ _ _ _ _ _ _ _ _ _ _ _ _ _ H H1 Ha Hg)]. intros q. unfold total. rewrite (occ_insert q _ _ _ None Ee). cbn [occ_entry]. destruct e. lia.
  - exists gs1, ms1. split_and!; try done. exact (anchored_le _ _ _ _ _ _ _ _ _ _ _ _ _ _ H H1 Ha Hg).
Qed.

Lemma step_clear extra spot st s : map_inv extra spot st s -> enabled s OClear -> steps_to extra spot st s OClear.
Proof.
  intros (gs & ms & H & Hf & H0 & Ha) Hen. unfold steps_to. cbn [map_step spec_step]. destruct (map_clear_spec hash st gs (es s) (its s) (total s) ms extra H) as (st1 & gs1 & -> & H1 & Hf1 & M & Hg).
  - intros q. by apply occ_total.
  - destruct Hen as [Hen|Hen]; [left|right].
    + intros p r _ Er. destruct (empty r) eqn:He; [|by left]. destruct (decide (1 <= extra p)) as [?|Hx]; [by right|]. exfalso. destruct (c_refs _ _ _ _ _ _ _ _ H p r Er) as [A B]. rewrite He in A. destruct (standing_witness (iters st) p) as (q & it & Hq & Hs); [lia|]. rewrite stands_rec in Hs. apply bool_decide_eq_true in Hs.
      destruct (c_iter _ _ _ _ _ _ _ _ H q it Hq) as (_ & C & pos & Hp & R). unfold stand_rec, iter_rel in *. destruct (it_obj it); [|done]. rewrite Hs in R. destruct R as (i & Hi & ->). destruct (c_rec _ _ _ _ _ _ _ _ H i p Hi) as (r' & e & Er' & Ee & Hr). assert (r' = r) as -> by congruence. destruct e as [[]|]; cbn in Hr; [destruct Hr; congruence|].
      apply (Hen q). by exists (kind it), i.
    + intros q Hq. apply Hen. destruct (iters st !! q) as [it|] eqn:Eq; [|done]. destruct (c_iter _ _ _ _ _ _ _ _ H q it Eq) as (_ & _ & pos & -> & _). done.
  - cbn [mbind option_bind]. exists true, st1. split; [done|]. split; [|intros Hm; split; [done|]; by apply (all_ok_same st)]. eapply inv_intro; [exact H1|done|done| |exact (anchored_le _ _ _ _ _ _ _ _ _ _ _ _ _ _ H H1 Ha Hg)]. intros q. unfold total. assert (E : occ q (replicate (length (es s)) None) = 0) by (clear; generalize (length (es s)) as n; induction n as [|n IHn]; [done|]; cbn; unfold occ in IHn; rewrite IHn; done). lia.
Qed.

Lemma step_iter extra spot st s q kd : map_inv extra spot st s -> enabled s (OIter q kd) -> steps_to extra spot st s (OIter q kd).
Proof.
  intros (gs & ms & H & Hf & H0 & Ha) Hen. cbn in Hen. unfold steps_to. cbn [map_step spec_step]. unfold js_create_map_iterator.
  assert (Hmem : forall m, core (mk_heap (map_state st) (recs st) (iters st) m) gs (es s) (its s) (total s) ms extra) by (intros m; by apply (core_mem hash)).
  assert (Hfail : forall m, map_inv extra spot (mk_heap (map_state st) (recs st) (iters st) m) s) by (intros m; by exists gs, ms).
  cbn [js_malloc mem map_state recs iters]. destruct (hd true (mem st)) eqn:E1; cbn [negb]; [|exists false; eexists; split; [reflexivity|]; split; [by apply Hfail|]; intros Hm; by destruct (all_ok_hd st)].
  destruct (hd true (tl (mem st))) eqn:E2; cbn [negb].
  2: { exists false. eexists. split; [reflexivity|]. split; [by apply Hfail|]. intros Hm. unfold all_ok in Hm. destruct (mem st) as [|? [|b m]]; try done. cbn in E2. subst b. by inversion Hm as [|? ? _ Hm']; inversion Hm'. }
  assert (Hq : iters st !! q = None). { destruct (iters st !! q) as [it|] eqn:Eq; [|done]. destruct (c_iter _ _ _ _ _ _ _ _ H q it Eq) as (_ & C & _). unfold total in C. lia. }
  exists true. eexists. split; [reflexivity|]. split; [|intros Hm; split; [done|]; apply (all_ok_drop st _ 2); [cbn; by destruct (mem st) as [|? [|]]|done]]. cbn [fst snd].
  exists gs, ms. split; [|split; [done|split; [cbn; by apply held_give|done]]]. cbn [es its].
  refine (core_iters hash _ gs (es s) (its s) _ (total s) _ ms extra extra _ (Hmem _) _ _ _ _).
  - intros p. cbn [iters]. rewrite standing_insert by done. unfold stands_on, stands. cbn. rewrite bool_decide_eq_false_2 by done. lia.
  - apply (c_extra _ _ _ _ _ _ _ _ H).
  - intros x it E. cbn [iters] in E. unfold total, give. cbn [held es fst snd obj_is]. destruct (decide (x = q)) as [-> |Hx].
    + rewrite lookup_insert_eq in E. rewrite lookup_insert_eq. injection E as <-. rewrite bool_decide_eq_true_2 by done. cbn [it_refs kind]. split_and!; [lia|lia|]. by exists (Some 0%nat).
    + cbn in E. rewrite lookup_insert_ne in E by done. rewrite lookup_insert_ne by done. rewrite bool_decide_eq_false_2 by congruence. destruct (c_iter _ _ _ _ _ _ _ _ H x it E) as (A & B & C). unfold total in *. split_and!; [lia|lia|done].
  - intros x Hsx E. cbn in *. destruct (decide (x = q)) as [-> |Hx]; [by rewrite lookup_insert_eq in E|]. rewrite lookup_insert_ne in E by done. rewrite lookup_insert_ne in Hsx by done. unfold total, give. cbn [held es fst snd obj_is]. rewrite bool_decide_eq_false_2 by congruence. pose proof (c_dead _ _ _ _ _ _ _ _ H x Hsx E) as D. unfold total in D. lia.
Qed.

Lemma step_next extra spot st s q : map_inv extra spot st s -> enabled s (ONext q) -> steps_to extra spot st s (ONext q).
Proof.
  intros (gs & ms & H & Hf & H0 & Ha) [Hq Hh]. unfold steps_to. cbn [map_step spec_step]. destruct (iters st !! q) as [it|] eqn:Eq; [|pose proof (c_dead _ _ _ _ _ _ _ _ H q Hq Eq) as D; unfold total in D; pose proof (occ_nonneg q (es s)); lia].
  destruct (c_iter _ _ _ _ _ _ _ _ H q it Eq) as (_ & _ & pos & Ep & _). destruct (iterator_next_spec hash is_set _ _ _ _ _ _ _ q it pos H Hf (fun x => occ_total s x H0) Eq Ep) as (ok & r & st1 & gs1 & m & -> & Hf1 & M & Hok & Hg & Hr). cbn [mbind option_bind fst snd]. rewrite Ep. exists ok, st1. assert (Hmem : all_ok st -> ok = true /\ all_ok st1) by (intros Hm; split; [destruct ok; [done|]; destruct (all_ok_hd st); [by apply Hok|done]|by apply (all_ok_drop st _ m)]).
  destruct pos as [j|]; [destruct (next_entry (es s) j) as [[i e]|] eqn:En|]; destruct Hr as [-> H1]; cbn [fst snd]; (split; [done|]; split; [|exact Hmem]).
  - assert (Hgi : forall h x, give_iter h (iter_answer is_set ok (kind it) e) x - h x = give_iter (fun _ => 0) (iter_answer is_set ok (kind it) e) x /\ 0 <= give_iter (fun _ => 0) (iter_answer is_set ok (kind it) e) x).
    { intros h x. pose proof (obj_is_nonneg x e.1). pose proof (obj_is_nonneg x e.2). destruct (kind it), is_set, ok; cbn; unfold give; lia. }
    eapply inv_intro; [exact H1|done| | |exact (anchored_le _ _ _ _ _ _ _ _ _ _ _ _ _ _ H H1 Ha Hg)]; intros x; destruct (Hgi (held s) x) as [A B]; [specialize (H0 x); lia|]. destruct (Hgi (total s) x) as [A' _]. unfold total in *. lia.
  - exists gs1, ms. split_and!; try done. exact (anchored_le _ _ _ _ _ _ _ _ _ _ _ _ _ _ H H1 Ha Hg).
  - exists gs1, ms. split_and!; try done. exact (anchored_le _ _ _ _ _ _ _ _ _ _ _ _ _ _ H H1 Ha Hg).
Qed.

Lemma step_drop extra spot st s v : map_inv extra spot st s -> enabled s (ODrop v) -> steps_to extra spot st s (ODrop v).
Proof.
  intros (gs & ms & H & Hf & H0 & Ha) Hv. cbn in Hv. unfold steps_to. cbn [map_step spec_step]. destruct (free_spec hash _ _ _ _ _ _ _ v H (holds_held s v H0 Hv)) as (st1 & gs1 & -> & H1 & V). cbn [mbind option_bind]. exists true, st1. split; [done|]. split.
  - eapply inv_intro; [exact H1|by apply (full_evolves st gs st1 gs1)| | |exact (anchored_le _ _ _ _ _ _ _ _ _ _ _ _ _ _ H H1 Ha (ev_gs _ _ _ _ V))]; intros x; unfold release, total; [|lia]. specialize (H0 x). destruct v; cbn in *; try lia. case_bool_decide; subst; lia.
  - intros Hm. split; [done|]. apply (all_ok_same st); [|done]. apply (ev_table _ _ _ _ V).
Qed.

Lemma step_any extra spot st s o : map_inv extra spot st s -> enabled s o -> steps_to extra spot st s o.
Proof.
  destruct o; [apply step_set|apply step_get|apply step_has|apply step_get_or_insert|apply step_delete|apply step_clear| |apply step_iter|apply step_next|apply step_drop].
  intros H _. pose proof H as (gs & ms & C & _). exists true, st. split; [|split; [done|by intros Hm]]. cbn. unfold js_map_get_size. destruct (c_count _ _ _ _ _ _ _ _ C) as [-> _]. done.
Qed.

Lemma run_any prog extra spot n st s hist : map_inv extra spot st s -> enabled_run is_set prog n s hist ->
  exists oks st', let r := spec_run is_set prog oks s hist in length oks = n /\ map_run same hash is_set prog n st hist = Some (r.1, st') /\ map_inv extra spot st' r.2 /\ (all_ok st -> Forall (eq true) oks /\ all_ok st').
Proof.
  revert st s hist. induction n as [|n IH]; intros st s hist H He; [exists [], st; by split_and!|]. cbn [map_run enabled_run] in *. destruct (prog hist) as [o|] eqn:Ep.
  - destruct He as [He Hrest]. destruct (step_any extra spot st s o H He) as (ok & st1 & E & H1 & M). destruct (IH st1 _ _ H1 (Hrest ok)) as (oks & st2 & L & E2 & H2 & M2). exists (ok :: oks), st2. cbn [spec_run length]. rewrite Ep, E. cbn [mbind option_bind fst snd].
    split_and!; [by rewrite L|exact E2|exact H2|]. intros Hm. destruct (M Hm) as [-> Hm1]. destruct (M2 Hm1) as [F Hm2]. split; [by constructor|done].
  - exists (replicate (S n) true), st. cbn [replicate spec_run length]. rewrite Ep, length_replicate. split_and!; try done. intros Hm. split; [|done]. constructor; [done|]. by apply Forall_replicate.
Qed.

(** The state that the constructor makes. *)
Lemma inv_init m st h : js_map_constructor m = Some st -> (forall q, 0 <= h q) -> map_inv (fun _ => 0) (fun _ => 0%nat) st (spec_init h).
Proof.
  unfold js_map_constructor. destruct (negb (hd true m)); [done|]. destruct (negb (hd true (tl m))); [done|]. intros [= <-] Hh. exists [], []. split; [|split; [|split; [done|intros p Hp; lia]]].
  - constructor; try done.
    + intros p [r Hr]. done.
    + intros q [x Hx]. done.
    + apply (chain_empty hash 1 false ∅ 2). done.
    + intros p Hp. by apply not_elem_of_nil in Hp.
  - intros p r Er. done.
Qed.
End Refine.

(** C7. Map and Set, with the hash of a runtime whose key is not next to the prime:
    a new map answers every program of set, get, has, getOrInsert, delete, clear,
    size, iterator and next with what the list of ECMAScript answers, through
    growth of the table, the change to the keyed hash, deletion during iteration
    and the end of iterators, and no access touches a freed record.  An operation
    fails only when an allocation does.  The program calls clear only while no
    iterator stands on a deleted entry or none is a key or a value of the map
    ([clear_uses_freed_record] shows why), and an object it stores is an iterator
    or holds none. *)
Theorem map_ops_refine seed is_set m h prog n st : fits 64 seed -> atom_hash_key2 (hash_string_seed_runtime seed) <= HASH_STRING_PRIME - 2 ^ 50 ->
  js_map_constructor m = Some st -> (forall q, 0 <= h q) -> enabled_run is_set prog n (spec_init h) [] ->
  exists oks st', length oks = n /\
    map_run js_same_value_zero (map_hash_key (hash_string_seed_runtime seed)) is_set prog n st [] = Some ((spec_run is_set prog oks (spec_init h) []).1, st') /\
    (Forall (eq true) (mem st) -> Forall (eq true) oks).
Proof.
  intros Hs Hk Hc Hh He. pose proof (runtime_MapKey seed Hs Hk) as HK.
  destruct (run_any js_same_value_zero (map_hash_key (hash_string_seed_runtime seed)) is_set prog (fun _ => 0) (fun _ => 0%nat) n st (spec_init h) []) as (oks & st' & L & E & _ & M); [by apply (inv_init _ m)|done|].
  exists oks, st'. split; [exact L|]. split; [exact E|]. intros Hm. by apply M.
Qed.

(** A list of operations that stops at the first exception. *)
Definition throws (a : answer) : bool := match a with AThrow | AIter IterThrow => true | _ => false end.
Definition until_throw (ops : list op) (hist : list answer) : option op := if existsb throws hist then None else ops !! length hist.

Fixpoint enabled_ops (is_set : bool) (s : spec) (ops : list op) : Prop :=
  match ops with
  | [] => True
  | o :: ops => enabled s o /\ enabled_ops is_set (spec_step is_set true s o).2 ops
  end.

(** Where it does not throw, the allocator has no say. *)
Lemma step_throws is_set s o : throws (spec_step is_set false s o).1 = true \/ spec_step is_set false s o = spec_step is_set true s o.
Proof.
  destruct o; cbn; try (by right); try (by left); try (destruct (find_entry (es s) k) as [[i [k0 v0]]|]; by (left + right)).
  destruct (its s !! q) as [[[] [j|]]|]; try (by right); destruct (next_entry (es s) j) as [[i e]|]; by (left + right).
Qed.

Lemma until_throw_stops ops hist a : throws a = true -> until_throw ops (hist ++ [a]) = None.
Proof. intros H. unfold until_throw. rewrite existsb_app. cbn. by rewrite H, orb_true_r. Qed.

Lemma until_throw_enabled is_set all n s hist ops : drop (length hist) all = ops -> enabled_ops is_set s ops -> enabled_run is_set (until_throw all) n s hist.
Proof.
  revert s hist ops. induction n as [|n IH]; intros s hist ops Hd He; [exact I|]. cbn [enabled_run]. unfold until_throw at 1. destruct (existsb _ hist); [exact I|]. destruct (all !! length hist) as [o|] eqn:Eo; [|exact I]. rewrite (drop_S all o _ Eo) in Hd. subst ops. destruct He as [He Hr]. split; [done|].
  assert (Hnext : forall a, enabled_run is_set (until_throw all) n (spec_step is_set true s o).2 (hist ++ [a])) by (intros a; apply (IH _ _ (drop (S (length hist)) all)); [by rewrite length_app, Nat.add_1_r|done]).
  intros []; [apply Hnext|]. destruct (step_throws is_set s o) as [E|E]; [|rewrite E; apply Hnext]. destruct n as [|n]; [exact I|]. cbn [enabled_run]. by rewrite until_throw_stops.
Qed.

(** Deletion during an iteration: 1 is answered and deleted, 0 follows. *)
Definition iteration : list op :=
  [OSet (JS_INT 1) JS_NULL; OSet (JS_FLOAT64 (2 ^ 63)) (JS_INT 5); OIter 7 JS_ITERATOR_KIND_KEY; ONext 7; ODelete (JS_INT 1); ONext 7; ODrop (JS_OBJECT 7); OSize].

Lemma iteration_enabled : enabled_ops false (spec_init (fun _ => 0)) iteration.
Proof. repeat split; vm_compute; first [discriminate|reflexivity|by eexists]. Qed.

Lemma map_ops_refine_witness : exists st oks st', js_map_constructor [] = Some st /\
  map_run js_same_value_zero (map_hash_key (hash_string_seed_runtime 1)) false (until_throw iteration) 8 st [] = Some ((spec_run false (until_throw iteration) oks (spec_init (fun _ => 0)) []).1, st') /\
  (spec_run false (until_throw iteration) oks (spec_init (fun _ => 0)) []).1 = [AVoid; AVoid; AVoid; AIter (IterValue (JS_INT 1)); ABool true; AIter (IterValue (JS_INT 0)); AVoid; ASize 1].
Proof.
  destruct (map_ops_refine 1 false [] (fun _ => 0) (until_throw iteration) 8 (mk_heap (mk_map [] 0 [None; None] 1 4 false) ∅ ∅ [])) as (oks & st' & L & E & O).
  - unfold fits. lia.
  - vm_compute. discriminate.
  - reflexivity.
  - intros q. lia.
  - apply (until_throw_enabled false iteration 8 _ [] iteration); [reflexivity|exact iteration_enabled].
  - eexists _, oks, st'. split; [reflexivity|]. split; [exact E|]. specialize (O (List.Forall_nil _)).
    assert (oks = replicate 8 true) as ->. { apply list_eq. intros i. destruct (oks !! i) as [b|] eqn:Eb. - rewrite List.Forall_forall in O. rewrite <- (O b) by (by apply list_elem_of_In, (list_elem_of_lookup_2 _ i)). symmetry. apply lookup_replicate_2. rewrite <- L. by apply lookup_lt_Some in Eb. - apply lookup_ge_None in Eb. symmetry. apply lookup_ge_None_2. rewrite length_replicate. lia. }
    reflexivity.
Defined.

(** ** Two accesses to freed records *)

Definition run_list (ops : list op) : option heap :=
  st ← js_map_constructor [];
  snd <$> map_run js_same_value_zero (map_hash_key (hash_string_seed_runtime 1)) false (until_throw ops) (length ops) st [].

(** An iterator stands on the deleted record 2 and only the record of 1 refers to it. *)
Definition iterator_in_map : list op :=
  [OSet (JS_INT 1) JS_NULL; OSet (JS_INT 2) JS_NULL; OSet (JS_INT 3) JS_NULL; OIter 7 JS_ITERATOR_KIND_KEY; ONext 7; ONext 7;
   ODelete (JS_INT 2); OSet (JS_INT 1) (JS_OBJECT 7); ODrop (JS_OBJECT 7)].

(** js_map_clear takes the next link before it deletes a record.  Deleting the
    record of 1 ends the iterator, which frees the next record, and the loop goes
    on with it: clear needs its condition. *)
Lemma clear_uses_freed_record : (st ← run_list iterator_in_map; js_map_clear st) = None /\ is_Some (run_list iterator_in_map) /\
  is_Some (st ← run_list (removelast iterator_in_map); js_map_clear st).
Proof. split_and!; vm_compute; [reflexivity|by eexists|by eexists]. Qed.

(** A function that returns the only reference to the iterator for the first entry. *)
Definition return_iterator (st : heap) (v k : JSValue) : option (option JSValue * heap) :=
  Some (Some (match k with JS_INT 1 => JS_OBJECT 7 | _ => JS_UNDEFINED end), st).

(** js_map_forEach takes the next link before it gives up what the function
    returned, which ends the iterator and frees the next record. *)
Lemma forEach_uses_freed_record :
  let ops := [OSet (JS_INT 1) JS_NULL; OSet (JS_INT 2) JS_NULL; OSet (JS_INT 3) JS_NULL; OIter 7 JS_ITERATOR_KIND_KEY; ONext 7; ONext 7; ODelete (JS_INT 2)] in
  (st ← run_list ops; js_map_forEach return_iterator 10 false st) = None /\ is_Some (run_list ops) /\
  is_Some (st ← run_list ops; js_map_forEach (fun st _ _ => Some (Some JS_UNDEFINED, st)) 10 false st).
Proof. cbv zeta. split_and!; vm_compute; [reflexivity|by eexists|by eexists]. Qed.
