(* ===== verification/MapForEach.v ===== *)
(** * forEach

    js_map_forEach with a function that may change the map, add to it and use
    its iterators: it is called on the entries from first to last, as they are
    when their turn comes.  [MapCallback] is what the function promises. *)
From Stdlib Require Import ZArith Lia List.
From stdpp Require Import base numbers option list gmap.
From S2P Require Import Prelude Doubles Strings StrHash MapKeys Maps MapTable MapSpec MapInv MapOps MapIter MapProps.

(** The references of the arguments: for a Set both are the key. *)
Definition give_args (is_set : bool) (h : ptr -> Z) (k v : JSValue) : ptr -> Z := if is_set then give h k else give (give h k) v.
Definition release_args (is_set : bool) (h : ptr -> Z) (k v : JSValue) : ptr -> Z := if is_set then release h k else release (release h v) k.
Definition args_refs (is_set : bool) (k v : JSValue) (q : ptr) : Z := obj_is q k + (if is_set then 0 else obj_is q v).
Definition ret_refs (ret : option JSValue) (q : ptr) : Z := match ret with Some x => obj_is q x | None => 0 end.

(** The loop on the list from a position: [None] when the turns are not enough. *)
Fixpoint spec_forEach (call : spec -> JSValue -> JSValue -> option JSValue * spec) (n : nat) (is_set : bool) (s : spec) (pos : nat) : option (bool * spec) :=
  match n with
  | O => None
  | S n =>
      match next_entry (es s) pos with
      | None => Some (true, s)
      | Some (i, (k, v)) =>
          let (ret, s) := call (mk_spec (es s) (its s) (give_args is_set (held s) k v)) (if is_set then k else v) k in
          let h := release_args is_set (held s) k v in
          match ret with
          | None => Some (false, mk_spec (es s) (its s) h)
          | Some x => spec_forEach call n is_set (mk_spec (es s) (its s) (release h x)) (S i)
          end
      end
  end.

(** The function does what [scall] says whatever records are held, it keeps its
    arguments, it owns what it returns, and that is no iterator of the map. *)
Class MapCallback (hash : JSValue -> Z -> bool -> Z) (is_set : bool) (call : heap -> JSValue -> JSValue -> option (option JSValue * heap)) (scall : spec -> JSValue -> JSValue -> option JSValue * spec) : Prop := {
  cb_step extra spot st s k v : map_inv hash extra spot st s -> value_ok k -> (forall q, args_refs is_set k v q <= held s q) ->
    let r := scall s (if is_set then k else v) k in exists st', call st (if is_set then k else v) k = Some (r.1, st') /\ map_inv hash extra spot st' r.2;
  cb_refs s k v q : args_refs is_set k v q <= held s q -> let r := scall s (if is_set then k else v) k in args_refs is_set k v q + ret_refs r.1 q <= held r.2 q;
  cb_grows s a k : (length (es s) <= length (es (scall s a k).2))%nat;
  cb_ret s a k q : (scall s a k).1 = Some (JS_OBJECT q) -> its (scall s a k).2 !! q = None }.

Lemma ret_refs_nonneg ret q : 0 <= ret_refs ret q.
Proof. destruct ret; [apply obj_is_nonneg|done]. Qed.

Section ForEach.
Context (hash : JSValue -> Z -> bool -> Z) (is_set : bool) (call : heap -> JSValue -> JSValue -> option (option JSValue * heap)) (scall : spec -> JSValue -> JSValue -> option JSValue * spec).
Context `{HC : !MapCallback hash is_set call scall}.
Abbreviation core := (core hash).

Lemma spec_forEach_grows n s j b s' : spec_forEach scall n is_set s j = Some (b, s') -> (length (es s) <= length (es s'))%nat.
Proof.
  revert s j. induction n as [|n IH]; intros s j; [done|]. cbn [spec_forEach]. destruct (next_entry (es s) j) as [[i [k v]]|]; [|by intros [= _ ->]].
  pose proof (cb_grows (mk_spec (es s) (its s) (give_args is_set (held s) k v)) (if is_set then k else v) k) as G. cbn [es] in G. destruct (scall _ _ _) as [[x|] s2]; cbn [snd] in G; [|by intros [= _ <-]]. intros E. apply IH in E. cbn [es] in E. lia.
Qed.

(** The loop passes over the empty records. *)
Lemma forEach_skip N fuel st gs e i cnt ms extra j : core st gs e i cnt ms extra -> (length e <= N)%nat -> (N - j <= fuel)%nat ->
  match next_entry e j with
  | None => forEach_loop call fuel is_set st (head (omap id (drop j gs))) = Some (true, st)
  | Some (x, _) => exists p fuel', gs !! x = Some (Some p) /\ (N - x <= fuel')%nat /\ (x < N)%nat /\ forEach_loop call fuel is_set st (head (omap id (drop j gs))) = forEach_loop call fuel' is_set st (Some p)
  end.
Proof.
  intros H HN. remember (length gs - j)%nat as n eqn:En. revert j fuel En. induction n as [n IH] using lt_wf_ind. intros j fuel En Hf. pose proof (c_len _ _ _ _ _ _ _ _ H) as Hl.
  destruct (gs !! j) as [o|] eqn:Ej.
  2: { apply lookup_ge_None in Ej. rewrite drop_ge by done. rewrite next_entry_end by lia. by destruct fuel. }
  pose proof (lookup_lt_Some _ _ _ Ej) as Hlt. rewrite (drop_S gs o j Ej). destruct o as [p|].
  - change (omap id (Some p :: drop (S j) gs)) with (p :: omap id (drop (S j) gs)). cbn [head]. destruct (c_rec _ _ _ _ _ _ _ _ H j p Ej) as (r & x & Er & Ee & Hr). destruct x as [[k v]|].
    + rewrite (next_entry_live e j _ Ee). exists p, fuel. split_and!; [done|done|lia|done].
    + rewrite (next_entry_hole e j Ee). destruct fuel as [|fuel]; [lia|]. assert (Hstep : forEach_loop call (S fuel) is_set st (Some p) = forEach_loop call fuel is_set st (head (omap id (drop (S j) gs)))).
      { cbn [forEach_loop]. rewrite Er. cbn [mbind option_bind]. cbn in Hr. rewrite Hr. cbn [negb]. by rewrite (drop_records hash _ _ _ _ _ _ _ j p H Ej). }
      rewrite Hstep. apply (IH (length gs - S j)%nat); lia.
  - change (omap id (None :: drop (S j) gs)) with (omap id (drop (S j) gs)). rewrite (next_entry_hole e j) by (by apply (c_hole _ _ _ _ _ _ _ _ H)). apply (IH (length gs - S j)%nat); lia.
Qed.

(** A reference to something that is not an iterator. *)
Lemma release_other st gs e i cnt ms extra v : core st gs e i cnt ms extra -> (forall q, v = JS_OBJECT q -> i !! q = None) -> JS_FreeValue st v = Some st /\ core st gs e i (release cnt v) ms extra.
Proof.
  intros H Hv. assert (Hne : forall x, is_Some (i !! x) -> obj_is x v = 0). { intros x [y Hx]. destruct v; try done. cbn. case_bool_decide as Hd; [|done]. subst p. rewrite (Hv x eq_refl) in Hx. done. }
  split.
  - apply free_other. intros q ->. destruct (iters st !! q) as [it|] eqn:Eq; [|done]. destruct (c_iter _ _ _ _ _ _ _ _ H q it Eq) as (_ & _ & pos & Hp & _). rewrite (Hv q eq_refl) in Hp. done.
  - destruct H; constructor; try done.
    + intros q it Hq. destruct (c_iter q it Hq) as (A & B & pos & C & D). unfold release. rewrite Hne by (by rewrite C). rewrite Z.sub_0_r. split_and!; try done. by exists pos.
    + intros q Hs Hq. unfold release. rewrite Hne by done. rewrite Z.sub_0_r. by apply c_dead.
Qed.

(** ** One turn *)

Lemma args_held is_s k v cnt : (forall q, args_refs is_s k v q <= cnt q) -> holds cnt (if is_s then k else v) /\ (is_s = false -> holds (release cnt v) k).
Proof.
  intros H. split; [|intros ->].
  - destruct is_s; [destruct k; try done|destruct v; try done]; cbn; specialize (H p); unfold args_refs in H; rewrite obj_is_eq in H; [|pose proof (obj_is_nonneg p k)]; lia.
  - destruct k; try done. cbn. specialize (H p). unfold args_refs in H. rewrite obj_is_eq in H. unfold release. lia.
Qed.

(** The record is held and the arguments have their references. *)
Lemma turn_args st gs s ms extra spot i p k v : core st gs (es s) (its s) (total s) ms extra -> full st ms -> (forall q, 0 <= held s q) -> anchored extra spot gs -> gs !! i = Some (Some p) -> es s !! i = Some (Some (k, v)) ->
  exists r, recs st !! p = Some r /\ empty r = false /\ key r = k /\ value r = v /\
    let st1 := JS_DupValue (set_recs st (<[p := with_refs r (ref_count r + 1)]> (recs st))) k in
    let st2 := if is_set then st1 else JS_DupValue st1 v in
    let s1 := mk_spec (es s) (its s) (give_args is_set (held s) k v) in
    map_inv hash (more extra p) (fun x => if decide (x = p) then i else spot x) st2 s1 /\ (forall q, args_refs is_set k v q <= held s1 q).
Proof.
  intros H Hf H0 Ha Hi Ee. destruct (c_rec _ _ _ _ _ _ _ _ H i p Hi) as (r & x & Er & Ee' & Hr). assert (x = Some (k, v)) as -> by congruence. destruct Hr as (He & Hk & Hv). exists r. split_and!; try done.
  set (st0 := set_recs st (<[p := with_refs r (ref_count r + 1)]> (recs st))). assert (HA : core st0 gs (es s) (its s) (total s) ms (more extra p)).
  { apply (core_refs hash st gs (es s) (its s) (total s) ms extra (more extra p) p r _ H Er); unfold more; [rewrite decide_True by done; destruct (c_refs _ _ _ _ _ _ _ _ H p r Er); lia|rewrite decide_True by done; pose proof (proj1 (c_extra _ _ _ _ _ _ _ _ H p)); lia|]. intros x Hx. rewrite decide_False by done. lia. }
  assert (Hf0 : full st0 ms). { intros x rx Ex Hx. cbn in Ex. destruct (decide (x = p)) as [-> |Hxp]; [by apply (Hf p r)|]. rewrite lookup_insert_ne in Ex by done. by apply (Hf x rx). }
  assert (Ha' : anchored (more extra p) (fun x => if decide (x = p) then i else spot x) gs). { intros x Hx. unfold more in Hx. case_decide as Hxp; [by subst x|]. apply Ha. lia. }
  destruct (holds_occ (es s) (total s) i k v Ee) as [Hhk Hhv]; [intros q; by apply occ_total|]. destruct (dup_spec hash _ _ _ _ _ _ _ k HA Hhk) as (HB & _). pose proof (full_dup st0 k ms Hf0) as HfB.
  cbn zeta. split; [|intros q; unfold args_refs, give_args; cbn [held]; specialize (H0 q); pose proof (obj_is_nonneg q v); destruct is_set; unfold give; lia]. unfold give_args. destruct is_set.
  - eapply inv_intro; [exact HB|exact HfB|by apply held_give| |exact Ha']. intros q. unfold give, total. lia.
  - destruct (dup_spec hash _ _ _ _ _ _ _ v HB) as (HD & _); [destruct v; try done; cbn in *; unfold give; pose proof (obj_is_nonneg p0 k); lia|]. eapply inv_intro; [exact HD|by apply full_dup| | |exact Ha']; intros q; unfold give, total; [|lia]. specialize (H0 q). pose proof (obj_is_nonneg q k). pose proof (obj_is_nonneg q v). lia.
Qed.

(** The references of the arguments are given up. *)
Lemma turn_free st gs s ms extra k v : core st gs (es s) (its s) (total s) ms extra -> full st ms -> (forall q, args_refs is_set k v q <= held s q) ->
  exists st' gs', (st ← JS_FreeValue st (if is_set then k else v); if is_set then Some st else JS_FreeValue st k) = Some st' /\
    core st' gs' (es s) (its s) (fun q => release_args is_set (held s) k v q + occ q (es s)) ms extra /\ full st' ms /\ gs_le gs gs'.
Proof.
  intros H Hf Hr. destruct (args_held is_set k v (total s)) as [H1 H2]; [intros q; specialize (Hr q); unfold total; pose proof (occ_nonneg q (es s)); lia|]. destruct (free_spec hash _ _ _ _ _ _ _ _ H H1) as (st1 & gs1 & -> & C1 & V1). cbn [mbind option_bind]. unfold release_args. destruct is_set.
  - exists st1, gs1. split; [done|]. split; [|split; [by apply (full_evolves st gs st1 gs1)|apply (ev_gs _ _ _ _ V1)]]. eapply core_cnt; [|exact C1]. intros q. unfold release, total. lia.
  - destruct (free_spec hash _ _ _ _ _ _ _ _ C1 (H2 eq_refl)) as (st2 & gs2 & -> & C2 & V2). pose proof (evolves_trans _ _ _ _ _ _ V1 V2) as V. exists st2, gs2. split; [done|]. split; [|split; [by apply (full_evolves st gs st2 gs2)|apply (ev_gs _ _ _ _ V)]]. eapply core_cnt; [|exact C2]. intros q. unfold release, total. lia.
Qed.

Lemma forEach_turn fuel st gs s ms extra spot i p k v : core st gs (es s) (its s) (total s) ms extra -> full st ms -> (forall q, 0 <= held s q) -> anchored extra spot gs -> gs !! i = Some (Some p) -> es s !! i = Some (Some (k, v)) ->
  let r := scall (mk_spec (es s) (its s) (give_args is_set (held s) k v)) (if is_set then k else v) k in
  let s' := mk_spec (es r.2) (its r.2) (release_args is_set (held r.2) k v) in
  exists st' gs' ms', forEach_loop call (S fuel) is_set st (Some p) =
      match r.1 with None => Some (false, st') | Some x => st ← JS_FreeValue st' x; forEach_loop call fuel is_set st (head (omap id (drop (S i) gs'))) end /\
    core st' gs' (es s') (its s') (total s') ms' extra /\ full st' ms' /\ (forall q, ret_refs r.1 q <= held s' q) /\ anchored extra spot gs'.
Proof.
  intros H Hf H0 Ha Hi Ee r s'. destruct (turn_args st gs s ms extra spot i p k v H Hf H0 Ha Hi Ee) as (rp & Er & He & Hk & Hv & Hinv & Hargs).
  assert (Hok : value_ok k) by (by apply (c_es _ _ _ _ _ _ _ _ H) in Ee as [? _]). destruct (cb_step _ _ _ _ _ _ Hinv Hok Hargs) as (st3 & Ec & gs3 & ms3 & H3 & Hf3 & Hh3 & Ha3). cbn zeta in Hargs.
  assert (Hrefs : forall q, args_refs is_set k v q + ret_refs r.1 q <= held r.2 q) by (intros q; apply (cb_refs _ k v q (Hargs q))). fold r in Ec, H3, Hh3.
  destruct (turn_free st3 gs3 r.2 ms3 _ k v H3 Hf3) as (st4 & gs4 & Ef & H4 & Hf4 & G4); [intros q; specialize (Hrefs q); pose proof (ret_refs_nonneg r.1 q); lia|].
  assert (Hi4 : gs4 !! i = Some (Some p)). { pose proof (anchored_le hash _ _ _ _ _ _ _ _ _ _ _ _ _ _ H3 H4 Ha3 G4 p) as A. cbn beta in A. rewrite decide_True in A by done. apply A. unfold more. rewrite decide_True by done. pose proof (proj1 (c_extra _ _ _ _ _ _ _ _ H p)). lia. }
  destruct (decref_record_spec hash _ _ _ _ _ _ _ p H4) as (st5 & gs5 & Ed & H5 & _ & T5 & Sh5 & G5); [unfold more; rewrite decide_True by done; pose proof (proj1 (c_extra _ _ _ _ _ _ _ _ H p)); lia|].
  assert (Hdrop : drop (S i) gs5 = drop (S i) gs4) by (eapply decref_drop; [exact H4|exact H5|done|exact G5|exact Hi4|]; intros x Hx; by apply (decref_others st4 st5 p)).
  assert (H5' : core st5 gs5 (es s') (its s') (total s') ms3 extra) by (eapply core_extra; [|exact H5]; intros x; by rewrite more_less).
  exists st5, gs5, ms3. split; [|split; [exact H5'|split; [|split]]].
  - cbn [forEach_loop]. rewrite Er. cbn [mbind option_bind]. rewrite He, Hk, Hv. cbn [negb]. assert (Ed' : forall A, (if is_set then A else JS_DupValue A (if is_set then k else v)) = (if is_set then A else JS_DupValue A v)) by (intros A; clear; by destruct is_set). rewrite Ed', Ec. cbn [mbind option_bind]. assert (Ef' : forall B (f : heap -> option B), (st ← JS_FreeValue st3 (if is_set then k else v); st ← (if is_set then Some st else JS_FreeValue st k); f st) = f st4).
    { intros B f. destruct (JS_FreeValue st3 (if is_set then k else v)) as [sx|]; [|done]. cbn [mbind option_bind] in Ef |- *. by rewrite Ef. }
    rewrite Ef', (drop_records hash _ _ _ _ _ _ _ i p H4 Hi4). cbn [mbind option_bind]. rewrite Ed. cbn [mbind option_bind]. by rewrite Hdrop.
  - intros x rx Ex Hx. specialize (Sh5 x). destruct (recs st4 !! x) as [r0|] eqn:E0; [|congruence]. destruct Sh5 as [[c E']|[_ E']]; [|congruence]. rewrite Ex in E'. injection E' as ->. by apply (Hf4 x r0).
  - intros q. specialize (Hrefs q). unfold s'. cbn [held]. unfold release_args, release, args_refs in *. destruct is_set; lia.
  - intros x Hx. assert (A4 : gs4 !! spot x = Some (Some x)).
    { destruct (decide (x = p)) as [-> |Hxp]; [rewrite <- (c_inj _ _ _ _ _ _ _ _ H i (spot p) p Hi (Ha p Hx)); exact Hi4|]. pose proof (anchored_le hash _ _ _ _ _ _ _ _ _ _ _ _ _ _ H3 H4 Ha3 G4 x) as A. cbn beta in A. rewrite decide_False in A by done. apply A. unfold more. rewrite decide_False by done. lia. }
    destruct (recs st5 !! x) as [rx|] eqn:Ex; [|pose proof (proj2 (c_extra _ _ _ _ _ _ _ _ H5' x) Ex); lia]. destruct (c_dom _ _ _ _ _ _ _ _ H5' x) as [j Hj]; [by rewrite Ex|]. pose proof (c_inj _ _ _ _ _ _ _ _ H4 j (spot x) x (G5 _ _ Hj) A4) as <-. done.
Qed.

Lemma forEach_run n st gs s ms extra spot j b s' fuel : core st gs (es s) (its s) (total s) ms extra -> full st ms -> (forall q, 0 <= held s q) -> anchored extra spot gs ->
  spec_forEach scall n is_set s j = Some (b, s') -> (length (es s') - j <= fuel)%nat -> exists st', forEach_loop call fuel is_set st (head (omap id (drop j gs))) = Some (b, st') /\ map_inv hash extra spot st' s'.
Proof.
  revert st gs s ms j fuel. induction n as [|n IH]; intros st gs s ms j fuel H Hf H0 Ha E Hfuel; [done|]. pose proof (spec_forEach_grows _ _ _ _ _ E) as HN. pose proof (forEach_skip (length (es s')) fuel st gs _ _ _ _ _ j H HN Hfuel) as Hskip.
  cbn [spec_forEach] in E. destruct (next_entry (es s) j) as [[i [k v]]|] eqn:En.
  2: { injection E as <- <-. exists st. split; [exact Hskip|]. by exists gs, ms. }
  destruct Hskip as (p & [|fuel'] & Hi & Hf' & Hlt & ->); [lia|]. destruct (forEach_turn fuel' st gs s ms extra spot i p k v H Hf H0 Ha Hi (next_entry_some _ _ _ _ En)) as (st1 & gs1 & ms1 & -> & H1 & Hf1 & Hr & Ha1).
  pose proof (cb_ret (mk_spec (es s) (its s) (give_args is_set (held s) k v)) (if is_set then k else v) k) as Hret. destruct (scall _ _ _) as [ret s2]. cbn [fst snd] in *. cbn [es its held] in *. destruct ret as [x|].
  - destruct (release_other _ _ _ _ _ _ _ x H1) as [-> H2]; [intros q ->; by apply Hret|]. cbn [mbind option_bind]. apply (IH st1 gs1 (mk_spec (es s2) (its s2) (release (release_args is_set (held s2) k v) x)) ms1 (S i) fuel'); try done; [| |lia].
    + eapply core_cnt; [|exact H2]. intros q. unfold release, total. cbn. lia.
    + intros q. cbn [held]. specialize (Hr q). cbn [ret_refs] in Hr. unfold release at 1. lia.
  - injection E as <- <-. exists st1. split; [done|]. exists gs1, ms1. by split_and!.
Qed.
End ForEach.

(** C23. For a function that works on the map as a program does and never returns
    an iterator of the map ([forEach_uses_freed_record] shows why), forEach calls
    it on the entries of the map in their order, each as it is when its turn comes, those that the function has added too and not
    those it has deleted, until the function throws; with one turn for each entry
    of the final list it returns, and the map is again a map. *)
Theorem map_forEach_refines hash is_set call scall `{HC : !MapCallback hash is_set call scall} extra spot n st s b s' :
  map_inv hash extra spot st s -> spec_forEach scall n is_set s 0 = Some (b, s') ->
  exists st', js_map_forEach call (length (es s')) is_set st = Some (b, st') /\ map_inv hash extra spot st' s'.
Proof.
  intros (gs & ms & H & Hf & H0 & Ha) E. unfold js_map_forEach. rewrite (c_records _ _ _ _ _ _ _ _ H), <- (drop_0 gs). apply (forEach_run hash is_set call scall n st gs s ms extra spot 0 b s'); try done. lia.
Qed.

(** A function that deletes the entry it is called on. *)
Definition delete_its_entry (same : JSValue -> JSValue -> option bool) (hash : JSValue -> Z -> bool -> Z) (st : heap) (v k : JSValue) : option (option JSValue * heap) :=
  r ← js_map_delete same hash st k; Some (Some JS_UNDEFINED, r.2).

Definition spec_delete_its_entry (is_set : bool) (s : spec) (v k : JSValue) : option JSValue * spec := (Some JS_UNDEFINED, (spec_step is_set true s (ODelete k)).2).

#[export] Instance delete_callback same hash `{HK : !MapKey same hash} is_set : MapCallback hash is_set (delete_its_entry same hash) (spec_delete_its_entry is_set).
Proof.
  split.
  - intros extra spot st s k v H Hk _. destruct (step_delete same hash is_set extra spot st s k H Hk) as (ok & st' & E & H' & _). cbn [map_step] in E. exists st'. unfold delete_its_entry. destruct (js_map_delete same hash st k) as [[b st1]|]; [|done]. cbn [mbind option_bind fst snd] in *. injection E as _ ->. split; [done|exact H'].
  - intros s k v q Hq. cbn. destruct (find_entry (es s) k) as [[i e]|]; cbn; lia.
  - intros s a k. cbn. destruct (find_entry (es s) k) as [[i e]|]; cbn; [by rewrite length_insert|done].
  - intros s a k q. done.
Qed.

Lemma map_forEach_refines_witness : let rt := map_hash_key (hash_string_seed_runtime 1) in
  exists st s st' s', map_inv rt (fun _ => 0) (fun _ => 0%nat) st s /\ live (es s) = 2 /\ js_map_forEach (delete_its_entry js_same_value_zero rt) 2 false st = Some (true, st') /\ map_inv rt (fun _ => 0) (fun _ => 0%nat) st' s' /\ live (es s') = 0.
Proof.
  intros rt. assert (HK : MapKey js_same_value_zero rt) by (apply runtime_MapKey; [unfold fits; lia|vm_compute; discriminate]).
  destruct (step_set js_same_value_zero rt false (fun _ => 0) (fun _ => 0%nat) _ _ (JS_INT 1) JS_NULL (inv_init rt [] (mk_heap (mk_map [] 0 [None; None] 1 4 false) ∅ ∅ []) (fun _ => 0) eq_refl (fun _ => Z.le_refl 0))) as (ok1 & st1 & _ & H1 & M1); [repeat split; vm_compute; first [discriminate|reflexivity]|].
  destruct (M1 (List.Forall_nil _)) as [-> M1']. destruct (step_set js_same_value_zero rt false (fun _ => 0) (fun _ => 0%nat) _ _ (JS_INT 2) JS_NULL H1) as (ok2 & st2 & _ & H2 & M2); [repeat split; vm_compute; first [discriminate|reflexivity]|].
  destruct (M2 M1') as [-> _]. destruct (map_forEach_refines rt false _ _ (HC := delete_callback js_same_value_zero rt false) (fun _ => 0) (fun _ => 0%nat) 3 st2 _ true (mk_spec [None; None] ∅ (fun q => 0)) H2) as (st3 & E & H3); [reflexivity|].
  eexists st2, _, st3, _. split; [exact H2|]. split; [reflexivity|]. split; [exact E|]. split; [exact H3|reflexivity].
Defined.
