(* ===== verification/RSet.v ===== *)
(** * Range sets

    The gap vector and the set of ranges of src/core/dyn-ds.c (gapvec,
    dyn_rset).  A range is half open; the ranges of a set are kept apart, in
    order, in an array with a gap at the place of the last change.

    A gap vector is a list of its [cap] cells; a cell that was never written is
    [None], and reading it, or an access outside of the array, is the outer
    [None].  The answers of the allocator are an argument. *)
From Stdlib Require Import ZArith Lia List.
From stdpp Require Import base numbers list option.
From S2P Require Import Prelude DsBase Doubles.

(** ** Gap vectors *)

Record gapvec (A : Type) := mk_gv { gv_p : list (option A); gv_len : Z; gv_cap : Z; gv_gs : Z }.
Arguments mk_gv {A}. Arguments gv_p {A}. Arguments gv_len {A}. Arguments gv_cap {A}. Arguments gv_gs {A}.

Definition gv_index {A} (g : gapvec A) (i : Z) : Z := if i <? gv_gs g then i else u32 (i + u32 (gv_cap g - gv_len g)).
Definition gv_at {A} (g : gapvec A) (i : Z) : option A := c ← aread (gv_p g) (gv_index g i); c.

(** memmove of [n] cells, and memcpy of new ones. *)
Definition gv_memmove {A} (l : list (option A)) (dst src n : Z) : option (list (option A)) :=
  if (0 <=? dst) && (0 <=? src) && (0 <=? n) && (dst + n <=? Z.of_nat (length l)) && (src + n <=? Z.of_nat (length l)) then
    Some (take (Z.to_nat dst) l ++ take (Z.to_nat n) (drop (Z.to_nat src) l) ++ drop (Z.to_nat (dst + n)) l)
  else None.

Definition gv_memcpy {A} (l : list (option A)) (dst : Z) (ins : list A) : option (list (option A)) :=
  if (0 <=? dst) && (dst + Z.of_nat (length ins) <=? Z.of_nat (length l)) then
    Some (take (Z.to_nat dst) l ++ (Some <$> ins) ++ drop (Z.to_nat (dst + Z.of_nat (length ins))) l)
  else None.

Definition gv_move_gap {A} (g : gapvec A) (at_ : Z) : option (gapvec A) :=
  let gap := u32 (gv_cap g - gv_len g) in
  p ← (if negb (gap =? 0) && (at_ <? gv_gs g) then gv_memmove (gv_p g) (u32 (at_ + gap)) at_ (u32 (gv_gs g - at_))
       else if negb (gap =? 0) && (gv_gs g <? at_) then gv_memmove (gv_p g) (gv_gs g) (u32 (gv_gs g + gap)) (u32 (at_ - gv_gs g))
       else Some (gv_p g));
  Some (mk_gv p (gv_len g) (gv_cap g) at_).

(** The new cells of a larger array are not written yet.  [false]: no memory. *)
Definition gv_splice {A} (esz : Z) (mem : list bool) (g : gapvec A) (at_ ndel : Z) (ins : list A) : option (bool * gapvec A * list bool) :=
  let need := u32 (gv_len g - ndel + Z.of_nat (length ins)) in
  r ← (if gv_cap g <? need then
         g ← gv_move_gap g (gv_len g);
         x ← ds_reserve mem (gv_cap g) need esz;
         match x with (ok, cap, mem) => Some (ok, mk_gv (gv_p g ++ replicate (Z.to_nat (cap - gv_cap g)) None) (gv_len g) cap (gv_gs g), mem) end
       else Some (true, g, mem));
  match r with
  | (false, g, mem) => Some (false, g, mem)
  | (true, g, mem) =>
      g ← gv_move_gap g at_;
      let len := u32 (gv_len g - ndel) in
      p ← (if negb (Z.of_nat (length ins) =? 0) then gv_memcpy (gv_p g) (gv_gs g) ins else Some (gv_p g));
      Some (true, mk_gv p (u32 (len + Z.of_nat (length ins))) (gv_cap g) (u32 (gv_gs g + Z.of_nat (length ins))), mem)
  end.

(** ** Sets of ranges *)

Record span := mk_span { lo : Z; hi : Z }.
Definition sizeof_span : Z := 16.

Abbreviation dyn_rset_t := (gapvec span).

Definition dyn_rset_new : dyn_rset_t := mk_gv [] 0 0 0.

(** The test of a range in the search. *)
Definition hi_past (x : Z) (strict : bool) (s : span) : bool := if strict then double_gt (hi s) x else double_ge (hi s) x.

(** [while (a < b)]; [off] is the distance of [base] from the array. *)
Fixpoint hi_search (fuel : nat) (p : list (option span)) (off x : Z) (strict : bool) (a b : Z) : option Z :=
  match fuel with
  | O => None
  | S fuel =>
      if a <? b then
        let mid := u32 (a + u32 (b - a) / 2) in
        c ← aread p (off + mid);
        s ← c;
        if hi_past x strict s then hi_search fuel p off x strict a mid else hi_search fuel p off x strict (u32 (mid + 1)) b
      else Some a
  end.

Definition rs_first_hi (s : dyn_rset_t) (x : Z) (strict : bool) : option Z :=
  left ← (if 0 <? gv_gs s then c ← aread (gv_p s) (u32 (gv_gs s - 1)); e ← c; Some (hi_past x strict e) else Some false);
  if (left : bool) then hi_search 33 (gv_p s) 0 x strict 0 (u32 (gv_gs s - 1))
  else hi_search 33 (gv_p s) (u32 (gv_cap s - gv_len s)) x strict (gv_gs s) (gv_len s).

Definition dyn_rset_clear (s : dyn_rset_t) : dyn_rset_t := mk_gv (gv_p s) 0 (gv_cap s) 0.
Definition rset_lower (s : dyn_rset_t) (x : Z) : option Z := rs_first_hi s x true.

(** The ranges from [j] that reach the merged one. *)
Fixpoint merge_loop (fuel : nat) (s : dyn_rset_t) (merged : span) (j : Z) : option (span * Z) :=
  if gv_len s <=? j then Some (merged, j) else
  match fuel with
  | O => None
  | S fuel =>
      c ← gv_at s j;
      if double_le (lo c) (hi merged) then
        let merged := if double_lt (lo c) (lo merged) then mk_span (lo c) (hi merged) else merged in
        let merged := if double_gt (hi c) (hi merged) then mk_span (lo merged) (hi c) else merged in
        merge_loop fuel s merged (u32 (j + 1))
      else Some (merged, j)
  end.

Definition dyn_rset_add (mem : list bool) (s : dyn_rset_t) (l h : Z) : option (bool * dyn_rset_t * list bool) :=
  if negb (double_gt h l) then Some (true, s, mem) else
  i ← rs_first_hi s l false;
  m ← merge_loop (length (gv_p s)) s (mk_span l h) i;
  gv_splice sizeof_span mem s i (u32 (m.2 - i)) [m.1].

Fixpoint overlap_loop (fuel : nat) (s : dyn_rset_t) (h j : Z) : option Z :=
  if gv_len s <=? j then Some j else
  match fuel with
  | O => None
  | S fuel => c ← gv_at s j; if double_lt (lo c) h then overlap_loop fuel s h (u32 (j + 1)) else Some j
  end.

Definition dyn_rset_remove (mem : list bool) (s : dyn_rset_t) (l h : Z) : option (bool * dyn_rset_t * list bool) :=
  if negb (double_gt h l) then Some (true, s, mem) else
  i ← rset_lower s l;
  j ← overlap_loop (length (gv_p s)) s h i;
  if j =? i then Some (true, s, mem) else
  a ← gv_at s i;
  b ← gv_at s (u32 (j - 1));
  let keep := (if double_lt (lo a) l then [mk_span (lo a) l] else []) ++ (if double_gt (hi b) h then [mk_span h (hi b)] else []) in
  gv_splice sizeof_span mem s i (u32 (j - i)) keep.

Definition dyn_rset_contains (s : dyn_rset_t) (x : Z) : option bool :=
  i ← rset_lower s x;
  if i <? gv_len s then c ← gv_at s i; Some (double_le (lo c) x) else Some false.

Definition dyn_rset_encloses (s : dyn_rset_t) (l h : Z) : option bool :=
  if negb (double_gt h l) then Some true else
  i ← rset_lower s l;
  if i <? gv_len s then c ← gv_at s i; Some (double_le (lo c) l && double_ge (hi c) h) else Some false.

Definition dyn_rset_intersects (s : dyn_rset_t) (l h : Z) : option bool :=
  if negb (double_gt h l) then Some false else
  i ← rset_lower s l;
  if i <? gv_len s then c ← gv_at s i; Some (double_lt (lo c) h) else Some false.

Definition dyn_rset_count (s : dyn_rset_t) : Z := gv_len s.

Definition dyn_rset_at (s : dyn_rset_t) (i : Z) : option (option span) := if gv_len s <=? i then Some None else Some <$> gv_at s i.

(** The loop of dyn_rset_complement on [out]; the flag is whether the memory lasted. *)
Fixpoint complement_loop (fuel : nat) (mem : list bool) (s out : dyn_rset_t) (h cur i : Z) : option (bool * Z * dyn_rset_t * list bool) :=
  if gv_len s <=? i then Some (true, cur, out, mem) else
  match fuel with
  | O => None
  | S fuel =>
      c ← gv_at s i;
      if double_le (hi c) cur then complement_loop fuel mem s out h cur (u32 (i + 1)) else
      if double_ge (lo c) h then Some (true, cur, out, mem) else
      r ← (if double_gt (lo c) cur then dyn_rset_add mem out cur (lo c) else Some (true, out, mem));
      match r with
      | (false, out, mem) => Some (false, cur, out, mem)
      | (true, out, mem) =>
          let cur := if double_gt (hi c) cur then hi c else cur in
          if double_ge cur h then Some (true, cur, out, mem) else complement_loop fuel mem s out h cur (u32 (i + 1))
      end
  end.

Definition dyn_rset_complement (mem : list bool) (s out : dyn_rset_t) (l h : Z) : option (bool * dyn_rset_t * list bool) :=
  let out := dyn_rset_clear out in
  if negb (double_gt h l) then Some (true, out, mem) else
  r ← complement_loop (length (gv_p s)) mem s out h l 0;
  match r with
  | (false, _, out, mem) => Some (false, out, mem)
  | (true, cur, out, mem) => if double_lt cur h then dyn_rset_add mem out cur h else Some (true, out, mem)
  end.
