(* ===== verification/GapVec.v ===== *)
(** * The gap vector

    A gap vector stands for a list: the cells before the gap and those behind it.
    Moving the gap keeps the list, and splicing replaces a part of it. *)
From Stdlib Require Import ZArith Lia List.
From stdpp Require Import base numbers list option.
From S2P Require Import Prelude DsBase Doubles RSet.

Section GapVec.
Context {A : Type}.
Implicit Types (g : gapvec A) (l : list A).

(** The number of a cell with the entry. *)
Definition cell_of (gs gap i : nat) : nat := if decide (i < gs)%nat then i else (i + gap)%nat.

Record gv_ok (g : gapvec A) (l : list A) : Prop := {
  gv_cells : Z.of_nat (length (gv_p g)) = gv_cap g;
  gv_length : gv_len g = Z.of_nat (length l);
  gv_room : 0 <= gv_gs g <= gv_len g /\ gv_len g <= gv_cap g;
  gv_capok : cap_ok (gv_cap g);
  gv_entry i x : l !! i = Some x -> gv_p g !! cell_of (Z.to_nat (gv_gs g)) (Z.to_nat (gv_cap g - gv_len g)) i = Some (Some x) }.

Lemma gv_small g l : gv_ok g l -> 0 <= gv_cap g <= 2 ^ 29.
Proof. intros H. apply cap_ok_bound, H. Qed.

Lemma gv_at_spec g l i x : gv_ok g l -> l !! i = Some x -> gv_at g (Z.of_nat i) = Some x.
Proof.
  intros H Hi. pose proof (gv_small g l H). pose proof (gv_room g l H) as Hr. pose proof (gv_length g l H) as Hl. pose proof (lookup_lt_Some _ _ _ Hi). pose proof (gv_entry g l H i x Hi) as He. unfold cell_of in He.
  unfold gv_at, gv_index. destruct (Z.ltb_spec (Z.of_nat i) (gv_gs g)) as [Hg|Hg].
  - rewrite aread_nat. rewrite decide_True in He by lia. by rewrite He.
  - rewrite decide_False in He by lia. rewrite (wrap_id 32 (gv_cap g - gv_len g)), wrap_id by (unfold fits; lia). replace (Z.of_nat i + (gv_cap g - gv_len g)) with (Z.of_nat (i + Z.to_nat (gv_cap g - gv_len g))) by lia. by rewrite aread_nat, He.
Qed.

(** A part of a list written over another. *)
Lemma overwrite_lookup {X} (p seg : list X) (d i : nat) : (d + length seg <= length p)%nat ->
  (take d p ++ seg ++ drop (d + length seg) p) !! i = if decide (d <= i < d + length seg)%nat then seg !! (i - d)%nat else p !! i.
Proof.
  intros Hl. destruct (decide (i < d)%nat) as [Hi|Hi].
  - rewrite lookup_app_l by (rewrite length_take; lia). rewrite lookup_take_lt by done. by rewrite decide_False by lia.
  - rewrite lookup_app_r by (rewrite length_take; lia). rewrite length_take, Nat.min_l by lia. case_decide as Hc.
    + by rewrite lookup_app_l by lia.
    + rewrite lookup_app_r by lia. rewrite lookup_drop. f_equal. lia.
Qed.

Lemma overwrite_length {X} (p seg : list X) (d : nat) : (d + length seg <= length p)%nat -> length (take d p ++ seg ++ drop (d + length seg) p) = length p.
Proof. intros Hl. rewrite !length_app, length_take, length_drop. lia. Qed.

Lemma memmove_spec (p : list (option A)) (d s n : nat) : (d + n <= length p)%nat -> (s + n <= length p)%nat ->
  exists p', gv_memmove p (Z.of_nat d) (Z.of_nat s) (Z.of_nat n) = Some p' /\ length p' = length p /\ forall i, p' !! i = if decide (d <= i < d + n)%nat then p !! (s + (i - d))%nat else p !! i.
Proof.
  intros Hd Hs. unfold gv_memmove. rewrite !(proj2 (Z.leb_le _ _)) by lia. cbn [andb]. eexists. split; [done|]. rewrite !Nat2Z.id. replace (Z.to_nat (Z.of_nat d + Z.of_nat n)) with (d + n)%nat by lia.
  assert (Hlen : length (take n (drop s p)) = n) by (rewrite length_take, length_drop; lia). replace (d + n)%nat with (d + length (take n (drop s p)))%nat by lia. split; [apply overwrite_length; lia|]. intros i. rewrite overwrite_lookup by lia. case_decide; [|done]. rewrite lookup_take_lt by lia. apply lookup_drop.
Qed.

Lemma move_gap_spec g l (at_ : nat) : gv_ok g l -> (at_ <= length l)%nat ->
  exists g', gv_move_gap g (Z.of_nat at_) = Some g' /\ gv_ok g' l /\ gv_gs g' = Z.of_nat at_ /\ gv_len g' = gv_len g /\ gv_cap g' = gv_cap g.
Proof.
  intros H Ha. pose proof (gv_small g l H). pose proof (gv_room g l H) as Hr. pose proof (gv_length g l H) as Hl. pose proof (gv_cells g l H) as Hc.
  unfold gv_move_gap. rewrite (wrap_id 32 (gv_cap g - gv_len g)) by (unfold fits; lia). set (gap := gv_cap g - gv_len g) in *. set (gs := Z.to_nat (gv_gs g)).
  assert (Hgen : forall p, length p = length (gv_p g) -> (forall i x, l !! i = Some x -> p !! cell_of at_ (Z.to_nat gap) i = Some (Some x)) -> gv_ok (mk_gv p (gv_len g) (gv_cap g) (Z.of_nat at_)) l).
  { intros p Hp He. split; cbn; [lia|lia|lia|apply H|]. intros i x Hi. rewrite Nat2Z.id. by apply He. }
  pose proof (gv_entry g l H) as He. fold gap gs in He.
  destruct (Z.eqb_spec gap 0) as [E0|E0]; cbn [negb andb mbind option_bind].
  { eexists. split; [done|]. split; [|done]. apply Hgen; [done|]. intros i x Hi. specialize (He i x Hi). unfold cell_of in *. rewrite E0 in *. do 2 case_decide; rewrite ?Nat.add_0_r in *; done. }
  destruct (Z.ltb_spec (Z.of_nat at_) (gv_gs g)) as [Hlt|Hge]; [|destruct (Z.ltb_spec (gv_gs g) (Z.of_nat at_)) as [Hgt|Hle]]; cbn [mbind option_bind].
  - rewrite !wrap_id by (unfold fits; lia). replace (Z.of_nat at_ + gap) with (Z.of_nat (at_ + Z.to_nat gap)) by lia. replace (gv_gs g - Z.of_nat at_) with (Z.of_nat (gs - at_)) by lia.
    destruct (memmove_spec (gv_p g) (at_ + Z.to_nat gap) at_ (gs - at_)) as (p & -> & Hp & Hlook); [lia|lia|]. cbn [mbind option_bind]. eexists. split; [done|]. split; [|done]. apply Hgen; [done|]. intros i x Hi. specialize (He i x Hi). pose proof (lookup_lt_Some _ _ _ Hi). rewrite Hlook. unfold cell_of in *.
    destruct (decide (i < at_)%nat), (decide (i < gs)%nat); rewrite ?decide_False, ?decide_True by lia; try lia; try done.
    rewrite <- He. f_equal. lia.
  - rewrite !wrap_id by (unfold fits; lia). replace (gv_gs g + gap) with (Z.of_nat (gs + Z.to_nat gap)) by lia. replace (Z.of_nat at_ - gv_gs g) with (Z.of_nat (at_ - gs)) by lia. replace (gv_gs g) with (Z.of_nat gs) by lia.
    destruct (memmove_spec (gv_p g) gs (gs + Z.to_nat gap) (at_ - gs)) as (p & -> & Hp & Hlook); [lia|lia|]. cbn [mbind option_bind]. eexists. split; [done|]. split; [|done]. apply Hgen; [done|]. intros i x Hi. specialize (He i x Hi). pose proof (lookup_lt_Some _ _ _ Hi). rewrite Hlook. unfold cell_of in *.
    destruct (decide (i < at_)%nat), (decide (i < gs)%nat); rewrite ?decide_False, ?decide_True by lia; try lia; try done.
    rewrite <- He. f_equal. lia.
  - eexists. split; [done|]. split; [|done]. apply Hgen; [done|]. intros i x Hi. specialize (He i x Hi). unfold cell_of in *. replace at_ with gs by lia. done.
Qed.

(** ** Splicing *)

(** With the gap behind the last entry the array can be made larger. *)
Lemma gv_grow g l cap : gv_ok g l -> gv_gs g = gv_len g -> gv_cap g <= cap -> cap_ok cap -> gv_ok (mk_gv (gv_p g ++ replicate (Z.to_nat (cap - gv_cap g)) None) (gv_len g) cap (gv_gs g)) l.
Proof.
  intros H Hg Hc Hok. pose proof (gv_room g l H) as Hr. pose proof (gv_cells g l H) as Hcl. split; cbn; [rewrite length_app, length_replicate; lia|apply H|lia|done|].
  intros i x Hi. pose proof (gv_entry g l H i x Hi) as He. pose proof (lookup_lt_Some _ _ _ Hi). pose proof (gv_length g l H). unfold cell_of in *. rewrite decide_True in He |- * by lia. by apply lookup_app_l_Some.
Qed.

(** Once there is room and the gap is in place. *)
Lemma splice_at g l (at_ nd : nat) (ins : list A) : gv_ok g l -> gv_gs g = Z.of_nat at_ -> (at_ + nd <= length l)%nat -> Z.of_nat (length l) - Z.of_nat nd + Z.of_nat (length ins) <= gv_cap g ->
  exists p, (if negb (Z.of_nat (length ins) =? 0) then gv_memcpy (gv_p g) (gv_gs g) ins else Some (gv_p g)) = Some p /\
    gv_ok (mk_gv p (u32 (u32 (gv_len g - Z.of_nat nd) + Z.of_nat (length ins))) (gv_cap g) (u32 (gv_gs g + Z.of_nat (length ins)))) (take at_ l ++ ins ++ drop (at_ + nd) l).
Proof.
  intros H Hg Hnd Hcap. pose proof (gv_small g l H). pose proof (gv_room g l H) as Hr. pose proof (gv_length g l H) as Hl. pose proof (gv_cells g l H) as Hcl. pose proof (gv_entry g l H) as He. rewrite Hg, Nat2Z.id in He.
  assert (Hcpy : exists p, (if negb (Z.of_nat (length ins) =? 0) then gv_memcpy (gv_p g) (gv_gs g) ins else Some (gv_p g)) = Some p /\ length p = length (gv_p g) /\
    forall i, p !! i = if decide (at_ <= i < at_ + length ins)%nat then (Some <$> ins) !! (i - at_)%nat else gv_p g !! i).
  { destruct (Z.eqb_spec (Z.of_nat (length ins)) 0) as [E|E]; cbn [negb].
    - eexists. split; [done|]. split; [done|]. intros i. by rewrite decide_False by lia.
    - unfold gv_memcpy. rewrite Hg, !(proj2 (Z.leb_le _ _)) by lia. cbn [andb]. eexists. split; [done|]. rewrite Nat2Z.id. replace (Z.to_nat (Z.of_nat at_ + Z.of_nat (length ins))) with (at_ + length (Some <$> ins))%nat by (rewrite length_fmap; lia).
      split; [apply overwrite_length; rewrite length_fmap; lia|]. intros i. rewrite overwrite_lookup by (rewrite length_fmap; lia). by rewrite length_fmap. }
  destruct Hcpy as (p & -> & Hp & Hlook). exists p. split; [done|]. rewrite !wrap_id by (unfold fits; rewrite ?wrap_id by (unfold fits; lia); lia).
  assert (Hlen : length (take at_ l ++ ins ++ drop (at_ + nd) l) = (length l - nd + length ins)%nat) by (rewrite !length_app, length_take, length_drop; lia).
  split; cbn; [lia|lia|lia|apply H|]. intros i x Hi. rewrite Hlook. unfold cell_of. rewrite Hg.
  replace (Z.to_nat (Z.of_nat at_ + Z.of_nat (length ins))) with (at_ + length ins)%nat by lia. apply lookup_app_Some in Hi as [Hi|[Hle Hi]].
  - pose proof (lookup_lt_Some _ _ _ Hi) as Hlt. rewrite length_take in Hlt. rewrite lookup_take_lt in Hi by lia. rewrite (decide_True (P := (i < at_ + length ins)%nat)) by lia. rewrite decide_False by lia. specialize (He i x Hi). unfold cell_of in He. by rewrite decide_True in He by lia.
  - rewrite length_take, Nat.min_l in Hle, Hi by lia. apply lookup_app_Some in Hi as [Hi|[Hle' Hi]].
    + pose proof (lookup_lt_Some _ _ _ Hi) as Hlt. rewrite (decide_True (P := (i < at_ + length ins)%nat)) by lia. rewrite decide_True by lia. by rewrite list_lookup_fmap, Hi.
    + rewrite lookup_drop in Hi. rewrite (decide_False (P := (i < at_ + length ins)%nat)) by lia. rewrite decide_False by lia. specialize (He _ x Hi). pose proof (lookup_lt_Some _ _ _ Hi). unfold cell_of in He. rewrite decide_False in He by lia. rewrite <- He. f_equal. lia.
Qed.

Lemma splice_spec esz mem g l (at_ nd : nat) (ins : list A) : gv_ok g l -> (at_ + nd <= length l)%nat -> (length ins <= nd + 1)%nat -> Z.of_nat (length l) <= 375809640 -> 0 < esz <= 4096 ->
  exists ok g' mem', gv_splice esz mem g (Z.of_nat at_) (Z.of_nat nd) ins = Some (ok, g', mem') /\ (mem' = mem \/ mem' = tl mem) /\
    if ok : bool then gv_ok g' (take at_ l ++ ins ++ drop (at_ + nd) l) else gv_ok g' l /\ hd true mem = false.
Proof.
  intros H Hnd Hins Hmax Hesz. pose proof (gv_small g l H). pose proof (gv_room g l H) as Hr. pose proof (gv_length g l H) as Hl. unfold gv_splice. rewrite (wrap_id 32 (gv_len g - Z.of_nat nd + Z.of_nat (length ins))) by (unfold fits; lia).
  assert (Hfin : forall g1 m1, gv_ok g1 l -> (m1 = mem \/ m1 = tl mem) -> Z.of_nat (length l) - Z.of_nat nd + Z.of_nat (length ins) <= gv_cap g1 -> gv_len g1 = gv_len g ->
    exists ok g' mem', (g2 ← gv_move_gap g1 (Z.of_nat at_); p ← (if negb (Z.of_nat (length ins) =? 0) then gv_memcpy (gv_p g2) (gv_gs g2) ins else Some (gv_p g2)); Some (true, mk_gv p (u32 (u32 (gv_len g2 - Z.of_nat nd) + Z.of_nat (length ins))) (gv_cap g2) (u32 (gv_gs g2 + Z.of_nat (length ins))), m1)) = Some (ok, g', mem') /\
      (mem' = mem \/ mem' = tl mem) /\ if ok : bool then gv_ok g' (take at_ l ++ ins ++ drop (at_ + nd) l) else gv_ok g' l /\ hd true mem = false).
  { intros g1 m1 H1 Hm Hc1 El. destruct (move_gap_spec g1 l at_ H1) as (g2 & -> & H2 & Eg & El2 & Ec2); [lia|]. cbn [mbind option_bind]. destruct (splice_at g2 l at_ nd ins H2 Eg Hnd) as (p & -> & H3); [lia|]. cbn [mbind option_bind]. eexists true, _, m1. split; [done|]. split; [done|]. exact H3. }
  destruct (Z.ltb_spec (gv_cap g) (gv_len g - Z.of_nat nd + Z.of_nat (length ins))) as [Hlt|Hge]; cbn [mbind option_bind].
  - rewrite Hl. destruct (move_gap_spec g l (length l) H) as (g1 & -> & H1 & Eg & El & Ec); [lia|]. cbn [mbind option_bind]. replace (Z.of_nat (length l) - Z.of_nat nd + Z.of_nat (length ins)) with (u32 (Z.of_nat (length l) + 1)) by (rewrite wrap_id by (unfold fits; lia); lia).
    destruct (reserve_spec mem (gv_cap g1) (length l) esz) as (ok & cap' & mem' & -> & Hcok & Hmem & Hok); [apply H1|lia|lia|lia|]. cbn [mbind option_bind]. destruct ok.
    + apply (Hfin (mk_gv (gv_p g1 ++ replicate (Z.to_nat (cap' - gv_cap g1)) None) (gv_len g1) cap' (gv_gs g1)) mem'); [|done|cbn; lia|done]. apply gv_grow; [done|lia|lia|done].
    + destruct Hok as [-> Hhd]. eexists false, _, mem'. split; [done|]. split; [done|]. split; [|done]. apply gv_grow; [done|lia|lia|apply H1].
  - by apply Hfin; [|left|lia|].
Qed.
End GapVec.
