(* ===== verification/RSetProps.v ===== *)
(** * Range sets are sets

    The ranges of a set are apart and in order; adding, removing and complementing
    ranges, and the queries, are those of the set of numbers in the ranges. *)
From Stdlib Require Import ZArith Lia List.
From stdpp Require Import base numbers list option.
From S2P Require Import Prelude DsBase Doubles RSet GapVec.

(** ** The search *)

Section Search.
Context (l : list span) (x : Z) (strict : bool).
Abbreviation P := (hi_past x strict).
Hypothesis mono : forall i j s t, (i <= j)%nat -> l !! i = Some s -> l !! j = Some t -> P s = true -> P t = true.

Lemma hi_search_spec n p off a b : (forall k s, (a <= k < b)%nat -> l !! k = Some s -> aread p (off + Z.of_nat k) = Some (Some s)) ->
  (a <= b <= length l)%nat -> Z.of_nat (length l) < 2 ^ 31 -> Z.of_nat (b - a) < 2 ^ Z.of_nat n ->
  exists r, hi_search (S n) p off x strict (Z.of_nat a) (Z.of_nat b) = Some (Z.of_nat r) /\ (a <= r <= b)%nat /\
    (forall k s, (a <= k < r)%nat -> l !! k = Some s -> P s = false) /\ (forall k s, (r <= k < b)%nat -> l !! k = Some s -> P s = true).
Proof.
  revert a b. induction n as [|n IH]; intros a b Hp Hab Hl Hn; cbn [hi_search].
  - change (2 ^ Z.of_nat 0) with 1 in Hn. rewrite (proj2 (Z.ltb_ge _ _)) by lia. exists a. split; [done|]. split; [lia|]. split; intros k s Hk; lia.
  - destruct (Z.ltb_spec (Z.of_nat a) (Z.of_nat b)) as [Hlt|Hge]; [|exists a; split; [done|]; split; [lia|]; split; intros k s Hk; lia].
    rewrite (wrap_id 32 (Z.of_nat b - Z.of_nat a)) by (unfold fits; lia). pose proof (Z.div_mod (Z.of_nat b - Z.of_nat a) 2 ltac:(lia)) as Hd. pose proof (Z.mod_pos_bound (Z.of_nat b - Z.of_nat a) 2 ltac:(lia)) as Hm.
    set (q := (Z.of_nat b - Z.of_nat a) / 2) in *. assert (Hq : 0 <= q < Z.of_nat b - Z.of_nat a) by lia. rewrite wrap_id by (unfold fits; lia). set (mid := (a + Z.to_nat q)%nat). replace (Z.of_nat a + q) with (Z.of_nat mid) by lia.
    rewrite Nat2Z.inj_succ, Z.pow_succ_r in Hn by lia. destruct (lookup_lt_is_Some_2 l mid) as [e Ee]; [lia|]. rewrite (Hp mid e) by (try done; lia). cbn [mbind option_bind]. destruct (P e) eqn:Pe.
    + destruct (IH a mid) as (r & E & Hr & R1 & R2); [intros k s Hk; apply Hp; lia|lia|lia|lia|]. exists r. split; [exact E|]. split; [lia|]. split; [done|]. intros k s Hk Hs. destruct (decide (k < mid)%nat) as [Hkm|Hkm]; [apply (R2 k s); [lia|done]|]. apply (mono mid k e s); [lia|done|done|done].
    + rewrite wrap_id by (unfold fits; lia). replace (Z.of_nat mid + 1) with (Z.of_nat (S mid)) by lia. destruct (IH (S mid) b) as (r & E & Hr & R1 & R2); [intros k s Hk; apply Hp; lia|lia|lia|lia|]. exists r. split; [exact E|]. split; [lia|]. split; [|done].
      intros k s Hk Hs. destruct (decide (mid < k)%nat) as [Hkm|Hkm]; [apply (R1 k s); [lia|done]|]. destruct (P s) eqn:Ps; [|done]. rewrite (mono k mid s e) in Pe; [done|lia|done|done|done].
Qed.

Lemma first_hi_spec g : gv_ok g l -> exists r, rs_first_hi g x strict = Some (Z.of_nat r) /\ (r <= length l)%nat /\
  (forall k s, (k < r)%nat -> l !! k = Some s -> P s = false) /\ (forall k s, (r <= k)%nat -> l !! k = Some s -> P s = true).
Proof.
  intros H. pose proof (gv_small g l H). pose proof (gv_room g l H) as Hr. pose proof (gv_length g l H) as Hl. pose proof (gv_entry g l H) as He. assert (Hgs : gv_gs g = Z.of_nat (Z.to_nat (gv_gs g))) by lia. set (gs := Z.to_nat (gv_gs g)) in *. clearbody gs. unfold rs_first_hi. rewrite Hgs in *.
  assert (Hright : (forall k s, (k < gs)%nat -> l !! k = Some s -> P s = false) -> exists r, hi_search 33 (gv_p g) (u32 (gv_cap g - gv_len g)) x strict (Z.of_nat gs) (gv_len g) = Some (Z.of_nat r) /\ (r <= length l)%nat /\
    (forall k s, (k < r)%nat -> l !! k = Some s -> P s = false) /\ (forall k s, (r <= k)%nat -> l !! k = Some s -> P s = true)).
  { intros Hleft. rewrite (wrap_id 32 (gv_cap g - gv_len g)) by (unfold fits; lia). rewrite Hl. destruct (hi_search_spec 32 (gv_p g) (gv_cap g - Z.of_nat (length l)) gs (length l)) as (r & E & Hrr & R1 & R2); [|lia|lia|change (2 ^ Z.of_nat 32) with (2 ^ 32); lia|].
    - intros k s Hk Hs. specialize (He k s Hs). unfold cell_of in He. rewrite decide_False in He by lia. rewrite <- He, <- aread_nat. f_equal. lia.
    - exists r. split; [exact E|]. split; [lia|]. split; intros k s Hk Hs; [destruct (decide (k < gs)%nat); [by apply (Hleft k)|apply (R1 k); [lia|done]]|]. apply (R2 k); [|done]. apply lookup_lt_Some in Hs. lia. }
  destruct (Z.ltb_spec 0 (Z.of_nat gs)) as [Hg|Hg]; [|cbn [mbind option_bind]; apply Hright; intros k s Hk; lia]. rewrite !(wrap_id 32 (Z.of_nat gs - 1)) by (unfold fits; lia). replace (Z.of_nat gs - 1) with (Z.of_nat (gs - 1)) by lia.
  destruct (lookup_lt_is_Some_2 l (gs - 1)) as [e Ee]; [lia|]. pose proof (He _ e Ee) as Hc. unfold cell_of in Hc. rewrite decide_True in Hc by lia. rewrite aread_nat, Hc. cbn [mbind option_bind]. destruct (P e) eqn:Pe.
  - destruct (hi_search_spec 32 (gv_p g) 0 0 (gs - 1)) as (r & E & Hrr & R1 & R2); [|lia|lia|change (2 ^ Z.of_nat 32) with (2 ^ 32); lia|].
    + intros k s Hk Hs. specialize (He k s Hs). unfold cell_of in He. rewrite decide_True in He by lia. by rewrite Z.add_0_l, aread_nat.
    + exists r. split; [exact E|]. split; [lia|]. split; intros k s Hk Hs; [apply (R1 k); [lia|done]|]. destruct (decide (k < gs - 1)%nat); [apply (R2 k); [lia|done]|]. apply (mono (gs - 1) k e s); [lia|done|done|done].
  - apply Hright. intros k s Hk Hs. destruct (P s) eqn:Ps; [|done]. rewrite (mono k (gs - 1) s e) in Pe; [done|lia|done|done|done].
Qed.
End Search.

(** ** The set of a list of ranges *)

Abbreviation o := double_ord.
Definition span_ok (s : span) : Prop := isnan (lo s) = false /\ isnan (hi s) = false /\ o (lo s) < o (hi s).

(** The ranges are apart, in order. *)
Definition rset_ok (l : list span) : Prop := Forall span_ok l /\ forall i j s t, (i < j)%nat -> l !! i = Some s -> l !! j = Some t -> o (hi s) < o (lo t).

Definition in_span (x : Z) (s : span) : Prop := o (lo s) <= x < o (hi s).
Definition in_set (x : Z) (l : list span) : Prop := exists s, s ∈ l /\ in_span x s.

Lemma rset_span l i s : rset_ok l -> l !! i = Some s -> span_ok s.
Proof. intros [H _] Hi. exact (Forall_lookup_1 _ _ _ _ H Hi). Qed.

Lemma in_set_at x l : in_set x l <-> exists i s, l !! i = Some s /\ in_span x s.
Proof. unfold in_set. split; [intros (s & Hs & Hx); apply list_elem_of_lookup in Hs as [i Hi]; by exists i, s|]. intros (i & s & Hi & Hx). exists s. split; [by apply list_elem_of_lookup_2 in Hi|done]. Qed.

(** The search for a number that is not NaN. *)
Lemma past_ord x strict s : isnan x = false -> span_ok s -> hi_past x strict s = if strict then o x <? o (hi s) else o x <=? o (hi s).
Proof. intros Hx (_ & Hh & _). unfold hi_past, double_gt, double_ge. destruct strict; [by rewrite double_lt_ord|by rewrite double_le_ord]. Qed.

Lemma past_mono l x strict : rset_ok l -> forall i j s t, (i <= j)%nat -> l !! i = Some s -> l !! j = Some t -> hi_past x strict s = true -> hi_past x strict t = true.
Proof.
  intros H i j s t Hij Hi Hj Hp. destruct (decide (i = j)) as [-> |Hne]; [congruence|]. pose proof (proj2 H i j s t ltac:(lia) Hi Hj) as Hlt. pose proof (rset_span l i s H Hi) as Hs. pose proof (rset_span l j t H Hj) as Ht.
  destruct (isnan x) eqn:Ex; [unfold hi_past, double_gt, double_ge, double_lt, double_le in Hp; rewrite Ex in Hp; by destruct strict|]. rewrite past_ord in Hp |- * by done. destruct Hs as (_ & _ & Hs), Ht as (_ & _ & Ht). destruct strict; [apply Z.ltb_lt in Hp; apply Z.ltb_lt|apply Z.leb_le in Hp; apply Z.leb_le]; lia.
Qed.

Lemma search_at g l x strict : gv_ok g l -> rset_ok l -> isnan x = false ->
  exists r, rs_first_hi g x strict = Some (Z.of_nat r) /\ (r <= length l)%nat /\
    (forall k s, (k < r)%nat -> l !! k = Some s -> if strict then o (hi s) <= o x else o (hi s) < o x) /\
    (forall k s, (r <= k)%nat -> l !! k = Some s -> if strict then o x < o (hi s) else o x <= o (hi s)).
Proof.
  intros Hg Hl Hx. destruct (first_hi_spec l x strict (past_mono l x strict Hl) g Hg) as (r & E & Hr & R1 & R2). exists r. split; [done|]. split; [done|].
  split; intros k s Hk Hs; [specialize (R1 k s Hk Hs)|specialize (R2 k s Hk Hs)]; rewrite past_ord in * by (try done; by apply (rset_span l k)); destruct strict; lia.
Qed.

(** ** Adding a range *)

Section Add.
Context (g : dyn_rset_t) (l : list span) (a b : Z) (i : nat).
Hypothesis Hg : gv_ok g l.
Hypothesis Hl : rset_ok l.

(** [m] is the range [a, b) with the ranges from [i] up to [j]. *)
Definition merged (m : span) (j : nat) : Prop :=
  span_ok m /\ (forall k s, (k < i)%nat -> l !! k = Some s -> o (hi s) < o (lo m)) /\ o (lo m) <= o a /\
  forall x, in_span x m <-> o a <= x < o b \/ exists k s, (i <= k < j)%nat /\ l !! k = Some s /\ in_span x s.

Lemma merge_step m j c : merged m j -> (i <= j)%nat -> l !! j = Some c -> o a <= o (hi c) -> o (lo c) <= o (hi m) ->
  let m' := if double_lt (lo c) (lo m) then mk_span (lo c) (hi m) else m in
  merged (if double_gt (hi c) (hi m') then mk_span (lo m') (hi c) else m') (S j).
Proof.
  intros ((Hn1 & Hn2 & Hm) & HA & HC & HD) Hij Hj Hac Hcm. pose proof (rset_span l j c Hl Hj) as (Cn1 & Cn2 & Hc). cbv zeta. unfold double_gt. rewrite (double_lt_ord (lo c) (lo m)) by done.
  assert (Hbefore : forall k s, (k < i)%nat -> l !! k = Some s -> o (hi s) < o (lo c)) by (intros k s Hk Hs; apply (proj2 Hl k j s c); [lia|done|done]).
  assert (Hnext : forall x, (exists k s, (i <= k < S j)%nat /\ l !! k = Some s /\ in_span x s) <-> (exists k s, (i <= k < j)%nat /\ l !! k = Some s /\ in_span x s) \/ in_span x c).
  { intros x. split.
    - intros (k & s & Hk & Hs & Hx). destruct (decide (k = j)) as [-> |Hne]; [right; assert (s = c) as -> by congruence; exact Hx|left]. exists k, s. split; [lia|done].
    - intros [(k & s & Hk & Hs & Hx)|Hx]; [exists k, s; split; [lia|done]|exists j, c; split; [lia|done]]. }
  assert (Hgen : forall m', o (lo m') = Z.min (o (lo c)) (o (lo m)) -> o (hi m') = Z.max (o (hi c)) (o (hi m)) -> isnan (lo m') = false -> isnan (hi m') = false -> merged m' (S j)).
  { intros m' E1 E2 N1 N2. split_and!; [split_and!; [done|done|lia]|intros k s Hk Hs; specialize (HA k s Hk Hs); specialize (Hbefore k s Hk Hs); lia|lia|]. intros x. rewrite Hnext, (assoc or), <- HD. unfold in_span. rewrite E1, E2. lia. }
  destruct (Z.ltb_spec (o (lo c)) (o (lo m))); cbn [lo hi]; rewrite double_lt_ord by done; destruct (Z.ltb_spec (o (hi m)) (o (hi c))); apply Hgen; cbn [lo hi]; try done; lia.
Qed.

Lemma merge_loop_spec fuel m j : merged m j -> (i <= j <= length l)%nat -> (length l - j <= fuel)%nat -> (forall k s, (i <= k)%nat -> l !! k = Some s -> o a <= o (hi s)) ->
  exists m' j', merge_loop fuel g m (Z.of_nat j) = Some (m', Z.of_nat j') /\ (j <= j' <= length l)%nat /\ merged m' j' /\ (forall k s, (j' <= k)%nat -> l !! k = Some s -> o (hi m') < o (lo s)).
Proof.
  pose proof (gv_length g l Hg) as Hlen. pose proof (gv_small g l Hg). pose proof (gv_room g l Hg). revert m j. induction fuel as [|fuel IH]; intros m j Hm Hij Hf Hb; cbn [merge_loop]; rewrite Hlen.
  1, 2: destruct (Z.leb_spec (Z.of_nat (length l)) (Z.of_nat j)) as [Hle|Hlt]; [|try lia]; try (exists m, j; split_and!; try done; try lia; intros k s Hk Hs; apply lookup_lt_Some in Hs; lia).
  destruct (lookup_lt_is_Some_2 l j) as [c Hc]; [lia|]. rewrite (gv_at_spec g l j c Hg Hc). cbn [mbind option_bind]. pose proof (rset_span l j c Hl Hc) as (Cn1 & Cn2 & Cl). pose proof Hm as ((Mn1 & Mn2 & Ml) & _). rewrite double_le_ord by done. destruct (Z.leb_spec (o (lo c)) (o (hi m))) as [Hle|Hgt].
  - rewrite wrap_id by (unfold fits; lia). replace (Z.of_nat j + 1) with (Z.of_nat (S j)) by lia. pose proof (merge_step m j c Hm ltac:(lia) Hc (Hb j c ltac:(lia) Hc) Hle) as Hm'. cbv zeta in Hm'.
    destruct (IH _ (S j) Hm') as (m' & j' & E & Hj' & Hm2 & Hafter); [lia|lia|done|]. exists m', j'. split; [exact E|]. split; [lia|done].
  - exists m, j. split_and!; try done; try lia. intros k s Hk Hs. destruct (decide (k = j)) as [-> |Hne]; [assert (s = c) as -> by congruence; lia|]. pose proof (proj2 Hl j k c s ltac:(lia) Hc Hs). lia.
Qed.
End Add.

(** ** Lists of ranges *)

Lemma rset_app l1 l2 : rset_ok l1 -> rset_ok l2 -> (forall i j s t, l1 !! i = Some s -> l2 !! j = Some t -> o (hi s) < o (lo t)) -> rset_ok (l1 ++ l2).
Proof.
  intros [F1 H1] [F2 H2] H. split; [by apply Forall_app|]. intros i j s t Hij Hi Hj. apply lookup_app_Some in Hi as [Hi|[Hil Hi]], Hj as [Hj|[Hjl Hj]].
  - by apply (H1 i j).
  - by apply (H i (j - length l1)%nat).
  - apply lookup_lt_Some in Hj. lia.
  - apply (H2 (i - length l1)%nat (j - length l1)%nat); [lia|done|done].
Qed.

Lemma rset_take l n : rset_ok l -> rset_ok (take n l).
Proof. intros [F H]. split; [by apply Forall_take|]. intros i j s t Hij Hi Hj. apply lookup_take_Some in Hi as [Hi _], Hj as [Hj _]. by apply (H i j). Qed.

Lemma rset_drop l n : rset_ok l -> rset_ok (drop n l).
Proof. intros [F H]. split; [by apply Forall_drop|]. intros i j s t Hij Hi Hj. rewrite lookup_drop in Hi. rewrite lookup_drop in Hj. apply (H (n + i)%nat (n + j)%nat); [lia|done|done]. Qed.

Lemma rset_splice l ins i j : rset_ok l -> rset_ok ins -> (i <= j)%nat ->
  (forall k s t, (k < i)%nat -> l !! k = Some s -> t ∈ ins -> o (hi s) < o (lo t)) -> (forall k s t, (j <= k)%nat -> l !! k = Some s -> t ∈ ins -> o (hi t) < o (lo s)) -> rset_ok (take i l ++ ins ++ drop j l).
Proof.
  intros H Hi Hij Hb Ha. apply rset_app; [by apply rset_take|apply rset_app; [done|by apply rset_drop|]|].
  - intros x y s t Hx Hy. rewrite lookup_drop in Hy. apply (Ha (j + y)%nat t s); [lia|done|by apply list_elem_of_lookup_2 in Hx].
  - intros x y s t Hx Hy. apply lookup_take_Some in Hx as [Hx Hxi]. apply lookup_app_Some in Hy as [Hy|[Hyl Hy]]; [apply (Hb x s t); [done|done|by apply list_elem_of_lookup_2 in Hy]|]. rewrite lookup_drop in Hy. apply (proj2 H x (j + (y - length ins))%nat); [lia|done|done].
Qed.

Lemma in_splice x l ins i j : in_set x (take i l ++ ins ++ drop j l) <-> (exists k s, (k < i)%nat /\ l !! k = Some s /\ in_span x s) \/ in_set x ins \/ (exists k s, (j <= k)%nat /\ l !! k = Some s /\ in_span x s).
Proof.
  unfold in_set at 1. split.
  - intros (s & Hs & Hx). rewrite !elem_of_app in Hs. destruct Hs as [Hs|[Hs|Hs]]; [left|right; left; by exists s|right; right]; apply list_elem_of_lookup in Hs as [k Hk]; [apply lookup_take_Some in Hk as [Hk Hki]; by exists k, s|rewrite lookup_drop in Hk; exists (j + k)%nat, s; split; [lia|done]].
  - intros [(k & s & Hk & Hs & Hx)|[(s & Hs & Hx)|(k & s & Hk & Hs & Hx)]]; exists s; (split; [|done]); rewrite !elem_of_app; [left|right; left; done|right; right].
    + apply (list_elem_of_lookup_2 _ k). by rewrite lookup_take_lt.
    + apply (list_elem_of_lookup_2 _ (k - j)%nat). rewrite lookup_drop. by replace (j + (k - j))%nat with k by lia.
Qed.

(** The result of an update: the new list, or the old one when there was no memory. *)
Definition updated (mem : list bool) (l : list span) (r : option (bool * dyn_rset_t * list bool)) (member : Z -> Prop) : Prop :=
  exists ok s mem' l', r = Some (ok, s, mem') /\ gv_ok s l' /\ rset_ok l' /\ (mem' = mem \/ mem' = tl mem) /\ (length l' <= length l + 1)%nat /\
    if ok : bool then forall x, in_set x l' <-> member x else l' = l /\ hd true mem = false.

Lemma rset_add_spec mem s l a b : gv_ok s l -> rset_ok l -> Z.of_nat (length l) <= 375809640 -> updated mem l (dyn_rset_add mem s a b) (fun x => in_set x l \/ double_lt a b = true /\ o a <= x < o b).
Proof.
  intros Hg Hl Hmax. unfold dyn_rset_add, double_gt. destruct (double_lt a b) eqn:Eab; cbn [negb]; [|exists true, s, mem, l; split_and!; try done; [by left|lia|]; intros x; split; [by left|intros [?|[? _]]; done]].
  apply double_lt_spec in Eab as (Na & Nb & Hab). destruct (search_at s l a false Hg Hl Na) as (i & -> & Hi & Hbefore & Hafter). cbn [mbind option_bind].
  assert (Hm : merged l a b i (mk_span a b) i). { split_and!; [by split_and!|intros k t Hk Ht; by apply (Hbefore k)|cbn; lia|]. intros x. unfold in_span. cbn [lo hi]. split; [by left|]. intros [?|(k & t & Hk & _)]; [done|lia]. }
  pose proof (gv_cells s l Hg). pose proof (gv_length s l Hg) as Hlen. pose proof (gv_small s l Hg). pose proof (gv_room s l Hg).
  destruct (merge_loop_spec s l a b i Hg Hl (length (gv_p s)) (mk_span a b) i Hm) as (m & j & -> & Hj & Hmj & Hlast); [lia|lia|done|]. cbn [mbind option_bind fst snd]. rewrite wrap_id by (unfold fits; lia). replace (Z.of_nat j - Z.of_nat i) with (Z.of_nat (j - i)) by lia.
  destruct (splice_spec sizeof_span mem s l i (j - i) [m] Hg) as (ok & s' & mem' & -> & Hmem & Hok); [lia|cbn; lia|lia|unfold sizeof_span; lia|]. replace (i + (j - i))%nat with j in Hok by lia. destruct Hmj as (Hmok & Hb2 & _ & Hmem2). destruct ok.
  - assert (Hnew : rset_ok (take i l ++ [m] ++ drop j l)). { apply rset_splice; [done| |lia| |].
      - split; [by constructor|]. intros x y s0 t Hxy Hx Hy. apply list_lookup_singleton_Some in Hx as [-> _], Hy as [-> _]. lia.
      - intros k s0 t Hk Hs0 Ht. apply list_elem_of_singleton in Ht as ->. by apply (Hb2 k).
      - intros k s0 t Hk Hs0 Ht. apply list_elem_of_singleton in Ht as ->. by apply (Hlast k). }
    exists true, s', mem', (take i l ++ [m] ++ drop j l). split_and!; try done; [rewrite !length_app, length_take, length_drop; cbn; lia|]. intros x. rewrite in_splice, (in_set_at x l). unfold in_set at 1. split.
    + intros [(k & t & Hk & Ht & Hx)|[(t & Ht & Hx)|(k & t & Hk & Ht & Hx)]]; [left; by exists k, t| |left; by exists k, t]. apply list_elem_of_singleton in Ht as ->. apply Hmem2 in Hx as [Hx|(k & t & Hk & Ht & Hx)]; [by right|left; by exists k, t].
    + intros [(k & t & Ht & Hx)|[_ Hx]]; [|right; left; exists m; split; [by left|apply Hmem2; by left]]. destruct (decide (k < i)%nat) as [Hki|Hki]; [left; by exists k, t|]. destruct (decide (k < j)%nat) as [Hkj|Hkj]; [right; left; exists m; split; [by left|apply Hmem2; right; exists k, t; split; [lia|done]]|right; right; exists k, t; split; [lia|done]].
  - destruct Hok as [Hok Hhd]. exists false, s', mem', l. split_and!; try done. lia.
Qed.

(** ** Removing a range *)

Lemma overlap_loop_spec fuel s l b j : gv_ok s l -> rset_ok l -> isnan b = false -> (j <= length l)%nat -> (length l - j <= fuel)%nat ->
  exists j', overlap_loop fuel s b (Z.of_nat j) = Some (Z.of_nat j') /\ (j <= j' <= length l)%nat /\ (forall k t, (j <= k < j')%nat -> l !! k = Some t -> o (lo t) < o b) /\ (forall k t, (j' <= k)%nat -> l !! k = Some t -> o b <= o (lo t)).
Proof.
  intros Hg Hl Nb. pose proof (gv_length s l Hg) as Hlen. pose proof (gv_small s l Hg). pose proof (gv_room s l Hg). revert j. induction fuel as [|fuel IH]; intros j Hj Hf; cbn [overlap_loop]; rewrite Hlen.
  1, 2: destruct (Z.leb_spec (Z.of_nat (length l)) (Z.of_nat j)) as [Hle|Hlt]; [|try lia]; try (exists j; split_and!; try done; try lia; intros k t Hk Ht; apply lookup_lt_Some in Ht; lia).
  destruct (lookup_lt_is_Some_2 l j) as [c Hc]; [lia|]. rewrite (gv_at_spec s l j c Hg Hc). cbn [mbind option_bind]. pose proof (rset_span l j c Hl Hc) as (Cn1 & Cn2 & Cl). rewrite double_lt_ord by done. destruct (Z.ltb_spec (o (lo c)) (o b)) as [Hcb|Hcb].
  - rewrite wrap_id by (unfold fits; lia). replace (Z.of_nat j + 1) with (Z.of_nat (S j)) by lia. destruct (IH (S j)) as (j' & E & Hj' & R1 & R2); [lia|lia|]. exists j'. split; [exact E|]. split; [lia|]. split; [|done]. intros k t Hk Ht. destruct (decide (k = j)) as [-> |Hne]; [assert (t = c) as -> by congruence; done|apply (R1 k t); [lia|done]].
  - exists j. split; [done|]. split; [lia|]. split; intros k t Hk Ht; [lia|]. destruct (decide (k = j)) as [-> |Hne]; [assert (t = c) as -> by congruence; done|]. pose proof (proj2 Hl j k c t ltac:(lia) Hc Ht). lia.
Qed.

Lemma span_single s : span_ok s -> rset_ok [s].
Proof. intros Hs. split; [by constructor|]. intros i j x y Hij Hi Hj. apply list_lookup_singleton_Some in Hi as [-> _], Hj as [-> _]. lia. Qed.

Lemma rset_nil : rset_ok [].
Proof. split; [by constructor|]. intros i j x y _ Hi. done. Qed.

(** What is left of the ranges [i] to [j] that overlap [a, b). *)
Lemma keep_spec l i j a b u v : rset_ok l -> isnan a = false -> isnan b = false -> o a < o b -> (i < j)%nat -> l !! i = Some u -> l !! (j - 1)%nat = Some v ->
  (forall k t, (i <= k)%nat -> l !! k = Some t -> o a < o (hi t)) -> (forall k t, (i <= k < j)%nat -> l !! k = Some t -> o (lo t) < o b) ->
  let keep := (if double_lt (lo u) a then [mk_span (lo u) a] else []) ++ (if double_gt (hi v) b then [mk_span b (hi v)] else []) in
  rset_ok keep /\ (length keep <= j - i + 1)%nat /\ (forall t, t ∈ keep -> o (lo u) <= o (lo t) /\ o (hi t) <= o (hi v)) /\
  (forall x, in_set x keep <-> (exists k t, (i <= k < j)%nat /\ l !! k = Some t /\ in_span x t) /\ ~ (o a <= x < o b)).
Proof.
  intros Hl Na Nb Hab Hij Hu Hv Ha Hb. pose proof (rset_span l i u Hl Hu) as (U1 & U2 & U3). pose proof (rset_span l _ v Hl Hv) as (V1 & V2 & V3).
  assert (Huv : o (lo u) <= o (lo v) /\ o (hi u) <= o (hi v)). { destruct (decide (i = j - 1)%nat) as [E|E]; [rewrite <- E in Hv; assert (v = u) as -> by congruence; lia|]. pose proof (proj2 Hl i (j - 1)%nat u v ltac:(lia) Hu Hv). lia. }
  pose proof (Ha i u ltac:(lia) Hu) as Hau. pose proof (Hb (j - 1)%nat v ltac:(lia) Hv) as Hbv.
  assert (Hmid : forall x, (exists k t, (i <= k < j)%nat /\ l !! k = Some t /\ in_span x t) /\ ~ (o a <= x < o b) <-> o (lo u) <= x < o a \/ o b <= x < o (hi v)).
  { intros x. split.
    - intros ((k & t & Hk & Ht & Hx) & Hn). unfold in_span in Hx. destruct (decide (k = i)) as [-> |Hki].
      + assert (t = u) as -> by congruence. lia.
      + pose proof (proj2 Hl i k u t ltac:(lia) Hu Ht). destruct (decide (k = j - 1)%nat) as [-> |Hkj]; [assert (t = v) as -> by congruence; lia|]. pose proof (proj2 Hl k (j - 1)%nat t v ltac:(lia) Ht Hv). lia.
    - intros [Hx|Hx]; [split; [exists i, u; unfold in_span; split_and!; try done; lia|lia]|split; [exists (j - 1)%nat, v; unfold in_span; split_and!; try done; lia|lia]]. }
  cbv zeta. unfold double_gt. rewrite !double_lt_ord by done. set (k1 := mk_span (lo u) a). set (k2 := mk_span b (hi v)).
  assert (H1 : o (lo u) < o a -> span_ok k1) by (intros Hx; by split_and!). assert (H2 : o b < o (hi v) -> span_ok k2) by (intros Hx; by split_and!).
  destruct (Z.ltb_spec (o (lo u)) (o a)) as [C1|C1], (Z.ltb_spec (o b) (o (hi v))) as [C2|C2]; cbn [app]; (split; [|split; [cbn; lia|split]]).
  - change [k1; k2] with ([k1] ++ [k2]). apply rset_app; [by apply span_single, H1|by apply span_single, H2|]. intros x y s t Hx Hy. apply list_lookup_singleton_Some in Hx as [_ <-], Hy as [_ <-]. cbn. lia.
  - intros t Ht. rewrite elem_of_cons, list_elem_of_singleton in Ht. destruct Ht as [-> | ->]; cbn; lia.
  - intros x. rewrite Hmid. unfold in_set. split; [intros (t & Ht & Hx); rewrite elem_of_cons, list_elem_of_singleton in Ht; unfold in_span in Hx; destruct Ht as [-> | ->]; cbn in Hx; lia|]. intros [Hx|Hx]; [exists k1; split; [by left|done]|exists k2; split; [right; by left|done]].
  - by apply span_single, H1.
  - intros t Ht. apply list_elem_of_singleton in Ht as ->. cbn. lia.
  - intros x. rewrite Hmid. unfold in_set. split; [intros (t & Ht & Hx); apply list_elem_of_singleton in Ht as ->; unfold in_span in Hx; cbn in Hx; lia|]. intros [Hx|Hx]; [exists k1; split; [by left|done]|lia].
  - by apply span_single, H2.
  - intros t Ht. apply list_elem_of_singleton in Ht as ->. cbn. lia.
  - intros x. rewrite Hmid. unfold in_set. split; [intros (t & Ht & Hx); apply list_elem_of_singleton in Ht as ->; unfold in_span in Hx; cbn in Hx; lia|]. intros [Hx|Hx]; [lia|exists k2; split; [by left|done]].
  - apply rset_nil.
  - intros t Ht. by apply not_elem_of_nil in Ht.
  - intros x. rewrite Hmid. unfold in_set. split; [intros (t & Ht & _); by apply not_elem_of_nil in Ht|lia].
Qed.

Lemma remove_spec mem s l a b : gv_ok s l -> rset_ok l -> Z.of_nat (length l) <= 375809640 -> updated mem l (dyn_rset_remove mem s a b) (fun x => in_set x l /\ ~ (double_lt a b = true /\ o a <= x < o b)).
Proof.
  intros Hg Hl Hmax. unfold dyn_rset_remove, rset_lower, double_gt at 1. destruct (double_lt a b) eqn:Eab; cbn [negb]; [|exists true, s, mem, l; split_and!; try done; [by left|lia|]; intros x; split; [intros Hx; split; [done|by intros [? _]]|by intros [? _]]].
  apply double_lt_spec in Eab as (Na & Nb & Hab). destruct (search_at s l a true Hg Hl Na) as (i & -> & Hi & Hbefore & Hafter). cbn [mbind option_bind].
  pose proof (gv_cells s l Hg). pose proof (gv_length s l Hg) as Hlen. pose proof (gv_small s l Hg). pose proof (gv_room s l Hg).
  destruct (overlap_loop_spec (length (gv_p s)) s l b i Hg Hl Nb) as (j & -> & Hj & Hin & Hout); [lia|lia|]. cbn [mbind option_bind]. 
  assert (Hmem : forall x, in_set x l <-> (exists k t, (k < i)%nat /\ l !! k = Some t /\ in_span x t) \/ (exists k t, (i <= k < j)%nat /\ l !! k = Some t /\ in_span x t) \/ (exists k t, (j <= k)%nat /\ l !! k = Some t /\ in_span x t)).
  { intros x. rewrite in_set_at. split; [|intros [(k & t & _ & ? & ?)|[(k & t & _ & ? & ?)|(k & t & _ & ? & ?)]]; by exists k, t]. intros (k & t & Ht & Hx). destruct (decide (k < i)%nat); [left; by exists k, t|right]. destruct (decide (k < j)%nat); [left; exists k, t; split; [lia|done]|right; exists k, t; split; [lia|done]]. }
  assert (Hlow : forall x, (exists k t, (k < i)%nat /\ l !! k = Some t /\ in_span x t) -> x < o a) by (intros x (k & t & Hk & Ht & Hx); specialize (Hbefore k t Hk Ht); unfold in_span in Hx; lia).
  assert (Hhigh : forall x, (exists k t, (j <= k)%nat /\ l !! k = Some t /\ in_span x t) -> o b <= x) by (intros x (k & t & Hk & Ht & Hx); specialize (Hout k t Hk Ht); unfold in_span in Hx; lia).
  destruct (Z.eqb_spec (Z.of_nat j) (Z.of_nat i)) as [E|E].
  { exists true, s, mem, l. split_and!; try done; [by left|lia|]. intros x. split; [|by intros [? _]]. intros Hx. split; [done|]. intros [_ Hab']. apply Hmem in Hx as [Hx|[(k & _ & Hk & _)|Hx]]; [apply Hlow in Hx|lia|apply Hhigh in Hx]; lia. }
  destruct (lookup_lt_is_Some_2 l i) as [u Hu]; [lia|]. destruct (lookup_lt_is_Some_2 l (j - 1)) as [v Hv]; [lia|]. rewrite (gv_at_spec s l i u Hg Hu). cbn [mbind option_bind]. rewrite !wrap_id by (unfold fits; lia). replace (Z.of_nat j - 1) with (Z.of_nat (j - 1)) by lia. rewrite (gv_at_spec s l (j - 1) v Hg Hv). cbn [mbind option_bind]. replace (Z.of_nat j - Z.of_nat i) with (Z.of_nat (j - i)) by lia.
  destruct (keep_spec l i j a b u v Hl Na Nb Hab ltac:(lia) Hu Hv Hafter Hin) as (Kok & Klen & Kin & Kmem). set (keep := _ ++ _) in *.
  destruct (splice_spec sizeof_span mem s l i (j - i) keep Hg) as (ok & s' & mem' & -> & Hm & Hok); [lia|lia|lia|unfold sizeof_span; lia|]. replace (i + (j - i))%nat with j in Hok by lia. destruct ok.
  - exists true, s', mem', (take i l ++ keep ++ drop j l). split_and!; try done.
    + apply rset_splice; [done|done|lia| |]; intros k t w Hk Ht Hw; destruct (Kin w Hw); [pose proof (proj2 Hl k i t u Hk Ht Hu)|pose proof (proj2 Hl (j - 1)%nat k v t ltac:(lia) Hv Ht)]; lia.
    + rewrite !length_app, length_take, length_drop. lia.
    + intros x. rewrite in_splice, Hmem, Kmem. split; [|tauto]. intros [Hx|[[Hx Hn]|Hx]].
      * split; [by left|]. apply Hlow in Hx. lia.
      * split; [right; by left|]. tauto.
      * split; [right; by right|]. apply Hhigh in Hx. lia.
  - destruct Hok as [Hok Hhd]. exists false, s', mem', l. split_and!; try done. lia.
Qed.

(** ** Queries *)

Lemma lower_nan s l x : gv_ok s l -> rset_ok l -> isnan x = true -> rset_lower s x = Some (Z.of_nat (length l)).
Proof.
  intros Hg Hl Hx. destruct (first_hi_spec l x true (past_mono l x true Hl) s Hg) as (r & E & Hr & _ & R2). unfold rset_lower. rewrite E. do 2 f_equal. destruct (decide (r = length l)) as [?|Hne]; [done|]. destruct (lookup_lt_is_Some_2 l r) as [t Ht]; [lia|].
  specialize (R2 r t ltac:(lia) Ht). unfold hi_past, double_gt, double_lt in R2. by rewrite Hx in R2.
Qed.

(** The first range that ends behind a number has it, or none does. *)
Lemma lower_at s l x : gv_ok s l -> rset_ok l -> isnan x = false -> exists i, rset_lower s x = Some (Z.of_nat i) /\ (i <= length l)%nat /\
  (forall k t, (k < i)%nat -> l !! k = Some t -> o (hi t) <= o x) /\ (forall k t, (i <= k)%nat -> l !! k = Some t -> o x < o (hi t)) /\
  (forall k t, (i < k)%nat -> l !! k = Some t -> exists c, l !! i = Some c /\ o (hi c) < o (lo t)).
Proof.
  intros Hg Hl Nx. destruct (search_at s l x true Hg Hl Nx) as (i & E & Hi & H1 & H2). exists i. split_and!; try done. intros k t Hk Ht. pose proof (lookup_lt_Some _ _ _ Ht). destruct (lookup_lt_is_Some_2 l i) as [c Hc]; [lia|]. exists c. split; [done|]. by apply (proj2 Hl i k).
Qed.

Lemma contains_spec s l x : gv_ok s l -> rset_ok l -> exists b, dyn_rset_contains s x = Some b /\ (b = true <-> isnan x = false /\ in_set (o x) l).
Proof.
  intros Hg Hl. unfold dyn_rset_contains. pose proof (gv_length s l Hg) as Hlen. destruct (isnan x) eqn:Nx.
  - rewrite (lower_nan s l x Hg Hl Nx). cbn [mbind option_bind]. rewrite Hlen, Z.ltb_irrefl. exists false. split; [done|]. split; [done|by intros [? _]].
  - destruct (lower_at s l x Hg Hl Nx) as (i & -> & Hi & H1 & H2 & H3). cbn [mbind option_bind]. rewrite Hlen. destruct (Z.ltb_spec (Z.of_nat i) (Z.of_nat (length l))) as [Hlt|Hge].
    + destruct (lookup_lt_is_Some_2 l i) as [c Hc]; [lia|]. rewrite (gv_at_spec s l i c Hg Hc). cbn [mbind option_bind]. eexists. split; [done|]. pose proof (rset_span l i c Hl Hc) as (C1 & C2 & C3). rewrite double_le_ord, Z.leb_le by done. rewrite in_set_at. split.
      * intros Hle. split; [done|]. exists i, c. split; [done|]. specialize (H2 i c ltac:(lia) Hc). by split.
      * intros (_ & k & t & Ht & Hx). unfold in_span in Hx. destruct (decide (k < i)%nat) as [Hk|Hk]; [specialize (H1 k t Hk Ht); lia|]. destruct (decide (k = i)) as [-> |Hne]; [assert (t = c) as -> by congruence; lia|]. destruct (H3 k t ltac:(lia) Ht) as (c' & Hc' & Hlt'). assert (c' = c) as -> by congruence. specialize (H2 i c ltac:(lia) Hc). lia.
    + exists false. split; [done|]. split; [done|]. intros (_ & Hx). apply in_set_at in Hx as (k & t & Ht & Hx). pose proof (lookup_lt_Some _ _ _ Ht). specialize (H1 k t ltac:(lia) Ht). unfold in_span in Hx. lia.
Qed.

Lemma intersects_spec s l a b : gv_ok s l -> rset_ok l -> exists r, dyn_rset_intersects s a b = Some r /\ (r = true <-> double_lt a b = true /\ exists t, t ∈ l /\ Z.max (o a) (o (lo t)) < Z.min (o b) (o (hi t))).
Proof.
  intros Hg Hl. unfold dyn_rset_intersects, double_gt. pose proof (gv_length s l Hg) as Hlen. destruct (double_lt a b) eqn:Eab; cbn [negb]; [|exists false; split; [done|]; split; [done|by intros [? _]]]. apply double_lt_spec in Eab as (Na & Nb & Hab).
  destruct (lower_at s l a Hg Hl Na) as (i & -> & Hi & H1 & H2 & H3). cbn [mbind option_bind]. rewrite Hlen. destruct (Z.ltb_spec (Z.of_nat i) (Z.of_nat (length l))) as [Hlt|Hge].
  - destruct (lookup_lt_is_Some_2 l i) as [c Hc]; [lia|]. rewrite (gv_at_spec s l i c Hg Hc). cbn [mbind option_bind]. eexists. split; [done|]. pose proof (rset_span l i c Hl Hc) as (C1 & C2 & C3). rewrite double_lt_ord, Z.ltb_lt by done. specialize (H2 i c ltac:(lia) Hc) as Hac. split.
    + intros Hle. split; [done|]. exists c. split; [by apply list_elem_of_lookup_2 in Hc|lia].
    + intros (_ & t & Ht & Hx). apply list_elem_of_lookup in Ht as [k Ht]. destruct (decide (k < i)%nat) as [Hk|Hk]; [specialize (H1 k t Hk Ht); lia|]. destruct (decide (k = i)) as [-> |Hne]; [assert (t = c) as -> by congruence; lia|]. destruct (H3 k t ltac:(lia) Ht) as (c' & Hc' & Hlt'). assert (c' = c) as -> by congruence. lia.
  - exists false. split; [done|]. split; [done|]. intros (_ & t & Ht & Hx). apply list_elem_of_lookup in Ht as [k Ht]. pose proof (lookup_lt_Some _ _ _ Ht). specialize (H1 k t ltac:(lia) Ht). lia.
Qed.

(** A range in the set is inside one of its ranges: the end of a range is not in the set. *)
Lemma encloses_spec s l a b : gv_ok s l -> rset_ok l -> exists r, dyn_rset_encloses s a b = Some r /\ (r = true <-> (double_lt a b = true -> exists t, t ∈ l /\ o (lo t) <= o a /\ o b <= o (hi t))).
Proof.
  intros Hg Hl. unfold dyn_rset_encloses, double_gt. pose proof (gv_length s l Hg) as Hlen. destruct (double_lt a b) eqn:Eab; cbn [negb]; [|by exists true]. apply double_lt_spec in Eab as (Na & Nb & Hab).
  destruct (lower_at s l a Hg Hl Na) as (i & -> & Hi & H1 & H2 & H3). cbn [mbind option_bind]. rewrite Hlen. destruct (Z.ltb_spec (Z.of_nat i) (Z.of_nat (length l))) as [Hlt|Hge].
  - destruct (lookup_lt_is_Some_2 l i) as [c Hc]; [lia|]. rewrite (gv_at_spec s l i c Hg Hc). cbn [mbind option_bind]. eexists. split; [done|]. pose proof (rset_span l i c Hl Hc) as (C1 & C2 & C3). unfold double_ge. rewrite andb_true_iff, !double_le_ord, !Z.leb_le by done. split.
    + intros [A B] _. exists c. split; [by apply list_elem_of_lookup_2 in Hc|lia].
    + intros Ht. destruct (Ht eq_refl) as (t & Hin & Hx). apply list_elem_of_lookup in Hin as [k Hin]. destruct (decide (k < i)%nat) as [Hk|Hk]; [specialize (H1 k t Hk Hin); lia|]. destruct (decide (k = i)) as [-> |Hne]; [assert (t = c) as -> by congruence; lia|]. destruct (H3 k t ltac:(lia) Hin) as (c' & Hc' & Hlt'). assert (c' = c) as -> by congruence. specialize (H2 i c ltac:(lia) Hc). lia.
  - exists false. split; [done|]. split; [done|]. intros Ht. destruct (Ht eq_refl) as (t & Hin & Hx). apply list_elem_of_lookup in Hin as [k Hin]. pose proof (lookup_lt_Some _ _ _ Hin). specialize (H1 k t ltac:(lia) Hin). lia.
Qed.

(** ** The complement *)

Section Complement.
Context (s : dyn_rset_t) (l : list span) (a b : Z).
Hypothesis Hg : gv_ok s l.
Hypothesis Hl : rset_ok l.
Hypothesis Nb : isnan b = false.

(** [out] is what [a, cur) leaves of the set, of which [cur] has passed the first [i] ranges. *)
Definition complemented (lo_ : list span) (cur : Z) (i : nat) : Prop :=
  isnan cur = false /\ o a <= o cur /\ (forall k t, (k < i)%nat -> l !! k = Some t -> o (hi t) <= o cur) /\ (length lo_ <= i)%nat /\
  forall x, in_set x lo_ <-> o a <= x < o cur /\ ~ in_set x l.

(** Nothing of the set is between [cur] and [e]. *)
Lemma complement_extend lo_ lo' cur e i : complemented lo_ cur i -> o cur <= e -> (forall k t, (i <= k)%nat -> l !! k = Some t -> e <= o (lo t)) ->
  (forall x, in_set x lo' <-> in_set x lo_ \/ o cur <= x < e) -> forall x, in_set x lo' <-> o a <= x < e /\ ~ in_set x l.
Proof.
  intros (_ & Hac & Hpast & _ & Hm) He Hk Hlo x. rewrite Hlo, Hm. split.
  - intros [[Hx Hn]|Hx]; [split; [lia|done]|]. split; [lia|]. intros Hin. apply in_set_at in Hin as (k & t & Ht & Hxt). unfold in_span in Hxt. destruct (decide (k < i)%nat) as [Hki|Hki]; [specialize (Hpast k t Hki Ht); lia|]. specialize (Hk k t ltac:(lia) Ht). lia.
  - intros [Hx Hn]. destruct (decide (x < o cur)); [left; split; [lia|done]|right; lia].
Qed.

Lemma complement_loop_spec fuel mem out lo_ cur i : gv_ok out lo_ -> rset_ok lo_ -> complemented lo_ cur i -> o cur < o b -> (i <= length l)%nat -> (length l - i <= fuel)%nat -> Z.of_nat (length l) <= 375809639 ->
  exists ok cur' out' lo' mem', complement_loop fuel mem s out b cur (Z.of_nat i) = Some (ok, cur', out', mem') /\ gv_ok out' lo' /\ rset_ok lo' /\ (Forall (eq true) mem -> ok = true /\ Forall (eq true) mem') /\
    (ok = true -> (length lo' <= length l)%nat /\ isnan cur' = false /\ 
       if decide (o cur' < o b) then exists j, complemented lo' cur' j /\ (forall k t, (j <= k)%nat -> l !! k = Some t -> o b <= o (lo t)) else forall x, in_set x lo' <-> o a <= x < o b /\ ~ in_set x l).
Proof.
  pose proof (gv_length s l Hg) as Hlen. pose proof (gv_small s l Hg). pose proof (gv_room s l Hg). revert mem out lo_ cur i. induction fuel as [|fuel IH]; intros mem out lo_ cur i Ho Hlo HC Hcb Hi Hf Hmax; cbn [complement_loop]; rewrite Hlen.
  1, 2: destruct (Z.leb_spec (Z.of_nat (length l)) (Z.of_nat i)) as [Hle|Hlt]; [|try lia]; try (exists true, cur, out, lo_, mem; split_and!; try done; intros _; pose proof HC as (Nc & _ & _ & Hll & _); split_and!; [lia|done|]; rewrite decide_True by done; exists i; split; [done|]; intros k t Hk Ht; apply lookup_lt_Some in Ht; lia).
  pose proof HC as (Nc & Hac & Hpast & Hll & Hm). destruct (lookup_lt_is_Some_2 l i) as [c Hc]; [lia|]. rewrite (gv_at_spec s l i c Hg Hc). cbn [mbind option_bind]. pose proof (rset_span l i c Hl Hc) as (C1 & C2 & C3). unfold double_ge, double_gt. rewrite !double_le_ord, !double_lt_ord by done. rewrite wrap_id by (unfold fits; lia). replace (Z.of_nat i + 1) with (Z.of_nat (S i)) by lia.
  assert (Hnext : forall k t, (S i <= k)%nat -> l !! k = Some t -> o (hi c) < o (lo t)) by (intros k t Hk Ht; by apply (proj2 Hl i k)).
  destruct (Z.leb_spec (o (hi c)) (o cur)) as [Hhc|Hhc].
  { apply (IH mem out lo_ cur (S i)); try done; [|lia|lia]. split_and!; try done; [|lia]. intros k t Hk Ht. destruct (decide (k = i)) as [-> |Hne]; [assert (t = c) as -> by congruence; done|apply (Hpast k t); [lia|done]]. }
  destruct (Z.leb_spec (o b) (o (lo c))) as [Hbc|Hbc].
  { exists true, cur, out, lo_, mem. split_and!; try done. intros _. split_and!; [lia|done|]. rewrite decide_True by done. exists i. split; [done|]. intros k t Hk Ht. destruct (decide (k = i)) as [-> |Hne]; [assert (t = c) as -> by congruence; done|]. specialize (Hnext k t ltac:(lia) Ht). lia. }
  (* the part up to the range *)
  assert (Hstep : exists ok out1 lo1 mem1, (if o cur <? o (lo c) then dyn_rset_add mem out cur (lo c) else Some (true, out, mem)) = Some (ok, out1, mem1) /\ gv_ok out1 lo1 /\ rset_ok lo1 /\ (Forall (eq true) mem -> ok = true /\ Forall (eq true) mem1) /\
    (ok = true -> (length lo1 <= S i)%nat /\ forall x, in_set x lo1 <-> o a <= x < Z.max (o cur) (o (lo c)) /\ ~ in_set x l)).
  { destruct (Z.ltb_spec (o cur) (o (lo c))) as [Hcc|Hcc].
    - destruct (rset_add_spec mem out lo_ cur (lo c) Ho Hlo) as (ok & out1 & mem1 & lo1 & -> & G1 & L1 & M1 & Le1 & R1); [lia|]. exists ok, out1, lo1, mem1. split_and!; try done.
      + intros HF. assert (Htl : Forall (eq true) (tl mem)) by (destruct mem; [done|by inversion HF]). destruct ok; [split; [done|destruct M1 as [-> | ->]; done]|]. destruct R1 as [_ Hhd]. destruct mem as [|m0 mm]; [done|]. cbn in Hhd. subst m0. inversion HF. done.
      + intros ->. split; [lia|]. rewrite Z.max_r by lia. apply (complement_extend lo_ lo1 cur (o (lo c)) i HC); [lia|intros k t Hk Ht; destruct (decide (k = i)) as [-> |Hne]; [assert (t = c) as -> by congruence; lia|specialize (Hnext k t ltac:(lia) Ht); lia]|]. intros x. rewrite R1, double_lt_ord, Z.ltb_lt by done. tauto.
    - exists true, out, lo_, mem. split_and!; try done. intros _. split; [lia|]. by rewrite Z.max_l by lia. }
  destruct Hstep as (ok & out1 & lo1 & mem1 & -> & G1 & L1 & M1 & R1). cbn [mbind option_bind]. destruct ok; [|exists false, cur, out1, lo1, mem1; split_and!; try done; by intros Hx; destruct (M1 Hx)]. destruct (R1 eq_refl) as [Le1 Hm1]. rewrite (proj2 (Z.ltb_lt _ _) Hhc). rewrite double_le_ord by done.
  assert (HC1 : forall x, in_set x lo1 <-> o a <= x < o (hi c) /\ ~ in_set x l). { intros x. rewrite Hm1. split; [intros [Hx Hn]; split; [lia|done]|]. intros [Hx Hn]. split; [|done]. split; [lia|]. destruct (decide (x < Z.max (o cur) (o (lo c)))) as [?|Hge]; [done|]. exfalso. apply Hn, in_set_at. exists i, c. unfold in_span. split; [done|lia]. }
  destruct (Z.leb_spec (o b) (o (hi c))) as [Hbh|Hbh].
  - exists true, (hi c), out1, lo1, mem1. split_and!; try done. intros _. split_and!; [lia|done|]. rewrite decide_False by lia. intros x. rewrite HC1. split; [|intros [Hx Hn]; split; [lia|done]]. intros [Hx Hn]. split; [|done]. split; [lia|]. destruct (decide (x < o b)) as [?|Hge]; [done|]. exfalso. apply Hn, in_set_at. exists i, c. unfold in_span. split; [done|lia].
  - destruct (IH mem1 out1 lo1 (hi c) (S i)) as (ok & cur' & out' & lo' & mem' & E & G' & L' & M' & R'); try done; [|lia|lia|].
    + split_and!; try done; [lia|]. intros k t Hk Ht. destruct (decide (k = i)) as [-> |Hne]; [assert (t = c) as -> by congruence; lia|]. specialize (Hpast k t ltac:(lia) Ht). lia.
    + exists ok, cur', out', lo', mem'. split_and!; try done. intros HF. destruct (M1 HF) as [_ HF1]. by apply M'.
Qed.
End Complement.

(** ** What the operations do *)

(** The numbers of a range and of a set; NaN is in none. *)
Definition in_bounds (a b x : Z) : bool := double_le a x && double_lt x b.
Definition member (l : list span) (x : Z) : bool := existsb (fun s => in_bounds (lo s) (hi s) x) l.

(** The set whose ranges are [l]. *)
Definition is_rset (s : dyn_rset_t) (l : list span) : Prop := gv_ok s l /\ rset_ok l /\ Z.of_nat (length l) <= 375809639.

Lemma in_bounds_spec a b x : in_bounds a b x = true <-> double_lt a b = true /\ isnan x = false /\ o a <= o x < o b.
Proof. unfold in_bounds. rewrite andb_true_iff, double_le_spec, !double_lt_spec. split; [intros ((? & ? & ?) & ? & ? & ?)|intros ((? & ? & ?) & ? & ?)]; split_and!; try done; lia. Qed.

Lemma member_spec l x : rset_ok l -> member l x = true <-> isnan x = false /\ in_set (o x) l.
Proof.
  intros Hl. unfold member. rewrite existsb_exists. split.
  - intros (s & Hs & Hx). apply in_bounds_spec in Hx as (_ & Nx & Hx). split; [done|]. exists s. split; [by apply list_elem_of_In|done].
  - intros (Nx & s & Hs & Hx). exists s. split; [by apply list_elem_of_In|]. apply list_elem_of_lookup in Hs as [i Hi]. destruct (rset_span l i s Hl Hi) as (S1 & S2 & S3). apply in_bounds_spec. by rewrite double_lt_ord, Z.ltb_lt by done.
Qed.

Lemma bool_iff (p q : bool) : (p = true <-> q = true) -> p = q.
Proof. destruct p, q; intros [H1 H2]; try done; [by rewrite H1|by rewrite H2]. Qed.

(** The empty set. *)
Lemma new_rset : is_rset dyn_rset_new [].
Proof. split; [|split; [apply rset_nil|cbn; lia]]. split; cbn; try done. by left. Qed.

(** C18. Range sets: adding a range makes the union, removing one the difference,
    and the complement in a range is what the range has and the set has not; the
    ranges stay apart and in order.  Without memory for the array the set is
    unchanged, and with memory the operations succeed. *)
Theorem rset_updates_refine mem s out l l0 a b : is_rset s l -> is_rset out l0 ->
  (exists ok s' mem' l', dyn_rset_add mem s a b = Some (ok, s', mem') /\ gv_ok s' l' /\ rset_ok l' /\ if ok : bool then forall x, member l' x = member l x || in_bounds a b x else l' = l /\ hd true mem = false) /\
  (exists ok s' mem' l', dyn_rset_remove mem s a b = Some (ok, s', mem') /\ gv_ok s' l' /\ rset_ok l' /\ if ok : bool then forall x, member l' x = member l x && negb (in_bounds a b x) else l' = l /\ hd true mem = false) /\
  (exists ok s' mem' l', dyn_rset_complement mem s out a b = Some (ok, s', mem') /\ gv_ok s' l' /\ rset_ok l' /\ (ok = true -> forall x, member l' x = in_bounds a b x && negb (member l x)) /\ (Forall (eq true) mem -> ok = true)).
Proof.
  intros (Hg & Hl & Hmax) (Hg0 & Hl0 & Hmax0). split; [|split].
  - destruct (rset_add_spec mem s l a b Hg Hl) as (ok & s' & mem' & l' & E & G & L & _ & _ & R); [lia|]. exists ok, s', mem', l'. split_and!; try done. destruct ok; [|done]. intros x. apply bool_iff. rewrite orb_true_iff, !member_spec, in_bounds_spec, R by done. tauto.
  - destruct (remove_spec mem s l a b Hg Hl) as (ok & s' & mem' & l' & E & G & L & _ & _ & R); [lia|]. exists ok, s', mem', l'. split_and!; try done. destruct ok; [|done]. intros x. apply bool_iff. rewrite andb_true_iff, negb_true_iff, <- not_true_iff_false, !member_spec, in_bounds_spec, R by done. tauto.
  - assert (Hclear : gv_ok (dyn_rset_clear out) []). { pose proof (gv_small out l0 Hg0). split; cbn; [apply (gv_cells out l0 Hg0)|done|lia|apply (gv_capok out l0 Hg0)|intros i x Hi; done]. }
    unfold dyn_rset_complement, double_gt. destruct (double_lt a b) eqn:Eab; cbn [negb].
    2: { exists true, (dyn_rset_clear out), mem, []. split_and!; try done. intros _ x. apply bool_iff. rewrite andb_true_iff, in_bounds_spec, Eab. split; [done|by intros [[? _] _]]. }
    pose proof Eab as (Na & Nb & Hab)%double_lt_spec. pose proof (gv_cells s l Hg). pose proof (gv_length s l Hg). pose proof (gv_room s l Hg).
    destruct (complement_loop_spec s l a b Hg Hl Nb (length (gv_p s)) mem (dyn_rset_clear out) [] a 0) as (ok & cur & out1 & lo1 & mem1 & E & G1 & L1 & M1 & R1); [done|apply rset_nil| |lia|lia|lia|lia|].
    { split_and!; [done|lia|intros k t Hk; lia|cbn; lia|]. intros x. unfold in_set at 1. split; [intros (t & Ht & _); by apply not_elem_of_nil in Ht|lia]. }
    change (Z.of_nat 0) with 0 in E. rewrite E. cbn [mbind option_bind]. destruct ok; [|exists false, out1, mem1, lo1; split_and!; try done; intros HF; by apply M1]. destruct (R1 eq_refl) as (Le1 & Nc & Hres). rewrite double_lt_ord by done.
    assert (Hfinal : forall l', rset_ok l' -> (forall x, in_set x l' <-> o a <= x < o b /\ ~ in_set x l) -> forall x, member l' x = in_bounds a b x && negb (member l x)).
    { intros l' Hl' Hx x. apply bool_iff. rewrite andb_true_iff, negb_true_iff, <- not_true_iff_false, !member_spec, in_bounds_spec, Hx by done. tauto. }
    destruct (Z.ltb_spec (o cur) (o b)) as [Hcb|Hcb].
    + rewrite decide_True in Hres by done. destruct Hres as (j & HC & Hj). destruct (rset_add_spec mem1 out1 lo1 cur b G1 L1) as (ok & s' & mem' & l' & -> & G & L & _ & _ & R); [lia|]. exists ok, s', mem', l'. split_and!; try done.
      * intros ->. apply Hfinal; [done|]. apply (complement_extend l a lo1 l' cur (o b) j HC); [lia|done|]. intros x. rewrite R, double_lt_ord, Z.ltb_lt by done. tauto.
      * intros HF. destruct (M1 HF) as [_ HF1]. destruct ok; [done|]. destruct R as [_ Hhd]. destruct mem1 as [|m0 mm]; [done|]. cbn in Hhd. subst m0. by inversion HF1.
    + rewrite decide_False in Hres by lia. exists true, out1, mem1, lo1. split_and!; try done. intros _. by apply Hfinal.
Qed.

(** C25. Queries of range sets: contains decides membership, a range is enclosed
    when all its numbers are in the set, and it intersects when one is; the
    ranges can be read in order. *)
Theorem rset_queries_exact s l a b x : is_rset s l ->
  dyn_rset_contains s x = Some (member l x) /\
  (exists r, dyn_rset_encloses s a b = Some r /\ (r = true <-> forall y, in_bounds a b y = true -> member l y = true)) /\
  (exists r, dyn_rset_intersects s a b = Some r /\ (r = true <-> exists y, in_bounds a b y = true /\ member l y = true)) /\
  dyn_rset_count s = Z.of_nat (length l) /\ forall i, dyn_rset_at s (Z.of_nat i) = Some (l !! i).
Proof.
  intros (Hg & Hl & Hmax). split; [|split; [|split; [|split]]].
  - destruct (contains_spec s l x Hg Hl) as (r & -> & Hr). f_equal. apply bool_iff. by rewrite member_spec.
  - destruct (encloses_spec s l a b Hg Hl) as (r & -> & Hr). exists r. split; [done|]. rewrite Hr. split.
    + intros Ht y Hy. apply in_bounds_spec in Hy as (Hab & Ny & Hy). destruct (Ht Hab) as (t & Hin & Hx). apply member_spec; [done|]. split; [done|]. exists t. split; [done|]. unfold in_span. lia.
    + intros Hall Hab. pose proof Hab as (Na & Nb & Hlt)%double_lt_spec. assert (Ha : member l a = true) by (apply Hall, in_bounds_spec; split_and!; [done|done|lia|done]). apply member_spec in Ha as [_ Ha]; [|done]. apply in_set_at in Ha as (k & t & Ht & Hx). unfold in_span in Hx. exists t. split; [by apply list_elem_of_lookup_2 in Ht|]. split; [lia|].
      destruct (decide (o b <= o (hi t))) as [?|Hn]; [done|]. exfalso. destruct (rset_span l k t Hl Ht) as (T1 & T2 & T3). assert (Hh : member l (hi t) = true) by (apply Hall, in_bounds_spec; split_and!; [done|done|lia|lia]). apply member_spec in Hh as [_ Hh]; [|done]. apply in_set_at in Hh as (k' & t' & Ht' & Hx'). unfold in_span in Hx'.
      destruct (lt_eq_lt_dec k k') as [[Hkk|Hkk]|Hkk]; [pose proof (proj2 Hl k k' t t' Hkk Ht Ht')|subst k'; assert (t' = t) as -> by congruence|pose proof (proj2 Hl k' k t' t Hkk Ht' Ht)]; lia.
  - destruct (intersects_spec s l a b Hg Hl) as (r & -> & Hr). exists r. split; [done|]. rewrite Hr. split.
    + intros (Hab & t & Hin & Hx). pose proof Hab as (Na & Nb & Hlt)%double_lt_spec. pose proof Hin as [k Hk]%list_elem_of_lookup. destruct (rset_span l k t Hl Hk) as (T1 & T2 & T3). destruct (decide (o a <= o (lo t))) as [Hle|Hle]; [exists (lo t)|exists a]; (split; [apply in_bounds_spec; split_and!; try done; lia|]); (apply member_spec; [done|]; split; [done|]; exists t; split; [done|]; unfold in_span; lia).
    + intros (y & Hy & Hm). apply in_bounds_spec in Hy as (Hab & Ny & Hy). apply member_spec in Hm as [_ (t & Hin & Hx)]; [|done]. split; [done|]. exists t. split; [done|]. unfold in_span in Hx. lia.
  - apply (gv_length s l Hg).
  - intros i. unfold dyn_rset_at. rewrite (gv_length s l Hg). destruct (Z.leb_spec (Z.of_nat (length l)) (Z.of_nat i)) as [Hle|Hlt]; [rewrite lookup_ge_None_2 by lia; done|]. destruct (lookup_lt_is_Some_2 l i) as [c Hc]; [lia|]. by rewrite (gv_at_spec s l i c Hg Hc), Hc.
Qed.

(** [1, 2) added to the empty set: 1 and 2 as bits. *)
Definition one : Z := 0x3ff0000000000000.
Definition two : Z := 0x4000000000000000.

Lemma rset_updates_refine_witness : exists s' mem' l', dyn_rset_add [] dyn_rset_new one two = Some (true, s', mem') /\ gv_ok s' l' /\ member l' one = true /\ member l' two = false.
Proof.
  destruct (rset_updates_refine [] dyn_rset_new dyn_rset_new [] [] one two new_rset new_rset) as ((ok & s' & mem' & l' & E & G & L & R) & _). exists s', mem', l'. destruct ok; [|destruct R as [_ R]; discriminate R]. split; [exact E|]. split; [exact G|]. split; rewrite R; reflexivity.
Defined.

Definition one_two : dyn_rset_t := mk_gv (Some (mk_span one two) :: replicate 7 None) 1 8 1.

Lemma one_two_ok : is_rset one_two [mk_span one two].
Proof.
  split; [|split; [|cbn; lia]].
  - split; cbn; try done; [right; exists 0%nat; split; [lia|done]|]. intros [|i] x Hi; [by injection Hi as <-|done].
  - apply span_single. split_and!; vm_compute; reflexivity.
Qed.

Lemma rset_queries_exact_witness : dyn_rset_contains one_two one = Some true /\ dyn_rset_at one_two 0 = Some (Some (mk_span one two)).
Proof. destruct (rset_queries_exact one_two [mk_span one two] one two one one_two_ok) as (A & _ & _ & _ & B). split; [exact A|exact (B 0%nat)]. Defined.
