(* ===== verification/MMHeap.v ===== *)
(** * Double-ended heaps

    The min-max heap of src/core/dyn-ds.c (dyn_mmheap): the levels of the tree
    alternate, a node on an even level is not above its descendants and one on an
    odd level not below.

    The heap is the list of its nodes with the capacity of the array; a
    priority is the bits of a double.  Indices are natural numbers: the array has
    at most 2^31 nodes, so no index of a child wraps.  The cells of a heap are of
    any type.  An access outside of the array is [None]. *)
From Stdlib Require Import ZArith Lia List Arith.
From stdpp Require Import base numbers list option.
From S2P Require Import Prelude DsBase Doubles.

Section MMHeap.
Context {V : Type}.

Record mmnode := mk_mm { pri : Z; val : V }.
Record dyn_mmheap_t := mk_mmheap { mm_v : list mmnode; mm_cap : Z }.
Definition sizeof_mmnode : Z := 24.

Definition dyn_mmheap_new : dyn_mmheap_t := mk_mmheap [] 0.
Definition dyn_mmheap_size (h : dyn_mmheap_t) : Z := Z.of_nat (length (mm_v h)).
Definition dyn_mmheap_cell_at (h : dyn_mmheap_t) (i : nat) : option V := val <$> mm_v h !! i.
Definition dyn_mmheap_pri_at (h : dyn_mmheap_t) (i : nat) : Z := default 0 (pri <$> mm_v h !! i).

Definition mm_is_min_level (i : nat) : bool := (Nat.log2 (i + 1) mod 2 =? 0)%nat.

(** Whether the first priority should be further up. *)
Definition better (want_max : bool) (a b : Z) : bool := if want_max then double_gt a b else double_lt a b.

Definition mm_swap (v : list mmnode) (i j : nat) : option (list mmnode) :=
  a ← v !! i;
  b ← v !! j;
  Some (<[j := a]> (<[i := b]> v)).

Fixpoint mm_bubble_up_dir (fuel : nat) (v : list mmnode) (i : nat) (want_max : bool) : option (list mmnode) :=
  if (i <? 3)%nat then Some v else
  match fuel with
  | O => None
  | S fuel =>
      let g := ((i - 3) / 4)%nat in
      a ← v !! i;
      b ← v !! g;
      if negb (better want_max (pri a) (pri b)) then Some v
      else v ← mm_swap v i g; mm_bubble_up_dir fuel v g want_max
  end.

Definition mm_bubble_up (v : list mmnode) (i : nat) : option (list mmnode) :=
  if (i =? 0)%nat then Some v else
  let p := ((i - 1) / 2)%nat in
  let want_max := negb (mm_is_min_level i) in
  a ← v !! i;
  b ← v !! p;
  if better (negb want_max) (pri a) (pri b) then v ← mm_swap v i p; mm_bubble_up_dir i v p (negb want_max)
  else mm_bubble_up_dir i v i want_max.

(** The grandchildren [gs] of one child: [best] with whether it is a grandchild. *)
Fixpoint best_of (v : list mmnode) (want_max : bool) (gs : list nat) (best : nat * bool) : option (nat * bool) :=
  match gs with
  | [] => Some best
  | g :: gs =>
      if (length v <=? g)%nat then Some best else
      a ← v !! g;
      b ← v !! best.1;
      best_of v want_max gs (if better want_max (pri a) (pri b) then (g, true) else best)
  end.

Fixpoint best_child (v : list mmnode) (want_max : bool) (cs : list nat) (best : option (nat * bool)) : option (option (nat * bool)) :=
  match cs with
  | [] => Some best
  | c :: cs =>
      if (length v <=? c)%nat then Some best else
      a ← v !! c;
      best ← match best with
             | None => Some (c, false)
             | Some x => b ← v !! x.1; Some (if better want_max (pri a) (pri b) then (c, false) else x)
             end;
      best ← best_of v want_max [(2 * c + 1)%nat; (2 * c + 2)%nat] best;
      best_child v want_max cs (Some best)
  end.

(** The inner [None] is UINT32_MAX. *)
Definition mm_best_descendant (v : list mmnode) (i : nat) (want_max : bool) : option (option (nat * bool)) :=
  best_child v want_max [(2 * i + 1)%nat; (2 * i + 2)%nat] None.

Fixpoint mm_trickle_down_dir (fuel : nat) (v : list mmnode) (i : nat) (want_max : bool) : option (list mmnode) :=
  match fuel with
  | O => None
  | S fuel =>
      r ← mm_best_descendant v i want_max;
      match r with
      | None => Some v
      | Some (m, is_gc) =>
          a ← v !! m;
          b ← v !! i;
          if negb is_gc then (if better want_max (pri a) (pri b) then mm_swap v m i else Some v) else
          if negb (better want_max (pri a) (pri b)) then Some v else
          v ← mm_swap v m i;
          let p := ((m - 1) / 2)%nat in
          a ← v !! m;
          b ← v !! p;
          v ← (if better (negb want_max) (pri a) (pri b) then mm_swap v m p else Some v);
          mm_trickle_down_dir fuel v m want_max
      end
  end.

Definition mm_trickle_down (v : list mmnode) (i : nat) : option (list mmnode) := mm_trickle_down_dir (S (length v)) v i (negb (mm_is_min_level i)).

(** [false]: no memory. *)
Definition dyn_mmheap_push (mem : list bool) (h : dyn_mmheap_t) (p : Z) (x : V) : option (bool * dyn_mmheap_t * list bool) :=
  r ← ds_reserve mem (mm_cap h) (u32 (Z.of_nat (length (mm_v h)) + 1)) sizeof_mmnode;
  match r with
  | (false, cap, mem) => Some (false, mk_mmheap (mm_v h) cap, mem)
  | (true, cap, mem) => v ← mm_bubble_up (mm_v h ++ [mk_mm p x]) (length (mm_v h)); Some (true, mk_mmheap v cap, mem)
  end.

Definition mm_max_index (v : list mmnode) : option nat :=
  if (length v <=? 1)%nat then Some 0%nat else
  if (length v =? 2)%nat then Some 1%nat else
  a ← v !! 1%nat;
  b ← v !! 2%nat;
  Some (if double_ge (pri a) (pri b) then 1%nat else 2%nat).

(** The inner [None]: the heap is empty. *)
Definition mm_pop_at (h : dyn_mmheap_t) (i : nat) : option (option mmnode * dyn_mmheap_t) :=
  if (length (mm_v h) =? 0)%nat then Some (None, h) else
  x ← mm_v h !! i;
  let len := (length (mm_v h) - 1)%nat in
  if negb (i =? len)%nat then
    y ← mm_v h !! len;
    v ← mm_trickle_down (<[i := y]> (take len (mm_v h))) i;
    Some (Some x, mk_mmheap v (mm_cap h))
  else Some (Some x, mk_mmheap (take len (mm_v h)) (mm_cap h)).

Definition dyn_mmheap_pop_min (h : dyn_mmheap_t) : option (option mmnode * dyn_mmheap_t) := mm_pop_at h 0.
Definition dyn_mmheap_pop_max (h : dyn_mmheap_t) : option (option mmnode * dyn_mmheap_t) := i ← mm_max_index (mm_v h); mm_pop_at h i.

Definition dyn_mmheap_peek_min (h : dyn_mmheap_t) : option (option mmnode) := if (length (mm_v h) =? 0)%nat then Some None else Some <$> mm_v h !! 0%nat.
Definition dyn_mmheap_peek_max (h : dyn_mmheap_t) : option (option mmnode) :=
  if (length (mm_v h) =? 0)%nat then Some None else i ← mm_max_index (mm_v h); Some <$> mm_v h !! i.
End MMHeap.
Arguments mmnode : clear implicits.
Arguments dyn_mmheap_t : clear implicits.
