(* ===== verification/MMHeapOrder.v ===== *)
(** * The order of a min-max heap

    On the priorities as a function of the place: the order, how it is broken
    while a node bubbles up or trickles down, and that each step of the loops puts
    it right one or two levels further on. *)
From Stdlib Require Import ZArith Lia List Arith.
From stdpp Require Import base numbers list option sorting.
From S2P Require Import Prelude MMHeap.

(** ** The tree *)

Definition par (j : nat) : nat := ((j - 1) / 2)%nat.
Definition gpar (j : nat) : nat := ((j - 3) / 4)%nat.

Lemma par_lt j : (1 <= j)%nat -> (par j < j)%nat.
Proof. intros Hj. unfold par. apply Nat.Div0.div_lt_upper_bound. lia. Qed.

Lemma mm_par_child j i : (1 <= j)%nat -> par j = i <-> j = (2 * i + 1)%nat \/ j = (2 * i + 2)%nat.
Proof.
  intros Hj. unfold par. pose proof (Nat.div_mod (j - 1) 2 ltac:(lia)) as Hd. pose proof (Nat.mod_upper_bound (j - 1) 2 ltac:(lia)). lia.
Qed.

Lemma gpar_par j : (3 <= j)%nat -> gpar j = par (par j).
Proof.
  intros Hj. unfold gpar, par. replace ((j - 1) / 2 - 1)%nat with ((j - 3) / 2)%nat; [by rewrite Nat.Div0.div_div|]. replace (j - 1)%nat with ((j - 3) + 1 * 2)%nat by lia. rewrite Nat.div_add by lia. lia.
Qed.

Lemma par_pos j : (3 <= j)%nat -> (1 <= par j)%nat.
Proof. intros Hj. unfold par. apply Nat.div_le_lower_bound; lia. Qed.

(** Whether the level of a node has the greater priorities. *)
Definition lev (i : nat) : bool := negb (mm_is_min_level i).

Lemma lev_par j : (1 <= j)%nat -> lev (par j) = negb (lev j).
Proof.
  intros Hj. unfold lev, mm_is_min_level. f_equal. assert (E : Nat.log2 (j + 1) = S (Nat.log2 (par j + 1))).
  { destruct (proj1 (mm_par_child j (par j) Hj) eq_refl) as [E|E]; rewrite E at 1; [replace (2 * par j + 1 + 1)%nat with (2 * (par j + 1))%nat by lia; rewrite Nat.log2_double by lia; done|]. replace (2 * par j + 2 + 1)%nat with (2 * (par j + 1) + 1)%nat by lia. rewrite Nat.log2_succ_double by lia. done. }
  rewrite E. set (n := Nat.log2 (par j + 1)). destruct (Nat.eqb_spec (n mod 2) 0) as [Hn|Hn], (Nat.eqb_spec (S n mod 2) 0) as [Hs|Hs]; try done; pose proof (Nat.div_mod n 2 ltac:(lia)); pose proof (Nat.div_mod (S n) 2 ltac:(lia)); pose proof (Nat.mod_upper_bound n 2 ltac:(lia)); pose proof (Nat.mod_upper_bound (S n) 2 ltac:(lia)); lia.
Qed.

Lemma lev_gpar j : (3 <= j)%nat -> lev (gpar j) = lev j.
Proof. intros Hj. rewrite gpar_par by done. rewrite lev_par by (by apply par_pos). rewrite lev_par by lia. by rewrite negb_involutive. Qed.

(** ** The order *)

(** [a] may be above [b] on a level. *)
Definition le (d : bool) (a b : Z) : Prop := if d then b <= a else a <= b.

Lemma le_negb d a b : le (negb d) a b <-> le d b a.
Proof. by destruct d. Qed.
Lemma le_trans d a b c : le d a b -> le d b c -> le d a c.
Proof. destruct d; cbn; lia. Qed.
Lemma le_total d a b : ~ le d a b -> le d b a.
Proof. destruct d; cbn; lia. Qed.
Lemma le_refl d a : le d a a.
Proof. destruct d; cbn; lia. Qed.

Section Order.
Context (n : nat).
Implicit Types p : nat -> Z.

Definition edge p (i j : nat) : Prop := le (lev i) (p i) (p j).
Definition heap_ok p : Prop := (forall j, (1 <= j < n)%nat -> edge p (par j) j) /\ (forall j, (3 <= j < n)%nat -> edge p (gpar j) j).
(** A child or a grandchild. *)
Definition below (i j : nat) : Prop := (j < n)%nat /\ ((1 <= j)%nat /\ par j = i \/ (3 <= j)%nat /\ gpar j = i).

Definition swapped p (i j : nat) : nat -> Z := fun k => if decide (k = i) then p j else if decide (k = j) then p i else p k.

Lemma swapped_l p i j : swapped p i j i = p j.
Proof. unfold swapped. by rewrite decide_True. Qed.
Lemma swapped_r p i j : swapped p i j j = p i.
Proof. unfold swapped. destruct (decide (j = i)) as [-> |]; [done|by rewrite decide_True]. Qed.
Lemma swapped_ne p i j k : k <> i -> k <> j -> swapped p i j k = p k.
Proof. intros H1 H2. unfold swapped. by rewrite !decide_False. Qed.

(** All but the edge from the grandparent of [i]. *)
Definition up_inv p (i : nat) : Prop :=
  (forall j, (1 <= j < n)%nat -> edge p (par j) j) /\ (forall j, (3 <= j < n)%nat -> j <> i -> edge p (gpar j) j) /\
  ((3 <= i)%nat -> forall j, below i j -> le (lev i) (p (gpar i)) (p j)).

Lemma mm_up_done p i : up_inv p i -> ((3 <= i < n)%nat -> le (lev i) (p (gpar i)) (p i)) -> heap_ok p.
Proof.
  intros (U1 & U2 & _) Hi. split; [done|]. intros j Hj. destruct (decide (j = i)) as [-> |Hne]; [|by apply U2]. unfold edge. rewrite lev_gpar by lia. by apply Hi.
Qed.

Lemma up_step p i : up_inv p i -> (3 <= i < n)%nat -> le (lev i) (p i) (p (gpar i)) -> up_inv (swapped p i (gpar i)) (gpar i).
Proof.
  intros (U1 & U2 & U3) Hi Hle. set (g := gpar i). set (d := lev i) in *. assert (Hg : g = par (par i)) by (apply gpar_par; lia). pose proof (par_pos i ltac:(lia)). pose proof (par_lt i ltac:(lia)). pose proof (par_lt (par i) ltac:(lia)). assert (Hlg : lev g = d) by (apply lev_gpar; lia).
  assert (Hgi : g <> i) by lia. assert (Hgp : par i <> g) by lia. fold g in Hle, U3. specialize (U3 ltac:(lia)).
  assert (Sg : swapped p i g g = p i) by apply swapped_r. assert (Si : swapped p i g i = p g) by apply swapped_l.
  assert (Hunder : forall j, below g j -> j <> i -> le d (p g) (p j)).
  { intros j [Hj [[Hj1 E]|[Hj3 E]]] Hne; [pose proof (U1 j ltac:(lia)) as A|pose proof (U2 j ltac:(lia) Hne) as A]; unfold edge in A; rewrite E, Hlg in A; done. }
  split; [|split].
  - intros j Hj. pose proof (par_lt j ltac:(lia)) as Hpj. unfold edge. destruct (decide (par j = i)) as [E|E]; [|destruct (decide (par j = g)) as [E'|E']].
    + rewrite E, Si, swapped_ne by lia. apply U3. split; [lia|by left; split; [lia|]].
    + assert (j <> i) by congruence. rewrite E', Sg, swapped_ne by lia. rewrite Hlg. apply (le_trans _ _ (p g)); [done|]. apply Hunder; [split; [lia|left; split; [lia|done]]|done].
    + rewrite (swapped_ne p i g (par j)) by done. pose proof (U1 j ltac:(lia)) as A. unfold edge in A. destruct (decide (j = i)) as [-> |Hji]; [|destruct (decide (j = g)) as [-> |Hjg]].
      * rewrite Si. pose proof (U1 (par i) ltac:(lia)) as B. unfold edge in B. rewrite <- Hg, Hlg in B. rewrite lev_par by lia. by apply le_negb.
      * rewrite Sg. rewrite lev_par in A |- * by lia. rewrite le_negb in A |- *. rewrite Hlg in *. by apply (le_trans _ _ (p g)).
      * by rewrite swapped_ne.
  - intros j Hj Hjg. pose proof (gpar_par j ltac:(lia)) as Egp. pose proof (par_pos j ltac:(lia)). pose proof (par_lt j ltac:(lia)). pose proof (par_lt (par j) ltac:(lia)). unfold edge. destruct (decide (j = i)) as [-> |Hji].
    + fold g. rewrite Sg, Si, Hlg. done.
    + rewrite (swapped_ne p i g j) by done. destruct (decide (gpar j = i)) as [E|E]; [|destruct (decide (gpar j = g)) as [E'|E']].
      * rewrite E, Si. apply U3. split; [lia|right; split; [lia|done]].
      * rewrite E', Sg, Hlg. apply (le_trans _ _ (p g)); [done|]. apply Hunder; [split; [lia|right; split; [lia|done]]|done].
      * rewrite swapped_ne by done. by apply U2.
  - intros Hg3 j Hj. pose proof (U2 g ltac:(lia) Hgi) as A. unfold edge in A. rewrite lev_gpar in A by done. rewrite Hlg in *. pose proof (gpar_par g Hg3) as Egg. pose proof (par_pos g Hg3). pose proof (par_lt g ltac:(lia)). pose proof (par_lt (par g) ltac:(lia)). rewrite (swapped_ne p i g (gpar g)) by lia.
    apply (le_trans _ _ (p g)); [done|]. destruct (decide (j = i)) as [-> |Hji]; [rewrite Si; apply le_refl|]. assert (j <> g) by (destruct Hj as [_ [[Hj1 E]|[Hj3 E]]]; intros ->; lia). rewrite swapped_ne by done. by apply Hunder.
Qed.

(** ** Trickling down *)

(** All but the edges from [i]. *)
Definition down_inv p (i : nat) : Prop :=
  (forall j, (1 <= j < n)%nat -> par j <> i -> edge p (par j) j) /\ (forall j, (3 <= j < n)%nat -> gpar j <> i -> edge p (gpar j) j) /\
  ((3 <= i)%nat -> forall j, below i j -> le (lev i) (p (gpar i)) (p j)).

(** [m] is as far up as any child or grandchild of [i] could be. *)
Definition is_best p (i m : nat) : Prop := below i m /\ forall j, below i j -> le (lev i) (p m) (p j).

Lemma mm_down_done p i : down_inv p i -> (forall j, below i j -> le (lev i) (p i) (p j)) -> heap_ok p.
Proof.
  intros (D1 & D2 & _) H. split; intros j Hj.
  - destruct (decide (par j = i)) as [E|E]; [|by apply D1]. unfold edge. rewrite E. apply H. split; [lia|left; split; [lia|done]].
  - destruct (decide (gpar j = i)) as [E|E]; [|by apply D2]. unfold edge. rewrite E. apply H. split; [lia|right; split; [lia|done]].
Qed.

Lemma down_child p i m : down_inv p i -> (i < n)%nat -> is_best p i m -> (1 <= m)%nat -> par m = i -> le (lev i) (p m) (p i) -> heap_ok (swapped p m i).
Proof.
  intros (D1 & D2 & D3) Hin [[Hmn _] Hbest] Hm1 Hpm Hle. set (d := lev i) in *. pose proof (par_lt m Hm1) as Him. assert (Hlm : lev m = negb d) by (unfold d; rewrite <- Hpm, lev_par, negb_involutive by done; done).
  assert (Sm : swapped p m i m = p i) by apply swapped_l. assert (Si : swapped p m i i = p m) by apply swapped_r.
  assert (Hgm : (1 <= i)%nat -> (3 <= m)%nat /\ gpar m = par i). { intros Hi1. assert ((3 <= m)%nat) by (apply mm_par_child in Hpm; lia). split; [done|]. rewrite gpar_par by done. by rewrite Hpm. }
  split; intros j Hj.
  - pose proof (par_lt j ltac:(lia)) as Hpj. unfold edge. destruct (decide (par j = i)) as [E|E]; [|destruct (decide (par j = m)) as [E'|E']].
    + rewrite E, Si. fold d. destruct (decide (j = m)) as [-> |Hjm]; [by rewrite Sm|]. rewrite swapped_ne by lia. apply Hbest. split; [lia|left; split; [lia|done]].
    + rewrite E', Sm, swapped_ne by lia. rewrite Hlm, le_negb. pose proof (D1 j ltac:(lia) E) as A. unfold edge in A. rewrite E', Hlm, le_negb in A. by apply (le_trans _ _ (p m)).
    + rewrite (swapped_ne p m i (par j)) by done. assert (j <> m) by congruence. destruct (decide (j = i)) as [-> |Hji]; [|rewrite swapped_ne by done; by apply D1]. rewrite Si. destruct (Hgm ltac:(lia)) as [Hm3 Eg]. pose proof (D2 m ltac:(lia) ltac:(lia)) as A. unfold edge in A. by rewrite Eg in A.
  - pose proof (gpar_par j ltac:(lia)) as Egp. pose proof (par_pos j ltac:(lia)). pose proof (par_lt j ltac:(lia)). pose proof (par_lt (par j) ltac:(lia)). unfold edge. destruct (decide (gpar j = i)) as [E|E]; [|destruct (decide (gpar j = m)) as [E'|E']].
    + assert (j <> m) by (intros ->; rewrite Hpm in *; lia). rewrite E, Si, swapped_ne by lia. apply Hbest. split; [lia|right; split; [lia|done]].
    + rewrite E', Sm, swapped_ne by lia. rewrite Hlm, le_negb. pose proof (D2 j ltac:(lia) E) as A. unfold edge in A. rewrite E', Hlm, le_negb in A. by apply (le_trans _ _ (p m)).
    + rewrite (swapped_ne p m i (gpar j)) by done. destruct (decide (j = m)) as [-> |Hjm]; [|destruct (decide (j = i)) as [-> |Hji]].
      * rewrite Sm. rewrite Egp, Hpm in *. apply D1; [lia|lia].
      * rewrite Si, lev_gpar by lia. apply D3; [lia|]. split; [lia|left; split; [lia|done]].
      * rewrite swapped_ne by done. by apply D2.
Qed.

(** The best is a grandchild [m] of [i]: its priority goes to [i], and those of
    [i] and of the parent of [m] are put in order at [m] and its parent. *)
Lemma down_grand p p2 i m : down_inv p i -> (i < n)%nat -> is_best p i m -> (3 <= m)%nat -> gpar m = i -> le (lev i) (p m) (p i) ->
  p2 i = p m -> (forall k, k <> i -> k <> m -> k <> par m -> p2 k = p k) ->
  (p2 m = p i /\ p2 (par m) = p (par m) /\ le (lev i) (p i) (p (par m)) \/ p2 m = p (par m) /\ p2 (par m) = p i /\ le (lev i) (p (par m)) (p i)) -> down_inv p2 m.
Proof.
  intros (D1 & D2 & D3) Hin [[Hmn _] Hbest] Hm3 Hgm Hle Ei Eo Ecase. set (d := lev i) in *. set (q := par m) in *. pose proof (gpar_par m Hm3) as Egm. pose proof (par_pos m Hm3) as Hq1. pose proof (par_lt m ltac:(lia)) as Hqm. pose proof (par_lt q Hq1) as Hiq. fold q in Egm, Hq1, Hqm. rewrite Hgm in Egm.
  assert (Hlm : lev m = d) by (unfold d; rewrite <- Hgm; symmetry; by apply lev_gpar). assert (Hlq : lev q = negb d) by (unfold d; rewrite Egm, lev_par, negb_involutive by done; done).
  assert (Bq : le d (p m) (p q)) by (apply Hbest; split; [lia|left; split; [lia|done]]).
  assert (F : le d (p2 m) (p2 q) /\ le d (p q) (p2 q) /\ le d (p m) (p2 m) /\ le d (p m) (p2 q)) by (destruct Ecase as [(-> & -> & A)|(-> & -> & A)]; split_and!; try done; apply le_refl). destruct F as (F1 & F2 & F3 & F4).
  assert (Hup : (1 <= i)%nat -> (3 <= q)%nat /\ gpar q = par i /\ lev (par i) = negb d). { intros Hi1. assert ((3 <= q)%nat) by (symmetry in Egm; apply mm_par_child in Egm; lia). split_and!; [done|rewrite gpar_par by done; by rewrite <- Egm|by apply lev_par]. }
  assert (Q1 : forall j, (1 <= j < n)%nat -> par j = q -> le d (p j) (p q)). { intros j Hj E. pose proof (D1 j Hj ltac:(lia)) as A. unfold edge in A. by rewrite E, Hlq, le_negb in A. }
  assert (Q2 : (1 <= i)%nat -> le d (p q) (p (par i))). { intros Hi1. destruct (Hup Hi1) as (Hq3 & Eq & Hlp). pose proof (par_lt i Hi1). pose proof (D2 q ltac:(lia) ltac:(lia)) as A. unfold edge in A. by rewrite Eq, Hlp, le_negb in A. }
  assert (Q3 : (1 <= i)%nat -> le d (p2 q) (p (par i))). { intros Hi1. destruct Ecase as [(_ & -> & _)|(_ & -> & _)]; [by apply Q2|]. destruct (Hup Hi1) as (_ & _ & Hlp). pose proof (par_lt i Hi1). pose proof (D1 i ltac:(lia) ltac:(lia)) as A. unfold edge in A. by rewrite Hlp, le_negb in A. }
  split; [|split].
  - intros j Hj Hjm. pose proof (par_lt j ltac:(lia)). unfold edge. destruct (decide (par j = i)) as [E|E]; [|destruct (decide (par j = q)) as [E'|E']].
    + rewrite E, Ei. fold d. destruct (decide (j = q)) as [-> |Hjq]; [done|]. assert (j <> m) by (intros ->; fold q in E; lia). rewrite Eo by lia. apply Hbest. split; [lia|left; split; [lia|done]].
    + rewrite E', Hlq, le_negb. destruct (decide (j = m)) as [-> |Hjm']; [done|]. rewrite Eo by lia. apply (le_trans _ _ (p q)); [by apply Q1|done].
    + rewrite (Eo (par j)) by done. assert (j <> m) by (intros ->; done). assert (j <> q) by (intros ->; congruence). destruct (decide (j = i)) as [-> |Hji]; [|rewrite Eo by done; by apply D1]. rewrite Ei. destruct (Hup ltac:(lia)) as (_ & _ & ->). apply le_negb. apply (le_trans _ _ (p q)); [|apply Q2; lia]. apply Q1; [lia|done].
  - intros j Hj Hjm. pose proof (gpar_par j ltac:(lia)) as Egp. pose proof (par_pos j ltac:(lia)). pose proof (par_lt j ltac:(lia)). pose proof (par_lt (par j) ltac:(lia)). unfold edge. destruct (decide (gpar j = i)) as [E|E]; [|destruct (decide (gpar j = q)) as [E'|E']].
    + rewrite E, Ei. fold d. destruct (decide (j = m)) as [-> |Hjm']; [done|]. assert (j <> q) by (intros ->; lia). rewrite Eo by lia. apply Hbest. split; [lia|right; split; [lia|done]].
    + rewrite E', Hlq, le_negb. assert (j <> m) by (intros ->; congruence). rewrite Eo by lia. pose proof (D2 j ltac:(lia) E) as A. unfold edge in A. rewrite E', Hlq, le_negb in A. by apply (le_trans _ _ (p q)).
    + rewrite (Eo (gpar j)) by done. assert (j <> m) by (intros ->; congruence). destruct (decide (j = i)) as [-> |Hji]; [|destruct (decide (j = q)) as [-> |Hjq]].
      * rewrite Ei, lev_gpar by lia. apply D3; [lia|]. split; [lia|right; split; [lia|done]].
      * assert (Hi1 : (1 <= i)%nat) by lia. destruct (Hup Hi1) as (_ & Eq & Hlp). rewrite Eq, Hlp, le_negb. by apply Q3.
      * rewrite Eo by done. by apply D2.
  - intros _ j [Hjn Hj]. rewrite Hgm, Ei, Hlm. destruct Hj as [[Hj1 E]|[Hj3 E]].
    + pose proof (par_lt j Hj1). rewrite Eo by lia. pose proof (D1 j ltac:(lia) ltac:(lia)) as A. unfold edge in A. by rewrite E, Hlm in A.
    + pose proof (gpar_par j Hj3). pose proof (par_pos j Hj3). pose proof (par_lt j ltac:(lia)). pose proof (par_lt (par j) ltac:(lia)). rewrite Eo by lia. pose proof (D2 j ltac:(lia) ltac:(lia)) as A. unfold edge in A. by rewrite E, Hlm in A.
Qed.

(** The least is on top and the greatest is below it. *)
Lemma mm_heap_min p j : heap_ok p -> (j < n)%nat -> p 0%nat <= p j.
Proof.
  intros [H1 H2]. induction j as [j IH] using lt_wf_ind. intros Hj. destruct (decide (j = 0%nat)) as [-> |Hj0]; [lia|]. pose proof (par_lt j ltac:(lia)) as Hp. destruct (lev j) eqn:El.
  - pose proof (H1 j ltac:(lia)) as A. unfold edge in A. rewrite lev_par, El in A by lia. unfold le in A; cbn [negb] in A. pose proof (IH (par j) Hp ltac:(lia)). lia.
  - destruct (decide (3 <= j)%nat) as [H3|H3].
    + pose proof (H2 j ltac:(lia)) as A. unfold edge in A. rewrite lev_gpar, El in A by lia. unfold le in A; cbn [negb] in A. pose proof (gpar_par j H3). pose proof (par_pos j H3). pose proof (par_lt (par j) ltac:(lia)). pose proof (IH (gpar j) ltac:(lia) ltac:(lia)). lia.
    + assert (E : j = 1%nat \/ j = 2%nat) by lia. destruct E as [-> | ->]; discriminate El.
Qed.

Lemma heap_max p j : heap_ok p -> (j < n)%nat -> (2 <= n)%nat -> p j <= Z.max (p 1%nat) (if decide (2 < n)%nat then p 2%nat else p 1%nat).
Proof.
  intros [H1 H2] Hj Hn. revert Hj. induction j as [j IH] using lt_wf_ind. intros Hj. destruct (decide (j = 0%nat)) as [-> |Hj0]; [pose proof (mm_heap_min p 1 (conj H1 H2) ltac:(lia)); lia|]. pose proof (par_lt j ltac:(lia)) as Hp. destruct (decide (3 <= j)%nat) as [H3|H3].
  - pose proof (gpar_par j H3). pose proof (par_pos j H3). pose proof (par_lt (par j) ltac:(lia)). destruct (lev j) eqn:El.
    + pose proof (H2 j ltac:(lia)) as A. unfold edge in A. rewrite lev_gpar, El in A by lia. unfold le in A; cbn [negb] in A. pose proof (IH (gpar j) ltac:(lia) ltac:(lia)). lia.
    + pose proof (H1 j ltac:(lia)) as A. unfold edge in A. rewrite lev_par, El in A by lia. unfold le in A; cbn [negb] in A. pose proof (IH (par j) Hp ltac:(lia)). lia.
  - assert (E : j = 1%nat \/ j = 2%nat) by lia. destruct E as [-> | ->]; [lia|]. rewrite decide_True by lia. lia.
Qed.
End Order.

#[export] Instance heap_ok_proper n : Proper (pointwise_relation nat eq ==> iff) (heap_ok n).
Proof. intros p q E. unfold heap_ok, edge. by setoid_rewrite E. Qed.
#[export] Instance up_inv_proper n : Proper (pointwise_relation nat eq ==> eq ==> iff) (up_inv n).
Proof. intros p q E i ? <-. unfold up_inv, edge. by setoid_rewrite E. Qed.
#[export] Instance down_inv_proper n : Proper (pointwise_relation nat eq ==> eq ==> iff) (down_inv n).
Proof. intros p q E i ? <-. unfold down_inv, edge. by setoid_rewrite E. Qed.

(** Only the priorities of the nodes matter. *)
Lemma heap_ok_agree n p q : heap_ok n p -> (forall k, (k < n)%nat -> p k = q k) -> heap_ok n q.
Proof.
  intros [H1 H2] E. split; intros j Hj; unfold edge.
  - pose proof (par_lt j ltac:(lia)). rewrite <- !E by lia. by apply H1.
  - pose proof (gpar_par j ltac:(lia)). pose proof (par_pos j ltac:(lia)). pose proof (par_lt j ltac:(lia)). pose proof (par_lt (par j) ltac:(lia)). rewrite <- !E by lia. by apply H2.
Qed.

Lemma heap_ok_shorter n n' p : heap_ok n p -> (n' <= n)%nat -> heap_ok n' p.
Proof. intros [H1 H2] Hn. split; intros j Hj; [apply H1|apply H2]; lia. Qed.

(** A node is added at the end: it may be below its parent or belong above it. *)
Lemma push_below n p : heap_ok n p -> (1 <= n)%nat -> le (lev (par n)) (p (par n)) (p n) -> up_inv (S n) p n.
Proof.
  intros [H1 H2] Hn Hle. split; [|split].
  - intros j Hj. destruct (decide (j = n)) as [-> |]; [done|]. apply H1. lia.
  - intros j Hj Hne. apply H2. lia.
  - intros _ j [Hj [[Hj1 E]|[Hj3 E]]]; [pose proof (par_lt j Hj1); lia|]. rewrite gpar_par in E by done. pose proof (par_pos j Hj3). pose proof (par_lt j ltac:(lia)). pose proof (par_lt (par j) ltac:(lia)). lia.
Qed.

Lemma push_above n p : heap_ok n p -> (1 <= n)%nat -> le (lev (par n)) (p n) (p (par n)) -> up_inv (S n) (swapped p n (par n)) (par n).
Proof.
  intros [H1 H2] Hn Hle. set (q := par n) in *. set (d := lev q) in *. pose proof (par_lt n Hn) as Hq. fold q in Hq.
  assert (Sn : swapped p n q n = p q) by apply swapped_l. assert (Sq : swapped p n q q = p n) by apply swapped_r.
  assert (Hsib : forall j, (1 <= j < n)%nat -> par j = q -> le d (p q) (p j)). { intros j Hj E. pose proof (H1 j Hj) as A. unfold edge in A. by rewrite E in A. }
  assert (Hgrand : forall j, (3 <= j < S n)%nat -> gpar j <> q). { intros j Hj E. rewrite gpar_par in E by lia. pose proof (par_pos j ltac:(lia)). apply mm_par_child in E; [|lia]. assert (E' : par j = par j) by done. apply mm_par_child in E'; [|lia]. assert (En : par n = q) by done. apply mm_par_child in En; lia. }
  split; [|split].
  - intros j Hj. pose proof (par_lt j ltac:(lia)). unfold edge. destruct (decide (par j = q)) as [E|E].
    + rewrite E, Sq. fold d. destruct (decide (j = n)) as [-> |Hne]; [by rewrite Sn|]. rewrite swapped_ne by lia. apply (le_trans _ _ (p q)); [done|]. apply Hsib; [lia|done].
    + assert (j <> n) by (intros ->; done). rewrite (swapped_ne p n q (par j)) by lia. pose proof (H1 j ltac:(lia)) as A. unfold edge in A. destruct (decide (j = q)) as [-> |Hjq]; [|by rewrite swapped_ne]. rewrite Sq. rewrite lev_par in A |- * by lia. fold d in A |- *. rewrite le_negb in A |- *. by apply (le_trans _ _ (p q)).
  - intros j Hj Hjq. pose proof (gpar_par j ltac:(lia)) as Eg. pose proof (par_pos j ltac:(lia)). pose proof (par_lt j ltac:(lia)). pose proof (par_lt (par j) ltac:(lia)). pose proof (Hgrand j Hj). unfold edge. rewrite (swapped_ne p n q (gpar j)) by lia. destruct (decide (j = n)) as [-> |Hne]; [|rewrite swapped_ne by done; apply H2; lia]. rewrite Sn, Eg. fold q. pose proof (par_pos n ltac:(lia)) as Hq1. fold q in Hq1. apply H1. lia.
  - intros Hq3 j [Hj [[Hj1 E]|[Hj3 E]]]; [|by apply Hgrand in E; [|lia]]. pose proof (H2 q ltac:(lia)) as A. unfold edge in A. rewrite lev_gpar in A by done. pose proof (gpar_par q Hq3). pose proof (par_pos q Hq3). pose proof (par_lt q ltac:(lia)). pose proof (par_lt (par q) ltac:(lia)). pose proof (par_lt j Hj1). fold d in A |- *. rewrite (swapped_ne p n q (gpar q)) by lia. destruct (decide (j = n)) as [-> |Hne]; [by rewrite Sn|]. rewrite swapped_ne by lia. apply (le_trans _ _ (p q)); [done|]. apply Hsib; [lia|done].
Qed.

(** A priority that no other is less than is put on one of the first three
    nodes. *)
Lemma replace_top n p q i : heap_ok n p -> (i < 3)%nat -> (forall k, k <> i -> q k = p k) -> (1 <= i -> le false (p 0%nat) (q i))%nat -> down_inv n q i.
Proof.
  intros [H1 H2] Hi E H0. split; [|split].
  - intros j Hj Hne. unfold edge. rewrite (E (par j)) by done. destruct (decide (j = i)) as [-> |Hji]; [|rewrite E by done; by apply H1]. assert (Ep : par i = 0%nat) by (apply mm_par_child; lia). rewrite Ep. apply H0. lia.
  - intros j Hj Hne. unfold edge. rewrite !E by (done || lia). by apply H2.
  - intros. lia.
Qed.
