(* ===== verification/MMHeapProps.v ===== *)
(** * Min-max heaps give the least and the greatest

    The order of a min-max heap is kept by bubbling up and trickling down; pushing
    adds one node, and popping takes a node with the least or the greatest
    priority and leaves the others. *)
From Stdlib Require Import ZArith Lia List Arith.
From stdpp Require Import base numbers list option sorting.
From S2P Require Import Prelude DsBase Doubles MMHeap MMHeapOrder.

(** ** The array *)

Section Lists.
Context {V : Type}.
Implicit Types v : list (mmnode V).

Definition pr v (k : nat) : Z := default 0 (double_ord ∘ pri <$> v !! k).
(** No priority is NaN. *)
Definition numbers v : Prop := Forall (fun a => isnan (pri a) = false) v.

Lemma pr_at v k a : v !! k = Some a -> pr v k = double_ord (pri a).
Proof. intros E. unfold pr. by rewrite E. Qed.

Lemma better_spec d v i j a b : numbers v -> v !! i = Some a -> v !! j = Some b -> better d (pri a) (pri b) = true <-> ~ le d (pr v j) (pr v i).
Proof.
  intros Hv Ha Hb. rewrite (pr_at v i a Ha), (pr_at v j b Hb). pose proof (Forall_lookup_1 _ _ _ _ Hv Ha). pose proof (Forall_lookup_1 _ _ _ _ Hv Hb). destruct d; cbn [better]; unfold double_gt; rewrite double_lt_ord by done; unfold le; rewrite Z.ltb_lt; lia.
Qed.

Lemma better_cases d v i j a b : numbers v -> v !! i = Some a -> v !! j = Some b ->
  better d (pri a) (pri b) = true /\ le d (pr v i) (pr v j) \/ better d (pri a) (pri b) = false /\ le d (pr v j) (pr v i).
Proof.
  intros Hv Ha Hb. pose proof (better_spec d v i j a b Hv Ha Hb) as S. destruct (better d (pri a) (pri b)); [left|right]; split; try done.
  - apply le_total, S. done.
  - destruct d; cbn [le] in *; destruct (Z.le_gt_cases (pr v i) (pr v j)); destruct (Z.le_gt_cases (pr v j) (pr v i)); try done; exfalso; assert (false = true) by (apply S; lia); done.
Qed.

Lemma swap_spec v i j : (i < length v)%nat -> (j < length v)%nat ->
  exists v', mm_swap v i j = Some v' /\ v' ≡ₚ v /\ pointwise_relation nat eq (pr v') (swapped (pr v) i j).
Proof.
  intros Hi Hj. destruct (lookup_lt_is_Some_2 v i Hi) as [a Ha]. destruct (lookup_lt_is_Some_2 v j Hj) as [b Hb]. unfold mm_swap. rewrite Ha, Hb. eexists. split; [done|]. split.
  - by apply Permutation_insert_swap.
  - intros k. unfold swapped, pr. destruct (decide (k = j)) as [-> |Hkj].
    + rewrite list_lookup_insert_eq by (by rewrite length_insert). destruct (decide (j = i)) as [-> |]; by rewrite Ha.
    + rewrite list_lookup_insert_ne by done. destruct (decide (k = i)) as [-> |Hki]; [by rewrite list_lookup_insert_eq, Hb|by rewrite list_lookup_insert_ne].
Qed.

Lemma numbers_perm v v' : v' ≡ₚ v -> numbers v -> numbers v'.
Proof. intros E. unfold numbers. by rewrite E. Qed.

(** ** Bubbling up *)

Lemma bubble_up_dir_spec fuel v i : numbers v -> (i < length v)%nat -> (i <= fuel)%nat -> up_inv (length v) (pr v) i ->
  exists v', mm_bubble_up_dir fuel v i (lev i) = Some v' /\ v' ≡ₚ v /\ heap_ok (length v) (pr v').
Proof.
  revert v i. induction fuel as [|fuel IH]; intros v i Hv Hi Hf HU; cbn [mm_bubble_up_dir]; destruct (Nat.ltb_spec i 3) as [H3|H3]; try (exists v; split_and!; [done|done|apply (mm_up_done _ _ i); [done|lia]]); [lia|].
  change ((i - 3) / 4)%nat with (gpar i). pose proof (gpar_par i H3). pose proof (par_pos i H3). pose proof (par_lt i ltac:(lia)). pose proof (par_lt (par i) ltac:(lia)). set (g := gpar i) in *.
  destruct (lookup_lt_is_Some_2 v i Hi) as [a Ha]. destruct (lookup_lt_is_Some_2 v g ltac:(lia)) as [b Hb]. rewrite Ha, Hb. cbn [mbind option_bind]. destruct (better_cases (lev i) v i g a b Hv Ha Hb) as [[-> Hle]|[-> Hle]]; cbn [negb].
  - destruct (swap_spec v i g Hi ltac:(lia)) as (v1 & -> & HP & Hpr). cbn [mbind option_bind]. pose proof (Permutation_length HP) as Hl. rewrite <- (lev_gpar i H3). fold g. destruct (IH v1 g) as (v2 & E2 & HP2 & Hok); [by apply (numbers_perm v)|lia|lia| |].
    { rewrite Hl, Hpr. apply up_step; [done|lia|done]. }
    exists v2. rewrite <- Hl. split_and!; [done|by transitivity v1|done].
  - exists v. split_and!; [done|done|]. apply (mm_up_done _ _ i); [done|]. done.
Qed.

Lemma bubble_up_spec v0 x : numbers (v0 ++ [x]) -> heap_ok (length v0) (pr v0) ->
  exists v', mm_bubble_up (v0 ++ [x]) (length v0) = Some v' /\ v' ≡ₚ v0 ++ [x] /\ heap_ok (length v') (pr v').
Proof.
  intros Hv Hok. set (v := v0 ++ [x]) in *. set (i := length v0) in *. assert (Hlen : length v = S i) by (unfold v; rewrite length_app; cbn; lia). assert (Hok' : heap_ok i (pr v)). { apply (heap_ok_agree _ (pr v0)); [done|]. intros k Hk. unfold pr, v. by rewrite lookup_app_l. }
  unfold mm_bubble_up. destruct (Nat.eqb_spec i 0) as [H0|H0].
  { exists v. split_and!; [done|done|]. rewrite Hlen, H0. split; intros j Hj; lia. }
  change ((i - 1) / 2)%nat with (par i). pose proof (par_lt i ltac:(lia)) as Hp. fold (lev i). rewrite <- (lev_par i) by lia. destruct (lookup_lt_is_Some_2 v i ltac:(lia)) as [a Ha]. destruct (lookup_lt_is_Some_2 v (par i) ltac:(lia)) as [b Hb]. rewrite Ha, Hb. cbn [mbind option_bind].
  destruct (better_cases (lev (par i)) v i (par i) a b Hv Ha Hb) as [[-> Hle]|[-> Hle]].
  - destruct (swap_spec v i (par i) ltac:(lia) ltac:(lia)) as (v1 & -> & HP & Hpr). cbn [mbind option_bind]. pose proof (Permutation_length HP) as Hl. destruct (bubble_up_dir_spec i v1 (par i)) as (v2 & E2 & HP2 & Hok2); [by apply (numbers_perm v)|lia|lia| |].
    { rewrite Hl, Hlen, Hpr. apply push_above; [done|lia|done]. }
    exists v2. rewrite (Permutation_length HP2). split_and!; [done|by transitivity v1|done].
  - destruct (bubble_up_dir_spec i v i Hv ltac:(lia) ltac:(lia)) as (v2 & E2 & HP2 & Hok2). { rewrite Hlen. apply push_below; [done|lia|done]. }
    exists v2. rewrite (Permutation_length HP2). done.
Qed.

(** ** Trickling down *)

Lemma best_of_spec v d g k x : numbers v -> (x.1 < length v)%nat ->
  exists y, best_of v d (seq g k) x = Some y /\ (y.1 < length v)%nat /\ le d (pr v y.1) (pr v x.1) /\
    (forall j, (g <= j < g + k)%nat -> (j < length v)%nat -> le d (pr v y.1) (pr v j)) /\ (y = x \/ y.2 = true /\ (g <= y.1 < g + k)%nat).
Proof.
  intros Hv. revert g x. induction k as [|k IH]; intros g x Hx; cbn [seq best_of]; [exists x; split_and!; [done|done|apply le_refl|lia|by left]|].
  destruct (Nat.leb_spec (length v) g) as [Hg|Hg]; [exists x; split_and!; [done|done|apply le_refl|lia|by left]|].
  destruct (lookup_lt_is_Some_2 v g Hg) as [a Ha]. destruct (lookup_lt_is_Some_2 v x.1 Hx) as [b Hb]. rewrite Ha, Hb. cbn [mbind option_bind].
  set (x' := if better d (pri a) (pri b) then (g, true) else x).
  assert (Hx' : (x'.1 < length v)%nat /\ le d (pr v x'.1) (pr v x.1) /\ le d (pr v x'.1) (pr v g) /\ (x' = x \/ x' = (g, true))).
  { unfold x'. destruct (better_cases d v g x.1 a b Hv Ha Hb) as [[-> Hle]|[-> Hle]]; split_and!; try done; try apply le_refl; [by right|by left]. }
  destruct Hx' as (Hl & Hle & Hleg & Hc). destruct (IH (S g) x' Hl) as (y & E & Hy & Hyx & Hall & Hor). exists y. split_and!; [done|done|by apply (le_trans _ _ (pr v x'.1))| |].
  - intros j Hj Hjn. destruct (decide (j = g)) as [-> |]; [by apply (le_trans _ _ (pr v x'.1))|]. apply Hall; lia.
  - destruct Hor as [-> |[H2 H1]]; [|right; split; [done|lia]]. destruct Hc as [-> | ->]; [by left|right; split; [done|cbn; lia]].
Qed.

(** One child [c] with its children: what [best_child] does before the next. *)
Definition child_turn v (d : bool) (c : nat) (best : option (nat * bool)) : option (nat * bool) :=
  a ← v !! c;
  best ← match best with
         | None => Some (c, false)
         | Some x => b ← v !! x.1; Some (if better d (pri a) (pri b) then (c, false) else x)
         end;
  best_of v d [(2 * c + 1)%nat; (2 * c + 2)%nat] best.

(** [y] is not below [best], [c] or a child of [c], and is one of them. *)
Lemma child_turn_spec v d c best : numbers v -> (c < length v)%nat -> (forall x, best = Some x -> (x.1 < length v)%nat) ->
  exists y, child_turn v d c best = Some y /\ (y.1 < length v)%nat /\ (forall x, best = Some x -> le d (pr v y.1) (pr v x.1)) /\ le d (pr v y.1) (pr v c) /\
    (forall j, (1 <= j < length v)%nat -> par j = c -> le d (pr v y.1) (pr v j)) /\
    (best = Some y \/ y = (c, false) \/ y.2 = true /\ (1 <= y.1)%nat /\ par y.1 = c).
Proof.
  intros Hv Hc Hbest. unfold child_turn. destruct (lookup_lt_is_Some_2 v c Hc) as [a Ha]. rewrite Ha. cbn [mbind option_bind].
  assert (exists x, match best with None => Some (c, false) | Some x => b ← v !! x.1; Some (if better d (pri a) (pri b) then (c, false) else x) end = Some x /\ (x.1 < length v)%nat /\
    (forall x0, best = Some x0 -> le d (pr v x.1) (pr v x0.1)) /\ le d (pr v x.1) (pr v c) /\ (best = Some x \/ x = (c, false))) as (x & E & Hx & Hx0 & Hxc & Hor).
  { destruct best as [x0|]; [|exists (c, false); split_and!; [done|done|done|apply le_refl|by right]]. specialize (Hbest x0 eq_refl). destruct (lookup_lt_is_Some_2 v x0.1 Hbest) as [b Hb]. rewrite Hb. cbn [mbind option_bind]. eexists. split; [done|]. destruct (better_cases d v c x0.1 a b Hv Ha Hb) as [[-> Hle]|[-> Hle]]; split_and!; try done; try (intros ? [= <-]); try done; try apply le_refl; [by right|by left]. }
  cbn [mbind option_bind] in E. rewrite E. cbn [mbind option_bind]. replace [(2 * c + 1)%nat; (2 * c + 2)%nat] with (seq (2 * c + 1) 2) by (cbn [seq]; do 2 f_equal; lia).
  destruct (best_of_spec v d (2 * c + 1) 2 x Hv Hx) as (y & Ey & Hy & Hyx & Hall & Hory). exists y. split_and!; [done|done| | | |].
  - intros x0 E0. apply (le_trans _ _ (pr v x.1)); [done|by apply Hx0].
  - by apply (le_trans _ _ (pr v x.1)).
  - intros j Hj Ej. apply mm_par_child in Ej; [|lia]. apply Hall; lia.
  - destruct Hory as [-> |[H2 H1]]; [destruct Hor; tauto|]. right; right. split; [done|]. split; [lia|]. apply mm_par_child; lia.
Qed.

Lemma best_descendant_spec v i : numbers v ->
  (mm_best_descendant v i (lev i) = Some None /\ forall j, ~ below (length v) i j) \/
  exists m g, mm_best_descendant v i (lev i) = Some (Some (m, g)) /\ is_best (length v) (pr v) i m /\ (if g : bool then (3 <= m)%nat /\ gpar m = i else (1 <= m)%nat /\ par m = i).
Proof.
  intros Hv. set (n := length v). set (c := (2 * i + 1)%nat). set (c2 := (2 * i + 2)%nat). set (d := lev i).
  assert (Hc : forall j, (1 <= j)%nat -> par j = i <-> j = c \/ j = c2) by (intros j Hj; by apply mm_par_child).
  assert (Hg : forall j, (3 <= j)%nat -> gpar j = i <-> par j = c \/ par j = c2) by (intros j Hj; rewrite gpar_par by done; apply Hc; by apply par_pos).
  assert (Hbel : forall j, below n i j -> (1 <= j < n)%nat /\ (j = c \/ j = c2 \/ par j = c \/ par j = c2)). { intros j [Hj [[H1 E]|[H3 E]]]; [apply Hc in E|apply Hg in E]; try done; split; [lia|tauto|lia|tauto]. }
  assert (Hdo : forall j, (1 <= j)%nat -> par j = c \/ par j = c2 -> (3 <= j)%nat /\ gpar j = i). { intros j Hj E. assert ((3 <= j)%nat) by (destruct E as [E|E]; apply mm_par_child in E; unfold c, c2 in E; lia). split; [done|]. by apply Hg. }
  change (mm_best_descendant v i d) with (best_child v d [c; c2] None). cbn [best_child]. fold n. destruct (Nat.leb_spec n c) as [Hn|Hn].
  { left. split; [done|]. intros j Hj. destruct (Hbel j Hj) as [Hj1 E]. pose proof (par_lt j ltac:(lia)). unfold c, c2 in *. lia. }
  right. destruct (child_turn_spec v d c None Hv Hn ltac:(done)) as (y & Ey & Hy & _ & Hyc & Hyg & Hor). unfold child_turn in Ey.
  destruct (lookup_lt_is_Some_2 v c Hn) as [a Ha]. rewrite Ha in Ey |- *. cbn [mbind option_bind] in Ey |- *. rewrite Ey. cbn [mbind option_bind].
  assert (Hkind : if y.2 then (3 <= y.1)%nat /\ gpar y.1 = i else (1 <= y.1)%nat /\ par y.1 = i). { destruct Hor as [H|[-> |(-> & H1 & E)]]; [done|cbn; split; [unfold c; lia|apply Hc; [unfold c; lia|by left]]|apply Hdo; [done|by left]]. }
  assert (Hb : below n i y.1). { split; [done|]. destruct y.2; [by right|by left]. }
  destruct (Nat.leb_spec n c2) as [Hn2|Hn2].
  { exists y.1, y.2. split; [by destruct y|]. split; [|done]. split; [done|]. intros j Hj. destruct (Hbel j Hj) as (Hj1 & [-> |[-> |[E|E]]]); [done|lia|by apply Hyg|]. pose proof (par_lt j ltac:(lia)). lia. }
  destruct (child_turn_spec v d c2 (Some y) Hv Hn2) as (z & Ez & Hz & Hzy & Hzc & Hzg & Horz); [by intros ? [= <-]|]. unfold child_turn in Ez. specialize (Hzy y eq_refl).
  destruct (lookup_lt_is_Some_2 v c2 Hn2) as [a2 Ha2]. destruct (lookup_lt_is_Some_2 v y.1 Hy) as [b Hb2]. rewrite Ha2, Hb2 in Ez |- *. cbn [mbind option_bind] in Ez |- *. rewrite Ez. cbn [mbind option_bind].
  exists z.1, z.2. split; [by destruct z|].
  assert (Hkz : if z.2 then (3 <= z.1)%nat /\ gpar z.1 = i else (1 <= z.1)%nat /\ par z.1 = i). { destruct Horz as [[= <-]|[-> |(-> & H1 & E)]]; [done|cbn; split; [unfold c2; lia|apply Hc; [unfold c2; lia|by right]]|apply Hdo; [done|by right]]. }
  split; [|done]. split. { split; [done|]. destruct z.2; [by right|by left]. }
  intros j Hj. destruct (Hbel j Hj) as (Hj1 & [-> |[-> |[E|E]]]); [by apply (le_trans _ _ (pr v y.1))|done| |by apply Hzg]. apply (le_trans _ _ (pr v y.1)); [done|by apply Hyg].
Qed.

Lemma trickle_down_spec fuel v i : numbers v -> (i < length v)%nat -> (length v - i <= fuel)%nat -> down_inv (length v) (pr v) i ->
  exists v', mm_trickle_down_dir fuel v i (lev i) = Some v' /\ v' ≡ₚ v /\ heap_ok (length v) (pr v').
Proof.
  revert v i. induction fuel as [|fuel IH]; intros v i Hv Hi Hf HD; [lia|]. cbn [mm_trickle_down_dir]. destruct (best_descendant_spec v i Hv) as [[-> Hnone]|(m & g & -> & Hbest & Hg)]; cbn [mbind option_bind].
  { exists v. split_and!; [done|done|]. apply (mm_down_done _ _ i); [done|]. intros j Hj. by apply Hnone in Hj. }
  pose proof (proj1 (proj1 Hbest)) as Hm. destruct (lookup_lt_is_Some_2 v m Hm) as [a Ha]. destruct (lookup_lt_is_Some_2 v i Hi) as [b Hb]. rewrite Ha, Hb. cbn [mbind option_bind].
  assert (Hstay : le (lev i) (pr v i) (pr v m) -> heap_ok (length v) (pr v)). { intros Hle. apply (mm_down_done _ _ i); [done|]. intros j Hj. apply (le_trans _ _ (pr v m)); [done|by apply Hbest]. }
  destruct (swap_spec v m i Hm Hi) as (v1 & E1 & HP1 & Hpr1). pose proof (Permutation_length HP1) as Hl1. destruct g; cbn [negb].
  - destruct Hg as [Hm3 Hgm]. destruct (better_cases (lev i) v m i a b Hv Ha Hb) as [[-> Hle]|[-> Hle]]; cbn [negb]; [|exists v; split_and!; [done|done|by apply Hstay]]. rewrite E1. cbn [mbind option_bind].
    change ((m - 1) / 2)%nat with (par m). set (q := par m). pose proof (gpar_par m Hm3) as Egm. pose proof (par_pos m Hm3) as Hq1. pose proof (par_lt m ltac:(lia)) as Hqm. fold q in Egm, Hq1, Hqm. pose proof (par_lt q Hq1) as Hiq. rewrite Hgm in Egm.
    pose proof (numbers_perm v v1 HP1 Hv) as Hv1. destruct (lookup_lt_is_Some_2 v1 m ltac:(lia)) as [a1 Ha1]. destruct (lookup_lt_is_Some_2 v1 q ltac:(lia)) as [b1 Hb1]. rewrite Ha1, Hb1. cbn [mbind option_bind].
    assert (P1 : pr v1 m = pr v i /\ pr v1 i = pr v m /\ forall k, k <> i -> k <> m -> pr v1 k = pr v k). { split_and!; [rewrite Hpr1; apply swapped_l|rewrite Hpr1; apply swapped_r|intros k H1 H2; rewrite Hpr1; by apply swapped_ne]. } destruct P1 as (P1m & P1i & P1o).
    assert (exists v2, (if better (negb (lev i)) (pri a1) (pri b1) then mm_swap v1 m q else Some v1) = Some v2 /\ v2 ≡ₚ v /\ down_inv (length v) (pr v2) m) as (v2 & -> & HP2 & HD2).
    { destruct (better_cases (negb (lev i)) v1 m q a1 b1 Hv1 Ha1 Hb1) as [[-> Hle1]|[-> Hle1]]; rewrite le_negb in Hle1; rewrite P1m, (P1o q) in Hle1 by lia.
      - destruct (swap_spec v1 m q ltac:(lia) ltac:(lia)) as (v2 & -> & HP2 & Hpr2). exists v2. split_and!; [done|by transitivity v1|]. apply (down_grand _ (pr v) _ i); try done.
        + rewrite Hpr2, swapped_ne by lia. done.
        + intros k H1 H2 H3. rewrite Hpr2, swapped_ne by done. by apply P1o.
        + right. fold q. split_and!; [rewrite Hpr2, swapped_l; apply P1o; lia|rewrite Hpr2, swapped_r; exact P1m|done].
      - exists v1. split_and!; [done|done|]. apply (down_grand _ (pr v) _ i); try done; [intros k H1 H2 _; by apply P1o|]. left. fold q. split_and!; [done|apply P1o; lia|done]. }
    cbn [mbind option_bind]. pose proof (Permutation_length HP2) as Hl2. assert (Hlm : lev m = lev i) by (rewrite <- Hgm; symmetry; by apply lev_gpar). rewrite <- Hlm. destruct (IH v2 m) as (v3 & E3 & HP3 & Hok); [by apply (numbers_perm v)|lia|lia|by rewrite Hl2|]. exists v3. rewrite <- Hl2. split_and!; [done|by transitivity v2|done].
  - destruct Hg as [Hm1 Hpm]. destruct (better_cases (lev i) v m i a b Hv Ha Hb) as [[-> Hle]|[-> Hle]]; [|exists v; split_and!; [done|done|by apply Hstay]]. exists v1. split_and!; [done|done|]. rewrite Hpr1. by apply down_child.
Qed.

(** ** The operations *)

Definition mmheap_ok (h : dyn_mmheap_t V) : Prop := numbers (mm_v h) /\ heap_ok (length (mm_v h)) (pr (mm_v h)) /\ cap_ok (mm_cap h) /\ Z.of_nat (length (mm_v h)) <= mm_cap h.

(** Where a node with the greatest priority is. *)
Lemma max_index_spec h : mmheap_ok h -> mm_v h <> [] ->
  exists i, mm_max_index (mm_v h) = Some i /\ (i < 3)%nat /\ (i < length (mm_v h))%nat /\ forall j, (j < length (mm_v h))%nat -> pr (mm_v h) j <= pr (mm_v h) i.
Proof.
  destruct h as [v cap]; cbn [mm_v]. intros (Hv & Hok & _) Hne. cbn [mm_v] in *. unfold mm_max_index. assert (length v <> 0)%nat by (by destruct v). destruct (Nat.leb_spec (length v) 1) as [H1|H1].
  { exists 0%nat. split_and!; [done|lia|lia|]. intros j Hj. by replace j with 0%nat by lia. }
  assert (Hmax : forall j, (j < length v)%nat -> pr v j <= Z.max (pr v 1) (if decide (2 < length v)%nat then pr v 2 else pr v 1)) by (intros j Hj; by apply (heap_max (length v))). destruct (Nat.eqb_spec (length v) 2) as [H2|H2].
  { exists 1%nat. split_and!; [done|lia|lia|]. intros j Hj. specialize (Hmax j Hj). rewrite decide_False in Hmax by lia. lia. }
  destruct (lookup_lt_is_Some_2 v 1 ltac:(lia)) as [a Ha]. destruct (lookup_lt_is_Some_2 v 2 ltac:(lia)) as [b Hb]. rewrite Ha, Hb. cbn [mbind option_bind]. eexists. split; [done|].
  unfold double_ge. rewrite double_le_ord by (by eapply Forall_lookup_1 in Hv). rewrite <- (pr_at v 1 a Ha), <- (pr_at v 2 b Hb). rewrite decide_True in Hmax by lia. destruct (Z.leb_spec (pr v 2) (pr v 1)); split_and!; try lia; intros j Hj; specialize (Hmax j Hj); lia.
Qed.

(** One of the first three nodes is taken out; if it is not on top, no other is
    less than the top. *)
Lemma pop_at_spec h i x : mmheap_ok h -> mm_v h !! i = Some x -> (i < 3)%nat ->
  exists h', mm_pop_at h i = Some (Some x, h') /\ mmheap_ok h' /\ mm_v h ≡ₚ x :: mm_v h'.
Proof.
  destruct h as [v cap]; cbn [mm_v]. intros (Hv & Hok & Hcap & Hlc) Hx Hi. cbn [mm_v mm_cap] in *. unfold mm_pop_at. cbn [mm_v mm_cap]. pose proof (lookup_lt_Some _ _ _ Hx) as Hl. destruct (Nat.eqb_spec (length v) 0) as [H0|H0]; [lia|]. rewrite Hx. cbn [mbind option_bind].
  set (w := take (length v - 1) v). assert (Hlw : length w = (length v - 1)%nat) by (unfold w; rewrite length_take; lia). destruct (lookup_lt_is_Some_2 v (length v - 1) ltac:(lia)) as [y Hy].
  assert (Ew : v = w ++ [y]). { rewrite <- (take_drop_middle v _ y Hy). f_equal. rewrite drop_ge by lia. done. }
  assert (Hww : forall k, (k < length w)%nat -> pr w k = pr v k) by (intros k Hk; unfold pr; rewrite Ew, lookup_app_l by done; done).
  assert (Hokw : heap_ok (length w) (pr w)). { apply (heap_ok_agree _ (pr v)); [apply (heap_ok_shorter (length v)); [done|lia]|]. intros k Hk. symmetry. by apply Hww. }
  assert (Hnw : numbers w /\ isnan (pri y) = false). { rewrite Ew in Hv. apply Forall_app in Hv as [? Hy']. split; [done|]. by apply Forall_cons in Hy' as [? _]. } destruct Hnw as [Hnw Hny].
  destruct (Nat.eqb_spec i (length v - 1)) as [Ei|Ei]; cbn [negb].
  { eexists. split; [done|]. assert (x = y) by congruence. subst x. split; [split_and!; cbn [mm_v mm_cap]; [done|done|done|lia]|]. cbn [mm_v]. rewrite Ew at 1. by rewrite Permutation_app_comm. }
  rewrite Hy. cbn [mbind option_bind]. assert (Hiw : (i < length w)%nat) by lia. assert (Hxw : w !! i = Some x). { rewrite Ew in Hx. by rewrite lookup_app_l in Hx. }
  set (w' := <[i := y]> w). assert (Hlw' : length w' = length w) by apply length_insert.
  destruct (trickle_down_spec (S (length w')) w' i) as (v' & E & HP & Hok'); [by apply Forall_insert|lia|lia| |].
  { rewrite Hlw'. apply (replace_top _ (pr w)); [done|done| |].
    - intros k Hk. unfold pr, w'. by rewrite list_lookup_insert_ne.
    - intros Hi1. assert (E : pr w' i = pr v (length v - 1)) by (unfold pr, w'; rewrite list_lookup_insert_eq by done; by rewrite Hy). rewrite E, Hww by lia. apply (mm_heap_min (length v)); [done|lia]. }
  fold (lev i) in E. unfold mm_trickle_down. fold w'. fold (lev i). rewrite E. cbn [mbind option_bind]. eexists. split; [done|]. pose proof (Permutation_length HP) as Hlv. split.
  - split_and!; cbn [mm_v mm_cap]; [apply (numbers_perm w'); [done|by apply Forall_insert]|by rewrite Hlv|done|lia].
  - cbn [mm_v]. rewrite HP, Ew. unfold w'. rewrite (Permutation_app_comm w [y]). cbn [app]. destruct (insert_perm w i x y Hxw) as (rest & Hr1 & Hr2). rewrite Hr2, Hr1. apply Permutation_swap.
Qed.

(** ** A multiset with its least and its greatest *)

(** The heap holds the nodes of [M]. *)
Definition mmheap_repr (h : dyn_mmheap_t V) (M : list (mmnode V)) : Prop := mmheap_ok h /\ mm_v h ≡ₚ M.

(** [peek] and [pop] answer a node of [M] that [leq] puts before all of [M], and
    [pop] leaves the others; without a node they say so. *)
Definition takes_first (leq : Z -> Z -> bool) (h : dyn_mmheap_t V) (M : list (mmnode V)) (peek : option (option (mmnode V))) (pop : option (option (mmnode V) * dyn_mmheap_t V)) : Prop :=
  match M with
  | [] => peek = Some None /\ pop = Some (None, h)
  | _ => exists x h' M', peek = Some (Some x) /\ pop = Some (Some x, h') /\ M ≡ₚ x :: M' /\ mmheap_repr h' M' /\ forall z, z ∈ M -> leq (pri x) (pri z) = true
  end.

Lemma empty_case h M : mmheap_repr h M -> M = [] <-> length (mm_v h) = 0%nat.
Proof. intros [_ HP]. apply Permutation_length in HP. rewrite HP. destruct M; cbn; split; (done || lia). Qed.

Lemma takes_at leq h M i peek pop x : mmheap_repr h M -> mm_v h !! i = Some x -> (i < 3)%nat -> peek = Some (Some x) -> pop = mm_pop_at h i ->
  (forall j z, mm_v h !! j = Some z -> leq (pri x) (pri z) = true) -> takes_first leq h M peek pop.
Proof.
  intros [Hok HP] Hx Hi -> -> Hleq. destruct (pop_at_spec h i x Hok Hx Hi) as (h' & E & Hok' & HP'). destruct M as [|y M]; [apply Permutation_nil_r in HP; rewrite HP in Hx; done|]. cbn [takes_first]. exists x, h', (mm_v h'). split_and!; [done|done|by rewrite <- HP|by split|]. intros z Hz. rewrite <- HP in Hz. apply list_elem_of_lookup in Hz as [j Hj]. by apply (Hleq j).
Qed.

Lemma pop_min_spec h M : mmheap_repr h M -> takes_first double_le h M (dyn_mmheap_peek_min h) (dyn_mmheap_pop_min h).
Proof.
  intros HR. pose proof (empty_case h M HR) as He. unfold dyn_mmheap_peek_min, dyn_mmheap_pop_min. destruct (Nat.eqb_spec (length (mm_v h)) 0) as [H0|H0].
  - rewrite (proj2 He H0). cbn [takes_first]. split; [done|]. unfold mm_pop_at. by rewrite (proj2 (Nat.eqb_eq _ _) H0).
  - destruct (lookup_lt_is_Some_2 (mm_v h) 0 ltac:(lia)) as [x Hx]. apply (takes_at _ h M 0 _ _ x); try done; [lia|by rewrite Hx|]. intros j z Hz. destruct HR as [(Hv & Hok & _) _]. rewrite double_le_ord by (by eapply Forall_lookup_1 in Hv). rewrite <- (pr_at _ 0 x Hx), <- (pr_at _ j z Hz). apply Z.leb_le. apply (mm_heap_min (length (mm_v h))); [done|by eapply lookup_lt_Some].
Qed.

Lemma pop_max_spec h M : mmheap_repr h M -> takes_first double_ge h M (dyn_mmheap_peek_max h) (dyn_mmheap_pop_max h).
Proof.
  intros HR. pose proof (empty_case h M HR) as He. unfold dyn_mmheap_peek_max, dyn_mmheap_pop_max. destruct (Nat.eqb_spec (length (mm_v h)) 0) as [H0|H0].
  - rewrite (proj2 He H0). cbn [takes_first]. split; [done|]. unfold mm_max_index, mm_pop_at. rewrite H0. done.
  - destruct (max_index_spec h (proj1 HR)) as (i & -> & Hi & Hil & Hmax); [by destruct (mm_v h)|]. destruct (lookup_lt_is_Some_2 (mm_v h) i Hil) as [x Hx]. apply (takes_at _ h M i _ _ x); try done; [cbn [mbind option_bind]; by rewrite Hx|]. intros j z Hz. destruct HR as [(Hv & Hok & _) _]. unfold double_ge. rewrite double_le_ord by (by eapply Forall_lookup_1 in Hv). rewrite <- (pr_at _ i x Hx), <- (pr_at _ j z Hz). apply Z.leb_le. apply Hmax. by eapply lookup_lt_Some.
Qed.

Lemma push_spec mem h M p x : mmheap_repr h M -> isnan p = false -> Z.of_nat (length M) <= 375809640 ->
  exists (ok : bool) h' mem', dyn_mmheap_push mem h p x = Some (ok, h', mem') /\ mmheap_repr h' (if ok then mk_mm p x :: M else M) /\ (ok = false -> h' = h /\ hd true mem = false).
Proof.
  intros [(Hv & Hok & Hcap & Hlc) HP] Hp Hlen. rewrite <- (Permutation_length HP) in Hlen. unfold dyn_mmheap_push. destruct (reserve_spec mem (mm_cap h) (length (mm_v h)) sizeof_mmnode) as (ok & cap & mem' & -> & Hcap' & _ & Hres); [done|done|done|unfold sizeof_mmnode; lia|]. cbn [mbind option_bind]. destruct ok.
  - destruct (bubble_up_spec (mm_v h) (mk_mm p x)) as (v' & -> & HP' & Hok'); [by apply Forall_app; split; [|apply Forall_singleton]|done|]. cbn [mbind option_bind]. eexists true, _, _. split; [done|]. split; [|done]. pose proof (Permutation_length HP') as Hl. rewrite length_app in Hl. cbn [length] in Hl. split; [split_and!; cbn [mm_v mm_cap]; [|done|done|lia]|].
    + apply (numbers_perm _ _ HP'). by apply Forall_app; split; [|apply Forall_singleton].
    + cbn [mm_v]. rewrite HP', HP. by rewrite Permutation_app_comm.
  - destruct Hres as [-> Hmem]. eexists false, _, _. split; [done|]. assert (E : mk_mmheap (mm_v h) (mm_cap h) = h) by (by destruct h). rewrite E. split; [|done]. split; [split_and!|]; done.
Qed.

(** C8. A min-max heap without NaN is a multiset of nodes with its least and its
    greatest priority at hand.  Pushing a node with a priority that is not NaN
    adds that node and no other, or fails for lack of memory and leaves the heap as
    it was; peeking at and popping the least answer the same node, whose priority
    is no more than any other, and popping leaves exactly the other nodes; the
    greatest likewise; an empty heap says so.  Every operation keeps the order of
    the heap, so that they can follow each other. *)
Theorem mmheap_refines mem h M p x : mmheap_repr h M -> isnan p = false -> Z.of_nat (length M) <= 375809640 ->
  dyn_mmheap_size h = Z.of_nat (length M) /\
  (exists (ok : bool) h' mem', dyn_mmheap_push mem h p x = Some (ok, h', mem') /\ mmheap_repr h' (if ok then mk_mm p x :: M else M) /\ (ok = false -> h' = h /\ hd true mem = false)) /\
  takes_first double_le h M (dyn_mmheap_peek_min h) (dyn_mmheap_pop_min h) /\
  takes_first double_ge h M (dyn_mmheap_peek_max h) (dyn_mmheap_pop_max h).
Proof.
  intros HR Hp Hlen. split_and!; [unfold dyn_mmheap_size; by rewrite (Permutation_length (proj2 HR))|by apply push_spec|by apply pop_min_spec|by apply pop_max_spec].
Qed.
End Lists.

(** A new heap is empty. *)
Lemma mmheap_new_repr {V} : mmheap_repr (V := V) dyn_mmheap_new [].
Proof. split; [|done]. split_and!; [constructor|split; intros j Hj; cbn in Hj; lia|by left|done]. Qed.

(** 1.0, 2.0 and -1.0 are pushed: -1.0 is the least and 2.0 the greatest. *)
Definition mm_sample : dyn_mmheap_t nat :=
  mk_mmheap [mk_mm 0xbff0000000000000 3%nat; mk_mm 0x4000000000000000 2%nat; mk_mm 0x3ff0000000000000 1%nat] 8.

Example mm_sample_built :
  (r ← dyn_mmheap_push [] dyn_mmheap_new 0x3ff0000000000000 1%nat; r ← dyn_mmheap_push [] r.1.2 0x4000000000000000 2%nat; r ← dyn_mmheap_push [] r.1.2 0xbff0000000000000 3%nat; Some r.1.2) = Some mm_sample.
Proof. vm_compute. reflexivity. Qed.

(** The seven of them come out in order, whichever end they are taken from. *)
Definition push_all (h : dyn_mmheap_t nat) (ps : list Z) : option (dyn_mmheap_t nat) :=
  fold_left (fun o p => h ← o; r ← dyn_mmheap_push [] h p 0%nat; Some r.1.2) ps (Some h).
Definition pop_all (pop : dyn_mmheap_t nat -> option (option (mmnode nat) * dyn_mmheap_t nat)) (k : nat) (h : dyn_mmheap_t nat) : option (list Z) :=
  fst <$> Nat.iter k (fun o => s ← o; r ← pop s.2; match r with (Some x, h) => Some (s.1 ++ [pri x], h) | (None, _) => None end) (Some ([], h)).

Example mm_drained :
  (h ← push_all dyn_mmheap_new [5; 2; 7; 1; 6; 3; 4]; pop_all dyn_mmheap_pop_min 7 h) = Some [1; 2; 3; 4; 5; 6; 7] /\
  (h ← push_all dyn_mmheap_new [5; 2; 7; 1; 6; 3; 4]; pop_all dyn_mmheap_pop_max 7 h) = Some [7; 6; 5; 4; 3; 2; 1].
Proof. split; vm_compute; reflexivity. Qed.

(** With NaN among the priorities the order is lost: nothing moves past it. *)
Lemma nan_misorders : (h ← push_all dyn_mmheap_new [1; 0x7ff8000000000000; 5; 2; 9]; pop_all dyn_mmheap_pop_min 3 h) = Some [1; 9; 2].
Proof. vm_compute. reflexivity. Qed.

Lemma mm_sample_repr : mmheap_repr mm_sample (mm_v mm_sample).
Proof.
  split; [|done]. split_and!; [repeat constructor| |by right; exists 0%nat; split; [lia|]|done]. split; intros j Hj; cbn [mm_sample mm_v length] in Hj; [|lia]. assert (E : j = 1%nat \/ j = 2%nat) by lia. destruct E as [-> | ->]; vm_compute; discriminate.
Qed.

(** The sample takes one more node; its least is -1.0 and its greatest 2.0. *)
Lemma mmheap_refines_witness :
  (exists (ok : bool) h' mem', dyn_mmheap_push [] mm_sample 0 4%nat = Some (ok, h', mem') /\ mmheap_repr h' (if ok then mk_mm 0 4%nat :: mm_v mm_sample else mm_v mm_sample) /\ (ok = false -> h' = mm_sample /\ hd true (@nil bool) = false)) /\
  takes_first double_le mm_sample (mm_v mm_sample) (dyn_mmheap_peek_min mm_sample) (dyn_mmheap_pop_min mm_sample) /\
  takes_first double_ge mm_sample (mm_v mm_sample) (dyn_mmheap_peek_max mm_sample) (dyn_mmheap_pop_max mm_sample).
Proof. apply (mmheap_refines [] mm_sample (mm_v mm_sample) 0 4%nat mm_sample_repr); [reflexivity|vm_compute; discriminate]. Defined.
