(* ===== verification/BTree.v ===== *)
(** * Ordered trees

    The B+ tree of src/core/dyn-ds.c (dyn_btree) behind sorted sets and maps:
    nodes of at most 32 keys with pointers to their parents, leaves in a doubly
    linked list, insertion that splits full nodes upwards with nodes allocated
    beforehand, deletion from leaves only.

    A tree has a heap of nodes by address; reading or freeing an address without a
    node is [None], and so is writing past the arrays of a node.  The arrays of a
    node are the lists of the parts in use, so that the number of keys is the
    length of their list; the shifting loops are insertion into and deletion from
    these lists.  A key is the bits of a double.  [mem] has the answers of
    ds_calloc still to come. *)
From Stdlib Require Import ZArith Lia List Arith.
From stdpp Require Import base numbers list option gmap.
From S2P Require Import Prelude Doubles.

Definition DYN_BTREE_ORDER : nat := 32.
Definition DYN_BTREE_MAX_CHAIN : nat := 16.
Definition bt_mid : nat := (DYN_BTREE_ORDER / 2)%nat.

Section BTree.
Context {V : Type}.

Inductive btree_u := Leaf_u (val : list V) (next prev : option nat) | Inner_u (kid : list nat).
Record btree_node := mk_node { parent : option nat; key : list Z; u : btree_u }.
Record dyn_btree_t := mk_btree { heap : gmap nat btree_node; fresh_addr : nat; root : nat; head : nat; count : Z }.

Definition with_heap (t : dyn_btree_t) (h : gmap nat btree_node) : dyn_btree_t := mk_btree h (fresh_addr t) (root t) (head t) (count t).
Definition bt_with_count (t : dyn_btree_t) (c : Z) : dyn_btree_t := mk_btree (heap t) (fresh_addr t) (root t) (head t) c.
Definition with_root (t : dyn_btree_t) (r : nat) : dyn_btree_t := mk_btree (heap t) (fresh_addr t) r (head t) (count t).
Definition with_parent (n : btree_node) (p : nat) : btree_node := mk_node (Some p) (key n) (u n).

(** An element at [i], those from [i] on moved up. *)
Definition ins_at {A} (l : list A) (i : nat) (x : A) : list A := take i l ++ x :: drop i l.

Definition is_leaf (n : btree_node) : bool := match u n with Leaf_u _ _ _ => true | Inner_u _ => false end.

Fixpoint btree_lower (ks : list Z) (k : Z) : nat :=
  match ks with
  | [] => 0
  | a :: ks => if double_lt a k then S (btree_lower ks k) else 0
  end.

(** [i < nd->n && nd->key[i] == k] *)
Definition bt_at_key (ks : list Z) (i : nat) (k : Z) : bool := match ks !! i with Some a => double_eqb a k | None => false end.

Definition btree_node_new (mem : list bool) (t : dyn_btree_t) (leaf : bool) : option nat * dyn_btree_t * list bool :=
  if hd true mem then
    (Some (fresh_addr t), mk_btree (<[fresh_addr t := mk_node None [] (if leaf then Leaf_u [] None None else Inner_u [])]> (heap t)) (S (fresh_addr t)) (root t) (head t) (count t), tl mem)
  else (None, t, tl mem).

Definition dyn_btree_new (mem : list bool) : option dyn_btree_t * list bool :=
  if hd true mem then
    match btree_node_new (tl mem) (mk_btree ∅ 0 0 0 0) true with
    | (Some r, t, mem) => (Some (mk_btree (heap t) (fresh_addr t) r r 0), mem)
    | (None, _, mem) => (None, mem)
    end
  else (None, tl mem).

Definition dyn_btree_size (t : dyn_btree_t) : Z := count t.

(** ** Search *)

Fixpoint find_leaf_loop (fuel : nat) (h : gmap nat btree_node) (nd : nat) (k : Z) : option nat :=
  match fuel with
  | O => None
  | S fuel =>
      n ← h !! nd;
      match u n with
      | Leaf_u _ _ _ => Some nd
      | Inner_u kid =>
          let i := btree_lower (key n) k in
          let i := if bt_at_key (key n) i k then S i else i in
          q ← kid !! i;
          find_leaf_loop fuel h q k
      end
  end.
Definition btree_find_leaf (t : dyn_btree_t) (k : Z) : option nat := find_leaf_loop (size (heap t)) (heap t) (root t) k.

(** The inner [None] is NULL. *)
Definition dyn_btree_get (t : dyn_btree_t) (k : Z) : option (option V) :=
  p ← btree_find_leaf t k;
  n ← heap t !! p;
  let i := btree_lower (key n) k in
  if bt_at_key (key n) i k then match u n with Leaf_u val _ _ => Some <$> val !! i | Inner_u _ => None end else Some None.

(** ** Splitting *)

Definition btree_ins_internal (t : dyn_btree_t) (nd at_ : nat) (k : Z) (kid : nat) : option dyn_btree_t :=
  n ← heap t !! nd;
  match u n with
  | Inner_u ks =>
      if (DYN_BTREE_ORDER <=? length (key n))%nat then None else
      let h := <[nd := mk_node (parent n) (ins_at (key n) at_ k) (Inner_u (ins_at ks (S at_) kid))]> (heap t) in
      c ← h !! kid;
      Some (with_heap t (<[kid := with_parent c nd]> h))
  | Leaf_u _ _ _ => None
  end.

Definition free_node (t : dyn_btree_t) (p : nat) : option dyn_btree_t := _ ← heap t !! p; Some (with_heap t (delete p (heap t))).
Fixpoint free_all (t : dyn_btree_t) (ps : list nat) : option dyn_btree_t :=
  match ps with
  | [] => Some t
  | p :: ps => t ← free_node t p; free_all t ps
  end.

(** The nodes for the right halves, from [p] up to the first node with room, which
    is the answer, or the root.  Without memory what was allocated is freed; when
    the chain is too long it is not. *)
Fixpoint prealloc (fuel : nat) (mem : list bool) (t : dyn_btree_t) (p : nat) (pre : list nat) : option (option nat * list nat * dyn_btree_t * list bool) :=
  match fuel with
  | O => Some (None, pre, t, mem)
  | S fuel =>
      n ← heap t !! p;
      match btree_node_new mem t (is_leaf n) with
      | (None, t, mem) => t ← free_all t pre; Some (None, [], t, mem)
      | (Some a, t, mem) =>
          match parent n with
          | None => Some (Some p, pre ++ [a], t, mem)
          | Some q =>
              m ← heap t !! q;
              if negb (length (key m) =? DYN_BTREE_ORDER - 1)%nat then Some (Some q, pre ++ [a], t, mem)
              else prealloc fuel mem t q (pre ++ [a])
          end
      end
  end.

Fixpoint set_parents (h : gmap nat btree_node) (ps : list nat) (q : nat) : option (gmap nat btree_node) :=
  match ps with
  | [] => Some h
  | p :: ps => n ← h !! p; set_parents (<[p := with_parent n q]> h) ps q
  end.

(** The right half of a node goes to [right]; the answer has the key that
    separates them. *)
Definition split_node (t : dyn_btree_t) (nd right : nat) : option (Z * dyn_btree_t) :=
  n ← heap t !! nd;
  r ← heap t !! right;
  up ← key n !! bt_mid;
  match u n with
  | Leaf_u val next prev =>
      let h := <[right := mk_node (parent r) (drop bt_mid (key n)) (Leaf_u (drop bt_mid val) next (Some nd))]> (heap t) in
      h ← match next with
          | None => Some h
          | Some q =>
              m ← h !! q;
              match u m with Leaf_u v nx _ => Some (<[q := mk_node (parent m) (key m) (Leaf_u v nx (Some right))]> h) | Inner_u _ => None end
          end;
      Some (up, with_heap t (<[nd := mk_node (parent n) (take bt_mid (key n)) (Leaf_u (take bt_mid val) (Some right) prev)]> h))
  | Inner_u kid =>
      let h := <[right := mk_node (parent r) (drop (S bt_mid) (key n)) (Inner_u (drop (S bt_mid) kid))]> (heap t) in
      h ← set_parents h (drop (S bt_mid) kid) right;
      Some (up, with_heap t (<[nd := mk_node (parent n) (take bt_mid (key n)) (Inner_u (take (S bt_mid) kid))]> h))
  end.

(** A node above the root: the root is split. *)
Definition grow_root (t : dyn_btree_t) (new_root nd right : nat) (up : Z) : option dyn_btree_t :=
  r ← heap t !! new_root;
  let h := <[new_root := mk_node (parent r) [up] (Inner_u [nd; right])]> (heap t) in
  h ← set_parents h [nd; right] new_root;
  Some (with_root (with_heap t h) new_root).

Fixpoint split_loop (t : dyn_btree_t) (nd : nat) (pre : list nat) (new_root : option nat) : option dyn_btree_t :=
  n ← heap t !! nd;
  if negb (length (key n) =? DYN_BTREE_ORDER)%nat then free_all t (pre ++ option_list new_root) else
  match pre with
  | [] => None
  | rn :: pre =>
      r ← split_node t nd rn;
      match parent n with
      | None => nr ← new_root; grow_root r.2 nr nd rn r.1
      | Some par =>
          m ← heap r.2 !! par;
          t ← btree_ins_internal r.2 par (btree_lower (key m) r.1) r.1 rn;
          split_loop t par pre new_root
      end
  end.

(** [false] is -1: no memory. *)
Definition btree_split (mem : list bool) (t : dyn_btree_t) (nd : nat) : option (bool * dyn_btree_t * list bool) :=
  n ← heap t !! nd;
  if negb (length (key n) =? DYN_BTREE_ORDER)%nat then Some (true, t, mem) else
  r ← prealloc DYN_BTREE_MAX_CHAIN mem t nd [];
  match r with
  | (None, _, t, mem) => Some (false, t, mem)
  | (Some p, pre, t, mem) =>
      m ← heap t !! p;
      match parent m with
      | Some _ => t ← split_loop t nd pre None; Some (true, t, mem)
      | None =>
          match btree_node_new mem t false with
          | (None, t, mem) => t ← free_all t pre; Some (false, t, mem)
          | (Some nr, t, mem) => t ← split_loop t nd pre (Some nr); Some (true, t, mem)
          end
      end
  end.

(** ** Changing entries *)

(** The answer: whether there was memory, and the value that was replaced. *)
Definition dyn_btree_set (mem : list bool) (t : dyn_btree_t) (k : Z) (v : V) : option (bool * option V * dyn_btree_t * list bool) :=
  p ← btree_find_leaf t k;
  n ← heap t !! p;
  let i := btree_lower (key n) k in
  match u n with
  | Inner_u _ => None
  | Leaf_u val next prev =>
      if bt_at_key (key n) i k then
        old ← val !! i;
        Some (true, Some old, with_heap t (<[p := mk_node (parent n) (key n) (Leaf_u (<[i := v]> val) next prev)]> (heap t)), mem)
      else if (DYN_BTREE_ORDER <=? length (key n))%nat then None else
      let t := with_heap t (<[p := mk_node (parent n) (ins_at (key n) i k) (Leaf_u (ins_at val i v) next prev)]> (heap t)) in
      r ← btree_split mem (bt_with_count t (u32 (count t + 1))) p;
      match r with
      | (true, t, mem) => Some (true, None, t, mem)
      | (false, t, mem) =>
          n ← heap t !! p;
          match u n with
          | Leaf_u val next prev => Some (false, None, bt_with_count (with_heap t (<[p := mk_node (parent n) (delete i (key n)) (Leaf_u (delete i val) next prev)]> (heap t))) (u32 (count t - 1)), mem)
          | Inner_u _ => None
          end
      end
  end.

(** The inner [None] is 0: no such key. *)
Definition dyn_btree_del (t : dyn_btree_t) (k : Z) : option (option V * dyn_btree_t) :=
  p ← btree_find_leaf t k;
  n ← heap t !! p;
  let i := btree_lower (key n) k in
  if negb (bt_at_key (key n) i k) then Some (None, t) else
  match u n with
  | Leaf_u val next prev =>
      x ← val !! i;
      Some (Some x, bt_with_count (with_heap t (<[p := mk_node (parent n) (delete i (key n)) (Leaf_u (delete i val) next prev)]> (heap t))) (u32 (count t - 1)))
  | Inner_u _ => None
  end.

(** ** Walks along the leaves *)

Definition leaf_next (h : gmap nat btree_node) (p : nat) : option (option nat) := n ← h !! p; match u n with Leaf_u _ next _ => Some next | Inner_u _ => None end.
Definition leaf_prev (h : gmap nat btree_node) (p : nat) : option (option nat) := n ← h !! p; match u n with Leaf_u _ _ prev => Some prev | Inner_u _ => None end.

(** The first kid each time, or the last. *)
Fixpoint end_loop (fuel : nat) (h : gmap nat btree_node) (nd : nat) (right : bool) : option nat :=
  match fuel with
  | O => None
  | S fuel =>
      n ← h !! nd;
      match u n with
      | Leaf_u _ _ _ => Some nd
      | Inner_u kid => q ← kid !! (if right then length (key n) else 0%nat); end_loop fuel h q right
      end
  end.
Definition btree_leftmost (t : dyn_btree_t) : option nat := end_loop (size (heap t)) (heap t) (root t) false.

(** [while (nd && nd->n == 0) nd = step(nd)] *)
Fixpoint skip_empty (fuel : nat) (h : gmap nat btree_node) (step : nat -> option (option nat)) (nd : option nat) : option (option nat) :=
  match nd with
  | None => Some None
  | Some p =>
      match fuel with
      | O => None
      | S fuel => n ← h !! p; if (length (key n) =? 0)%nat then q ← step p; skip_empty fuel h step q else Some (Some p)
      end
  end.

Record dyn_btree_iter := mk_iter { it_leaf : option nat; it_i : nat }.

Definition dyn_btree_iter_begin (t : dyn_btree_t) : option dyn_btree_iter :=
  p ← btree_leftmost t;
  q ← skip_empty (S (size (heap t))) (heap t) (leaf_next (heap t)) (Some p);
  Some (mk_iter q 0).

Definition dyn_btree_iter_seek (t : dyn_btree_t) (k : Z) : option dyn_btree_iter :=
  p ← btree_find_leaf t k;
  n ← heap t !! p;
  let i := btree_lower (key n) k in
  if (length (key n) <=? i)%nat then
    q ← leaf_next (heap t) p;
    q ← skip_empty (S (size (heap t))) (heap t) (leaf_next (heap t)) q;
    Some (mk_iter q 0)
  else Some (mk_iter (Some p) i).

Definition dyn_btree_iter_get (t : dyn_btree_t) (it : dyn_btree_iter) : option (option (Z * V)) :=
  match it_leaf it with
  | None => Some None
  | Some p =>
      n ← heap t !! p;
      match key n !! it_i it with
      | None => Some None
      | Some k => match u n with Leaf_u val _ _ => v ← val !! it_i it; Some (Some (k, v)) | Inner_u _ => None end
      end
  end.

Fixpoint iter_next_loop (fuel : nat) (h : gmap nat btree_node) (nd : option nat) (i : nat) : option dyn_btree_iter :=
  match nd with
  | None => Some (mk_iter None i)
  | Some p =>
      match fuel with
      | O => None
      | S fuel => n ← h !! p; if (length (key n) <=? i)%nat then q ← leaf_next h p; iter_next_loop fuel h q 0 else Some (mk_iter (Some p) i)
      end
  end.
Definition dyn_btree_iter_next (t : dyn_btree_t) (it : dyn_btree_iter) : option dyn_btree_iter :=
  match it_leaf it with
  | None => Some it
  | Some p => iter_next_loop (S (size (heap t))) (heap t) (Some p) (S (it_i it))
  end.

Definition dyn_btree_first (t : dyn_btree_t) : option (option Z) :=
  it ← dyn_btree_iter_begin t;
  r ← dyn_btree_iter_get t it;
  Some (option_map fst r).

Definition dyn_btree_last (t : dyn_btree_t) : option (option Z) :=
  p ← end_loop (size (heap t)) (heap t) (root t) true;
  q ← skip_empty (S (size (heap t))) (heap t) (leaf_prev (heap t)) (Some p);
  match q with
  | None => Some None
  | Some p => n ← heap t !! p; Some <$> key n !! (length (key n) - 1)%nat
  end.

Fixpoint keys_loop (fuel : nat) (h : gmap nat btree_node) (nd : option nat) (out : list Z) : option (list Z) :=
  match nd with
  | None => Some out
  | Some p =>
      match fuel with
      | O => None
      | S fuel => n ← h !! p; q ← leaf_next h p; keys_loop fuel h q (out ++ key n)
      end
  end.
Definition dyn_btree_get_keys (t : dyn_btree_t) : option (list Z) := p ← btree_leftmost t; keys_loop (S (size (heap t))) (heap t) (Some p) [].

(** [fn] gets the keys and values of a leaf with its own state, and says whether
    to go on; the number counts the entries of the leaves it took. *)
Fixpoint walk_loop {W} (fn : W -> list Z -> list V -> bool * W) (fuel : nat) (h : gmap nat btree_node) (nd : option nat) (w : W) (c : Z) : option (Z * W) :=
  match nd with
  | None => Some (c, w)
  | Some p =>
      match fuel with
      | O => None
      | S fuel =>
          n ← h !! p;
          match u n with
          | Inner_u _ => None
          | Leaf_u val next _ =>
              if (length (key n) =? 0)%nat then walk_loop fn fuel h next w c else
              match fn w (key n) val with
              | (false, w) => Some (c, w)
              | (true, w) => walk_loop fn fuel h next w (u32 (c + Z.of_nat (length (key n))))
              end
          end
      end
  end.
Definition dyn_btree_walk_leaves {W} (t : dyn_btree_t) (fn : W -> list Z -> list V -> bool * W) (w : W) : option (Z * W) :=
  p ← btree_leftmost t; walk_loop fn (S (size (heap t))) (heap t) (Some p) w 0.

Definition dyn_btree_ceil (t : dyn_btree_t) (k : Z) : option (option Z) :=
  it ← dyn_btree_iter_seek t k;
  r ← dyn_btree_iter_get t it;
  Some (option_map fst r).

Definition dyn_btree_floor (t : dyn_btree_t) (k : Z) : option (option Z) :=
  p ← btree_find_leaf t k;
  n ← heap t !! p;
  let i := btree_lower (key n) k in
  if bt_at_key (key n) i k then Some (Some k) else
  if (i =? 0)%nat then
    q ← leaf_prev (heap t) p;
    q ← skip_empty (S (size (heap t))) (heap t) (leaf_prev (heap t)) q;
    match q with
    | None => Some None
    | Some p => n ← heap t !! p; Some <$> key n !! (length (key n) - 1)%nat
    end
  else Some <$> key n !! (i - 1)%nat.
End BTree.
Arguments btree_node : clear implicits.
Arguments btree_u : clear implicits.
Arguments dyn_btree_t : clear implicits.
