(* ===== verification/BTreeTree.v ===== *)
(** * The tree behind a B+ tree

    Trees with the addresses of their nodes, without pointers: the path to a node,
    the nodes as the heap holds them, the keys and entries from left to right, and
    what splitting a node does to them. *)
From Stdlib Require Import ZArith Lia List Arith.
From stdpp Require Import base numbers list option gmap sorting.
From S2P Require Import Prelude Doubles BTree.

Section Trees.
Context {V : Type}.

#[warnings="-register-all"]
Inductive tree := Lf (p : nat) (kvs : list (Z * V)) | Nd (p : nat) (ks : list Z) (kids : list tree).

Definition addr (t : tree) : nat := match t with Lf p _ => p | Nd p _ _ => p end.
Definition n_keys (t : tree) : nat := match t with Lf _ kvs => length kvs | Nd _ ks _ => length ks end.

(** ** Keys and entries from left to right *)

(** A key that separates two kids, or an entry. *)
Inductive item := Sep (k : Z) | Ent (k : Z) (v : V).
Definition item_key (x : item) : Z := match x with Sep k => k | Ent k _ => k end.
Definition item_ord (x : item) : Z := double_ord (item_key x).
(** An entry may have the key that separates it from what is before. *)
Definition before (x y : item) : Prop := match x, y with Sep _, Ent _ _ => item_ord x <= item_ord y | _, _ => item_ord x < item_ord y end.
Definition ent (x : item) : option (Z * V) := match x with Ent k v => Some (k, v) | Sep _ => None end.

Fixpoint weave (xs : list (list item)) (ks : list Z) : list item :=
  match xs, ks with
  | x :: xs, k :: ks => x ++ Sep k :: weave xs ks
  | x :: _, [] => x
  | [], _ => []
  end.
(** The part before a kid and the part behind it. *)
Fixpoint weave_l (xs : list (list item)) (ks : list Z) : list item :=
  match xs, ks with
  | x :: xs, k :: ks => x ++ Sep k :: weave_l xs ks
  | _, _ => []
  end.
Fixpoint weave_r (ks : list Z) (xs : list (list item)) : list item :=
  match ks, xs with
  | k :: ks, x :: xs => Sep k :: x ++ weave_r ks xs
  | _, _ => []
  end.

Fixpoint flat (t : tree) : list item :=
  match t with
  | Lf _ kvs => (fun kv => Ent kv.1 kv.2) <$> kvs
  | Nd _ ks kids => weave (map flat kids) ks
  end.
Definition entries (t : tree) : list (Z * V) := omap ent (flat t).

Lemma weave_cons x xs ks : length xs = length ks -> weave (x :: xs) ks = x ++ weave_r ks xs.
Proof.
  revert x ks. induction xs as [|y xs IH]; intros x [|k ks] Hl; try discriminate; cbn [weave weave_r]; [by rewrite app_nil_r|]. f_equal. f_equal. apply IH. by injection Hl.
Qed.

Lemma weave_app xs1 ks1 xs2 ks2 : length xs1 = length ks1 -> weave (xs1 ++ xs2) (ks1 ++ ks2) = weave_l xs1 ks1 ++ weave xs2 ks2.
Proof.
  revert ks1. induction xs1 as [|y xs1 IH]; intros [|k ks1] Hl; try discriminate; [done|]. cbn [weave weave_l app]. rewrite <- app_assoc. cbn [app]. do 2 f_equal. apply IH. by injection Hl.
Qed.

Lemma weave_hole xs1 ks1 x xs2 ks2 : length xs1 = length ks1 -> length xs2 = length ks2 -> weave (xs1 ++ x :: xs2) (ks1 ++ ks2) = weave_l xs1 ks1 ++ x ++ weave_r ks2 xs2.
Proof. intros H1 H2. rewrite weave_app by done. by rewrite weave_cons. Qed.

Lemma weave_l_last xs ks : length xs = length ks -> ks <> [] -> exists l k, weave_l xs ks = l ++ [Sep k] /\ last ks = Some k.
Proof.
  revert ks. induction xs as [|x xs IH]; intros [|k ks] Hl Hne; try done. cbn [weave_l]. destruct ks as [|k' ks].
  - destruct xs; [|discriminate]. by exists x, k.
  - destruct (IH (k' :: ks)) as (l & k0 & E & El); [by injection Hl|done|]. rewrite E. exists (x ++ Sep k :: l), k0. split; [by rewrite <- app_assoc|]. done.
Qed.

(** ** Paths *)

(** A node with one kid left out. *)
Record frame := mk_frame { f_p : nat; f_kl : list Z; f_tl : list tree; f_kr : list Z; f_tr : list tree }.
Definition plug1 (f : frame) (t : tree) : tree := Nd (f_p f) (f_kl f ++ f_kr f) (f_tl f ++ t :: f_tr f).
(** The innermost frame first. *)
Fixpoint plug (c : list frame) (t : tree) : tree := match c with [] => t | f :: c => plug c (plug1 f t) end.

Fixpoint lefts (c : list frame) : list item := match c with [] => [] | f :: c => lefts c ++ weave_l (map flat (f_tl f)) (f_kl f) end.
Fixpoint rights (c : list frame) : list item := match c with [] => [] | f :: c => weave_r (f_kr f) (map flat (f_tr f)) ++ rights c end.

Definition min_keys : nat := (DYN_BTREE_ORDER - bt_mid - 1)%nat.

(** Balanced, with fewer keys than [hi] and, but for a leaf, at least [lo]; the
    nodes below have between [min_keys] and DYN_BTREE_ORDER - 1. *)
Fixpoint shaped (lo hi d : nat) (t : tree) : Prop :=
  match d, t with
  | O, Lf _ kvs => (length kvs < hi)%nat
  | S d, Nd _ ks kids => (lo <= length ks < hi)%nat /\ length kids = S (length ks) /\ Forall (shaped min_keys DYN_BTREE_ORDER d) kids
  | _, _ => False
  end.

Definition lo_of (c : list frame) : nat := match c with [] => 1%nat | _ => min_keys end.
Definition frame_ok (d : nat) (f : frame) : Prop :=
  length (f_tl f) = length (f_kl f) /\ length (f_tr f) = length (f_kr f) /\ Forall (shaped min_keys DYN_BTREE_ORDER d) (f_tl f ++ f_tr f).
Fixpoint path_ok (d : nat) (c : list frame) : Prop :=
  match c with
  | [] => True
  | f :: c => frame_ok d f /\ (lo_of c <= length (f_kl f ++ f_kr f) < DYN_BTREE_ORDER)%nat /\ path_ok (S d) c
  end.

Lemma flat_plug1 d f t : frame_ok d f -> flat (plug1 f t) = weave_l (map flat (f_tl f)) (f_kl f) ++ flat t ++ weave_r (f_kr f) (map flat (f_tr f)).
Proof. intros (H1 & H2 & _). cbn [plug1 flat]. rewrite map_app. cbn [map]. apply weave_hole; by rewrite length_map. Qed.

Lemma flat_plug d c t : path_ok d c -> flat (plug c t) = lefts c ++ flat t ++ rights c.
Proof.
  revert d t. induction c as [|f c IH]; intros d t Hc; cbn [plug lefts rights]; [by rewrite app_nil_r|]. destruct Hc as (Hf & _ & Hc). rewrite (IH (S d)) by done. rewrite (flat_plug1 d) by done. by rewrite <- !app_assoc.
Qed.

Lemma shaped_weaken lo lo' hi hi' d t : shaped lo hi d t -> (lo' <= lo)%nat -> (hi <= hi')%nat -> shaped lo' hi' d t.
Proof. destruct d, t; cbn [shaped]; intros H Hl Hh; try done; [lia|]. destruct H as (? & ? & ?). split; [lia|done]. Qed.

Lemma shaped_plug c : forall lo d t, path_ok d c -> lo = lo_of c -> shaped lo DYN_BTREE_ORDER d t -> shaped 1 DYN_BTREE_ORDER (length c + d) (plug c t).
Proof.
  induction c as [|f c IH]; intros lo d t Hc -> Ht; [done|]. destruct Hc as ((H1 & H2 & H3) & H4 & Hc). cbn [plug length]. replace (S (length c) + d)%nat with (length c + S d)%nat by lia. apply (IH (lo_of c) (S d)); [done|done|]. cbn [shaped plug1]. split; [done|]. split; [rewrite !length_app; cbn [length]; lia|]. apply Forall_app in H3 as [H3 H5]. apply Forall_app. split; [done|]. constructor; [|done]. apply (shaped_weaken (lo_of (f :: c)) _ DYN_BTREE_ORDER); [done|cbn [lo_of]; lia|lia].
Qed.

(** ** Leaves *)

Fixpoint leaves (t : tree) : list (nat * list (Z * V)) := match t with Lf p kvs => [(p, kvs)] | Nd _ _ kids => concat (map leaves kids) end.

Fixpoint lleaves (c : list frame) : list (nat * list (Z * V)) := match c with [] => [] | f :: c => lleaves c ++ concat (map leaves (f_tl f)) end.
Fixpoint rleaves (c : list frame) : list (nat * list (Z * V)) := match c with [] => [] | f :: c => concat (map leaves (f_tr f)) ++ rleaves c end.

Lemma leaves_plug c t : leaves (plug c t) = lleaves c ++ leaves t ++ rleaves c.
Proof.
  revert t. induction c as [|f c IH]; intros t; cbn [plug lleaves rleaves]; [by rewrite app_nil_r|]. rewrite IH. cbn [plug1 leaves]. rewrite map_app, concat_app. cbn [map concat]. by rewrite <- !app_assoc.
Qed.

Lemma omap_weave (xs : list (list item)) ks : length xs = S (length ks) -> omap ent (weave xs ks) = concat (map (omap ent) xs).
Proof.
  revert ks. induction xs as [|x xs IH]; intros ks Hl; [discriminate|]. destruct ks as [|k ks]; cbn [weave map concat].
  - destruct xs; [|discriminate]. cbn [map concat]. by rewrite app_nil_r.
  - rewrite omap_app. f_equal. apply IH. by injection Hl.
Qed.

Lemma omap_ents (kvs : list (Z * V)) : omap ent ((fun kv => Ent kv.1 kv.2) <$> kvs) = kvs.
Proof. induction kvs as [|[k v] kvs IH]; [done|]. cbn. by rewrite <- IH at 2. Qed.

Lemma entries_leaves lo hi d t : shaped lo hi d t -> entries t = concat (map snd (leaves t)).
Proof.
  revert lo hi t. induction d as [|d IH]; intros lo hi [p kvs|p ks kids] H; try done; unfold entries; cbn [flat leaves map concat].
  - by rewrite omap_ents, app_nil_r.
  - destruct H as (_ & Hl & HF). rewrite omap_weave by (by rewrite length_map). clear Hl. induction kids as [|t kids IHk]; [done|]. apply Forall_cons in HF as [Ht HF]. cbn [map concat]. rewrite map_app, concat_app. f_equal; [by apply (IH _ _ t Ht)|by apply IHk].
Qed.

Lemma leaves_nonempty lo hi d t : shaped lo hi d t -> leaves t <> [].
Proof.
  revert lo hi t. induction d as [|d IH]; intros lo hi [p kvs|p ks kids] H; try done. cbn [leaves]. destruct H as (_ & Hl & HF). destruct kids as [|t kids]; [done|]. apply Forall_cons in HF as [Ht _]. cbn [map concat]. specialize (IH _ _ t Ht). by destruct (leaves t).
Qed.

(** ** Nodes *)

(** What a node holds besides the links between leaves. *)
Definition bt_core : Type := option nat * list Z * (list V + list nat).
Definition body (t : tree) : list Z * (list V + list nat) :=
  match t with Lf _ kvs => (map fst kvs, inl (map snd kvs)) | Nd _ ks kids => (ks, inr (map addr kids)) end.
Definition head_core (par : option nat) (t : tree) : nat * bt_core := (addr t, (par, (body t).1, (body t).2)).

Fixpoint rest (t : tree) : list (nat * bt_core) :=
  match t with Lf _ _ => [] | Nd p _ kids => concat (map (fun c => head_core (Some p) c :: rest c) kids) end.
Definition nodes (par : option nat) (t : tree) : list (nat * bt_core) := head_core par t :: rest t.
Definition nodes_all (par : option nat) (ts : list tree) : list (nat * bt_core) := concat (map (nodes par) ts).

Definition parent_of (c : list frame) : option nat := match c with [] => None | f :: _ => Some (f_p f) end.
(** The nodes outside of a hole filled by the node at [a]. *)
Fixpoint around (c : list frame) (a : nat) : list (nat * bt_core) :=
  match c with
  | [] => []
  | f :: c => (f_p f, (parent_of c, f_kl f ++ f_kr f, inr (map addr (f_tl f) ++ a :: map addr (f_tr f)))) :: nodes_all (Some (f_p f)) (f_tl f ++ f_tr f) ++ around c (f_p f)
  end.

Lemma nodes_Nd par p ks kids : nodes par (Nd p ks kids) = (p, (par, ks, inr (map addr kids))) :: nodes_all (Some p) kids.
Proof. done. Qed.

Lemma nodes_all_app par ts1 ts2 : nodes_all par (ts1 ++ ts2) = nodes_all par ts1 ++ nodes_all par ts2.
Proof. unfold nodes_all. by rewrite map_app, concat_app. Qed.

Lemma nodes_all_cons par t ts : nodes_all par (t :: ts) = nodes par t ++ nodes_all par ts.
Proof. done. Qed.

Lemma nodes_plug c t : nodes None (plug c t) ≡ₚ nodes (parent_of c) t ++ around c (addr t).
Proof.
  revert t. induction c as [|f c IH]; intros t; cbn [plug around]; [by rewrite app_nil_r|]. rewrite IH. cbn [addr plug1]. unfold plug1. rewrite nodes_Nd, map_app, !nodes_all_app, nodes_all_cons. cbn [map parent_of app]. set (x := (f_p f, _)). set (a := nodes_all _ (f_tl f)). set (b := nodes_all _ (f_tr f)). set (n := nodes _ t). set (r := around c _).
  rewrite <- (Permutation_middle n _ x). apply perm_skip. rewrite <- !app_assoc. apply Permutation_app_swap_app.
Qed.

(** ** Splitting *)

(** The halves of a full tree and the key between them; the right half is at [r]. *)
Definition left_half (t : tree) : tree :=
  match t with Lf p kvs => Lf p (take bt_mid kvs) | Nd p ks kids => Nd p (take bt_mid ks) (take (S bt_mid) kids) end.
Definition right_half (r : nat) (t : tree) : tree :=
  match t with Lf p kvs => Lf r (drop bt_mid kvs) | Nd p ks kids => Nd r (drop (S bt_mid) ks) (drop (S bt_mid) kids) end.
Definition up_key (t : tree) : option Z := (body t).1 !! bt_mid.
End Trees.
Arguments tree : clear implicits.
Arguments item : clear implicits.
Arguments frame : clear implicits.
Arguments bt_core : clear implicits.
