(* ===== verification/BTreeOrder.v ===== *)
(** * The order in a B+ tree

    Where the search for a key goes, that splitting keeps the order and the shape,
    and that a tree of many levels has many nodes. *)
From Stdlib Require Import ZArith Lia List Arith.
From stdpp Require Import base numbers list option gmap sorting.
From S2P Require Import Prelude Doubles BTree BTreeTree.

Abbreviation o := double_ord.
Definition numeric (ks : list Z) : Prop := Forall (fun k => isnan k = false) ks.
Definition key_lt (a b : Z) : Prop := o a < o b.

(** ** Search in a node *)

Lemma lower_spec ks k : numeric ks -> isnan k = false ->
  (btree_lower ks k <= length ks)%nat /\ Forall (fun a => o a < o k) (take (btree_lower ks k) ks) /\ (forall a, ks !! btree_lower ks k = Some a -> o k <= o a).
Proof.
  intros Hks Hk. induction ks as [|a ks IH]; cbn [btree_lower length]; [split_and!; [lia|constructor|done]|]. apply Forall_cons in Hks as [Ha Hks]. rewrite double_lt_ord by done. destruct (Z.ltb_spec (o a) (o k)) as [Hlt|Hge].
  - destruct (IH Hks) as (H1 & H2 & H3). split_and!; [lia|by constructor|done].
  - split_and!; [lia|constructor|intros b [= <-]; done].
Qed.

Lemma bt_at_key_spec ks i k : numeric ks -> isnan k = false -> bt_at_key ks i k = true <-> exists a, ks !! i = Some a /\ o a = o k.
Proof.
  intros Hks Hk. unfold bt_at_key. destruct (ks !! i) as [a|] eqn:E; [|split; [done|by intros (a & ? & _)]]. rewrite double_eqb_ord by (done || by eapply Forall_lookup_1 in Hks). rewrite Z.eqb_eq. split; [by exists a|]. by intros (b & [= <-] & ?).
Qed.

(** The kid that the search for [k] goes to. *)
Definition kid_index (ks : list Z) (k : Z) : nat := let i := btree_lower ks k in if bt_at_key ks i k then S i else i.

Lemma sorted_drop_head ks i a : StronglySorted key_lt ks -> ks !! i = Some a -> Forall (fun b => o a < o b) (drop (S i) ks).
Proof.
  intros HS Ha. rewrite <- (take_drop_middle ks i a Ha) in HS. apply StronglySorted_app_1_r, StronglySorted_cons in HS as [HF _]. done.
Qed.

Lemma kid_index_spec ks k : numeric ks -> isnan k = false -> StronglySorted key_lt ks ->
  (kid_index ks k <= length ks)%nat /\ Forall (fun a => o a <= o k) (take (kid_index ks k) ks) /\ Forall (fun a => o k < o a) (drop (kid_index ks k) ks).
Proof.
  intros Hks Hk HS. destruct (lower_spec ks k Hks Hk) as (H1 & H2 & H3). unfold kid_index. cbv zeta. set (i := btree_lower ks k) in *. destruct (bt_at_key ks i k) eqn:E.
  - apply bt_at_key_spec in E as (a & Ha & Ea); [|done|done]. pose proof (lookup_lt_Some _ _ _ Ha). split_and!; [lia| |].
    + rewrite (take_S_r _ _ _ Ha). apply Forall_app. split; [|constructor; [lia|constructor]]. eapply Forall_impl; [exact H2|]. cbn. lia.
    + eapply Forall_impl; [by apply (sorted_drop_head ks i a)|]. cbn. lia.
  - split_and!; [lia|eapply Forall_impl; [exact H2|]; cbn; lia|]. destruct (ks !! i) as [a|] eqn:Ea; [|apply lookup_ge_None in Ea; rewrite drop_ge by done; constructor]. rewrite (drop_S _ _ _ Ea). specialize (H3 a eq_refl). assert (o a <> o k) by (intros Eq; assert (bt_at_key ks i k = true) by (apply bt_at_key_spec; [done|done|by exists a]); congruence). constructor; [lia|]. eapply Forall_impl; [by apply (sorted_drop_head ks i a)|]. cbn. lia.
Qed.

Section Order.
Context {V : Type}.
Implicit Types (t : tree V) (x : item V).

(** Items before and behind a key. *)
Definition below (k : Z) x : Prop := match x with Sep _ => item_ord x <= o k | Ent _ _ => item_ord x < o k end.
Definition above (k : Z) x : Prop := o k < item_ord x.
Definition item_ok x : Prop := isnan (item_key x) = false.

Lemma before_ord x y : before x y -> item_ord x <= item_ord y.
Proof. destruct x, y; cbn; lia. Qed.
Lemma before_sep x k : before x (Sep k) -> item_ord x < o k.
Proof. destruct x; cbn; unfold item_ord; cbn; lia. Qed.

#[export] Instance before_trans : Transitive (before (V := V)).
Proof. intros [] [] []; unfold before, item_ord; cbn [item_key]; lia. Qed.

Lemma weave_l_below (xs : list (list (item V))) ks k : length xs = length ks -> StronglySorted before (weave_l xs ks) -> Forall (fun a => o a <= o k) ks -> Forall (below k) (weave_l xs ks).
Proof.
  intros Hl HS HF. destruct ks as [|k0 ks]; [destruct xs; [constructor|discriminate]|]. destruct (weave_l_last xs (k0 :: ks) Hl) as (l & s & E & Es); [done|]. rewrite E in *. assert (Hs : o s <= o k). { apply (Forall_lookup_1 _ _ (pred (length (k0 :: ks))) _ HF). by rewrite <- last_lookup. }
  apply Forall_app. split; [|constructor; [exact Hs|constructor]]. apply Forall_forall. intros x Hx. assert (before x (Sep s)) as Hb%before_sep by (eapply StronglySorted_app_1_elem_of; [exact HS|done|by apply list_elem_of_singleton]). destruct x; cbn [below]; lia.
Qed.

Lemma weave_r_above (xs : list (list (item V))) ks k : length xs = length ks -> StronglySorted before (weave_r ks xs) -> Forall (fun a => o k < o a) ks -> Forall (above k) (weave_r ks xs).
Proof.
  intros Hl HS HF. destruct ks as [|k0 ks], xs as [|x0 xs]; try discriminate; [constructor|]. cbn [weave_r] in *. apply Forall_cons in HF as [Hk _]. constructor; [exact Hk|]. apply StronglySorted_cons in HS as [HF _]. eapply Forall_impl; [exact HF|]. intros x Hx%before_ord. unfold above. unfold item_ord in Hx at 1. cbn [item_key] in Hx. lia.
Qed.

(** The keys of a node are in order. *)
Lemma weave_keys (xs : list (list (item V))) ks : length xs = S (length ks) -> StronglySorted before (weave xs ks) -> StronglySorted key_lt ks.
Proof.
  revert ks. induction xs as [|x xs IH]; intros ks Hl HS; [discriminate|]. destruct ks as [|k ks]; [constructor|]. cbn [weave] in HS. apply StronglySorted_app_1_r, StronglySorted_cons in HS as [HF HS]. injection Hl as Hl. constructor; [by apply IH|]. apply Forall_forall. intros b Hb. rewrite Forall_forall in HF. clear IH HS.
  assert (Hin : Sep b ∈ weave xs ks). { revert ks Hl Hb HF. induction xs as [|y xs IH]; intros ks Hl Hb HF; [discriminate|]. destruct ks as [|k' ks]; [by apply elem_of_nil in Hb|]. cbn [weave]. apply elem_of_app. right. apply elem_of_cons in Hb as [-> |Hb]; [by left|]. right. apply IH; [by injection Hl|done|]. intros z Hz. apply HF. cbn [weave]. apply elem_of_app. right. by right. }
  specialize (HF _ Hin). exact HF.
Qed.

Lemma weave_numeric (xs : list (list (item V))) ks : length xs = S (length ks) -> Forall item_ok (weave xs ks) -> numeric ks.
Proof.
  revert ks. induction xs as [|x xs IH]; intros ks Hl HF; [discriminate|]. destruct ks as [|k ks]; [constructor|]. cbn [weave] in HF. apply Forall_app in HF as [_ HF]. apply Forall_cons in HF as [Hk HF]. constructor; [done|]. apply IH; [by injection Hl|done].
Qed.

(** Everything left of the kid is before [k] and everything right of it behind. *)
Lemma descend (xs : list (list (item V))) ks k L R : length xs = S (length ks) -> isnan k = false -> StronglySorted before (L ++ weave xs ks ++ R) -> Forall item_ok (weave xs ks) ->
  let i := kid_index ks k in
  (i <= length ks)%nat /\ Forall (below k) (weave_l (take i xs) (take i ks)) /\ Forall (above k) (weave_r (drop i ks) (drop (S i) xs)).
Proof.
  intros Hl Hk HS HF i. apply StronglySorted_app_1_r, StronglySorted_app_1_l in HS. destruct (kid_index_spec ks k) as (Hi & H1 & H2); [by apply (weave_numeric xs)|done|by apply (weave_keys xs)|]. fold i in Hi, H1, H2. split; [done|].
  destruct (lookup_lt_is_Some_2 xs i ltac:(lia)) as [x Hx]. rewrite <- (take_drop_middle xs i x Hx), <- (take_drop i ks), weave_hole in HS by (rewrite ?length_take, ?length_drop; lia).
  split; [apply weave_l_below|apply weave_r_above]; rewrite ?length_take, ?length_drop; try lia; try done.
  - by apply StronglySorted_app_1_l in HS.
  - by apply StronglySorted_app_1_r, StronglySorted_app_1_r in HS.
Qed.

(** ** Splitting *)

Lemma mid_bounds : (1 <= bt_mid)%nat /\ (bt_mid < DYN_BTREE_ORDER)%nat /\ (min_keys <= bt_mid)%nat /\ (DYN_BTREE_ORDER - S bt_mid = min_keys)%nat.
Proof. vm_compute. split_and!; lia. Qed.

Lemma weave_split (xs1 xs2 : list (list (item V))) ks1 k ks2 : length xs1 = S (length ks1) -> weave (xs1 ++ xs2) (ks1 ++ k :: ks2) = weave xs1 ks1 ++ Sep k :: weave xs2 ks2.
Proof.
  revert ks1. induction xs1 as [|x xs1 IH]; intros ks1 Hl; [discriminate|]. injection Hl as Hl. destruct ks1 as [|k1 ks1]; cbn [app weave].
  - by destruct xs1.
  - rewrite IH by done. by rewrite <- app_assoc.
Qed.

Lemma sorted_insert (l1 l2 : list (item V)) x : StronglySorted before (l1 ++ l2) -> Forall (fun y => before y x) l1 -> Forall (before x) l2 -> StronglySorted before (l1 ++ x :: l2).
Proof.
  rewrite !StronglySorted_app, StronglySorted_cons. intros (H1 & H2 & H3) Hl Hr. split_and!; try done. intros a b Ha Hb. apply elem_of_cons in Hb as [-> |Hb]; [by eapply Forall_forall in Hl|by apply H1].
Qed.

Definition full t : Prop := n_keys t = DYN_BTREE_ORDER.

Lemma halves_shaped lo d t r : shaped lo (S DYN_BTREE_ORDER) d t -> full t ->
  shaped min_keys DYN_BTREE_ORDER d (left_half t) /\ shaped min_keys DYN_BTREE_ORDER d (right_half r t) /\ is_Some (up_key t).
Proof.
  intros Ht Hf. destruct mid_bounds as (M1 & M2 & M3 & M4). destruct d as [|d], t as [p kvs|p ks kids]; cbn [shaped left_half right_half] in *; try done; unfold full, n_keys in Hf.
  - rewrite length_take, length_drop. split_and!; [lia|lia|]. unfold up_key. cbn [body fst]. apply lookup_lt_is_Some_2. rewrite length_map. lia.
  - destruct Ht as (_ & Hk & HF). rewrite !length_take, !length_drop. split_and!; try lia; [by apply Forall_take|by apply Forall_drop|]. unfold up_key. cbn [body fst]. apply lookup_lt_is_Some_2. lia.
Qed.

Lemma split_sorted lo d t r k L R : shaped lo (S DYN_BTREE_ORDER) d t -> full t -> up_key t = Some k -> StronglySorted before (L ++ flat t ++ R) ->
  StronglySorted before (L ++ (flat (left_half t) ++ Sep k :: flat (right_half r t)) ++ R).
Proof.
  intros Ht Hf Hk HS. destruct mid_bounds as (M1 & M2 & _). destruct d as [|d], t as [p kvs|p ks kids]; try done; unfold full, n_keys in Hf; unfold up_key in Hk; cbn [body fst] in Hk; cbn [left_half right_half flat] in *.
  - rewrite list_lookup_fmap in Hk. destruct (kvs !! bt_mid) as [[k0 v]|] eqn:E; [|discriminate]. injection Hk as ->.
    rewrite <- (take_drop_middle kvs bt_mid _ E) in HS. rewrite (drop_S _ _ _ E). rewrite fmap_app, fmap_cons in HS. rewrite fmap_cons. cbn [fst snd] in *. set (A := (_ : Z * V -> item V) <$> take bt_mid kvs) in *. set (B := _ <$> drop (S bt_mid) kvs) in *.
    assert (HA : exists e v' A', A = Ent e v' :: A'). { unfold A. destruct kvs as [|[e v'] kvs]; [cbn in Hf; lia|]. destruct bt_mid as [|m]; [lia|]. cbn [take fmap list_fmap]. eauto. }
    destruct HA as (e & v' & A' & EA). replace (L ++ (A ++ Sep k :: Ent k v :: B) ++ R) with ((L ++ A) ++ Sep k :: (Ent k v :: B ++ R)) by (by rewrite <- !app_assoc). replace (L ++ (A ++ Ent k v :: B) ++ R) with ((L ++ A) ++ (Ent k v :: B ++ R)) in HS by (by rewrite <- !app_assoc). apply sorted_insert; [done| |].
    + assert (He : forall x, x ∈ L ++ A -> before x (Ent k v)) by (intros x Hx; eapply StronglySorted_app_1_elem_of; [exact HS|done|by left]). apply Forall_forall. intros x Hx. specialize (He x Hx) as Hxk. apply elem_of_app in Hx as [Hx|Hx].
      * assert (H1 : before x (Ent e v')) by (apply StronglySorted_app_1_l in HS; eapply StronglySorted_app_1_elem_of; [exact HS|done|rewrite EA; by left]). assert (H2 : before (Ent e v') (Ent k v)) by (apply He; rewrite EA; set_solver). apply before_ord in H1. destruct x; unfold before, item_ord in *; cbn [item_key] in *; lia.
      * unfold A in Hx. apply list_elem_of_fmap in Hx as ([k1 v1] & -> & _). exact Hxk.
    + constructor; [unfold before, item_ord; cbn; lia|]. apply StronglySorted_app_1_r, StronglySorted_cons in HS as [HF _]. eapply Forall_impl; [exact HF|]. intros [] Hx; unfold before, item_ord in *; cbn [item_key] in *; lia.
  - rewrite <- (take_drop_middle ks bt_mid k Hk), <- (take_drop (S bt_mid) kids), map_app, weave_split in HS; [done|]. destruct Ht as (_ & Hkids & _). rewrite length_map, !length_take. lia.
Qed.

Lemma split_items lo d t r k : shaped lo (S DYN_BTREE_ORDER) d t -> full t -> up_key t = Some k ->
  (flat (left_half t) ++ Sep k :: flat (right_half r t) = flat t) \/ exists p kvs, t = Lf p kvs.
Proof.
  intros Ht Hf Hk. destruct mid_bounds as (M1 & M2 & _). destruct d as [|d], t as [p kvs|p ks kids]; try done; [right; eauto|left]. cbn [left_half right_half flat]. unfold up_key in Hk. cbn [body fst] in Hk. unfold full, n_keys in Hf. destruct Ht as (_ & Hkids & _). rewrite <- (take_drop_middle ks bt_mid k Hk) at 3. rewrite <- (take_drop (S bt_mid) kids) at 3. rewrite map_app, weave_split; [done|]. rewrite length_map, !length_take. lia.
Qed.

Lemma split_entries lo d t r k : shaped lo (S DYN_BTREE_ORDER) d t -> full t -> up_key t = Some k -> omap ent (flat (left_half t) ++ Sep k :: flat (right_half r t)) = omap ent (flat t).
Proof.
  intros Ht Hf Hk. destruct (split_items lo d t r k Ht Hf Hk) as [-> |(p & kvs & ->)]; [done|]. cbn [left_half right_half flat]. rewrite omap_app, (omap_ents kvs). change (omap ent (Sep k :: ?l)) with (omap ent l). cbn [omap list_omap ent]. rewrite !omap_ents. by rewrite take_drop.
Qed.

Lemma split_ok lo d t r k : shaped lo (S DYN_BTREE_ORDER) d t -> full t -> up_key t = Some k -> Forall item_ok (flat t) -> Forall item_ok (flat (left_half t) ++ Sep k :: flat (right_half r t)).
Proof.
  intros Ht Hf Hk HF. destruct (split_items lo d t r k Ht Hf Hk) as [-> |(p & kvs & ->)]; [done|]. cbn [left_half right_half flat] in *. unfold up_key in Hk. cbn [body fst] in Hk. rewrite list_lookup_fmap in Hk. destruct (kvs !! bt_mid) as [[k0 v]|] eqn:E; [|discriminate]. injection Hk as ->. rewrite <- (take_drop bt_mid kvs), fmap_app, Forall_app in HF. destruct HF as [H1 H2]. apply Forall_app. split; [done|]. constructor; [|done]. rewrite (drop_S _ _ _ E), fmap_cons in H2. apply Forall_cons in H2 as [H2 _]. exact H2.
Qed.

(** ** Many levels have many nodes *)

Lemma nodes_all_many d (ts : list (tree V)) par : (forall t, shaped min_keys DYN_BTREE_ORDER d t -> 16 ^ Z.of_nat d <= Z.of_nat (length (nodes par t))) -> Forall (shaped min_keys DYN_BTREE_ORDER d) ts ->
  Z.of_nat (length ts) * 16 ^ Z.of_nat d <= Z.of_nat (length (nodes_all par ts)).
Proof.
  intros H HF. induction HF as [|t ts Ht HF IH]; [done|]. rewrite nodes_all_cons, length_app. cbn [length]. specialize (H t Ht). lia.
Qed.

Lemma nodes_many d t par : shaped min_keys DYN_BTREE_ORDER d t -> 16 ^ Z.of_nat d <= Z.of_nat (length (nodes par t)).
Proof.
  revert t par. induction d as [|d IH]; intros [p kvs|p ks kids] par Ht; try done. destruct Ht as (Hk & Hl & HF). rewrite nodes_Nd. cbn [length]. pose proof (nodes_all_many d kids (Some p) ltac:(auto) HF) as Hm. assert (16 <= Z.of_nat (length kids)) by (change min_keys with 15%nat in Hk; lia). rewrite Nat2Z.inj_succ, Z.pow_succ_r by lia. pose proof (Z.pow_pos_nonneg 16 (Z.of_nat d)). nia.
Qed.

Lemma depth_bound d t hi : shaped 1 hi d t -> Z.of_nat (length (nodes None t)) < 2 ^ 60 -> (d <= 15)%nat.
Proof.
  intros Ht Hs. destruct (le_gt_dec d 15) as [?|Hd]; [done|exfalso]. destruct d as [|d]; [lia|]. destruct t as [p kvs|p ks kids]; [done|]. destruct Ht as (Hk & Hl & HF). rewrite nodes_Nd in Hs. cbn [length] in Hs. pose proof (nodes_all_many d kids (Some p) (fun t => nodes_many d t _) HF) as Hm. assert (16 ^ 15 <= 16 ^ Z.of_nat d) by (apply Z.pow_le_mono_r; lia). assert (2 <= Z.of_nat (length kids)) by lia. change (2 ^ 60) with (16 ^ 15) in Hs. nia.
Qed.
End Order.
