(* ===== verification/BTreeHeap.v ===== *)
(** * B+ trees in the heap

    The heap holds the nodes of a tree, the links of its leaves, and nodes that
    were allocated and are not part of it yet. *)
From Stdlib Require Import ZArith Lia List Arith.
From stdpp Require Import base numbers list option gmap sorting.
From S2P Require Import Prelude Doubles BTree BTreeTree BTreeOrder.

Section Heap.
(** The addresses given out so far are below [B]. *)
Context {V : Type} {B : nat}.
Implicit Types (h : gmap nat (btree_node V)) (n : btree_node V) (t : tree V) (bt : dyn_btree_t V) (ns : list (nat * bt_core V)).

Definition core_of n : bt_core V := (parent n, key n, match u n with Leaf_u v _ _ => inl v | Inner_u ks => inr ks end).
Definition bt_link_of n : option (option nat * option nat) := match u n with Leaf_u _ a b => Some (a, b) | Inner_u _ => None end.

Definition holds h ns : Prop := Forall (fun x => core_of <$> h !! x.1 = Some x.2) ns.

Definition next_of (ls : list nat) (nxt : option nat) : option nat := match ls with [] => nxt | p :: _ => Some p end.
(** The leaves [ls] between [prev] and [nxt]. *)
Fixpoint chained h (prev : option nat) (ls : list nat) (nxt : option nat) : Prop :=
  match ls with
  | [] => True
  | p :: ls => h !! p ≫= bt_link_of = Some (next_of ls nxt, prev) /\ chained h (Some p) ls nxt
  end.

Record rep h ns (ls ex : list nat) : Prop := {
  rep_nodup : NoDup (map fst ns ++ ex);
  rep_dom : dom h = list_to_set (map fst ns ++ ex);
  rep_holds : holds h ns;
  rep_sub : forall p, p ∈ ls -> p ∈ map fst ns;
  rep_ls : NoDup ls;
  rep_chained : chained h None ls None;
  rep_new : forall p, p ∈ ex -> (parent <$> h !! p) = Some None;
  rep_bound : forall p, p ∈ map fst ns ++ ex -> (p < B)%nat }.

Lemma next_of_app la lb nxt : next_of (la ++ lb) nxt = next_of la (next_of lb nxt).
Proof. by destruct la. Qed.

Lemma chained_app h prev la lb nxt : chained h prev (la ++ lb) nxt <-> chained h prev la (next_of lb nxt) /\ chained h (match last la with Some p => Some p | None => prev end) lb nxt.
Proof.
  revert prev. induction la as [|p la IH]; intros prev; [cbn; tauto|]. cbn [app chained]. rewrite IH, next_of_app. destruct la as [|q la]; cbn [last chained]; [tauto|]. cbn [last]. assert (E : (match last (q :: la) with Some p0 => Some p0 | None => Some p end) = match last (q :: la) with Some p0 => Some p0 | None => prev end) by (destruct (last (q :: la)) eqn:E; [done|by apply last_None in E]). cbn [last] in E. rewrite E. tauto.
Qed.

Lemma chained_ext h h' prev ls nxt : (forall p, p ∈ ls -> h' !! p ≫= bt_link_of = h !! p ≫= bt_link_of) -> chained h prev ls nxt -> chained h' prev ls nxt.
Proof.
  revert prev. induction ls as [|p ls IH]; intros prev E; [done|]. cbn [chained]. intros [H1 H2]. split; [rewrite E by (by left); done|]. apply IH; [|done]. intros q Hq. apply E. by right.
Qed.

Lemma holds_perm h ns ns' : ns ≡ₚ ns' -> holds h ns -> holds h ns'.
Proof. intros E. unfold holds. by rewrite E. Qed.

Lemma rep_perm h ns ns' ls ex ex' : rep h ns ls ex -> ns ≡ₚ ns' -> ex ≡ₚ ex' -> rep h ns' ls ex'.
Proof.
  intros [H1 H2 H3 H4 H5 H6 H7 H8] E E'. assert (Ep : map fst ns ++ ex ≡ₚ map fst ns' ++ ex') by (by rewrite E, E'). split; [by rewrite <- Ep|by rewrite H2, Ep|by apply (holds_perm h ns)| |done|done| |]; intros p Hp; [rewrite <- E; by apply H4|apply H7; by rewrite E'|apply H8; by rewrite Ep].
Qed.

Lemma rep_at h ns ls ex p c : rep h ns ls ex -> (p, c) ∈ ns -> exists n, h !! p = Some n /\ core_of n = c.
Proof.
  intros H Hin. pose proof (rep_holds _ _ _ _ H) as Hh. unfold holds in Hh. rewrite Forall_forall in Hh. specialize (Hh _ Hin). cbn [fst snd] in Hh. destruct (h !! p) as [n|]; [|discriminate]. exists n. split; [done|]. by injection Hh.
Qed.

Lemma rep_extra h ns ls ex p : rep h ns ls ex -> p ∈ ex -> exists n, h !! p = Some n /\ parent n = None.
Proof. intros H Hp. pose proof (rep_new _ _ _ _ H p Hp) as E. destruct (h !! p) as [n|]; [|discriminate]. exists n. split; [done|]. by injection E. Qed.

Lemma holds_ext h h' ns : (forall p, p ∈ map fst ns -> h' !! p = h !! p) -> holds h ns -> holds h' ns.
Proof.
  intros E. unfold holds. rewrite !Forall_forall. intros H [p c] Hin. cbn [fst snd]. rewrite E by (apply list_elem_of_fmap; by exists (p, c)). exact (H _ Hin).
Qed.

Lemma holds_cons h p c ns : holds h ((p, c) :: ns) <-> ((core_of <$> h !! p) = Some c) /\ holds h ns.
Proof. unfold holds. by rewrite Forall_cons. Qed.

Lemma rep_fresh h ns ls ex p c : rep h ((p, c) :: ns) ls ex -> (p ∉ map fst ns) /\ (p ∉ ex).
Proof. intros H. pose proof (rep_nodup _ _ _ _ H) as Hn. cbn [map fst app] in Hn. apply NoDup_cons in Hn as [Hn _]. rewrite elem_of_app in Hn. tauto. Qed.

(** A node is written and keeps its links. *)
Lemma rep_update h ns ls ex p c n n' : rep h ((p, c) :: ns) ls ex -> h !! p = Some n -> bt_link_of n' = bt_link_of n -> rep (<[p := n']> h) ((p, core_of n') :: ns) ls ex.
Proof.
  intros H Hp Hl. destruct (rep_fresh _ _ _ _ _ _ H) as [F1 F2]. destruct H as [H1 H2 H3 H4 H5 H6 H7 H8]. split; [done| | |done|done| | |done].
  - rewrite dom_insert_lookup_L by (by exists n). done.
  - apply holds_cons. rewrite lookup_insert_eq. split; [done|]. apply (holds_ext h); [|apply holds_cons in H3; by destruct H3]. intros q Hq. rewrite lookup_insert_ne; [done|]. intros ->. done.
  - apply (chained_ext h); [|done]. intros q Hq. destruct (decide (q = p)) as [-> |Hne]; [by rewrite lookup_insert_eq, Hp|by rewrite lookup_insert_ne].
  - intros q Hq. rewrite lookup_insert_ne by (intros ->; done). by apply H7.
Qed.

(** An allocated node becomes an inner node of the tree. *)
Lemma rep_use h ns ls ex p n' : rep h ns ls (p :: ex) -> rep (<[p := n']> h) ((p, core_of n') :: ns) ls ex.
Proof.
  intros H. assert (Hs : is_Some (h !! p)) by (destruct (rep_extra _ _ _ _ p H) as (n & ? & _); [by left|by exists n]). destruct H as [H1 H2 H3 H4 H5 H6 H7 H8]. assert (E : map fst ns ++ p :: ex ≡ₚ p :: map fst ns ++ ex) by (by rewrite Permutation_middle). rewrite E in H1. apply NoDup_cons in H1 as [F H1]. rewrite elem_of_app in F. split.
  - cbn [map fst app]. apply NoDup_cons. split; [rewrite elem_of_app; tauto|done].
  - rewrite dom_insert_lookup_L by done. rewrite H2, E. done.
  - apply holds_cons. rewrite lookup_insert_eq. split; [done|]. apply (holds_ext h); [|done]. intros q Hq. rewrite lookup_insert_ne; [done|]. intros ->. tauto.
  - intros q Hq. right. by apply H4.
  - done.
  - apply (chained_ext h); [|done]. intros q Hq. rewrite lookup_insert_ne; [done|]. intros ->. apply F. left. by apply H4.
  - intros q Hq. rewrite lookup_insert_ne by (intros ->; tauto). apply H7. by right.
  - intros q Hq. apply H8. by rewrite E.
Qed.

Lemma rep_alloc h ns ls ex p n : rep h ns ls ex -> p ∉ dom h -> parent n = None -> (p < B)%nat -> rep (<[p := n]> h) ns ls (ex ++ [p]).
Proof.
  intros [H1 H2 H3 H4 H5 H6 H7 H8] Hp Hpar HpB. assert (F : p ∉ map fst ns ++ ex) by (by rewrite H2, elem_of_list_to_set in Hp). assert (E : map fst ns ++ ex ++ [p] ≡ₚ p :: map fst ns ++ ex) by (by rewrite app_assoc, Permutation_app_comm). assert (Hq : forall q, q ∈ map fst ns -> q <> p) by (intros q Hin ->; apply F, elem_of_app; by left). split; [| | |done|done| | |].
  - rewrite E. by apply NoDup_cons.
  - rewrite dom_insert_L, E, H2. done.
  - apply (holds_ext h); [|done]. intros q Hin. rewrite lookup_insert_ne; [done|]. by apply not_eq_sym, Hq.
  - apply (chained_ext h); [|done]. intros q Hin. rewrite lookup_insert_ne; [done|]. by apply not_eq_sym, Hq, H4.
  - intros q Hin. apply elem_of_app in Hin as [Hin| ->%list_elem_of_singleton]; [|rewrite lookup_insert_eq; cbn; by rewrite Hpar]. rewrite lookup_insert_ne by (intros ->; apply F, elem_of_app; by right). by apply H7.
  - intros q Hin. rewrite E in Hin. apply elem_of_cons in Hin as [-> |Hin]; [done|by apply H8].
Qed.

Lemma rep_free h ns ls ex p : rep h ns ls (p :: ex) -> rep (delete p h) ns ls ex.
Proof.
  intros [H1 H2 H3 H4 H5 H6 H7 H8]. assert (E : map fst ns ++ p :: ex ≡ₚ p :: map fst ns ++ ex) by (by rewrite Permutation_middle). rewrite E in H1. apply NoDup_cons in H1 as [F H1]. assert (Hq : forall q, q ∈ map fst ns -> q <> p) by (intros q Hin ->; apply F, elem_of_app; by left). split; [done| | |done|done| | |].
  - rewrite dom_delete_L, H2, E. cbn [list_to_set]. clear - F. set_solver.
  - apply (holds_ext h); [|done]. intros q Hin. rewrite lookup_delete_ne; [done|]. by apply not_eq_sym, Hq.
  - apply (chained_ext h); [|done]. intros q Hin. rewrite lookup_delete_ne; [done|]. by apply not_eq_sym, Hq, H4.
  - intros q Hin. rewrite lookup_delete_ne by (intros ->; apply F, elem_of_app; by right). apply H7. by right.
  - intros q Hin. apply H8. rewrite E. by right.
Qed.

Lemma rep_size h ns ls ex : rep h ns ls ex -> size h = (length ns + length ex)%nat.
Proof. intros [H1 H2 _ _ _ _ _ _]. rewrite <- (size_dom h). rewrite H2, size_list_to_set by done. by rewrite length_app, length_map. Qed.

(** ** Splitting a node *)

Lemma core_with_parent n q ks c r : core_of n = (q, ks, c) -> core_of (with_parent n r) = (Some r, ks, c).
Proof. unfold core_of. cbn. congruence. Qed.

Lemma set_parents_spec (kids : list (tree V)) : forall h q r ns ls ex, rep h (nodes_all q kids ++ ns) ls ex -> exists h', set_parents h (map addr kids) r = Some h' /\ rep h' (nodes_all (Some r) kids ++ ns) ls ex.
Proof.
  induction kids as [|t kids IH]; intros h q r ns ls ex H; [by exists h|]. rewrite nodes_all_cons, <- app_assoc in H. unfold nodes in H at 1. cbn [app] in H. destruct (rep_at _ _ _ _ (addr t) (q, (body t).1, (body t).2) H) as (n & Hn & Ec); [by left|].
  pose proof (rep_update _ _ _ _ _ _ n (with_parent n r) H Hn eq_refl) as H'. rewrite (core_with_parent n _ _ _ r Ec) in H'. cbn [map set_parents]. rewrite Hn. cbn [mbind option_bind].
  destruct (IH (<[addr t := with_parent n r]> h) q r (nodes (Some r) t ++ ns) ls ex) as (h' & E & H2).
  - eapply rep_perm; [exact H'| |done]. unfold nodes, head_core. cbn [app]. rewrite <- Permutation_middle. apply perm_skip. apply Permutation_app_swap_app.
  - exists h'. split; [done|]. eapply rep_perm; [exact H2| |done]. rewrite nodes_all_cons, <- app_assoc. apply Permutation_app_swap_app.
Qed.

(** Another leaf behind the leaf [p]. *)
Lemma chained_insert h h' la p lb r : NoDup (la ++ p :: lb) -> r ∉ la ++ p :: lb -> chained h None (la ++ p :: lb) None ->
  h' !! p ≫= bt_link_of = (fun l => (Some r, l.2)) <$> (h !! p ≫= bt_link_of) ->
  h' !! r ≫= bt_link_of = Some (next_of lb None, Some p) ->
  (forall q, q ∈ la -> h' !! q ≫= bt_link_of = h !! q ≫= bt_link_of) ->
  (forall q lb', lb = q :: lb' -> h' !! q ≫= bt_link_of = Some (next_of lb' None, Some r)) ->
  (forall q, q ∈ tl lb -> h' !! q ≫= bt_link_of = h !! q ≫= bt_link_of) ->
  chained h' None (la ++ p :: r :: lb) None.
Proof.
  intros Hnd Hr H Hp Hr' Ha Hb Hb'. apply chained_app in H as [H1 H2]. apply chained_app. split; [by apply (chained_ext h)|]. cbn [chained] in H2 |- *. destruct H2 as [H2 H3]. rewrite Hp, H2. cbn [fmap option_fmap option_map next_of snd]. split; [done|]. split; [done|]. destruct lb as [|q lb']; [done|]. cbn [chained] in H3 |- *. destruct H3 as [_ H3]. split; [by apply Hb|]. apply (chained_ext h); [|done]. intros x Hx. by apply Hb'.
Qed.

Lemma link_some n v a b : u n = Leaf_u v a b -> bt_link_of n = Some (a, b).
Proof. intros E. unfold bt_link_of. by rewrite E. Qed.

Lemma core_leaf n q ks vs : core_of n = (q, ks, inl vs) -> parent n = q /\ key n = ks /\ exists a b, u n = Leaf_u vs a b.
Proof. unfold core_of. destruct (u n) as [v a b|kid] eqn:E; intros [= <- <- <-]. eauto. Qed.
Lemma core_inner n q ks ps : core_of n = (q, ks, inr ps) -> parent n = q /\ key n = ks /\ u n = Inner_u ps.
Proof. unfold core_of. destruct (u n) as [v a b|kid] eqn:E; intros [= <- <- <-]. eauto. Qed.

(** The first node of [lb] is a leaf that has the links of its place. *)
Lemma chained_first h prev q lb : chained h prev (q :: lb) None -> exists n v, h !! q = Some n /\ u n = Leaf_u v (next_of lb None) prev.
Proof.
  intros [H _]. destruct (h !! q) as [n|] eqn:E; [|discriminate]. cbn in H. unfold bt_link_of in H. destruct (u n) as [v a b|] eqn:Eu; [|discriminate]. injection H as -> ->. eauto.
Qed.

Lemma split_leaf_spec bt p kvs par ns la lb r ex k : rep (heap bt) (nodes par (Lf p kvs) ++ ns) (la ++ p :: lb) (r :: ex) -> up_key (Lf p kvs) = Some k ->
  exists h', split_node bt p r = Some (k, with_heap bt h') /\ rep h' (nodes par (left_half (Lf p kvs)) ++ nodes None (right_half r (Lf p kvs)) ++ ns) (la ++ p :: r :: lb) ex.
Proof.
  intros H Hk. unfold nodes in H. cbn [rest app] in H. set (h := heap bt) in *. destruct (rep_at _ _ _ _ p (par, map fst kvs, inl (map snd kvs)) H) as (n & Hn & Ec); [by left|]. apply core_leaf in Ec as (E1 & E2 & a & b & E3).
  destruct (rep_extra _ _ _ _ r H) as (m & Hm & Epm); [by left|]. unfold split_node. fold h. rewrite Hn, Hm. cbn [mbind option_bind]. unfold up_key in Hk. cbn [body fst] in Hk. rewrite E2, Hk, E3. cbn [mbind option_bind].
  pose proof (rep_chained _ _ _ _ H) as HL. pose proof (proj2 (proj1 (chained_app _ _ _ _ _) HL)) as HL2. destruct (chained_first _ _ _ _ HL2) as (n0 & v0 & Hn0 & Eu0). assert (n0 = n) as -> by congruence. rewrite E3 in Eu0. injection Eu0 as <- -> Eb.
  pose proof (rep_nodup _ _ _ _ H) as Hnd. cbn [map fst app] in Hnd. apply NoDup_cons in Hnd as [Fp Hnd]. rewrite elem_of_app in Fp. apply NoDup_app in Hnd as (Hnd1 & Hnd2 & Hnd3). apply NoDup_cons in Hnd3 as [Fr Hnd3]. assert (Hpr : p <> r) by (intros ->; apply Fp; right; by left). assert (Frn : r ∉ map fst ns) by (intros Hin; apply (Hnd2 r Hin); by left).
  pose proof (rep_sub _ _ _ _ H) as Hsub. cbn [map fst] in Hsub. assert (Frl : r ∉ la ++ p :: lb) by (intros Hin%Hsub; apply elem_of_cons in Hin as [?|?]; done). pose proof (rep_ls _ _ _ _ H) as Hls.
  set (h1 := <[r := _]> h). set (n' := mk_node (parent n) _ _).
  assert (exists h2, match next_of lb None with None => Some h1 | Some q => m0 ← h1 !! q; match u m0 with Leaf_u v nx _ => Some (<[q := mk_node (parent m0) (key m0) (Leaf_u v nx (Some r))]> h1) | Inner_u _ => None end end = Some h2 /\
    (forall q, q <> r -> core_of <$> h2 !! q = core_of <$> h !! q) /\ h2 !! r = h1 !! r /\ dom h2 = dom h1 /\ (forall q lb', lb = q :: lb' -> h2 !! q ≫= bt_link_of = Some (next_of lb' None, Some r)) /\ (forall q, q <> r -> next_of lb None <> Some q -> h2 !! q = h !! q)) as (h2 & -> & C1 & C2 & C3 & C4 & C5).
  { destruct lb as [|q lb']; cbn [next_of].
    - exists h1. split_and!; try done; intros q Hq; unfold h1; by rewrite lookup_insert_ne.
    - assert (Hqr : q <> r) by (intros ->; apply Frl; set_solver). destruct HL2 as [_ HL3]. destruct (chained_first _ _ _ _ HL3) as (m0 & v0' & Hm0 & Em0). assert (Hq1 : h1 !! q = Some m0) by (unfold h1; by rewrite lookup_insert_ne). rewrite Hq1. cbn [mbind option_bind]. rewrite Em0. eexists. split; [done|]. split_and!.
      + intros x Hx. destruct (decide (x = q)) as [-> |Hxq]; [|rewrite lookup_insert_ne by done; unfold h1; by rewrite lookup_insert_ne]. rewrite lookup_insert_eq, Hm0. cbn. unfold core_of. cbn. by rewrite Em0.
      + by rewrite lookup_insert_ne.
      + rewrite dom_insert_lookup_L by (by exists m0). done.
      + intros q' lb'' [= <- <-]. rewrite lookup_insert_eq. done.
      + intros x Hx Hne. rewrite lookup_insert_ne by congruence. unfold h1. by rewrite lookup_insert_ne. }
  cbn [mbind option_bind]. eexists. split; [done|].
  assert (Hdh : p ∈ dom h2). { rewrite C3. unfold h1. rewrite dom_insert_L. apply elem_of_union_r, elem_of_dom. by exists n. }
  assert (Ecn : core_of n' = (par, map fst (take bt_mid kvs), inl (map snd (take bt_mid kvs)))) by (unfold n', core_of; cbn [parent key u]; by rewrite E1, !firstn_map).
  split; unfold nodes, head_core; cbn [left_half right_half body rest app map fst snd addr].
  - repeat (apply NoDup_cons; split); [set_solver|set_solver|]. apply NoDup_app. split_and!; [done| |done]. intros x Hx Hx'. apply (Hnd2 x Hx). by right.
  - rewrite dom_insert_lookup_L by (by apply elem_of_dom). rewrite C3. unfold h1. rewrite dom_insert_lookup_L by (by exists m). rewrite (rep_dom _ _ _ _ H). cbn [map fst]. apply leibniz_equiv, list_to_set_perm. cbn [app]. apply perm_skip. by rewrite Permutation_middle.
  - apply holds_cons. rewrite lookup_insert_eq. split; [cbn; by rewrite Ecn|]. apply holds_cons. rewrite lookup_insert_ne, C2 by done. unfold h1. rewrite lookup_insert_eq. split; [cbn [fmap option_fmap option_map]; unfold core_of; cbn [parent key u]; by rewrite Epm, !skipn_map|]. pose proof (rep_holds _ _ _ _ H) as Hh. apply holds_cons in Hh as [_ Hh]. unfold holds in *. rewrite Forall_forall in Hh |- *. intros [q c] Hq. cbn [fst snd]. assert (q ∈ map fst ns) by (apply list_elem_of_fmap; by exists (q, c)). assert (q <> p) by (intros ->; tauto). assert (q <> r) by (intros ->; done). rewrite lookup_insert_ne by done. rewrite C1 by done. exact (Hh _ Hq).
  - intros q Hq. assert (q = r \/ q ∈ la ++ p :: lb) as [-> |Hin%Hsub] by set_solver; [right; by left|]. apply elem_of_cons in Hin as [-> |?]; [by left|right; by right].
  - assert (Ep : la ++ p :: r :: lb ≡ₚ r :: la ++ p :: lb) by (rewrite Permutation_middle; apply Permutation_app_head, Permutation_swap). rewrite Ep. by apply NoDup_cons.
  - assert (Hbp : forall q, next_of lb None = Some q -> q <> p) by (intros q Hq ->; destruct lb as [|x lb']; [done|]; injection Hq as ->; apply NoDup_app in Hls as (_ & _ & Hls); apply NoDup_cons in Hls as [Hls _]; apply Hls; by left).
    apply (chained_insert h); try done.
    + rewrite lookup_insert_eq, Hn. cbn. rewrite (link_some _ _ _ _ E3). done.
    + rewrite lookup_insert_ne, C2 by done. unfold h1. rewrite lookup_insert_eq. done.
    + intros q Hq. assert (q <> p) by (intros ->; apply NoDup_app in Hls as (_ & Hls & _); apply (Hls p Hq); by left). rewrite lookup_insert_ne by done. rewrite C5; [done|intros ->; apply Frl, elem_of_app; by left|]. intros Eq. destruct lb as [|x lb']; [done|]. injection Eq as ->. apply NoDup_app in Hls as (_ & Hls & _). apply (Hls q Hq). right. by left.
    + intros q lb' E. rewrite lookup_insert_ne by (apply not_eq_sym, Hbp; by rewrite E). by apply C4.
    + intros q Hq. destruct lb as [|x lb']; [by apply elem_of_nil in Hq|]. cbn [tl] in Hq. apply NoDup_app in Hls as (_ & _ & Hls). apply NoDup_cons in Hls as [F1 Hls]. apply NoDup_cons in Hls as [F2 _]. assert (q <> p) by (intros ->; apply F1; by right). rewrite lookup_insert_ne by done. rewrite C5; [done|intros ->; apply Frl; apply elem_of_app; right; right; by right|]. cbn [next_of]. congruence.
  - intros q Hq. assert (q <> p) by (intros ->; apply Fp; right; by right). assert (q <> r) by (intros ->; done). rewrite lookup_insert_ne by done. pose proof (C1 q ltac:(done)) as E. destruct (rep_extra _ _ _ _ q H) as (m' & Hm' & Ep'); [by right|]. rewrite Hm' in E. destruct (h2 !! q) as [m2|]; [|discriminate]. cbn in E |- *. injection E as E _ _. by rewrite E, Ep'.
  - intros q Hq. apply (rep_bound _ _ _ _ H). cbn [map fst app] in Hq |- *. rewrite !elem_of_cons, elem_of_app in Hq. rewrite elem_of_cons, elem_of_app, elem_of_cons. tauto.
Qed.

Lemma split_inner_spec bt p ks kids par ns ls r ex k : rep (heap bt) (nodes par (Nd p ks kids) ++ ns) ls (r :: ex) -> up_key (Nd p ks kids) = Some k ->
  exists h', split_node bt p r = Some (k, with_heap bt h') /\ rep h' (nodes par (left_half (Nd p ks kids)) ++ nodes None (right_half r (Nd p ks kids)) ++ ns) ls ex.
Proof.
  intros H Hk. rewrite nodes_Nd in H. cbn [app] in H. set (h := heap bt) in *. destruct (rep_at _ _ _ _ p (par, ks, inr (map addr kids)) H) as (n & Hn & Ec); [by left|]. apply core_inner in Ec as (E1 & E2 & E3).
  destruct (rep_extra _ _ _ _ r H) as (m & Hm & Epm); [by left|]. unfold split_node. fold h. rewrite Hn, Hm. cbn [mbind option_bind]. unfold up_key in Hk. cbn [body fst] in Hk. rewrite E2, Hk, E3. cbn [mbind option_bind]. rewrite skipn_map.
  set (nr := mk_node (parent m) _ _). set (kl := take (S bt_mid) kids) in *. set (kr := drop (S bt_mid) kids) in *. assert (Ek : nodes_all (Some p) kids = nodes_all (Some p) kl ++ nodes_all (Some p) kr) by (rewrite <- nodes_all_app; unfold kl, kr; by rewrite take_drop).
  pose proof (rep_use _ _ _ _ _ nr H) as H1. destruct (set_parents_spec kr (<[r := nr]> h) (Some p) r ((r, core_of nr) :: (p, (par, ks, inr (map addr kids))) :: nodes_all (Some p) kl ++ ns) ls ex) as (h2 & -> & H2).
  { eapply rep_perm; [exact H1| |done]. rewrite Ek, <- !Permutation_middle. do 2 apply perm_skip. rewrite <- app_assoc. apply Permutation_app_swap_app. }
  cbn [mbind option_bind].
  assert (H3 : rep h2 ((p, (par, ks, inr (map addr kids))) :: (r, core_of nr) :: nodes_all (Some r) kr ++ nodes_all (Some p) kl ++ ns) ls ex) by (eapply rep_perm; [exact H2|by rewrite <- !Permutation_middle; apply Permutation_swap|done]).
  destruct (rep_at _ _ _ _ p (par, ks, inr (map addr kids)) H3) as (n2 & Hn2 & Ec2); [by left|]. apply core_inner in Ec2 as (_ & _ & Eu2).
  eexists. split; [done|]. pose proof (rep_update _ _ _ _ _ _ n2 (mk_node (parent n) (take bt_mid ks) (Inner_u (take (S bt_mid) (map addr kids)))) H3 Hn2) as H4. eapply rep_perm; [apply H4; unfold bt_link_of; cbn [u]; by rewrite Eu2| |done].
  cbn [left_half right_half]. rewrite !nodes_Nd. fold kl kr. unfold core_of at 1 2. cbn [parent key u nr]. rewrite E1, Epm, firstn_map. fold kl. cbn [app]. apply perm_skip. rewrite <- Permutation_middle. apply perm_skip. apply Permutation_app_swap_app.
Qed.

Lemma split_node_spec bt lo d t par ns la lb r ex k : shaped lo (S DYN_BTREE_ORDER) d t -> up_key t = Some k -> rep (heap bt) (nodes par t ++ ns) (la ++ map fst (leaves t) ++ lb) (r :: ex) ->
  exists h', split_node bt (addr t) r = Some (k, with_heap bt h') /\
    rep h' (nodes par (left_half t) ++ nodes None (right_half r t) ++ ns) (la ++ map fst (leaves (left_half t) ++ leaves (right_half r t)) ++ lb) ex.
Proof.
  intros Ht Hk H. destruct t as [p kvs|p ks kids].
  - by apply split_leaf_spec.
  - assert (E : leaves (left_half (Nd p ks kids)) ++ leaves (right_half r (Nd p ks kids)) = leaves (Nd p ks kids)) by (cbn [left_half right_half leaves]; by rewrite <- concat_app, <- map_app, take_drop). rewrite E. by apply split_inner_spec.
Qed.

(** ** Putting a kid into its parent *)

Lemma ins_at_app {A} (l1 l2 : list A) x i : i = length l1 -> ins_at (l1 ++ l2) i x = l1 ++ x :: l2.
Proof. intros ->. unfold ins_at. by rewrite take_app_length, drop_app_length. Qed.

Lemma ins_internal_spec bt (f : frame V) par a r pr (tr : tree V) ns ls ex k : rep (heap bt) ((f_p f, (par, f_kl f ++ f_kr f, inr (map addr (f_tl f) ++ a :: map addr (f_tr f)))) :: nodes pr tr ++ ns) ls ex ->
  length (f_tl f) = length (f_kl f) -> (length (f_kl f ++ f_kr f) < DYN_BTREE_ORDER)%nat -> addr tr = r ->
  exists h', btree_ins_internal bt (f_p f) (length (f_kl f)) k r = Some (with_heap bt h') /\
    rep h' ((f_p f, (par, f_kl f ++ k :: f_kr f, inr (map addr (f_tl f) ++ a :: r :: map addr (f_tr f)))) :: nodes (Some (f_p f)) tr ++ ns) ls ex.
Proof.
  intros H Hl Hlt Hr. set (h := heap bt) in *. destruct (rep_at _ _ _ _ _ _ H (list_elem_of_here _ _)) as (n & Hn & Ec). apply core_inner in Ec as (E1 & E2 & E3). unfold btree_ins_internal. fold h. rewrite Hn. cbn [mbind option_bind]. rewrite E3, E2. destruct (Nat.leb_spec DYN_BTREE_ORDER (length (f_kl f ++ f_kr f))) as [?|_]; [lia|].
  rewrite ins_at_app by done. assert (E4 : ins_at (map addr (f_tl f) ++ a :: map addr (f_tr f)) (S (length (f_kl f))) r = map addr (f_tl f) ++ a :: r :: map addr (f_tr f)). { change (a :: map addr (f_tr f)) with ([a] ++ map addr (f_tr f)). rewrite app_assoc, ins_at_app by (rewrite length_app, length_map; cbn [length]; lia). by rewrite <- app_assoc. }
  rewrite E4. set (n' := mk_node _ _ _). pose proof (rep_update _ _ _ _ _ _ n n' H Hn) as H1. specialize (H1 ltac:(unfold bt_link_of, n'; cbn [u]; by rewrite E3)). assert (Ec' : core_of n' = (par, f_kl f ++ k :: f_kr f, inr (map addr (f_tl f) ++ a :: r :: map addr (f_tr f)))) by (unfold n', core_of; cbn [parent key u]; by rewrite E1). rewrite Ec' in H1.
  unfold nodes in H1 at 1. cbn [app] in H1. assert (H2 : rep (<[f_p f := n']> h) ((addr tr, (pr, (body tr).1, (body tr).2)) :: (f_p f, (par, f_kl f ++ k :: f_kr f, inr (map addr (f_tl f) ++ a :: r :: map addr (f_tr f)))) :: rest tr ++ ns) ls ex) by (eapply rep_perm; [exact H1|apply Permutation_swap|done]).
  destruct (rep_at _ _ _ _ _ _ H2 (list_elem_of_here _ _)) as (c & Hc & Ecc). rewrite <- Hr, Hc. cbn [mbind option_bind]. eexists. split; [done|]. pose proof (rep_update _ _ _ _ _ _ c (with_parent c (f_p f)) H2 Hc eq_refl) as H3. rewrite (core_with_parent _ _ _ _ (f_p f) Ecc) in H3. eapply rep_perm; [exact H3| |done]. unfold nodes, head_core. cbn [app]. rewrite Hr. apply Permutation_swap.
Qed.

(** ** Freeing *)

Lemma free_all_spec ps : forall bt ns ls ex, rep (heap bt) ns ls (ps ++ ex) -> exists h', free_all bt ps = Some (with_heap bt h') /\ rep h' ns ls ex.
Proof.
  induction ps as [|p ps IH]; intros bt ns ls ex H; [exists (heap bt); split; [by destruct bt|done]|]. cbn [app free_all] in *. unfold free_node. destruct (rep_extra _ _ _ _ p H) as (n & Hn & _); [by left|]. rewrite Hn. cbn [mbind option_bind]. destruct (IH (with_heap bt (delete p (heap bt))) ns ls ex) as (h' & -> & H'); [by apply rep_free|]. exists h'. split; [done|]. done.
Qed.
End Heap.

Lemma rep_mono {V} B B' h (ns : list (nat * bt_core V)) ls ex : rep (B := B) h ns ls ex -> (B <= B')%nat -> rep (B := B') h ns ls ex.
Proof. intros [H1 H2 H3 H4 H5 H6 H7 H8] Hle. split; try done. intros p Hp. specialize (H8 p Hp). lia. Qed.
