(* ===== verification/BTreeSplit.v ===== *)
(** * Splitting a B+ tree

    A full node is split and the key between its halves goes into the parent,
    which may then be full itself; the nodes that this takes are allocated before
    anything is changed, so that a failure leaves the tree as it was. *)
From Stdlib Require Import ZArith Lia List Arith.
From stdpp Require Import base numbers list option gmap sorting.
From S2P Require Import Prelude Doubles BTree BTreeTree BTreeOrder BTreeHeap.

Section Split.
Context {V : Type} {Bnd : nat}.
Abbreviation rep := (BTreeHeap.rep (B := Bnd)).
Implicit Types (h : gmap nat (btree_node V)) (t : tree V) (bt : dyn_btree_t V) (f : frame V) (c : list (frame V)).

Definition ordered t : Prop := StronglySorted before (flat t) /\ Forall item_ok (flat t).

Definition frame_full f : Prop := length (f_kl f ++ f_kr f) = (DYN_BTREE_ORDER - 1)%nat.
(** How many nodes a split of a full node below [c] takes, and whether the root is
    split too. *)
Fixpoint need c : nat := match c with [] => 1 | f :: c => if decide (frame_full f) then S (need c) else 1 end%nat.
Fixpoint all_full c : Prop := match c with [] => True | f :: c => frame_full f /\ all_full c end.

Lemma lower_app ks1 ks2 k : numeric (ks1 ++ ks2) -> isnan k = false -> Forall (fun a => o a < o k) ks1 -> (forall b, b ∈ ks2 -> o k <= o b) -> btree_lower (ks1 ++ ks2) k = length ks1.
Proof.
  intros Hn Hk H1 H2. induction ks1 as [|a ks1 IH]; cbn [app length btree_lower] in *.
  - destruct ks2 as [|b ks2]; [done|]. apply Forall_cons in Hn as [Hb _]. cbn [btree_lower]. rewrite double_lt_ord by done. specialize (H2 b ltac:(by left)). destruct (Z.ltb_spec (o b) (o k)); [lia|done].
  - apply Forall_cons in Hn as [Ha Hn]. apply Forall_cons in H1 as [Hak H1]. rewrite double_lt_ord by done. destruct (Z.ltb_spec (o a) (o k)); [|lia]. f_equal. by apply IH.
Qed.

Lemma sep_weave_l (xs : list (list (item V))) ks a : length xs = length ks -> a ∈ ks -> Sep a ∈ weave_l xs ks.
Proof.
  revert ks. induction xs as [|x xs IH]; intros [|k ks] Hl Ha; try discriminate; [by apply elem_of_nil in Ha|]. cbn [weave_l]. apply elem_of_app. right. apply elem_of_cons in Ha as [-> |Ha]; [by left|]. right. apply IH; [by injection Hl|done].
Qed.
Lemma sep_weave_r (xs : list (list (item V))) ks a : length xs = length ks -> a ∈ ks -> Sep a ∈ weave_r ks xs.
Proof.
  revert ks. induction xs as [|x xs IH]; intros [|k ks] Hl Ha; try discriminate; [by apply elem_of_nil in Ha|]. cbn [weave_r]. apply elem_of_cons in Ha as [-> |Ha]; [by left|]. right. apply elem_of_app. right. apply IH; [by injection Hl|done].
Qed.

(** The key of a split kid belongs at the place of the kid. *)
Lemma lower_at_kid d f k (A B L R : list (item V)) : frame_ok d f -> StronglySorted before (L ++ (weave_l (map flat (f_tl f)) (f_kl f) ++ (A ++ Sep k :: B) ++ weave_r (f_kr f) (map flat (f_tr f))) ++ R) ->
  Forall item_ok (weave_l (map flat (f_tl f)) (f_kl f) ++ (A ++ Sep k :: B) ++ weave_r (f_kr f) (map flat (f_tr f))) -> btree_lower (f_kl f ++ f_kr f) k = length (f_kl f).
Proof.
  intros (H1 & H2 & _) HS HF. apply StronglySorted_app_1_r, StronglySorted_app_1_l in HS. rewrite Forall_forall in HF. set (WL := weave_l _ _) in *. set (WR := weave_r _ _) in *.
  assert (HL : forall a, a ∈ f_kl f -> Sep a ∈ WL) by (intros a Ha; apply sep_weave_l; [by rewrite length_map|done]). assert (HR : forall a, a ∈ f_kr f -> Sep a ∈ WR) by (intros a Ha; apply sep_weave_r; [by rewrite length_map|done]).
  assert (Hk : Sep k ∈ A ++ Sep k :: B) by (apply elem_of_app; right; by left). apply lower_app.
  - apply Forall_forall. intros a Ha. apply elem_of_app in Ha as [Ha|Ha]; [apply (HF (Sep a)), elem_of_app; left; by apply HL|apply (HF (Sep a)); rewrite !elem_of_app; right; right; by apply HR].
  - apply (HF (Sep k)). rewrite !elem_of_app. rewrite elem_of_app in Hk. tauto.
  - apply Forall_forall. intros a Ha. apply (StronglySorted_app_1_elem_of _ _ _ (Sep a) (Sep k) HS); [by apply HL|]. apply elem_of_app. by left.
  - intros b Hb. apply StronglySorted_app_1_r in HS. pose proof (StronglySorted_app_1_elem_of _ _ _ (Sep k) (Sep b) HS Hk (HR b Hb)) as Hlt. unfold before, item_ord in Hlt. cbn [item_key] in Hlt. lia.
Qed.

Lemma addr_left t : addr (left_half t) = addr t.
Proof. by destruct t. Qed.
Lemma addr_right t r : addr (right_half r t) = r.
Proof. by destruct t. Qed.

(** The parent of a split kid. *)
Definition wider f (k : Z) (t1 t2 : tree V) : tree V := Nd (f_p f) (f_kl f ++ k :: f_kr f) (f_tl f ++ t1 :: t2 :: f_tr f).

Lemma flat_wider d f k t1 t2 : frame_ok d f -> flat (wider f k t1 t2) = weave_l (map flat (f_tl f)) (f_kl f) ++ (flat t1 ++ Sep k :: flat t2) ++ weave_r (f_kr f) (map flat (f_tr f)).
Proof.
  intros (H1 & H2 & _). cbn [wider flat]. rewrite map_app. cbn [map]. rewrite weave_app by (by rewrite length_map). f_equal. change (weave (flat t1 :: ?xs) (k :: f_kr f)) with (flat t1 ++ Sep k :: weave xs (f_kr f)). rewrite weave_cons by (by rewrite length_map). by rewrite <- app_assoc.
Qed.

Lemma ordered_wider d lo c f t k r : path_ok d (f :: c) -> shaped lo (S DYN_BTREE_ORDER) d t -> full t -> up_key t = Some k -> ordered (plug (f :: c) t) ->
  ordered (plug c (wider f k (left_half t) (right_half r t))) /\ entries (plug c (wider f k (left_half t) (right_half r t))) = entries (plug (f :: c) t) /\
  btree_lower (f_kl f ++ f_kr f) k = length (f_kl f).
Proof.
  intros (Hf & Hlen & Hc) Ht Hfull Hk [HS HF]. cbn [plug] in *. unfold ordered, entries. rewrite (flat_plug (S d)) in HS, HF |- * by done. rewrite (flat_plug (S d)) by done. rewrite (flat_plug1 d) in HS, HF |- * by done. rewrite (flat_wider d) by done. set (WL := weave_l _ _) in *. set (WR := weave_r _ _) in *.
  assert (HS' : StronglySorted before (lefts c ++ (WL ++ (flat (left_half t) ++ Sep k :: flat (right_half r t)) ++ WR) ++ rights c)).
  { pose proof (split_sorted lo d t r k (lefts c ++ WL) (WR ++ rights c) Ht Hfull Hk) as H. rewrite <- !app_assoc in HS, H |- *. cbn [app] in H |- *. rewrite <- !app_assoc in H |- *. by apply H. }
  assert (HF' : Forall item_ok (WL ++ (flat (left_half t) ++ Sep k :: flat (right_half r t)) ++ WR)). { rewrite !Forall_app in HF. destruct HF as (F1 & (F2 & F3 & F4) & F5). apply Forall_app. split; [done|]. apply Forall_app. split; [|done]. by apply (split_ok lo d). }
  apply Forall_app in HF as [F1 HF]. apply Forall_app in HF as [_ F2]. split_and!; [done|apply Forall_app; split; [done|by apply Forall_app]| |].
  - rewrite !omap_app. do 2 f_equal. do 2 f_equal. rewrite <- omap_app. by apply (split_entries lo d).
  - by apply (lower_at_kid d f k (flat (left_half t)) (flat (right_half r t)) (lefts c) (rights c)).
Qed.

(** ** The loop *)

Lemma grow_root_spec bt (t1 t2 : tree V) ls x k : rep (heap bt) (nodes None t1 ++ nodes None t2) ls [x] ->
  exists h', grow_root bt x (addr t1) (addr t2) k = Some (with_root (with_heap bt h') x) /\ rep h' (nodes None (Nd x [k] [t1; t2])) ls [].
Proof.
  intros H. destruct (rep_extra _ _ _ _ x H) as (m & Hm & Epm); [by left|]. unfold grow_root. rewrite Hm. cbn [mbind option_bind]. set (n' := mk_node _ _ _). pose proof (rep_use _ _ _ _ _ n' H) as H1.
  destruct (set_parents_spec (B := Bnd) [t1; t2] (<[x := n']> (heap bt)) None x [(x, core_of n')] ls []) as (h' & E & H2). { eapply rep_perm; [exact H1| |done]. rewrite !nodes_all_cons. change (nodes_all None []) with (@nil (nat * bt_core V)). rewrite app_nil_r. apply Permutation_cons_append. }
  cbn [map] in E. rewrite E. cbn [mbind option_bind]. eexists. split; [done|]. eapply rep_perm; [exact H2| |done]. rewrite nodes_Nd. unfold n', core_of. cbn [parent key u map]. rewrite Epm. symmetry. apply Permutation_cons_append.
Qed.

Lemma addr_plug c t t' : addr t = addr t' -> addr (plug c t) = addr (plug c t').
Proof. revert t t'. induction c as [|f c IH]; intros t t' E; [done|]. cbn [plug]. by apply IH. Qed.

Lemma key_count bt t par ns ls ex n : rep (heap bt) (nodes par t ++ ns) ls ex -> heap bt !! addr t = Some n -> length (key n) = n_keys t /\ parent n = par.
Proof.
  intros H Hn. destruct (rep_at _ _ _ _ (addr t) (par, (body t).1, (body t).2) H) as (n0 & Hn0 & Ec); [by left|]. assert (n0 = n) as -> by congruence. unfold core_of in Ec. injection Ec as -> -> _. split; [|done]. destruct t; cbn [body fst n_keys]; [by rewrite length_map|done].
Qed.

Lemma shaped_n_keys lo hi d t : shaped lo hi d t -> (n_keys t < hi)%nat.
Proof. destruct d, t; cbn [shaped n_keys]; try done. intros ((_ & ?) & _). done. Qed.

Lemma shaped_not_full lo d t : shaped lo (S DYN_BTREE_ORDER) d t -> ~ full t -> shaped lo DYN_BTREE_ORDER d t.
Proof.
  unfold full. destruct d, t; cbn [shaped n_keys]; try done; [lia|]. intros (? & ? & ?) ?. split_and!; try done; lia.
Qed.

Lemma shaped_wider d lo f (k : Z) (t1 t2 : tree V) : frame_ok d f -> (lo <= length (f_kl f ++ f_kr f) < DYN_BTREE_ORDER)%nat -> shaped min_keys DYN_BTREE_ORDER d t1 -> shaped min_keys DYN_BTREE_ORDER d t2 -> shaped lo (S DYN_BTREE_ORDER) (S d) (wider f k t1 t2).
Proof.
  intros (H1 & H2 & H3) Hl Ht1 Ht2. cbn [shaped wider]. rewrite !length_app in *. cbn [length]. apply Forall_app in H3 as [H3 H4]. split_and!; try lia. apply Forall_app. split; [done|]. by repeat constructor.
Qed.

Lemma leaves_wider c f k (t1 t2 : tree V) : leaves (plug c (wider f k t1 t2)) = lleaves (f :: c) ++ (leaves t1 ++ leaves t2) ++ rleaves (f :: c).
Proof. rewrite leaves_plug. cbn [wider leaves lleaves rleaves]. rewrite map_app, concat_app. cbn [map concat]. by rewrite <- !app_assoc. Qed.

Lemma nodes_wider par f k (t1 t2 : tree V) : nodes par (wider f k t1 t2) ≡ₚ (f_p f, (par, f_kl f ++ k :: f_kr f, inr (map addr (f_tl f) ++ addr t1 :: addr t2 :: map addr (f_tr f)))) :: nodes (Some (f_p f)) t2 ++ nodes (Some (f_p f)) t1 ++ nodes_all (Some (f_p f)) (f_tl f ++ f_tr f).
Proof.
  unfold wider. rewrite nodes_Nd, map_app. cbn [map]. apply perm_skip. rewrite !nodes_all_app, !nodes_all_cons. rewrite (Permutation_app_swap_app (nodes_all _ (f_tl f))). rewrite (app_assoc (nodes _ t2)), (Permutation_app_comm (nodes _ t2) (nodes _ t1)), <- app_assoc. apply Permutation_app_head. apply Permutation_app_swap_app.
Qed.

(** One turn below a parent. *)
Lemma split_turn bt c f t d rn ex : path_ok d (f :: c) -> shaped min_keys (S DYN_BTREE_ORDER) d t -> full t -> ordered (plug (f :: c) t) ->
  rep (heap bt) (nodes (Some (f_p f)) t ++ around (f :: c) (addr t)) (map fst (leaves (plug (f :: c) t))) (rn :: ex) ->
  exists h1 h2 m k, split_node bt (addr t) rn = Some (k, with_heap bt h1) /\ up_key t = Some k /\ h1 !! f_p f = Some m /\
    btree_ins_internal (with_heap bt h1) (f_p f) (btree_lower (key m) k) k rn = Some (with_heap bt h2) /\
    rep h2 (nodes (parent_of c) (wider f k (left_half t) (right_half rn t)) ++ around c (f_p f)) (map fst (leaves (plug c (wider f k (left_half t) (right_half rn t))))) ex.
Proof.
  intros Hc Ht Hfull HO H. destruct (halves_shaped _ _ _ rn Ht Hfull) as (_ & _ & [k Hk]). rewrite leaves_plug, !map_app in H. destruct (split_node_spec bt _ d t _ _ _ _ rn ex k Ht Hk H) as (h1 & E1 & H1). destruct (ordered_wider d _ c f t k rn Hc Ht Hfull Hk HO) as (_ & _ & Elow). destruct Hc as (Hf & Hlen & Hc). cbn [around] in H1.
  set (x := (f_p f, (parent_of c, f_kl f ++ f_kr f, inr (map addr (f_tl f) ++ addr t :: map addr (f_tr f))))) in H1.
  assert (H1' : rep h1 (x :: nodes None (right_half rn t) ++ nodes (Some (f_p f)) (left_half t) ++ nodes_all (Some (f_p f)) (f_tl f ++ f_tr f) ++ around c (f_p f)) (map fst (lleaves (f :: c)) ++ map fst (leaves (left_half t) ++ leaves (right_half rn t)) ++ map fst (rleaves (f :: c))) ex).
  { eapply rep_perm; [exact H1| |done]. rewrite Permutation_app_swap_app. rewrite <- !Permutation_middle. done. }
  destruct (rep_at _ _ _ _ (f_p f) x.2 H1') as (m & Hm & Ecm); [by left|]. apply core_inner in Ecm as (_ & Ekm & _).
  destruct (ins_internal_spec (with_heap bt h1) f (parent_of c) (addr t) rn None (right_half rn t) _ _ ex k H1') as (h2 & E2 & H2); [by destruct Hf|lia|apply addr_right|].
  exists h1, h2, m, k. split_and!; [done|done|done|by rewrite Ekm, Elow|]. rewrite leaves_wider, !map_app. rewrite map_app in H2. eapply rep_perm; [exact H2| |done]. rewrite nodes_wider, addr_left, addr_right. cbn [app]. by rewrite <- !app_assoc.
Qed.

Lemma split_loop_spec pre : forall bt c t d nr, path_ok d c -> shaped (lo_of c) (S DYN_BTREE_ORDER) d t -> ordered (plug c t) -> root bt = addr (plug c t) ->
  rep (heap bt) (nodes (parent_of c) t ++ around c (addr t)) (map fst (leaves (plug c t))) (pre ++ option_list nr) ->
  (full t -> length pre = need c /\ (all_full c -> is_Some nr)) ->
  exists h' t', split_loop bt (addr t) pre nr = Some (with_root (with_heap bt h') (addr t')) /\ rep h' (nodes None t') (map fst (leaves t')) [] /\ ordered t' /\ entries t' = entries (plug c t) /\ exists d', shaped 1 DYN_BTREE_ORDER d' t'.
Proof.
  induction pre as [|rn pre IH]; intros bt c t d nr Hc Ht HO Hroot H Hneed; destruct (rep_at _ _ _ _ (addr t) (parent_of c, (body t).1, (body t).2) H (list_elem_of_here _ _)) as (n & Hn & _); destruct (key_count _ _ _ _ _ _ n H Hn) as [Ekey Epar]; cbn [split_loop]; rewrite Hn; cbn [mbind option_bind]; rewrite Ekey; destruct (Nat.eqb_spec (n_keys t) DYN_BTREE_ORDER) as [Hf|Hf]; cbn [negb].
  1: destruct (Hneed Hf) as [Hl _]; destruct c as [|f c]; cbn [need length] in Hl; [lia|]; destruct (decide _); lia.
  1, 3: destruct (free_all_spec _ bt _ _ [] (eq_rect _ (rep _ _ _) H _ (eq_sym (app_nil_r _)))) as (h' & -> & H'); exists h', (plug c t); split_and!; [by rewrite <- Hroot; destruct bt|eapply rep_perm; [exact H'|by rewrite nodes_plug|done]|done|done|]; eexists; apply (shaped_plug c (lo_of c) d); [done|done|by apply (shaped_not_full _ d)].
  destruct (Hneed Hf) as [Hl Hnr]. cbn [app length] in *. destruct c as [|f c].
  - cbn [need all_full plug around parent_of leaves] in *. destruct pre; [|cbn [length] in Hl; lia]. destruct (Hnr I) as [x ->]. cbn [option_list app] in H. rewrite Epar. destruct (halves_shaped _ _ _ rn Ht Hf) as (S1 & S2 & [k Hk]).
    destruct (split_node_spec (B := Bnd) bt _ d t None [] [] [] rn [x] k Ht Hk) as (h1 & -> & H1); [cbn [app]; rewrite app_nil_r in H; rewrite !app_nil_r; exact H|]. cbn [mbind option_bind fst snd]. rewrite !app_nil_r in H1. cbn [app] in H1. destruct (grow_root_spec (with_heap bt h1) (left_half t) (right_half rn t) _ x k H1) as (h2 & E2 & H2). rewrite addr_left, addr_right in E2. rewrite E2.
    exists h2, (Nd x [k] [left_half t; right_half rn t]). assert (Efl : flat (Nd x [k] [left_half t; right_half rn t]) = flat (left_half t) ++ Sep k :: flat (right_half rn t)) by done. split_and!; [done|cbn [leaves map concat]; by rewrite app_nil_r|split| |].
    + rewrite Efl. pose proof (split_sorted _ d t rn k [] [] Ht Hf Hk) as HS. rewrite !app_nil_r in HS. cbn [app] in HS. by apply HS, HO.
    + rewrite Efl. apply (split_ok 1 d); try done. by apply HO.
    + unfold entries. rewrite Efl. by apply (split_entries 1 d).
    + exists (S d). cbn [shaped length]. split_and!; [lia|vm_compute; lia|done|by repeat constructor].
  - assert (Ht' : shaped min_keys (S DYN_BTREE_ORDER) d t) by done. destruct (split_turn bt c f t d rn (pre ++ option_list nr) Hc Ht' Hf HO H) as (h1 & h2 & m & k & E1 & Hk & Hm & E2 & H2). rewrite E1. cbn [mbind option_bind fst snd heap with_heap]. rewrite Epar. cbn [parent_of]. rewrite Hm. cbn [mbind option_bind]. rewrite E2. cbn [mbind option_bind].
    destruct (ordered_wider d _ c f t k rn Hc Ht' Hf Hk HO) as (HO' & Een & _). destruct (halves_shaped _ _ _ rn Ht' Hf) as (S1 & S2 & _). destruct Hc as (Hfr & Hlen & Hc). set (w := wider f k (left_half t) (right_half rn t)) in *.
    destruct (IH (with_heap bt h2) c w (S d) nr) as (h' & t' & E & H' & HO2 & Een2 & Hd); [done|by apply shaped_wider|done| |done| |].
    + cbn [root with_heap]. rewrite Hroot. cbn [plug]. by apply addr_plug.
    + intros Hfw. assert (Hff : frame_full f). { unfold full, w in Hfw. cbn [wider n_keys] in Hfw. unfold frame_full. rewrite length_app in Hfw |- *. cbn [length] in Hfw. lia. } cbn [need all_full] in Hl, Hnr. rewrite decide_True in Hl by done. split; [lia|]. intros Ha. by apply Hnr.
    + exists h', t'. split; [exact E|]. split_and!; [done|done|by rewrite Een2|done].
Qed.

End Split.

(** ** Allocating beforehand *)

Section Prealloc.
Context {V : Type}.
Implicit Types (t : tree V) (bt : dyn_btree_t V) (f : frame V) (c : list (frame V)).

(** The heap of [bt]. *)
Definition repr bt ns (ls ex : list nat) : Prop := rep (B := fresh_addr bt) (heap bt) ns ls ex.
(** [bt'] is [bt] but for the nodes. *)
Definition same_but_heap bt bt' : Prop := root bt' = root bt /\ count bt' = count bt.

Lemma node_new_spec mem bt leaf ns ls ex : repr bt ns ls ex ->
  (btree_node_new mem bt leaf = (None, bt, tl mem) /\ false ∈ mem) \/
  exists a bt', btree_node_new mem bt leaf = (Some a, bt', tl mem) /\ same_but_heap bt bt' /\ repr bt' ns ls (ex ++ [a]) /\ (forall p, p ∈ dom (heap bt) -> heap bt' !! p = heap bt !! p).
Proof.
  intros H. unfold btree_node_new. destruct mem as [|[] mem]; cbn [hd tl]; [right|right|left; split; [done|by left]].
  all: assert (F : fresh_addr bt ∉ dom (heap bt)) by (intros Hin; rewrite (rep_dom _ _ _ _ H), elem_of_list_to_set in Hin; apply (rep_bound _ _ _ _ H) in Hin; lia); eexists _, _; split; [done|]; split_and!; [done|unfold repr; cbn [heap fresh_addr]; apply rep_alloc; [apply (rep_mono (fresh_addr bt)); [exact H|lia]|done|done|lia]|intros p Hp; cbn [heap]; rewrite lookup_insert_ne; [done|by intros <-]].
Qed.

Lemma prealloc_spec fuel : forall mem bt c t pre ls d, repr bt (nodes (parent_of c) t ++ around c (addr t)) ls pre -> (length c < fuel)%nat ->
  path_ok d c ->
  exists r pre' bt' mem', prealloc fuel mem bt (addr t) pre = Some (r, pre', bt', mem') /\ same_but_heap bt bt' /\ (forall b, b ∈ mem' -> b ∈ mem) /\
    match r with
    | None => repr bt' (nodes (parent_of c) t ++ around c (addr t)) ls [] /\ false ∈ mem
    | Some q => repr bt' (nodes (parent_of c) t ++ around c (addr t)) ls pre' /\ length pre' = (length pre + need c)%nat /\ exists n, heap bt' !! q = Some n /\ (all_full c -> parent n = None)
    end.
Proof.
  induction fuel as [|fuel IH]; intros mem bt c t pre ls d H Hf Hc; [lia|]. cbn [prealloc]. destruct (rep_at _ _ _ _ (addr t) (parent_of c, (body t).1, (body t).2) H (list_elem_of_here _ _)) as (n & Hn & Ecn). rewrite Hn. cbn [mbind option_bind]. assert (Epar : parent n = parent_of c) by (unfold core_of in Ecn; by injection Ecn).
  destruct (node_new_spec mem bt (is_leaf n) _ _ _ H) as [[-> Hmem]|(a & bt1 & -> & (R1 & R2) & H1 & Hsame)].
  { destruct (free_all_spec pre bt _ _ [] (eq_rect _ (rep _ _ _) H _ (eq_sym (app_nil_r _)))) as (h' & -> & H'). cbn [mbind option_bind]. eexists None, _, _, _. split; [done|]. split_and!; [done|intros b Hin; destruct mem; [done|by right]|exact H'|done]. }
  assert (Htl : forall b, b ∈ tl mem -> b ∈ mem) by (intros b Hin; destruct mem; [done|by right]). rewrite Epar. destruct c as [|f c]; cbn [parent_of].
  - eexists (Some (addr t)), _, bt1, _. split; [done|]. split_and!; [by split|done|exact H1|rewrite length_app; cbn [length need]; lia|]. exists n. split; [rewrite Hsame; [done|by eapply elem_of_dom_2]|]. intros _. by rewrite Epar.
  - cbn [around] in H1. set (x := (f_p f, _)) in H1. destruct (rep_at _ _ _ _ (f_p f) x.2 H1) as (m & Hm & Ecm); [apply elem_of_app; right; by left|]. apply core_inner in Ecm as (Ep & Ek & _). rewrite Hm. cbn [mbind option_bind]. rewrite Ek. destruct (Nat.eqb_spec (length (f_kl f ++ f_kr f)) (DYN_BTREE_ORDER - 1)) as [Hff|Hff]; cbn [negb].
    + destruct Hc as (Hfr & Hlen & Hc). cbn [length] in Hf. assert (Ep1 : nodes (Some (f_p f)) t ++ x :: nodes_all (Some (f_p f)) (f_tl f ++ f_tr f) ++ around c (f_p f) ≡ₚ nodes (parent_of c) (plug1 f t) ++ around c (addr (plug1 f t))) by (etransitivity; [symmetry; apply (nodes_plug (f :: c) t)|apply (nodes_plug c (plug1 f t))]).
      destruct (IH (tl mem) bt1 c (plug1 f t) (pre ++ [a]) ls (S d)) as (r & pre' & bt' & mem' & E & (S1 & S2) & Hmem' & Hr); [eapply rep_perm; [exact H1|exact Ep1|done]|lia|done|].
      exists r, pre', bt', mem'. split; [exact E|]. split_and!; [split; congruence|by eauto|]. destruct r as [q|].
      * destruct Hr as (H2 & Hl & n2 & Hn2 & Hp2). split_and!; [eapply rep_perm; [exact H2|by symmetry|done]|rewrite Hl, length_app; cbn [length need]; rewrite decide_True by done; lia|]. exists n2. split; [done|]. intros [_ Ha]. by apply Hp2.
      * destruct Hr as (H2 & Hin). split; [eapply rep_perm; [exact H2|by symmetry|done]|by apply Htl].
    + eexists (Some (f_p f)), _, bt1, _. split; [done|]. split_and!; [by split|done|exact H1|rewrite length_app; cbn [length need]; rewrite decide_False by done; lia|]. exists m. split; [done|]. intros [? _]. done.
Qed.

(** The heap holds exactly the nodes of [t], which is balanced and in order. *)
Record tree_ok bt t : Prop := {
  tk_root : root bt = addr t;
  tk_repr : repr bt (nodes None t) (map fst (leaves t)) [];
  tk_ordered : ordered t;
  tk_shaped : exists d, shaped 1 DYN_BTREE_ORDER d t }.

Lemma btree_split_spec mem bt c t d : path_ok d c -> shaped (lo_of c) (S DYN_BTREE_ORDER) d t -> ordered (plug c t) -> root bt = addr (plug c t) ->
  repr bt (nodes (parent_of c) t ++ around c (addr t)) (map fst (leaves (plug c t))) [] -> (length c < DYN_BTREE_MAX_CHAIN)%nat ->
  exists ok bt' mem', btree_split mem bt (addr t) = Some (ok, bt', mem') /\ count bt' = count bt /\
    if ok : bool then exists t', tree_ok bt' t' /\ entries t' = entries (plug c t)
    else full t /\ false ∈ mem /\ root bt' = root bt /\ repr bt' (nodes (parent_of c) t ++ around c (addr t)) (map fst (leaves (plug c t))) [].
Proof.
  intros Hc Ht HO Hroot H Hlen. destruct (rep_at _ _ _ _ (addr t) (parent_of c, (body t).1, (body t).2) H (list_elem_of_here _ _)) as (n & Hn & _). destruct (key_count _ _ _ _ _ _ n H Hn) as [Ekey Epar]. unfold btree_split. rewrite Hn. cbn [mbind option_bind]. rewrite Ekey. destruct (Nat.eqb_spec (n_keys t) DYN_BTREE_ORDER) as [Hf|Hf]; cbn [negb].
  2: { exists true, bt, mem. split_and!; [done|done|]. exists (plug c t). split; [|done]. split; [done| |done|]; [eapply rep_perm; [exact H|by rewrite nodes_plug|done]|]. eexists. apply (shaped_plug c (lo_of c) d); [done|done|by apply (shaped_not_full _ d)]. }
  destruct (prealloc_spec DYN_BTREE_MAX_CHAIN mem bt c t [] (map fst (leaves (plug c t))) d H Hlen Hc) as (r & pre & bt1 & mem1 & -> & [R1 R2] & Hmem & Hr). cbn [mbind option_bind]. destruct r as [q|].
  2: { destruct Hr as [H1 Hin]. exists false, bt1, mem1. split_and!; done. }
  destruct Hr as (H1 & Hl & m & Hm & Hpm). cbn [length plus] in Hl. rewrite Hm. cbn [mbind option_bind].
  assert (Hloop : forall bt2 nr, root bt2 = root bt -> count bt2 = count bt -> repr bt2 (nodes (parent_of c) t ++ around c (addr t)) (map fst (leaves (plug c t))) (pre ++ option_list nr) -> (all_full c -> is_Some nr) ->
    exists bt', split_loop bt2 (addr t) pre nr = Some bt' /\ count bt' = count bt /\ exists t', tree_ok bt' t' /\ entries t' = entries (plug c t)).
  { intros bt2 nr E1 E2 H2 Hnr. destruct (split_loop_spec pre bt2 c t d nr Hc Ht HO ltac:(congruence) H2) as (h' & t' & -> & H' & HO' & Een & Hd); [intros _; split; [lia|done]|]. eexists. split; [done|]. split; [done|]. exists t'. split; [split; done|done]. }
  destruct (parent m) as [pm|] eqn:Epm.
  - destruct (Hloop bt1 None) as (bt' & -> & E & t' & Htk & Een); [done|done|by rewrite app_nil_r|intros Ha; specialize (Hpm Ha); congruence|]. cbn [mbind option_bind]. exists true, bt', mem1. split_and!; [done|done|by exists t'].
  - destruct (node_new_spec mem1 bt1 false _ _ _ H1) as [[-> Hin]|(a & bt2 & -> & [S1 S2] & H2 & _)].
    + destruct (free_all_spec pre bt1 _ _ [] (eq_rect _ (rep _ _ _) H1 _ (eq_sym (app_nil_r _)))) as (h' & -> & H'). cbn [mbind option_bind]. eexists false, _, _. split; [done|]. split_and!; [done|done|by apply Hmem|done|done].
    + destruct (Hloop bt2 (Some a)) as (bt' & -> & E & t' & Htk & Een); [congruence|congruence|done|by eauto|]. cbn [mbind option_bind]. eexists true, bt', _. split_and!; [done|done|by exists t'].
Qed.
End Prealloc.
