(* ===== verification/BTreeOps.v ===== *)
(** * Search, insertion and deletion in a B+ tree

    A tree is a list of entries in the order of their keys: what a search, an
    insertion and a deletion do to that list. *)
From Stdlib Require Import ZArith Lia List Arith.
From stdpp Require Import base numbers list option gmap sorting.
From S2P Require Import Prelude Doubles BTree BTreeTree BTreeOrder BTreeHeap BTreeSplit.

(** ** Lists of entries *)

Section Assoc.
Context {V : Type}.
Implicit Types L : list (Z * V).

Fixpoint assoc (k : Z) L : option V := match L with [] => None | (a, v) :: L => if o a =? o k then Some v else assoc k L end.
(** The key that is there stays. *)
Fixpoint assoc_set (k : Z) (v : V) L : list (Z * V) :=
  match L with
  | [] => [(k, v)]
  | (a, w) :: L => if o a <? o k then (a, w) :: assoc_set k v L else if o a =? o k then (a, v) :: L else (k, v) :: (a, w) :: L
  end.
Fixpoint assoc_del (k : Z) L : list (Z * V) := match L with [] => [] | (a, v) :: L => if o a =? o k then L else (a, v) :: assoc_del k L end.

Definition all_lt (k : Z) L : Prop := Forall (fun e => o e.1 < o k) L.
Definition all_gt (k : Z) L : Prop := Forall (fun e => o k < o e.1) L.

Lemma assoc_below k l L : all_lt k l -> assoc k (l ++ L) = assoc k L /\ assoc_del k (l ++ L) = l ++ assoc_del k L /\ forall v, assoc_set k v (l ++ L) = l ++ assoc_set k v L.
Proof.
  intros H. induction l as [|[a w] l IH]; [done|]. apply Forall_cons in H as [Ha H]. cbn [fst] in Ha. destruct (IH H) as (E1 & E2 & E3). cbn [app assoc assoc_set assoc_del]. destruct (Z.eqb_spec (o a) (o k)); [lia|]. destruct (Z.ltb_spec (o a) (o k)); [|lia]. rewrite E1, E2. split_and!; [done|done|]. intros v. by rewrite E3.
Qed.

Lemma assoc_above k L : all_gt k L -> assoc k L = None /\ assoc_del k L = L /\ forall v, assoc_set k v L = (k, v) :: L.
Proof.
  intros H. induction L as [|[a w] L IH]; [done|]. apply Forall_cons in H as [Ha H]. cbn [fst] in Ha. destruct (IH H) as (E1 & E2 & _). cbn [assoc assoc_set assoc_del]. destruct (Z.eqb_spec (o a) (o k)); [lia|]. destruct (Z.ltb_spec (o a) (o k)); [lia|]. by rewrite E1, E2.
Qed.

Lemma assoc_here k a w L : o a = o k -> assoc k ((a, w) :: L) = Some w /\ assoc_del k ((a, w) :: L) = L /\ forall v, assoc_set k v ((a, w) :: L) = (a, v) :: L.
Proof. intros E. cbn [assoc assoc_set assoc_del]. rewrite (proj2 (Z.eqb_eq _ _) E). destruct (Z.ltb_spec (o a) (o k)); [lia|done]. Qed.
End Assoc.

Section Ops.
Context {V : Type}.
Implicit Types (t : tree V) (bt : dyn_btree_t V) (c : list (frame V)) (kvs : list (Z * V)).

(** ** Search *)

Lemma depth_nodes lo hi d t par : shaped lo hi d t -> (d < length (nodes par t))%nat.
Proof.
  revert lo hi t par. induction d as [|d IH]; intros lo hi [p kvs|p ks kids] par H; try done; [cbn; lia|]. destruct H as (_ & Hl & HF). destruct kids as [|k0 kids]; [done|]. apply Forall_cons in HF as [Hk _]. rewrite nodes_Nd, nodes_all_cons. cbn [length]. rewrite length_app. specialize (IH _ _ k0 (Some p) Hk). lia.
Qed.

Lemma find_leaf_spec fuel : forall bt c t d k ls, repr bt (nodes (parent_of c) t ++ around c (addr t)) ls [] -> path_ok d c -> shaped (lo_of c) DYN_BTREE_ORDER d t -> ordered (plug c t) -> isnan k = false ->
  Forall (below k) (lefts c) -> Forall (above k) (rights c) -> (d < fuel)%nat ->
  exists c' p kvs, plug c t = plug c' (Lf p kvs) /\ path_ok 0 c' /\ (length kvs < DYN_BTREE_ORDER)%nat /\ find_leaf_loop fuel (heap bt) (addr t) k = Some p /\
    Forall (below k) (lefts c') /\ Forall (above k) (rights c') /\ length c' = (length c + d)%nat.
Proof.
  induction fuel as [|fuel IH]; intros bt c t d k ls H Hc Ht HO Hk HL HR Hf; [lia|]. cbn [find_leaf_loop]. destruct (rep_at _ _ _ _ (addr t) (parent_of c, (body t).1, (body t).2) H (list_elem_of_here _ _)) as (n & Hn & Ecn). rewrite Hn. cbn [mbind option_bind]. destruct d as [|d], t as [p kvs|p ks kids]; try done; cbn [body fst snd addr] in *.
  - apply core_leaf in Ecn as (_ & _ & a & b & ->). exists c, p, kvs. split_and!; (done || lia).
  - apply core_inner in Ecn as (_ & Ek & ->). rewrite Ek. cbv zeta. fold (kid_index ks k). destruct Ht as (Hl & Hkids & HF). destruct HO as [HS HI]. pose proof HS as HS'. pose proof HI as HI'. rewrite (flat_plug (S d)) in HS', HI' by done. cbn [flat] in HS', HI'. rewrite !Forall_app in HI'.
    destruct (descend (map flat kids) ks k (lefts c) (rights c)) as (Hi & Hb & Ha); [by rewrite length_map|done|done|tauto|]. set (i := kid_index ks k) in *. destruct (lookup_lt_is_Some_2 kids i ltac:(lia)) as [kid Hkid]. rewrite list_lookup_fmap, Hkid. cbn [fmap option_fmap option_map mbind option_bind].
    set (f := mk_frame p (take i ks) (take i kids) (drop i ks) (drop (S i) kids)). assert (Ep : plug1 f kid = Nd p ks kids) by (unfold plug1, f; cbn [f_p f_kl f_kr f_tl f_tr]; by rewrite take_drop, take_drop_middle).
    assert (Hfok : frame_ok d f). { unfold frame_ok, f. cbn [f_kl f_kr f_tl f_tr]. rewrite !length_take, !length_drop. split_and!; [lia|lia|]. apply Forall_app. split; [by apply Forall_take|by apply Forall_drop]. }
    destruct (IH bt (f :: c) kid d k ls) as (c' & p' & kvs' & E1 & E2 & E3 & E4 & E5 & E6 & E7).
    + eapply rep_perm; [exact H| |done]. rewrite <- Ep. change p with (addr (plug1 f kid)). rewrite <- (nodes_plug c (plug1 f kid)). apply (nodes_plug (f :: c) kid).
    + cbn [path_ok]. split; [done|]. unfold f. cbn [f_kl f_kr]. by rewrite take_drop.
    + by apply (Forall_lookup_1 _ _ _ _ HF Hkid).
    + cbn [plug]. rewrite Ep. by split.
    + done.
    + cbn [lefts]. apply Forall_app. split; [done|]. unfold f. cbn [f_tl f_kl]. by rewrite <- firstn_map.
    + cbn [rights]. apply Forall_app. split; [|done]. unfold f. cbn [f_tr f_kr]. by rewrite <- skipn_map.
    + lia.
    + exists c', p', kvs'. cbn [plug] in E1. rewrite Ep in E1. cbn [length] in E7. split_and!; (done || lia).
Qed.

(** The leaf where [k] belongs. *)
Record found bt t (k : Z) c (p : nat) kvs (n : btree_node V) : Prop := {
  fd_tree : t = plug c (Lf p kvs);
  fd_path : path_ok 0 c;
  fd_room : (length kvs < DYN_BTREE_ORDER)%nat;
  fd_find : btree_find_leaf bt k = Some p;
  fd_below : Forall (below k) (lefts c);
  fd_above : Forall (above k) (rights c);
  fd_node : heap bt !! p = Some n;
  fd_core : parent n = parent_of c /\ key n = map fst kvs /\ u n = Leaf_u (map snd kvs) (next_of (map fst (rleaves c)) None) (last (map fst (lleaves c)));
  fd_repr : repr bt (nodes (parent_of c) (Lf p kvs) ++ around c p) (map fst (leaves t)) [] }.

Lemma find_found bt t k : tree_ok bt t -> isnan k = false -> exists c p kvs n, found bt t k c p kvs n.
Proof.
  intros [Hroot H HO [d Hd]] Hk. destruct (find_leaf_spec (size (heap bt)) bt [] t d k (map fst (leaves t))) as (c & p & kvs & E1 & E2 & E3 & E4 & E5 & E6 & _); try done; [cbn [around]; by rewrite app_nil_r|rewrite (rep_size _ _ _ _ H); cbn [length]; pose proof (depth_nodes _ _ _ _ None Hd); lia|]. cbn [plug] in E1.
  assert (H' : repr bt (nodes (parent_of c) (Lf p kvs) ++ around c p) (map fst (leaves t)) []) by (eapply rep_perm; [exact H|rewrite E1; apply (nodes_plug c (Lf p kvs))|done]).
  destruct (rep_at _ _ _ _ p (parent_of c, map fst kvs, inl (map snd kvs)) H') as (n & Hn & Ec); [by left|]. apply core_leaf in Ec as (P1 & P2 & a & b & P3). exists c, p, kvs, n. split; try done; [by unfold btree_find_leaf; rewrite Hroot|]. split_and!; [done|done|].
  pose proof (rep_chained _ _ _ _ H') as HL. rewrite E1, leaves_plug, !map_app in HL. cbn [leaves map app fst] in HL. apply chained_app in HL as [_ HL]. destruct (chained_first _ _ _ _ HL) as (n0 & v0 & Hn0 & Eu). assert (n0 = n) as -> by congruence. rewrite P3 in Eu. injection Eu as <- -> ->. rewrite P3. f_equal. by destruct (last _).
Qed.

Definition ents kvs : list (item V) := (fun e => Ent e.1 e.2) <$> kvs.

Lemma ents_sorted kvs L R : StronglySorted before (L ++ ents kvs ++ R) -> StronglySorted key_lt (map fst kvs).
Proof.
  intros HS. apply StronglySorted_app_1_r, StronglySorted_app_1_l in HS. induction kvs as [|[a v] kvs IH]; [constructor|]. cbn in HS |- *. apply StronglySorted_cons in HS as [HF HS]. constructor; [by apply IH|]. apply Forall_forall. intros b Hb. apply list_elem_of_fmap in Hb as ([b' w] & -> & Hb). rewrite Forall_forall in HF. apply (HF (Ent b' w)). apply list_elem_of_fmap. by exists (b', w).
Qed.

Lemma ents_numeric kvs : Forall item_ok (ents kvs) -> numeric (map fst kvs).
Proof. intros H. induction kvs as [|[a v] kvs IH]; [constructor|]. cbn in H |- *. apply Forall_cons in H as [Ha H]. constructor; [done|by apply IH]. Qed.

Lemma below_ents k (l : list (item V)) : Forall (below k) l -> all_lt k (omap ent l).
Proof. intros H. apply Forall_forall. intros [a v] Hin. apply list_elem_of_omap in Hin as (x & Hx & E). rewrite Forall_forall in H. specialize (H x Hx). destruct x; [discriminate|]. injection E as -> ->. exact H. Qed.
Lemma above_ents k (l : list (item V)) : Forall (above k) l -> all_gt k (omap ent l).
Proof. intros H. apply Forall_forall. intros [a v] Hin. apply list_elem_of_omap in Hin as (x & Hx & E). rewrite Forall_forall in H. specialize (H x Hx). destruct x; [discriminate|]. injection E as -> ->. exact H. Qed.

Lemma entries_plug c p kvs : path_ok 0 c -> entries (plug c (Lf p kvs)) = omap ent (lefts c) ++ kvs ++ omap ent (rights c).
Proof. intros Hc. unfold entries. rewrite (flat_plug 0) by done. rewrite !omap_app. cbn [flat]. by rewrite omap_ents. Qed.

Lemma lower_fst kvs k i : i = btree_lower (map fst kvs) k -> numeric (map fst kvs) -> isnan k = false -> StronglySorted key_lt (map fst kvs) ->
  (i <= length kvs)%nat /\ all_lt k (take i kvs) /\
  (bt_at_key (map fst kvs) i k = true /\ (exists a w, kvs !! i = Some (a, w) /\ o a = o k /\ all_gt k (drop (S i) kvs)) \/ bt_at_key (map fst kvs) i k = false /\ all_gt k (drop i kvs)).
Proof.
  intros -> Hn Hk HS. destruct (lower_spec _ k Hn Hk) as (H1 & H2 & H3). set (i := btree_lower _ k) in *. rewrite length_map in H1. split; [done|]. split; [rewrite firstn_map in H2; by rewrite List.Forall_map in H2|]. destruct (bt_at_key _ i k) eqn:E; [left|right]; (split; [done|]).
  - apply bt_at_key_spec in E as (a & Ha & Ea); [|done|done]. pose proof Ha as Ha'. rewrite list_lookup_fmap in Ha. destruct (kvs !! i) as [[a' w]|] eqn:Ei; [|discriminate]. injection Ha as ->. exists a, w. split_and!; [done|done|]. pose proof (sorted_drop_head _ _ _ HS Ha') as HF. rewrite skipn_map in HF. rewrite List.Forall_map in HF. eapply Forall_impl; [exact HF|]. intros [b x]. cbn. lia.
  - destruct (kid_index_spec _ k Hn Hk HS) as (_ & _ & HF). unfold kid_index in HF. cbv zeta in HF. fold i in HF. rewrite E, skipn_map in HF. by rewrite List.Forall_map in HF.
Qed.

(** The entries before the place of [k] and those behind it. *)
Lemma leaf_cut bt t k c p kvs n : found bt t k c p kvs n -> ordered t -> isnan k = false ->
  let i := btree_lower (key n) k in let l := omap ent (lefts c) in let r := omap ent (rights c) in
  (i <= length kvs)%nat /\ entries t = (l ++ take i kvs) ++ drop i kvs ++ r /\ all_lt k (l ++ take i kvs) /\
  (bt_at_key (key n) i k = true /\ (exists a w, kvs !! i = Some (a, w) /\ o a = o k /\ all_gt k (drop (S i) kvs ++ r)) \/ bt_at_key (key n) i k = false /\ all_gt k (drop i kvs ++ r)).
Proof.
  intros F [HS HI] Hk. destruct F as [-> Fp _ _ Fb Fa _ (_ & -> & _) _]. cbv zeta. set (i := btree_lower _ k). rewrite (flat_plug 0) in HS, HI by done. cbn [flat] in HS, HI. change ((fun kv => Ent kv.1 kv.2) <$> kvs) with (ents kvs) in HS, HI. rewrite !Forall_app in HI. destruct HI as (_ & HI & _).
  destruct (lower_fst kvs k i eq_refl (ents_numeric _ HI) Hk (ents_sorted _ _ _ HS)) as (Hi & Hlt & Hcase). pose proof (below_ents k _ Fb) as Hl. pose proof (above_ents k _ Fa) as Hr. split_and!; [done|rewrite entries_plug by done; rewrite <- app_assoc; f_equal; by rewrite app_assoc, take_drop|by apply Forall_app|].
  destruct Hcase as [[E (a & w & Ha & Ea & HG)]|[E HG]]; [left|right]; (split; [done|]); [exists a, w; split_and!; [done|done|by apply Forall_app]|by apply Forall_app].
Qed.

(** What the list of entries answers at the place of [k]. *)
Lemma leaf_assoc bt t k c p kvs n : found bt t k c p kvs n -> ordered t -> isnan k = false ->
  let i := btree_lower (key n) k in let l := omap ent (lefts c) in let r := omap ent (rights c) in
  (i <= length kvs)%nat /\
  (bt_at_key (key n) i k = true /\ (exists a w, kvs !! i = Some (a, w) /\ o a = o k /\ assoc k (entries t) = Some w /\ assoc_del k (entries t) = l ++ delete i kvs ++ r /\ forall v, assoc_set k v (entries t) = l ++ <[i := (a, v)]> kvs ++ r) \/
   bt_at_key (key n) i k = false /\ all_gt k (drop i kvs) /\ assoc k (entries t) = None /\ assoc_del k (entries t) = entries t /\ forall v, assoc_set k v (entries t) = l ++ ins_at kvs i (k, v) ++ r).
Proof.
  intros F HO Hk. destruct (leaf_cut _ _ _ _ _ _ _ F HO Hk) as (Hi & -> & Hlt & Hcase). cbv zeta in *. set (i := btree_lower (key n) k) in *. split; [done|]. destruct (assoc_below k _ (drop i kvs ++ omap ent (rights c)) Hlt) as (-> & -> & Es). destruct Hcase as [[E (a & w & Ha & Ea & HG)]|[E HG]]; [left|right]; (split; [done|]).
  - exists a, w. rewrite (drop_S _ _ _ Ha) in Es |- *. cbn [app] in Es |- *. destruct (assoc_here k a w (drop (S i) kvs ++ omap ent (rights c)) Ea) as (-> & -> & Es'). split_and!; try done.
    + rewrite delete_take_drop. by rewrite <- !app_assoc.
    + intros v. rewrite Es, Es', insert_take_drop by (by eapply lookup_lt_Some). by rewrite <- !app_assoc.
  - destruct (assoc_above k _ HG) as (-> & -> & Es'). split_and!; try done; [by apply Forall_app in HG as [? _]|]. intros v. rewrite Es, Es'. unfold ins_at. by rewrite <- !app_assoc.
Qed.

Lemma get_spec bt t k : tree_ok bt t -> isnan k = false -> dyn_btree_get bt k = Some (assoc k (entries t)).
Proof.
  intros Hok Hk. destruct (find_found bt t k Hok Hk) as (c & p & kvs & n & F). destruct (leaf_assoc _ _ _ _ _ _ _ F (tk_ordered _ _ Hok) Hk) as (Hi & Hcase). unfold dyn_btree_get. rewrite (fd_find _ _ _ _ _ _ _ F). cbn [mbind option_bind]. rewrite (fd_node _ _ _ _ _ _ _ F). cbn [mbind option_bind]. destruct (fd_core _ _ _ _ _ _ _ F) as (_ & _ & ->).
  destruct Hcase as [[-> (a & w & Ha & _ & -> & _)]|(-> & _ & -> & _)]; [|done]. by rewrite list_lookup_fmap, Ha.
Qed.

(** ** Changing a leaf *)

Lemma leaf_update bt t k c p kvs n kvs' : found bt t k c p kvs n -> 
  let n' := mk_node (parent n) (map fst kvs') (Leaf_u (map snd kvs') (next_of (map fst (rleaves c)) None) (last (map fst (lleaves c)))) in
  repr (with_heap bt (<[p := n']> (heap bt))) (nodes (parent_of c) (Lf p kvs') ++ around c p) (map fst (leaves (plug c (Lf p kvs')))) [].
Proof.
  intros F n'. pose proof (fd_repr _ _ _ _ _ _ _ F) as H. destruct F as [-> Fp _ _ _ _ Fn (E1 & E2 & E3) _]. rewrite leaves_plug in H |- *. cbn [leaves] in H |- *. rewrite !map_app in H |- *. cbn [map fst] in H |- *. unfold repr in *. cbn [heap with_heap fresh_addr]. unfold nodes in H |- *. cbn [rest app] in H |- *.
  pose proof (rep_update _ _ _ _ _ _ n n' H Fn) as H'. assert (Ec : core_of n' = (parent_of c, map fst kvs', inl (map snd kvs'))) by (unfold n', core_of; cbn [parent key u]; by rewrite E1). rewrite Ec in H'. apply H'. unfold n', bt_link_of. cbn [u]. by rewrite E3.
Qed.

(** The changed leaf in its tree, when it has room. *)
Lemma leaf_tree_ok bt t k c p kvs n kvs' h x : found bt t k c p kvs n -> tree_ok bt t -> ordered (plug c (Lf p kvs')) -> (length kvs' < DYN_BTREE_ORDER)%nat ->
  repr (with_heap bt h) (nodes (parent_of c) (Lf p kvs') ++ around c p) (map fst (leaves (plug c (Lf p kvs')))) [] -> tree_ok (bt_with_count (with_heap bt h) x) (plug c (Lf p kvs')).
Proof.
  intros F Hok HO Hlen H. split; [|eapply rep_perm; [exact H|symmetry; apply (nodes_plug c (Lf p kvs'))|done]|done|].
  - cbn [root bt_with_count with_heap]. rewrite (tk_root _ _ Hok), (fd_tree _ _ _ _ _ _ _ F). by apply addr_plug.
  - eexists. apply (shaped_plug c (lo_of c) 0); [apply (fd_path _ _ _ _ _ _ _ F)|done|done].
Qed.

Lemma ordered_leaf c p kvs : path_ok 0 c -> ordered (plug c (Lf p kvs)) <-> StronglySorted before (lefts c ++ ents kvs ++ rights c) /\ Forall item_ok (lefts c ++ ents kvs ++ rights c).
Proof. intros Hc. unfold ordered. by rewrite (flat_plug 0) by done. Qed.

Lemma sorted_replace (l1 l2 : list (item V)) a v w : StronglySorted before (l1 ++ Ent a w :: l2) -> StronglySorted before (l1 ++ Ent a v :: l2).
Proof.
  rewrite !StronglySorted_app, !StronglySorted_cons. intros (H1 & H2 & H3 & H4). split_and!; try done. intros x y Hx Hy. apply elem_of_cons in Hy as [-> |Hy]; [|apply H1; [done|by right]]. specialize (H1 x (Ent a w) Hx ltac:(by left)). by destruct x.
Qed.
Lemma sorted_remove (l1 l2 : list (item V)) x : StronglySorted before (l1 ++ x :: l2) -> StronglySorted before (l1 ++ l2).
Proof. rewrite !StronglySorted_app, !StronglySorted_cons. intros (H1 & H2 & _ & H4). split_and!; try done. intros y z Hy Hz. apply H1; [done|by right]. Qed.

Lemma ents_app l1 l2 : ents (l1 ++ l2) = ents l1 ++ ents l2.
Proof. apply fmap_app. Qed.

Lemma ordered_cut c p kvs i a w : path_ok 0 c -> kvs !! i = Some (a, w) -> ordered (plug c (Lf p kvs)) ->
  ordered (plug c (Lf p (delete i kvs))) /\ forall v, ordered (plug c (Lf p (<[i := (a, v)]> kvs))).
Proof.
  intros Hc Ha HO. apply ordered_leaf in HO as [HS HF]; [|done]. rewrite <- (take_drop_middle kvs i _ Ha), ents_app in HS, HF. cbn [ents fmap list_fmap fst snd] in HS, HF. rewrite <- app_assoc, app_assoc in HS, HF. cbn [app] in HS, HF. change (list_fmap _ _ ?f ?l) with (f <$> l) in HS, HF. fold (ents (drop (S i) kvs)) in HS, HF. split; [|intros v]; apply ordered_leaf; try done.
  - rewrite delete_take_drop, ents_app, <- app_assoc, app_assoc. split; [by apply sorted_remove in HS|]. apply Forall_app in HF as [F1 F2]. apply Forall_cons in F2 as [_ F2]. by apply Forall_app.
  - rewrite insert_take_drop by (by eapply lookup_lt_Some). rewrite ents_app. change (ents ((a, v) :: ?l)) with (Ent a v :: ents l). rewrite <- app_assoc, app_assoc. cbn [app]. split; [by apply (sorted_replace _ _ a v w)|]. apply Forall_app in HF as [F1 F2]. apply Forall_cons in F2 as [F3 F2]. apply Forall_app. split; [done|]. by constructor.
Qed.

Lemma all_lt_below k kvs : all_lt k kvs -> Forall (below k) (ents kvs).
Proof. intros H. apply Forall_fmap. eapply Forall_impl; [exact H|]. done. Qed.
Lemma all_gt_above k kvs : all_gt k kvs -> Forall (above k) (ents kvs).
Proof. intros H. apply Forall_fmap. eapply Forall_impl; [exact H|]. done. Qed.

Lemma ordered_insert bt t k c p kvs n v : found bt t k c p kvs n -> ordered t -> isnan k = false -> let i := btree_lower (key n) k in bt_at_key (key n) i k = false -> ordered (plug c (Lf p (ins_at kvs i (k, v)))).
Proof.
  intros F HO Hk i Hat. destruct (leaf_cut _ _ _ _ _ _ _ F HO Hk) as (_ & _ & Hlt & Hcase). cbv zeta in Hlt, Hcase. fold i in Hlt, Hcase. destruct Hcase as [[E _]|[_ Hgt]]; [congruence|]. apply Forall_app in Hlt as [_ Hlt]. apply Forall_app in Hgt as [Hgt _]. pose proof (fd_path _ _ _ _ _ _ _ F) as Hc. rewrite (fd_tree _ _ _ _ _ _ _ F) in HO. apply ordered_leaf in HO as [HS HF]; [|done]. apply ordered_leaf; [done|]. unfold ins_at. rewrite ents_app. change (ents ((k, v) :: ?l)) with (Ent k v :: ents l). rewrite <- (take_drop i kvs), ents_app in HS, HF. rewrite <- app_assoc, app_assoc in HS, HF |- *. cbn [app]. split.
  - apply sorted_insert; [done| |].
    + assert (Hb : Forall (below k) (lefts c ++ ents (take i kvs))) by (apply Forall_app; split; [apply (fd_below _ _ _ _ _ _ _ F)|by apply all_lt_below]). eapply Forall_impl; [exact Hb|]. intros [] Hx; exact Hx.
    + assert (Ha : Forall (above k) (ents (drop i kvs) ++ rights c)) by (apply Forall_app; split; [by apply all_gt_above|apply (fd_above _ _ _ _ _ _ _ F)]). eapply Forall_impl; [exact Ha|]. intros [] Hx; exact Hx.
  - apply Forall_app in HF as [F1 F2]. apply Forall_app. split; [done|]. by constructor.
Qed.

(** ** Insertion *)

Lemma map_ins_at {A B} (g : A -> B) l i x : map g (ins_at l i x) = ins_at (map g l) i (g x).
Proof. unfold ins_at. rewrite map_app. cbn [map]. by rewrite firstn_map, skipn_map. Qed.
Lemma length_ins_at {A} (l : list A) i x : length (ins_at l i x) = S (length l).
Proof. unfold ins_at. rewrite length_app. cbn [length]. rewrite length_take, length_drop. lia. Qed.
Lemma delete_ins_at {A} (l : list A) i x : (i <= length l)%nat -> delete i (ins_at l i x) = l.
Proof. intros Hi. unfold ins_at. transitivity (take i l ++ drop i l); [|apply take_drop]. rewrite <- (delete_middle (take i l) (drop i l) x). f_equal. rewrite length_take. lia. Qed.

(** The number of entries, as 32 bits. *)
Definition counted bt t : Prop := count bt = u32 (Z.of_nat (length (entries t))).
Definition btree_repr bt t : Prop := tree_ok bt t /\ counted bt t.

Lemma path_short bt t k c p kvs n : found bt t k c p kvs n -> tree_ok bt t -> Z.of_nat (size (heap bt)) < 2 ^ 60 -> (length c < DYN_BTREE_MAX_CHAIN)%nat.
Proof.
  intros F Hok Hs. rewrite (rep_size _ _ _ _ (tk_repr _ _ Hok)) in Hs. cbn [length] in Hs. rewrite Nat.add_0_r in Hs. rewrite (fd_tree _ _ _ _ _ _ _ F) in Hs. assert (Hd : shaped 1 DYN_BTREE_ORDER (length c + 0) (plug c (Lf p kvs))) by (apply (shaped_plug c (lo_of c) 0); [apply (fd_path _ _ _ _ _ _ _ F)|done|apply (fd_room _ _ _ _ _ _ _ F)]). apply depth_bound in Hd; [|done]. change DYN_BTREE_MAX_CHAIN with 16%nat. lia.
Qed.

Lemma u32_succ a : u32 (u32 a + 1) = u32 (a + 1).
Proof. unfold u32, wrap. by rewrite Zplus_mod_idemp_l. Qed.
Lemma u32_pred a : u32 (u32 a - 1) = u32 (a - 1).
Proof. unfold u32, wrap. by rewrite Zminus_mod_idemp_l. Qed.

Lemma set_spec mem bt t k v : btree_repr bt t -> isnan k = false -> Z.of_nat (size (heap bt)) < 2 ^ 60 ->
  exists (ok : bool) old bt' mem' t', dyn_btree_set mem bt k v = Some (ok, old, bt', mem') /\ btree_repr bt' t' /\
    if ok then entries t' = assoc_set k v (entries t) /\ old = assoc k (entries t) else entries t' = entries t /\ old = None /\ false ∈ mem.
Proof.
  intros [Hok Hcnt] Hk Hs. destruct (find_found bt t k Hok Hk) as (c & p & kvs & n & F). destruct (leaf_assoc _ _ _ _ _ _ _ F (tk_ordered _ _ Hok) Hk) as (Hi & Hcase). cbv zeta in Hi, Hcase. unfold dyn_btree_set. rewrite (fd_find _ _ _ _ _ _ _ F). cbn [mbind option_bind]. rewrite (fd_node _ _ _ _ _ _ _ F). cbn [mbind option_bind]. destruct (fd_core _ _ _ _ _ _ _ F) as (Epar & Ekey & Eu). rewrite Eu. cbv zeta. set (i := btree_lower (key n) k) in *. pose proof (fd_path _ _ _ _ _ _ _ F) as Hc. pose proof (fd_tree _ _ _ _ _ _ _ F) as Et.
  destruct Hcase as [[Hat (a & w & Ha & Ea & Eg & _ & Es)]|(Hat & _ & Eg & _ & Es)]; rewrite Hat.
  - rewrite list_lookup_fmap, Ha. cbn [fmap option_fmap option_map mbind option_bind snd]. set (kvs' := <[i := (a, v)]> kvs). assert (Ek : key n = map fst kvs') by (unfold kvs'; rewrite (list_fmap_insert fst kvs i (a, v) : map fst _ = _); cbn [fst]; rewrite list_insert_id; [done|]; by rewrite list_lookup_fmap, Ha).
    assert (Ev : <[i := v]> (map snd kvs) = map snd kvs') by (unfold kvs'; by rewrite (list_fmap_insert snd kvs i (a, v) : map snd _ = _)). rewrite Ek, Ev. eexists true, _, _, _, (plug c (Lf p kvs')). split; [done|]. pose proof (leaf_update _ _ _ _ _ _ _ kvs' F) as H'. cbv zeta in H'.
    assert (Hent : entries (plug c (Lf p kvs')) = assoc_set k v (entries t)) by (rewrite entries_plug by done; by rewrite Es). split; [|split; [done|by rewrite Eg]]. split.
    + destruct (leaf_tree_ok _ _ _ _ _ _ _ kvs' _ (count bt) F Hok (proj2 (ordered_cut c p kvs i a w Hc Ha ltac:(rewrite <- Et; apply (tk_ordered _ _ Hok))) v) ltac:(unfold kvs'; rewrite length_insert; apply (fd_room _ _ _ _ _ _ _ F)) H'). by split.
    + unfold counted in *. cbn [count with_heap]. rewrite Hcnt, Hent, Es, Et, entries_plug by done. rewrite !length_app. unfold kvs'. by rewrite length_insert.
  - rewrite Ekey, length_map. destruct (Nat.leb_spec DYN_BTREE_ORDER (length kvs)) as [Hfull|_]; [pose proof (fd_room _ _ _ _ _ _ _ F); lia|]. set (kvs' := ins_at kvs i (k, v)). rewrite <- (map_ins_at fst kvs i (k, v) : _ = ins_at _ i k), <- (map_ins_at snd kvs i (k, v) : _ = ins_at _ i v). fold kvs'. set (n' := mk_node _ _ _). set (h1 := <[p := n']> (heap bt)).
    pose proof (leaf_update _ _ _ _ _ _ _ kvs' F) as H'. cbv zeta in H'. fold n' h1 in H'. pose proof (ordered_insert _ _ _ _ _ _ _ v F (tk_ordered _ _ Hok) Hk Hat) as HO'. fold i kvs' in HO'. assert (Hlen : length kvs' = S (length kvs)) by apply length_ins_at.
    assert (Hent : entries (plug c (Lf p kvs')) = assoc_set k v (entries t)) by (rewrite entries_plug by done; by rewrite Es).
    destruct (btree_split_spec mem (bt_with_count (with_heap bt h1) (u32 (count (with_heap bt h1) + 1))) c (Lf p kvs') 0) as (ok & bt2 & mem2 & E & Ecnt & Hres); [done|cbn [shaped]; pose proof (fd_room _ _ _ _ _ _ _ F); lia|done|cbn [root bt_with_count with_heap]; rewrite (tk_root _ _ Hok), Et; by apply addr_plug|exact H'|by apply (path_short _ _ _ _ _ _ _ F Hok Hs)|].
    cbn [addr] in E. rewrite E. cbn [mbind option_bind]. cbn [count bt_with_count with_heap] in Ecnt. rewrite Hcnt, u32_succ in Ecnt. destruct ok.
    + destruct Hres as (t' & Htk & Een). exists true, None, bt2, mem2, t'. split; [done|]. split; [split; [done|]|split; [by rewrite Een|by rewrite Eg]]. unfold counted. rewrite Ecnt, Een, Hent, Es, Et, entries_plug by done. rewrite !length_app. fold kvs'. rewrite Hlen. f_equal. lia.
    + destruct Hres as (_ & Hin & Eroot & H2). destruct (rep_at _ _ _ _ p (parent_of c, map fst kvs', inl (map snd kvs')) H2) as (n2 & Hn2 & Ec2); [by left|]. apply core_leaf in Ec2 as (P1 & P2 & x & y & P3). rewrite Hn2. cbn [mbind option_bind]. rewrite P3, P2. unfold kvs' at 1 2. rewrite !map_ins_at. cbn [fst snd]. rewrite !delete_ins_at by (by rewrite length_map). set (n3 := mk_node _ _ _).
      eexists false, None, _, mem2, t. split; [done|]. split; [|done]. unfold repr, nodes in H2. cbn [rest app] in H2. pose proof (rep_update _ _ _ _ _ _ n2 n3 H2 Hn2 ltac:(unfold n3, bt_link_of; cbn [u]; by rewrite P3)) as H3. assert (Ec3 : core_of n3 = (parent_of c, map fst kvs, inl (map snd kvs))) by (unfold n3, core_of; cbn [parent key u]; by rewrite P1). rewrite Ec3 in H3. split; [split|].
      * cbn [root bt_with_count with_heap]. rewrite Eroot. cbn [root bt_with_count with_heap]. apply (tk_root _ _ Hok).
      * rewrite Et. assert (El : map fst (leaves (plug c (Lf p kvs'))) = map fst (leaves (plug c (Lf p kvs)))) by (rewrite !leaves_plug; cbn [leaves]; by rewrite !map_app). rewrite El in H3. eapply rep_perm; [exact H3|symmetry; apply (nodes_plug c (Lf p kvs))|done].
      * apply (tk_ordered _ _ Hok).
      * apply (tk_shaped _ _ Hok).
      * unfold counted. cbn [count bt_with_count with_heap]. rewrite Ecnt, u32_pred. f_equal. lia.
Qed.

Lemma del_spec bt t k : btree_repr bt t -> isnan k = false -> exists bt' t', dyn_btree_del bt k = Some (assoc k (entries t), bt') /\ btree_repr bt' t' /\ entries t' = assoc_del k (entries t).
Proof.
  intros [Hok Hcnt] Hk. destruct (find_found bt t k Hok Hk) as (c & p & kvs & n & F). destruct (leaf_assoc _ _ _ _ _ _ _ F (tk_ordered _ _ Hok) Hk) as (Hi & Hcase). cbv zeta in Hi, Hcase. unfold dyn_btree_del. rewrite (fd_find _ _ _ _ _ _ _ F). cbn [mbind option_bind]. rewrite (fd_node _ _ _ _ _ _ _ F). cbn [mbind option_bind]. destruct (fd_core _ _ _ _ _ _ _ F) as (Epar & Ekey & Eu). cbv zeta. set (i := btree_lower (key n) k) in *. pose proof (fd_path _ _ _ _ _ _ _ F) as Hc. pose proof (fd_tree _ _ _ _ _ _ _ F) as Et.
  destruct Hcase as [[Hat (a & w & Ha & Ea & Eg & Ed & _)]|(Hat & _ & Eg & Ed & _)]; rewrite Hat; cbn [negb]; [|exists bt, t; by rewrite Eg, Ed].
  rewrite Eu, list_lookup_fmap, Ha. cbn [fmap option_fmap option_map mbind option_bind snd]. assert (Edel : forall (X : Type) (g : Z * V -> X), delete i (map g kvs) = map g (delete i kvs)) by (intros X g; by rewrite !delete_take_drop, map_app, firstn_map, skipn_map). rewrite Ekey, !Edel. set (kvs' := delete i kvs).
  pose proof (leaf_update _ _ _ _ _ _ _ kvs' F) as H'. cbv zeta in H'. assert (Hlen : S (length kvs') = length kvs) by (unfold kvs'; rewrite length_delete by (by eexists); pose proof (lookup_lt_Some _ _ _ Ha); lia). pose proof (fd_room _ _ _ _ _ _ _ F).
  eexists _, (plug c (Lf p kvs')). split; [by rewrite Eg|]. assert (Hent : entries (plug c (Lf p kvs')) = assoc_del k (entries t)) by (rewrite entries_plug by done; by rewrite Ed). split; [|done]. split.
  - apply (leaf_tree_ok _ _ _ _ _ _ _ kvs' _ _ F Hok); [|lia|exact H']. apply (ordered_cut c p kvs i a w Hc Ha). rewrite <- Et. apply (tk_ordered _ _ Hok).
  - unfold counted in *. cbn [count bt_with_count with_heap]. rewrite Hcnt, u32_pred, Hent, Ed, Et, entries_plug by done. rewrite !length_app. fold kvs'. f_equal. lia.
Qed.
End Ops.
