(* ===== verification/BTreeWalk.v ===== *)
(** * Walks along the leaves of a B+ tree

    The linked leaves hold the entries in the order of their keys; leaves may be
    empty after deletions, and every walk skips them. *)
From Stdlib Require Import ZArith Lia List Arith.
From stdpp Require Import base numbers list option gmap sorting.
From S2P Require Import Prelude Doubles BTree BTreeTree BTreeOrder BTreeHeap BTreeSplit BTreeOps.

Section Walk.
Context {V : Type}.
Implicit Types (t : tree V) (bt : dyn_btree_t V) (c : list (frame V)) (kvs : list (Z * V)) (la lb : list (nat * list (Z * V))).

Definition flat_of la : list (Z * V) := concat (map snd la).

Lemma flat_of_app la lb : flat_of (la ++ lb) = flat_of la ++ flat_of lb.
Proof. unfold flat_of. by rewrite map_app, concat_app. Qed.
Lemma flat_of_cons p kvs lb : flat_of ((p, kvs) :: lb) = kvs ++ flat_of lb.
Proof. done. Qed.

Lemma leaf_in_nodes lo hi d t par p kvs : shaped lo hi d t -> (p, kvs) ∈ leaves t -> exists par', (p, (par', map fst kvs, inl (map snd kvs))) ∈ nodes par t.
Proof.
  revert lo hi t par. induction d as [|d IH]; intros lo hi [q kvs'|q ks kids] par H Hin; try done; cbn [leaves] in Hin.
  - apply list_elem_of_singleton in Hin as [= -> ->]. exists par. by left.
  - destruct H as (_ & _ & HF). apply list_elem_of_In, in_concat in Hin as (l & Hl & Hin). apply in_map_iff in Hl as (kid & <- & Hkid). apply list_elem_of_In in Hin. apply list_elem_of_In in Hkid. rewrite Forall_forall in HF. destruct (IH _ _ kid (Some q) (HF _ Hkid) Hin) as (par' & Hp). exists par'. rewrite nodes_Nd. right. unfold nodes_all. apply list_elem_of_In, in_concat. exists (nodes (Some q) kid). split; [|by apply list_elem_of_In]. apply in_map_iff. exists kid. split; [done|by apply list_elem_of_In].
Qed.

Lemma leaf_facts bt t la p kvs lb : tree_ok bt t -> leaves t = la ++ (p, kvs) :: lb ->
  exists n, heap bt !! p = Some n /\ key n = map fst kvs /\ u n = Leaf_u (map snd kvs) (next_of (map fst lb) None) (last (map fst la)).
Proof.
  intros [_ H _ [d Hd]] E. destruct (leaf_in_nodes _ _ _ _ None p kvs Hd) as (par & Hin); [rewrite E; apply elem_of_app; right; by left|]. destruct (rep_at _ _ _ _ _ _ H Hin) as (n & Hn & Ec). apply core_leaf in Ec as (_ & Ek & a & b & Eu). exists n. split_and!; [done|done|]. pose proof (rep_chained _ _ _ _ H) as HL. rewrite E, map_app in HL. cbn [map fst] in HL. apply chained_app in HL as [_ HL]. destruct (chained_first _ _ _ _ HL) as (n0 & v0 & Hn0 & Eu0). assert (n0 = n) as -> by congruence. rewrite Eu in Eu0. injection Eu0 as <- -> ->. rewrite Eu. f_equal. by destruct (last _).
Qed.

Lemma leaves_size bt t : tree_ok bt t -> (length (leaves t) <= size (heap bt))%nat.
Proof.
  intros [_ H _ _]. rewrite (rep_size _ _ _ _ H). cbn [length]. rewrite <- (length_map fst (leaves t)), <- (length_map fst (nodes None t)), Nat.add_0_r. apply submseteq_length, NoDup_submseteq; [apply (rep_ls _ _ _ _ H)|apply (rep_sub _ _ _ _ H)].
Qed.

Lemma entries_flat bt t : tree_ok bt t -> entries t = flat_of (leaves t).
Proof. intros [_ _ _ [d Hd]]. by apply (entries_leaves _ _ _ _ Hd). Qed.

(** ** Skipping empty leaves *)

Lemma skip_next bt t lb : tree_ok bt t -> forall la fuel, leaves t = la ++ lb -> (length lb < fuel)%nat ->
  exists r, skip_empty fuel (heap bt) (leaf_next (heap bt)) (next_of (map fst lb) None) = Some r /\
    match r with None => flat_of lb = [] | Some p => exists lb1 kvs lb2, lb = lb1 ++ (p, kvs) :: lb2 /\ flat_of lb1 = [] /\ kvs <> [] end.
Proof.
  intros Hok. induction lb as [|[p kvs] lb IH]; intros la fuel E Hf; [exists None; by destruct fuel|]. destruct fuel as [|fuel]; [cbn in Hf; lia|]. cbn [map fst next_of skip_empty]. destruct (leaf_facts _ _ _ _ _ _ Hok E) as (n & Hn & Ek & Eu). rewrite Hn. cbn [mbind option_bind]. rewrite Ek, length_map. destruct (Nat.eqb_spec (length kvs) 0) as [H0|H0].
  - apply nil_length_inv in H0 as ->. assert (En : leaf_next (heap bt) p = Some (next_of (map fst lb) None)) by (unfold leaf_next; rewrite Hn; cbn [mbind option_bind]; by rewrite Eu). rewrite En. cbn [mbind option_bind]. destruct (IH (la ++ [(p, [])]) fuel) as (r & Er & Hr); [by rewrite <- app_assoc|cbn in Hf; lia|]. exists r. split; [done|]. destruct r as [q|]; [|done]. destruct Hr as (lb1 & kvs & lb2 & -> & H1 & H2). exists ((p, []) :: lb1), kvs, lb2. done.
  - exists (Some p). split; [done|]. exists [], kvs, lb. split_and!; [done|done|]. by intros ->.
Qed.

Lemma skip_prev bt t la : tree_ok bt t -> forall lb fuel, leaves t = la ++ lb -> (length la < fuel)%nat ->
  exists r, skip_empty fuel (heap bt) (leaf_prev (heap bt)) (last (map fst la)) = Some r /\
    match r with None => flat_of la = [] | Some p => exists la1 kvs la2, la = la1 ++ (p, kvs) :: la2 /\ flat_of la2 = [] /\ kvs <> [] end.
Proof.
  intros Hok. induction la as [|[p kvs] la IH] using rev_ind; intros lb fuel E Hf; [exists None; by destruct fuel|]. rewrite length_app in Hf. cbn [length] in Hf. destruct fuel as [|fuel]; [lia|]. rewrite map_app. cbn [map fst]. rewrite last_snoc. cbn [skip_empty]. rewrite <- app_assoc in E. destruct (leaf_facts _ _ _ _ _ _ Hok E) as (n & Hn & Ek & Eu). rewrite Hn. cbn [mbind option_bind]. rewrite Ek, length_map. destruct (Nat.eqb_spec (length kvs) 0) as [H0|H0].
  - apply nil_length_inv in H0 as ->. assert (En : leaf_prev (heap bt) p = Some (last (map fst la))) by (unfold leaf_prev; rewrite Hn; cbn [mbind option_bind]; by rewrite Eu). rewrite En. cbn [mbind option_bind]. destruct (IH _ fuel E) as (r & Er & Hr); [lia|]. exists r. split; [done|]. destruct r as [q|]; [|by rewrite flat_of_app, Hr]. destruct Hr as (la1 & kvs & la2 & -> & H1 & H2). exists la1, kvs, (la2 ++ [(p, [])]). split_and!; [by rewrite <- app_assoc|by rewrite flat_of_app, H1|done].
  - exists (Some p). split; [done|]. exists la, kvs, []. split_and!; [done|done|]. by intros ->.
Qed.

(** ** The first and the last leaf *)

Lemma end_loop_spec (right : bool) (h : gmap nat (btree_node V)) fuel : forall lo hi d t par, shaped lo hi d t -> (forall x, x ∈ nodes par t -> (core_of <$> h !! x.1) = Some x.2) -> (d < fuel)%nat ->
  exists p, end_loop fuel h (addr t) right = Some p /\ (if right then last (map fst (leaves t)) else hd_error (map fst (leaves t))) = Some p.
Proof.
  induction fuel as [|fuel IH]; intros lo hi d t par Ht Hh Hf; [lia|]. cbn [end_loop]. pose proof (Hh (head_core par t) ltac:(by left)) as Hc. cbn [head_core fst snd] in Hc. destruct (h !! addr t) as [n|] eqn:Hn; [|discriminate]. cbn [mbind option_bind]. cbn [fmap option_fmap option_map] in Hc. apply (inj Some) in Hc. destruct d as [|d], t as [p kvs|p ks kids]; try done; cbn [body fst snd addr leaves] in *.
  - apply core_leaf in Hc as (_ & _ & a & b & ->). exists p. by destruct right.
  - apply core_inner in Hc as (_ & Ek & ->). rewrite Ek. destruct Ht as (_ & Hl & HF). set (i := if right then length ks else 0%nat). destruct (lookup_lt_is_Some_2 kids i) as [kid Hkid]; [unfold i; destruct right; lia|]. rewrite list_lookup_fmap, Hkid. cbn [fmap option_fmap option_map mbind option_bind]. pose proof (Forall_lookup_1 _ _ _ _ HF Hkid) as Hks.
    destruct (IH _ _ d kid (Some p) Hks) as (q & Eq & Hq); [|lia|]. { intros x Hx. apply Hh. rewrite nodes_Nd. right. unfold nodes_all. apply list_elem_of_In, in_concat. exists (nodes (Some p) kid). split; [|by apply list_elem_of_In]. apply in_map, list_elem_of_In. by eapply list_elem_of_lookup_2. }
    exists q. split; [done|]. rewrite <- (take_drop_middle kids i kid Hkid), map_app, concat_app. cbn [map concat]. pose proof (leaves_nonempty _ _ _ _ Hks) as Hne. unfold i. destruct right.
    + rewrite (drop_ge kids) by lia. cbn [map concat]. rewrite app_nil_r, map_app, last_app. destruct (last (map fst (leaves kid))); [done|discriminate].
    + cbn [take map concat app]. rewrite map_app. destruct (leaves kid); done.
Qed.

Lemma end_leaf bt t (right : bool) : tree_ok bt t -> exists p, end_loop (size (heap bt)) (heap bt) (root bt) right = Some p /\ (if right then last (map fst (leaves t)) else hd_error (map fst (leaves t))) = Some p.
Proof.
  intros [Hroot H _ [d Hd]]. rewrite Hroot. apply (end_loop_spec right (heap bt) _ _ _ d t None Hd).
  - intros x Hx. pose proof (rep_holds _ _ _ _ H) as Hh. unfold holds in Hh. rewrite Forall_forall in Hh. by apply Hh.
  - rewrite (rep_size _ _ _ _ H). pose proof (depth_nodes _ _ _ _ None Hd). lia.
Qed.

(** ** Iterators *)

(** The entries that an iterator has still to give. *)
Definition iter_at t (it : dyn_btree_iter) (S : list (Z * V)) : Prop :=
  match it_leaf it with
  | None => S = []
  | Some p => exists la kvs lb, leaves t = la ++ (p, kvs) :: lb /\ (it_i it < length kvs)%nat /\ S = drop (it_i it) kvs ++ flat_of lb
  end.

Lemma iter_get_spec bt t it S : tree_ok bt t -> iter_at t it S -> dyn_btree_iter_get bt it = Some (hd_error S).
Proof.
  intros Hok H. unfold iter_at, dyn_btree_iter_get in *. destruct (it_leaf it) as [p|]; [|by rewrite H]. destruct H as (la & kvs & lb & E & Hi & ->). destruct (leaf_facts _ _ _ _ _ _ Hok E) as (n & -> & Ek & Eu). cbn [mbind option_bind]. rewrite Ek, Eu. destruct (lookup_lt_is_Some_2 kvs _ Hi) as [[k v] Hkv]. rewrite !list_lookup_fmap, Hkv. cbn [fmap option_fmap option_map mbind option_bind fst snd]. by rewrite (drop_S _ _ _ Hkv).
Qed.

Lemma skip_iter bt t la lb fuel : tree_ok bt t -> leaves t = la ++ lb -> (length lb < fuel)%nat ->
  exists r, skip_empty fuel (heap bt) (leaf_next (heap bt)) (next_of (map fst lb) None) = Some r /\ iter_at t (mk_iter r 0) (flat_of lb).
Proof.
  intros Hok E Hf. destruct (skip_next bt t lb Hok la fuel E Hf) as (r & Er & Hr). exists r. split; [done|]. destruct r as [p|]; [|done]. destruct Hr as (lb1 & kvs & lb2 & -> & H1 & H2). unfold iter_at. cbn [it_leaf it_i]. exists (la ++ lb1), kvs, lb2. split_and!; [by rewrite E, <- app_assoc|destruct kvs; [done|cbn; lia]|]. rewrite flat_of_app, H1. done.
Qed.

Lemma begin_spec bt t : tree_ok bt t -> exists it, dyn_btree_iter_begin bt = Some it /\ iter_at t it (entries t).
Proof.
  intros Hok. destruct (end_leaf bt t false Hok) as (p & Ep & Hp). unfold dyn_btree_iter_begin, btree_leftmost. rewrite Ep. cbn [mbind option_bind]. destruct (skip_iter bt t [] (leaves t) (S (size (heap bt))) Hok eq_refl) as (r & Er & Hr); [pose proof (leaves_size bt t Hok); lia|]. assert (En : next_of (map fst (leaves t)) None = Some p) by (destruct (leaves t); [done|exact Hp]). rewrite En in Er. rewrite Er. cbn [mbind option_bind]. eexists. split; [done|]. by rewrite (entries_flat bt t Hok).
Qed.

Lemma iter_next_loop_spec bt t lb : tree_ok bt t -> forall la fuel, leaves t = la ++ lb -> (length lb < fuel)%nat -> exists it, iter_next_loop fuel (heap bt) (next_of (map fst lb) None) 0 = Some it /\ iter_at t it (flat_of lb).
Proof.
  intros Hok. induction lb as [|[p kvs] lb IH]; intros la fuel E Hf; [exists (mk_iter None 0); by destruct fuel|]. destruct fuel as [|fuel]; [cbn in Hf; lia|]. cbn [map fst next_of iter_next_loop]. destruct (leaf_facts _ _ _ _ _ _ Hok E) as (n & Hn & Ek & Eu). rewrite Hn. cbn [mbind option_bind]. rewrite Ek, length_map. destruct (Nat.leb_spec (length kvs) 0) as [H0|H0].
  - assert (kvs = []) as -> by (apply nil_length_inv; lia). assert (En : leaf_next (heap bt) p = Some (next_of (map fst lb) None)) by (unfold leaf_next; rewrite Hn; cbn [mbind option_bind]; by rewrite Eu). rewrite En. cbn [mbind option_bind]. apply (IH (la ++ [(p, [])])); [by rewrite <- app_assoc|cbn in Hf; lia].
  - eexists. split; [done|]. unfold iter_at. cbn [it_leaf it_i]. by exists la, kvs, lb.
Qed.

Lemma bt_iter_next_spec bt t it L : tree_ok bt t -> iter_at t it L -> exists it', dyn_btree_iter_next bt it = Some it' /\ iter_at t it' (tl L).
Proof.
  intros Hok H. unfold dyn_btree_iter_next. destruct it as [[p|] i]; cbn [it_leaf it_i] in *; [|exists (mk_iter None i); split; [done|]; unfold iter_at in *; cbn [it_leaf] in *; by rewrite H]. destruct H as (la & kvs & lb & E & Hi & ->). cbn [it_i] in Hi |- *. destruct (lookup_lt_is_Some_2 kvs i Hi) as [x Hx]. rewrite (drop_S _ _ _ Hx). cbn [app tl iter_next_loop]. destruct (leaf_facts _ _ _ _ _ _ Hok E) as (n & Hn & Ek & Eu). rewrite Hn. cbn [mbind option_bind]. rewrite Ek, length_map. destruct (Nat.leb_spec (length kvs) (S i)) as [Hge|Hlt].
  - assert (En : leaf_next (heap bt) p = Some (next_of (map fst lb) None)) by (unfold leaf_next; rewrite Hn; cbn [mbind option_bind]; by rewrite Eu). rewrite En. cbn [mbind option_bind]. rewrite (drop_ge kvs) by lia. apply (iter_next_loop_spec bt t lb Hok (la ++ [(p, kvs)])); [by rewrite <- app_assoc|]. pose proof (leaves_size bt t Hok) as Hs. rewrite E, length_app in Hs. cbn [length] in Hs. lia.
  - eexists. split; [done|]. unfold iter_at. cbn [it_leaf it_i]. by exists la, kvs, lb.
Qed.

(** ** Searching for a neighbour *)

Definition from (k : Z) (L : list (Z * V)) : list (Z * V) := filter (fun e => o k <= o e.1) L.
Definition upto (k : Z) (L : list (Z * V)) : list (Z * V) := filter (fun e => o e.1 <= o k) L.

Lemma filter_all {A} (P : A -> Prop) `{!forall x, Decision (P x)} l : Forall P l -> filter P l = l.
Proof. induction 1 as [|x l Hx Hl IH]; [done|]. rewrite filter_cons_True by done. by rewrite IH. Qed.
Lemma filter_none {A} (P : A -> Prop) `{!forall x, Decision (P x)} l : Forall (fun x => ~ P x) l -> filter P l = [].
Proof. induction 1 as [|x l Hx Hl IH]; [done|]. by rewrite filter_cons_False. Qed.

Lemma rights_leaves d c : path_ok d c -> omap ent (rights c) = flat_of (rleaves c).
Proof.
  revert d. induction c as [|f c IH]; intros d Hc; [done|]. destruct Hc as ((H1 & H2 & H3) & _ & Hc). cbn [rights rleaves]. rewrite omap_app, flat_of_app, (IH (S d)) by done. f_equal. apply Forall_app in H3 as [_ H3]. clear - H2 H3. revert H2 H3. generalize (f_kr f). induction (f_tr f) as [|t ts IHt]; intros ks H2 H3; [by destruct ks|]. destruct ks as [|k ks]; [discriminate|]. apply Forall_cons in H3 as [Ht H3]. cbn [map weave_r concat]. change (omap ent (Sep k :: ?l)) with (omap ent l). rewrite omap_app, flat_of_app. f_equal; [by apply (entries_leaves _ _ _ t Ht)|]. apply IHt; [by injection H2|done].
Qed.

Lemma lefts_leaves d c : path_ok d c -> omap ent (lefts c) = flat_of (lleaves c).
Proof.
  revert d. induction c as [|f c IH]; intros d Hc; [done|]. destruct Hc as ((H1 & H2 & H3) & _ & Hc). cbn [lefts lleaves]. rewrite omap_app, flat_of_app, (IH (S d)) by done. f_equal. apply Forall_app in H3 as [H3 _]. clear - H1 H3. revert H1 H3. generalize (f_kl f). induction (f_tl f) as [|t ts IHt]; intros ks H2 H3; [by destruct ks|]. destruct ks as [|k ks]; [discriminate|]. apply Forall_cons in H3 as [Ht H3]. cbn [map weave_l concat]. rewrite omap_app. change (omap ent (Sep k :: ?l)) with (omap ent l). rewrite flat_of_app. f_equal; [by apply (entries_leaves _ _ _ t Ht)|]. apply IHt; [by injection H2|done].
Qed.

(** The leaf of [k] among the leaves, and the entries from [k] on. *)
Lemma found_leaves bt t k c p kvs n : found bt t k c p kvs n -> tree_ok bt t -> isnan k = false -> let i := btree_lower (key n) k in
  leaves t = lleaves c ++ (p, kvs) :: rleaves c /\ (i <= length kvs)%nat /\ from k (entries t) = drop i kvs ++ flat_of (rleaves c) /\
  (bt_at_key (key n) i k = true /\ (exists a w, kvs !! i = Some (a, w) /\ o a = o k /\ last (upto k (entries t)) = Some (a, w)) \/ bt_at_key (key n) i k = false /\ upto k (entries t) = flat_of (lleaves c) ++ take i kvs).
Proof.
  intros F Hok Hk i. destruct (leaf_cut _ _ _ _ _ _ _ F (tk_ordered _ _ Hok) Hk) as (Hi & -> & Hlt & Hcase). cbv zeta in Hi, Hlt, Hcase. fold i in Hi, Hlt, Hcase |- *. pose proof (fd_path _ _ _ _ _ _ _ F) as Hc. rewrite (rights_leaves 0 c Hc) in *. rewrite (lefts_leaves 0 c Hc) in *. split; [rewrite (fd_tree _ _ _ _ _ _ _ F), leaves_plug; done|]. split; [done|].
  unfold from, upto. rewrite !(filter_app _ (flat_of (lleaves c) ++ take i kvs)). rewrite (filter_none (fun e => o k <= o e.1) (flat_of (lleaves c) ++ take i kvs)) by (eapply Forall_impl; [exact Hlt|]; cbn; lia). rewrite (filter_all (fun e => o e.1 <= o k) (flat_of (lleaves c) ++ take i kvs)) by (eapply Forall_impl; [exact Hlt|]; cbn; lia). cbn [app].
  destruct Hcase as [[E (a & w & Ha & Ea & HG)]|[E HG]].
  - rewrite (drop_S _ _ _ Ha). cbn [app]. rewrite filter_cons_True by (cbn; lia). rewrite filter_cons_True by (cbn; lia). rewrite filter_all by (eapply Forall_impl; [exact HG|]; cbn; lia). rewrite filter_none by (eapply Forall_impl; [exact HG|]; cbn; lia). split; [done|]. left. split; [done|]. exists a, w. split_and!; [done|done|]. by rewrite last_snoc.
  - rewrite filter_all by (eapply Forall_impl; [exact HG|]; cbn; lia). rewrite filter_none by (eapply Forall_impl; [exact HG|]; cbn; lia). split; [done|]. right. split; [done|]. by rewrite app_nil_r.
Qed.

Lemma seek_spec bt t k : tree_ok bt t -> isnan k = false -> exists it, dyn_btree_iter_seek bt k = Some it /\ iter_at t it (from k (entries t)).
Proof.
  intros Hok Hk. destruct (find_found bt t k Hok Hk) as (c & p & kvs & n & F). destruct (found_leaves _ _ _ _ _ _ _ F Hok Hk) as (E & Hi & -> & _). cbv zeta in Hi |- *. unfold dyn_btree_iter_seek. rewrite (fd_find _ _ _ _ _ _ _ F). cbn [mbind option_bind]. rewrite (fd_node _ _ _ _ _ _ _ F). cbn [mbind option_bind]. destruct (fd_core _ _ _ _ _ _ _ F) as (_ & Ek & Eu). cbv zeta. set (i := btree_lower (key n) k) in *. rewrite Ek, length_map. destruct (Nat.leb_spec (length kvs) i) as [Hge|Hlt].
  - assert (En : leaf_next (heap bt) p = Some (next_of (map fst (rleaves c)) None)) by (unfold leaf_next; rewrite (fd_node _ _ _ _ _ _ _ F); cbn [mbind option_bind]; by rewrite Eu). rewrite En. cbn [mbind option_bind]. destruct (skip_iter bt t (lleaves c ++ [(p, kvs)]) (rleaves c) (S (size (heap bt))) Hok) as (r & -> & Hr); [by rewrite E, <- app_assoc|pose proof (leaves_size bt t Hok) as Hs; rewrite E, length_app in Hs; cbn [length] in Hs; lia|]. cbn [mbind option_bind]. eexists. split; [done|]. by rewrite drop_ge by lia.
  - eexists. split; [done|]. unfold iter_at. cbn [it_leaf it_i]. by exists (lleaves c), kvs, (rleaves c).
Qed.

Lemma first_spec bt t : tree_ok bt t -> dyn_btree_first bt = Some (option_map fst (hd_error (entries t))).
Proof. intros Hok. destruct (begin_spec bt t Hok) as (it & E & Hit). unfold dyn_btree_first. rewrite E. cbn [mbind option_bind]. by rewrite (iter_get_spec bt t it _ Hok Hit). Qed.

Lemma ceil_spec bt t k : tree_ok bt t -> isnan k = false -> dyn_btree_ceil bt k = Some (option_map fst (hd_error (from k (entries t)))).
Proof. intros Hok Hk. destruct (seek_spec bt t k Hok Hk) as (it & E & Hit). unfold dyn_btree_ceil. rewrite E. cbn [mbind option_bind]. by rewrite (iter_get_spec bt t it _ Hok Hit). Qed.

(** The greatest key of the leaves [la]. *)
Lemma last_of_leaves bt t la lb fuel : tree_ok bt t -> leaves t = la ++ lb -> (length la < fuel)%nat ->
  (q ← skip_empty fuel (heap bt) (leaf_prev (heap bt)) (last (map fst la)); match q with None => Some None | Some p => n ← heap bt !! p; Some <$> key n !! (length (key n) - 1)%nat end) = Some (option_map fst (last (flat_of la))).
Proof.
  intros Hok E Hf. destruct (skip_prev bt t la Hok lb fuel E Hf) as (r & -> & Hr). cbn [mbind option_bind]. destruct r as [p|]; [|by rewrite Hr]. destruct Hr as (la1 & kvs & la2 & -> & H1 & H2). rewrite <- app_assoc in E. destruct (leaf_facts _ _ _ _ _ _ Hok E) as (n & -> & Ek & _). cbn [mbind option_bind]. rewrite Ek, length_map, list_lookup_fmap, flat_of_app, flat_of_cons, H1, app_nil_r, last_app. replace (length kvs - 1)%nat with (pred (length kvs)) by lia. rewrite <- last_lookup. destruct (last kvs) as [e|] eqn:El; [done|]. by apply last_None in El.
Qed.

Lemma last_spec bt t : tree_ok bt t -> dyn_btree_last bt = Some (option_map fst (last (entries t))).
Proof.
  intros Hok. destruct (end_leaf bt t true Hok) as (p & Ep & Hp). unfold dyn_btree_last. rewrite Ep. cbn [mbind option_bind]. rewrite <- Hp, (entries_flat bt t Hok). apply (last_of_leaves bt t (leaves t) []); [done|by rewrite app_nil_r|pose proof (leaves_size bt t Hok); lia].
Qed.

Lemma floor_spec bt t k : tree_ok bt t -> isnan k = false -> exists r, dyn_btree_floor bt k = Some r /\ option_map o r = option_map (fun e => o e.1) (last (upto k (entries t))).
Proof.
  intros Hok Hk. destruct (find_found bt t k Hok Hk) as (c & p & kvs & n & F). destruct (found_leaves _ _ _ _ _ _ _ F Hok Hk) as (E & Hi & _ & Hcase). cbv zeta in Hi, Hcase. unfold dyn_btree_floor. rewrite (fd_find _ _ _ _ _ _ _ F). cbn [mbind option_bind]. rewrite (fd_node _ _ _ _ _ _ _ F). cbn [mbind option_bind]. destruct (fd_core _ _ _ _ _ _ _ F) as (_ & Ek & Eu). cbv zeta. set (i := btree_lower (key n) k) in *.
  destruct Hcase as [[-> (a & w & Ha & Ea & ->)]|[-> ->]]; [exists (Some k); split; [done|]; cbn; by rewrite Ea|]. destruct (Nat.eqb_spec i 0) as [H0|H0].
  - assert (En : leaf_prev (heap bt) p = Some (last (map fst (lleaves c)))) by (unfold leaf_prev; rewrite (fd_node _ _ _ _ _ _ _ F); cbn [mbind option_bind]; by rewrite Eu). rewrite En. cbn [mbind option_bind]. rewrite (last_of_leaves bt t (lleaves c) _ _ Hok E) by (pose proof (leaves_size bt t Hok) as Hs; rewrite E, length_app in Hs; lia). eexists. split; [done|]. rewrite H0. cbn [take]. rewrite app_nil_r. by destruct (last (flat_of (lleaves c))).
  - destruct (lookup_lt_is_Some_2 kvs (i - 1) ltac:(lia)) as [e He]. rewrite Ek, list_lookup_fmap, He. eexists. split; [done|]. replace (take i kvs) with (take (i - 1) kvs ++ [e]) by (replace i with (S (i - 1)) at 2 by lia; by rewrite (take_S_r _ _ _ He)). by rewrite app_assoc, last_snoc.
Qed.

(** ** Whole walks *)

Lemma keys_loop_spec bt t lb : tree_ok bt t -> forall la fuel out, leaves t = la ++ lb -> (length lb < fuel)%nat -> keys_loop fuel (heap bt) (next_of (map fst lb) None) out = Some (out ++ map fst (flat_of lb)).
Proof.
  intros Hok. induction lb as [|[p kvs] lb IH]; intros la fuel out E Hf; [destruct fuel; cbn [keys_loop next_of map flat_of concat]; by rewrite app_nil_r|]. destruct fuel as [|fuel]; [cbn in Hf; lia|]. cbn [map fst next_of keys_loop]. destruct (leaf_facts _ _ _ _ _ _ Hok E) as (n & Hn & Ek & Eu). rewrite Hn. cbn [mbind option_bind]. assert (En : leaf_next (heap bt) p = Some (next_of (map fst lb) None)) by (unfold leaf_next; rewrite Hn; cbn [mbind option_bind]; by rewrite Eu). rewrite En. cbn [mbind option_bind]. rewrite (IH (la ++ [(p, kvs)])); [|by rewrite <- app_assoc|cbn in Hf; lia]. rewrite Ek, flat_of_cons, map_app. by rewrite <- app_assoc.
Qed.

Lemma leftmost_next bt t : tree_ok bt t -> exists p, btree_leftmost bt = Some p /\ Some p = next_of (map fst (leaves t)) None.
Proof. intros Hok. destruct (end_leaf bt t false Hok) as (p & Ep & Hp). exists p. split; [done|]. destruct (leaves t); [done|]. symmetry. exact Hp. Qed.

Lemma keys_spec bt t : tree_ok bt t -> dyn_btree_get_keys bt = Some (map fst (entries t)).
Proof.
  intros Hok. destruct (leftmost_next bt t Hok) as (p & Ep & En). unfold dyn_btree_get_keys. rewrite Ep. cbn [mbind option_bind]. rewrite En, (entries_flat bt t Hok). rewrite (keys_loop_spec bt t (leaves t) Hok [] _ []); [done|done|pose proof (leaves_size bt t Hok); lia].
Qed.

(** The function is called on one run of entries after the other. *)
Fixpoint walk_runs {W} (fn : W -> list Z -> list V -> bool * W) (runs : list (list (Z * V))) (w : W) (n : Z) : Z * W :=
  match runs with
  | [] => (n, w)
  | kvs :: runs => match fn w (map fst kvs) (map snd kvs) with (false, w) => (n, w) | (true, w) => walk_runs fn runs w (u32 (n + Z.of_nat (length kvs))) end
  end.

Lemma walk_spec {W} (fn : W -> list Z -> list V -> bool * W) bt t w : tree_ok bt t ->
  exists runs, dyn_btree_walk_leaves bt fn w = Some (walk_runs fn runs w 0) /\ concat runs = entries t /\ Forall (fun r => r <> []) runs.
Proof.
  intros Hok. destruct (leftmost_next bt t Hok) as (p & Ep & En). unfold dyn_btree_walk_leaves. rewrite Ep. cbn [mbind option_bind]. rewrite En, (entries_flat bt t Hok). set (runs := filter (fun l => l <> []) (map snd (leaves t))). exists runs. split_and!.
  - unfold runs. assert (Hg : forall lb la fuel w n, leaves t = la ++ lb -> (length lb < fuel)%nat -> walk_loop fn fuel (heap bt) (next_of (map fst lb) None) w n = Some (walk_runs fn (filter (fun l => l <> []) (map snd lb)) w n)).
    { clear p Ep En w. induction lb as [|[p kvs] lb IH]; intros la fuel w n E Hf; [by destruct fuel|]. destruct fuel as [|fuel]; [cbn in Hf; lia|]. cbn [map fst snd next_of walk_loop]. destruct (leaf_facts _ _ _ _ _ _ Hok E) as (nd & Hn & Ek & Eu). rewrite Hn. cbn [mbind option_bind]. rewrite Eu, Ek, length_map. assert (E' : leaves t = (la ++ [(p, kvs)]) ++ lb) by (by rewrite <- app_assoc). cbn [length] in Hf. destruct (Nat.eqb_spec (length kvs) 0) as [H0|H0].
      - apply nil_length_inv in H0 as ->. rewrite filter_cons_False by (intros H; by apply H). by apply (IH _ _ _ _ E'); lia.
      - rewrite filter_cons_True by (by intros ->). cbn [walk_runs]. destruct (fn w (map fst kvs) (map snd kvs)) as [[] w']; [|done]. apply (IH _ _ _ _ E'). lia. }
    apply (Hg _ []); [done|]. pose proof (leaves_size bt t Hok). lia.
  - unfold runs, flat_of. induction (map snd (leaves t)) as [|l ls IH]; [done|]. destruct l as [|e l]; [rewrite filter_cons_False by (intros H; by apply H); exact IH|rewrite filter_cons_True by done; cbn [concat]; by rewrite IH].
  - apply Forall_forall. intros l Hl. by apply list_elem_of_filter in Hl as [? _].
Qed.
End Walk.
