(* ===== verification/BTreeProps.v ===== *)
(** * A B+ tree is a sorted map

    The map of a tree is the list of its entries in the order of their keys; every
    operation is one on that list, and every search, iterator and walk reads it. *)
From Stdlib Require Import ZArith Lia List Arith.
From stdpp Require Import base numbers list option gmap sorting.
From S2P Require Import Prelude Doubles BTree BTreeTree BTreeOrder BTreeHeap BTreeSplit BTreeOps BTreeWalk.

Section Props.
Context {V : Type}.
Implicit Types (bt : dyn_btree_t V) (L : list (Z * V)).

(** The heap is that of a B+ tree with the entries [L]. *)
Definition btree_is bt L : Prop := exists t, btree_repr bt t /\ entries t = L.

Definition sorted_map L : Prop := StronglySorted (fun a b => o a.1 < o b.1) L /\ Forall (fun e => isnan e.1 = false) L.

Lemma entries_sorted (l : list (item V)) : StronglySorted before l -> Forall item_ok l -> sorted_map (omap ent l).
Proof.
  induction l as [|x l IH]; intros HS HF; [split; constructor|]. apply StronglySorted_cons in HS as [H1 HS]. apply Forall_cons in HF as [Hx HF]. destruct (IH HS HF) as [I1 I2]. destruct x as [k|k v]; [done|]. change (omap ent (Ent k v :: l)) with ((k, v) :: omap ent l). split; constructor; try done. apply Forall_forall. intros [a w] Hin. apply list_elem_of_omap in Hin as (y & Hy & E). rewrite Forall_forall in H1. specialize (H1 y Hy). destruct y; [discriminate|]. injection E as -> ->. exact H1.
Qed.

Lemma btree_is_sorted bt L : btree_is bt L -> sorted_map L.
Proof. intros (t & [Hok _] & <-). destruct (tk_ordered _ _ Hok) as [HS HF]. by apply entries_sorted. Qed.

(** What an iterator gives until it is at the end. *)
Fixpoint drain (fuel : nat) bt (it : dyn_btree_iter) : option (list (Z * V)) :=
  match fuel with
  | O => None
  | S fuel =>
      r ← dyn_btree_iter_get bt it;
      match r with
      | None => Some []
      | Some e => it ← dyn_btree_iter_next bt it; l ← drain fuel bt it; Some (e :: l)
      end
  end.

Lemma drain_spec bt t L : tree_ok bt t -> forall fuel it, iter_at t it L -> (length L < fuel)%nat -> drain fuel bt it = Some L.
Proof.
  intros Hok. induction L as [|e L IH]; intros fuel it Hit Hf; (destruct fuel as [|fuel]; [lia|]); cbn [drain]; rewrite (iter_get_spec bt t it _ Hok Hit); cbn [mbind option_bind hd_error]; [done|]. destruct (bt_iter_next_spec bt t it _ Hok Hit) as (it' & -> & Hit'). cbn [mbind option_bind tl length] in *. rewrite (IH fuel it' Hit') by lia. done.
Qed.

(** A tree that is one leaf. *)
Definition one_leaf L : dyn_btree_t V := mk_btree {[0%nat := mk_node None (map fst L) (Leaf_u (map snd L) None None)]} 1 0 0 (u32 (Z.of_nat (length L))).

Lemma one_leaf_is L : sorted_map L -> (length L < DYN_BTREE_ORDER)%nat -> btree_is (one_leaf L) L.
Proof.
  intros [HS HF] Hl. exists (Lf 0 L). assert (He : entries (Lf 0 L) = L) by apply omap_ents. split; [|done]. split; [|unfold counted; by rewrite He]. split; [done| | |by exists 0%nat].
  - split; cbn.
    + apply NoDup_singleton.
    + rewrite dom_singleton_L. by rewrite (right_id_L ∅ (∪)).
    + constructor; [done|constructor].
    + done.
    + apply NoDup_singleton.
    + done.
    + intros p Hp. by apply elem_of_nil in Hp.
    + intros p Hp. apply list_elem_of_singleton in Hp. lia.
  - split; cbn [flat].
    + clear - HS. induction HS as [|[k v] L HS IH HF]; [constructor|]. cbn. constructor; [done|]. apply Forall_fmap. eapply Forall_impl; [exact HF|]. done.
    + apply Forall_fmap. eapply Forall_impl; [exact HF|]. done.
Qed.

Lemma new_is mem : (exists mem', dyn_btree_new (V := V) mem = (None, mem') /\ false ∈ mem) \/ exists bt mem', dyn_btree_new mem = (Some bt, mem') /\ btree_is bt [].
Proof.
  unfold dyn_btree_new. destruct (hd true mem) eqn:E1; [|left; eexists; split; [done|]; destruct mem as [|[] mem]; try done; by left]. unfold btree_node_new. destruct (hd true (tl mem)) eqn:E2; [right|left; eexists; split; [done|]; destruct mem as [|b mem]; [done|]; right; destruct mem as [|[] mem]; try done; by left]. eexists _, _. split; [done|]. apply (one_leaf_is []); [split; constructor|vm_compute; lia].
Qed.

(** Reading in order: the size, the first and the last key, the least key not
    below and the greatest not above a double, the value of a key and the list of
    the keys are those of the sorted map; an iterator from the beginning gives all
    entries, one from a key the entries from that key on, in order, and then ends;
    a walk hands the entries to the function in runs. *)
Definition reads_as bt L : Prop :=
  dyn_btree_size bt = u32 (Z.of_nat (length L)) /\
  dyn_btree_first bt = Some (option_map fst (hd_error L)) /\ dyn_btree_last bt = Some (option_map fst (last L)) /\
  dyn_btree_get_keys bt = Some (map fst L) /\
  (exists it, dyn_btree_iter_begin bt = Some it /\ drain (S (length L)) bt it = Some L) /\
  (forall k, isnan k = false ->
    dyn_btree_get bt k = Some (assoc k L) /\
    dyn_btree_ceil bt k = Some (option_map fst (hd_error (from k L))) /\
    (exists r, dyn_btree_floor bt k = Some r /\ option_map double_ord r = option_map (fun e => double_ord e.1) (last (upto k L))) /\
    exists it, dyn_btree_iter_seek bt k = Some it /\ drain (S (length (from k L))) bt it = Some (from k L)) /\
  (forall W (fn : W -> list Z -> list V -> bool * W) w, exists runs, dyn_btree_walk_leaves bt fn w = Some (walk_runs fn runs w 0) /\ concat runs = L).

Lemma btree_reads bt L : btree_is bt L -> reads_as bt L.
Proof.
  intros (t & [Hok Hcnt] & <-). split_and!; [exact Hcnt|by apply first_spec|by apply last_spec|by apply keys_spec| | |].
  - destruct (begin_spec bt t Hok) as (it & E & Hit). exists it. split; [done|apply (drain_spec bt t); [done|done|lia]].
  - intros k Hk. split_and!; [by apply get_spec|by apply ceil_spec|by apply floor_spec|].
    destruct (seek_spec bt t k Hok Hk) as (it & E & Hit). exists it. split; [done|apply (drain_spec bt t); [done|done|lia]].
  - intros W fn w. destruct (walk_spec fn bt t w Hok) as (runs & E & Hc & _). by exists runs.
Qed.

(** C35. A B+ tree is a map from doubles, kept in order.  A new one is empty.
    Searches, iterators and walks read the sorted map ([reads_as]): leaves that
    deletions left empty are passed over and every loop ends.  Setting replaces
    the value of a key that is there, answering the old one, or adds the key,
    through splits of full nodes up to a new root; it fails only when an
    allocation does, and then the map is what it was and no node is left behind.
    Deleting takes the key away and answers its value.  The keys are compared as
    doubles, so that the two zeros are one key and NaN is none, and the heap is
    again that of a balanced tree without a node too many. *)
Theorem btree_refines mem :
  ((exists mem', dyn_btree_new (V := V) mem = (None, mem') /\ false ∈ mem) \/ exists bt mem', dyn_btree_new mem = (Some bt, mem') /\ btree_is bt []) /\
  forall bt L k v, btree_is bt L -> isnan k = false -> Z.of_nat (size (heap bt)) < 2 ^ 60 ->
    sorted_map L /\ reads_as bt L /\
    (exists (ok : bool) old bt' mem', dyn_btree_set mem bt k v = Some (ok, old, bt', mem') /\ if ok then btree_is bt' (assoc_set k v L) /\ old = assoc k L else btree_is bt' L /\ old = None /\ false ∈ mem) /\
    (exists bt', dyn_btree_del bt k = Some (assoc k L, bt') /\ btree_is bt' (assoc_del k L)).
Proof.
  split; [apply new_is|]. intros bt L k v HL Hk Hs. split; [by apply (btree_is_sorted bt)|]. split; [by apply btree_reads|]. destruct HL as (t & Hr & <-). split.
  - destruct (set_spec mem bt t k v Hr Hk Hs) as (ok & old & bt' & mem' & t' & E & Hr' & Hres). exists ok, old, bt', mem'. split; [done|]. destruct ok; destruct Hres as [<- Hold]; (split; [by exists t'|done]).
  - destruct (del_spec bt t k Hr Hk) as (bt' & t' & E & Hr' & Een). exists bt'. split; [done|]. by exists t'.
Qed.
End Props.

(** ** Examples *)

(** 1.0, 2.0 and 3.0. *)
Definition three : list (Z * nat) := [(0x3ff0000000000000, 1%nat); (0x4000000000000000, 2%nat); (0x4008000000000000, 3%nat)].

Lemma three_sorted : sorted_map three.
Proof. split; repeat constructor. Qed.

(** A thousand keys in another order, three levels, every second one deleted. *)
Definition many : list Z := map (fun i => (Z.of_nat i * 37) mod 1009) (seq 1 1008).
Definition many_tree : option (dyn_btree_t Z) :=
  t ← (dyn_btree_new []).1;
  t ← fold_left (fun o k => t ← o; r ← dyn_btree_set [] t k (2 * k); Some r.1.2) many (Some t);
  fold_left (fun o k => t ← o; r ← dyn_btree_del t k; Some r.2) (filter (fun k => k mod 2 = 0) many) (Some t).

Example many_tree_reads :
  (t ← many_tree; ks ← dyn_btree_get_keys t; a ← dyn_btree_get t 501; b ← dyn_btree_get t 500; c ← dyn_btree_ceil t 500; d ← dyn_btree_floor t 500; Some (bool_decide (ks = map (fun i => 2 * Z.of_nat i + 1) (seq 0 504)), a, b, c, d)) = Some (true, Some 1002, None, Some 501, Some 499).
Proof. vm_compute. reflexivity. Qed.

(** The value of 2.0 is read, replaced and deleted. *)
Lemma btree_refines_witness :
  reads_as (one_leaf three) three /\
  (exists (ok : bool) old bt' mem', dyn_btree_set [] (one_leaf three) 0x4000000000000000 7%nat = Some (ok, old, bt', mem') /\ if ok then btree_is bt' (assoc_set 0x4000000000000000 7%nat three) /\ old = Some 2%nat else btree_is bt' three /\ old = None /\ false ∈ (@nil bool)) /\
  (exists bt', dyn_btree_del (one_leaf three) 0x4000000000000000 = Some (Some 2%nat, bt') /\ btree_is bt' (assoc_del 0x4000000000000000 three)).
Proof.
  destruct (btree_refines (V := nat) []) as [_ H]. apply (H (one_leaf three) three 0x4000000000000000 7%nat (one_leaf_is three three_sorted ltac:(vm_compute; lia))); vm_compute; reflexivity.
Defined.
